(* ===== verification/_CoqProject ===== *)
-Q . S2P
Prelude.v
Checked.v
Calendar.v
AKTime.v
BitmapView.v
BitmapFind.v
Bitmap.v
Heap.v
ExpandableHeap.v
Containers.v
RangeAllocator.v
Lock.v
LinkedList.v
TimerQueue.v
Utf8.v
Base64.v
LEB128.v
RedBlackTree.v
RedBlackInsert.v
RedBlackRemove.v
PhysicalRegion.v
MemoryManager.v
MemoryMap.v
HashTable.v
HashMap.v
CircularQueue.v
DoubleBuffer.v
TcpPacket.v
TcpSocket.v
Tcp.v
TcpInvariant.v
TcpCalls.v
TcpConnection.v
TcpDefects.v
DiskCache.v
Ext2Alloc.v
Ext2BlockList.v
Ext2File.v
Ext2Inode.v
