(* ===== verification/Prelude.v ===== *)
(** * A verification of the pranaOS core library and kernel memory management

    pranaOS is an operating system in C++: [AK] is its core library, [Kernel] the kernel,
    [UserLand] the programs.  This development models the parts of the kernel that hand out
    memory, keep time, lock, buffer, speak TCP and store files, and the parts of [AK] they are
    built on, together with the codecs and containers of [AK].

    ** Parts and files

    Foundations.
    - Prelude.v (this file): results that may fail ([outcome]), machine integers, loads and
      stores, record updates, tactics.
    - Checked.v: AK/Checked.h, integers with a sticky overflow flag.
    - Calendar.v, AKTime.v: AK/Time.h and AK/Time.cpp, calendar arithmetic and the class
      [Time] that saturates.

    Bits and memory.
    - BitmapView.v, BitmapFind.v, Bitmap.v: AK/BitmapView.h and AK/Bitmap.h, bit sets over
      raw bytes: reading, writing and counting ranges, searching, and bitmaps that own and
      grow their memory.
    - Heap.v, ExpandableHeap.v: Kernel/Heap/Heap.h.  [Heap] hands out runs of chunks that its
      bitmap marks; [ExpandableHeap] chains heaps and asks for more memory when they are full.
    - Containers.v: indexed operations of AK/Vector.h, and AK/BinarySearch.h.
    - RangeAllocator.v: Kernel/VM/Range and RangeAllocator, virtual address ranges.
    - PhysicalRegion.v: Kernel/VM/PhysicalRegion, the pages of one region of memory, over
      [Bitmap].
    - MemoryManager.v: the part of Kernel/VM/MemoryManager that hands out, commits and counts
      physical pages, over the regions.
    - MemoryMap.v: the part of Kernel/VM/MemoryManager that reads the boot loader's memory map
      into regions, and decides what memory a process may map.

    Concurrency and time.
    - Lock.v: Kernel/Lock.cpp with Kernel/WaitQueue.cpp, the recursive shared lock and its
      waiting threads, as a step relation over all threads.
    - LinkedList.v: AK/InlineLinkedList.h on a shared memory of nodes, and the interface
      [LinkedListLaws].
    - TimerQueue.v: Kernel/TimeQueue.cpp, proved against that interface and then used with
      the list of LinkedList.v.
    - DoubleBuffer.v: Kernel/DoubleBuffer.cpp, the byte queue of pipes and terminals.

    Network.
    - TcpPacket.v: Kernel/Net/TCP.h, the header of TCP as bytes, and the checksums of
      Kernel/Net/TCPSocket.cpp and Kernel/Net/IPv4.h.
    - TcpSocket.v: Kernel/Net/TCPSocket.cpp with what a TCP socket inherits from
      Kernel/Net/IPv4Socket.cpp and Kernel/Net/Socket.cpp: the calls of a socket, over a store
      of all sockets and the two tables of the class; the receive buffer is the one of
      DoubleBuffer.v.
    - Tcp.v: [handle_tcp] of Kernel/Net/NetworkTask.cpp.
    - TcpInvariant.v, TcpCalls.v: the invariant of the sockets and their tables, for packets
      and for calls, and the machine that interleaves both.
    - TcpConnection.v: two such machines that deliver each other's packets.
    - TcpDefects.v: inputs on which TCP does not do what it should.

    Files.
    - DiskCache.v: Kernel/FileSystem/BlockBasedFileSystem.cpp, the cache of blocks with its
      lists of clean and dirty entries over a device, and the interface [BlockStore] of what
      reading and writing blocks promises.
    - Ext2Alloc.v: the block and inode bitmaps, group descriptors and counters of
      Kernel/FileSystem/Ext2FileSystem.cpp, proved against [BlockStore]; the searches are those
      of BitmapFind.v.
    - Ext2BlockList.v: the direct, indirect and doubly indirect blocks of an inode.
    - Ext2File.v: reading, writing, resizing and truncating files.
    - Ext2Inode.v: the inode table, caching and writing back inodes, their times and link
      counts, and freeing them.

    Containers and codecs.
    - RedBlackTree.v (nodes, rotations, loops), RedBlackInsert.v, RedBlackRemove.v:
      AK/RedBlackTree.h on a memory of nodes.
    - HashTable.v, HashMap.v: AK/HashTable.h, AK/HashFunctions.h, AK/HashMap.h.
    - CircularQueue.v: AK/CircularQueue.h, AK/CircularDeque.h, AK/CircularDuplexStream.h.
    - Utf8.v: AK/Utf8View.cpp and the UTF-8 output of AK/StringBuilder.cpp.
    - Base64.v: AK/Base64.cpp.  LEB128.v: AK/LEB128.h over AK/MemoryStream.h.

    ** How the code is modelled

    A class is a record with the members of the source, a method [m] of a class [C] the
    function [C_m] from the object to an [outcome] of the result and the new object.  A
    failed [VERIFY], an access outside of the memory and undefined behaviour are failures, so
    a theorem that an operation returns ([Ret]) is also the theorem that it does none of
    these.  Integers are [Z] kept at their width: unsigned arithmetic wraps, signed
    overflow is undefined.  The target is i686, [size_t] and pointers have 32 bits.  Objects
    that share memory (list and tree nodes, timers) live in a finite map from addresses to
    them, and the theorems say what stays unchanged.  Code that runs under a spin lock or
    with interrupts off is one atomic step; where the source gives up the lock between
    steps, the steps are the rules of a relation.  Random numbers, the allocator below the
    heaps, the hash and the equality of keys and the boot loader's data are parameters.  So
    are, for TCP, the routes, what sending gives, the clock, and the class [IPv4SocketTuple],
    which the sources use but do not contain; [SocketTupleLaws] says what they rely on; and,
    for files, the device and the clock.

    The hash maps of AK inside other components are finite maps ([gmap]) there: the table of
    the disk cache, the shared holders of a lock, the tables of sockets and of cached inodes.
    HashMap.v shows that they are, as long as the probes of their keys visit all buckets; that
    this can fail ([HashTable_contains_diverges]) is not visible in those components.

    ** What the theorems show

    - Invariants of every reachable state: the heap, the regions, the memory manager and the
      range allocator do not hand out the same memory twice and account for all of it; the
      lock is never held exclusively by two threads, its counters are exact and no wake-up is
      lost; the timer queue stays sorted and its reference counts right; the red-black tree
      keeps its order and balance; the tables of sockets stay consistent whatever packets
      arrive; the bitmaps and counters of the file system agree.
    - Protocols: sockets move along the edges of the TCP state machine, [connect] and three
      packets establish a connection, and what one host writes the other reads in order as
      long as it has room for it.
    - Files: the cached blocks are those of a store without a cache; a file is the sequence of
      its bytes, which writing and truncating change as they should, leaving other files
      alone; the block list of an inode and the inode itself are read back as written.
    - Functional behaviour of each operation on every branch, failures included, as an
      operation on an abstract value: bits of a bitmap, sets of addresses, sequences of
      nodes, finite maps ([gmap]), queues of bytes.
    - Round trips: code points through UTF-8, bytes through Base64, numbers through LEB128,
      times through the structs of the C library.
    - Bounds and overflow: [Checked] computes exactly or says so, [Time] saturates.
    - Where the code does not do what it means to, a theorem named after the defect
      evaluates the definitions on an input that shows it.

    Several of these hold only under conditions that the code does not check itself.  The
    theorems have them as hypotheses or as guards of the step relation, their comments name
    them, and the defect theorems show that they are needed: allocation sizes whose sum with
    the header wraps ([Heap_allocate_wraps]), aligned requests without room for the alignment
    ([PhysicalRegion_aligned_overlap]), regions that touch or are not whole groups of eight
    pages ([MemoryManager_touching_regions_fail], [MemoryManager_committed_page_missing]),
    keys whose probes miss buckets, an emptied red-black tree
    ([RedBlackTree_remove_last_dangling]), address spaces of 2 GiB and more
    ([RangeAllocator_deallocate_misorders]), memory maps with touching entries
    ([parse_memory_map_touching]), sockets that are rebound or destroyed under the table
    ([bind_started_fails], [failed_listen_unregisters]), writers that overrun the receive
    buffer ([refused_data_acknowledged]), and files with holes or beyond the doubly indirect
    blocks.

    ** Fuel

    Loops that the source bounds are structural recursions over the bound (bits, bytes,
    elements).  The others take fuel, running out of it is the failure [NoFuel], and the
    theorems show that enough fuel gives the result: the nodes of the memory for the
    loops of lists and trees; the bytes left for strings; the pages of an entry for the
    memory map; the number of ephemeral ports for the search of a free one; the number of
    probes that visits all buckets for the hash table.  The last is a hypothesis on the
    keys, as the source does not ensure it: [HashTable_contains_diverges] shows a search
    without end.  A rehash may start another one; the model has three levels, and the theorems
    show that they suffice.  [resize] and [write_bytes] of a file call each other, and [get] of
    the disk cache calls itself after a flush: two levels are enough.  Allocating blocks takes as
    many rounds as there are blocks, and reading a whole file one per 4096 bytes and two more.

    ** Not modelled

    Drivers, interrupts, context switches, page tables and the architecture layer, since the
    behaviour of the hardware is not in the sources; the virtual file system, the other file
    systems and the directories, symbolic links and mounting of ext2; the network stack
    besides TCP, terminals, processes and the other system calls, which rest on these; of TCP
    sockets, their options and ioctls, [MSG_PEEK], bound interfaces and failing allocations;
    strings, formatting and the parsers of [AK] and its containers that no modelled part uses;
    the userland.  Of the parts that are modelled, debug output, the destruction of elements
    without effect on the state, and timing are left out; PROJECT.json lists every part and
    what is left out of it. *)

From Stdlib Require Export ZArith Lia ZifyBool.
From stdpp Require Export base tactics numbers list list_numbers option relations.

#[global] Set Default Proof Using "Type".

Declare Scope prana_scope.
Delimit Scope prana_scope with prana.

(** ** Outcomes

    The C++ code can fail to give a result in four ways: a [VERIFY] that does
    not hold (which halts the kernel or aborts the program), a load or store
    outside the buffer it goes to, an arithmetic operation the language leaves
    undefined (a division that traps), and a loop that has not ended after the
    fuel the model gives it.  Every operation that can do one of these is a
    function into [outcome]. *)

Inductive failure : Type :=
| VerifyFailed
| OutOfBounds
| Undefined
| NoFuel.

Inductive outcome (A : Type) : Type :=
| Ret (a : A)
| Stop (f : failure).
Arguments Ret {A} _.
Arguments Stop {A} _.

#[global] Instance failure_eq_dec : EqDecision failure.
Proof. solve_decision. Defined.
#[global] Instance outcome_eq_dec {A} `{EqDecision A} : EqDecision (outcome A).
Proof. solve_decision. Defined.

#[global] Instance outcome_ret : MRet outcome := @Ret.
#[global] Instance outcome_bind : MBind outcome := fun A B f c =>
  match c with
  | Ret a => f a
  | Stop e => Stop e
  end.

(** [VERIFY(e)] of AK/Assertions.h. *)
Definition VERIFY (b : bool) : outcome unit :=
  if b then Ret tt else Stop VerifyFailed.

(** A read of element [i] of a buffer, faulting outside of it. *)
Definition load {A} (l : list A) (i : Z) : outcome A :=
  if (0 <=? i)%Z then
    match l !! Z.to_nat i with
    | Some x => Ret x
    | None => Stop OutOfBounds
    end
  else Stop OutOfBounds.

(** A write of element [i] of a buffer, faulting outside of it. *)
Definition store {A} (l : list A) (i : Z) (x : A) : outcome (list A) :=
  if (0 <=? i)%Z && (i <? Z.of_nat (length l))%Z
  then Ret (<[Z.to_nat i := x]> l)
  else Stop OutOfBounds.

Section outcome_lemmas.
Context {A B C : Type}.
Implicit Types (c : outcome A) (f : A -> outcome B).

Lemma bind_Ret (a : A) f : (Ret a ≫= f) = f a.
Proof. reflexivity. Qed.

Lemma bind_Stop e f : (Stop e ≫= f) = Stop e.
Proof. reflexivity. Qed.

Lemma bind_Ret_inv c f b :
  (c ≫= f) = Ret b -> exists a, c = Ret a /\ f a = Ret b.
Proof. destruct c as [a|e]; [intros H; exists a; auto | discriminate]. Qed.

Lemma bind_assoc c f (g : B -> outcome C) :
  ((c ≫= f) ≫= g) = (c ≫= fun a => f a ≫= g).
Proof. by destruct c. Qed.
End outcome_lemmas.

Lemma VERIFY_Ret b u : VERIFY b = Ret u -> b = true.
Proof. by destruct b. Qed.

Lemma VERIFY_true b : b = true -> VERIFY b = Ret tt.
Proof. by intros ->. Qed.

(** ** Fixed-width integers

    A C++ integer of [width] bits is a [Z] in the range of its type; conversion
    to the type reduces modulo 2^width, in two's complement when signed. *)

#[local] Open Scope Z_scope.

Record int_type : Type := IntType { width : Z; is_signed : bool }.

#[global] Instance int_type_eq_dec : EqDecision int_type.
Proof. solve_decision. Defined.

Definition int_min (t : int_type) : Z :=
  if is_signed t then - 2 ^ (width t - 1) else 0.
Definition int_max (t : int_type) : Z :=
  if is_signed t then 2 ^ (width t - 1) - 1 else 2 ^ width t - 1.

Definition in_type (t : int_type) (x : Z) : Prop := int_min t <= x <= int_max t.
Definition in_typeb (t : int_type) (x : Z) : bool :=
  (int_min t <=? x) && (x <=? int_max t).

Definition wrap (t : int_type) (x : Z) : Z :=
  if is_signed t
  then (x + 2 ^ (width t - 1)) mod 2 ^ width t - 2 ^ (width t - 1)
  else x mod 2 ^ width t.

Definition u8 := IntType 8 false.
Definition u16 := IntType 16 false.
Definition u32 := IntType 32 false.
Definition u64 := IntType 64 false.
Definition i8 := IntType 8 true.
Definition i16 := IntType 16 true.
Definition i32 := IntType 32 true.
Definition i64 := IntType 64 true.

(** The default target is i686 (CMakeLists.txt:17): pointers and sizes have 32 bits. *)
Definition size_t := u32.
Definition FlatPtr := u32.

(** Kernel/Arch/x86/CPU.h:19. *)
Definition PAGE_SIZE : Z := 4096.

(** Signed arithmetic whose exact result does not fit the type is undefined. *)
Definition arith_in (t : int_type) (exact : Z) : outcome Z :=
  if in_typeb t exact then Ret exact else Stop Undefined.

Section int_type_lemmas.
Context (t : int_type) (Ht : 0 < width t).

Lemma int_type_size : int_max t - int_min t + 1 = 2 ^ width t.
Proof using Ht.
  unfold int_min, int_max. destruct (is_signed t); [|lia].
  replace (width t) with (Z.succ (width t - 1)) at 3 by lia.
  rewrite Z.pow_succ_r by lia. lia.
Qed.

Lemma int_type_pow_pos : 0 < 2 ^ width t.
Proof using Ht. apply Z.pow_pos_nonneg; lia. Qed.

Lemma wrap_in_type x : in_type t (wrap t x).
Proof using Ht.
  pose proof int_type_size as Hs. pose proof int_type_pow_pos as Hp.
  unfold in_type, wrap, int_min, int_max in *.
  destruct (is_signed t).
  - pose proof (Z.mod_pos_bound (x + 2 ^ (width t - 1)) (2 ^ width t) Hp). lia.
  - pose proof (Z.mod_pos_bound x (2 ^ width t) Hp). lia.
Qed.

Lemma wrap_id x : in_type t x -> wrap t x = x.
Proof using Ht.
  pose proof int_type_size as Hs.
  unfold in_type, wrap, int_min, int_max in *.
  destruct (is_signed t); intros Hx; [rewrite Z.mod_small by lia; lia|].
  by rewrite Z.mod_small by lia.
Qed.

Lemma wrap_congr x : exists k, wrap t x = x + k * 2 ^ width t.
Proof using Ht.
  pose proof int_type_pow_pos as Hp. unfold wrap.
  destruct (is_signed t).
  - exists (- ((x + 2 ^ (width t - 1)) / 2 ^ width t)).
    rewrite Z.mod_eq by lia. lia.
  - exists (- (x / 2 ^ width t)). rewrite Z.mod_eq by lia. lia.
Qed.

Lemma in_typeb_spec x : in_typeb t x = true <-> in_type t x.
Proof using Type. unfold in_typeb, in_type. lia. Qed.

Lemma arith_in_Ret x : in_type t x -> arith_in t x = Ret x.
Proof using Type. intros H. unfold arith_in. by rewrite (proj2 (in_typeb_spec x) H). Qed.
End int_type_lemmas.

(** The ranges and reductions of the concrete types as numerals, so that [lia]
    decides questions about them. *)
Lemma in_type_u8 x : in_type u8 x <-> 0 <= x <= 255.
Proof. reflexivity. Qed.
Lemma in_type_u16 x : in_type u16 x <-> 0 <= x <= 65535.
Proof. reflexivity. Qed.
Lemma in_type_u32 x : in_type u32 x <-> 0 <= x <= 4294967295.
Proof. reflexivity. Qed.
Lemma in_type_u64 x : in_type u64 x <-> 0 <= x <= 18446744073709551615.
Proof. reflexivity. Qed.
Lemma in_type_i32 x : in_type i32 x <-> -2147483648 <= x <= 2147483647.
Proof. reflexivity. Qed.
Lemma in_type_i64 x : in_type i64 x <-> -9223372036854775808 <= x <= 9223372036854775807.
Proof. reflexivity. Qed.
Lemma in_typeb_i32 x :
  in_typeb i32 x = (-2147483648 <=? x) && (x <=? 2147483647).
Proof. reflexivity. Qed.
Lemma in_typeb_u32 x : in_typeb u32 x = (0 <=? x) && (x <=? 4294967295).
Proof. reflexivity. Qed.
Lemma in_typeb_i64 x :
  in_typeb i64 x = (-9223372036854775808 <=? x) && (x <=? 9223372036854775807).
Proof. reflexivity. Qed.
Lemma wrap_u8 x : wrap u8 x = x mod 256.
Proof. reflexivity. Qed.
Lemma wrap_u32 x : wrap u32 x = x mod 4294967296.
Proof. reflexivity. Qed.
Lemma wrap_u64 x : wrap u64 x = x mod 18446744073709551616.
Proof. reflexivity. Qed.
Lemma wrap_i32 x : wrap i32 x = (x + 2147483648) mod 4294967296 - 2147483648.
Proof. reflexivity. Qed.
Lemma wrap_i64 x :
  wrap i64 x = (x + 9223372036854775808) mod 18446744073709551616 - 9223372036854775808.
Proof. reflexivity. Qed.

Create Rewrite HintDb ints.
#[export] Hint Rewrite in_type_u8 in_type_u16 in_type_u32 in_type_u64 in_type_i32 in_type_i64
  in_typeb_i32 in_typeb_i64 in_typeb_u32 wrap_u8 wrap_u32 wrap_u64 wrap_i32 wrap_i64 : ints.

(** Integer goals about concrete types, also through C++ division. *)
Ltac int_lia := autorewrite with ints in *; Z.to_euclidean_division_equations; lia.

(** Remove a reduction of a value that already fits. *)
Ltac wrap_small t := rewrite (wrap_id t) by first [exact eq_refl | int_lia].

(** Resolve the next signed operation of a computation, proving that it fits. *)
Ltac step_arith :=
  match goal with
  | |- context [arith_in ?t ?x] =>
      rewrite (arith_in_Ret t x) by int_lia; simpl mbind
  end.

(** Equalities of boolean range tests. *)
Ltac bool_lia :=
  apply Bool.eq_true_iff_eq;
  rewrite ?orb_true_iff, ?andb_true_iff, ?orb_true_iff, ?andb_true_iff, ?negb_true_iff,
    ?Z.leb_le, ?Z.ltb_lt, ?Z.eqb_eq, ?Z.leb_gt, ?Z.ltb_ge, ?Z.eqb_neq;
  int_lia.

(** Go on with the result of the first operation of a computation. *)
Ltac run := cbn [mbind outcome_bind].
Tactic Notation "run" "in" hyp(H) := cbn [mbind outcome_bind] in H.

Definition clamp (lo hi x : Z) : Z := Z.max lo (Z.min hi x).

(** ** Finite checks *)

Lemma forallb_range (P : Z -> bool) n x :
  forallb P (seqZ 0 n) = true -> 0 <= x < n -> P x = true.
Proof.
  intros H Hx. rewrite forallb_forall in H. apply H, list_elem_of_In, elem_of_seqZ. lia.
Qed.

(** Check a decidable statement about [0 <= x < n] for every such [x]. *)
Ltac check_range n x :=
  refine (bool_decide_eq_true_1 _ _);
  match goal with
  | |- ?b = true =>
      let f := eval pattern x in b in
      match f with ?P x => apply (forallb_range P n x); [vm_compute; reflexivity|lia] end
  end.

Lemma forallb_range2 (P : Z -> Z -> bool) n m x y :
  forallb (fun x => forallb (P x) (seqZ 0 m)) (seqZ 0 n) = true -> 0 <= x < n -> 0 <= y < m ->
  P x y = true.
Proof.
  intros H Hx Hy. apply (forallb_range _ n x) in H; [|done]. by apply (forallb_range _ m y) in H.
Qed.

(** ** Updating a field of a record

    [Settable R] names the fields of a record in order; [r <| f := v |>] then is [r] with
    [v] in the field [f].  The update is found by replacing the field in the list. *)

Class Settable (R : Type) : Type := { rebuild : R -> R; rebuild_id : forall r, rebuild r = r }.

Class Setter {R T : Type} (field : R -> T) : Type := set_field : (T -> T) -> R -> R.
#[global] Arguments set_field {R T} field {_} _ _.

Ltac find_setter :=
  lazymatch goal with
  | |- @Setter ?R ?T ?field =>
      let e := constr:(rebuild (R := R)) in
      let e := eval hnf in e in
      let s := eval pattern field in e in
      lazymatch s with
      | ?with_field _ => exact (fun f => with_field (fun r => f (field r)))
      end
  end.
#[global] Hint Extern 1 (Setter _) => find_setter : typeclass_instances.

#[warnings="-postfix-notation-not-level-1"]
Notation "r <| f := v |>" := (set_field f (fun _ => v) r)
  (at level 12, left associativity, v at level 200, format "r  <| f  :=  v |>") : stdpp_scope.
