(* ===== verification/Checked.v ===== *)
(** * AK/Checked.h: overflow-checked integers

    [TypeBoundsChecker] and [is_within_range], and the class [Checked<T>] with its
    arithmetic, assignment and comparison operators.  [T] is an [int_type]; the
    value is kept at its width, and the sticky flag [m_overflow] records whether
    some operation left the range of [T]. *)

From S2P Require Import Prelude.

#[local] Open Scope Z_scope.

(** ** Range checks between integer types *)

(** [MakeUnsigned<T>]. *)
Definition make_unsigned (t : int_type) : int_type := IntType (width t) false.

(** The eight specialisations of [TypeBoundsChecker], selected by whether the
    destination is at least as wide as the source and by the two signednesses. *)
Definition TypeBoundsChecker_is_within_range
    (destination_is_wider destination_is_signed source_is_signed : bool)
    (Destination Source : int_type) (value : Z) : bool :=
  match destination_is_wider, destination_is_signed, source_is_signed with
  | false, false, false => value <=? int_max Destination
  | false, true, true =>
      (value <=? int_max Destination) && (int_min Destination <=? value)
  | false, false, true =>
      wrap (make_unsigned Source) value <=? int_max Destination
  | false, true, false => value <=? wrap Source (int_max Destination)
  | true, false, false => true
  | true, true, true => true
  | true, false, true => 0 <=? value
  | true, true, false =>
      if width Source <? width Destination then true
      else value <=? wrap Source (int_max Destination)
  end.

Definition is_within_range (Destination Source : int_type) (value : Z) : bool :=
  TypeBoundsChecker_is_within_range
    (width Source <=? width Destination) (is_signed Destination) (is_signed Source)
    Destination Source value.

(** ** The class [Checked<T>] *)

Record Checked : Type := MkChecked { m_value : Z; m_overflow : bool }.

#[global] Instance Checked_eq_dec : EqDecision Checked.
Proof. solve_decision. Defined.

Definition Checked_default : Checked := MkChecked 0 false.

Definition Checked_of (value : Z) : Checked := MkChecked value false.

(** The converting constructor from another integer type [U]. *)
Definition Checked_from (T U : int_type) (value : Z) : Checked :=
  MkChecked (wrap T value) (negb (is_within_range T U value)).

(** The move constructor: the new object and what is left of the old one. *)
Definition Checked_move (other : Checked) : Checked * Checked :=
  (MkChecked (m_value other) (m_overflow other), MkChecked 0 false).

Definition Checked_assign (T U : int_type) (self : Checked) (value : Z) : Checked :=
  Checked_from T U value.

(** Move assignment: the target and what is left of the source. *)
Definition Checked_move_assign (self other : Checked) : Checked * Checked :=
  (MkChecked (m_value other) (m_overflow other), MkChecked 0 false).

Definition Checked_has_overflow (self : Checked) : bool := m_overflow self.

Definition Checked_not (self : Checked) : outcome bool :=
  VERIFY (negb (m_overflow self)) ;; Ret (m_value self =? 0).

Definition Checked_value (self : Checked) : outcome Z :=
  VERIFY (negb (m_overflow self)) ;; Ret (m_value self).

(** The GCC builtins store the wrapped result and return whether the exact one fits. *)
Definition builtin_overflow (T : int_type) (exact : Z) : Z * bool :=
  (wrap T exact, negb (in_typeb T exact)).

Definition Checked_add (T : int_type) (self : Checked) (other : Z) : Checked :=
  let '(v, o) := builtin_overflow T (m_value self + other) in
  MkChecked v (m_overflow self || o).

Definition Checked_sub (T : int_type) (self : Checked) (other : Z) : Checked :=
  let '(v, o) := builtin_overflow T (m_value self - other) in
  MkChecked v (m_overflow self || o).

Definition Checked_mul (T : int_type) (self : Checked) (other : Z) : Checked :=
  let '(v, o) := builtin_overflow T (m_value self * other) in
  MkChecked v (m_overflow self || o).

(** [m_value /= other]: operands narrower than [int] are promoted to it, so the
    quotient is only out of range (and the division traps) at 32 bits or more. *)
Definition Checked_div (T : int_type) (self : Checked) (other : Z) : outcome Checked :=
  if other =? 0 then Stop Undefined
  else
    let q := Z.quot (m_value self) other in
    if (32 <=? width T) && negb (in_typeb T q) then Stop Undefined
    else Ret (MkChecked (wrap T q) (m_overflow self)).

(** The compound assignments with a [Checked] operand. *)
Definition Checked_or_overflow (self other : Checked) : Checked :=
  MkChecked (m_value self) (m_overflow self || m_overflow other).

Definition Checked_add_assign (T : int_type) (self other : Checked) : outcome Checked :=
  v ← Checked_value other; Ret (Checked_add T (Checked_or_overflow self other) v).

Definition Checked_sub_assign (T : int_type) (self other : Checked) : outcome Checked :=
  v ← Checked_value other; Ret (Checked_sub T (Checked_or_overflow self other) v).

Definition Checked_mul_assign (T : int_type) (self other : Checked) : outcome Checked :=
  v ← Checked_value other; Ret (Checked_mul T (Checked_or_overflow self other) v).

Definition Checked_div_assign (T : int_type) (self other : Checked) : outcome Checked :=
  v ← Checked_value other; Checked_div T (Checked_or_overflow self other) v.

(** The compound assignments with a plain operand. *)
Definition Checked_add_assign_T (T : int_type) (self : Checked) (other : Z) : Checked :=
  Checked_add T self other.
Definition Checked_sub_assign_T (T : int_type) (self : Checked) (other : Z) : Checked :=
  Checked_sub T self other.
Definition Checked_mul_assign_T (T : int_type) (self : Checked) (other : Z) : Checked :=
  Checked_mul T self other.
Definition Checked_div_assign_T (T : int_type) (self : Checked) (other : Z) : outcome Checked :=
  Checked_div T self other.

Definition Checked_preincrement (T : int_type) (self : Checked) : Checked :=
  Checked_add T self 1.
(** The post forms give the old value and the new state of the object. *)
Definition Checked_postincrement (T : int_type) (self : Checked) : Checked * Checked :=
  (self, Checked_add T self 1).
Definition Checked_predecrement (T : int_type) (self : Checked) : Checked :=
  Checked_sub T self 1.
Definition Checked_postdecrement (T : int_type) (self : Checked) : Checked * Checked :=
  (self, Checked_sub T self 1).

(** The GCC branches of the static predicates. *)
Definition Checked_addition_would_overflow (T : int_type) (u v : Z) : bool :=
  negb (in_typeb T (u + v)).

Definition Checked_multiplication_would_overflow (T : int_type) (u v : Z) : bool :=
  negb (in_typeb T (u * v)).

(** The three-operand form; [v] and [x] are converted to [T] on the way into
    [operator*=(T)]. *)
Definition Checked_multiplication_would_overflow3
    (T U : int_type) (u v x : Z) : bool :=
  let checked := Checked_assign T U Checked_default u in
  let checked := Checked_mul_assign_T T checked (wrap T v) in
  let checked := Checked_mul_assign_T T checked (wrap T x) in
  Checked_has_overflow checked.

(** The free binary operators copy the left operand and read the right one. *)
Definition Checked_plus (T : int_type) (a b : Checked) : outcome Checked :=
  v ← Checked_value b; Ret (Checked_add T a v).
Definition Checked_minus (T : int_type) (a b : Checked) : outcome Checked :=
  v ← Checked_value b; Ret (Checked_sub T a v).
Definition Checked_times (T : int_type) (a b : Checked) : outcome Checked :=
  v ← Checked_value b; Ret (Checked_mul T a v).
Definition Checked_divide (T : int_type) (a b : Checked) : outcome Checked :=
  v ← Checked_value b; Checked_div T a v.

(** Comparison of a [Checked] with a plain value, and the mirrored forms. *)
Definition Checked_lt (a : Checked) (b : Z) : outcome bool :=
  v ← Checked_value a; Ret (v <? b).
Definition Checked_gt (a : Checked) (b : Z) : outcome bool :=
  v ← Checked_value a; Ret (b <? v).
Definition Checked_ge (a : Checked) (b : Z) : outcome bool :=
  v ← Checked_value a; Ret (b <=? v).
Definition Checked_le (a : Checked) (b : Z) : outcome bool :=
  v ← Checked_value a; Ret (v <=? b).
Definition Checked_eq (a : Checked) (b : Z) : outcome bool :=
  v ← Checked_value a; Ret (v =? b).
Definition Checked_ne (a : Checked) (b : Z) : outcome bool :=
  v ← Checked_value a; Ret (negb (v =? b)).
Definition lt_Checked (a : Z) (b : Checked) : outcome bool :=
  v ← Checked_value b; Ret (a <? v).
Definition gt_Checked (a : Z) (b : Checked) : outcome bool :=
  v ← Checked_value b; Ret (v <? a).
Definition ge_Checked (a : Z) (b : Checked) : outcome bool :=
  v ← Checked_value b; Ret (v <=? a).
Definition le_Checked (a : Z) (b : Checked) : outcome bool :=
  v ← Checked_value b; Ret (a <=? v).
Definition eq_Checked (a : Z) (b : Checked) : outcome bool :=
  v ← Checked_value b; Ret (a =? v).
Definition ne_Checked (a : Z) (b : Checked) : outcome bool :=
  v ← Checked_value b; Ret (negb (a =? v)).

Definition make_checked (value : Z) : Checked := Checked_of value.

(** ** Properties *)

Lemma pow2_double w : 0 < w -> 2 ^ w = 2 * 2 ^ (w - 1).
Proof.
  intros Hw. replace w with (Z.succ (w - 1)) at 1 by lia.
  by rewrite Z.pow_succ_r by lia.
Qed.

Lemma pow2_le a b : 0 <= a -> a <= b -> 2 ^ a <= 2 ^ b.
Proof. intros. apply Z.pow_le_mono_r; lia. Qed.

Lemma is_within_range_lemma (D S : int_type) (v : Z) :
  0 < width D -> 0 < width S -> in_type S v ->
  is_within_range D S v = in_typeb D v.
Proof.
  intros HD HS Hv.
  pose proof (pow2_double _ HD) as ED. pose proof (pow2_double _ HS) as ES.
  assert (0 < 2 ^ (width D - 1)) by (apply Z.pow_pos_nonneg; lia).
  assert (0 < 2 ^ (width S - 1)) by (apply Z.pow_pos_nonneg; lia).
  unfold is_within_range, TypeBoundsChecker_is_within_range, in_typeb.
  unfold in_type, int_min, int_max, wrap, make_unsigned in *.
  destruct D as [wd sd], S as [ws ss]; simpl in *.
  destruct (Z.leb_spec ws wd) as [Hle|Hlt].
  - pose proof (pow2_le ws wd ltac:(lia) Hle).
    pose proof (pow2_le (ws - 1) (wd - 1) ltac:(lia) ltac:(lia)).
    destruct sd, ss; simpl; try lia.
    destruct (Z.ltb_spec ws wd) as [Hlt|Hge]; [|].
    + pose proof (pow2_le ws (wd - 1) ltac:(lia) ltac:(lia)). lia.
    + assert (ws = wd) as -> by lia. rewrite Z.mod_small by lia. lia.
  - pose proof (pow2_le wd (ws - 1) ltac:(lia) ltac:(lia)).
    destruct sd, ss; simpl; try lia.
    + rewrite Z.mod_small by lia. lia.
    + destruct (Z_lt_le_dec v 0) as [Hneg|Hpos].
      * replace (v mod 2 ^ ws) with (v + 2 ^ ws); [lia|].
        apply Z.mod_unique_pos with (q := -1); lia.
      * rewrite Z.mod_small by lia. lia.
Qed.

(** [is_within_range<D>(v)] for a value [v] of type [S] answers exactly whether
    [D] can hold [v], for every combination of widths and signedness; so the
    converting constructor keeps the value or sets the overflow flag. *)
Theorem is_within_range_correct (D S : int_type) (v : Z) :
  0 < width D -> 0 < width S -> in_type S v ->
  is_within_range D S v = in_typeb D v /\
  Checked_from D S v =
    (if in_typeb D v then Checked_of v else MkChecked (wrap D v) true).
Proof.
  intros HD HS Hv. unfold Checked_from. rewrite is_within_range_lemma by done.
  split; [done|]. destruct (in_typeb D v) eqn:Hin; simpl; [|done].
  apply in_typeb_spec in Hin. by rewrite wrap_id.
Qed.

Lemma is_within_range_correct_witness :
  is_within_range u16 i64 (-1) = in_typeb u16 (-1) /\
  Checked_from u16 i64 (-1) =
    (if in_typeb u16 (-1) then Checked_of (-1) else MkChecked (wrap u16 (-1)) true).
Proof. apply (is_within_range_correct u16 i64 (-1)); vm_compute; [done|done|]. split; done. Defined.

(** Exact arithmetic on [Z], to compare a chain of checked operations with. *)
Inductive arith : Type := Add (z : Z) | Sub (z : Z) | Mul (z : Z).

Definition exact_arith (a : arith) (x : Z) : Z :=
  match a with Add z => x + z | Sub z => x - z | Mul z => x * z end.

Definition checked_arith (T : int_type) (c : Checked) (a : arith) : Checked :=
  match a with
  | Add z => Checked_add T c z
  | Sub z => Checked_sub T c z
  | Mul z => Checked_mul T c z
  end.

(** The exact results after each operation, the starting value excluded. *)
Fixpoint exact_trace (x : Z) (l : list arith) : list Z :=
  match l with
  | [] => []
  | a :: l => exact_arith a x :: exact_trace (exact_arith a x) l
  end.

Definition exact_result (x : Z) (l : list arith) : Z :=
  foldl (fun x a => exact_arith a x) x l.

Lemma checked_arith_step T c a :
  0 < width T ->
  m_overflow (checked_arith T c a) =
    m_overflow c || negb (in_typeb T (exact_arith a (m_value c))) /\
  (in_type T (exact_arith a (m_value c)) ->
   m_value (checked_arith T c a) = exact_arith a (m_value c)).
Proof.
  intros HT.
  destruct a; simpl; unfold Checked_add, Checked_sub, Checked_mul; simpl;
    split; auto using wrap_id.
Qed.

Lemma checked_arith_sticky T l c :
  0 < width T -> m_overflow c = true ->
  m_overflow (foldl (checked_arith T) c l) = true.
Proof.
  intros HT. revert c. induction l as [|a l IH]; intros c Hc; [done|].
  apply IH. destruct (checked_arith_step T c a HT) as [-> _]. by rewrite Hc.
Qed.

Lemma checked_chain T l c :
  0 < width T -> m_overflow c = false ->
  (m_overflow (foldl (checked_arith T) c l) = false <->
     Forall (in_type T) (exact_trace (m_value c) l)) /\
  (m_overflow (foldl (checked_arith T) c l) = false ->
     m_value (foldl (checked_arith T) c l) = exact_result (m_value c) l).
Proof.
  intros HT. revert c. induction l as [|a l IH]; intros c Hc; [by split|].
  destruct (checked_arith_step T c a HT) as [Ho Hv]. rewrite Hc in Ho. simpl in *.
  destruct (in_typeb T (exact_arith a (m_value c))) eqn:Hin.
  - apply in_typeb_spec in Hin. specialize (IH _ Ho). rewrite (Hv Hin) in IH.
    destruct IH as [IHo IHv]. split; [|done]. rewrite IHo.
    split; [by constructor|by intros [_ ?]%Forall_cons_1].
  - rewrite (checked_arith_sticky T l _ HT Ho).
    split; [|done]. split; [done|]. intros [Hbad _]%Forall_cons_1.
    apply in_typeb_spec in Hbad. congruence.
Qed.

(** C40. A chain of checked additions, subtractions and multiplications reports no
    overflow exactly when every intermediate result computed in exact arithmetic
    fits the type, and then its value is the exact result. *)
Theorem Checked_chain_exact (T : int_type) (x : Z) (l : list arith) :
  0 < width T ->
  let c := foldl (checked_arith T) (Checked_of x) l in
  (Checked_has_overflow c = false <-> Forall (in_type T) (exact_trace x l)) /\
  (Checked_has_overflow c = false -> Checked_value c = Ret (exact_result x l)).
Proof.
  intros HT; simpl. unfold Checked_has_overflow, Checked_value.
  destruct (checked_chain T l (Checked_of x) HT eq_refl) as [Hiff Hval]. split; [done|].
  intros Hno. rewrite Hno. simpl. by rewrite (Hval Hno).
Qed.

Lemma Checked_chain_exact_witness :
  let c := foldl (checked_arith i8) (Checked_of 100) [Add 27; Sub 120; Mul 18] in
  (Checked_has_overflow c = false <->
    Forall (in_type i8) (exact_trace 100 [Add 27; Sub 120; Mul 18])) /\
  (Checked_has_overflow c = false -> Checked_value c = Ret 126).
Proof. apply (Checked_chain_exact i8 100 [Add 27; Sub 120; Mul 18]). reflexivity. Defined.

Lemma forallb_in_typeb T l : forallb (in_typeb T) l = true <-> Forall (in_type T) l.
Proof.
  induction l as [|x l IH]; simpl; [by split|].
  rewrite andb_true_iff, IH, in_typeb_spec. by rewrite Forall_cons_iff.
Qed.

(** Read the value of a chain, or a default when it overflowed. *)
Lemma checked_chain_value_or T x l d :
  0 < width T ->
  let c := foldl (checked_arith T) (Checked_of x) l in
  (if negb (Checked_has_overflow c) then Checked_value c else Ret d) =
    Ret (if forallb (in_typeb T) (exact_trace x l) then exact_result x l else d).
Proof.
  intros HT; simpl. unfold Checked_has_overflow, Checked_value.
  destruct (checked_chain T l (Checked_of x) HT eq_refl) as [Hiff Hval].
  destruct (m_overflow _) eqn:Ho; simpl.
  - destruct (forallb _ _) eqn:Hf; [|done]. apply forallb_in_typeb in Hf.
    by apply Hiff in Hf.
  - rewrite (Hval eq_refl). pose proof (proj1 Hiff eq_refl) as Hall.
    apply forallb_in_typeb in Hall. simpl in Hall. by rewrite Hall.
Qed.

(** The three-operand [multiplication_would_overflow] answers no only if the
    exact product of the three operands fits, and for non-zero unsigned operands
    it answers no exactly then. *)
Theorem multiplication_would_overflow3_sound (T : int_type) (u v x : Z) :
  0 < width T -> in_type T u -> in_type T v -> in_type T x ->
  (Checked_multiplication_would_overflow3 T T u v x = false -> in_type T (u * v * x)) /\
  (is_signed T = false -> 0 < x ->
   Checked_multiplication_would_overflow3 T T u v x =
     Checked_multiplication_would_overflow T (u * v) x).
Proof.
  intros HT Hu Hv Hx.
  unfold Checked_multiplication_would_overflow3, Checked_multiplication_would_overflow.
  unfold Checked_assign, Checked_from.
  rewrite is_within_range_lemma, (proj2 (in_typeb_spec T u) Hu) by done.
  rewrite !(wrap_id T) by done.
  pose proof (checked_chain T [Mul v; Mul x] (Checked_of u) HT eq_refl) as [Hiff _].
  unfold Checked_mul_assign_T, Checked_has_overflow. simpl in *.
  rewrite !Forall_cons_iff in Hiff. split; [tauto|].
  intros Hsg Hx0. apply eq_bool_prop_intro. rewrite !Is_true_true.
  rewrite <-!not_false_iff_true, Hiff, negb_false_iff, in_typeb_spec.
  unfold in_type in *.
  assert (int_min T = 0) as Hmin by (unfold int_min; by rewrite Hsg).
  rewrite Hmin in *. split; intros Hn Hc; apply Hn; [|tauto].
  split_and!; [nia..|done].
Qed.

Lemma multiplication_would_overflow3_sound_witness :
  (Checked_multiplication_would_overflow3 u32 u32 65536 65535 1 = false ->
     in_type u32 (65536 * 65535 * 1)) /\
  (is_signed u32 = false -> 0 < 1 ->
   Checked_multiplication_would_overflow3 u32 u32 65536 65535 1 =
     Checked_multiplication_would_overflow u32 (65536 * 65535) 1).
Proof. apply multiplication_would_overflow3_sound; int_lia || done. Defined.
