(* ===== verification/Calendar.v ===== *)
(** * The calendar functions of AK/Time.h and AK/Time.cpp

    Leap years, days since the epoch, day of the year and day of the week.  All
    signed arithmetic goes through [arith_in], so a theorem that a function
    returns also shows that it never overflows [int]. *)

From S2P Require Import Prelude.

#[local] Open Scope Z_scope.

(** ** The calendar *)

Definition is_leap_year (year : Z) : bool :=
  (Z.rem year 4 =? 0) && (negb (Z.rem year 100 =? 0) || (Z.rem year 400 =? 0)).

Definition days_in_year (year : Z) : Z :=
  365 + Z.b2z (is_leap_year year).

(** [int days] accumulates over the years between 1970 and [year]. *)
Fixpoint days_up (n : nat) (current_year days : Z) : outcome Z :=
  match n with
  | O => Ret days
  | S n => days ← arith_in i32 (days + days_in_year current_year);
           days_up n (current_year + 1) days
  end.

Fixpoint days_down (n : nat) (current_year days : Z) : outcome Z :=
  match n with
  | O => Ret days
  | S n => days ← arith_in i32 (days - days_in_year current_year);
           days_down n (current_year + 1) days
  end.

(** The first loop runs for current_year = 1970 .. year-1, the second for
    current_year = year .. 1969; the counts below are their trip counts. *)
Definition years_to_days_since_epoch (year : Z) : outcome Z :=
  days ← days_up (Z.to_nat (year - 1970)) 1970 0;
  days_down (Z.to_nat (1970 - year)) year days.

Definition day_of_year_seek_table : list Z :=
  [0; 31; 59; 90; 120; 151; 181; 212; 243; 273; 304; 334].

Definition day_of_year (year month day : Z) : outcome Z :=
  VERIFY ((1 <=? month) && (month <=? 12)) ;;
  s ← load day_of_year_seek_table (month - 1);
  d ← arith_in i32 (s + day);
  d ← arith_in i32 (d - 1);
  if is_leap_year year && (3 <=? month) then arith_in i32 (d + 1) else Ret d.

Definition days_in_month (year month : Z) : outcome Z :=
  VERIFY ((1 <=? month) && (month <=? 12)) ;;
  if month =? 2 then Ret (if is_leap_year year then 29 else 28)
  else
    let is_long_month :=
      (month =? 1) || (month =? 3) || (month =? 5) || (month =? 7) ||
      (month =? 8) || (month =? 10) || (month =? 12) in
    Ret (if is_long_month then 31 else 30).

Definition day_of_week_seek_table : list Z :=
  [0; 3; 2; 5; 0; 3; 5; 1; 4; 6; 2; 4].

(** The result has type [unsigned]: a negative remainder wraps. *)
Definition day_of_week (year month day : Z) : outcome Z :=
  VERIFY ((1 <=? month) && (month <=? 12)) ;;
  year ← (if month <? 3 then arith_in i32 (year - 1) else Ret year);
  n ← arith_in i32 (year + Z.quot year 4);
  n ← arith_in i32 (n - Z.quot year 100);
  n ← arith_in i32 (n + Z.quot year 400);
  s ← load day_of_week_seek_table (month - 1);
  n ← arith_in i32 (n + s);
  n ← arith_in i32 (n + day);
  Ret (wrap u32 (Z.rem n 7)).

(** ** Calendar properties *)

Lemma is_leap_year_mod y :
  is_leap_year y =
    (y mod 4 =? 0) && (negb (y mod 100 =? 0) || (y mod 400 =? 0)).
Proof.
  unfold is_leap_year.
  assert (forall k, 0 < k -> (Z.rem y k =? 0) = (y mod k =? 0)) as H.
  { intros k Hk. apply eq_bool_prop_intro. rewrite !Is_true_true, !Z.eqb_eq.
    rewrite Z.rem_divide, Z.mod_divide by lia. done. }
  by rewrite !H by lia.
Qed.

(** Days from 1970-01-01 to January 1 of [year], in closed form (477 leap days
    precede 1970 in the proleptic Gregorian calendar). *)
Definition epoch_days (year : Z) : Z :=
  365 * (year - 1970) + ((year - 1) / 4 - (year - 1) / 100 + (year - 1) / 400 - 477).

Lemma epoch_days_succ y : epoch_days (y + 1) = epoch_days y + days_in_year y.
Proof.
  unfold epoch_days, days_in_year. rewrite is_leap_year_mod.
  replace (y + 1 - 1) with y by lia.
  destruct (Z.eqb_spec (y mod 4) 0), (Z.eqb_spec (y mod 100) 0),
    (Z.eqb_spec (y mod 400) 0); simpl; Z.div_mod_to_equations; lia.
Qed.

Lemma days_in_year_bounds y : 365 <= days_in_year y <= 366.
Proof. unfold days_in_year. destruct (is_leap_year y); simpl; lia. Qed.

Lemma days_up_spec n y d :
  -2000000000 <= d -> d + 366 * Z.of_nat n <= 2000000000 ->
  days_up n y d = Ret (d + epoch_days (y + Z.of_nat n) - epoch_days y).
Proof.
  revert y d. induction n as [|n IH]; intros y d Hlo Hhi.
  { simpl. f_equal. rewrite Z.add_0_r. lia. }
  pose proof (days_in_year_bounds y). simpl days_up. step_arith.
  rewrite IH by lia. f_equal.
  replace (y + Z.of_nat (S n)) with (y + 1 + Z.of_nat n) by lia.
  rewrite (epoch_days_succ y). lia.
Qed.

Lemma days_down_spec n y d :
  d <= 2000000000 -> -2000000000 <= d - 366 * Z.of_nat n ->
  days_down n y d = Ret (d - (epoch_days (y + Z.of_nat n) - epoch_days y)).
Proof.
  revert y d. induction n as [|n IH]; intros y d Hlo Hhi.
  { simpl. f_equal. rewrite Z.add_0_r. lia. }
  pose proof (days_in_year_bounds y). simpl days_down. step_arith.
  rewrite IH by lia. f_equal.
  replace (y + Z.of_nat (S n)) with (y + 1 + Z.of_nat n) by lia.
  rewrite (epoch_days_succ y). lia.
Qed.

Lemma epoch_loops year :
  -5000000 <= year <= 5000000 ->
  years_to_days_since_epoch year = Ret (epoch_days year).
Proof.
  intros Hy. unfold years_to_days_since_epoch.
  assert (epoch_days 1970 = 0) as H1970 by reflexivity.
  destruct (Z_le_gt_dec 1970 year) as [Hge|Hlt].
  - rewrite days_up_spec by lia. simpl mbind.
    replace (Z.to_nat (1970 - year)) with O by lia. simpl. f_equal.
    replace (1970 + Z.of_nat (Z.to_nat (year - 1970))) with year by lia. lia.
  - replace (Z.to_nat (year - 1970)) with O by lia. simpl mbind.
    rewrite days_down_spec by lia. f_equal.
    replace (year + Z.of_nat (Z.to_nat (1970 - year))) with 1970 by lia. lia.
Qed.

(** The loops of [years_to_days_since_epoch] terminate without overflow for
    every year within five million of year 0 and compute the Gregorian closed
    form, for years before and after 1970. *)
Theorem years_to_days_since_epoch_closed (year : Z) :
  -5000000 <= year <= 5000000 ->
  years_to_days_since_epoch year =
    Ret (365 * (year - 1970) +
         ((year - 1) / 4 - (year - 1) / 100 + (year - 1) / 400 - 477)).
Proof. apply epoch_loops. Qed.

Lemma years_to_days_since_epoch_closed_witness :
  years_to_days_since_epoch 2024 = Ret 19723.
Proof. apply (years_to_days_since_epoch_closed 2024). lia. Defined.

Lemma month_cases month (P : Z -> Prop) :
  1 <= month <= 12 ->
  P 1 -> P 2 -> P 3 -> P 4 -> P 5 -> P 6 -> P 7 -> P 8 -> P 9 -> P 10 -> P 11 -> P 12 ->
  P month.
Proof.
  intros Hm. assert (month = 1 \/ month = 2 \/ month = 3 \/ month = 4 \/ month = 5 \/
    month = 6 \/ month = 7 \/ month = 8 \/ month = 9 \/ month = 10 \/ month = 11 \/
    month = 12) as H by lia.
  intros. destruct_or! H; by subst.
Qed.

(** [day_of_year] and [days_in_month] agree on the length of every month:
    day [n] of month [m+1] comes [days_in_month] days after day [n] of [m]. *)
Theorem day_of_year_days_in_month (year month day : Z) :
  1 <= month <= 11 -> -1000000 <= day <= 1000000 ->
  exists d1 d2 len,
    day_of_year year month day = Ret d1 /\
    day_of_year year (month + 1) day = Ret d2 /\
    days_in_month year month = Ret len /\ d2 = d1 + len.
Proof.
  intros Hm Hd.
  assert (1 <= month <= 12) as Hm' by lia.
  revert Hm. apply (month_cases month) with (P := fun month => 1 <= month <= 11 -> _);
    [done|..]; intros Hm; try lia; unfold day_of_year, days_in_month; simpl;
    repeat step_arith; destruct (is_leap_year year); simpl; repeat step_arith;
    do 3 eexists; repeat split; lia.
Qed.

Lemma day_of_year_days_in_month_witness :
  exists d1 d2 len,
    day_of_year 2024 2 15 = Ret d1 /\ day_of_year 2024 (2 + 1) 15 = Ret d2 /\
    days_in_month 2024 2 = Ret len /\ d2 = d1 + len.
Proof. apply (day_of_year_days_in_month 2024 2 15); lia. Defined.

(** For years from 1 on, [day_of_week] (Sakamoto's table) agrees with counting
    the days from Thursday, January 1st 1970 through [years_to_days_since_epoch]
    and [day_of_year], also for days past the end of the month. *)
Theorem day_of_week_counts_days (year month day : Z) :
  1 <= year <= 5000000 -> 1 <= month <= 12 -> 1 <= day <= 1000000 ->
  exists e d,
    years_to_days_since_epoch year = Ret e /\
    day_of_year year month day = Ret d /\
    day_of_week year month day = Ret ((e + d + 4) mod 7).
Proof.
  intros Hy Hm Hd. exists (epoch_days year). rewrite epoch_loops by lia.
  assert (epoch_days year + Z.b2z (is_leap_year year) =
    365 * (year - 1970) + (year / 4 - year / 100 + year / 400 - 477)) as Hnext.
  { pose proof (epoch_days_succ year) as H. unfold days_in_year in H.
    revert H. unfold epoch_days at 1. replace (year + 1 - 1) with year by lia. lia. }
  unfold day_of_year, day_of_week. revert Hnext.
  apply (month_cases month); [done|..]; intros Hnext; simpl;
    repeat (step_arith || rewrite Z.quot_div_nonneg by lia);
    destruct (is_leap_year year); simpl in *; repeat step_arith;
    eexists; (split; [done|]); (split; [done|]); f_equal;
    unfold epoch_days in *; int_lia.
Qed.

Lemma day_of_week_counts_days_witness :
  exists e d,
    years_to_days_since_epoch 2021 = Ret e /\ day_of_year 2021 5 16 = Ret d /\
    day_of_week 2021 5 16 = Ret ((e + d + 4) mod 7).
Proof. apply (day_of_week_counts_days 2021 5 16); lia. Defined.

(** Time.h says the day may be negative, but the remainder is taken with the
    truncating [%] and converted to [unsigned]: the result is then not a weekday. *)
Theorem day_of_week_negative :
  day_of_week 1 1 (-10) = Ret 4294967293.
Proof. reflexivity. Qed.
