(* ===== verification/AKTime.v ===== *)
(** * AK/Time.h and AK/Time.cpp: the class [Time]

    [Time] is a count of seconds (i64) and nanoseconds (u32, below 10^9).  All
    signed arithmetic of the source goes through [arith_in], so a theorem that an
    operation returns also shows that it never overflows a signed type. *)

From S2P Require Import Prelude Checked.

#[local] Open Scope Z_scope.

(** ** The class [Time] *)

Record Time : Type := MkTime { m_seconds : Z; m_nanoseconds : Z }.

#[global] Instance Time_eq_dec : EqDecision Time.
Proof. solve_decision. Defined.

Definition billion : Z := 1000000000.

(** [sane_mod(i64&, i64)]: the quotient and the new numerator. *)
Definition sane_mod (numerator denominator : Z) : outcome (Z * Z) :=
  VERIFY ((2 <=? denominator) && (denominator <=? billion)) ;;
  let dividend := Z.quot numerator denominator in
  let numerator := Z.rem numerator denominator in
  if numerator <? 0 then
    numerator ← arith_in i64 (numerator + denominator);
    dividend ← arith_in i64 (dividend - 1);
    Ret (dividend, numerator)
  else Ret (dividend, numerator).

(** [sane_mod(i32&, i32)]. *)
Definition sane_mod_i32 (numerator denominator : Z) : outcome (Z * Z) :=
  '(dividend, numerator_64) ← sane_mod numerator denominator;
  Ret (wrap i32 dividend, wrap i32 numerator_64).

Definition Time_from_seconds (seconds : Z) : Time := MkTime seconds 0.

Definition Time_from_nanoseconds (nanoseconds : Z) : outcome Time :=
  '(seconds, nanoseconds) ← sane_mod nanoseconds 1000000000;
  Ret (MkTime seconds (wrap u32 nanoseconds)).

Definition Time_from_microseconds (microseconds : Z) : outcome Time :=
  '(seconds, microseconds) ← sane_mod microseconds 1000000;
  n ← arith_in i64 (microseconds * 1000);
  Ret (MkTime seconds (wrap u32 n)).

Definition Time_from_milliseconds (milliseconds : Z) : outcome Time :=
  '(seconds, milliseconds) ← sane_mod milliseconds 1000;
  n ← arith_in i64 (milliseconds * 1000000);
  Ret (MkTime seconds (wrap u32 n)).

Definition Time_min : Time := MkTime (- 0x8000000000000000) 0.
Definition Time_zero : Time := MkTime 0 0.
Definition Time_max : Time := MkTime 0x7fffffffffffffff 999999999.

Definition Time_is_zero (t : Time) : bool :=
  (m_seconds t =? 0) && (m_nanoseconds t =? 0).
Definition Time_eq (a b : Time) : bool :=
  (m_seconds a =? m_seconds b) && (m_nanoseconds a =? m_nanoseconds b).
Definition Time_ne (a b : Time) : bool := negb (Time_eq a b).

(** [struct timespec] (tv_nsec is a 32-bit long) and [struct timeval]. *)
Record timespec : Type := MkTimespec { ts_sec : Z; ts_nsec : Z }.
Record timeval : Type := MkTimeval { tv_sec : Z; tv_usec : Z }.

Definition Time_from_half_sanitized (seconds extra_seconds nanoseconds : Z) : outcome Time :=
  VERIFY (nanoseconds <? 1000000000) ;;
  '(seconds, extra_seconds) ←
    (if ((seconds <=? 0) && (0 <? extra_seconds)) ||
        ((0 <=? seconds) && (extra_seconds <? 0))
     then s ← arith_in i64 (seconds + extra_seconds); Ret (s, 0)
     else Ret (seconds, extra_seconds));
  if Checked_addition_would_overflow i64 seconds extra_seconds then
    Ret (if seconds <? 0 then Time_min else Time_max)
  else
    s ← arith_in i64 (seconds + extra_seconds);
    Ret (MkTime s nanoseconds).

Definition Time_from_timespec (ts : timespec) : outcome Time :=
  let nsecs := wrap i32 (ts_nsec ts) in
  '(extra_secs, nsecs) ← sane_mod_i32 nsecs 1000000000;
  Time_from_half_sanitized (ts_sec ts) extra_secs (wrap u32 nsecs).

Definition Time_from_timeval (tv : timeval) : outcome Time :=
  let usecs := wrap i32 (tv_usec tv) in
  '(extra_secs, usecs) ← sane_mod_i32 usecs 1000000;
  VERIFY ((0 <=? usecs) && (usecs <? 1000000)) ;;
  n ← arith_in i32 (usecs * 1000);
  Time_from_half_sanitized (tv_sec tv) extra_secs (wrap u32 n).

Definition i64_saturate (negative : bool) : Z :=
  if negative then - 0x8000000000000000 else 0x7fffffffffffffff.

Definition Time_to_truncated_seconds (t : Time) : outcome Z :=
  VERIFY (m_nanoseconds t <? 1000000000) ;;
  if (m_seconds t <? 0) && negb (m_nanoseconds t =? 0)
  then arith_in i64 (m_seconds t + 1)
  else Ret (m_seconds t).

(** The conversions below start from [(m_seconds < 0) ? m_seconds + 1 : m_seconds]. *)
Definition seconds_toward_zero (t : Time) : outcome Z :=
  if m_seconds t <? 0 then arith_in i64 (m_seconds t + 1) else Ret (m_seconds t).

Definition Time_to_truncated_milliseconds (t : Time) : outcome Z :=
  VERIFY (m_nanoseconds t <? 1000000000) ;;
  s ← seconds_toward_zero t;
  let milliseconds := Checked_of s in
  let milliseconds := Checked_mul_assign_T i64 milliseconds 1000 in
  let milliseconds := Checked_add_assign_T i64 milliseconds (m_nanoseconds t / 1000000) in
  let milliseconds :=
    if m_seconds t <? 0 then
      let milliseconds :=
        if negb (m_nanoseconds t mod 1000000 =? 0)
        then (Checked_postincrement i64 milliseconds).2 else milliseconds in
      Checked_sub_assign_T i64 milliseconds 1000
    else milliseconds in
  if negb (Checked_has_overflow milliseconds) then Checked_value milliseconds
  else Ret (i64_saturate (m_seconds t <? 0)).

Definition Time_to_truncated_microseconds (t : Time) : outcome Z :=
  VERIFY (m_nanoseconds t <? 1000000000) ;;
  s ← seconds_toward_zero t;
  let microseconds := Checked_of s in
  let microseconds := Checked_mul_assign_T i64 microseconds 1000000 in
  let microseconds := Checked_add_assign_T i64 microseconds (m_nanoseconds t / 1000) in
  let microseconds :=
    if m_seconds t <? 0 then
      let microseconds :=
        if negb (m_nanoseconds t mod 1000 =? 0)
        then (Checked_postincrement i64 microseconds).2 else microseconds in
      Checked_sub_assign_T i64 microseconds 1000000
    else microseconds in
  if negb (Checked_has_overflow microseconds) then Checked_value microseconds
  else Ret (i64_saturate (m_seconds t <? 0)).

Definition Time_to_seconds (t : Time) : outcome Z :=
  VERIFY (m_nanoseconds t <? 1000000000) ;;
  if (0 <=? m_seconds t) && negb (m_nanoseconds t =? 0) then
    let seconds := (Checked_postincrement i64 (Checked_of (m_seconds t))).2 in
    if Checked_has_overflow seconds then Ret 0x7fffffffffffffff
    else Checked_value seconds
  else Ret (m_seconds t).

Definition Time_to_milliseconds (t : Time) : outcome Z :=
  VERIFY (m_nanoseconds t <? 1000000000) ;;
  s ← seconds_toward_zero t;
  let milliseconds := Checked_of s in
  let milliseconds := Checked_mul_assign_T i64 milliseconds 1000 in
  let milliseconds := Checked_add_assign_T i64 milliseconds (m_nanoseconds t / 1000000) in
  let milliseconds :=
    if (0 <=? m_seconds t) && negb (m_nanoseconds t mod 1000000 =? 0)
    then (Checked_postincrement i64 milliseconds).2 else milliseconds in
  let milliseconds :=
    if m_seconds t <? 0 then Checked_sub_assign_T i64 milliseconds 1000
    else milliseconds in
  if negb (Checked_has_overflow milliseconds) then Checked_value milliseconds
  else Ret (i64_saturate (m_seconds t <? 0)).

Definition Time_to_microseconds (t : Time) : outcome Z :=
  VERIFY (m_nanoseconds t <? 1000000000) ;;
  s ← seconds_toward_zero t;
  let microseconds := Checked_of s in
  let microseconds := Checked_mul_assign_T i64 microseconds 1000000 in
  let microseconds := Checked_add_assign_T i64 microseconds (m_nanoseconds t / 1000) in
  let microseconds :=
    if (0 <=? m_seconds t) && negb (m_nanoseconds t mod 1000 =? 0)
    then (Checked_postincrement i64 microseconds).2 else microseconds in
  let microseconds :=
    if m_seconds t <? 0 then Checked_sub_assign_T i64 microseconds 1000000
    else microseconds in
  if negb (Checked_has_overflow microseconds) then Checked_value microseconds
  else Ret (i64_saturate (m_seconds t <? 0)).

Definition Time_to_nanoseconds (t : Time) : outcome Z :=
  VERIFY (m_nanoseconds t <? 1000000000) ;;
  s ← seconds_toward_zero t;
  let nanoseconds := Checked_of s in
  let nanoseconds := Checked_mul_assign_T i64 nanoseconds 1000000000 in
  let nanoseconds := Checked_add_assign_T i64 nanoseconds (m_nanoseconds t) in
  let nanoseconds :=
    if m_seconds t <? 0 then Checked_sub_assign_T i64 nanoseconds 1000000000
    else nanoseconds in
  if negb (Checked_has_overflow nanoseconds) then Checked_value nanoseconds
  else Ret (i64_saturate (m_seconds t <? 0)).

Definition Time_to_timespec (t : Time) : outcome timespec :=
  VERIFY (m_nanoseconds t <? 1000000000) ;;
  Ret (MkTimespec (wrap i64 (m_seconds t)) (wrap i32 (m_nanoseconds t))).

Definition Time_to_timeval (t : Time) : outcome timeval :=
  VERIFY (m_nanoseconds t <? 1000000000) ;;
  Ret (MkTimeval (wrap i64 (m_seconds t)) (Z.quot (wrap i32 (m_nanoseconds t)) 1000)).

(** The end of [operator+], once the carry has been added to one side. *)
Definition Time_add_seconds (this_secs other_secs new_nsecs : Z) : outcome Time :=
  let new_secs := Checked_add_assign_T i64 (Checked_of this_secs) other_secs in
  if Checked_has_overflow new_secs then
    Ret (if 0 <? other_secs then Time_max else Time_min)
  else
    s ← Checked_value new_secs; Ret (MkTime s new_nsecs).

Definition Time_add (self other : Time) : outcome Time :=
  VERIFY (m_nanoseconds self <? 1000000000) ;;
  VERIFY (m_nanoseconds other <? 1000000000) ;;
  let new_nsecs := wrap u32 (m_nanoseconds self + m_nanoseconds other) in
  let extra_secs := new_nsecs / 1000000000 in
  let new_nsecs := new_nsecs mod 1000000000 in
  let this_secs := m_seconds self in
  let other_secs := m_seconds other in
  if negb (extra_secs =? 0) then
    VERIFY (extra_secs =? 1) ;;
    if negb (this_secs =? 0x7fffffffffffffff) then
      this_secs ← arith_in i64 (this_secs + 1); Time_add_seconds this_secs other_secs new_nsecs
    else if negb (other_secs =? 0x7fffffffffffffff) then
      other_secs ← arith_in i64 (other_secs + 1); Time_add_seconds this_secs other_secs new_nsecs
    else Ret Time_max
  else Time_add_seconds this_secs other_secs new_nsecs.

Definition Time_add_assign (self other : Time) : outcome Time := Time_add self other.

Definition Time_sub (self other : Time) : outcome Time :=
  VERIFY (m_nanoseconds self <? 1000000000) ;;
  VERIFY (m_nanoseconds other <? 1000000000) ;;
  if negb (m_nanoseconds other =? 0) then
    (* (i64) ~(u64) other.m_seconds *)
    let complement := wrap i64 (2 ^ 64 - 1 - wrap u64 (m_seconds other)) in
    Time_add self (MkTime complement (wrap u32 (1000000000 - m_nanoseconds other)))
  else if negb (m_seconds other =? - 0x8000000000000000) then
    s ← arith_in i64 (- m_seconds other); Time_add self (MkTime s 0)
  else if 0 <=? m_seconds self then Ret Time_max
  else
    s ← arith_in i64 (m_seconds self + 0x4000000000000000);
    s ← arith_in i64 (s + 0x4000000000000000);
    Ret (MkTime s (m_nanoseconds self)).

Definition Time_sub_assign (self other : Time) : outcome Time := Time_sub self other.

Definition Time_lt (a b : Time) : bool :=
  (m_seconds a <? m_seconds b) ||
  ((m_seconds a =? m_seconds b) && (m_nanoseconds a <? m_nanoseconds b)).
Definition Time_le (a b : Time) : bool :=
  (m_seconds a <? m_seconds b) ||
  ((m_seconds a =? m_seconds b) && (m_nanoseconds a <=? m_nanoseconds b)).
Definition Time_gt (a b : Time) : bool :=
  (m_seconds b <? m_seconds a) ||
  ((m_seconds a =? m_seconds b) && (m_nanoseconds b <? m_nanoseconds a)).
Definition Time_ge (a b : Time) : bool :=
  (m_seconds b <? m_seconds a) ||
  ((m_seconds a =? m_seconds b) && (m_nanoseconds b <=? m_nanoseconds a)).

(** ** The timeval and timespec templates of Time.h *)

Definition timeval_sub (a b : timeval) : outcome timeval :=
  s ← arith_in i64 (tv_sec a - tv_sec b);
  u ← arith_in i32 (tv_usec a - tv_usec b);
  if u <? 0 then
    s ← arith_in i64 (s - 1);
    u ← arith_in i32 (u + 1000000);
    Ret (MkTimeval s u)
  else Ret (MkTimeval s u).

Definition timeval_add (a b : timeval) : outcome timeval :=
  s ← arith_in i64 (tv_sec a + tv_sec b);
  u ← arith_in i32 (tv_usec a + tv_usec b);
  if 1000000 <=? u then
    s ← arith_in i64 (s + 1);
    u ← arith_in i32 (u - 1000000);
    Ret (MkTimeval s u)
  else Ret (MkTimeval s u).

Definition timespec_sub (a b : timespec) : outcome timespec :=
  s ← arith_in i64 (ts_sec a - ts_sec b);
  n ← arith_in i32 (ts_nsec a - ts_nsec b);
  if n <? 0 then
    s ← arith_in i64 (s - 1);
    n ← arith_in i32 (n + 1000000000);
    Ret (MkTimespec s n)
  else Ret (MkTimespec s n).

Definition timespec_add (a b : timespec) : outcome timespec :=
  s ← arith_in i64 (ts_sec a + ts_sec b);
  n ← arith_in i32 (ts_nsec a + ts_nsec b);
  if 1000000000 <=? n then
    s ← arith_in i64 (s + 1);
    n ← arith_in i32 (n - 1000000000);
    Ret (MkTimespec s n)
  else Ret (MkTimespec s n).

Definition timespec_add_timeval (a : timespec) (b : timeval) : outcome timespec :=
  s ← arith_in i64 (ts_sec a + tv_sec b);
  m ← arith_in i32 (tv_usec b * 1000);
  n ← arith_in i32 (ts_nsec a + m);
  if 1000000000 <=? n then
    s ← arith_in i64 (s + 1);
    n ← arith_in i32 (n - 1000000000);
    Ret (MkTimespec s n)
  else Ret (MkTimespec s n).

Definition timeval_to_timespec (tv : timeval) : outcome timespec :=
  n ← arith_in i32 (tv_usec tv * 1000); Ret (MkTimespec (tv_sec tv) n).

Definition timespec_to_timeval (ts : timespec) : timeval :=
  MkTimeval (ts_sec ts) (Z.quot (ts_nsec ts) 1000).

Definition timespec_ge (a b : timespec) : bool :=
  (ts_sec b <? ts_sec a) || ((ts_sec a =? ts_sec b) && (ts_nsec b <=? ts_nsec a)).
Definition timespec_gt (a b : timespec) : bool :=
  (ts_sec b <? ts_sec a) || ((ts_sec a =? ts_sec b) && (ts_nsec b <? ts_nsec a)).
Definition timespec_lt (a b : timespec) : bool :=
  (ts_sec a <? ts_sec b) || ((ts_sec a =? ts_sec b) && (ts_nsec a <? ts_nsec b)).
Definition timespec_le (a b : timespec) : bool :=
  (ts_sec a <? ts_sec b) || ((ts_sec a =? ts_sec b) && (ts_nsec a <=? ts_nsec b)).
Definition timespec_eq (a b : timespec) : bool :=
  (ts_sec a =? ts_sec b) && (ts_nsec a =? ts_nsec b).
Definition timespec_ne (a b : timespec) : bool :=
  negb (ts_sec a =? ts_sec b) || negb (ts_nsec a =? ts_nsec b).


(** ** Properties of [Time] *)

(** What a [Time] stands for: nanoseconds on the exact line. *)
Definition total (t : Time) : Z := m_seconds t * 1000000000 + m_nanoseconds t.

(** The invariant of the class: "always less than 1'000'000'000". *)
Definition Time_ok (t : Time) : Prop :=
  in_type i64 (m_seconds t) /\ 0 <= m_nanoseconds t < 1000000000.

(** "If any operation would over- or underflow, the closest legal value is
    returned instead." *)
Definition saturate (x : Z) : Z := clamp (total Time_min) (total Time_max) x.

Lemma total_inj a b : Time_ok a -> Time_ok b -> total a = total b -> a = b.
Proof.
  destruct a, b. unfold Time_ok, total; simpl. intros [_ ?] [_ ?] ?.
  f_equal; lia.
Qed.

Lemma total_bounds t : Time_ok t -> total Time_min <= total t <= total Time_max.
Proof. unfold Time_ok, total. intros [? ?]. simpl. int_lia. Qed.

Lemma Time_add_seconds_saturates s1 s2 n :
  in_type i64 s1 -> in_type i64 s2 -> 0 <= n < 1000000000 ->
  exists r, Time_add_seconds s1 s2 n = Ret r /\ Time_ok r /\
    total r = saturate ((s1 + s2) * 1000000000 + n).
Proof.
  intros Hs1 Hs2 Hn. unfold Time_add_seconds, Checked_add_assign_T, Checked_add.
  unfold Checked_has_overflow, Checked_value, Time_ok, saturate, clamp, total; simpl.
  destruct (in_typeb i64 (s1 + s2)) eqn:Hin; simpl.
  - apply in_typeb_spec in Hin. wrap_small i64.
    eexists; split; [done|]; simpl. int_lia.
  - destruct (0 <? s2) eqn:?; eexists; (split; [done|]); simpl; int_lia.
Qed.

Lemma Time_add_saturates a b :
  Time_ok a -> Time_ok b ->
  exists r, Time_add a b = Ret r /\ Time_ok r /\ total r = saturate (total a + total b).
Proof.
  destruct a as [s1 n1], b as [s2 n2]. unfold Time_ok at 1 2, Time_add, total at 2 3; simpl.
  intros [Hs1 Hn1] [Hs2 Hn2].
  rewrite (VERIFY_true (n1 <? 1000000000)) by lia.
  rewrite (VERIFY_true (n2 <? 1000000000)) by lia. simpl.
  wrap_small u32.
  assert ((n1 + n2) / 1000000000 = 0 /\ (n1 + n2) mod 1000000000 = n1 + n2 /\ n1 + n2 < 1000000000 \/
    (n1 + n2) / 1000000000 = 1 /\ (n1 + n2) mod 1000000000 = n1 + n2 - 1000000000
      /\ 1000000000 <= n1 + n2)
    as [(-> & -> & ?)|(-> & -> & ?)] by int_lia; simpl.
  - destruct (Time_add_seconds_saturates s1 s2 (n1 + n2)) as (r & Hr & Hok & Ht); [done..|lia|].
    exists r. rewrite Ht. split_and!; [done..|]. f_equal. lia.
  - destruct (Z.eqb_spec s1 0x7fffffffffffffff) as [E1|E1]; simpl;
      [destruct (Z.eqb_spec s2 0x7fffffffffffffff) as [E2|E2]; simpl|].
    + eexists; split; [done|]. unfold Time_ok, saturate, clamp, total; simpl. int_lia.
    + step_arith.
      destruct (Time_add_seconds_saturates s1 (s2 + 1) (n1 + n2 - 1000000000))
        as (r & Hr & Hok & Ht); [done|int_lia|lia|].
      exists r. rewrite Ht. split_and!; [done..|]. f_equal. lia.
    + step_arith.
      destruct (Time_add_seconds_saturates (s1 + 1) s2 (n1 + n2 - 1000000000))
        as (r & Hr & Hok & Ht); [int_lia|done|lia|].
      exists r. rewrite Ht. split_and!; [done..|]. f_equal. lia.
Qed.

Lemma Time_sub_saturates a b :
  Time_ok a -> Time_ok b ->
  exists r, Time_sub a b = Ret r /\ Time_ok r /\ total r = saturate (total a - total b).
Proof.
  intros Ha Hb. pose proof Ha as [Hs1 Hn1]. pose proof Hb as [Hs2 Hn2].
  unfold Time_sub.
  rewrite (VERIFY_true (m_nanoseconds a <? 1000000000)) by lia.
  rewrite (VERIFY_true (m_nanoseconds b <? 1000000000)) by lia. simpl.
  destruct (Z.eqb_spec (m_nanoseconds b) 0) as [E|E]; simpl.
  - destruct (Z.eqb_spec (m_seconds b) (- 0x8000000000000000)) as [E1|E1]; simpl.
    + destruct (Z.leb_spec 0 (m_seconds a)); [|do 2 step_arith];
        eexists; (split; [done|]); unfold Time_ok, saturate, clamp, total in *; simpl; int_lia.
    + step_arith.
      destruct (Time_add_saturates a (MkTime (- m_seconds b) 0)) as (r & Hr & Hok & Ht);
        [done|split; simpl; int_lia|].
      exists r. rewrite Ht. split_and!; [done..|]. f_equal. unfold total; simpl. lia.
  - replace (wrap i64 _) with (- m_seconds b - 1) by int_lia.
    wrap_small u32.
    destruct (Time_add_saturates a (MkTime (- m_seconds b - 1) (1000000000 - m_nanoseconds b)))
      as (r & Hr & Hok & Ht); [done|split; simpl; int_lia|].
    exists r. rewrite Ht. split_and!; [done..|]. f_equal. unfold total; simpl. lia.
Qed.

(** [operator+] and [operator-] on well-formed times never fail a [VERIFY] and
    never overflow; the result is well formed and is the exact sum or difference,
    moved to the nearest representable time when it does not fit. *)
Theorem Time_add_sub_saturate (a b : Time) :
  Time_ok a -> Time_ok b ->
  (exists r, Time_add a b = Ret r /\ Time_ok r /\ total r = saturate (total a + total b)) /\
  (exists r, Time_sub a b = Ret r /\ Time_ok r /\ total r = saturate (total a - total b)).
Proof. auto using Time_add_saturates, Time_sub_saturates. Qed.

Lemma Time_add_sub_saturate_witness :
  let a := MkTime 9223372036854775807 999999999 in
  let b := MkTime (-3) 500000000 in
  (exists r, Time_add a b = Ret r /\ Time_ok r /\ total r = saturate (total a + total b)) /\
  (exists r, Time_sub a b = Ret r /\ Time_ok r /\ total r = saturate (total a - total b)).
Proof. apply Time_add_sub_saturate; split; simpl; int_lia. Defined.

(** The comparison operators order well-formed times by the instant they
    stand for, and [==] holds only between identical representations. *)
Theorem Time_comparisons (a b : Time) :
  Time_ok a -> Time_ok b ->
  Time_lt a b = (total a <? total b) /\ Time_le a b = (total a <=? total b) /\
  Time_gt a b = (total b <? total a) /\ Time_ge a b = (total b <=? total a) /\
  (Time_eq a b = true <-> a = b) /\ Time_eq a b = (total a =? total b) /\
  Time_ne a b = negb (total a =? total b).
Proof.
  intros Ha Hb. pose proof (total_inj a b Ha Hb) as Hinj.
  destruct Ha as [_ ?], Hb as [_ ?].
  assert (Time_eq a b = (total a =? total b)) as Heq by (unfold Time_eq, total; lia).
  unfold Time_ne. rewrite Heq, Z.eqb_eq.
  split_and!; try done; try (unfold Time_lt, Time_le, Time_gt, Time_ge, total; lia).
  split; [done|congruence].
Qed.

Lemma Time_comparisons_witness :
  let a := MkTime (-1) 999999999 in let b := MkTime 0 0 in
  Time_lt a b = (total a <? total b) /\ Time_le a b = (total a <=? total b) /\
  Time_gt a b = (total b <? total a) /\ Time_ge a b = (total b <=? total a) /\
  (Time_eq a b = true <-> a = b) /\ Time_eq a b = (total a =? total b) /\
  Time_ne a b = negb (total a =? total b).
Proof. apply Time_comparisons; split; simpl; int_lia. Defined.

(** Division rounding away from zero. *)
Definition quot_away (x k : Z) : Z := if 0 <=? x then - ((- x) / k) else x / k.

Definition clamp_i64 (x : Z) : Z := clamp (int_min i64) (int_max i64) x.

(** Turn the chain of [Checked] operations of a conversion into exact arithmetic. *)
Ltac conversion_chain x l negative :=
  etrans; [exact (checked_chain_value_or i64 x l (i64_saturate negative) eq_refl)|];
  simpl exact_trace; unfold exact_result; simpl foldl; simpl forallb.

Ltac conversion_start t :=
  rewrite (VERIFY_true (m_nanoseconds t <? 1000000000)) by lia;
  unfold seconds_toward_zero; simpl mbind.

Ltac conversion_end :=
  unfold clamp_i64, clamp, quot_away, i64_saturate, total in *;
  change (int_min i64) with (-9223372036854775808);
  change (int_max i64) with 9223372036854775807;
  f_equal; repeat case_match; int_lia.

Lemma to_truncated_milliseconds_exact t :
  Time_ok t ->
  Time_to_truncated_milliseconds t = Ret (clamp_i64 (Z.quot (total t) 1000000)).
Proof.
  intros [Hs Hn]. unfold Time_to_truncated_milliseconds. conversion_start t.
  destruct (Z.ltb_spec (m_seconds t) 0) as [Hneg|Hpos]; [step_arith|simpl mbind].
  - destruct (Z.eqb_spec (m_nanoseconds t mod 1000000) 0) as [E|E].
    + conversion_chain (m_seconds t + 1)
        [Mul 1000; Add (m_nanoseconds t / 1000000); Sub 1000] true.
      conversion_end.
    + conversion_chain (m_seconds t + 1)
        [Mul 1000; Add (m_nanoseconds t / 1000000); Add 1; Sub 1000] true.
      conversion_end.
  - conversion_chain (m_seconds t) [Mul 1000; Add (m_nanoseconds t / 1000000)] false.
    conversion_end.
Qed.

Lemma to_truncated_microseconds_exact t :
  Time_ok t ->
  Time_to_truncated_microseconds t = Ret (clamp_i64 (Z.quot (total t) 1000)).
Proof.
  intros [Hs Hn]. unfold Time_to_truncated_microseconds. conversion_start t.
  destruct (Z.ltb_spec (m_seconds t) 0) as [Hneg|Hpos]; [step_arith|simpl mbind].
  - destruct (Z.eqb_spec (m_nanoseconds t mod 1000) 0) as [E|E].
    + conversion_chain (m_seconds t + 1)
        [Mul 1000000; Add (m_nanoseconds t / 1000); Sub 1000000] true.
      conversion_end.
    + conversion_chain (m_seconds t + 1)
        [Mul 1000000; Add (m_nanoseconds t / 1000); Add 1; Sub 1000000] true.
      conversion_end.
  - conversion_chain (m_seconds t) [Mul 1000000; Add (m_nanoseconds t / 1000)] false.
    conversion_end.
Qed.

Lemma to_milliseconds_exact t :
  Time_ok t ->
  Time_to_milliseconds t = Ret (clamp_i64 (quot_away (total t) 1000000)).
Proof.
  intros [Hs Hn]. unfold Time_to_milliseconds. conversion_start t.
  destruct (Z.ltb_spec (m_seconds t) 0) as [Hneg|Hpos]; [step_arith|simpl mbind].
  - rewrite (proj2 (Z.leb_gt 0 (m_seconds t))) by lia.
    conversion_chain (m_seconds t + 1)
      [Mul 1000; Add (m_nanoseconds t / 1000000); Sub 1000] true.
    conversion_end.
  - rewrite (proj2 (Z.leb_le 0 (m_seconds t))) by lia.
    destruct (Z.eqb_spec (m_nanoseconds t mod 1000000) 0) as [E|E].
    + conversion_chain (m_seconds t) [Mul 1000; Add (m_nanoseconds t / 1000000)] false.
      conversion_end.
    + conversion_chain (m_seconds t) [Mul 1000; Add (m_nanoseconds t / 1000000); Add 1] false.
      conversion_end.
Qed.

Lemma to_microseconds_exact t :
  Time_ok t ->
  Time_to_microseconds t = Ret (clamp_i64 (quot_away (total t) 1000)).
Proof.
  intros [Hs Hn]. unfold Time_to_microseconds. conversion_start t.
  destruct (Z.ltb_spec (m_seconds t) 0) as [Hneg|Hpos]; [step_arith|simpl mbind].
  - rewrite (proj2 (Z.leb_gt 0 (m_seconds t))) by lia.
    conversion_chain (m_seconds t + 1)
      [Mul 1000000; Add (m_nanoseconds t / 1000); Sub 1000000] true.
    conversion_end.
  - rewrite (proj2 (Z.leb_le 0 (m_seconds t))) by lia.
    destruct (Z.eqb_spec (m_nanoseconds t mod 1000) 0) as [E|E].
    + conversion_chain (m_seconds t) [Mul 1000000; Add (m_nanoseconds t / 1000)] false.
      conversion_end.
    + conversion_chain (m_seconds t) [Mul 1000000; Add (m_nanoseconds t / 1000); Add 1] false.
      conversion_end.
Qed.

Lemma to_nanoseconds_exact t :
  Time_ok t -> Time_to_nanoseconds t = Ret (clamp_i64 (total t)).
Proof.
  intros [Hs Hn]. unfold Time_to_nanoseconds. conversion_start t.
  destruct (Z.ltb_spec (m_seconds t) 0) as [Hneg|Hpos]; [step_arith|simpl mbind].
  - conversion_chain (m_seconds t + 1)
      [Mul 1000000000; Add (m_nanoseconds t); Sub 1000000000] true.
    conversion_end.
  - conversion_chain (m_seconds t) [Mul 1000000000; Add (m_nanoseconds t)] false.
    conversion_end.
Qed.

Lemma to_seconds_exact t :
  Time_ok t -> Time_to_seconds t = Ret (clamp_i64 (quot_away (total t) 1000000000)).
Proof.
  intros [Hs Hn]. unfold Time_to_seconds.
  rewrite (VERIFY_true (m_nanoseconds t <? 1000000000)) by lia. simpl mbind.
  destruct (Z.leb_spec 0 (m_seconds t)), (Z.eqb_spec (m_nanoseconds t) 0);
    try (simpl; conversion_end).
  pose proof (checked_chain_value_or i64 (m_seconds t) [Add 1] 0x7fffffffffffffff eq_refl) as H1.
  unfold Checked_has_overflow in *. simpl negb in *.
  etrans; [|etrans; [exact H1|]]; [simpl; by destruct (in_typeb _ _)|].
  simpl. conversion_end.
Qed.

Lemma to_truncated_seconds_exact t :
  Time_ok t -> Time_to_truncated_seconds t = Ret (Z.quot (total t) 1000000000).
Proof.
  intros [Hs Hn]. unfold Time_to_truncated_seconds.
  rewrite (VERIFY_true (m_nanoseconds t <? 1000000000)) by lia. simpl mbind.
  destruct (Z.ltb_spec (m_seconds t) 0), (Z.eqb_spec (m_nanoseconds t) 0); simpl;
    [|step_arith|..]; unfold total; f_equal; int_lia.
Qed.

(** Every conversion of a well-formed time to an integer count returns without
    overflow: the [to_truncated_*] ones round the exact instant toward zero, the
    others away from zero, and both saturate at the ends of [i64]. *)
Theorem Time_conversions (t : Time) :
  Time_ok t ->
  Time_to_truncated_seconds t = Ret (Z.quot (total t) 1000000000) /\
  Time_to_truncated_milliseconds t = Ret (clamp_i64 (Z.quot (total t) 1000000)) /\
  Time_to_truncated_microseconds t = Ret (clamp_i64 (Z.quot (total t) 1000)) /\
  Time_to_seconds t = Ret (clamp_i64 (quot_away (total t) 1000000000)) /\
  Time_to_milliseconds t = Ret (clamp_i64 (quot_away (total t) 1000000)) /\
  Time_to_microseconds t = Ret (clamp_i64 (quot_away (total t) 1000)) /\
  Time_to_nanoseconds t = Ret (clamp_i64 (total t)).
Proof.
  intros Ht. split_and!; auto using to_truncated_seconds_exact,
    to_truncated_milliseconds_exact, to_truncated_microseconds_exact, to_seconds_exact,
    to_milliseconds_exact, to_microseconds_exact, to_nanoseconds_exact.
Qed.

Lemma Time_conversions_witness :
  let t := MkTime (-3) 999000001 in
  Time_to_truncated_seconds t = Ret (Z.quot (total t) 1000000000) /\
  Time_to_truncated_milliseconds t = Ret (clamp_i64 (Z.quot (total t) 1000000)) /\
  Time_to_truncated_microseconds t = Ret (clamp_i64 (Z.quot (total t) 1000)) /\
  Time_to_seconds t = Ret (clamp_i64 (quot_away (total t) 1000000000)) /\
  Time_to_milliseconds t = Ret (clamp_i64 (quot_away (total t) 1000000)) /\
  Time_to_microseconds t = Ret (clamp_i64 (quot_away (total t) 1000)) /\
  Time_to_nanoseconds t = Ret (clamp_i64 (total t)).
Proof. apply Time_conversions; split; simpl; int_lia. Defined.

(** ** Construction and round trips *)

Lemma sane_mod_floor n d :
  in_type i64 n -> 2 <= d <= 1000000000 -> sane_mod n d = Ret (n / d, n mod d).
Proof.
  intros Hn Hd. unfold sane_mod, billion.
  rewrite (VERIFY_true ((2 <=? d) && (d <=? 1000000000))) by lia. simpl.
  assert (in_type i64 (n / d) /\ in_type i64 (n mod d)) as [Hq Hr].
  { pose proof (Z.mod_pos_bound n d ltac:(lia)).
    pose proof (Z.div_mod n d ltac:(lia)).
    autorewrite with ints in *. nia. }
  destruct (Z.ltb_spec (Z.rem n d) 0) as [Hneg|Hpos].
  - pose proof (Z.quot_rem' n d). pose proof (Z.rem_bound_abs n d ltac:(lia)).
    assert (n / d = Z.quot n d - 1 /\ n mod d = Z.rem n d + d) as [<- <-].
    { split; symmetry; [apply Z.div_unique with (Z.rem n d + d)|
        apply Z.mod_unique with (Z.quot n d - 1)]; lia. }
    by rewrite !arith_in_Ret by done.
  - pose proof (Z.quot_rem' n d). pose proof (Z.rem_bound_abs n d ltac:(lia)).
    f_equal. f_equal; [apply Z.div_unique with (Z.rem n d)|
      apply Z.mod_unique with (Z.quot n d)]; lia.
Qed.

Lemma sane_mod_i32_floor n d :
  in_type i32 n -> 2 <= d <= 1000000000 -> sane_mod_i32 n d = Ret (n / d, n mod d).
Proof.
  intros Hn Hd. unfold sane_mod_i32. rewrite sane_mod_floor by int_lia. simpl.
  assert (in_type i32 (n / d) /\ in_type i32 (n mod d)) as [Hq Hr].
  { pose proof (Z.mod_pos_bound n d ltac:(lia)).
    pose proof (Z.div_mod n d ltac:(lia)).
    autorewrite with ints in *. nia. }
  by rewrite !wrap_id by done.
Qed.

Lemma from_half_sanitized_saturates s e n :
  in_type i64 s -> in_type i32 e -> 0 <= n < 1000000000 ->
  exists r, Time_from_half_sanitized s e n = Ret r /\ Time_ok r /\
    total r = saturate ((s + e) * 1000000000 + n).
Proof.
  intros Hs He Hn. unfold Time_from_half_sanitized.
  rewrite (VERIFY_true (n <? 1000000000)) by lia. simpl.
  unfold Checked_addition_would_overflow, Time_ok, saturate, clamp, total.
  destruct (((s <=? 0) && (0 <? e)) || ((0 <=? s) && (e <? 0))) eqn:Hc.
  - step_arith. rewrite (proj2 (in_typeb_spec i64 (s + e + 0))) by int_lia. simpl.
    step_arith. eexists; split; [done|]. simpl. int_lia.
  - simpl. destruct (in_typeb i64 (s + e)) eqn:Hin; simpl.
    + apply in_typeb_spec in Hin. step_arith. eexists; split; [done|]. simpl. int_lia.
    + destruct (Z.ltb_spec s 0); eexists; (split; [done|]); simpl; int_lia.
Qed.

Lemma from_timespec_saturates ts :
  in_type i64 (ts_sec ts) -> in_type i32 (ts_nsec ts) ->
  exists r, Time_from_timespec ts = Ret r /\ Time_ok r /\
    total r = saturate (ts_sec ts * 1000000000 + ts_nsec ts).
Proof.
  intros Hs Hn. unfold Time_from_timespec. rewrite (wrap_id i32) by done.
  rewrite sane_mod_i32_floor by (done || lia). simpl. wrap_small u32.
  destruct (from_half_sanitized_saturates (ts_sec ts) (ts_nsec ts / 1000000000)
    (ts_nsec ts mod 1000000000)) as (r & Hr & Hok & Ht); [done|int_lia|int_lia|].
  exists r. rewrite Ht. split_and!; [done..|]. f_equal. int_lia.
Qed.

Lemma from_timeval_saturates tv :
  in_type i64 (tv_sec tv) -> in_type i32 (tv_usec tv) ->
  exists r, Time_from_timeval tv = Ret r /\ Time_ok r /\
    total r = saturate (tv_sec tv * 1000000000 + tv_usec tv * 1000).
Proof.
  intros Hs Hn. unfold Time_from_timeval. rewrite (wrap_id i32) by done.
  rewrite sane_mod_i32_floor by (done || lia). simpl.
  rewrite (VERIFY_true ((0 <=? tv_usec tv mod 1000000) && _)) by int_lia. simpl.
  step_arith. wrap_small u32.
  destruct (from_half_sanitized_saturates (tv_sec tv) (tv_usec tv / 1000000)
    (tv_usec tv mod 1000000 * 1000)) as (r & Hr & Hok & Ht); [done|int_lia|int_lia|].
  exists r. rewrite Ht. split_and!; [done..|]. f_equal. int_lia.
Qed.

(** [from_timespec] and [from_timeval] accept every value of the two structures,
    also denormalised ones with negative or too large sub-second parts, and give
    the well-formed time nearest to the instant they denote. *)
Theorem Time_from_structs (ts : timespec) (tv : timeval) :
  in_type i64 (ts_sec ts) -> in_type i32 (ts_nsec ts) ->
  in_type i64 (tv_sec tv) -> in_type i32 (tv_usec tv) ->
  (exists r, Time_from_timespec ts = Ret r /\ Time_ok r /\
     total r = saturate (ts_sec ts * 1000000000 + ts_nsec ts)) /\
  (exists r, Time_from_timeval tv = Ret r /\ Time_ok r /\
     total r = saturate (tv_sec tv * 1000000000 + tv_usec tv * 1000)).
Proof. auto using from_timespec_saturates, from_timeval_saturates. Qed.

Lemma Time_from_structs_witness :
  let ts := MkTimespec 1 2012345678 in let tv := MkTimeval 1 (-2) in
  (exists r, Time_from_timespec ts = Ret r /\ Time_ok r /\
     total r = saturate (ts_sec ts * 1000000000 + ts_nsec ts)) /\
  (exists r, Time_from_timeval tv = Ret r /\ Time_ok r /\
     total r = saturate (tv_sec tv * 1000000000 + tv_usec tv * 1000)).
Proof. apply Time_from_structs; simpl; int_lia. Defined.

Lemma saturate_id t : Time_ok t -> saturate (total t) = total t.
Proof. intros Ht%total_bounds. unfold saturate, clamp. lia. Qed.

Lemma from_count_exact (k d : Z) n :
  in_type i64 n -> 2 <= d -> d * k = 1000000000 -> 1 <= k ->
  exists q r, sane_mod n d = Ret (q, r) /\ 0 <= r * k < 1000000000 /\ in_type i64 q /\
    q * 1000000000 + r * k = n * k.
Proof.
  intros Hn Hd Hk Hk1. rewrite sane_mod_floor by (done || nia).
  do 2 eexists; split; [done|].
  pose proof (Z.mod_pos_bound n d ltac:(lia)). pose proof (Z.div_mod n d ltac:(lia)) as E.
  split; [nia|]. split; [autorewrite with ints in *; nia|].
  trans ((d * (n / d) + n mod d) * k); [rewrite <-Hk; ring|by rewrite <-E].
Qed.

Ltac simpl_counts :=
  unfold clamp_i64, clamp, total; simpl m_seconds; simpl m_nanoseconds;
  change (int_min i64) with (-9223372036854775808);
  change (int_max i64) with 9223372036854775807; f_equal.

(** Round trips: a well-formed time survives conversion to [timespec] and back,
    and counting up from nanoseconds, microseconds or milliseconds denotes exactly
    that count, so converting back to the same unit returns it. *)
Theorem Time_roundtrips (t : Time) (n : Z) :
  Time_ok t -> in_type i64 n ->
  (ts ← Time_to_timespec t; Time_from_timespec ts) = Ret t /\
  (t ← Time_from_nanoseconds n; Time_to_nanoseconds t) = Ret n /\
  (t ← Time_from_microseconds n; Time_to_truncated_microseconds t) = Ret n /\
  (t ← Time_from_milliseconds n; Time_to_truncated_milliseconds t) = Ret n.
Proof.
  intros Ht Hn. pose proof Ht as [Hs Hns]. split_and!.
  - unfold Time_to_timespec. rewrite (VERIFY_true (m_nanoseconds t <? _)) by lia. simpl.
    wrap_small i64. wrap_small i32.
    destruct (from_timespec_saturates (MkTimespec (m_seconds t) (m_nanoseconds t)))
      as (r & -> & Hr & Htot); [simpl; int_lia..|].
    simpl in Htot. f_equal. apply total_inj; [done..|].
    rewrite Htot. by apply saturate_id.
  - destruct (from_count_exact 1 1000000000 n) as (q & r & Hm & Hr & Hq & E); [done|lia..|].
    unfold Time_from_nanoseconds. rewrite Hm; simpl mbind. wrap_small u32.
    rewrite to_nanoseconds_exact by (split; simpl; int_lia).
    simpl_counts. int_lia.
  - destruct (from_count_exact 1000 1000000 n) as (q & r & Hm & Hr & Hq & E); [done|lia..|].
    unfold Time_from_microseconds. rewrite Hm; simpl mbind. step_arith. wrap_small u32.
    rewrite to_truncated_microseconds_exact by (split; simpl; int_lia).
    simpl_counts. int_lia.
  - destruct (from_count_exact 1000000 1000 n) as (q & r & Hm & Hr & Hq & E); [done|lia..|].
    unfold Time_from_milliseconds. rewrite Hm; simpl mbind. step_arith. wrap_small u32.
    rewrite to_truncated_milliseconds_exact by (split; simpl; int_lia).
    simpl_counts. int_lia.
Qed.

Lemma Time_roundtrips_witness :
  let t := MkTime (-5) 7 in let n := -1234567 in
  (ts ← Time_to_timespec t; Time_from_timespec ts) = Ret t /\
  (t ← Time_from_nanoseconds n; Time_to_nanoseconds t) = Ret n /\
  (t ← Time_from_microseconds n; Time_to_truncated_microseconds t) = Ret n /\
  (t ← Time_from_milliseconds n; Time_to_truncated_milliseconds t) = Ret n.
Proof. apply Time_roundtrips; [split; simpl|]; int_lia. Defined.

(** ** The structure templates *)

Definition tv_total (tv : timeval) : Z := tv_sec tv * 1000000 + tv_usec tv.
Definition ts_total (ts : timespec) : Z := ts_sec ts * 1000000000 + ts_nsec ts.

(** Normal form, with seconds far enough from the ends of [time_t]. *)
Definition tv_normal (tv : timeval) : Prop :=
  - 2 ^ 62 <= tv_sec tv < 2 ^ 62 /\ 0 <= tv_usec tv < 1000000.
Definition ts_normal (ts : timespec) : Prop :=
  - 2 ^ 62 <= ts_sec ts < 2 ^ 62 /\ 0 <= ts_nsec ts < 1000000000.

Ltac struct_arith :=
  repeat step_arith; case_match; repeat step_arith;
  eexists; (split; [done|]); simpl; split; lia.

(** On normalised operands the [timeval_*] and [timespec_*] templates compute the
    exact sum or difference and give a normalised sub-second part. *)
Theorem time_structs_arith (a b : timeval) (c d : timespec) :
  tv_normal a -> tv_normal b -> ts_normal c -> ts_normal d ->
  (exists r, timeval_add a b = Ret r /\ 0 <= tv_usec r < 1000000 /\
     tv_total r = tv_total a + tv_total b) /\
  (exists r, timeval_sub a b = Ret r /\ 0 <= tv_usec r < 1000000 /\
     tv_total r = tv_total a - tv_total b) /\
  (exists r, timespec_add c d = Ret r /\ 0 <= ts_nsec r < 1000000000 /\
     ts_total r = ts_total c + ts_total d) /\
  (exists r, timespec_sub c d = Ret r /\ 0 <= ts_nsec r < 1000000000 /\
     ts_total r = ts_total c - ts_total d) /\
  (exists r, timespec_add_timeval c a = Ret r /\ 0 <= ts_nsec r < 1000000000 /\
     ts_total r = ts_total c + 1000 * tv_total a) /\
  (exists r, timeval_to_timespec a = Ret r /\ ts_total r = 1000 * tv_total a /\
     timespec_to_timeval r = a).
Proof.
  destruct a as [s1 u1], b as [s2 u2], c as [s3 n3], d as [s4 n4].
  unfold tv_normal, ts_normal, tv_total, ts_total. simpl. intros ? ? ? ?.
  unfold timeval_add, timeval_sub, timespec_add, timespec_sub, timespec_add_timeval,
    timeval_to_timespec; simpl.
  split_and!; [struct_arith..|].
  step_arith. eexists; split; [done|]. unfold timespec_to_timeval; simpl.
  split; [lia|]. f_equal. int_lia.
Qed.

Lemma time_structs_arith_witness :
  let a := MkTimeval 1 999999 in let b := MkTimeval 2 1 in
  let c := MkTimespec 0 999999999 in let d := MkTimespec 5 1 in
  (exists r, timeval_add a b = Ret r /\ 0 <= tv_usec r < 1000000 /\
     tv_total r = tv_total a + tv_total b) /\
  (exists r, timeval_sub a b = Ret r /\ 0 <= tv_usec r < 1000000 /\
     tv_total r = tv_total a - tv_total b) /\
  (exists r, timespec_add c d = Ret r /\ 0 <= ts_nsec r < 1000000000 /\
     ts_total r = ts_total c + ts_total d) /\
  (exists r, timespec_sub c d = Ret r /\ 0 <= ts_nsec r < 1000000000 /\
     ts_total r = ts_total c - ts_total d) /\
  (exists r, timespec_add_timeval c a = Ret r /\ 0 <= ts_nsec r < 1000000000 /\
     ts_total r = ts_total c + 1000 * tv_total a) /\
  (exists r, timeval_to_timespec a = Ret r /\ ts_total r = 1000 * tv_total a /\
     timespec_to_timeval r = a).
Proof. apply time_structs_arith; split; simpl; lia. Defined.
