(* ===== verification/BitmapView.v ===== *)
(** * AK/BitmapView.h and AK/Bitmap.h: bitmaps over raw bytes

    A view is an address, the memory from that address on, and a size in bits.
    The memory may be longer than the bitmap (in Heap.h the bitmap lies inside a
    bigger block) and loads and stores outside of it fault.  Word-wise scans
    follow the source: they depend on the alignment of the address. *)

From S2P Require Import Prelude.

#[local] Open Scope Z_scope.

Record BitmapView : Type := MkBitmapView {
  m_addr : Z;          (* (FlatPtr)m_data *)
  m_data : list Z;     (* the bytes from m_data on *)
  m_size : Z           (* in bits *)
}.

Definition with_data (v : BitmapView) (d : list Z) : BitmapView :=
  MkBitmapView (m_addr v) d (m_size v).

(** ** Bit counting and scanning builtins *)

(** [__builtin_popcount] of a [w]-bit value. *)
Fixpoint popcount (w : nat) (x : Z) : Z :=
  match w with
  | O => 0
  | S w => Z.b2z (Z.testbit x (Z.of_nat w)) + popcount w x
  end.

(** The least set bit from [i] on, looking at [n] positions. *)
Fixpoint least_bit (n : nat) (i : Z) (x : Z) : Z :=
  match n with
  | O => i
  | S n => if Z.testbit x i then i else least_bit n (i + 1) x
  end.

(** AK/Platform.h: [count_trailing_zeroes_32], undefined for 0. *)
Definition count_trailing_zeroes_32 (val : Z) : outcome Z :=
  if val =? 0 then Stop Undefined else Ret (least_bit 32 0 val).

(** [__builtin_ffs]: one more than the index of the least set bit, 0 for 0. *)
Definition builtin_ffs (w : nat) (x : Z) : Z :=
  if x =? 0 then 0 else least_bit w 0 x + 1.

(** AK/StdLibExtras.h: [ceil_div]. *)
Definition ceil_div (a b : Z) : Z :=
  let result := a / b in if negb (a mod b =? 0) then result + 1 else result.

(** [(FlatPtr)p & ~(sizeof(u32) - 1)]. *)
Definition align_down4 (p : Z) : Z := Z.land p 0xfffffffc.
Definition align_up4 (p : Z) : Z := align_down4 (wrap FlatPtr (p + 4 - 1)).

(** A little-endian u32 load from the [i]-th byte on. *)
Definition load32 (d : list Z) (i : Z) : outcome Z :=
  b0 ← load d i; b1 ← load d (i + 1); b2 ← load d (i + 2); b3 ← load d (i + 3);
  Ret (b0 + 2 ^ 8 * b1 + 2 ^ 16 * b2 + 2 ^ 24 * b3).

(** ** Single bits *)

Definition BitmapView_size (v : BitmapView) : Z := m_size v.
Definition BitmapView_size_in_bytes (v : BitmapView) : Z := ceil_div (m_size v) 8.
Definition BitmapView_is_null (v : BitmapView) : bool := m_addr v =? 0.

Definition BitmapView_get (v : BitmapView) (index : Z) : outcome bool :=
  VERIFY (index <? m_size v) ;;
  byte ← load (m_data v) (index / 8);
  Ret (negb (Z.land byte (Z.shiftl 1 (index mod 8)) =? 0)).

Definition BitmapView_set (v : BitmapView) (index : Z) (value : bool) : outcome BitmapView :=
  VERIFY (index <? m_size v) ;;
  byte ← load (m_data v) (index / 8);
  let byte' :=
    if value then Z.lor byte (wrap u8 (Z.shiftl 1 (index mod 8)))
    else Z.land byte (wrap u8 (Z.lnot (Z.shiftl 1 (index mod 8)))) in
  d ← store (m_data v) (index / 8) byte';
  Ret (with_data v d).

(** ** Ranges *)

Definition bitmask_first_byte : list Z :=
  [0xFF; 0xFE; 0xFC; 0xF8; 0xF0; 0xE0; 0xC0; 0x80].
Definition bitmask_last_byte : list Z :=
  [0x0; 0x1; 0x3; 0x7; 0xF; 0x1F; 0x3F; 0x7F].

(** [while (first < limit) { count += popcount of byte first; first++; }], [n] the number
    of bytes left; the index [i] is [first - m_data]. *)
Fixpoint count_bytes (d : list Z) (n : nat) (i count : Z) : outcome Z :=
  match n with
  | O => Ret count
  | S n => byte ← load d i; count_bytes d n (i + 1) (count + popcount 8 byte)
  end.

(** [while (ptr32 < last32) { count += popcountl of word ptr32; ptr32++; }]. *)
Fixpoint count_words (d : list Z) (n : nat) (i count : Z) : outcome Z :=
  match n with
  | O => Ret count
  | S n => word ← load32 d i; count_words d n (i + 4) (count + popcount 32 word)
  end.

Definition BitmapView_count_in_range (v : BitmapView) (start len : Z) (value : bool)
    : outcome Z :=
  VERIFY (start <? m_size v) ;;
  VERIFY (wrap size_t (start + len) <=? m_size v) ;;
  if len =? 0 then Ret 0
  else
    let d := m_data v in
    let first := start / 8 in
    let last := wrap size_t (start + len) / 8 in
    byte ← load d first;
    first_mask ← load bitmask_first_byte (start mod 8);
    last_mask ← load bitmask_last_byte (wrap size_t (start + len) mod 8);
    let byte := Z.land byte first_mask in
    count ←
      (if first =? last then
         let byte := Z.land byte last_mask in
         Ret (popcount 8 byte)
       else
         let count := popcount 8 byte in
         byte ← load d last;
         let byte := Z.land byte last_mask in
         let count := count + popcount 8 byte in
         let first := first + 1 in
         if first <? last then
           (* pointers as indices from m_data *)
           let ptr32 := align_up4 (m_addr v + first) - m_addr v in
           let ptr32 := if last <? ptr32 then last else ptr32 in
           count ← count_bytes d (Z.to_nat (ptr32 - first)) first count;
           let last32 := align_down4 (m_addr v + last) - m_addr v in
           let words := Z.to_nat (ceil_div (last32 - ptr32) 4) in
           count ← count_words d words ptr32 count;
           let ptr32 := ptr32 + 4 * Z.of_nat words in
           count_bytes d (Z.to_nat (last - ptr32)) ptr32 count
         else Ret count);
    Ret (if value then count else len - count).

Definition BitmapView_count_slow (v : BitmapView) (value : bool) : outcome Z :=
  BitmapView_count_in_range v 0 (m_size v) value.

(** [__builtin_memset(&d[i], value, n)]. *)
Fixpoint memset (d : list Z) (n : nat) (i value : Z) : outcome (list Z) :=
  match n with
  | O => Ret d
  | S n => d ← store d i value; memset d n (i + 1) value
  end.

(** One masked byte of [set_range<VALUE, verify_that_all_bits_flip>]. *)
Definition set_masked (VALUE verify : bool) (d : list Z) (i byte_mask : Z)
    : outcome (list Z) :=
  byte ← load d i;
  (if verify then
     VERIFY (if VALUE then Z.land byte byte_mask =? 0
             else Z.land byte byte_mask =? byte_mask)
   else Ret tt) ;;
  store d i (if VALUE then Z.lor byte byte_mask else Z.land byte (Z.lnot byte_mask)).

Definition BitmapView_set_range_impl (VALUE verify_that_all_bits_flip : bool)
    (v : BitmapView) (start len : Z) : outcome BitmapView :=
  VERIFY (start <? m_size v) ;;
  VERIFY (wrap size_t (start + len) <=? m_size v) ;;
  if len =? 0 then Ret v
  else
    let d := m_data v in
    let first := start / 8 in
    let last := wrap size_t (start + len) / 8 in
    first_mask ← load bitmask_first_byte (start mod 8);
    last_mask ← load bitmask_last_byte (wrap size_t (start + len) mod 8);
    if first =? last then
      d ← set_masked VALUE verify_that_all_bits_flip d first (Z.land first_mask last_mask);
      Ret (with_data v d)
    else
      d ← set_masked VALUE verify_that_all_bits_flip d first first_mask;
      d ← set_masked VALUE verify_that_all_bits_flip d last last_mask;
      let first := first + 1 in
      d ← (if first <? last
           then memset d (Z.to_nat (last - first)) first (if VALUE then 0xFF else 0x0)
           else Ret d);
      Ret (with_data v d).

Definition BitmapView_set_range (v : BitmapView) (start len : Z) (value : bool)
    : outcome BitmapView :=
  if value then BitmapView_set_range_impl true false v start len
  else BitmapView_set_range_impl false false v start len.

Definition BitmapView_set_range_and_verify_that_all_bits_flip
    (v : BitmapView) (start len : Z) (value : bool) : outcome BitmapView :=
  if value then BitmapView_set_range_impl true true v start len
  else BitmapView_set_range_impl false true v start len.

Definition BitmapView_fill (v : BitmapView) (value : bool) : outcome BitmapView :=
  d ← memset (m_data v) (Z.to_nat (BitmapView_size_in_bytes v)) 0
        (if value then 0xff else 0x00);
  Ret (with_data v d).

(** ** Bits

    The abstract view of a bitmap: bit [i] of the memory. *)

Definition byte_at (d : list Z) (k : Z) : Z := default 0 (d !! Z.to_nat k).
Definition bit (d : list Z) (i : Z) : bool := Z.testbit (byte_at d (i / 8)) (i mod 8).

Definition is_bytes (d : list Z) : Prop := Forall (in_type u8) d.

(** The memory holds the bitmap and does not reach the end of the address space. *)
Record view_ok (v : BitmapView) : Prop := ViewOk {
  ok_bytes : is_bytes (m_data v);
  ok_size : 0 <= m_size v < 2 ^ 32;
  ok_room : BitmapView_size_in_bytes v <= Z.of_nat (length (m_data v));
  ok_addr : 0 <= m_addr v /\ m_addr v + Z.of_nat (length (m_data v)) <= 2 ^ 32 - 4
}.

(** How many of [f a], ..., [f (a + n - 1)] hold. *)
Fixpoint count_true (f : Z -> bool) (a : Z) (n : nat) : Z :=
  match n with
  | O => 0
  | S n => Z.b2z (f a) + count_true f (a + 1) n
  end.

Lemma ceil_div_8 n : ceil_div n 8 = (n + 7) / 8.
Proof. unfold ceil_div. destruct (Z.eqb_spec (n mod 8) 0); simpl; int_lia. Qed.

Lemma size_in_bytes_bound v i :
  view_ok v -> 0 <= i < m_size v -> 0 <= i / 8 < Z.of_nat (length (m_data v)).
Proof.
  intros [_ _ Hr _] Hi. unfold BitmapView_size_in_bytes in Hr.
  rewrite ceil_div_8 in Hr. int_lia.
Qed.

Lemma load_byte_at d k :
  0 <= k < Z.of_nat (length d) -> load d k = Ret (byte_at d k).
Proof.
  intros Hk. unfold load, byte_at. rewrite (proj2 (Z.leb_le 0 k)) by lia.
  destruct (lookup_lt_is_Some_2 d (Z.to_nat k)) as [x Hx]; [lia|]. by rewrite Hx.
Qed.

Lemma load_out (d : list Z) k : Z.of_nat (length d) <= k -> load d k = Stop OutOfBounds.
Proof.
  intros Hk. unfold load. destruct (0 <=? k); [|done].
  by rewrite lookup_ge_None_2 by lia.
Qed.

Lemma byte_at_u8 d k : is_bytes d -> in_type u8 (byte_at d k).
Proof.
  intros Hd. unfold byte_at. destruct (d !! Z.to_nat k) eqn:E; simpl.
  - by apply (Forall_lookup_1 _ _ _ _ Hd E).
  - int_lia.
Qed.

Lemma store_byte_at (d : list Z) k x :
  0 <= k < Z.of_nat (length d) -> store d k x = Ret (<[Z.to_nat k := x]> d).
Proof.
  intros Hk. unfold store. rewrite (proj2 (Z.leb_le 0 k)) by lia.
  by rewrite (proj2 (Z.ltb_lt k _)) by lia.
Qed.

Lemma byte_at_insert d k x j :
  0 <= k < Z.of_nat (length d) -> 0 <= j ->
  byte_at (<[Z.to_nat k := x]> d) j = if j =? k then x else byte_at d j.
Proof.
  intros Hk Hj. unfold byte_at. destruct (Z.eqb_spec j k) as [->|Hne].
  - by rewrite list_lookup_insert_eq by lia.
  - by rewrite list_lookup_insert_ne by lia.
Qed.

Lemma is_bytes_insert d k x :
  is_bytes d -> in_type u8 x -> is_bytes (<[k := x]> d).
Proof. intros. by apply Forall_insert. Qed.

Lemma u8_testbit_high x i : in_type u8 x -> 8 <= i -> Z.testbit x i = false.
Proof.
  intros Hx Hi. rewrite <- (wrap_id u8 eq_refl x) by done.
  unfold wrap; simpl. apply Z.mod_pow2_bits_high. lia.
Qed.

Lemma u8_of_bits x : (forall i, 8 <= i -> Z.testbit x i = false) -> in_type u8 x.
Proof.
  intros Hx. replace x with (wrap u8 x); [by apply wrap_in_type|].
  unfold wrap; simpl. apply Z.bits_inj'. intros i Hi.
  destruct (decide (i < 8)); [by apply (Z.mod_pow2_bits_low _ 8); lia|].
  rewrite (Z.mod_pow2_bits_high _ 8), Hx by lia. done.
Qed.

Lemma u8_ext x y :
  in_type u8 x -> in_type u8 y ->
  (forall i, 0 <= i < 8 -> Z.testbit x i = Z.testbit y i) -> x = y.
Proof.
  intros Hx Hy H. apply Z.bits_inj'. intros i Hi.
  destruct (decide (i < 8)); [by apply H; lia|].
  by rewrite !u8_testbit_high by (done || lia).
Qed.

(** [count_true] over adjacent ranges, and where the predicates agree. *)
Lemma count_true_app f a n m :
  count_true f a (n + m) = count_true f a n + count_true f (a + Z.of_nat n) m.
Proof.
  revert a; induction n as [|n IH]; intros a; simpl.
  - by rewrite Z.add_0_r.
  - rewrite IH. replace (a + 1 + Z.of_nat n) with (a + Z.of_nat (S n)) by lia. lia.
Qed.

Lemma count_true_ext f g a n :
  (forall i, a <= i < a + Z.of_nat n -> f i = g i) -> count_true f a n = count_true g a n.
Proof.
  revert a; induction n as [|n IH]; intros a H; simpl; [done|].
  rewrite (H a), (IH (a + 1)) by (intros; try apply H; lia). done.
Qed.

Lemma count_true_none f a n :
  (forall i, a <= i < a + Z.of_nat n -> f i = false) -> count_true f a n = 0.
Proof.
  revert a; induction n as [|n IH]; intros a H; simpl; [done|].
  rewrite (H a), (IH (a + 1)) by (intros; try apply H; lia). done.
Qed.

Lemma count_true_shift f a b n :
  count_true (fun i => f (i + b)) a n = count_true f (a + b) n.
Proof.
  revert a; induction n as [|n IH]; intros a; simpl; [done|].
  rewrite IH. by replace (a + 1 + b) with (a + b + 1) by lia.
Qed.

Lemma count_true_negb f a n :
  count_true (fun i => negb (f i)) a n = Z.of_nat n - count_true f a n.
Proof.
  revert a; induction n as [|n IH]; intros a; simpl; [done|].
  rewrite IH. destruct (f a); simpl; lia.
Qed.

Lemma count_true_bound f a n : 0 <= count_true f a n <= Z.of_nat n.
Proof.
  revert a; induction n as [|n IH]; intros a; [done|].
  unfold count_true; fold count_true. specialize (IH (a + 1)). destruct (f a); simpl Z.b2z; lia.
Qed.

Lemma popcount_count w x : popcount w x = count_true (Z.testbit x) 0 w.
Proof.
  induction w as [|w IH]; [done|]. cbn [popcount]. rewrite IH.
  replace (S w) with (w + 1)%nat by lia. rewrite count_true_app. rewrite Z.add_0_l. cbn [count_true]. lia.
Qed.

#[global] Arguments popcount : simpl never.
#[global] Arguments count_true : simpl never.

(** ** Byte-level lemmas *)

Ltac case_below_8 k :=
  let H := fresh in
  assert (k = 0 \/ k = 1 \/ k = 2 \/ k = 3 \/ k = 4 \/ k = 5 \/ k = 6 \/ k = 7)
    as H by lia;
  destruct H as [->|[->|[->|[->|[->|[->|[->| ->]]]]]]].

Lemma first_mask_spec k :
  0 <= k < 8 ->
  exists mask, load bitmask_first_byte k = Ret mask /\ in_type u8 mask /\
    forall i, 0 <= i < 8 -> Z.testbit mask i = (k <=? i).
Proof.
  intros Hk. exists (nth (Z.to_nat k) bitmask_first_byte 0).
  case_below_8 k; (split_and!; [done | by vm_compute |]); intros i Hi; by case_below_8 i.
Qed.

Lemma last_mask_spec k :
  0 <= k < 8 ->
  exists mask, load bitmask_last_byte k = Ret mask /\ in_type u8 mask /\
    forall i, 0 <= i < 8 -> Z.testbit mask i = (i <? k).
Proof.
  intros Hk. exists (nth (Z.to_nat k) bitmask_last_byte 0).
  case_below_8 k; (split_and!; [done | by vm_compute |]); intros i Hi; by case_below_8 i.
Qed.

Lemma bit_in_byte d k i : 0 <= i < 8 -> bit d (8 * k + i) = Z.testbit (byte_at d k) i.
Proof.
  intros Hi. unfold bit.
  replace ((8 * k + i) / 8) with k by int_lia.
  by replace ((8 * k + i) mod 8) with i by int_lia.
Qed.

(** A masked byte counts the selected bits. *)
Lemma popcount_masked d k mask P :
  (forall i, 0 <= i < 8 -> Z.testbit mask i = P (8 * k + i)) ->
  popcount 8 (Z.land (byte_at d k) mask) =
    count_true (fun i => bit d i && P i) (8 * k) 8.
Proof.
  intros HP. rewrite popcount_count.
  etransitivity; [|exact (count_true_shift _ 0 (8 * k) 8)].
  apply count_true_ext. intros i Hi.
  rewrite Z.land_spec, HP, (Z.add_comm i), bit_in_byte by lia. done.
Qed.

Lemma popcount_byte d k : popcount 8 (byte_at d k) = count_true (bit d) (8 * k) 8.
Proof.
  rewrite popcount_count. 
  etransitivity; [|exact (count_true_shift _ 0 (8 * k) 8)].
  apply count_true_ext. intros i Hi.
  by rewrite (Z.add_comm i), bit_in_byte by lia.
Qed.

Lemma testbit_byte_cons b r i :
  in_type u8 b -> 0 <= i ->
  Z.testbit (b + 2 ^ 8 * r) i = if i <? 8 then Z.testbit b i else Z.testbit r (i - 8).
Proof.
  intros Hb Hi. rewrite in_type_u8 in Hb. destruct (Z.ltb_spec i 8).
  - rewrite <- (Z.mod_pow2_bits_low _ 8 i) by lia. f_equal. int_lia.
  - replace i with (i - 8 + 8) at 1 by lia. rewrite <- Z.div_pow2_bits by lia.
    f_equal. int_lia.
Qed.

Lemma load32_bits d i :
  is_bytes d -> 0 <= i -> i + 4 <= Z.of_nat (length d) ->
  exists w, load32 d i = Ret w /\ in_type u32 w /\
    forall j, 0 <= j < 32 -> Z.testbit w j = bit d (8 * i + j).
Proof.
  intros Hd H0 Hl. unfold load32. rewrite !load_byte_at by lia. simpl.
  pose proof (byte_at_u8 d i Hd) as B0. pose proof (byte_at_u8 d (i + 1) Hd) as B1.
  pose proof (byte_at_u8 d (i + 2) Hd) as B2. pose proof (byte_at_u8 d (i + 3) Hd) as B3.
  eexists; split; [done|]. split; [int_lia|]. intros j Hj.
  replace (byte_at d i + 2 ^ 8 * byte_at d (i + 1) + 2 ^ 16 * byte_at d (i + 2) +
           2 ^ 24 * byte_at d (i + 3))
    with (byte_at d i + 2 ^ 8 * (byte_at d (i + 1) + 2 ^ 8 * (byte_at d (i + 2) +
           2 ^ 8 * byte_at d (i + 3)))) by lia.
  rewrite testbit_byte_cons by (done || lia). destruct (Z.ltb_spec j 8).
  { by rewrite bit_in_byte by lia. }
  rewrite testbit_byte_cons by (done || lia). destruct (Z.ltb_spec (j - 8) 8).
  { replace (8 * i + j) with (8 * (i + 1) + (j - 8)) by lia. by rewrite bit_in_byte by lia. }
  rewrite testbit_byte_cons by (done || lia). destruct (Z.ltb_spec (j - 8 - 8) 8).
  - replace (8 * i + j) with (8 * (i + 2) + (j - 8 - 8)) by lia. by rewrite bit_in_byte by lia.
  - replace (8 * i + j) with (8 * (i + 3) + (j - 8 - 8 - 8)) by lia.
    by rewrite bit_in_byte by lia.
Qed.

Lemma popcount_word d i w :
  (forall j, 0 <= j < 32 -> Z.testbit w j = bit d (8 * i + j)) ->
  popcount 32 w = count_true (bit d) (8 * i) 32.
Proof.
  intros H. rewrite popcount_count. 
  etransitivity; [|exact (count_true_shift _ 0 (8 * i) 32)].
  apply count_true_ext. intros j Hj.
  by rewrite H, Z.add_comm by lia.
Qed.

Lemma align_down4_spec p : in_type u32 p -> align_down4 p = 4 * (p / 4).
Proof.
  intros Hp. unfold align_down4. change 0xfffffffc with (Z.shiftl (Z.ones 30) 2).
  replace (4 * (p / 4)) with (Z.shiftl (Z.shiftr p 2) 2)
    by (rewrite Z.shiftl_mul_pow2, Z.shiftr_div_pow2 by lia; change (2 ^ 2) with 4; lia).
  apply Z.bits_inj'. intros i Hi. rewrite Z.land_spec, !Z.shiftl_spec by lia.
  destruct (decide (i < 2)); [by rewrite !(Z.testbit_neg_r _ (i - 2)), andb_false_r by lia|].
  rewrite Z.shiftr_spec by lia. replace (i - 2 + 2) with i by lia.
  destruct (decide (i < 32)).
  - by rewrite Z.ones_spec_low, andb_true_r by lia.
  - rewrite Z.ones_spec_high by lia. rewrite andb_false_r.
    rewrite <- (wrap_id u32 eq_refl p) by done. unfold wrap; simpl.
    symmetry. apply Z.mod_pow2_bits_high. lia.
Qed.

Lemma align_up4_spec p : 0 <= p <= 2 ^ 32 - 4 -> align_up4 p = 4 * ((p + 3) / 4).
Proof.
  intros Hp. unfold align_up4. unfold FlatPtr. wrap_small u32.
  rewrite align_down4_spec by int_lia. int_lia.
Qed.

(** ** Counting *)

Lemma count_bytes_spec d n i count :
  0 <= i -> i + Z.of_nat n <= Z.of_nat (length d) ->
  count_bytes d n i count = Ret (count + count_true (bit d) (8 * i) (8 * n)).
Proof.
  revert i count; induction n as [|n IH]; intros i count Hi Hn; cbn [count_bytes].
  - replace (8 * 0)%nat with 0%nat by lia. unfold count_true. f_equal. lia.
  - rewrite load_byte_at by lia. run. rewrite IH, popcount_byte by lia.
    replace (8 * S n)%nat with (8 + 8 * n)%nat by lia. rewrite count_true_app.
    replace (8 * i + Z.of_nat 8) with (8 * (i + 1)) by lia. f_equal. lia.
Qed.

Lemma count_words_spec d n i count :
  is_bytes d -> 0 <= i -> i + 4 * Z.of_nat n <= Z.of_nat (length d) ->
  count_words d n i count = Ret (count + count_true (bit d) (8 * i) (32 * n)).
Proof.
  intros Hd; revert i count; induction n as [|n IH]; intros i count Hi Hn; cbn [count_words].
  - replace (32 * 0)%nat with 0%nat by lia. unfold count_true. f_equal. lia.
  - destruct (load32_bits d i) as (w & -> & _ & Hw); [done | lia..|]. run.
    rewrite IH, (popcount_word d i w Hw) by lia.
    replace (32 * S n)%nat with (32 + 32 * n)%nat by lia. rewrite count_true_app.
    replace (8 * i + Z.of_nat 32) with (8 * (i + 4)) by lia. f_equal. lia.
Qed.

Lemma ceil_div_4 n : ceil_div n 4 = (n + 3) / 4.
Proof. unfold ceil_div. destruct (Z.eqb_spec (n mod 4) 0); simpl; int_lia. Qed.

(** The bytes strictly between the first and the last one, word by word where the
    addresses are aligned. *)
Lemma count_middle_spec addr d first last count :
  is_bytes d -> 0 <= addr -> addr + Z.of_nat (length d) <= 2 ^ 32 - 4 ->
  0 <= first < last -> last < Z.of_nat (length d) ->
  (let ptr32 := align_up4 (addr + first) - addr in
   let ptr32 := if last <? ptr32 then last else ptr32 in
   count ← count_bytes d (Z.to_nat (ptr32 - first)) first count;
   let last32 := align_down4 (addr + last) - addr in
   let words := Z.to_nat (ceil_div (last32 - ptr32) 4) in
   count ← count_words d words ptr32 count;
   let ptr32 := ptr32 + 4 * Z.of_nat words in
   count_bytes d (Z.to_nat (last - ptr32)) ptr32 count) =
  Ret (count + count_true (bit d) (8 * first) (Z.to_nat (8 * (last - first)))).
Proof.
  intros Hd Ha Hl Hf Hlast. cbv zeta.
  rewrite align_up4_spec, align_down4_spec, ceil_div_4 by int_lia.
  set (p := if last <? _ then _ else _).
  set (n := Z.to_nat ((4 * ((addr + last) / 4) - addr - p + 3) / 4)).
  assert (first <= p <= last /\ p + 4 * Z.of_nat n <= last) as [Hp Hn].
  { subst n p. destruct (Z.ltb_spec last (4 * ((addr + first + 3) / 4) - addr)); int_lia. }
  clearbody p n.
  rewrite count_bytes_spec by lia. run. rewrite count_words_spec by (done || lia). run.
  rewrite count_bytes_spec by lia. f_equal.
  replace (Z.to_nat (8 * (last - first)))
    with (8 * Z.to_nat (p - first) + (32 * n + 8 * Z.to_nat (last - (p + 4 * Z.of_nat n))))%nat
    by lia.
  rewrite !count_true_app.
  replace (8 * first + Z.of_nat (8 * Z.to_nat (p - first))) with (8 * p) by lia.
  replace (8 * p + Z.of_nat (32 * n)) with (8 * (p + 4 * Z.of_nat n)) by lia. lia.
Qed.

(** Masking [8 * a, 8 * b) down to the bits in [s, e). *)
Lemma count_true_restrict f s e a b :
  8 * a <= s -> s <= e -> e <= 8 * b ->
  count_true (fun i => f i && ((s <=? i) && (i <? e))) (8 * a) (Z.to_nat (8 * b - 8 * a)) =
  count_true f s (Z.to_nat (e - s)).
Proof.
  intros. replace (Z.to_nat (8 * b - 8 * a))
    with (Z.to_nat (s - 8 * a) + (Z.to_nat (e - s) + Z.to_nat (8 * b - e)))%nat by lia.
  rewrite !count_true_app.
  replace (8 * a + Z.of_nat (Z.to_nat (s - 8 * a))) with s by lia.
  replace (s + Z.of_nat (Z.to_nat (e - s))) with e by lia.
  rewrite (count_true_none _ (8 * a)), (count_true_none _ e) by
    (intros i Hi; rewrite andb_false_iff, andb_false_iff; lia).
  rewrite (count_true_ext _ f s); [lia|].
  intros i Hi. rewrite (proj2 (Z.leb_le s i)), (proj2 (Z.ltb_lt i e)) by lia.
  by rewrite andb_true_r.
Qed.

(** The two ways the bytes are summed, both as one restricted count. *)
Lemma count_split f s e a b :
  8 * a <= s < 8 * a + 8 -> s <= e -> a < b -> 8 * b <= e < 8 * b + 8 ->
  count_true (fun i => f i && (s <=? i)) (8 * a) 8 +
  count_true (fun i => f i && (i <? e)) (8 * b) 8 +
  count_true f (8 * (a + 1)) (Z.to_nat (8 * (b - (a + 1)))) =
  count_true f s (Z.to_nat (e - s)).
Proof.
  intros Hs He Hab Hb. rewrite <- (count_true_restrict f s e a (b + 1)) by lia.
  replace (Z.to_nat (8 * (b + 1) - 8 * a))
    with (8 + (Z.to_nat (8 * (b - (a + 1))) + 8))%nat by lia.
  rewrite !count_true_app.
  replace (8 * a + Z.of_nat 8) with (8 * (a + 1)) by lia.
  replace (8 * (a + 1) + Z.of_nat (Z.to_nat (8 * (b - (a + 1))))) with (8 * b) by lia.
  rewrite (count_true_ext _ (fun i => f i && ((s <=? i) && (i <? e))) (8 * a)),
    (count_true_ext _ (fun i => f i && ((s <=? i) && (i <? e))) (8 * b)),
    (count_true_ext f (fun i => f i && ((s <=? i) && (i <? e))) (8 * (a + 1))); [lia|..];
    intros i Hi; destruct (Z.leb_spec s i), (Z.ltb_spec i e); simpl;
    rewrite ?andb_true_r; (done || lia).
Qed.

Lemma count_in_range_spec v start len value :
  view_ok v -> 0 <= start < m_size v -> 0 <= len -> start + len <= m_size v ->
  (start + len) / 8 < Z.of_nat (length (m_data v)) ->
  BitmapView_count_in_range v start len value =
    Ret (count_true (fun i => Bool.eqb (bit (m_data v) i) value) start (Z.to_nat len)).
Proof.
  intros [Hd Hsz _ [Ha Hal]] Hs Hlen Hend Hin. unfold BitmapView_count_in_range, size_t. cbv zeta.
  wrap_small u32. rewrite VERIFY_true by lia. run. rewrite VERIFY_true by lia. run.
  destruct (Z.eqb_spec len 0) as [->|Hl0]; [done|].
  rewrite (load_byte_at (m_data v) (start / 8)) by int_lia. run.
  destruct (first_mask_spec (start mod 8)) as (fm & -> & _ & Hfm); [int_lia|]. run.
  destruct (last_mask_spec ((start + len) mod 8)) as (lm & -> & _ & Hlm); [int_lia|]. run.
  set (e := start + len) in *.
  match goal with |- (?c ≫= _) = _ =>
    assert (c = Ret (count_true (bit (m_data v)) start (Z.to_nat len))) as ->
  end.
  { replace len with (e - start) by lia.
    assert (forall k i, 8 * k <= start < 8 * k + 8 -> 0 <= i < 8 ->
              (start mod 8 <=? i) = (start <=? 8 * k + i)) as Hfirst by int_lia.
    assert (forall k i, 8 * k <= e < 8 * k + 8 -> 0 <= i < 8 ->
              (i <? e mod 8) = (8 * k + i <? e)) as Hlast by int_lia.
    destruct (Z.eqb_spec (start / 8) (e / 8)) as [Heq|Hne].
    - rewrite <- Z.land_assoc,
        (popcount_masked _ _ _ (fun i => (start <=? i) && (i <? e))).
      + f_equal. etransitivity;
          [|apply (count_true_restrict _ start e (start / 8) (start / 8 + 1)); int_lia].
        f_equal. lia.
      + intros i Hi. rewrite Z.land_spec, Hfm, Hlm, (Hfirst (start / 8)), (Hlast (start / 8))
          by int_lia. done.
    - rewrite (popcount_masked _ _ fm (fun i => start <=? i)) by
        (intros i Hi; rewrite Hfm, (Hfirst (start / 8)) by int_lia; done).
      rewrite load_byte_at by int_lia. run.
      rewrite (popcount_masked _ _ lm (fun i => i <? e)) by
        (intros i Hi; rewrite Hlm, (Hlast (e / 8)) by int_lia; done).
      rewrite <- (count_split _ start e (start / 8) (e / 8)) by int_lia.
      destruct (Z.ltb_spec (start / 8 + 1) (e / 8)).
      + apply count_middle_spec; (done || int_lia).
      + replace (Z.to_nat (8 * (e / 8 - (start / 8 + 1)))) with 0%nat by int_lia.
        unfold count_true at 5. f_equal. lia. }
  run. f_equal. destruct value.
  - apply count_true_ext. intros i _. by destruct (bit (m_data v) i).
  - replace len with (Z.of_nat (Z.to_nat len)) at 1 by lia. rewrite <- count_true_negb.
    apply count_true_ext. intros i _. by destruct (bit (m_data v) i).
Qed.

(** ** Setting *)

(** What writing [value] to the bits that satisfy [P] means. *)
Definition writes (P : Z -> bool) (value : bool) (d d' : list Z) : Prop :=
  length d' = length d /\ is_bytes d' /\
  forall i, 0 <= i -> bit d' i = if P i then value else bit d i.

Lemma writes_trans P Q value d d' d'' :
  writes P value d d' -> writes Q value d' d'' ->
  writes (fun i => P i || Q i) value d d''.
Proof.
  intros (L1 & _ & B1) (L2 & F2 & B2). split_and!; [lia | done |].
  intros i Hi. rewrite B2, B1 by lia. by destruct (P i), (Q i).
Qed.

Lemma writes_ext P Q value d d' :
  (forall i : Z, 0 <= i -> P i = Q i) -> writes P value d d' -> writes Q value d d'.
Proof. intros H (L & F & B). split_and!; try done. intros i Hi. rewrite <- H by lia. auto. Qed.

(** Replacing one byte. *)
Lemma writes_byte (P : Z -> bool) value d k b :
  is_bytes d -> 0 <= k < Z.of_nat (length d) -> in_type u8 b ->
  (forall i, 0 <= i < 8 ->
     Z.testbit b i = if P (8 * k + i) then value else Z.testbit (byte_at d k) i) ->
  (forall i, 0 <= i -> i / 8 <> k -> P i = false) ->
  writes P value d (<[Z.to_nat k := b]> d).
Proof.
  intros Hd Hk Hb Hbits Hout. split_and!.
  - by rewrite length_insert.
  - by apply is_bytes_insert.
  - intros i Hi. unfold bit at 1. rewrite byte_at_insert by int_lia.
    destruct (Z.eqb_spec (i / 8) k) as [<-|Hne].
    + rewrite Hbits by int_lia.
      replace (8 * (i / 8) + i mod 8) with i by int_lia. done.
    + by rewrite Hout.
Qed.

Lemma set_masked_spec VALUE verify d k mask (P : Z -> bool) :
  is_bytes d -> 0 <= k < Z.of_nat (length d) -> in_type u8 mask ->
  (forall i, 0 <= i < 8 -> Z.testbit mask i = P (8 * k + i)) ->
  (forall i, 0 <= i -> i / 8 <> k -> P i = false) ->
  (verify = true -> forall i, 0 <= i < 8 -> P (8 * k + i) = true ->
     bit d (8 * k + i) = negb VALUE) ->
  exists d', set_masked VALUE verify d k mask = Ret d' /\ writes P VALUE d d'.
Proof.
  intros Hd Hk Hm HP Hout Hv. unfold set_masked.
  pose proof (byte_at_u8 d k Hd) as Hb.
  rewrite load_byte_at by done. run.
  match goal with |- context [if verify then VERIFY ?b else _] =>
    assert ((if verify then VERIFY b else Ret tt) = Ret tt) as -> end.
  { destruct verify; [|done]. apply VERIFY_true. specialize (Hv eq_refl).
    destruct VALUE; apply Z.eqb_eq; apply Z.bits_inj'; intros i Hi;
      rewrite Z.land_spec, ?Z.bits_0;
      (destruct (decide (i < 8)); [|by rewrite !(u8_testbit_high _ i) by (done || lia)]);
      specialize (Hv i); rewrite bit_in_byte, <- HP in Hv by lia;
      destruct (Z.testbit mask i); rewrite ?andb_false_r, ?andb_true_r; try done;
      by apply Hv. }
  run. rewrite store_byte_at by done. eexists; split; [done|].
  apply writes_byte; try done.
  - apply u8_of_bits. intros i Hi. destruct VALUE; rewrite ?Z.lor_spec, ?Z.land_spec;
      by rewrite !u8_testbit_high by (done || lia).
  - intros i Hi. rewrite <- HP by lia.
    destruct VALUE; rewrite ?Z.lor_spec, ?Z.land_spec, ?Z.lnot_spec by lia;
      destruct (Z.testbit mask i), (Z.testbit (byte_at d k) i); done.
Qed.

Lemma memset_spec d n i value (b : bool) :
  is_bytes d -> 0 <= i -> i + Z.of_nat n <= Z.of_nat (length d) ->
  value = (if b then 0xff else 0x00) ->
  exists d', memset d n i value = Ret d' /\
    writes (fun j => (8 * i <=? j) && (j <? 8 * (i + Z.of_nat n))) b d d'.
Proof.
  intros Hd H0 Hl ->. revert d i Hd H0 Hl; induction n as [|n IH]; intros d i Hd H0 Hl;
    cbn [memset].
  { eexists; split; [done|]. split_and!; [done..|]. intros j Hj.
    by replace (_ && _) with false by bool_lia. }
  rewrite store_byte_at by lia. run.
  assert (writes (fun j => j / 8 =? i) b d
            (<[Z.to_nat i := if b then 0xff else 0x00]> d)) as Hw.
  { apply writes_byte; try done; [lia | by destruct b | | lia].
    intros k Hk. rewrite (proj2 (Z.eqb_eq _ i)) by int_lia.
    destruct b; [by case_below_8 k | apply Z.bits_0]. }
  destruct Hw as (L & F & B).
  destruct (IH (<[Z.to_nat i := if b then 0xff else 0x00]> d) (i + 1)) as (d' & -> & Hd');
    [done | lia | lia |]. eexists; split; [done|].
  eapply writes_ext, (writes_trans _ _ _ _ _ _ (conj L (conj F B)) Hd').
  intros j Hj. cbv beta. bool_lia.
Qed.

Definition in_range (start len i : Z) : bool := (start <=? i) && (i <? start + len).

Lemma set_range_impl_spec VALUE verify v start len :
  view_ok v -> 0 <= start < m_size v -> 0 <= len -> start + len <= m_size v ->
  (start + len) / 8 < Z.of_nat (length (m_data v)) ->
  (verify = true -> forall i, in_range start len i = true -> bit (m_data v) i = negb VALUE) ->
  exists d', BitmapView_set_range_impl VALUE verify v start len = Ret (with_data v d') /\
    writes (in_range start len) VALUE (m_data v) d'.
Proof.
  intros [Hd Hsz _ _] Hs Hlen Hend Hin Hv. unfold BitmapView_set_range_impl, size_t. cbv zeta.
  wrap_small u32. rewrite VERIFY_true by lia. run. rewrite VERIFY_true by lia. run.
  destruct (Z.eqb_spec len 0) as [->|Hl0].
  { exists (m_data v). split; [by destruct v|]. split_and!; [done..|]. intros i Hi.
    by replace (in_range start 0 i) with false by (unfold in_range; bool_lia). }
  destruct (first_mask_spec (start mod 8)) as (fm & -> & Ufm & Hfm); [int_lia|]. run.
  destruct (last_mask_spec ((start + len) mod 8)) as (lm & -> & Ulm & Hlm); [int_lia|]. run.
  unfold in_range in *.
  destruct (Z.eqb_spec (start / 8) ((start + len) / 8)) as [Heq|Hne].
  - destruct (set_masked_spec VALUE verify (m_data v) (start / 8) (Z.land fm lm)
      (fun i => (start <=? i) && (i <? start + len))) as (d' & -> & Hw);
      [done | int_lia | | | | |].
    + apply u8_of_bits. intros i Hi. by rewrite Z.land_spec, !u8_testbit_high.
    + intros i Hi. rewrite Z.land_spec, Hfm, Hlm by lia. bool_lia.
    + intros i Hi Hk. apply not_true_is_false. rewrite andb_true_iff. int_lia.
    + intros Hver i Hi Hp. by apply (Hv Hver).
    + run. by exists d'.
  - destruct (set_masked_spec VALUE verify (m_data v) (start / 8) fm
      (fun i => (start <=? i) && (i / 8 =? start / 8))) as (d1 & -> & Hw1);
      [done | int_lia | done | | | |].
    { intros i Hi. rewrite Hfm by lia. bool_lia. }
    { intros i Hi Hk. apply andb_false_iff. right. lia. }
    { intros Hver i Hi Hp. apply (Hv Hver). rewrite andb_true_iff in Hp |- *. int_lia. }
    run. destruct (Hw1) as (L1 & F1 & B1).
    destruct (set_masked_spec VALUE verify d1 ((start + len) / 8) lm
      (fun i => (i <? start + len) && (i / 8 =? (start + len) / 8))) as (d2 & -> & Hw2);
      [done | int_lia | done | | | |].
    { intros i Hi. rewrite Hlm by lia. bool_lia. }
    { intros i Hi Hk. apply andb_false_iff. right. lia. }
    { intros Hver i Hi Hp. rewrite andb_true_iff in Hp.
      rewrite B1 by int_lia. rewrite (proj2 (andb_false_iff _ _)) by int_lia.
      apply (Hv Hver). rewrite andb_true_iff. int_lia. }
    run. pose proof (writes_trans _ _ _ _ _ _ Hw1 Hw2) as Hw12.
    destruct (Hw12) as (L2 & F2 & B2).
    destruct (Z.ltb_spec (start / 8 + 1) ((start + len) / 8)).
    + destruct (memset_spec d2 (Z.to_nat ((start + len) / 8 - (start / 8 + 1)))
        (start / 8 + 1) (if VALUE then 0xff else 0x0) VALUE) as (d3 & -> & Hw3);
        [done | int_lia | int_lia | done |].
      run. exists d3. split; [done|].
      eapply writes_ext, (writes_trans _ _ _ _ _ _ Hw12 Hw3).
      intros i Hi. cbv beta. bool_lia.
    + run. exists d2. split; [done|]. eapply writes_ext, Hw12.
      intros i Hi. cbv beta. bool_lia.
Qed.

Lemma fill_spec v value :
  view_ok v ->
  exists d', BitmapView_fill v value = Ret (with_data v d') /\
    writes (in_range 0 (8 * BitmapView_size_in_bytes v)) value (m_data v) d'.
Proof.
  intros [Hd Hsz Hr _]. unfold BitmapView_fill, BitmapView_size_in_bytes in *.
  rewrite ceil_div_8 in *.
  destruct (memset_spec (m_data v) (Z.to_nat ((m_size v + 7) / 8)) 0
    (if value then 0xff else 0x00) value) as (d' & -> & Hw); [done | lia | int_lia | done |].
  run. exists d'. split; [done|]. eapply writes_ext, Hw.
  intros i Hi. unfold in_range. bool_lia.
Qed.

Lemma get_spec v i :
  view_ok v -> 0 <= i < m_size v -> BitmapView_get v i = Ret (bit (m_data v) i).
Proof.
  intros Hok Hi. unfold BitmapView_get. rewrite VERIFY_true by lia. run.
  rewrite load_byte_at by by apply size_in_bytes_bound. run. f_equal.
  unfold bit. assert (0 <= i mod 8 < 8) as Hm by int_lia. rewrite Z.shiftl_1_l.
  destruct (Z.testbit _ _) eqn:E.
  - apply negb_true_iff, Z.eqb_neq. intros H0.
    assert (Z.testbit 0 (i mod 8) = true) as Hc; [|by rewrite Z.bits_0 in Hc].
    rewrite <- H0, Z.land_spec, E, Z.pow2_bits_true by lia. done.
  - apply negb_false_iff, Z.eqb_eq, Z.bits_inj'. intros k Hk. rewrite Z.land_spec, Z.bits_0.
    destruct (decide (k = i mod 8)) as [->|Hne]; [by rewrite E|].
    rewrite Z.pow2_bits_false by lia. apply andb_false_r.
Qed.

Lemma set_spec v i value :
  view_ok v -> 0 <= i < m_size v ->
  exists d', BitmapView_set v i value = Ret (with_data v d') /\
    writes (Z.eqb i) value (m_data v) d'.
Proof.
  intros Hok Hi. pose proof (size_in_bytes_bound v i Hok Hi) as Hb. destruct Hok as [Hd _ _ _].
  unfold BitmapView_set. rewrite VERIFY_true by lia. run. rewrite load_byte_at by done. run.
  rewrite store_byte_at by done. run. eexists; split; [done|].
  assert (0 <= i mod 8 < 8) as Hm by int_lia. pose proof (byte_at_u8 _ (i / 8) Hd) as Hu.
  apply writes_byte; [done | done | | | intros; apply Z.eqb_neq; intros ->; done].
  - apply u8_of_bits. intros k Hk. pose proof (fun x => wrap_in_type u8 eq_refl x) as Hw.
    destruct value; rewrite ?Z.lor_spec, ?Z.land_spec; by rewrite !u8_testbit_high.
  - intros k Hk. replace (i =? 8 * (i / 8) + k) with (i mod 8 =? k) by bool_lia.
    assert (forall x, Z.testbit (wrap u8 x) k = Z.testbit x k) as Hwr
      by (intros x; apply (Z.mod_pow2_bits_low _ 8); lia).
    rewrite Z.shiftl_1_l. destruct value;
      rewrite ?Z.lor_spec, ?Z.land_spec, Hwr, ?Z.lnot_spec, Z.pow2_bits_eqb by lia;
      destruct (i mod 8 =? k), (Z.testbit _ k); done.
Qed.

(** ** Properties *)

Lemma writes_view_ok P value v d' :
  view_ok v -> writes P value (m_data v) d' -> view_ok (with_data v d').
Proof.
  intros [Hd Hsz Hr Ha] (L & F & _). split; simpl; try done.
  - unfold BitmapView_size_in_bytes in *. simpl. lia.
  - rewrite L. lia.
Qed.

(** A view whose memory goes on behind the bitmap. *)
Definition example_view : BitmapView := MkBitmapView 0x1003 [0x0f; 0xff; 0x00; 0x81; 0x55; 0xaa] 40.

Lemma example_view_ok : view_ok example_view.
Proof.
  split; try by vm_compute.
  repeat (apply Forall_cons_iff; split; [by vm_compute|]). apply Forall_nil_2.
Qed.

(** [set_range] writes [value] to exactly the bits of the range: every later
    [get] inside the range gives [value] and outside gives what it gave before, no
    other bit of the surrounding memory changes, and the view stays well formed.
    The byte that holds bit [start + len] must be memory of the view. *)
Theorem BitmapView_set_range_correct v start len value :
  view_ok v -> 0 <= start < m_size v -> 0 <= len -> start + len <= m_size v ->
  (start + len) / 8 < Z.of_nat (length (m_data v)) ->
  exists v', BitmapView_set_range v start len value = Ret v' /\ view_ok v' /\
    writes (in_range start len) value (m_data v) (m_data v') /\
    forall i, 0 <= i < m_size v ->
      BitmapView_get v' i = if in_range start len i then Ret value else BitmapView_get v i.
Proof.
  intros Hok Hs Hl He Hin.
  destruct (set_range_impl_spec value false v start len) as (d' & Heq & Hw); try done.
  exists (with_data v d'). pose proof (writes_view_ok _ _ _ _ Hok Hw) as Hok'.
  split_and!; [by destruct value | done | done |].
  intros i Hi. rewrite !get_spec by done. destruct Hw as (_ & _ & HB). simpl.
  rewrite HB by lia. by destruct (in_range start len i).
Qed.

Lemma BitmapView_set_range_correct_witness :
  exists v', BitmapView_set_range example_view 3 30 true = Ret v' /\ view_ok v' /\
    writes (in_range 3 30) true (m_data example_view) (m_data v') /\
    forall i, 0 <= i < m_size example_view ->
      BitmapView_get v' i = if in_range 3 30 i then Ret true else BitmapView_get example_view i.
Proof.
  apply (BitmapView_set_range_correct example_view 3 30 true);
    [exact example_view_ok | by vm_compute..].
Defined.

(** [count_in_range], which masks the first and last byte and goes word by word
    between them depending on the alignment of the address, counts the bits of the
    range that equal [value]. *)
Theorem BitmapView_count_in_range_correct v start len value :
  view_ok v -> 0 <= start < m_size v -> 0 <= len -> start + len <= m_size v ->
  (start + len) / 8 < Z.of_nat (length (m_data v)) ->
  BitmapView_count_in_range v start len value =
    Ret (count_true (fun i => Bool.eqb (bit (m_data v) i) value) start (Z.to_nat len)).
Proof. apply count_in_range_spec. Qed.

Lemma BitmapView_count_in_range_correct_witness :
  BitmapView_count_in_range example_view 3 36 false = Ret 21 /\
  BitmapView_count_in_range example_view 3 36 false =
    Ret (count_true (fun i => Bool.eqb (bit (m_data example_view) i) false) 3 (Z.to_nat 36)).
Proof.
  split; [by vm_compute|].
  apply (BitmapView_count_in_range_correct example_view 3 36 false);
    [exact example_view_ok | by vm_compute..].
Defined.

(** [set_range_and_verify_that_all_bits_flip] on a range whose bits all have the
    opposite value passes its checks and does what [set_range] does. *)
Theorem BitmapView_set_range_and_verify_flips v start len value :
  view_ok v -> 0 <= start < m_size v -> 0 <= len -> start + len <= m_size v ->
  (start + len) / 8 < Z.of_nat (length (m_data v)) ->
  (forall i, in_range start len i = true -> BitmapView_get v i = Ret (negb value)) ->
  exists v', BitmapView_set_range_and_verify_that_all_bits_flip v start len value = Ret v' /\
    view_ok v' /\ writes (in_range start len) value (m_data v) (m_data v').
Proof.
  intros Hok Hs Hl He Hin Hbits.
  destruct (set_range_impl_spec value true v start len) as (d' & Heq & Hw); try done.
  { intros _ i Hi. specialize (Hbits i Hi). unfold in_range in Hi.
    rewrite get_spec in Hbits by (done || lia). congruence. }
  exists (with_data v d').
  split_and!; [by destruct value | by apply (writes_view_ok _ _ _ _ Hok Hw) | done].
Qed.

Lemma BitmapView_set_range_and_verify_flips_witness :
  exists v', BitmapView_set_range_and_verify_that_all_bits_flip example_view 16 8 true = Ret v' /\
    view_ok v' /\ writes (in_range 16 8) true (m_data example_view) (m_data v').
Proof.
  apply (BitmapView_set_range_and_verify_flips example_view 16 8 true);
    [exact example_view_ok | by vm_compute.. |].
  intros i Hi. unfold in_range in Hi.
  assert (exists k, 0 <= k < 8 /\ i = 16 + k) as (k & Hk & ->) by (exists (i - 16); lia).
  by case_below_8 k.
Defined.

(** The check of [set_range_and_verify_that_all_bits_flip] looks only at the
    first and the last byte of the range: on a range of four bytes whose two middle
    bytes do not flip at all it succeeds. *)
Theorem BitmapView_set_range_and_verify_misses_middle :
  exists v v', view_ok v /\
    BitmapView_set_range_and_verify_that_all_bits_flip v 0 32 true = Ret v' /\
    forall i, 8 <= i < 24 -> BitmapView_get v i = Ret true /\ BitmapView_get v' i = Ret true.
Proof.
  set (v := MkBitmapView 0x1000 [0x00; 0xff; 0xff; 0x00; 0x00] 40).
  assert (view_ok v) as Hok.
  { split; try by vm_compute.
    repeat (apply Forall_cons_iff; split; [by vm_compute|]). apply Forall_nil_2. }
  exists v, (MkBitmapView 0x1000 [0xff; 0xff; 0xff; 0xff; 0x00] 40).
  split_and!; [done | by vm_compute |]. intros i Hi.
  assert (exists k, 0 <= k < 8 /\ (i = 8 + k \/ i = 16 + k)) as (k & Hk & Hik)
    by (exists (i mod 8); int_lia).
  destruct Hik as [-> | ->]; by case_below_8 k.
Qed.

Lemma range_to_end_stop v start len value :
  view_ok v -> 0 <= start < m_size v -> start + len = m_size v ->
  m_size v = 8 * Z.of_nat (length (m_data v)) ->
  BitmapView_count_in_range v start len value = Stop OutOfBounds /\
  BitmapView_set_range v start len value = Stop OutOfBounds.
Proof.
  intros [Hd Hsz _ _] Hs He Hm.
  unfold BitmapView_count_in_range, BitmapView_set_range, BitmapView_set_range_impl, size_t.
  cbv zeta. assert (wrap u32 (start + len) = start + len) as -> by (wrap_small u32; lia).
  rewrite !VERIFY_true by lia. run.
  destruct (Z.eqb_spec len 0); [lia|]. rewrite (load_byte_at (m_data v) (start / 8)) by int_lia. run.
  destruct (first_mask_spec (start mod 8)) as (fm & -> & Ufm & Hfm); [int_lia|]. run.
  destruct (last_mask_spec ((start + len) mod 8)) as (lm & -> & Ulm & Hlm); [int_lia|]. run.
  destruct (Z.eqb_spec (start / 8) ((start + len) / 8)); [int_lia|].
  assert (forall VALUE, (set_masked VALUE false (m_data v) (start / 8) fm ≫= fun d =>
    set_masked VALUE false d ((start + len) / 8) lm) = Stop OutOfBounds) as Hstop.
  { intros VALUE. unfold set_masked at 2. rewrite load_byte_at by int_lia. run.
    rewrite store_byte_at by int_lia. run. unfold set_masked.
    by rewrite load_out by (rewrite length_insert; int_lia). }
  split; [by rewrite load_out by int_lia|].
  assert (forall A VALUE (k : list Z -> outcome A),
    (set_masked VALUE false (m_data v) (start / 8) fm ≫= fun d =>
     set_masked VALUE false d ((start + len) / 8) lm ≫= k) = Stop OutOfBounds) as Hk.
  { intros A VALUE k. specialize (Hstop VALUE).
    destruct (set_masked VALUE false (m_data v) (start / 8) fm); run in Hstop; run;
      [by rewrite Hstop | congruence]. }
  destruct value; apply Hk.
Qed.

(** A range that ends where the memory of the view ends (a bitmap of a multiple
    of eight bits in a buffer of [size_in_bytes()], as AK::Bitmap allocates it) makes
    [count_in_range] and [set_range] touch the byte after the buffer. *)
Theorem BitmapView_range_to_end_out_of_bounds v start len value :
  view_ok v -> 0 <= start < m_size v -> start + len = m_size v ->
  m_size v = 8 * Z.of_nat (length (m_data v)) ->
  BitmapView_count_in_range v start len value = Stop OutOfBounds /\
  BitmapView_set_range v start len value = Stop OutOfBounds.
Proof. apply range_to_end_stop. Qed.

Lemma BitmapView_range_to_end_out_of_bounds_witness :
  BitmapView_count_in_range (MkBitmapView 0x1000 [0; 0] 16) 4 12 true = Stop OutOfBounds /\
  BitmapView_set_range (MkBitmapView 0x1000 [0; 0] 16) 4 12 true = Stop OutOfBounds.
Proof.
  apply (BitmapView_range_to_end_out_of_bounds (MkBitmapView 0x1000 [0; 0] 16) 4 12 true);
    [|by vm_compute..].
  split; try by vm_compute.
  repeat (apply Forall_cons_iff; split; [by vm_compute|]). apply Forall_nil_2.
Defined.
