(* ===== verification/BitmapFind.v ===== *)
(** * AK/BitmapView.h: searching a bitmap

    [find_first], [find_one_anywhere], [find_next_range_of_unset_bits] and the
    first-, best-fit and longest-range searches built on it.  The searches are
    proved sound, complete and minimal against the bits of the memory. *)

From S2P Require Import Prelude BitmapView.

#[local] Open Scope Z_scope.

(** ** Searching *)

(** [while (i < limit && m_data[i] == byte) i++;] with [n] steps left. *)
Fixpoint skip_bytes (d : list Z) (n : nat) (i byte : Z) : outcome Z :=
  match n with
  | O => Ret i
  | S n => b ← load d i; if b =? byte then skip_bytes d n (i + 1) byte else Ret i
  end.

(** [while (ptr32 < end32 && ptr32[0] == val32) ptr32++;], [n] words left. *)
Fixpoint skip_words (d : list Z) (n : nat) (i val32 : Z) : outcome Z :=
  match n with
  | O => Ret i
  | S n => w ← load32 d i; if w =? val32 then skip_words d n (i + 4) val32 else Ret i
  end.

(** The position of the found bit in byte [i]: invert when looking for a clear bit. *)
Definition found_in_byte (VALUE : bool) (d : list Z) (i : Z) : outcome (option Z) :=
  byte ← load d i;
  let byte := if VALUE then byte else wrap u8 (Z.lnot byte) in
  VERIFY (negb (byte =? 0)) ;;
  Ret (Some (i * 8 + builtin_ffs 8 byte - 1)).

(** One pass of the [for (;;)] of [find_one_anywhere]: a result, or the end (as an
    index from [m_data]) for the second pass. *)
Definition find_one_anywhere_pass (VALUE : bool) (v : BitmapView) (hint end_ : Z)
    : outcome (option Z + Z) :=
  let d := m_data v in
  let skip := if VALUE then 0x00 else 0xff in
  let ptr32 := align_down4 (m_addr v + hint / 8) - m_addr v in
  let rest ptr32 :=
    let end32 := align_down4 (m_addr v + end_) - m_addr v in
    ptr32 ← skip_words d (Z.to_nat (ceil_div (end32 - ptr32) 4)) ptr32
              (if VALUE then 0x0 else 0xffffffff);
    if ptr32 =? end32 then
      let byte_count := m_size v / 8 in
      VERIFY (ptr32 <=? byte_count) ;;
      i ← skip_bytes d (Z.to_nat (byte_count - ptr32)) ptr32 skip;
      if i =? byte_count then
        if hint <=? 8 then Ret (inl None)
        else Ret (inr (align_down4 (m_addr v + hint / 8) - m_addr v))
      else r ← found_in_byte VALUE d i; Ret (inl r)
    else
      val32 ← load32 d ptr32;
      let val32 := if VALUE then val32 else wrap u32 (Z.lnot val32) in
      VERIFY (negb (val32 =? 0)) ;;
      Ret (inl (Some (ptr32 * 8 + builtin_ffs 32 val32 - 1))) in
  if ptr32 <? 0 then
    let ptr32 := ptr32 + 4 in
    i ← skip_bytes d (Z.to_nat ptr32) 0 skip;
    if i <? ptr32 then r ← found_in_byte VALUE d i; Ret (inl r)
    else rest ptr32
  else rest ptr32.

(** The second pass starts from hint 0 and cannot ask for a third. *)
Definition BitmapView_find_one_anywhere (VALUE : bool) (v : BitmapView) (hint : Z)
    : outcome (option Z) :=
  VERIFY (hint <? m_size v) ;;
  r ← find_one_anywhere_pass VALUE v hint (m_size v / 8);
  match r with
  | inl r => Ret r
  | inr end_ =>
      r ← find_one_anywhere_pass VALUE v 0 end_;
      match r with
      | inl r => Ret r
      | inr _ => Stop NoFuel
      end
  end.

Definition BitmapView_find_one_anywhere_set (v : BitmapView) (hint : Z) :=
  BitmapView_find_one_anywhere true v hint.
Definition BitmapView_find_one_anywhere_unset (v : BitmapView) (hint : Z) :=
  BitmapView_find_one_anywhere false v hint.

Definition BitmapView_find_first (VALUE : bool) (v : BitmapView) : outcome (option Z) :=
  let byte_count := m_size v / 8 in
  i ← skip_bytes (m_data v) (Z.to_nat byte_count) 0 (if VALUE then 0x00 else 0xff);
  if i =? byte_count then Ret None else found_in_byte VALUE (m_data v) i.

Definition BitmapView_find_first_set (v : BitmapView) := BitmapView_find_first true v.
Definition BitmapView_find_first_unset (v : BitmapView) := BitmapView_find_first false v.

(** *** Ranges of unset bits *)

Definition max_size : Z := 0xffffffff.

(** A search either has its answer (the start, which the source leaves in [from],
    and the length) or goes on with [from] and [free_chunks]. *)
Inductive scan : Type :=
| Found (from len : Z)
| Continue (from free_chunks : Z).

(** The [while (viewed_bits < 32)] loop over a bucket that is neither full nor
    empty.  Each round consumes at least one bit, so 33 rounds are enough. *)
Fixpoint scan_bucket (fuel : nat) (bucket_index min_length max_length : Z)
    (bucket viewed_bits from free_chunks : Z) : outcome scan :=
  if viewed_bits <? 32 then
    match fuel with
    | O => Stop NoFuel
    | S fuel =>
        if bucket =? 0 then
          let from := if free_chunks =? 0 then bucket_index * 32 + viewed_bits else from in
          let free_chunks := free_chunks + (32 - viewed_bits) in
          scan_bucket fuel bucket_index min_length max_length bucket 32 from free_chunks
        else
          trailing_zeroes ← count_trailing_zeroes_32 bucket;
          let bucket := Z.shiftr bucket trailing_zeroes in
          let from := if free_chunks =? 0 then bucket_index * 32 + viewed_bits else from in
          let free_chunks := free_chunks + trailing_zeroes in
          let viewed_bits := viewed_bits + trailing_zeroes in
          if min_length <=? free_chunks then
            Ret (Found from (Z.min free_chunks max_length))
          else
            trailing_ones ← count_trailing_zeroes_32 (wrap u32 (Z.lnot bucket));
            let bucket := Z.shiftr bucket trailing_ones in
            let viewed_bits := viewed_bits + trailing_ones in
            scan_bucket fuel bucket_index min_length max_length bucket viewed_bits from 0
    end
  else Ret (Continue from free_chunks).

(** The [for] loop over the buckets, [n] of them left. *)
Fixpoint scan_buckets (d : list Z) (n : nat) (bucket_index start_bucket_bit : Z)
    (min_length max_length : Z) (from free_chunks : Z) : outcome scan :=
  match n with
  | O => Ret (Continue from free_chunks)
  | S n =>
      bucket ← load32 d (4 * bucket_index);
      if bucket =? 0xffffffff then
        if min_length <=? free_chunks then
          Ret (Found from (Z.min free_chunks max_length))
        else scan_buckets d n (bucket_index + 1) 0 min_length max_length from 0
      else if bucket =? 0x0 then
        let from := if free_chunks =? 0 then bucket_index * 32 else from in
        let free_chunks := free_chunks + 32 in
        if max_length <=? free_chunks then Ret (Found from max_length)
        else scan_buckets d n (bucket_index + 1) 0 min_length max_length from free_chunks
      else
        r ← scan_bucket 33 bucket_index min_length max_length
              (Z.shiftr bucket start_bucket_bit) start_bucket_bit from free_chunks;
        match r with
        | Found from len => Ret (Found from len)
        | Continue from free_chunks =>
            scan_buckets d n (bucket_index + 1) 0 min_length max_length from free_chunks
        end
  end.

(** The [for] loop over the trailing bits, [n] of them left; [pos] is
    [first_trailing_bit + i]. *)
Fixpoint scan_trailing (v : BitmapView) (n : nat) (pos min_length max_length : Z)
    (from free_chunks : Z) : outcome scan :=
  match n with
  | O => Ret (Continue from free_chunks)
  | S n =>
      b ← BitmapView_get v pos;
      if negb b then
        let from := if free_chunks =? 0 then pos else from in
        let free_chunks := free_chunks + 1 in
        if min_length <=? free_chunks then
          Ret (Found from (Z.min free_chunks max_length))
        else scan_trailing v n (pos + 1) min_length max_length from free_chunks
      else scan_trailing v n (pos + 1) min_length max_length from 0
  end.

(** The new value of the reference parameter [from] and the result. *)
Definition BitmapView_find_next_range_of_unset_bits (v : BitmapView)
    (from min_length max_length : Z) : outcome (Z * option Z) :=
  if max_length <? min_length then Ret (from, None)
  else
    let start_bucket_index := from / 32 in
    let start_bucket_bit := from mod 32 in
    r ← scan_buckets (m_data v) (Z.to_nat (m_size v / 32 - start_bucket_index))
          start_bucket_index start_bucket_bit min_length max_length from 0;
    match r with
    | Found from len => Ret (from, Some len)
    | Continue from free_chunks =>
        if free_chunks <? min_length then
          let first_trailing_bit := (m_size v / 32) * 32 in
          let trailing_bits := m_size v mod 32 in
          r ← scan_trailing v (Z.to_nat trailing_bits) first_trailing_bit
                min_length max_length from free_chunks;
          match r with
          | Found from len => Ret (from, Some len)
          | Continue from _ => Ret (from, None)
          end
        else Ret (from, Some (Z.min free_chunks max_length))
    end.

(** The result and the reference parameter [found_range_size].  A round only goes
    on after finding a strictly longer range, so [max_length + 1] rounds suffice. *)
Fixpoint find_longest_loop (fuel : nat) (v : BitmapView)
    (max_length start max_region_start max_region_size : Z) : outcome (Z * Z) :=
  match fuel with
  | O => Stop NoFuel
  | S fuel =>
      '(start, length_of_found_range) ←
        BitmapView_find_next_range_of_unset_bits v start
          (wrap size_t (max_region_size + 1)) max_length;
      match length_of_found_range with
      | Some len => find_longest_loop fuel v max_length (wrap size_t (start + len)) start len
      | None => Ret (max_region_start, max_region_size)
      end
  end.

Definition BitmapView_find_longest_range_of_unset_bits (fuel : nat) (v : BitmapView)
    (max_length : Z) : outcome (option Z * Z) :=
  '(max_region_start, max_region_size) ← find_longest_loop fuel v max_length 0 0 0;
  Ret (if negb (max_region_size =? 0) then Some max_region_start else None,
       max_region_size).

Definition BitmapView_find_first_fit (v : BitmapView) (minimum_length : Z)
    : outcome (option Z) :=
  '(start, length_of_found_range) ←
    BitmapView_find_next_range_of_unset_bits v 0 minimum_length minimum_length;
  Ret (match length_of_found_range with Some _ => Some start | None => None end).

(** The loop of [find_best_fit]; whether it ends is a question of its own, see below. *)
Fixpoint find_best_loop (fuel : nat) (v : BitmapView) (minimum_length : Z)
    (start best_region_start best_region_size : Z) (found : bool) : outcome (option Z) :=
  match fuel with
  | O => Stop NoFuel
  | S fuel =>
      '(start, length_of_found_range) ←
        BitmapView_find_next_range_of_unset_bits v start minimum_length best_region_size;
      match length_of_found_range with
      | Some len =>
          if (len <? best_region_size) || negb found then
            find_best_loop fuel v minimum_length (wrap size_t (start + len)) start len true
          else
            find_best_loop fuel v minimum_length (wrap size_t (start + len))
              best_region_start best_region_size found
      | None => Ret (if found then Some best_region_start else None)
      end
  end.

Definition BitmapView_find_best_fit (fuel : nat) (v : BitmapView) (minimum_length : Z)
    : outcome (option Z) :=
  find_best_loop fuel v minimum_length 0 0 max_size false.

(** ** Scanning lemmas *)

Lemma least_bit_spec n i x :
  i <= least_bit n i x <= i + Z.of_nat n /\
  (forall j, i <= j < least_bit n i x -> Z.testbit x j = false) /\
  (least_bit n i x < i + Z.of_nat n -> Z.testbit x (least_bit n i x) = true).
Proof.
  revert i; induction n as [|n IH]; intros i; cbn [least_bit].
  - split_and!; intros; lia.
  - destruct (Z.testbit x i) eqn:E; [split_and!; intros; done || lia|].
    destruct (IH (i + 1)) as (Hb & Hz & Ho). split_and!; [lia..| |].
    + intros j Hj. destruct (decide (j = i)) as [->|]; [done | apply Hz; lia].
    + intros H. apply Ho. lia.
Qed.

Lemma testbit_above w x j : 0 <= x < 2 ^ w -> 0 <= w -> w <= j -> Z.testbit x j = false.
Proof. intros Hx Hw Hj. rewrite <- (Z.mod_small x (2 ^ w)) by lia. apply Z.mod_pow2_bits_high. lia. Qed.

(** A non-zero [w]-bit word has a least bit. *)
Lemma least_bit_nonzero w x :
  0 <= x < 2 ^ Z.of_nat w -> x <> 0 ->
  0 <= least_bit w 0 x < Z.of_nat w /\ Z.testbit x (least_bit w 0 x) = true /\
  forall j, 0 <= j < least_bit w 0 x -> Z.testbit x j = false.
Proof.
  intros Hx Hne. destruct (least_bit_spec w 0 x) as (Hb & Hz & Ho).
  assert (least_bit w 0 x <> Z.of_nat w) as Hlt; [|split_and!; [lia | lia | apply Ho; lia | done]].
  intros Heq. apply Hne, Z.bits_inj'. intros j Hj. rewrite Z.bits_0.
  destruct (decide (j < Z.of_nat w)); [apply Hz; lia | apply (testbit_above (Z.of_nat w)); lia].
Qed.

Lemma ctz_spec x :
  in_type u32 x -> x <> 0 ->
  exists r, count_trailing_zeroes_32 x = Ret r /\ 0 <= r < 32 /\ Z.testbit x r = true /\
    forall j, 0 <= j < r -> Z.testbit x j = false.
Proof.
  intros Hx Hne. unfold count_trailing_zeroes_32. rewrite (proj2 (Z.eqb_neq x 0)) by done.
  destruct (least_bit_nonzero 32 x) as (Hb & Ht & Hz); [rewrite in_type_u32 in Hx; lia | done|].
  exists (least_bit 32 0 x). split_and!; (done || lia).
Qed.

Lemma u32_not b : in_type u32 b -> wrap u32 (Z.lnot b) = 2 ^ 32 - 1 - b.
Proof. intros Hb. replace (Z.lnot b) with (- b - 1) by (unfold Z.lnot; lia). int_lia. Qed.

Lemma u32_not_testbit b j :
  0 <= j < 32 -> Z.testbit (wrap u32 (Z.lnot b)) j = negb (Z.testbit b j).
Proof.
  intros Hj. unfold wrap; simpl. rewrite (Z.mod_pow2_bits_low _ 32) by lia.
  by rewrite Z.lnot_spec by lia.
Qed.

Lemma u8_not b : in_type u8 b -> wrap u8 (Z.lnot b) = 255 - b.
Proof. intros Hb. replace (Z.lnot b) with (- b - 1) by (unfold Z.lnot; lia). int_lia. Qed.

(** ** The range search

    [fits min s]: the [min] bits from [s] on are all unset. *)

Definition fits (d : list Z) (n s : Z) : Prop :=
  forall i, s <= i < s + n -> bit d i = false.

Section range_search.
Context (d : list Z) (from0 min_length max_length limit : Z).
Context (Hmin : 1 <= min_length <= max_length).

(** The scan has read the bits before [pos]; the last [free] of them are unset and
    every fit from [from0] on starts at or after that run. *)
Record scan_inv (pos from free : Z) : Prop := ScanInv {
  inv_pos : 32 * (from0 / 32) <= pos - free;
  inv_free : 0 <= free;
  inv_from : free = 0 \/ from = pos - free;
  inv_zeros : forall i, pos - free <= i < pos -> bit d i = false;
  inv_one : from0 < pos - free -> bit d (pos - free - 1) = true;
  inv_none : forall s, from0 <= s -> s + min_length <= pos - free -> ~ fits d min_length s
}.

(** A range the search may return. *)
Record found_ok (from len : Z) : Prop := FoundOk {
  found_start : 32 * (from0 / 32) <= from;
  found_len : min_length <= len <= max_length;
  found_fits : fits d len from;
  found_first : forall s, from0 <= s -> fits d min_length s -> from <= s
}.

(** A found range that stops before [max_length] stops at a set bit or the limit. *)
Definition found_maximal (from len : Z) : Prop :=
  len = max_length \/ from + len = limit \/ bit d (from + len) = true.

Definition set_from (pos from free : Z) : Z := if free =? 0 then pos else from.

Lemma scan_inv_zeros pos from free k :
  0 <= k -> scan_inv pos from free ->
  (forall i, pos <= i < pos + k -> bit d i = false) ->
  scan_inv (pos + k) (set_from pos from free) (free + k).
Proof.
  intros Hk [Hp Hf Hfrom Hz H1 H2] Hnew. unfold set_from.
  split; replace (pos + k - (free + k)) with (pos - free) by lia; try done; try lia.
  - destruct (Z.eqb_spec free 0); lia.
  - intros i Hi. destruct (decide (i < pos)); [apply Hz | apply Hnew]; lia.
Qed.

Lemma scan_inv_start_le pos from free s :
  scan_inv pos from free -> from0 <= s -> fits d min_length s -> pos - free <= s.
Proof using Hmin.
  intros [Hp Hf Hfrom Hz H1 H2] Hs Hfit. destruct (decide (pos - free <= s)); [done|].
  destruct (decide (s + min_length <= pos - free)); [by destruct (H2 s)|].
  specialize (H1 ltac:(lia)). rewrite (Hfit (pos - free - 1)) in H1 by lia. done.
Qed.

Lemma scan_inv_ones pos from from' free k :
  1 <= k -> scan_inv pos from free -> free < min_length ->
  (forall i, pos <= i < pos + k -> bit d i = true) ->
  scan_inv (pos + k) from' 0.
Proof using Hmin.
  intros Hk Hinv Hfree Hnew. pose proof Hinv as [Hp Hf Hfrom Hz H1 H2].
  split; rewrite ?Z.sub_0_r; try lia.
  - intros _. apply Hnew. lia.
  - intros s Hs Hle Hfit. pose proof (scan_inv_start_le _ _ _ _ Hinv Hs Hfit).
    specialize (Hnew (Z.max s pos) ltac:(lia)). rewrite (Hfit (Z.max s pos)) in Hnew by lia.
    done.
Qed.

Lemma scan_inv_found pos from free :
  scan_inv pos from free -> min_length <= free ->
  found_ok from (Z.min free max_length) /\ from + free = pos.
Proof using Hmin.
  intros Hinv Hfree. pose proof Hinv as [Hp Hf Hfrom Hz H1 H2].
  assert (from = pos - free) as -> by lia. split; [|lia]. split; try lia.
  - intros i Hi. apply Hz. lia.
  - intros s Hs Hfit. by apply (scan_inv_start_le _ _ _ _ Hinv).
Qed.

Lemma scan_inv_init pos from :
  32 * (from0 / 32) <= pos <= from0 -> scan_inv pos from 0.
Proof using Hmin. intros Hpos. split; rewrite ?Z.sub_0_r; intros; lia. Qed.

(** What a stage of the search that has read up to [pos] gives; only the stage over
    whole buckets finds maximal ranges. *)
Definition scan_ok (maximal : bool) (pos : Z) (r : scan) : Prop :=
  match r with
  | Found from len =>
      found_ok from len /\ from + len <= pos /\
      (maximal = true -> found_maximal from len)
  | Continue from free => scan_inv pos from free
  end.

(** The run of ones after a run of zeroes. *)
Lemma trailing_ones_spec w k :
  in_type u32 w -> w <> 2 ^ 32 - 1 -> 0 <= k < 32 -> Z.testbit w k = true ->
  exists r, count_trailing_zeroes_32 (wrap u32 (Z.lnot (Z.shiftr w k))) = Ret r /\
    1 <= r <= 32 - k /\ forall j, k <= j < k + r -> Z.testbit w j = true.
Proof.
  intros Hw Hne Hk Hbit. rewrite in_type_u32 in Hw.
  assert (0 <= Z.shiftr w k <= w) as Hs.
  { rewrite Z.shiftr_div_pow2 by lia. pose proof (Z.pow_pos_nonneg 2 k).
    split; [apply Z.div_pos | apply Z.div_le_upper_bound]; nia. }
  assert (in_type u32 (Z.shiftr w k)) as Hu by (rewrite in_type_u32; lia).
  destruct (ctz_spec (wrap u32 (Z.lnot (Z.shiftr w k)))) as (r & -> & Hr & Ht & Hz);
    [by apply wrap_in_type | rewrite u32_not by done; lia |].
  assert (forall j, 0 <= j < r -> Z.testbit w (k + j) = true) as Hones.
  { intros j Hj. specialize (Hz j Hj). rewrite u32_not_testbit, Z.shiftr_spec in Hz by lia.
    rewrite Z.add_comm. by apply negb_false_iff. }
  exists r. split; [done|]. split; [split|].
  - destruct (decide (r = 0)) as [->|]; [|lia].
    rewrite u32_not_testbit, Z.shiftr_spec, Z.add_0_l, Hbit in Ht by lia. done.
  - destruct (decide (r <= 32 - k)); [done|]. specialize (Hones (32 - k) ltac:(lia)).
    rewrite (testbit_above 32) in Hones by lia. done.
  - intros j Hj. replace j with (k + (j - k)) by lia. apply Hones. lia.
Qed.

(** One bucket: [w] is the word of the bits from [32 * bi] on. *)
Lemma scan_bucket_spec fuel bi w viewed from free :
  in_type u32 w -> w <> 2 ^ 32 - 1 ->
  (forall j, 0 <= j < 32 -> Z.testbit w j = bit d (bi * 32 + j)) ->
  0 <= viewed <= 32 -> 32 - viewed <= Z.of_nat fuel ->
  scan_inv (bi * 32 + viewed) from free ->
  exists r, scan_bucket fuel bi min_length max_length (Z.shiftr w viewed) viewed from free
              = Ret r /\ scan_ok true (bi * 32 + 32) r.
Proof using Hmin.
  intros Hw Hne Hbits. revert viewed from free.
  induction fuel as [|fuel IH]; intros viewed from free Hv Hfuel Hinv;
    cbn [scan_bucket]; destruct (Z.ltb_spec viewed 32) as [Hlt|Hge]; try lia;
    try (eexists; split; [done|]; by replace viewed with 32 in Hinv by lia).
  assert (forall j, 0 <= j -> Z.testbit (Z.shiftr w viewed) j = Z.testbit w (viewed + j)) as Hsh
    by (intros j Hj; rewrite Z.shiftr_spec, Z.add_comm by lia; done).
  change (if free =? 0 then bi * 32 + viewed else from)
    with (set_from (bi * 32 + viewed) from free).
  destruct (Z.eqb_spec (Z.shiftr w viewed) 0) as [H0|H0].
  - exists (Continue (set_from (bi * 32 + viewed) from free) (free + (32 - viewed))).
    split; [by destruct fuel|]. cbn [scan_ok].
    replace (bi * 32 + 32) with (bi * 32 + viewed + (32 - viewed)) by lia.
    apply scan_inv_zeros; [lia | done |]. intros i Hi.
    replace i with (bi * 32 + (viewed + (i - bi * 32 - viewed))) by lia.
    rewrite <- Hbits, <- Hsh, H0 by lia. apply Z.bits_0.
  - destruct (ctz_spec (Z.shiftr w viewed)) as (tz & -> & Htz & Hone & Hz); [|done|].
    { rewrite in_type_u32 in *. rewrite Z.shiftr_div_pow2 by lia.
      pose proof (Z.pow_pos_nonneg 2 viewed).
      split; [apply Z.div_pos | apply Z.div_le_upper_bound]; nia. }
    run. rewrite Hsh in Hone by lia.
    assert (viewed + tz < 32) as Htz32.
    { destruct (decide (viewed + tz < 32)); [done|].
      rewrite (testbit_above 32) in Hone by (rewrite in_type_u32 in Hw; lia). done. }
    apply (scan_inv_zeros _ _ _ tz) in Hinv; [|lia|].
    2:{ intros i Hi. replace i with (bi * 32 + (viewed + (i - bi * 32 - viewed))) by lia.
        rewrite <- Hbits, <- Hsh by lia. apply Hz. lia. }
    destruct (Z.leb_spec min_length (free + tz)) as [Hfound|Hshort].
    + eexists; split; [done|]. cbn [scan_ok].
      destruct (scan_inv_found _ _ _ Hinv Hfound) as [Hok Hpos].
      split_and!; [done | lia |]. intros _.
      destruct (decide (max_length <= free + tz)); [left; lia|]. right; right.
      rewrite Z.min_l by lia. rewrite Hpos, <- Z.add_assoc, <- Hbits by lia. done.
    + rewrite Z.shiftr_shiftr by lia.
      destruct (trailing_ones_spec w (viewed + tz)) as (k & -> & Hk & Hones); [done..| lia | done|].
      run. rewrite Z.shiftr_shiftr by lia. apply IH; [lia..|].
      rewrite !Z.add_assoc. apply (scan_inv_ones _ (set_from (bi * 32 + viewed) from free) _ (free + tz));
        [lia | done | lia |].
      intros i Hi. replace i with (bi * 32 + (i - bi * 32)) by lia.
      rewrite <- Hbits by lia. apply Hones. lia.
Qed.

(** All buckets up to [limit]. *)
Lemma scan_buckets_spec n bi start_bit from free :
  is_bytes d -> limit <= 8 * Z.of_nat (length d) ->
  0 <= bi -> 32 * (bi + Z.of_nat n) = limit -> 0 <= start_bit < 32 ->
  scan_inv (bi * 32) from free -> scan_inv (bi * 32 + start_bit) from free ->
  exists r, scan_buckets d n bi start_bit min_length max_length from free = Ret r /\
    scan_ok true limit r.
Proof using Hmin.
  intros Hd Hroom. revert bi start_bit from free.
  induction n as [|n IH]; intros bi sb from free Hbi Hn Hsb Hinv0 Hinv; cbn [scan_buckets].
  { eexists; split; [done|]. cbn [scan_ok]. by replace limit with (bi * 32) by lia. }
  destruct (load32_bits d (4 * bi)) as (w & -> & Hw & Hbits); [done | lia..|]. run.
  assert (forall j, 0 <= j < 32 -> Z.testbit w j = bit d (bi * 32 + j)) as Hbits'
    by (intros j Hj; rewrite Hbits by lia; f_equal; lia).
  assert (forall v : bool, (forall j, 0 <= j < 32 -> Z.testbit w j = v) ->
    forall i, bi * 32 <= i < bi * 32 + 32 -> bit d i = v) as Hall.
  { intros v Hv i Hi. replace i with (bi * 32 + (i - bi * 32)) by lia.
    rewrite <- Hbits' by lia. apply Hv. lia. }
  assert (forall f fr, scan_inv (bi * 32 + 32) f fr ->
    exists r, scan_buckets d n (bi + 1) 0 min_length max_length f fr = Ret r /\
      scan_ok true limit r) as IH'.
  { intros f fr Hi. apply IH; rewrite ?Z.add_0_r; try lia;
      by replace ((bi + 1) * 32) with (bi * 32 + 32) by lia. }
  destruct (Z.eqb_spec w 0xffffffff) as [->|Hfull].
  { pose proof (Hall true ltac:(intros j Hj; by apply (Z.ones_spec_low 32))) as Hones.
    destruct (Z.leb_spec min_length free) as [Hfound|Hshort].
    - eexists; split; [done|]. cbn [scan_ok].
      destruct (scan_inv_found _ _ _ Hinv0 Hfound) as [Hok Hpos].
      split_and!; [done | lia |]. intros _.
      destruct (decide (max_length <= free)); [left; lia|]. right; right.
      rewrite Z.min_l by lia. apply Hones. lia.
    - apply IH', (scan_inv_ones _ from _ free); (done || lia). }
  destruct (Z.eqb_spec w 0) as [->|Hempty].
  { pose proof (Hall false ltac:(intros; apply Z.bits_0)) as Hzeros.
    apply (scan_inv_zeros _ _ _ 32) in Hinv0; [|lia | done].
    change (if free =? 0 then bi * 32 else from) with (set_from (bi * 32) from free).
    destruct (Z.leb_spec max_length (free + 32)) as [Hfound|Hshort]; [|by apply IH'].
    eexists; split; [done|]. cbn [scan_ok].
    destruct (scan_inv_found _ _ _ Hinv0 ltac:(lia)) as [Hok Hpos].
    rewrite Z.min_r in Hok by lia. split_and!; [done | lia | by left]. }
  destruct (scan_bucket_spec 33 bi w sb from free) as (r & -> & Hr); [done..| lia | lia | done|].
  run. destruct r as [f len|f fr]; [|by apply IH'].
  eexists; split; [done|]. destruct Hr as (Hok & Hle & Hmax). split_and!; [done | lia | done].
Qed.

(** The bits after the last bucket, one by one. *)
Lemma scan_trailing_spec v n pos from free :
  view_ok v -> m_data v = d -> 0 <= pos -> pos + Z.of_nat n = m_size v ->
  free < min_length -> scan_inv pos from free ->
  exists r, scan_trailing v n pos min_length max_length from free = Ret r /\
    scan_ok false (m_size v) r /\
    match r with Found _ _ => n <> 0%nat | Continue _ free => free < min_length end.
Proof using Hmin.
  intros Hv Hd. revert pos from free.
  induction n as [|n IH]; intros pos from free Hp Hn Hfree Hinv; cbn [scan_trailing].
  { eexists; split; [done|]. cbn [scan_ok]. by replace (m_size v) with pos by lia. }
  rewrite get_spec by (done || lia). run. rewrite Hd. destruct (bit d pos) eqn:Hb; cbn [negb].
  - destruct (IH (pos + 1) from 0) as (r & Hr & Hok & Hrest); [lia..| |].
    + apply (scan_inv_ones _ from _ free); [lia | done | lia |].
      intros i Hi. by replace i with pos by lia.
    + exists r. split_and!; [done | done | by destruct r].
  - change (if free =? 0 then pos else from) with (set_from pos from free).
    apply (scan_inv_zeros _ _ _ 1) in Hinv;
      [|lia | intros i Hi; by replace i with pos by lia].
    destruct (Z.leb_spec min_length (free + 1)) as [Hfound|Hshort].
    + eexists; split; [done|]. cbn [scan_ok].
      destruct (scan_inv_found _ _ _ Hinv Hfound) as [Hok Hpos].
      split_and!; [done | lia | done | done].
    + destruct (IH (pos + 1) (set_from pos from free) (free + 1)) as (r & Hr & Hok & Hrest);
        [lia | lia | lia | done |].
      exists r. split_and!; [done | done | by destruct r].
Qed.

End range_search.

(** The whole search.  Ranges found in a bitmap of whole buckets are maximal. *)
Lemma find_next_spec v from min_length max_length :
  view_ok v -> 0 <= from <= m_size v -> 1 <= min_length <= max_length ->
  exists from' r,
    BitmapView_find_next_range_of_unset_bits v from min_length max_length = Ret (from', r) /\
    match r with
    | Some len => found_ok (m_data v) from min_length max_length from' len /\
        from' + len <= m_size v /\
        (m_size v mod 32 = 0 -> found_maximal (m_data v) max_length (m_size v) from' len)
    | None => forall s, from <= s -> s + min_length <= m_size v -> ~ fits (m_data v) min_length s
    end.
Proof.
  intros Hok Hfrom Hmin. pose proof Hok as [Hd Hsz Hroom Ha].
  unfold BitmapView_size_in_bytes in Hroom. rewrite ceil_div_8 in Hroom.
  unfold BitmapView_find_next_range_of_unset_bits.
  destruct (Z.ltb_spec max_length min_length); [lia|]. cbv zeta.
  set (limit := 32 * (m_size v / 32)).
  destruct (scan_buckets_spec (m_data v) from min_length max_length limit Hmin
    (Z.to_nat (m_size v / 32 - from / 32)) (from / 32) (from mod 32) from 0)
    as (r & -> & Hr); [done | subst limit; int_lia.. | | |].
  1,2: apply (scan_inv_init _ _ _ _ Hmin); int_lia.
  run. destruct r as [f len|f fr].
  { destruct Hr as (Hf & Hle & Hmax). exists f, (Some len). split; [done|].
    split_and!; [done | subst limit; int_lia |].
    intros Hm. by replace (m_size v) with limit by (subst limit; int_lia); auto. }
  destruct (Z.ltb_spec fr min_length) as [Hshort|Hfound].
  - destruct (scan_trailing_spec (m_data v) from min_length max_length limit Hmin v
      (Z.to_nat (m_size v mod 32)) (m_size v / 32 * 32) f fr) as (r & -> & Hr' & Hfr);
      [done | done | int_lia | int_lia | done | by rewrite (Z.mul_comm _ 32) |].
    run. destruct r as [f' len|f' fr'].
    + destruct Hr' as (Hf & Hle & _). exists f', (Some len). split; [done|].
      split_and!; [done | done |]. intros Hm. by rewrite Hm in Hfr.
    + exists f', None. split; [done|]. intros s Hs Hle Hfit.
      pose proof (scan_inv_start_le _ _ _ _ Hmin _ _ _ _ Hr' Hs Hfit). lia.
  - destruct (scan_inv_found _ _ _ _ Hmin _ _ _ Hr Hfound) as [Hok' Hpos].
    exists f, (Some (Z.min fr max_length)). split; [done|].
    split_and!; [done | subst limit; int_lia |]. intros Hm. unfold found_maximal.
    subst limit. destruct (decide (max_length <= fr)); int_lia.
Qed.

(** ** Properties of the range searches *)

(** Three free ranges, of 4, 50 and 36 bits, in 128 bits. *)
Definition example_bitmap : BitmapView :=
  MkBitmapView 0x1000 [0x0f; 0xff; 0x00; 0x00; 0x00; 0x00; 0x00; 0x00; 0xfc; 0xff; 0xff; 0x0f;
                       0x00; 0x00; 0x00; 0x00] 128.

Lemma example_bitmap_ok : view_ok example_bitmap.
Proof.
  split; try by vm_compute.
  repeat (apply Forall_cons_iff; split; [by vm_compute|]). apply Forall_nil_2.
Qed.

(** In a bitmap of 64 unset bits the search from position 5 gives the range from position 0 on. *)
Lemma find_next_range_before_from :
  BitmapView_find_next_range_of_unset_bits (MkBitmapView 0x1000 (replicate 8 0) 64) 5 1 8 = Ret (0, Some 8).
Proof. by vm_compute. Qed.

(** C33. [find_next_range_of_unset_bits], from a position of at most the size and for a
    [min_length] of at least 1, always returns. A result is a range of between
    [min_length] and [max_length] unset bits inside the bitmap, and no range of
    [min_length] unset bits that starts at or after the given position starts before it;
    without a result there is no such range. The range may start before the given
    position, though not before the 32-bit bucket of it, where the comment of the function
    promises a range that starts from the position ([find_next_range_before_from]). *)
Theorem BitmapView_find_next_range_correct v from min_length max_length :
  view_ok v -> 0 <= from <= m_size v -> 1 <= min_length <= max_length ->
  exists from' r,
    BitmapView_find_next_range_of_unset_bits v from min_length max_length = Ret (from', r) /\
    match r with
    | Some len =>
        min_length <= len <= max_length /\ 32 * (from / 32) <= from' /\
        from' + len <= m_size v /\
        (forall i, from' <= i < from' + len -> BitmapView_get v i = Ret false) /\
        (forall s, from <= s -> fits (m_data v) min_length s -> from' <= s)
    | None =>
        forall s, from <= s -> s + min_length <= m_size v -> ~ fits (m_data v) min_length s
    end.
Proof.
  intros Hok Hfrom Hmin.
  destruct (find_next_spec v from min_length max_length Hok Hfrom Hmin) as (f & r & Heq & Hr).
  exists f, r. split; [done|]. destruct r as [len|]; [|done].
  destruct Hr as ([Hs Hl Hf Hfst] & Hle & _). split_and!; try lia; [|done].
  intros i Hi. rewrite get_spec, Hf by (done || int_lia). done.
Qed.

Lemma BitmapView_find_next_range_correct_witness :
  BitmapView_find_next_range_of_unset_bits example_bitmap 0 30 40 = Ret (16, Some 40) /\
  exists from' r,
    BitmapView_find_next_range_of_unset_bits example_bitmap 0 30 40 = Ret (from', r) /\
    match r with
    | Some len =>
        30 <= len <= 40 /\ 32 * (0 / 32) <= from' /\ from' + len <= m_size example_bitmap /\
        (forall i, from' <= i < from' + len -> BitmapView_get example_bitmap i = Ret false) /\
        (forall s, 0 <= s -> fits (m_data example_bitmap) 30 s -> from' <= s)
    | None =>
        forall s, 0 <= s -> s + 30 <= m_size example_bitmap -> ~ fits (m_data example_bitmap) 30 s
    end.
Proof.
  split; [by vm_compute|].
  apply (BitmapView_find_next_range_correct example_bitmap 0 30 40);
    [exact example_bitmap_ok | by vm_compute | lia].
Defined.

Lemma find_first_fit_spec v minimum_length :
  view_ok v -> 1 <= minimum_length ->
  exists r, BitmapView_find_first_fit v minimum_length = Ret r /\
    match r with
    | Some s => 0 <= s /\ s + minimum_length <= m_size v /\ fits (m_data v) minimum_length s /\
        forall s', 0 <= s' < s -> ~ fits (m_data v) minimum_length s'
    | None => forall s, 0 <= s -> s + minimum_length <= m_size v ->
        ~ fits (m_data v) minimum_length s
    end.
Proof.
  intros Hok Hmin. pose proof Hok as [_ Hsz _ _].
  destruct (find_next_spec v 0 minimum_length minimum_length) as (f & r & Heq & Hr);
    [done | lia | lia |].
  unfold BitmapView_find_first_fit. rewrite Heq. run. eexists; split; [done|].
  destruct r as [len|]; [|done]. destruct Hr as ([Hs Hl Hf Hfst] & Hle & _).
  assert (len = minimum_length) as -> by int_lia. split_and!; [int_lia | int_lia | done |].
  intros s' Hs' Hfit. specialize (Hfst s' ltac:(lia) Hfit). lia.
Qed.

(** [find_first_fit] gives the first position at which [minimum_length] unset
    bits start, and nothing exactly when there is no such position. *)
Theorem BitmapView_find_first_fit_correct v minimum_length :
  view_ok v -> 1 <= minimum_length ->
  exists r, BitmapView_find_first_fit v minimum_length = Ret r /\
    match r with
    | Some s => 0 <= s /\ s + minimum_length <= m_size v /\ fits (m_data v) minimum_length s /\
        forall s', 0 <= s' < s -> ~ fits (m_data v) minimum_length s'
    | None => forall s, 0 <= s -> s + minimum_length <= m_size v ->
        ~ fits (m_data v) minimum_length s
    end.
Proof. apply find_first_fit_spec. Qed.

Lemma BitmapView_find_first_fit_correct_witness :
  BitmapView_find_first_fit example_bitmap 5 = Ret (Some 16) /\
  exists r, BitmapView_find_first_fit example_bitmap 5 = Ret r /\
    match r with
    | Some s => 0 <= s /\ s + 5 <= m_size example_bitmap /\ fits (m_data example_bitmap) 5 s /\
        forall s', 0 <= s' < s -> ~ fits (m_data example_bitmap) 5 s'
    | None => forall s, 0 <= s -> s + 5 <= m_size example_bitmap ->
        ~ fits (m_data example_bitmap) 5 s
    end.
Proof.
  split; [by vm_compute|].
  apply (BitmapView_find_first_fit_correct example_bitmap 5); [exact example_bitmap_ok | lia].
Defined.

(** *** Best fit *)

Lemma fits_weaken d n m s : m <= n -> fits d n s -> fits d m s.
Proof. intros Hle Hf i Hi. apply Hf. lia. Qed.

Lemma find_best_loop_spec fuel v minimum_length start bs bsz (found : bool) :
  view_ok v -> 32 <= minimum_length -> 0 <= start <= m_size v ->
  m_size v - start < Z.of_nat fuel -> minimum_length <= bsz ->
  (if found then 0 <= bs /\ bs + minimum_length <= m_size v /\ fits (m_data v) minimum_length bs
   else start = 0) ->
  exists r, find_best_loop fuel v minimum_length start bs bsz found = Ret r /\
    match r with
    | Some s => 0 <= s /\ s + minimum_length <= m_size v /\ fits (m_data v) minimum_length s
    | None => forall s, 0 <= s -> s + minimum_length <= m_size v ->
        ~ fits (m_data v) minimum_length s
    end.
Proof.
  intros Hok Hmin. pose proof Hok as [_ Hsz _ _]. revert start bs bsz found.
  induction fuel as [|fuel IH]; intros start bs bsz found Hs Hfuel Hb Hfound; [lia|].
  cbn [find_best_loop].
  destruct (find_next_spec v start minimum_length bsz) as (f & r & -> & Hr); [done | lia | lia|].
  run. destruct r as [len|].
  - destruct Hr as ([Hst Hl Hf Hfst] & Hle & _). unfold size_t.
    assert (wrap u32 (f + len) = f + len) as -> by (wrap_small u32; int_lia).
    apply (fits_weaken _ _ minimum_length) in Hf; [|lia].
    destruct (_ || _) eqn:E; apply IH; try lia; try int_lia; [split_and!; done || int_lia|].
    by destruct found; [|destruct (len <? bsz)].
  - eexists; split; [done|]. destruct found; [done|]. by subst start.
Qed.

Lemma find_best_fit_spec fuel v minimum_length :
  view_ok v -> 32 <= minimum_length <= max_size -> m_size v < Z.of_nat fuel ->
  exists r, BitmapView_find_best_fit fuel v minimum_length = Ret r /\
    match r with
    | Some s => 0 <= s /\ s + minimum_length <= m_size v /\ fits (m_data v) minimum_length s
    | None => forall s, 0 <= s -> s + minimum_length <= m_size v ->
        ~ fits (m_data v) minimum_length s
    end.
Proof.
  intros Hok Hmin Hfuel. pose proof Hok as [_ Hsz _ _].
  apply find_best_loop_spec; [done | lia | lia | lia | lia | done].
Qed.

(** Asked for at least a bucket (32) of bits, as the kernel heap does,
    [find_best_fit] returns after at most [size() + 1] rounds, with a position that
    has [minimum_length] unset bits if there is one and with nothing if not. *)
Theorem BitmapView_find_best_fit_correct fuel v minimum_length :
  view_ok v -> 32 <= minimum_length <= max_size -> m_size v < Z.of_nat fuel ->
  exists r, BitmapView_find_best_fit fuel v minimum_length = Ret r /\
    match r with
    | Some s => 0 <= s /\ s + minimum_length <= m_size v /\ fits (m_data v) minimum_length s
    | None => forall s, 0 <= s -> s + minimum_length <= m_size v ->
        ~ fits (m_data v) minimum_length s
    end.
Proof. apply find_best_fit_spec. Qed.

Lemma BitmapView_find_best_fit_correct_witness :
  BitmapView_find_best_fit 200 example_bitmap 33 = Ret (Some 92) /\
  exists r, BitmapView_find_best_fit 200 example_bitmap 33 = Ret r /\
    match r with
    | Some s => 0 <= s /\ s + 33 <= m_size example_bitmap /\ fits (m_data example_bitmap) 33 s
    | None => forall s, 0 <= s -> s + 33 <= m_size example_bitmap ->
        ~ fits (m_data example_bitmap) 33 s
    end.
Proof.
  split; [by vm_compute|].
  apply (BitmapView_find_best_fit_correct 200 example_bitmap 33);
    [exact example_bitmap_ok | by vm_compute | by vm_compute].
Defined.

(** Asked for less than a bucket, [find_best_fit] may search forever: on an empty
    bitmap of eight bits no number of rounds is enough to find four bits, because the
    search for the trailing bits always restarts at the first of them. *)
Theorem BitmapView_find_best_fit_diverges fuel :
  BitmapView_find_best_fit fuel (MkBitmapView 0x1000 [0x00] 8) 4 = Stop NoFuel.
Proof.
  set (v := MkBitmapView 0x1000 [0x00] 8).
  assert (forall fuel, find_best_loop fuel v 4 4 0 4 true = Stop NoFuel) as Hloop.
  { clear. intros fuel. induction fuel as [|fuel IH]; [done|]. cbn [find_best_loop].
    change (BitmapView_find_next_range_of_unset_bits v 4 4 4)
      with (Ret (0, Some 4) : outcome (Z * option Z)). exact IH. }
  unfold BitmapView_find_best_fit. destruct fuel as [|fuel]; [done|]. cbn [find_best_loop].
  change (BitmapView_find_next_range_of_unset_bits v 0 4 max_size)
    with (Ret (0, Some 4) : outcome (Z * option Z)). exact (Hloop fuel).
Qed.

(** *** The longest range *)

(** [(s, n)] is a range of unset bits, up to [max_length], and in a bitmap of whole
    buckets a longest one. *)
Definition longest_ok (v : BitmapView) (max_length s n : Z) : Prop :=
  0 <= n <= max_length /\
  (0 < n -> 0 <= s /\ s + n <= m_size v /\ fits (m_data v) n s) /\
  (m_size v mod 32 = 0 -> forall s' n', 0 <= s' -> s' + n' <= m_size v -> n' <= max_length ->
    fits (m_data v) n' s' -> n' <= n).

Lemma find_longest_loop_spec fuel v max_length start s n :
  view_ok v -> m_size v < 2 ^ 32 - 1 -> 0 <= start <= m_size v ->
  m_size v - n < Z.of_nat fuel -> 0 <= n <= max_length -> n <= m_size v ->
  (0 < n -> 0 <= s /\ s + n <= m_size v /\ fits (m_data v) n s) ->
  (m_size v mod 32 = 0 -> forall s' n', 0 <= s' -> s' + n' <= m_size v -> n < n' <= max_length ->
     fits (m_data v) n' s' -> start <= s') ->
  exists s' n', find_longest_loop fuel v max_length start s n = Ret (s', n') /\
    longest_ok v max_length s' n'.
Proof.
  intros Hok Hlt. pose proof Hok as [_ Hsz _ _]. revert start s n.
  induction fuel as [|fuel IH]; intros start s n Hs Hfuel Hn Hnsz Hbest Hrest; [lia|].
  cbn [find_longest_loop]. unfold size_t.
  assert (wrap u32 (n + 1) = n + 1) as -> by (wrap_small u32; int_lia).
  destruct (decide (n = max_length)) as [->|Hne].
  { unfold BitmapView_find_next_range_of_unset_bits.
    destruct (Z.ltb_spec max_length (max_length + 1)); [|lia]. run.
    exists s, max_length. split; [done|]. split; [lia|]. split; [done|]. intros; lia. }
  destruct (find_next_spec v start (n + 1) max_length) as (f & r & -> & Hr); [done | lia | lia|].
  run. destruct r as [len|].
  - destruct Hr as ([Hst Hl Hf Hfst] & Hle & Hmax).
    assert (wrap u32 (f + len) = f + len) as -> by (wrap_small u32; int_lia).
    apply IH; try int_lia; [intros _; split_and!; try done; int_lia|].
    intros Hm s' n' Hs' Hn' Hn'' Hfit. specialize (Hmax Hm).
    assert (start <= s') by (apply (Hrest Hm s' n'); try lia; done).
    assert (f <= s') by (apply Hfst; [done|]; apply (fits_weaken _ n'); [lia | done]).
    destruct (decide (f + len <= s')); [done|].
    destruct Hmax as [-> | [? | Hbit]]; [lia | lia |].
    rewrite (Hfit (f + len)) in Hbit by lia. done.
  - exists s, n. split; [done|]. split_and!; try lia; [done|].
    intros Hm s' n' Hs' Hn' Hn'' Hfit. destruct (decide (n' <= n)); [done|].
    assert (start <= s') by (apply (Hrest Hm s' n'); try lia; done).
    destruct (Hr s'); [done | lia |]. apply (fits_weaken _ n'); [lia | done].
Qed.

(** [find_longest_range_of_unset_bits] returns after at most [size() + 1] rounds with a
    range of unset bits of at most [max_length].  In a bitmap of whole 32-bit buckets it is
    a longest one, and nothing is returned only when no bit is unset. *)
Theorem BitmapView_find_longest_correct fuel v max_length :
  view_ok v -> m_size v < 2 ^ 32 - 1 -> 1 <= max_length -> m_size v < Z.of_nat fuel ->
  exists r n, BitmapView_find_longest_range_of_unset_bits fuel v max_length = Ret (r, n) /\
    match r with
    | Some s => 0 < n <= max_length /\ 0 <= s /\ s + n <= m_size v /\ fits (m_data v) n s
    | None => n = 0
    end /\
    (m_size v mod 32 = 0 -> forall s' n', 0 <= s' -> s' + n' <= m_size v -> n' <= max_length ->
      fits (m_data v) n' s' -> n' <= n).
Proof.
  intros Hok Hlt Hmax Hfuel. pose proof Hok as [_ Hsz _ _].
  destruct (find_longest_loop_spec fuel v max_length 0 0 0) as (s & n & Heq & Hl);
    [done | lia.. |].
  destruct Hl as (Hn & Hfit & Hbest).
  unfold BitmapView_find_longest_range_of_unset_bits. rewrite Heq. run.
  do 2 eexists; split; [done|]. destruct (Z.eqb_spec n 0); cbn [negb]; [done|].
  destruct (Hfit ltac:(lia)) as (? & ? & ?). split_and!; (done || lia).
Qed.

Lemma BitmapView_find_longest_correct_witness :
  BitmapView_find_longest_range_of_unset_bits 200 example_bitmap 100 = Ret (Some 16, 50) /\
  exists r n, BitmapView_find_longest_range_of_unset_bits 200 example_bitmap 100 = Ret (r, n) /\
    match r with
    | Some s => 0 < n <= 100 /\ 0 <= s /\ s + n <= m_size example_bitmap /\
        fits (m_data example_bitmap) n s
    | None => n = 0
    end /\
    (m_size example_bitmap mod 32 = 0 ->
      forall s' n', 0 <= s' -> s' + n' <= m_size example_bitmap -> n' <= 100 ->
      fits (m_data example_bitmap) n' s' -> n' <= n).
Proof.
  split; [by vm_compute|].
  apply (BitmapView_find_longest_correct 200 example_bitmap 100);
    [exact example_bitmap_ok | by vm_compute..].
Defined.

(** With trailing bits after the last bucket the longest range is missed: in an
    empty bitmap of 40 bits the answer is 32 bits. *)
Theorem BitmapView_find_longest_misses_trailing :
  let v := MkBitmapView 0x1000 [0x00; 0x00; 0x00; 0x00; 0x00] 40 in
  fits (m_data v) 40 0 /\
  forall fuel, (2 <= fuel)%nat ->
    BitmapView_find_longest_range_of_unset_bits fuel v max_size = Ret (Some 0, 32).
Proof.
  split.
  - intros i Hi. unfold bit, byte_at. simpl.
    assert (exists k, (k < 5)%nat /\ Z.to_nat (i / 8) = k) as (k & Hk & ->)
      by (eexists; split; [|done]; int_lia).
    do 5 (destruct k as [|k]; [apply Z.bits_0|]). lia.
  - intros [|[|fuel]] Hf; [lia..|]. by vm_compute.
Qed.

(** ** Finding one bit *)

Lemma skip_bytes_spec d n i byte :
  0 <= i -> i + Z.of_nat n <= Z.of_nat (length d) ->
  exists r, skip_bytes d n i byte = Ret r /\ i <= r <= i + Z.of_nat n /\
    (forall k, i <= k < r -> byte_at d k = byte) /\
    (r < i + Z.of_nat n -> byte_at d r <> byte).
Proof.
  revert i; induction n as [|n IH]; intros i Hi Hn; cbn [skip_bytes].
  { exists i. split_and!; (done || lia || intros; lia). }
  rewrite load_byte_at by lia. run. destruct (Z.eqb_spec (byte_at d i) byte) as [He|Hne].
  - destruct (IH (i + 1)) as (r & -> & Hr & Hskip & Hstop); [lia..|].
    exists r. split_and!; [done | lia | lia | | intros; apply Hstop; lia].
    intros k Hk. destruct (decide (k = i)) as [->|]; [done | apply Hskip; lia].
  - exists i. split_and!; (done || lia || intros; lia).
Qed.

(** The skipped byte value is the one without a bit of the wanted kind. *)
Definition skip_byte (VALUE : bool) : Z := if VALUE then 0x00 else 0xff.

Lemma skipped_bits VALUE d i :
  byte_at d (i / 8) = skip_byte VALUE -> 0 <= i -> bit d i = negb VALUE.
Proof.
  intros Hb Hi. unfold bit. rewrite Hb. destruct VALUE; [apply Z.bits_0|].
  apply (Z.ones_spec_low 8). int_lia.
Qed.

Lemma found_in_byte_spec VALUE d i :
  is_bytes d -> 0 <= i < Z.of_nat (length d) -> byte_at d i <> skip_byte VALUE ->
  exists p, found_in_byte VALUE d i = Ret (Some p) /\ 8 * i <= p < 8 * i + 8 /\
    bit d p = VALUE /\ forall q, 8 * i <= q < p -> bit d q = negb VALUE.
Proof.
  intros Hd Hi Hne. pose proof (byte_at_u8 d i Hd) as Hu. unfold found_in_byte.
  rewrite load_byte_at by lia. run. cbv zeta.
  set (b := if VALUE then byte_at d i else wrap u8 (Z.lnot (byte_at d i))).
  assert (b <> 0 /\ 0 <= b < 2 ^ 8) as [Hb0 Hb].
  { subst b. rewrite in_type_u8 in Hu. destruct VALUE; simpl in *; [lia|].
    rewrite u8_not by (rewrite in_type_u8; lia). lia. }
  assert (forall j, 0 <= j < 8 -> Z.testbit b j = Bool.eqb (bit d (8 * i + j)) VALUE) as Hbits.
  { intros j Hj. rewrite bit_in_byte by lia. subst b. destruct VALUE.
    - by destruct (Z.testbit _ _).
    - unfold wrap; simpl. rewrite (Z.mod_pow2_bits_low _ 8), Z.lnot_spec by lia.
      by destruct (Z.testbit _ _). }
  destruct (least_bit_nonzero 8 b) as (Hl & Ht & Hz); [done..|].
  rewrite VERIFY_true by (apply negb_true_iff; lia). run. unfold builtin_ffs.
  destruct (Z.eqb_spec b 0); [done|].
  exists (8 * i + least_bit 8 0 b). split_and!; [do 2 f_equal; lia | lia | lia | |].
  - rewrite Hbits in Ht by lia. by apply eqb_prop.
  - intros q Hq. specialize (Hz (q - 8 * i) ltac:(lia)). rewrite Hbits in Hz by lia.
    replace (8 * i + (q - 8 * i)) with q in Hz by lia.
    by destruct (bit d q), VALUE.
Qed.

(** [find_first] gives the first bit with the wanted value among the whole bytes
    of the bitmap, or nothing when they have none: the last [size() % 8] bits are not
    looked at. *)
Theorem BitmapView_find_first_correct VALUE v :
  view_ok v ->
  exists r, BitmapView_find_first VALUE v = Ret r /\
    match r with
    | Some p => 0 <= p < 8 * (m_size v / 8) /\ BitmapView_get v p = Ret VALUE /\
        forall q, 0 <= q < p -> BitmapView_get v q = Ret (negb VALUE)
    | None => forall q, 0 <= q < 8 * (m_size v / 8) -> BitmapView_get v q = Ret (negb VALUE)
    end.
Proof.
  intros Hok. pose proof Hok as [Hd Hsz Hroom _].
  unfold BitmapView_size_in_bytes in Hroom. rewrite ceil_div_8 in Hroom.
  unfold BitmapView_find_first. cbv zeta.
  destruct (skip_bytes_spec (m_data v) (Z.to_nat (m_size v / 8)) 0 (skip_byte VALUE))
    as (i & Heq & Hi & Hskip & Hstop); [lia | int_lia |].
  unfold skip_byte in Heq at 1. rewrite Heq. run.
  assert (forall q, 0 <= q < 8 * i -> BitmapView_get v q = Ret (negb VALUE)) as Hno.
  { intros q Hq. rewrite get_spec by (done || int_lia). f_equal.
    apply skipped_bits; [apply Hskip; int_lia | lia]. }
  destruct (Z.eqb_spec i (m_size v / 8)) as [->|Hne]; [by exists None|].
  destruct (found_in_byte_spec VALUE (m_data v) i) as (p & -> & Hp & Hbit & Hfirst);
    [done | int_lia | apply Hstop; int_lia |].
  exists (Some p). split_and!; [done | int_lia | int_lia | |].
  - rewrite get_spec by (done || int_lia). by rewrite Hbit.
  - intros q Hq. destruct (decide (q < 8 * i)); [apply Hno; lia|].
    rewrite get_spec by (done || int_lia). by rewrite Hfirst by lia.
Qed.

Lemma BitmapView_find_first_correct_witness :
  BitmapView_find_first false example_bitmap = Ret (Some 4) /\
  exists r, BitmapView_find_first false example_bitmap = Ret r /\
    match r with
    | Some p => 0 <= p < 8 * (m_size example_bitmap / 8) /\
        BitmapView_get example_bitmap p = Ret false /\
        forall q, 0 <= q < p -> BitmapView_get example_bitmap q = Ret (negb false)
    | None => forall q, 0 <= q < 8 * (m_size example_bitmap / 8) ->
        BitmapView_get example_bitmap q = Ret (negb false)
    end.
Proof.
  split; [by vm_compute|].
  apply (BitmapView_find_first_correct false example_bitmap example_bitmap_ok).
Defined.

Definition skip_word (VALUE : bool) : Z := if VALUE then 0x0 else 0xffffffff.

Lemma skip_words_spec VALUE d n i :
  is_bytes d -> 0 <= i -> i + 4 * Z.of_nat n <= Z.of_nat (length d) ->
  exists k, skip_words d n i (skip_word VALUE) = Ret (i + 4 * Z.of_nat k) /\ (k <= n)%nat /\
    (forall p, 8 * i <= p < 8 * (i + 4 * Z.of_nat k) -> bit d p = negb VALUE) /\
    ((k < n)%nat -> exists w, load32 d (i + 4 * Z.of_nat k) = Ret w /\ in_type u32 w /\
      w <> skip_word VALUE /\
      forall j, 0 <= j < 32 -> Z.testbit w j = bit d (8 * (i + 4 * Z.of_nat k) + j)).
Proof.
  intros Hd. revert i; induction n as [|n IH]; intros i Hi Hn; cbn [skip_words].
  { exists 0%nat. split_and!; [by rewrite Z.add_0_r | done | intros; lia | lia]. }
  destruct (load32_bits d i) as (w & Hl & Hw & Hbits); [done | lia..|]. rewrite Hl. run.
  destruct (Z.eqb_spec w (skip_word VALUE)) as [He|Hne].
  - destruct (IH (i + 4)) as (k & -> & Hk & Hskip & Hstop); [lia..|].
    exists (S k). replace (i + 4 * Z.of_nat (S k)) with (i + 4 + 4 * Z.of_nat k) by lia.
    split_and!; [done | lia | | intros; apply Hstop; lia].
    intros p Hp. destruct (decide (p < 8 * (i + 4))); [|apply Hskip; lia].
    replace p with (8 * i + (p - 8 * i)) by lia. rewrite <- Hbits, He by lia.
    destruct VALUE; [apply Z.bits_0 | apply (Z.ones_spec_low 32); lia].
  - exists 0%nat. rewrite Z.add_0_r. split_and!; [done | lia | intros; lia |].
    intros _. by exists w.
Qed.

(** The 4-byte aligned index at or before the byte of [hint]. *)
Definition word_start (hint : Z) : Z := 4 * (hint / 8 / 4).

Lemma align_down4_index addr i :
  addr mod 4 = 0 -> 0 <= addr -> 0 <= i -> addr + i < 2 ^ 32 ->
  align_down4 (addr + i) - addr = 4 * (i / 4).
Proof. intros. rewrite align_down4_spec by int_lia. int_lia. Qed.

Lemma find_one_anywhere_pass_spec VALUE v hint end_ :
  view_ok v -> m_addr v mod 4 = 0 -> 0 <= hint < m_size v -> 0 <= end_ <= m_size v / 8 ->
  word_start hint <= 4 * (end_ / 4) ->
  let none_from_hint :=
    forall p, 8 * word_start hint <= p < 8 * (m_size v / 8) -> bit (m_data v) p = negb VALUE in
  exists r, find_one_anywhere_pass VALUE v hint end_ = Ret r /\
    match r with
    | inl (Some p) => 0 <= p < m_size v /\ bit (m_data v) p = VALUE
    | inl None => hint <= 8 /\ none_from_hint
    | inr e => 8 < hint /\ e = word_start hint /\ none_from_hint
    end.
Proof.
  intros Hok Hal Hh He Hst. pose proof Hok as [Hd Hsz Hroom [Ha Hlen]].
  unfold BitmapView_size_in_bytes in Hroom. rewrite ceil_div_8 in Hroom.
  unfold find_one_anywhere_pass. cbv zeta. unfold word_start in *.
  rewrite !align_down4_index by int_lia.
  destruct (Z.ltb_spec (4 * (hint / 8 / 4)) 0); [int_lia|].
  set (st := 4 * (hint / 8 / 4)) in *. set (e32 := 4 * (end_ / 4)) in *.
  assert (exists a b, st = 4 * a /\ e32 = 4 * b /\ 0 <= a <= b /\ 4 * b <= end_)
    as (a & b & Hsa & Heb & Hab & Hb)
    by (exists (hint / 8 / 4), (end_ / 4); subst st e32; int_lia).
  replace (Z.to_nat (ceil_div (e32 - st) 4)) with (Z.to_nat ((e32 - st) / 4))
    by (rewrite ceil_div_4; int_lia).
  clearbody st e32.
  destruct (skip_words_spec VALUE (m_data v) (Z.to_nat ((e32 - st) / 4)) st)
    as (k & Heq & Hk & Hskip & Hstop); [done | lia | int_lia |].
  unfold skip_word in Heq. rewrite Heq. run.
  destruct (Z.eqb_spec (st + 4 * Z.of_nat k) e32) as [Hend|Hmid].
  - rewrite Hend. rewrite VERIFY_true by int_lia. run.
    destruct (skip_bytes_spec (m_data v) (Z.to_nat (m_size v / 8 - e32)) e32 (skip_byte VALUE))
      as (i & Heq' & Hi & Hskip' & Hstop'); [lia | int_lia |].
    unfold skip_byte in Heq' at 1. rewrite Heq'. run.
    destruct (Z.eqb_spec i (m_size v / 8)) as [->|Hne].
    + assert (forall p, 8 * st <= p < 8 * (m_size v / 8) -> bit (m_data v) p = negb VALUE) as Hno.
      { intros p Hp. destruct (decide (p < 8 * e32)); [apply Hskip; lia|].
        apply skipped_bits; [apply Hskip'; int_lia | int_lia]. }
      destruct (Z.leb_spec hint 8); eexists; split; done || split_and!; (done || lia).
    + destruct (found_in_byte_spec VALUE (m_data v) i) as (p & -> & Hp & Hbit & _);
        [done | int_lia | apply Hstop'; int_lia |].
      run. eexists; split; [done|]. split; [int_lia | done].
  - destruct Hstop as (w & -> & Hw & Hne & Hbits); [int_lia|]. run.
    set (x := if VALUE then w else wrap u32 (Z.lnot w)).
    assert (x <> 0 /\ 0 <= x < 2 ^ 32) as [Hx0 Hx].
    { subst x. destruct VALUE; cbn [skip_word] in Hne; rewrite ?u32_not by done; int_lia. }
    rewrite VERIFY_true by (apply negb_true_iff; lia). run. unfold builtin_ffs.
    destruct (Z.eqb_spec x 0); [done|].
    destruct (least_bit_nonzero 32 x) as (Hl & Ht & _); [done..|].
    eexists; split; [done|]. cbv beta iota. split; [int_lia|].
    replace ((st + 4 * Z.of_nat k) * 8 + (least_bit 32 0 x + 1) - 1)
      with (8 * (st + 4 * Z.of_nat k) + least_bit 32 0 x) by lia.
    rewrite <- Hbits by lia. subst x. destruct VALUE; [done|].
    rewrite u32_not_testbit in Ht by lia. by apply negb_true_iff.
Qed.

(** On a 4-byte aligned bitmap [find_one_anywhere] returns, whatever the hint: a
    bit with the wanted value, or nothing when no bit of the whole bytes has it. *)
Theorem BitmapView_find_one_anywhere_correct VALUE v hint :
  view_ok v -> m_addr v mod 4 = 0 -> 0 <= hint < m_size v ->
  exists r, BitmapView_find_one_anywhere VALUE v hint = Ret r /\
    match r with
    | Some p => 0 <= p < m_size v /\ BitmapView_get v p = Ret VALUE
    | None => forall q, 0 <= q < 8 * (m_size v / 8) -> BitmapView_get v q = Ret (negb VALUE)
    end.
Proof.
  intros Hok Hal Hh. unfold BitmapView_find_one_anywhere. rewrite VERIFY_true by lia. run.
  destruct (find_one_anywhere_pass_spec VALUE v hint (m_size v / 8)) as (r & -> & Hr);
    [done | done | done | int_lia | unfold word_start; int_lia |]. run.
  assert (forall p, 0 <= p < m_size v -> bit (m_data v) p = VALUE ->
    BitmapView_get v p = Ret VALUE) as Hget by (intros p Hp <-; by apply get_spec).
  assert (forall h, h <= 8 -> (forall p, 8 * word_start h <= p < 8 * (m_size v / 8) ->
    bit (m_data v) p = negb VALUE) -> forall q, 0 <= q < 8 * (m_size v / 8) ->
    BitmapView_get v q = Ret (negb VALUE)) as Hnone.
  { intros h Hle Hall q Hq. rewrite get_spec, Hall by (done || unfold word_start; int_lia). done. }
  destruct r as [[p|]|e].
  - exists (Some p). destruct Hr as [Hp Hb]. auto.
  - exists None. destruct Hr as [Hle Hall]. split; [done|]. by apply (Hnone hint).
  - destruct Hr as (Hgt & -> & _).
    destruct (find_one_anywhere_pass_spec VALUE v 0 (word_start hint)) as (r & -> & Hr);
      [done | done | lia | unfold word_start; int_lia | unfold word_start; int_lia |]. run.
    destruct r as [[p|]|e].
    + exists (Some p). destruct Hr as [Hp Hb]. auto.
    + exists None. destruct Hr as [Hle Hall]. split; [done|]. by apply (Hnone 0).
    + destruct Hr as [Hgt0 _]. lia.
Qed.

Lemma BitmapView_find_one_anywhere_correct_witness :
  BitmapView_find_one_anywhere false example_bitmap 70 = Ret (Some 64) /\
  exists r, BitmapView_find_one_anywhere false example_bitmap 70 = Ret r /\
    match r with
    | Some p => 0 <= p < m_size example_bitmap /\ BitmapView_get example_bitmap p = Ret false
    | None => forall q, 0 <= q < 8 * (m_size example_bitmap / 8) ->
        BitmapView_get example_bitmap q = Ret (negb false)
    end.
Proof.
  split; [by vm_compute|].
  apply (BitmapView_find_one_anywhere_correct false example_bitmap 70);
    [exact example_bitmap_ok | by vm_compute | by vm_compute].
Defined.

(** When the address is not aligned and the hint lies in the bytes before the
    first aligned word, a search that finds nothing does not return nothing: it goes
    on at a word after the end of the second search and fails its [VERIFY]. *)
Theorem BitmapView_find_one_anywhere_unaligned :
  let v := MkBitmapView 0x1001 [0xff; 0xff; 0xff; 0xff; 0xff; 0xff; 0xff; 0xff] 64 in
  view_ok v /\
  (forall i, 0 <= i < 64 -> BitmapView_get v i = Ret true) /\
  BitmapView_find_one_anywhere false v 0 = Ret None /\
  BitmapView_find_one_anywhere false v 9 = Stop VerifyFailed.
Proof.
  assert (view_ok (MkBitmapView 0x1001 (replicate 8 0xff) 64)) as Hok.
  { split; try by vm_compute. by apply Forall_replicate. }
  split_and!; [exact Hok | | by vm_compute..].
  intros i Hi. etransitivity; [apply (get_spec _ i Hok Hi)|]. cbn [m_data]. f_equal.
  apply (skipped_bits false); [|lia]. unfold byte_at.
  rewrite lookup_replicate_2; [done|]. int_lia.
Qed.
