(* ===== verification/Bitmap.v ===== *)
(** * AK/Bitmap.h: bitmaps that own their memory

    A bitmap is the address of its buffer (0 is [nullptr]), the bytes of the buffer
    and a size in bits.  The allocator is a parameter: [kmalloc n] gives the address
    and the initial contents of a buffer.  [kfree] only matters through the list of
    addresses an operation frees. *)

From S2P Require Import Prelude BitmapView BitmapFind.

#[local] Open Scope Z_scope.

Record Bitmap : Type := MkBitmap {
  b_addr : Z;
  b_data : list Z;
  b_size : Z
}.

Definition Bitmap_default : Bitmap := MkBitmap 0 [] 0.
Definition Bitmap_of_data (addr : Z) (data : list Z) (size : Z) : Bitmap := MkBitmap addr data size.
Definition Bitmap_view (b : Bitmap) : BitmapView := MkBitmapView (b_addr b) (b_data b) (b_size b).

(** An operation on the view writes through to the buffer of the bitmap. *)
Definition of_view (v : BitmapView) : Bitmap := MkBitmap (m_addr v) (m_data v) (m_size v).

Definition Bitmap_size (b : Bitmap) : Z := b_size b.
Definition Bitmap_size_in_bytes (b : Bitmap) : Z := ceil_div (b_size b) 8.
Definition Bitmap_is_null (b : Bitmap) : bool := b_addr b =? 0.

Definition Bitmap_fill (b : Bitmap) (value : bool) : outcome Bitmap :=
  v ← BitmapView_fill (Bitmap_view b) value; Ret (of_view v).

Definition Bitmap_get (b : Bitmap) (index : Z) : outcome bool :=
  VERIFY (index <? b_size b) ;;
  byte ← load (b_data b) (index / 8);
  Ret (negb (Z.land byte (Z.shiftl 1 (index mod 8)) =? 0)).

Definition Bitmap_set (b : Bitmap) (index : Z) (value : bool) : outcome Bitmap :=
  VERIFY (index <? b_size b) ;;
  byte ← load (b_data b) (index / 8);
  let byte' :=
    if value then Z.lor byte (wrap u8 (Z.shiftl 1 (index mod 8)))
    else Z.land byte (wrap u8 (Z.lnot (Z.shiftl 1 (index mod 8)))) in
  d ← store (b_data b) (index / 8) byte';
  Ret (MkBitmap (b_addr b) d (b_size b)).

Definition Bitmap_set_range (b : Bitmap) (start len : Z) (value : bool) : outcome Bitmap :=
  v ← BitmapView_set_range (Bitmap_view b) start len value; Ret (of_view v).

Definition Bitmap_count_in_range (b : Bitmap) (start len : Z) (value : bool) : outcome Z :=
  BitmapView_count_in_range (Bitmap_view b) start len value.
Definition Bitmap_count_slow (b : Bitmap) (value : bool) : outcome Z :=
  Bitmap_count_in_range b 0 (b_size b) value.

Definition Bitmap_find_one_anywhere_set (b : Bitmap) (hint : Z) :=
  BitmapView_find_one_anywhere true (Bitmap_view b) hint.
Definition Bitmap_find_one_anywhere_unset (b : Bitmap) (hint : Z) :=
  BitmapView_find_one_anywhere false (Bitmap_view b) hint.
Definition Bitmap_find_first_set (b : Bitmap) := BitmapView_find_first true (Bitmap_view b).
Definition Bitmap_find_first_unset (b : Bitmap) := BitmapView_find_first false (Bitmap_view b).
Definition Bitmap_find_next_range_of_unset_bits (b : Bitmap) (from min_length max_length : Z) :=
  BitmapView_find_next_range_of_unset_bits (Bitmap_view b) from min_length max_length.
Definition Bitmap_find_longest_range_of_unset_bits (fuel : nat) (b : Bitmap) (max_length : Z) :=
  BitmapView_find_longest_range_of_unset_bits fuel (Bitmap_view b) max_length.
Definition Bitmap_find_first_fit (b : Bitmap) (minimum_length : Z) :=
  BitmapView_find_first_fit (Bitmap_view b) minimum_length.
Definition Bitmap_find_best_fit (fuel : nat) (b : Bitmap) (minimum_length : Z) :=
  BitmapView_find_best_fit fuel (Bitmap_view b) minimum_length.

(** The new bitmap and the emptied source. *)
Definition Bitmap_move (other : Bitmap) : Bitmap * Bitmap :=
  (MkBitmap (b_addr other) (b_data other) (b_size other), MkBitmap 0 [] 0).

(** The assigned bitmap, the source and the freed addresses; [same] is
    [this == &other]. *)
Definition Bitmap_move_assign (same : bool) (b other : Bitmap) : Bitmap * Bitmap * list Z :=
  if negb same then
    (MkBitmap (b_addr other) (b_data other) (b_size other), MkBitmap 0 [] 0, [b_addr b])
  else (b, other, []).

Definition Bitmap_destroy (b : Bitmap) : Bitmap * list Z :=
  (MkBitmap 0 [] (b_size b), [b_addr b]).

(** [__builtin_memcpy(dst, src, n)]. *)
Definition memcpy (dst src : list Z) (n : Z) : outcome (list Z) :=
  if (n <=? Z.of_nat (length src)) && (n <=? Z.of_nat (length dst))
  then Ret (take (Z.to_nat n) src ++ drop (Z.to_nat n) dst)
  else Stop OutOfBounds.

Section allocation.
Context (kmalloc : Z -> Z * list Z).

Definition Bitmap_new (size : Z) (default_value : bool) : outcome Bitmap :=
  VERIFY (negb (size =? 0)) ;;
  let '(addr, data) := kmalloc (ceil_div size 8) in
  Bitmap_fill (MkBitmap addr data size) default_value.

(** The grown bitmap and the freed addresses. *)
Definition Bitmap_grow (b : Bitmap) (size : Z) (default_value : bool)
    : outcome (Bitmap * list Z) :=
  VERIFY (b_size b <? size) ;;
  let previous_size_bytes := Bitmap_size_in_bytes b in
  let previous_size := b_size b in
  let previous_data := b_data b in
  let '(addr, data) := kmalloc (ceil_div size 8) in
  grown ← Bitmap_fill (MkBitmap addr data size) default_value;
  if negb (b_addr b =? 0) then
    d ← memcpy (b_data grown) previous_data previous_size_bytes;
    let grown := MkBitmap addr d size in
    grown ← (if negb (previous_size mod 8 =? 0)
             then Bitmap_set_range grown previous_size (8 - previous_size mod 8) default_value
             else Ret grown);
    Ret (grown, [b_addr b])
  else Ret (grown, []).

End allocation.

(** What the bitmap relies on: a buffer of the size asked for, not at the null
    address and not at the very end of the address space. *)
Definition kmalloc_ok (kmalloc : Z -> Z * list Z) : Prop :=
  forall n, 0 < n <= 2 ^ 29 ->
    Z.of_nat (length (snd (kmalloc n))) = n /\ is_bytes (snd (kmalloc n)) /\
    0 < fst (kmalloc n) /\ fst (kmalloc n) + n <= 2 ^ 32 - 4.

(** A bitmap with a buffer of its own. *)
Definition bitmap_ok (b : Bitmap) : Prop :=
  view_ok (Bitmap_view b) /\ 0 < b_addr b /\
  Z.of_nat (length (b_data b)) = Bitmap_size_in_bytes b.

Lemma Bitmap_get_view b i : Bitmap_get b i = BitmapView_get (Bitmap_view b) i.
Proof. reflexivity. Qed.

Lemma Bitmap_set_spec b i value :
  view_ok (Bitmap_view b) -> 0 <= i < b_size b ->
  exists d, Bitmap_set b i value = Ret (MkBitmap (b_addr b) d (b_size b)) /\
    writes (Z.eqb i) value (b_data b) d.
Proof.
  intros Hok Hi. destruct (set_spec (Bitmap_view b) i value Hok Hi) as (d & Heq & Hw).
  exists d. split; [|done]. unfold Bitmap_set. unfold BitmapView_set in Heq. cbn in Heq.
  destruct (VERIFY _); run in Heq; [|done]. run.
  destruct (load _ _); run in Heq; [|done]. run.
  destruct (store _ _ _); run in Heq; [|done]. run. by injection Heq as <-.
Qed.

Lemma byte_at_memcpy src dst n k :
  0 <= n <= Z.of_nat (length src) -> n <= Z.of_nat (length dst) -> 0 <= k ->
  byte_at (take (Z.to_nat n) src ++ drop (Z.to_nat n) dst) k =
    if k <? n then byte_at src k else byte_at dst k.
Proof.
  intros Hs Hd Hk. unfold byte_at. destruct (Z.ltb_spec k n).
  - rewrite lookup_app_l by (rewrite length_take; lia).
    by rewrite lookup_take_lt by lia.
  - rewrite lookup_app_r by (rewrite length_take; lia).
    rewrite length_take, lookup_drop. do 2 f_equal. lia.
Qed.

Lemma bit_memcpy src dst n i :
  0 <= n <= Z.of_nat (length src) -> n <= Z.of_nat (length dst) -> 0 <= i ->
  bit (take (Z.to_nat n) src ++ drop (Z.to_nat n) dst) i =
    if i <? 8 * n then bit src i else bit dst i.
Proof.
  intros. unfold bit. rewrite byte_at_memcpy by int_lia.
  replace (i / 8 <? n) with (i <? 8 * n) by bool_lia. by destruct (i <? 8 * n).
Qed.

Section grow.
Context (kmalloc : Z -> Z * list Z) (Hkmalloc : kmalloc_ok kmalloc).

(** A fresh bitmap is filled with its default value. *)
Lemma fresh_filled size value :
  0 < size < 2 ^ 32 ->
  exists b, (let '(addr, data) := kmalloc (ceil_div size 8) in
             Bitmap_fill (MkBitmap addr data size) value) = Ret b /\
    bitmap_ok b /\ b_size b = size /\ b_addr b = fst (kmalloc (ceil_div size 8)) /\
    forall i, 0 <= i < size -> bit (b_data b) i = value.
Proof using Hkmalloc.
  intros Hs. destruct (Hkmalloc (ceil_div size 8)) as (Hl & Hb & Ha & Hr);
    [rewrite ceil_div_8; int_lia|].
  destruct (kmalloc (ceil_div size 8)) as [addr data] eqn:E; cbn [fst snd] in *.
  assert (view_ok (MkBitmapView addr data size)) as Hok.
  { split; cbn; [done | lia | unfold BitmapView_size_in_bytes; cbn; lia | lia]. }
  destruct (fill_spec _ value Hok) as (d & Heq & Hw).
  unfold Bitmap_fill, Bitmap_view. cbn [b_addr b_data b_size]. rewrite Heq. run.
  eexists; split; [done|]. pose proof (writes_view_ok _ _ _ _ Hok Hw) as Hok'.
  destruct Hw as (L & _ & B). split_and!; try done.
  - split_and!; [exact Hok' | done|]. unfold Bitmap_size_in_bytes. cbn in *. lia.
  - intros i Hi. cbn in *. rewrite B by lia. unfold in_range, BitmapView_size_in_bytes. cbn.
    rewrite ceil_div_8. rewrite (proj2 (andb_true_iff _ _)); [done|]. int_lia.
Qed.

(** The copy of the old bytes into a fresh bitmap. *)
Lemma memcpy_fresh b g value :
  bitmap_ok b -> bitmap_ok g -> b_size b < b_size g ->
  (forall i, 0 <= i < b_size g -> bit (b_data g) i = value) ->
  exists d, memcpy (b_data g) (b_data b) (Bitmap_size_in_bytes b) = Ret d /\
    bitmap_ok (MkBitmap (b_addr g) d (b_size g)) /\
    forall i, 0 <= i < b_size g ->
      bit d i = if i <? 8 * Bitmap_size_in_bytes b then bit (b_data b) i else value.
Proof.
  intros (Hb & Hba & Hbl) (Hg & Hga & Hgl) Hlt Hv.
  destruct Hb as [Bb Sb _ _]. pose proof Hg as [Bg Sg _ Ag]. cbn in Bb, Sb, Bg, Sg, Ag.
  unfold Bitmap_size_in_bytes in *. rewrite ceil_div_8 in *. unfold memcpy.
  rewrite (proj2 (andb_true_iff _ _)) by int_lia. eexists; split; [done|]. split.
  - split_and!; cbn; [|done|].
    + split; cbn; [| lia | unfold BitmapView_size_in_bytes; cbn; rewrite ceil_div_8 |];
        rewrite ?length_app, ?length_take, ?length_drop; try int_lia.
      apply Forall_app; split; [by apply Forall_take | by apply Forall_drop].
    + unfold Bitmap_size_in_bytes; cbn. rewrite ceil_div_8, length_app, length_take, length_drop.
      int_lia.
  - intros i Hi. rewrite bit_memcpy by int_lia. by destruct (i <? _); [|apply Hv].
Qed.
End grow.

(** [grow] keeps the bits a bitmap has and gives the new ones the default value.
    When the size was not a multiple of eight this needs the new size to go beyond
    the last byte there was: growing inside of that byte fails the [VERIFY] of
    [set_range], and growing to exactly the end of it touches the byte after the new
    buffer. *)
Theorem Bitmap_grow_correct kmalloc b size default_value :
  kmalloc_ok kmalloc -> bitmap_ok b -> b_size b < size <= 2 ^ 32 - 8 ->
  let byte_end := 8 * Bitmap_size_in_bytes b in
  if (b_size b mod 8 =? 0) || (byte_end <? size) then
    exists b', Bitmap_grow kmalloc b size default_value = Ret (b', [b_addr b]) /\
      bitmap_ok b' /\ b_size b' = size /\
      forall i, 0 <= i < size ->
        Bitmap_get b' i = if i <? b_size b then Bitmap_get b i else Ret default_value
  else
    Bitmap_grow kmalloc b size default_value =
      Stop (if byte_end =? size then OutOfBounds else VerifyFailed).
Proof.
  intros Hk Hb Hs. pose proof Hb as (Vb & Ab & _). pose proof Vb as [_ Sb _ _]. cbn in Sb.
  destruct (fresh_filled kmalloc Hk size default_value) as (g & Heq & Hg & Hgs & Hga & Hgb);
    [lia|]. destruct (memcpy_fresh b g default_value) as (d & Hcp & Hd & Hbits);
    [done | done | lia | by rewrite Hgs|].
  assert (Bitmap_size_in_bytes b = (b_size b + 7) / 8) as Hsb
    by (unfold Bitmap_size_in_bytes; by rewrite ceil_div_8).
  unfold Bitmap_grow. rewrite VERIFY_true by lia. run. cbv zeta.
  destruct (kmalloc (ceil_div size 8)) as [addr data]. rewrite Heq. run.
  rewrite (proj2 (Z.eqb_neq (b_addr b) 0)) by lia. cbn [negb]. rewrite Hcp. run.
  cbn [fst] in Hga. rewrite <- Hga. rewrite Hgs in *.
  destruct (Z.eqb_spec (b_size b mod 8) 0) as [Hm|Hm]; cbn [negb orb].
  - run. eexists; split; [done|]. split_and!; [done | done|].
    destruct Hd as (Vd & _). intros i Hi. rewrite !Bitmap_get_view, get_spec by done. cbn.
    rewrite Hbits, Hsb by lia. replace (i <? 8 * ((b_size b + 7) / 8)) with (i <? b_size b)
      by bool_lia.
    destruct (Z.ltb_spec i (b_size b)); [|done].
    by rewrite get_spec by (done || cbn; lia).
  - unfold Bitmap_set_range. pose proof Hd as (Vd & Ad & Ld).
    unfold Bitmap_size_in_bytes in Ld. cbn in Ad, Ld. rewrite ceil_div_8 in Ld.
    destruct (Z.ltb_spec (8 * Bitmap_size_in_bytes b) size) as [Hlt|Hge].
    + destruct (set_range_impl_spec default_value false (Bitmap_view (MkBitmap (b_addr g) d size))
        (b_size b) (8 - b_size b mod 8)) as (d' & Hset & Hw); try done; cbn; try int_lia.
      assert (BitmapView_set_range (Bitmap_view (MkBitmap (b_addr g) d size)) (b_size b)
        (8 - b_size b mod 8) default_value = Ret (MkBitmapView (b_addr g) d' size)) as ->
        by (by destruct default_value).
      run. pose proof (writes_view_ok _ _ _ _ Vd Hw) as Vd'. destruct Hw as (Ld' & _ & Hw).
      eexists; split; [done|]. split_and!; [| done |].
      * split_and!; [exact Vd' | done |]. unfold Bitmap_size_in_bytes. cbn in *.
        rewrite ceil_div_8. lia.
      * intros i Hi. rewrite !Bitmap_get_view. etransitivity; [by apply (get_spec _ _ Vd')|].
        cbn in *. rewrite Hw, Hbits by lia. unfold in_range.
        destruct (Z.ltb_spec i (b_size b)).
        -- rewrite get_spec by (done || cbn; lia). rewrite (proj2 (andb_false_iff _ _)) by lia.
           rewrite (proj2 (Z.ltb_lt i _)) by int_lia. done.
        -- destruct (_ && _) eqn:E; [done|]. rewrite (proj2 (Z.ltb_ge i _)); [done|].
           apply andb_false_iff in E. int_lia.
    + destruct (Z.eqb_spec (8 * Bitmap_size_in_bytes b) size) as [He|Hne].
      * destruct (range_to_end_stop (Bitmap_view (MkBitmap (b_addr g) d size)) (b_size b)
          (8 - b_size b mod 8) default_value) as [_ ->]; [done | cbn; int_lia.. | done].
      * assert (forall VALUE, BitmapView_set_range_impl VALUE false
          (Bitmap_view (MkBitmap (b_addr g) d size)) (b_size b) (8 - b_size b mod 8)
          = Stop VerifyFailed) as Hfail.
        { intros VALUE. unfold BitmapView_set_range_impl, size_t. cbn [Bitmap_view b_size m_size].
          wrap_small u32. rewrite (VERIFY_true (b_size b <? size)) by lia. run.
          unfold VERIFY. by rewrite (proj2 (Z.leb_gt _ _)) by int_lia. }
        unfold BitmapView_set_range. by destruct default_value; rewrite Hfail.
Qed.

(** An allocator that satisfies what the bitmap relies on. *)
Definition example_kmalloc (n : Z) : Z * list Z := (0x1000, replicate (Z.to_nat n) 0xa5).

Lemma example_kmalloc_ok : kmalloc_ok example_kmalloc.
Proof.
  intros n Hn. unfold example_kmalloc. cbn [fst snd]. rewrite length_replicate.
  split_and!; try lia. by apply Forall_replicate.
Qed.

Lemma Bitmap_grow_correct_witness :
  exists b', Bitmap_grow example_kmalloc (MkBitmap 0x2000 [0x05] 3) 20 true = Ret (b', [0x2000]) /\
    bitmap_ok b' /\ b_size b' = 20 /\
    forall i, 0 <= i < 20 ->
      Bitmap_get b' i = if i <? 3 then Bitmap_get (MkBitmap 0x2000 [0x05] 3) i else Ret true.
Proof.
  apply (Bitmap_grow_correct example_kmalloc (MkBitmap 0x2000 [0x05] 3) 20 true);
    [exact example_kmalloc_ok | | by vm_compute].
  split_and!; [|by vm_compute..]. split; try by vm_compute.
  repeat (apply Forall_cons_iff; split; [by vm_compute|]). apply Forall_nil_2.
Defined.
