(* ===== verification/Heap.v ===== *)
(** * Kernel/Heap/Heap.h: the chunked heap of the kernel

    [Heap] hands out runs of chunks of one memory block.  The block holds the chunks
    and behind them the bitmap that says which are in use; every run starts with a
    header of four bytes that holds its length.  The model keeps the block as one list
    of bytes, so the bitmap, the headers and the user's data live in the same memory as
    in the source.  [ExpandableHeap] is in ExpandableHeap.v. *)

From S2P Require Import Prelude BitmapView BitmapFind.

#[local] Open Scope Z_scope.

(** The memory a heap manages, from [m_chunks] on. *)
Record Heap : Type := MkHeap {
  h_total_chunks : Z;
  h_allocated_chunks : Z;
  h_chunks : Z;             (* (FlatPtr)m_chunks *)
  h_mem : list Z
}.

(** sizeof(AllocationHeader): one [size_t]. *)
Definition AllocationHeader_size : Z := 4.

(** A little-endian store of a [u32]. *)
Definition store32 (d : list Z) (i x : Z) : outcome (list Z) :=
  d ← store d i (x mod 2 ^ 8);
  d ← store d (i + 1) (x / 2 ^ 8 mod 2 ^ 8);
  d ← store d (i + 2) (x / 2 ^ 16 mod 2 ^ 8);
  store d (i + 3) (x / 2 ^ 24 mod 2 ^ 8).

Section heap.
Context (CHUNK_SIZE HEAP_SCRUB_BYTE_ALLOC HEAP_SCRUB_BYTE_FREE : Z).

Definition calculate_chunks (memory_size : Z) : Z := memory_size / (CHUNK_SIZE + 1).

(** [Heap(memory, memory_size)]; [mem] is what the memory holds. *)
Definition Heap_new (memory : Z) (mem : list Z) : outcome Heap :=
  let memory_size := Z.of_nat (length mem) in
  let m_total_chunks := calculate_chunks memory_size in
  VERIFY (wrap size_t (m_total_chunks * CHUNK_SIZE + (m_total_chunks + 7) / 8)
            <=? memory_size) ;;
  Ret (MkHeap m_total_chunks 0 memory mem).

Definition calculate_memory_for_bytes (bytes : Z) : Z :=
  let needed_chunks := wrap size_t (AllocationHeader_size + bytes + CHUNK_SIZE - 1) / CHUNK_SIZE in
  wrap size_t (needed_chunks * CHUNK_SIZE + wrap size_t (needed_chunks + 7) / 8).

(** The bitmap lies behind the chunks. *)
Definition bitmap_offset (h : Heap) : Z := h_total_chunks h * CHUNK_SIZE.
Definition m_bitmap (h : Heap) : BitmapView :=
  MkBitmapView (h_chunks h + bitmap_offset h)
    (drop (Z.to_nat (bitmap_offset h)) (h_mem h)) (h_total_chunks h).

Definition with_mem (h : Heap) (mem : list Z) : Heap :=
  MkHeap (h_total_chunks h) (h_allocated_chunks h) (h_chunks h) mem.
Definition with_allocated (h : Heap) (n : Z) : Heap :=
  MkHeap (h_total_chunks h) n (h_chunks h) (h_mem h).
Definition with_bitmap (h : Heap) (v : BitmapView) : Heap :=
  with_mem h (take (Z.to_nat (bitmap_offset h)) (h_mem h) ++ m_data v).

Definition Heap_memory (h : Heap) : Z := h_chunks h.
Definition Heap_total_chunks (h : Heap) : Z := h_total_chunks h.
Definition Heap_total_bytes (h : Heap) : Z := wrap size_t (h_total_chunks h * CHUNK_SIZE).
Definition Heap_free_chunks (h : Heap) : Z :=
  wrap size_t (h_total_chunks h - h_allocated_chunks h).
Definition Heap_free_bytes (h : Heap) : Z := wrap size_t (Heap_free_chunks h * CHUNK_SIZE).
Definition Heap_allocated_chunks (h : Heap) : Z := h_allocated_chunks h.
Definition Heap_allocated_bytes (h : Heap) : Z := wrap size_t (h_allocated_chunks h * CHUNK_SIZE).

Definition best_fit_threshold : Z := 128.

(** The new heap and the pointer; [None] is [nullptr].  [find_best_fit] gets one round
    per chunk and two more. *)
Definition Heap_allocate (h : Heap) (size : Z) : outcome (Heap * option Z) :=
  let real_size := wrap size_t (size + AllocationHeader_size) in
  let chunks_needed := wrap size_t (real_size + CHUNK_SIZE - 1) / CHUNK_SIZE in
  if Heap_free_chunks h <? chunks_needed then Ret (h, None)
  else
    first_chunk ←
      (if chunks_needed <? best_fit_threshold
       then BitmapView_find_first_fit (m_bitmap h) chunks_needed
       else BitmapView_find_best_fit (Z.to_nat (h_total_chunks h) + 2) (m_bitmap h) chunks_needed);
    match first_chunk with
    | None => Ret (h, None)
    | Some first_chunk =>
        let a := first_chunk * CHUNK_SIZE in
        let ptr := a + AllocationHeader_size in
        mem ← store32 (h_mem h) a chunks_needed;
        let h := with_mem h mem in
        v ← BitmapView_set_range_and_verify_that_all_bits_flip (m_bitmap h)
              first_chunk chunks_needed true;
        let h := with_bitmap h v in
        let h := with_allocated h (wrap size_t (h_allocated_chunks h + chunks_needed)) in
        mem ← (if negb (HEAP_SCRUB_BYTE_ALLOC =? 0)
               then memset (h_mem h) (Z.to_nat (wrap size_t (chunks_needed * CHUNK_SIZE - AllocationHeader_size)))
                      ptr HEAP_SCRUB_BYTE_ALLOC
               else Ret (h_mem h));
        Ret (with_mem h mem, Some (h_chunks h + ptr))
    end.

(** [ptr] is the address; 0 is [nullptr]. *)
Definition Heap_deallocate (h : Heap) (ptr : Z) : outcome Heap :=
  if ptr =? 0 then Ret h
  else
    let a := wrap FlatPtr (ptr - AllocationHeader_size) in
    VERIFY ((h_chunks h <=? a) && (ptr <? h_chunks h + h_total_chunks h * CHUNK_SIZE)) ;;
    let start := (a - h_chunks h) / CHUNK_SIZE in
    allocated ← BitmapView_get (m_bitmap h) start;
    VERIFY allocated ;;
    size ← load32 (h_mem h) (a - h_chunks h);
    VERIFY (wrap FlatPtr (a + wrap size_t (size * CHUNK_SIZE)) <=? h_chunks h + h_total_chunks h * CHUNK_SIZE) ;;
    v ← BitmapView_set_range_and_verify_that_all_bits_flip (m_bitmap h) start size false;
    let h := with_bitmap h v in
    VERIFY (size <=? h_allocated_chunks h) ;;
    let h := with_allocated h (h_allocated_chunks h - size) in
    mem ← (if negb (HEAP_SCRUB_BYTE_FREE =? 0)
           then memset (h_mem h) (Z.to_nat (wrap size_t (size * CHUNK_SIZE))) (a - h_chunks h)
                  HEAP_SCRUB_BYTE_FREE
           else Ret (h_mem h));
    Ret (with_mem h mem).

Definition Heap_contains (h : Heap) (ptr : Z) : bool :=
  let a := wrap FlatPtr (ptr - AllocationHeader_size) in
  if a <? h_chunks h then false
  else if h_chunks h + h_total_chunks h * CHUNK_SIZE <=? ptr then false
  else true.

(** [__builtin_memcpy] inside the block, between ranges that do not overlap. *)
Definition memcpy_within (d : list Z) (dst src n : Z) : outcome (list Z) :=
  if (0 <=? dst) && (0 <=? src) && (dst + n <=? Z.of_nat (length d))
     && (src + n <=? Z.of_nat (length d))
  then Ret (take (Z.to_nat dst) d ++ take (Z.to_nat n) (drop (Z.to_nat src) d)
              ++ drop (Z.to_nat (dst + n)) d)
  else Stop OutOfBounds.

(** [reallocate] with the heap itself as the main heap. *)
Definition Heap_reallocate (h : Heap) (ptr new_size : Z) : outcome (Heap * option Z) :=
  if ptr =? 0 then Heap_allocate h new_size
  else
    let a := wrap FlatPtr (ptr - AllocationHeader_size) in
    VERIFY ((h_chunks h <=? a) && (ptr <? h_chunks h + h_total_chunks h * CHUNK_SIZE)) ;;
    size ← load32 (h_mem h) (a - h_chunks h);
    VERIFY (wrap FlatPtr (a + wrap size_t (size * CHUNK_SIZE)) <=? h_chunks h + h_total_chunks h * CHUNK_SIZE) ;;
    let old_size := wrap size_t (size * CHUNK_SIZE) in
    if old_size =? new_size then Ret (h, Some ptr)
    else
      '(h, new_ptr) ← Heap_allocate h new_size;
      mem ← (match new_ptr with
             | Some new_ptr => memcpy_within (h_mem h) (new_ptr - h_chunks h) (ptr - h_chunks h)
                                 (Z.min old_size new_size)
             | None => Ret (h_mem h)
             end);
      h ← Heap_deallocate (with_mem h mem) ptr;
      Ret (h, new_ptr).

(** ** The invariant

    [live] lists the blocks handed out and not freed yet: first chunk and number of
    chunks. *)

Definition apart (b b' : Z * Z) : Prop := b.1 + b.2 <= b'.1 \/ b'.1 + b'.2 <= b.1.

#[global] Instance apart_dec : RelDecision apart.
Proof. intros b b'. unfold apart. apply _. Defined.

Fixpoint pairwise_apart (live : list (Z * Z)) : Prop :=
  match live with
  | [] => True
  | b :: live => Forall (apart b) live /\ pairwise_apart live
  end.

(** Chunk [i] belongs to a live block. *)
Definition owned (live : list (Z * Z)) (i : Z) : bool :=
  existsb (fun b => in_range b.1 b.2 i) live.

Definition block_ok (h : Heap) (b : Z * Z) : Prop :=
  0 <= b.1 /\ 1 <= b.2 /\ b.1 + b.2 <= h_total_chunks h /\
  load32 (h_mem h) (b.1 * CHUNK_SIZE) = Ret b.2.

Record heap_ok (h : Heap) (live : list (Z * Z)) : Prop := HeapOk {
  hk_total : 0 <= h_total_chunks h;
  hk_room : h_total_chunks h * CHUNK_SIZE + h_total_chunks h <= Z.of_nat (length (h_mem h));
  hk_addr : 0 < h_chunks h /\ h_chunks h + Z.of_nat (length (h_mem h)) <= 2 ^ 32 - 4;
  hk_bytes : is_bytes (h_mem h);
  hk_blocks : Forall (block_ok h) live;
  hk_apart : pairwise_apart live;
  hk_bits : forall i, 0 <= i < h_total_chunks h -> bit (m_data (m_bitmap h)) i = owned live i;
  hk_count : h_allocated_chunks h = count_true (owned live) 0 (Z.to_nat (h_total_chunks h))
}.
(** ** Memory lemmas *)

(** [d'] is [d] with changes inside [lo, hi) only. *)
Definition changes (lo hi : Z) (d d' : list Z) : Prop :=
  length d' = length d /\ (is_bytes d -> is_bytes d') /\
  forall k, 0 <= k -> k < lo \/ hi <= k -> byte_at d' k = byte_at d k.

Lemma changes_refl lo hi d : changes lo hi d d.
Proof. by split_and!. Qed.

Lemma changes_trans lo hi d d' d'' :
  changes lo hi d d' -> changes lo hi d' d'' -> changes lo hi d d''.
Proof.
  intros (L1 & B1 & H1) (L2 & B2 & H2). split_and!; [lia | auto |].
  intros k Hk Hout. rewrite H2, H1 by done. done.
Qed.

Lemma changes_weaken lo hi lo' hi' d d' :
  lo' <= lo -> hi <= hi' -> changes lo hi d d' -> changes lo' hi' d d'.
Proof. intros Hl Hh (L & B & H). split_and!; [done..|]. intros k Hk Hout. apply H; lia. Qed.

Lemma store_changes d k x :
  0 <= k < Z.of_nat (length d) -> in_type u8 x ->
  exists d', store d k x = Ret d' /\ changes k (k + 1) d d' /\ byte_at d' k = x.
Proof.
  intros Hk Hx. rewrite store_byte_at by done. eexists; split; [done|]. split; [split_and!|].
  - by rewrite length_insert.
  - intros. by apply is_bytes_insert.
  - intros j Hj Hout. rewrite byte_at_insert by lia. by rewrite (proj2 (Z.eqb_neq j k)) by lia.
  - rewrite byte_at_insert by lia. by rewrite Z.eqb_refl.
Qed.

Lemma load32_ext d d' i :
  length d = length d' -> 0 <= i -> i + 4 <= Z.of_nat (length d) ->
  (forall k, i <= k < i + 4 -> byte_at d' k = byte_at d k) -> load32 d' i = load32 d i.
Proof.
  intros Hl Hi Hr Hk. unfold load32. rewrite !load_byte_at by lia. run.
  by rewrite !Hk by lia.
Qed.

Lemma store32_spec d i x :
  0 <= i -> i + 4 <= Z.of_nat (length d) -> in_type u32 x ->
  exists d', store32 d i x = Ret d' /\ changes i (i + 4) d d' /\ load32 d' i = Ret x.
Proof.
  intros Hi Hr Hx. unfold store32.
  assert (forall y, in_type u8 (y mod 2 ^ 8)) as Hmod by (intros; int_lia).
  destruct (store_changes d i (x mod 2 ^ 8)) as (d0 & -> & C0 & E0); [lia | done|]. run.
  pose proof C0 as (L0 & _ & U0).
  destruct (store_changes d0 (i + 1) (x / 2 ^ 8 mod 2 ^ 8)) as (d1 & -> & C1 & E1);
    [lia | done|]. run. pose proof C1 as (L1 & _ & U1).
  destruct (store_changes d1 (i + 2) (x / 2 ^ 16 mod 2 ^ 8)) as (d2 & -> & C2 & E2);
    [lia | done|]. run. pose proof C2 as (L2 & _ & U2).
  destruct (store_changes d2 (i + 3) (x / 2 ^ 24 mod 2 ^ 8)) as (d3 & -> & C3 & E3);
    [lia | done|]. pose proof C3 as (L3 & _ & U3).
  exists d3. split; [done|]. split.
  - eapply changes_weaken in C0, C1, C2, C3;
      [eapply changes_trans; [exact C0|]; eapply changes_trans; [exact C1|];
       eapply changes_trans; [exact C2 | exact C3] | lia..].
  - unfold load32. rewrite !load_byte_at by lia. run.
    rewrite E3, (U3 (i + 2)), E2, (U3 (i + 1)), (U2 (i + 1)), E1, (U3 i), (U2 i), (U1 i), E0
      by lia.
    f_equal. change (2 ^ 8) with 256. change (2 ^ 16) with 65536. change (2 ^ 24) with 16777216.
    int_lia.
Qed.

Lemma memset_changes d n i value :
  0 <= i -> i + Z.of_nat n <= Z.of_nat (length d) -> in_type u8 value ->
  exists d', memset d n i value = Ret d' /\ changes i (i + Z.of_nat n) d d'.
Proof.
  intros Hi Hr Hv. revert d i Hi Hr; induction n as [|n IH]; intros d i Hi Hr; cbn [memset].
  { exists d. split; [done | apply changes_refl]. }
  destruct (store_changes d i value) as (d0 & -> & C0 & _); [lia | done|]. run.
  destruct (IH d0 (i + 1)) as (d1 & -> & C1); [lia | destruct C0; lia |].
  exists d1. split; [done|].
  eapply changes_weaken in C0, C1; [by eapply changes_trans | lia..].
Qed.

(** ** Blocks and counting *)

Lemma apart_sym b b' : apart b b' -> apart b' b.
Proof. unfold apart. tauto. Qed.

#[global] Instance pairwise_apart_perm : Proper (Permutation ==> iff) pairwise_apart.
Proof.
  assert (forall l l', Permutation l l' -> pairwise_apart l -> pairwise_apart l') as H.
  { induction 1 as [|b l l' Hp IH|b b' l|l l' l'' _ IH1 _ IH2]; simpl; [done|..].
    - intros [Hb Hl]. split; [by rewrite <- Hp | auto].
    - intros (Hb & Hb' & Hl). apply Forall_cons_iff in Hb as [Hbb Hb].
      split_and!; [|done..]. apply Forall_cons_iff. split; [by apply apart_sym | done].
    - auto. }
  intros l l' Hp. split; apply H; [done | by symmetry].
Qed.

#[global] Instance owned_perm : Proper (Permutation ==> (=) ==> (=)) owned.
Proof.
  intros l l' Hp i ? <-. unfold owned. induction Hp; simpl; try congruence.
  by destruct (in_range _ _ _), (in_range _ _ _).
Qed.

Lemma owned_spec live i :
  owned live i = true <-> exists b, b ∈ live /\ b.1 <= i < b.1 + b.2.
Proof.
  unfold owned. rewrite existsb_exists. setoid_rewrite list_elem_of_In.
  split; intros (b & Hb & Hi); exists b; (split; [done|]); unfold in_range in *; lia.
Qed.

(** Setting a range that was clear adds its length. *)
Lemma count_true_range f s n total :
  0 <= s -> 0 <= n -> s + n <= total ->
  (forall i, in_range s n i = true -> f i = false) ->
  count_true (fun i => in_range s n i || f i) 0 (Z.to_nat total) =
    n + count_true f 0 (Z.to_nat total).
Proof.
  intros Hs Hn Ht Hf.
  replace (Z.to_nat total) with (Z.to_nat s + (Z.to_nat n + Z.to_nat (total - s - n)))%nat by lia.
  rewrite !count_true_app.
  replace (0 + Z.of_nat (Z.to_nat s)) with s by lia.
  replace (s + Z.of_nat (Z.to_nat n)) with (s + n) by lia.
  rewrite (count_true_ext _ f 0), (count_true_ext _ f (s + n)),
    (count_true_ext (fun i => in_range s n i || f i) (fun i => negb (f i)) s),
    count_true_negb, (count_true_none f s); [lia|..];
    intros i Hi; unfold in_range in *;
    first [ rewrite (proj2 (andb_false_iff _ _)) by lia; done
          | specialize (Hf i); rewrite (proj2 (andb_true_iff _ _)) in * by lia;
            rewrite Hf by done; done ].
Qed.

Context (Hchunk : 8 <= CHUNK_SIZE).

(** The part of the invariant that does not look into the memory. *)
Record heap_shape (h : Heap) : Prop := HeapShape {
  hs_total : 0 <= h_total_chunks h;
  hs_room : h_total_chunks h * CHUNK_SIZE + h_total_chunks h <= Z.of_nat (length (h_mem h));
  hs_addr : 0 < h_chunks h /\ h_chunks h + Z.of_nat (length (h_mem h)) <= 2 ^ 32 - 4;
  hs_bytes : is_bytes (h_mem h)
}.

Lemma heap_ok_shape h live : heap_ok h live -> heap_shape h.
Proof. intros []. by split. Qed.

Lemma heap_shape_changes h lo hi mem :
  heap_shape h -> changes lo hi (h_mem h) mem -> heap_shape (with_mem h mem).
Proof. intros [] (L & B & _). split; cbn; rewrite ?L; auto. Qed.

Lemma offset_nonneg h : heap_shape h -> 0 <= bitmap_offset h <= Z.of_nat (length (h_mem h)).
Proof using Hchunk. intros []. unfold bitmap_offset. nia. Qed.

Lemma bitmap_view_ok h : heap_shape h -> view_ok (m_bitmap h).
Proof using Hchunk.
  intros Hs. pose proof (offset_nonneg h Hs). destruct Hs as [Ht Hr Ha Hb].
  split; cbn; [by apply Forall_drop | split; [lia|nia] |..]; rewrite ?length_drop.
  - unfold BitmapView_size_in_bytes. cbn. rewrite ceil_div_8. unfold bitmap_offset in *. int_lia.
  - lia.
Qed.

Lemma bitmap_bound h e :
  heap_shape h -> 0 < h_total_chunks h -> e <= h_total_chunks h ->
  e / 8 < Z.of_nat (length (m_data (m_bitmap h))).
Proof using Hchunk.
  intros Hs Ht He. pose proof (offset_nonneg h Hs). destruct Hs as [_ Hr _ _].
  cbn. rewrite length_drop. unfold bitmap_offset in *. int_lia.
Qed.

Lemma byte_at_drop d o k : 0 <= o -> 0 <= k -> byte_at (drop (Z.to_nat o) d) k = byte_at d (o + k).
Proof. intros. unfold byte_at. rewrite lookup_drop. do 2 f_equal. lia. Qed.

(** A change of the chunks does not change the bitmap. *)
Lemma bitmap_bits_frame h lo hi mem i :
  heap_shape h -> changes lo hi (h_mem h) mem -> hi <= bitmap_offset h -> 0 <= i ->
  bit (m_data (m_bitmap (with_mem h mem))) i = bit (m_data (m_bitmap h)) i.
Proof using Hchunk.
  intros Hs (_ & _ & H) Hhi Hi. pose proof (offset_nonneg h Hs). unfold bit. f_equal. cbn.
  change (bitmap_offset (with_mem h mem)) with (bitmap_offset h).
  rewrite !byte_at_drop by int_lia. apply H; int_lia.
Qed.

(** A change of the bitmap does not change the chunks. *)
Lemma with_bitmap_changes h d :
  heap_shape h -> length d = length (m_data (m_bitmap h)) -> is_bytes d ->
  changes (bitmap_offset h) (Z.of_nat (length (h_mem h))) (h_mem h)
    (h_mem (with_bitmap h (with_data (m_bitmap h) d))) /\
  m_data (m_bitmap (with_bitmap h (with_data (m_bitmap h) d))) = d.
Proof using Hchunk.
  intros Hs Hl Hd. pose proof (offset_nonneg h Hs) as Ho. cbn in *. rewrite length_drop in Hl.
  change (bitmap_offset (with_bitmap h (with_data (m_bitmap h) d))) with (bitmap_offset h).
  split; [split_and!|].
  - rewrite length_app, length_take. lia.
  - intros Hb. apply Forall_app. split; [by apply Forall_take | done].
  - intros k Hk Hout. unfold byte_at. destruct Hout as [Hlt|Hge].
    + rewrite lookup_app_l by (rewrite length_take; lia). by rewrite lookup_take_lt by lia.
    + rewrite !lookup_ge_None_2; [done | lia | rewrite length_app, length_take; lia].
  - rewrite drop_app_length'; [done|]. rewrite length_take. lia.
Qed.

(** The bytes of a block lie before the bitmap, and blocks apart have no byte in
    common. *)
Lemma block_bytes h b : block_ok h b ->
  0 <= b.1 * CHUNK_SIZE /\ b.1 * CHUNK_SIZE + CHUNK_SIZE <= (b.1 + b.2) * CHUNK_SIZE /\
  (b.1 + b.2) * CHUNK_SIZE <= bitmap_offset h.
Proof using Hchunk. intros (H0 & H1 & H2 & _). unfold bitmap_offset. nia. Qed.

Lemma apart_bytes b b' : apart b b' ->
  (b.1 + b.2) * CHUNK_SIZE <= b'.1 * CHUNK_SIZE \/ (b'.1 + b'.2) * CHUNK_SIZE <= b.1 * CHUNK_SIZE.
Proof using Hchunk. intros [H|H]; [left | right]; nia. Qed.

(** All bytes of the chunks but those of block [b] are as before. *)
Definition keeps_others (h : Heap) (b : Z * Z) (mem mem' : list Z) : Prop :=
  forall k, 0 <= k < bitmap_offset h ->
    k < b.1 * CHUNK_SIZE \/ (b.1 + b.2) * CHUNK_SIZE <= k -> byte_at mem' k = byte_at mem k.

Lemma block_ok_kept h b b' mem' n' :
  heap_shape h -> block_ok h b' -> apart b b' -> length mem' = length (h_mem h) ->
  keeps_others h b (h_mem h) mem' ->
  block_ok (MkHeap (h_total_chunks h) n' (h_chunks h) mem') b'.
Proof using Hchunk.
  intros Hs Hb Ha Hl Hk. pose proof (block_bytes h b' Hb) as Hbytes.
  pose proof (apart_bytes _ _ Ha) as Hap. pose proof (offset_nonneg h Hs) as Ho.
  destruct Hb as (H0 & H1 & H2 & H3). split_and!; [done..|]. cbn. rewrite <- H3.
  apply load32_ext; [done | lia | lia |]. intros k Hkk. apply Hk; lia.
Qed.

Lemma unowned_apart h live b :
  heap_ok h live -> 0 <= b.1 -> 1 <= b.2 ->
  (forall i, in_range b.1 b.2 i = true -> owned live i = false) -> Forall (apart b) live.
Proof.
  intros Hok H0 H1 Hno. destruct Hok as [_ _ _ _ Hblocks _ _ _].
  apply Forall_forall. intros b' Hb'. rewrite Forall_forall in Hblocks.
  destruct (Hblocks b' Hb') as (H0' & H1' & _).
  destruct (decide (apart b b')) as [|Hna]; [done|]. unfold apart in Hna.
  exfalso. set (i := Z.max b.1 b'.1).
  assert (owned live i = true) as Hi by (apply owned_spec; exists b'; split; [done | lia]).
  rewrite Hno in Hi; [done|]. unfold in_range. subst i. lia.
Qed.

(** Handing out a block nobody owns. *)
Lemma heap_ok_alloc h live s n mem' :
  heap_ok h live -> 0 <= s -> 1 <= n -> s + n <= h_total_chunks h ->
  (forall i, in_range s n i = true -> owned live i = false) ->
  length mem' = length (h_mem h) -> is_bytes mem' ->
  keeps_others h (s, n) (h_mem h) mem' -> load32 mem' (s * CHUNK_SIZE) = Ret n ->
  (forall i, 0 <= i < h_total_chunks h ->
     bit (m_data (m_bitmap (with_mem h mem'))) i =
       in_range s n i || bit (m_data (m_bitmap h)) i) ->
  heap_ok (MkHeap (h_total_chunks h) (n + h_allocated_chunks h) (h_chunks h) mem')
    ((s, n) :: live).
Proof using Hchunk.
  intros Hok H0 H1 H2 Hno Hl Hb Hk Hh Hbits.
  pose proof (unowned_apart h live (s, n) Hok H0 H1 Hno) as Hap.
  pose proof (heap_ok_shape h live Hok) as Hs.
  destruct Hok as [Ht Hr Ha Hby Hblocks Hapart Hbm Hc].
  split; cbn; rewrite ?Hl; try done.
  - apply Forall_cons_iff. split; [by split_and!|].
    rewrite Forall_forall in *. intros b' Hb'. by apply (block_ok_kept h (s, n)); auto.
  - intros i Hi. etransitivity; [by apply Hbits|]. by rewrite Hbm by done.
  - rewrite Hc. symmetry. apply (count_true_range (owned live) s n); [lia..|auto].
Qed.

(** Taking a block back. *)
Lemma heap_ok_free h live s n mem' :
  heap_ok h ((s, n) :: live) ->
  length mem' = length (h_mem h) -> is_bytes mem' ->
  keeps_others h (s, n) (h_mem h) mem' ->
  (forall i, 0 <= i < h_total_chunks h ->
     bit (m_data (m_bitmap (with_mem h mem'))) i =
       if in_range s n i then false else bit (m_data (m_bitmap h)) i) ->
  n <= h_allocated_chunks h /\
  heap_ok (MkHeap (h_total_chunks h) (h_allocated_chunks h - n) (h_chunks h) mem') live.
Proof using Hchunk.
  intros Hok Hl Hb Hk Hbits. pose proof (heap_ok_shape h _ Hok) as Hs.
  destruct Hok as [Ht Hr Ha Hby Hblocks [Hap Hapart] Hbm Hc].
  apply Forall_cons_iff in Hblocks as [(H0 & H1 & H2 & _) Hblocks]. cbn in H0, H1, H2.
  assert (forall i, in_range s n i = true -> owned live i = false) as Hno.
  { intros i Hi. apply not_true_is_false. rewrite owned_spec. intros (b' & Hb' & Hi').
    rewrite Forall_forall in Hap.
    destruct (Hap b' Hb'); unfold in_range in Hi; cbn in *; lia. }
  assert (h_allocated_chunks h =
          n + count_true (owned live) 0 (Z.to_nat (h_total_chunks h))) as Hcn.
  { rewrite Hc. apply (count_true_range (owned live) s n); (done || lia). }
  split.
  { pose proof (count_true_bound (owned live) 0 (Z.to_nat (h_total_chunks h))). lia. }
  split; cbn; rewrite ?Hl; try done.
  - rewrite Forall_forall in *. intros b' Hb'. by apply (block_ok_kept h (s, n)); auto.
  - intros i Hi. etransitivity; [by apply Hbits|]. rewrite Hbm by done. cbn.
    destruct (in_range s n i) eqn:E; [by rewrite Hno | done].
  - lia.
Qed.

Lemma bitmap_set h s n value d' :
  heap_shape h -> writes (in_range s n) value (m_data (m_bitmap h)) d' ->
  let h' := with_bitmap h (with_data (m_bitmap h) d') in
  changes (bitmap_offset h) (Z.of_nat (length (h_mem h))) (h_mem h) (h_mem h') /\
  forall i, 0 <= i -> bit (m_data (m_bitmap h')) i =
    if in_range s n i then value else bit (m_data (m_bitmap h)) i.
Proof using Hchunk.
  intros Hs (L & B & W). destruct (with_bitmap_changes h d' Hs L B) as [Hc Hd].
  split; [done|]. intros i Hi. rewrite Hd. auto.
Qed.

Lemma find_chunks h n :
  heap_shape h -> 1 <= n <= max_size ->
  exists r,
    (if n <? best_fit_threshold then BitmapView_find_first_fit (m_bitmap h) n
     else BitmapView_find_best_fit (Z.to_nat (h_total_chunks h) + 2) (m_bitmap h) n) = Ret r /\
    match r with
    | Some s => 0 <= s /\ s + n <= h_total_chunks h /\ fits (m_data (m_bitmap h)) n s
    | None => forall s, 0 <= s -> s + n <= h_total_chunks h -> ~ fits (m_data (m_bitmap h)) n s
    end.
Proof using Hchunk.
  intros Hs Hn. pose proof (bitmap_view_ok h Hs) as Hv. pose proof Hs as [Ht _ _ _].
  destruct (Z.ltb_spec n best_fit_threshold) as [Hlt|Hge]; unfold best_fit_threshold in *.
  - destruct (find_first_fit_spec (m_bitmap h) n Hv) as (r & -> & Hr); [lia|].
    exists r. split; [done|]. destruct r; [|done]. tauto.
  - destruct (find_best_fit_spec (Z.to_nat (h_total_chunks h) + 2) (m_bitmap h) n Hv)
      as (r & -> & Hr); [lia | cbn; lia |]. by exists r.
Qed.

(** The number of chunks [allocate(size)] asks for. *)
Definition chunks_for (size : Z) : Z := (size + AllocationHeader_size + CHUNK_SIZE - 1) / CHUNK_SIZE.

Lemma chunks_for_bounds size :
  0 <= size -> 1 <= chunks_for size /\ size + 4 <= chunks_for size * CHUNK_SIZE /\
  chunks_for size <= size + 4 + CHUNK_SIZE - 1.
Proof using Hchunk.
  intros Hsz. unfold chunks_for, AllocationHeader_size.
  set (x := size + 4 + CHUNK_SIZE - 1).
  pose proof (Z.div_mod x CHUNK_SIZE). pose proof (Z.mod_pos_bound x CHUNK_SIZE). nia.
Qed.

Context (Halloc : in_type u8 HEAP_SCRUB_BYTE_ALLOC) (Hfree : in_type u8 HEAP_SCRUB_BYTE_FREE).

(** Marking and scrubbing a free run of chunks. *)
Lemma take_chunks h live s n :
  heap_ok h live -> 0 <= s -> 1 <= n -> s + n <= h_total_chunks h ->
  fits (m_data (m_bitmap h)) n s ->
  exists mem1 v mem2 mem3,
    store32 (h_mem h) (s * CHUNK_SIZE) n = Ret mem1 /\
    BitmapView_set_range_and_verify_that_all_bits_flip (m_bitmap (with_mem h mem1)) s n true
      = Ret v /\
    h_mem (with_bitmap (with_mem h mem1) v) = mem2 /\
    (if negb (HEAP_SCRUB_BYTE_ALLOC =? 0)
     then memset mem2 (Z.to_nat (wrap size_t (n * CHUNK_SIZE - AllocationHeader_size)))
            (s * CHUNK_SIZE + AllocationHeader_size) HEAP_SCRUB_BYTE_ALLOC
     else Ret mem2) = Ret mem3 /\
    keeps_others h (s, n) (h_mem h) mem3 /\ length mem3 = length (h_mem h) /\
    heap_ok (MkHeap (h_total_chunks h) (n + h_allocated_chunks h) (h_chunks h) mem3)
      ((s, n) :: live).
Proof using Hchunk Halloc.
  intros Hok H0 H1 H2 Hfits. pose proof (heap_ok_shape h live Hok) as Hs.
  pose proof (offset_nonneg h Hs) as Ho. pose proof Hs as [Ht Hr Ha Hby].
  assert (0 <= s * CHUNK_SIZE /\ s * CHUNK_SIZE + 8 <= (s + n) * CHUNK_SIZE /\
          (s + n) * CHUNK_SIZE <= bitmap_offset h) as Hoff by (unfold bitmap_offset; nia).
  destruct (store32_spec (h_mem h) (s * CHUNK_SIZE) n) as (mem1 & Hst & C1 & Hh1);
    [lia | lia | rewrite in_type_u32; nia |].
  pose proof (heap_shape_changes h _ _ mem1 Hs C1) as Hs1.
  assert (forall i, 0 <= i -> bit (m_data (m_bitmap (with_mem h mem1))) i
            = bit (m_data (m_bitmap h)) i) as Hb1
    by (intros i Hi; eapply bitmap_bits_frame; [done | exact C1 | lia | done]).
  destruct (set_range_impl_spec true true (m_bitmap (with_mem h mem1)) s n)
    as (d' & Hset & Hw); [by apply bitmap_view_ok | cbn; lia | lia | done | | |].
  { apply bitmap_bound; [done | cbn; lia | done]. }
  { intros _ i Hi. unfold in_range in Hi. rewrite Hb1 by lia. apply Hfits. lia. }
  destruct (bitmap_set (with_mem h mem1) s n true d' Hs1 Hw) as [C2 Hb2].
  set (h2 := with_bitmap (with_mem h mem1) _) in C2, Hb2.
  pose proof (heap_shape_changes _ _ _ _ Hs1 C2) as Hs2.
  pose proof C1 as (L1 & B1 & U1). pose proof C2 as (L2 & B2 & U2). cbn [with_mem h_mem] in *.
  assert (exists mem3, (if negb (HEAP_SCRUB_BYTE_ALLOC =? 0)
     then memset (h_mem h2) (Z.to_nat (wrap size_t (n * CHUNK_SIZE - AllocationHeader_size)))
            (s * CHUNK_SIZE + AllocationHeader_size) HEAP_SCRUB_BYTE_ALLOC
     else Ret (h_mem h2)) = Ret mem3 /\
     changes (s * CHUNK_SIZE + 4) ((s + n) * CHUNK_SIZE) (h_mem h2) mem3) as (mem3 & Hm3 & C3).
  { unfold AllocationHeader_size, size_t in *. destruct (HEAP_SCRUB_BYTE_ALLOC =? 0); cbn [negb].
    - eexists; split; [done | apply changes_refl].
    - rewrite (wrap_id u32 eq_refl) by (rewrite in_type_u32; nia).
      destruct (memset_changes (h_mem h2) (Z.to_nat (n * CHUNK_SIZE - 4)) (s * CHUNK_SIZE + 4)
        HEAP_SCRUB_BYTE_ALLOC) as (d & -> & C); [lia | nia | done |].
      exists d. split; [done|]. eapply changes_weaken, C; nia. }
  pose proof C3 as (L3 & B3 & U3).
  assert (keeps_others h (s, n) (h_mem h) mem3) as Hkeep.
  { intros k Hk Hout. cbn [fst snd] in Hout.
    rewrite U3, U2, U1 by (unfold bitmap_offset in *; cbn; lia). done. }
  exists mem1, (with_data (m_bitmap (with_mem h mem1)) d'), (h_mem h2), mem3.
  split_and!; try done; [lia|].
  apply heap_ok_alloc; try done.
  - intros i Hi. pose proof Hok as [_ _ _ _ _ _ Hbm _]. unfold in_range in Hi.
    rewrite <- Hbm by lia. apply Hfits. lia.
  - lia.
  - auto.
  - rewrite <- Hh1. apply load32_ext; [lia | lia | lia |].
    intros k Hk. rewrite U3, U2 by (unfold bitmap_offset in *; cbn; lia). done.
  - intros i Hi.
    etransitivity; [apply (bitmap_bits_frame h2 _ _ mem3 i Hs2 C3); [apply Hoff | lia]|].
    rewrite Hb2, Hb1 by lia. by destruct (in_range s n i).
Qed.

(** [n] chunks from [s] on that no live block owns. *)
Definition free_run (live : list (Z * Z)) (s n : Z) : Prop :=
  forall i, s <= i < s + n -> owned live i = false.

Lemma free_chunks_exact h live :
  heap_ok h live -> Heap_free_chunks h = h_total_chunks h - h_allocated_chunks h /\
  0 <= h_allocated_chunks h <= h_total_chunks h.
Proof using Hchunk.
  intros Hok. pose proof (offset_nonneg h (heap_ok_shape _ _ Hok)) as Ho.
  destruct Hok as [Ht Hr Ha _ _ _ _ Hc].
  pose proof (count_true_bound (owned live) 0 (Z.to_nat (h_total_chunks h))) as Hb.
  unfold Heap_free_chunks, size_t. unfold bitmap_offset in Ho. split; [|lia].
  apply (wrap_id u32 eq_refl). rewrite in_type_u32. nia.
Qed.

Lemma free_run_count h live s n :
  heap_ok h live -> 0 <= s -> 0 <= n -> s + n <= h_total_chunks h -> free_run live s n ->
  n <= h_total_chunks h - h_allocated_chunks h.
Proof.
  intros Hok H0 Hn H2 Hrun. destruct Hok as [Ht _ _ _ _ _ _ Hc].
  pose proof (count_true_bound (fun i => in_range s n i || owned live i) 0
    (Z.to_nat (h_total_chunks h))) as Hb.
  rewrite count_true_range in Hb; [lia | done.. |].
  intros i Hi. apply Hrun. unfold in_range in Hi. lia.
Qed.

(** What [allocate] promises. *)
Lemma allocate_spec h live size :
  heap_ok h live -> 0 <= size -> size + 4 + CHUNK_SIZE - 1 < 2 ^ 32 ->
  exists h' r, Heap_allocate h size = Ret (h', r) /\
    match r with
    | Some ptr => exists s, ptr = h_chunks h + s * CHUNK_SIZE + 4 /\
        free_run live s (chunks_for size) /\
        heap_ok h' ((s, chunks_for size) :: live) /\
        keeps_others h (s, chunks_for size) (h_mem h) (h_mem h') /\
        h_total_chunks h' = h_total_chunks h /\ h_chunks h' = h_chunks h /\
        length (h_mem h') = length (h_mem h)
    | None => h' = h /\ forall s, 0 <= s -> s + chunks_for size <= h_total_chunks h ->
        ~ free_run live s (chunks_for size)
    end.
Proof using Hchunk Halloc.
  intros Hok Hsz Hov. pose proof (chunks_for_bounds size Hsz) as (Hn1 & Hn2 & Hn3).
  pose proof (heap_ok_shape h live Hok) as Hs. unfold Heap_allocate.
  assert (wrap size_t (wrap size_t (size + AllocationHeader_size) + CHUNK_SIZE - 1) / CHUNK_SIZE
          = chunks_for size) as ->.
  { unfold chunks_for, AllocationHeader_size, size_t.
    rewrite (wrap_id u32 eq_refl (size + 4)) by (rewrite in_type_u32; lia).
    by rewrite (wrap_id u32 eq_refl) by (rewrite in_type_u32; lia). }
  set (n := chunks_for size) in *. clearbody n. cbv zeta.
  destruct (free_chunks_exact h live Hok) as [-> Hfc].
  destruct (Z.ltb_spec (h_total_chunks h - h_allocated_chunks h) n) as [Hfull|Hroom].
  { exists h, None. split_and!; [done..|]. intros s H0 H2 Hrun.
    pose proof (free_run_count h live s n Hok H0 ltac:(lia) H2 Hrun). lia. }
  destruct (find_chunks h n Hs) as (r & -> & Hr); [unfold max_size; lia|]. run.
  pose proof Hok as [Ht _ _ _ _ _ Hbm _].
  destruct r as [s|].
  - destruct Hr as (H0 & H2 & Hfits).
    destruct (take_chunks h live s n Hok H0 Hn1 H2 Hfits)
      as (mem1 & v & mem2 & mem3 & -> & Hset & Hm2 & Hm3 & Hkeep & Hlen & Hok').
    run. rewrite Hset. run. cbn [with_allocated h_mem h_allocated_chunks with_bitmap with_mem
      h_total_chunks h_chunks] in *. rewrite Hm2, Hm3. run.
    eexists _, (Some _). split; [done|]. exists s. split; [unfold AllocationHeader_size; lia|].
    unfold size_t. rewrite (wrap_id u32 eq_refl) by
      (pose proof Hs as [_ Hr' [Ha0 Ha] _]; pose proof (offset_nonneg h Hs) as Ho;
       unfold bitmap_offset in Ho; rewrite in_type_u32; lia).
    rewrite Z.add_comm. split_and!; try done.
    intros i Hi. rewrite <- Hbm by lia. apply Hfits. lia.
  - exists h, None. split_and!; [done..|]. intros s H0 H2 Hrun. apply (Hr s H0 H2).
    intros i Hi. rewrite Hbm by lia. apply Hrun. lia.
Qed.

(** What [deallocate] promises for the pointer of a live block. *)
Lemma deallocate_spec h live s n :
  heap_ok h ((s, n) :: live) ->
  exists h', Heap_deallocate h (h_chunks h + s * CHUNK_SIZE + 4) = Ret h' /\
    heap_ok h' live /\ keeps_others h (s, n) (h_mem h) (h_mem h') /\
    h_total_chunks h' = h_total_chunks h /\ h_chunks h' = h_chunks h /\
    length (h_mem h') = length (h_mem h).
Proof using Hchunk Hfree.
  intros Hok. pose proof (heap_ok_shape _ _ Hok) as Hs. pose proof (offset_nonneg h Hs) as Ho.
  pose proof Hok as [Ht Hr [Ha0 Ha] Hby Hblocks _ Hbm _].
  apply Forall_cons_iff in Hblocks as [Hblock _]. pose proof (block_bytes h _ Hblock) as Hbb.
  destruct Hblock as (H0 & H1 & H2 & Hhead). cbn [fst snd] in *. unfold bitmap_offset in Hbb.
  unfold Heap_deallocate, AllocationHeader_size, FlatPtr, size_t.
  rewrite (proj2 (Z.eqb_neq _ 0)) by lia. cbv zeta.
  rewrite (wrap_id u32 eq_refl (h_chunks h + s * CHUNK_SIZE + 4 - 4))
    by (rewrite in_type_u32; lia).
  replace (h_chunks h + s * CHUNK_SIZE + 4 - 4) with (h_chunks h + s * CHUNK_SIZE) by lia.
  replace (h_chunks h + s * CHUNK_SIZE - h_chunks h) with (s * CHUNK_SIZE) by lia.
  rewrite Z.div_mul by lia.
  rewrite (VERIFY_true (_ && _)) by (apply andb_true_iff; lia). run.
  assert (forall i, 0 <= i < h_total_chunks h -> in_range s n i = true ->
    bit (m_data (m_bitmap h)) i = true) as Hset.
  { intros i Hi Hin. rewrite Hbm by done. cbn. by rewrite Hin. }
  rewrite (get_spec _ s (bitmap_view_ok h Hs)) by (cbn; lia). run.
  rewrite Hset by (unfold in_range; lia). rewrite (VERIFY_true true) by done. run.
  rewrite Hhead. run. rewrite !(wrap_id u32 eq_refl) by (rewrite in_type_u32; nia).
  rewrite (VERIFY_true (_ <=? h_chunks h + _)) by (apply Z.leb_le; lia). run.
  destruct (set_range_impl_spec false true (m_bitmap h) s n)
    as (d' & Heq & Hw); [by apply bitmap_view_ok | cbn; lia | lia | done | | |].
  { apply bitmap_bound; [done | lia | done]. }
  { intros _ i Hi. apply Hset; [unfold in_range in Hi; lia | done]. }
  cbn [BitmapView_set_range_and_verify_that_all_bits_flip]. rewrite Heq. run.
  destruct (bitmap_set h s n false d' Hs Hw) as [C2 Hb2].
  set (h2 := with_bitmap h _) in *.
  pose proof C2 as (L2 & B2 & U2). pose proof (heap_shape_changes _ _ _ _ Hs C2) as Hs2.
  assert (exists mem3, (if negb (HEAP_SCRUB_BYTE_FREE =? 0)
     then memset (h_mem (with_allocated h2 (h_allocated_chunks h2 - n)))
            (Z.to_nat (n * CHUNK_SIZE)) (s * CHUNK_SIZE) HEAP_SCRUB_BYTE_FREE
     else Ret (h_mem (with_allocated h2 (h_allocated_chunks h2 - n)))) = Ret mem3 /\
     changes (s * CHUNK_SIZE) ((s + n) * CHUNK_SIZE) (h_mem h2) mem3) as (mem3 & Hm3 & C3).
  { cbn [with_allocated h_mem]. destruct (HEAP_SCRUB_BYTE_FREE =? 0); cbn [negb].
    - eexists; split; [done | apply changes_refl].
    - destruct (memset_changes (h_mem h2) (Z.to_nat (n * CHUNK_SIZE)) (s * CHUNK_SIZE)
        HEAP_SCRUB_BYTE_FREE) as (d & -> & C); [lia | nia | done |].
      exists d. split; [done|]. eapply changes_weaken, C; nia. }
  pose proof C3 as (L3 & B3 & U3).
  assert (keeps_others h (s, n) (h_mem h) mem3) as Hkeep.
  { intros k Hk Hout. cbn [fst snd] in Hout. rewrite U3, U2 by lia. done. }
  destruct (heap_ok_free h live s n mem3) as [Hle Hok']; [done | lia | auto | done | |].
  { intros i Hi.
    etransitivity; [apply (bitmap_bits_frame h2 _ _ mem3 i Hs2 C3); [apply Hbb | lia]|].
    apply Hb2. lia. }
  change (h_allocated_chunks h2) with (h_allocated_chunks h).
  rewrite (VERIFY_true (n <=? h_allocated_chunks h)) by lia. run.
  change (h_chunks (with_allocated h2 (h_allocated_chunks h - n))) with (h_chunks h).
  replace (h_chunks h + s * CHUNK_SIZE - h_chunks h) with (s * CHUNK_SIZE) by lia.
  replace (if negb (HEAP_SCRUB_BYTE_FREE =? 0) then _ else _)
    with (Ret mem3 : outcome (list Z)) by (symmetry; exact Hm3). run.
  eexists; split; [done|]. split_and!; try done. cbn. lia.
Qed.

(** ** Other operations of a client and of the heap *)

#[global] Instance heap_ok_perm : Proper ((=) ==> Permutation ==> iff) heap_ok.
Proof.
  assert (forall h l l', Permutation l l' -> heap_ok h l -> heap_ok h l') as H.
  { intros h l l' Hp [? ? ? ? Hb Ha Hbits Hc]. split; try done.
    - by rewrite <- Hp.
    - by rewrite <- Hp.
    - intros i Hi. by rewrite <- Hp, Hbits.
    - rewrite Hc. apply count_true_ext. intros i _. by rewrite Hp. }
  intros h ? <- l l' Hp. split; apply H; [done | by symmetry].
Qed.

(** The owner of a block may write to its data bytes. *)
Lemma heap_ok_write h live s n mem' :
  heap_ok h ((s, n) :: live) ->
  changes (s * CHUNK_SIZE + 4) ((s + n) * CHUNK_SIZE) (h_mem h) mem' ->
  heap_ok (with_mem h mem') ((s, n) :: live).
Proof using Hchunk.
  intros Hok Hc. pose proof (heap_ok_shape _ _ Hok) as Hs.
  pose proof (offset_nonneg h Hs) as Ho. pose proof Hc as (L & B & U).
  destruct Hok as [Ht Hr Ha Hby Hblocks [Hap Hapart] Hbm Hcnt].
  apply Forall_cons_iff in Hblocks as [Hblock Hblocks].
  pose proof (block_bytes h _ Hblock) as Hbb. cbn [fst snd] in Hbb.
  split; cbn [with_mem h_total_chunks h_chunks h_mem h_allocated_chunks]; rewrite ?L; auto.
  - apply Forall_cons_iff. split.
    + destruct Hblock as (H0 & H1 & H2 & H3). split_and!; [done..|]. cbn in *. rewrite <- H3.
      apply load32_ext; [done | lia | lia |]. intros k Hk. apply U; lia.
    + rewrite Forall_forall in *. intros b' Hb'.
      apply (block_ok_kept h (s, n) b' mem' (h_allocated_chunks h)); auto.
      intros k Hk Hout. cbn in Hout. apply U; lia.
  - by split.
  - intros i Hi. etransitivity; [|by apply Hbm].
    eapply bitmap_bits_frame; [done | exact Hc | apply Hbb | lia].
Qed.

(** The pointer of a chunk nobody owns is rejected. *)
Lemma deallocate_unowned h live s :
  heap_ok h live -> 0 <= s < h_total_chunks h -> owned live s = false ->
  Heap_deallocate h (h_chunks h + s * CHUNK_SIZE + 4) = Stop VerifyFailed.
Proof using Hchunk.
  intros Hok Hs Hno. pose proof (heap_ok_shape _ _ Hok) as Hsh.
  pose proof (offset_nonneg h Hsh) as Ho.
  destruct Hok as [Ht Hr [Ha0 Ha] _ _ _ Hbm _]. unfold bitmap_offset in Ho.
  unfold Heap_deallocate, AllocationHeader_size, FlatPtr.
  assert (0 <= s * CHUNK_SIZE /\ s * CHUNK_SIZE + CHUNK_SIZE <= h_total_chunks h * CHUNK_SIZE)
    as Hsc by nia.
  rewrite (proj2 (Z.eqb_neq _ 0)) by lia. cbv zeta.
  rewrite (wrap_id u32 eq_refl (h_chunks h + s * CHUNK_SIZE + 4 - 4))
    by (rewrite in_type_u32; lia).
  replace (h_chunks h + s * CHUNK_SIZE + 4 - 4 - h_chunks h) with (s * CHUNK_SIZE) by lia.
  rewrite Z.div_mul by lia.
  rewrite (VERIFY_true (_ && _)) by (apply andb_true_iff; lia). run.
  rewrite (get_spec _ s (bitmap_view_ok h Hsh)) by (cbn; lia). run.
  by rewrite Hbm, Hno by lia.
Qed.

(** A new heap over memory whose bitmap is clear has all chunks free. *)
Lemma Heap_new_spec memory mem :
  is_bytes mem -> 0 < memory -> memory + Z.of_nat (length mem) <= 2 ^ 32 - 4 ->
  (forall k, calculate_chunks (Z.of_nat (length mem)) * CHUNK_SIZE <= k -> byte_at mem k = 0) ->
  exists h, Heap_new memory mem = Ret h /\ heap_ok h [] /\
    h_total_chunks h = calculate_chunks (Z.of_nat (length mem)) /\ h_chunks h = memory.
Proof using Hchunk.
  clear Halloc Hfree. intros Hb Hm Hend Hz. unfold Heap_new, calculate_chunks, size_t in *.
  set (len := Z.of_nat (length mem)) in *. set (t := len / (CHUNK_SIZE + 1)) in *.
  assert (0 <= t /\ t * CHUNK_SIZE + t <= len) as [Ht Hroom].
  { subst t. pose proof (Z.div_mod len (CHUNK_SIZE + 1)).
    pose proof (Z.mod_pos_bound len (CHUNK_SIZE + 1)). nia. }
  assert (0 <= t * CHUNK_SIZE) by nia.
  assert ((t + 7) / 8 <= t /\ 0 <= (t + 7) / 8) as [H8 H8'] by int_lia.
  cbv zeta. rewrite (wrap_id u32 eq_refl) by (rewrite in_type_u32; lia).
  rewrite VERIFY_true by lia. run. eexists; split; [done|]. split; [|done].
  split; cbn; try done; try lia.
  - intros i Hi. unfold bit. rewrite byte_at_drop by (unfold bitmap_offset; cbn; int_lia).
    rewrite Hz by (unfold bitmap_offset; cbn; int_lia). apply Z.bits_0.
  - rewrite count_true_none; done.
Qed.

Lemma memcpy_within_spec d dst src n :
  0 <= n -> 0 <= dst -> 0 <= src -> dst + n <= Z.of_nat (length d) ->
  src + n <= Z.of_nat (length d) ->
  exists d', memcpy_within d dst src n = Ret d' /\ changes dst (dst + n) d d' /\
    forall k, 0 <= k < n -> byte_at d' (dst + k) = byte_at d (src + k).
Proof.
  intros Hn Hd Hs Hdl Hsl. unfold memcpy_within.
  rewrite (proj2 (andb_true_iff _ _)) by (rewrite !andb_true_iff; lia).
  eexists; split; [done|].
  assert (length (take (Z.to_nat dst) d) = Z.to_nat dst) as L1 by (rewrite length_take; lia).
  assert (length (take (Z.to_nat n) (drop (Z.to_nat src) d)) = Z.to_nat n) as L2
    by (rewrite length_take, length_drop; lia).
  split; [split_and!|].
  - rewrite !length_app, L1, L2, length_drop. lia.
  - intros Hb. unfold is_bytes in *. rewrite !Forall_app. split_and!;
      repeat first [apply Forall_take | apply Forall_drop | done].
  - intros k Hk [Hlt|Hge]; unfold byte_at.
    + rewrite lookup_app_l by lia. by rewrite lookup_take_lt by lia.
    + rewrite lookup_app_r, lookup_app_r by (rewrite ?L1, ?L2; lia).
      rewrite lookup_drop. do 2 f_equal. rewrite L1, L2. lia.
  - intros k Hk. unfold byte_at. rewrite lookup_app_r, lookup_app_l by (rewrite ?L1, ?L2; lia).
    rewrite lookup_take_lt, lookup_drop by (rewrite L1; lia). do 2 f_equal. rewrite L1. lia.
Qed.

(** [reallocate] of a live block to another size. *)
Lemma reallocate_spec h live s n new_size :
  heap_ok h ((s, n) :: live) -> 4 <= h_total_chunks h ->
  0 <= new_size -> new_size + 4 + CHUNK_SIZE - 1 < 2 ^ 32 -> new_size <> n * CHUNK_SIZE ->
  exists h' r, Heap_reallocate h (h_chunks h + s * CHUNK_SIZE + 4) new_size = Ret (h', r) /\
    match r with
    | Some ptr => exists s', ptr = h_chunks h + s' * CHUNK_SIZE + 4 /\
        heap_ok h' ((s', chunks_for new_size) :: live) /\
        forall k, 0 <= k < Z.min new_size (n * CHUNK_SIZE - 4) ->
          byte_at (h_mem h') (s' * CHUNK_SIZE + 4 + k) = byte_at (h_mem h) (s * CHUNK_SIZE + 4 + k)
    | None => heap_ok h' live
    end.
Proof using Hchunk Halloc Hfree.
  intros Hok Ht4 Hsz Hov Hne. pose proof Hok as [Ht Hr [Ha0 Ha] _ Hblocks _ _ _].
  apply Forall_cons_iff in Hblocks as [Hblock _].
  pose proof (block_bytes h _ Hblock) as Hbb.
  destruct Hblock as (H0 & H1 & H2 & Hhead). cbn [fst snd] in *. unfold bitmap_offset in Hbb.
  unfold Heap_reallocate, AllocationHeader_size, FlatPtr, size_t.
  rewrite (proj2 (Z.eqb_neq _ 0)) by lia. cbv zeta.
  rewrite (wrap_id u32 eq_refl (h_chunks h + s * CHUNK_SIZE + 4 - 4))
    by (rewrite in_type_u32; lia).
  rewrite (VERIFY_true (_ && _)) by (apply andb_true_iff; lia). run.
  replace (h_chunks h + s * CHUNK_SIZE + 4 - 4 - h_chunks h) with (s * CHUNK_SIZE) by lia.
  rewrite Hhead. run. rewrite !(wrap_id u32 eq_refl) by (rewrite in_type_u32; nia).
  rewrite (VERIFY_true (_ <=? h_chunks h + _)) by (apply Z.leb_le; lia). run.
  rewrite (proj2 (Z.eqb_neq _ new_size)) by lia.
  destruct (allocate_spec h _ new_size Hok Hsz Hov) as (h1 & r & -> & Hr1). run.
  destruct r as [ptr|].
  - destruct Hr1 as (s' & -> & _ & Hok1 & Hkeep & Ht1 & Hc1 & _).
    pose proof (chunks_for_bounds new_size Hsz) as (Hn1 & Hn2 & _).
    set (n' := chunks_for new_size) in *. clearbody n'.
    pose proof (heap_ok_shape _ _ Hok1) as Hs1. pose proof (offset_nonneg h1 Hs1) as Ho1.
    pose proof Hok1 as [_ Hr1 _ _ Hblocks1 [Hap1 _] _ _].
    apply Forall_cons_iff in Hblocks1 as [Hblock1 _].
    apply Forall_cons_iff in Hap1 as [Hap1 _].
    pose proof (block_bytes h1 _ Hblock1) as Hbb1. pose proof (apart_bytes _ _ Hap1) as Hab.
    cbn [fst snd] in Hbb1, Hab. unfold bitmap_offset in Hbb1, Ho1. rewrite Ht1 in *.
    replace (h_chunks h + s' * CHUNK_SIZE + 4 - h_chunks h1) with (s' * CHUNK_SIZE + 4) by lia.
    replace (h_chunks h + s * CHUNK_SIZE + 4 - h_chunks h1) with (s * CHUNK_SIZE + 4) by lia.
    destruct (memcpy_within_spec (h_mem h1) (s' * CHUNK_SIZE + 4) (s * CHUNK_SIZE + 4)
      (Z.min (n * CHUNK_SIZE) new_size)) as (mem2 & -> & C2 & Hcopy); [nia..|]. run.
    apply (changes_weaken _ _ (s' * CHUNK_SIZE + 4) ((s' + n') * CHUNK_SIZE)) in C2; [|nia..].
    pose proof (heap_ok_write h1 _ _ _ _ Hok1 C2) as Hok2.
    rewrite (Permutation_swap (s, n) (s', n') live) in Hok2.
    rewrite <- Hc1. change (h_chunks h1) with (h_chunks (with_mem h1 mem2)).
    destruct (deallocate_spec (with_mem h1 mem2) ((s', n') :: live) s n Hok2)
      as (h3 & -> & Hok3 & Hkeep3 & Ht3 & Hc3 & _).
    run. eexists _, (Some _). split; [done|]. exists s'. split_and!; [done..|].
    intros k Hk. rewrite Hkeep3 by (unfold bitmap_offset; cbn [fst snd with_mem h_total_chunks]; lia). cbn [with_mem h_mem].
    rewrite Hcopy by lia. apply Hkeep; [unfold bitmap_offset; lia|]. cbn [fst snd]. lia.
  - destruct Hr1 as [-> _]. run. change (with_mem h (h_mem h)) with
      (MkHeap (h_total_chunks h) (h_allocated_chunks h) (h_chunks h) (h_mem h)).
    destruct (deallocate_spec h live s n Hok) as (h3 & Hd & Hok3 & _).
    destruct h as [t al c m]. cbn in *. rewrite Hd. run. by exists h3, None.
Qed.

End heap.

(** ** Properties *)

(** C20. [allocate] in a well-formed heap returns for every size with [size + 4 +
    CHUNK_SIZE - 1 < 2 ^ 32], that is, unless the size wraps ([Heap_allocate_wraps]). A
    pointer it returns is that of a run of chunks that no live block owns, large enough
    for the header and the size asked for; the heap stays well formed with the new block,
    and no byte of another chunk changes. It returns [nullptr] only if no run of free
    chunks is long enough, and then nothing changes. *)
Theorem Heap_allocate_correct CHUNK_SIZE SCRUB h live size :
  8 <= CHUNK_SIZE -> in_type u8 SCRUB -> heap_ok CHUNK_SIZE h live ->
  0 <= size -> size + 4 + CHUNK_SIZE - 1 < 2 ^ 32 ->
  let n := chunks_for CHUNK_SIZE size in
  exists h' r, Heap_allocate CHUNK_SIZE SCRUB h size = Ret (h', r) /\
    match r with
    | Some ptr => exists s, ptr = h_chunks h + s * CHUNK_SIZE + 4 /\
        size <= n * CHUNK_SIZE - 4 /\ free_run live s n /\
        heap_ok CHUNK_SIZE h' ((s, n) :: live) /\
        keeps_others CHUNK_SIZE h (s, n) (h_mem h) (h_mem h')
    | None => h' = h /\
        forall s, 0 <= s -> s + n <= h_total_chunks h -> ~ free_run live s n
    end.
Proof.
  intros HC HS Hok Hsz Hov n. destruct (chunks_for_bounds CHUNK_SIZE HC size Hsz) as (_ & Hn & _).
  destruct (allocate_spec CHUNK_SIZE SCRUB HC HS h live size Hok Hsz Hov) as (h' & r & -> & Hr).
  exists h', r. split; [done|]. destruct r as [ptr|]; [|done].
  destruct Hr as (s & Hp & Hrun & Hok' & Hk & _). exists s. split_and!; (done || lia).
Qed.

(** The configuration of kmalloc.cpp, over 200 bytes: six chunks of 32 bytes. *)
Definition example_heap : Heap := MkHeap 6 0 0x10000 (replicate 200 0).

Lemma example_heap_ok : heap_ok 32 example_heap [].
Proof.
  destruct (Heap_new_spec 32 ltac:(lia) 0x10000 (replicate 200 0)) as (h & Hh & Hok & _);
    [by apply Forall_replicate | lia | by vm_compute | |].
  - intros k _. unfold byte_at. destruct (replicate 200 0 !! Z.to_nat k) eqn:E; [|done].
    by apply lookup_replicate in E as [-> _].
  - assert (h = example_heap) as -> by (vm_compute in Hh; by injection Hh). done.
Qed.

Lemma Heap_allocate_correct_witness :
  exists h' r, Heap_allocate 32 0xbb example_heap 40 = Ret (h', r) /\
    match r with
    | Some ptr => exists s, ptr = h_chunks example_heap + s * 32 + 4 /\
        40 <= chunks_for 32 40 * 32 - 4 /\ free_run [] s (chunks_for 32 40) /\
        heap_ok 32 h' [(s, chunks_for 32 40)] /\
        keeps_others 32 example_heap (s, chunks_for 32 40) (h_mem example_heap) (h_mem h')
    | None => h' = example_heap /\
        forall s, 0 <= s -> s + chunks_for 32 40 <= h_total_chunks example_heap ->
          ~ free_run [] s (chunks_for 32 40)
    end.
Proof.
  apply (Heap_allocate_correct 32 0xbb example_heap [] 40);
    [lia | by vm_compute | exact example_heap_ok | lia | by vm_compute].
Defined.

(** C21. [deallocate] of a live block returns, takes exactly that block out of the heap
    and changes no byte of another chunk; freeing the same pointer a second time fails
    a [VERIFY]. *)
Theorem Heap_deallocate_correct CHUNK_SIZE SCRUB h live s n :
  8 <= CHUNK_SIZE -> in_type u8 SCRUB -> heap_ok CHUNK_SIZE h ((s, n) :: live) ->
  let ptr := h_chunks h + s * CHUNK_SIZE + 4 in
  exists h', Heap_deallocate CHUNK_SIZE SCRUB h ptr = Ret h' /\ heap_ok CHUNK_SIZE h' live /\
    keeps_others CHUNK_SIZE h (s, n) (h_mem h) (h_mem h') /\
    Heap_deallocate CHUNK_SIZE SCRUB h' ptr = Stop VerifyFailed.
Proof.
  intros HC HS Hok ptr.
  destruct (deallocate_spec CHUNK_SIZE SCRUB HC HS h live s n Hok)
    as (h' & Heq & Hok' & Hk & Ht & Hc & _).
  exists h'. split_and!; try done. subst ptr. rewrite <- Hc.
  destruct Hok as [_ _ _ _ Hblocks [Hap _] _ _].
  apply Forall_cons_iff in Hblocks as [(H0 & H1 & H2 & _) _]. cbn in H0, H1, H2.
  apply (deallocate_unowned _ _ HC h' live); [done | lia |].
  apply not_true_is_false. rewrite owned_spec. intros (b & Hb & Hi).
  rewrite Forall_forall in Hap.
  destruct (Hap b Hb); cbn in *; lia.
Qed.

(** The heap after [allocate(40)]: a block of two chunks. *)
Definition example_heap1 : Heap :=
  MkHeap 6 2 0x10000 ([2; 0; 0; 0] ++ replicate 60 0xbb ++ replicate 128 0 ++ [3] ++ replicate 7 0).

Lemma example_heap1_ok : heap_ok 32 example_heap1 [(0, 2)].
Proof.
  destruct (allocate_spec 32 0xbb ltac:(lia) ltac:(by vm_compute) example_heap [] 40)
    as (h' & r & Heq & Hr); [exact example_heap_ok | lia | by vm_compute |].
  vm_compute in Heq. injection Heq as <- <-.
  destruct Hr as (s & Hp & _ & Hok & _). cbn in Hp.
  replace s with 0 in Hok by lia. exact Hok.
Qed.

Lemma Heap_deallocate_correct_witness :
  exists h', Heap_deallocate 32 0xaa example_heap1 (h_chunks example_heap1 + 0 * 32 + 4) = Ret h' /\
    heap_ok 32 h' [] /\ keeps_others 32 example_heap1 (0, 2) (h_mem example_heap1) (h_mem h') /\
    Heap_deallocate 32 0xaa h' (h_chunks example_heap1 + 0 * 32 + 4) = Stop VerifyFailed.
Proof.
  apply (Heap_deallocate_correct 32 0xaa example_heap1 [] 0 2);
    [lia | by vm_compute | exact example_heap1_ok].
Defined.

(** [reallocate] of a live block to a size other than that of its chunks moves it:
    the new block has the data of the old one, up to the smaller size, and takes its
    place among the live blocks.  Without room for the new block the old one is freed. *)
Theorem Heap_reallocate_correct CHUNK_SIZE SCRUB_ALLOC SCRUB_FREE h live s n new_size :
  8 <= CHUNK_SIZE -> in_type u8 SCRUB_ALLOC -> in_type u8 SCRUB_FREE ->
  heap_ok CHUNK_SIZE h ((s, n) :: live) -> 4 <= h_total_chunks h ->
  0 <= new_size -> new_size + 4 + CHUNK_SIZE - 1 < 2 ^ 32 -> new_size <> n * CHUNK_SIZE ->
  let ptr := h_chunks h + s * CHUNK_SIZE + 4 in
  exists h' r,
    Heap_reallocate CHUNK_SIZE SCRUB_ALLOC SCRUB_FREE h ptr new_size = Ret (h', r) /\
    match r with
    | Some ptr' => exists s', ptr' = h_chunks h + s' * CHUNK_SIZE + 4 /\
        heap_ok CHUNK_SIZE h' ((s', chunks_for CHUNK_SIZE new_size) :: live) /\
        forall k, 0 <= k < Z.min new_size (n * CHUNK_SIZE - 4) ->
          byte_at (h_mem h') (s' * CHUNK_SIZE + 4 + k) = byte_at (h_mem h) (s * CHUNK_SIZE + 4 + k)
    | None => heap_ok CHUNK_SIZE h' live
    end.
Proof. intros HC HA HF Hok. by apply reallocate_spec. Qed.

Lemma Heap_reallocate_correct_witness :
  exists h' r,
    Heap_reallocate 32 0xbb 0xaa example_heap1 (h_chunks example_heap1 + 0 * 32 + 4) 100
      = Ret (h', r) /\
    match r with
    | Some ptr' => exists s', ptr' = h_chunks example_heap1 + s' * 32 + 4 /\
        heap_ok 32 h' [(s', chunks_for 32 100)] /\
        forall k, 0 <= k < Z.min 100 (2 * 32 - 4) ->
          byte_at (h_mem h') (s' * 32 + 4 + k) = byte_at (h_mem example_heap1) (0 * 32 + 4 + k)
    | None => heap_ok 32 h' []
    end.
Proof.
  apply (Heap_reallocate_correct 32 0xbb 0xaa example_heap1 [] 0 2 100);
    [lia | by vm_compute | by vm_compute | exact example_heap1_ok | by vm_compute..].
Defined.

(** [reallocate] to exactly the size of the block's chunks keeps the block, although
    four bytes of it are the header: the caller has four bytes less than it asked for. *)
Theorem Heap_reallocate_too_small CHUNK_SIZE SCRUB_ALLOC SCRUB_FREE h live s n :
  8 <= CHUNK_SIZE -> heap_ok CHUNK_SIZE h ((s, n) :: live) ->
  let ptr := h_chunks h + s * CHUNK_SIZE + 4 in
  let new_size := n * CHUNK_SIZE in
  Heap_reallocate CHUNK_SIZE SCRUB_ALLOC SCRUB_FREE h ptr new_size = Ret (h, Some ptr) /\
  (h_chunks h + (s + n) * CHUNK_SIZE) - ptr = new_size - 4.
Proof.
  intros HC Hok ptr new_size. split; [|subst ptr new_size; lia].
  pose proof Hok as [Ht Hr [Ha0 Ha] _ Hblocks _ _ _].
  apply Forall_cons_iff in Hblocks as [Hblock _]. pose proof (block_bytes _ HC h _ Hblock) as Hbb.
  destruct Hblock as (H0 & H1 & H2 & Hhead). cbn [fst snd] in *. unfold bitmap_offset in Hbb.
  unfold Heap_reallocate, AllocationHeader_size, FlatPtr, size_t. subst ptr new_size.
  rewrite (proj2 (Z.eqb_neq _ 0)) by lia. cbv zeta.
  rewrite (wrap_id u32 eq_refl (h_chunks h + s * CHUNK_SIZE + 4 - 4))
    by (rewrite in_type_u32; lia).
  rewrite (VERIFY_true (_ && _)) by (apply andb_true_iff; lia). run.
  replace (h_chunks h + s * CHUNK_SIZE + 4 - 4 - h_chunks h) with (s * CHUNK_SIZE) by lia.
  rewrite Hhead. run. rewrite !(wrap_id u32 eq_refl) by (rewrite in_type_u32; nia).
  rewrite (VERIFY_true (_ <=? h_chunks h + _)) by (apply Z.leb_le; lia). run.
  by rewrite Z.eqb_refl.
Qed.

Lemma Heap_reallocate_too_small_witness :
  Heap_reallocate 32 0xbb 0xaa example_heap1 (h_chunks example_heap1 + 0 * 32 + 4) (2 * 32) =
    Ret (example_heap1, Some (h_chunks example_heap1 + 0 * 32 + 4)) /\
  (h_chunks example_heap1 + (0 + 2) * 32) - (h_chunks example_heap1 + 0 * 32 + 4) = 2 * 32 - 4.
Proof.
  apply (Heap_reallocate_too_small 32 0xbb 0xaa example_heap1 [] 0 2);
    [lia | exact example_heap1_ok].
Defined.

(** The size of the header is added without a check: a request within three bytes
    of 4 GiB is served exactly like a request for nothing, with one chunk. *)
Theorem Heap_allocate_wraps CHUNK_SIZE SCRUB h k :
  8 <= CHUNK_SIZE -> CHUNK_SIZE < 2 ^ 31 -> 1 <= k <= 3 ->
  Heap_allocate CHUNK_SIZE SCRUB h (2 ^ 32 - k) = Heap_allocate CHUNK_SIZE SCRUB h 0 /\
  chunks_for CHUNK_SIZE 0 = 1.
Proof.
  intros HC HC' Hk. unfold Heap_allocate, chunks_for, AllocationHeader_size, size_t.
  replace (wrap u32 (2 ^ 32 - k + 4)) with (4 - k) by int_lia.
  change (wrap u32 (0 + 4)) with 4.
  rewrite (wrap_id u32 eq_refl (4 - k + CHUNK_SIZE - 1)), (wrap_id u32 eq_refl (4 + CHUNK_SIZE - 1))
    by (rewrite in_type_u32; lia).
  assert (forall j, 1 <= j <= 4 -> (j + CHUNK_SIZE - 1) / CHUNK_SIZE = 1) as Hone.
  { intros j Hj. symmetry. apply (Z.div_unique _ _ 1 (j - 1)); lia. }
  rewrite !Hone by lia. done.
Qed.

Lemma Heap_allocate_wraps_witness :
  Heap_allocate 32 0xbb example_heap (2 ^ 32 - 1) = Heap_allocate 32 0xbb example_heap 0 /\
  chunks_for 32 0 = 1.
Proof. apply (Heap_allocate_wraps 32 0xbb example_heap 1); lia. Defined.

(** *** A heap and its clients as a state machine

    The state is the heap and its live blocks.  Clients allocate, free blocks they own
    and write to the data bytes of blocks they own. *)
Inductive heap_step (CHUNK_SIZE ALLOC FREE : Z) :
    Heap * list (Z * Z) -> Heap * list (Z * Z) -> Prop :=
| step_allocate h live size h' s :
    0 <= size -> size + 4 + CHUNK_SIZE - 1 < 2 ^ 32 ->
    Heap_allocate CHUNK_SIZE ALLOC h size = Ret (h', Some (h_chunks h + s * CHUNK_SIZE + 4)) ->
    heap_step CHUNK_SIZE ALLOC FREE (h, live) (h', (s, chunks_for CHUNK_SIZE size) :: live)
| step_out_of_memory h live size h' :
    0 <= size -> size + 4 + CHUNK_SIZE - 1 < 2 ^ 32 ->
    Heap_allocate CHUNK_SIZE ALLOC h size = Ret (h', None) ->
    heap_step CHUNK_SIZE ALLOC FREE (h, live) (h', live)
| step_deallocate h live live' s n h' :
    Permutation live ((s, n) :: live') ->
    Heap_deallocate CHUNK_SIZE FREE h (h_chunks h + s * CHUNK_SIZE + 4) = Ret h' ->
    heap_step CHUNK_SIZE ALLOC FREE (h, live) (h', live')
| step_write h live live' s n mem' :
    Permutation live ((s, n) :: live') ->
    changes (s * CHUNK_SIZE + 4) ((s + n) * CHUNK_SIZE) (h_mem h) mem' ->
    heap_step CHUNK_SIZE ALLOC FREE (h, live) (with_mem h mem', live).

Lemma heap_step_ok CHUNK_SIZE ALLOC FREE st st' :
  8 <= CHUNK_SIZE -> in_type u8 ALLOC -> in_type u8 FREE ->
  heap_step CHUNK_SIZE ALLOC FREE st st' ->
  heap_ok CHUNK_SIZE st.1 st.2 -> heap_ok CHUNK_SIZE st'.1 st'.2.
Proof.
  intros HC HA HF Hstep Hok.
  destruct Hstep as [h live size h' s Hsz Hov Heq|h live size h' Hsz Hov Heq
                    |h live live' s n h' Hp Heq|h live live' s n mem' Hp Hc]; cbn in *.
  - destruct (allocate_spec _ _ HC HA h live size Hok Hsz Hov) as (h1 & r & Heq1 & Hr).
    rewrite Heq in Heq1. injection Heq1 as <- <-. destruct Hr as (s' & Hs & _ & Hok' & _).
    replace s with s' by nia. done.
  - destruct (allocate_spec _ _ HC HA h live size Hok Hsz Hov) as (h1 & r & Heq1 & Hr).
    rewrite Heq in Heq1. injection Heq1 as <- <-. by destruct Hr as [-> _].
  - rewrite Hp in Hok.
    destruct (deallocate_spec _ _ HC HF h live' s n Hok) as (h1 & Heq1 & Hok' & _). congruence.
  - rewrite Hp in *. by apply heap_ok_write.
Qed.

Lemma heap_steps_ok CHUNK_SIZE ALLOC FREE st st' :
  8 <= CHUNK_SIZE -> in_type u8 ALLOC -> in_type u8 FREE ->
  rtc (heap_step CHUNK_SIZE ALLOC FREE) st st' ->
  heap_ok CHUNK_SIZE st.1 st.2 -> heap_ok CHUNK_SIZE st'.1 st'.2.
Proof.
  intros HC HA HF. induction 1 as [|st st' st'' Hs _ IH]; [done|].
  intros Hok. apply IH. by apply (heap_step_ok CHUNK_SIZE ALLOC FREE st).
Qed.

(** C1. Whatever clients do to a heap made over memory whose bitmap is cleared, it stays
    well formed: the live blocks are pairwise disjoint runs of chunks inside the heap, and
    exactly their chunks are marked in the bitmap and counted. Freeing any live block
    returns, and so does every further allocation. The allocations, those of the clients'
    steps and the further ones, are of sizes with [size + 4 + CHUNK_SIZE - 1 < 2 ^ 32];
    closer to 4 GiB the sum wraps and the block is too small ([Heap_allocate_wraps]). *)
Theorem Heap_reachable_ok CHUNK_SIZE ALLOC FREE memory mem h0 h live :
  8 <= CHUNK_SIZE -> in_type u8 ALLOC -> in_type u8 FREE ->
  is_bytes mem -> 0 < memory -> memory + Z.of_nat (length mem) <= 2 ^ 32 - 4 ->
  (forall k, calculate_chunks CHUNK_SIZE (Z.of_nat (length mem)) * CHUNK_SIZE <= k ->
     byte_at mem k = 0) ->
  Heap_new CHUNK_SIZE memory mem = Ret h0 ->
  rtc (heap_step CHUNK_SIZE ALLOC FREE) (h0, []) (h, live) ->
  heap_ok CHUNK_SIZE h live /\
  (forall size, 0 <= size -> size + 4 + CHUNK_SIZE - 1 < 2 ^ 32 ->
     exists h' r, Heap_allocate CHUNK_SIZE ALLOC h size = Ret (h', r)) /\
  (forall s n, (s, n) ∈ live ->
     exists h', Heap_deallocate CHUNK_SIZE FREE h (h_chunks h + s * CHUNK_SIZE + 4) = Ret h').
Proof.
  intros HC HA HF Hb Hm Hend Hz Hnew Hsteps.
  destruct (Heap_new_spec CHUNK_SIZE HC memory mem Hb Hm Hend Hz) as (h0' & Heq & Hok0 & _).
  rewrite Hnew in Heq. injection Heq as <-.
  pose proof (heap_steps_ok _ _ _ _ _ HC HA HF Hsteps Hok0) as Hok. cbn in Hok.
  split_and!; [done | |].
  - intros size Hsz Hov.
    destruct (allocate_spec _ _ HC HA h live size Hok Hsz Hov) as (h' & r & Heq & _).
    by exists h', r.
  - intros s n Hin. apply elem_of_Permutation in Hin as [live' Hp]. rewrite Hp in Hok.
    destruct (deallocate_spec _ _ HC HF h live' s n Hok) as (h' & Heq & _). by exists h'.
Qed.

Lemma Heap_reachable_ok_witness :
  heap_ok 32 example_heap1 [(0, 2)] /\
  (forall size, 0 <= size -> size + 4 + 32 - 1 < 2 ^ 32 ->
     exists h' r, Heap_allocate 32 0xbb example_heap1 size = Ret (h', r)) /\
  (forall s n, (s, n) ∈ [(0, 2)] ->
     exists h', Heap_deallocate 32 0xaa example_heap1 (h_chunks example_heap1 + s * 32 + 4)
       = Ret h').
Proof.
  apply (Heap_reachable_ok 32 0xbb 0xaa 0x10000 (replicate 200 0) example_heap).
  - lia.
  - by vm_compute.
  - by vm_compute.
  - by apply Forall_replicate.
  - lia.
  - by vm_compute.
  - intros k _. unfold byte_at. destruct (replicate 200 0 !! Z.to_nat k) eqn:E; [|done].
    by apply lookup_replicate in E as [-> _].
  - by vm_compute.
  - apply rtc_once. apply (step_allocate 32 0xbb 0xaa example_heap [] 40 example_heap1 0);
      [lia | by vm_compute | by vm_compute].
Defined.
