(* ===== verification/ExpandableHeap.v ===== *)
(** * Kernel/Heap/Heap.h: the expandable heap

    [ExpandableHeap] chains a main heap and the subheaps that were added to it, in the
    order of their addresses.  What adds and removes memory is the template parameter
    [ExpandHeap], here two functions the section is over; they may change the heap they
    are called on, as the one of kmalloc.cpp does. *)

From Stdlib Require Import Sorting.Sorted.
From S2P Require Import Prelude BitmapView BitmapFind Heap.

#[local] Open Scope Z_scope.

Record SubHeap : Type := MkSubHeap {
  sh_heap : Heap;
  sh_addr : Z;           (* the address of the SubHeap object *)
  sh_memory_size : Z
}.

(** [e_heaps] is the chain: the main heap [m_heaps] first, then along [next]. *)
Record ExpandableHeap : Type := MkExpandableHeap {
  e_main : SubHeap;
  e_subheaps : list SubHeap;
  e_expanding : bool
}.

Definition e_heaps (e : ExpandableHeap) : list SubHeap := e_main e :: e_subheaps e.

Definition with_heaps (e : ExpandableHeap) (heaps : list SubHeap) : ExpandableHeap :=
  match heaps with
  | main :: subheaps => MkExpandableHeap main subheaps (e_expanding e)
  | [] => e
  end.

Definition with_heap (sh : SubHeap) (h : Heap) : SubHeap :=
  MkSubHeap h (sh_addr sh) (sh_memory_size sh).

Definition with_expanding (e : ExpandableHeap) (b : bool) : ExpandableHeap :=
  MkExpandableHeap (e_main e) (e_subheaps e) b.

(** sizeof(SubHeap): the 20 bytes of [Heap], [next] and [memory_size]. *)
Definition SubHeap_size : Z := 28.

(** [DefaultExpandHeap]. *)
Definition DefaultExpandHeap_add_memory (e : ExpandableHeap) (size : Z)
    : outcome (bool * ExpandableHeap) := Ret (false, e).
Definition DefaultExpandHeap_remove_memory (e : ExpandableHeap) (memory : Z)
    : outcome (bool * ExpandableHeap) := Ret (false, e).

Section expandable.
Context (CHUNK_SIZE ALLOC FREE : Z).
Context (add_memory remove_memory : ExpandableHeap -> Z -> outcome (bool * ExpandableHeap)).

Definition ExpandableHeap_new (main_addr memory : Z) (mem : list Z) : outcome ExpandableHeap :=
  h ← Heap_new CHUNK_SIZE memory mem;
  Ret (MkExpandableHeap (MkSubHeap h main_addr (Z.of_nat (length mem))) [] false).

Definition ExpandableHeap_calculate_memory_for_bytes (bytes : Z) : Z :=
  wrap size_t (SubHeap_size + calculate_memory_for_bytes CHUNK_SIZE bytes).

Definition ExpandableHeap_expand_memory (e : ExpandableHeap) (size : Z)
    : outcome (bool * ExpandableHeap) :=
  if e_expanding e then Ret (false, e)
  else
    '(added, e) ← add_memory (with_expanding e true) size;
    Ret (added, with_expanding e false).

(** The [for] loop over the chain. *)
Fixpoint allocate_in (heaps : list SubHeap) (size : Z) : outcome (list SubHeap * option Z) :=
  match heaps with
  | [] => Ret ([], None)
  | sh :: rest =>
      '(h, ptr) ← Heap_allocate CHUNK_SIZE ALLOC (sh_heap sh) size;
      match ptr with
      | Some ptr => Ret (with_heap sh h :: rest, Some ptr)
      | None => '(rest, ptr) ← allocate_in rest size; Ret (with_heap sh h :: rest, ptr)
      end
  end.

(** The [do ... while] loop; [attempts] more rounds may follow this one. *)
Fixpoint allocate_attempts (attempts : nat) (e : ExpandableHeap) (size : Z)
    : outcome (ExpandableHeap * option Z) :=
  '(heaps, ptr) ← allocate_in (e_heaps e) size;
  let e := with_heaps e heaps in
  match ptr with
  | Some ptr => Ret (e, Some ptr)
  | None =>
      match attempts with
      | O => Ret (e, None)
      | S attempts =>
          '(expanded, e) ← ExpandableHeap_expand_memory e size;
          if negb expanded then Ret (e, None) else allocate_attempts attempts e size
      end
  end.

Definition ExpandableHeap_allocate (e : ExpandableHeap) (size : Z)
    : outcome (ExpandableHeap * option Z) := allocate_attempts 2 e size.

(** The index in the chain of the first heap that contains [ptr]. *)
Fixpoint find_heap (heaps : list SubHeap) (ptr : Z) : option nat :=
  match heaps with
  | [] => None
  | sh :: rest =>
      if Heap_contains CHUNK_SIZE (sh_heap sh) ptr then Some 0%nat
      else option_map S (find_heap rest ptr)
  end.

(** Behind every subheap with a lower address. *)
Fixpoint insert_subheap (new_heap : SubHeap) (subheaps : list SubHeap) : list SubHeap :=
  match subheaps with
  | [] => [new_heap]
  | next :: rest =>
      if Heap_memory (sh_heap new_heap) <? Heap_memory (sh_heap next) then new_heap :: subheaps
      else next :: insert_subheap new_heap rest
  end.

(** [mem] is what the memory block holds; the SubHeap object takes its first bytes. *)
Definition ExpandableHeap_add_subheap (e : ExpandableHeap) (memory : Z) (mem : list Z)
    : outcome ExpandableHeap :=
  VERIFY (SubHeap_size <? Z.of_nat (length mem)) ;;
  let mem := drop (Z.to_nat SubHeap_size) mem in
  h ← Heap_new CHUNK_SIZE (memory + SubHeap_size) mem;
  let new_heap := MkSubHeap h memory (Z.of_nat (length mem)) in
  Ret (MkExpandableHeap (e_main e) (insert_subheap new_heap (e_subheaps e)) (e_expanding e)).

(** What the memory of a destroyed subheap holds: the object, whose bytes do not matter
    any more, and the memory of its heap. *)
Definition subheap_memory (sh : SubHeap) : list Z :=
  replicate (Z.to_nat SubHeap_size) 0 ++ h_mem (sh_heap sh).

Definition ExpandableHeap_deallocate (e : ExpandableHeap) (ptr : Z) : outcome ExpandableHeap :=
  if ptr =? 0 then Ret e
  else
    match find_heap (e_heaps e) ptr with
    | None => Stop VerifyFailed
    | Some i =>
        match e_heaps e !! i with
        | None => Stop VerifyFailed
        | Some sh =>
            h ← Heap_deallocate CHUNK_SIZE FREE (sh_heap sh) ptr;
            let subheap := with_heap sh h in
            let e := with_heaps e (<[i := subheap]> (e_heaps e)) in
            if (Heap_allocated_chunks h =? 0) && negb (Nat.eqb i 0) && negb (e_expanding e) then
              let e := with_heaps e (delete i (e_heaps e)) in
              let memory_size := sh_memory_size subheap in
              '(removed, e) ← remove_memory e (sh_addr subheap);
              if negb removed then
                ExpandableHeap_add_subheap e (sh_addr subheap)
                  (take (Z.to_nat memory_size) (subheap_memory subheap))
              else Ret e
            else Ret e
        end
    end.

(** [SubHeap::heap.reallocate(ptr, new_size, *this)]: the new block may come from any
    heap of the chain, whose memory is a block of its own. *)
Definition ExpandableHeap_reallocate (e : ExpandableHeap) (ptr new_size : Z)
    : outcome (ExpandableHeap * option Z) :=
  if ptr =? 0 then ExpandableHeap_allocate e new_size
  else
    match find_heap (e_heaps e) ptr ≫= fun i => e_heaps e !! i with
    | None => Stop VerifyFailed
    | Some sh =>
        let h := sh_heap sh in
        let a := wrap FlatPtr (ptr - AllocationHeader_size) in
        VERIFY ((h_chunks h <=? a) && (ptr <? h_chunks h + h_total_chunks h * CHUNK_SIZE)) ;;
        size ← load32 (h_mem h) (a - h_chunks h);
        VERIFY (wrap FlatPtr (a + wrap size_t (size * CHUNK_SIZE))
                  <=? h_chunks h + h_total_chunks h * CHUNK_SIZE) ;;
        let old_size := wrap size_t (size * CHUNK_SIZE) in
        if old_size =? new_size then Ret (e, Some ptr)
        else
          '(e, new_ptr) ← ExpandableHeap_allocate e new_size;
          e ← (match new_ptr with
               | None => Ret e
               | Some new_ptr =>
                   match find_heap (e_heaps e) ptr, find_heap (e_heaps e) new_ptr with
                   | Some i, Some j =>
                       match e_heaps e !! i, e_heaps e !! j with
                       | Some src, Some dst =>
                           let n := Z.min old_size new_size in
                           let from := Z.to_nat (ptr - h_chunks (sh_heap src)) in
                           let bytes := take (Z.to_nat n) (drop from (h_mem (sh_heap src))) in
                           let to := Z.to_nat (new_ptr - h_chunks (sh_heap dst)) in
                           let mem := h_mem (sh_heap dst) in
                           let mem := take to mem ++ bytes ++ drop (to + length bytes) mem in
                           if (n <=? Z.of_nat (length bytes))
                              && (Z.of_nat to + n <=? Z.of_nat (length (h_mem (sh_heap dst))))
                           then Ret (with_heaps e
                                  (<[j := with_heap dst (with_mem (sh_heap dst) mem)]> (e_heaps e)))
                           else Stop OutOfBounds
                       | _, _ => Stop OutOfBounds
                       end
                   | _, _ => Stop OutOfBounds
                   end
               end);
          e ← ExpandableHeap_deallocate e ptr;
          Ret (e, new_ptr)
    end.

(** The destructor gives every added subheap back. *)
Fixpoint destroy_subheaps (subheaps : list SubHeap) (e : ExpandableHeap) : outcome ExpandableHeap :=
  match subheaps with
  | [] => Ret e
  | sh :: rest => '(_, e) ← remove_memory e (sh_addr sh); destroy_subheaps rest e
  end.
Definition ExpandableHeap_destroy (e : ExpandableHeap) : outcome ExpandableHeap :=
  destroy_subheaps (e_subheaps e) e.

Definition ExpandableHeap_contains (e : ExpandableHeap) (ptr : Z) : bool :=
  existsb (fun sh => Heap_contains CHUNK_SIZE (sh_heap sh) ptr) (e_heaps e).

Definition sum_over (f : Heap -> Z) (e : ExpandableHeap) : Z :=
  fold_left (fun total sh => wrap size_t (total + f (sh_heap sh))) (e_heaps e) 0.
Definition ExpandableHeap_total_chunks (e : ExpandableHeap) : Z := sum_over Heap_total_chunks e.
Definition ExpandableHeap_total_bytes (e : ExpandableHeap) : Z :=
  wrap size_t (ExpandableHeap_total_chunks e * CHUNK_SIZE).
Definition ExpandableHeap_free_chunks (e : ExpandableHeap) : Z := sum_over Heap_free_chunks e.
Definition ExpandableHeap_free_bytes (e : ExpandableHeap) : Z :=
  wrap size_t (ExpandableHeap_free_chunks e * CHUNK_SIZE).
Definition ExpandableHeap_allocated_chunks (e : ExpandableHeap) : Z :=
  sum_over Heap_allocated_chunks e.
Definition ExpandableHeap_allocated_bytes (e : ExpandableHeap) : Z :=
  wrap size_t (ExpandableHeap_allocated_chunks e * CHUNK_SIZE).
(** ** The invariant

    Every heap of the chain is well formed with its live blocks, and their memories do
    not overlap. *)

Definition memory_apart (sh sh' : SubHeap) : Prop :=
  h_chunks (sh_heap sh) + Z.of_nat (length (h_mem (sh_heap sh))) <= h_chunks (sh_heap sh') \/
  h_chunks (sh_heap sh') + Z.of_nat (length (h_mem (sh_heap sh'))) <= h_chunks (sh_heap sh).

Record heaps_ok (heaps : list SubHeap) (lives : list (list (Z * Z))) : Prop := HeapsOk {
  es_heaps : Forall2 (fun sh live => heap_ok CHUNK_SIZE (sh_heap sh) live) heaps lives;
  es_apart : forall i j sh sh', i <> j -> heaps !! i = Some sh -> heaps !! j = Some sh' ->
    memory_apart sh sh'
}.

(** The same memory with other contents. *)
Definition same_memory (h h' : Heap) : Prop :=
  h_total_chunks h' = h_total_chunks h /\ h_chunks h' = h_chunks h /\
  length (h_mem h') = length (h_mem h).

Lemma heaps_ok_insert heaps lives i sh h' live' :
  heaps_ok heaps lives -> heaps !! i = Some sh -> same_memory (sh_heap sh) h' ->
  heap_ok CHUNK_SIZE h' live' ->
  heaps_ok (<[i := with_heap sh h']> heaps) (<[i := live']> lives).
Proof.
  intros [Hok Hap] Hi (_ & Hc & Hl) Hok'. split; [by apply Forall2_insert|].
  assert (i < length heaps)%nat as Hlt by (by eapply lookup_lt_Some).
  assert (forall j x, <[i:=with_heap sh h']> heaps !! j = Some x ->
    exists y, heaps !! j = Some y /\ h_chunks (sh_heap x) = h_chunks (sh_heap y) /\
      length (h_mem (sh_heap x)) = length (h_mem (sh_heap y))) as Hback.
  { intros j x Hj. destruct (decide (i = j)) as [<-|Hne].
    - rewrite list_lookup_insert_eq in Hj by done. injection Hj as <-. by exists sh.
    - rewrite list_lookup_insert_ne in Hj by done. by exists x. }
  intros j k x y Hne Hx Hy. destruct (Hback j x Hx) as (x' & Hx' & Hcx & Hlx).
  destruct (Hback k y Hy) as (y' & Hy' & Hcy & Hly).
  pose proof (Hap j k x' y' Hne Hx' Hy') as Ha. unfold memory_apart in *.
  by rewrite Hcx, Hcy, Hlx, Hly.
Qed.

Context (Hchunk : 8 <= CHUNK_SIZE) (HA : in_type u8 ALLOC) (HF : in_type u8 FREE).

(** The pointer of a block lies in the memory of its heap and of no other. *)
Lemma contains_own h live s n :
  heap_ok CHUNK_SIZE h live -> (s, n) ∈ live ->
  Heap_contains CHUNK_SIZE h (h_chunks h + s * CHUNK_SIZE + 4) = true.
Proof using Hchunk.
  intros [Ht Hr [Ha0 Ha] _ Hb _ _ _] Hin. rewrite Forall_forall in Hb.
  pose proof (block_bytes _ Hchunk h _ (Hb _ Hin)) as Hbb. cbn in Hbb.
  unfold bitmap_offset in Hbb. unfold Heap_contains, AllocationHeader_size, FlatPtr. cbv zeta.
  rewrite (wrap_id u32 eq_refl) by (rewrite in_type_u32; lia).
  rewrite (proj2 (Z.ltb_ge _ _)), (proj2 (Z.leb_gt _ _)) by lia. done.
Qed.

Lemma contains_other h live h' live' s n :
  heap_ok CHUNK_SIZE h live -> (s, n) ∈ live -> heap_ok CHUNK_SIZE h' live' ->
  h_chunks h + Z.of_nat (length (h_mem h)) <= h_chunks h' \/
  h_chunks h' + Z.of_nat (length (h_mem h')) <= h_chunks h ->
  Heap_contains CHUNK_SIZE h' (h_chunks h + s * CHUNK_SIZE + 4) = false.
Proof using Hchunk.
  intros [Ht Hr [Ha0 Ha] _ Hb _ _ _] Hin Hok' Hap. rewrite Forall_forall in Hb.
  pose proof (block_bytes _ Hchunk h _ (Hb _ Hin)) as Hbb. cbn in Hbb.
  pose proof (offset_nonneg _ Hchunk h' (heap_ok_shape _ _ _ Hok')) as Ho'.
  destruct Hok' as [Ht' Hr' _ _ _ _ _ _].
  unfold bitmap_offset in *. unfold Heap_contains, AllocationHeader_size, FlatPtr. cbv zeta.
  rewrite (wrap_id u32 eq_refl) by (rewrite in_type_u32; lia).
  destruct (Z.ltb_spec (h_chunks h + s * CHUNK_SIZE + 4 - 4) (h_chunks h')); [done|].
  rewrite (proj2 (Z.leb_le _ _)) by lia. done.
Qed.

Lemma find_heap_first heaps ptr i sh :
  heaps !! i = Some sh -> Heap_contains CHUNK_SIZE (sh_heap sh) ptr = true ->
  (forall j sh', (j < i)%nat -> heaps !! j = Some sh' ->
     Heap_contains CHUNK_SIZE (sh_heap sh') ptr = false) ->
  find_heap heaps ptr = Some i.
Proof.
  revert i; induction heaps as [|x heaps IH]; intros i Hi Hc Hno; [done|]. cbn [find_heap].
  destruct i as [|i]; [by injection Hi as ->; rewrite Hc|].
  rewrite (Hno 0%nat x) by (done || lia). rewrite (IH i); [done..|].
  intros j sh' Hj Hsh. apply (Hno (S j)); [lia | done].
Qed.

Lemma find_heap_owner heaps lives i sh live s n :
  heaps_ok heaps lives -> heaps !! i = Some sh -> lives !! i = Some live -> (s, n) ∈ live ->
  find_heap heaps (h_chunks (sh_heap sh) + s * CHUNK_SIZE + 4) = Some i.
Proof using Hchunk.
  intros [Hok Hap] Hi Hl Hin. pose proof (Forall2_lookup_lr _ _ _ _ _ _ Hok Hi Hl) as Hoki.
  apply (find_heap_first _ _ _ sh Hi); [exact (contains_own _ _ _ _ Hoki Hin)|].
  intros j sh' Hj Hsh'. destruct (Forall2_lookup_l _ _ _ _ _ Hok Hsh') as (live' & Hl' & Hok').
  eapply contains_other; [exact Hoki | done | exact Hok' |].
  apply (Hap i j); [lia | done..].
Qed.

Lemma allocate_in_spec heaps lives size :
  Forall2 (fun sh live => heap_ok CHUNK_SIZE (sh_heap sh) live) heaps lives ->
  0 <= size -> size + 4 + CHUNK_SIZE - 1 < 2 ^ 32 ->
  let n := chunks_for CHUNK_SIZE size in
  exists heaps' r, allocate_in heaps size = Ret (heaps', r) /\
    match r with
    | Some ptr => exists i sh live h' s,
        heaps !! i = Some sh /\ lives !! i = Some live /\
        heaps' = <[i := with_heap sh h']> heaps /\ same_memory (sh_heap sh) h' /\
        ptr = h_chunks (sh_heap sh) + s * CHUNK_SIZE + 4 /\
        heap_ok CHUNK_SIZE h' ((s, n) :: live)
    | None => heaps' = heaps /\
        forall i sh live s, heaps !! i = Some sh -> lives !! i = Some live ->
          0 <= s -> s + n <= h_total_chunks (sh_heap sh) -> ~ free_run live s n
    end.
Proof using Hchunk HA.
  intros Hok Hsz Hov n. induction Hok as [|sh live heaps lives Hsh Hok IH]; cbn [allocate_in].
  { exists [], None. split; [done|]. split; [done|]. intros [|i]; done. }
  destruct (allocate_spec CHUNK_SIZE ALLOC Hchunk HA (sh_heap sh) live size Hsh Hsz Hov)
    as (h' & r & -> & Hr). run. destruct r as [ptr|].
  - destruct Hr as (s & Hp & _ & Hok' & _ & Hsame). do 2 eexists. split; [done|].
    by exists 0%nat, sh, live, h', s.
  - destruct Hr as [-> Hno]. assert (with_heap sh (sh_heap sh) = sh) as -> by (by destruct sh).
    destruct IH as (heaps' & r & -> & Hr). run. do 2 eexists. split; [done|].
    destruct r as [ptr|].
    + destruct Hr as (i & x & l & h' & s & Hi & Hl & -> & Hrest).
      exists (S i), x, l, h', s. split_and!; try done; apply Hrest.
    + destruct Hr as [-> Hr]. split; [done|]. intros [|i] x l s Hx Hl Hs Ht.
      * injection Hx as <-. injection Hl as <-. by apply Hno.
      * by apply (Hr i x l s).
Qed.

End expandable.

(** The chain of subheaps is kept in the order of their addresses. *)
Definition address_le (sh sh' : SubHeap) : Prop :=
  Heap_memory (sh_heap sh) <= Heap_memory (sh_heap sh').

Lemma insert_subheap_sorted sh subheaps :
  StronglySorted address_le subheaps ->
  StronglySorted address_le (insert_subheap sh subheaps) /\
  Permutation (insert_subheap sh subheaps) (sh :: subheaps).
Proof.
  unfold address_le. induction 1 as [|next rest Hs [IHs IHp] Hle]; cbn [insert_subheap].
  { split; [repeat constructor | done]. }
  destruct (Z.ltb_spec (Heap_memory (sh_heap sh)) (Heap_memory (sh_heap next))) as [Hlt|Hge].
  - split; [|done]. constructor; [by constructor|]. apply Forall_cons_iff. split; [lia|].
    rewrite Forall_forall in *. intros x Hx. specialize (Hle x Hx). lia.
  - split.
    + constructor; [done|]. rewrite IHp. apply Forall_cons_iff. split; [lia | done].
    + rewrite IHp. apply Permutation_swap.
Qed.

Lemma with_heaps_heaps e heaps : heaps <> [] -> e_heaps (with_heaps e heaps) = heaps.
Proof. by destruct heaps. Qed.

(** ** Properties *)

(** C34. When some heap of the chain has a long enough run of free chunks, [allocate]
    serves the request from the chain, without asking for memory: one heap gets the new
    block, all others are as they were. *)
Theorem ExpandableHeap_allocate_correct CHUNK_SIZE ALLOC add_memory e lives size i sh live s0 :
  8 <= CHUNK_SIZE -> in_type u8 ALLOC -> heaps_ok CHUNK_SIZE (e_heaps e) lives ->
  0 <= size -> size + 4 + CHUNK_SIZE - 1 < 2 ^ 32 ->
  let n := chunks_for CHUNK_SIZE size in
  e_heaps e !! i = Some sh -> lives !! i = Some live ->
  0 <= s0 -> s0 + n <= h_total_chunks (sh_heap sh) -> free_run live s0 n ->
  exists e' j sh' live' s h',
    ExpandableHeap_allocate CHUNK_SIZE ALLOC add_memory e size =
      Ret (e', Some (h_chunks (sh_heap sh') + s * CHUNK_SIZE + 4)) /\
    e_heaps e !! j = Some sh' /\ lives !! j = Some live' /\
    e_heaps e' = <[j := with_heap sh' h']> (e_heaps e) /\
    heaps_ok CHUNK_SIZE (e_heaps e') (<[j := (s, n) :: live']> lives).
Proof.
  intros HC HA Hok Hsz Hov n Hi Hl Hs0 Hroom Hrun. pose proof Hok as [Hheaps _].
  destruct (allocate_in_spec CHUNK_SIZE ALLOC HC HA _ _ _ Hheaps Hsz Hov)
    as (heaps' & r & Heq & Hr).
  destruct r as [ptr|]; [|by destruct Hr as [_ Hno]; destruct (Hno i sh live s0)].
  destruct Hr as (j & sh' & live' & h' & s & Hj & Hlj & -> & Hsame & -> & Hok').
  exists (with_heaps e (<[j := with_heap sh' h']> (e_heaps e))), j, sh', live', s, h'.
  assert (<[j := with_heap sh' h']> (e_heaps e) <> []) as Hne
    by (unfold e_heaps; by destruct j).
  rewrite with_heaps_heaps by done. split_and!; try done.
  - unfold ExpandableHeap_allocate, allocate_attempts. by rewrite Heq.
  - by apply heaps_ok_insert.
Qed.

Definition example_main : SubHeap := MkSubHeap (MkHeap 1 0 0x1000 (replicate 40 0)) 0x500 40.
Definition example_sub : SubHeap := MkSubHeap (MkHeap 8 0 0x2001c (replicate 264 0)) 0x20000 264.
Definition example_expandable : ExpandableHeap :=
  MkExpandableHeap example_main [example_sub] false.

Lemma cleared_heap_ok memory len :
  0 < memory -> memory + Z.of_nat len <= 2 ^ 32 - 4 ->
  heap_ok 32 (MkHeap (calculate_chunks 32 (Z.of_nat len)) 0 memory (replicate len 0)) [].
Proof.
  intros Hm Hend.
  destruct (Heap_new_spec 32 ltac:(lia) memory (replicate len 0)) as (h & Hh & Hok & _ & _).
  - by apply Forall_replicate.
  - done.
  - by rewrite length_replicate.
  - intros k _. unfold byte_at. destruct (replicate len 0 !! Z.to_nat k) eqn:E; [|done].
    by apply lookup_replicate in E as [-> _].
  - unfold Heap_new in Hh. rewrite length_replicate in Hh.
    destruct (VERIFY _); [|done]. run in Hh. by injection Hh as <-.
Qed.

Lemma example_expandable_ok : heaps_ok 32 (e_heaps example_expandable) [[]; []].
Proof.
  split.
  - constructor; [by apply (cleared_heap_ok 0x1000 40)|].
    constructor; [by apply (cleared_heap_ok 0x2001c 264) | constructor].
  - intros [|[|i]] [|[|j]] x y Hne Hx Hy; try done;
      injection Hx as <-; injection Hy as <-; unfold memory_apart; cbn; lia.
Qed.

Lemma ExpandableHeap_allocate_correct_witness :
  exists e' j sh' live' s h',
    ExpandableHeap_allocate 32 0xbb DefaultExpandHeap_add_memory example_expandable 100 =
      Ret (e', Some (h_chunks (sh_heap sh') + s * 32 + 4)) /\
    e_heaps example_expandable !! j = Some sh' /\ [[]; []] !! j = Some live' /\
    e_heaps e' = <[j := with_heap sh' h']> (e_heaps example_expandable) /\
    heaps_ok 32 (e_heaps e') (<[j := (s, chunks_for 32 100) :: live']> [[]; []]).
Proof.
  apply (ExpandableHeap_allocate_correct 32 0xbb DefaultExpandHeap_add_memory example_expandable
    [[]; []] 100 1 example_sub [] 0); try done.
  exact example_expandable_ok.
Defined.

(** [deallocate] of a live block finds the heap that owns it and frees the block
    there.  A subheap that became empty leaves the chain and its memory is offered back,
    unless the heap is being expanded; otherwise the chain stays. *)
Theorem ExpandableHeap_deallocate_correct CHUNK_SIZE FREE remove_memory e lives i sh live s n :
  8 <= CHUNK_SIZE -> in_type u8 FREE -> heaps_ok CHUNK_SIZE (e_heaps e) lives ->
  e_heaps e !! i = Some sh -> lives !! i = Some ((s, n) :: live) ->
  let ptr := h_chunks (sh_heap sh) + s * CHUNK_SIZE + 4 in
  exists h', heap_ok CHUNK_SIZE h' live /\
    keeps_others CHUNK_SIZE (sh_heap sh) (s, n) (h_mem (sh_heap sh)) (h_mem h') /\
    let heaps' := <[i := with_heap sh h']> (e_heaps e) in
    heaps_ok CHUNK_SIZE heaps' (<[i := live]> lives) /\
    if (h_allocated_chunks h' =? 0) && negb (Nat.eqb i 0) && negb (e_expanding e) then
      forall e', remove_memory (with_heaps e (delete i heaps')) (sh_addr sh) = Ret (true, e') ->
        ExpandableHeap_deallocate CHUNK_SIZE FREE remove_memory e ptr = Ret e'
    else
      ExpandableHeap_deallocate CHUNK_SIZE FREE remove_memory e ptr = Ret (with_heaps e heaps').
Proof.
  intros HC HF Hok Hi Hl ptr. pose proof Hok as [Hheaps _].
  pose proof (Forall2_lookup_lr _ _ _ _ _ _ Hheaps Hi Hl) as Hoki. cbv beta in Hoki.
  destruct (deallocate_spec CHUNK_SIZE FREE HC HF (sh_heap sh) live s n Hoki)
    as (h' & Heq & Hok' & Hk & Ht & Hc & Hlen).
  exists h'. cbv zeta. split_and!; try done; [by apply heaps_ok_insert|].
  assert (<[i := with_heap sh h']> (e_heaps e) <> []) as Hne by (unfold e_heaps; by destruct i).
  pose proof Hoki as [_ _ [Ha _] _ Hb _ _ _].
  apply Forall_cons_iff in Hb as [(H0 & _) _]. cbn in H0.
  unfold ExpandableHeap_deallocate. rewrite (proj2 (Z.eqb_neq ptr 0)) by (subst ptr; nia).
  subst ptr. rewrite (find_heap_owner CHUNK_SIZE HC _ _ i sh _ s n Hok Hi Hl)
    by (apply list_elem_of_here).
  rewrite Hi, Heq. run. cbv zeta. rewrite with_heaps_heaps by done.
  replace (e_expanding (with_heaps e (<[i:=with_heap sh h']> (e_heaps e))))
    with (e_expanding e) by (unfold e_heaps; by destruct i).
  unfold Heap_allocated_chunks.
  destruct (h_allocated_chunks h' =? 0), (Nat.eqb_spec i 0) as [->|Hi0], (e_expanding e) eqn:Eex;
    cbn [negb andb]; try done.
  intros e' Hrem.
  replace (with_heaps (with_heaps e (<[i:=with_heap sh h']> (e_heaps e)))
    (delete i (<[i:=with_heap sh h']> (e_heaps e))))
    with (with_heaps e (delete i (<[i:=with_heap sh h']> (e_heaps e))))
    by (unfold e_heaps; by destruct i).
  cbn [sh_addr with_heap]. rewrite Hrem. run. done.
Qed.

(** The subheap of the example after [allocate(252)], which takes all its chunks. *)
Definition example_sub1 : SubHeap :=
  MkSubHeap (MkHeap 8 8 0x2001c ([8; 0; 0; 0] ++ replicate 252 0xbb ++ [0xff] ++ replicate 7 0))
    0x20000 264.
Definition example_expandable1 : ExpandableHeap :=
  MkExpandableHeap example_main [example_sub1] false.

Lemma example_expandable1_ok : heaps_ok 32 (e_heaps example_expandable1) [[]; [(0, 8)]].
Proof.
  pose proof (heaps_ok_insert 32 (e_heaps example_expandable) [[]; []] 1 example_sub
    (sh_heap example_sub1) [(0, 8)] example_expandable_ok eq_refl) as H.
  apply H; [done|].
  destruct (allocate_spec 32 0xbb ltac:(lia) ltac:(by vm_compute) (sh_heap example_sub) [] 252)
    as (h' & r & Heq & Hr);
    [by apply (cleared_heap_ok 0x2001c 264) | lia | by vm_compute |].
  vm_compute in Heq. injection Heq as <- <-.
  destruct Hr as (s & Hp & _ & Hok & _). cbn in Hp.
  replace s with 0 in Hok by lia. exact Hok.
Qed.

Lemma ExpandableHeap_deallocate_correct_witness :
  exists h', heap_ok 32 h' [] /\
    keeps_others 32 (sh_heap example_sub1) (0, 8) (h_mem (sh_heap example_sub1)) (h_mem h') /\
    let heaps' := <[1%nat := with_heap example_sub1 h']> (e_heaps example_expandable1) in
    heaps_ok 32 heaps' (<[1%nat := []]> [[]; [(0, 8)]]) /\
    if (h_allocated_chunks h' =? 0) && negb (Nat.eqb 1 0) &&
       negb (e_expanding example_expandable1) then
      forall e', DefaultExpandHeap_remove_memory
          (with_heaps example_expandable1 (delete 1%nat heaps')) (sh_addr example_sub1) =
          Ret (true, e') ->
        ExpandableHeap_deallocate 32 0xaa DefaultExpandHeap_remove_memory example_expandable1
          (h_chunks (sh_heap example_sub1) + 0 * 32 + 4) = Ret e'
    else
      ExpandableHeap_deallocate 32 0xaa DefaultExpandHeap_remove_memory example_expandable1
        (h_chunks (sh_heap example_sub1) + 0 * 32 + 4) = Ret (with_heaps example_expandable1 heaps').
Proof.
  apply (ExpandableHeap_deallocate_correct 32 0xaa DefaultExpandHeap_remove_memory
    example_expandable1 [[]; [(0, 8)]] 1 example_sub1 [] 0 8); try done.
  exact example_expandable1_ok.
Defined.

(** A subheap whose removal is rejected does not come back clean: its size shrinks by
    the SubHeap object once more, and the bitmap of the new heap lies where the scrubbed
    chunks of the old one were.  All chunks count as free, and yet a request for two of
    them fails. *)
Theorem ExpandableHeap_rejected_removal_dirty :
  exists e', ExpandableHeap_deallocate 32 0xaa DefaultExpandHeap_remove_memory
      example_expandable1 (0x2001c + 4) = Ret e' /\
    ExpandableHeap_allocated_chunks e' = 0 /\ ExpandableHeap_free_chunks e' = 8 /\
    exists e'', ExpandableHeap_allocate 32 0xbb DefaultExpandHeap_add_memory e' 40
      = Ret (e'', None).
Proof. eexists; split; [by vm_compute|]. split_and!; [by vm_compute..|]. eexists. by vm_compute. Qed.
