(* ===== verification/Containers.v ===== *)
(** * AK/BinarySearch.h and the indexed operations of AK/Vector.h

    A [Vector] is the list of its elements; its storage always has room here, so the
    operations that may fail to allocate do not.  Indices are checked as in the source. *)

From S2P Require Import Prelude.

#[local] Open Scope Z_scope.

(** ** Vector *)

Section vector.
Context {T : Type}.

(** [at(i)], read and written through. *)
Definition Vector_at (v : list T) (i : Z) : outcome T :=
  VERIFY (i <? Z.of_nat (length v)) ;; load v i.
Definition Vector_at_put (v : list T) (i : Z) (x : T) : outcome (list T) :=
  VERIFY (i <? Z.of_nat (length v)) ;; store v i x.

Definition Vector_remove (v : list T) (index : Z) : outcome (list T) :=
  VERIFY (index <? Z.of_nat (length v)) ;;
  Ret (take (Z.to_nat index) v ++ drop (Z.to_nat index + 1) v).

Definition Vector_insert (v : list T) (index : Z) (value : T) : outcome (list T) :=
  VERIFY (index <=? Z.of_nat (length v)) ;;
  Ret (take (Z.to_nat index) v ++ value :: drop (Z.to_nat index) v).

(** The loop of [try_insert_before_matching]: the first index from [i] on whose element
    the callback accepts, with [n] elements left to look at. *)
Fixpoint first_matching (v : list T) (callback : T -> bool) (n : nat) (i : Z)
    : outcome (option Z) :=
  match n with
  | O => Ret None
  | S n =>
      x ← Vector_at v i;
      if callback x then Ret (Some i) else first_matching v callback n (i + 1)
  end.

(** The vector and the index at which the value was inserted. *)
Definition Vector_insert_before_matching (v : list T) (value : T) (callback : T -> bool)
    (first_index : Z) : outcome (list T * Z) :=
  i ← first_matching v callback (Z.to_nat (Z.of_nat (length v) - first_index)) first_index;
  match i with
  | Some i => v ← Vector_insert v i value; Ret (v, i)
  | None => Ret (v ++ [value], Z.of_nat (length v))
  end.

Lemma Vector_at_lookup v i x : 0 <= i -> v !! Z.to_nat i = Some x -> Vector_at v i = Ret x.
Proof.
  intros Hi Hx. pose proof (lookup_lt_Some _ _ _ Hx). unfold Vector_at, load.
  rewrite VERIFY_true by lia. run. by rewrite (proj2 (Z.leb_le 0 i)), Hx by lia.
Qed.

Lemma Vector_at_put_insert v i x :
  0 <= i < Z.of_nat (length v) -> Vector_at_put v i x = Ret (<[Z.to_nat i := x]> v).
Proof.
  intros Hi. unfold Vector_at_put, store. rewrite VERIFY_true by lia. run.
  rewrite (proj2 (Z.leb_le 0 i)), (proj2 (Z.ltb_lt i _)) by lia. done.
Qed.

Lemma Vector_remove_middle (a : list T) x b :
  Vector_remove (a ++ x :: b) (Z.of_nat (length a)) = Ret (a ++ b).
Proof.
  unfold Vector_remove. rewrite VERIFY_true by (rewrite length_app; cbn; lia). run. f_equal.
  rewrite Nat2Z.id, take_app_length, (cons_middle x), app_assoc. f_equal.
  rewrite drop_app_length'; [done|]. rewrite length_app. done.
Qed.

Lemma Vector_at_middle (a : list T) x b :
  Vector_at (a ++ x :: b) (Z.of_nat (length a)) = Ret x.
Proof. apply Vector_at_lookup; [lia|]. by rewrite Nat2Z.id, list_lookup_middle. Qed.
End vector.

(** ** Binary search *)

(** [DefaultComparator]. *)
Definition DefaultComparator (lhs rhs : Z) : Z :=
  if rhs <? lhs then 1 else if lhs <? rhs then -1 else 0.

Section binary_search.
Context {T N : Type} (haystack : list T) (needle : N) (comparator : N -> T -> Z).

(** The [while (low <= high)] loop: the index of the element found, if any, and what is
    stored to [nearby_index]. *)
Fixpoint binary_search_loop (fuel : nat) (low high : Z) : outcome (option Z * Z) :=
  if low <=? high then
    match fuel with
    | O => Stop NoFuel
    | S fuel =>
        let middle := low + (high - low) / 2 in
        x ← Vector_at haystack middle;
        let comparison := comparator needle x in
        if comparison <? 0 then
          if negb (middle =? 0) then binary_search_loop fuel low (middle - 1)
          else Ret (None, Z.min low high)
        else if 0 <? comparison then binary_search_loop fuel (middle + 1) high
        else Ret (Some middle, middle)
    end
  else Ret (None, Z.min low high).

(** Every round halves what is left, so a round per element is more than enough. *)
Definition binary_search : outcome (option Z * Z) :=
  let size := Z.of_nat (length haystack) in
  if size =? 0 then Ret (None, 0)
  else binary_search_loop (length haystack) 0 (size - 1).

(** The first [p] elements are below the needle, then come elements equal to it, and
    those from [q] on are above it. *)
Definition split_at (p q : Z) : Prop :=
  0 <= p <= q /\ q <= Z.of_nat (length haystack) /\
  forall i x, 0 <= i -> haystack !! Z.to_nat i = Some x ->
    (i < p -> 0 < comparator needle x) /\
    (p <= i < q -> comparator needle x = 0) /\
    (q <= i -> comparator needle x < 0).

Lemma binary_search_loop_spec p q fuel low high :
  split_at p q -> 0 <= low -> low <= high + 1 -> high < Z.of_nat (length haystack) ->
  0 <= high -> low <= p -> q <= high + 1 -> high - low < Z.of_nat fuel ->
  exists r nearby, binary_search_loop fuel low high = Ret (r, nearby) /\
    match r with
    | Some i => p <= i < q /\ nearby = i
    | None => p = q /\ nearby = Z.max 0 (p - 1)
    end.
Proof.
  intros (Hpq & Hq & Hs). revert low high.
  induction fuel as [|fuel IH]; intros low high H0 Hlh Hhl H1 Hp Hqh Hf; cbn [binary_search_loop];
    destruct (Z.leb_spec low high) as [Hle|Hgt]; try lia.
  1,3: exists None, (Z.min low high); split; [done|]; lia.
  set (mid := low + (high - low) / 2).
  assert (low <= mid <= high) as Hm by (subst mid; int_lia). clearbody mid. cbv zeta.
  destruct (lookup_lt_is_Some_2 haystack (Z.to_nat mid)) as [x Hx]; [lia|].
  rewrite (Vector_at_lookup _ _ x) by (done || lia). run.
  destruct (Hs mid x ltac:(lia) Hx) as (Hlt & Heq & Hgt).
  destruct (Z.ltb_spec (comparator needle x) 0) as [Hc|Hc].
  - assert (q <= mid) by lia. destruct (Z.eqb_spec mid 0) as [->|Hne]; cbn [negb].
    + exists None, (Z.min low high). split; [done|]. lia.
    + apply IH; lia.
  - destruct (Z.ltb_spec 0 (comparator needle x)) as [Hc'|Hc'].
    + assert (mid < p) by lia. apply IH; lia.
    + exists (Some mid), mid. split; [done|]. lia.
Qed.

Lemma binary_search_spec p q :
  split_at p q ->
  exists r nearby, binary_search = Ret (r, nearby) /\
    match r with
    | Some i => p <= i < q /\ nearby = i
    | None => p = q /\ nearby = Z.max 0 (p - 1)
    end.
Proof.
  intros Hs. pose proof Hs as (Hpq & Hq & _). unfold binary_search. cbv zeta.
  destruct (Z.eqb_spec (Z.of_nat (length haystack)) 0) as [H0|H0].
  { exists None, 0. split; [done|]. lia. }
  destruct (binary_search_loop_spec p q (length haystack) 0 (Z.of_nat (length haystack) - 1))
    as (r & nearby & Heq & Hr); [done | lia..|].
  by exists r, nearby.
Qed.
End binary_search.

(** On a sorted haystack (everything below the needle, then everything equal to it,
    then everything above it) [binary_search] ends, finds an equal element exactly when
    there is one, and otherwise gives as nearby index the last element below the needle,
    or 0. *)
Theorem binary_search_correct {T N} (haystack : list T) (needle : N) (comparator : N -> T -> Z) p q :
  split_at haystack needle comparator p q ->
  exists r nearby, binary_search haystack needle comparator = Ret (r, nearby) /\
    match r with
    | Some i => p <= i < q /\ nearby = i
    | None => p = q /\ nearby = Z.max 0 (p - 1)
    end.
Proof. apply binary_search_spec. Qed.

Lemma binary_search_correct_witness :
  exists r nearby, binary_search [2; 3; 5; 7; 11] 5 DefaultComparator = Ret (r, nearby) /\
    match r with
    | Some i => 2 <= i < 3 /\ nearby = i
    | None => 2 = 3 /\ nearby = Z.max 0 (2 - 1)
    end.
Proof.
  apply (binary_search_correct [2; 3; 5; 7; 11] 5 DefaultComparator 2 3).
  split_and!; [lia | lia | by vm_compute |]. intros i x Hi Hx.
  assert (i < 5) by (apply lookup_lt_Some in Hx; cbn in Hx; lia).
  assert (i = 0 \/ i = 1 \/ i = 2 \/ i = 3 \/ i = 4) as Hc by lia.
  destruct Hc as [->|[->|[->|[->| ->]]]]; cbn in Hx; injection Hx as <-; vm_compute;
    split_and!; (done || intros []; done).
Defined.
