(* ===== verification/RangeAllocator.v ===== *)
(** * Kernel/VM/Range and Kernel/VM/RangeAllocator: virtual address ranges

    A [VirtualAddress] is a [u32].  The allocator keeps the list of its available
    ranges, sorted by address and without two adjacent ones.  The spin lock is held
    during each operation, so the operations are modelled as atomic; the random
    numbers of [allocate_randomized] are a parameter. *)

From S2P Require Import Prelude Checked BitmapView Containers.

#[local] Open Scope Z_scope.

(** ** Kernel/VirtualAddress.h *)

Definition VirtualAddress_offset (a o : Z) : Z := wrap FlatPtr (a + o).
Definition VirtualAddress_is_null (a : Z) : bool := a =? 0.
Definition VirtualAddress_is_page_aligned (a : Z) : bool := Z.land a 0xfff =? 0.
Definition VirtualAddress_page_base (a : Z) : Z := Z.land a 0xfffff000.
Definition VirtualAddress_minus (a b : Z) : Z := wrap FlatPtr (a - b).

(** ** Range *)

Record Range : Type := MkRange { r_base : Z; r_size : Z }.

Definition Range_is_valid (r : Range) : bool := negb (VirtualAddress_is_null (r_base r)).
Definition Range_end (r : Range) : Z := VirtualAddress_offset (r_base r) (r_size r).
Definition Range_contains_address (r : Range) (vaddr : Z) : bool :=
  (r_base r <=? vaddr) && (vaddr <? Range_end r).
Definition Range_eq (r other : Range) : bool :=
  (r_base r =? r_base other) && (r_size r =? r_size other).
Definition Range_contains (r : Range) (base size : Z) : bool :=
  if VirtualAddress_offset base size <? base then false
  else (r_base r <=? base) && (VirtualAddress_offset base size <=? Range_end r).
Definition Range_contains_range (r other : Range) : bool :=
  Range_contains r (r_base other) (r_size other).

Definition Range_carve (r taken : Range) : outcome (list Range) :=
  VERIFY (r_size taken mod PAGE_SIZE =? 0) ;;
  if Range_eq taken r then Ret []
  else
    let parts := if r_base r <? r_base taken
                 then [MkRange (r_base r) (VirtualAddress_minus (r_base taken) (r_base r))]
                 else [] in
    let parts := if Range_end taken <? Range_end r
                 then parts ++ [MkRange (Range_end taken)
                                 (VirtualAddress_minus (Range_end r) (Range_end taken))]
                 else parts in
    Ret parts.

Definition Range_intersect (r other : Range) : outcome Range :=
  if Range_eq r other then Ret r
  else
    let new_base := Z.max (r_base r) (r_base other) in
    let new_end := Z.min (Range_end r) (Range_end other) in
    VERIFY (new_base <? new_end) ;;
    Ret (MkRange new_base (VirtualAddress_minus new_end new_base)).

(** AK/StdLibExtras.h. *)
Definition round_up_to_power_of_two (value power_of_two : Z) : Z :=
  wrap u32 (Z.land (wrap u32 (value - 1)) (wrap u32 (Z.lnot (wrap u32 (power_of_two - 1))))
            + power_of_two).

(** ** RangeAllocator *)

Record RangeAllocator : Type := MkRangeAllocator {
  m_available_ranges : list Range;
  m_total_range : Range
}.

Definition with_ranges (ra : RangeAllocator) (l : list Range) : RangeAllocator :=
  MkRangeAllocator l (m_total_range ra).

(** The allocator starts out without ranges; [initialize_with_range] appends. *)
Definition RangeAllocator_initialize_with_range (ra : RangeAllocator) (base size : Z)
    : RangeAllocator :=
  MkRangeAllocator (m_available_ranges ra ++ [MkRange base size]) (MkRange base size).

Definition RangeAllocator_initialize_from_parent (ra parent_allocator : RangeAllocator)
    : RangeAllocator :=
  MkRangeAllocator (m_available_ranges parent_allocator) (m_total_range parent_allocator).

Definition RangeAllocator_contains (ra : RangeAllocator) (range : Range) : bool :=
  Range_contains_range (m_total_range ra) range.

Definition RangeAllocator_carve_at_index (ra : RangeAllocator) (index : Z) (range : Range)
    : outcome RangeAllocator :=
  available ← Vector_at (m_available_ranges ra) index;
  remaining_parts ← Range_carve available range;
  VERIFY (1 <=? Z.of_nat (length remaining_parts)) ;;
  first ← Vector_at remaining_parts 0;
  VERIFY (Range_contains_range (m_total_range ra) first) ;;
  l ← Vector_at_put (m_available_ranges ra) index first;
  if Nat.eqb (length remaining_parts) 2 then
    second ← Vector_at remaining_parts 1;
    VERIFY (Range_contains_range (m_total_range ra) second) ;;
    l ← Vector_insert l (index + 1) second;
    Ret (with_ranges ra l)
  else Ret (with_ranges ra l).

(** Taking [allocated] out of the available range at index [i]: common to
    [allocate_anywhere] and [allocate_specific]. *)
Definition take_from (ra : RangeAllocator) (i : Z) (available allocated : Range)
    : outcome RangeAllocator :=
  if Range_eq available allocated then
    l ← Vector_remove (m_available_ranges ra) i; Ret (with_ranges ra l)
  else RangeAllocator_carve_at_index ra i allocated.

(** The loop of [allocate_anywhere]; [rest] are the ranges from index [i] on. *)
Fixpoint allocate_anywhere_loop (ra : RangeAllocator) (rest : list Range) (i : Z)
    (size alignment effective_size offset_from_effective_base : Z)
    : outcome (RangeAllocator * option Range) :=
  match rest with
  | [] => Ret (ra, None)
  | available_range :: rest =>
      if r_size available_range <? wrap size_t (effective_size + alignment) then
        allocate_anywhere_loop ra rest (i + 1) size alignment effective_size
          offset_from_effective_base
      else
        let initial_base :=
          VirtualAddress_offset (r_base available_range) offset_from_effective_base in
        let aligned_base := round_up_to_power_of_two initial_base alignment in
        let allocated_range := MkRange aligned_base size in
        VERIFY (Range_contains_range (m_total_range ra) allocated_range) ;;
        ra ← take_from ra i available_range allocated_range;
        Ret (ra, Some allocated_range)
  end.

(** VM_GUARD_PAGES is defined: a guard page on each side. *)
Definition RangeAllocator_allocate_anywhere (ra : RangeAllocator) (size alignment : Z)
    : outcome (RangeAllocator * option Range) :=
  if size =? 0 then Ret (ra, None)
  else
    VERIFY (size mod PAGE_SIZE =? 0) ;;
    VERIFY (alignment mod PAGE_SIZE =? 0) ;;
    if Checked_addition_would_overflow size_t size (PAGE_SIZE * 2) then Ret (ra, None)
    else
      let effective_size := wrap size_t (size + PAGE_SIZE * 2) in
      let offset_from_effective_base := PAGE_SIZE in
      if Checked_addition_would_overflow size_t effective_size alignment then Ret (ra, None)
      else
        allocate_anywhere_loop ra (m_available_ranges ra) 0 size alignment effective_size
          offset_from_effective_base.

Fixpoint allocate_specific_loop (ra : RangeAllocator) (rest : list Range) (i : Z)
    (allocated_range : Range) : outcome (RangeAllocator * option Range) :=
  match rest with
  | [] => Ret (ra, None)
  | available_range :: rest =>
      VERIFY (Range_contains_range (m_total_range ra) allocated_range) ;;
      if negb (Range_contains available_range (r_base allocated_range) (r_size allocated_range))
      then allocate_specific_loop ra rest (i + 1) allocated_range
      else
        ra ← take_from ra i available_range allocated_range;
        Ret (ra, Some allocated_range)
  end.

Definition RangeAllocator_allocate_specific (ra : RangeAllocator) (base size : Z)
    : outcome (RangeAllocator * option Range) :=
  if size =? 0 then Ret (ra, None)
  else
    VERIFY (VirtualAddress_is_page_aligned base) ;;
    VERIFY (size mod PAGE_SIZE =? 0) ;;
    allocate_specific_loop ra (m_available_ranges ra) 0 (MkRange base size).

Definition maximum_randomization_attempts : nat := 1000.

(** The loop of [allocate_randomized], with [n] attempts left; [random i] is the value
    of the [i]-th call of [get_fast_random]. *)
Fixpoint allocate_randomized_loop (random : nat -> Z) (ra : RangeAllocator) (n : nat) (i : nat)
    (size alignment : Z) : outcome (RangeAllocator * option Range) :=
  match n with
  | O => RangeAllocator_allocate_anywhere ra size alignment
  | S n =>
      let random_address := round_up_to_power_of_two (random i) alignment in
      if negb (Range_contains (m_total_range ra) random_address size)
      then allocate_randomized_loop random ra n (S i) size alignment
      else
        '(ra, range) ← RangeAllocator_allocate_specific ra random_address size;
        match range with
        | Some range => Ret (ra, Some range)
        | None => allocate_randomized_loop random ra n (S i) size alignment
        end
  end.

Definition RangeAllocator_allocate_randomized (random : nat -> Z) (ra : RangeAllocator)
    (size alignment : Z) : outcome (RangeAllocator * option Range) :=
  if size =? 0 then Ret (ra, None)
  else
    VERIFY (size mod PAGE_SIZE =? 0) ;;
    VERIFY (alignment mod PAGE_SIZE =? 0) ;;
    allocate_randomized_loop random ra maximum_randomization_attempts 0 size alignment.

(** The comparator of [deallocate]: the [u32] difference as an [int]. *)
Definition deallocate_comparator (a b : Range) : Z :=
  wrap i32 (wrap u32 (r_base a - Range_end b)).

Definition RangeAllocator_deallocate (ra : RangeAllocator) (range : Range)
    : outcome RangeAllocator :=
  VERIFY (Range_contains_range (m_total_range ra) range) ;;
  VERIFY (negb (r_size range =? 0)) ;;
  VERIFY (r_size range mod PAGE_SIZE =? 0) ;;
  VERIFY (r_base range <? Range_end range) ;;
  VERIFY (negb (Nat.eqb (length (m_available_ranges ra)) 0)) ;;
  '(existing_range, nearby_index) ←
    binary_search (m_available_ranges ra) range deallocate_comparator;
  '(l, inserted_index) ←
    (match existing_range with
     | Some i =>
         existing ← Vector_at (m_available_ranges ra) i;
         l ← Vector_at_put (m_available_ranges ra) i
               (MkRange (r_base existing) (wrap size_t (r_size existing + r_size range)));
         Ret (l, nearby_index)
     | None =>
         Vector_insert_before_matching (m_available_ranges ra) range
           (fun entry => Range_end range <=? r_base entry) nearby_index
     end);
  if inserted_index <? Z.of_nat (length l) - 1 then
    inserted_range ← Vector_at l inserted_index;
    next_range ← Vector_at l (inserted_index + 1);
    if Range_end inserted_range =? r_base next_range then
      l ← Vector_at_put l inserted_index
            (MkRange (r_base inserted_range) (wrap size_t (r_size inserted_range + r_size next_range)));
      l ← Vector_remove l (inserted_index + 1);
      Ret (with_ranges ra l)
    else Ret (with_ranges ra l)
  else Ret (with_ranges ra l).

(** ** The invariant *)

Definition rend (r : Range) : Z := r_base r + r_size r.
Definition in_addr (r : Range) (a : Z) : Prop := r_base r <= a < rend r.

(** The addresses the allocator may hand out. *)
Definition is_free (l : list Range) (a : Z) : Prop := exists r, r ∈ l /\ in_addr r a.

Definition page_range (r : Range) : Prop :=
  r_base r mod PAGE_SIZE = 0 /\ r_size r mod PAGE_SIZE = 0 /\ 0 < r_size r.

Definition range_ok (total r : Range) : Prop :=
  page_range r /\ r_base total <= r_base r /\ rend r <= rend total.

(** [r] ends before [r'] begins, with a gap. *)
Definition before (r r' : Range) : Prop := rend r < r_base r'.

Fixpoint ordered (l : list Range) : Prop :=
  match l with
  | [] => True
  | r :: l => Forall (before r) l /\ ordered l
  end.

Record ra_ok (ra : RangeAllocator) : Prop := RaOk {
  ra_total : 0 <= r_base (m_total_range ra) /\ rend (m_total_range ra) < 2 ^ 32;
  ra_ranges : Forall (range_ok (m_total_range ra)) (m_available_ranges ra);
  ra_ordered : ordered (m_available_ranges ra)
}.

Lemma ordered_app l1 l2 :
  ordered (l1 ++ l2) <->
  ordered l1 /\ ordered l2 /\ forall r r', r ∈ l1 -> r' ∈ l2 -> before r r'.
Proof.
  induction l1 as [|r l1 IH]; cbn [app ordered].
  { split; [intros H; split_and!; [done | done | by intros ? ? ?%elem_of_nil] | tauto]. }
  rewrite IH, Forall_app, !Forall_forall. split.
  - intros ((H1 & H2) & Ho1 & Ho2 & H12). split_and!; try done.
    intros x y [->|Hx]%elem_of_cons Hy; [by apply H2 | by apply H12].
  - intros ((H1 & Ho1) & Ho2 & H12). split_and!; try done.
    + intros y Hy. apply H12; [apply list_elem_of_here | done].
    + intros x y Hx Hy. apply H12; [by apply list_elem_of_further | done].
Qed.

Lemma ordered_middle l1 l2 ms :
  ordered (l1 ++ ms ++ l2) <->
  ordered l1 /\ ordered ms /\ ordered l2 /\
  (forall r m, r ∈ l1 -> m ∈ ms -> before r m) /\ (forall m r, m ∈ ms -> r ∈ l2 -> before m r) /\
  (forall r r', r ∈ l1 -> r' ∈ l2 -> before r r').
Proof.
  rewrite !ordered_app. setoid_rewrite elem_of_app. split.
  - intros (H1 & (H2 & H3 & H23) & H12). split_and!; auto.
  - intros (H1 & H2 & H3 & H12 & H23 & H13). split_and!; auto.
    intros r r' Hr [Hm|Hm]; auto.
Qed.


Lemma ordered_cases l r r' :
  ordered l -> r ∈ l -> r' ∈ l -> r = r' \/ before r r' \/ before r' r.
Proof.
  induction l as [|x l IH]; [by intros _ ?%elem_of_nil|]. intros [Hx Ho].
  rewrite Forall_forall in Hx. intros [->|Hr]%elem_of_cons [->|Hr']%elem_of_cons; auto.
Qed.

Lemma is_free_app l1 l2 a : is_free (l1 ++ l2) a <-> is_free l1 a \/ is_free l2 a.
Proof.
  unfold is_free. setoid_rewrite elem_of_app. split.
  - intros (r & [Hr|Hr] & Ha); eauto.
  - intros [(r & Hr & Ha) | (r & Hr & Ha)]; eauto.
Qed.

Lemma is_free_cons r l a : is_free (r :: l) a <-> in_addr r a \/ is_free l a.
Proof.
  unfold is_free. setoid_rewrite elem_of_cons. split.
  - intros (x & [->|Hx] & Ha); eauto.
  - intros [Ha | (x & Hx & Ha)]; eauto.
Qed.

Lemma is_free_nil a : is_free [] a <-> False.
Proof. split; [by intros (r & ?%elem_of_nil & _) | done]. Qed.

Lemma Range_end_exact r : 0 <= r_base r -> 0 <= r_size r -> rend r < 2 ^ 32 -> Range_end r = rend r.
Proof.
  intros. unfold Range_end, VirtualAddress_offset, rend, FlatPtr in *.
  apply (wrap_id u32 eq_refl). rewrite in_type_u32. lia.
Qed.

Lemma range_ok_end total r :
  0 <= r_base total -> rend total < 2 ^ 32 -> range_ok total r ->
  Range_end r = rend r /\ 0 <= r_base r /\ 0 < r_size r /\ rend r < 2 ^ 32.
Proof.
  intros H0 Ht ((_ & _ & Hs) & Hb & He). split; [apply Range_end_exact|]; unfold rend in *; lia.
Qed.

Lemma Range_contains_spec r base size :
  Range_end r = rend r -> rend r < 2 ^ 32 -> 0 <= r_base r ->
  0 <= base -> 0 <= size -> base + size < 2 ^ 32 ->
  Range_contains r base size = (r_base r <=? base) && (base + size <=? rend r).
Proof.
  intros He Hr Hb H0 Hs H1. unfold Range_contains, VirtualAddress_offset, FlatPtr.
  rewrite (wrap_id u32 eq_refl) by (rewrite in_type_u32; lia). rewrite He.
  by rewrite (proj2 (Z.ltb_ge _ _)) by lia.
Qed.

(** ** Taking a range out *)

(** What is left of [r] without [taken]. *)
Definition remainder (r taken : Range) : list Range :=
  (if r_base r <? r_base taken then [MkRange (r_base r) (r_base taken - r_base r)] else []) ++
  (if rend taken <? rend r then [MkRange (rend taken) (rend r - rend taken)] else []).

Lemma Range_carve_spec total r taken :
  0 <= r_base total -> rend total < 2 ^ 32 -> range_ok total r -> range_ok total taken ->
  r_base r <= r_base taken -> rend taken <= rend r ->
  Range_carve r taken = Ret (remainder r taken).
Proof.
  intros H0 Ht Hr Hk Hb He.
  destruct (range_ok_end _ _ H0 Ht Hr) as (Er & Br & Sr & Lr).
  destruct (range_ok_end _ _ H0 Ht Hk) as (Ek & Bk & Sk & Lk).
  destruct Hk as ((_ & Hm & _) & _). unfold Range_carve.
  rewrite VERIFY_true by (by apply Z.eqb_eq). run. cbv zeta. rewrite Er, Ek.
  unfold remainder, Range_eq, VirtualAddress_minus, FlatPtr.
  destruct (Z.eqb_spec (r_base taken) (r_base r)) as [E1|N1],
    (Z.eqb_spec (r_size taken) (r_size r)) as [E2|N2]; cbn [andb];
    unfold rend in *;
    destruct (Z.ltb_spec (r_base r) (r_base taken));
    destruct (Z.ltb_spec (r_base taken + r_size taken) (r_base r + r_size r)); try lia;
    rewrite ?(wrap_id u32 eq_refl) by (rewrite in_type_u32; lia); done.
Qed.

Lemma remainder_free r taken a :
  r_base r <= r_base taken -> rend taken <= rend r -> 0 < r_size taken ->
  is_free (remainder r taken) a <-> in_addr r a /\ ~ in_addr taken a.
Proof.
  intros Hb He Hs. unfold remainder. rewrite is_free_app.
  destruct (Z.ltb_spec (r_base r) (r_base taken)), (Z.ltb_spec (rend taken) (rend r));
    rewrite ?is_free_cons, ?is_free_nil; unfold in_addr, rend in *; cbn in *; lia.
Qed.

Lemma remainder_ok total r taken :
  range_ok total r -> page_range taken -> r_base r <= r_base taken -> rend taken <= rend r ->
  Forall (range_ok total) (remainder r taken) /\ ordered (remainder r taken) /\
  (forall m, m ∈ remainder r taken -> r_base r <= r_base m /\ rend m <= rend r).
Proof.
  intros ((Hbm & Hsm & Hs) & Hb & He) (Kb & Ks & K0) H1 H2. unfold PAGE_SIZE in *.
  unfold remainder, range_ok, page_range, rend, PAGE_SIZE in *.
  destruct (Z.ltb_spec (r_base r) (r_base taken));
    destruct (Z.ltb_spec (r_base taken + r_size taken) (r_base r + r_size r)); cbn;
    (split; [|split]).
  all: try (intros m; rewrite ?elem_of_cons, ?elem_of_nil;
            intros Hm; repeat destruct Hm as [->|Hm]; done || cbn; lia).
  all: unfold before, rend; rewrite ?Forall_cons_iff, ?Forall_nil_iff; cbn; int_lia.
Qed.

Lemma Vector_at_put_middle {T} (l1 l2 : list T) x y :
  Vector_at_put (l1 ++ x :: l2) (Z.of_nat (length l1)) y = Ret (l1 ++ y :: l2).
Proof.
  rewrite Vector_at_put_insert by (rewrite length_app; cbn [length]; lia). rewrite Nat2Z.id.
  f_equal. rewrite insert_app_r_alt by lia. by rewrite Nat.sub_diag.
Qed.

Lemma Vector_insert_middle {T} (l1 l2 : list T) x :
  Vector_insert (l1 ++ l2) (Z.of_nat (length l1)) x = Ret (l1 ++ x :: l2).
Proof.
  unfold Vector_insert. rewrite VERIFY_true by (rewrite length_app; lia). run.
  by rewrite Nat2Z.id, take_app_length, drop_app_length.
Qed.

Lemma range_ok_contained total r :
  0 <= r_base total -> rend total < 2 ^ 32 -> range_ok total r ->
  Range_contains_range total r = true.
Proof.
  intros H0 Ht Hr. destruct (range_ok_end _ _ H0 Ht Hr) as (_ & Br & Sr & Lr).
  destruct Hr as (_ & Hb & He). unfold Range_contains_range, rend in *.
  rewrite Range_contains_spec; unfold rend in *; try lia. apply Range_end_exact; unfold rend; lia.
Qed.

Lemma remainder_shape r taken :
  r_base r <> r_base taken \/ r_size r <> r_size taken ->
  r_base r <= r_base taken -> rend taken <= rend r ->
  exists x, remainder r taken = [x] \/ exists y, remainder r taken = [x; y].
Proof.
  intros Hne Hb He. unfold remainder, rend in *.
  destruct (Z.ltb_spec (r_base r) (r_base taken)),
    (Z.ltb_spec (r_base taken + r_size taken) (r_base r + r_size r)); cbn; eauto; lia.
Qed.

Lemma carve_at_index_spec ra l1 r l2 taken :
  ra_ok ra -> m_available_ranges ra = l1 ++ r :: l2 -> range_ok (m_total_range ra) taken ->
  r_base r <> r_base taken \/ r_size r <> r_size taken ->
  r_base r <= r_base taken -> rend taken <= rend r ->
  RangeAllocator_carve_at_index ra (Z.of_nat (length l1)) taken =
    Ret (with_ranges ra (l1 ++ remainder r taken ++ l2)).
Proof.
  intros [[H0 Ht] Hr _] Hl Hk Hne Hb He. rewrite Hl in Hr.
  apply Forall_app in Hr as [_ Hr]. apply Forall_cons_iff in Hr as [Hr _].
  unfold RangeAllocator_carve_at_index. rewrite Hl, Vector_at_middle. run.
  rewrite (Range_carve_spec (m_total_range ra)) by done. run.
  destruct (remainder_ok (m_total_range ra) r taken Hr (proj1 Hk) Hb He) as (Hrem & _ & _).
  pose proof (range_ok_contained (m_total_range ra)) as Hcont.
  destruct (remainder_shape r taken Hne Hb He) as (x & [Hx | [y Hx]]); rewrite Hx in *;
    apply Forall_cons_iff in Hrem as [Hox Hrem];
    rewrite VERIFY_true by (by cbn); run;
    rewrite (Vector_at_lookup _ 0 x) by done; run;
    rewrite VERIFY_true by (by apply Hcont); run;
    rewrite Vector_at_put_middle; run; cbn [length Nat.eqb]; [done|].
  apply Forall_cons_iff in Hrem as [Hoy _].
  rewrite (Vector_at_lookup _ 1 y) by done. run. rewrite VERIFY_true by (by apply Hcont). run.
  replace (l1 ++ x :: l2) with ((l1 ++ [x]) ++ l2) by (by rewrite <- app_assoc).
  replace (Z.of_nat (length l1) + 1) with (Z.of_nat (length (l1 ++ [x])))
    by (rewrite length_app; cbn [length]; lia).
  rewrite Vector_insert_middle. run. by rewrite <- app_assoc.
Qed.

(** Taking a part of the available range [r] out of the list. *)
Lemma take_from_spec ra l1 r l2 taken :
  ra_ok ra -> m_available_ranges ra = l1 ++ r :: l2 -> page_range taken ->
  r_base r <= r_base taken -> rend taken <= rend r ->
  take_from ra (Z.of_nat (length l1)) r taken =
    Ret (with_ranges ra (l1 ++ remainder r taken ++ l2)).
Proof.
  intros Hok Hl Hp Hb He. unfold take_from, Range_eq.
  assert (range_ok (m_total_range ra) taken) as Hk.
  { destruct Hok as [_ Hr _]. rewrite Hl in Hr.
    apply Forall_app in Hr as [_ Hr]. apply Forall_cons_iff in Hr as [(_ & ? & ?) _].
    split; [done | lia]. }
  destruct (Z.eqb_spec (r_base r) (r_base taken)) as [E1|N1],
    (Z.eqb_spec (r_size r) (r_size taken)) as [E2|N2]; cbn [andb];
    try by apply carve_at_index_spec; auto.
  rewrite Hl, Vector_remove_middle. run. do 2 f_equal. f_equal.
  unfold remainder, rend. by rewrite E1, E2, !Z.ltb_irrefl.
Qed.

(** The list stays in order and loses exactly the addresses taken. *)
Lemma take_from_ok ra l1 r l2 taken :
  ra_ok ra -> m_available_ranges ra = l1 ++ r :: l2 -> page_range taken ->
  r_base r <= r_base taken -> rend taken <= rend r ->
  let ra' := with_ranges ra (l1 ++ remainder r taken ++ l2) in
  ra_ok ra' /\
  forall a, is_free (m_available_ranges ra') a <-> is_free (m_available_ranges ra) a /\ ~ in_addr taken a.
Proof.
  intros [[H0 Ht] Hr Ho] Hl Hp Hb He. rewrite Hl in *. cbn.
  change (l1 ++ r :: l2) with (l1 ++ [r] ++ l2) in Ho.
  apply ordered_middle in Ho as (Ho1 & _ & Ho2 & H1r & Hr2 & H12).
  apply Forall_app in Hr as [Hr1 Hr]. apply Forall_cons_iff in Hr as [Hr Hr2'].
  destruct (remainder_ok (m_total_range ra) r taken Hr Hp Hb He) as (Hrem & Horem & Hin).
  assert (r ∈ [r]) as Hrr by (apply list_elem_of_here).
  assert (forall x, x ∈ l1 -> rend x < r_base r) as Hl1 by (intros x Hx; by apply (H1r x r)).
  assert (forall x, x ∈ l2 -> rend r < r_base x) as Hl2 by (intros x Hx; by apply (Hr2 r x)).
  split; [split; cbn|].
  - done.
  - rewrite !Forall_app. by split_and!.
  - apply ordered_middle. split_and!; try done.
    + intros x m Hx Hm. specialize (Hl1 x Hx). specialize (Hin m Hm). unfold before. lia.
    + intros m x Hm Hx. specialize (Hl2 x Hx). specialize (Hin m Hm). unfold before. lia.
  - intros a. destruct Hp as (_ & _ & Hps).
    rewrite !is_free_app, is_free_cons, remainder_free by done.
    assert (forall x, x ∈ l1 \/ x ∈ l2 -> in_addr x a -> ~ in_addr taken a) as Hdis.
    { unfold in_addr. intros x [Hx|Hx] Ha Hta.
      - specialize (Hl1 x Hx). lia.
      - specialize (Hl2 x Hx). lia. }
    assert (is_free l1 a -> ~ in_addr taken a) by (intros (x & Hx & Ha); eauto).
    assert (is_free l2 a -> ~ in_addr taken a) by (intros (x & Hx & Ha); eauto).
    tauto.
Qed.

(** ** Alignment *)

Lemma land_page_mask a : Z.land a 0xfff = a mod PAGE_SIZE.
Proof. change 0xfff with (Z.ones 12). by rewrite Z.land_ones by lia. Qed.

(** For a power of two this is the next multiple. *)
Lemma round_up_spec value k :
  0 <= k < 32 -> 1 <= value -> value - 1 + 2 ^ k < 2 ^ 32 ->
  round_up_to_power_of_two value (2 ^ k) = 2 ^ k * ((value - 1) / 2 ^ k + 1).
Proof.
  intros Hk Hv Hlt. unfold round_up_to_power_of_two.
  assert (0 < 2 ^ k) as Hp by (apply Z.pow_pos_nonneg; lia).
  rewrite (wrap_id u32 eq_refl (value - 1)), (wrap_id u32 eq_refl (2 ^ k - 1))
    by (rewrite in_type_u32; lia).
  assert (Z.land (value - 1) (wrap u32 (Z.lnot (2 ^ k - 1))) = 2 ^ k * ((value - 1) / 2 ^ k)) as ->.
  { replace (2 ^ k - 1) with (Z.ones k) by (rewrite Z.ones_equiv; lia).
    transitivity (Z.ldiff (value - 1) (Z.ones k)).
    - apply Z.bits_inj'. intros i Hi. rewrite Z.land_spec, Z.ldiff_spec. unfold wrap; simpl.
      destruct (decide (i < 32)).
      + by rewrite (Z.mod_pow2_bits_low _ 32), Z.lnot_spec by lia.
      + rewrite <- (wrap_id u32 eq_refl (value - 1)) by (rewrite in_type_u32; lia).
        unfold wrap; simpl. by rewrite (Z.mod_pow2_bits_high _ 32) by lia.
    - rewrite Z.ldiff_ones_r, Z.shiftl_mul_pow2, Z.shiftr_div_pow2 by lia. lia. }
  pose proof (Z.mul_div_le (value - 1) (2 ^ k) Hp). pose proof (Z.div_pos (value - 1) (2 ^ k)).
  rewrite (wrap_id u32 eq_refl) by (rewrite in_type_u32; nia). lia.
Qed.

(** ** Allocation *)

(** What an allocation of [r] does to the allocator. *)
Definition allocated (ra ra' : RangeAllocator) (r : Range) : Prop :=
  ra_ok ra' /\ m_total_range ra' = m_total_range ra /\
  (forall a, in_addr r a -> is_free (m_available_ranges ra) a) /\
  (forall a, is_free (m_available_ranges ra') a <->
     is_free (m_available_ranges ra) a /\ ~ in_addr r a).

Lemma take_from_allocated ra l1 r l2 taken :
  ra_ok ra -> m_available_ranges ra = l1 ++ r :: l2 -> page_range taken ->
  r_base r <= r_base taken -> rend taken <= rend r ->
  exists ra', take_from ra (Z.of_nat (length l1)) r taken = Ret ra' /\ allocated ra ra' taken.
Proof.
  intros Hok Hl Hp Hb He. eexists. split; [by apply take_from_spec|].
  destruct (take_from_ok ra l1 r l2 taken Hok Hl Hp Hb He) as [Hok' Hfree].
  split_and!; try done. intros a Ha. exists r. rewrite Hl. split.
  - rewrite elem_of_app, elem_of_cons. auto.
  - unfold in_addr in *. lia.
Qed.

Lemma allocate_anywhere_loop_spec ra l1 rest size k :
  ra_ok ra -> m_available_ranges ra = l1 ++ rest ->
  0 < size -> size mod PAGE_SIZE = 0 -> 12 <= k < 32 -> size + 2 * PAGE_SIZE + 2 ^ k < 2 ^ 32 ->
  exists ra' r,
    allocate_anywhere_loop ra rest (Z.of_nat (length l1)) size (2 ^ k) (size + 2 * PAGE_SIZE)
      PAGE_SIZE = Ret (ra', r) /\
    match r with
    | Some r => allocated ra ra' r /\ r_size r = size /\ r_base r mod 2 ^ k = 0 /\
        forall a, r_base r - PAGE_SIZE <= a < rend r + PAGE_SIZE -> is_free (m_available_ranges ra) a
    | None => ra' = ra /\ Forall (fun r => r_size r < size + 2 * PAGE_SIZE + 2 ^ k) rest
    end.
Proof.
  intros Hok Hl Hsz Hm Hk Hov. pose proof Hok as [[H0 Ht] Hr _].
  assert (2 ^ 12 <= 2 ^ k) as Hpk by (apply Z.pow_le_mono_r; lia).
  revert l1 Hl. induction rest as [|r rest IH]; intros l1 Hl; cbn [allocate_anywhere_loop].
  { exists ra, None. split_and!; [done..| by apply Forall_nil_2]. }
  unfold size_t. rewrite (wrap_id u32 eq_refl (size + 2 * PAGE_SIZE + 2 ^ k))
    by (rewrite in_type_u32; unfold PAGE_SIZE in *; lia).
  destruct (Z.ltb_spec (r_size r) (size + 2 * PAGE_SIZE + 2 ^ k)) as [Hsmall|Hbig].
  { replace (Z.of_nat (length l1) + 1) with (Z.of_nat (length (l1 ++ [r])))
      by (rewrite length_app; cbn [length]; lia).
    destruct (IH (l1 ++ [r])) as (ra' & x & Heq & Hx); [by rewrite <- app_assoc|].
    exists ra', x. split; [done|]. destruct x; [done|]. destruct Hx as [-> Hx].
    split; [done|]. by apply Forall_cons_iff. }
  rewrite Hl in Hr. apply Forall_app in Hr as [_ Hr]. apply Forall_cons_iff in Hr as [Hr _].
  destruct (range_ok_end _ _ H0 Ht Hr) as (_ & Br & Sr & Lr).
  unfold VirtualAddress_offset, FlatPtr. unfold rend, PAGE_SIZE in *.
  rewrite (wrap_id u32 eq_refl (r_base r + 4096)) by (rewrite in_type_u32; lia).
  rewrite round_up_spec by lia. cbv zeta.
  set (base := 2 ^ k * ((r_base r + 4096 - 1) / 2 ^ k + 1)).
  assert (r_base r + 4096 <= base /\ base < r_base r + 4096 + 2 ^ k) as Hbase.
  { pose proof (Z.div_mod (r_base r + 4096 - 1) (2 ^ k)).
    pose proof (Z.mod_pos_bound (r_base r + 4096 - 1) (2 ^ k)). subst base. lia. }
  assert (base mod 4096 = 0) as Hpage.
  { subst base. replace k with (k - 12 + 12) by lia. rewrite Z.pow_add_r by lia.
    change (2 ^ 12) with 4096. rewrite (Z.mul_comm _ 4096), <- Z.mul_assoc, Z.mul_comm.
    apply Z.mod_mul. lia. }
  assert (page_range (MkRange base size)) as Hp by (by split_and!).
  assert (base mod 2 ^ k = 0) as Hal by (subst base; rewrite Z.mul_comm; apply Z.mod_mul; lia).
  clearbody base.
  destruct (take_from_allocated ra l1 r rest (MkRange base size)) as (ra' & Htake & Hall);
    [done | done | done | cbn; lia | unfold rend; cbn; lia |].
  rewrite VERIFY_true by (destruct Hr as (_ & R1 & R2); apply range_ok_contained; try done;
    split; [done|]; unfold rend in *; cbn; lia).
  run. rewrite Htake. run. exists ra', (Some (MkRange base size)). split; [done|].
  split_and!; try done. intros a Ha. exists r. rewrite Hl. split.
  - rewrite elem_of_app, elem_of_cons. auto.
  - unfold in_addr, rend. cbn in Ha. lia.
Qed.

Lemma allocate_anywhere_spec ra size k :
  ra_ok ra -> 0 < size < 2 ^ 32 -> size mod PAGE_SIZE = 0 -> 12 <= k < 32 ->
  exists ra' r, RangeAllocator_allocate_anywhere ra size (2 ^ k) = Ret (ra', r) /\
    match r with
    | Some r => allocated ra ra' r /\ r_size r = size /\ r_base r mod 2 ^ k = 0 /\
        forall a, r_base r - PAGE_SIZE <= a < rend r + PAGE_SIZE -> is_free (m_available_ranges ra) a
    | None => ra' = ra /\
        Forall (fun r => r_size r < size + 2 * PAGE_SIZE + 2 ^ k) (m_available_ranges ra)
    end.
Proof.
  intros Hok Hsz Hm Hk. pose proof Hok as [[H0 Ht] Hr _].
  unfold RangeAllocator_allocate_anywhere. rewrite (proj2 (Z.eqb_neq size 0)) by lia.
  rewrite (VERIFY_true (size mod PAGE_SIZE =? 0)) by (by apply Z.eqb_eq). run.
  assert (2 ^ k mod PAGE_SIZE = 0) as Hal.
  { replace k with (k - 12 + 12) by lia. rewrite Z.pow_add_r by lia. by apply Z.mod_mul. }
  rewrite VERIFY_true by (by apply Z.eqb_eq). run. unfold Checked_addition_would_overflow, size_t.
  assert (0 < 2 ^ k) as Hpk by (apply Z.pow_pos_nonneg; lia).
  assert (forall x, 2 ^ 32 <= x -> Forall (fun r => r_size r < x) (m_available_ranges ra)) as Hbig.
  { intros x Hx. eapply Forall_impl; [exact Hr|]. intros r Hrr.
    destruct (range_ok_end _ _ H0 Ht Hrr) as (_ & ? & ? & ?). unfold rend in *. lia. }
  rewrite !in_typeb_u32. unfold PAGE_SIZE in *.
  destruct (negb (_ && _)) eqn:E1.
  { exists ra, None. split_and!; [done..|]. apply Hbig. lia. }
  cbv zeta. rewrite (wrap_id u32 eq_refl (size + 4096 * 2)) by (rewrite in_type_u32; lia).
  destruct (negb ((0 <=? _) && (size + 4096 * 2 + 2 ^ k <=? _))) eqn:E2.
  { exists ra, None. split_and!; [done..|]. apply Hbig. lia. }
  replace (size + 4096 * 2) with (size + 2 * PAGE_SIZE) by (unfold PAGE_SIZE; lia).
  apply (allocate_anywhere_loop_spec ra [] (m_available_ranges ra)); unfold PAGE_SIZE;
    (done || lia).
Qed.

Lemma allocate_specific_loop_spec ra l1 rest taken :
  ra_ok ra -> m_available_ranges ra = l1 ++ rest -> range_ok (m_total_range ra) taken ->
  exists ra' r,
    allocate_specific_loop ra rest (Z.of_nat (length l1)) taken = Ret (ra', r) /\
    match r with
    | Some r => r = taken /\ allocated ra ra' r
    | None => ra' = ra /\
        Forall (fun r => ~ (r_base r <= r_base taken /\ rend taken <= rend r)) rest
    end.
Proof.
  intros Hok Hl Hk. pose proof Hok as [[H0 Ht] Hr _].
  destruct (range_ok_end _ _ H0 Ht Hk) as (_ & Bk & Sk & Lk).
  revert l1 Hl. induction rest as [|r rest IH]; intros l1 Hl; cbn [allocate_specific_loop].
  { exists ra, None. split_and!; [done..| by apply Forall_nil_2]. }
  rewrite VERIFY_true by (by apply range_ok_contained). run.
  rewrite Hl in Hr. apply Forall_app in Hr as [_ Hr]. apply Forall_cons_iff in Hr as [Hr _].
  destruct (range_ok_end _ _ H0 Ht Hr) as (Er & Br & Sr & Lr).
  rewrite Range_contains_spec by (done || unfold rend in *; lia).
  fold (rend taken). destruct (negb (_ && _)) eqn:E.
  - replace (Z.of_nat (length l1) + 1) with (Z.of_nat (length (l1 ++ [r])))
      by (rewrite length_app; cbn [length]; lia).
    destruct (IH (l1 ++ [r])) as (ra' & x & Heq & Hx); [by rewrite <- app_assoc|].
    exists ra', x. split; [done|]. destruct x; [done|]. destruct Hx as [-> Hx].
    split; [done|]. apply Forall_cons_iff. split; [lia | done].
  - destruct (take_from_allocated ra l1 r rest taken) as (ra' & -> & Hall);
      [done | done | apply Hk | lia | lia |].
    run. by exists ra', (Some taken).
Qed.

(** Free addresses that follow each other lie in one available range. *)
Lemma free_run_in_one ra b e :
  ra_ok ra -> b < e -> (forall a, b <= a < e -> is_free (m_available_ranges ra) a) ->
  exists r, r ∈ m_available_ranges ra /\ r_base r <= b /\ e <= rend r.
Proof.
  intros [_ Hr Ho] Hbe Hall. destruct (Hall b) as (r & Hin & Hb); [lia|].
  exists r. split; [done|]. unfold in_addr in Hb. split; [lia|].
  destruct (decide (e <= rend r)) as [|Hlt]; [done|].
  destruct (Hall (rend r)) as (r' & Hin' & Hb'); [lia|]. unfold in_addr in Hb'.
  exfalso. rewrite Forall_forall in Hr. destruct (Hr r' Hin') as ((_ & _ & Hs') & _).
  destruct (ordered_cases _ _ _ Ho Hin Hin') as [<-|[H|H]]; unfold before in *; lia.
Qed.

Lemma allocate_specific_spec ra base size :
  ra_ok ra -> range_ok (m_total_range ra) (MkRange base size) ->
  exists ra' r, RangeAllocator_allocate_specific ra base size = Ret (ra', r) /\
    match r with
    | Some r => r = MkRange base size /\ allocated ra ra' r
    | None => ra' = ra /\
        ~ forall a, in_addr (MkRange base size) a -> is_free (m_available_ranges ra) a
    end.
Proof.
  intros Hok Hk. pose proof Hok as [[H0 Ht] _ _]. pose proof Hk as ((Hb & Hs & Hs0) & _).
  cbn in Hb, Hs, Hs0. unfold RangeAllocator_allocate_specific.
  rewrite (proj2 (Z.eqb_neq size 0)) by lia.
  rewrite (VERIFY_true (VirtualAddress_is_page_aligned base)).
  2:{ unfold VirtualAddress_is_page_aligned. rewrite land_page_mask. by apply Z.eqb_eq. }
  run. rewrite VERIFY_true by (by apply Z.eqb_eq). run.
  destruct (allocate_specific_loop_spec ra [] (m_available_ranges ra) (MkRange base size))
    as (ra' & r & Heq & Hr); [done..|]. change (Z.of_nat (length [])) with 0 in Heq. rewrite Heq.
  exists ra', r. split; [done|]. destruct r; [done|]. destruct Hr as [-> Hr]. split; [done|].
  intros Hall. destruct (free_run_in_one ra base (base + size)) as (r & Hin & H1 & H2);
    [done | lia | exact Hall |].
  rewrite Forall_forall in Hr. by apply (Hr r Hin).
Qed.

Lemma allocate_randomized_spec random ra size k :
  ra_ok ra -> 0 <= r_size (m_total_range ra) -> 0 < size < 2 ^ 32 -> size mod PAGE_SIZE = 0 -> 12 <= k < 32 ->
  (forall i, 1 <= random i /\ random i - 1 + 2 ^ k < 2 ^ 32) ->
  exists ra' r, RangeAllocator_allocate_randomized random ra size (2 ^ k) = Ret (ra', r) /\
    match r with
    | Some r => allocated ra ra' r /\ r_size r = size /\ r_base r mod 2 ^ k = 0
    | None => ra' = ra
    end.
Proof.
  intros Hok Htot Hsz Hm Hk Hrand. unfold RangeAllocator_allocate_randomized.
  rewrite (proj2 (Z.eqb_neq size 0)) by lia.
  assert (0 < 2 ^ k) as Hpk by (apply Z.pow_pos_nonneg; lia).
  assert (forall x, (2 ^ k * x) mod PAGE_SIZE = 0) as Hal.
  { intros x. replace k with (k - 12 + 12) by lia. rewrite Z.pow_add_r by lia.
    change (2 ^ 12) with PAGE_SIZE. rewrite (Z.mul_comm _ PAGE_SIZE), <- Z.mul_assoc, Z.mul_comm.
    by apply Z.mod_mul. }
  rewrite (VERIFY_true (size mod PAGE_SIZE =? 0)) by (by apply Z.eqb_eq). run.
  rewrite VERIFY_true by (apply Z.eqb_eq; rewrite <- (Z.mul_1_r (2 ^ k)); apply Hal). run.
  generalize maximum_randomization_attempts, 0%nat.
  intros n. induction n as [|n IH]; intros i; cbn [allocate_randomized_loop].
  { destruct (allocate_anywhere_spec ra size k) as (ra' & r & -> & Hr); [done..|].
    exists ra', r. split; [done|]. destruct r; [tauto | by destruct Hr]. }
  destruct (Hrand i) as [Hr1 Hr2]. rewrite round_up_spec by lia. cbv zeta.
  set (base := 2 ^ k * ((random i - 1) / 2 ^ k + 1)).
  destruct (negb (Range_contains _ _ _)) eqn:E; [apply IH|].
  apply negb_false_iff in E. unfold Range_contains in E.
  destruct (_ <? base) eqn:E1 in E; [done|].
  assert (0 <= base < 2 ^ 32) as Hb.
  { pose proof (Z.mul_div_le (random i - 1) (2 ^ k) Hpk).
    pose proof (Z.div_pos (random i - 1) (2 ^ k)). subst base. nia. }
  pose proof Hok as [[H0 Ht] _ _].
  rewrite (Range_end_exact (m_total_range ra)) in E by lia.
  unfold VirtualAddress_offset, FlatPtr in *. rewrite wrap_u32 in *.
  assert (range_ok (m_total_range ra) (MkRange base size)) as Hok'.
  { split; [split_and!; cbn; [apply Hal | done | lia] |]. unfold rend in *. cbn. int_lia. }
  destruct (allocate_specific_spec ra base size Hok Hok') as (ra' & r & -> & Hr). run.
  destruct r as [r|]; [|destruct Hr as [-> _]; apply IH].
  destruct Hr as [-> Hall]. exists ra', (Some (MkRange base size)). split_and!; try done.
  cbn. subst base. rewrite Z.mul_comm. apply Z.mod_mul. lia.
Qed.

(** ** Deallocation *)

(** A range none of whose addresses is free has its place between two ranges. *)
Lemma split_around l r :
  ordered l -> Forall (fun x => 0 < r_size x) l -> 0 < r_size r ->
  (forall a, in_addr r a -> ~ is_free l a) ->
  exists l1 l2, l = l1 ++ l2 /\ Forall (fun x => rend x <= r_base r) l1 /\
    Forall (fun x => rend r <= r_base x) l2.
Proof.
  intros Ho Hs Hr Hno. induction l as [|x l IH].
  { exists [], []. split_and!; [done | apply Forall_nil_2..]. }
  destruct Ho as [Hx Ho]. apply Forall_cons_iff in Hs as [Hsx Hs].
  assert (rend x <= r_base r \/ rend r <= r_base x) as [Hle|Hge].
  { destruct (decide (rend x <= r_base r)); [auto|]. right.
    destruct (decide (rend r <= r_base x)); [done|]. exfalso.
    apply (Hno (Z.max (r_base x) (r_base r))); [unfold in_addr, rend in *; lia|].
    apply is_free_cons. left. unfold in_addr, rend in *. lia. }
  - destruct IH as (l1 & l2 & -> & H1 & H2); [done..| |].
    { intros a Ha Hf. apply (Hno a Ha). apply is_free_cons. auto. }
    exists (x :: l1), l2. split_and!; [done | by apply Forall_cons_iff | done].
  - exists [], (x :: l). split_and!; [done | apply Forall_nil_2|].
    apply Forall_cons_iff. split; [done|]. eapply Forall_impl; [exact Hx|].
    intros y Hy. unfold before in Hy. unfold rend in *. lia.
Qed.

Lemma deallocate_comparator_exact total a b :
  0 <= r_base total -> rend total < 2 ^ 32 -> r_size total < 2 ^ 31 ->
  range_ok total a -> range_ok total b ->
  deallocate_comparator a b = r_base a - rend b.
Proof.
  intros H0 Ht Hs Ha Hb. destruct (range_ok_end _ _ H0 Ht Hb) as (Eb & Bb & Sb & Lb).
  destruct (range_ok_end _ _ H0 Ht Ha) as (_ & Ba & Sa & La).
  destruct Ha as (_ & A1 & A2). destruct Hb as (_ & B1 & B2).
  unfold deallocate_comparator. rewrite Eb. rewrite wrap_u32, wrap_i32. unfold rend in *. int_lia.
Qed.

(** The search finds the range the new one follows on, if there is one, and otherwise a
    place to look for the position from. *)
Lemma dealloc_search total l1 l2 r :
  0 <= r_base total -> rend total < 2 ^ 32 -> r_size total < 2 ^ 31 ->
  Forall (range_ok total) (l1 ++ l2) -> ordered (l1 ++ l2) -> range_ok total r ->
  Forall (fun x => rend x <= r_base r) l1 -> Forall (fun x => rend r <= r_base x) l2 ->
  exists found nearby,
    binary_search (l1 ++ l2) r deallocate_comparator = Ret (found, nearby) /\
    match found with
    | Some i => nearby = i /\ exists l0 x, l1 = l0 ++ [x] /\ i = Z.of_nat (length l0) /\
        rend x = r_base r
    | None => Forall (fun x => rend x < r_base r) l1 /\
        nearby = Z.max 0 (Z.of_nat (length l1) - 1)
    end.
Proof.
  intros H0 Ht Hs Hl Ho Hr H1 H2. set (n := Z.of_nat (length l1)).
  pose proof Hl as Hl'. rewrite Forall_forall in Hl, H1, H2.
  assert (forall i x, (l1 ++ l2) !! i = Some x ->
    deallocate_comparator r x = r_base r - rend x /\ 0 < r_size x) as Hcmp.
  { intros i x Hx. apply list_elem_of_lookup_2 in Hx. specialize (Hl x Hx).
    split; [by apply (deallocate_comparator_exact total)|]. by destruct Hl as ((_ & _ & ?) & _). }
  pose proof Hr as ((_ & _ & Hsr) & _).
  assert ((exists l0 x, l1 = l0 ++ [x] /\ rend x = r_base r) \/
          Forall (fun x => rend x < r_base r) l1) as [(l0 & x & -> & Hx)|Hlt].
  { destruct (decide (l1 = [])) as [->|Hne]; [right; apply Forall_nil_2|].
    destruct (exists_last Hne) as (l0 & x & ->).
    destruct (decide (rend x = r_base r)); [left; eauto|]. right.
    apply ordered_app in Ho as (Ho & _ & _). apply ordered_app in Ho as (_ & _ & Ho).
    rewrite Forall_forall. intros y Hy.
    assert (rend y <= r_base r) by auto.
    apply elem_of_app in Hy as [Hy|Hy].
    - assert (before y x) as Hb by (apply Ho; [done | apply list_elem_of_here]).
      assert (rend x <= r_base r) by (apply H1; rewrite elem_of_app; right; apply list_elem_of_here).
      assert (0 < r_size x).
      { destruct (Hcmp (length l0) x); [|done]. rewrite <- app_assoc. by apply list_lookup_middle. }
      unfold before, rend in *. lia.
    - apply elem_of_cons in Hy as [->|Hy]; [lia | by apply elem_of_nil in Hy]. }
  - assert (forall y, y ∈ l0 -> rend y < r_base r) as Hl0.
    { intros y Hy. apply ordered_app in Ho as (Ho & _ & _). apply ordered_app in Ho as (_ & _ & Ho).
      assert (before y x) as Hb by (apply Ho; [done | apply list_elem_of_here]).
      destruct (Hcmp (length l0) x) as [_ Hsx];
        [rewrite <- app_assoc; by apply list_lookup_middle|].
      unfold before, rend in *. lia. }
    destruct (binary_search_spec ((l0 ++ [x]) ++ l2) r deallocate_comparator
      (Z.of_nat (length l0)) (Z.of_nat (length l0) + 1)) as (found & nearby & Heq & Hf).
    { split_and!; [lia | lia | rewrite !length_app; cbn [length]; lia |].
      intros i y Hi Hy. destruct (Hcmp _ _ Hy) as [-> Hsy].
      rewrite <- app_assoc in Hy. cbn [app] in Hy. split_and!; intros Hi'.
      - rewrite lookup_app_l in Hy by lia. apply list_elem_of_lookup_2, Hl0 in Hy. lia.
      - rewrite list_lookup_middle in Hy by lia. injection Hy as <-. lia.
      - rewrite lookup_app_r in Hy by lia.
        replace (Z.to_nat i - length l0)%nat with (S (Z.to_nat i - length l0 - 1)) in Hy by lia.
        apply (list_elem_of_lookup_2 l2), H2 in Hy. unfold rend in *. lia. }
    exists found, nearby. split; [done|]. destruct found as [i|]; [|lia].
    destruct Hf as [Hi ->]. split; [done|]. exists l0, x. split_and!; (done || lia).
  - destruct (binary_search_spec (l1 ++ l2) r deallocate_comparator n n)
      as (found & nearby & Heq & Hf).
    { subst n. split_and!; [lia | lia | rewrite length_app; lia |].
      intros i y Hi Hy. destruct (Hcmp _ _ Hy) as [-> Hsy]. rewrite Forall_forall in Hlt.
      split_and!; intros Hi'; [|lia|].
      - rewrite lookup_app_l in Hy by lia. apply list_elem_of_lookup_2, Hlt in Hy. lia.
      - rewrite lookup_app_r in Hy by lia. apply list_elem_of_lookup_2, H2 in Hy.
        unfold rend in *. lia. }
    exists found, nearby. split; [done|]. destruct found as [i|]; [lia|].
    by destruct Hf as [_ ->].
Qed.

(** The place [insert_before_matching] finds. *)
Lemma insert_before_spec l1 l2 r :
  Forall (fun x => 0 < r_size x) l1 -> 0 < r_size r -> Range_end r = rend r ->
  Forall (fun x => rend x <= r_base r) l1 -> Forall (fun x => rend r <= r_base x) l2 ->
  Vector_insert_before_matching (l1 ++ l2) r (fun entry => Range_end r <=? r_base entry)
    (Z.max 0 (Z.of_nat (length l1) - 1)) = Ret (l1 ++ r :: l2, Z.of_nat (length l1)).
Proof.
  intros Hs Hr Er H1 H2. unfold Vector_insert_before_matching. rewrite Er.
  set (cb := fun entry => rend r <=? r_base entry).
  assert (first_matching (l1 ++ l2) cb (length l2) (Z.of_nat (length l1)) =
    Ret (match l2 with [] => None | _ => Some (Z.of_nat (length l1)) end)) as Hfm.
  { destruct l2 as [|x l2]; [done|]. cbn [length first_matching]. rewrite Vector_at_middle. run.
    apply Forall_cons_iff in H2 as [H2 _]. subst cb. cbv beta. by rewrite (proj2 (Z.leb_le _ _)). }
  assert (first_matching (l1 ++ l2) cb
      (Z.to_nat (Z.of_nat (length (l1 ++ l2)) - Z.max 0 (Z.of_nat (length l1) - 1)))
      (Z.max 0 (Z.of_nat (length l1) - 1)) =
    Ret (match l2 with [] => None | _ => Some (Z.of_nat (length l1)) end)) as ->.
  { rewrite length_app. destruct (decide (l1 = [])) as [->|Hne].
    { cbn [app length] in *.
      replace (Z.to_nat (Z.of_nat (0 + length l2) - Z.max 0 (Z.of_nat 0 - 1)))
        with (length l2) by lia. exact Hfm. }
    destruct (exists_last Hne) as (l0 & x & ->).
    rewrite length_app in *. cbn [length] in *.
    replace (Z.to_nat (Z.of_nat (length l0 + 1 + length l2) - Z.max 0 (Z.of_nat (length l0 + 1) - 1)))
      with (S (length l2)) by lia.
    replace (Z.max 0 (Z.of_nat (length l0 + 1) - 1)) with (Z.of_nat (length l0)) by lia.
    cbn [first_matching].
    replace (Vector_at ((l0 ++ [x]) ++ l2) (Z.of_nat (length l0))) with (Ret x : outcome Range)
      by (rewrite <- app_assoc; symmetry; apply Vector_at_middle).
    run. apply Forall_app in H1 as [_ H1]. apply Forall_cons_iff in H1 as [H1 _].
    apply Forall_app in Hs as [_ Hs]. apply Forall_cons_iff in Hs as [Hs _].
    replace (cb x) with false by (subst cb; unfold rend in *; lia).
    replace (Z.of_nat (length l0) + 1) with (Z.of_nat (length l0 + 1)) by lia. exact Hfm. }
  run. destruct l2 as [|x l2]; [by rewrite !app_nil_r|]. by rewrite Vector_insert_middle.
Qed.

(** Putting [m] between two parts of the list, merged with the next range when it ends
    where that one begins. *)
Lemma merge_next ra l1 m l2 inserted :
  range_ok (m_total_range ra) m -> 0 <= r_base (m_total_range ra) ->
  rend (m_total_range ra) < 2 ^ 32 -> Forall (range_ok (m_total_range ra)) l2 ->
  inserted = Z.of_nat (length l1) ->
  exists m' l2',
    (if inserted <? Z.of_nat (length (l1 ++ m :: l2)) - 1 then
       inserted_range ← Vector_at (l1 ++ m :: l2) inserted;
       next_range ← Vector_at (l1 ++ m :: l2) (inserted + 1);
       if Range_end inserted_range =? r_base next_range then
         l ← Vector_at_put (l1 ++ m :: l2) inserted
           (MkRange (r_base inserted_range) (wrap size_t (r_size inserted_range + r_size next_range)));
         l ← Vector_remove l (inserted + 1);
         Ret (with_ranges ra l)
       else Ret (with_ranges ra (l1 ++ m :: l2))
     else Ret (with_ranges ra (l1 ++ m :: l2))) = Ret (with_ranges ra (l1 ++ m' :: l2')) /\
    r_base m' = r_base m /\
    ((m' = m /\ l2' = l2 /\ (forall x rest, l2 = x :: rest -> rend m <> r_base x)) \/
     (exists x, l2 = x :: l2' /\ rend m = r_base x /\ rend m' = rend x)).
Proof.
  intros Hm H0 Ht Hl2 ->. destruct (range_ok_end _ _ H0 Ht Hm) as (Em & Bm & Sm & Lm).
  rewrite length_app. destruct l2 as [|x l2].
  { exists m, []. split_and!; [|done | by left].
    by rewrite (proj2 (Z.ltb_ge _ _)) by (cbn [length]; lia). }
  apply Forall_cons_iff in Hl2 as [Hx _].
  destruct (range_ok_end _ _ H0 Ht Hx) as (_ & Bx & Sx & Lx).
  rewrite (proj2 (Z.ltb_lt _ _)) by (cbn [length]; lia).
  rewrite Vector_at_middle. run.
  replace (Z.of_nat (length l1) + 1) with (Z.of_nat (length (l1 ++ [m])))
    by (rewrite length_app; cbn [length]; lia).
  assert (Vector_at (l1 ++ m :: x :: l2) (Z.of_nat (length (l1 ++ [m]))) = Ret x) as ->.
  { replace (l1 ++ m :: x :: l2) with ((l1 ++ [m]) ++ x :: l2) by (by rewrite <- app_assoc).
    apply Vector_at_middle. }
  run. rewrite Em.
  destruct (Z.eqb_spec (rend m) (r_base x)) as [He|Hne].
  - rewrite Vector_at_put_middle. run. set (m' := MkRange _ _).
    replace (l1 ++ m' :: x :: l2) with ((l1 ++ [m']) ++ x :: l2) by (by rewrite <- app_assoc).
    replace (length (l1 ++ [m])) with (length (l1 ++ [m'])) by (by rewrite !length_app).
    rewrite Vector_remove_middle. run. exists m', l2.
    split_and!; [by rewrite <- app_assoc | done |]. right. exists x. split_and!; try done.
    subst m'. unfold rend, size_t in *. cbn [r_base r_size].
    rewrite (wrap_id u32 eq_refl) by (rewrite in_type_u32; lia). lia.
  - exists m, (x :: l2). split_and!; try done. left. split_and!; try done.
    intros y rest [= <- <-]. done.
Qed.

(** What giving back [r] does to the allocator. *)
Definition deallocated (ra ra' : RangeAllocator) (r : Range) : Prop :=
  ra_ok ra' /\ m_total_range ra' = m_total_range ra /\
  forall a, is_free (m_available_ranges ra') a <->
    is_free (m_available_ranges ra) a \/ in_addr r a.

(** A range in the middle of a well-formed list. *)
Lemma middle_ok total l1 m l2 :
  Forall (range_ok total) l1 -> range_ok total m -> Forall (range_ok total) l2 ->
  ordered l1 -> ordered l2 -> (forall x y, x ∈ l1 -> y ∈ l2 -> before x y) ->
  Forall (fun x => before x m) l1 -> Forall (before m) l2 ->
  Forall (range_ok total) (l1 ++ m :: l2) /\ ordered (l1 ++ m :: l2).
Proof.
  intros F1 Fm F2 O1 O2 O12 B1 B2. rewrite Forall_forall in B1, B2. split.
  - by rewrite Forall_app, Forall_cons_iff.
  - change (m :: l2) with ([m] ++ l2). apply ordered_middle. split_and!; try done.
    + intros x y Hx [->|Hy%elem_of_nil]%elem_of_cons; [by apply B1 | done].
    + intros x y [->|Hx%elem_of_nil]%elem_of_cons Hy; [by apply B2 | done].
Qed.

(** The list after the merge with the range before, or the insertion. *)
Lemma dealloc_insert ra l1 l2 r :
  ra_ok ra -> r_size (m_total_range ra) < 2 ^ 31 -> m_available_ranges ra = l1 ++ l2 ->
  range_ok (m_total_range ra) r ->
  Forall (fun x => rend x <= r_base r) l1 -> Forall (fun x => rend r <= r_base x) l2 ->
  exists found nearby l0 m,
    binary_search (l1 ++ l2) r deallocate_comparator = Ret (found, nearby) /\
    (match found with
     | Some i =>
         existing ← Vector_at (l1 ++ l2) i;
         l ← Vector_at_put (l1 ++ l2) i
               (MkRange (r_base existing) (wrap size_t (r_size existing + r_size r)));
         Ret (l, nearby)
     | None =>
         Vector_insert_before_matching (l1 ++ l2) r
           (fun entry => Range_end r <=? r_base entry) nearby
     end) = Ret (l0 ++ m :: l2, Z.of_nat (length l0)) /\
    range_ok (m_total_range ra) m /\ rend m = rend r /\
    Forall (range_ok (m_total_range ra)) l0 /\ ordered l0 /\ Forall (fun x => before x m) l0 /\
    (forall x, x ∈ l0 -> x ∈ l1) /\
    forall a, is_free l0 a \/ in_addr m a <-> is_free l1 a \/ in_addr r a.
Proof.
  intros [[H0 Ht] Hl Ho] Hs He Hr H1 H2. rewrite He in *.
  destruct (dealloc_search _ l1 l2 r H0 Ht Hs Hl Ho Hr H1 H2) as (found & nearby & Heq & Hf).
  apply Forall_app in Hl as [F1 F2]. apply ordered_app in Ho as (O1 & _ & _).
  destruct (range_ok_end _ _ H0 Ht Hr) as (Er & Br & Sr & Lr).
  destruct found as [i|].
  - destruct Hf as (-> & l0 & x & -> & -> & Hx).
    apply Forall_app in F1 as [F0 Fx]. apply Forall_cons_iff in Fx as [Fx _].
    destruct (range_ok_end _ _ H0 Ht Fx) as (_ & Bx & Sx & Lx).
    apply ordered_app in O1 as (O0 & _ & O0x).
    exists (Some (Z.of_nat (length l0))), (Z.of_nat (length l0)), l0,
      (MkRange (r_base x) (r_size x + r_size r)).
    split; [done|]. split; [|split_and!].
    + rewrite <- app_assoc. cbn [app]. rewrite Vector_at_middle. run.
      rewrite Vector_at_put_middle. run. unfold size_t, rend in *.
      by rewrite (wrap_id u32 eq_refl) by (rewrite in_type_u32; lia).
    + destruct Fx as ((Xb & Xs & _) & X1 & X2). destruct Hr as ((Rb & Rs & _) & R1 & R2).
      unfold range_ok, page_range, rend, PAGE_SIZE in *. cbn [r_base r_size]. int_lia.
    + unfold rend in *. cbn [r_base r_size]. lia.
    + done.
    + done.
    + apply Forall_forall. intros y Hy. apply (O0x y x Hy), list_elem_of_here.
    + intros y Hy. apply elem_of_app. auto.
    + intros a. rewrite is_free_app, is_free_cons, is_free_nil. unfold in_addr, rend in *.
      cbn [r_base r_size]. intuition lia.
  - destruct Hf as (Hlt & ->). exists None, (Z.max 0 (Z.of_nat (length l1) - 1)), l1, r.
    split_and!; try done.
    apply insert_before_spec; try done.
    eapply Forall_impl; [exact F1|]. intros y ((_ & _ & ?) & _). done.
Qed.

Lemma ra_deallocate_spec ra r :
  ra_ok ra -> r_size (m_total_range ra) < 2 ^ 31 -> m_available_ranges ra <> [] ->
  range_ok (m_total_range ra) r ->
  (forall a, in_addr r a -> ~ is_free (m_available_ranges ra) a) ->
  exists ra', RangeAllocator_deallocate ra r = Ret ra' /\ deallocated ra ra' r.
Proof.
  intros Hok Hs Hne Hr Hno. pose proof Hok as [[H0 Ht] Hl Ho].
  destruct (range_ok_end _ _ H0 Ht Hr) as (Er & Br & Sr & Lr).
  destruct (split_around (m_available_ranges ra) r) as (l1 & l2 & Hsplit & H1 & H2); try done.
  { eapply Forall_impl; [exact Hl|]. intros y ((_ & _ & ?) & _). done. }
  destruct (dealloc_insert ra l1 l2 r Hok Hs Hsplit Hr H1 H2)
    as (found & nearby & l0 & m & Hsearch & Hins & Hm & Em & F0 & O0 & B0 & Hsub & Hfree).
  rewrite Hsplit in *. apply Forall_app in Hl as [F1 F2].
  apply ordered_app in Ho as (O1 & O2 & O12).
  destruct (merge_next ra l0 m l2 (Z.of_nat (length l0))) as (m' & l2' & Hmerge & Bm' & Hcase);
    try done.
  exists (with_ranges ra (l0 ++ m' :: l2')). split.
  - unfold RangeAllocator_deallocate. rewrite Hsplit.
    rewrite (VERIFY_true (Range_contains_range _ _)) by (by apply range_ok_contained). run.
    rewrite (VERIFY_true (negb (r_size r =? 0))) by lia. run.
    rewrite (VERIFY_true (r_size r mod PAGE_SIZE =? 0))
      by (apply Z.eqb_eq; by destruct Hr as ((_ & ? & _) & _)). run.
    rewrite Er, (VERIFY_true (r_base r <? rend r)) by (unfold rend; lia). run.
    rewrite VERIFY_true by (destruct (l1 ++ l2); [done | by cbn]). run.
    rewrite Hsearch. run. rewrite Er in Hins. rewrite Hins. run. exact Hmerge.
  - rewrite Forall_forall in H2.
    assert (forall y, y ∈ l2 -> rend m <= r_base y) as Hm2 by (intros; rewrite Em; auto).
    assert (forall x y, x ∈ l0 -> y ∈ l2 -> before x y) as O02 by auto.
    destruct Hcase as [(-> & -> & Hgap)|(x & -> & Hx & Ex)].
    + assert (Forall (before m) l2) as B2.
      { destruct l2 as [|y l2]; [apply Forall_nil_2|]. specialize (Hgap y l2 eq_refl).
        specialize (Hm2 y ltac:(apply list_elem_of_here)).
        apply Forall_cons_iff. split; [unfold before; lia|]. destruct O2 as [Oy _].
        eapply Forall_impl; [exact Oy|]. intros z Hz.
        apply Forall_cons_iff in F2 as [((_ & _ & ?) & _) _]. unfold before, rend in *. lia. }
      destruct (middle_ok (m_total_range ra) l0 m l2) as [F O]; try done.
      split_and!; [by split | done |]. intros a. cbn.
      rewrite Hsplit, !is_free_app, is_free_cons. specialize (Hfree a). tauto.
    + apply Forall_cons_iff in F2 as [Fx F2]. destruct O2 as [Ox O2].
      assert (range_ok (m_total_range ra) m') as Fm'.
      { destruct Fx as ((Xb & Xs & X0) & X1 & X2). destruct Hm as ((Mb & Ms & M0) & M1 & M2).
        unfold range_ok, page_range, rend, PAGE_SIZE in *. int_lia. }
      destruct (middle_ok (m_total_range ra) l0 m' l2') as [F O]; try done.
      { intros y z Hy Hz. apply O02; [done | by apply list_elem_of_further]. }
      { eapply Forall_impl; [exact B0|]. intros y Hy. unfold before in *. lia. }
      { eapply Forall_impl; [exact Ox|]. intros y Hy. unfold before in *. lia. }
      split_and!; [by split | done |]. intros a. cbn.
      rewrite Hsplit, !is_free_app, !is_free_cons. specialize (Hfree a).
      assert (in_addr m' a <-> in_addr m a \/ in_addr x a) as ->.
      { destruct Fx as ((_ & _ & X0) & _). destruct Hm as ((_ & _ & M0) & _).
        unfold in_addr, rend in *. lia. }
      tauto.
Qed.

(** ** Properties *)

(** C2. [allocate_anywhere] returns.  A range it returns has the size and alignment asked
    for; its addresses and those of a guard page on each side were free; exactly its
    addresses stop being free, and the list stays sorted, disjoint and merged.  It gives
    nothing only if every available range is smaller than the size, two guard pages and
    the alignment together. *)
Theorem RangeAllocator_allocate_anywhere_correct ra size k :
  ra_ok ra -> 0 < size < 2 ^ 32 -> size mod PAGE_SIZE = 0 -> 12 <= k < 32 ->
  exists ra' r, RangeAllocator_allocate_anywhere ra size (2 ^ k) = Ret (ra', r) /\
    match r with
    | Some r => allocated ra ra' r /\ r_size r = size /\ r_base r mod 2 ^ k = 0 /\
        forall a, r_base r - PAGE_SIZE <= a < rend r + PAGE_SIZE -> is_free (m_available_ranges ra) a
    | None => ra' = ra /\
        Forall (fun r => r_size r < size + 2 * PAGE_SIZE + 2 ^ k) (m_available_ranges ra)
    end.
Proof. apply allocate_anywhere_spec. Qed.

(** A small address space with a hole. *)
Definition example_ra : RangeAllocator :=
  MkRangeAllocator [MkRange 0x100000 0x10000; MkRange 0x120000 0x40000] (MkRange 0x100000 0x80000).

Lemma example_ra_ok : ra_ok example_ra.
Proof.
  split; [by vm_compute | |].
  - repeat (apply Forall_cons_iff; split; [by vm_compute|]). apply Forall_nil_2.
  - cbn. split_and!; [|apply Forall_nil_2 | done].
    apply Forall_cons_iff. split; [by vm_compute | apply Forall_nil_2].
Qed.

Lemma RangeAllocator_allocate_anywhere_correct_witness :
  exists ra' r, RangeAllocator_allocate_anywhere example_ra 0x8000 (2 ^ 16) = Ret (ra', r) /\
    match r with
    | Some r => allocated example_ra ra' r /\ r_size r = 0x8000 /\ r_base r mod 2 ^ 16 = 0 /\
        forall a, r_base r - PAGE_SIZE <= a < rend r + PAGE_SIZE ->
          is_free (m_available_ranges example_ra) a
    | None => ra' = example_ra /\
        Forall (fun r => r_size r < 0x8000 + 2 * PAGE_SIZE + 2 ^ 16) (m_available_ranges example_ra)
    end.
Proof.
  apply (RangeAllocator_allocate_anywhere_correct example_ra 0x8000 16);
    [exact example_ra_ok | lia | by vm_compute | lia].
Defined.

(** [allocate_specific] of a page range inside the address space returns; it takes the
    range exactly when all its addresses are free, and otherwise changes nothing. *)
Theorem RangeAllocator_allocate_specific_correct ra base size :
  ra_ok ra -> range_ok (m_total_range ra) (MkRange base size) ->
  exists ra' r, RangeAllocator_allocate_specific ra base size = Ret (ra', r) /\
    match r with
    | Some r => r = MkRange base size /\ allocated ra ra' r
    | None => ra' = ra /\
        ~ forall a, in_addr (MkRange base size) a -> is_free (m_available_ranges ra) a
    end.
Proof. apply allocate_specific_spec. Qed.

Lemma RangeAllocator_allocate_specific_correct_witness :
  exists ra' r, RangeAllocator_allocate_specific example_ra 0x130000 0x2000 = Ret (ra', r) /\
    match r with
    | Some r => r = MkRange 0x130000 0x2000 /\ allocated example_ra ra' r
    | None => ra' = example_ra /\
        ~ forall a, in_addr (MkRange 0x130000 0x2000) a -> is_free (m_available_ranges example_ra) a
    end.
Proof.
  apply (RangeAllocator_allocate_specific_correct example_ra 0x130000 0x2000);
    [exact example_ra_ok | by vm_compute].
Defined.

Lemma deallocate_from_empty total r :
  RangeAllocator_deallocate (MkRangeAllocator [] total) r = Stop VerifyFailed.
Proof.
  unfold RangeAllocator_deallocate. cbn [m_available_ranges m_total_range length].
  destruct (Range_contains_range total r), (negb (r_size r =? 0)), (r_size r mod PAGE_SIZE =? 0),
    (r_base r <? Range_end r); done.
Qed.

(** C22. [deallocate], in an address space of less than 2 GiB, of a page-aligned range
    inside it none of whose addresses is free: if some range is available, exactly the
    addresses of the range become free, and the list stays sorted, disjoint and merged; if
    the whole address space is in use, the VERIFY that a range is available fails. *)
Theorem RangeAllocator_deallocate_correct ra r :
  ra_ok ra -> r_size (m_total_range ra) < 2 ^ 31 ->
  range_ok (m_total_range ra) r ->
  (forall a, in_addr r a -> ~ is_free (m_available_ranges ra) a) ->
  if decide (m_available_ranges ra = []) then RangeAllocator_deallocate ra r = Stop VerifyFailed
  else exists ra', RangeAllocator_deallocate ra r = Ret ra' /\ deallocated ra ra' r.
Proof.
  intros Hok Hs Hr Hf. destruct (decide _) as [E|Hne]; [|by apply ra_deallocate_spec].
  destruct ra as [ranges total]. cbn in E. subst ranges. apply deallocate_from_empty.
Qed.

Lemma RangeAllocator_deallocate_correct_witness :
  exists ra', RangeAllocator_deallocate example_ra (MkRange 0x110000 0x10000) = Ret ra' /\
    deallocated example_ra ra' (MkRange 0x110000 0x10000).
Proof.
  apply (RangeAllocator_deallocate_correct example_ra (MkRange 0x110000 0x10000));
    [exact example_ra_ok | by vm_compute | by vm_compute |].
  intros a Ha (r & Hr & Har). unfold in_addr, rend in *. cbn in Ha.
  apply elem_of_cons in Hr as [->|Hr]; [cbn in Har; lia|].
  apply elem_of_cons in Hr as [->|Hr]; [cbn in Har; lia | by apply elem_of_nil in Hr].
Defined.

(** In an address space of more than 2 GiB, as that of a user process, the [int]
    comparator of [deallocate] can have the wrong sign, and the range is put at the wrong
    place: the list is not sorted any more. *)
Theorem RangeAllocator_deallocate_misorders :
  let total := MkRange 0x00800000 (0xbe000000 - 0x00800000) in
  let ra := MkRangeAllocator [MkRange 0xb0000000 0x1000; MkRange 0xb8000000 0x1000] total in
  ra_ok ra /\
  exists ra', RangeAllocator_deallocate ra (MkRange 0x01000000 0x1000) = Ret ra' /\
    m_available_ranges ra' =
      [MkRange 0xb0000000 0x1000; MkRange 0x01000000 0x1000; MkRange 0xb8000000 0x1000] /\
    ~ ordered (m_available_ranges ra').
Proof.
  split.
  - split; [by vm_compute | |].
    + repeat (apply Forall_cons_iff; split; [by vm_compute|]). apply Forall_nil_2.
    + cbn. split_and!; [|apply Forall_nil_2 | done].
      apply Forall_cons_iff. split; [by vm_compute | apply Forall_nil_2].
  - eexists; split; [by vm_compute|]. split; [done|]. cbn. intros [H _].
    apply Forall_cons_iff in H as [H _]. by vm_compute in H.
Qed.

(** When the whole address space is in use, nothing can be given back: [deallocate]
    insists on an available range. *)
Theorem RangeAllocator_deallocate_exhausted total r :
  RangeAllocator_deallocate (MkRangeAllocator [] total) r = Stop VerifyFailed.
Proof. apply deallocate_from_empty. Qed.
