(* ===== verification/Lock.v ===== *)
(** * Kernel/Lock.cpp and Kernel/WaitQueue.cpp: the kernel's blocking lock

    [Lock] is a recursive lock with a shared and an exclusive mode.  Its state is guarded
    by the flag [m_lock], which every operation takes for a short while; between taking
    and releasing it an operation runs alone, so each such stretch is one atomic function
    here.  A loop that takes the flag again and again is one function per round, and the
    interleaving of the rounds of all threads is the step relation at the end: calling
    [wait_forever] and [wake_one] happens outside of the flag, in steps of their own.

    Threads are numbers, [m_shared_holders] is a finite map.  LOCK_DEBUG is off. *)

From stdpp Require Import gmap functions.
From S2P Require Import Prelude.

#[local] Open Scope Z_scope.

Definition Thread : Type := positive.

(** Kernel/LockMode.h. *)
Inductive Mode : Type := Unlocked | Shared | Exclusive.

#[global] Instance Mode_eq_dec : EqDecision Mode.
Proof. solve_decision. Defined.

(** ** WaitQueue *)

(** A blocker is the blocked thread and [m_did_unblock]. *)
Record WaitQueue : Type := MkWaitQueue {
  m_blockers : list (Thread * bool);
  m_wake_requested : bool;
  m_should_block : bool
}.

Definition WaitQueue_default : WaitQueue := MkWaitQueue [] false true.

Definition WaitQueue_should_block (q : WaitQueue) (block : bool) : WaitQueue :=
  MkWaitQueue (m_blockers q) (m_wake_requested q) block.

(** Whether to block, and the queue. *)
Definition WaitQueue_should_add_blocker (q : WaitQueue) : bool * WaitQueue :=
  if m_wake_requested q || negb (m_should_block q) then
    (false, MkWaitQueue (m_blockers q) false (m_should_block q))
  else (true, q).

(** [BlockCondition::add_blocker]. *)
Definition WaitQueue_add_blocker (q : WaitQueue) (t : Thread) : bool * WaitQueue :=
  let '(should, q) := WaitQueue_should_add_blocker q in
  if negb should then (false, q)
  else (true, MkWaitQueue (m_blockers q ++ [(t, false)]) (m_wake_requested q) (m_should_block q)).

(** [BlockCondition::remove_blocker]; a thread has at most one blocker. *)
Fixpoint remove_blocker (blockers : list (Thread * bool)) (t : Thread) : list (Thread * bool) :=
  match blockers with
  | [] => []
  | b :: rest => if bool_decide (b.1 = t) then rest else b :: remove_blocker rest t
  end.

Definition WaitQueue_remove_blocker (q : WaitQueue) (t : Thread) : WaitQueue :=
  MkWaitQueue (remove_blocker (m_blockers q) t) (m_wake_requested q) (m_should_block q).

(** [BlockCondition::do_unblock] with the callbacks of [wake_one], [wake_n] and
    [wake_all]: [count] is how many more blockers to unblock before [stop_iterating],
    if there is a bound.  The blockers left and the threads woken. *)
Fixpoint do_unblock (count : option nat) (blockers : list (Thread * bool))
    : list (Thread * bool) * list Thread :=
  match blockers with
  | [] => ([], [])
  | (t, did_unblock) :: rest =>
      match count with
      | Some O => (blockers, [])
      | _ =>
          if (did_unblock : bool) then
            let '(remaining, woken) := do_unblock count rest in ((t, did_unblock) :: remaining, woken)
          else
            let '(remaining, woken) := do_unblock (option_map pred count) rest in (remaining, t :: woken)
      end
  end.

Definition WaitQueue_wake (count : option nat) (q : WaitQueue) : WaitQueue * list Thread :=
  let '(remaining, woken) := do_unblock count (m_blockers q) in
  (MkWaitQueue remaining (match woken with [] => true | _ => false end) (m_should_block q), woken).

Definition WaitQueue_wake_one (q : WaitQueue) : WaitQueue * list Thread :=
  WaitQueue_wake (Some 1%nat) q.
Definition WaitQueue_wake_n (q : WaitQueue) (wake_count : nat) : WaitQueue * list Thread :=
  if Nat.eqb wake_count 0 then (q, []) else WaitQueue_wake (Some wake_count) q.
Definition WaitQueue_wake_all (q : WaitQueue) : WaitQueue * list Thread := WaitQueue_wake None q.

(** ** Lock *)

Record Lock : Type := MkLock {
  m_mode : Mode;
  m_times_locked : Z;
  m_holder : option Thread;
  m_shared_holders : gmap Thread Z;
  m_queue : WaitQueue
}.

Definition Lock_new : Lock := MkLock Unlocked 0 None ∅ WaitQueue_default.

Definition Lock_is_locked (l : Lock) : bool := negb (bool_decide (m_mode l = Unlocked)).

Definition with_queue (l : Lock) (q : WaitQueue) : Lock :=
  MkLock (m_mode l) (m_times_locked l) (m_holder l) (m_shared_holders l) q.

Definition is_empty (m : gmap Thread Z) : bool := bool_decide (m = ∅).

Section operations.
(** [Processor::current().in_irq()] and [Thread::current()]. *)
Context (in_irq : bool) (current_thread : Thread).

(** One round of [lock] with the flag taken: [true] when the lock was acquired, [false]
    when the thread has to wait. *)
Definition Lock_lock_round (l : Lock) (mode : Mode) : outcome (bool * Lock) :=
  VERIFY (negb in_irq) ;;
  VERIFY (negb (bool_decide (mode = Unlocked))) ;;
  match m_mode l with
  | Unlocked =>
      VERIFY (bool_decide (m_holder l = None)) ;;
      VERIFY (is_empty (m_shared_holders l)) ;;
      '(holder, shared) ←
        (if bool_decide (mode = Exclusive) then
           Ret (Some current_thread, m_shared_holders l)
         else
           VERIFY (bool_decide (mode = Shared)) ;;
           Ret (m_holder l, <[current_thread := 1]> (m_shared_holders l)));
      VERIFY (m_times_locked l =? 0) ;;
      Ret (true, MkLock mode (wrap u32 (m_times_locked l + 1)) holder shared
                   (WaitQueue_should_block (m_queue l) true))
  | Exclusive =>
      VERIFY (negb (bool_decide (m_holder l = None))) ;;
      if negb (bool_decide (m_holder l = Some current_thread)) then Ret (false, l)
      else
        VERIFY (is_empty (m_shared_holders l)) ;;
        VERIFY (bool_decide (mode = Exclusive) || bool_decide (mode = Shared)) ;;
        VERIFY (0 <? m_times_locked l) ;;
        Ret (true, MkLock (m_mode l) (wrap u32 (m_times_locked l + 1)) (m_holder l)
                     (m_shared_holders l) (m_queue l))
  | Shared =>
      VERIFY (bool_decide (m_holder l = None)) ;;
      if negb (bool_decide (mode = Shared)) then Ret (false, l)
      else
        VERIFY (0 <? m_times_locked l) ;;
        VERIFY (negb (is_empty (m_shared_holders l))) ;;
        let shared :=
          match m_shared_holders l !! current_thread with
          | Some value => <[current_thread := wrap u32 (value + 1)]> (m_shared_holders l)
          | None => <[current_thread := 1]> (m_shared_holders l)
          end in
        Ret (true, MkLock (m_mode l) (wrap u32 (m_times_locked l + 1)) (m_holder l) shared
                     (m_queue l))
  end.

(** [unlock] up to the release of the flag: whether [wake_one] is to follow. *)
Definition Lock_unlock (l : Lock) : outcome (bool * Lock) :=
  VERIFY (negb in_irq) ;;
  let current_mode := m_mode l in
  VERIFY (negb (bool_decide (current_mode = Unlocked))) ;;
  VERIFY (0 <? m_times_locked l) ;;
  let times_locked := m_times_locked l - 1 in
  '(holder, shared) ←
    (match current_mode with
     | Exclusive =>
         VERIFY (bool_decide (m_holder l = Some current_thread)) ;;
         VERIFY (is_empty (m_shared_holders l)) ;;
         Ret (if times_locked =? 0 then None else m_holder l, m_shared_holders l)
     | Shared =>
         VERIFY (bool_decide (m_holder l = None)) ;;
         match m_shared_holders l !! current_thread with
         | None => Stop VerifyFailed
         | Some value =>
             if 1 <? value then
               Ret (m_holder l, <[current_thread := value - 1]> (m_shared_holders l))
             else
               VERIFY (0 <? value) ;;
               Ret (m_holder l, delete current_thread (m_shared_holders l))
         end
     | Unlocked => Stop VerifyFailed
     end);
  let unlocked_last := times_locked =? 0 in
  if unlocked_last then
    VERIFY (if bool_decide (current_mode = Exclusive)
            then bool_decide (holder = None) else is_empty shared) ;;
    Ret (true, MkLock Unlocked times_locked holder shared
                 (WaitQueue_should_block (m_queue l) false))
  else Ret (false, MkLock current_mode times_locked holder shared (m_queue l)).

(** [force_unlock_if_locked] up to the release of the flag: the mode it returns,
    [lock_count_to_restore], and whether [wake_one] is to follow. *)
Definition Lock_force_unlock_if_locked (l : Lock) : outcome (Mode * Z * bool * Lock) :=
  VERIFY (negb in_irq) ;;
  match m_mode l with
  | Exclusive =>
      if negb (bool_decide (m_holder l = Some current_thread)) then Ret (Unlocked, 0, false, l)
      else
        VERIFY (0 <? m_times_locked l) ;;
        Ret (Exclusive, m_times_locked l, true,
             MkLock Unlocked 0 None (m_shared_holders l) (WaitQueue_should_block (m_queue l) false))
  | Shared =>
      VERIFY (bool_decide (m_holder l = None)) ;;
      match m_shared_holders l !! current_thread with
      | None => Ret (Unlocked, 0, false, l)
      | Some value =>
          VERIFY (0 <? value) ;;
          let lock_count_to_restore := value in
          VERIFY (0 <? lock_count_to_restore) ;;
          let shared := delete current_thread (m_shared_holders l) in
          VERIFY (lock_count_to_restore <=? m_times_locked l) ;;
          let times_locked := m_times_locked l - lock_count_to_restore in
          if times_locked =? 0 then
            Ret (Shared, lock_count_to_restore, true,
                 MkLock Unlocked times_locked (m_holder l) shared
                   (WaitQueue_should_block (m_queue l) false))
          else
            Ret (Shared, lock_count_to_restore, true,
                 MkLock Shared times_locked (m_holder l) shared (m_queue l))
      end
  | Unlocked => Ret (Unlocked, 0, true, l)
  end.

(** One round of [restore_lock] with the flag taken: [true] when it returns. *)
Definition Lock_restore_lock_round (l : Lock) (mode : Mode) (lock_count : Z)
    : outcome (bool * Lock) :=
  VERIFY (negb (bool_decide (mode = Unlocked))) ;;
  VERIFY (0 <? lock_count) ;;
  VERIFY (negb in_irq) ;;
  match mode with
  | Exclusive =>
      if negb (bool_decide (m_mode l = Unlocked)) then Ret (false, l)
      else
        VERIFY (m_times_locked l =? 0) ;;
        VERIFY (bool_decide (m_holder l = None)) ;;
        VERIFY (is_empty (m_shared_holders l)) ;;
        Ret (true, MkLock Exclusive lock_count (Some current_thread) (m_shared_holders l)
                     (WaitQueue_should_block (m_queue l) true))
  | Shared =>
      let expected_mode := m_mode l in
      if negb (bool_decide (expected_mode = Unlocked)) && negb (bool_decide (expected_mode = Shared))
      then Ret (false, l)
      else
        VERIFY (bool_decide (expected_mode = Shared) || (m_times_locked l =? 0)) ;;
        let times_locked := wrap u32 (m_times_locked l + lock_count) in
        VERIFY (bool_decide (m_holder l = None)) ;;
        VERIFY (Bool.eqb (bool_decide (expected_mode = Unlocked)) (is_empty (m_shared_holders l))) ;;
        VERIFY (bool_decide (m_shared_holders l !! current_thread = None)) ;;
        Ret (true, MkLock Shared times_locked (m_holder l)
                     (<[current_thread := lock_count]> (m_shared_holders l))
                     (WaitQueue_should_block (m_queue l) true))
  | Unlocked => Stop VerifyFailed
  end.
End operations.

Definition Lock_clear_waiters (l : Lock) : outcome (Lock * list Thread) :=
  VERIFY (negb (bool_decide (m_mode l = Shared))) ;;
  let '(q, woken) := WaitQueue_wake_all (m_queue l) in
  Ret (with_queue l q, woken).

(** ** The invariant of the lock

    [held t] is how often thread [t] has locked and not yet unlocked. *)

Definition total_held (m : gmap Thread Z) : Z := map_fold (fun _ v acc => v + acc) 0 m.

(** The map holds the positive values of [held]. *)
Definition counts (m : gmap Thread Z) (held : Thread -> Z) : Prop :=
  (forall t v, m !! t = Some v -> 0 < v) /\ forall t, held t = default 0 (m !! t).

Definition lock_ok (l : Lock) (held : Thread -> Z) : Prop :=
  match m_mode l with
  | Unlocked =>
      m_times_locked l = 0 /\ m_holder l = None /\ m_shared_holders l = ∅ /\ forall t, held t = 0
  | Exclusive =>
      m_shared_holders l = ∅ /\ 0 < m_times_locked l < 2 ^ 32 /\
      exists t, m_holder l = Some t /\ held t = m_times_locked l /\
        forall t', t' <> t -> held t' = 0
  | Shared =>
      m_holder l = None /\ 0 < m_times_locked l < 2 ^ 32 /\
      m_times_locked l = total_held (m_shared_holders l) /\ counts (m_shared_holders l) held
  end.

Lemma fn_update_eq (f : Thread -> Z) t v : (<[t := v]> f) t = v.
Proof. apply fn_lookup_insert. Qed.

Lemma fn_update_ne (f : Thread -> Z) t t' v : t <> t' -> (<[t := v]> f) t' = f t'.
Proof. apply fn_lookup_insert_ne. Qed.

Lemma total_held_insert m t v :
  m !! t = None -> total_held (<[t := v]> m) = v + total_held m.
Proof. intros H. unfold total_held. rewrite map_fold_insert_L; [done | intros; lia | done]. Qed.

Lemma total_held_delete m t :
  total_held (delete t m) = total_held m - default 0 (m !! t).
Proof.
  destruct (m !! t) as [v|] eqn:H; cbn.
  - rewrite <- (insert_delete_id m t v H) at 2.
    rewrite total_held_insert by (by rewrite lookup_delete_eq). lia.
  - rewrite delete_id by done. lia.
Qed.

Lemma counts_unset m held t :
  counts m held ->
  counts (delete t m) (<[t := 0]> held) /\ total_held (delete t m) = total_held m - held t.
Proof.
  intros [Hpos Hheld]. rewrite total_held_delete, Hheld. split; [split|done].
  - intros t' v. rewrite lookup_delete_Some. intros [_ H]. eauto.
  - intros t'. destruct (decide (t = t')) as [<-|Hn].
    + by rewrite fn_update_eq, lookup_delete_eq.
    + by rewrite fn_update_ne, lookup_delete_ne, Hheld.
Qed.

Lemma counts_set m held t v :
  counts m held -> 0 < v ->
  counts (<[t := v]> m) (<[t := v]> held) /\
  total_held (<[t := v]> m) = total_held m - held t + v.
Proof.
  intros [Hpos Hheld] Hv. split; [split|].
  - intros t' v'. rewrite lookup_insert_Some. intros [[_ <-]|[_ H']]; [done | eauto].
  - intros t'. destruct (decide (t = t')) as [<-|Hn].
    + by rewrite fn_update_eq, lookup_insert_eq.
    + by rewrite fn_update_ne, lookup_insert_ne, Hheld.
  - rewrite <- insert_delete_eq, total_held_insert, total_held_delete, Hheld
      by (by rewrite lookup_delete_eq). lia.
Qed.

Lemma counts_nonneg m held : counts m held -> 0 <= total_held m.
Proof.
  intros [Hpos _]. revert Hpos. clear held.
  induction m as [|t v m Hnone IH] using map_ind; intros H; [done|].
  rewrite total_held_insert by done.
  assert (0 < v) by (apply (H t); by rewrite lookup_insert_eq).
  assert (0 <= total_held m); [|lia]. apply IH. intros t' v' Ht'. apply (H t').
  rewrite lookup_insert_ne; [done|]. by intros ->; rewrite Hnone in Ht'.
Qed.

Lemma counts_le m held t : counts m held -> 0 <= held t <= total_held m.
Proof.
  intros H. destruct (counts_unset m held t H) as [H' Ht]. apply counts_nonneg in H'.
  destruct H as [Hpos Hheld]. specialize (Hheld t).
  destruct (m !! t) as [v|] eqn:E; cbn in Hheld; [|lia]. specialize (Hpos t v E). lia.
Qed.

Lemma counts_lookup m held t :
  counts m held -> m !! t = if decide (0 < held t) then Some (held t) else None.
Proof.
  intros [Hpos Hheld]. specialize (Hheld t).
  destruct (m !! t) as [v|] eqn:E; cbn in Hheld.
  - specialize (Hpos t v E). rewrite decide_True by lia. congruence.
  - by rewrite decide_False by lia.
Qed.

Lemma counts_zero m held : counts m held -> total_held m = 0 -> m = ∅ /\ forall t, held t = 0.
Proof.
  intros H H0. assert (forall t, held t = 0) as Hz.
  { intros t. pose proof (counts_le m held t H). lia. }
  split; [|done]. apply map_empty. intros t. rewrite (counts_lookup m held t H), Hz.
  by rewrite decide_False by lia.
Qed.

Lemma counts_empty held : (forall t, held t = 0) -> counts ∅ held.
Proof. intros H. split; intros t; [intros v|rewrite H]; by rewrite lookup_empty. Qed.

Lemma is_empty_total m held :
  counts m held -> is_empty m = (total_held m =? 0).
Proof.
  intros H. unfold is_empty. destruct (Z.eqb_spec (total_held m) 0) as [H0|H0].
  - apply bool_decide_eq_true. by apply (counts_zero m held).
  - apply bool_decide_eq_false. intros ->. by apply H0.
Qed.

Lemma lock_ok_held l held t : lock_ok l held -> 0 <= held t <= m_times_locked l.
Proof.
  unfold lock_ok. destruct (m_mode l).
  - intros (-> & _ & _ & H). rewrite H. lia.
  - intros (_ & _ & -> & H). by apply counts_le.
  - intros (_ & Hb & h & _ & Hh & Ho). destruct (decide (t = h)) as [->|Hn]; [lia|].
    rewrite Ho by done. lia.
Qed.

(** Decide the [VERIFY]s and the conditions of a round from the context. *)
Ltac decide_bool :=
  match goal with
  | H : counts ?m _ |- context [is_empty ?m] => rewrite (is_empty_total _ _ H)
  | |- context [is_empty ∅] => change (is_empty ∅) with true
  | |- context [bool_decide ?P] =>
      first [ rewrite (bool_decide_true P) by congruence
            | rewrite (bool_decide_false P) by congruence ]
  end.

Ltac verify :=
  repeat match goal with
  | |- context [VERIFY ?b] =>
      rewrite (VERIFY_true b) by (repeat decide_bool; first [done | lia]); run
  end.

Ltac project := cbn [m_mode m_times_locked m_holder m_shared_holders m_queue].

(** A round of [lock] never fails.  It acquires the lock exactly when it is free, when
    the thread already has it exclusively, or when both the lock and the request are
    shared. *)
Definition may_acquire (l : Lock) (held : Thread -> Z) (t : Thread) (mode : Mode) : Prop :=
  match m_mode l with
  | Unlocked => True
  | Exclusive => 0 < held t
  | Shared => mode = Shared
  end.

Lemma lock_round_spec l held t mode :
  lock_ok l held -> mode <> Unlocked -> m_times_locked l < 2 ^ 32 - 1 ->
  (may_acquire l held t mode /\
   exists l', Lock_lock_round false t l mode = Ret (true, l') /\
     lock_ok l' (<[t := held t + 1]> held) /\ m_mode l' <> Unlocked /\
     m_blockers (m_queue l') = m_blockers (m_queue l) /\
     m_should_block (m_queue l') = (m_should_block (m_queue l) || bool_decide (m_mode l = Unlocked)))
  \/
  (~ may_acquire l held t mode /\ Lock_lock_round false t l mode = Ret (false, l)).
Proof.
  intros Hok Hmode Hlt. unfold Lock_lock_round, lock_ok, may_acquire in *.
  destruct (m_mode l) eqn:Em.
  - left. split; [done|]. destruct Hok as (Ht & Hh & Hs & Hz).
    rewrite Hh, Hs, Ht, Hz.
    destruct mode; [done | |]; verify; repeat decide_bool; run; verify;
      (eexists; split; [done|]); cbn; rewrite orb_true_r;
      destruct (counts_set ∅ held t 1 (counts_empty held Hz)) as [H1 H2]; try lia;
      rewrite Hz in H2; split_and!; try done.
    + exists t. rewrite fn_update_eq. split_and!; try done.
      intros t' Ht'. by rewrite fn_update_ne.
  - destruct Hok as (Hh & Hb & Ht & Hc). rewrite Hh.
    destruct mode; [done | |]; verify; repeat decide_bool; cbn [negb].
    + left. split; [done|]. pose proof (counts_lookup _ _ t Hc) as Hl.
      pose proof (counts_le _ _ t Hc).
      destruct (counts_set _ held t (held t + 1) Hc) as [H1 H2]; [lia|].
      eexists; split; [verify; run; done|].
      project.
      rewrite !(wrap_id u32 eq_refl) by (rewrite in_type_u32; lia).
      assert (match m_shared_holders l !! t with
              | Some value => <[t := wrap u32 (value + 1)]> (m_shared_holders l)
              | None => <[t := 1]> (m_shared_holders l)
              end = <[t := held t + 1]> (m_shared_holders l)) as ->.
      { rewrite Hl. case_decide; [|f_equal; lia].
        by rewrite (wrap_id u32 eq_refl) by (rewrite in_type_u32; lia). }
      rewrite orb_false_r, H2. split_and!; try done; try lia; apply H1.
    + right. by split.
  - destruct Hok as (Hs & Hb & h & Hh & Hheld & Ho). rewrite Hh, Hs.
    destruct (decide (h = t)) as [->|Hne].
    + left. split; [lia|].
      destruct mode; [done | |]; verify; repeat decide_bool; cbn [negb]; verify;
        (eexists; split; [done|]);
        project; rewrite orb_false_r;
        rewrite !(wrap_id u32 eq_refl) by (rewrite in_type_u32; lia);
        split_and!; try done; try lia; exists t; rewrite fn_update_eq;
        (split_and!; [done | lia |]); intros t' Ht'; rewrite fn_update_ne by done; auto.
    + right. rewrite Ho by congruence. split; [lia|].
      destruct mode; [done | |]; verify; repeat decide_bool; done.
Qed.

Lemma counts_step m held t :
  counts m held -> 0 < held t ->
  let m' := if 1 <? held t then <[t := held t - 1]> m else delete t m in
  counts m' (<[t := held t - 1]> held) /\ total_held m' = total_held m - 1.
Proof.
  intros Hc Ht. cbn. destruct (Z.ltb_spec 1 (held t)) as [H|H].
  - destruct (counts_set m held t (held t - 1) Hc) as [H1 H2]; [lia|]. split; [done | lia].
  - replace (held t - 1) with 0 by lia.
    destruct (counts_unset m held t Hc) as [H1 H2]. split; [done | lia].
Qed.

Lemma only_update (held : Thread -> Z) t v :
  (forall t', t' <> t -> held t' = 0) -> forall t', t' <> t -> (<[t := v]> held) t' = 0.
Proof. intros Ho t' Ht'. rewrite fn_update_ne by done. auto. Qed.

(** [unlock] by a thread that has the lock takes back one of its locks, and the last one
    frees the lock. *)
Lemma unlock_spec l held t :
  lock_ok l held -> 0 < held t ->
  exists l', Lock_unlock false t l = Ret (m_times_locked l =? 1, l') /\
    lock_ok l' (<[t := held t - 1]> held) /\
    if m_times_locked l =? 1
    then m_mode l' = Unlocked /\ m_queue l' = WaitQueue_should_block (m_queue l) false
    else m_mode l' = m_mode l /\ m_queue l' = m_queue l.
Proof.
  intros Hok Ht. unfold Lock_unlock, lock_ok in *. destruct (m_mode l) eqn:Em.
  - destruct Hok as (_ & _ & _ & Hz). rewrite Hz in Ht. lia.
  - destruct Hok as (Hh & Hb & Htot & Hc).
    rewrite Hh, (counts_lookup _ _ t Hc), decide_True by done. verify. run.
    destruct (counts_step _ held t Hc Ht) as [H1 H2].
    set (m' := if 1 <? held t then _ else _) in H1, H2.
    replace (if 1 <? held t then _ else _) with
      (Ret (@None Thread, m')) by (subst m'; destruct (1 <? held t); verify; done). run.
    replace (m_times_locked l - 1 =? 0) with (m_times_locked l =? 1) by lia.
    destruct (Z.eqb_spec (m_times_locked l) 1) as [E|E].
    + destruct (counts_zero _ _ H1) as [-> Hz]; [lia|]. verify. eexists; split; [done|].
      project. split_and!; try done. lia.
    + eexists; split; [done|]. project. split_and!; try done; lia.
  - destruct Hok as (Hs & Hb & h & Hh & Hheld & Ho).
    assert (h = t) as -> by (destruct (decide (h = t)); [done|]; rewrite Ho in Ht by done; lia).
    rewrite Hh, Hs. verify.
    replace (m_times_locked l - 1 =? 0) with (m_times_locked l =? 1) by lia.
    destruct (Z.eqb_spec (m_times_locked l) 1) as [E|E]; verify;
      (eexists; split; [done|]); cbn; split_and!; try done; try lia.
    + intros t'. destruct (decide (t' = t)) as [->|]; [rewrite fn_update_eq; lia|].
      by apply only_update.
    + exists t. rewrite fn_update_eq. split_and!; [done | lia |]. by apply only_update.
Qed.

(** A thread without the lock cannot unlock it. *)
Lemma unlock_not_held l held t :
  lock_ok l held -> held t = 0 -> Lock_unlock false t l = Stop VerifyFailed.
Proof.
  intros Hok Ht. unfold Lock_unlock, lock_ok in *. destruct (m_mode l) eqn:Em.
  - done.
  - destruct Hok as (Hh & Hb & Htot & Hc).
    rewrite Hh, (counts_lookup _ _ t Hc), decide_False by lia. by verify.
  - destruct Hok as (Hs & Hb & h & Hh & Hheld & Ho). verify. rewrite Hh.
    rewrite (bool_decide_false (Some h = Some t)) by (intros [= ->]; lia). done.
Qed.

(** [force_unlock_if_locked] takes back all the locks of the thread and returns their
    number and mode. *)
Lemma force_unlock_spec l held t :
  lock_ok l held ->
  exists l' wake, Lock_force_unlock_if_locked false t l =
      Ret (if decide (0 < held t) then m_mode l else Unlocked, held t, wake, l') /\
    lock_ok l' (<[t := 0]> held) /\
    if decide (m_mode l' = m_mode l) then m_queue l' = m_queue l
    else m_mode l' = Unlocked /\ wake = true /\
         m_queue l' = WaitQueue_should_block (m_queue l) false.
Proof.
  intros Hok. unfold Lock_force_unlock_if_locked, lock_ok in *. destruct (m_mode l) eqn:Em.
  - destruct Hok as (H1 & H2 & H3 & Hz). verify. do 2 eexists; split; [|split].
    + rewrite Hz. reflexivity.
    + rewrite Em. split_and!; try done. intros t'.
      destruct (decide (t' = t)) as [->|]; [apply fn_update_eq | by apply only_update].
    + by rewrite Em.
  - destruct Hok as (Hh & Hb & Htot & Hc). pose proof (counts_le _ _ t Hc).
    destruct (counts_unset _ held t Hc) as [H1 H2].
    rewrite Hh, (counts_lookup _ _ t Hc). verify. case_decide; [verify|].
    + destruct (Z.eqb_spec (m_times_locked l - held t) 0) as [E|E];
        (do 2 eexists; split; [done|]); cbn; split_and!; try done; try lia.
      * apply (counts_zero _ _ H1). lia.
      * apply (counts_zero _ _ H1). lia.
    + assert (held t = 0) as Hz0 by lia. rewrite Hz0.
      rewrite delete_id in H1 by (rewrite (counts_lookup _ _ t Hc); by case_decide).
      do 2 eexists; split; [done|]. rewrite Em, Hh. by rewrite decide_True.
  - destruct Hok as (Hs & Hb & h & Hh & Hheld & Ho). verify. rewrite Hh.
    destruct (decide (h = t)) as [->|Hne]; repeat decide_bool; cbn [negb]; verify.
    + rewrite decide_True by lia. rewrite Hheld. do 2 eexists; split; [done|]. cbn.
      split_and!; try done. intros t'.
      destruct (decide (t' = t)) as [->|]; [apply fn_update_eq | by apply only_update].
    + rewrite (Ho t) by done. do 2 eexists; split; [done|]. rewrite Em. cbn.
      split_and!; try done; try lia. exists h. rewrite fn_update_ne by done.
      split_and!; try done. intros t' Ht'.
      destruct (decide (t = t')) as [<-|]; [apply fn_update_eq|]. rewrite fn_update_ne; auto.
Qed.

(** A round of [restore_lock]. *)
Definition may_restore (l : Lock) (mode : Mode) : Prop :=
  m_mode l = Unlocked \/ m_mode l = Shared /\ mode = Shared.

Lemma restore_round_spec l held t mode count :
  lock_ok l held -> mode <> Unlocked -> 0 < count -> held t = 0 ->
  m_times_locked l + count < 2 ^ 32 ->
  (may_restore l mode /\
   exists l', Lock_restore_lock_round false t l mode count = Ret (true, l') /\
     lock_ok l' (<[t := count]> held) /\ m_mode l' = mode /\
     m_queue l' = WaitQueue_should_block (m_queue l) true)
  \/
  (~ may_restore l mode /\ Lock_restore_lock_round false t l mode count = Ret (false, l)).
Proof.
  intros Hok Hmode Hc Ht Hlt. unfold Lock_restore_lock_round, may_restore, lock_ok in *.
  destruct (m_mode l) eqn:Em.
  - left. split; [by left|]. destruct Hok as (Hn & Hh & Hs & Hz). rewrite Hn, Hh, Hs.
    destruct (counts_set ∅ held t count (counts_empty held Hz) Hc) as [H1 H2].
    change (total_held ∅) with 0 in H2.
    destruct mode; [done| |]; verify; repeat decide_bool; cbn [negb andb]; verify;
      (eexists; split; [done|]); project;
      rewrite ?(wrap_id u32 eq_refl) by (rewrite in_type_u32; lia); split_and!; try done; try lia.
    exists t. rewrite fn_update_eq. split_and!; [done..|]. by apply only_update.
  - destruct Hok as (Hh & Hb & Htot & Hcs). rewrite Hh.
    destruct (counts_set _ held t count Hcs Hc) as [H1 H2].
    pose proof (counts_lookup _ _ t Hcs) as Hl. rewrite decide_False in Hl by lia.
    destruct mode; [done| |]; verify; repeat decide_bool; cbn [negb andb].
    + left. split; [by right|]. verify.
      eexists; split; [done|]; project.
      rewrite ?(wrap_id u32 eq_refl) by (rewrite in_type_u32; lia). split_and!; try done; try lia.
    + right. split; [by intros [|[]]|done].
  - right. split; [by intros [|[]]|].
    destruct mode; [done| |]; verify; repeat decide_bool; done.
Qed.

(** ** The wait queue

    The blockers of a queue whose threads wait in [lock] are not unblocked yet. *)

Definition waiting (ts : list Thread) : list (Thread * bool) := map (fun t => (t, false)) ts.

Lemma wake_one_waiting q ts :
  m_blockers q = waiting ts ->
  let '(q', woken) := WaitQueue_wake_one q in
  woken = take 1 ts /\ m_blockers q' = waiting (drop 1 ts) /\ m_should_block q' = m_should_block q.
Proof.
  unfold WaitQueue_wake_one, WaitQueue_wake. intros ->. by destruct ts as [|t [|t' ts]].
Qed.

Lemma do_unblock_all ts : do_unblock None (waiting ts) = ([], ts).
Proof.
  induction ts as [|t ts IH]; [done|].
  change (waiting (t :: ts)) with ((t, false) :: waiting ts). cbn [do_unblock option_map].
  by rewrite IH.
Qed.

Lemma wake_all_waiting q ts :
  m_blockers q = waiting ts ->
  let '(q', woken) := WaitQueue_wake_all q in
  woken = ts /\ m_blockers q' = waiting [] /\ m_should_block q' = m_should_block q.
Proof. unfold WaitQueue_wake_all, WaitQueue_wake. intros ->. by rewrite do_unblock_all. Qed.

Lemma remove_blocker_waiting ts t :
  NoDup ts ->
  exists ts', remove_blocker (waiting ts) t = waiting ts' /\ NoDup ts' /\
    forall t', t' ∈ ts' <-> t' ∈ ts /\ t' <> t.
Proof.
  induction ts as [|t0 ts IH]; intros Hnd.
  { exists []. split_and!; [done..|]. intros t'. rewrite elem_of_nil. tauto. }
  apply NoDup_cons in Hnd as [Hnin Hnd].
  change (waiting (t0 :: ts)) with ((t0, false) :: waiting ts). cbn [remove_blocker fst].
  case_bool_decide as E.
  - subst. exists ts. split_and!; [done..|]. intros t'. rewrite elem_of_cons.
    destruct (decide (t' = t)) as [->|]; tauto.
  - destruct (IH Hnd) as (ts' & -> & Hnd' & Hin). exists (t0 :: ts'). split; [done|].
    rewrite NoDup_cons, Hin. split; [tauto|]. intros t'. rewrite !elem_of_cons, Hin.
    destruct (decide (t' = t)) as [->|]; [|tauto]. intuition congruence.
Qed.

(** ** All threads together

    What a thread is doing with the lock: nothing; in [lock], about to take the flag; in
    [lock], about to call [wait_forever]; blocked in [wait_forever]; about to call
    [wake_one]; in [restore_lock]. *)

Inductive status : Type :=
  | Running
  | Locking (mode : Mode)
  | Waiting (mode : Mode)
  | Blocked (mode : Mode)
  | ToWake
  | Restoring (mode : Mode) (lock_count : Z).

Record system : Type := MkSystem {
  s_lock : Lock;
  s_status : Thread -> status;
  s_held : Thread -> Z
}.

Definition initial : system := MkSystem Lock_new (fun _ => Running) (fun _ => 0).

(** The woken threads return from [wait_forever] to the next round of [lock]. *)
Definition wake_up (st : Thread -> status) (woken : list Thread) (t : Thread) : status :=
  match st t with
  | Blocked mode => if decide (t ∈ woken) then Locking mode else Blocked mode
  | s => s
  end.

Inductive sys_step : system -> system -> Prop :=
  | step_lock l st held t mode :
      st t = Running -> mode <> Unlocked ->
      sys_step (MkSystem l st held) (MkSystem l (<[t := Locking mode]> st) held)
  | step_acquire l st held t mode l' :
      st t = Locking mode -> m_times_locked l < 2 ^ 32 - 1 ->
      Lock_lock_round false t l mode = Ret (true, l') ->
      sys_step (MkSystem l st held)
        (MkSystem l' (<[t := Running]> st) (<[t := held t + 1]> held))
  | step_refused l st held t mode l' :
      st t = Locking mode -> m_times_locked l < 2 ^ 32 - 1 ->
      Lock_lock_round false t l mode = Ret (false, l') ->
      sys_step (MkSystem l st held) (MkSystem l' (<[t := Waiting mode]> st) held)
  | step_wait l st held t mode :
      st t = Waiting mode ->
      sys_step (MkSystem l st held)
        (let '(blocked, q) := WaitQueue_add_blocker (m_queue l) t in
         MkSystem (with_queue l q)
           (<[t := if (blocked : bool) then Blocked mode else Locking mode]> st) held)
  | step_interrupt l st held t mode :
      st t = Blocked mode ->
      sys_step (MkSystem l st held)
        (MkSystem (with_queue l (WaitQueue_remove_blocker (m_queue l) t))
           (<[t := Locking mode]> st) held)
  | step_unlock l st held t last l' :
      st t = Running -> 0 < held t -> Lock_unlock false t l = Ret (last, l') ->
      sys_step (MkSystem l st held)
        (MkSystem l' (<[t := if (last : bool) then ToWake else Running]> st)
           (<[t := held t - 1]> held))
  | step_force_unlock l st held t mode count wake l' :
      st t = Running -> Lock_force_unlock_if_locked false t l = Ret (mode, count, wake, l') ->
      sys_step (MkSystem l st held)
        (MkSystem l' (<[t := if (wake : bool) then ToWake else Running]> st)
           (<[t := held t - count]> held))
  | step_wake l st held t :
      st t = ToWake ->
      sys_step (MkSystem l st held)
        (let '(q, woken) := WaitQueue_wake_one (m_queue l) in
         MkSystem (with_queue l q) (wake_up (<[t := Running]> st) woken) held)
  | step_restore l st held t mode count :
      st t = Running -> mode <> Unlocked -> 0 < count -> held t = 0 ->
      sys_step (MkSystem l st held) (MkSystem l (<[t := Restoring mode count]> st) held)
  | step_restore_round l st held t mode count restored l' :
      st t = Restoring mode count -> m_times_locked l + count < 2 ^ 32 ->
      Lock_restore_lock_round false t l mode count = Ret (restored, l') ->
      sys_step (MkSystem l st held)
        (if (restored : bool)
         then MkSystem l' (<[t := Running]> st) (<[t := count]> held)
         else MkSystem l' st held)
  | step_clear_waiters l st held l' woken :
      Lock_clear_waiters l = Ret (l', woken) ->
      sys_step (MkSystem l st held) (MkSystem l' (wake_up st woken) held).

(** ** The invariant of the system *)

Definition active (s : status) : Prop :=
  match s with Locking _ | Waiting _ | ToWake => True | _ => False end.

Definition asleep (s : status) : Prop :=
  match s with Blocked _ => True | _ => False end.

(** A thread's status fits what it holds. *)
Definition status_ok (s : status) (held : Z) : Prop :=
  match s with
  | Locking mode | Waiting mode | Blocked mode => mode <> Unlocked
  | Restoring mode count => mode <> Unlocked /\ 0 < count /\ held = 0
  | Running | ToWake => True
  end.

(** With the lock free nobody can fall asleep: the queue does not block, or nobody is
    waiting. *)
Definition open_when_free (s : system) : Prop :=
  m_mode (s_lock s) = Unlocked ->
  m_should_block (m_queue (s_lock s)) = false \/
  forall t, match s_status s t with Waiting _ | Blocked _ => False | _ => True end.

Definition no_lost_wakeup (s : system) : Prop :=
  m_mode (s_lock s) = Unlocked ->
  (exists t, asleep (s_status s t)) -> exists t, active (s_status s t).

Record sys_ok (s : system) : Prop := MkSysOk {
  so_lock : lock_ok (s_lock s) (s_held s);
  so_status : forall t, status_ok (s_status s t) (s_held s t);
  so_queue : exists ts, m_blockers (m_queue (s_lock s)) = waiting ts /\ NoDup ts /\
    forall t, t ∈ ts <-> asleep (s_status s t);
  so_open : open_when_free s;
  so_wakeup : no_lost_wakeup s
}.

Definition waits (s : status) : Prop :=
  match s with Waiting _ | Blocked _ => True | _ => False end.

(** A step in which one thread, awake before and after, changes its status. *)
Lemma sys_ok_move l l' st held held' t s' :
  sys_ok (MkSystem l st held) -> ~ asleep (st t) -> ~ asleep s' ->
  lock_ok l' held' -> status_ok s' (held' t) -> (forall t', t <> t' -> held' t' = held t') ->
  m_blockers (m_queue l') = m_blockers (m_queue l) ->
  (m_mode l' = Unlocked ->
   m_should_block (m_queue l') = false \/
   m_mode l = Unlocked /\ m_should_block (m_queue l') = m_should_block (m_queue l) /\ ~ waits s') ->
  (m_mode l' = Unlocked -> active s' \/ m_mode l = Unlocked /\ ~ active (st t)) ->
  sys_ok (MkSystem l' (<[t := s']> st) held').
Proof.
  intros [_ Hst (ts & Hts & Hnd & Hin) Hopen Hwake] Ht Hs' Hl Hst' Hheld Hq Ho Hw.
  unfold open_when_free, no_lost_wakeup in *. cbn in Hst, Hts, Hin, Hopen, Hwake.
  split; [done| | | |]; unfold open_when_free, no_lost_wakeup; cbn.
  - intros t'. destruct (decide (t = t')) as [<-|Hn].
    + by rewrite fn_lookup_insert.
    + rewrite fn_lookup_insert_ne, Hheld by done. apply Hst.
  - exists ts. rewrite Hq. split_and!; [done..|]. intros t'.
    destruct (decide (t = t')) as [<-|Hn].
    + rewrite fn_lookup_insert, Hin. tauto.
    + by rewrite fn_lookup_insert_ne.
  - intros Hm. destruct (Ho Hm) as [H|(Hm' & Hb & Hns)]; [by left|]. rewrite Hb.
    destruct (Hopen Hm') as [H|H]; [by left|]. right. intros t'.
    destruct (decide (t = t')) as [<-|Hn].
    + rewrite fn_lookup_insert. by destruct s'.
    + rewrite fn_lookup_insert_ne by done. apply H.
  - intros Hm [t1 Ht1]. destruct (Hw Hm) as [H|[Hm' Hna]].
    { exists t. by rewrite fn_lookup_insert. }
    assert (t <> t1) as Hn1 by (intros <-; by rewrite fn_lookup_insert in Ht1).
    rewrite fn_lookup_insert_ne in Ht1 by done.
    destruct (Hwake Hm' (ex_intro _ t1 Ht1)) as [t2 Ht2]. exists t2.
    rewrite fn_lookup_insert_ne; [done|]. by intros <-.
Qed.

(** A step in which blocked threads wake up. *)
Lemma sys_ok_wake l l' st held ts woken rest :
  lock_ok l held -> (forall t, status_ok (st t) (held t)) ->
  NoDup ts -> (forall t, t ∈ ts <-> asleep (st t)) -> ts = woken ++ rest ->
  m_blockers (m_queue l') = waiting rest ->
  m_should_block (m_queue l') = m_should_block (m_queue l) ->
  open_when_free (MkSystem l st held) -> l' = with_queue l (m_queue l') ->
  (woken = [] -> rest = []) ->
  sys_ok (MkSystem l' (wake_up st woken) held).
Proof.
  intros Hl Hst Hnd Hin -> Hrest Hblock Hopen Hl' Hw.
  apply NoDup_app in Hnd as (_ & Hdisj & Hnd).
  assert (forall t, asleep (wake_up st woken t) <-> t ∈ rest) as Hasleep.
  { intros t. specialize (Hin t). specialize (Hdisj t). unfold wake_up.
    rewrite elem_of_app in Hin.
    destruct (st t); cbn in *; try tauto. case_decide; cbn; tauto. }
  rewrite Hl'. split; unfold open_when_free, no_lost_wakeup in *; cbn.
  - exact Hl.
  - intros t. specialize (Hst t). unfold wake_up. destruct (st t); try done. by case_decide.
  - exists rest. split_and!; [done..|]. intros t. by rewrite Hasleep.
  - intros Hm. cbn in Hopen. destruct (Hopen Hm) as [H|H]; [left; congruence|].
    right. intros t. specialize (H t). unfold wake_up. by destruct (st t).
  - intros _ [t Ht]. destruct woken as [|t' woken].
    + rewrite Hw in Hasleep by done. apply Hasleep in Ht. by apply not_elem_of_nil in Ht.
    + exists t'. assert (asleep (st t')) as Hs by (apply Hin; left).
      unfold wake_up. destruct (st t'); try done. by rewrite decide_True by left.
Qed.

(** A thread falls asleep, which it does only while the queue blocks. *)
Lemma sys_ok_block l st held t mode wake :
  sys_ok (MkSystem l st held) -> st t = Waiting mode -> m_should_block (m_queue l) = true ->
  sys_ok (MkSystem
    (with_queue l (MkWaitQueue (m_blockers (m_queue l) ++ [(t, false)]) wake
                     (m_should_block (m_queue l))))
    (<[t := Blocked mode]> st) held).
Proof.
  intros [Hl Hst (ts & Hts & Hnd & Hin) Hopen Hwake] Ht Hblock.
  unfold open_when_free, no_lost_wakeup in *. cbn in Hl, Hst, Hts, Hin, Hopen.
  assert (m_mode l <> Unlocked) as Hm.
  { intros Hm. destruct (Hopen Hm) as [H|H]; [congruence|]. specialize (H t). by rewrite Ht in H. }
  split; unfold open_when_free, no_lost_wakeup; cbn; [done| | |done|done].
  - intros t'. specialize (Hst t'). destruct (decide (t = t')) as [<-|Hn].
    + rewrite fn_lookup_insert. by rewrite Ht in Hst.
    + by rewrite fn_lookup_insert_ne.
  - exists (ts ++ [t]). rewrite Hts. unfold waiting. rewrite map_app. split_and!; [done| |].
    + apply NoDup_app. split_and!; [done| |apply NoDup_singleton].
      intros t' Ht' ->%list_elem_of_singleton. apply Hin in Ht'. by rewrite Ht in Ht'.
    + intros t'. rewrite elem_of_app, list_elem_of_singleton, Hin.
      destruct (decide (t = t')) as [<-|Hn].
      * rewrite fn_lookup_insert. cbn. tauto.
      * rewrite fn_lookup_insert_ne by done. intuition congruence.
Qed.

(** A blocked thread is interrupted. *)
Lemma sys_ok_interrupt l st held t mode :
  sys_ok (MkSystem l st held) -> st t = Blocked mode ->
  sys_ok (MkSystem (with_queue l (WaitQueue_remove_blocker (m_queue l) t))
            (<[t := Locking mode]> st) held).
Proof.
  intros [Hl Hst (ts & Hts & Hnd & Hin) Hopen Hwake] Ht.
  unfold open_when_free, no_lost_wakeup in *. cbn in Hl, Hst, Hts, Hin, Hopen.
  destruct (remove_blocker_waiting ts t Hnd) as (ts' & Hrm & Hnd' & Hin').
  split; unfold open_when_free, no_lost_wakeup; cbn; [done| | | |].
  - intros t'. specialize (Hst t'). destruct (decide (t = t')) as [<-|Hn].
    + rewrite fn_lookup_insert. by rewrite Ht in Hst.
    + by rewrite fn_lookup_insert_ne.
  - exists ts'. rewrite Hts. split_and!; [done..|]. intros t'. rewrite Hin', Hin.
    destruct (decide (t = t')) as [<-|Hn].
    + rewrite fn_lookup_insert. cbn. tauto.
    + rewrite fn_lookup_insert_ne by done. intuition congruence.
  - intros Hm. destruct (Hopen Hm) as [H|H]; [by left|]. specialize (H t). by rewrite Ht in H.
  - intros _ _. exists t. by rewrite fn_lookup_insert.
Qed.

Lemma lock_ok_queue l q held : lock_ok (with_queue l q) held <-> lock_ok l held.
Proof. done. Qed.

Lemma sys_ok_wake_one l st held t :
  sys_ok (MkSystem l st held) -> st t = ToWake ->
  sys_ok (let '(q, woken) := WaitQueue_wake_one (m_queue l) in
          MkSystem (with_queue l q) (wake_up (<[t := Running]> st) woken) held).
Proof.
  intros [Hl Hst (ts & Hts & Hnd & Hin) Hopen _] Ht. cbn in Hl, Hst, Hts, Hin.
  pose proof (wake_one_waiting _ ts Hts) as Hw.
  destruct (WaitQueue_wake_one (m_queue l)) as [q woken]. destruct Hw as (-> & Hq & Hb).
  apply (sys_ok_wake l _ _ _ ts _ (drop 1 ts)); try done.
  - intros t'. destruct (decide (t = t')) as [<-|Hn].
    + by rewrite fn_lookup_insert.
    + by rewrite fn_lookup_insert_ne.
  - intros t'. destruct (decide (t = t')) as [<-|Hn].
    + rewrite fn_lookup_insert, Hin, Ht. done.
    + by rewrite fn_lookup_insert_ne.
  - by rewrite take_drop.
  - unfold open_when_free in *. cbn in *. intros Hm.
    destruct (Hopen Hm) as [H|H]; [by left|]. right. intros t'.
    destruct (decide (t = t')) as [<-|Hn].
    + by rewrite fn_lookup_insert.
    + rewrite fn_lookup_insert_ne by done. apply H.
  - by destruct ts.
Qed.

Lemma sys_ok_clear_waiters l st held l' woken :
  sys_ok (MkSystem l st held) -> Lock_clear_waiters l = Ret (l', woken) ->
  sys_ok (MkSystem l' (wake_up st woken) held).
Proof.
  intros [Hl Hst (ts & Hts & Hnd & Hin) Hopen _] Hclear. cbn in Hl, Hst, Hts, Hin.
  unfold Lock_clear_waiters in Hclear. pose proof (wake_all_waiting _ ts Hts) as Hw.
  destruct (VERIFY _) as [[]|]; [|done]. run in Hclear.
  destruct (WaitQueue_wake_all (m_queue l)) as [q w]. injection Hclear as <- <-.
  destruct Hw as (-> & Hq & Hb).
  by apply (sys_ok_wake l _ _ _ ts _ []); try done; rewrite app_nil_r.
Qed.

Lemma refused_locked l held t mode : ~ may_acquire l held t mode -> m_mode l <> Unlocked.
Proof. unfold may_acquire. by destruct (m_mode l). Qed.

(** Solve the side conditions of [sys_ok_move] about a thread whose status is known. *)
Ltac by_status H :=
  solve [ rewrite H; cbn; tauto | cbn; tauto | done | eauto using fn_update_ne ].

Lemma sys_step_ok s s' : sys_step s s' -> sys_ok s -> sys_ok s'.
Proof.
  intros Hstep Hok. pose proof (so_lock s Hok) as Hl. pose proof (so_status s Hok) as Hst.
  destruct Hstep as
    [ l st held t mode Ht Hm | l st held t mode l' Ht Hlt E | l st held t mode l' Ht Hlt E
    | l st held t mode Ht | l st held t mode Ht | l st held t last l' Ht Hh E
    | l st held t mode count wake l' Ht E | l st held t Ht | l st held t mode count Ht Hm Hc Hh
    | l st held t mode count restored l' Ht Hlt E | l st held l' woken E ];
    cbn in Hl, Hst; try (specialize (Hst t); rewrite Ht in Hst).
  - apply (sys_ok_move l l st held); by_status Ht.
  - destruct (lock_round_spec l held t mode Hl Hst Hlt) as [(_ & l1 & E1 & Hl1 & Hm & Hq & _)|(_ & E1)];
      rewrite E1 in E; [|done]. injection E as <-.
    apply (sys_ok_move l l1 st held); by_status Ht.
  - destruct (lock_round_spec l held t mode Hl Hst Hlt) as [(_ & l1 & E1 & _)|(Hno & E1)];
      rewrite E1 in E; [done|]. injection E as <-. apply refused_locked in Hno.
    apply (sys_ok_move l l st held); by_status Ht.
  - unfold WaitQueue_add_blocker, WaitQueue_should_add_blocker.
    destruct (m_wake_requested (m_queue l) || negb (m_should_block (m_queue l))) eqn:Ew; cbn.
    + apply (sys_ok_move l _ st held); by_status Ht.
    + apply orb_false_iff in Ew as [_ Hb%negb_false_iff]. by apply sys_ok_block.
  - by apply sys_ok_interrupt.
  - destruct (unlock_spec l held t Hl Hh) as (l1 & E1 & Hl1 & Hq). rewrite E1 in E.
    injection E as <- <-. destruct (m_times_locked l =? 1); destruct Hq as [Hm Hq];
      apply (sys_ok_move l l1 st held); rewrite ?Hq, ?Hm; by_status Ht.
  - destruct (force_unlock_spec l held t Hl) as (l1 & w & E1 & Hl1 & Hq). rewrite E1 in E.
    injection E as <- <- <- <-. rewrite Z.sub_diag.
    case_decide as Hm; [|destruct Hq as (Hm' & -> & Hq)];
      apply (sys_ok_move l l1 st held); rewrite ?Hq, ?Hm, ?Ht;
      try by_status Ht; destruct w; by_status Ht.
  - by apply sys_ok_wake_one.
  - apply (sys_ok_move l l st held); by_status Ht.
  - destruct Hst as (Hm & Hc & Hz).
    destruct (restore_round_spec l held t mode count Hl Hm Hc Hz Hlt)
      as [(_ & l1 & E1 & Hl1 & Hm1 & Hq)|(_ & E1)];
      rewrite E1 in E; injection E as <- <-; [|done].
    apply (sys_ok_move l l1 st held); rewrite ?Hq, ?Hm1; by_status Ht.
  - by apply (sys_ok_clear_waiters l).
Qed.

Lemma initial_ok : sys_ok initial.
Proof.
  split; unfold open_when_free, no_lost_wakeup; cbn; try done.
  - exists []. split_and!; [done | constructor |]. intros t. cbn. by rewrite elem_of_nil.
  - by right.
Qed.

Lemma reachable_ok s : rtc sys_step initial s -> sys_ok s.
Proof.
  intros H. assert (forall s0, rtc sys_step s0 s -> sys_ok s0 -> sys_ok s) as Hgen.
  { intros s0 Hr. induction Hr; eauto using sys_step_ok. }
  eauto using initial_ok.
Qed.

(** What [force_unlock_if_locked] takes away [restore_lock] gives back. *)
Lemma force_restore l held t :
  lock_ok l held -> 0 < held t ->
  exists l1 l2 wake,
    Lock_force_unlock_if_locked false t l = Ret (m_mode l, held t, wake, l1) /\
    Lock_restore_lock_round false t l1 (m_mode l) (held t) = Ret (true, l2) /\
    (m_mode l2, m_times_locked l2, m_holder l2, m_shared_holders l2) =
    (m_mode l, m_times_locked l, m_holder l, m_shared_holders l).
Proof.
  intros Hok Ht.
  unfold Lock_force_unlock_if_locked, Lock_restore_lock_round, lock_ok in *.
  destruct (m_mode l) eqn:Em.
  - destruct Hok as (_ & _ & _ & Hz). rewrite Hz in Ht. lia.
  - destruct Hok as (Hh & Hb & Htot & Hc). pose proof (counts_le _ _ t Hc).
    destruct (counts_unset _ held t Hc) as [H1 H2].
    pose proof (counts_lookup _ _ t Hc) as Hl. rewrite decide_True in Hl by done.
    rewrite Hh, Hl. verify.
    assert (wrap u32 (m_times_locked l - held t + held t) = m_times_locked l) as Hw.
    { rewrite wrap_id; [lia | done | rewrite in_type_u32; lia]. }
    destruct (Z.eqb_spec (m_times_locked l - held t) 0) as [E|E];
      (do 3 eexists; split; [done|]); project; repeat decide_bool; cbn [negb andb];
      rewrite lookup_delete_eq; verify; (split; [done|]); project;
      by rewrite Hw, insert_delete_id.
  - destruct Hok as (Hs & Hb & h & Hh & Hheld & Ho).
    assert (h = t) as -> by (destruct (decide (h = t)); [done|]; rewrite Ho in Ht by done; lia).
    rewrite Hh, Hs. verify. repeat decide_bool; cbn [negb]. verify.
    do 3 eexists. rewrite Hheld. split; [done|]. project. repeat decide_bool. cbn [negb].
    verify. by split.
Qed.

(** ** Properties *)

(** C3. [Lock] excludes: in every state that threads calling [lock], [unlock],
    [force_unlock_if_locked], [restore_lock] and [clear_waiters] can reach, in any
    interleaving, when one thread has the lock exclusively no other thread has it, two
    threads have it together only in shared mode, and the lock is locked when some thread
    has it.  The counters are exact: [m_times_locked] is 0 when the lock is free, what the
    holder has locked in exclusive mode, and in shared mode the sum of the counts in
    [m_shared_holders], which are what the threads have locked.  The steps assume that
    [m_times_locked] stays below 2^32, that a thread unlocks what it has locked, and that
    it restores a lock of which it has nothing. *)
Theorem Lock_mutual_exclusion (s : system) (H : rtc sys_step initial s) :
  (forall t t', m_mode (s_lock s) = Exclusive -> 0 < s_held s t -> t' <> t -> s_held s t' = 0) /\
  (forall t t', 0 < s_held s t -> 0 < s_held s t' -> t <> t' -> m_mode (s_lock s) = Shared) /\
  (forall t, 0 < s_held s t -> Lock_is_locked (s_lock s) = true) /\
  (forall t, 0 <= s_held s t <= m_times_locked (s_lock s)) /\
  match m_mode (s_lock s) with
  | Unlocked =>
      m_times_locked (s_lock s) = 0 /\ m_holder (s_lock s) = None /\
      m_shared_holders (s_lock s) = ∅ /\ forall t, s_held s t = 0
  | Exclusive =>
      m_shared_holders (s_lock s) = ∅ /\ 0 < m_times_locked (s_lock s) /\
      exists t, m_holder (s_lock s) = Some t /\ s_held s t = m_times_locked (s_lock s)
  | Shared =>
      m_holder (s_lock s) = None /\ 0 < m_times_locked (s_lock s) /\
      m_times_locked (s_lock s) = total_held (m_shared_holders (s_lock s)) /\
      forall t, s_held s t = default 0 (m_shared_holders (s_lock s) !! t)
  end.
Proof.
  apply reachable_ok in H. destruct H as [Hl _ _ _ _].
  pose proof (fun t => lock_ok_held _ _ t Hl) as Hle.
  unfold Lock_is_locked, lock_ok in *. destruct (m_mode (s_lock s)) eqn:Em.
  - destruct Hl as (Hz & Hh & Hs & Ha).
    split_and!; try done; intros t; specialize (Hle t); intros; lia.
  - destruct Hl as (Hh & Hb & Htot & _ & Hc). split_and!; try done. lia.
  - destruct Hl as (Hs & Hb & h & Hm & Heq & Ho).
    assert (forall t, 0 < s_held s t -> t = h) as Hh.
    { intros t Ht. destruct (decide (t = h)); [done|]. rewrite Ho in Ht by done. lia. }
    split_and!; try done; [| |lia|by exists h].
    + intros t t' _ Ht Hn. apply Ho. by rewrite <- (Hh t Ht).
    + intros t t' Ht Ht' Hn. by apply Hh in Ht, Ht'; subst.
Qed.

(** Threads 1 and 2 lock in shared mode, thread 3 is refused. *)
Definition example_state : system :=
  MkSystem (MkLock Shared 2 None (<[2%positive := 1]> (<[1%positive := 1]> ∅))
              (MkWaitQueue [] false true))
    (<[3%positive := Waiting Exclusive]> (<[3%positive := Locking Exclusive]>
      (<[2%positive := Running]> (<[2%positive := Locking Shared]>
        (<[1%positive := Running]> (<[1%positive := Locking Shared]> (fun _ => Running)))))))
    (<[2%positive := 0 + 1]> (<[1%positive := 0 + 1]> (fun _ => 0))).

Lemma example_reachable : rtc sys_step initial example_state.
Proof.
  eapply rtc_l; [by apply (step_lock _ _ _ 1%positive Shared)|].
  eapply rtc_l; [by eapply (step_acquire _ _ _ 1%positive Shared)|].
  eapply rtc_l; [by apply (step_lock _ _ _ 2%positive Shared)|].
  eapply rtc_l; [by eapply (step_acquire _ _ _ 2%positive Shared)|].
  eapply rtc_l; [by apply (step_lock _ _ _ 3%positive Exclusive)|].
  eapply rtc_l; [by eapply (step_refused _ _ _ 3%positive Exclusive)|].
  apply rtc_refl.
Qed.

Lemma Lock_mutual_exclusion_witness :
  rtc sys_step initial example_state /\ m_mode (s_lock example_state) = Shared.
Proof.
  split; [exact example_reachable|].
  by apply (proj1 (proj2 (Lock_mutual_exclusion example_state example_reachable)) 1%positive 2%positive).
Defined.

(** C23. No wakeup is lost: in every reachable state in which the lock is free while a
    thread is blocked on it, some thread is active, and every active thread makes the lock
    move on: one about to take the flag in [lock] gets the lock, one about to call
    [wait_forever] does not block, and one about to call [wake_one] wakes a thread. *)
Theorem Lock_no_lost_wakeup (s : system) (t0 : Thread)
    (H : rtc sys_step initial s) (Hfree : m_mode (s_lock s) = Unlocked)
    (Hasleep : asleep (s_status s t0)) :
  (exists t, active (s_status s t)) /\
  (forall t mode, s_status s t = Locking mode ->
     exists l', Lock_lock_round false t (s_lock s) mode = Ret (true, l')) /\
  (forall t mode, s_status s t = Waiting mode ->
     fst (WaitQueue_add_blocker (m_queue (s_lock s)) t) = false) /\
  (forall t, s_status s t = ToWake ->
     exists t', snd (WaitQueue_wake_one (m_queue (s_lock s))) = [t'] /\ asleep (s_status s t')).
Proof.
  apply reachable_ok in H. destruct H as [Hl Hst (ts & Hts & _ & Hin) Hopen Hwake].
  split_and!; [by apply Hwake; eauto| | |].
  - intros t mode Ht. specialize (Hst t). rewrite Ht in Hst.
    assert (m_times_locked (s_lock s) = 0) as H0
      by (unfold lock_ok in Hl; rewrite Hfree in Hl; apply Hl).
    destruct (lock_round_spec _ _ t mode Hl Hst) as [(_ & l' & E & _)|[Hno _]]; [lia|by exists l'|].
    by apply refused_locked in Hno.
  - intros t mode Ht. destruct (Hopen Hfree) as [Hb|Hno]; [|specialize (Hno t); by rewrite Ht in Hno].
    unfold WaitQueue_add_blocker, WaitQueue_should_add_blocker. by rewrite Hb, orb_true_r.
  - intros t _. pose proof (wake_one_waiting _ ts Hts) as Hw.
    destruct (WaitQueue_wake_one _) as [q woken]. destruct Hw as (-> & _).
    apply Hin in Hasleep. destruct ts as [|t' ts]; [by apply not_elem_of_nil in Hasleep|].
    exists t'. split; [done|]. apply Hin. left.
Qed.

(** Thread 1 has the lock, thread 2 blocks, thread 1 unlocks. *)
Definition contended_state : system :=
  MkSystem (MkLock Unlocked 0 None ∅ (MkWaitQueue [(2%positive, false)] false false))
    (<[1%positive := ToWake]> (<[2%positive := Blocked Exclusive]>
      (<[2%positive := Waiting Exclusive]> (<[2%positive := Locking Exclusive]>
        (<[1%positive := Running]> (<[1%positive := Locking Exclusive]> (fun _ => Running)))))))
    (<[1%positive := 1 - 1]> (<[1%positive := 0 + 1]> (fun _ => 0))).

Lemma contended_reachable : rtc sys_step initial contended_state.
Proof.
  eapply rtc_l; [by apply (step_lock _ _ _ 1%positive Exclusive)|].
  eapply rtc_l; [by eapply (step_acquire _ _ _ 1%positive Exclusive)|].
  eapply rtc_l; [by apply (step_lock _ _ _ 2%positive Exclusive)|].
  eapply rtc_l; [by eapply (step_refused _ _ _ 2%positive Exclusive)|].
  eapply rtc_l; [by apply (step_wait _ _ _ 2%positive Exclusive)|].
  eapply rtc_l; [by eapply (step_unlock _ _ _ 1%positive)|].
  apply rtc_refl.
Qed.

Lemma Lock_no_lost_wakeup_witness :
  rtc sys_step initial contended_state /\ m_mode (s_lock contended_state) = Unlocked /\
  asleep (s_status contended_state 2%positive) /\ exists t, active (s_status contended_state t).
Proof.
  split; [exact contended_reachable|]. split; [reflexivity|]. split; [exact I|].
  apply (Lock_no_lost_wakeup contended_state 2%positive contended_reachable); [reflexivity|exact I].
Defined.

(** C24. The operations of [Lock] in any reachable state.  A round of [lock] (fewer than
    2^32 - 1 times locked) returns, acquiring exactly when the lock is free, shared like
    the request, or exclusively the thread's own; [unlock] by a thread that has the lock
    returns, and by one that has not it is a failed VERIFY; [force_unlock_if_locked] by any
    thread returns and gives back all locks the thread has, none included; a round of
    [restore_lock] by a thread that has nothing of the lock, whatever the other threads did
    since it was forced to unlock, returns, taking the lock [count] times exactly when it is
    free or shared like the request (as long as the count stays below 2^32).  Right after
    the forced unlock it restores the mode, the holders and the counts. *)
Theorem Lock_operations_correct (s : system) (t : Thread) (H : rtc sys_step initial s) :
  let l := s_lock s in
  (forall mode, mode <> Unlocked -> m_times_locked l < 2 ^ 32 - 1 ->
     (may_acquire l (s_held s) t mode /\
      exists l', Lock_lock_round false t l mode = Ret (true, l') /\
        lock_ok l' (<[t := s_held s t + 1]> (s_held s))) \/
     (~ may_acquire l (s_held s) t mode /\ Lock_lock_round false t l mode = Ret (false, l))) /\
  (0 < s_held s t ->
     exists l', Lock_unlock false t l = Ret (m_times_locked l =? 1, l') /\
       lock_ok l' (<[t := s_held s t - 1]> (s_held s))) /\
  (s_held s t = 0 -> Lock_unlock false t l = Stop VerifyFailed) /\
  (exists l' wake,
     Lock_force_unlock_if_locked false t l =
       Ret (if decide (0 < s_held s t) then m_mode l else Unlocked, s_held s t, wake, l') /\
     lock_ok l' (<[t := 0]> (s_held s))) /\
  (forall mode count, mode <> Unlocked -> 0 < count -> s_held s t = 0 ->
     m_times_locked l + count < 2 ^ 32 ->
     (may_restore l mode /\
      exists l', Lock_restore_lock_round false t l mode count = Ret (true, l') /\
        m_mode l' = mode /\ lock_ok l' (<[t := count]> (s_held s))) \/
     (~ may_restore l mode /\ Lock_restore_lock_round false t l mode count = Ret (false, l))) /\
  (0 < s_held s t ->
     exists l1 l2 wake,
       Lock_force_unlock_if_locked false t l = Ret (m_mode l, s_held s t, wake, l1) /\
       Lock_restore_lock_round false t l1 (m_mode l) (s_held s t) = Ret (true, l2) /\
       (m_mode l2, m_times_locked l2, m_holder l2, m_shared_holders l2) =
       (m_mode l, m_times_locked l, m_holder l, m_shared_holders l)).
Proof.
  apply reachable_ok in H. destruct H as [Hl _ _ _ _]. split_and!.
  - intros mode Hm Hlt. destruct (lock_round_spec _ _ t mode Hl Hm Hlt) as [(? & l' & ? & ? & _)|]; eauto.
  - intros Ht. destruct (unlock_spec _ _ t Hl Ht) as (l' & ? & ? & _). eauto.
  - by apply unlock_not_held.
  - destruct (force_unlock_spec _ _ t Hl) as (l' & wake & ? & ? & _). eauto.
  - intros mode count Hm Hc Hz Hlt.
    destruct (restore_round_spec _ _ t mode count Hl Hm Hc Hz Hlt) as [(? & l' & ? & ? & ? & _)|];
      eauto 6.
  - by apply force_restore.
Qed.

Lemma Lock_operations_correct_witness :
  rtc sys_step initial example_state /\
  exists l', Lock_unlock false 2%positive (s_lock example_state) = Ret (false, l').
Proof.
  split; [exact example_reachable|].
  destruct (proj1 (proj2 (Lock_operations_correct example_state 2%positive example_reachable)))
    as (l' & E & _); [reflexivity|].
  exists l'. exact E.
Defined.
