(* ===== verification/LinkedList.v ===== *)
(** * AK/InlineLinkedList.h: the intrusive doubly linked list

    The nodes live in a shared memory: a finite map from node addresses to their
    [m_prev] and [m_next].  A list is its [m_head] and [m_tail].  An access through an
    address without a node is [Undefined].

    [InlineLinkedList_repr] relates a list to the sequence of its nodes.  The theorems show
    that every operation is the operation on sequences one expects, and that it leaves the
    other lists of the same memory alone.  The class [LinkedListLaws] is this contract
    without the representation; the timer queue is verified against it. *)

From stdpp Require Import gmap.
From S2P Require Import Prelude.

#[local] Open Scope Z_scope.

Abbreviation ptr := positive.

Record InlineLinkedListNode : Type := MkNode { m_prev : option ptr; m_next : option ptr }.

Abbreviation nodes := (gmap ptr InlineLinkedListNode).

Record InlineLinkedList : Type := MkList { m_head : option ptr; m_tail : option ptr }.

Definition InlineLinkedList_empty : InlineLinkedList := MkList None None.

(** ** Nodes *)

Definition node_at (m : nodes) (p : ptr) : outcome InlineLinkedListNode :=
  match m !! p with Some n => Ret n | None => Stop Undefined end.

(** The constructor of a node. *)
Definition InlineLinkedListNode_new (m : nodes) (p : ptr) : nodes := <[p := MkNode None None]> m.

Definition prev (m : nodes) (p : ptr) : outcome (option ptr) := n ← node_at m p; Ret (m_prev n).
Definition next (m : nodes) (p : ptr) : outcome (option ptr) := n ← node_at m p; Ret (m_next n).
Definition set_prev (m : nodes) (p : ptr) (q : option ptr) : outcome nodes :=
  n ← node_at m p; Ret (<[p := MkNode q (m_next n)]> m).
Definition set_next (m : nodes) (p : ptr) (q : option ptr) : outcome nodes :=
  n ← node_at m p; Ret (<[p := MkNode (m_prev n) q]> m).

(** [VERIFY(pointer)] followed by its use. *)
Definition nonnull (p : option ptr) : outcome ptr :=
  match p with Some p => Ret p | None => Stop VerifyFailed end.

Definition is_null (p : option ptr) : bool := match p with Some _ => false | None => true end.

(** ** Operations *)

Definition InlineLinkedList_is_empty (l : InlineLinkedList) : bool := is_null (m_head l).

(** The loop of [for_each] over a callback that says whether to break: the node it broke
    at.  [fuel] bounds the number of nodes. *)
Fixpoint for_each_loop (fuel : nat) (m : nodes) (node : option ptr) (func : ptr -> outcome bool)
    : outcome (option ptr) :=
  match node with
  | None => Ret None
  | Some p =>
      match fuel with
      | O => Stop NoFuel
      | S fuel =>
          stop ← func p;
          if (stop : bool) then Ret (Some p)
          else n ← next m p; for_each_loop fuel m n func
      end
  end.

Definition InlineLinkedList_for_each (m : nodes) (l : InlineLinkedList) (func : ptr -> outcome bool)
    : outcome (option ptr) :=
  for_each_loop (size m) m (m_head l) func.

Definition InlineLinkedList_contains_slow (m : nodes) (l : InlineLinkedList) (value : ptr)
    : outcome bool :=
  found ← InlineLinkedList_for_each m l (fun node => Ret (bool_decide (node = value)));
  Ret (negb (is_null found)).

Fixpoint size_slow_loop (fuel : nat) (m : nodes) (node : option ptr) (size : Z) : outcome Z :=
  match node with
  | None => Ret size
  | Some p =>
      match fuel with
      | O => Stop NoFuel
      | S fuel => n ← next m p; size_slow_loop fuel m n (wrap u32 (size + 1))
      end
  end.

Definition InlineLinkedList_size_slow (m : nodes) (l : InlineLinkedList) : outcome Z :=
  size_slow_loop (size m) m (m_head l) 0.

Definition InlineLinkedList_clear (l : InlineLinkedList) : InlineLinkedList := MkList None None.

Definition InlineLinkedList_prepend (m : nodes) (l : InlineLinkedList) (node : ptr)
    : outcome (nodes * InlineLinkedList) :=
  match m_head l with
  | None =>
      VERIFY (is_null (m_tail l)) ;;
      m ← set_prev m node None;
      m ← set_next m node None;
      Ret (m, MkList (Some node) (Some node))
  | Some head =>
      VERIFY (negb (is_null (m_tail l))) ;;
      m ← set_prev m head (Some node);
      m ← set_next m node (Some head);
      m ← set_prev m node None;
      Ret (m, MkList (Some node) (m_tail l))
  end.

Definition InlineLinkedList_append (m : nodes) (l : InlineLinkedList) (node : ptr)
    : outcome (nodes * InlineLinkedList) :=
  match m_tail l with
  | None =>
      VERIFY (is_null (m_head l)) ;;
      m ← set_prev m node None;
      m ← set_next m node None;
      Ret (m, MkList (Some node) (Some node))
  | Some tail =>
      VERIFY (negb (is_null (m_head l))) ;;
      m ← set_next m tail (Some node);
      m ← set_prev m node (Some tail);
      m ← set_next m node None;
      Ret (m, MkList (m_head l) (Some node))
  end.

Definition InlineLinkedList_insert_before (m : nodes) (l : InlineLinkedList) (before_node node : ptr)
    : outcome (nodes * InlineLinkedList) :=
  VERIFY (negb (bool_decide (before_node = node))) ;;
  VERIFY (negb (InlineLinkedList_is_empty l)) ;;
  before_prev ← prev m before_node;
  if bool_decide (m_head l = Some before_node) then
    VERIFY (is_null before_prev) ;;
    m ← set_prev m node None;
    m ← set_next m node (Some before_node);
    m ← set_prev m before_node (Some node);
    Ret (m, MkList (Some node) (m_tail l))
  else
    p ← nonnull before_prev;
    m ← set_prev m node (Some p);
    m ← set_next m p (Some node);
    m ← set_next m node (Some before_node);
    m ← set_prev m before_node (Some node);
    Ret (m, l).

Definition InlineLinkedList_insert_after (m : nodes) (l : InlineLinkedList) (after_node node : ptr)
    : outcome (nodes * InlineLinkedList) :=
  VERIFY (negb (bool_decide (after_node = node))) ;;
  VERIFY (negb (InlineLinkedList_is_empty l)) ;;
  after_next ← next m after_node;
  if bool_decide (m_tail l = Some after_node) then
    VERIFY (is_null after_next) ;;
    m ← set_prev m node (Some after_node);
    m ← set_next m node None;
    m ← set_next m after_node (Some node);
    Ret (m, MkList (m_head l) (Some node))
  else
    n ← nonnull after_next;
    m ← set_prev m node (Some after_node);
    m ← set_next m node (Some n);
    m ← set_prev m n (Some node);
    m ← set_next m after_node (Some node);
    Ret (m, l).

Definition InlineLinkedList_remove (m : nodes) (l : InlineLinkedList) (node : ptr)
    : outcome (nodes * InlineLinkedList) :=
  node_prev ← prev m node;
  node_next ← next m node;
  '(m, l) ←
    (match node_prev with
     | Some p =>
         VERIFY (negb (bool_decide (m_head l = Some node))) ;;
         m ← set_next m p node_next; Ret (m, l)
     | None =>
         VERIFY (bool_decide (m_head l = Some node)) ;;
         Ret (m, MkList node_next (m_tail l))
     end);
  node_next ← next m node;
  '(m, l) ←
    (match node_next with
     | Some n =>
         VERIFY (negb (bool_decide (m_tail l = Some node))) ;;
         p ← prev m node; m ← set_prev m n p; Ret (m, l)
     | None =>
         VERIFY (bool_decide (m_tail l = Some node)) ;;
         p ← prev m node; Ret (m, MkList (m_head l) p)
     end);
  m ← set_next m node None;
  m ← set_prev m node None;
  Ret (m, l).

Definition InlineLinkedList_remove_head (m : nodes) (l : InlineLinkedList)
    : outcome (option ptr * nodes * InlineLinkedList) :=
  match m_head l with
  | Some node => '(m, l) ← InlineLinkedList_remove m l node; Ret (Some node, m, l)
  | None => Ret (None, m, l)
  end.

Definition InlineLinkedList_remove_tail (m : nodes) (l : InlineLinkedList)
    : outcome (option ptr * nodes * InlineLinkedList) :=
  match m_tail l with
  | Some node => '(m, l) ← InlineLinkedList_remove m l node; Ret (Some node, m, l)
  | None => Ret (None, m, l)
  end.

(** [append(InlineLinkedList&)]: the memory, this list and the other one. *)
Definition InlineLinkedList_append_list (m : nodes) (l other : InlineLinkedList)
    : outcome (nodes * InlineLinkedList * InlineLinkedList) :=
  match m_head other with
  | None => Ret (m, l, other)
  | Some other_head =>
      match m_head l with
      | None => Ret (m, MkList (m_head other) (m_tail other), InlineLinkedList_clear other)
      | Some _ =>
          tail ← nonnull (m_tail l);
          let other_tail := m_tail other in
          let other := InlineLinkedList_clear other in
          tail_next ← next m tail;
          VERIFY (is_null tail_next) ;;
          m ← set_next m tail (Some other_head);
          head_prev ← prev m other_head;
          VERIFY (is_null head_prev) ;;
          m ← set_prev m other_head (Some tail);
          Ret (m, MkList (m_head l) other_tail, other)
      end
  end.

(** ** Representation *)

Definition first_of (xs : list ptr) (n : option ptr) : option ptr :=
  match xs with [] => n | x :: _ => Some x end.

Definition last_of (p : option ptr) (xs : list ptr) : option ptr :=
  match last xs with None => p | Some x => Some x end.

(** The nodes [xs] are linked in this order, [p] before and [n] after them. *)
Fixpoint linked (m : nodes) (p : option ptr) (xs : list ptr) (n : option ptr) : Prop :=
  match xs with
  | [] => True
  | x :: xs => m !! x = Some (MkNode p (first_of xs n)) /\ linked m (Some x) xs n
  end.

Definition InlineLinkedList_repr (m : nodes) (l : InlineLinkedList) (xs : list ptr) : Prop :=
  NoDup xs /\ m_head l = first_of xs None /\ m_tail l = last_of None xs /\ linked m None xs None.

(** The nodes of the memory stay, and those outside of [xs] stay as they are. *)
Definition touches (m m' : nodes) (xs : list ptr) : Prop :=
  dom m' = dom m /\ forall p, p ∉ xs -> m' !! p = m !! p.

Lemma last_of_snoc p xs x : last_of p (xs ++ [x]) = Some x.
Proof. unfold last_of. by rewrite last_snoc. Qed.

Lemma last_of_cons p x xs : last_of p (x :: xs) = last_of (Some x) xs.
Proof. unfold last_of. rewrite last_cons. by destruct (last xs). Qed.

Lemma last_of_app p xs x ys : last_of p (xs ++ x :: ys) = last_of (Some x) ys.
Proof.
  revert p. induction xs as [|y xs IH]; intros p; cbn [app]; rewrite last_of_cons; [done|apply IH].
Qed.

Lemma linked_app m p xs ys n :
  linked m p (xs ++ ys) n <-> linked m p xs (first_of ys n) /\ linked m (last_of p xs) ys n.
Proof.
  revert p. induction xs as [|x xs IH]; intros p; cbn [app linked]; [cbn; tauto|].
  rewrite IH, last_of_cons. replace (first_of (xs ++ ys) n) with (first_of xs (first_of ys n))
    by (by destruct xs). tauto.
Qed.

Lemma linked_ext m m' p xs n :
  linked m p xs n -> (forall x, x ∈ xs -> m' !! x = m !! x) -> linked m' p xs n.
Proof.
  revert p. induction xs as [|x xs IH]; intros p; cbn; [done|].
  intros [Hx Hl] Hext. split.
  - rewrite Hext by left. done.
  - apply IH; [done|]. intros y Hy. apply Hext. by right.
Qed.

Lemma linked_in m p xs n x : linked m p xs n -> x ∈ xs -> x ∈ dom m.
Proof.
  revert p. induction xs as [|y xs IH]; intros p; cbn; intros H Hx; [by apply not_elem_of_nil in Hx|].
  destruct H as [Hy Hl]. apply elem_of_cons in Hx as [->|Hx]; [by apply elem_of_dom_2 in Hy|eauto].
Qed.

(** Every sequence is empty or has a last element. *)
Lemma snoc_cases (xs : list ptr) : xs = [] \/ exists ys y, xs = ys ++ [y].
Proof. destruct xs as [|ys y _] using rev_ind; eauto. Qed.

Lemma node_at_Some m p n : m !! p = Some n -> node_at m p = Ret n.
Proof. unfold node_at. by intros ->. Qed.

Lemma touches_insert m m' xs p n :
  touches m m' xs -> p ∈ dom m -> p ∈ xs -> touches m (<[p := n]> m') xs.
Proof.
  intros [Hd Hs] Hp Hin. split.
  - rewrite dom_insert_L, Hd. apply subseteq_union_1_L. by apply singleton_subseteq_l.
  - intros q Hq. rewrite lookup_insert_ne; [auto|]. by intros ->.
Qed.

Lemma touches_refl m xs : touches m m xs.
Proof. by split. Qed.

(** Membership in concatenations of known shape. *)
Ltac by_mem := repeat rewrite ?elem_of_app, ?elem_of_cons, ?elem_of_nil in *; tauto.

Ltac by_touches :=
  repeat (apply touches_insert; [|by eapply elem_of_dom_2|by_mem]); apply touches_refl.

(** Run the reads and writes of an operation on nodes whose links are known. *)
Ltac node_step :=
  match goal with
  | |- context [node_at ?m ?p] =>
      erewrite (node_at_Some m p) by (simplify_map_eq; reflexivity); run; cbn [m_prev m_next nonnull is_null]
  end.

Ltac run_nodes := unfold prev, next, set_prev, set_next; repeat (run; node_step); run.

Lemma NoDup_middle (ys zs : list ptr) x : NoDup (ys ++ x :: zs) <-> NoDup (ys ++ zs) /\ x ∉ ys ++ zs.
Proof. rewrite <- Permutation_middle, NoDup_cons. tauto. Qed.

Lemma first_of_app ys zs n : first_of (ys ++ zs) n = first_of ys (first_of zs n).
Proof. by destruct ys. Qed.

(** A sequence without duplicates whose links are those of [m] but for writes to nodes that
    are not in it. *)
Ltac same_links :=
  match goal with
  | H : linked ?m ?p ?xs ?n |- linked _ ?p ?xs ?n =>
      apply (linked_ext m _ p xs n H); intros ? ?;
      rewrite ?lookup_insert_ne by (intros ->; by_mem); done
  end.

(** Split the inequalities out of a [NoDup] hypothesis. *)
Ltac distinct Hnd :=
  pose proof Hnd; revert Hnd;
  repeat match goal with
  | H : NoDup (_ ++ _ :: _) |- _ => apply NoDup_middle in H as [? ?]
  | H : NoDup (_ :: _) |- _ => apply NoDup_cons in H as [? ?]
  | H : _ ∉ _ ++ _ |- _ => apply not_elem_of_app in H as [? ?]
  | H : _ ∉ _ :: _ |- _ => apply not_elem_of_cons in H as [? ?]
  end; intros Hnd.

Lemma append_spec m l xs node :
  InlineLinkedList_repr m l xs -> node ∉ xs -> node ∈ dom m ->
  exists m' l', InlineLinkedList_append m l node = Ret (m', l') /\
    InlineLinkedList_repr m' l' (xs ++ [node]) /\ touches m m' (xs ++ [node]).
Proof.
  intros (Hnd & Hh & Ht & Hl) Hnin [n0 Hn0]%elem_of_dom. unfold InlineLinkedList_append.
  assert (NoDup (xs ++ [node])) as Hnd' by (rewrite NoDup_middle, app_nil_r; done).
  destruct (snoc_cases xs) as [->|(ys & y & ->)].
  - rewrite Hh, Ht. cbn. run_nodes. do 2 eexists. split; [done|]. split; [|by_touches].
    split_and!; try done. cbn. by simplify_map_eq.
  - rewrite last_of_snoc in Ht. rewrite Hh, Ht. apply linked_app in Hl as [Hl [Hy _]].
    cbn [first_of] in Hy. rewrite (VERIFY_true (negb _)) by (by destruct ys).
    distinct Hnd'. run_nodes.
    do 2 eexists. split; [done|]. split; [|by_touches].
    split_and!; cbn [m_head m_tail]; [done | by destruct ys | by rewrite last_of_snoc |].
    rewrite <- app_assoc. cbn [app]. rewrite linked_app. cbn. simplify_map_eq.
    split_and!; try done. same_links.
Qed.

Lemma prepend_spec m l xs node :
  InlineLinkedList_repr m l xs -> node ∉ xs -> node ∈ dom m ->
  exists m' l', InlineLinkedList_prepend m l node = Ret (m', l') /\
    InlineLinkedList_repr m' l' (node :: xs) /\ touches m m' (node :: xs).
Proof.
  intros (Hnd & Hh & Ht & Hl) Hnin [n0 Hn0]%elem_of_dom. unfold InlineLinkedList_prepend.
  assert (NoDup (node :: xs)) as Hnd' by (by apply NoDup_cons).
  destruct xs as [|x xs]; rewrite Hh, Ht.
  - cbn. run_nodes. do 2 eexists. split; [done|]. split; [|by_touches].
    split_and!; try done. cbn. by simplify_map_eq.
  - destruct Hl as [Hx Hl]. cbn [first_of].
    rewrite (VERIFY_true (negb _)) by (rewrite last_of_cons; unfold last_of; by destruct (last xs)).
    distinct Hnd'. run_nodes. do 2 eexists. split; [done|]. split; [|by_touches].
    split_and!; cbn [m_head m_tail]; [done..|by rewrite !last_of_cons|].
    cbn. simplify_map_eq. split_and!; try done. same_links.
Qed.

Lemma list_insert_before_spec m l ys before_node zs node :
  InlineLinkedList_repr m l (ys ++ before_node :: zs) -> node ∉ ys ++ before_node :: zs ->
  node ∈ dom m ->
  exists m' l', InlineLinkedList_insert_before m l before_node node = Ret (m', l') /\
    InlineLinkedList_repr m' l' (ys ++ node :: before_node :: zs) /\
    touches m m' (ys ++ node :: before_node :: zs).
Proof.
  intros (Hnd & Hh & Ht & Hl) Hnin [n0 Hn0]%elem_of_dom.
  assert (NoDup (ys ++ node :: before_node :: zs)) as Hnd' by (by rewrite NoDup_middle).
  unfold InlineLinkedList_insert_before, InlineLinkedList_is_empty.
  rewrite first_of_app in Hh. rewrite last_of_app in Ht.
  apply linked_app in Hl as [Hl [Hb Hl']]. cbn [first_of] in *. distinct Hnd'.
  rewrite (VERIFY_true (negb (bool_decide _))) by (by rewrite bool_decide_false). run.
  rewrite (VERIFY_true (negb (is_null _))) by (rewrite Hh; by destruct ys). run.
  destruct (snoc_cases ys) as [->|(ys' & y & ->)].
  - rewrite Hh. cbn [first_of]. rewrite bool_decide_true by done. run_nodes.
    do 2 eexists. split; [done|]. split; [|by_touches].
    split_and!; cbn [m_head m_tail]; [done..|by rewrite Ht, last_of_app, last_of_cons|].
    cbn. simplify_map_eq. split_and!; try done. same_links.
  - rewrite last_of_snoc in Hb. apply linked_app in Hl as [Hl [Hy _]]. cbn [first_of] in Hy.
    rewrite <- app_assoc in *. cbn [app] in *. distinct Hnd'.
    rewrite bool_decide_false
      by (rewrite Hh, first_of_app; destruct ys'; cbn; intros [= ->]; by_mem).
    run_nodes. do 2 eexists. split; [done|]. split; [|by_touches].
    split_and!; cbn [m_head m_tail]; [done|by rewrite Hh, first_of_app; destruct ys'| |].
    + by rewrite Ht, last_of_app, !last_of_cons.
    + rewrite linked_app. cbn. simplify_map_eq. split_and!; try done; same_links.
Qed.

Lemma insert_after_spec m l ys after_node zs node :
  InlineLinkedList_repr m l (ys ++ after_node :: zs) -> node ∉ ys ++ after_node :: zs ->
  node ∈ dom m ->
  exists m' l', InlineLinkedList_insert_after m l after_node node = Ret (m', l') /\
    InlineLinkedList_repr m' l' (ys ++ after_node :: node :: zs) /\
    touches m m' (ys ++ after_node :: node :: zs).
Proof.
  intros (Hnd & Hh & Ht & Hl) Hnin [n0 Hn0]%elem_of_dom.
  assert (NoDup (ys ++ after_node :: node :: zs)) as Hnd'.
  { rewrite (cons_middle after_node), app_assoc, NoDup_middle, <- app_assoc. by split. }
  unfold InlineLinkedList_insert_after, InlineLinkedList_is_empty.
  rewrite first_of_app in Hh. rewrite last_of_app in Ht.
  apply linked_app in Hl as [Hl [Hb Hl']]. cbn [first_of] in *. distinct Hnd'.
  rewrite (VERIFY_true (negb (bool_decide _))) by (by rewrite bool_decide_false). run.
  rewrite (VERIFY_true (negb (is_null _))) by (rewrite Hh; by destruct ys). run.
  destruct zs as [|z zs].
  - rewrite Ht. cbn [last_of last]. rewrite bool_decide_true by done. run_nodes.
    do 2 eexists. split; [done|]. split; [|by_touches].
    split_and!; cbn [m_head m_tail]; [done|by rewrite Hh, first_of_app|by rewrite last_of_app|].
    rewrite linked_app. cbn. simplify_map_eq. split_and!; try done. same_links.
  - destruct Hl' as [Hz Hl']. rewrite last_of_cons in Ht. distinct Hnd'.
    rewrite bool_decide_false.
    2: { rewrite Ht. unfold last_of. destruct (last zs) as [w|] eqn:E; [|congruence].
         intros [= ->]. apply last_Some_elem_of in E. by_mem. }
    run_nodes. do 2 eexists. split; [done|]. split; [|by_touches].
    split_and!; cbn [m_head m_tail]; [done|by rewrite Hh, first_of_app| |].
    + by rewrite Ht, last_of_app, !last_of_cons.
    + rewrite linked_app. cbn. simplify_map_eq. split_and!; try done; same_links.
Qed.

Lemma first_of_ne ys x zs n : x ∉ ys -> ys <> [] -> first_of (ys ++ zs) n <> Some x.
Proof. destruct ys as [|y ys]; [done|]. cbn. intros Hx _ [= ->]. by_mem. Qed.

Lemma last_of_ne p x zs : x ∉ zs -> zs <> [] -> last_of p zs <> Some x.
Proof.
  unfold last_of. intros Hx Hne. destruct (last zs) as [w|] eqn:E; [|by apply last_None in E].
  intros [= ->]. by apply last_Some_elem_of in E.
Qed.

Ltac verify_ptr :=
  run_nodes;
  repeat match goal with
  | |- context [VERIFY ?b] =>
      rewrite (VERIFY_true b)
        by (cbn [m_head m_tail];
            first [by apply bool_decide_true | rewrite bool_decide_false; [done|congruence]]);
      run_nodes
  end.

Lemma remove_spec m l ys node zs :
  InlineLinkedList_repr m l (ys ++ node :: zs) ->
  exists m' l', InlineLinkedList_remove m l node = Ret (m', l') /\
    InlineLinkedList_repr m' l' (ys ++ zs) /\ touches m m' (ys ++ node :: zs) /\
    m' !! node = Some (MkNode None None).
Proof.
  intros (Hnd & Hh & Ht & Hl). unfold InlineLinkedList_remove.
  rewrite last_of_app in Ht. apply linked_app in Hl as [Hl [Hn Hl']]. cbn [first_of] in *.
  assert (NoDup (ys ++ zs)) as Hnd' by (by apply NoDup_middle in Hnd as [? _]).
  revert Hnd'; distinct Hnd; intros Hnd'.
  destruct (snoc_cases ys) as [->|(ys' & y & ->)]; (destruct zs as [|z zs]; [|destruct Hl' as [Hz Hl']]);
    cbn [first_of app] in *.
  - cbn in Ht. change (last_of None []) with (@None ptr) in *. verify_ptr.
    do 2 eexists. split; [done|].
    split_and!; [|by_touches|by simplify_map_eq]. by split_and!.
  - assert (m_tail l <> Some node) by (rewrite Ht; by apply last_of_ne).
    change (last_of None []) with (@None ptr) in *. revert Hnd'; distinct Hnd; intros Hnd'. verify_ptr.
    do 2 eexists. split; [done|].
    split_and!; [|by_touches|by simplify_map_eq].
    split_and!; cbn [m_head m_tail]; [done..|by rewrite Ht, !last_of_cons|].
    cbn. simplify_map_eq. split_and!; try done. same_links.
  - assert (m_head l <> Some node) by (rewrite Hh; apply first_of_ne; [done|by destruct ys']).
    rewrite last_of_snoc in *. apply linked_app in Hl as [Hl [Hy _]]. cbn [first_of] in Hy.
    rewrite <- !app_assoc in *. cbn [app] in *.
    revert Hnd'; distinct Hnd; intros Hnd'. verify_ptr. do 2 eexists. split; [done|].
    split_and!; [|by_touches|by simplify_map_eq].
    split_and!; cbn [m_head m_tail]; [done| | |].
    + by rewrite Hh, !first_of_app.
    + by rewrite last_of_snoc.
    + rewrite linked_app. cbn. simplify_map_eq. split_and!; try done. same_links.
  - assert (m_head l <> Some node) by (rewrite Hh; apply first_of_ne; [done|by destruct ys']).
    assert (m_tail l <> Some node) by (rewrite Ht; by apply last_of_ne).
    rewrite last_of_snoc in *. apply linked_app in Hl as [Hl [Hy _]]. cbn [first_of] in Hy.
    rewrite <- !app_assoc in *. cbn [app] in *. revert Hnd'; distinct Hnd; intros Hnd'. verify_ptr.
    do 2 eexists. split; [done|]. split_and!; [|by_touches|by simplify_map_eq].
    split_and!; cbn [m_head m_tail]; [done| | |].
    + by rewrite Hh, !first_of_app.
    + by rewrite Ht, last_of_app, !last_of_cons.
    + rewrite linked_app. cbn. simplify_map_eq. split_and!; try done; same_links.
Qed.

Lemma append_list_spec m l other xs ys :
  InlineLinkedList_repr m l xs -> InlineLinkedList_repr m other ys -> NoDup (xs ++ ys) ->
  exists m' l', InlineLinkedList_append_list m l other = Ret (m', l', InlineLinkedList_empty) /\
    InlineLinkedList_repr m' l' (xs ++ ys) /\ touches m m' (xs ++ ys).
Proof.
  intros (_ & Hh & Ht & Hl) (_ & Hh' & Ht' & Hl') Hnd. unfold InlineLinkedList_append_list.
  destruct ys as [|y ys].
  { rewrite Hh', app_nil_r in *. exists m, l. split_and!; [|by split_and!|apply touches_refl].
    destruct other as [h t]. cbn in *. by subst. }
  rewrite Hh'. cbn [first_of]. destruct (snoc_cases xs) as [->|(xs' & x & ->)].
  - rewrite Hh. exists m, other. split_and!; [|by split_and!|apply touches_refl].
    by destruct other; cbn in *; subst.
  - replace (m_head l) with (Some (default x (first_of xs' None))) by (rewrite Hh; by destruct xs').
    rewrite last_of_snoc in Ht. rewrite Ht. cbn [nonnull].
    apply linked_app in Hl as [Hl [Hx _]]. destruct Hl' as [Hy Hl']. cbn [first_of] in Hx.
    rewrite <- app_assoc in *. cbn [app] in *. distinct Hnd. run_nodes. cbn [VERIFY]. run_nodes.
    do 2 eexists. split; [done|]. split; [|by_touches].
    split_and!; cbn [m_head m_tail]; [done|by destruct xs'| |].
    + by rewrite Ht', last_of_app, !last_of_cons.
    + rewrite linked_app. cbn. simplify_map_eq. split_and!; try done; same_links.
Qed.

(** [for_each] visits the nodes in order, up to the first one that breaks. *)
Lemma for_each_loop_spec m func g fuel p xs :
  linked m p xs None -> (length xs <= fuel)%nat ->
  (forall x, x ∈ xs -> func x = Ret (g x)) ->
  for_each_loop fuel m (first_of xs None) func = Ret (List.find g xs).
Proof.
  revert p fuel. induction xs as [|x xs IH]; intros p fuel Hl Hfuel Hf; [by destruct fuel|].
  destruct fuel as [|fuel]; [cbn in Hfuel; lia|]. destruct Hl as [Hx Hl]. cbn [for_each_loop first_of].
  rewrite Hf by left. run. cbn [List.find]. destruct (g x); [done|]. run_nodes.
  apply (IH (Some x)); [done|cbn in Hfuel; lia|]. intros y Hy. apply Hf. by right.
Qed.

Lemma size_slow_loop_spec m fuel p xs acc :
  linked m p xs None -> (length xs <= fuel)%nat -> 0 <= acc -> acc + Z.of_nat (length xs) < 2 ^ 32 ->
  size_slow_loop fuel m (first_of xs None) acc = Ret (acc + Z.of_nat (length xs)).
Proof.
  revert p fuel acc. induction xs as [|x xs IH]; intros p fuel acc Hl Hfuel Hacc Hlen.
  { destruct fuel; cbn; f_equal; lia. }
  destruct fuel as [|fuel]; [cbn in Hfuel; lia|]. destruct Hl as [Hx Hl]. cbn [size_slow_loop first_of].
  run_nodes. cbn [length] in *.
  rewrite (wrap_id u32 eq_refl) by (rewrite in_type_u32; lia).
  rewrite (IH (Some x)) by (try done; lia). f_equal. lia.
Qed.

Lemma repr_length m l xs : InlineLinkedList_repr m l xs -> (length xs <= size m)%nat.
Proof.
  intros (Hnd & _ & _ & Hl). rewrite <- size_dom.
  rewrite <- (size_list_to_set (C := gset ptr) xs Hnd). apply subseteq_size.
  intros x Hx%elem_of_list_to_set. by apply (linked_in m None xs None).
Qed.

Lemma for_each_spec m l xs func g :
  InlineLinkedList_repr m l xs -> (forall x, x ∈ xs -> func x = Ret (g x)) ->
  InlineLinkedList_for_each m l func = Ret (List.find g xs).
Proof.
  intros Hr Hf. pose proof (repr_length m l xs Hr) as Hlen. destruct Hr as (_ & Hh & _ & Hl).
  unfold InlineLinkedList_for_each. rewrite Hh. by apply (for_each_loop_spec m func g _ None).
Qed.

Lemma find_eq (xs : list ptr) x :
  negb (is_null (List.find (fun y => bool_decide (y = x)) xs)) = bool_decide (x ∈ xs).
Proof.
  induction xs as [|y xs IH]; [done|]. cbn [List.find].
  destruct (decide (y = x)) as [->|E].
  - rewrite !bool_decide_true by (done || left). done.
  - rewrite (bool_decide_false (y = x)), IH by done. apply bool_decide_ext. rewrite elem_of_cons. intuition congruence.
Qed.

Lemma contains_slow_spec m l xs x :
  InlineLinkedList_repr m l xs ->
  InlineLinkedList_contains_slow m l x = Ret (bool_decide (x ∈ xs)).
Proof.
  intros Hr. unfold InlineLinkedList_contains_slow.
  rewrite (for_each_spec m l xs _ (fun y => bool_decide (y = x)) Hr) by done. run.
  by rewrite find_eq.
Qed.

Lemma repr_frame m m' l xs S :
  touches m m' S -> InlineLinkedList_repr m l xs -> (forall x, x ∈ xs -> x ∉ S) ->
  InlineLinkedList_repr m' l xs.
Proof.
  intros [_ Ht] (Hnd & Hh & Hl & Hk) Hdisj. split_and!; try done.
  apply (linked_ext m); [done|]. intros x Hx. by apply Ht, Hdisj.
Qed.

(** ** The contract of a linked list

    [M] is the memory of the nodes, [L] the list object. *)

Class LinkedListOps (M L : Type) := {
  ll_empty : L;
  ll_new_node : M -> ptr -> M;
  ll_delete_node : M -> ptr -> M;
  ll_head : L -> option ptr;
  ll_for_each : M -> L -> (ptr -> outcome bool) -> outcome (option ptr);
  ll_contains_slow : M -> L -> ptr -> outcome bool;
  ll_append : M -> L -> ptr -> outcome (M * L);
  ll_insert_before : M -> L -> ptr -> ptr -> outcome (M * L);
  ll_remove : M -> L -> ptr -> outcome (M * L)
}.

(** [ll_repr m l xs]: the nodes of [l] are [xs], in this order.  [ll_node m p]: there is a
    node at [p].  The lists that share no node with the arguments are not affected. *)
Class LinkedListLaws (M L : Type) `{LinkedListOps M L} := {
  ll_repr : M -> L -> list ptr -> Prop;
  ll_node : M -> ptr -> Prop;
  ll_frame (m m' : M) (S : list ptr) : Prop :=
    (forall l xs, ll_repr m l xs -> (forall x, x ∈ xs -> x ∉ S) -> ll_repr m' l xs) /\
    (forall p, ll_node m' p <-> ll_node m p);
  ll_repr_NoDup : forall m l xs, ll_repr m l xs -> NoDup xs;
  ll_repr_node : forall m l xs x, ll_repr m l xs -> x ∈ xs -> ll_node m x;
  ll_empty_law : forall m, ll_repr m ll_empty [];
  ll_new_node_law : forall m p, ~ ll_node m p ->
    (forall l xs, ll_repr m l xs -> ll_repr (ll_new_node m p) l xs) /\
    forall q, ll_node (ll_new_node m p) q <-> ll_node m q \/ q = p;
  ll_delete_node_law : forall m p,
    (forall l xs, ll_repr m l xs -> p ∉ xs -> ll_repr (ll_delete_node m p) l xs) /\
    forall q, ll_node (ll_delete_node m p) q <-> ll_node m q /\ q <> p;
  ll_head_law : forall m l xs, ll_repr m l xs -> ll_head l = first_of xs None;
  ll_for_each_law : forall m l xs func g, ll_repr m l xs ->
    (forall x, x ∈ xs -> func x = Ret (g x)) -> ll_for_each m l func = Ret (List.find g xs);
  ll_contains_slow_law : forall m l xs x, ll_repr m l xs ->
    ll_contains_slow m l x = Ret (bool_decide (x ∈ xs));
  ll_append_law : forall m l xs p, ll_repr m l xs -> p ∉ xs -> ll_node m p ->
    exists m' l', ll_append m l p = Ret (m', l') /\ ll_repr m' l' (xs ++ [p]) /\
      ll_frame m m' (xs ++ [p]);
  ll_insert_before_law : forall m l xs q ys p, ll_repr m l (xs ++ q :: ys) ->
    p ∉ xs ++ q :: ys -> ll_node m p ->
    exists m' l', ll_insert_before m l q p = Ret (m', l') /\
      ll_repr m' l' (xs ++ p :: q :: ys) /\ ll_frame m m' (xs ++ p :: q :: ys);
  ll_remove_law : forall m l xs p ys, ll_repr m l (xs ++ p :: ys) ->
    exists m' l', ll_remove m l p = Ret (m', l') /\ ll_repr m' l' (xs ++ ys) /\
      ll_frame m m' (xs ++ p :: ys)
}.

#[global] Instance InlineLinkedList_ops : LinkedListOps nodes InlineLinkedList := {
  ll_empty := InlineLinkedList_empty;
  ll_new_node := InlineLinkedListNode_new;
  ll_delete_node m p := delete p m;
  ll_head := m_head;
  ll_for_each := InlineLinkedList_for_each;
  ll_contains_slow := InlineLinkedList_contains_slow;
  ll_append := InlineLinkedList_append;
  ll_insert_before := InlineLinkedList_insert_before;
  ll_remove := InlineLinkedList_remove
}.

Lemma touches_frame m m' S :
  touches m m' S ->
  (forall l xs, InlineLinkedList_repr m l xs -> (forall x, x ∈ xs -> x ∉ S) ->
     InlineLinkedList_repr m' l xs) /\
  (forall p, p ∈ dom m' <-> p ∈ dom m).
Proof.
  intros H. split; [eauto using repr_frame|]. destruct H as [-> _]. done.
Qed.

Lemma repr_other m m' l xs p :
  InlineLinkedList_repr m l xs -> p ∉ xs -> (forall q, q <> p -> m' !! q = m !! q) ->
  InlineLinkedList_repr m' l xs.
Proof.
  intros (Hnd & Hh & Hl & Hk) Hp Hm. split_and!; try done.
  apply (linked_ext m); [done|]. intros x Hx. apply Hm. by intros ->.
Qed.

#[global] Instance InlineLinkedList_laws : LinkedListLaws nodes InlineLinkedList.
Proof.
  refine {| ll_repr := InlineLinkedList_repr; ll_node := fun m p => p ∈ dom m |}; cbn.
  - by intros m l xs [H _].
  - intros m l xs x (_ & _ & _ & H) Hx. by apply (linked_in m None xs None).
  - intros m. split_and!; try done. constructor.
  - intros m p Hp. unfold InlineLinkedListNode_new. split.
    + intros l xs Hr. apply (repr_other m _ l xs p Hr).
      * intros Hx. apply Hp. destruct Hr as (_ & _ & _ & Hl). by apply (linked_in m None xs None).
      * intros q Hq. by rewrite lookup_insert_ne.
    + intros q. rewrite dom_insert_L, elem_of_union, elem_of_singleton. tauto.
  - intros m p. split.
    + intros l xs Hr Hx. apply (repr_other m _ l xs p Hr Hx).
      intros q Hq. by rewrite lookup_delete_ne.
    + intros q. rewrite dom_delete_L, elem_of_difference, elem_of_singleton. done.
  - by intros m l xs (_ & H & _).
  - apply for_each_spec.
  - apply contains_slow_spec.
  - intros m l xs p Hr Hp Hn. destruct (append_spec m l xs p Hr Hp Hn) as (m' & l' & ? & ? & ?).
    exists m', l'. split; [done|]. split; [done|]. by apply touches_frame.
  - intros m l xs q ys p Hr Hp Hn.
    destruct (list_insert_before_spec m l xs q ys p Hr Hp Hn) as (m' & l' & ? & ? & ?).
    exists m', l'. split; [done|]. split; [done|]. by apply touches_frame.
  - intros m l xs p ys Hr. destruct (remove_spec m l xs p ys Hr) as (m' & l' & ? & ? & ? & _).
    exists m', l'. split; [done|]. split; [done|]. by apply touches_frame.
Defined.

(** ** Properties *)

(** The operations of [InlineLinkedList] are those on sequences: on a list with the
    nodes [xs] and a node [p] that is not in it, [prepend] and [append] add [p] at the
    ends, [insert_before] and [insert_after] add it beside any node of the list, [remove]
    takes out any node, [contains_slow] and [size_slow] tell membership and length, and no
    VERIFY fails.  A list of the same memory that shares no node with [p :: xs] keeps its
    nodes throughout. *)
Theorem InlineLinkedList_operations_correct (m : nodes) (l : InlineLinkedList) (xs : list ptr)
    (p : ptr) (H : InlineLinkedList_repr m l xs) (Hp : p ∉ xs) (Hnode : p ∈ dom m)
    (other : InlineLinkedList) (ys : list ptr) (Hother : InlineLinkedList_repr m other ys)
    (Hdisj : forall y, y ∈ ys -> y ∉ p :: xs) :
  let ok r zs := exists m' l', r = Ret (m', l') /\ InlineLinkedList_repr m' l' zs /\
                   InlineLinkedList_repr m' other ys in
  ok (InlineLinkedList_prepend m l p) (p :: xs) /\
  ok (InlineLinkedList_append m l p) (xs ++ [p]) /\
  (forall us q vs, xs = us ++ q :: vs ->
     ok (InlineLinkedList_insert_before m l q p) (us ++ p :: q :: vs) /\
     ok (InlineLinkedList_insert_after m l q p) (us ++ q :: p :: vs) /\
     ok (InlineLinkedList_remove m l q) (us ++ vs)) /\
  (forall q, InlineLinkedList_contains_slow m l q = Ret (bool_decide (q ∈ xs))) /\
  (Z.of_nat (length xs) < 2 ^ 32 -> InlineLinkedList_size_slow m l = Ret (Z.of_nat (length xs))) /\
  (exists m' l', InlineLinkedList_append_list m l other = Ret (m', l', InlineLinkedList_empty) /\
     InlineLinkedList_repr m' l' (xs ++ ys)).
Proof.
  assert (forall m' S, touches m m' S -> (forall y, y ∈ S -> y ∈ p :: xs) ->
    InlineLinkedList_repr m' other ys) as Hframe.
  { intros m' S Ht HS. apply (repr_frame m m' other ys S Ht Hother).
    intros y Hy HyS. by apply (Hdisj y Hy), HS. }
  intros ok. subst ok. cbn beta. split_and!.
  - destruct (prepend_spec m l xs p H Hp Hnode) as (m' & l' & ? & ? & Ht).
    exists m', l'. split_and!; [done..|]. by apply (Hframe _ _ Ht).
  - destruct (append_spec m l xs p H Hp Hnode) as (m' & l' & ? & ? & Ht).
    exists m', l'. split_and!; [done..|]. apply (Hframe _ _ Ht). intros y Hy. by_mem.
  - intros us q vs ->. split_and!.
    + destruct (list_insert_before_spec m l us q vs p H Hp Hnode) as (m' & l' & ? & ? & Ht).
      exists m', l'. split_and!; [done..|]. apply (Hframe _ _ Ht). intros y Hy. by_mem.
    + destruct (insert_after_spec m l us q vs p H Hp Hnode) as (m' & l' & ? & ? & Ht).
      exists m', l'. split_and!; [done..|]. apply (Hframe _ _ Ht). intros y Hy. by_mem.
    + destruct (remove_spec m l us q vs H) as (m' & l' & ? & ? & Ht & _).
      exists m', l'. split_and!; [done..|]. apply (Hframe _ _ Ht). intros y Hy. by_mem.
  - intros q. by apply contains_slow_spec.
  - intros Hlen. pose proof (repr_length m l xs H). destruct H as (_ & Hh & _ & Hl).
    unfold InlineLinkedList_size_slow. rewrite Hh, (size_slow_loop_spec m _ None xs 0) by (done || lia).
    f_equal.
  - destruct (append_list_spec m l other xs ys H Hother) as (m' & l' & ? & ? & _); [|by eauto].
    apply NoDup_app. destruct H as [? _]. destruct Hother as [? _]. split_and!; try done.
    intros y Hy Hy'. apply (Hdisj y Hy'). by right.
Qed.

Definition example_nodes : nodes :=
  <[1%positive := MkNode None (Some 2%positive)]> (<[2%positive := MkNode (Some 1%positive) None]>
    (<[3%positive := MkNode None None]> (<[4%positive := MkNode None None]> ∅))).

Lemma example_list_repr :
  InlineLinkedList_repr example_nodes (MkList (Some 1%positive) (Some 2%positive)) [1%positive; 2%positive] /\
  InlineLinkedList_repr example_nodes (MkList (Some 4%positive) (Some 4%positive)) [4%positive].
Proof.
  split; (split; [apply (bool_decide_unpack _); vm_compute; exact I|]); by vm_compute.
Qed.

Lemma InlineLinkedList_operations_correct_witness :
  exists m' l', InlineLinkedList_append example_nodes (MkList (Some 1%positive) (Some 2%positive)) 3%positive
    = Ret (m', l') /\ InlineLinkedList_repr m' l' [1%positive; 2%positive; 3%positive].
Proof.
  destruct example_list_repr as [H1 H2].
  destruct (InlineLinkedList_operations_correct example_nodes
    (MkList (Some 1%positive) (Some 2%positive)) [1%positive; 2%positive] 3%positive H1
    ltac:(apply (bool_decide_unpack _); vm_compute; exact I)
    ltac:(apply elem_of_dom; vm_compute; eauto)
    (MkList (Some 4%positive) (Some 4%positive)) [4%positive] H2)
    as (_ & (m' & l' & E & Hr & _) & _).
  - intros y ->%list_elem_of_singleton. apply (bool_decide_unpack _). vm_compute. exact I.
  - exists m', l'. split; [exact E|exact Hr].
Defined.
