(* ===== verification/TimerQueue.v ===== *)
(** * Kernel/TimeQueue.h and Kernel/TimeQueue.cpp: the timer queue

    Timers are reference counted objects in a shared store, linked into one of three
    lists: the queue of the monotonic clocks, the queue of the realtime clocks, and the
    list of the timers whose callback has been handed to the deferred calls.  The lists
    are any implementation of the contract [LinkedListLaws], and the theorems hold for
    all of them; at the end they are used with [InlineLinkedList].

    The spin lock of the queue makes each stretch between taking and releasing it atomic.
    [fire] releases it after each timer, so one round is a function of its own, and
    [cancel_timer] releases it while it waits for an executing timer.  Callbacks are not
    modelled; a fired timer is the result of the round, and [TimerQueue_finish_timer] is
    what the deferred call does after the callback. *)

From Stdlib Require Import Sorting.Sorted.
From stdpp Require Import gmap sorting.
From S2P Require Import Prelude Checked AKTime LinkedList.

#[local] Open Scope Z_scope.

(** ** Timers *)

Record Timer : Type := MkTimer {
  m_id : Z;
  m_clock_id : Z;
  m_expires : Time;
  m_remaining : Time;
  m_queued : bool;
  m_ref_count : Z
}.

Definition Timer_new (clock_id : Z) (expires : Time) : Timer :=
  MkTimer 0 clock_id expires (MkTime 0 0) false 1.

Definition set_id (t : Timer) (id : Z) : Timer :=
  MkTimer id (m_clock_id t) (m_expires t) (m_remaining t) (m_queued t) (m_ref_count t).
Definition set_remaining (t : Timer) (r : Time) : Timer :=
  MkTimer (m_id t) (m_clock_id t) (m_expires t) r (m_queued t) (m_ref_count t).
Definition set_queued (t : Timer) (queued : bool) : Timer :=
  MkTimer (m_id t) (m_clock_id t) (m_expires t) (m_remaining t) queued (m_ref_count t).
Definition set_ref_count (t : Timer) (n : Z) : Timer :=
  MkTimer (m_id t) (m_clock_id t) (m_expires t) (m_remaining t) (m_queued t) n.

Definition CLOCK_REALTIME : Z := 0.
Definition CLOCK_MONOTONIC : Z := 1.
Definition CLOCK_MONOTONIC_RAW : Z := 4.
Definition CLOCK_REALTIME_COARSE : Z := 5.
Definition CLOCK_MONOTONIC_COARSE : Z := 6.

(** [TimeManagement::the().current_time(clock_id).value()], for a given state of the
    clocks. *)
Definition clock_value (current_time : Z -> option Time) (clock_id : Z) : outcome Time :=
  match current_time clock_id with Some t => Ret t | None => Stop VerifyFailed end.

(** [Timer::now]. *)
Definition firing_clock (clock_id : Z) : Z :=
  if clock_id =? CLOCK_MONOTONIC then CLOCK_MONOTONIC_COARSE
  else if clock_id =? CLOCK_MONOTONIC_RAW then clock_id
  else if clock_id =? CLOCK_REALTIME then CLOCK_REALTIME_COARSE
  else clock_id.

Definition Timer_now (current_time : Z -> option Time) (t : Timer) (is_firing : bool)
    : outcome Time :=
  clock_value current_time (if is_firing then firing_clock (m_clock_id t) else m_clock_id t).

Lemma Time_gt_total a b : Time_ok a -> Time_ok b -> Time_gt a b = (total b <? total a).
Proof.
  destruct a, b. unfold Time_ok, total, Time_gt; simpl. intros [_ ?] [_ ?]. bool_lia.
Qed.

Lemma Time_le_total a b : Time_ok a -> Time_ok b -> Time_le a b = (total a <=? total b).
Proof.
  destruct a, b. unfold Time_ok, total, Time_le; simpl. intros [_ ?] [_ ?]. bool_lia.
Qed.

(** ** The queue *)

Inductive which : Type := Monotonic | Realtime.

#[global] Instance which_eq_dec : EqDecision which.
Proof. solve_decision. Defined.

(** [TimerQueue::queue_for_timer]. *)
Definition queue_for_timer (t : Timer) : outcome which :=
  if (m_clock_id t =? CLOCK_MONOTONIC) || (m_clock_id t =? CLOCK_MONOTONIC_COARSE)
     || (m_clock_id t =? CLOCK_MONOTONIC_RAW)
  then Ret Monotonic
  else if (m_clock_id t =? CLOCK_REALTIME) || (m_clock_id t =? CLOCK_REALTIME_COARSE)
  then Ret Realtime
  else Stop VerifyFailed.

Section queue.
Context {M L : Type} {Ops : LinkedListOps M L} {Laws : @LinkedListLaws M L Ops}.

Record Queue : Type := MkQueue { q_list : L; next_timer_due : Time }.

Record TimerQueue : Type := MkTimerQueue {
  m_timer_id_count : Z;
  m_timer_queue_monotonic : Queue;
  m_timer_queue_realtime : Queue;
  m_timers_executing : L;
  s_timers : gmap ptr Timer;
  s_nodes : M
}.

Definition get_queue (s : TimerQueue) (w : which) : Queue :=
  match w with Monotonic => m_timer_queue_monotonic s | Realtime => m_timer_queue_realtime s end.

Definition set_queue (s : TimerQueue) (w : which) (q : Queue) (nodes : M) : TimerQueue :=
  match w with
  | Monotonic => MkTimerQueue (m_timer_id_count s) q (m_timer_queue_realtime s)
                   (m_timers_executing s) (s_timers s) nodes
  | Realtime => MkTimerQueue (m_timer_id_count s) (m_timer_queue_monotonic s) q
                  (m_timers_executing s) (s_timers s) nodes
  end.

Definition set_executing (s : TimerQueue) (l : L) (nodes : M) : TimerQueue :=
  MkTimerQueue (m_timer_id_count s) (m_timer_queue_monotonic s) (m_timer_queue_realtime s)
    l (s_timers s) nodes.

Definition set_timers (s : TimerQueue) (timers : gmap ptr Timer) : TimerQueue :=
  MkTimerQueue (m_timer_id_count s) (m_timer_queue_monotonic s) (m_timer_queue_realtime s)
    (m_timers_executing s) timers (s_nodes s).

Definition set_id_count (s : TimerQueue) (n : Z) : TimerQueue :=
  MkTimerQueue n (m_timer_queue_monotonic s) (m_timer_queue_realtime s)
    (m_timers_executing s) (s_timers s) (s_nodes s).

Definition TimerQueue_new (nodes : M) : TimerQueue :=
  MkTimerQueue 0 (MkQueue ll_empty Time_zero) (MkQueue ll_empty Time_zero) ll_empty ∅ nodes.

Definition timer_at (s : TimerQueue) (p : ptr) : outcome Timer :=
  match s_timers s !! p with Some t => Ret t | None => Stop Undefined end.

Definition put_timer (s : TimerQueue) (p : ptr) (t : Timer) : TimerQueue :=
  set_timers s (<[p := t]> (s_timers s)).

(** [new Timer] at the address [p], in the hands of a [NonnullRefPtr]. *)
Definition new_timer (s : TimerQueue) (p : ptr) (clock_id : Z) (expires : Time) : TimerQueue :=
  MkTimerQueue (m_timer_id_count s) (m_timer_queue_monotonic s) (m_timer_queue_realtime s)
    (m_timers_executing s) (<[p := Timer_new clock_id expires]> (s_timers s))
    (ll_new_node (s_nodes s) p).

(** [RefCounted::ref] and [unref]; the destructor of [Timer] checks [is_queued]. *)
Definition Timer_ref (s : TimerQueue) (p : ptr) : outcome TimerQueue :=
  t ← timer_at s p;
  VERIFY (0 <? m_ref_count t) ;;
  VERIFY (negb (Checked_addition_would_overflow u32 (m_ref_count t) 1)) ;;
  Ret (put_timer s p (set_ref_count t (m_ref_count t + 1))).

Definition Timer_unref (s : TimerQueue) (p : ptr) : outcome TimerQueue :=
  t ← timer_at s p;
  VERIFY (0 <? m_ref_count t) ;;
  if m_ref_count t - 1 =? 0 then
    VERIFY (negb (m_queued t)) ;;
    Ret (MkTimerQueue (m_timer_id_count s) (m_timer_queue_monotonic s) (m_timer_queue_realtime s)
           (m_timers_executing s) (delete p (s_timers s)) (ll_delete_node (s_nodes s) p))
  else Ret (put_timer s p (set_ref_count t (m_ref_count t - 1))).

(** ** Operations *)

Definition TimerQueue_update_next_timer_due (s : TimerQueue) (w : which) : outcome TimerQueue :=
  let queue := get_queue s w in
  due ← (match ll_head (q_list queue) with
         | Some next_timer => t ← timer_at s next_timer; Ret (m_expires t)
         | None => Ret (MkTime 0 0)
         end);
  Ret (set_queue s w (MkQueue (q_list queue) due) (s_nodes s)).

Definition TimerQueue_add_timer_locked (s : TimerQueue) (timer : ptr) : outcome TimerQueue :=
  t ← timer_at s timer;
  let timer_expiration := m_expires t in
  VERIFY (negb (m_queued t)) ;;
  w ← queue_for_timer t;
  let queue := get_queue s w in
  if is_null (ll_head (q_list queue)) then
    '(nodes, list) ← ll_append (s_nodes s) (q_list queue) timer;
    Ret (set_queue s w (MkQueue list timer_expiration) nodes)
  else
    following_timer ← ll_for_each (s_nodes s) (q_list queue)
      (fun p => t ← timer_at s p; Ret (Time_gt (m_expires t) timer_expiration));
    match following_timer with
    | Some following_timer =>
        let next_timer_needs_update := bool_decide (ll_head (q_list queue) = Some following_timer) in
        '(nodes, list) ← ll_insert_before (s_nodes s) (q_list queue) following_timer timer;
        Ret (set_queue s w
               (MkQueue list (if next_timer_needs_update then timer_expiration
                              else next_timer_due queue)) nodes)
    | None =>
        '(nodes, list) ← ll_append (s_nodes s) (q_list queue) timer;
        Ret (set_queue s w (MkQueue list (next_timer_due queue)) nodes)
    end.

(** [new_address] is where the allocator puts the timer. *)
Definition TimerQueue_add_timer_without_id (current_time : Z -> option Time) (s : TimerQueue)
    (new_address : ptr) (clock_id : Z) (deadline : Time) : outcome (option ptr * TimerQueue) :=
  now ← clock_value current_time clock_id;
  if Time_le deadline now then Ret (None, s)
  else
    let timer := new_address in
    let s := new_timer s timer clock_id deadline in
    t ← timer_at s timer;
    let s := put_timer s timer (set_id t 0) in
    s ← Timer_ref s timer;
    s ← TimerQueue_add_timer_locked s timer;
    Ret (Some timer, s).

(** [add_timer(NonnullRefPtr<Timer>&&)]: [timer] is the pointer the reference holds, and
    moving out of it leaves it null. *)
Definition TimerQueue_add_timer (s : TimerQueue) (timer : option ptr) : outcome (Z * TimerQueue) :=
  p ← nonnull timer;
  t ← timer_at s p;
  let id := wrap u64 (m_timer_id_count s + 1) in
  let s := put_timer (set_id_count s id) p (set_id t id) in
  VERIFY (negb (id =? 0)) ;;
  s ← TimerQueue_add_timer_locked s p;
  let timer := None in
  p ← nonnull timer;
  t ← timer_at s p;
  Ret (m_id t, s).

(** [add_timer(clockid_t, const Time&, Function<void()>&&)]. *)
Definition TimerQueue_add_timer_for_clock (current_time : Z -> option Time) (s : TimerQueue)
    (new_address : ptr) (clock_id : Z) (deadline : Time) : outcome (Z * TimerQueue) :=
  expires ← clock_value current_time clock_id;
  expires ← Time_add expires deadline;
  TimerQueue_add_timer (new_timer s new_address clock_id expires) (Some new_address).

Definition TimerQueue_remove_timer_locked (current_time : Z -> option Time) (s : TimerQueue)
    (w : which) (timer : ptr) : outcome TimerQueue :=
  let queue := get_queue s w in
  let was_next_timer := bool_decide (ll_head (q_list queue) = Some timer) in
  '(nodes, list) ← ll_remove (s_nodes s) (q_list queue) timer;
  let s := set_queue s w (MkQueue list (next_timer_due queue)) nodes in
  t ← timer_at s timer;
  let t := set_queued t false in
  now ← Timer_now current_time t false;
  t ← (if Time_gt (m_expires t) now
       then remaining ← Time_sub (m_expires t) now; Ret (set_remaining t remaining)
       else Ret t);
  let s := put_timer s timer t in
  s ← (if (was_next_timer : bool) then TimerQueue_update_next_timer_due s w else Ret s);
  Timer_unref s timer.

(** [cancel_timer(TimerId)] up to its loop that waits: [None] when that loop follows, after
    which the result is [false]. *)
Definition TimerQueue_cancel_timer_id (current_time : Z -> option Time) (s : TimerQueue) (id : Z)
    : outcome (option TimerQueue) :=
  let has_id p := t ← timer_at s p; Ret (m_id t =? id) in
  found ← ll_for_each (s_nodes s) (q_list (m_timer_queue_monotonic s)) has_id;
  match found with
  | Some p => s ← TimerQueue_remove_timer_locked current_time s Monotonic p; Ret (Some s)
  | None =>
      found ← ll_for_each (s_nodes s) (q_list (m_timer_queue_realtime s)) has_id;
      match found with
      | Some p => s ← TimerQueue_remove_timer_locked current_time s Realtime p; Ret (Some s)
      | None => Ret None
      end
  end.

(** The condition of that loop, evaluated under the lock. *)
Definition TimerQueue_id_executing (s : TimerQueue) (id : Z) : outcome bool :=
  found ← ll_for_each (s_nodes s) (m_timers_executing s) (fun p => t ← timer_at s p; Ret (m_id t =? id));
  Ret (negb (is_null found)).

(** [cancel_timer(Timer&)], in the same way. *)
Definition TimerQueue_cancel_timer (current_time : Z -> option Time) (s : TimerQueue) (timer : ptr)
    : outcome (option TimerQueue) :=
  t ← timer_at s timer;
  w ← queue_for_timer t;
  queued ← ll_contains_slow (s_nodes s) (q_list (get_queue s w)) timer;
  if negb (queued : bool) then Ret None
  else
    VERIFY (1 <? m_ref_count t) ;;
    s ← TimerQueue_remove_timer_locked current_time s w timer; Ret (Some s).

Definition TimerQueue_timer_executing (s : TimerQueue) (timer : ptr) : outcome bool :=
  ll_contains_slow (s_nodes s) (m_timers_executing s) timer.

(** One round of the loop of [fire_timers], under the lock: the timer it hands to the
    deferred calls, if the first one is due. *)
Definition TimerQueue_fire_round (current_time : Z -> option Time) (s : TimerQueue) (w : which)
    : outcome (option ptr * TimerQueue) :=
  let queue := get_queue s w in
  match ll_head (q_list queue) with
  | None => Ret (None, s)
  | Some timer =>
      t ← timer_at s timer;
      now ← Timer_now current_time t true;
      if Time_gt now (m_expires t) then
        '(nodes, list) ← ll_remove (s_nodes s) (q_list queue) timer;
        let s := set_queue s w (MkQueue list (next_timer_due queue)) nodes in
        let s := put_timer s timer (set_queued t false) in
        '(nodes, executing) ← ll_append (s_nodes s) (m_timers_executing s) timer;
        let s := set_executing s executing nodes in
        s ← TimerQueue_update_next_timer_due s w;
        Ret (Some timer, s)
      else Ret (None, s)
  end.

(** The rounds of [fire_timers] when nobody else takes the lock in between: the fired
    timers. *)
Fixpoint fire_rounds (fuel : nat) (current_time : Z -> option Time) (s : TimerQueue) (w : which)
    : outcome (list ptr * TimerQueue) :=
  match fuel with
  | O => Stop NoFuel
  | S fuel =>
      '(fired, s) ← TimerQueue_fire_round current_time s w;
      match fired with
      | None => Ret ([], s)
      | Some p => '(ps, s) ← fire_rounds fuel current_time s w; Ret (p :: ps, s)
      end
  end.

Definition fire_timers (current_time : Z -> option Time) (s : TimerQueue) (w : which)
    : outcome (list ptr * TimerQueue) :=
  let queue := get_queue s w in
  timer ← nonnull (ll_head (q_list queue));
  t ← timer_at s timer;
  VERIFY (Time_eq (next_timer_due queue) (m_expires t)) ;;
  fire_rounds (S (size (s_timers s))) current_time s w.

Definition TimerQueue_fire (current_time : Z -> option Time) (s : TimerQueue)
    : outcome (list ptr * TimerQueue) :=
  '(ps, s) ← (if is_null (ll_head (q_list (m_timer_queue_monotonic s))) then Ret ([], s)
              else fire_timers current_time s Monotonic);
  '(qs, s) ← (if is_null (ll_head (q_list (m_timer_queue_realtime s))) then Ret ([], s)
              else fire_timers current_time s Realtime);
  Ret (ps ++ qs, s).

(** The end of the deferred call of a fired timer. *)
Definition TimerQueue_finish_timer (s : TimerQueue) (timer : ptr) : outcome TimerQueue :=
  '(nodes, executing) ← ll_remove (s_nodes s) (m_timers_executing s) timer;
  Timer_unref (set_executing s executing nodes) timer.

(** ** The invariant *)

Definition timer_ok (t : Timer) : Prop :=
  Time_ok (m_expires t) /\ m_queued t = false /\ 0 < m_ref_count t < 2 ^ 32.

(** When the timer at [p] expires. *)
Definition expires (s : TimerQueue) (p : ptr) : Time :=
  match s_timers s !! p with Some t => m_expires t | None => Time_zero end.

Definition not_after (s : TimerQueue) (p q : ptr) : Prop := total (expires s p) <= total (expires s q).

(** The queues hold the timers [qs], the executing list holds [exec]: the lists are
    disjoint, a timer is in the queue of its clock, the queues are sorted, and
    [next_timer_due] is the expiry of the first timer. *)
Record tq_ok (s : TimerQueue) (qs : which -> list ptr) (exec : list ptr) : Prop := MkTqOk {
  tok_repr : forall w, ll_repr (s_nodes s) (q_list (get_queue s w)) (qs w);
  tok_exec : ll_repr (s_nodes s) (m_timers_executing s) exec;
  tok_disjoint : forall w w' p, p ∈ qs w -> p ∈ qs w' -> w = w';
  tok_executing : forall w p, p ∈ qs w -> p ∉ exec;
  tok_nodes : forall p, ll_node (s_nodes s) p <-> is_Some (s_timers s !! p);
  tok_timer : forall p t, s_timers s !! p = Some t -> timer_ok t;
  tok_clock : forall w p t, p ∈ qs w -> s_timers s !! p = Some t -> queue_for_timer t = Ret w;
  tok_sorted : forall w, StronglySorted (not_after s) (qs w);
  tok_due : forall w, next_timer_due (get_queue s w) =
    match qs w with [] => Time_zero | p :: _ => expires s p end
}.

Definition upd (qs : which -> list ptr) (w : which) (xs : list ptr) : which -> list ptr :=
  fun w' => if decide (w' = w) then xs else qs w'.

Lemma upd_eq qs w xs : upd qs w xs w = xs.
Proof. unfold upd. by rewrite decide_True. Qed.

Lemma upd_ne qs w w' xs : w' <> w -> upd qs w xs w' = qs w'.
Proof. intros. unfold upd. by rewrite decide_False. Qed.

Lemma get_set_eq s w q n : get_queue (set_queue s w q n) w = q.
Proof. by destruct w. Qed.

Lemma get_set_ne s w w' q n : w' <> w -> get_queue (set_queue s w q n) w' = get_queue s w'.
Proof. by destruct w, w'. Qed.

Lemma set_queue_fields s w q n :
  s_timers (set_queue s w q n) = s_timers s /\ s_nodes (set_queue s w q n) = n /\
  m_timers_executing (set_queue s w q n) = m_timers_executing s.
Proof. by destruct w. Qed.

Lemma put_timer_queue s p t w : get_queue (put_timer s p t) w = get_queue s w.
Proof. by destruct w. Qed.

Lemma timer_at_Some s p t : s_timers s !! p = Some t -> timer_at s p = Ret t.
Proof. unfold timer_at. by intros ->. Qed.

Lemma expires_Some s p t : s_timers s !! p = Some t -> expires s p = m_expires t.
Proof. unfold expires. by intros ->. Qed.

Lemma tq_ok_in s qs exec w p :
  tq_ok s qs exec -> p ∈ qs w -> exists t, s_timers s !! p = Some t /\ timer_ok t.
Proof.
  intros H Hp. destruct (proj1 (tok_nodes _ _ _ H p)) as [t Ht].
  - eapply ll_repr_node; [apply (tok_repr _ _ _ H w)|done].
  - eauto using tok_timer.
Qed.

Lemma StronglySorted_ext {A} (R R' : A -> A -> Prop) xs :
  (forall x y, x ∈ xs -> y ∈ xs -> R x y -> R' x y) -> StronglySorted R xs -> StronglySorted R' xs.
Proof.
  intros H Hs. induction Hs as [|x xs Hs IH Hx]; constructor.
  - apply IH. intros y z Hy Hz. apply H; by right.
  - rewrite Forall_forall in *. intros y Hy. apply H; [left|by right|]. auto.
Qed.

(** Changing fields of a timer other than its expiry and clock keeps the invariant. *)
Lemma tq_ok_put s qs exec p t t' :
  tq_ok s qs exec -> s_timers s !! p = Some t -> m_expires t' = m_expires t ->
  m_clock_id t' = m_clock_id t -> timer_ok t' -> tq_ok (put_timer s p t') qs exec.
Proof.
  intros H Hp He Hc Ht'.
  assert (forall q, expires (put_timer s p t') q = expires s q) as Hexp.
  { intros q. unfold expires, put_timer. cbn. destruct (decide (p = q)) as [<-|Hn].
    - by rewrite lookup_insert_eq, Hp.
    - by rewrite lookup_insert_ne. }
  split.
  - intros w. rewrite put_timer_queue. apply H.
  - apply H.
  - apply H.
  - apply H.
  - intros q. cbn. rewrite (tok_nodes _ _ _ H). rewrite lookup_insert_is_Some.
    destruct (decide (p = q)) as [<-|Hn]; [|intuition]. rewrite Hp. split; eauto.
  - intros q t0. cbn. rewrite lookup_insert_Some. intros [[<- <-]|[_ Hq]]; [done|].
    by apply (tok_timer _ _ _ H q).
  - intros w q t0 Hq. cbn. rewrite lookup_insert_Some. intros [[<- <-]|[_ Hq']].
    + unfold queue_for_timer. rewrite Hc. by apply (tok_clock _ _ _ H w p t).
    + by apply (tok_clock _ _ _ H w q).
  - intros w. eapply StronglySorted_ext; [|apply (tok_sorted _ _ _ H w)].
    intros x y _ _. unfold not_after. by rewrite !Hexp.
  - intros w. rewrite put_timer_queue, (tok_due _ _ _ H). destruct (qs w); [done|]. by rewrite Hexp.
Qed.
(** A list operation on the queue [w] that leaves the timers alone. *)
Lemma tq_ok_queue s qs exec w l due n xs S :
  tq_ok s qs exec -> ll_repr n l xs -> ll_frame (s_nodes s) n S ->
  (forall p, p ∈ S -> p ∈ qs w \/ p ∈ xs) ->
  (forall p, p ∈ xs -> (p ∉ exec) /\ forall w', p ∈ qs w' -> w' = w) ->
  (forall p t, p ∈ xs -> s_timers s !! p = Some t -> queue_for_timer t = Ret w) ->
  StronglySorted (not_after s) xs ->
  due = match xs with [] => Time_zero | p :: _ => expires s p end ->
  tq_ok (set_queue s w (MkQueue l due) n) (upd qs w xs) exec.
Proof.
  intros H Hr [Hframe Hnode] HS Hxs Hclock Hsort Hdue.
  destruct (set_queue_fields s w (MkQueue l due) n) as (Et & En & Ee).
  assert (forall q, expires (set_queue s w (MkQueue l due) n) q = expires s q) as Hexp.
  { intros q. unfold expires. by rewrite Et. }
  split; rewrite ?Et, ?En, ?Ee.
  - intros w'. destruct (decide (w' = w)) as [->|Hn].
    + by rewrite get_set_eq, upd_eq.
    + rewrite get_set_ne, upd_ne by done. apply Hframe; [apply H|].
      intros x Hx HxS. apply Hn. destruct (HS x HxS) as [Hw|Hw].
      * by apply (tok_disjoint _ _ _ H w' w x).
      * by apply (Hxs x Hw).
  - apply Hframe; [apply H|]. intros x Hx HxS. destruct (HS x HxS) as [Hw|Hw].
    + by apply (tok_executing _ _ _ H w x).
    + by apply (Hxs x Hw).
  - intros w1 w2 p. destruct (decide (w1 = w)) as [->|], (decide (w2 = w)) as [->|];
      rewrite ?upd_eq, ?upd_ne by done; intros H1 H2; [done|..].
    + symmetry. by apply (Hxs p H1).
    + by apply (Hxs p H2).
    + by apply (tok_disjoint _ _ _ H w1 w2 p).
  - intros w1 p. destruct (decide (w1 = w)) as [->|]; rewrite ?upd_eq, ?upd_ne by done; intros H1.
    + by apply (Hxs p H1).
    + by apply (tok_executing _ _ _ H w1 p).
  - intros p. rewrite Hnode. apply H.
  - apply H.
  - intros w1 p t. destruct (decide (w1 = w)) as [->|]; rewrite ?upd_eq, ?upd_ne by done; intros H1 Hp.
    + eauto.
    + by apply (tok_clock _ _ _ H w1 p).
  - intros w1. apply (StronglySorted_ext (not_after s)).
    { intros x y _ _. unfold not_after. by rewrite !Hexp. }
    destruct (decide (w1 = w)) as [->|]; rewrite ?upd_eq, ?upd_ne by done; [done|apply H].
  - intros w1. destruct (decide (w1 = w)) as [->|].
    + rewrite get_set_eq, upd_eq. cbn. destruct xs; [done|]. by rewrite Hexp.
    + rewrite get_set_ne, upd_ne, (tok_due _ _ _ H) by done. destruct (qs w1); [done|]. by rewrite Hexp.
Qed.

(** A list operation on the executing list. *)
Lemma tq_ok_executing s qs exec l n exec' S :
  tq_ok s qs exec -> ll_repr n l exec' -> ll_frame (s_nodes s) n S ->
  (forall p w, p ∈ S -> p ∉ qs w) -> (forall p w, p ∈ qs w -> p ∉ exec') ->
  tq_ok (set_executing s l n) qs exec'.
Proof.
  intros H Hr [Hframe Hnode] HS Hdisj.
  assert (forall w, get_queue (set_executing s l n) w = get_queue s w) as Hq by (by intros []).
  split; cbn.
  - intros w. rewrite Hq. apply Hframe; [apply H|]. intros x Hx HxS. by apply (HS x w).
  - done.
  - apply H.
  - eauto.
  - intros p. rewrite Hnode. apply H.
  - apply H.
  - apply H.
  - apply H.
  - intros w. rewrite Hq. apply H.
Qed.

Lemma find_split (g : ptr -> bool) xs :
  match List.find g xs with
  | Some q => exists xs1 xs2, xs = xs1 ++ q :: xs2 /\ g q = true /\ forall x, x ∈ xs1 -> g x = false
  | None => forall x, x ∈ xs -> g x = false
  end.
Proof.
  induction xs as [|x xs IH]; cbn; [by intros x ?%not_elem_of_nil|].
  destruct (g x) eqn:E.
  - exists [], xs. split_and!; [done..|]. by intros y ?%not_elem_of_nil.
  - destruct (List.find g xs) as [q|].
    + destruct IH as (xs1 & xs2 & -> & Hq & Hall). exists (x :: xs1), xs2. split_and!; [done..|].
      intros y [->|Hy]%elem_of_cons; auto.
    + intros y [->|Hy]%elem_of_cons; auto.
Qed.

Lemma sorted_insert s xs1 p xs2 :
  StronglySorted (not_after s) (xs1 ++ xs2) ->
  (forall x, x ∈ xs1 -> not_after s x p) -> (forall x, x ∈ xs2 -> not_after s p x) ->
  StronglySorted (not_after s) (xs1 ++ p :: xs2).
Proof.
  rewrite !StronglySorted_app, StronglySorted_cons, Forall_forall. intros (H1 & H2 & H3) Hl Hr.
  split_and!; try done. intros x y Hx [->|Hy]%elem_of_cons; auto.
Qed.
Lemma update_due_spec s w xs :
  ll_repr (s_nodes s) (q_list (get_queue s w)) xs ->
  (forall p, p ∈ xs -> is_Some (s_timers s !! p)) ->
  TimerQueue_update_next_timer_due s w =
  Ret (set_queue s w (MkQueue (q_list (get_queue s w))
         (match xs with [] => Time_zero | p :: _ => expires s p end)) (s_nodes s)).
Proof.
  intros Hr Hxs. unfold TimerQueue_update_next_timer_due. rewrite (ll_head_law _ _ _ Hr).
  destruct xs as [|p xs]; [done|]. cbn [first_of]. destruct (Hxs p) as [t Ht]; [left|].
  by rewrite (timer_at_Some s p t Ht), (expires_Some s p t Ht).
Qed.

(** Inserting [p] between [xs1] and [xs2] in the queue of its clock. *)
Lemma tq_ok_insert s qs exec w p t l n xs1 xs2 :
  tq_ok s qs exec -> s_timers s !! p = Some t -> queue_for_timer t = Ret w ->
  (forall w, p ∉ qs w) -> p ∉ exec -> qs w = xs1 ++ xs2 ->
  (forall x, x ∈ xs1 -> not_after s x p) -> (forall x, x ∈ xs2 -> not_after s p x) ->
  ll_repr n l (xs1 ++ p :: xs2) -> ll_frame (s_nodes s) n (xs1 ++ p :: xs2) ->
  tq_ok (set_queue s w (MkQueue l (match xs1 with [] => m_expires t | _ => next_timer_due (get_queue s w) end)) n)
    (upd qs w (xs1 ++ p :: xs2)) exec.
Proof.
  intros H Ht Hw Hq He Hxs H1 H2 Hr Hf.
  assert (forall x, x ∈ xs1 ++ p :: xs2 -> x ∈ qs w \/ x = p) as Hin by (rewrite Hxs; intros x; by_mem).
  apply (tq_ok_queue s qs exec w _ _ n _ (xs1 ++ p :: xs2)); try done.
  - tauto.
  - intros x [Hx| ->]%Hin; split.
    + by apply (tok_executing _ _ _ H w).
    + intros w' Hx'. by apply (tok_disjoint _ _ _ H w' w x).
    + done.
    + intros w' Hx'. by destruct (Hq w').
  - intros x tx [Hx| ->]%Hin Htx; [by apply (tok_clock _ _ _ H w x)|congruence].
  - apply sorted_insert; try done. rewrite <- Hxs. apply H.
  - destruct xs1 as [|x xs1]; cbn; [by rewrite (expires_Some s p t Ht)|].
    by rewrite (tok_due _ _ _ H w), Hxs.
Qed.

Lemma add_timer_locked_spec s qs exec p t w :
  tq_ok s qs exec -> s_timers s !! p = Some t -> queue_for_timer t = Ret w ->
  (forall w, p ∉ qs w) -> p ∉ exec ->
  exists s' xs1 xs2, TimerQueue_add_timer_locked s p = Ret s' /\ qs w = xs1 ++ xs2 /\
    (forall x, x ∈ xs1 -> total (expires s x) <= total (m_expires t)) /\
    (forall x, x ∈ xs2 -> total (m_expires t) < total (expires s x)) /\
    tq_ok s' (upd qs w (xs1 ++ p :: xs2)) exec /\
    s_timers s' = s_timers s /\ m_timer_id_count s' = m_timer_id_count s.
Proof.
  intros H Ht Hw Hq He. destruct (tok_timer _ _ _ H p t Ht) as (Hok & Hqueued & _).
  unfold TimerQueue_add_timer_locked. rewrite (timer_at_Some s p t Ht). run.
  rewrite Hqueued. cbn [negb]. rewrite (VERIFY_true true eq_refl). run. rewrite Hw. run.
  pose proof (tok_repr _ _ _ H w) as Hr. rewrite (ll_head_law _ _ _ Hr).
  assert (ll_node (s_nodes s) p) as Hnode by (apply (tok_nodes _ _ _ H); eauto).
  pose proof (tq_ok_insert s qs exec w p t) as Hins. unfold not_after in Hins.
  rewrite (expires_Some s p t Ht) in Hins.
  destruct (ll_append_law _ _ _ p Hr (Hq w) Hnode) as (n & l & Eapp & Hr' & Hf).
  destruct (qs w) as [|x xs] eqn:Exs.
  { cbn. rewrite Eapp. run. eexists _, [], []. split; [done|]. split; [done|].
    split; [by intros x ?%not_elem_of_nil|]. split; [by intros x ?%not_elem_of_nil|].
    split; [|by destruct w]. apply (Hins l n [] []); try done; by intros x ?%not_elem_of_nil. }
  cbn [first_of is_null].
  rewrite (ll_for_each_law _ _ _ _ (fun p => total (m_expires t) <? total (expires s p)) Hr).
  2: { intros y Hy. rewrite <- Exs in Hy. destruct (tq_ok_in s qs exec w y H Hy) as (ty & Hty & Hoky & _).
       rewrite (timer_at_Some s y ty Hty), (expires_Some s y ty Hty). run.
       by rewrite Time_gt_total. }
  run. pose proof (find_split (fun p => total (m_expires t) <? total (expires s p)) (x :: xs)) as Hfind.
  destruct (List.find _ (x :: xs)) as [q|].
  - destruct Hfind as (xs1 & xs2 & Esplit & Hgq & Hxs1). rewrite Esplit in *.
    destruct (ll_insert_before_law _ _ xs1 q xs2 p Hr) as (n' & l' & Eins & Hr'' & Hf');
      [by rewrite <- Exs|done|]. rewrite Eins. run.
    assert (forall y, y ∈ q :: xs2 -> total (m_expires t) < total (expires s y)) as Hlater.
    { pose proof (tok_sorted _ _ _ H w) as Hs. rewrite Exs in Hs.
      apply StronglySorted_app in Hs as (_ & _ & [Hs _]%StronglySorted_cons).
      intros y [->|Hy]%elem_of_cons; [lia|]. rewrite Forall_forall in Hs.
      specialize (Hs y Hy). unfold not_after in Hs. lia. }
    assert (forall y, y ∈ xs1 -> total (expires s y) <= total (m_expires t)) as Hearlier.
    { intros y Hy. specialize (Hxs1 y Hy). lia. }
    eexists _, xs1, (q :: xs2). split; [done|]. split_and!; try done; try (by destruct w).
    replace (if bool_decide (Some x = Some q) then m_expires t else next_timer_due (get_queue s w))
      with (match xs1 with [] => m_expires t | _ => next_timer_due (get_queue s w) end).
    + apply Hins; try done. intros y Hy. specialize (Hlater y Hy). lia.
    + destruct xs1 as [|y xs1]; injection Esplit as -> ->; [by rewrite bool_decide_true|].
      rewrite bool_decide_false; [done|]. intros [= <-]. specialize (Hearlier y ltac:(left)). lia.
  - rewrite Eapp. run. eexists _, (x :: xs), []. split; [done|].
    assert (forall y, y ∈ x :: xs -> total (expires s y) <= total (m_expires t)) as Hearlier.
    { intros y Hy. specialize (Hfind y Hy). lia. }
    split_and!; try (by rewrite app_nil_r); try done; try (by destruct w);
      [by intros y ?%not_elem_of_nil|].
    apply (Hins l n (x :: xs) []); rewrite ?app_nil_r; try done. by intros y ?%not_elem_of_nil.
Qed.
(** What dropping a reference leaves of the timers. *)
Definition dropped (timers : gmap ptr Timer) (p : ptr) (t : Timer) : gmap ptr Timer :=
  if m_ref_count t =? 1 then delete p timers
  else <[p := set_ref_count t (m_ref_count t - 1)]> timers.

Lemma unref_spec s qs exec p t :
  tq_ok s qs exec -> s_timers s !! p = Some t -> (forall w, p ∉ qs w) -> p ∉ exec ->
  exists s', Timer_unref s p = Ret s' /\ tq_ok s' qs exec /\ s_timers s' = dropped (s_timers s) p t.
Proof.
  intros H Ht Hq He. destruct (tok_timer _ _ _ H p t Ht) as (Hok & Hqueued & Href).
  unfold Timer_unref, dropped. rewrite (timer_at_Some s p t Ht). run.
  rewrite (VERIFY_true (0 <? m_ref_count t)) by lia. run.
  replace (m_ref_count t - 1 =? 0) with (m_ref_count t =? 1) by lia.
  destruct (Z.eqb_spec (m_ref_count t) 1) as [E|E].
  - rewrite Hqueued. cbn. eexists. split; [done|]. split; [|done].
    destruct (ll_delete_node_law (s_nodes s) p) as [Hrepr Hnode].
    set (s' := MkTimerQueue _ _ _ _ _ _).
    assert (forall w, get_queue s' w = get_queue s w) as Hget by (by intros []).
    assert (forall q, q <> p -> expires s' q = expires s q) as Hexp.
    { intros q Hn. unfold expires. cbn. by rewrite lookup_delete_ne. }
    assert (forall w q, q ∈ qs w -> q <> p) as Hne by (intros w q Hin ->; by apply (Hq w)).
    split; cbn.
    + intros w. rewrite Hget. apply Hrepr; [apply H|done].
    + apply Hrepr; [apply H|done].
    + apply H.
    + apply H.
    + intros q. rewrite Hnode, (tok_nodes _ _ _ H), lookup_delete_is_Some. intuition congruence.
    + intros q tq. rewrite lookup_delete_Some. intros [_ Hq']. by apply (tok_timer _ _ _ H q).
    + intros w q tq Hin. rewrite lookup_delete_Some. intros [_ Hq']. by apply (tok_clock _ _ _ H w q).
    + intros w. eapply StronglySorted_ext; [|apply (tok_sorted _ _ _ H w)].
      intros x y Hx Hy. unfold not_after. by rewrite !Hexp by eauto.
    + intros w. rewrite Hget, (tok_due _ _ _ H). destruct (qs w) as [|x xs] eqn:Ew; [done|].
      rewrite Hexp; [done|]. apply (Hne w). rewrite Ew. left.
  - eexists. split; [done|]. split; [|done]. apply (tq_ok_put s qs exec p t); try done.
    split_and!; try done; cbn; lia.
Qed.

(** The queue after [timer] has been unlinked and [next_timer_due] updated. *)
Lemma tq_ok_unlink s qs exec w p l n xs1 xs2 due :
  tq_ok s qs exec -> qs w = xs1 ++ p :: xs2 -> ll_repr n l (xs1 ++ xs2) ->
  ll_frame (s_nodes s) n (xs1 ++ p :: xs2) ->
  due = match xs1 ++ xs2 with [] => Time_zero | p :: _ => expires s p end ->
  tq_ok (set_queue s w (MkQueue l due) n) (upd qs w (xs1 ++ xs2)) exec /\
  (forall w', p ∉ upd qs w (xs1 ++ xs2) w') /\ p ∉ exec.
Proof.
  intros H Hxs Hr Hf Hdue.
  assert (p ∈ qs w) as Hp by (rewrite Hxs; by_mem).
  assert (forall x, x ∈ xs1 ++ xs2 -> x ∈ qs w) as Hin by (rewrite Hxs; intros x; by_mem).
  split_and!.
  - apply (tq_ok_queue s qs exec w _ _ n _ (xs1 ++ p :: xs2)); try done.
    + rewrite Hxs. tauto.
    + intros x Hx%Hin. split; [by apply (tok_executing _ _ _ H w)|].
      intros w' Hx'. by apply (tok_disjoint _ _ _ H w' w x).
    + intros x t Hx%Hin Ht. by apply (tok_clock _ _ _ H w x).
    + pose proof (tok_sorted _ _ _ H w) as Hs. rewrite Hxs in Hs.
      rewrite StronglySorted_app, StronglySorted_cons in *.
      destruct Hs as (Hs1 & Hs2 & _ & Hs3). split_and!; try done. intros x y Hx Hy.
      apply Hs1; [done|by right].
  - intros w'. destruct (decide (w' = w)) as [->|Hn]; rewrite ?upd_eq, ?upd_ne by done.
    + pose proof (ll_repr_NoDup _ _ _ (tok_repr _ _ _ H w)) as Hnd. rewrite Hxs in Hnd.
      by apply NoDup_middle in Hnd as [_ ?].
    + intros Hp'. apply Hn. by apply (tok_disjoint _ _ _ H w' w p).
  - by apply (tok_executing _ _ _ H w).
Qed.
Lemma head_is_first s qs exec w p xs1 xs2 :
  tq_ok s qs exec -> qs w = xs1 ++ p :: xs2 ->
  bool_decide (ll_head (q_list (get_queue s w)) = Some p) =
  match xs1 with [] => true | _ => false end.
Proof.
  intros H Hxs. pose proof (tok_repr _ _ _ H w) as Hr. pose proof (ll_repr_NoDup _ _ _ Hr) as Hnd.
  rewrite (ll_head_law _ _ _ Hr), Hxs. rewrite Hxs in Hnd. destruct xs1 as [|x xs1]; cbn.
  - by rewrite bool_decide_true.
  - rewrite bool_decide_false; [done|]. intros [= ->].
    apply NoDup_cons in Hnd as [Hnin _]. apply Hnin. by_mem.
Qed.

(** Unlinking [p] and giving it the fields of [t'], with [next_timer_due] updated if [p]
    was the first. *)
Definition unlinked (s : TimerQueue) (w : which) (l : L) (n : M) (xs : list ptr) (p : ptr) (t' : Timer)
    : TimerQueue :=
  put_timer (set_queue s w (MkQueue l (match xs with [] => Time_zero | q :: _ => expires s q end)) n) p t'.

Lemma unlinked_update s qs exec w p t t' l n xs1 xs2 :
  tq_ok s qs exec -> qs w = xs1 ++ p :: xs2 -> s_timers s !! p = Some t ->
  m_expires t' = m_expires t -> ll_repr n l (xs1 ++ xs2) ->
  let s1 := put_timer (set_queue s w (MkQueue l (next_timer_due (get_queue s w))) n) p t' in
  (if match xs1 with [] => true | _ => false end
   then TimerQueue_update_next_timer_due s1 w else Ret s1) = Ret (unlinked s w l n (xs1 ++ xs2) p t').
Proof.
  intros H Hxs Ht He Hr s1. unfold unlinked. destruct xs1 as [|x xs1].
  - rewrite (update_due_spec s1 w xs2).
    + f_equal. replace (match xs2 with [] => Time_zero | q :: _ => expires s1 q end)
        with (match xs2 with [] => Time_zero | q :: _ => expires s q end); [by destruct w|].
      destruct xs2 as [|q xs2]; [done|]. unfold expires, s1, put_timer.
      destruct (set_queue_fields s w (MkQueue l (next_timer_due (get_queue s w))) n) as (Et & _ & _).
      cbn. rewrite Et. destruct (decide (p = q)) as [<-|Hn].
      * by rewrite lookup_insert_eq, Ht.
      * by rewrite lookup_insert_ne.
    + subst s1. rewrite put_timer_queue, get_set_eq. destruct w; done.
    + intros q Hq. subst s1. unfold put_timer. cbn.
      destruct (set_queue_fields s w (MkQueue l (next_timer_due (get_queue s w))) n) as (Et & _ & _).
      rewrite Et. apply lookup_insert_is_Some. destruct (decide (p = q)) as [->|Hn]; [by left|right].
      split; [done|]. apply (tok_nodes _ _ _ H).
      eapply ll_repr_node; [apply (tok_repr _ _ _ H w)|]. rewrite Hxs. by right.
  - subst s1. do 2 f_equal. rewrite (tok_due _ _ _ H w), Hxs. done.
Qed.

Lemma unlinked_ok s qs exec w p t t' l n xs1 xs2 :
  tq_ok s qs exec -> qs w = xs1 ++ p :: xs2 -> s_timers s !! p = Some t ->
  m_expires t' = m_expires t -> m_clock_id t' = m_clock_id t -> timer_ok t' ->
  ll_repr n l (xs1 ++ xs2) -> ll_frame (s_nodes s) n (xs1 ++ p :: xs2) ->
  let s' := unlinked s w l n (xs1 ++ xs2) p t' in
  tq_ok s' (upd qs w (xs1 ++ xs2)) exec /\ s_timers s' = <[p := t']> (s_timers s) /\
  (forall w', p ∉ upd qs w (xs1 ++ xs2) w') /\ p ∉ exec.
Proof.
  intros H Hxs Ht He Hc Hok Hr Hf s'.
  destruct (tq_ok_unlink s qs exec w p l n xs1 xs2 _ H Hxs Hr Hf eq_refl) as (Hok' & Hq & Hexec).
  split_and!; [|by destruct w|done..].
  apply (tq_ok_put _ _ _ p t); try done. by destruct w.
Qed.

(** What [remaining] becomes. *)
Definition remaining_at (t : Timer) (now : Time) (t' : Timer) : Prop :=
  m_id t' = m_id t /\ m_clock_id t' = m_clock_id t /\ m_expires t' = m_expires t /\
  m_queued t' = false /\ m_ref_count t' = m_ref_count t /\
  if total now <? total (m_expires t)
  then Time_ok (m_remaining t') /\ total (m_remaining t') = saturate (total (m_expires t) - total now)
  else m_remaining t' = m_remaining t.

Lemma remove_timer_locked_spec current_time s qs exec w p t now xs1 xs2 :
  tq_ok s qs exec -> qs w = xs1 ++ p :: xs2 -> s_timers s !! p = Some t ->
  current_time (m_clock_id t) = Some now -> Time_ok now ->
  exists s' t', TimerQueue_remove_timer_locked current_time s w p = Ret s' /\
    tq_ok s' (upd qs w (xs1 ++ xs2)) exec /\ remaining_at t now t' /\
    s_timers s' = dropped (<[p := t']> (s_timers s)) p t'.
Proof.
  intros H Hxs Ht Hnow Hoknow. destruct (tok_timer _ _ _ H p t Ht) as (Hok & Hqueued & Href).
  unfold TimerQueue_remove_timer_locked. rewrite (head_is_first s qs exec w p xs1 xs2 H Hxs).
  pose proof (tok_repr _ _ _ H w) as Hr. rewrite Hxs in Hr.
  destruct (ll_remove_law _ _ xs1 p xs2 Hr) as (n & l & Erm & Hr' & Hf). rewrite Erm. run.
  rewrite (timer_at_Some _ p t) by (by destruct w). run.
  unfold Timer_now, clock_value. cbn [m_clock_id set_queued]. rewrite Hnow. run.
  cbn [m_expires set_queued]. rewrite Time_gt_total by done.
  assert (exists t', (if total now <? total (m_expires t)
       then remaining ← Time_sub (m_expires t) now; Ret (set_remaining (set_queued t false) remaining)
       else Ret (set_queued t false)) = Ret t' /\ remaining_at t now t') as (t' & Et' & Ht').
  { destruct (Time_sub_saturates _ _ Hok Hoknow) as (r & Er & Hrok & Hrt). unfold remaining_at.
    destruct (total now <? total (m_expires t)); [rewrite Er; run|]; eexists; split; try done. }
  rewrite Et'. run. pose proof Ht' as (Hid & Hc & He & Hqu & Hrc & _).
  rewrite (unlinked_update s qs exec w p t t' l n xs1 xs2) by done. run.
  destruct (unlinked_ok s qs exec w p t t' l n xs1 xs2) as (Hok' & Et & Hq & Hexec); try done.
  { unfold timer_ok. by rewrite He, Hqu, Hrc. }
  destruct (unref_spec _ _ _ p t' Hok') as (s' & Eun & Hok'' & Es'); try done.
  { by rewrite Et, lookup_insert_eq. }
  exists s', t'. rewrite Eun, Es', Et. done.
Qed.
Lemma tq_ok_ext s qs qs' exec : (forall w, qs' w = qs w) -> tq_ok s qs exec -> tq_ok s qs' exec.
Proof.
  intros Hext H. split; intros; rewrite ?Hext in *; try by apply H.
  - by apply (tok_disjoint _ _ _ H w w' p).
  - by apply (tok_executing _ _ _ H w p).
  - by apply (tok_timer _ _ _ H p).
  - by apply (tok_clock _ _ _ H w p).
Qed.

(** ** Firing *)

(** The clocks of [queue_for_timer] have a value. *)
Definition clocks_ok (current_time : Z -> option Time) : Prop :=
  forall c, In c [CLOCK_REALTIME; CLOCK_MONOTONIC; CLOCK_MONOTONIC_RAW; CLOCK_REALTIME_COARSE;
                  CLOCK_MONOTONIC_COARSE] ->
    exists now, current_time c = Some now /\ Time_ok now.

Lemma clocks_timer current_time t w :
  clocks_ok current_time -> queue_for_timer t = Ret w ->
  (exists now, current_time (m_clock_id t) = Some now /\ Time_ok now) /\
  exists now, current_time (firing_clock (m_clock_id t)) = Some now /\ Time_ok now.
Proof.
  intros Hc Hq. unfold clocks_ok in Hc. cbn [In] in Hc. unfold queue_for_timer in Hq.
  unfold firing_clock. split; apply Hc; revert Hq.
  all: repeat case_match; intros; try done; lia.
Qed.

(** The timer at [p] is past its expiry on its clock. *)
Definition is_due (current_time : Z -> option Time) (s : TimerQueue) (p : ptr) : bool :=
  match s_timers s !! p with
  | Some t =>
      match current_time (firing_clock (m_clock_id t)) with
      | Some now => total (m_expires t) <? total now
      | None => false
      end
  | None => false
  end.

Lemma update_due_executing s s' l n w :
  TimerQueue_update_next_timer_due s w = Ret s' ->
  TimerQueue_update_next_timer_due (set_executing s l n) w = Ret (set_executing s' l n).
Proof.
  unfold TimerQueue_update_next_timer_due.
  replace (get_queue (set_executing s l n) w) with (get_queue s w) by (by destruct w).
  change (timer_at (set_executing s l n)) with (timer_at s).
  destruct (match ll_head _ with Some _ => _ | None => _ end) as [due|]; [|done].
  run. intros [= <-]. by destruct w.
Qed.

Lemma set_queued_id t : m_queued t = false -> set_queued t false = t.
Proof. destruct t. cbn. by intros ->. Qed.

Lemma fire_round_spec current_time s qs exec w :
  tq_ok s qs exec -> clocks_ok current_time ->
  exists s', s_timers s' = s_timers s /\
  match qs w with
  | p :: xs =>
      if is_due current_time s p
      then TimerQueue_fire_round current_time s w = Ret (Some p, s') /\
           tq_ok s' (upd qs w xs) (exec ++ [p])
      else TimerQueue_fire_round current_time s w = Ret (None, s) /\ s' = s
  | [] => TimerQueue_fire_round current_time s w = Ret (None, s) /\ s' = s
  end.
Proof.
  intros H Hclocks. unfold TimerQueue_fire_round. pose proof (tok_repr _ _ _ H w) as Hr.
  rewrite (ll_head_law _ _ _ Hr). destruct (qs w) as [|p xs] eqn:Hxs; [by exists s|].
  cbn [first_of]. destruct (tq_ok_in s qs exec w p H) as (t & Ht & Hokt); [rewrite Hxs; left|].
  pose proof Hokt as (Hok & Hqueued & Href). rewrite (timer_at_Some s p t Ht). run.
  destruct (clocks_timer current_time t w Hclocks) as [_ (now & Hnow & Hoknow)].
  { apply (tok_clock _ _ _ H w p); [rewrite Hxs; left|done]. }
  unfold is_due, Timer_now, clock_value. rewrite Ht, Hnow. run. rewrite Time_gt_total by done.
  destruct (total (m_expires t) <? total now); [|by exists s].
  destruct (ll_remove_law _ _ [] p xs Hr) as (n & l & Erm & Hr' & Hf). rewrite Erm. run.
  rewrite (set_queued_id t Hqueued).
  pose proof (unlinked_update s qs exec w p t t l n [] xs H Hxs Ht eq_refl Hr') as Eupd. cbn in Eupd.
  destruct (unlinked_ok s qs exec w p t t l n [] xs) as (Hok' & Et & Hq & Hexec); try done.
  cbn [app] in *. set (s1 := put_timer _ p t) in *.
  assert (s_nodes s1 = n /\ m_timers_executing s1 = m_timers_executing s) as [-> ->] by (by destruct w).
  pose proof (tok_exec _ _ _ Hok') as Hre. unfold unlinked in Hre.
  assert (ll_repr n (m_timers_executing s) exec) as Hre' by (by destruct w).
  assert (ll_node n p) as Hnode.
  { apply Hf. apply (tok_nodes _ _ _ H). eauto. }
  destruct (ll_append_law _ _ _ p Hre' Hexec Hnode) as (n' & l' & Eapp & Hr'' & Hf').
  rewrite Eapp. run.
  rewrite (update_due_executing s1 (unlinked s w l n xs p t)) by done.
  run. eexists. split; [|split; [done|]].
  - cbn [s_timers set_executing]. rewrite Et. by rewrite insert_id.
  - apply (tq_ok_executing _ _ exec _ _ _ (exec ++ [p])); try done.
    + by destruct w.
    + intros q w' Hq' Hin. apply elem_of_app in Hq' as [Hq'|Hq'].
      * by apply (tok_executing _ _ _ Hok' w' q).
      * apply list_elem_of_singleton in Hq'. subst. by apply (Hq w').
    + intros q w' Hin Hq'. apply elem_of_app in Hq' as [Hq'|Hq'].
      * by apply (tok_executing _ _ _ Hok' w' q).
      * apply list_elem_of_singleton in Hq'. subst. by apply (Hq w').
Qed.
(** [ps] are fired off the front of the queue, and the first of [rs] is not due. *)
Definition fires (current_time : Z -> option Time) (s : TimerQueue) (xs ps rs : list ptr) : Prop :=
  xs = ps ++ rs /\ (forall p, p ∈ ps -> is_due current_time s p = true) /\
  match rs with [] => True | r :: _ => is_due current_time s r = false end.

Lemma is_due_timers current_time s s' p :
  s_timers s' = s_timers s -> is_due current_time s' p = is_due current_time s p.
Proof. unfold is_due. by intros ->. Qed.

Lemma fires_none current_time s xs :
  match xs with [] => True | r :: _ => is_due current_time s r = false end ->
  fires current_time s xs [] xs.
Proof. intros H. split; [done|]. split; [|done]. by intros q ?%not_elem_of_nil. Qed.

Lemma tq_ok_same s qs exec w xs :
  tq_ok s qs exec -> qs w = xs -> tq_ok s (upd qs w xs) (exec ++ []).
Proof.
  intros H <-. rewrite app_nil_r. eapply tq_ok_ext; [|exact H].
  intros w'. destruct (decide (w' = w)) as [->|]; by rewrite ?upd_eq, ?upd_ne.
Qed.

Lemma fire_rounds_spec current_time fuel s qs exec w :
  tq_ok s qs exec -> clocks_ok current_time -> (length (qs w) < fuel)%nat ->
  exists s' ps rs, fire_rounds fuel current_time s w = Ret (ps, s') /\
    fires current_time s (qs w) ps rs /\ tq_ok s' (upd qs w rs) (exec ++ ps) /\
    s_timers s' = s_timers s.
Proof.
  revert s qs exec. induction fuel as [|fuel IH]; intros s qs exec H Hc Hfuel; [lia|].
  cbn [fire_rounds]. destruct (fire_round_spec current_time s qs exec w H Hc) as (s1 & Et & Hround).
  destruct (qs w) as [|p xs] eqn:Hxs; [|destruct (is_due current_time s p) eqn:Hd].
  - destruct Hround as [-> ->]. run. exists s, [], [].
    split; [done|split; [by apply fires_none|split; [by apply tq_ok_same|done]]].
  - destruct Hround as [-> Hok1]. run.
    destruct (IH s1 _ _ Hok1 Hc) as (s' & ps & rs & E & (Hsplit & Hps & Hrs) & Hok' & Et').
    { rewrite upd_eq. cbn in Hfuel. lia. }
    rewrite E. run. exists s', (p :: ps), rs. rewrite upd_eq in Hsplit.
    split; [done|]. split; [split; [|split]|split].
    + cbn. by rewrite Hsplit.
    + intros q [->|Hq]%elem_of_cons; [done|].
      rewrite <- (is_due_timers current_time s s1 q Et). by apply Hps.
    + destruct rs; [done|]. by rewrite <- (is_due_timers current_time s s1 _ Et).
    + rewrite <- app_assoc in Hok'. eapply tq_ok_ext; [|exact Hok'].
      intros w'. destruct (decide (w' = w)) as [->|]; by rewrite ?upd_eq, ?upd_ne.
    + congruence.
  - destruct Hround as [-> ->]. run. exists s, [], (p :: xs).
    split; [done|split; [by apply fires_none|split; [by apply tq_ok_same|done]]].
Qed.

Lemma queue_length s qs exec w : tq_ok s qs exec -> (length (qs w) <= size (s_timers s))%nat.
Proof.
  intros H. pose proof (ll_repr_NoDup _ _ _ (tok_repr _ _ _ H w)) as Hnd.
  rewrite <- size_dom, <- (size_list_to_set (C := gset ptr) (qs w) Hnd). apply subseteq_size.
  intros x Hx%elem_of_list_to_set. apply elem_of_dom.
  by destruct (tq_ok_in s qs exec w x H Hx) as (t & -> & _).
Qed.

Lemma fire_queue_spec current_time s qs exec w :
  tq_ok s qs exec -> clocks_ok current_time ->
  exists s' ps rs,
    (if is_null (ll_head (q_list (get_queue s w))) then Ret ([], s)
     else fire_timers current_time s w) = Ret (ps, s') /\
    fires current_time s (qs w) ps rs /\ tq_ok s' (upd qs w rs) (exec ++ ps) /\
    s_timers s' = s_timers s.
Proof.
  intros H Hc. pose proof (ll_head_law _ _ _ (tok_repr _ _ _ H w)) as Hhead.
  pose proof (fire_rounds_spec current_time (S (size (s_timers s))) s qs exec w H Hc) as Hrounds.
  pose proof (queue_length s qs exec w H). unfold fire_timers. rewrite Hhead.
  destruct (qs w) as [|p xs] eqn:Hxs; cbn [first_of is_null nonnull].
  - exists s, [], [].
    split; [done|split; [by apply fires_none|split; [by apply tq_ok_same|done]]].
  - run. destruct (tq_ok_in s qs exec w p H) as (t & Ht & _); [rewrite Hxs; left|].
    rewrite (timer_at_Some s p t Ht). run.
    rewrite (tok_due _ _ _ H w), Hxs, (expires_Some s p t Ht).
    rewrite (VERIFY_true (Time_eq _ _)) by (unfold Time_eq; by rewrite !Z.eqb_refl). run.
    apply Hrounds. cbn in *. lia.
Qed.

Lemma fire_spec current_time s qs exec :
  tq_ok s qs exec -> clocks_ok current_time ->
  exists s' ps1 rs1 ps2 rs2, TimerQueue_fire current_time s = Ret (ps1 ++ ps2, s') /\
    fires current_time s (qs Monotonic) ps1 rs1 /\ fires current_time s (qs Realtime) ps2 rs2 /\
    tq_ok s' (fun w => match w with Monotonic => rs1 | Realtime => rs2 end) (exec ++ ps1 ++ ps2) /\
    s_timers s' = s_timers s.
Proof.
  intros H Hc. unfold TimerQueue_fire.
  destruct (fire_queue_spec current_time s qs exec Monotonic H Hc)
    as (s1 & ps1 & rs1 & E1 & Hf1 & Hok1 & Et1).
  destruct (fire_queue_spec current_time s1 _ _ Realtime Hok1 Hc)
    as (s2 & ps2 & rs2 & E2 & Hf2 & Hok2 & Et2).
  cbn [get_queue] in E1, E2. rewrite E1. run. rewrite E2. run.
  exists s2, ps1, rs1, ps2, rs2. rewrite upd_ne in Hf2 by done. split_and!; try done.
  - destruct Hf2 as (Hsplit & Hps & Hrs). split_and!; [done| |].
    + intros p Hp. rewrite <- (is_due_timers current_time s s1 p Et1). auto.
    + destruct rs2; [done|]. by rewrite <- (is_due_timers current_time s s1 _ Et1).
  - rewrite <- app_assoc in Hok2. eapply tq_ok_ext; [|exact Hok2]. by intros [].
  - congruence.
Qed.

Lemma finish_spec s qs exec p t ps1 ps2 :
  tq_ok s qs exec -> exec = ps1 ++ p :: ps2 -> s_timers s !! p = Some t ->
  exists s', TimerQueue_finish_timer s p = Ret s' /\ tq_ok s' qs (ps1 ++ ps2) /\
    s_timers s' = dropped (s_timers s) p t.
Proof.
  intros H He Ht. unfold TimerQueue_finish_timer. pose proof (tok_exec _ _ _ H) as Hr.
  rewrite He in Hr. pose proof (ll_repr_NoDup _ _ _ Hr) as [_ Hnd]%NoDup_middle.
  destruct (ll_remove_law _ _ ps1 p ps2 Hr) as (n & l & Erm & Hr' & Hf). rewrite Erm. run.
  assert (forall q w, q ∈ qs w -> q ∉ ps1 ++ p :: ps2) as Hq.
  { intros q w Hin. rewrite <- He. by apply (tok_executing _ _ _ H w). }
  apply (unref_spec (set_executing s l n) qs (ps1 ++ ps2) p t); try done.
  - apply (tq_ok_executing s qs exec l n _ (ps1 ++ p :: ps2)); try done.
    + intros q w Hin Hin'. by apply (Hq q w).
    + intros q w Hin Hin'. apply (Hq q w Hin). by_mem.
  - intros w Hin. apply (Hq p w Hin). by_mem.
Qed.
(** ** Adding *)

Lemma fresh_not_queued s qs exec p :
  tq_ok s qs exec -> s_timers s !! p = None -> (forall w, p ∉ qs w) /\ p ∉ exec.
Proof.
  intros H Hp. assert (~ ll_node (s_nodes s) p) as Hn.
  { rewrite (tok_nodes _ _ _ H), Hp. by intros [? ?]. }
  split; [intros w|]; intros Hin; apply Hn; eapply ll_repr_node; eauto; apply H.
Qed.

Lemma tq_ok_new s qs exec p clock_id deadline :
  tq_ok s qs exec -> s_timers s !! p = None -> Time_ok deadline ->
  tq_ok (new_timer s p clock_id deadline) qs exec.
Proof.
  intros H Hp Hok. destruct (fresh_not_queued s qs exec p H Hp) as [Hq He].
  destruct (ll_new_node_law (s_nodes s) p) as [Hrepr Hnode].
  { rewrite (tok_nodes _ _ _ H), Hp. by intros [? ?]. }
  set (s' := new_timer s p clock_id deadline).
  assert (forall w, get_queue s' w = get_queue s w) as Hget by (by intros []).
  assert (forall q, q <> p -> expires s' q = expires s q) as Hexp.
  { intros q Hn. unfold expires. cbn. by rewrite lookup_insert_ne. }
  assert (forall w q, q ∈ qs w -> q <> p) as Hne by (intros w q Hin ->; by apply (Hq w)).
  split; cbn.
  - intros w. rewrite Hget. apply Hrepr, H.
  - apply Hrepr, H.
  - apply H.
  - apply H.
  - intros q. rewrite Hnode, (tok_nodes _ _ _ H), lookup_insert_is_Some.
    destruct (decide (p = q)) as [->|]; intuition congruence.
  - intros q t. rewrite lookup_insert_Some. intros [[<- <-]|[_ Ht]]; [|by apply (tok_timer _ _ _ H q)].
    split_and!; try done; apply Hok.
  - intros w q t Hin. rewrite lookup_insert_Some. intros [[<- <-]|[_ Ht]].
    + by destruct (Hq w).
    + by apply (tok_clock _ _ _ H w q).
  - intros w. eapply StronglySorted_ext; [|apply (tok_sorted _ _ _ H w)].
    intros x y Hx Hy. unfold not_after. by rewrite !Hexp by eauto.
  - intros w. rewrite Hget, (tok_due _ _ _ H). destruct (qs w) as [|x xs] eqn:Ew; [done|].
    rewrite Hexp; [done|]. apply (Hne w). rewrite Ew. left.
Qed.

(** The queue [xs] with [p] in it, behind the timers that do not expire later. *)
Definition queued_at (s : TimerQueue) (xs ys : list ptr) (p : ptr) (deadline : Time) : Prop :=
  exists xs1 xs2, xs = xs1 ++ xs2 /\ ys = xs1 ++ p :: xs2 /\
    (forall x, x ∈ xs1 -> total (expires s x) <= total deadline) /\
    (forall x, x ∈ xs2 -> total deadline < total (expires s x)).

Lemma expires_other s s' p q t :
  s_timers s' = <[p := t]> (s_timers s) -> q <> p -> expires s' q = expires s q.
Proof. intros E Hn. unfold expires. by rewrite E, lookup_insert_ne. Qed.

Lemma add_without_id_spec current_time s qs exec p clock_id deadline w now :
  tq_ok s qs exec -> s_timers s !! p = None -> Time_ok deadline ->
  queue_for_timer (Timer_new clock_id deadline) = Ret w ->
  current_time clock_id = Some now -> Time_ok now ->
  if total deadline <=? total now
  then TimerQueue_add_timer_without_id current_time s p clock_id deadline = Ret (None, s)
  else exists s' ys,
    TimerQueue_add_timer_without_id current_time s p clock_id deadline = Ret (Some p, s') /\
    queued_at s (qs w) ys p deadline /\ tq_ok s' (upd qs w ys) exec /\
    s_timers s' = <[p := set_ref_count (Timer_new clock_id deadline) 2]> (s_timers s).
Proof.
  intros H Hp Hok Hw Hnow Hoknow. unfold TimerQueue_add_timer_without_id, clock_value.
  rewrite Hnow. run. rewrite Time_le_total by done. destruct (total deadline <=? total now); [done|].
  destruct (fresh_not_queued s qs exec p H Hp) as [Hq He].
  set (t1 := Timer_new clock_id deadline). set (s1 := new_timer s p clock_id deadline).
  rewrite (timer_at_Some s1 p t1) by (cbn; by rewrite lookup_insert_eq). run.
  change (set_id t1 0) with t1.
  assert (put_timer s1 p t1 = s1) as ->.
  { unfold put_timer, set_timers, s1. cbn. by rewrite insert_insert_eq. }
  unfold Timer_ref. rewrite (timer_at_Some s1 p t1) by (cbn; by rewrite lookup_insert_eq). run.
  rewrite (VERIFY_true (0 <? m_ref_count t1)) by done. run.
  rewrite (VERIFY_true (negb _)) by (by vm_compute). run.
  set (t2 := set_ref_count t1 (m_ref_count t1 + 1)).
  assert (tq_ok (put_timer s1 p t2) qs exec) as Hok2.
  { apply (tq_ok_put s1 qs exec p t1); try done; [by apply tq_ok_new|].
    cbn. by rewrite lookup_insert_eq. }
  assert (s_timers (put_timer s1 p t2) = <[p := t2]> (s_timers s)) as Et2.
  { unfold put_timer, s1. cbn. by rewrite insert_insert_eq. }
  destruct (add_timer_locked_spec _ qs exec p t2 w Hok2)
    as (s' & xs1 & xs2 & E & Hsplit & H1 & H2 & Hok' & Et & _); try done.
  { by rewrite Et2, lookup_insert_eq. }
  rewrite E. run. exists s', (xs1 ++ p :: xs2). split; [done|]. split; [|split; [done|by rewrite Et, Et2]].
  assert (forall x, x ∈ qs w -> expires (put_timer s1 p t2) x = expires s x) as Hexp.
  { intros x Hx. apply (expires_other _ _ p x t2 Et2). intros ->. by apply (Hq w). }
  exists xs1, xs2. split_and!; try done; intros x Hx; rewrite <- Hexp; try (rewrite Hsplit; by_mem).
  - by apply H1.
  - by apply H2.
Qed.

(** ** Cancelling *)

Lemma cancel_timer_spec current_time s qs exec p t w now :
  tq_ok s qs exec -> s_timers s !! p = Some t -> queue_for_timer t = Ret w ->
  current_time (m_clock_id t) = Some now -> Time_ok now ->
  if decide (p ∈ qs w) then
    if 1 <? m_ref_count t then
      exists s' xs1 xs2 t', qs w = xs1 ++ p :: xs2 /\
        TimerQueue_cancel_timer current_time s p = Ret (Some s') /\
        tq_ok s' (upd qs w (xs1 ++ xs2)) exec /\ remaining_at t now t' /\
        s_timers s' = <[p := set_ref_count t' (m_ref_count t - 1)]> (s_timers s)
    else TimerQueue_cancel_timer current_time s p = Stop VerifyFailed
  else TimerQueue_cancel_timer current_time s p = Ret None.
Proof.
  intros H Ht Hw Hnow Hoknow. unfold TimerQueue_cancel_timer. rewrite (timer_at_Some s p t Ht). run.
  rewrite Hw. run. rewrite (ll_contains_slow_law _ _ _ p (tok_repr _ _ _ H w)). run.
  case_decide as Hin; [rewrite bool_decide_true by done|by rewrite bool_decide_false by done].
  cbn [negb]. destruct (Z.ltb_spec 1 (m_ref_count t)) as [Hrc|Hrc]; [|done].
  rewrite (VERIFY_true true eq_refl). run. apply list_elem_of_split in Hin as (xs1 & xs2 & Hxs).
  destruct (remove_timer_locked_spec current_time s qs exec w p t now xs1 xs2 H Hxs Ht Hnow Hoknow)
    as (s' & t' & E & Hok' & Hrem & Et).
  rewrite E. run. exists s', xs1, xs2, t'. split_and!; try done.
  rewrite Et. unfold dropped. destruct Hrem as (_ & _ & _ & _ & -> & _).
  destruct (Z.eqb_spec (m_ref_count t) 1); [lia|]. by rewrite insert_insert_eq.
Qed.
(** [cancel_timer(TimerId)] takes out the first queued timer with the id. *)
Definition id_of (s : TimerQueue) (p : ptr) : Z :=
  match s_timers s !! p with Some t => m_id t | None => 0 end.

Lemma for_each_id s qs exec w id :
  tq_ok s qs exec ->
  ll_for_each (s_nodes s) (q_list (get_queue s w)) (fun p => t ← timer_at s p; Ret (m_id t =? id)) =
  Ret (List.find (fun p => id_of s p =? id) (qs w)).
Proof.
  intros H. apply ll_for_each_law; [apply H|]. intros p Hp.
  destruct (tq_ok_in s qs exec w p H Hp) as (t & Ht & _).
  rewrite (timer_at_Some s p t Ht). unfold id_of. by rewrite Ht.
Qed.

Lemma cancel_timer_id_spec current_time s qs exec id :
  tq_ok s qs exec -> clocks_ok current_time ->
  (exists s' w xs1 p xs2, qs w = xs1 ++ p :: xs2 /\ id_of s p = id /\
     TimerQueue_cancel_timer_id current_time s id = Ret (Some s') /\
     tq_ok s' (upd qs w (xs1 ++ xs2)) exec)
  \/
  ((forall w p, p ∈ qs w -> id_of s p <> id) /\
   TimerQueue_cancel_timer_id current_time s id = Ret None).
Proof.
  intros H Hc. unfold TimerQueue_cancel_timer_id.
  assert (forall w xs1 p xs2, qs w = xs1 ++ p :: xs2 ->
    exists s', TimerQueue_remove_timer_locked current_time s w p = Ret s' /\
      tq_ok s' (upd qs w (xs1 ++ xs2)) exec) as Hremove.
  { intros w xs1 p xs2 Hxs. assert (p ∈ qs w) as Hp by (rewrite Hxs; by_mem).
    destruct (tq_ok_in s qs exec w p H Hp) as (t & Ht & _).
    destruct (clocks_timer current_time t w Hc) as [(now & Hnow & Hoknow) _].
    { by apply (tok_clock _ _ _ H w p). }
    destruct (remove_timer_locked_spec current_time s qs exec w p t now xs1 xs2) as (s' & t' & ? & ? & _);
      eauto. }
  pose proof (fun w => find_split (fun p => id_of s p =? id) (qs w)) as Hfind.
  change (m_timer_queue_monotonic s) with (get_queue s Monotonic).
  change (m_timer_queue_realtime s) with (get_queue s Realtime).
  rewrite !(for_each_id s qs exec _ id H). run.
  pose proof (Hfind Monotonic) as Hm. pose proof (Hfind Realtime) as Hr.
  destruct (List.find _ (qs Monotonic)) as [p|]; [|destruct (List.find _ (qs Realtime)) as [p|]].
  - left. destruct Hm as (xs1 & xs2 & Hxs & Hid & _). destruct (Hremove _ _ _ _ Hxs) as (s' & -> & Hok').
    run. exists s', Monotonic, xs1, p, xs2. split_and!; try done; lia.
  - left. destruct Hr as (xs1 & xs2 & Hxs & Hid & _). destruct (Hremove _ _ _ _ Hxs) as (s' & -> & Hok').
    run. exists s', Realtime, xs1, p, xs2. split_and!; try done; lia.
  - right. split; [|done]. intros [] p Hp; [specialize (Hm p Hp)|specialize (Hr p Hp)]; lia.
Qed.

(** ** Interleavings

    The critical sections in any order: [pending] are the fired timers whose deferred call
    has not ended.  Other parts of the kernel drop the references they were given. *)

Inductive tq_step : TimerQueue * list ptr -> TimerQueue * list ptr -> Prop :=
  | step_add current_time s pending p clock_id deadline w r s' :
      clocks_ok current_time -> Time_ok deadline -> s_timers s !! p = None ->
      queue_for_timer (Timer_new clock_id deadline) = Ret w ->
      TimerQueue_add_timer_without_id current_time s p clock_id deadline = Ret (r, s') ->
      tq_step (s, pending) (s', pending)
  | step_cancel_id current_time s pending id s' :
      clocks_ok current_time -> TimerQueue_cancel_timer_id current_time s id = Ret (Some s') ->
      tq_step (s, pending) (s', pending)
  | step_cancel current_time s pending p s' :
      clocks_ok current_time -> TimerQueue_cancel_timer current_time s p = Ret (Some s') ->
      tq_step (s, pending) (s', pending)
  | step_fire current_time s pending w p s' :
      clocks_ok current_time -> TimerQueue_fire_round current_time s w = Ret (Some p, s') ->
      tq_step (s, pending) (s', pending ++ [p])
  | step_finish s ps1 p ps2 s' :
      TimerQueue_finish_timer s p = Ret s' ->
      tq_step (s, ps1 ++ p :: ps2) (s', ps1 ++ ps2)
  | step_drop s pending p t s' :
      s_timers s !! p = Some t ->
      (1 < m_ref_count t \/
       TimerQueue_timer_executing s p = Ret false /\
       forall w, ll_contains_slow (s_nodes s) (q_list (get_queue s w)) p = Ret false) ->
      Timer_unref s p = Ret s' -> tq_step (s, pending) (s', pending).

Definition tq_inv (s : TimerQueue * list ptr) : Prop := exists qs, tq_ok s.1 qs s.2.

Lemma drop_ok s qs exec p t s' :
  tq_ok s qs exec -> s_timers s !! p = Some t -> 1 < m_ref_count t -> Timer_unref s p = Ret s' ->
  tq_ok s' qs exec.
Proof.
  intros H Ht Hrc. destruct (tok_timer _ _ _ H p t Ht) as (Hok & Hqueued & Href).
  unfold Timer_unref. rewrite (timer_at_Some s p t Ht). run.
  rewrite (VERIFY_true (0 <? m_ref_count t)) by lia. run.
  destruct (Z.eqb_spec (m_ref_count t - 1) 0); [lia|]. intros [= <-].
  apply (tq_ok_put s qs exec p t); try done. split_and!; try done; cbn; lia.
Qed.

Lemma tq_step_inv s s' : tq_step s s' -> tq_inv s -> tq_inv s'.
Proof.
  intros Hstep [qs H]. unfold tq_inv.
  destruct Hstep as
    [ current_time s pending p clock_id deadline w r s' Hc Hok Hp Hw E
    | current_time s pending id s' Hc E | current_time s pending p s' Hc E
    | current_time s pending w p s' Hc E | s ps1 p ps2 s' E | s pending p t s' Ht Hown E ];
    cbn [fst snd] in *.
  - destruct (clocks_timer current_time _ w Hc Hw) as [(now & Hnow & Hoknow) _].
    pose proof (add_without_id_spec current_time s qs pending p clock_id deadline w now H Hp Hok Hw Hnow Hoknow)
      as Hadd. destruct (_ <=? _); [|destruct Hadd as (s1 & ys & Hadd & _ & Hok' & _)];
      rewrite Hadd in E; injection E as _ <-; eauto.
  - destruct (cancel_timer_id_spec current_time s qs pending id H Hc)
      as [(s1 & w & xs1 & p & xs2 & _ & _ & E1 & Hok')|[_ E1]]; rewrite E1 in E; [|done].
    injection E as <-. eauto.
  - destruct (s_timers s !! p) as [t|] eqn:Ht; [|by unfold TimerQueue_cancel_timer, timer_at in E; rewrite Ht in E].
    destruct (queue_for_timer t) as [w|] eqn:Hw.
    2: { unfold TimerQueue_cancel_timer in E. rewrite (timer_at_Some s p t Ht) in E. run in E. by rewrite Hw in E. }
    destruct (clocks_timer current_time t w Hc Hw) as [(now & Hnow & Hoknow) _].
    pose proof (cancel_timer_spec current_time s qs pending p t w now H Ht Hw Hnow Hoknow) as Hcancel.
    case_decide; [destruct (1 <? m_ref_count t)|].
    + destruct Hcancel as (s1 & xs1 & xs2 & t' & _ & E1 & Hok' & _). rewrite E1 in E.
      injection E as <-. eauto.
    + by rewrite Hcancel in E.
    + by rewrite Hcancel in E.
  - destruct (fire_round_spec current_time s qs pending w H Hc) as (s1 & _ & Hround).
    destruct (qs w) as [|x xs]; [|destruct (is_due current_time s x)]; destruct Hround as [E1 Hok'];
      rewrite E1 in E; try done. injection E as <- <-. eauto.
  - assert (exists t, s_timers s !! p = Some t) as [t Ht].
    { apply (tok_nodes _ _ _ H). eapply ll_repr_node; [apply (tok_exec _ _ _ H)|]. by_mem. }
    destruct (finish_spec s qs _ p t ps1 ps2 H eq_refl Ht) as (s1 & E1 & Hok' & _).
    rewrite E1 in E. injection E as <-. eauto.
  - destruct Hown as [Hrc|[He Hq]]; [by exists qs; apply (drop_ok s qs pending p t)|].
    unfold TimerQueue_timer_executing in He.
    rewrite (ll_contains_slow_law _ _ _ p (tok_exec _ _ _ H)) in He. injection He as He%bool_decide_eq_false.
    destruct (unref_spec s qs pending p t H Ht) as (s1 & E1 & Hok' & _); [|done|].
    + intros w. specialize (Hq w). rewrite (ll_contains_slow_law _ _ _ p (tok_repr _ _ _ H w)) in Hq.
      by injection Hq as Hq%bool_decide_eq_false.
    + rewrite E1 in E. injection E as <-. eauto.
Qed.

Lemma new_ok nodes : (forall p, ~ ll_node nodes p) -> tq_inv (TimerQueue_new nodes, []).
Proof.
  intros Hn. exists (fun _ => []). split; cbn; try done.
  - intros w. destruct w; apply ll_empty_law.
  - apply ll_empty_law.
  - by intros w w' p ?%not_elem_of_nil.
  - by intros w p ?%not_elem_of_nil.
  - intros p. split; [by intros ?%Hn|]. by intros [? ?].
  - intros w. constructor.
  - by intros [].
Qed.

Lemma tq_reachable nodes s :
  (forall p, ~ ll_node nodes p) -> rtc tq_step (TimerQueue_new nodes, []) s -> tq_inv s.
Proof.
  intros Hn Hr. assert (forall s0, rtc tq_step s0 s -> tq_inv s0 -> tq_inv s) as Hgen.
  { intros s0 Hr0. induction Hr0; eauto using tq_step_inv. }
  eauto using new_ok.
Qed.
(** A queue sorted by expiry has nothing due behind a timer of the same clock that is not. *)
Lemma fires_sorted current_time s qs exec w ps r rs t q tq :
  tq_ok s qs exec -> fires current_time s (qs w) ps (r :: rs) ->
  s_timers s !! r = Some t -> q ∈ rs -> s_timers s !! q = Some tq ->
  firing_clock (m_clock_id tq) = firing_clock (m_clock_id t) -> is_due current_time s q = false.
Proof.
  intros H (Hxs & _ & Hr) Ht Hq Htq Hclock. unfold is_due in *. rewrite Ht in Hr. rewrite Htq, Hclock.
  destruct (current_time (firing_clock (m_clock_id t))) as [now|]; [|done].
  pose proof (tok_sorted _ _ _ H w) as Hs. rewrite Hxs in Hs.
  apply StronglySorted_app in Hs as (_ & _ & [Hs _]%StronglySorted_cons).
  rewrite Forall_forall in Hs. specialize (Hs q Hq). unfold not_after in Hs.
  rewrite (expires_Some s r t Ht), (expires_Some s q tq Htq) in Hs. lia.
Qed.

(** ** Properties *)

(** C4. In every state that adding, cancelling, firing, finishing and releasing timers can
    reach, in any order of their critical sections, the timer queue is well formed: the
    two queues and the executing list are disjoint lists of live timers, the executing
    list holds exactly the timers whose deferred call has not ended, every timer is in the
    queue of its clock, both queues are sorted by expiry, and [next_timer_due] is the
    expiry of the first timer of the queue. *)
Theorem TimerQueue_reachable_ok (nodes : M) (s : TimerQueue) (pending : list ptr)
    (Hempty : forall p, ~ ll_node nodes p)
    (Hreach : rtc tq_step (TimerQueue_new nodes, []) (s, pending)) :
  exists qs, tq_ok s qs pending.
Proof. exact (tq_reachable nodes (s, pending) Hempty Hreach). Qed.

(** C32. [add_timer_without_id] refuses a deadline that is not in the future; otherwise it
    queues a new timer behind all timers that do not expire later and before all that do,
    with one reference for the queue and one for the caller.  [cancel_timer] by id takes a
    queued timer with that id out of its queue, and says so when there is none. *)
Theorem TimerQueue_add_cancel_correct (current_time : Z -> option Time) (s : TimerQueue)
    (qs : which -> list ptr) (exec : list ptr) (p : ptr) (clock_id : Z) (deadline : Time)
    (w : which) (H : tq_ok s qs exec) (Hclocks : clocks_ok current_time)
    (Hfresh : s_timers s !! p = None) (Hdeadline : Time_ok deadline)
    (Hw : queue_for_timer (Timer_new clock_id deadline) = Ret w) :
  (exists now, current_time clock_id = Some now /\
    if total deadline <=? total now
    then TimerQueue_add_timer_without_id current_time s p clock_id deadline = Ret (None, s)
    else exists s' ys,
      TimerQueue_add_timer_without_id current_time s p clock_id deadline = Ret (Some p, s') /\
      queued_at s (qs w) ys p deadline /\ tq_ok s' (upd qs w ys) exec /\
      s_timers s' = <[p := set_ref_count (Timer_new clock_id deadline) 2]> (s_timers s)) /\
  (forall id,
    (exists s' w xs1 q xs2, qs w = xs1 ++ q :: xs2 /\ id_of s q = id /\
       TimerQueue_cancel_timer_id current_time s id = Ret (Some s') /\
       tq_ok s' (upd qs w (xs1 ++ xs2)) exec) \/
    ((forall w q, q ∈ qs w -> id_of s q <> id) /\
     TimerQueue_cancel_timer_id current_time s id = Ret None)).
Proof.
  split; [|intros id; by apply cancel_timer_id_spec].
  destruct (clocks_timer current_time _ w Hclocks Hw) as [(now & Hnow & Hoknow) _].
  exists now. split; [done|]. by apply add_without_id_spec.
Qed.

(** C31. [fire] takes timers off the front of each queue as long as the first one is past
    its expiry on its clock, in the order of the queue, and moves them to the executing
    list; the first timer left in a queue is not due, nor is any later one of the same
    clock.  No VERIFY fails, and the deferred call of every fired timer ends by taking it
    out of the executing list and dropping the queue's reference. *)
Theorem TimerQueue_fire_correct (current_time : Z -> option Time) (s : TimerQueue)
    (qs : which -> list ptr) (exec : list ptr)
    (H : tq_ok s qs exec) (Hclocks : clocks_ok current_time) :
  exists s' ps1 rs1 ps2 rs2, TimerQueue_fire current_time s = Ret (ps1 ++ ps2, s') /\
    fires current_time s (qs Monotonic) ps1 rs1 /\ fires current_time s (qs Realtime) ps2 rs2 /\
    tq_ok s' (fun w => match w with Monotonic => rs1 | Realtime => rs2 end) (exec ++ ps1 ++ ps2) /\
    s_timers s' = s_timers s /\
    (forall w ps r rs t q tq, fires current_time s (qs w) ps (r :: rs) ->
       s_timers s !! r = Some t -> q ∈ rs -> s_timers s !! q = Some tq ->
       firing_clock (m_clock_id tq) = firing_clock (m_clock_id t) -> is_due current_time s q = false) /\
    (forall p t es1 es2, exec ++ ps1 ++ ps2 = es1 ++ p :: es2 -> s_timers s' !! p = Some t ->
       exists s'', TimerQueue_finish_timer s' p = Ret s'' /\
         tq_ok s'' (fun w => match w with Monotonic => rs1 | Realtime => rs2 end) (es1 ++ es2) /\
         s_timers s'' = dropped (s_timers s') p t).
Proof.
  destruct (fire_spec current_time s qs exec H Hclocks)
    as (s' & ps1 & rs1 & ps2 & rs2 & E & Hf1 & Hf2 & Hok & Et).
  exists s', ps1, rs1, ps2, rs2. do 5 (split; [done|]). split.
  - intros w ps r rs t q tq. by apply (fires_sorted current_time s qs exec).
  - intros p t es1 es2 Hes Ht. by apply (finish_spec s' _ (exec ++ ps1 ++ ps2)).
Qed.

(** The id overload of [add_timer] reads the id through the reference it has just moved
    out of, so it never returns. *)
Theorem TimerQueue_add_timer_never_returns (s : TimerQueue) (timer : option ptr) r :
  TimerQueue_add_timer s timer <> Ret r.
Proof.
  unfold TimerQueue_add_timer. destruct timer as [p|]; [|done]. cbn [nonnull]. run.
  destruct (timer_at s p) as [t|]; [|done]. run.
  destruct (VERIFY _) as [[]|]; [|done]. run.
  by destruct (TimerQueue_add_timer_locked _ p).
Qed.

(** A queued timer does not know it: [is_queued] is false for every timer of every
    reachable state, so VERIFY(!timer->is_queued()) never stops a second insertion. *)
Theorem TimerQueue_is_queued_false (nodes : M) (s : TimerQueue) (pending : list ptr) p t
    (Hempty : forall p, ~ ll_node nodes p)
    (Hreach : rtc tq_step (TimerQueue_new nodes, []) (s, pending))
    (Ht : s_timers s !! p = Some t) : m_queued t = false.
Proof.
  destruct (tq_reachable nodes (s, pending) Hempty Hreach) as [qs H].
  by destruct (tok_timer _ _ _ H p t Ht) as (_ & ? & _).
Qed.
End queue.

(** ** The timer queue over [InlineLinkedList] *)

Definition example_clock (now : Z) : Z -> option Time := fun _ => Some (MkTime now 0).

Lemma example_clocks now : 0 <= now < 1000 -> clocks_ok (example_clock now).
Proof.
  intros Hn c _. exists (MkTime now 0). split; [done|].
  split; [|cbn; lia]. rewrite in_type_i64. cbn. lia.
Qed.

Definition example_step (s : TimerQueue) (p : ptr) (clock_id : Z) (deadline : Time) : TimerQueue :=
  match TimerQueue_add_timer_without_id (example_clock 10) s p clock_id deadline with
  | Ret (_, s) => s
  | Stop _ => s
  end.

Definition example_new : @TimerQueue nodes InlineLinkedList := TimerQueue_new ∅.

(** Three timers, the second one before the first. *)
Definition example_queue : @TimerQueue nodes InlineLinkedList :=
  example_step (example_step (example_step example_new 1%positive CLOCK_MONOTONIC (MkTime 30 0))
    2%positive CLOCK_MONOTONIC (MkTime 20 0)) 3%positive CLOCK_REALTIME (MkTime 25 0).

Lemma example_time n : 0 <= n < 1000 -> Time_ok (MkTime n 0).
Proof. intros H. split; [|cbn; lia]. rewrite in_type_i64. cbn. lia. Qed.

Lemma example_queue_reachable : rtc tq_step (example_new, []) (example_queue, []).
Proof.
  eapply rtc_l.
  { apply (step_add (example_clock 10) _ _ 1%positive CLOCK_MONOTONIC (MkTime 30 0) Monotonic (Some 1%positive));
      [by apply example_clocks|by apply example_time|reflexivity..]. }
  eapply rtc_l.
  { apply (step_add (example_clock 10) _ _ 2%positive CLOCK_MONOTONIC (MkTime 20 0) Monotonic (Some 2%positive));
      [by apply example_clocks|by apply example_time|reflexivity..]. }
  eapply rtc_l.
  { apply (step_add (example_clock 10) _ _ 3%positive CLOCK_REALTIME (MkTime 25 0) Realtime (Some 3%positive));
      [by apply example_clocks|by apply example_time|reflexivity..]. }
  apply rtc_refl.
Qed.

Lemma no_nodes (p : ptr) : ~ ll_node (∅ : nodes) p.
Proof.
  intros H. change (p ∈ dom (∅ : nodes)) in H. rewrite dom_empty_L in H. by apply elem_of_empty in H.
Qed.

Lemma TimerQueue_reachable_ok_witness :
  rtc tq_step (example_new, []) (example_queue, []) /\ exists qs, tq_ok example_queue qs [].
Proof.
  split; [exact example_queue_reachable|].
  exact (TimerQueue_reachable_ok ∅ example_queue [] no_nodes example_queue_reachable).
Defined.

Lemma example_queue_inv : exists qs, tq_ok example_queue qs [].
Proof. exact (tq_reachable ∅ (example_queue, []) no_nodes example_queue_reachable). Qed.

Lemma TimerQueue_add_cancel_correct_witness :
  exists qs s' ys, tq_ok example_queue qs [] /\
    TimerQueue_add_timer_without_id (example_clock 10) example_queue 4%positive CLOCK_REALTIME (MkTime 40 0)
      = Ret (Some 4%positive, s') /\ queued_at example_queue (qs Realtime) ys 4%positive (MkTime 40 0).
Proof.
  destruct example_queue_inv as [qs H].
  destruct (TimerQueue_add_cancel_correct (example_clock 10) example_queue qs [] 4%positive
    CLOCK_REALTIME (MkTime 40 0) Realtime H (example_clocks 10 ltac:(lia)) eq_refl
    (example_time 40 ltac:(lia)) eq_refl) as [(now & Hnow & Hadd) _].
  injection Hnow as <-. destruct Hadd as (s' & ys & E & Hq & _).
  exists qs, s', ys. split; [exact H|]. split; [exact E|exact Hq].
Defined.

Lemma TimerQueue_fire_correct_witness :
  exists qs s' ps1 ps2 rs1, tq_ok example_queue qs [] /\
    TimerQueue_fire (example_clock 28) example_queue = Ret (ps1 ++ ps2, s') /\
    fires (example_clock 28) example_queue (qs Monotonic) ps1 rs1.
Proof.
  destruct example_queue_inv as [qs H].
  destruct (TimerQueue_fire_correct (example_clock 28) example_queue qs [] H (example_clocks 28 ltac:(lia)))
    as (s' & ps1 & rs1 & ps2 & rs2 & E & Hf & _).
  exists qs, s', ps1, ps2, rs1. split; [exact H|]. split; [exact E|exact Hf].
Defined.

(** The executable model on the example: at 28 seconds timers 2 and 3 fire. *)
Example TimerQueue_fire_example :
  (match TimerQueue_fire (example_clock 28) example_queue with
   | Ret (ps, s) => Some (ps, next_timer_due (get_queue s Monotonic))
   | Stop _ => None
   end) = Some ([2%positive; 3%positive], MkTime 30 0).
Proof. vm_compute. reflexivity. Qed.
