(* ===== verification/Utf8.v ===== *)
(** * AK/Utf8View.cpp and the UTF-8 output of AK/StringBuilder.cpp

    A string is the list of its bytes.  An iterator is an offset into them and the number
    of bytes left; [begin()] has offset 0 and [end()] offset [m_string.length()].

    The theorems relate three things that the code keeps in separate loops: what
    [StringBuilder] writes, what [validate] accepts, and where iterating over the code
    points does not fail. *)

From S2P Require Import Prelude.

#[local] Open Scope Z_scope.

Definition length_of (bytes : list Z) : Z := Z.of_nat (length bytes).

(** ** StringBuilder *)

(** [append(char)]: the byte that is stored. *)
Definition StringBuilder_append_char (builder : list Z) (ch : Z) : list Z :=
  builder ++ [wrap u8 ch].

Definition StringBuilder_append_code_point (builder : list Z) (code_point : Z) : list Z :=
  let append := StringBuilder_append_char in
  if code_point <=? 0x7f then append builder code_point
  else if code_point <=? 0x07ff then
    let builder := append builder (Z.lor (Z.land (Z.shiftr code_point 6) 0x1f) 0xc0) in
    append builder (Z.lor (Z.land (Z.shiftr code_point 0) 0x3f) 0x80)
  else if code_point <=? 0xffff then
    let builder := append builder (Z.lor (Z.land (Z.shiftr code_point 12) 0x0f) 0xe0) in
    let builder := append builder (Z.lor (Z.land (Z.shiftr code_point 6) 0x3f) 0x80) in
    append builder (Z.lor (Z.land (Z.shiftr code_point 0) 0x3f) 0x80)
  else if code_point <=? 0x10ffff then
    let builder := append builder (Z.lor (Z.land (Z.shiftr code_point 18) 0x07) 0xf0) in
    let builder := append builder (Z.lor (Z.land (Z.shiftr code_point 12) 0x3f) 0x80) in
    let builder := append builder (Z.lor (Z.land (Z.shiftr code_point 6) 0x3f) 0x80) in
    append builder (Z.lor (Z.land (Z.shiftr code_point 0) 0x3f) 0x80)
  else
    let builder := append builder 0xef in
    let builder := append builder 0xbf in
    append builder 0xbd.

(** [append(const Utf32View&)]. *)
Definition StringBuilder_append_utf32 (builder code_points : list Z) : list Z :=
  fold_left StringBuilder_append_code_point code_points builder.

(** ** Decoding *)

(** [decode_first_byte]: the length and the value so far. *)
Definition decode_first_byte (byte : Z) : option (Z * Z) :=
  if Z.land byte 128 =? 0 then Some (1, byte)
  else if Z.land byte 64 =? 0 then None
  else if Z.land byte 32 =? 0 then Some (2, Z.land byte 31)
  else if Z.land byte 16 =? 0 then Some (3, Z.land byte 15)
  else if Z.land byte 8 =? 0 then Some (4, Z.land byte 7)
  else None.

(** The inner loop of [validate]: [n] more bytes behind [ptr]. *)
Fixpoint validate_rest (n : nat) (bytes : list Z) (ptr : Z) : outcome (option Z) :=
  match n with
  | O => Ret (Some ptr)
  | S n =>
      let ptr := ptr + 1 in
      if length_of bytes <=? ptr then Ret None
      else
        byte ← load bytes ptr;
        if negb (Z.shiftr byte 6 =? 2) then Ret None else validate_rest n bytes ptr
  end.

(** The outer loop: the result and [valid_bytes]. *)
Fixpoint validate_loop (fuel : nat) (bytes : list Z) (ptr valid_bytes : Z) : outcome (bool * Z) :=
  if ptr <? length_of bytes then
    match fuel with
    | O => Stop NoFuel
    | S fuel =>
        byte ← load bytes ptr;
        match decode_first_byte byte with
        | None => Ret (false, valid_bytes)
        | Some (code_point_length_in_bytes, _) =>
            rest ← validate_rest (Z.to_nat (code_point_length_in_bytes - 1)) bytes ptr;
            match rest with
            | None => Ret (false, valid_bytes)
            | Some ptr =>
                validate_loop fuel bytes (ptr + 1)
                  (wrap u32 (valid_bytes + code_point_length_in_bytes))
            end
        end
    end
  else Ret (true, valid_bytes).

Definition Utf8View_validate (bytes : list Z) : outcome (bool * Z) :=
  validate_loop (length bytes) bytes 0 0.

(** ** The iterator *)

Record Utf8CodepointIterator : Type := MkIterator { m_ptr : Z; m_length : Z }.

Definition Utf8View_begin (bytes : list Z) : Utf8CodepointIterator := MkIterator 0 (length_of bytes).
Definition Utf8View_end (bytes : list Z) : Utf8CodepointIterator := MkIterator (length_of bytes) 0.

Definition Utf8View_byte_offset_of (bytes : list Z) (it : Utf8CodepointIterator) : outcome Z :=
  VERIFY (0 <=? m_ptr it) ;;
  VERIFY (m_ptr it <=? length_of bytes) ;;
  Ret (m_ptr it - 0).

Definition Iterator_eq (a b : Utf8CodepointIterator) : bool :=
  (m_ptr a =? m_ptr b) && (m_length a =? m_length b).
Definition Iterator_ne (a b : Utf8CodepointIterator) : bool := negb (Iterator_eq a b).
Definition Iterator_done (it : Utf8CodepointIterator) : bool := m_length it =? 0.

Definition Iterator_code_point_length_in_bytes (bytes : list Z) (it : Utf8CodepointIterator)
    : outcome Z :=
  VERIFY (0 <? m_length it) ;;
  byte ← load bytes (m_ptr it);
  match decode_first_byte byte with
  | Some (code_point_length_in_bytes, _) => Ret code_point_length_in_bytes
  | None => Stop VerifyFailed
  end.

Definition Iterator_increment (bytes : list Z) (it : Utf8CodepointIterator)
    : outcome Utf8CodepointIterator :=
  VERIFY (0 <? m_length it) ;;
  byte ← load bytes (m_ptr it);
  match decode_first_byte byte with
  | Some (code_point_length_in_bytes, _) =>
      VERIFY (code_point_length_in_bytes <=? m_length it) ;;
      Ret (MkIterator (m_ptr it + code_point_length_in_bytes)
             (m_length it - code_point_length_in_bytes))
  | None => Stop VerifyFailed
  end.

(** The loop of [operator*]: [n] more bytes from [ptr[offset]]. *)
Fixpoint decode_rest (n : nat) (bytes : list Z) (ptr offset code_point_value_so_far : Z) : outcome Z :=
  match n with
  | O => Ret code_point_value_so_far
  | S n =>
      byte ← load bytes (ptr + offset);
      VERIFY (Z.shiftr byte 6 =? 2) ;;
      let value := wrap u32 (Z.shiftl code_point_value_so_far 6) in
      decode_rest n bytes ptr (offset + 1) (Z.lor value (Z.land byte 63))
  end.

Definition Iterator_deref (bytes : list Z) (it : Utf8CodepointIterator) : outcome Z :=
  VERIFY (0 <? m_length it) ;;
  byte ← load bytes (m_ptr it);
  match decode_first_byte byte with
  | Some (code_point_length_in_bytes, code_point_value_so_far) =>
      VERIFY (code_point_length_in_bytes <=? m_length it) ;;
      decode_rest (Z.to_nat (code_point_length_in_bytes - 1)) bytes (m_ptr it) 1 code_point_value_so_far
  | None => Stop VerifyFailed
  end.

(** [for (auto code_point : view)]: the code points. *)
Fixpoint iterate (fuel : nat) (bytes : list Z) (it : Utf8CodepointIterator) : outcome (list Z) :=
  if Iterator_ne it (Utf8View_end bytes) then
    match fuel with
    | O => Stop NoFuel
    | S fuel =>
        code_point ← Iterator_deref bytes it;
        it ← Iterator_increment bytes it;
        code_points ← iterate fuel bytes it;
        Ret (code_point :: code_points)
    end
  else Ret [].

Definition Utf8View_code_points (bytes : list Z) : outcome (list Z) :=
  iterate (length bytes) bytes (Utf8View_begin bytes).

Definition Utf8View_calculate_length (bytes : list Z) : outcome Z :=
  code_points ← Utf8View_code_points bytes; Ret (wrap u32 (length_of code_points)).

(** The loop of [starts_with]. *)
Fixpoint starts_with_loop (fuel : nat) (bytes start : list Z) (k l : Utf8CodepointIterator)
    : outcome bool :=
  if Iterator_ne l (Utf8View_end start) then
    match fuel with
    | O => Stop NoFuel
    | S fuel =>
        c ← Iterator_deref bytes k;
        d ← Iterator_deref start l;
        if negb (c =? d) then Ret false
        else
          k ← Iterator_increment bytes k;
          l ← Iterator_increment start l;
          starts_with_loop fuel bytes start k l
    end
  else Ret true.

(** [same_begin]: the two views begin at the same address. *)
Definition Utf8View_starts_with (same_begin : bool) (bytes start : list Z) : outcome bool :=
  if length_of start =? 0 then Ret true
  else if length_of bytes =? 0 then Ret false
  else
    start_length ← Utf8View_calculate_length start;
    this_length ← Utf8View_calculate_length bytes;
    if this_length <? start_length then Ret false
    else if same_begin then Ret true
    else starts_with_loop (length start) bytes start (Utf8View_begin bytes) (Utf8View_begin start).

(** ** Validation and iteration agree *)

Definition byte_at (bytes : list Z) (i : Z) : Z := default 0 (bytes !! Z.to_nat i).

Lemma load_byte bytes i : 0 <= i < length_of bytes -> load bytes i = Ret (byte_at bytes i).
Proof.
  unfold load, byte_at, length_of. intros Hi. rewrite (proj2 (Z.leb_le 0 i)) by lia.
  destruct (lookup_lt_is_Some_2 bytes (Z.to_nat i)) as [x ->]; [lia|done].
Qed.

Lemma decode_first_byte_length byte l v : decode_first_byte byte = Some (l, v) -> 1 <= l <= 4.
Proof. unfold decode_first_byte. repeat case_match; intros [= <- <-]; lia. Qed.

(** The [n] bytes behind [i] are there and are continuation bytes. *)
Fixpoint rest_ok (n : nat) (bytes : list Z) (i : Z) : bool :=
  match n with
  | O => true
  | S n => (i + 1 <? length_of bytes) && (Z.shiftr (byte_at bytes (i + 1)) 6 =? 2) &&
           rest_ok n bytes (i + 1)
  end.

Lemma rest_ok_bound n bytes i :
  rest_ok n bytes i = true -> i < length_of bytes -> i + Z.of_nat n < length_of bytes.
Proof.
  revert i. induction n as [|n IH]; intros i; cbn [rest_ok]; [lia|].
  rewrite !andb_true_iff. intros [[H1 _] H2] _. apply IH in H2; lia.
Qed.

Lemma validate_rest_spec n bytes i :
  0 <= i ->
  validate_rest n bytes i = Ret (if rest_ok n bytes i then Some (i + Z.of_nat n) else None).
Proof.
  revert i. induction n as [|n IH]; intros i Hi; cbn [validate_rest rest_ok].
  { by rewrite Z.add_0_r. }
  destruct (Z.leb_spec (length_of bytes) (i + 1)); destruct (Z.ltb_spec (i + 1) (length_of bytes)); try lia.
  - done.
  - rewrite load_byte by lia. run. destruct (Z.shiftr _ 6 =? 2); cbn [negb andb]; [|done].
    rewrite IH by lia. destruct (rest_ok _ _ _); [|done]. do 2 f_equal. lia.
Qed.

Lemma decode_rest_spec n bytes ptr offset v :
  0 <= ptr + offset -> ptr + offset + Z.of_nat n <= length_of bytes ->
  if rest_ok n bytes (ptr + offset - 1)
  then exists c, decode_rest n bytes ptr offset v = Ret c
  else decode_rest n bytes ptr offset v = Stop VerifyFailed.
Proof.
  revert offset v. induction n as [|n IH]; intros offset v H0 Hn; cbn [decode_rest rest_ok]; [by eexists|].
  replace (ptr + offset - 1 + 1) with (ptr + offset) by lia.
  rewrite (proj2 (Z.ltb_lt (ptr + offset) _)) by lia. rewrite load_byte by lia. run.
  destruct (Z.shiftr _ 6 =? 2); cbn [andb]; [|done]. rewrite (VERIFY_true true eq_refl). run.
  specialize (IH (offset + 1) (Z.lor (wrap u32 (Z.shiftl v 6)) (Z.land (byte_at bytes (ptr + offset)) 63))).
  replace (ptr + (offset + 1) - 1) with (ptr + offset) in IH by lia. apply IH; lia.
Qed.

(** One code point at [i]. *)
Lemma code_point_spec bytes i :
  0 <= i < length_of bytes ->
  let it := MkIterator i (length_of bytes - i) in
  match decode_first_byte (byte_at bytes i) with
  | Some (l, _) =>
      if rest_ok (Z.to_nat (l - 1)) bytes i then
        i + l <= length_of bytes /\ (exists c, Iterator_deref bytes it = Ret c) /\
        Iterator_increment bytes it = Ret (MkIterator (i + l) (length_of bytes - (i + l)))
      else Iterator_deref bytes it = Stop VerifyFailed
  | None => Iterator_deref bytes it = Stop VerifyFailed
  end.
Proof.
  intros Hi it. unfold Iterator_deref, Iterator_increment. subst it. cbn [m_ptr m_length].
  rewrite (VERIFY_true (0 <? length_of bytes - i)) by lia. run. rewrite load_byte by lia. run.
  destruct (decode_first_byte (byte_at bytes i)) as [[l v]|] eqn:E; [|done].
  apply decode_first_byte_length in E.
  pose proof (rest_ok_bound (Z.to_nat (l - 1)) bytes i) as Hbound.
  destruct (Z.leb_spec l (length_of bytes - i)) as [Hl|Hl].
  - rewrite (VERIFY_true true eq_refl). run.
    pose proof (decode_rest_spec (Z.to_nat (l - 1)) bytes i 1 v) as Hrest.
    replace (i + 1 - 1) with i in Hrest by lia.
    specialize (Hrest ltac:(lia) ltac:(lia)).
    destruct (rest_ok _ _ _); [|done]. split_and!; [lia|done|]. do 2 f_equal. lia.
  - destruct (rest_ok _ _ _); [|done]. specialize (Hbound eq_refl). lia.
Qed.

Lemma iterate_end bytes fuel : iterate fuel bytes (Utf8View_end bytes) = Ret [].
Proof. destruct fuel; cbn; unfold Iterator_ne, Iterator_eq; by rewrite !Z.eqb_refl. Qed.

Lemma iterate_step bytes fuel i :
  i < length_of bytes ->
  iterate (S fuel) bytes (MkIterator i (length_of bytes - i)) =
  (code_point ← Iterator_deref bytes (MkIterator i (length_of bytes - i));
   it ← Iterator_increment bytes (MkIterator i (length_of bytes - i));
   code_points ← iterate fuel bytes it;
   Ret (code_point :: code_points)).
Proof.
  intros Hi. cbn [iterate]. unfold Iterator_ne, Iterator_eq, Utf8View_end. cbn [m_ptr m_length].
  rewrite (proj2 (Z.eqb_neq i (length_of bytes))) by lia. done.
Qed.

Lemma validate_iterate bytes fuel i :
  length_of bytes < 2 ^ 32 -> 0 <= i <= length_of bytes -> length_of bytes - i <= Z.of_nat fuel ->
  exists b v, validate_loop fuel bytes i i = Ret (b, v) /\ i <= v <= length_of bytes /\
    if (b : bool)
    then v = length_of bytes /\
         exists cps, iterate fuel bytes (MkIterator i (length_of bytes - i)) = Ret cps
    else iterate fuel bytes (MkIterator i (length_of bytes - i)) = Stop VerifyFailed.
Proof.
  intros Hlen. revert i. induction fuel as [|fuel IH]; intros i Hi Hfuel.
  { assert (i = length_of bytes) as -> by lia. exists true, (length_of bytes).
    rewrite Z.sub_diag. cbn. rewrite Z.ltb_irrefl. split_and!; try done; try lia.
    exists []. apply (iterate_end bytes 0). }
  destruct (decide (i = length_of bytes)) as [->|Hne].
  { exists true, (length_of bytes). rewrite Z.sub_diag. cbn [validate_loop]. rewrite Z.ltb_irrefl.
    split_and!; try done; try lia. exists []. apply iterate_end. }
  rewrite iterate_step by lia. cbn [validate_loop].
  rewrite (proj2 (Z.ltb_lt i (length_of bytes))) by lia. rewrite load_byte by lia. run.
  pose proof (code_point_spec bytes i ltac:(lia)) as Hone. cbn zeta in Hone.
  destruct (decode_first_byte (byte_at bytes i)) as [[l v0]|] eqn:E.
  2: { exists false, i. rewrite Hone. split_and!; try done; lia. }
  apply decode_first_byte_length in E. rewrite validate_rest_spec by lia. run.
  destruct (rest_ok _ _ _).
  2: { exists false, i. rewrite Hone. split_and!; try done; lia. }
  destruct Hone as (Hl & [c Hc] & Hinc). rewrite Hc, Hinc. run.
  replace (i + Z.of_nat (Z.to_nat (l - 1)) + 1) with (i + l) by lia.
  rewrite (wrap_id u32 eq_refl) by (rewrite in_type_u32; lia).
  destruct (IH (i + l)) as (b & v & Hv & Hb & Hres); [lia|lia|]. exists b, v.
  split; [done|]. split; [lia|]. destruct b.
  - destruct Hres as [-> [cps Hcps]]. split; [done|]. rewrite Hcps. run. by eexists.
  - by rewrite Hres.
Qed.

(** [valid_bytes] ends a valid prefix. *)
Lemma byte_at_take bytes v i : 0 <= i < v -> byte_at (take (Z.to_nat v) bytes) i = byte_at bytes i.
Proof. intros H. unfold byte_at. rewrite lookup_take_lt by lia. done. Qed.

Lemma length_take_valid bytes v : 0 <= v <= length_of bytes -> length_of (take (Z.to_nat v) bytes) = v.
Proof. unfold length_of. rewrite length_take. lia. Qed.

Lemma rest_ok_take n bytes v i :
  0 <= i -> i + Z.of_nat n < v -> v <= length_of bytes ->
  rest_ok n (take (Z.to_nat v) bytes) i = rest_ok n bytes i.
Proof.
  intros Hi Hn Hv. revert i Hi Hn. induction n as [|n IH]; intros i Hi Hn; [done|]. cbn [rest_ok].
  rewrite byte_at_take, length_take_valid, IH by lia.
  rewrite !(proj2 (Z.ltb_lt (i + 1) _)) by lia. done.
Qed.

Lemma validate_prefix bytes fuel i b v :
  length_of bytes < 2 ^ 32 -> 0 <= i <= length_of bytes ->
  validate_loop fuel bytes i i = Ret (b, v) ->
  i <= v <= length_of bytes /\ validate_loop fuel (take (Z.to_nat v) bytes) i i = Ret (true, v).
Proof.
  intros Hlen. revert i. induction fuel as [|fuel IH]; intros i Hi.
  { cbn [validate_loop]. destruct (Z.ltb_spec i (length_of bytes)); [done|]. intros [= _ <-].
    split; [lia|]. rewrite length_take_valid by lia. by rewrite Z.ltb_irrefl. }
  assert (forall b', Ret (b', i) = Ret (b, v) -> i <= v <= length_of bytes /\
    validate_loop (S fuel) (take (Z.to_nat v) bytes) i i = Ret (true, v)) as Hstop.
  { intros b' [= _ <-]. split; [lia|]. cbn [validate_loop]. rewrite length_take_valid by lia.
    by rewrite Z.ltb_irrefl. }
  cbn [validate_loop] in *. destruct (Z.ltb_spec i (length_of bytes)) as [Hlt|Hge]; [|by apply Hstop].
  rewrite load_byte by lia. run.
  destruct (decode_first_byte (byte_at bytes i)) as [[l v0]|] eqn:E; [|by apply Hstop].
  pose proof (decode_first_byte_length _ _ _ E) as Hl. rewrite validate_rest_spec by lia. run.
  pose proof (rest_ok_bound (Z.to_nat (l - 1)) bytes i) as Hbound.
  destruct (rest_ok (Z.to_nat (l - 1)) bytes i) eqn:Er; [|by apply Hstop].
  specialize (Hbound eq_refl Hlt).
  replace (i + Z.of_nat (Z.to_nat (l - 1)) + 1) with (i + l) by lia.
  rewrite (wrap_id u32 eq_refl) by (rewrite in_type_u32; lia).
  intros Hloop. destruct (IH (i + l) ltac:(lia) Hloop) as [Hv Hloop']. split; [lia|].
  rewrite length_take_valid by lia. rewrite (proj2 (Z.ltb_lt i v)) by lia.
  rewrite load_byte by (rewrite length_take_valid; lia). run.
  rewrite byte_at_take, E, validate_rest_spec by lia. run. rewrite rest_ok_take, Er by lia.
  replace (i + Z.of_nat (Z.to_nat (l - 1)) + 1) with (i + l) by lia.
  rewrite (wrap_id u32 eq_refl) by (rewrite in_type_u32; lia). exact Hloop'.
Qed.

(** More fuel than needed changes nothing. *)
Lemma validate_fuel fuel fuel' bytes i w r :
  (fuel <= fuel')%nat -> validate_loop fuel bytes i w = Ret r -> validate_loop fuel' bytes i w = Ret r.
Proof.
  revert fuel' i w. induction fuel as [|fuel IH]; intros fuel' i w Hle.
  - cbn [validate_loop]. destruct (i <? length_of bytes) eqn:E; [done|].
    destruct fuel'; cbn [validate_loop]; by rewrite E.
  - destruct fuel' as [|fuel']; [lia|]. cbn [validate_loop].
    destruct (i <? length_of bytes); [|done]. destruct (load bytes i) as [byte|]; [|done]. run.
    destruct (decode_first_byte byte) as [[l v]|]; [|done].
    destruct (validate_rest _ _ _) as [[p|]|]; [|done..]. run. apply IH. lia.
Qed.

(** ** Writing *)

(** The bytes of one code point. *)
Definition utf8_bytes (c : Z) : list Z := StringBuilder_append_code_point [] c.

(** What a code point above U+10FFFF is replaced by. *)
Definition replaced (c : Z) : Z := if c <=? 0x10ffff then c else 0xfffd.

Lemma append_code_point_bytes builder c :
  StringBuilder_append_code_point builder c = builder ++ utf8_bytes c.
Proof.
  unfold utf8_bytes, StringBuilder_append_code_point, StringBuilder_append_char.
  repeat case_match; cbn [app]; by rewrite <- ?app_assoc.
Qed.

Lemma append_utf32_bytes builder cps :
  StringBuilder_append_utf32 builder cps = builder ++ concat (map utf8_bytes cps).
Proof.
  unfold StringBuilder_append_utf32. revert builder.
  induction cps as [|c cps IH]; intros builder; cbn; [by rewrite app_nil_r|].
  by rewrite IH, append_code_point_bytes, <- app_assoc.
Qed.

(** A lead byte and a continuation byte decode to their payload. *)
Lemma lead_2 x : 0 <= x < 32 -> decode_first_byte (Z.lor x 0xc0) = Some (2, x).
Proof.
  intros Hx. check_range 32 x.
Qed.

Lemma lead_3 x : 0 <= x < 16 -> decode_first_byte (Z.lor x 0xe0) = Some (3, x).
Proof.
  intros Hx. check_range 16 x.
Qed.

Lemma lead_4 x : 0 <= x < 8 -> decode_first_byte (Z.lor x 0xf0) = Some (4, x).
Proof.
  intros Hx. check_range 8 x.
Qed.

Lemma lead_1 x : 0 <= x <= 127 -> decode_first_byte x = Some (1, x).
Proof.
  intros Hx. check_range 128 x.
Qed.

Lemma continuation x :
  0 <= x < 64 -> Z.shiftr (Z.lor x 0x80) 6 = 2 /\ Z.land (Z.lor x 0x80) 63 = x.
Proof.
  intros Hx. check_range 64 x.
Qed.

Lemma lor_byte x y : 0 <= x < 64 -> In y [0x80; 0xc0; 0xe0; 0xf0] -> wrap u8 (Z.lor x y) = Z.lor x y.
Proof.
  intros Hx Hy. refine (bool_decide_eq_true_1 _ _).
  assert (forallb (fun x => forallb (fun y => bool_decide (wrap u8 (Z.lor x y) = Z.lor x y))
    [0x80; 0xc0; 0xe0; 0xf0]) (seqZ 0 64) = true) as H by (vm_compute; reflexivity).
  pose proof (forallb_range _ 64 x H Hx) as Hrow. cbn beta in Hrow.
  rewrite forallb_forall in Hrow. by apply Hrow.
Qed.

(** Shifting a value up by six bits and putting six bits below it. *)
Lemma lor_shift v x : 0 <= v < 2 ^ 26 -> 0 <= x < 64 ->
  Z.lor (wrap u32 (Z.shiftl v 6)) x = v * 64 + x.
Proof.
  intros Hv Hx. rewrite Z.shiftl_mul_pow2, wrap_id; try done; [|rewrite in_type_u32; lia].
  change (2 ^ 6) with 64. rewrite <- Z.add_lor_land.
  assert (Z.land (v * 64) x = 0) as ->; [|lia].
  apply Z.bits_inj'. intros n Hn. rewrite Z.land_spec, Z.bits_0.
  destruct (Z.lt_ge_cases n 6).
  - change 64 with (2 ^ 6). by rewrite Z.mul_pow2_bits_low.
  - rewrite (Z.bits_above_log2 x n), andb_false_r; [done|lia|].
    destruct (decide (x = 0)) as [->|]; [cbn; lia|]. apply Z.log2_lt_pow2; [lia|].
    apply (Z.lt_le_trans _ (2 ^ 6)); [lia|]. by apply Z.pow_le_mono_r.
Qed.

(** The value that continuation bytes with the payloads [xs] add to [v]. *)
Definition compose (v : Z) (xs : list Z) : Z := fold_left (fun v x => v * 64 + x) xs v.

Definition continuations (xs : list Z) : list Z := map (fun x => Z.lor x 0x80) xs.

Lemma byte_at_app pre l k : 0 <= k -> byte_at (pre ++ l) (length_of pre + k) = byte_at l k.
Proof.
  intros Hk. unfold byte_at, length_of. rewrite lookup_app_r by lia. do 2 f_equal. lia.
Qed.

Lemma length_of_app xs ys : length_of (xs ++ ys) = length_of xs + length_of ys.
Proof. unfold length_of. rewrite length_app. lia. Qed.

Lemma length_of_cons x xs : length_of (x :: xs) = length_of xs + 1.
Proof. unfold length_of. cbn [length]. lia. Qed.

Lemma length_of_nonneg xs : 0 <= length_of xs.
Proof. unfold length_of. lia. Qed.

Lemma decode_rest_compose xs pre post ptr offset v :
  Forall (fun x => 0 <= x < 64) xs -> 0 <= v -> (v + 1) * 64 ^ length_of xs <= 2 ^ 26 ->
  ptr + offset = length_of pre ->
  decode_rest (length xs) (pre ++ continuations xs ++ post) ptr offset v = Ret (compose v xs).
Proof.
  revert pre offset v. induction xs as [|x xs IH]; intros pre offset v Hxs Hv Hb Hp; [done|].
  apply Forall_cons_iff in Hxs as [Hx Hxs]. rewrite length_of_cons in Hb.
  pose proof (length_of_nonneg xs). rewrite Z.pow_add_r in Hb by lia.
  assert (0 < 64 ^ length_of xs) by (apply Z.pow_pos_nonneg; lia).
  destruct (continuation x Hx) as [Hshift Hland].
  change (continuations (x :: xs)) with (Z.lor x 0x80 :: continuations xs).
  cbn [length decode_rest]. rewrite load_byte.
  2: { rewrite Hp, length_of_app. cbn [app]. rewrite length_of_cons.
       pose proof (length_of_nonneg pre). pose proof (length_of_nonneg (continuations xs ++ post)). lia. }
  replace (ptr + offset) with (length_of pre + 0) by lia. rewrite byte_at_app by lia. run.
  change (byte_at ((Z.lor x 0x80 :: continuations xs) ++ post) 0) with (Z.lor x 0x80).
  rewrite Hshift, Hland. rewrite (VERIFY_true (2 =? 2) eq_refl). run.
  rewrite lor_shift by nia.
  replace (pre ++ (Z.lor x 0x80 :: continuations xs) ++ post)
    with ((pre ++ [Z.lor x 0x80]) ++ continuations xs ++ post) by (by rewrite <- app_assoc).
  rewrite IH; [done|done|lia|nia|]. rewrite length_of_app. change (length_of [Z.lor x 0x80]) with 1. lia.
Qed.

(** A lead byte followed by its continuation bytes. *)
Lemma deref_lead pre b0 v0 xs post :
  decode_first_byte b0 = Some (1 + length_of xs, v0) ->
  Forall (fun x => 0 <= x < 64) xs -> 0 <= v0 -> (v0 + 1) * 64 ^ length_of xs <= 2 ^ 26 ->
  let bytes := pre ++ (b0 :: continuations xs) ++ post in
  let it := MkIterator (length_of pre) (length_of bytes - length_of pre) in
  Iterator_deref bytes it = Ret (compose v0 xs) /\
  Iterator_increment bytes it =
    Ret (MkIterator (length_of pre + (1 + length_of xs))
           (length_of bytes - (length_of pre + (1 + length_of xs)))).
Proof.
  intros Hlead Hxs Hv Hb bytes it.
  assert (length_of bytes = length_of pre + (1 + length_of xs) + length_of post) as Hlen.
  { subst bytes. rewrite !length_of_app, length_of_cons.
    unfold continuations, length_of. rewrite length_map. lia. }
  pose proof (length_of_nonneg pre). pose proof (length_of_nonneg post). pose proof (length_of_nonneg xs).
  unfold Iterator_deref, Iterator_increment. subst it. cbn [m_ptr m_length].
  rewrite (VERIFY_true (0 <? length_of bytes - length_of pre)) by lia. run.
  rewrite load_byte by lia. run.
  replace (byte_at bytes (length_of pre)) with b0.
  2: { rewrite <- (Z.add_0_r (length_of pre)). subst bytes. by rewrite byte_at_app. }
  rewrite Hlead. rewrite (VERIFY_true (1 + length_of xs <=? length_of bytes - length_of pre)) by lia. run.
  split; [|do 2 f_equal; lia].
  replace (Z.to_nat (1 + length_of xs - 1)) with (length xs) by (unfold length_of; lia).
  subst bytes. cbn [app]. change (b0 :: continuations xs ++ post) with ([b0] ++ continuations xs ++ post).
  rewrite app_assoc. apply decode_rest_compose; try done.
  rewrite length_of_app. change (length_of [b0]) with 1. lia.
Qed.

(** A field of a code point. *)
Lemma field c k j : 0 <= k -> 0 <= j -> Z.land (Z.shiftr c k) (Z.ones j) = c / 2 ^ k mod 2 ^ j.
Proof. intros Hk Hj. by rewrite Z.land_ones, Z.shiftr_div_pow2. Qed.

Lemma six_bits c k : 0 <= k -> 0 <= c / 2 ^ k mod 2 ^ 6 < 64.
Proof. intros. apply Z.mod_pos_bound. lia. Qed.

(** Every code point is written as a lead byte and continuation bytes that compose to it. *)
Definition utf8_form (c b0 v0 : Z) (xs : list Z) : Prop :=
  utf8_bytes c = b0 :: continuations xs /\
  decode_first_byte b0 = Some (1 + length_of xs, v0) /\ Forall (fun x => 0 <= x < 64) xs /\
  0 <= v0 /\ (v0 + 1) * 64 ^ length_of xs <= 2 ^ 26 /\ compose v0 xs = replaced c.

Ltac utf8_fields :=
  unfold utf8_bytes, StringBuilder_append_code_point, StringBuilder_append_char, continuations, app, map;
  repeat match goal with
  | |- context [?c <=? ?k] =>
      first [rewrite (proj2 (Z.leb_le c k)) by lia | rewrite (proj2 (Z.leb_gt c k)) by lia]
  end;
  change 0x3f with (Z.ones 6); change 0x1f with (Z.ones 5); change 0x0f with (Z.ones 4);
  change 0x07 with (Z.ones 3); rewrite ?field by lia.

Ltac forall_payloads := repeat (apply Forall_cons_2; [lia|]); apply Forall_nil_2.

Lemma utf8_form_2 c : 0x7f < c <= 0x7ff -> utf8_form c (Z.lor (c / 64) 0xc0) (c / 64) [c mod 64].
Proof.
  intros Hc. assert (0 <= c / 64 < 32) as Hv by (Z.to_euclidean_division_equations; lia).
  assert (0 <= c mod 64 < 64) as Hx by (apply Z.mod_pos_bound; lia).
  split_and!.
  - utf8_fields. change (2 ^ 6) with 64. change (2 ^ 5) with 32. change (2 ^ 0) with 1.
    rewrite Z.div_1_r, (Z.mod_small (c / 64) 32) by lia.
    rewrite !lor_byte by (lia || (cbn; tauto)). done.
  - by rewrite lead_2.
  - forall_payloads.
  - lia.
  - change (64 ^ length_of [c mod 64]) with 64. lia.
  - unfold replaced. rewrite (proj2 (Z.leb_le c 0x10ffff)) by lia. cbn.
    Z.to_euclidean_division_equations; lia.
Qed.

Lemma utf8_form_3 c :
  0x7ff < c <= 0xffff ->
  utf8_form c (Z.lor (c / 4096) 0xe0) (c / 4096) [c / 64 mod 64; c mod 64].
Proof.
  intros Hc. assert (0 <= c / 4096 < 16) as Hv by (Z.to_euclidean_division_equations; lia).
  assert (0 <= c mod 64 < 64) as Hx by (apply Z.mod_pos_bound; lia).
  assert (0 <= c / 64 mod 64 < 64) as Hy by (apply Z.mod_pos_bound; lia).
  split_and!.
  - utf8_fields. change (2 ^ 6) with 64. change (2 ^ 4) with 16. change (2 ^ 12) with 4096.
    change (2 ^ 0) with 1. rewrite Z.div_1_r, (Z.mod_small (c / 4096) 16) by lia.
    rewrite !lor_byte by (lia || (cbn; tauto)). done.
  - by rewrite lead_3.
  - forall_payloads.
  - lia.
  - change (64 ^ length_of [c / 64 mod 64; c mod 64]) with 4096. lia.
  - unfold replaced. rewrite (proj2 (Z.leb_le c 0x10ffff)) by lia. cbn.
    Z.to_euclidean_division_equations; lia.
Qed.

Lemma utf8_form_4 c :
  0xffff < c <= 0x10ffff ->
  utf8_form c (Z.lor (c / 262144) 0xf0) (c / 262144) [c / 4096 mod 64; c / 64 mod 64; c mod 64].
Proof.
  intros Hc. assert (0 <= c / 262144 < 8) as Hv by (Z.to_euclidean_division_equations; lia).
  assert (0 <= c mod 64 < 64) as Hx by (apply Z.mod_pos_bound; lia).
  assert (0 <= c / 64 mod 64 < 64) as Hy by (apply Z.mod_pos_bound; lia).
  assert (0 <= c / 4096 mod 64 < 64) as Hz by (apply Z.mod_pos_bound; lia).
  split_and!.
  - utf8_fields. change (2 ^ 6) with 64. change (2 ^ 3) with 8. change (2 ^ 12) with 4096.
    change (2 ^ 18) with 262144. change (2 ^ 0) with 1.
    rewrite Z.div_1_r, (Z.mod_small (c / 262144) 8) by lia.
    rewrite !lor_byte by (lia || (cbn; tauto)). done.
  - by rewrite lead_4.
  - forall_payloads.
  - lia.
  - change (64 ^ length_of [c / 4096 mod 64; c / 64 mod 64; c mod 64]) with 262144. lia.
  - unfold replaced. rewrite (proj2 (Z.leb_le c 0x10ffff)) by lia. cbn.
    Z.to_euclidean_division_equations; lia.
Qed.

Lemma utf8_form_exists c : 0 <= c -> exists b0 v0 xs, utf8_form c b0 v0 xs.
Proof.
  intros Hc. destruct (decide (c <= 0x7f)).
  { exists c, c, []. split_and!; try done.
    - utf8_fields. by rewrite wrap_id by (rewrite ?in_type_u8; done || lia).
    - by rewrite lead_1.
    - change (64 ^ length_of []) with 1. lia.
    - unfold replaced. by rewrite (proj2 (Z.leb_le c 0x10ffff)) by lia. }
  destruct (decide (c <= 0x7ff)); [eauto using utf8_form_2 with lia|].
  destruct (decide (c <= 0xffff)); [eauto using utf8_form_3 with lia|].
  destruct (decide (c <= 0x10ffff)); [eauto using utf8_form_4 with lia|].
  exists 0xef, 15, [63; 61]. split_and!; try done.
  - utf8_fields. done.
  - forall_payloads.
  - unfold replaced. by rewrite (proj2 (Z.leb_gt c 0x10ffff)) by lia.
Qed.

Lemma iterate_written cps pre fuel :
  Forall (fun c => 0 <= c) cps -> (length cps <= fuel)%nat ->
  let bytes := pre ++ concat (map utf8_bytes cps) in
  iterate fuel bytes (MkIterator (length_of pre) (length_of bytes - length_of pre)) =
  Ret (map replaced cps).
Proof.
  revert pre fuel. induction cps as [|c cps IH]; intros pre fuel Hcps Hfuel bytes; subst bytes.
  { cbn. rewrite app_nil_r, Z.sub_diag. apply iterate_end. }
  apply Forall_cons_iff in Hcps as [Hc Hcps]. destruct fuel as [|fuel]; [cbn in Hfuel; lia|].
  destruct (utf8_form_exists c Hc) as (b0 & v0 & xs & Hbytes & Hlead & Hxs & Hv & Hb & Hval).
  cbn [map concat]. rewrite Hbytes.
  set (bytes := pre ++ _).
  destruct (deref_lead pre b0 v0 xs (concat (map utf8_bytes cps)) Hlead Hxs Hv Hb) as [Hd Hi].
  cbn zeta in Hd, Hi. fold bytes in Hd, Hi.
  assert (length_of bytes = length_of pre + (1 + length_of xs) + length_of (concat (map utf8_bytes cps))) as Hlen.
  { subst bytes. rewrite !length_of_app, length_of_cons.
    unfold continuations, length_of. rewrite length_map. lia. }
  pose proof (length_of_nonneg xs). pose proof (length_of_nonneg (concat (map utf8_bytes cps))).
  rewrite iterate_step by lia. rewrite Hd, Hi, Hval. run.
  specialize (IH (pre ++ b0 :: continuations xs) fuel Hcps ltac:(cbn in Hfuel; lia)). cbn zeta in IH.
  rewrite <- app_assoc in IH. fold bytes in IH.
  replace (length_of (pre ++ b0 :: continuations xs)) with (length_of pre + (1 + length_of xs)) in IH.
  - rewrite IH. done.
  - rewrite length_of_app, length_of_cons. unfold continuations, length_of. rewrite length_map. lia.
Qed.

Lemma written_length cps : (length cps <= length (concat (map utf8_bytes cps)))%nat.
Proof.
  induction cps as [|c cps IH]; [done|]. cbn [map concat length]. rewrite length_app.
  assert (1 <= length (utf8_bytes c))%nat; [|lia].
  unfold utf8_bytes, StringBuilder_append_code_point, StringBuilder_append_char.
  repeat case_match; cbn; lia.
Qed.

(** ** [starts_with] *)

Lemma iterate_cons_inv fuel bytes it c cs :
  iterate fuel bytes it = Ret (c :: cs) ->
  exists fuel' it', Iterator_deref bytes it = Ret c /\ Iterator_increment bytes it = Ret it' /\
    iterate fuel' bytes it' = Ret cs.
Proof.
  destruct fuel as [|fuel]; cbn [iterate]; destruct (Iterator_ne it _); try done.
  intros (c' & Hc & H)%bind_Ret_inv. apply bind_Ret_inv in H as (it' & Hit & H).
  apply bind_Ret_inv in H as (cs' & Hcs & [= -> ->]). by exists fuel, it'.
Qed.

Lemma iterate_nil_inv fuel bytes it :
  iterate fuel bytes it = Ret [] -> Iterator_ne it (Utf8View_end bytes) = false.
Proof.
  destruct fuel as [|fuel]; cbn [iterate]; destruct (Iterator_ne it _); try done.
  intros (c & _ & H)%bind_Ret_inv. apply bind_Ret_inv in H as (it' & _ & H).
  by apply bind_Ret_inv in H as (cs & _ & [=]).
Qed.

Lemma iterate_cons_ne fuel bytes it c cs :
  iterate fuel bytes it = Ret (c :: cs) -> Iterator_ne it (Utf8View_end bytes) = true.
Proof. destruct fuel as [|fuel]; cbn [iterate]; by destruct (Iterator_ne it _). Qed.

Lemma starts_with_loop_spec fuel f1 f2 bytes start k l cs ds :
  iterate f1 bytes k = Ret cs -> iterate f2 start l = Ret ds ->
  (length ds <= length cs)%nat -> (length ds <= fuel)%nat ->
  starts_with_loop fuel bytes start k l = Ret (bool_decide (ds `prefix_of` cs)).
Proof.
  revert fuel f1 f2 k l cs. induction ds as [|d ds IH]; intros fuel f1 f2 k l cs Hk Hl Hlen Hfuel.
  { apply iterate_nil_inv in Hl. rewrite bool_decide_true by apply prefix_nil.
    destruct fuel; cbn [starts_with_loop]; by rewrite Hl. }
  destruct cs as [|c cs]; [cbn in Hlen; lia|]. destruct fuel as [|fuel]; [cbn in Hfuel; lia|].
  cbn [starts_with_loop]. rewrite (iterate_cons_ne _ _ _ _ _ Hl).
  apply iterate_cons_inv in Hk as (g1 & k' & Hc & Hk' & Hk).
  apply iterate_cons_inv in Hl as (g2 & l' & Hd & Hl' & Hl).
  rewrite Hc, Hd. run. destruct (Z.eqb_spec c d) as [->|Hne]; cbn [negb].
  - rewrite Hk', Hl'. run. rewrite (IH fuel g1 g2 k' l' cs) by (done || (cbn in *; lia)).
    f_equal. apply bool_decide_ext. split; [apply prefix_cons|apply prefix_cons_inv_2].
  - rewrite bool_decide_false; [done|]. by intros ?%prefix_cons_inv_1.
Qed.

Lemma iterate_length fuel bytes it cs : iterate fuel bytes it = Ret cs -> (length cs <= fuel)%nat.
Proof.
  revert it cs. induction fuel as [|fuel IH]; intros it cs; cbn [iterate];
    destruct (Iterator_ne it _); try done; try (intros [= <-]; cbn; lia).
  intros (c & _ & H)%bind_Ret_inv. apply bind_Ret_inv in H as (it' & _ & H).
  apply bind_Ret_inv in H as (cs' & Hcs & [= <-]). apply IH in Hcs. cbn. lia.
Qed.

Lemma iterate_empty bytes cs :
  Utf8View_code_points bytes = Ret cs -> length_of bytes = 0 -> cs = [].
Proof.
  unfold Utf8View_code_points. intros Hcs Hlen. apply iterate_length in Hcs.
  unfold length_of in Hlen. destruct cs; [done|]. cbn in Hcs. lia.
Qed.

Lemma iterate_nonempty bytes : Utf8View_code_points bytes = Ret [] -> length_of bytes = 0.
Proof.
  unfold Utf8View_code_points. intros H%iterate_nil_inv. unfold Iterator_ne, Iterator_eq in H.
  cbn in H. lia.
Qed.

(** ** Properties *)

(** C35. [Utf8View::validate] is exactly the condition under which iterating over the view
    is safe: it returns for every byte string, never reading outside of it; when it
    accepts, the iteration over the code points returns, and all bytes are valid; when it
    rejects, the iteration runs into a failed VERIFY, and the reported prefix of
    [valid_bytes] bytes is itself accepted. *)
Theorem Utf8View_validate_correct (bytes : list Z) (Hlen : length_of bytes < 2 ^ 32) :
  exists accepted valid_bytes, Utf8View_validate bytes = Ret (accepted, valid_bytes) /\
    0 <= valid_bytes <= length_of bytes /\
    Utf8View_validate (take (Z.to_nat valid_bytes) bytes) = Ret (true, valid_bytes) /\
    if (accepted : bool)
    then valid_bytes = length_of bytes /\ exists cps, Utf8View_code_points bytes = Ret cps
    else Utf8View_code_points bytes = Stop VerifyFailed.
Proof.
  unfold Utf8View_validate, Utf8View_code_points, Utf8View_begin. pose proof (length_of_nonneg bytes).
  destruct (validate_iterate bytes (length bytes) 0) as (b & v & Hval & Hv & Hres);
    [done|lia|unfold length_of; lia|].
  rewrite Z.sub_0_r in Hres. exists b, v. split_and!; [done|lia|lia| |done].
  destruct (validate_prefix bytes (length bytes) 0 b v) as [_ Hpre]; [done|lia|done|].
  (* the prefix needs no more fuel than its length *)
  destruct (validate_iterate (take (Z.to_nat v) bytes) (length (take (Z.to_nat v) bytes)) 0)
    as (b' & v' & Hval' & _); rewrite ?length_take_valid by lia; [lia|lia| |].
  { rewrite length_take. unfold length_of in *. lia. }
  rewrite Hval'. rewrite <- Hpre. symmetry. apply validate_fuel with (2 := Hval').
  rewrite length_take. lia.
Qed.

Lemma Utf8View_validate_correct_witness :
  length_of [0x41; 0xc3; 0xa9; 0xff] < 2 ^ 32 /\
  Utf8View_validate [0x41; 0xc3; 0xa9; 0xff] = Ret (false, 3) /\
  Utf8View_code_points [0x41; 0xc3; 0xa9; 0xff] = Stop VerifyFailed.
Proof.
  split; [reflexivity|].
  destruct (Utf8View_validate_correct [0x41; 0xc3; 0xa9; 0xff] eq_refl)
    as (b & v & E & _ & _ & Hres).
  assert (Utf8View_validate [0x41; 0xc3; 0xa9; 0xff] = Ret (false, 3)) as E' by (vm_compute; reflexivity).
  rewrite E' in E. injection E as <- <-. split; [exact E'|exact Hres].
Defined.

(** C36. UTF-8 round trip: whatever code points [StringBuilder] appends, [validate] accepts
    the result and iterating over it gives the code points back, with those above U+10FFFF
    replaced by U+FFFD. *)
Theorem Utf8_roundtrip (cps : list Z) (Hcps : Forall (fun c => 0 <= c) cps)
    (Hlen : length_of (StringBuilder_append_utf32 [] cps) < 2 ^ 32) :
  let bytes := StringBuilder_append_utf32 [] cps in
  Utf8View_validate bytes = Ret (true, length_of bytes) /\
  Utf8View_code_points bytes = Ret (map replaced cps) /\
  Utf8View_calculate_length bytes = Ret (length_of cps).
Proof.
  cbn zeta. set (bytes := StringBuilder_append_utf32 [] cps) in *.
  assert (Utf8View_code_points bytes = Ret (map replaced cps)) as Hpoints.
  { unfold Utf8View_code_points, Utf8View_begin.
    pose proof (iterate_written cps [] (length bytes) Hcps) as H. cbn zeta in H.
    rewrite <- (append_utf32_bytes [] cps) in H. fold bytes in H.
    change (length_of []) with 0 in H. rewrite Z.sub_0_r in H. apply H.
    subst bytes. rewrite append_utf32_bytes. apply written_length. }
  split_and!.
  - destruct (validate_iterate bytes (length bytes) 0) as (b & v & Hval & Hv & Hres);
      [done|pose proof (length_of_nonneg bytes); lia|unfold length_of; lia|].
    unfold Utf8View_validate. rewrite Hval. unfold Utf8View_code_points, Utf8View_begin in Hpoints.
    rewrite Z.sub_0_r, Hpoints in Hres. destruct b; [|done]. by destruct Hres as [-> _].
  - done.
  - unfold Utf8View_calculate_length. rewrite Hpoints. run.
    assert (length cps <= length bytes)%nat.
    { unfold Utf8View_code_points in Hpoints. apply iterate_length in Hpoints.
      by rewrite length_map in Hpoints. }
    unfold length_of in *. rewrite length_map, wrap_id; [done|done|rewrite in_type_u32; lia].
Qed.

Lemma Utf8_roundtrip_witness :
  Utf8View_code_points (StringBuilder_append_utf32 [] [0x41; 0x20ac; 0x1f600; 0x110000]) =
  Ret [0x41; 0x20ac; 0x1f600; 0xfffd].
Proof.
  apply (Utf8_roundtrip [0x41; 0x20ac; 0x1f600; 0x110000]).
  - repeat (apply Forall_cons_2; [lia|]); apply Forall_nil_2.
  - vm_compute. reflexivity.
Defined.

(** [starts_with] on two valid views tells whether the code points of the one are a
    prefix of those of the other, and fails no VERIFY. *)
Theorem Utf8View_starts_with_correct (bytes start cs ds : list Z)
    (Hcs : Utf8View_code_points bytes = Ret cs) (Hds : Utf8View_code_points start = Ret ds)
    (Hlen : length_of bytes < 2 ^ 32) (Hlen' : length_of start < 2 ^ 32) :
  Utf8View_starts_with false bytes start = Ret (bool_decide (ds `prefix_of` cs)).
Proof.
  unfold Utf8View_starts_with, Utf8View_calculate_length.
  destruct (Z.eqb_spec (length_of start) 0) as [E|E].
  { rewrite (iterate_empty start ds Hds E). by rewrite bool_decide_true by apply prefix_nil. }
  destruct (Z.eqb_spec (length_of bytes) 0) as [E'|E'].
  { rewrite (iterate_empty bytes cs Hcs E'). rewrite bool_decide_false; [done|].
    intros ->%prefix_nil_inv. by apply E, iterate_nonempty. }
  rewrite Hcs, Hds. run.
  pose proof (iterate_length _ _ _ _ Hcs). pose proof (iterate_length _ _ _ _ Hds).
  unfold length_of in *. rewrite !(wrap_id u32 eq_refl) by (rewrite in_type_u32; lia).
  destruct (Z.ltb_spec (Z.of_nat (length cs)) (Z.of_nat (length ds))) as [Hlt|Hge].
  - rewrite bool_decide_false; [done|]. intros ?%prefix_length. lia.
  - apply (starts_with_loop_spec _ (length bytes) (length start)); try done; lia.
Qed.

Lemma Utf8View_starts_with_correct_witness :
  Utf8View_starts_with false [0x41; 0xc3; 0xa9; 0x42] [0x41; 0xc3; 0xa9] = Ret true.
Proof.
  exact (Utf8View_starts_with_correct [0x41; 0xc3; 0xa9; 0x42] [0x41; 0xc3; 0xa9]
    [0x41; 0xe9; 0x42] [0x41; 0xe9] ltac:(vm_compute; reflexivity) ltac:(vm_compute; reflexivity)
    eq_refl eq_refl).
Defined.
