(* ===== verification/Base64.v ===== *)
(** * AK/Base64.cpp

    Bytes and characters are numbers below 256.  [char] is signed, so a character from 128
    on is a negative index into the decoding table and fails the bounds check of [Array].

    The encoder and the decoder are shown to work chunk by chunk, on three bytes and four
    characters, from which the round trip follows. *)

From S2P Require Import Prelude.

#[local] Open Scope Z_scope.

(** A string literal as its characters. *)
Definition padding_char : Z := 61.

(** 'A'..'Z', 'a'..'z', '0'..'9', '+', '/'. *)
Definition make_alphabet : list Z := seqZ 65 26 ++ seqZ 97 26 ++ seqZ 48 10 ++ [43; 47].

(** [Array::operator[]]. *)
Definition Array_at (l : list Z) (index : Z) : outcome Z :=
  VERIFY (index <? Z.of_nat (length l)) ;; load l index.

(** The loop over the alphabet writes [i] at [alphabet[i]]. *)
Definition make_lookup_table : list Z :=
  fold_left (fun table '(i, c) => <[Z.to_nat c := i]> table)
    (zip (seqZ 0 (Z.of_nat (length make_alphabet))) make_alphabet) (replicate 256 0).

Definition calculate_base64_decoded_length (input : list Z) : Z :=
  wrap u32 (Z.of_nat (length input) * 3) / 4.

Definition calculate_base64_encoded_length (input : list Z) : Z :=
  Z.land (wrap u32 (wrap u32 (4 * Z.of_nat (length input)) / 3 + 3)) (2 ^ 32 - 4).

(** The lambda [get] of [decode_base64]: the value and whether it saw padding. *)
Definition decode_get (input : list Z) (offset : Z) : outcome (Z * bool) :=
  if Z.of_nat (length input) <=? offset then Ret (0, false)
  else
    c ← load input offset;
    if c =? padding_char then Ret (0, true)
    else value ← Array_at make_lookup_table (wrap u32 (wrap i8 c)); Ret (value, false).

Fixpoint decode_loop (fuel : nat) (input : list Z) (i : Z) (output : list Z) : outcome (list Z) :=
  if i <? Z.of_nat (length input) then
    match fuel with
    | O => Stop NoFuel
    | S fuel =>
        '(in0, _) ← decode_get input i;
        '(in1, _) ← decode_get input (wrap u32 (i + 1));
        '(in2, in2_is_padding) ← decode_get input (wrap u32 (i + 2));
        '(in3, in3_is_padding) ← decode_get input (wrap u32 (i + 3));
        let out0 := wrap u8 (Z.lor (Z.shiftl in0 2) (Z.land (Z.shiftr in1 4) 3)) in
        let out1 := wrap u8 (Z.lor (Z.shiftl (Z.land in1 0xf) 4) (Z.land (Z.shiftr in2 2) 0xf)) in
        let out2 := wrap u8 (Z.lor (Z.shiftl (Z.land in2 0x3) 6) in3) in
        let output := output ++ [out0] in
        let output := if (in2_is_padding : bool) then output else output ++ [out1] in
        let output := if (in3_is_padding : bool) then output else output ++ [out2] in
        decode_loop fuel input (wrap u32 (i + 4)) output
    end
  else Ret output.

Definition decode_base64 (input : list Z) : outcome (list Z) := decode_loop (length input) input 0 [].

(** The lambda [get] of [encode_base64]: the byte and whether padding is needed. *)
Definition encode_get (input : list Z) (offset : Z) : outcome (Z * bool) :=
  if Z.of_nat (length input) <=? offset then Ret (0, true)
  else byte ← load input offset; Ret (byte, false).

Fixpoint encode_loop (fuel : nat) (input : list Z) (i : Z) (output : list Z) : outcome (list Z) :=
  if i <? Z.of_nat (length input) then
    match fuel with
    | O => Stop NoFuel
    | S fuel =>
        '(in0, _) ← encode_get input i;
        '(in1, is_16bit) ← encode_get input (wrap u32 (i + 1));
        '(in2, is_8bit) ← encode_get input (wrap u32 (i + 2));
        let index0 := Z.land (Z.shiftr in0 2) 0x3f in
        let index1 := Z.land (Z.lor (Z.shiftl in0 4) (Z.shiftr in1 4)) 0x3f in
        let index2 := Z.land (Z.lor (Z.shiftl in1 2) (Z.shiftr in2 6)) 0x3f in
        let index3 := Z.land in2 0x3f in
        out0 ← Array_at make_alphabet index0;
        out1 ← Array_at make_alphabet index1;
        out2 ← (if (is_16bit : bool) then Ret padding_char else Array_at make_alphabet index2);
        out3 ← (if (is_8bit : bool) then Ret padding_char else Array_at make_alphabet index3);
        encode_loop fuel input (wrap u32 (i + 3)) (output ++ [out0] ++ [out1] ++ [out2] ++ [out3])
    end
  else Ret output.

Definition encode_base64 (input : list Z) : outcome (list Z) := encode_loop (length input) input 0 [].

(** ** Chunks *)

(** The character of an index, and that the table inverts it. *)
Definition char_of (index : Z) : Z := default 0 (make_alphabet !! Z.to_nat index).

Lemma alphabet_char index :
  0 <= index < 64 ->
  Array_at make_alphabet index = Ret (char_of index) /\ char_of index <> padding_char /\
  0 <= char_of index < 128 /\
  Array_at make_lookup_table (wrap u32 (wrap i8 (char_of index))) = Ret index.
Proof.
  intros Hi. check_range 64 index.
Qed.

(** The indices of a chunk, and that they give the bytes back. *)
Lemma index_range x y :
  0 <= x < 256 -> 0 <= y < 256 ->
  (0 <= Z.land (Z.shiftr x 2) 0x3f < 64 /\ 0 <= Z.land x 0x3f < 64) /\
  (0 <= Z.land (Z.lor (Z.shiftl x 4) (Z.shiftr y 4)) 0x3f < 64 /\
   0 <= Z.land (Z.lor (Z.shiftl x 2) (Z.shiftr y 6)) 0x3f < 64).
Proof.
  intros Hx Hy. change 0x3f with (Z.ones 6). rewrite !Z.land_ones by lia.
  split_and!; apply Z.mod_pos_bound; lia.
Qed.

Definition index0 (x : Z) : Z := Z.land (Z.shiftr x 2) 0x3f.
Definition index1 (x y : Z) : Z := Z.land (Z.lor (Z.shiftl x 4) (Z.shiftr y 4)) 0x3f.
Definition index2 (y z : Z) : Z := Z.land (Z.lor (Z.shiftl y 2) (Z.shiftr z 6)) 0x3f.
Definition index3 (z : Z) : Z := Z.land z 0x3f.

Definition byte0 (a b : Z) : Z := wrap u8 (Z.lor (Z.shiftl a 2) (Z.land (Z.shiftr b 4) 3)).
Definition byte1 (b c : Z) : Z := wrap u8 (Z.lor (Z.shiftl (Z.land b 0xf) 4) (Z.land (Z.shiftr c 2) 0xf)).
Definition byte2 (c d : Z) : Z := wrap u8 (Z.lor (Z.shiftl (Z.land c 0x3) 6) d).

Lemma byte0_index x y : 0 <= x < 256 -> 0 <= y < 256 -> byte0 (index0 x) (index1 x y) = x.
Proof.
  intros Hx Hy. apply Z.eqb_eq. apply (forallb_range2 (fun x y => byte0 (index0 x) (index1 x y) =? x) 256 256);
    [vm_compute; reflexivity|done..].
Qed.

Lemma byte1_index x y z :
  0 <= x < 256 -> 0 <= y < 256 -> 0 <= z < 256 -> byte1 (index1 x y) (index2 y z) = y.
Proof.
  intros Hx Hy Hz. unfold byte1.
  assert (Z.land (index1 x y) 0xf = Z.shiftr y 4) as ->.
  { apply Z.eqb_eq.
    apply (forallb_range2 (fun x y => Z.land (index1 x y) 0xf =? Z.shiftr y 4) 256 256);
      [vm_compute; reflexivity|done..]. }
  assert (Z.land (Z.shiftr (index2 y z) 2) 0xf = Z.land y 0xf) as ->.
  { apply Z.eqb_eq.
    apply (forallb_range2 (fun y z => Z.land (Z.shiftr (index2 y z) 2) 0xf =? Z.land y 0xf) 256 256);
      [vm_compute; reflexivity|done..]. }
  check_range 256 y.
Qed.

Lemma byte2_index y z : 0 <= y < 256 -> 0 <= z < 256 -> byte2 (index2 y z) (index3 z) = z.
Proof.
  intros Hy Hz. apply Z.eqb_eq.
  apply (forallb_range2 (fun y z => byte2 (index2 y z) (index3 z) =? z) 256 256);
    [vm_compute; reflexivity|done..].
Qed.

Lemma chunk_ind (P : list Z -> Prop) :
  P [] -> (forall x, P [x]) -> (forall x y, P [x; y]) ->
  (forall x y z l, P l -> P (x :: y :: z :: l)) -> forall l, P l.
Proof.
  intros H0 H1 H2 H3 l. remember (length l) as n eqn:Hn. revert l Hn.
  induction n as [n IH] using lt_wf_ind. intros [|x [|y [|z l]]] Hn; [done..|].
  apply H3. apply (IH (length l)); [|done]. cbn in Hn. lia.
Qed.

(** The characters of the chunks of a byte string. *)
Fixpoint encoded (l : list Z) : list Z :=
  match l with
  | [] => []
  | [x] => [char_of (index0 x); char_of (index1 x 0); padding_char; padding_char]
  | [x; y] => [char_of (index0 x); char_of (index1 x y); char_of (index2 y 0); padding_char]
  | x :: y :: z :: l =>
      char_of (index0 x) :: char_of (index1 x y) :: char_of (index2 y z) :: char_of (index3 z) :: encoded l
  end.

Definition is_bytes (l : list Z) : Prop := Forall (fun x => 0 <= x < 256) l.

Lemma load_behind (pre : list Z) x post k :
  k = Z.of_nat (length pre) -> load (pre ++ x :: post) k = Ret x.
Proof.
  intros ->. unfold load. rewrite (proj2 (Z.leb_le 0 _)) by lia. rewrite Nat2Z.id.
  by rewrite list_lookup_middle.
Qed.

Lemma encode_get_inside pre x post k :
  k = Z.of_nat (length pre) -> encode_get (pre ++ x :: post) k = Ret (x, false).
Proof.
  intros Hk. unfold encode_get. rewrite length_app. cbn [length].
  rewrite (proj2 (Z.leb_gt _ k)) by lia. by rewrite load_behind.
Qed.

Lemma encode_get_outside input k : Z.of_nat (length input) <= k -> encode_get input k = Ret (0, true).
Proof. intros Hk. unfold encode_get. by rewrite (proj2 (Z.leb_le _ k)). Qed.

Lemma alphabet_at index : 0 <= index < 64 -> Array_at make_alphabet index = Ret (char_of index).
Proof. intros H. by destruct (alphabet_char index H). Qed.

Lemma indices_ok x y :
  0 <= x < 256 -> 0 <= y < 256 ->
  0 <= index0 x < 64 /\ 0 <= index1 x y < 64 /\ 0 <= index2 x y < 64 /\ 0 <= index3 x < 64.
Proof.
  intros Hx Hy. destruct (index_range x y Hx Hy). unfold index0, index1, index2, index3. tauto.
Qed.

Lemma encode_step fuel input i output x y z p q :
  0 <= i < Z.of_nat (length input) -> Z.of_nat (length input) + 4 < 2 ^ 32 ->
  encode_get input i = Ret (x, false) -> encode_get input (i + 1) = Ret (y, p) ->
  encode_get input (i + 2) = Ret (z, q) -> 0 <= x < 256 -> 0 <= y < 256 -> 0 <= z < 256 ->
  encode_loop (S fuel) input i output =
  encode_loop fuel input (i + 3)
    (output ++ [char_of (index0 x); char_of (index1 x y);
                if p then padding_char else char_of (index2 y z);
                if q then padding_char else char_of (index3 z)]).
Proof.
  intros Hi Hlen H0 H1 H2 Hx Hy Hz. cbn [encode_loop]. rewrite (proj2 (Z.ltb_lt i _)) by lia.
  rewrite !(wrap_id u32 eq_refl) by (rewrite in_type_u32; lia). rewrite H0, H1, H2. run.
  destruct (indices_ok x y Hx Hy) as (I0 & I1 & _ & _). destruct (indices_ok y z Hy Hz) as (_ & _ & I2 & _).
  destruct (indices_ok z z Hz Hz) as (_ & _ & _ & I3).
  fold (index0 x) (index1 x y) (index2 y z) (index3 z).
  rewrite (alphabet_at (index0 x)), (alphabet_at (index1 x y)) by done. run.
  destruct p, q; rewrite ?(alphabet_at (index2 y z)), ?(alphabet_at (index3 z)) by done; done.
Qed.

Lemma encode_done fuel input i output :
  Z.of_nat (length input) <= i -> encode_loop fuel input i output = Ret output.
Proof. intros Hi. destruct fuel; cbn [encode_loop]; by rewrite (proj2 (Z.ltb_ge i _)). Qed.

Ltac length_lia := repeat rewrite ?length_app in *; cbn [length] in *; lia.

(** The list behind [pre] moved into [pre]. *)
Ltac shift_pre := rewrite <- ?app_assoc; reflexivity.

Lemma encode_loop_spec l pre fuel output :
  is_bytes l -> Z.of_nat (length (pre ++ l)) + 4 < 2 ^ 32 -> (length l <= fuel)%nat ->
  encode_loop fuel (pre ++ l) (Z.of_nat (length pre)) output = Ret (output ++ encoded l).
Proof.
  revert pre fuel output. induction l as [|x|x y|x y z l IH] using chunk_ind;
    intros pre fuel output Hl Hlen Hfuel; unfold is_bytes in *; rewrite ?Forall_cons_iff in Hl.
  - rewrite encode_done by length_lia. by rewrite app_nil_r.
  - destruct fuel as [|fuel]; [length_lia|]. destruct Hl as [Hx _].
    rewrite (encode_step fuel _ _ output x 0 0 true true);
      rewrite ?encode_get_outside by length_lia; try apply encode_get_inside; try length_lia; try done.
    apply encode_done. length_lia.
  - destruct fuel as [|fuel]; [length_lia|]. destruct Hl as (Hx & Hy & _).
    rewrite (encode_step fuel _ _ output x y 0 false true);
      rewrite ?encode_get_outside by length_lia; try apply encode_get_inside; try length_lia; try done.
    + apply encode_done. length_lia.
    + change (pre ++ [x; y]) with (pre ++ [x] ++ [y]). rewrite app_assoc.
      apply encode_get_inside. length_lia.
  - destruct fuel as [|fuel]; [length_lia|]. destruct Hl as (Hx & Hy & Hz & Hl).
    rewrite (encode_step fuel _ _ output x y z false false); try apply encode_get_inside; try length_lia; try done.
    + replace (pre ++ x :: y :: z :: l) with ((pre ++ [x; y; z]) ++ l) by shift_pre.
      replace (Z.of_nat (length pre) + 3) with (Z.of_nat (length (pre ++ [x; y; z]))) by length_lia.
      rewrite IH by (done || length_lia). by rewrite <- app_assoc.
    + replace (pre ++ x :: y :: z :: l) with ((pre ++ [x]) ++ y :: z :: l) by shift_pre.
      apply encode_get_inside. length_lia.
    + replace (pre ++ x :: y :: z :: l) with ((pre ++ [x; y]) ++ z :: l) by shift_pre.
      apply encode_get_inside. length_lia.
Qed.

Lemma decode_get_char pre index post k :
  k = Z.of_nat (length pre) -> 0 <= index < 64 ->
  decode_get (pre ++ char_of index :: post) k = Ret (index, false).
Proof.
  intros Hk Hi. destruct (alphabet_char index Hi) as (_ & Hne & _ & Htable). unfold decode_get.
  rewrite (proj2 (Z.leb_gt _ k)) by length_lia. rewrite load_behind by done. run.
  rewrite (proj2 (Z.eqb_neq _ _) Hne), Htable. done.
Qed.

Lemma decode_get_padding pre post k :
  k = Z.of_nat (length pre) -> decode_get (pre ++ padding_char :: post) k = Ret (0, true).
Proof.
  intros Hk. unfold decode_get. rewrite (proj2 (Z.leb_gt _ k)) by length_lia. by rewrite load_behind.
Qed.

Lemma decode_step fuel input i output a b c d p q r s :
  0 <= i < Z.of_nat (length input) -> Z.of_nat (length input) + 4 < 2 ^ 32 ->
  decode_get input i = Ret (a, r) -> decode_get input (i + 1) = Ret (b, s) ->
  decode_get input (i + 2) = Ret (c, p) -> decode_get input (i + 3) = Ret (d, q) ->
  decode_loop (S fuel) input i output =
  decode_loop fuel input (i + 4)
    (output ++ byte0 a b :: (if p then [] else [byte1 b c]) ++ (if q then [] else [byte2 c d])).
Proof.
  intros Hi Hlen H0 H1 H2 H3. cbn [decode_loop]. rewrite (proj2 (Z.ltb_lt i _)) by lia.
  rewrite !(wrap_id u32 eq_refl) by (rewrite in_type_u32; lia). rewrite H0, H1, H2, H3. run.
  fold (byte0 a b) (byte1 b c) (byte2 c d). destruct p, q; cbn [app]; by rewrite <- ?app_assoc.
Qed.

Lemma decode_done fuel input i output :
  Z.of_nat (length input) <= i -> decode_loop fuel input i output = Ret output.
Proof. intros Hi. destruct fuel; cbn [decode_loop]; by rewrite (proj2 (Z.ltb_ge i _)). Qed.

(** Fetch the [k]-th character of a chunk behind [pre]. *)
Ltac fetch pre xs :=
  match goal with
  | |- decode_get ?input _ = _ =>
      match input with
      | pre ++ ?l =>
          let rest := eval cbn [drop length] in (drop (length xs) l) in
          replace (pre ++ l) with ((pre ++ xs) ++ rest) by shift_pre;
          first [apply decode_get_char | apply decode_get_padding]; [length_lia|try done..]
      end
  end.

Lemma decode_loop_spec l pre fuel output :
  is_bytes l -> Z.of_nat (length (pre ++ encoded l)) + 4 < 2 ^ 32 -> (length l <= fuel)%nat ->
  decode_loop fuel (pre ++ encoded l) (Z.of_nat (length pre)) output = Ret (output ++ l).
Proof.
  revert pre fuel output. induction l as [|x|x y|x y z l IH] using chunk_ind;
    intros pre fuel output Hl Hlen Hfuel; unfold is_bytes in *; rewrite ?Forall_cons_iff in Hl;
    cbn [encoded] in *.
  - rewrite decode_done by length_lia. by rewrite app_nil_r.
  - destruct fuel as [|fuel]; [length_lia|]. destruct Hl as [Hx _].
    destruct (indices_ok x 0 Hx) as (I0 & I1 & _ & _); [lia|].
    rewrite (decode_step fuel _ _ output (index0 x) (index1 x 0) 0 0 true true false false);
      try length_lia.
    + rewrite decode_done by length_lia. by rewrite byte0_index by lia.
    + by apply decode_get_char.
    + fetch pre [char_of (index0 x)].
    + fetch pre [char_of (index0 x); char_of (index1 x 0)].
    + fetch pre [char_of (index0 x); char_of (index1 x 0); padding_char].
  - destruct fuel as [|fuel]; [length_lia|]. destruct Hl as (Hx & Hy & _).
    destruct (indices_ok x y Hx Hy) as (I0 & I1 & _ & _).
    destruct (indices_ok y 0 Hy) as (_ & _ & I2 & _); [lia|].
    rewrite (decode_step fuel _ _ output (index0 x) (index1 x y) (index2 y 0) 0 false true false false);
      try length_lia.
    + rewrite decode_done by length_lia. rewrite byte0_index, byte1_index by lia. done.
    + by apply decode_get_char.
    + fetch pre [char_of (index0 x)].
    + fetch pre [char_of (index0 x); char_of (index1 x y)].
    + fetch pre [char_of (index0 x); char_of (index1 x y); char_of (index2 y 0)].
  - destruct fuel as [|fuel]; [length_lia|]. destruct Hl as (Hx & Hy & Hz & Hl).
    destruct (indices_ok x y Hx Hy) as (I0 & I1 & _ & _).
    destruct (indices_ok y z Hy Hz) as (_ & _ & I2 & _).
    destruct (indices_ok z z Hz Hz) as (_ & _ & _ & I3).
    rewrite (decode_step fuel _ _ output (index0 x) (index1 x y) (index2 y z) (index3 z)
      false false false false); try length_lia.
    + rewrite byte0_index, byte1_index, byte2_index by lia. cbn [app].
      set (four := [char_of (index0 x); char_of (index1 x y); char_of (index2 y z); char_of (index3 z)]).
      change (char_of (index0 x) :: char_of (index1 x y) :: char_of (index2 y z) :: char_of (index3 z)
        :: encoded l) with (four ++ encoded l) in *.
      rewrite app_assoc in *.
      replace (Z.of_nat (length pre) + 4) with (Z.of_nat (length (pre ++ four)))
        by (subst four; length_lia).
      rewrite IH by (done || length_lia). by rewrite <- app_assoc.
    + by apply decode_get_char.
    + fetch pre [char_of (index0 x)].
    + fetch pre [char_of (index0 x); char_of (index1 x y)].
    + fetch pre [char_of (index0 x); char_of (index1 x y); char_of (index2 y z)].
Qed.

Lemma encoded_length l : Z.of_nat (length (encoded l)) = 4 * ((Z.of_nat (length l) + 2) / 3).
Proof.
  induction l as [|x|x y|x y z l IH] using chunk_ind; try reflexivity.
  cbn [encoded length]. rewrite !Nat2Z.inj_succ, IH.
  Z.to_euclidean_division_equations; lia.
Qed.

(** Rounding down to a multiple of four. *)
Lemma land_not_3 n : 0 <= n < 2 ^ 32 -> Z.land n (2 ^ 32 - 4) = 4 * (n / 4).
Proof.
  intros Hn. change (2 ^ 32 - 4) with (Z.ldiff (Z.ones 32) (Z.ones 2)).
  transitivity (Z.ldiff (Z.land n (Z.ones 32)) (Z.ones 2)).
  - apply Z.bits_inj'. intros k Hk. rewrite !Z.land_spec, !Z.ldiff_spec, Z.land_spec. apply andb_assoc.
  - rewrite Z.land_ones, Z.mod_small by lia.
    rewrite Z.ldiff_ones_r, Z.shiftr_div_pow2, Z.shiftl_mul_pow2 by lia. change (2 ^ 2) with 4. lia.
Qed.

(** ** Properties *)

(** Base64 round trip: [encode_base64] returns for every byte string, its result has
    the length [calculate_base64_encoded_length] announces, and [decode_base64] gives the
    bytes back. *)
Theorem base64_roundtrip (input : list Z) (Hbytes : is_bytes input)
    (Hlen : 4 * Z.of_nat (length input) + 16 < 2 ^ 32) :
  exists output, encode_base64 input = Ret output /\
    Z.of_nat (length output) = calculate_base64_encoded_length input /\
    decode_base64 output = Ret input.
Proof.
  exists (encoded input). pose proof (encoded_length input) as Hout. split_and!.
  - apply (encode_loop_spec input [] (length input) []); [done|cbn; lia|lia].
  - rewrite Hout. unfold calculate_base64_encoded_length.
    rewrite (wrap_id u32 eq_refl (4 * _)) by (rewrite in_type_u32; lia).
    rewrite (wrap_id u32 eq_refl) by (rewrite in_type_u32; Z.to_euclidean_division_equations; lia).
    rewrite land_not_3 by (Z.to_euclidean_division_equations; lia).
    Z.to_euclidean_division_equations; lia.
  - unfold decode_base64. apply (decode_loop_spec input [] _ []); [done| |]; cbn [app].
    all: Z.to_euclidean_division_equations; lia.
Qed.

Lemma base64_roundtrip_witness :
  is_bytes [102; 111; 111; 98] /\ decode_base64 [90; 109; 57; 118; 89; 103; 61; 61] = Ret [102; 111; 111; 98].
Proof.
  assert (is_bytes [102; 111; 111; 98]) as Hb.
  { repeat (apply Forall_cons_2; [lia|]); apply Forall_nil_2. }
  split; [exact Hb|].
  destruct (base64_roundtrip [102; 111; 111; 98] Hb eq_refl) as (output & E & _ & Hd).
  vm_compute in E. injection E as <-. exact Hd.
Defined.

(** A character from 128 on stops the decoder: it indexes the table with a negative
    number converted to [size_t]. *)
Theorem decode_base64_non_ascii (c : Z) (post : list Z) (Hc : 128 <= c < 256) :
  decode_base64 (c :: post) = Stop VerifyFailed.
Proof.
  assert (decode_get (c :: post) 0 = Stop VerifyFailed) as Hget.
  { unfold decode_get. rewrite (proj2 (Z.leb_gt _ 0)) by (cbn [length]; lia).
    change (load (c :: post) 0) with (@Ret Z c). run.
    rewrite (proj2 (Z.eqb_neq c padding_char)) by (unfold padding_char; lia).
    unfold Array_at. change (length make_lookup_table) with 256%nat.
    replace (wrap u32 (wrap i8 c)) with (c - 256 + 2 ^ 32).
    - rewrite (proj2 (Z.ltb_ge _ _)) by lia. done.
    - unfold wrap, i8, u32. cbn [is_signed width]. change (2 ^ (8 - 1)) with 128.
      change (2 ^ 8) with 256. change (2 ^ 32) with 4294967296.
      Z.to_euclidean_division_equations; lia. }
  unfold decode_base64. cbn [length decode_loop].
  rewrite (proj2 (Z.ltb_lt 0 _)) by (cbn [length]; lia). by rewrite Hget.
Qed.

Lemma decode_base64_non_ascii_witness : decode_base64 [200; 65; 65; 65] = Stop VerifyFailed.
Proof. apply (decode_base64_non_ascii 200 [65; 65; 65]). lia. Defined.
