(* ===== verification/LEB128.v ===== *)
(** * AK/LEB128.h over the memory stream of AK/MemoryStream.h

    A stream is its bytes, the read offset and the two error flags of AK/Stream.h.  A
    shift by at least the width of the shifted type is [Undefined].  The reader is shown to
    invert the LEB128 encoding, and to report a truncated number by going back to where it
    started; two defects are stated at the end. *)

From S2P Require Import Prelude.

#[local] Open Scope Z_scope.

(** ** Streams *)

Record InputMemoryStream : Type := MkStream {
  m_bytes : list Z;
  m_offset : Z;
  m_recoverable_error : bool;
  m_fatal_error : bool
}.

Definition stream_size (s : InputMemoryStream) : Z := Z.of_nat (length (m_bytes s)).

Definition Stream_has_any_error (s : InputMemoryStream) : bool :=
  m_recoverable_error s || m_fatal_error s.
Definition Stream_set_recoverable_error (s : InputMemoryStream) : InputMemoryStream :=
  MkStream (m_bytes s) (m_offset s) true (m_fatal_error s).
Definition Stream_set_fatal_error (s : InputMemoryStream) : InputMemoryStream :=
  MkStream (m_bytes s) (m_offset s) (m_recoverable_error s) true.

(** [handle_any_error]: whether there was one, and the stream without it. *)
Definition Stream_handle_any_error (s : InputMemoryStream) : bool * InputMemoryStream :=
  if Stream_has_any_error s then (true, MkStream (m_bytes s) (m_offset s) false false) else (false, s).

Definition Stream_eof (s : InputMemoryStream) : bool := stream_size s <=? m_offset s.
Definition Stream_remaining (s : InputMemoryStream) : Z := wrap u32 (stream_size s - m_offset s).

Definition at_offset (s : InputMemoryStream) (offset : Z) : InputMemoryStream :=
  MkStream (m_bytes s) offset (m_recoverable_error s) (m_fatal_error s).

Definition Stream_seek (s : InputMemoryStream) (offset : Z) : outcome InputMemoryStream :=
  VERIFY (offset <? stream_size s) ;; Ret (at_offset s offset).

Definition Stream_discard_or_error (s : InputMemoryStream) (count : Z) : bool * InputMemoryStream :=
  if Stream_remaining s <? count then (false, Stream_set_recoverable_error s)
  else (true, at_offset s (wrap u32 (m_offset s + count))).

(** [peek_or_error]: the byte and the stream, whose error flag may be set. *)
Definition Stream_peek_or_error (s : InputMemoryStream) : outcome (Z * InputMemoryStream) :=
  if Stream_remaining s =? 0 then Ret (0, Stream_set_recoverable_error s)
  else b ← load (m_bytes s) (m_offset s); Ret (b, s).

(** [operator>>] on a [u8], through [read_or_error]: the byte, [byte] if nothing was read. *)
Definition Stream_read_u8 (s : InputMemoryStream) (byte : Z) : outcome (Z * InputMemoryStream) :=
  if Stream_remaining s <? 1 then Ret (byte, Stream_set_recoverable_error s)
  else b ← load (m_bytes s) (m_offset s); Ret (b, at_offset s (wrap u32 (m_offset s + 1))).

(** ** LEB128 *)

(** [x << n] for an unsigned type. *)
Definition shift_left (t : int_type) (x n : Z) : outcome Z :=
  if n <? width t then Ret (wrap t (Z.shiftl x n)) else Stop Undefined.

(** The loop of [read_unsigned]: whether it succeeded, [result] and the stream. *)
Fixpoint read_unsigned_loop (fuel : nat) (t : int_type) (s : InputMemoryStream)
    (backup_offset result num_bytes : Z) : outcome (bool * Z * InputMemoryStream) :=
  match fuel with
  | O => Stop NoFuel
  | S fuel =>
      if Stream_eof s then
        s ← Stream_seek s backup_offset; Ret (false, result, Stream_set_fatal_error s)
      else
        '(byte, s) ← Stream_read_u8 s 0;
        if Stream_has_any_error s then Ret (false, result, s)
        else
          group ← shift_left t (Z.land byte 0x7f) (wrap u32 (num_bytes * 7));
          let result := Z.lor result group in
          if Z.land byte 0x80 =? 0 then Ret (true, result, s)
          else read_unsigned_loop fuel t s backup_offset result (wrap u32 (num_bytes + 1))
  end.

Definition LEB128_read_unsigned (t : int_type) (s : InputMemoryStream)
    : outcome (bool * Z * InputMemoryStream) :=
  read_unsigned_loop (S (length (m_bytes s))) t s (m_offset s) 0 0.

(** The loop of [read_signed] for a type of the width of [t], which is unsigned: also the
    last byte and [num_bytes]. *)
Fixpoint read_signed_loop (fuel : nat) (t : int_type) (s : InputMemoryStream)
    (backup_offset result num_bytes byte : Z) : outcome (bool * Z * InputMemoryStream * Z * Z) :=
  match fuel with
  | O => Stop NoFuel
  | S fuel =>
      if Stream_eof s then
        s ← Stream_seek s backup_offset;
        Ret (false, result, Stream_set_fatal_error s, num_bytes, byte)
      else
        '(byte, s) ← Stream_read_u8 s byte;
        if Stream_has_any_error s then Ret (false, result, s, num_bytes, byte)
        else
          group ← shift_left t (Z.land byte 0x7f) (wrap u32 (num_bytes * 7));
          let result := wrap (IntType (width t) true) (Z.lor (wrap t result) group) in
          let num_bytes := wrap u32 (num_bytes + 1) in
          if Z.land byte 0x80 =? 0 then Ret (true, result, s, num_bytes, byte)
          else read_signed_loop fuel t s backup_offset result num_bytes byte
  end.

Definition LEB128_read_signed (t : int_type) (s : InputMemoryStream)
    : outcome (bool * Z * InputMemoryStream) :=
  '(ok, result, s, num_bytes, byte) ←
    read_signed_loop (S (length (m_bytes s))) t s (m_offset s) 0 0 0;
  if negb (ok : bool) then Ret (false, result, s)
  else if (wrap u32 (num_bytes * 7) <? width t / 8 * 4) && negb (Z.land byte 0x40 =? 0) then
    extension ← shift_left t (2 ^ width t - 1) (wrap u32 (num_bytes * 7));
    Ret (true, wrap (IntType (width t) true) (Z.lor (wrap t result) extension), s)
  else Ret (true, result, s).

Definition InputMemoryStream_read_LEB128_unsigned (s : InputMemoryStream)
    : outcome (bool * Z * InputMemoryStream) := LEB128_read_unsigned u32 s.
Definition InputMemoryStream_read_LEB128_signed (s : InputMemoryStream)
    : outcome (bool * Z * InputMemoryStream) := LEB128_read_signed u32 s.

(** ** The encoding *)

(** Unsigned LEB128: groups of seven bits, the lowest first, each but the last with the
    high bit set.  [fuel] bounds the number of groups. *)
Fixpoint uleb128 (fuel : nat) (v : Z) : list Z :=
  match fuel with
  | O => []
  | S fuel => if v <? 128 then [v] else (128 + v mod 128) :: uleb128 fuel (v / 128)
  end.

Lemma byte_groups b :
  0 <= b < 128 ->
  Z.land b 0x7f = b /\ Z.land b 0x80 = 0 /\ Z.land (128 + b) 0x7f = b /\ Z.land (128 + b) 0x80 = 128.
Proof. intros Hb. check_range 128 b. Qed.

(** Putting seven more bits on top. *)
Lemma lor_group w acc g n :
  0 < w -> 0 <= n < w -> 0 <= acc < 2 ^ n -> 0 <= g ->
  Z.lor acc (wrap (IntType w false) (Z.shiftl g n)) = (acc + g * 2 ^ n) mod 2 ^ w.
Proof.
  intros Hw Hn Hacc Hg. unfold wrap. cbn [is_signed width]. rewrite Z.shiftl_mul_pow2 by lia.
  assert (0 < 2 ^ n) by (apply Z.pow_pos_nonneg; lia).
  assert ((acc + g * 2 ^ n) mod 2 ^ w = acc + (g * 2 ^ n) mod 2 ^ w) as ->.
  { replace (2 ^ w) with (2 ^ (w - n) * 2 ^ n) by (rewrite <- Z.pow_add_r by lia; f_equal; lia).
    assert (0 < 2 ^ (w - n)) by (apply Z.pow_pos_nonneg; lia).
    rewrite Zmult_mod_distr_r. symmetry. apply (Z.mod_unique_pos _ _ (g / 2 ^ (w - n))).
    - pose proof (Z.mod_pos_bound g (2 ^ (w - n))). nia.
    - pose proof (Z.div_mod g (2 ^ (w - n))). nia. }
  rewrite <- Z.add_lor_land. assert (Z.land acc ((g * 2 ^ n) mod 2 ^ w) = 0) as ->; [|lia].
  apply Z.bits_inj'. intros k Hk. rewrite Z.land_spec, Z.bits_0.
  destruct (Z.lt_ge_cases k n).
  - rewrite Z.mod_pow2_bits_low, Z.mul_pow2_bits_low, andb_false_r by lia. done.
  - rewrite <- (Z.mod_small acc (2 ^ n)) by lia. by rewrite Z.mod_pow2_bits_high by lia.
Qed.

Definition good_stream (bytes : list Z) (offset : Z) : InputMemoryStream := MkStream bytes offset false false.

(** Reading one byte in the middle of a stream. *)
Lemma read_u8_spec pre b post x :
  Z.of_nat (length (pre ++ b :: post)) < 2 ^ 32 ->
  let s := good_stream (pre ++ b :: post) (Z.of_nat (length pre)) in
  Stream_eof s = false /\
  Stream_read_u8 s x = Ret (b, good_stream (pre ++ b :: post) (Z.of_nat (length (pre ++ [b])))).
Proof.
  intros Hlen s. rewrite length_app in Hlen. cbn [length] in Hlen.
  unfold s, Stream_eof, Stream_read_u8, Stream_remaining, stream_size, at_offset, good_stream.
  cbn [m_bytes m_offset m_recoverable_error m_fatal_error]. rewrite !length_app. cbn [length].
  split; [lia|]. rewrite !(wrap_id u32 eq_refl) by (rewrite in_type_u32; lia).
  rewrite (proj2 (Z.ltb_ge _ 1)) by lia. unfold load. rewrite (proj2 (Z.leb_le 0 _)) by lia.
  rewrite Nat2Z.id, list_lookup_middle by done. run. do 3 f_equal. lia.
Qed.

(** One group of the value [v]: its low seven bits [r] are added at the place [P]. *)
Lemma group_arith v q r acc P W :
  v = 128 * q + r -> 0 <= r < 128 -> 0 <= q -> 0 <= acc < P -> acc + v * P < W ->
  0 <= acc + r * P < 128 * P /\ acc + r * P < W /\ acc + r * P + q * (128 * P) = acc + v * P.
Proof. intros -> Hr Hq Hacc Hfit. split_and!; nia. Qed.

Lemma read_unsigned_loop_spec w k fuel pre v post backup acc n :
  0 < w < 2 ^ 20 -> 0 <= n -> 7 * n < w -> 0 <= acc < 2 ^ (7 * n) ->
  0 <= v < 2 ^ (7 * Z.of_nat k) -> acc + v * 2 ^ (7 * n) < 2 ^ w -> (length (uleb128 k v) <= fuel)%nat ->
  Z.of_nat (length (pre ++ uleb128 k v ++ post)) < 2 ^ 32 -> (0 < k)%nat ->
  read_unsigned_loop fuel (IntType w false)
    (good_stream (pre ++ uleb128 k v ++ post) (Z.of_nat (length pre))) backup acc n =
  Ret (true, acc + v * 2 ^ (7 * n),
       good_stream (pre ++ uleb128 k v ++ post) (Z.of_nat (length (pre ++ uleb128 k v)))).
Proof.
  intros Hw. revert fuel pre v acc n.
  induction k as [|k IH]; intros fuel pre v acc n Hn Hnw Hacc Hv Hfit Hfuel Hlen Hk; [lia|].
  assert (0 < 2 ^ (7 * n)) by (apply Z.pow_pos_nonneg; lia).
  cbn [uleb128] in *. destruct (Z.ltb_spec v 128) as [Hsmall|Hbig]; cbn [length] in Hfuel;
    (destruct fuel as [|fuel]; [lia|]).
  - destruct (read_u8_spec pre v post 0 Hlen) as [Heof Hread]. cbn zeta in Heof, Hread.
    change (pre ++ [v] ++ post) with (pre ++ v :: post) in *. cbn [read_unsigned_loop].
    rewrite Heof, Hread. run. cbn [Stream_has_any_error good_stream m_recoverable_error m_fatal_error orb].
    destruct (byte_groups v) as (-> & -> & _); [lia|].
    rewrite !(wrap_id u32 eq_refl) by (rewrite in_type_u32; lia).
    unfold shift_left. cbn [width]. rewrite (proj2 (Z.ltb_lt _ w)) by lia. run.
    rewrite Z.eqb_refl, (Z.mul_comm n 7), lor_group by lia. rewrite Z.mod_small; [done|].
    split; [apply Z.add_nonneg_nonneg; [lia|apply Z.mul_nonneg_nonneg; lia]|lia].
  - change (pre ++ (128 + v mod 128 :: uleb128 k (v / 128)) ++ post)
      with (pre ++ (128 + v mod 128) :: (uleb128 k (v / 128) ++ post)) in *.
    destruct (read_u8_spec pre (128 + v mod 128) (uleb128 k (v / 128) ++ post) 0 Hlen) as [Heof Hread].
    cbn zeta in Heof, Hread. cbn [read_unsigned_loop]. rewrite Heof, Hread. run.
    cbn [Stream_has_any_error good_stream m_recoverable_error m_fatal_error orb].
    pose proof (Z.mod_pos_bound v 128 ltac:(lia)) as Hm. pose proof (Z.div_mod v 128 ltac:(lia)) as Hdm.
    destruct (byte_groups (v mod 128) Hm) as (_ & _ & -> & ->).
    assert (2 ^ (7 * (n + 1)) = 128 * 2 ^ (7 * n)) as Hp.
    { rewrite Z.mul_add_distr_l, Z.pow_add_r by lia. change (2 ^ (7 * 1)) with 128. lia. }
    destruct (group_arith v (v / 128) (v mod 128) acc (2 ^ (7 * n)) (2 ^ w)) as (G1 & G2 & G3);
      [lia|lia|apply Z.div_pos; lia|lia|lia|].
    assert (1 <= v / 128) as Hq by (apply Z.div_le_lower_bound; lia).
    assert (7 * (n + 1) < w) as Hnw'.
    { apply (Z.pow_lt_mono_r_iff 2); [lia|lia|]. rewrite Hp.
      apply (Z.le_lt_trans _ (v / 128 * (128 * 2 ^ (7 * n)))); [|lia].
      rewrite <- (Z.mul_1_l (128 * 2 ^ (7 * n))) at 1. apply Z.mul_le_mono_nonneg_r; lia. }
    assert (7 * Z.of_nat (S k) = 7 + 7 * Z.of_nat k) as Ek by lia.
    rewrite Ek, Z.pow_add_r in Hv by lia. change (2 ^ 7) with 128 in Hv.
    destruct k as [|k]; [cbn in Hv; lia|].
    rewrite !(wrap_id u32 eq_refl) by (rewrite in_type_u32; lia).
    unfold shift_left. cbn [width]. rewrite (proj2 (Z.ltb_lt _ w)) by lia. run.
    change (128 =? 0) with false. cbn iota.
    rewrite (Z.mul_comm n 7), lor_group, (Z.mod_small (acc + _)) by lia.
    specialize (IH fuel (pre ++ [128 + v mod 128]) (v / 128) (acc + v mod 128 * 2 ^ (7 * n)) (n + 1)).
    rewrite <- !app_assoc, Hp, G3 in IH. cbn [app] in IH. by rewrite IH by lia.
Qed.

(** A run of continuation bytes up to the end of the stream. *)
Definition continuation (b : Z) : Prop := 128 <= b < 256.

Lemma continuation_bit b : continuation b -> Z.land b 0x80 = 128.
Proof.
  intros Hb. replace b with (128 + (b - 128)) by lia.
  apply (byte_groups (b - 128)). unfold continuation in Hb. lia.
Qed.

Lemma read_unsigned_loop_truncated w fuel pre rest backup acc n :
  0 < w < 2 ^ 20 -> 0 <= n -> 7 * (n + Z.of_nat (length rest) - 1) < w ->
  Forall continuation rest -> (length rest < fuel)%nat ->
  Z.of_nat (length (pre ++ rest)) < 2 ^ 32 -> 0 <= backup < Z.of_nat (length (pre ++ rest)) ->
  exists result,
  read_unsigned_loop fuel (IntType w false)
    (good_stream (pre ++ rest) (Z.of_nat (length pre))) backup acc n =
  Ret (false, result, MkStream (pre ++ rest) backup false true).
Proof.
  intros Hw. revert fuel pre acc n.
  induction rest as [|b rest IH]; intros fuel pre acc n Hn Hnw Hall Hfuel Hlen Hbackup.
  - destruct fuel as [|fuel]; [cbn in Hfuel; lia|]. exists acc. rewrite app_nil_r in *.
    cbn [read_unsigned_loop]. unfold Stream_eof, Stream_seek, stream_size, good_stream.
    cbn [m_bytes m_offset]. rewrite Z.leb_refl, VERIFY_true by lia. run. done.
  - destruct fuel as [|fuel]; [cbn in Hfuel; lia|]. apply Forall_cons in Hall as [Hb Hall].
    destruct (read_u8_spec pre b rest 0 Hlen) as [Heof Hread]. cbn zeta in Heof, Hread.
    cbn [read_unsigned_loop]. rewrite Heof, Hread. run.
    cbn [Stream_has_any_error good_stream m_recoverable_error m_fatal_error orb].
    rewrite (continuation_bit b Hb). cbn [length] in Hnw, Hfuel.
    rewrite !(wrap_id u32 eq_refl) by (rewrite in_type_u32; lia).
    unfold shift_left. cbn [width]. rewrite (proj2 (Z.ltb_lt _ w)) by lia. run.
    change (128 =? 0) with false. cbn iota.
    replace (pre ++ b :: rest) with ((pre ++ [b]) ++ rest) in * by (rewrite <- app_assoc; done).
    apply IH; try lia. done.
Qed.

(** C39. [LEB128::read_unsigned] inverts the LEB128 encoding at every width: on a stream
    without errors that stands before the encoding of a value that fits the result type, it
    returns that value and leaves the stream just behind the encoding, without errors. *)
Theorem LEB128_read_unsigned_roundtrip w k pre v post :
  0 < w < 2 ^ 20 -> (0 < k)%nat -> 0 <= v < 2 ^ w -> v < 2 ^ (7 * Z.of_nat k) ->
  Z.of_nat (length (pre ++ uleb128 k v ++ post)) < 2 ^ 32 ->
  LEB128_read_unsigned (IntType w false) (good_stream (pre ++ uleb128 k v ++ post) (Z.of_nat (length pre))) =
  Ret (true, v, good_stream (pre ++ uleb128 k v ++ post) (Z.of_nat (length (pre ++ uleb128 k v)))).
Proof.
  intros Hw Hk Hv Hvk Hlen. unfold LEB128_read_unsigned.
  cbn [good_stream m_bytes m_offset]. change (MkStream ?a ?b false false) with (good_stream a b).
  rewrite read_unsigned_loop_spec; rewrite ?Z.mul_0_r; try lia.
  - by rewrite Z.mul_1_r.
  - rewrite !length_app. lia.
Qed.

Lemma LEB128_read_unsigned_roundtrip_witness :
  LEB128_read_unsigned u32 (good_stream [7; 0xe5; 0x8e; 0x26; 9] 1) =
  Ret (true, 624485, good_stream [7; 0xe5; 0x8e; 0x26; 9] 4).
Proof.
  apply (LEB128_read_unsigned_roundtrip 32 5 [7] 624485 [9]); try lia. vm_compute. reflexivity.
Defined.

(** A truncated number is an error that consumes nothing: when only continuation bytes
    are left, [read_unsigned] returns false with the stream's fatal error set and its
    offset back where it was; no VERIFY fails. *)
Theorem LEB128_read_unsigned_truncated w pre rest :
  0 < w < 2 ^ 20 -> rest <> [] -> Forall continuation rest ->
  7 * (Z.of_nat (length rest) - 1) < w -> Z.of_nat (length (pre ++ rest)) < 2 ^ 32 ->
  exists result,
  LEB128_read_unsigned (IntType w false) (good_stream (pre ++ rest) (Z.of_nat (length pre))) =
  Ret (false, result, MkStream (pre ++ rest) (Z.of_nat (length pre)) false true).
Proof.
  intros Hw Hne Hall Hbits Hlen. unfold LEB128_read_unsigned.
  cbn [good_stream m_bytes m_offset]. change (MkStream ?a ?b false false) with (good_stream a b).
  apply read_unsigned_loop_truncated; try done; rewrite ?length_app; try lia.
  destruct rest; [done|]. cbn [length]. lia.
Qed.

Lemma LEB128_read_unsigned_truncated_witness :
  exists result,
  LEB128_read_unsigned u32 (good_stream [7; 0xe5; 0x8e] 1) =
  Ret (false, result, MkStream [7; 0xe5; 0x8e] 1 false true).
Proof.
  apply (LEB128_read_unsigned_truncated 32 [7] [0xe5; 0x8e]); try done; try (cbn; lia).
  repeat constructor; lia.
Defined.

(** ** Defects *)

(** At the very end of the stream the error path itself fails: [seek] does not accept the
    offset the stream already stands at. *)
Theorem LEB128_read_at_end_stops t bytes :
  LEB128_read_unsigned t (good_stream bytes (Z.of_nat (length bytes))) = Stop VerifyFailed.
Proof.
  unfold LEB128_read_unsigned. cbn [read_unsigned_loop good_stream m_bytes m_offset].
  unfold Stream_eof, Stream_seek, stream_size. cbn [m_bytes m_offset].
  by rewrite Z.leb_refl, Z.ltb_irrefl.
Qed.

(** The sign of a number of three or four groups is lost: the bytes below encode -100000.
    The test compares the bits read with [sizeof * 4], half the width of the type. *)
Theorem LEB128_read_signed_loses_sign :
  LEB128_read_signed u32 (good_stream [0xe0; 0xf2; 0x79] 0) =
  Ret (true, 1997152, good_stream [0xe0; 0xf2; 0x79] 3).
Proof. vm_compute. reflexivity. Qed.

(** The number of bytes is not bounded: a sixth byte shifts a 32-bit value by 35. *)
Theorem LEB128_read_unsigned_overlong :
  LEB128_read_unsigned u32 (good_stream [0x80; 0x80; 0x80; 0x80; 0x80; 0] 0) = Stop Undefined.
Proof. vm_compute. reflexivity. Qed.
