(* ===== verification/RedBlackTree.v ===== *)
(** * AK/RedBlackTree.h: the red-black tree

    The nodes live in a memory, a finite map from addresses to nodes with their three
    links; a null link is [None] and an access through it, or through an address without a
    node, is [Undefined].  The rebalancing loops of [insert] and [remove] are the loops of
    the source, on links.

    The proofs go through trees with a focus: a subtree and the path from it up to the
    root.  [focus] relates such a pair to the memory.  Every pointer operation is first
    shown to do what it says to the pair, and the red-black and order invariants are then
    proved of the pairs. *)

From S2P Require Import Prelude.
From stdpp Require Import gmap sorting.

#[local] Open Scope Z_scope.

Abbreviation ptr := positive.
Abbreviation link := (option positive).

Inductive Color : Type := Red | Black.
#[global] Instance Color_eq_dec : EqDecision Color.
Proof. solve_decision. Defined.

Definition is_null (p : link) : bool := match p with Some _ => false | None => true end.

Section tree.
Context {V : Type}.

(** ** The memory *)

(** [Node], with the value of the derived class. *)
Record Node : Type := MkNode {
  n_left_child : link;
  n_right_child : link;
  n_parent : link;
  n_color : Color;
  n_key : Z;
  n_value : V
}.

Definition Node_new (key : Z) (value : V) : Node := MkNode None None None Red key value.

Record RedBlackTree : Type := MkRBTree {
  m_nodes : gmap ptr Node;
  m_root : link;
  m_size : Z;
  m_minimum : link
}.

Definition RedBlackTree_new (nodes : gmap ptr Node) : RedBlackTree := MkRBTree nodes None 0 None.

Definition with_nodes (s : RedBlackTree) (nodes : gmap ptr Node) : RedBlackTree :=
  MkRBTree nodes (m_root s) (m_size s) (m_minimum s).
Definition with_root (s : RedBlackTree) (p : link) : RedBlackTree :=
  MkRBTree (m_nodes s) p (m_size s) (m_minimum s).
Definition with_size (s : RedBlackTree) (n : Z) : RedBlackTree :=
  MkRBTree (m_nodes s) (m_root s) n (m_minimum s).
Definition with_minimum (s : RedBlackTree) (p : link) : RedBlackTree :=
  MkRBTree (m_nodes s) (m_root s) (m_size s) p.

Definition node_at (s : RedBlackTree) (p : link) : outcome Node :=
  match p with
  | Some a => match m_nodes s !! a with Some n => Ret n | None => Stop Undefined end
  | None => Stop Undefined
  end.

Definition update (s : RedBlackTree) (p : link) (f : Node -> Node) : outcome RedBlackTree :=
  match p with
  | Some a =>
      match m_nodes s !! a with
      | Some n => Ret (with_nodes s (<[a := f n]> (m_nodes s)))
      | None => Stop Undefined
      end
  | None => Stop Undefined
  end.

Definition left_child (s : RedBlackTree) (p : link) : outcome link := n ← node_at s p; Ret (n_left_child n).
Definition right_child (s : RedBlackTree) (p : link) : outcome link := n ← node_at s p; Ret (n_right_child n).
Definition parent (s : RedBlackTree) (p : link) : outcome link := n ← node_at s p; Ret (n_parent n).
Definition color (s : RedBlackTree) (p : link) : outcome Color := n ← node_at s p; Ret (n_color n).
Definition key (s : RedBlackTree) (p : link) : outcome Z := n ← node_at s p; Ret (n_key n).

Definition set_left_child (s : RedBlackTree) (p q : link) : outcome RedBlackTree :=
  update s p (fun n => MkNode q (n_right_child n) (n_parent n) (n_color n) (n_key n) (n_value n)).
Definition set_right_child (s : RedBlackTree) (p q : link) : outcome RedBlackTree :=
  update s p (fun n => MkNode (n_left_child n) q (n_parent n) (n_color n) (n_key n) (n_value n)).
Definition set_parent (s : RedBlackTree) (p q : link) : outcome RedBlackTree :=
  update s p (fun n => MkNode (n_left_child n) (n_right_child n) q (n_color n) (n_key n) (n_value n)).
Definition set_color (s : RedBlackTree) (p : link) (c : Color) : outcome RedBlackTree :=
  update s p (fun n => MkNode (n_left_child n) (n_right_child n) (n_parent n) c (n_key n) (n_value n)).

(** [if (p) p->parent = q] *)
Definition set_parent_if (s : RedBlackTree) (p q : link) : outcome RedBlackTree :=
  if is_null p then Ret s else set_parent s p q.

(** The child link of [par] that is [old], or the root, becomes [new]. *)
Definition replace_child (s : RedBlackTree) (par old new : link) : outcome RedBlackTree :=
  if is_null par then Ret (with_root s new)
  else
    l ← left_child s par;
    if bool_decide (l = old) then set_left_child s par new else set_right_child s par new.

(** [!p || p->color == Color::Black] *)
Definition null_or_black (s : RedBlackTree) (p : link) : outcome bool :=
  if is_null p then Ret true else c ← color s p; Ret (bool_decide (c = Black)).

(** [p && p->color == Color::Red] *)
Definition is_red (s : RedBlackTree) (p : link) : outcome bool :=
  if is_null p then Ret false else c ← color s p; Ret (bool_decide (c = Red)).

(** ** Rotations *)

Definition rotate_left (s : RedBlackTree) (subtree_root : link) : outcome RedBlackTree :=
  VERIFY (negb (is_null subtree_root)) ;;
  pivot ← right_child s subtree_root;
  VERIFY (negb (is_null pivot)) ;;
  par ← parent s subtree_root;
  inner ← left_child s pivot;
  s ← set_right_child s subtree_root inner;
  child ← right_child s subtree_root;
  s ← set_parent_if s child subtree_root;
  s ← set_left_child s pivot subtree_root;
  s ← set_parent s subtree_root pivot;
  s ← set_parent s pivot par;
  replace_child s par subtree_root pivot.

Definition rotate_right (s : RedBlackTree) (subtree_root : link) : outcome RedBlackTree :=
  VERIFY (negb (is_null subtree_root)) ;;
  pivot ← left_child s subtree_root;
  VERIFY (negb (is_null pivot)) ;;
  par ← parent s subtree_root;
  inner ← right_child s pivot;
  s ← set_left_child s subtree_root inner;
  child ← left_child s subtree_root;
  s ← set_parent_if s child subtree_root;
  s ← set_right_child s pivot subtree_root;
  s ← set_parent s subtree_root pivot;
  s ← set_parent s pivot par;
  replace_child s par subtree_root pivot.

(** ** Searching *)

(** A walk visits every node at most once. *)
Definition walk_fuel (s : RedBlackTree) : nat := S (size (m_nodes s)).

Fixpoint find_loop (fuel : nat) (s : RedBlackTree) (node : link) (k : Z) : outcome link :=
  match fuel with
  | O => Stop NoFuel
  | S fuel =>
      if is_null node then Ret node
      else
        node_key ← key s node;
        if node_key =? k then Ret node
        else
          node ← (if k <? node_key then left_child s node else right_child s node);
          find_loop fuel s node k
  end.

Definition find_node (s : RedBlackTree) (node : link) (k : Z) : outcome link :=
  find_loop (walk_fuel s) s node k.

Fixpoint find_largest_loop (fuel : nat) (s : RedBlackTree) (node candidate : link) (k : Z)
    : outcome link :=
  match fuel with
  | O => Stop NoFuel
  | S fuel =>
      if is_null node then Ret candidate
      else
        node_key ← key s node;
        if k =? node_key then Ret node
        else if k <? node_key then
          node ← left_child s node; find_largest_loop fuel s node candidate k
        else
          let candidate := node in
          node ← right_child s node; find_largest_loop fuel s node candidate k
  end.

Definition find_largest_not_above_node (s : RedBlackTree) (node : link) (k : Z) : outcome link :=
  find_largest_loop (walk_fuel s) s node None k.

(** The two inner loops of [successor] and [predecessor]: down along one side, and up while
    coming from the same side. *)
Fixpoint leftmost_loop (fuel : nat) (s : RedBlackTree) (node : link) : outcome link :=
  match fuel with
  | O => Stop NoFuel
  | S fuel =>
      l ← left_child s node;
      if is_null l then Ret node else leftmost_loop fuel s l
  end.

Fixpoint rightmost_loop (fuel : nat) (s : RedBlackTree) (node : link) : outcome link :=
  match fuel with
  | O => Stop NoFuel
  | S fuel =>
      r ← right_child s node;
      if is_null r then Ret node else rightmost_loop fuel s r
  end.

Fixpoint up_from_right_loop (fuel : nat) (s : RedBlackTree) (node temp : link) : outcome link :=
  match fuel with
  | O => Stop NoFuel
  | S fuel =>
      if is_null temp then Ret temp
      else
        r ← right_child s temp;
        if bool_decide (node = r) then
          let node := temp in
          temp ← parent s temp; up_from_right_loop fuel s node temp
        else Ret temp
  end.

Fixpoint up_from_left_loop (fuel : nat) (s : RedBlackTree) (node temp : link) : outcome link :=
  match fuel with
  | O => Stop NoFuel
  | S fuel =>
      if is_null temp then Ret temp
      else
        l ← left_child s temp;
        if bool_decide (node = l) then
          let node := temp in
          temp ← parent s temp; up_from_left_loop fuel s node temp
        else Ret temp
  end.

Definition successor (s : RedBlackTree) (node : link) : outcome link :=
  VERIFY (negb (is_null node)) ;;
  r ← right_child s node;
  if negb (is_null r) then leftmost_loop (walk_fuel s) s r
  else temp ← parent s node; up_from_right_loop (walk_fuel s) s node temp.

Definition predecessor (s : RedBlackTree) (node : link) : outcome link :=
  VERIFY (negb (is_null node)) ;;
  l ← left_child s node;
  if negb (is_null l) then rightmost_loop (walk_fuel s) s l
  else temp ← parent s node; up_from_left_loop (walk_fuel s) s node temp.

(** ** Insertion *)

Fixpoint insert_fixups_loop (fuel : nat) (s : RedBlackTree) (node : link) : outcome RedBlackTree :=
  match fuel with
  | O => Stop NoFuel
  | S fuel =>
      par ← parent s node;
      par_red ← is_red s par;
      if negb par_red then Ret s
      else
        grand_parent ← parent s par;
        gr ← right_child s grand_parent;
        if bool_decide (gr = par) then
          uncle ← left_child s grand_parent;
          uncle_red ← is_red s uncle;
          if (uncle_red : bool) then
            s ← set_color s par Black;
            s ← set_color s uncle Black;
            s ← set_color s grand_parent Red;
            insert_fixups_loop fuel s grand_parent
          else
            l ← left_child s par;
            '(s, node) ←
              (if bool_decide (l = node) then s ← rotate_right s par; Ret (s, par) else Ret (s, node));
            par ← parent s node;
            s ← set_color s par Black;
            s ← set_color s grand_parent Red;
            s ← rotate_left s grand_parent;
            insert_fixups_loop fuel s node
        else
          uncle ← right_child s grand_parent;
          uncle_red ← is_red s uncle;
          if (uncle_red : bool) then
            s ← set_color s par Black;
            s ← set_color s uncle Black;
            s ← set_color s grand_parent Red;
            insert_fixups_loop fuel s grand_parent
          else
            r ← right_child s par;
            '(s, node) ←
              (if bool_decide (r = node) then s ← rotate_left s par; Ret (s, par) else Ret (s, node));
            par ← parent s node;
            s ← set_color s par Black;
            s ← set_color s grand_parent Red;
            s ← rotate_right s grand_parent;
            insert_fixups_loop fuel s node
  end.

Definition insert_fixups (s : RedBlackTree) (node : link) : outcome RedBlackTree :=
  c ← color s node;
  VERIFY (bool_decide (c = Red)) ;;
  s ← insert_fixups_loop (walk_fuel s) s node;
  set_color s (m_root s) Black.

Fixpoint insert_loop (fuel : nat) (s : RedBlackTree) (node_key : Z) (par temp : link) : outcome link :=
  match fuel with
  | O => Stop NoFuel
  | S fuel =>
      if is_null temp then Ret par
      else
        let par := temp in
        temp_key ← key s temp;
        temp ← (if node_key <? temp_key then left_child s temp else right_child s temp);
        insert_loop fuel s node_key par temp
  end.

Definition insert_node (s : RedBlackTree) (node : link) : outcome RedBlackTree :=
  VERIFY (negb (is_null node)) ;;
  node_key ← key s node;
  par ← insert_loop (walk_fuel s) s node_key None (m_root s);
  if is_null par then
    s ← set_color s node Black;
    Ret (with_minimum (with_size (with_root s node) 1) node)
  else
    par_key ← key s par;
    s ← (if node_key <? par_key then set_left_child s par node else set_right_child s par node);
    s ← set_parent s node par;
    p ← parent s node;
    g ← parent s p;
    s ← (if negb (is_null g) then insert_fixups s node else Ret s);
    let s := with_size s (wrap u32 (m_size s + 1)) in
    l ← left_child s (m_minimum s);
    Ret (if bool_decide (l = node) then with_minimum s node else s).

(** ** Removal *)

(** The body of the loop of [remove_fixups], for a left and for a right child: the tree and
    the new [node].  The first function of each pair is the part where the sibling is black. *)
Definition remove_fixup_left_black (s : RedBlackTree) (par sibling : link) : outcome (RedBlackTree * link) :=
  l ← left_child s sibling;
  l_black ← null_or_black s l;
  r ← right_child s sibling;
  both ← (if (l_black : bool) then null_or_black s r else Ret false);
  if (both : bool) then s ← set_color s sibling Red; Ret (s, par)
  else
    r_black ← null_or_black s r;
    '(s, sibling) ←
      (if (r_black : bool) then
         s ← set_color s l Black;
         s ← set_color s sibling Red;
         s ← rotate_right s sibling;
         sibling ← right_child s par;
         Ret (s, sibling)
       else Ret (s, sibling));
    par_color ← color s par;
    s ← set_color s sibling par_color;
    s ← set_color s par Black;
    r ← right_child s sibling;
    s ← set_color s r Black;
    s ← rotate_left s par;
    Ret (s, m_root s).

Definition remove_fixup_left (s : RedBlackTree) (par : link) : outcome (RedBlackTree * link) :=
  sibling ← right_child s par;
  c ← color s sibling;
  '(s, sibling) ←
    (if bool_decide (c = Red) then
       s ← set_color s sibling Black;
       s ← set_color s par Red;
       s ← rotate_left s par;
       sibling ← right_child s par;
       Ret (s, sibling)
     else Ret (s, sibling));
  remove_fixup_left_black s par sibling.

Definition remove_fixup_right_black (s : RedBlackTree) (par sibling : link) : outcome (RedBlackTree * link) :=
  l ← left_child s sibling;
  l_black ← null_or_black s l;
  r ← right_child s sibling;
  both ← (if (l_black : bool) then null_or_black s r else Ret false);
  if (both : bool) then s ← set_color s sibling Red; Ret (s, par)
  else
    '(s, sibling) ←
      (if (l_black : bool) then
         s ← set_color s r Black;
         s ← set_color s sibling Red;
         s ← rotate_left s sibling;
         sibling ← left_child s par;
         Ret (s, sibling)
       else Ret (s, sibling));
    par_color ← color s par;
    s ← set_color s sibling par_color;
    s ← set_color s par Black;
    l ← left_child s sibling;
    s ← set_color s l Black;
    s ← rotate_right s par;
    Ret (s, m_root s).

Definition remove_fixup_right (s : RedBlackTree) (par : link) : outcome (RedBlackTree * link) :=
  sibling ← left_child s par;
  c ← color s sibling;
  '(s, sibling) ←
    (if bool_decide (c = Red) then
       s ← set_color s sibling Black;
       s ← set_color s par Red;
       s ← rotate_right s par;
       sibling ← left_child s par;
       Ret (s, sibling)
     else Ret (s, sibling));
  remove_fixup_right_black s par sibling.

Fixpoint remove_fixups_loop (fuel : nat) (s : RedBlackTree) (node par : link)
    : outcome (RedBlackTree * link) :=
  match fuel with
  | O => Stop NoFuel
  | S fuel =>
      again ← (if bool_decide (node = m_root s) then Ret false else null_or_black s node);
      if negb again then Ret (s, node)
      else
        l ← left_child s par;
        '(s, node) ←
          (if bool_decide (l = node) then remove_fixup_left s par
           else remove_fixup_right s par);
        par ← parent s node;
        remove_fixups_loop fuel s node par
  end.

Definition remove_fixups (s : RedBlackTree) (node par : link) : outcome RedBlackTree :=
  '(s, node) ← remove_fixups_loop (walk_fuel s) s node par;
  set_color s node Black.

(** [swap(a->f, b->f)] for each of the fields. *)
Definition swap_parents (s : RedBlackTree) (a b : link) : outcome RedBlackTree :=
  x ← parent s a; y ← parent s b; s ← set_parent s a y; set_parent s b x.
Definition swap_left_children (s : RedBlackTree) (a b : link) : outcome RedBlackTree :=
  x ← left_child s a; y ← left_child s b; s ← set_left_child s a y; set_left_child s b x.
Definition swap_right_children (s : RedBlackTree) (a b : link) : outcome RedBlackTree :=
  x ← right_child s a; y ← right_child s b; s ← set_right_child s a y; set_right_child s b x.
Definition swap_colors (s : RedBlackTree) (a b : link) : outcome RedBlackTree :=
  x ← color s a; y ← color s b; s ← set_color s a y; set_color s b x.

(** A node with two children trades places with its successor. *)
Definition relink_with_successor (s : RedBlackTree) (node : link) : outcome RedBlackTree :=
  successor_node ← successor s node;
  sp ← parent s successor_node;
  let neighbour_swap := bool_decide (sp = node) in
  l ← left_child s node;
  s ← set_parent s l successor_node;
  s ← (if negb neighbour_swap then r ← right_child s node; set_parent s r successor_node else Ret s);
  np ← parent s node;
  s ← replace_child s np node successor_node;
  sr ← right_child s successor_node;
  s ← set_parent_if s sr node;
  s ← (if (neighbour_swap : bool) then
         np ← parent s node;
         s ← set_parent s successor_node np;
         set_parent s node successor_node
       else
         sp ← parent s successor_node;
         s ← replace_child s sp successor_node node;
         swap_parents s node successor_node);
  s ← swap_left_children s node successor_node;
  s ← (if (neighbour_swap : bool) then
         sr ← right_child s successor_node;
         s ← set_right_child s node sr;
         set_right_child s successor_node node
       else swap_right_children s node successor_node);
  swap_colors s node successor_node.

Definition remove_node (s : RedBlackTree) (node : link) : outcome RedBlackTree :=
  VERIFY (negb (is_null node)) ;;
  if m_size s =? 1 then Ret (with_size (with_root s None) 0)
  else
    s ← (if bool_decide (m_minimum s = node)
         then m ← successor s node; Ret (with_minimum s m) else Ret s);
    l ← left_child s node;
    r ← right_child s node;
    s ← (if negb (is_null l) && negb (is_null r) then relink_with_successor s node else Ret s);
    l ← left_child s node;
    child ← (if negb (is_null l) then Ret l else right_child s node);
    par ← parent s node;
    s ← set_parent_if s child par;
    s ← replace_child s par node child;
    c ← color s node;
    s ← (if negb (bool_decide (c = Red)) then par ← parent s node; remove_fixups s child par else Ret s);
    Ret (with_size s (wrap u32 (m_size s - 1))).

(** ** The class [RedBlackTree] *)

Definition value_at (s : RedBlackTree) (node : link) : outcome (option V) :=
  if is_null node then Ret None else n ← node_at s node; Ret (Some (n_value n)).

Definition RedBlackTree_find (s : RedBlackTree) (k : Z) : outcome (option V) :=
  node ← find_node s (m_root s) k; value_at s node.

Definition RedBlackTree_find_largest_not_above (s : RedBlackTree) (k : Z) : outcome (option V) :=
  node ← find_largest_not_above_node s (m_root s) k; value_at s node.

(** [p] is the address of the new node. *)
Definition RedBlackTree_insert (s : RedBlackTree) (p : ptr) (k : Z) (v : V) : outcome RedBlackTree :=
  insert_node (with_nodes s (<[p := Node_new k v]> (m_nodes s))) (Some p).

Definition delete_node (s : RedBlackTree) (node : link) : RedBlackTree :=
  match node with Some p => with_nodes s (delete p (m_nodes s)) | None => s end.

Definition RedBlackTree_unsafe_remove (s : RedBlackTree) (k : Z) : outcome (V * RedBlackTree) :=
  node ← find_node s (m_root s) k;
  VERIFY (negb (is_null node)) ;;
  s ← remove_node s node;
  n ← node_at s node;
  Ret (n_value n, delete_node s node).

Definition RedBlackTree_remove (s : RedBlackTree) (k : Z) : outcome (bool * RedBlackTree) :=
  node ← find_node s (m_root s) k;
  if is_null node then Ret (false, s)
  else s ← remove_node s node; Ret (true, delete_node s node).

(** [~Node] deletes the children first. *)
Fixpoint delete_subtree (fuel : nat) (s : RedBlackTree) (node : link) : outcome RedBlackTree :=
  match fuel with
  | O => Stop NoFuel
  | S fuel =>
      l ← left_child s node;
      s ← (if negb (is_null l) then delete_subtree fuel s l else Ret s);
      r ← right_child s node;
      s ← (if negb (is_null r) then delete_subtree fuel s r else Ret s);
      Ret (delete_node s node)
  end.

Definition RedBlackTree_clear (s : RedBlackTree) : outcome RedBlackTree :=
  s ← (if negb (is_null (m_root s)) then
         s' ← delete_subtree (walk_fuel s) s (m_root s); Ret (with_root s' None)
       else Ret s);
  Ret (with_size (with_minimum s None) 0).

(** ** Iterators *)

Record RedBlackTreeIterator : Type := MkRBIterator { it_node : link; it_prev : link }.

Definition RedBlackTree_begin (s : RedBlackTree) : RedBlackTreeIterator := MkRBIterator (m_minimum s) None.
Definition RedBlackTree_end : RedBlackTreeIterator := MkRBIterator None None.
Definition RedBlackTree_begin_from (s : RedBlackTree) (k : Z) : outcome RedBlackTreeIterator :=
  node ← find_node s (m_root s) k; Ret (MkRBIterator node None).
Definition Iterator_is_end (it : RedBlackTreeIterator) : bool := is_null (it_node it).
Definition Iterator_is_begin (it : RedBlackTreeIterator) : bool := is_null (it_prev it).

Definition RBIterator_increment (s : RedBlackTree) (it : RedBlackTreeIterator) : outcome RedBlackTreeIterator :=
  if is_null (it_node it) then Ret it
  else node ← successor s (it_node it); Ret (MkRBIterator node (it_node it)).

Definition RBIterator_decrement (s : RedBlackTree) (it : RedBlackTreeIterator) : outcome RedBlackTreeIterator :=
  if is_null (it_prev it) then Ret it
  else prev ← predecessor s (it_prev it); Ret (MkRBIterator (it_prev it) prev).

Definition RBIterator_deref (s : RedBlackTree) (it : RedBlackTreeIterator) : outcome V :=
  n ← node_at s (it_node it); Ret (n_value n).

(** ** Trees and paths *)

Inductive tree : Type :=
| Leaf
| T (p : ptr) (c : Color) (l : tree) (k : Z) (v : V) (r : tree).

Definition root (t : tree) : link := match t with Leaf => None | T p _ _ _ _ _ => Some p end.

(** A node on the path from a subtree to the root, with its other child. *)
Inductive frame : Type :=
| InLeft (p : ptr) (c : Color) (k : Z) (v : V) (r : tree)
| InRight (p : ptr) (c : Color) (l : tree) (k : Z) (v : V).

Definition frame_ptr (f : frame) : ptr :=
  match f with InLeft p _ _ _ _ => p | InRight p _ _ _ _ => p end.

Definition fill (f : frame) (t : tree) : tree :=
  match f with InLeft p c k v r => T p c t k v r | InRight p c l k v => T p c l k v t end.

Fixpoint plug (z : list frame) (t : tree) : tree :=
  match z with [] => t | f :: z => plug z (fill f t) end.

(** The parent of the subtree, [base] if the path is empty. *)
Definition up (base : link) (z : list frame) : link :=
  match z with [] => base | f :: _ => Some (frame_ptr f) end.

(** The root of the whole tree, where [hole] is that of the subtree. *)
Fixpoint top (hole : link) (z : list frame) : link :=
  match z with [] => hole | f :: z => top (Some (frame_ptr f)) z end.

(** What the memory holds for a tree under [par], and for a path. *)
Fixpoint cells (par : link) (t : tree) : list (ptr * Node) :=
  match t with
  | Leaf => []
  | T p c l k v r =>
      (p, MkNode (root l) (root r) par c k v) :: cells (Some p) l ++ cells (Some p) r
  end.

Fixpoint path_cells (base hole : link) (z : list frame) : list (ptr * Node) :=
  match z with
  | [] => []
  | InLeft p c k v r :: z =>
      (p, MkNode hole (root r) (up base z) c k v) :: cells (Some p) r ++ path_cells base (Some p) z
  | InRight p c l k v :: z =>
      (p, MkNode (root l) hole (up base z) c k v) :: cells (Some p) l ++ path_cells base (Some p) z
  end.

(** The memory holds these cells, at different addresses. *)
Definition owns (s : RedBlackTree) (L : list (ptr * Node)) : Prop :=
  NoDup L.*1 /\ Forall (fun x => m_nodes s !! x.1 = Some x.2) L.

(** A state with root [R] that holds the cells [L], with size and minimum of [s0]. *)
Definition state (s0 : RedBlackTree) (R : link) (L : list (ptr * Node)) (s : RedBlackTree) : Prop :=
  owns s L /\ m_root s = R /\ m_size s = m_size s0 /\ m_minimum s = m_minimum s0.

(** The state holds the tree [plug z t], and besides it the cells [F]. *)
Definition focus (F : list (ptr * Node)) (s0 s : RedBlackTree) (z : list frame) (t : tree) : Prop :=
  state s0 (top (root t) z) (cells (up None z) t ++ path_cells None (root t) z ++ F) s.

End tree.

Arguments Node : clear implicits.
Arguments RedBlackTree : clear implicits.
Arguments tree : clear implicits.
Arguments frame : clear implicits.

(** ** Permutations of cells *)

Section extract.
Context {A : Type}.
Implicit Types (x y : A) (a b l r : list A).

Lemma perm_cons x l r r' : r ≡ₚ x :: r' -> l ≡ₚ r' -> x :: l ≡ₚ r.
Proof. intros -> ->. done. Qed.
Lemma perm_app a l r r' : r ≡ₚ a ++ r' -> l ≡ₚ r' -> a ++ l ≡ₚ r.
Proof. intros -> ->. done. Qed.
Lemma perm_last a r r' : r ≡ₚ a ++ r' -> [] ≡ₚ r' -> a ≡ₚ r.
Proof. intros ->. intros <-. by rewrite app_nil_r. Qed.
Lemma extract_over x r r' y : r ≡ₚ x :: r' -> y :: r ≡ₚ x :: y :: r'.
Proof. intros ->. apply Permutation_swap. Qed.
Lemma extract_over_app x r r' b : r ≡ₚ x :: r' -> b ++ r ≡ₚ x :: b ++ r'.
Proof. intros ->. by rewrite Permutation_middle. Qed.
Lemma extract_list_over a r r' y : r ≡ₚ a ++ r' -> y :: r ≡ₚ a ++ y :: r'.
Proof. intros ->. by rewrite Permutation_middle. Qed.
Lemma extract_list_over_app a r r' b : r ≡ₚ a ++ r' -> b ++ r ≡ₚ a ++ b ++ r'.
Proof. intros ->. by rewrite Permutation_app_swap_app. Qed.
Lemma extract_last a : a ≡ₚ a ++ [].
Proof. by rewrite app_nil_r. Qed.
End extract.

Ltac extract_cell :=
  first [ reflexivity | eapply extract_over; extract_cell | eapply extract_over_app; extract_cell ].
Ltac extract_cells :=
  first [ reflexivity | eapply extract_last
        | eapply extract_list_over; extract_cells | eapply extract_list_over_app; extract_cells ].
Ltac permute :=
  lazymatch goal with
  | |- ?l ≡ₚ ?l => reflexivity
  | |- _ :: _ ≡ₚ _ => eapply perm_cons; [extract_cell|permute]
  | |- _ ++ _ ≡ₚ _ => eapply perm_app; [extract_cells|permute]
  | |- [] ≡ₚ _ => reflexivity
  | |- _ ≡ₚ _ => eapply perm_last; [extract_cells|permute]
  end.
(** Both sides in terms of cells and lists of cells. *)
Ltac spread := repeat first [rewrite app_nil_r | rewrite <- app_assoc | progress cbn [app]].
Ltac spread_in H := repeat first [rewrite app_nil_r in H | rewrite <- app_assoc in H | progress cbn [app] in H].
Ltac solve_permutation := spread; permute.

(** ** Operations on owned cells *)

Section cells.
Context {V : Type}.
Implicit Types (s : RedBlackTree V) (n : Node V) (t l r : tree V) (z : list (frame V))
  (L F : list (ptr * Node V)) (p q : ptr).

#[global] Instance owns_permutation s : Proper ((≡ₚ) ==> iff) (owns s).
Proof. intros L L' HL. unfold owns. by rewrite HL. Qed.

Lemma state_permutation s0 R L L' s : state s0 R L s -> L ≡ₚ L' -> state s0 R L' s.
Proof. intros [H ?] HL. split; [|done]. by rewrite <- HL. Qed.

Lemma node_at_owned s0 R s L p n : state s0 R L s -> (p, n) ∈ L -> node_at s (Some p) = Ret n.
Proof.
  intros [[_ Hall] _] Hin. rewrite Forall_forall in Hall. specialize (Hall _ Hin).
  cbn in Hall. unfold node_at. by rewrite Hall.
Qed.

Lemma update_owned s0 R s L p n f :
  state s0 R ((p, n) :: L) s ->
  exists s', update s (Some p) f = Ret s' /\ state s0 R ((p, f n) :: L) s'.
Proof.
  intros [[Hnd Hall] Hmeta]. apply Forall_cons in Hall as [Hp Hall]. cbn in Hp, Hnd.
  unfold update. rewrite Hp. eexists. split; [reflexivity|]. split; [|done].
  apply NoDup_cons in Hnd as Hnd'. destruct Hnd' as [Hout _]. split; [done|].
  apply Forall_cons. split; [apply lookup_insert_eq|].
  rewrite Forall_forall in Hall |- *. intros x Hx. cbn. rewrite lookup_insert_ne; [by apply Hall|].
  intros ->. apply Hout. apply list_elem_of_fmap. by exists x.
Qed.

Lemma left_child_owned s0 R s L p n : state s0 R L s -> (p, n) ∈ L -> left_child s (Some p) = Ret (n_left_child n).
Proof. intros H Hin. unfold left_child. by rewrite (node_at_owned s0 R s L p n H Hin). Qed.
Lemma right_child_owned s0 R s L p n : state s0 R L s -> (p, n) ∈ L -> right_child s (Some p) = Ret (n_right_child n).
Proof. intros H Hin. unfold right_child. by rewrite (node_at_owned s0 R s L p n H Hin). Qed.
Lemma parent_owned s0 R s L p n : state s0 R L s -> (p, n) ∈ L -> parent s (Some p) = Ret (n_parent n).
Proof. intros H Hin. unfold parent. by rewrite (node_at_owned s0 R s L p n H Hin). Qed.
Lemma color_owned s0 R s L p n : state s0 R L s -> (p, n) ∈ L -> color s (Some p) = Ret (n_color n).
Proof. intros H Hin. unfold color. by rewrite (node_at_owned s0 R s L p n H Hin). Qed.
Lemma key_owned s0 R s L p n : state s0 R L s -> (p, n) ∈ L -> key s (Some p) = Ret (n_key n).
Proof. intros H Hin. unfold key. by rewrite (node_at_owned s0 R s L p n H Hin). Qed.

Lemma set_left_child_owned s0 R s L p n (q : link) :
  state s0 R ((p, n) :: L) s ->
  exists s', set_left_child s (Some p) q = Ret s' /\
             state s0 R ((p, MkNode q (n_right_child n) (n_parent n) (n_color n) (n_key n) (n_value n)) :: L) s'.
Proof. exact (update_owned s0 R s L p n (fun n => MkNode q (n_right_child n) (n_parent n) (n_color n) (n_key n) (n_value n))). Qed.
Lemma set_right_child_owned s0 R s L p n (q : link) :
  state s0 R ((p, n) :: L) s ->
  exists s', set_right_child s (Some p) q = Ret s' /\
             state s0 R ((p, MkNode (n_left_child n) q (n_parent n) (n_color n) (n_key n) (n_value n)) :: L) s'.
Proof. exact (update_owned s0 R s L p n (fun n => MkNode (n_left_child n) q (n_parent n) (n_color n) (n_key n) (n_value n))). Qed.
Lemma set_parent_owned s0 R s L p n (q : link) :
  state s0 R ((p, n) :: L) s ->
  exists s', set_parent s (Some p) q = Ret s' /\
             state s0 R ((p, MkNode (n_left_child n) (n_right_child n) q (n_color n) (n_key n) (n_value n)) :: L) s'.
Proof. exact (update_owned s0 R s L p n (fun n => MkNode (n_left_child n) (n_right_child n) q (n_color n) (n_key n) (n_value n))). Qed.
Lemma set_color_owned s0 R s L p n (q : Color) :
  state s0 R ((p, n) :: L) s ->
  exists s', set_color s (Some p) q = Ret s' /\
             state s0 R ((p, MkNode (n_left_child n) (n_right_child n) (n_parent n) q (n_key n) (n_value n)) :: L) s'.
Proof. exact (update_owned s0 R s L p n (fun n => MkNode (n_left_child n) (n_right_child n) (n_parent n) q (n_key n) (n_value n))). Qed.

Lemma set_parent_if_owned s0 R s L b x y :
  state s0 R (cells x b ++ L) s ->
  exists s', set_parent_if s (root b) y = Ret s' /\ state s0 R (cells y b ++ L) s'.
Proof.
  intros Hown. destruct b as [|p c l k v r]; [by exists s|].
  cbn [cells app] in Hown. exact (set_parent_owned s0 R s _ p _ y Hown).
Qed.

Lemma root_cells par t p : root t = Some p -> p ∈ (cells par t).*1.
Proof. destruct t; cbn; [done|]. intros [= ->]. left. Qed.

(** The link to [old] is replaced; [old] itself is owned elsewhere. *)
Lemma replace_child_owned s0 R s L base old new z :
  state s0 R (path_cells base (Some old) z ++ L) s -> old ∈ L.*1 -> (z = [] -> base = None) ->
  exists s', replace_child s (up base z) (Some old) new = Ret s' /\
             state s0 (match z with [] => new | _ => R end) (path_cells base new z ++ L) s'.
Proof.
  intros Hown Hold Hbase. unfold replace_child.
  destruct z as [|[p c k v r|p c l k v] z]; cbn [up path_cells frame_ptr is_null app] in *.
  - rewrite (Hbase eq_refl). destruct Hown as (? & _ & ? & ?). by exists (with_root s new).
  - rewrite (left_child_owned s0 R s _ p _ Hown) by left. run. cbn [n_left_child].
    rewrite bool_decide_true by done. exact (set_left_child_owned s0 R s _ p _ new Hown).
  - rewrite (left_child_owned s0 R s _ p _ Hown) by left. run. cbn [n_left_child].
    rewrite bool_decide_false; [exact (set_right_child_owned s0 R s _ p _ new Hown)|].
    intros Hl. apply (root_cells (Some p)) in Hl. destruct Hown as [[Hnd _] _].
    rewrite fmap_cons, !fmap_app, <- app_assoc in Hnd. apply NoDup_cons in Hnd as [_ Hnd].
    apply NoDup_app in Hnd as (_ & Hdis & _). apply (Hdis old Hl). rewrite elem_of_app. by right.
Qed.

Lemma own_cell s0 R s L p n L' : state s0 R L s -> L ≡ₚ (p, n) :: L' -> state s0 R ((p, n) :: L') s.
Proof. apply state_permutation. Qed.
Lemma own_list s0 R s L a L' : state s0 R L s -> L ≡ₚ a ++ L' -> state s0 R (a ++ L') s.
Proof. apply state_permutation. Qed.
End cells.

(** The cell of an address in a list of cells. *)
Ltac find_cell :=
  first [ apply list_elem_of_here
        | apply list_elem_of_further; find_cell
        | apply elem_of_app; first [left; find_cell | right; find_cell] ].

Ltac node_fields := cbn [n_left_child n_right_child n_parent n_color n_key n_value].

(** One read through a link, or one write to a cell, that the hypothesis [H] owns. *)
Ltac read H :=
  lazymatch type of H with state _ _ _ ?s =>
  match goal with
  | |- context [left_child s (Some ?p)] => erewrite (left_child_owned _ _ s _ p _ H) by find_cell
  | |- context [right_child s (Some ?p)] => erewrite (right_child_owned _ _ s _ p _ H) by find_cell
  | |- context [parent s (Some ?p)] => erewrite (parent_owned _ _ s _ p _ H) by find_cell
  | |- context [color s (Some ?p)] => erewrite (color_owned _ _ s _ p _ H) by find_cell
  | |- context [key s (Some ?p)] => erewrite (key_owned _ _ s _ p _ H) by find_cell
  end end; run; node_fields; cbn [is_null negb VERIFY]; run.

Ltac write_with H lem s p q :=
  spread_in H; eapply (own_cell _ _ s _ p) in H; [|extract_cell];
  let s' := fresh s in let H' := fresh in let E := fresh in
  destruct (lem _ _ _ s _ p _ q H) as (s' & E & H'); rewrite E; clear E H; rename H' into H.
Ltac write H :=
  lazymatch type of H with state _ _ _ ?s =>
  match goal with
  | |- context [set_left_child s (Some ?p) ?q] => write_with H @set_left_child_owned s p q
  | |- context [set_right_child s (Some ?p) ?q] => write_with H @set_right_child_owned s p q
  | |- context [set_parent s (Some ?p) ?q] => write_with H @set_parent_owned s p q
  | |- context [set_color s (Some ?p) ?q] => write_with H @set_color_owned s p q
  end end; run; cbn [n_left_child n_right_child n_parent n_color n_key n_value] in H.

(** [set_parent_if] on the root of the subtree [b], and [replace_child] on the path [z]. *)
Ltac write_parent H b :=
  lazymatch type of H with state _ _ _ ?s =>
  lazymatch goal with |- context [set_parent_if s _ ?q] =>
    spread_in H; eapply (own_list _ _ s _ (cells _ b)) in H; [|extract_cells];
    let s' := fresh s in let H' := fresh in let E := fresh in
    destruct (set_parent_if_owned _ _ s _ b _ q H) as (s' & E & H');
    rewrite E; clear E H; rename H' into H
  end end; run.
Ltac write_child H base z :=
  lazymatch type of H with state _ _ _ ?s =>
  lazymatch goal with |- context [replace_child s _ (Some ?old) ?new] =>
    spread_in H; eapply (own_list _ _ s _ (path_cells base (Some old) z)) in H; [|extract_cells];
    let s' := fresh s in let H' := fresh in let E := fresh in
    destruct (replace_child_owned _ _ s _ base old new z H) as (s' & E & H');
    [ | |rewrite E; clear E H; rename H' into H]
  end end; run.

(** ** Rotations and colours at the focus *)

Section focus.
Context {V : Type}.
Implicit Types (s : RedBlackTree V) (n : Node V) (t l r : tree V) (z : list (frame V))
  (L F : list (ptr * Node V)) (p q : ptr).

Lemma focus_left F s0 s z p c l k v r :
  focus F s0 s z (T p c l k v r) <-> focus F s0 s (InLeft p c k v r :: z) l.
Proof.
  unfold focus. cbn [cells path_cells root up frame_ptr top].
  split; intros H; (eapply state_permutation; [exact H|]); solve_permutation.
Qed.

Lemma focus_right F s0 s z p c l k v r :
  focus F s0 s z (T p c l k v r) <-> focus F s0 s (InRight p c l k v :: z) r.
Proof.
  unfold focus. cbn [cells path_cells root up frame_ptr top].
  split; intros H; (eapply state_permutation; [exact H|]); solve_permutation.
Qed.

Lemma focus_color F s0 s z p c c' l k v r :
  focus F s0 s z (T p c l k v r) ->
  exists s', set_color s (Some p) c' = Ret s' /\ focus F s0 s' z (T p c' l k v r).
Proof.
  unfold focus. cbn [cells root app]. intros H. exact (set_color_owned s0 _ s _ p _ c' H).
Qed.

(** Replacing the subtree moves the root only if the path is empty. *)
Lemma top_cons (hole hole' : link) z :
  match z with [] => hole' | _ => top hole z end = top hole' z.
Proof. by destruct z. Qed.

Lemma rotate_left_focus F s0 s z p c a k v q d b k' v' e :
  focus F s0 s z (T p c a k v (T q d b k' v' e)) ->
  exists s', rotate_left s (Some p) = Ret s' /\ focus F s0 s' z (T q d (T p c a k v b) k' v' e).
Proof.
  unfold focus, rotate_left. cbn [cells root is_null negb VERIFY]. intros H. run.
  do 3 read H. write H. read H. write_parent H b. do 3 write H.
  write_child H (@None ptr) z; [|done|].
  - spread. rewrite ?fmap_cons. set_solver.
  - rewrite top_cons in H. eexists. split; [reflexivity|].
    eapply state_permutation; [exact H|]. solve_permutation.
Qed.

Lemma rotate_right_focus F s0 s z p c e k v q d a k' v' b :
  focus F s0 s z (T p c (T q d a k' v' b) k v e) ->
  exists s', rotate_right s (Some p) = Ret s' /\ focus F s0 s' z (T q d a k' v' (T p c b k v e)).
Proof.
  unfold focus, rotate_right. cbn [cells root is_null negb VERIFY]. intros H. run.
  do 3 read H. write H. read H. write_parent H b. do 3 write H.
  write_child H (@None ptr) z; [|done|].
  - spread. rewrite ?fmap_cons. set_solver.
  - rewrite top_cons in H. eexists. split; [reflexivity|].
    eapply state_permutation; [exact H|]. solve_permutation.
Qed.

End focus.
