(* ===== verification/RedBlackInsert.v ===== *)
(** * AK/RedBlackTree.h: searching, walking and inserting

    The red-black invariant, the order of the elements, and the theorems on [find],
    [find_largest_not_above], [successor], [predecessor] and [insert]. *)

From S2P Require Import Prelude RedBlackTree.
From stdpp Require Import gmap sorting.

#[local] Open Scope Z_scope.

Section invariant.
Context {V : Type}.
Implicit Types (s : RedBlackTree V) (n h : nat) (t l r : tree V) (z : list (frame V))
  (L F : list (ptr * Node V)) (p q : ptr).

(** ** Elements *)

(** The nodes in order: address, key and value. *)
Fixpoint elements (t : tree V) : list (ptr * Z * V) :=
  match t with
  | Leaf => []
  | T p _ l k v r => elements l ++ (p, k, v) :: elements r
  end.

Fixpoint before (z : list (frame V)) : list (ptr * Z * V) :=
  match z with
  | [] => []
  | InLeft _ _ _ _ _ :: z => before z
  | InRight p _ l k v :: z => before z ++ elements l ++ [(p, k, v)]
  end.

Fixpoint after (z : list (frame V)) : list (ptr * Z * V) :=
  match z with
  | [] => []
  | InLeft p _ k v r :: z => (p, k, v) :: elements r ++ after z
  | InRight _ _ _ _ _ :: z => after z
  end.

Lemma elements_plug z t : elements (plug z t) = before z ++ elements t ++ after z.
Proof.
  revert t. induction z as [|[p c k v r|p c l k v] z IH]; intros t; cbn [plug before after].
  - by rewrite app_nil_r.
  - rewrite IH. cbn [fill elements]. by rewrite <- !app_assoc.
  - rewrite IH. cbn [fill elements]. by rewrite <- !app_assoc.
Qed.

Lemma elements_cells par t : (elements t).*1.*1 ≡ₚ (cells par t).*1.
Proof.
  revert par. induction t as [|p c l IHl k v r IHr]; intros par; [done|]. cbn [elements cells].
  rewrite !fmap_app, !fmap_cons, !fmap_app, <- (IHl (Some p)), <- (IHr (Some p)). cbn.
  symmetry. apply Permutation_middle.
Qed.

(** ** The red-black invariant *)

(** [rbt c n t]: a red-black tree with root of colour [c] and [n] black nodes on every way
    from the root to a leaf; leaves count as black. *)
Inductive rbt : Color -> nat -> tree V -> Prop :=
| rbt_leaf : rbt Black 0 Leaf
| rbt_red n p l k v r : rbt Black n l -> rbt Black n r -> rbt Red n (T p Red l k v r)
| rbt_black n c c' p l k v r : rbt c n l -> rbt c' n r -> rbt Black (S n) (T p Black l k v r).

(** [rbpath c n z]: a path into a red-black tree with black root, whose last node has
    colour [c] and lacks a subtree of black height [n]. *)
Inductive rbpath : Color -> nat -> list (frame V) -> Prop :=
| rbpath_nil n : rbpath Black n []
| rbpath_left_red n p k v r f z :
    rbt Black n r -> rbpath Black n (f :: z) -> rbpath Red n (InLeft p Red k v r :: f :: z)
| rbpath_left_black n c c' p k v r z :
    rbt c n r -> rbpath c' (S n) z -> rbpath Black n (InLeft p Black k v r :: z)
| rbpath_right_red n p l k v f z :
    rbt Black n l -> rbpath Black n (f :: z) -> rbpath Red n (InRight p Red l k v :: f :: z)
| rbpath_right_black n c c' p l k v z :
    rbt c n l -> rbpath c' (S n) z -> rbpath Black n (InRight p Black l k v :: z).

Lemma rbt_color_root c n t : rbt c n t -> t = Leaf /\ c = Black \/ exists p l k v r, t = T p c l k v r.
Proof. destruct 1; [by left|right..]; eauto 6. Qed.

Lemma rbt_plug z t c c' n :
  rbpath c n z -> rbt c' n t -> (c = Red -> c' = Black) ->
  exists c'' n', rbt c'' n' (plug z t) /\ (z <> [] -> c'' = Black).
Proof.
  intros Hz. revert t c'. induction Hz; intros t c1 Ht Hc; cbn [plug fill].
  1: by exists c1, n.
  1, 3: rewrite (Hc eq_refl) in Ht.
  1: destruct (IHHz (T p Red t k v r) Red) as (c2 & n2 & ? & H3); [by constructor|done|].
  2: destruct (IHHz (T p Red l k v t) Red) as (c2 & n2 & ? & H3); [by constructor|done|].
  3: destruct (IHHz (T p Black t k v r) Black) as (c2 & n2 & H2 & H3); [by econstructor|done|].
  4: destruct (IHHz (T p Black l k v t) Black) as (c2 & n2 & H2 & H3); [by econstructor|done|].
  1, 2: exists c2, n2; split; [done|]; intros _; by apply H3.
  all: exists c2, n2; split; [done|]; intros _; destruct z; [by inversion H2|by apply H3].
Qed.

Lemma focus_plug F s0 s z t : focus F s0 s z t <-> focus F s0 s [] (plug z t).
Proof.
  revert t. induction z as [|[p c k v r|p c l k v] z IH]; intros t; cbn [plug fill]; [done|..].
  - by rewrite <- IH, focus_left.
  - by rewrite <- IH, focus_right.
Qed.

(** ** Left links *)

(** [q] is the left child of [m]. *)
Fixpoint left_of (m q : ptr) (t : tree V) : Prop :=
  match t with
  | Leaf => False
  | T p _ l _ _ r => (p = m /\ root l = Some q) \/ left_of m q l \/ left_of m q r
  end.

Lemma left_of_plug_same m q z t t' :
  root t = root t' -> (left_of m q t -> left_of m q t') ->
  left_of m q (plug z t) -> left_of m q (plug z t').
Proof.
  revert t t'. induction z as [|[p c k v r|p c l k v] z IH]; intros t t' Hroot Hmono; cbn [plug].
  - done.
  - apply IH; [done|]. cbn. rewrite Hroot. tauto.
  - apply IH; [done|]. cbn. tauto.
Qed.

Lemma left_of_plug m q z t t' :
  root t <> Some q -> (left_of m q t -> left_of m q t') ->
  left_of m q (plug z t) -> left_of m q (plug z t').
Proof.
  intros Hne Hmono. destruct z as [|[p c k v r|p c l k v] z]; cbn [plug]; [done|..].
  - apply left_of_plug_same; [done|]. cbn. tauto.
  - apply left_of_plug_same; [done|]. cbn. tauto.
Qed.

Definition all_left (z : list (frame V)) : Prop :=
  Forall (fun f => match f with InLeft _ _ _ _ _ => True | InRight _ _ _ _ _ => False end) z.
Definition addrs (t : tree V) : list ptr := (elements t).*1.*1.

End invariant.

(** Reads through the tree of a focus. *)
Ltac look H :=
  let H' := fresh in pose proof H as H'; unfold focus in H';
  cbn [cells root app] in H'; spread_in H'; repeat read H'; clear H'.

(** A colour at the node [H] is focused on, a rotation there. *)
Ltac recolor H :=
  lazymatch type of H with focus _ _ ?s _ _ =>
  match goal with |- context [set_color s (Some _) ?c] =>
    let s' := fresh s in let H' := fresh in let E := fresh in
    destruct (focus_color _ _ s _ _ _ c _ _ _ _ H) as (s' & E & H'); rewrite E; clear E H; rename H' into H
  end end; run.
Ltac rotate H :=
  let s' := fresh "s" in let H' := fresh in let E := fresh in
  lazymatch type of H with focus _ _ ?s0 _ _ =>
  lazymatch goal with
  | |- context [rotate_left s0 _] => destruct (rotate_left_focus _ _ _ _ _ _ _ _ _ _ _ _ _ _ _ H) as (s' & E & H')
  | |- context [rotate_right s0 _] => destruct (rotate_right_focus _ _ _ _ _ _ _ _ _ _ _ _ _ _ _ H) as (s' & E & H')
  end end; rewrite E; clear E H; rename H' into H; run.

Section insert.
Context {V : Type}.
Implicit Types (s : RedBlackTree V) (n h : nat) (t l r : tree V) (z : list (frame V))
  (L F : list (ptr * Node V)) (p q : ptr) (f g : frame V).

(** ** One round of the fixups *)

Definition blacken (t : tree V) : tree V :=
  match t with Leaf => Leaf | T p _ l k v r => T p Black l k v r end.
Definition blacken_frame (f : frame V) : frame V :=
  match f with
  | InLeft p _ k v r => InLeft p Black k v r
  | InRight p _ l k v => InRight p Black l k v
  end.

Definition is_red_tree (t : tree V) : bool := match t with T _ Red _ _ _ _ => true | _ => false end.

(** What a round makes of the subtree of the grandparent [g], where [f] is the parent of
    [t]; and whether the loop goes on from there. *)
Definition fixup (f g : frame V) (t : tree V) : bool * tree V :=
  match g with
  | InRight gp _ gl gk gv =>
      if is_red_tree gl then (true, T gp Red (blacken gl) gk gv (fill (blacken_frame f) t))
      else
        match f, t with
        | InLeft p _ k v r, T x _ xl xk xv xr =>
            (false, T x Black (T gp Red gl gk gv xl) xk xv (T p Red xr k v r))
        | InRight p _ l k v, _ => (false, T p Black (T gp Red gl gk gv l) k v t)
        | _, Leaf => (false, Leaf)
        end
  | InLeft gp _ gk gv gr =>
      if is_red_tree gr then (true, T gp Red (fill (blacken_frame f) t) gk gv (blacken gr))
      else
        match f, t with
        | InRight p _ l k v, T x _ xl xk xv xr =>
            (false, T x Black (T p Red l k v xl) xk xv (T gp Red xr gk gv gr))
        | InLeft p _ k v r, _ => (false, T p Black t k v (T gp Red r gk gv gr))
        | _, Leaf => (false, Leaf)
        end
  end.

Definition frame_color (f : frame V) : Color :=
  match f with InLeft _ c _ _ _ => c | InRight _ c _ _ _ => c end.

Lemma roots_differ F s0 s z p c l k v r q :
  focus F s0 s z (T p c l k v r) -> root l = Some q -> root r = Some q -> False.
Proof.
  intros [[Hnd _] _] Hl Hr. cbn [cells app] in Hnd. rewrite fmap_cons, !fmap_app in Hnd.
  apply NoDup_cons in Hnd as [_ Hnd]. apply NoDup_app in Hnd as [Hnd _].
  apply NoDup_app in Hnd as (_ & Hdis & _).
  apply (Hdis q); by apply root_cells.
Qed.

Lemma insert_fixups_stops F s0 s fuel z x c l k v r :
  focus F s0 s z (T x c l k v r) -> match z with [] => True | f :: _ => frame_color f = Black end ->
  insert_fixups_loop (S fuel) s (Some x) = Ret s.
Proof.
  intros H Hc. cbn [insert_fixups_loop]. destruct z as [|[p c' k' v' r'|p c' l' k' v'] z].
  - look H. done.
  - rewrite <- focus_left in H. cbn in Hc. subst c'. look H. unfold is_red. look H. done.
  - rewrite <- focus_right in H. cbn in Hc. subst c'. look H. unfold is_red. look H. done.
Qed.

Lemma is_red_focus F s0 s z t : focus F s0 s z t -> is_red s (root t) = Ret (is_red_tree t).
Proof.
  intros H. destruct t as [|p c l k v r]; [done|]. cbn [root is_red_tree]. unfold is_red. cbn [is_null].
  look H. by destruct c.
Qed.

Lemma is_red_left F s0 s z p c l k v r : focus F s0 s z (T p c l k v r) -> is_red s (root l) = Ret (is_red_tree l).
Proof. intros H. rewrite focus_left in H. by eapply is_red_focus. Qed.
Lemma is_red_right F s0 s z p c l k v r : focus F s0 s z (T p c l k v r) -> is_red s (root r) = Ret (is_red_tree r).
Proof. intros H. rewrite focus_right in H. by eapply is_red_focus. Qed.

(** [bool_decide] on two links that differ because [H] owns both. *)
Ltac differ H :=
  rewrite bool_decide_false
    by (intros ?; eapply (roots_differ _ _ _ _ _ _ _ _ _ _ _ H); [done || reflexivity|done || reflexivity]).
Ltac same := rewrite bool_decide_true by done.

(** The links of the parent and the grandparent, where [E] says that the parent is red. *)
Ltac enter_round H E := look H; rewrite E; run; cbn [negb]; look H.

(** A round where the parent is the left child of the grandparent. *)
Lemma insert_fixups_round_left F s0 s fuel z f gp gk gv u x xl xk xv xr :
  let t := T x Red xl xk xv xr in
  let g := InLeft gp Black gk gv u in
  frame_color f = Red -> focus F s0 s (f :: g :: z) t ->
  exists s', focus F s0 s' z (fixup f g t).2 /\
    insert_fixups_loop (S (S fuel)) s (Some x) =
    if (fixup f g t).1 then insert_fixups_loop (S fuel) s' (Some gp) else Ret s'.
Proof.
  intros t g Hf H. subst t g. remember (S fuel) as fuel1 eqn:Efuel. cbn [insert_fixups_loop].
  destruct f as [p c k v r|p c l k v]; cbn in Hf; subst c;
    rewrite <- ?focus_left, <- ?focus_right, <- ?focus_left in H;
    pose proof (is_red_left _ _ _ _ _ _ _ _ _ _ H) as E; cbn [root is_red_tree] in E;
    enter_round H E; differ H; rewrite (is_red_right _ _ _ _ _ _ _ _ _ _ H); run; cbn [fixup];
    (destruct (is_red_tree u) eqn:Eu; cbn [fst snd];
     [destruct u as [|u [] ul uk uv ur]; [done| |done]; cbn [blacken fill blacken_frame root];
      rewrite focus_left in H; recolor H; rewrite <- focus_left, focus_right in H; recolor H;
      rewrite <- focus_right in H; recolor H; eexists; split; [exact H|reflexivity]|]).
  - rewrite focus_left in H. differ H. rewrite <- focus_left in H. run. look H.
    rewrite focus_left in H. recolor H. rewrite <- focus_left in H. recolor H. rotate H.
    eexists. split; [exact H|]. rewrite focus_left in H. subst fuel1.
    by apply (insert_fixups_stops _ _ _ _ _ _ _ _ _ _ _ H).
  - same. rewrite focus_left in H. rotate H. rewrite <- focus_left in H. look H.
    rewrite focus_left in H. recolor H. rewrite <- focus_left in H. recolor H. rotate H.
    eexists. split; [exact H|]. rewrite focus_left in H. subst fuel1.
    by apply (insert_fixups_stops _ _ _ _ _ _ _ _ _ _ _ H).
Qed.

(** A round where the parent is the right child of the grandparent. *)
Lemma insert_fixups_round_right F s0 s fuel z f gp gk gv u x xl xk xv xr :
  let t := T x Red xl xk xv xr in
  let g := InRight gp Black u gk gv in
  frame_color f = Red -> focus F s0 s (f :: g :: z) t ->
  exists s', focus F s0 s' z (fixup f g t).2 /\
    insert_fixups_loop (S (S fuel)) s (Some x) =
    if (fixup f g t).1 then insert_fixups_loop (S fuel) s' (Some gp) else Ret s'.
Proof.
  intros t g Hf H. subst t g. remember (S fuel) as fuel1 eqn:Efuel. cbn [insert_fixups_loop].
  destruct f as [p c k v r|p c l k v]; cbn in Hf; subst c;
    rewrite <- ?focus_left, <- ?focus_right, <- ?focus_left in H;
    pose proof (is_red_right _ _ _ _ _ _ _ _ _ _ H) as E; cbn [root is_red_tree] in E;
    enter_round H E; same; rewrite (is_red_left _ _ _ _ _ _ _ _ _ _ H); run; cbn [fixup];
    (destruct (is_red_tree u) eqn:Eu; cbn [fst snd];
     [destruct u as [|u [] ul uk uv ur]; [done| |done]; cbn [blacken fill blacken_frame root];
      rewrite focus_right in H; recolor H; rewrite <- focus_right, focus_left in H; recolor H;
      rewrite <- focus_left in H; recolor H; eexists; split; [exact H|reflexivity]|]).
  - same. rewrite focus_right in H. rotate H. rewrite <- focus_right in H. look H.
    rewrite focus_right in H. recolor H. rewrite <- focus_right in H. recolor H. rotate H.
    eexists. split; [exact H|]. rewrite focus_right in H. subst fuel1.
    by apply (insert_fixups_stops _ _ _ _ _ _ _ _ _ _ _ H).
  - rewrite focus_right in H. differ H. rewrite <- focus_right in H. run. look H.
    rewrite focus_right in H. recolor H. rewrite <- focus_right in H. recolor H. rotate H.
    eexists. split; [exact H|]. rewrite focus_right in H. subst fuel1.
    by apply (insert_fixups_stops _ _ _ _ _ _ _ _ _ _ _ H).
Qed.

(** ** The invariants through a round *)

Lemma is_red_tree_rbt c n t : rbt c n t -> is_red_tree t = bool_decide (c = Red).
Proof. by destruct 1. Qed.

Lemma rbt_not_red c n t : rbt c n t -> is_red_tree t = false -> rbt Black n t.
Proof. intros H. rewrite (is_red_tree_rbt _ _ _ H). by destruct c. Qed.

Lemma rbt_blacken n t : rbt Red n t -> rbt Black (S n) (blacken t).
Proof. inversion 1; subst. by econstructor. Qed.

Lemma rbt_red_inv n t : rbt Red n t -> exists x xl xk xv xr, t = T x Red xl xk xv xr /\ rbt Black n xl /\ rbt Black n xr.
Proof. inversion 1; subst. by repeat eexists. Qed.

Lemma fixup_rbt n f g t z :
  rbpath Red n (f :: g :: z) -> rbt Red n t ->
  frame_color f = Red /\ frame_color g = Black /\
  (exists c', rbpath c' (S n) z) /\
  rbt (if (fixup f g t).1 then Red else Black) (S n) (fixup f g t).2.
Proof.
  intros Hz Ht. apply rbt_red_inv in Ht as (x & xl & xk & xv & xr & -> & Hxl & Hxr).
  inversion Hz as [|? ? ? ? ? ? ? Hr Hg| |? ? ? ? ? ? ? Hr Hg|]; subst;
    inversion Hg as [| |? c1 c2 ? ? ? u ? Hu Hz'| |? c1 c2 ? u ? ? ? Hu Hz']; subst;
    (split; [done|]; split; [done|]; split; [by eexists|]);
    cbn [fixup]; destruct (is_red_tree u) eqn:Eu; cbn [fst snd fill blacken_frame];
    rewrite (is_red_tree_rbt _ _ _ Hu) in Eu;
    repeat econstructor; try done; destruct c1; try done; by apply rbt_blacken.
Qed.

Lemma elements_blacken t : elements (blacken t) = elements t.
Proof. by destruct t. Qed.

Lemma fixup_elements f g t : t <> Leaf -> elements (fixup f g t).2 = elements (fill g (fill f t)).
Proof.
  intros Ht. destruct t as [|x c xl xk xv xr]; [done|].
  destruct f, g; cbn [fixup]; case_match; cbn [snd fill blacken_frame elements];
    rewrite ?elements_blacken, <- ?app_assoc; cbn [app]; rewrite <- ?app_assoc; done.
Qed.

Lemma fixup_left_of m q p c k v r gp c' gk gv gr t :
  gp <> q -> p <> q ->
  left_of m q (T gp c' (T p c t k v r) gk gv gr) ->
  left_of m q (fixup (InLeft p c k v r) (InLeft gp c' gk gv gr) t).2.
Proof.
  intros Hgp Hp. cbn [fixup]. destruct (is_red_tree gr); cbn [fst snd fill blacken_frame].
  - destruct gr; cbn; tauto.
  - destruct t; cbn; intuition congruence.
Qed.

(** The addresses of the path are not those of the subtree. *)
Lemma focus_path_addr F s0 s f z t q : focus F s0 s (f :: z) t -> q ∈ addrs t -> frame_ptr f <> q.
Proof.
  intros [[Hnd _] _] Hq <-. unfold addrs in Hq. rewrite (elements_cells (up None (f :: z))) in Hq.
  rewrite !fmap_app in Hnd. apply NoDup_app in Hnd as (_ & Hdis & _). apply (Hdis _ Hq).
  rewrite elem_of_app. left. destruct f; left.
Qed.

Lemma fixup_root f g t : (fixup f g t).1 = true -> root (fixup f g t).2 = Some (frame_ptr g).
Proof. destruct f, g, t; cbn [fixup]; by case_match. Qed.

Lemma insert_fixups_round F s0 s fuel z f g t x n :
  rbt Red n t -> root t = Some x -> frame_color f = Red -> frame_color g = Black ->
  focus F s0 s (f :: g :: z) t ->
  exists s', focus F s0 s' z (fixup f g t).2 /\
    insert_fixups_loop (S (S fuel)) s (Some x) =
    if (fixup f g t).1 then insert_fixups_loop (S fuel) s' (Some (frame_ptr g)) else Ret s'.
Proof.
  intros Ht Hx Hf Hg H. destruct (rbt_red_inv _ _ Ht) as (x' & xl & xk & xv & xr & -> & _ & _).
  injection Hx as ->. destruct g; cbn in Hg; subst c.
  - by apply insert_fixups_round_left.
  - by apply insert_fixups_round_right.
Qed.

Lemma fixup_addrs f g t q : t <> Leaf -> q ∈ addrs t -> q ∈ addrs (fixup f g t).2.
Proof.
  intros Ht. unfold addrs. rewrite fixup_elements by done.
  change (fill g (fill f t)) with (plug [f; g] t). rewrite elements_plug, !fmap_app, !elem_of_app. tauto.
Qed.

Lemma fixup_plug_left_of F s0 s f g z t m q :
  focus F s0 s (f :: g :: z) t -> all_left (f :: g :: z) -> q ∈ addrs t ->
  left_of m q (plug (f :: g :: z) t) -> left_of m q (plug z (fixup f g t).2).
Proof.
  intros Hs Hall Hq. apply Forall_cons in Hall as [Hfl Hall]. apply Forall_cons in Hall as [Hgl _].
  destruct f as [p c k v r|], g as [gp gc gk gv gr|]; [|done..]. cbn [plug fill].
  pose proof (focus_path_addr _ _ _ _ _ _ _ Hs Hq) as Hp. rewrite <- focus_left in Hs.
  assert (q ∈ addrs (T p c t k v r)) as Hq'.
  { unfold addrs in *. cbn. rewrite !fmap_app, elem_of_app. by left. }
  pose proof (focus_path_addr _ _ _ _ _ _ _ Hs Hq') as Hgp. cbn in Hp, Hgp.
  apply left_of_plug; [cbn; congruence|]. by apply fixup_left_of.
Qed.

Lemma insert_fixups_loop_spec F s0 fuel s z t x c n :
  rbpath c n z -> rbt Red n t -> root t = Some x -> focus F s0 s z t -> (length z < fuel)%nat ->
  exists s' t' c' n', insert_fixups_loop fuel s (Some x) = Ret s' /\ focus F s0 s' [] t' /\
    rbt c' n' t' /\ elements t' = elements (plug z t) /\
    (forall m q, all_left z -> q ∈ addrs t -> left_of m q (plug z t) -> left_of m q t').
Proof.
  revert s z t x c n. induction fuel as [fuel IH] using lt_wf_ind.
  intros s z t x c n Hz Ht Hx Hs Hfuel. destruct c.
  - destruct z as [|f [|g z]]; [by inversion Hz|by inversion Hz|].
    destruct (fixup_rbt _ _ _ _ _ Hz Ht) as (Hf & Hg & [c' Hz'] & Ht').
    destruct fuel as [|[|fuel]]; [cbn in Hfuel; lia..|].
    destruct (insert_fixups_round F s0 s fuel z f g t x n Ht Hx Hf Hg Hs) as (s1 & Hs1 & ->).
    assert (elements (fixup f g t).2 = elements (fill g (fill f t))) as Hel.
    { apply fixup_elements. by destruct t. }
    assert (t <> Leaf) as Hne by (by destruct t).
    pose proof (fixup_plug_left_of F s0 s f g z t) as Hleft. pose proof (fixup_addrs f g t) as Haddr.
    destruct (fixup f g t) as [[] t1] eqn:Efix; cbn [fst snd] in *.
    + destruct (IH (S fuel) ltac:(lia) s1 z t1 (frame_ptr g) c' (S n)) as (s' & t' & c2 & n2 & -> & H1 & H2 & H3 & H4);
        [done|done| |done|cbn in Hfuel; lia|].
      { pose proof (fixup_root f g t) as Hr. rewrite Efix in Hr. by apply Hr. }
      exists s', t', c2, n2. split_and!; [done..| |].
      * cbn [plug]. by rewrite H3, !elements_plug, Hel.
      * intros m q Hall Hq Hl. apply H4; [|by apply Haddr|by apply (Hleft m q)].
        apply Forall_cons in Hall as [_ Hall]. by apply Forall_cons in Hall as [_ Hall].
    + destruct (rbt_plug z t1 c' Black (S n)) as (c2 & n2 & H2 & _); [done|done|done|].
      exists s1, (plug z t1), c2, n2. split_and!; [done|by rewrite <- focus_plug|done| |by intros m q; apply Hleft].
      cbn [plug]. by rewrite !elements_plug, Hel.
  - destruct (rbt_red_inv _ _ Ht) as (x' & xl & xk & xv & xr & -> & _ & _). injection Hx as ->.
    destruct fuel as [|fuel]; [lia|].
    destruct (rbt_plug z _ _ _ n Hz Ht) as (c2 & n2 & H2 & _); [done|].
    eexists s, (plug z _), c2, n2. split_and!; [|by rewrite <- focus_plug|done|done|done].
    apply (insert_fixups_stops F s0 s fuel z x Red xl xk xv xr Hs). destruct z as [|f z]; [done|].
    by inversion Hz.
Qed.
End insert.

(** ** Walking *)

Section walk.
Context {V : Type}.
Implicit Types (s : RedBlackTree V) (n h : nat) (t l r : tree V) (z : list (frame V))
  (L F : list (ptr * Node V)) (p q : ptr) (f g : frame V).

Definition path_length (z : list (frame V)) : nat := length (before z ++ after z).

Lemma path_length_cons f z : (length z <= path_length z -> length (f :: z) <= path_length (f :: z))%nat.
Proof. unfold path_length. destruct f; cbn; rewrite ?length_app; cbn; rewrite ?length_app; cbn; lia. Qed.

Lemma length_path z : (length z <= path_length z)%nat.
Proof. induction z; [done|]. by apply path_length_cons. Qed.

(** A tree has at most as many nodes as the memory. *)
Lemma owns_size s L : owns s L -> (length L <= size (m_nodes s))%nat.
Proof.
  intros [Hnd Hall]. rewrite <- (length_fmap fst), <- (size_list_to_set (C := gset ptr)) by done.
  rewrite <- size_dom. apply subseteq_size. intros q Hq. apply elem_of_list_to_set in Hq.
  apply list_elem_of_fmap in Hq as (x & -> & Hx). rewrite Forall_forall in Hall.
  apply elem_of_dom. rewrite (Hall x Hx). by eexists.
Qed.

Lemma length_cells par t : length (cells par t) = length (elements t).
Proof. rewrite <- (length_fmap fst), <- elements_cells. by rewrite !length_fmap. Qed.

Lemma focus_size_frame F s0 s z t :
  focus F s0 s z t -> (length (elements t) + path_length z + length F <= size (m_nodes s))%nat.
Proof.
  rewrite focus_plug. intros [H _]. apply owns_size in H. cbn [path_cells app] in H.
  rewrite length_app, length_cells, elements_plug in H. unfold path_length. rewrite !length_app in *. lia.
Qed.

Lemma focus_size F s0 s z t :
  focus F s0 s z t -> (length (elements t) + path_length z <= size (m_nodes s))%nat.
Proof. intros H%focus_size_frame. lia. Qed.

Definition first (xs : list (ptr * Z * V)) : link := head xs.*1.*1.
Definition final (xs : list (ptr * Z * V)) : link := last xs.*1.*1.

Lemma first_app (xs ys : list (ptr * Z * V)) : xs <> [] -> first (xs ++ ys) = first xs.
Proof. by destruct xs. Qed.

Lemma final_app (xs ys : list (ptr * Z * V)) : ys <> [] -> final (xs ++ ys) = final ys.
Proof.
  intros Hy. unfold final. rewrite !fmap_app, last_app. destruct (last ys.*1.*1) eqn:E; [done|].
  apply last_None in E. by destruct ys.
Qed.

Lemma elements_ne t : t <> Leaf -> elements t <> [].
Proof. destruct t as [|p c l k v r]; [done|]. cbn. by destruct (elements l). Qed.

Lemma leftmost_loop_spec F s0 fuel s z t :
  focus F s0 s z t -> t <> Leaf -> (length (elements t) < fuel)%nat ->
  leftmost_loop fuel s (root t) = Ret (first (elements t)).
Proof.
  revert z t. induction fuel as [|fuel IH]; intros z t H Ht Hfuel; [lia|].
  destruct t as [|p c l k v r]; [done|]. cbn [leftmost_loop root]. look H.
  destruct l as [|p' c' l' k' v' r'] eqn:El; [done|]. rewrite focus_left in H. cbn [root is_null].
  change (Some p') with (root (T p' c' l' k' v' r')). rewrite (IH _ _ H); [|done|].
  - cbn [elements]. rewrite (first_app (_ ++ _)); [done|]. by apply (elements_ne (T p' c' l' k' v' r')).
  - cbn [elements] in Hfuel |- *. rewrite length_app in Hfuel. cbn in Hfuel. lia.
Qed.

Lemma rightmost_loop_spec F s0 fuel s z t :
  focus F s0 s z t -> t <> Leaf -> (length (elements t) < fuel)%nat ->
  rightmost_loop fuel s (root t) = Ret (final (elements t)).
Proof.
  revert z t. induction fuel as [|fuel IH]; intros z t H Ht Hfuel; [lia|].
  destruct t as [|p c l k v r]; [done|]. cbn [rightmost_loop root]. look H. cbn [elements].
  rewrite (final_app (elements l)) by done.
  destruct r as [|p' c' l' k' v' r'] eqn:Er; [done|]. rewrite focus_right in H. cbn [root is_null].
  change (Some p') with (root (T p' c' l' k' v' r')). rewrite (IH _ _ H); [|done|].
  - f_equal. symmetry. apply (final_app [_]). by apply (elements_ne (T p' c' l' k' v' r')).
  - cbn [elements] in Hfuel |- *. rewrite length_app in Hfuel. cbn in Hfuel. lia.
Qed.

Lemma up_from_left_spec F s0 fuel s z t p :
  focus F s0 s z t -> root t = Some p -> (length z < fuel)%nat ->
  up_from_left_loop fuel s (Some p) (up None z) = Ret (final (before z)).
Proof.
  revert z t p. induction fuel as [|fuel IH]; intros z t p H Hp Hfuel; [lia|]. cbn [up_from_left_loop].
  destruct z as [|[q c k v r|q c l k v] z]; cbn [up frame_ptr is_null before]; [done|..].
  - rewrite <- focus_left in H. look H. rewrite bool_decide_true by done.
    apply (IH _ _ _ H); [done|cbn in Hfuel; lia].
  - rewrite <- focus_right in H. look H. rewrite bool_decide_false.
    + by rewrite app_assoc, final_app.
    + intros Hl. by eapply (roots_differ _ _ _ _ _ _ _ _ _ _ _ H).
Qed.

Lemma up_from_right_spec F s0 fuel s z t p :
  focus F s0 s z t -> root t = Some p -> (length z < fuel)%nat ->
  up_from_right_loop fuel s (Some p) (up None z) = Ret (first (after z)).
Proof.
  revert z t p. induction fuel as [|fuel IH]; intros z t p H Hp Hfuel; [lia|]. cbn [up_from_right_loop].
  destruct z as [|[q c k v r|q c l k v] z]; cbn [up frame_ptr is_null after]; [done|..].
  - rewrite <- focus_left in H. look H. rewrite bool_decide_false; [done|].
    intros Hr. by eapply (roots_differ _ _ _ _ _ _ _ _ _ _ _ H).
  - rewrite <- focus_right in H. look H. rewrite bool_decide_true by done.
    apply (IH _ _ _ H); [done|cbn in Hfuel; lia].
Qed.

(** [successor] and [predecessor] are the neighbours in the order of the elements. *)
Lemma successor_spec F s0 s z p c l k v r :
  focus F s0 s z (T p c l k v r) -> successor s (Some p) = Ret (first (elements r ++ after z)).
Proof.
  intros H. pose proof (focus_size _ _ _ _ _ H) as Hsize. pose proof (length_path z).
  unfold successor. cbn [is_null negb VERIFY]. run. look H. cbn [elements] in Hsize.
  rewrite length_app in Hsize. cbn in Hsize. destruct r as [|p' c' l' k' v' r'] eqn:Er.
  - cbn [root is_null negb elements app]. apply (up_from_right_spec _ _ _ _ _ _ _ H); [done|]. unfold walk_fuel. lia.
  - rewrite <- Er in *. replace (negb (is_null (root r))) with true by (by subst r). cbn iota.
    rewrite focus_right in H. rewrite (leftmost_loop_spec _ _ _ _ _ _ H); [|by subst r|unfold walk_fuel; lia].
    by rewrite first_app by (apply elements_ne; by subst r).
Qed.

Lemma predecessor_spec F s0 s z p c l k v r :
  focus F s0 s z (T p c l k v r) -> predecessor s (Some p) = Ret (final (before z ++ elements l)).
Proof.
  intros H. pose proof (focus_size _ _ _ _ _ H) as Hsize. pose proof (length_path z).
  unfold predecessor. cbn [is_null negb VERIFY]. run. look H. cbn [elements] in Hsize.
  rewrite length_app in Hsize. cbn in Hsize. destruct l as [|p' c' l' k' v' r'] eqn:El.
  - cbn [root is_null negb elements]. rewrite app_nil_r.
    apply (up_from_left_spec _ _ _ _ _ _ _ H); [done|]. unfold walk_fuel. lia.
  - rewrite <- El in *. replace (negb (is_null (root l))) with true by (by subst l). cbn iota.
    rewrite focus_left in H. rewrite (rightmost_loop_spec _ _ _ _ _ _ H); [|by subst l|unfold walk_fuel; lia].
    by rewrite final_app by (apply elements_ne; by subst l).
Qed.
End walk.

(** ** Searching *)

Section search.
Context {V : Type}.
Implicit Types (s : RedBlackTree V) (n h : nat) (t l r : tree V) (z : list (frame V))
  (L F : list (ptr * Node V)) (p q : ptr) (f g : frame V) (x y : ptr * Z * V).

Definition key_of (x : ptr * Z * V) : Z := x.1.2.
Definition sorted (xs : list (ptr * Z * V)) : Prop := StronglySorted (fun x y => key_of x <= key_of y) xs.

Lemma sorted_app xs ys :
  sorted (xs ++ ys) <-> sorted xs /\ sorted ys /\ forall x y, x ∈ xs -> y ∈ ys -> key_of x <= key_of y.
Proof.
  induction xs as [|x xs IH]; cbn.
  - split; [|by intros (_ & ? & _)]. intros H. split_and!; [constructor|done|]. intros x y Hx. by apply elem_of_nil in Hx.
  - split.
    + intros H. apply StronglySorted_inv in H as [H Hx]. apply IH in H as (H1 & H2 & H3).
      rewrite Forall_app in Hx. destruct Hx as [Hx1 Hx2]. split_and!; [by constructor|done|].
      intros a b Ha Hb. apply elem_of_cons in Ha as [->|Ha]; [|by apply H3].
      rewrite Forall_forall in Hx2. by apply Hx2.
    + intros (H1 & H2 & H3). apply StronglySorted_inv in H1 as [H1 Hx].
      constructor; [apply IH; split_and!; [done..|]|].
      * intros a b Ha Hb. apply H3; [by right|done].
      * rewrite Forall_app. split; [done|]. rewrite Forall_forall. intros b Hb. apply H3; [left|done].
Qed.

Lemma sorted_node p c l k v r :
  sorted (elements (T p c l k v r)) ->
  sorted (elements l) /\ sorted (elements r) /\
  (forall x, x ∈ elements l -> key_of x <= k) /\ (forall x, x ∈ elements r -> k <= key_of x).
Proof.
  cbn [elements]. rewrite sorted_app. intros (H1 & H2 & H3). apply StronglySorted_inv in H2 as [H2 H4].
  rewrite Forall_forall in H4. split_and!; [done..| |by apply H4].
  intros x Hx. apply (H3 x (p, k, v) Hx). left.
Qed.

Lemma rb_sorted_insert xs ys (a : ptr * Z * V) :
  sorted (xs ++ ys) -> (forall x, x ∈ xs -> key_of x <= key_of a) ->
  (forall y, y ∈ ys -> key_of a < key_of y) -> sorted (xs ++ a :: ys).
Proof.
  rewrite !sorted_app. intros (H1 & H2 & H3) Hx Hy. split_and!; [done| |].
  - constructor; [done|]. rewrite Forall_forall. intros y Hin. specialize (Hy y Hin). lia.
  - intros x y Hin. rewrite elem_of_cons. intros [->|Hy']; [by apply Hx|by apply H3].
Qed.

Lemma find_loop_spec F s0 fuel s z t k :
  focus F s0 s z t -> sorted (elements t) -> (length (elements t) < fuel)%nat ->
  exists res, find_loop fuel s (root t) k = Ret res /\
    match res with
    | Some p => exists v, (p, k, v) ∈ elements t
    | None => forall x, x ∈ elements t -> key_of x <> k
    end.
Proof.
  revert z t. induction fuel as [|fuel IH]; intros z t H Hsort Hfuel; [lia|].
  destruct t as [|p c l k' v r]; [exists None; split; [done|]; intros x Hx; by apply elem_of_nil in Hx|].
  apply sorted_node in Hsort as (Hl & Hr & Hlk & Hrk). cbn [find_loop root is_null]. look H.
  cbn [elements] in Hfuel |- *. rewrite length_app in Hfuel. cbn in Hfuel.
  destruct (Z.eqb_spec k' k) as [->|Hne]; [exists (Some p); split; [done|]; exists v; set_solver|].
  destruct (Z.ltb_spec k k'); run.
  - rewrite focus_left in H. destruct (IH _ _ H Hl) as (res & -> & Hres); [lia|]. exists res. split; [done|].
    destruct res as [q|]; [destruct Hres as [v' Hv]; exists v'; set_solver|].
    intros x. rewrite elem_of_app, elem_of_cons. intros [Hx|[->|Hx]]; [by apply Hres|done|].
    specialize (Hrk x Hx). lia.
  - rewrite focus_right in H. destruct (IH _ _ H Hr) as (res & -> & Hres); [lia|]. exists res. split; [done|].
    destruct res as [q|]; [destruct Hres as [v' Hv]; exists v'; set_solver|].
    intros x. rewrite elem_of_app, elem_of_cons. intros [Hx|[->|Hx]]; [|done|by apply Hres].
    specialize (Hlk x Hx). lia.
Qed.

(** The largest key not above [k]. *)
Definition largest_not_above (k : Z) (xs : list (ptr * Z * V)) (res : link) : Prop :=
  exists p k' v, res = Some p /\ (p, k', v) ∈ xs /\ k' <= k /\
                 forall x, x ∈ xs -> key_of x <= k -> key_of x <= k'.

Lemma find_largest_loop_spec F s0 fuel s z t candidate k :
  focus F s0 s z t -> sorted (elements t) -> (length (elements t) < fuel)%nat ->
  exists res, find_largest_loop fuel s (root t) candidate k = Ret res /\
    (largest_not_above k (elements t) res \/ res = candidate /\ forall x, x ∈ elements t -> k < key_of x).
Proof.
  revert z t candidate. induction fuel as [|fuel IH]; intros z t candidate H Hsort Hfuel; [lia|].
  destruct t as [|p c l k' v r].
  { exists candidate. split; [done|]. right. split; [done|]. intros x Hx. by apply elem_of_nil in Hx. }
  apply sorted_node in Hsort as (Hl & Hr & Hlk & Hrk). cbn [find_largest_loop root is_null]. look H.
  cbn [elements] in Hfuel |- *. rewrite length_app in Hfuel. cbn in Hfuel.
  assert (k' <= k -> (forall x, x ∈ elements r -> k < key_of x \/ key_of x <= k') ->
    largest_not_above k (elements l ++ (p, k', v) :: elements r) (Some p)) as Hhere.
  { intros Hk Hright. exists p, k', v. split_and!; [done|rewrite elem_of_app, elem_of_cons; tauto|done|].
    intros x. rewrite elem_of_app, elem_of_cons. intros [Hx|[->|Hx]] Hxk; [by apply Hlk|done|].
    destruct (Hright x Hx); lia. }
  destruct (Z.eqb_spec k k') as [->|Hne].
  { exists (Some p). split; [done|]. left. apply Hhere; [done|]. intros x Hx. specialize (Hrk x Hx). lia. }
  destruct (Z.ltb_spec k k').
  - rewrite focus_left in H. destruct (IH _ _ candidate H Hl) as (res & -> & Hres); [lia|]. exists res. split; [done|].
    destruct Hres as [(q & kq & vq & -> & Hq & Hqk & Hmax)|[-> Hall]].
    + left. exists q, kq, vq. split_and!; [done|rewrite elem_of_app; by left|done|].
      intros x. rewrite elem_of_app, elem_of_cons. intros [Hx|[->|Hx]] Hxk; [by apply Hmax|cbn in Hxk; lia|].
      specialize (Hrk x Hx). lia.
    + right. split; [done|]. intros x. rewrite elem_of_app, elem_of_cons.
      intros [Hx|[->|Hx]]; [by apply Hall|done|]. specialize (Hrk x Hx). lia.
  - rewrite focus_right in H. destruct (IH _ _ (Some p) H Hr) as (res & -> & Hres); [lia|]. exists res. split; [done|].
    left. destruct Hres as [(q & kq & vq & -> & Hq & Hqk & Hmax)|[-> Hall]].
    + exists q, kq, vq. split_and!; [done|rewrite elem_of_app, elem_of_cons; tauto|done|].
      intros x. rewrite elem_of_app, elem_of_cons. specialize (Hrk _ Hq).
      intros [Hx|[->|Hx]] Hxk; [specialize (Hlk x Hx)| |by apply Hmax]; unfold key_of in *; cbn in *; lia.
    + apply Hhere; [lia|]. intros x Hx. left. by apply Hall.
Qed.

Lemma insert_loop_spec F s0 fuel s z t k :
  focus F s0 s z t -> sorted (elements t) -> (length (elements t) < fuel)%nat ->
  (forall x, x ∈ before z -> key_of x <= k) -> (forall x, x ∈ after z -> k < key_of x) ->
  exists z', insert_loop fuel s k (up None z) (root t) = Ret (up None z') /\ plug z' Leaf = plug z t /\
    (forall x, x ∈ before z' -> key_of x <= k) /\ (forall x, x ∈ after z' -> k < key_of x).
Proof.
  revert z t. induction fuel as [|fuel IH]; intros z t H Hsort Hfuel Hb Ha; [lia|].
  destruct t as [|p c l k' v r]; [by exists z|].
  apply sorted_node in Hsort as (Hl & Hr & Hlk & Hrk). cbn [insert_loop root is_null]. look H.
  cbn [elements] in Hfuel. rewrite length_app in Hfuel. cbn in Hfuel.
  destruct (Z.ltb_spec k k'); run.
  - rewrite focus_left in H. apply (IH (InLeft p c k' v r :: z) l H Hl); [lia|done|].
    intros x. cbn [after]. rewrite elem_of_cons, elem_of_app.
    intros [->|[Hx|Hx]]; [done|specialize (Hrk x Hx); lia|by apply Ha].
  - rewrite focus_right in H. apply (IH (InRight p c l k' v :: z) r H Hr); [lia| |done].
    intros x. cbn [before]. rewrite !elem_of_app, list_elem_of_singleton.
    intros [Hx|[Hx| ->]]; [by apply Hb|specialize (Hlk x Hx); lia|done].
Qed.
End search.

(** ** Insertion *)

Section insertion.
Context {V : Type}.
Implicit Types (s : RedBlackTree V) (n h : nat) (t l r : tree V) (z : list (frame V))
  (L F : list (ptr * Node V)) (p q : ptr) (f g : frame V) (x y : ptr * Z * V).

(** A well-formed tree [s] that holds [t], in a memory that also holds [F]. *)
Record rb_ok F s t : Prop := {
  ok_focus : focus F s s [] t;
  ok_size : m_size s = Z.of_nat (length (elements t));
  ok_minimum : t <> Leaf -> m_minimum s = first (elements t);
  ok_sorted : sorted (elements t);
  ok_rbt : exists n, rbt Black n t
}.

Lemma rbt_unplug z t n0 :
  rbt Black n0 (plug z t) ->
  exists c c' n, rbpath c n z /\ rbt c' n t /\ (c = Red -> c' = Black).
Proof.
  revert t. induction z as [|f z IH]; intros t; cbn [plug].
  { intros H. exists Black, Black, n0. split_and!; [constructor|done|done]. }
  intros H. assert (z = [] -> rbt Black n0 (fill f t)) as Hroot by (by intros ->).
  destruct (IH _ H) as (c & c' & n & Hz & Ht & Hc). 
  destruct f; cbn [fill] in *; inversion Ht; subst.
  - destruct z as [|g z]; [specialize (Hroot eq_refl); by inversion Hroot|].
    destruct c; [by specialize (Hc eq_refl)|]. exists Red, Black, n. split_and!; [by constructor|done|done].
  - eexists Black, _, _. split_and!; [by econstructor|done|done].
  - destruct z as [|g z]; [specialize (Hroot eq_refl); by inversion Hroot|].
    destruct c; [by specialize (Hc eq_refl)|]. exists Red, Black, n. split_and!; [by constructor|done|done].
  - eexists Black, _, _. split_and!; [by econstructor|done|done].
Qed.

Lemma first_left_child F s0 s z t q :
  focus F s0 s z t -> first (elements t) = Some q -> left_child s (Some q) = Ret None.
Proof.
  revert z. induction t as [|p c l IH k v r _]; intros z H Hq; [done|].
  destruct l as [|p' c' l' k' v' r'] eqn:El.
  - injection Hq as <-. look H. done.
  - rewrite <- El in *. rewrite focus_left in H. apply (IH _ H).
    cbn [elements] in Hq. rewrite first_app in Hq; [done|]. apply elements_ne. by subst l.
Qed.

Lemma left_of_read F s0 s z t m q :
  focus F s0 s z t -> left_of m q t -> left_child s (Some m) = Ret (Some q).
Proof.
  revert z. induction t as [|p c l IHl k v r IHr]; intros z H Hq; [done|].
  destruct Hq as [[-> Hl]|[Hq|Hq]].
  - look H. by rewrite Hl.
  - rewrite focus_left in H. by apply (IHl _ H).
  - rewrite focus_right in H. by apply (IHr _ H).
Qed.

Lemma insert_fixups_spec F s0 s z p k v n0 :
  focus F s0 s z (T p Red Leaf k v Leaf) -> rbt Black n0 (plug z Leaf) ->
  exists s' t' n', insert_fixups s (Some p) = Ret s' /\ focus F s0 s' [] t' /\ rbt Black n' t' /\
    elements t' = elements (plug z (T p Red Leaf k v Leaf)) /\
    (forall m, all_left z -> left_of m p (plug z (T p Red Leaf k v Leaf)) -> left_of m p t').
Proof.
  intros H Hrb. destruct (rbt_unplug _ _ _ Hrb) as (c & c' & n & Hz & Hleaf & _).
  inversion Hleaf; subst. unfold insert_fixups. look H. rewrite bool_decide_true by done. cbn [VERIFY]. run.
  destruct (insert_fixups_loop_spec F s0 (walk_fuel s) s z (T p Red Leaf k v Leaf) p c 0)
    as (s1 & t1 & c1 & n1 & -> & H1 & Hrb1 & Hel & Hleft); [done|by repeat constructor|done|done| |].
  { pose proof (focus_size _ _ _ _ _ H) as Hsize. pose proof (length_path z). cbn in Hsize. unfold walk_fuel. lia. }
  run. assert (t1 <> Leaf) as Hne.
  { intros ->. rewrite elements_plug in Hel. by destruct (before z). }
  destruct t1 as [|p1 c1' l1 k1 v1 r1]; [done|]. pose proof H1 as (_ & Hroot & _). cbn in Hroot. rewrite Hroot.
  destruct (focus_color _ _ _ _ _ _ Black _ _ _ _ H1) as (s' & -> & H').
  exists s', (T p1 Black l1 k1 v1 r1). inversion Hrb1; subst.
  - exists (S n1). split_and!; [done..|by econstructor|done|]. intros m Hall Hl.
    specialize (Hleft m p Hall ltac:(left) Hl). cbn in Hleft |- *. tauto.
  - exists (S n). split_and!; [done..|]. intros m Hall Hl. apply (Hleft m p Hall ltac:(left) Hl).
Qed.

(** The new node becomes a child of the last node of the path. *)
Lemma insert_link F s0 s f z p k v :
  focus ((p, Node_new k v) :: F) s0 s (f :: z) Leaf ->
  (forall x, x ∈ before (f :: z) -> key_of x <= k) -> (forall x, x ∈ after (f :: z) -> k < key_of x) ->
  exists s1 s2 par_key, let par := Some (frame_ptr f) in
    key s par = Ret par_key /\
    (if k <? par_key then set_left_child s par (Some p) else set_right_child s par (Some p)) = Ret s1 /\
    set_parent s1 (Some p) par = Ret s2 /\ focus F s0 s2 (f :: z) (T p Red Leaf k v Leaf).
Proof.
  unfold focus. intros H Hb Ha.
  destruct f as [q c qk qv r|q c l qk qv]; cbn [cells path_cells root app frame_ptr top] in *.
  - assert (k < qk) by (apply (Ha (q, qk, qv)); left).
    assert (key s (Some q) = Ret qk) as Hkey by (by read H).
    destruct (set_left_child_owned _ _ s _ q _ (Some p) H) as (s1 & E1 & H1).
    spread_in H1. eapply (own_cell _ _ s1 _ p) in H1; [|extract_cell].
    destruct (set_parent_owned _ _ s1 _ p _ (Some q) H1) as (s2 & E2 & H2).
    exists s1, s2, qk. cbn zeta. split; [done|]. rewrite (proj2 (Z.ltb_lt _ _)) by lia. split; [done|].
    split; [done|]. eapply state_permutation; [exact H2|]. cbn. solve_permutation.
  - assert (qk <= k).
    { apply (Hb (q, qk, qv)). cbn. rewrite !elem_of_app, list_elem_of_singleton. tauto. }
    assert (key s (Some q) = Ret qk) as Hkey by (by read H).
    destruct (set_right_child_owned _ _ s _ q _ (Some p) H) as (s1 & E1 & H1).
    spread_in H1. eapply (own_cell _ _ s1 _ p) in H1; [|extract_cell].
    destruct (set_parent_owned _ _ s1 _ p _ (Some q) H1) as (s2 & E2 & H2).
    exists s1, s2, qk. cbn zeta. split; [done|]. rewrite (proj2 (Z.ltb_ge _ _)) by lia. split; [done|].
    split; [done|]. eapply state_permutation; [exact H2|]. cbn. solve_permutation.
Qed.

Lemma insert_rebalance F s0 s f z p k v n0 :
  focus F s0 s (f :: z) (T p Red Leaf k v Leaf) -> rbt Black n0 (plug (f :: z) Leaf) ->
  exists s' t' n',
    (q ← parent s (Some p); g ← parent s q; if negb (is_null g) then insert_fixups s (Some p) else Ret s) = Ret s' /\
    focus F s0 s' [] t' /\ rbt Black n' t' /\ elements t' = elements (plug (f :: z) (T p Red Leaf k v Leaf)) /\
    (forall m, all_left (f :: z) -> left_of m p (plug (f :: z) (T p Red Leaf k v Leaf)) -> left_of m p t').
Proof.
  intros H Hrb.
  assert (forall B (K : link -> outcome B), (q ← parent s (Some p); g ← parent s q; K g) = K (up None z)) as ->.
  { intros B K. destruct f; [rewrite <- focus_left in H|rewrite <- focus_right in H]; by look H. }
  destruct z as [|g z].
  - cbn [up is_null negb]. destruct (rbt_unplug _ _ _ Hrb) as (c & c' & n & Hz & Hleaf & _).
    inversion Hleaf; subst.
    destruct (rbt_plug [f] (T p Red Leaf k v Leaf) c Red 0 Hz) as (c2 & n2 & H2 & Hc2).
    { by repeat constructor. } { intros ->. by inversion Hz. }
    rewrite (Hc2 ltac:(done)) in H2. exists s, (plug [f] (T p Red Leaf k v Leaf)), n2.
    split_and!; [done|by rewrite <- focus_plug|done..].
  - cbn [up is_null negb]. by apply (insert_fixups_spec F s0 s (f :: g :: z) p k v n0).
Qed.

Lemma focus_meta F s0 s z t s' :
  focus F s0 s z t -> m_nodes s' = m_nodes s -> m_root s' = m_root s -> focus F s' s' z t.
Proof.
  intros ([Hnd Hall] & Hroot & _) Hn Hr. unfold focus, state, owns. rewrite Hn, Hr. done.
Qed.

Lemma insert_loop_root F s t k :
  focus F s s [] t -> sorted (elements t) ->
  exists z, insert_loop (walk_fuel s) s k None (m_root s) = Ret (up None z) /\ t = plug z Leaf /\
    (forall x, x ∈ before z -> key_of x <= k) /\ (forall x, x ∈ after z -> k < key_of x).
Proof.
  intros H Hsort. pose proof (focus_size _ _ _ _ _ H) as Hsize. pose proof H as (_ & -> & _).
  destruct (insert_loop_spec F s (walk_fuel s) s [] t k H Hsort) as (z & Hz & Hp & Hb & Ha).
  - unfold walk_fuel. lia.
  - intros x Hx. by apply elem_of_nil in Hx.
  - intros x Hx. by apply elem_of_nil in Hx.
  - exists z. by split; [|split; [symmetry|]].
Qed.

Lemma plug_ne z t : t <> Leaf -> plug z t <> Leaf.
Proof. revert t. induction z as [|f z IH]; intros t Ht; cbn [plug]; [done|]. apply IH. by destruct f. Qed.

Lemma first_ne t : t <> Leaf -> exists m, first (elements t) = Some m.
Proof. intros Ht%elements_ne. destruct (elements t) as [|x xs]; [done|]. by eexists. Qed.

Lemma before_nil_all_left z : before z = [] -> all_left z.
Proof.
  induction z as [|[p c k v r|p c l k v] z IH]; cbn; intros H; [constructor|..].
  - constructor; [done|]. by apply IH.
  - exfalso. destruct (before z); [|done]. by destruct (elements l).
Qed.

(** Whether the new node is the new minimum. *)
Lemma insert_minimum F s0 s f z p k v t' m :
  focus F s0 s [] t' -> elements t' = elements (plug (f :: z) (T p Red Leaf k v Leaf)) ->
  (forall m, all_left (f :: z) -> left_of m p (plug (f :: z) (T p Red Leaf k v Leaf)) -> left_of m p t') ->
  first (elements (plug (f :: z) Leaf)) = Some m ->
  exists l : link, left_child s (Some m) = Ret l /\
    (if bool_decide (l = Some p) then Some p else Some m) = first (elements t').
Proof.
  intros H Hel Hleft Hm. rewrite elements_plug in Hm, Hel. cbn [elements app] in Hm, Hel.
  destruct (before (f :: z)) as [|b bs] eqn:Hb.
  - exists (Some p). rewrite Hel. split; [|by rewrite bool_decide_true].
    apply (left_of_read F s0 s [] t' m p H). apply Hleft; [by apply before_nil_all_left|].
    destruct f as [q c qk qv r|q c l qk qv].
    + injection Hm as <-. cbn [plug fill].
      assert (left_of q p (T q c (T p Red Leaf k v Leaf) qk qv r)) as Hq by (by left).
      revert Hq. generalize (T q c (T p Red Leaf k v Leaf) qk qv r). clear. intros t Ht. revert t Ht.
      induction z as [|[] z IH]; intros t Ht; cbn [plug]; [done|apply IH; cbn; tauto|apply IH; cbn; tauto].
    + cbn in Hb. destruct (before z); [by destruct (elements l)|done].
  - exists None. split; [|by rewrite bool_decide_false, Hel].
    apply (first_left_child F s0 s [] t' m H). by rewrite Hel.
Qed.

Lemma insert_node_spec F s t p k v :
  rb_ok ((p, Node_new k v) :: F) s t -> Z.of_nat (length (elements t)) < 2 ^ 32 - 1 ->
  exists s' t' A B, insert_node s (Some p) = Ret s' /\ rb_ok F s' t' /\
    elements t = A ++ B /\ elements t' = A ++ (p, k, v) :: B /\
    (forall x, x ∈ A -> key_of x <= k) /\ (forall x, x ∈ B -> k < key_of x).
Proof.
  intros [H Hsize Hmin Hsort [n Hrb]] Hlen. unfold insert_node. cbn [is_null negb VERIFY]. run.
  assert (key s (Some p) = Ret k) as ->. { unfold focus in H. spread_in H. by read H. } run.
  destruct (insert_loop_root _ s t k H Hsort) as (z & -> & -> & Hb & Ha). run.
  rewrite <- focus_plug in H. rewrite elements_plug in Hsort, Hsize, Hlen. cbn [elements app] in Hsort, Hsize, Hlen.
  destruct z as [|f z].
  - cbn [up is_null]. unfold focus in H. cbn [cells path_cells up root app] in H.
    destruct (set_color_owned _ _ s _ p _ Black H) as (s' & -> & H'). run. cbn in H'.
    eexists _, (T p Black Leaf k v Leaf), [], []. split; [reflexivity|]. split; [|done].
    destruct H' as ([Hnd Hall] & _). split; [done|done|done|by repeat constructor|]. by eexists; repeat econstructor.
  - destruct (insert_link F s s f z p k v H Hb Ha) as (s1 & s2 & qk & Hkey & E1 & E2 & H2). cbn zeta in *.
    cbn [up is_null]. rewrite Hkey. run. rewrite E1. run. rewrite E2. run.
    destruct (insert_rebalance F s s2 f z p k v n H2 Hrb) as (s3 & t' & n' & E3 & H3 & Hrb3 & Hel & Hleft).
    revert E3. destruct (parent s2 (Some p)) as [q|]; [|done]. run.
    destruct (parent s2 q) as [g|]; [|done]. run. intros ->. run.
    assert (plug (f :: z) Leaf <> Leaf) as Hne by (cbn [plug]; apply plug_ne; by destruct f).
    destruct (first_ne _ Hne) as [m Hm].
    destruct (insert_minimum F s s3 f z p k v t' m H3 Hel Hleft Hm) as (l & Hl & Hmin').
    pose proof H3 as (_ & _ & Hsz & Hmn). rewrite (Hmin Hne), Hm in Hmn.
    rewrite elements_plug in Hel. cbn [elements app] in Hel.
    cbn [with_size m_minimum m_size]. rewrite Hmn.
    change (left_child (with_size s3 ?n) ?x) with (left_child s3 x). rewrite Hl. run.
    eexists _, t', (before (f :: z)), (after (f :: z)). split; [reflexivity|].
    split; [|split; [by rewrite elements_plug|split; [exact Hel|split; [exact Hb|exact Ha]]]].
    split.
    + eapply focus_meta; [exact H3|..]; by destruct (bool_decide _).
    + destruct (bool_decide _); cbn [with_minimum with_size m_size]; rewrite Hsz, Hsize, Hel, !length_app in *; cbn [length];
        rewrite (wrap_id u32 eq_refl) by (rewrite in_type_u32; lia); lia.
    + intros _. rewrite <- Hmin'. by destruct (bool_decide _); [|cbn; rewrite Hmn].
    + rewrite Hel. by apply rb_sorted_insert.
    + by exists n'.
Qed.
End insertion.
