(* ===== verification/RedBlackRemove.v ===== *)
(** * AK/RedBlackTree.h: removing

    [remove] takes exactly the node it is given out of the order, and the result is a
    red-black tree again.  The properties of the whole class are at the end. *)

From stdpp Require Import gmap sorting.
From S2P Require Import Prelude RedBlackTree RedBlackInsert.

#[local] Open Scope Z_scope.

Section fixups.
Context {V : Type}.
Implicit Types (s : RedBlackTree V) (n h : nat) (t l r : tree V) (z : list (frame V))
  (L F : list (ptr * Node V)) (p q : ptr) (f g : frame V).

Lemma null_or_black_focus F s0 s z t : focus F s0 s z t -> null_or_black s (root t) = Ret (negb (is_red_tree t)).
Proof.
  intros H. destruct t as [|p c l k v r]; [done|]. cbn [root is_red_tree]. unfold null_or_black. cbn [is_null].
  look H. by destruct c.
Qed.
Lemma null_or_black_left F s0 s z p c l k v r :
  focus F s0 s z (T p c l k v r) -> null_or_black s (root l) = Ret (negb (is_red_tree l)).
Proof. intros H. rewrite focus_left in H. by eapply null_or_black_focus. Qed.
Lemma null_or_black_right F s0 s z p c l k v r :
  focus F s0 s z (T p c l k v r) -> null_or_black s (root r) = Ret (negb (is_red_tree r)).
Proof. intros H. rewrite focus_right in H. by eapply null_or_black_focus. Qed.

(** ** One round, with a black sibling *)

(** What a round makes of the node [p] with the black height of its left subtree [t] one
    too small, where [q] is the sibling; and whether the loop goes on from [p]. *)
Definition refill_left (p : ptr) (c : Color) (t : tree V) (k : Z) (v : V)
    (q : ptr) (sl : tree V) (sk : Z) (sv : V) (sr : tree V) : bool * tree V :=
  if negb (is_red_tree sl) && negb (is_red_tree sr) then (true, T p c t k v (T q Red sl sk sv sr))
  else if is_red_tree sr then (false, T q c (T p Black t k v sl) sk sv (blacken sr))
  else
    match sl with
    | T x _ a xk xv b => (false, T x c (T p Black t k v a) xk xv (T q Black b sk sv sr))
    | Leaf => (false, Leaf)
    end.

Definition refill_right (p : ptr) (c : Color) (k : Z) (v : V) (t : tree V)
    (q : ptr) (sl : tree V) (sk : Z) (sv : V) (sr : tree V) : bool * tree V :=
  if negb (is_red_tree sl) && negb (is_red_tree sr) then (true, T p c (T q Red sl sk sv sr) k v t)
  else if is_red_tree sl then (false, T q c (blacken sl) sk sv (T p Black sr k v t))
  else
    match sr with
    | T x _ a xk xv b => (false, T x c (T q Black sl sk sv a) xk xv (T p Black b k v t))
    | Leaf => (false, Leaf)
    end.

Lemma remove_fixup_left_black_spec F s0 s z p c t k v q sl sk sv sr :
  focus F s0 s z (T p c t k v (T q Black sl sk sv sr)) ->
  exists s', let res := refill_left p c t k v q sl sk sv sr in
    focus F s0 s' z res.2 /\
    remove_fixup_left_black s (Some p) (Some q) = Ret (s', if res.1 then Some p else m_root s').
Proof.
  intros H. unfold remove_fixup_left_black, refill_left. look H. rewrite focus_right in H.
  rewrite (null_or_black_left _ _ _ _ _ _ _ _ _ _ H), (null_or_black_right _ _ _ _ _ _ _ _ _ _ H). run.
  destruct (is_red_tree sr) eqn:Eo;
    [destruct sr as [|y [] yl yk yv yr]; [done| |done]|destruct (is_red_tree sl) eqn:Ei];
    rewrite ?andb_false_r; cbn [negb andb fst snd].
  - replace (if negb (is_red_tree sl) then Ret false else Ret false) with (Ret false) by (by destruct (negb _)).
    run. rewrite <- focus_right in H. look H. rewrite focus_right in H. recolor H.
    rewrite <- focus_right in H. recolor H. look H. do 2 rewrite focus_right in H. recolor H.
    do 2 rewrite <- focus_right in H. rotate H. by eexists.
  - destruct sl as [|x [] a xk xv b]; [done| |done]. run. cbn [root]. rewrite focus_left in H. recolor H.
    rewrite <- focus_left in H. recolor H. rotate H. rewrite <- focus_right in H. look H.
    rewrite focus_right in H. recolor H. rewrite <- focus_right in H. recolor H. look H.
    do 2 rewrite focus_right in H. recolor H. do 2 rewrite <- focus_right in H. rotate H. by eexists.
  - run. recolor H. rewrite <- focus_right in H. by eexists.
Qed.

Lemma remove_fixup_right_black_spec F s0 s z p c t k v q sl sk sv sr :
  focus F s0 s z (T p c (T q Black sl sk sv sr) k v t) ->
  exists s', let res := refill_right p c k v t q sl sk sv sr in
    focus F s0 s' z res.2 /\
    remove_fixup_right_black s (Some p) (Some q) = Ret (s', if res.1 then Some p else m_root s').
Proof.
  intros H. unfold remove_fixup_right_black, refill_right. look H. rewrite focus_left in H.
  rewrite (null_or_black_left _ _ _ _ _ _ _ _ _ _ H), (null_or_black_right _ _ _ _ _ _ _ _ _ _ H). run.
  destruct (is_red_tree sl) eqn:Eo;
    [destruct sl as [|y [] yl yk yv yr]; [done| |done]|destruct (is_red_tree sr) eqn:Ei];
    rewrite ?andb_false_r; cbn [negb andb fst snd].
  - run. rewrite <- focus_left in H. look H. rewrite focus_left in H. recolor H.
    rewrite <- focus_left in H. recolor H. look H. do 2 rewrite focus_left in H. recolor H.
    do 2 rewrite <- focus_left in H. rotate H. by eexists.
  - destruct sr as [|x [] a xk xv b]; [done| |done]. run. cbn [root]. rewrite focus_right in H. recolor H.
    rewrite <- focus_right in H. recolor H. rotate H. rewrite <- focus_left in H. look H.
    rewrite focus_left in H. recolor H. rewrite <- focus_left in H. recolor H. look H.
    do 2 rewrite focus_left in H. recolor H. do 2 rewrite <- focus_left in H. rotate H. by eexists.
  - run. recolor H. rewrite <- focus_left in H. by eexists.
Qed.

(** ** The invariants through a round *)

(** [t] is as high as the path needs; or one too low, where a red root of [t] makes up for
    it once it is black. *)
Definition fits z t : Prop := exists c c' n, rbpath c n z /\ rbt c' n t /\ (c = Red -> c' = Black).
Definition lacks n z t : Prop :=
  (exists c, rbpath c (S n) z) /\ (rbt Black n t \/ is_red_tree t = true /\ rbt Black (S n) (blacken t)).

(** The path above a node of colour [c] with subtrees of height [S n]. *)
Definition path_above (c : Color) n z : Prop :=
  match c with Red => rbpath Black (S n) z | Black => exists c', rbpath c' (S (S n)) z end.

Definition round_result z p (res : bool * tree V) : Prop :=
  if res.1 then root res.2 = Some p /\ exists n, lacks n z res.2 else fits z res.2.

Lemma refill_result c z p n (res : bool * tree V) :
  path_above c n z ->
  (if res.1 then root res.2 = Some p /\ is_red_tree res.2 = bool_decide (c = Red) /\ rbt Black (S n) (blacken res.2)
   else rbt c (match c with Red => S n | Black => S (S n) end) res.2) ->
  round_result z p res.
Proof.
  intros Hz. unfold round_result. destruct res as [[] t]; cbn [fst snd].
  - intros (Hp & Hred & Hrb). split; [done|]. destruct c; cbn in Hz.
    + exists n. split; [by eexists|]. right. by split.
    + exists (S n). split; [done|]. left. by destruct t as [|? [] ? ? ? ?].
  - destruct c; cbn in Hz.
    + intros H. by exists Black, Red, (S n).
    + destruct Hz as [c' Hz]. intros H. by exists c', Black, (S (S n)).
Qed.

Lemma refill_left_result c z p t k v q sl sk sv sr n :
  path_above c n z -> rbt Black n t -> rbt Black (S n) (T q Black sl sk sv sr) ->
  round_result z p (refill_left p c t k v q sl sk sv sr).
Proof.
  intros Hz Ht Hs. apply (refill_result c _ _ n); [done|]. unfold refill_left.
  inversion Hs as [| |? c1 c2 ? ? ? ? ? Hsl Hsr]; subst.
  pose proof (is_red_tree_rbt _ _ _ Hsl) as El. pose proof (is_red_tree_rbt _ _ _ Hsr) as Er. rewrite El, Er.
  destruct c1, c2; rewrite ?bool_decide_true, ?bool_decide_false by done; cbn [negb andb fst snd];
    try (apply rbt_blacken in Hsr as Hsb).
  1, 3: destruct c; repeat econstructor; done.
  - apply rbt_red_inv in Hsl as (x & a & xk & xv & b & -> & Ha & Hb). cbn [fst snd]. destruct c; repeat econstructor; done.
  - destruct c; (split; [done|split; [done|repeat econstructor; done]]).
Qed.

Lemma refill_right_result c z p t k v q sl sk sv sr n :
  path_above c n z -> rbt Black n t -> rbt Black (S n) (T q Black sl sk sv sr) ->
  round_result z p (refill_right p c k v t q sl sk sv sr).
Proof.
  intros Hz Ht Hs. apply (refill_result c _ _ n); [done|]. unfold refill_right.
  inversion Hs as [| |? c1 c2 ? ? ? ? ? Hsl Hsr]; subst.
  pose proof (is_red_tree_rbt _ _ _ Hsl) as El. pose proof (is_red_tree_rbt _ _ _ Hsr) as Er. rewrite El, Er.
  destruct c1, c2; rewrite ?bool_decide_true, ?bool_decide_false by done; cbn [negb andb fst snd];
    try (apply rbt_blacken in Hsl as Hsb).
  1, 2: destruct c; repeat econstructor; done.
  - apply rbt_red_inv in Hsr as (x & a & xk & xv & b & -> & Ha & Hb). cbn [fst snd]. destruct c; repeat econstructor; done.
  - destruct c; (split; [done|split; [done|repeat econstructor; done]]).
Qed.

Lemma refill_left_elements c p t k v q sl sk sv sr c' :
  elements (refill_left p c t k v q sl sk sv sr).2 = elements (T p c t k v (T q c' sl sk sv sr)).
Proof.
  unfold refill_left. destruct (is_red_tree sl) eqn:El, (is_red_tree sr) eqn:Er; cbn [negb andb snd elements];
    rewrite ?elements_blacken, <- ?app_assoc; cbn [app]; try done.
  destruct sl as [|x cx a xk xv b]; [done|]. cbn [snd elements]. by spread.
Qed.

Lemma refill_right_elements c p t k v q sl sk sv sr c' :
  elements (refill_right p c k v t q sl sk sv sr).2 = elements (T p c (T q c' sl sk sv sr) k v t).
Proof.
  unfold refill_right. destruct (is_red_tree sl) eqn:El, (is_red_tree sr) eqn:Er; cbn [negb andb snd elements];
    rewrite ?elements_blacken, <- ?app_assoc; cbn [app]; try done.
  destruct sr as [|x cx a xk xv b]; [done|]. cbn [snd elements]. by spread.
Qed.

(** A whole round.  It ends at the root of the tree, or the loop goes on with [p], one
    level up or with a red [p]. *)
Definition round_ends F s0 s' z p (node : link) (xs : list (ptr * Z * V)) : Prop :=
  exists z' t', focus F s0 s' z' t' /\ elements (plug z' t') = xs /\
    ((node = m_root s' /\ fits z' t') \/
     (node = Some p /\ root t' = Some p /\ (length z' <= length z \/ is_red_tree t' = true)%nat /\
      exists n, lacks n z' t')).

Lemma round_ends_from F s0 s' z z' p (res : bool * tree V) xs :
  focus F s0 s' z' res.2 -> elements (plug z' res.2) = xs -> round_result z' p res ->
  (length z' <= length z \/ (res.1 = true -> is_red_tree res.2 = true))%nat ->
  round_ends F s0 s' z p (if res.1 then Some p else m_root s') xs.
Proof.
  intros H Hel Hres Hup. exists z', res.2. split; [done|]. split; [done|].
  unfold round_result in Hres. destruct res as [[] t]; cbn [fst snd] in *; [right|left; done].
  destruct Hres as [Hp Hn]. split; [done|]. split; [done|]. split; [|done].
  destruct Hup as [?|Hup]; [by left|right; by apply Hup].
Qed.

Lemma refill_left_red p t k v q sl sk sv sr :
  (refill_left p Red t k v q sl sk sv sr).1 = true -> is_red_tree (refill_left p Red t k v q sl sk sv sr).2 = true.
Proof. unfold refill_left. repeat case_match; done. Qed.
Lemma refill_right_red p t k v q sl sk sv sr :
  (refill_right p Red k v t q sl sk sv sr).1 = true -> is_red_tree (refill_right p Red k v t q sl sk sv sr).2 = true.
Proof. unfold refill_right. repeat case_match; done. Qed.

Lemma remove_fixup_left_spec F s0 s z p c k v sib t n c0 :
  focus F s0 s (InLeft p c k v sib :: z) t -> rbpath c0 (S n) (InLeft p c k v sib :: z) -> rbt Black n t ->
  exists s' node, remove_fixup_left s (Some p) = Ret (s', node) /\
    round_ends F s0 s' z p node (elements (plug (InLeft p c k v sib :: z) t)).
Proof.
  intros H Hz Ht. rewrite <- focus_left in H. unfold remove_fixup_left.
  assert (exists cs, rbt cs (S n) sib /\ path_above c n z /\ (cs = Red -> c = Black)) as (cs & Hsib & Hup & Hcs).
  { inversion Hz; subst; eexists; (split; [done|]); cbn [path_above]; split; [done|done|by eexists|done]. }
  inversion Hsib as [|? q sl sk sv sr Hsl Hsr|? c1 c2 q sl sk sv sr Hsl Hsr]; subst.
  - rewrite (Hcs eq_refl) in *. look H. rewrite bool_decide_true by done. rewrite focus_right in H. recolor H.
    rewrite <- focus_right in H. recolor H. rotate H. rewrite focus_left in H.
    inversion Hsl as [| |? c1 c2 x a xk xv b Ha Hb]; subst. look H.
    destruct (remove_fixup_left_black_spec _ _ _ _ _ _ _ _ _ _ _ _ _ _ H) as (s' & H' & ->).
    eexists s', _. split; [reflexivity|]. destruct Hup as [c' Hup].
    apply (round_ends_from _ _ _ _ _ _ _ _ H').
    + rewrite !elements_plug, (refill_left_elements _ _ _ _ _ _ _ _ _ _ Black). cbn [before after elements].
      by spread.
    + apply (refill_left_result Red _ _ _ _ _ _ _ _ _ _ n); [|done|by econstructor]. by econstructor.
    + right. apply refill_left_red.
  - look H. rewrite bool_decide_false by done. run.
    destruct (remove_fixup_left_black_spec _ _ _ _ _ _ _ _ _ _ _ _ _ _ H) as (s' & H' & ->).
    eexists s', _. split; [reflexivity|].
    apply (round_ends_from _ _ _ _ _ _ _ _ H').
    + cbn [plug fill]. by rewrite !elements_plug, (refill_left_elements _ _ _ _ _ _ _ _ _ _ Black).
    + apply (refill_left_result c _ _ _ _ _ _ _ _ _ _ n); [done|done|by econstructor].
    + by left.
Qed.
Lemma remove_fixup_right_spec F s0 s z p c k v sib t n c0 :
  focus F s0 s (InRight p c sib k v :: z) t -> rbpath c0 (S n) (InRight p c sib k v :: z) -> rbt Black n t ->
  exists s' node, remove_fixup_right s (Some p) = Ret (s', node) /\
    round_ends F s0 s' z p node (elements (plug (InRight p c sib k v :: z) t)).
Proof.
  intros H Hz Ht. rewrite <- focus_right in H. unfold remove_fixup_right.
  assert (exists cs, rbt cs (S n) sib /\ path_above c n z /\ (cs = Red -> c = Black)) as (cs & Hsib & Hup & Hcs).
  { inversion Hz; subst; eexists; (split; [done|]); cbn [path_above]; split; [done|done|by eexists|done]. }
  inversion Hsib as [|? q sl sk sv sr Hsl Hsr|? c1 c2 q sl sk sv sr Hsl Hsr]; subst.
  - rewrite (Hcs eq_refl) in *. look H. rewrite bool_decide_true by done. rewrite focus_left in H. recolor H.
    rewrite <- focus_left in H. recolor H. rotate H. rewrite focus_right in H.
    inversion Hsr as [| |? c1 c2 x a xk xv b Ha Hb]; subst. look H.
    destruct (remove_fixup_right_black_spec _ _ _ _ _ _ _ _ _ _ _ _ _ _ H) as (s' & H' & ->).
    eexists s', _. split; [reflexivity|]. destruct Hup as [c' Hup].
    apply (round_ends_from _ _ _ _ _ _ _ _ H').
    + rewrite !elements_plug, (refill_right_elements _ _ _ _ _ _ _ _ _ _ Black). cbn [before after elements].
      by spread.
    + apply (refill_right_result Red _ _ _ _ _ _ _ _ _ _ n); [|done|by econstructor]. by econstructor.
    + right. apply refill_right_red.
  - look H. rewrite bool_decide_false by done. run.
    destruct (remove_fixup_right_black_spec _ _ _ _ _ _ _ _ _ _ _ _ _ _ H) as (s' & H' & ->).
    eexists s', _. split; [reflexivity|].
    apply (round_ends_from _ _ _ _ _ _ _ _ H').
    + cbn [plug fill]. by rewrite !elements_plug, (refill_right_elements _ _ _ _ _ _ _ _ _ _ Black).
    + apply (refill_right_result c _ _ _ _ _ _ _ _ _ _ n); [done|done|by econstructor].
    + by left.
Qed.

(** ** The loop *)

Lemma top_Some p (z : list (frame V)) : exists q, top (Some p) z = Some q.
Proof. revert p. induction z as [|f z IH]; intros p; [by exists p|]. apply IH. Qed.

Lemma top_in base hole f z q : top (Some (frame_ptr f)) z = Some q -> q ∈ (@path_cells V base hole (f :: z)).*1.
Proof.
  revert hole f. induction z as [|g z IH]; intros hole f; cbn [top].
  - intros [= <-]. destruct f; left.
  - intros H. apply (IH (Some (frame_ptr f))) in H.
    destruct f; cbn [path_cells]; rewrite fmap_cons, fmap_app, elem_of_cons, elem_of_app; tauto.
Qed.

Lemma not_root F s0 s f z t : focus F s0 s (f :: z) t -> root t <> m_root s.
Proof.
  intros ([Hnd _] & Hroot & _) E. rewrite Hroot in E. cbn [top] in E.
  destruct (top_Some (frame_ptr f) z) as [q Hq]. rewrite Hq in E.
  apply (root_cells (up None (f :: z))) in E. apply (top_in None (root t)) in Hq.
  rewrite !fmap_app in Hnd. apply NoDup_app in Hnd as (_ & Hdis & _). apply (Hdis q E).
  rewrite elem_of_app. by left.
Qed.

Lemma root_focus F s0 s t : focus F s0 s [] t -> m_root s = root t.
Proof. by intros (_ & ? & _). Qed.

(** Where the loop stops: the node to be coloured black. *)
Definition loop_ends F s0 s' (node : link) (xs : list (ptr * Z * V)) : Prop :=
  exists z t n, focus F s0 s' z t /\ node = root t /\ t <> Leaf /\ rbt Black n (plug z (blacken t)) /\
    elements (plug z t) = xs.

Lemma rbt_blacken_any c n t : rbt c n t -> t <> Leaf -> exists n', rbt Black n' (blacken t).
Proof. intros H Ht. inversion H; subst; [done|..]; eexists; by econstructor. Qed.

Lemma fits_plug z t : fits z t -> exists c n, rbt c n (plug z t).
Proof. intros (c & c' & n & Hz & Ht & Hc). destruct (rbt_plug _ _ _ _ _ Hz Ht Hc) as (? & ? & ? & _). by do 2 eexists. Qed.

(** The loop stops at the root, and at a red node. *)
Lemma loop_stops_root F s0 s t n fuel :
  focus F s0 s [] t -> lacks n [] t -> t <> Leaf -> (0 < fuel)%nat ->
  exists s' node, remove_fixups_loop fuel s (root t) None = Ret (s', node) /\ loop_ends F s0 s' node (elements t).
Proof.
  intros H [_ Hrb] Ht Hfuel. destruct fuel as [|fuel]; [lia|]. cbn [remove_fixups_loop].
  rewrite (root_focus _ _ _ _ H), bool_decide_true by done. run. cbn [negb].
  exists s, (root t). split; [done|]. assert (exists n', rbt Black n' (blacken t)) as [n' Hn'].
  { destruct Hrb as [Hrb|[_ Hrb]]; [by eapply rbt_blacken_any|by eexists]. }
  by exists [], t, n'.
Qed.

Lemma loop_stops_red F s0 s z t n fuel :
  focus F s0 s z t -> lacks n z t -> is_red_tree t = true -> (0 < fuel)%nat ->
  exists s' node, remove_fixups_loop fuel s (root t) (up None z) = Ret (s', node) /\
    loop_ends F s0 s' node (elements (plug z t)).
Proof.
  intros H Hl Hred Hfuel. destruct z as [|f z]; [apply (loop_stops_root _ _ _ _ n); try done; by intros ->|].
  destruct fuel as [|fuel]; [lia|]. cbn [remove_fixups_loop].
  rewrite bool_decide_false by (by eapply not_root). rewrite (null_or_black_focus _ _ _ _ _ H), Hred. run. cbn [negb].
  exists s, (root t). split; [done|]. destruct Hl as [[c Hz] [Hrb|[_ Hrb]]].
  - apply is_red_tree_rbt in Hrb. by rewrite Hred in Hrb.
  - destruct (rbt_plug _ _ _ _ _ Hz Hrb) as (c' & n' & Hp & Hc'); [done|].
    rewrite (Hc' ltac:(done)) in Hp. exists (f :: z), t, n'. split_and!; [done|done|by intros ->|done|done].
Qed.

(** The round the loop runs at a path that is not empty. *)
Lemma remove_fixups_round F s0 s f z t n fuel :
  focus F s0 s (f :: z) t -> lacks n (f :: z) t -> is_red_tree t = false ->
  exists s' node, remove_fixups_loop (S fuel) s (root t) (Some (frame_ptr f)) =
      (par ← parent s' node; remove_fixups_loop fuel s' node par) /\
    round_ends F s0 s' z (frame_ptr f) node (elements (plug (f :: z) t)).
Proof.
  intros H [[c Hz] Hrb] Hblack. destruct Hrb as [Hrb|[Hred _]]; [|by rewrite Hblack in Hred].
  cbn [remove_fixups_loop]. rewrite bool_decide_false by (by eapply not_root).
  rewrite (null_or_black_focus _ _ _ _ _ H), Hblack. run. cbn [negb].
  destruct f as [p pc k v sib|p pc sib k v]; cbn [frame_ptr].
  - pose proof H as H'. rewrite <- focus_left in H'. look H'. rewrite bool_decide_true by done.
    destruct (remove_fixup_left_spec _ _ _ _ _ _ _ _ _ _ _ _ H Hz Hrb) as (s' & node & -> & Hend). run. by exists s', node.
  - pose proof H as H'. rewrite <- focus_right in H'. look H'. rewrite bool_decide_false.
    + destruct (remove_fixup_right_spec _ _ _ _ _ _ _ _ _ _ _ _ H Hz Hrb) as (s' & node & -> & Hend). run. by exists s', node.
    + intros E. assert (exists q, root sib = Some q) as [q Hq].
      { inversion Hz as [| | |? ? ? ? ? ? ? Hs|? ? ? ? ? ? ? ? Hs]; subst; inversion Hs; subst; by eexists. }
      apply (roots_differ _ _ _ _ _ _ _ _ _ _ q H'); congruence.
Qed.

Lemma remove_fixups_loop_spec F s0 fuel s z t n :
  focus F s0 s z t -> lacks n z t -> plug z t <> Leaf -> (length z + 2 <= fuel)%nat ->
  exists s' node, remove_fixups_loop fuel s (root t) (up None z) = Ret (s', node) /\
    loop_ends F s0 s' node (elements (plug z t)).
Proof.
  revert s z t n. induction fuel as [|fuel IH]; intros s z t n H Hl Hne Hfuel; [lia|].
  destruct z as [|f z]; [apply (loop_stops_root _ _ _ _ n); [done..|lia]|].
  destruct (is_red_tree t) eqn:Hred; [apply (loop_stops_red _ _ _ _ _ n); [done..|lia]|].
  cbn [up]. destruct (remove_fixups_round _ _ _ _ _ _ _ fuel H Hl Hred) as (s1 & node & -> & z1 & t1 & H1 & Hel & Hend).
  rewrite <- Hel. cbn [length] in Hfuel.
  destruct Hend as [[-> Hfits]|(-> & Hroot & Hup & n1 & Hl1)].
  - rewrite focus_plug in H1. set (t2 := plug z1 t1) in *. rewrite (root_focus _ _ _ _ H1).
    assert (t2 <> Leaf) as Ht2.
    { intros E. rewrite E in Hel. symmetry in Hel. by apply elements_ne in Hel. }
    apply fits_plug in Hfits as (c & n1 & Hrb). fold t2 in Hrb.
    destruct t2 as [|p2 c2 l2 k2 v2 r2] eqn:Et; [done|]. cbn [root]. look H1. cbn [up].
    destruct (rbt_blacken_any _ _ _ Hrb Ht2) as [n2 Hn2]. destruct fuel as [|fuel]; [lia|].
    cbn [remove_fixups_loop]. rewrite (root_focus _ _ _ _ H1), bool_decide_true by done. run. cbn [negb].
    eexists s1, _. split; [reflexivity|]. by exists [], (T p2 c2 l2 k2 v2 r2), n2.
  - assert (parent s1 (Some (frame_ptr f)) = Ret (up None z1)) as ->.
    { destruct t1; [done|]. injection Hroot as <-. by look H1. }
    run. rewrite <- Hroot. assert (t1 <> Leaf) as Ht1 by (by destruct t1).
    destruct Hup as [Hup|Hup]; [|apply (loop_stops_red _ _ _ _ _ n1); [done..|lia]].
    apply (IH _ _ _ n1); [done|done|by apply plug_ne|lia].
Qed.

Lemma remove_fixups_spec F s0 s z t n :
  focus F s0 s z t -> lacks n z t -> plug z t <> Leaf -> F <> [] ->
  exists s' t' n', remove_fixups s (root t) (up None z) = Ret s' /\ focus F s0 s' [] t' /\
    rbt Black n' t' /\ elements t' = elements (plug z t).
Proof.
  intros H Hl Hne HF. unfold remove_fixups.
  destruct (remove_fixups_loop_spec F s0 (walk_fuel s) s z t n H Hl Hne)
    as (s1 & node & -> & z1 & t1 & n1 & H1 & -> & Ht1 & Hrb & Hel).
  { pose proof (focus_size_frame _ _ _ _ _ H). pose proof (length_path z). unfold walk_fuel.
    destruct F; [done|]. cbn [length] in *. lia. }
  run. destruct t1 as [|p c l k v r]; [done|]. cbn [root].
  destruct (focus_color _ _ _ _ _ _ Black _ _ _ _ H1) as (s' & -> & H').
  exists s', (plug z1 (T p Black l k v r)), n1. split_and!; [done|by rewrite <- focus_plug|done|].
  by rewrite <- Hel, !elements_plug.
Qed.
End fixups.

(** ** Trading places with the successor *)

Section relink.
Context {V : Type}.
Implicit Types (s : RedBlackTree V) (n h : nat) (t l r : tree V) (z : list (frame V))
  (L F : list (ptr * Node V)) (p q : ptr) (f g : frame V).

Lemma leftmost_split t :
  t <> Leaf -> exists z p c k v r, t = plug z (T p c Leaf k v r) /\ before z = [] /\ first (elements t) = Some p.
Proof.
  assert (t <> Leaf -> exists z p c k v r, t = plug z (T p c Leaf k v r) /\ before z = []) as H.
  { induction t as [|p c l IH k v r _]; [done|]. intros _. destruct l as [|p' c' l' k' v' r'] eqn:El.
    - by exists [], p, c, k, v, r.
    - destruct IH as (z & q & cq & kq & vq & rq & -> & Hb); [done|].
      exists (z ++ [InLeft p c k v r]), q, cq, kq, vq, rq. clear El. split.
      + clear. generalize (T q cq Leaf kq vq rq). induction z as [|f z IHz]; intros t; [done|]. apply IHz.
      + clear -Hb. revert Hb. induction z as [|[] z IHz]; [done|done|]. cbn. intros Hb. exfalso.
        by destruct (before z); [destruct (elements l)|]. }
  intros Ht. destruct (H Ht) as (z & p & c & k & v & r & -> & Hb). exists z, p, c, k, v, r.
  split; [done|]. split; [done|]. by rewrite elements_plug, Hb.
Qed.

Lemma cells_plug base z t : cells base (plug z t) ≡ₚ cells (up base z) t ++ path_cells base (root t) z.
Proof.
  revert t. induction z as [|[p c k v r|p c l k v] z IH]; intros t; cbn [plug fill up].
  - by rewrite app_nil_r.
  - rewrite IH. cbn [cells root path_cells frame_ptr]. solve_permutation.
  - rewrite IH. cbn [cells root path_cells frame_ptr]. solve_permutation.
Qed.

Lemma root_plug z t : root (plug z t) = top (root t) z.
Proof. revert t. induction z as [|f z IH]; intros t; cbn [plug top]; [done|]. rewrite IH. by destruct f. Qed.

Lemma path_cells_app base hole z z' :
  path_cells base hole (z ++ z') = path_cells (up base z') hole z ++ path_cells base (top hole z) z'.
Proof.
  revert hole. induction z as [|[p c k v r|p c l k v] z IH]; intros hole; cbn [app path_cells top frame_ptr]; [done|..];
    rewrite IH, <- app_assoc; do 3 f_equal; by destruct z.
Qed.

Lemma top_app (hole : link) z z' : top hole (z ++ z') = top (top hole z) z'.
Proof. revert hole. induction z as [|f z IH]; intros hole; [done|]. apply IH. Qed.

Lemma set_parent_root s t (x : link) : t <> Leaf -> set_parent s (root t) x = set_parent_if s (root t) x.
Proof. by destruct t. Qed.

(** Where the successor is the right child. *)
Lemma relink_neighbour F s0 s z (n : ptr) c l k v q qc qk qv qr :
  focus F s0 s z (T n c l k v (T q qc Leaf qk qv qr)) -> l <> Leaf ->
  exists s', relink_with_successor s (Some n) = Ret s' /\
    focus F s0 s' (InRight q c l qk qv :: z) (T n qc Leaf k v qr).
Proof.
  intros H Hl. unfold relink_with_successor. rewrite (successor_spec _ _ _ _ _ _ _ _ _ _ H).
  run. cbn [first elements app fmap list_fmap head fst]. unfold focus in H. cbn [cells root app] in H. spread_in H.
  do 2 read H. rewrite bool_decide_true by done. cbn [negb]. rewrite set_parent_root by done.
  write_parent H l. read H. write_child H (@None ptr) z; [|done|].
  { spread. rewrite ?fmap_app, ?fmap_cons, ?elem_of_app, ?elem_of_cons. tauto. }
  rewrite top_cons in H. read H. write_parent H qr. read H. do 2 write H.
  unfold swap_left_children. do 2 read H. do 2 write H. read H. do 2 write H.
  unfold swap_colors. do 2 read H. do 2 write H.
  eexists. split; [reflexivity|]. unfold focus. cbn [cells path_cells root up top frame_ptr].
  eapply state_permutation; [exact H|]. solve_permutation.
Qed.

Lemma own_plug s0 R s L base z t :
  state s0 R (cells base (plug z t) ++ L) s ->
  state s0 R (cells (up base z) t ++ path_cells base (root t) z ++ L) s.
Proof. intros H. eapply state_permutation; [exact H|]. rewrite cells_plug. by rewrite <- app_assoc. Qed.

Lemma frame_in_plug f z t : before (f :: z) = [] -> frame_ptr f ∈ addrs (plug (f :: z) t).
Proof.
  intros Hb. unfold addrs. rewrite elements_plug, Hb, !fmap_app. cbn [app].
  destruct f as [p c k v r|p c l k v]; cbn in Hb |- *.
  - rewrite elem_of_app. right. left.
  - by destruct (before z); [destruct (elements l)|].
Qed.

(** Where it is further down. *)
Lemma relink_further F s0 s z (n : ptr) c l k v f zr q qc qk qv qr :
  let r := plug (f :: zr) (T q qc Leaf qk qv qr) in
  focus F s0 s z (T n c l k v r) -> l <> Leaf -> before (f :: zr) = [] ->
  exists s', relink_with_successor s (Some n) = Ret s' /\
    focus F s0 s' ((f :: zr) ++ InRight q c l qk qv :: z) (T n qc Leaf k v qr).
Proof.
  intros r H Hl Hb. unfold relink_with_successor. rewrite (successor_spec _ _ _ _ _ _ _ _ _ _ H).
  assert (first (elements r ++ after z) = Some q) as -> by (subst r; by rewrite elements_plug, Hb).
  assert (r <> Leaf) as Hr by (by apply plug_ne). run.
  assert (Some (frame_ptr f) <> Some n) as Hne.
  { pose proof H as Hn. rewrite focus_right in Hn.
    pose proof (focus_path_addr _ _ _ _ _ _ _ Hn (frame_in_plug f zr _ Hb)) as Hf. cbn in Hf. congruence. }
  assert (parent s (Some q) = Ret (Some (frame_ptr f))) as ->.
  { pose proof H as Hq. rewrite focus_right in Hq. apply own_plug in Hq. cbn [cells up app] in Hq. spread_in Hq. by read Hq. }
  unfold focus in H. cbn [cells root app] in H. spread_in H. run.
  rewrite bool_decide_false by done. cbn [negb]. read H. rewrite set_parent_root by done.
  write_parent H l. read H. rewrite set_parent_root by done. write_parent H r. read H.
  write_child H (@None ptr) z; [|done|].
  { spread. rewrite ?fmap_app, ?fmap_cons, ?elem_of_app, ?elem_of_cons. tauto. }
  rewrite top_cons in H. eapply (own_list _ _ _ _ (cells _ r)) in H; [|extract_cells].
  apply own_plug in H. cbn [cells root app] in H. spread_in H. read H. write_parent H qr. read H.
  write_child H (Some q) (f :: zr); [|done|].
  { spread. rewrite ?fmap_app, ?fmap_cons, ?elem_of_app, ?elem_of_cons. tauto. }
  unfold swap_parents. do 2 read H. do 2 write H. unfold swap_left_children. do 2 read H. do 2 write H.
  unfold swap_right_children. do 2 read H. do 2 write H. unfold swap_colors. do 2 read H. do 2 write H.
  eexists. split; [reflexivity|]. unfold focus. cbn [cells root].
  assert (top (Some n) ((f :: zr) ++ InRight q c l qk qv :: z) = top (Some q) z) as ->.
  { by rewrite top_app. }
  assert (root r = top (Some n) (f :: zr)) as Hroot by (subst r; by rewrite root_plug). rewrite Hroot in H.
  rewrite path_cells_app. cbn [path_cells up frame_ptr]. eapply state_permutation; [exact H|].
  cbn [up frame_ptr app]. solve_permutation.
Qed.
End relink.

(** ** Removal *)

Section removal.
Context {V : Type}.
Implicit Types (s : RedBlackTree V) (h : nat) (t l r : tree V) (z : list (frame V))
  (L F : list (ptr * Node V)) (p q : ptr) (f g : frame V).

Lemma rbt_plug_mono z t t' n :
  (forall c h, rbt c h t -> rbt c h t') -> forall c, rbt c n (plug z t) -> rbt c n (plug z t').
Proof.
  revert t t'. induction z as [|f z IH]; intros t t' Hmono c; cbn [plug]; [apply Hmono|].
  apply IH. intros c' h Hf. destruct f; inversion Hf; subst; econstructor; eauto.
Qed.

(** A node with two children trades places; the shape and the colours stay. *)
Lemma relink_spec F s0 s z p c l k v r n :
  focus F s0 s z (T p c l k v r) -> l <> Leaf -> r <> Leaf -> rbt Black n (plug z (T p c l k v r)) ->
  exists s' z' c' r', relink_with_successor s (Some p) = Ret s' /\ focus F s0 s' z' (T p c' Leaf k v r') /\
    rbt Black n (plug z' (T p c' Leaf k v r')) /\
    before z' ++ elements r' ++ after z' = before z ++ elements l ++ elements r ++ after z.
Proof.
  intros H Hl Hr Hrb. destruct (leftmost_split r Hr) as (zr & q & qc & qk & qv & qr & -> & Hb & _).
  assert (rbt Black n (plug z (T q c l qk qv (plug zr (T p qc Leaf k v qr))))) as Hrb'.
  { revert Hrb. apply rbt_plug_mono. intros c' h' Ht.
    assert (forall c h, rbt c h (plug zr (T q qc Leaf qk qv qr)) -> rbt c h (plug zr (T p qc Leaf k v qr))) as Hm.
    { intros c1 h1. apply rbt_plug_mono. intros c2 h2 Hq. inversion Hq; subst; by econstructor. }
    inversion Ht; subst; econstructor; eauto. }
  assert (forall t, plug (zr ++ InRight q c l qk qv :: z) t = plug z (T q c l qk qv (plug zr t))) as Hplug.
  { clear. induction zr as [|f zr IH]; intros t; [done|]. apply IH. }
  assert (exists s', relink_with_successor s (Some p) = Ret s' /\
    focus F s0 s' (zr ++ InRight q c l qk qv :: z) (T p qc Leaf k v qr)) as (s' & E & H').
  { destruct zr as [|f zr]; [by apply relink_neighbour|by apply relink_further]. }
  exists s', (zr ++ InRight q c l qk qv :: z), qc, qr. rewrite Hplug. split_and!; [done..|].
  rewrite !elements_plug, Hb. cbn [elements app].
  assert (before (zr ++ InRight q c l qk qv :: z) = before z ++ elements l ++ [(q, qk, qv)]) as ->.
  { clear -Hb. revert Hb. induction zr as [|[] zr IH]; [done|done|]. cbn. intros Hb.
    by destruct (before zr); [destruct (elements l0)|]. }
  assert (after (zr ++ InRight q c l qk qv :: z) = after zr ++ after z) as ->.
  { clear. induction zr as [|[] zr IH]; [done| |done]. cbn. by rewrite IH, <- app_assoc. }
  by spread.
Qed.

(** Taking out a node with at most one child. *)
Definition only_child l r : tree V := match l with Leaf => r | _ => l end.

Lemma unlink_spec F s0 s z p c l k v r :
  focus F s0 s z (T p c l k v r) -> l = Leaf \/ r = Leaf ->
  exists s1 s2 nd, let ch := only_child l r in
    (left ← left_child s (Some p); if negb (is_null left) then Ret left else right_child s (Some p)) = Ret (root ch) /\
    parent s (Some p) = Ret (up None z) /\ set_parent_if s (root ch) (up None z) = Ret s1 /\
    replace_child s1 (up None z) (Some p) (root ch) = Ret s2 /\ focus ((p, nd) :: F) s0 s2 z ch /\
    color s2 (Some p) = Ret c /\ parent s2 (Some p) = Ret (up None z) /\ n_key nd = k /\ n_value nd = v.
Proof.
  intros H Hone. set (ch := only_child l r).
  assert (cells (Some p) l ++ cells (Some p) r = cells (Some p) ch) as Hcells.
  { subst ch. destruct Hone as [-> | ->]; cbn [only_child cells app]; [done|]. rewrite app_nil_r. by destruct l. }
  assert ((left ← left_child s (Some p); if negb (is_null left) then Ret left else right_child s (Some p)) = Ret (root ch)) as E0.
  { look H. subst ch. by destruct l. }
  assert (parent s (Some p) = Ret (up None z)) as E1 by (by look H).
  unfold focus in H. cbn [cells root app] in H. rewrite Hcells in H. spread_in H.
  eapply (own_list _ _ s _ (cells (Some p) ch)) in H; [|extract_cells].
  destruct (set_parent_if_owned _ _ s _ ch _ (up None z) H) as (s1 & E2 & H1). spread_in H1.
  eapply (own_list _ _ s1 _ (path_cells None (Some p) z)) in H1; [|extract_cells].
  destruct (replace_child_owned _ _ s1 _ None p (root ch) z H1) as (s2 & E3 & H2); [|done|].
  { spread. rewrite ?fmap_app, ?fmap_cons, ?elem_of_app, ?elem_of_cons. tauto. }
  rewrite top_cons in H2. spread_in H2.
  eexists s1, s2, _. cbn zeta. split; [done|]. split; [done|]. split; [done|]. split; [done|].
  split; [unfold focus; eapply state_permutation; [exact H2|]; solve_permutation|].
  split; [by read H2|]. split; [by read H2|]. done.
Qed.

Lemma only_child_rbt z p c l k v r n :
  rbt Black n (plug z (T p c l k v r)) -> l = Leaf \/ r = Leaf ->
  match c with
  | Red => exists n', rbt Black n' (plug z (only_child l r))
  | Black => exists n', lacks n' z (only_child l r)
  end.
Proof.
  intros Hrb Hone. pose proof Hrb as Hroot. destruct (rbt_unplug _ _ _ Hrb) as (cz & c' & m & Hz & Ht & Hc).
  inversion Ht as [|? ? ? ? ? ? Hl Hr|m' c1 c2 ? ? ? ? ? Hl Hr]; subst.
  - assert (rbt Black m (only_child l r)) as Hch by (by destruct l).
    destruct z as [|f z]; [by inversion Hroot|].
    destruct (rbt_plug _ _ _ _ _ Hz Hch) as (c2 & n2 & H2 & H3); [done|]. rewrite (H3 ltac:(done)) in H2. by exists n2.
  - exists m'. split; [by eexists|].
    assert (exists c3, rbt c3 m' (only_child l r)) as [c3 H3] by (destruct l; by eexists).
    destruct c3; [right|by left]. split; [by rewrite (is_red_tree_rbt _ _ _ H3)|by apply rbt_blacken].
Qed.

Lemma focus_nodup F s0 s z t : focus F s0 s z t -> NoDup (elements (plug z t)).*1.*1.
Proof.
  rewrite focus_plug. intros [[Hnd _] _]. rewrite !fmap_app in Hnd. apply NoDup_app in Hnd as [Hnd _].
  by rewrite (elements_cells None).
Qed.

(** The minimum after taking out [p]. *)
Lemma remove_minimum F s0 s z p c l k v r :
  focus F s0 s z (T p c l k v r) -> m_minimum s = first (elements (plug z (T p c l k v r))) ->
  before z ++ elements l ++ elements r ++ after z <> [] ->
  exists s', (if bool_decide (m_minimum s = Some p) then m ← successor s (Some p); Ret (with_minimum s m) else Ret s) = Ret s' /\
    m_nodes s' = m_nodes s /\ m_root s' = m_root s /\ m_size s' = m_size s /\
    m_minimum s' = first (before z ++ elements l ++ elements r ++ after z).
Proof.
  intros H Hmin Hne. pose proof (focus_nodup _ _ _ _ _ H) as Hnd. rewrite elements_plug in Hmin, Hnd.
  cbn [elements] in Hmin, Hnd.
  replace (before z ++ (elements l ++ (p, k, v) :: elements r) ++ after z)
    with ((before z ++ elements l) ++ (p, k, v) :: elements r ++ after z) in Hmin, Hnd by (by spread).
  rewrite app_assoc in Hne |- *.
  destruct (before z ++ elements l) as [|b bs] eqn:Hb; cbn [app] in *.
  - rewrite Hmin, bool_decide_true by done. rewrite (successor_spec _ _ _ _ _ _ _ _ _ _ H). run. by eexists.
  - rewrite Hmin, bool_decide_false; [by exists s|]. cbn. intros [= Hp].
    cbn in Hnd. apply NoDup_cons in Hnd as [Hout _]. apply Hout. rewrite Hp, !fmap_app, elem_of_app. right. left.
Qed.

Lemma sorted_delete xs ys (a : ptr * Z * V) : sorted (xs ++ a :: ys) -> sorted (xs ++ ys).
Proof.
  rewrite !sorted_app. intros (H1 & H2 & H3). apply StronglySorted_inv in H2 as [H2 _].
  split_and!; [done..|]. intros x y Hx Hy. apply H3; [done|by right].
Qed.

Lemma elements_nil t : elements t = [] -> t = Leaf.
Proof. destruct t as [|p c l k v r]; [done|]. cbn. by destruct (elements l). Qed.

Lemma leaf_or t : t = Leaf \/ t <> Leaf.
Proof. destruct t; [by left|by right]. Qed.

Lemma no_others z l r :
  before z ++ elements l ++ elements r ++ after z = [] -> z = [] /\ l = Leaf /\ r = Leaf.
Proof.
  intros H. apply app_nil in H as [Hb H]. apply app_nil in H as [Hl H]. apply app_nil in H as [Hr Ha].
  split; [|by split; apply elements_nil].
  destruct z as [|[p c k v t|p c t k v] z]; [done|done|]. cbn in Hb. by destruct (before z); [destruct (elements t)|].
Qed.

(** The part of [remove] after the relinking. *)
Lemma remove_rest F s0 s z p c l k v r n :
  focus F s0 s z (T p c l k v r) -> l = Leaf \/ r = Leaf -> rbt Black n (plug z (T p c l k v r)) ->
  plug z (only_child l r) <> Leaf ->
  exists s' t' n' nd,
    (left ← left_child s (Some p);
     child ← (if negb (is_null left) then Ret left else right_child s (Some p));
     par ← parent s (Some p);
     s ← set_parent_if s child par;
     s ← replace_child s par (Some p) child;
     c ← color s (Some p);
     if negb (bool_decide (c = Red)) then par ← parent s (Some p); remove_fixups s child par else Ret s) = Ret s' /\
    focus ((p, nd) :: F) s0 s' [] t' /\ rbt Black n' t' /\
    elements t' = elements (plug z (only_child l r)) /\ n_value nd = v.
Proof.
  intros H Hone Hrb Hne. destruct (unlink_spec F s0 s z p c l k v r H Hone) as (s1 & s2 & nd & E0 & E1 & E2 & E3 & H2 & E4 & E5 & _ & Hv).
  revert E0. destruct (left_child s (Some p)) as [lc|]; [|done]. run. intros ->. run. rewrite E1. run. rewrite E2. run.
  rewrite E3. run. rewrite E4. run. pose proof (only_child_rbt z p c l k v r n Hrb Hone) as Hch. destruct c.
  - rewrite bool_decide_true by done. cbn [negb]. destruct Hch as [n' Hch].
    exists s2, (plug z (only_child l r)), n', nd. split_and!; [done|by rewrite <- focus_plug|done..].
  - rewrite bool_decide_false by done. cbn [negb]. rewrite E5. run. destruct Hch as [n' Hch].
    destruct (remove_fixups_spec _ _ _ _ _ n' H2 Hch Hne) as (s' & t' & n2 & -> & H' & Hrb' & Hel); [done|].
    by exists s', t', n2, nd.
Qed.

(** The relinking, if there are two children. *)
Lemma remove_relink F s0 s z p c l k v r n :
  focus F s0 s z (T p c l k v r) -> rbt Black n (plug z (T p c l k v r)) ->
  exists s' z' c' l' r',
    (left ← left_child s (Some p); right ← right_child s (Some p);
     if negb (is_null left) && negb (is_null right) then relink_with_successor s (Some p) else Ret s) = Ret s' /\
    focus F s0 s' z' (T p c' l' k v r') /\ (l' = Leaf \/ r' = Leaf) /\ rbt Black n (plug z' (T p c' l' k v r')) /\
    elements (plug z' (only_child l' r')) = before z ++ elements l ++ elements r ++ after z.
Proof.
  intros H Hrb.
  assert (forall B (K : link -> link -> outcome B),
    (left ← left_child s (Some p); right ← right_child s (Some p); K left right) = K (root l) (root r)) as Hread.
  { intros B K. by look H. }
  rewrite (Hread _ (fun left right => if negb (is_null left) && negb (is_null right) then relink_with_successor s (Some p) else Ret s)).
  destruct (leaf_or l) as [->|Hl]; [|destruct (leaf_or r) as [->|Hr]].
  - exists s, z, c, Leaf, r. split_and!; [done..|by left|done|]. cbn [only_child elements app]. by rewrite elements_plug.
  - exists s, z, c, l, Leaf. split_and!; [by destruct l|done|by right|done|].
    rewrite elements_plug. by destruct l.
  - destruct (relink_spec F s0 s z p c l k v r n H Hl Hr Hrb) as (s' & z' & c' & r' & E & H' & Hrb' & Hel).
    exists s', z', c', Leaf, r'. split_and!; [by destruct l, r|done|by left|done|].
    cbn [only_child]. by rewrite elements_plug.
Qed.

(** Running two programs that start alike side by side. *)
Ltac run_same :=
  match goal with |- mbind _ ?e = Ret _ -> _ => destruct e as [?|]; [run|done] end.

Lemma remove_node_spec F s z p c l k v r :
  let xs := before z ++ elements l ++ elements r ++ after z in
  rb_ok F s (plug z (T p c l k v r)) -> Z.of_nat (length xs) < 2 ^ 32 - 1 ->
  exists s' t' nd, remove_node s (Some p) = Ret s' /\ rb_ok ((p, nd) :: F) s' t' /\
    elements t' = xs /\ n_value nd = v.
Proof.
  intros xs [H Hsize Hmin Hsort [n Hrb]] Hlen. rewrite <- focus_plug in H.
  assert (elements (plug z (T p c l k v r)) = (before z ++ elements l) ++ (p, k, v) :: elements r ++ after z) as Hel0.
  { rewrite elements_plug. cbn [elements]. by spread. }
  assert (length (elements (plug z (T p c l k v r))) = S (length xs)) as Hlen'.
  { rewrite Hel0. subst xs. rewrite !length_app. cbn [length]. rewrite !length_app. lia. }
  assert (sorted xs) as Hsort'.
  { subst xs. rewrite Hel0 in Hsort. apply sorted_delete in Hsort. by rewrite <- app_assoc in Hsort. }
  unfold remove_node. cbn [is_null negb VERIFY]. run. rewrite Hsize, Hlen'.
  destruct (Z.eqb_spec (Z.of_nat (S (length xs))) 1) as [Hone|Hmore].
  - assert (xs = []) as Hxs by (destruct xs; [done|cbn in Hone; lia]).
    destruct (no_others z l r Hxs) as (-> & -> & ->). eexists _, Leaf, (MkNode None None None c k v).
    split; [reflexivity|]. split; [|by split; [symmetry|]]. destruct H as ([Hnd Hall] & _).
    split; [done|done|done|by constructor|by exists 0%nat; constructor].
  - assert (xs <> []) as Hxs by (by destruct xs).
    destruct (remove_minimum F s s z p c l k v r H) as (s1 & -> & Hn1 & Hr1 & Hs1 & Hm1); [apply Hmin; by apply plug_ne|done|].
    run. apply (focus_meta _ _ _ _ _ s1) in H; [|done|done].
    destruct (remove_relink F s1 s1 z p c l k v r n H Hrb) as (s2 & z2 & c2 & l2 & r2 & E2 & H2 & Hone & Hrb2 & Hel2).
    fold xs in Hel2.
    destruct (remove_rest F s1 s2 z2 p c2 l2 k v r2 n H2 Hone Hrb2) as (s3 & t' & n' & nd & E3 & H3 & Hrb3 & Hel3 & Hv).
    { intros E. rewrite E in Hel2. by symmetry in Hel2. }
    revert E2. repeat run_same. intros ->. run. revert E3. repeat run_same. intros ->. run.
    eexists _, t', nd. split; [reflexivity|]. split; [|by rewrite Hel3, Hel2].
    pose proof H3 as (_ & _ & Hs3 & Hm3). split.
    + by eapply focus_meta.
    + cbn [with_size m_size]. rewrite Hs3, Hs1, Hsize, Hlen', Hel3, Hel2.
      rewrite (wrap_id u32 eq_refl) by (rewrite in_type_u32; lia). lia.
    + intros _. cbn [with_size m_minimum]. by rewrite Hm3, Hm1, Hel3, Hel2.
    + by rewrite Hel3, Hel2.
    + by exists n'.
Qed.
End removal.

(** ** The class *)

Section class.
Context {V : Type}.
Implicit Types (s : RedBlackTree V) (t l r : tree V) (z : list (frame V))
  (L F : list (ptr * Node V)) (p q : ptr) (f g : frame V).

Lemma delete_node_owned s0 R s L p n :
  state s0 R ((p, n) :: L) s -> state s0 R L (delete_node s (Some p)).
Proof.
  intros [[Hnd Hall] Hmeta]. cbn in Hnd. apply NoDup_cons in Hnd as [Hout Hnd]. apply Forall_cons in Hall as [_ Hall].
  split; [|done]. split; [done|]. rewrite Forall_forall in Hall |- *. intros x Hx. cbn.
  rewrite lookup_delete_ne; [by apply Hall|]. intros ->. apply Hout. apply list_elem_of_fmap. by exists x.
Qed.

Lemma rb_ok_delete F s t p nd : rb_ok ((p, nd) :: F) s t -> rb_ok F (delete_node s (Some p)) t.
Proof.
  intros [H Hsize Hmin Hsort Hrb]. split; [|done..]. unfold focus in *.
  eapply (own_cell _ _ s _ p) in H; [|extract_cell]. by apply delete_node_owned in H.
Qed.

Lemma rb_ok_new F s t p nd : rb_ok F s t -> m_nodes s !! p = None -> rb_ok ((p, nd) :: F) (with_nodes s (<[p := nd]> (m_nodes s))) t.
Proof.
  intros [([Hnd Hall] & Hroot & _) Hsize Hmin Hsort Hrb] Hp. split; [|done..].
  cbn [up path_cells app] in Hnd, Hall. assert (p ∉ (cells None t ++ F).*1) as Hout.
  { intros Hin. apply list_elem_of_fmap in Hin as (x & -> & Hx). rewrite Forall_forall in Hall. by rewrite (Hall x Hx) in Hp. }
  apply (state_permutation _ _ ((p, nd) :: cells None t ++ F)); [|cbn [up path_cells app]; solve_permutation]. split; [|done]. split; [by constructor|].
  constructor; [apply lookup_insert_eq|]. rewrite Forall_forall in Hall |- *. intros x Hx. cbn.
  rewrite lookup_insert_ne; [by apply Hall|]. intros ->. apply Hout. apply list_elem_of_fmap. by exists x.
Qed.

Lemma element_split t p k v :
  (p, k, v) ∈ elements t -> exists z c l r, t = plug z (T p c l k v r).
Proof.
  induction t as [|q c l IHl qk qv r IHr]; cbn; [by intros H%elem_of_nil|].
  assert (forall z f u, plug (z ++ [f]) u = fill f (plug z u)) as Hsnoc.
  { intros z f. induction z as [|g z IH]; intros u; [done|]. apply IH. }
  rewrite elem_of_app, elem_of_cons. intros [H|[[= <- <- <-]|H]].
  - destruct (IHl H) as (z & c' & l' & r' & ->). eexists (z ++ [InLeft q c qk qv r]), c', l', r'. by rewrite Hsnoc.
  - by exists [], c, l, r.
  - destruct (IHr H) as (z & c' & l' & r' & ->). eexists (z ++ [InRight q c l qk qv]), c', l', r'. by rewrite Hsnoc.
Qed.

Lemma find_node_spec F s t k :
  rb_ok F s t ->
  exists res, find_node s (m_root s) k = Ret res /\
    match res with
    | Some p => exists v, (p, k, v) ∈ elements t
    | None => forall x, x ∈ elements t -> key_of x <> k
    end.
Proof.
  intros [H _ _ Hsort _]. unfold find_node. rewrite (root_focus _ _ _ _ H).
  apply (find_loop_spec F s _ s [] t k H Hsort). pose proof (focus_size _ _ _ _ _ H). unfold walk_fuel. lia.
Qed.

Lemma value_at_spec F s t p k v : rb_ok F s t -> (p, k, v) ∈ elements t -> value_at s (Some p) = Ret (Some v).
Proof.
  intros [H _ _ _ _] (z & c & l & r & ->)%element_split. rewrite <- focus_plug in H.
  unfold value_at. cbn [is_null]. unfold focus in H. cbn [cells app] in H.
  by rewrite (node_at_owned _ _ _ _ _ _ H (list_elem_of_here _ _)).
Qed.

(** ** Height *)

Fixpoint height t : nat := match t with Leaf => 0 | T _ _ l _ _ r => S (Nat.max (height l) (height r)) end.

Lemma rbt_bounds c n t :
  rbt c n t ->
  (height t <= 2 * n + (if bool_decide (c = Red) then 1 else 0))%nat /\ (2 ^ n <= S (length (elements t)))%nat.
Proof.
  induction 1 as [|n p l k v r _ [IHl1 IHl2] _ [IHr1 IHr2]|n c c' p l k v r _ [IHl1 IHl2] _ [IHr1 IHr2]]; [cbn; lia|..].
  - cbn [height elements]. rewrite length_app. cbn [length]. rewrite !bool_decide_false in * by done.
    rewrite bool_decide_true by done. lia.
  - cbn [height elements]. rewrite length_app. cbn [length]. rewrite Nat.pow_succ_r'.
    destruct c, c'; rewrite ?bool_decide_true, ?bool_decide_false in * by done; lia.
Qed.

Lemma rb_height F s t : rb_ok F s t -> (height t <= 2 * Nat.log2 (S (length (elements t))))%nat.
Proof.
  intros [_ _ _ _ [n Hrb]]. destruct (rbt_bounds _ _ _ Hrb) as [H1 H2]. rewrite bool_decide_false in H1 by done.
  assert (n <= Nat.log2 (S (length (elements t))))%nat by (apply Nat.log2_le_pow2; lia). lia.
Qed.

(** ** Deleting all nodes *)

Lemma delete_subtree_spec s0 R par t fuel s L :
  state s0 R (cells par t ++ L) s -> t <> Leaf -> (height t <= fuel)%nat ->
  exists s', delete_subtree fuel s (root t) = Ret s' /\ state s0 R L s'.
Proof.
  revert par fuel s L. induction t as [|p c l IHl k v r IHr]; intros par fuel s L H Hne Hfuel; [done|].
  cbn [height] in Hfuel. destruct fuel as [|fuel]; [lia|]. cbn [cells root app delete_subtree] in *. spread_in H. read H.
  assert (exists s1, (if negb (is_null (root l)) then delete_subtree fuel s (root l) else Ret s) = Ret s1 /\
    state s0 R ((p, MkNode (root l) (root r) par c k v) :: cells (Some p) r ++ L) s1) as (s1 & -> & H1).
  { destruct (leaf_or l) as [->|Hl]; [by exists s|].
    replace (negb (is_null (root l))) with true by (by destruct l). apply (IHl (Some p)); [|done|lia].
    eapply state_permutation; [exact H|]. solve_permutation. }
  run. read H1.
  assert (exists s2, (if negb (is_null (root r)) then delete_subtree fuel s1 (root r) else Ret s1) = Ret s2 /\
    state s0 R ((p, MkNode (root l) (root r) par c k v) :: L) s2) as (s2 & -> & H2).
  { destruct (leaf_or r) as [->|Hr]; [by exists s1|].
    replace (negb (is_null (root r))) with true by (by destruct r). apply (IHr (Some p)); [|done|lia].
    eapply state_permutation; [exact H1|]. solve_permutation. }
  run. eexists. split; [reflexivity|]. by eapply delete_node_owned.
Qed.

Lemma height_length t : (height t <= length (elements t))%nat.
Proof. induction t as [|p c l IHl k v r IHr]; cbn; [done|]. rewrite length_app. cbn. lia. Qed.

Lemma rb_clear_spec F s t :
  rb_ok F s t -> exists s', RedBlackTree_clear s = Ret s' /\ rb_ok F s' Leaf /\ m_minimum s' = None.
Proof.
  intros [H _ _ _ _]. unfold RedBlackTree_clear. pose proof (focus_size _ _ _ _ _ H) as Hsize.
  rewrite (root_focus _ _ _ _ H). destruct (leaf_or t) as [->|Hne].
  - cbn [root is_null negb]. run. eexists. split; [reflexivity|]. split; [|done].
    split; [|done|done|by constructor|by exists 0%nat; constructor]. by destruct H as (? & ? & _).
  - replace (negb (is_null (root t))) with true by (by destruct t).
    destruct (delete_subtree_spec _ _ _ t (walk_fuel s) s F H Hne) as (s' & -> & H').
    { pose proof (height_length t). unfold walk_fuel. lia. }
    run. eexists. split; [reflexivity|]. split; [|done].
    split; [|done|done|by constructor|by exists 0%nat; constructor]. by destruct H' as (? & _).
Qed.

(** ** Positions *)

Lemma nodup_middle (xs xs' ys ys' : list (ptr * Z * V)) a :
  NoDup (xs ++ a :: ys).*1.*1 -> xs ++ a :: ys = xs' ++ a :: ys' -> xs = xs' /\ ys = ys'.
Proof.
  revert xs'. induction xs as [|x xs IH]; intros [|x' xs'] Hnd E; cbn in *.
  - by injection E.
  - injection E as -> E. apply NoDup_cons in Hnd as [Hout _]. exfalso. apply Hout. rewrite E, !fmap_app, elem_of_app. right. left.
  - injection E as -> E. apply NoDup_cons in Hnd as [Hout _]. exfalso. apply Hout. rewrite !fmap_app, elem_of_app. right. left.
  - injection E as -> E. apply NoDup_cons in Hnd as [_ Hnd]. destruct (IH xs' Hnd E) as [-> ->]. done.
Qed.

Lemma position F s t A p k v B :
  rb_ok F s t -> elements t = A ++ (p, k, v) :: B ->
  exists z c l r, focus F s s z (T p c l k v r) /\ t = plug z (T p c l k v r) /\
    A = before z ++ elements l /\ B = elements r ++ after z.
Proof.
  intros [H _ _ _ _] Hel.
  assert ((p, k, v) ∈ elements t) as Hin by (rewrite Hel, elem_of_app; right; left).
  destruct (element_split _ _ _ _ Hin) as (z & c & l & r & ->). rewrite <- focus_plug in H.
  pose proof (focus_nodup _ _ _ _ _ H) as Hnd. exists z, c, l, r. split; [done|]. split; [done|].
  rewrite Hel in Hnd. apply (nodup_middle _ _ _ _ (p, k, v) Hnd). rewrite <- Hel, elements_plug. cbn. by spread.
Qed.
End class.

(** ** Operations *)

Section operations.
Context {V : Type}.
Implicit Types (s : RedBlackTree V) (t : tree V) (F : list (ptr * Node V)) (p q : ptr).

Lemma rb_insert_spec F s t p k (v : V) :
  rb_ok F s t -> m_nodes s !! p = None -> Z.of_nat (length (elements t)) < 2 ^ 32 - 1 ->
  exists s' t' A B, RedBlackTree_insert s p k v = Ret s' /\ rb_ok F s' t' /\
    elements t = A ++ B /\ elements t' = A ++ (p, k, v) :: B /\
    (forall x, x ∈ A -> key_of x <= k) /\ (forall x, x ∈ B -> k < key_of x).
Proof.
  intros Hok Hp Hlen. apply insert_node_spec; [|done]. by apply rb_ok_new.
Qed.

Lemma remove_at_spec F s t p k v A B :
  rb_ok F s t -> Z.of_nat (length (elements t)) < 2 ^ 32 -> elements t = A ++ (p, k, v) :: B ->
  exists s' t' nd, remove_node s (Some p) = Ret s' /\ node_at s' (Some p) = Ret nd /\ n_value nd = v /\
    rb_ok F (delete_node s' (Some p)) t' /\ elements t' = A ++ B.
Proof.
  intros Hok Hlen Hel. destruct (position F s t A p k v B Hok Hel) as (z & c & l & r & _ & -> & -> & ->).
  assert (Z.of_nat (length (before z ++ elements l ++ elements r ++ after z)) < 2 ^ 32 - 1) as Hlen'.
  { revert Hlen. rewrite Hel, !length_app. cbn [length]. rewrite !length_app. lia. }
  destruct (remove_node_spec F s z p c l k v r Hok Hlen') as (s' & t' & nd & E & Hok' & Hel' & Hv).
  exists s', t', nd. split; [done|]. split.
  - destruct Hok' as [H' _ _ _ _]. apply (node_at_owned _ _ _ _ _ _ H'). cbn [path_cells app]. rewrite elem_of_app. right. left.
  - split; [done|]. split; [by eapply rb_ok_delete|]. rewrite Hel'. by spread.
Qed.

(** What [remove] and [unsafe_remove] do: with the key in the tree, one element with it
    goes. *)
Lemma rb_remove_spec F s t k :
  rb_ok F s t -> Z.of_nat (length (elements t)) < 2 ^ 32 ->
  (exists A p v B s' t', elements t = A ++ (p, k, v) :: B /\
     RedBlackTree_remove s k = Ret (true, s') /\ RedBlackTree_unsafe_remove s k = Ret (v, s') /\
     rb_ok F s' t' /\ elements t' = A ++ B) \/
  (forall x, x ∈ elements t -> key_of x <> k) /\
     RedBlackTree_remove s k = Ret (false, s) /\ RedBlackTree_unsafe_remove s k = Stop VerifyFailed.
Proof.
  intros Hok Hlen. destruct (find_node_spec F s t k Hok) as (res & E & Hres).
  unfold RedBlackTree_remove, RedBlackTree_unsafe_remove. rewrite E. run. destruct res as [p|]; [left|by right].
  destruct Hres as [v Hin]. apply list_elem_of_split in Hin as (A & B & Hel).
  destruct (remove_at_spec F s t p k v A B Hok Hlen Hel) as (s' & t' & nd & E1 & E2 & Hv & Hok' & Hel').
  exists A, p, v, B, (delete_node s' (Some p)), t'. cbn [is_null negb VERIFY]. run. rewrite E1. run. rewrite E2. run.
  by rewrite Hv.
Qed.

(** ** Searching *)

Lemma find_value F s t k :
  rb_ok F s t ->
  exists r, RedBlackTree_find s k = Ret r /\
    match r with
    | Some v => exists p, (p, k, v) ∈ elements t
    | None => forall x, x ∈ elements t -> key_of x <> k
    end.
Proof.
  intros Hok. destruct (find_node_spec F s t k Hok) as (res & E & Hres). unfold RedBlackTree_find. rewrite E. run.
  destruct res as [p|]; [|by exists None]. destruct Hres as [v Hin]. rewrite (value_at_spec F s t p k v Hok Hin).
  exists (Some v). split; [done|]. by exists p.
Qed.

Lemma find_largest_value F s t k :
  rb_ok F s t ->
  exists r, RedBlackTree_find_largest_not_above s k = Ret r /\
    match r with
    | Some v => exists p k', (p, k', v) ∈ elements t /\ k' <= k /\
                             forall x, x ∈ elements t -> key_of x <= k -> key_of x <= k'
    | None => forall x, x ∈ elements t -> k < key_of x
    end.
Proof.
  intros Hok. pose proof Hok as [H _ _ Hsort _].
  unfold RedBlackTree_find_largest_not_above, find_largest_not_above_node. rewrite (root_focus _ _ _ _ H).
  destruct (find_largest_loop_spec F s (walk_fuel s) s [] t None k H Hsort) as (res & -> & Hres).
  { pose proof (focus_size _ _ _ _ _ H). unfold walk_fuel. lia. }
  run. destruct Hres as [(p & k' & v & -> & Hin & Hk & Hmax)|[-> Hall]]; [|by exists None].
  rewrite (value_at_spec F s t p k' v Hok Hin). exists (Some v). split; [done|]. by exists p, k'.
Qed.

(** ** Iterating *)

Lemma iterator_steps F s t A p k v B :
  rb_ok F s t -> elements t = A ++ (p, k, v) :: B ->
  RBIterator_deref s (MkRBIterator (Some p) (final A)) = Ret v /\
  RBIterator_increment s (MkRBIterator (Some p) (final A)) = Ret (MkRBIterator (first B) (Some p)) /\
  RBIterator_decrement s (MkRBIterator (first B) (Some p)) = Ret (MkRBIterator (Some p) (final A)).
Proof.
  intros Hok Hel. destruct (position F s t A p k v B Hok Hel) as (z & c & l & r & H & _ & -> & ->).
  unfold RBIterator_deref, RBIterator_increment, RBIterator_decrement. cbn [it_node it_prev is_null].
  rewrite (successor_spec _ _ _ _ _ _ _ _ _ _ H), (predecessor_spec _ _ _ _ _ _ _ _ _ _ H).
  unfold focus in H. cbn [cells app] in H. by rewrite (node_at_owned _ _ _ _ _ _ H (list_elem_of_here _ _)).
Qed.

(** The values a range-for loop sees from an iterator on. *)
Fixpoint RedBlackTree_values (fuel : nat) (s : RedBlackTree V) (it : RedBlackTreeIterator) : outcome (list V) :=
  match fuel with
  | O => Stop NoFuel
  | S fuel =>
      if Iterator_is_end it then Ret []
      else
        v ← RBIterator_deref s it;
        it ← RBIterator_increment s it;
        vs ← RedBlackTree_values fuel s it;
        Ret (v :: vs)
  end.

Lemma values_spec F s t A B :
  rb_ok F s t -> elements t = A ++ B ->
  RedBlackTree_values (S (length B)) s (MkRBIterator (first B) (final A)) = Ret B.*2.
Proof.
  intros Hok. revert A. induction B as [|[[p k] v] B IH]; intros A Hel; [done|].
  destruct (iterator_steps F s t A p k v B Hok Hel) as (E1 & E2 & _).
  remember (S (length B)) as fuel eqn:Efuel. cbn [length]. rewrite <- Efuel. cbn [RedBlackTree_values].
  change (first ((p, k, v) :: B)) with (Some p). cbn [Iterator_is_end it_node is_null].
  rewrite E1. run. rewrite E2. run.
  replace (Some p) with (final (A ++ [(p, k, v)])) by (by rewrite final_app).
  rewrite (IH (A ++ [(p, k, v)])); [done|]. by rewrite Hel, <- app_assoc.
Qed.

(** ** Reachable states *)

(** Calls on a tree; a new node is put at a free address, and there are never 2^32 nodes. *)
Inductive rb_step : RedBlackTree V -> RedBlackTree V -> Prop :=
| step_insert s s' p k v :
    m_nodes s !! p = None -> Z.of_nat (size (m_nodes s)) < 2 ^ 32 - 1 ->
    RedBlackTree_insert s p k v = Ret s' -> rb_step s s'
| step_remove s s' k b : RedBlackTree_remove s k = Ret (b, s') -> rb_step s s'
| step_unsafe_remove s s' k v : RedBlackTree_unsafe_remove s k = Ret (v, s') -> rb_step s s'
| step_clear s s' : RedBlackTree_clear s = Ret s' -> rb_step s s'.

(** The memory holds the nodes of the tree and nothing else; so their number is bounded. *)
Definition tree_ok s t : Prop := rb_ok [] s t /\ Z.of_nat (length (elements t)) < 2 ^ 32.

Lemma rb_step_ok s s' t : tree_ok s t -> rb_step s s' -> exists t', tree_ok s' t'.
Proof.
  intros [Hok Hlen] Hstep. destruct Hstep as [s s' p k v Hp Hsize E|s s' k b E|s s' k v E|s s' E].
  - pose proof (focus_size _ _ _ _ _ (ok_focus _ _ _ Hok)) as Hn.
    destruct (rb_insert_spec [] s t p k v Hok Hp) as (s1 & t1 & A & B & E1 & Hok1 & HA & HB & _); [lia|].
    rewrite E in E1. injection E1 as ->. exists t1. split; [done|]. rewrite HB. rewrite HA in Hn.
    rewrite length_app in Hn |- *. cbn [length]. lia.
  - destruct (rb_remove_spec [] s t k Hok Hlen) as [(A & p & v & B & s1 & t1 & HA & E1 & _ & Hok1 & HB)|(_ & E1 & _)];
      rewrite E in E1; injection E1 as -> ->; [|by exists t].
    exists t1. split; [done|]. rewrite HB. rewrite HA in Hlen. rewrite length_app in Hlen |- *. cbn in Hlen. lia.
  - destruct (rb_remove_spec [] s t k Hok Hlen) as [(A & p & v' & B & s1 & t1 & HA & _ & E1 & Hok1 & HB)|(_ & _ & E1)];
      rewrite E in E1; [|done]. injection E1 as -> ->.
    exists t1. split; [done|]. rewrite HB. rewrite HA in Hlen. rewrite length_app in Hlen |- *. cbn in Hlen. lia.
  - destruct (rb_clear_spec [] s t Hok) as (s1 & E1 & Hok1 & _). rewrite E in E1. injection E1 as ->.
    exists Leaf. split; [done|]. cbn. lia.
Qed.

Lemma new_tree_ok : tree_ok (RedBlackTree_new ∅) Leaf.
Proof.
  split; [|done]. split; [|done|done|by constructor|by exists 0%nat; constructor].
  split; [|done]. split; [constructor|by constructor].
Qed.

Lemma rb_reachable s : rtc rb_step (RedBlackTree_new ∅) s -> exists t, tree_ok s t.
Proof.
  intros Hsteps. assert (forall a b, rtc rb_step a b -> forall t, tree_ok a t -> exists t', tree_ok b t') as H.
  { induction 1 as [|a b c Hab _ IH]; intros t Ht; [by exists t|].
    destruct (rb_step_ok _ _ _ Ht Hab) as [t' Ht']. by apply (IH t'). }
  by apply (H _ _ Hsteps Leaf new_tree_ok).
Qed.
End operations.

(** ** Properties *)

(** C5. In every state that insertions, removals and clearing reach from an empty tree
    (fewer than 2^32 - 1 nodes before an insertion), the nodes in memory form a red-black
    tree: consistent links, keys in order, no red node with a red child, the same number
    of black nodes on every way down, and the right size. [m_minimum] is the first node
    unless the tree is empty (after removing the last element it dangles,
    [RedBlackTree_remove_last_dangling]). So the height is at most twice the logarithm of
    the size. Further calls of [find], [find_largest_not_above], [insert], [remove] and
    [clear] return, following no null or stale link, and [unsafe_remove] returns if the
    key is in the tree and fails its VERIFY if not. *)
Theorem RedBlackTree_reachable_ok {V} (s : RedBlackTree V) :
  rtc rb_step (RedBlackTree_new ∅) s ->
  exists t, tree_ok s t /\ (height t <= 2 * Nat.log2 (S (length (elements t))))%nat /\
    (forall k, exists r, RedBlackTree_find s k = Ret r) /\
    (forall k, exists r, RedBlackTree_find_largest_not_above s k = Ret r) /\
    (forall p k v, m_nodes s !! p = None -> Z.of_nat (size (m_nodes s)) < 2 ^ 32 - 1 ->
       exists s', RedBlackTree_insert s p k v = Ret s') /\
    (forall k, exists b s', RedBlackTree_remove s k = Ret (b, s')) /\
    (forall k, if decide (k ∈ (elements t).*1.*2)
       then exists v s', RedBlackTree_unsafe_remove s k = Ret (v, s')
       else RedBlackTree_unsafe_remove s k = Stop VerifyFailed) /\
    (exists s', RedBlackTree_clear s = Ret s').
Proof.
  intros Hreach. destruct (rb_reachable s Hreach) as (t & Hok & Hlen). exists t.
  pose proof (ok_focus _ _ _ Hok) as H. pose proof (focus_size _ _ _ _ _ H) as Hsize.
  split; [done|]. split; [by eapply rb_height|]. split_and!.
  - intros k. destruct (find_value [] s t k Hok) as (r & E & _). by exists r.
  - intros k. destruct (find_largest_value [] s t k Hok) as (r & E & _). by exists r.
  - intros p k v Hp Hn. destruct (rb_insert_spec [] s t p k v Hok Hp) as (s' & _ & _ & _ & E & _); [lia|]. by exists s'.
  - intros k. destruct (rb_remove_spec [] s t k Hok Hlen) as [(? & ? & ? & ? & ? & ? & ? & E & _)|(_ & E & _)]; by do 2 eexists.
  - intros k. destruct (rb_remove_spec [] s t k Hok Hlen) as [(A & p & v & B & s' & ? & HA & _ & E & _)|(Hno & _ & E)].
    + rewrite decide_True; [by exists v, s'|]. rewrite HA, !fmap_app. set_solver.
    + rewrite decide_False; [done|]. intros (q & -> & (x & -> & Hx)%list_elem_of_fmap)%list_elem_of_fmap.
      by apply (Hno x).
  - destruct (rb_clear_spec [] s t Hok) as (s' & E & _). by exists s'.
Qed.

(** C26. Searching is right: [find] gives the value of an element with the key and null exactly
    if there is none; [find_largest_not_above] gives the value of an element whose key is
    the largest not above the given one, and null exactly if all keys are above it. *)
Theorem RedBlackTree_find_correct {V} F (s : RedBlackTree V) t k :
  rb_ok F s t ->
  (exists r, RedBlackTree_find s k = Ret r /\
     match r with
     | Some v => exists p, (p, k, v) ∈ elements t
     | None => forall x, x ∈ elements t -> key_of x <> k
     end) /\
  (exists r, RedBlackTree_find_largest_not_above s k = Ret r /\
     match r with
     | Some v => exists p k', (p, k', v) ∈ elements t /\ k' <= k /\
                              forall x, x ∈ elements t -> key_of x <= k -> key_of x <= k'
     | None => forall x, x ∈ elements t -> k < key_of x
     end).
Proof. intros Hok. split; [by eapply find_value|by eapply find_largest_value]. Qed.

(** C25. Updates are right.  [insert] puts the new element behind those with keys not above
    its own and before the others, and keeps the rest.  [remove] and [unsafe_remove] take
    out one element with the key and free its node, if there is one; otherwise [remove]
    returns false without a change and [unsafe_remove] fails its VERIFY.  [clear] leaves an
    empty tree.  The result is a red-black tree again, and other nodes in memory ([F]) stay. *)
Theorem RedBlackTree_updates_correct {V} F (s : RedBlackTree V) t :
  rb_ok F s t -> Z.of_nat (length (elements t)) < 2 ^ 32 - 1 ->
  (forall p k v, m_nodes s !! p = None ->
     exists s' t' A B, RedBlackTree_insert s p k v = Ret s' /\ rb_ok F s' t' /\
       elements t = A ++ B /\ elements t' = A ++ (p, k, v) :: B /\
       (forall x, x ∈ A -> key_of x <= k) /\ (forall x, x ∈ B -> k < key_of x)) /\
  (forall k,
    (exists A p v B s' t', elements t = A ++ (p, k, v) :: B /\
       RedBlackTree_remove s k = Ret (true, s') /\ RedBlackTree_unsafe_remove s k = Ret (v, s') /\
       rb_ok F s' t' /\ elements t' = A ++ B) \/
    (forall x, x ∈ elements t -> key_of x <> k) /\
       RedBlackTree_remove s k = Ret (false, s) /\ RedBlackTree_unsafe_remove s k = Stop VerifyFailed) /\
  (exists s', RedBlackTree_clear s = Ret s' /\ rb_ok F s' Leaf).
Proof.
  intros Hok Hlen. split; [|split].
  - intros p k v Hp. by apply rb_insert_spec.
  - intros k. apply rb_remove_spec; [done|lia].
  - destruct (rb_clear_spec F s t Hok) as (s' & ? & ? & _). by exists s'.
Qed.

(** C27. Iterating is in order: in a tree that has elements, or an empty one whose
    [m_minimum] is null (a new or cleared tree, not one whose last element was removed,
    [RedBlackTree_remove_last_dangling]), the values from [begin()] on are those of the
    elements in the order of their keys, and [operator--] undoes [operator++]. *)
Theorem RedBlackTree_iteration_correct {V} F (s : RedBlackTree V) t :
  rb_ok F s t -> (t = Leaf -> m_minimum s = None) ->
  RedBlackTree_values (S (length (elements t))) s (RedBlackTree_begin s) = Ret (elements t).*2 /\
  forall A p k v B, elements t = A ++ (p, k, v) :: B ->
    let it := MkRBIterator (Some p) (final A) in
    let it' := MkRBIterator (first B) (Some p) in
    RBIterator_deref s it = Ret v /\ RBIterator_increment s it = Ret it' /\ RBIterator_decrement s it' = Ret it.
Proof.
  intros Hok Hemp. split.
  - unfold RedBlackTree_begin.
    assert (t = Leaf \/ t <> Leaf) as [->|Hne] by (destruct t; [by left|by right]); [by rewrite Hemp|].
    rewrite (ok_minimum _ _ _ Hok Hne). by apply (values_spec F s t [] (elements t)).
  - intros A p k v B Hel. by apply (iterator_steps F s t A p k v B Hok Hel).
Qed.

(** ** Examples *)

(** Keys inserted one after the other, at the addresses from [p] on, with the key as value. *)
Fixpoint insert_all (s : RedBlackTree Z) (p : ptr) (keys : list Z) : outcome (RedBlackTree Z) :=
  match keys with
  | [] => Ret s
  | k :: keys => s ← RedBlackTree_insert s p k k; insert_all s (Pos.succ p) keys
  end.

Definition example_keys : list Z := [50; 20; 70; 10; 30; 25; 60; 80; 27; 26].
Definition example_tree : RedBlackTree Z :=
  match insert_all (RedBlackTree_new ∅) 1 example_keys with Ret s => s | Stop _ => RedBlackTree_new ∅ end.

(** Whether each address is free and the memory small enough. *)
Fixpoint insert_all_free (s : RedBlackTree Z) (p : ptr) (keys : list Z) : bool :=
  match keys with
  | [] => true
  | k :: keys =>
      bool_decide (m_nodes s !! p = None) && (Z.of_nat (size (m_nodes s)) <? 2 ^ 32 - 1) &&
      match RedBlackTree_insert s p k k with Ret s => insert_all_free s (Pos.succ p) keys | Stop _ => false end
  end.

Lemma insert_all_reachable keys s p :
  insert_all_free s p keys = true -> exists s', insert_all s p keys = Ret s' /\ rtc rb_step s s'.
Proof.
  revert s p. induction keys as [|k keys IH]; intros s p; cbn [insert_all_free insert_all]; [by exists s|].
  intros H. apply andb_true_iff in H as [H1 H3]. apply andb_true_iff in H1 as [H1 H2].
  apply bool_decide_eq_true in H1. apply Z.ltb_lt in H2.
  destruct (RedBlackTree_insert s p k k) as [s1|] eqn:E; [|done]. run.
  destruct (IH _ _ H3) as (s' & E' & Hs'). exists s'. split; [done|].
  eapply rtc_l; [|exact Hs']. by eapply step_insert.
Qed.

Lemma example_tree_reachable : rtc rb_step (RedBlackTree_new ∅) example_tree.
Proof.
  destruct (insert_all_reachable example_keys (RedBlackTree_new ∅) 1) as (s & E & Hs); [vm_compute; reflexivity|].
  unfold example_tree. by rewrite E.
Qed.

Lemma RedBlackTree_reachable_ok_witness :
  exists t, tree_ok example_tree t /\ (height t <= 2 * Nat.log2 (S (length (elements t))))%nat.
Proof.
  destruct (RedBlackTree_reachable_ok example_tree example_tree_reachable) as (t & H1 & H2 & _). by exists t.
Defined.

Lemma RedBlackTree_find_correct_witness :
  exists t, rb_ok [] example_tree t /\
    exists r, RedBlackTree_find_largest_not_above example_tree 29 = Ret r /\ r = Some 27.
Proof.
  destruct (rb_reachable _ example_tree_reachable) as (t & Hok & _). exists t. split; [done|].
  destruct (RedBlackTree_find_correct [] example_tree t 29 Hok) as [_ (r & E & _)]. exists r. split; [exact E|].
  assert (RedBlackTree_find_largest_not_above example_tree 29 = Ret (Some 27)) as E' by (vm_compute; reflexivity).
  rewrite E in E'. congruence.
Defined.

Lemma example_tree_size t : tree_ok example_tree t -> Z.of_nat (length (elements t)) = 10.
Proof. intros [[_ Hsize _ _ _] _]. rewrite <- Hsize. vm_compute. reflexivity. Qed.

Lemma RedBlackTree_updates_correct_witness :
  exists t, rb_ok [] example_tree t /\ exists s', RedBlackTree_clear example_tree = Ret s' /\ rb_ok [] s' Leaf.
Proof.
  destruct (rb_reachable _ example_tree_reachable) as (t & Ht). exists t. split; [by destruct Ht|].
  pose proof (example_tree_size t Ht) as Hn. destruct Ht as [Hok _].
  apply (RedBlackTree_updates_correct [] example_tree t Hok). rewrite Hn. vm_compute. reflexivity.
Defined.

Lemma RedBlackTree_iteration_correct_witness :
  exists t, RedBlackTree_values (S (length (elements t))) example_tree (RedBlackTree_begin example_tree) = Ret (elements t).*2.
Proof.
  destruct (rb_reachable _ example_tree_reachable) as (t & Ht). exists t.
  pose proof (example_tree_size t Ht) as Hn. destruct Ht as [Hok _].
  apply (RedBlackTree_iteration_correct [] example_tree t Hok). intros ->. by vm_compute in Hn.
Defined.

(** Removing in the middle, evaluated. *)
Example RedBlackTree_remove_example :
  match RedBlackTree_remove example_tree 50 with
  | Ret (b, s) => (b, RedBlackTree_values 10 s (RedBlackTree_begin s))
  | Stop _ => (false, Ret [])
  end = (true, Ret [10; 20; 25; 26; 27; 30; 60; 70; 80]).
Proof. vm_compute. reflexivity. Qed.

(** ** A defect *)

(** Removing the only element leaves [m_minimum] at the node that is deleted, so [begin()]
    of the empty tree is not [end()], and dereferencing it reads freed memory. *)
Theorem RedBlackTree_remove_last_dangling :
  exists s s', RedBlackTree_insert (RedBlackTree_new ∅) 1 5 7 = Ret s /\ RedBlackTree_remove s 5 = Ret (true, s') /\
    m_size s' = 0 /\ m_nodes s' = ∅ /\ Iterator_is_end (RedBlackTree_begin s') = false /\
    RBIterator_deref s' (RedBlackTree_begin s') = Stop Undefined.
Proof.
  eexists _, _. split; [vm_compute; reflexivity|]. split; [vm_compute; reflexivity|]. split_and!; vm_compute; reflexivity.
Qed.
