(* ===== verification/PhysicalRegion.v ===== *)
(** * Kernel/VM/PhysicalRegion: the physical pages of a region

    A region hands out pages from a bitmap.  Pages that come back first go into a small
    queue; a full queue frees a random one of its entries, and a region without free bits
    takes pages from the queue.  The random numbers are a parameter of the operations.

    [region_ok] says which pages are handed out; the theorems show that no page is handed
    out twice, building on the searches of BitmapFind.v, unless contiguous pages are asked for
    with an alignment there is no room for ([PhysicalRegion_aligned_overlap]). *)

From S2P Require Import Prelude Checked Containers BitmapView BitmapFind Bitmap.

#[local] Open Scope Z_scope.

(** [PhysicalPage], without its reference count. *)
Record PhysicalPage : Type := MkPage { m_paddr : Z; m_supervisor : bool }.

Record PhysicalRegion : Type := MkRegion {
  m_lower : Z;
  m_upper : Z;
  m_pages : Z;
  m_used : Z;
  m_bitmap : Bitmap;
  m_free_hint : Z;
  m_recently_returned : list Z
}.

Definition PhysicalAddress_offset (a o : Z) : Z := wrap FlatPtr (a + o).

(** The capacity of the queue, which is storage inside the region. *)
Definition returned_capacity : Z := 256.

Definition PhysicalRegion_create (lower upper : Z) : PhysicalRegion :=
  MkRegion lower upper 0 0 Bitmap_default 0 [].

Definition PhysicalRegion_expand (r : PhysicalRegion) (lower upper : Z) : outcome PhysicalRegion :=
  VERIFY (m_pages r =? 0) ;;
  Ret (MkRegion lower upper (m_pages r) (m_used r) (m_bitmap r) (m_free_hint r) (m_recently_returned r)).

Definition PhysicalRegion_size (r : PhysicalRegion) : Z := m_pages r.
Definition returned_count (r : PhysicalRegion) : Z := Z.of_nat (length (m_recently_returned r)).
Definition PhysicalRegion_used (r : PhysicalRegion) : Z := wrap u32 (m_used r - returned_count r).
Definition PhysicalRegion_free (r : PhysicalRegion) : Z := wrap u32 (m_pages r - m_used r + returned_count r).
Definition PhysicalRegion_contains (r : PhysicalRegion) (page : PhysicalPage) : bool :=
  (m_lower r <=? m_paddr page) && (m_paddr page <=? m_upper r).

Definition PhysicalRegion_finalize_capacity (kmalloc : Z -> Z * list Z) (r : PhysicalRegion)
    : outcome (Z * PhysicalRegion) :=
  VERIFY (m_pages r =? 0) ;;
  let pages := wrap FlatPtr (m_upper r - m_lower r) / PAGE_SIZE in
  '(bitmap, _) ← Bitmap_grow kmalloc (m_bitmap r) pages false;
  let r := MkRegion (m_lower r) (m_upper r) pages (m_used r) bitmap (m_free_hint r) (m_recently_returned r) in
  Ret (PhysicalRegion_size r, r).

(** The page of an address of the region. *)
Definition page_index (r : PhysicalRegion) (addr : Z) : outcome Z :=
  let local_offset := Checked_sub_assign_T FlatPtr (Checked_of addr) (m_lower r) in
  VERIFY (negb (Checked_has_overflow local_offset)) ;;
  value ← Checked_value local_offset;
  VERIFY (value <? wrap FlatPtr (m_pages r * PAGE_SIZE)) ;;
  Ret (value / PAGE_SIZE).

(** [rnd] is what [get_fast_random<u8>] returns. *)
Definition PhysicalRegion_find_one_free_page (rnd : Z) (r : PhysicalRegion)
    : outcome (option Z * PhysicalRegion) :=
  if m_used r =? m_pages r then
    if 0 <? returned_count r then
      let index := rnd mod returned_count r in
      addr ← Vector_at (m_recently_returned r) index;
      returned ← Vector_remove (m_recently_returned r) index;
      let r := MkRegion (m_lower r) (m_upper r) (m_pages r) (m_used r) (m_bitmap r) (m_free_hint r) returned in
      page ← page_index r addr;
      Ret (Some page, r)
    else Ret (None, r)
  else
    free_index ← Bitmap_find_one_anywhere_unset (m_bitmap r) (m_free_hint r);
    match free_index with
    | None => Ret (None, r)
    | Some page_index =>
        bitmap ← Bitmap_set (m_bitmap r) page_index true;
        let hint := wrap size_t (page_index + 1) in
        let hint := if Bitmap_size bitmap <=? hint then 0 else hint in
        Ret (Some page_index,
             MkRegion (m_lower r) (m_upper r) (m_pages r) (wrap u32 (m_used r + 1)) bitmap hint
               (m_recently_returned r))
    end.

Definition PhysicalRegion_take_free_page (rnd : Z) (r : PhysicalRegion) (supervisor : bool)
    : outcome (option PhysicalPage * PhysicalRegion) :=
  VERIFY (negb (m_pages r =? 0)) ;;
  '(free_index, r) ← PhysicalRegion_find_one_free_page rnd r;
  match free_index with
  | None => Ret (None, r)
  | Some i => Ret (Some (MkPage (PhysicalAddress_offset (m_lower r) (wrap size_t (i * PAGE_SIZE))) supervisor), r)
  end.

Definition PhysicalRegion_find_and_allocate_contiguous_range (r : PhysicalRegion) (count alignment : Z)
    : outcome (option Z * PhysicalRegion) :=
  VERIFY (negb (count =? 0)) ;;
  '(first_index, found_pages_count) ←
    Bitmap_find_longest_range_of_unset_bits (Z.to_nat (Bitmap_size (m_bitmap r)) + 1) (m_bitmap r)
      (wrap size_t (count + alignment - 1));
  match first_index with
  | None => Ret (None, r)
  | Some first_index =>
      let page :=
        if negb (alignment =? 1) then
          let lower_page := m_lower r / PAGE_SIZE in
          wrap u32 (Z.land (wrap u32 (lower_page + first_index + alignment - 1)) (wrap u32 (Z.lnot (alignment - 1)))
                    - lower_page)
        else first_index in
      if count <=? found_pages_count then
        bitmap ← Bitmap_set_range (m_bitmap r) page count true;
        let hint := wrap size_t (first_index + count + 1) in
        let hint := if Bitmap_size bitmap <=? hint then 0 else hint in
        Ret (Some page,
             MkRegion (m_lower r) (m_upper r) (m_pages r) (wrap u32 (m_used r + count)) bitmap hint
               (m_recently_returned r))
      else Ret (None, r)
  end.

Definition PhysicalRegion_find_contiguous_free_pages (r : PhysicalRegion) (count physical_alignment : Z)
    : outcome (Z * PhysicalRegion) :=
  VERIFY (negb (count =? 0)) ;;
  VERIFY (physical_alignment mod PAGE_SIZE =? 0) ;;
  '(range, r) ← PhysicalRegion_find_and_allocate_contiguous_range r count (physical_alignment / PAGE_SIZE);
  match range with
  | Some page => Ret (page, r)
  | None => Stop VerifyFailed
  end.

Definition PhysicalRegion_take_contiguous_free_pages (r : PhysicalRegion) (count : Z) (supervisor : bool)
    (physical_alignment : Z) : outcome (list PhysicalPage * PhysicalRegion) :=
  VERIFY (negb (m_pages r =? 0)) ;;
  VERIFY (negb (m_used r =? m_pages r)) ;;
  '(first_contiguous_page, r) ← PhysicalRegion_find_contiguous_free_pages r count physical_alignment;
  Ret (map (fun index => MkPage (PhysicalAddress_offset (m_lower r)
                                  (wrap size_t (PAGE_SIZE * (index + first_contiguous_page)))) supervisor)
         (seqZ 0 count), r).

Definition PhysicalRegion_free_page_at (r : PhysicalRegion) (addr : Z) : outcome PhysicalRegion :=
  VERIFY (negb (m_pages r =? 0)) ;;
  VERIFY (negb (m_used r =? 0)) ;;
  page ← page_index r addr;
  bitmap ← Bitmap_set (m_bitmap r) page false;
  Ret (MkRegion (m_lower r) (m_upper r) (m_pages r) (wrap u32 (m_used r - 1)) bitmap page (m_recently_returned r)).

Definition PhysicalRegion_return_page (rnd : Z) (r : PhysicalRegion) (page : PhysicalPage) : outcome PhysicalRegion :=
  if returned_capacity <=? returned_count r then
    entry ← Vector_at (m_recently_returned r) rnd;
    r ← PhysicalRegion_free_page_at r entry;
    returned ← Vector_at_put (m_recently_returned r) rnd (m_paddr page);
    Ret (MkRegion (m_lower r) (m_upper r) (m_pages r) (m_used r) (m_bitmap r) (m_free_hint r) returned)
  else
    Ret (MkRegion (m_lower r) (m_upper r) (m_pages r) (m_used r) (m_bitmap r) (m_free_hint r)
           (m_recently_returned r ++ [m_paddr page])).

(** ** Which pages are taken *)

(** The bitmap of a region has the bits of the taken pages set. *)
Record taken_ok (b : Bitmap) (pages : Z) (taken : list Z) : Prop := TakenOk {
  taken_view : view_ok (Bitmap_view b);
  taken_aligned : b_addr b mod 4 = 0;
  taken_size : b_size b = pages;
  taken_nodup : NoDup taken;
  taken_range : forall i, i ∈ taken -> 0 <= i < pages;
  taken_bits : forall i, 0 <= i < pages -> bit (b_data b) i = bool_decide (i ∈ taken)
}.

#[global] Instance taken_ok_permutation b pages : Proper ((≡ₚ) ==> iff) (taken_ok b pages).
Proof.
  assert (forall l l', l ≡ₚ l' -> taken_ok b pages l -> taken_ok b pages l') as H.
  { intros l l' Hl [Hv Ha Hs Hn Hr Hb]. split; [done | done | done | by rewrite <- Hl | |].
    - intros i Hi. apply Hr. by rewrite Hl.
    - intros i Hi. rewrite Hb by done. by apply bool_decide_ext; rewrite Hl. }
  intros l l' Hl. split; by apply H.
Qed.

Section taken.
Context (b : Bitmap) (pages : Z).

Lemma taken_write P value taken taken' d :
  taken_ok b pages taken -> writes P value (b_data b) d -> NoDup taken' ->
  (forall i, i ∈ taken' -> 0 <= i < pages) ->
  (forall i, 0 <= i < pages -> i ∈ taken' <-> if P i then value = true else i ∈ taken) ->
  taken_ok (MkBitmap (b_addr b) d (b_size b)) pages taken'.
Proof.
  intros [Hv Ha Hs Hn Hr Hb] Hw Hn' Hr' Hi'. split; try done.
  - exact (writes_view_ok _ _ _ _ Hv Hw).
  - intros i Hi. destruct Hw as (_ & _ & Hw). cbn. rewrite Hw, Hb by lia.
    specialize (Hi' i Hi). destruct (P i); [|by apply bool_decide_ext].
    destruct value; symmetry; [by apply bool_decide_eq_true, Hi' |].
    apply bool_decide_eq_false. by intros ?%Hi'.
Qed.

Lemma taken_set taken i :
  taken_ok b pages taken -> 0 <= i < pages -> i ∉ taken ->
  exists b', Bitmap_set b i true = Ret b' /\ taken_ok b' pages (i :: taken).
Proof.
  intros Ht Hi Hni. pose proof Ht as [Hv _ Hs Hn Hr _].
  destruct (Bitmap_set_spec b i true) as (d & Heq & Hw); [done | lia|].
  eexists; split; [done|]. apply (taken_write _ _ _ _ _ Ht Hw); [by constructor | |].
  - intros j [-> | Hj]%elem_of_cons; [done | by apply Hr].
  - intros j Hj. rewrite elem_of_cons. destruct (Z.eqb_spec i j); intuition congruence.
Qed.

Lemma taken_clear taken i :
  taken_ok b pages (i :: taken) ->
  exists b', Bitmap_set b i false = Ret b' /\ taken_ok b' pages taken.
Proof.
  intros Ht. pose proof Ht as [Hv _ Hs [Hni Hn]%NoDup_cons Hr _].
  destruct (Bitmap_set_spec b i false) as (d & Heq & Hw);
    [done | rewrite Hs; apply Hr, list_elem_of_here |].
  eexists; split; [done|]. apply (taken_write _ _ _ _ _ Ht Hw); [done | |].
  - intros j Hj. apply Hr. by apply list_elem_of_further.
  - intros j Hj. destruct (Z.eqb_spec i j) as [->|]; [by split|]. rewrite elem_of_cons.
    intuition congruence.
Qed.

Lemma taken_free_range taken i n :
  taken_ok b pages taken -> 0 <= i -> i + n <= pages ->
  fits (b_data b) n i <-> forall j, i <= j < i + n -> j ∉ taken.
Proof.
  intros [_ _ _ _ _ Hb] Hi Hn. unfold fits. split; intros H j Hj; specialize (H j Hj).
  - rewrite Hb in H by lia. by apply bool_decide_eq_false in H.
  - rewrite Hb by lia. by apply bool_decide_eq_false.
Qed.

Lemma taken_set_range taken i n :
  taken_ok b pages taken -> 0 <= i -> 0 < n -> i + n <= pages ->
  (forall j, i <= j < i + n -> j ∉ taken) -> (i + n) / 8 < Z.of_nat (length (b_data b)) ->
  exists b', Bitmap_set_range b i n true = Ret b' /\ taken_ok b' pages (seqZ i n ++ taken).
Proof.
  intros Ht Hi Hn Hin Hfree Hroom. pose proof Ht as [Hv _ Hs Hnd Hr _].
  destruct (set_range_impl_spec true false (Bitmap_view b) i n) as (d & Heq & Hw);
    [done | cbn; lia | lia | cbn; lia | done | done |].
  unfold Bitmap_set_range, BitmapView_set_range. rewrite Heq. run.
  eexists; split; [done|]. apply (taken_write _ _ _ _ _ Ht Hw).
  - apply NoDup_app. split_and!; [apply NoDup_seqZ | | done].
    intros j Hj%elem_of_seqZ. by apply Hfree.
  - intros j [Hj%elem_of_seqZ | Hj]%elem_of_app; [lia | by apply Hr].
  - intros j Hj. rewrite elem_of_app, elem_of_seqZ. unfold in_range.
    destruct (_ && _) eqn:E; [split; [done | left; lia] |].
    apply andb_false_iff in E. split; [intros [?|?]; [lia | done] | by right].
Qed.

(** As many pages are taken as there are exactly if all are. *)
Lemma taken_count taken :
  taken_ok b pages taken -> 0 <= pages ->
  Z.of_nat (length taken) <= pages /\
  (Z.of_nat (length taken) = pages -> forall i, 0 <= i < pages -> i ∈ taken).
Proof.
  intros [_ _ _ Hn Hr _] Hp.
  assert (taken ⊆+ seqZ 0 pages) as Hsub.
  { apply NoDup_submseteq; [done|]. intros i Hi. apply elem_of_seqZ. specialize (Hr i Hi). lia. }
  pose proof (submseteq_length _ _ Hsub) as Hl. rewrite length_seqZ in Hl. split; [lia|].
  intros Heq i Hi. rewrite (submseteq_length_Permutation _ _ Hsub) by (rewrite length_seqZ; lia).
  apply elem_of_seqZ. lia.
Qed.

End taken.

(** ** The state of a region *)

(** The address of a page of a region that starts at [lower]. *)
Definition page_addr (lower i : Z) : Z := lower + i * PAGE_SIZE.

(** [live] are the pages handed out, [returned] those in the queue. *)
Record region_ok (r : PhysicalRegion) (live returned : list Z) : Prop := RegionOk {
  reg_pages : 0 < m_pages r < 2 ^ 20;
  reg_area : 0 <= m_lower r /\ m_lower r + m_pages r * PAGE_SIZE <= 2 ^ 32;
  reg_hint : 0 <= m_free_hint r < m_pages r;
  reg_taken : taken_ok (m_bitmap r) (m_pages r) (live ++ returned);
  reg_used : m_used r = Z.of_nat (length (live ++ returned));
  reg_returned : m_recently_returned r = map (page_addr (m_lower r)) returned;
  reg_queue : (length returned <= 256)%nat
}.

Definition same_area (r r' : PhysicalRegion) : Prop :=
  m_lower r' = m_lower r /\ m_upper r' = m_upper r /\ m_pages r' = m_pages r.

Lemma returned_count_ok r live returned :
  region_ok r live returned -> returned_count r = Z.of_nat (length returned).
Proof. intros H. unfold returned_count. by rewrite (reg_returned _ _ _ H), length_map. Qed.

Lemma page_index_spec r lower i :
  m_lower r = lower ->
  0 < m_pages r < 2 ^ 20 -> 0 <= m_lower r -> m_lower r + m_pages r * PAGE_SIZE <= 2 ^ 32 ->
  0 <= i < m_pages r -> page_index r (page_addr lower i) = Ret i.
Proof.
  intros <-. unfold page_addr, PAGE_SIZE. intros Hp Hl Hu Hi.
  unfold page_index, Checked_sub_assign_T, Checked_sub, builtin_overflow, FlatPtr, PAGE_SIZE.
  cbn [m_value m_overflow Checked_of orb].
  replace (m_lower r + i * 4096 - m_lower r) with (i * 4096) by lia.
  rewrite (proj2 (in_typeb_spec u32 (i * 4096))) by int_lia. wrap_small u32. wrap_small u32.
  cbn -[Z.mul]. rewrite VERIFY_true by lia. run. by rewrite Z.div_mul.
Qed.

Lemma page_addr_offset r i :
  0 <= m_lower r -> m_lower r + m_pages r * PAGE_SIZE <= 2 ^ 32 -> 0 <= i < m_pages r ->
  PhysicalAddress_offset (m_lower r) (wrap size_t (i * PAGE_SIZE)) = page_addr (m_lower r) i.
Proof.
  unfold page_addr, PhysicalAddress_offset, FlatPtr, size_t, PAGE_SIZE. intros Hl Hu Hi.
  by rewrite !wrap_id by first [exact eq_refl | int_lia].
Qed.

(** *** Taking one page *)

(** What a region that has no page to give is left with. *)
Definition exhausted (r : PhysicalRegion) (live returned : list Z) : Prop :=
  (forall i, 0 <= i < 8 * (m_pages r / 8) -> i ∈ live ++ returned) /\
  (m_used r = m_pages r -> returned = []).

(** A position in the queue splits it. *)
Lemma split_returned r live returned k :
  region_ok r live returned -> 0 <= k < Z.of_nat (length returned) ->
  exists i a b, returned = a ++ i :: b /\ k = Z.of_nat (length (map (page_addr (m_lower r)) a)) /\
    m_recently_returned r = map (page_addr (m_lower r)) a ++ page_addr (m_lower r) i :: map (page_addr (m_lower r)) b.
Proof.
  intros Hr Hk. destruct (lookup_lt_is_Some_2 returned (Z.to_nat k)) as (i & Hi); [lia|].
  apply list_elem_of_split_length in Hi as (a & b & -> & Ha).
  exists i, a, b. split_and!; [done | rewrite length_map; lia |].
  by rewrite (reg_returned _ _ _ Hr), map_app.
Qed.

Ltac region_fields :=
  cbn [m_lower m_upper m_pages m_used m_bitmap m_free_hint m_recently_returned].

Lemma find_one_free_page_spec rnd r live returned :
  region_ok r live returned -> 0 <= rnd ->
  exists res r', PhysicalRegion_find_one_free_page rnd r = Ret (res, r') /\ same_area r r' /\
    match res with
    | Some i => 0 <= i < m_pages r /\ (i ∉ live) /\
        (exists returned', region_ok r' (i :: live) returned')
    | None => r' = r /\ exhausted r live returned
    end.
Proof.
  intros Hr Hrnd. pose proof Hr as [Hp [Hl Hu] Hh Ht Hused Hret Hq].
  destruct (taken_count _ _ _ Ht) as [Hcount Hall]; [lia|]. rewrite <- Hused in Hcount, Hall.
  unfold PhysicalRegion_find_one_free_page. rewrite (returned_count_ok _ _ _ Hr).
  destruct (Z.eqb_spec (m_used r) (m_pages r)) as [Hfull|Hroom].
  - destruct (Z.ltb_spec 0 (Z.of_nat (length returned))) as [Hsome|Hnone].
    + destruct (split_returned r live returned (rnd mod Z.of_nat (length returned)))
        as (i & a & b & -> & -> & Hq'); [done | apply Z.mod_pos_bound; lia|].
      rewrite Hq', Vector_at_middle. run. rewrite Vector_remove_middle. run.
      assert (i ∈ live ++ a ++ i :: b) as Hi by (rewrite !elem_of_app, elem_of_cons; tauto).
      apply (taken_range _ _ _ Ht) in Hi.
      rewrite page_index_spec by done. run. do 2 eexists; split; [done|]. split; [by split_and!|].
      rewrite <- (Permutation_middle a b i), <- (Permutation_middle live (a ++ b) i) in Ht.
      split_and!; [lia | lia | | exists (a ++ b)].
      * apply taken_nodup, NoDup_cons in Ht as [Hn _]. rewrite elem_of_app in Hn. tauto.
      * rewrite length_app in Hq. cbn in Hq.
        split; region_fields; try done; [| by rewrite map_app | rewrite length_app; lia].
        rewrite Hused, !length_app. cbn [length]. lia.
    + exists None, r. split; [done|]. split; [done|]. split; [done|].
      destruct returned; [|cbn in Hnone; lia]. split; [|done]. intros i Hi. apply Hall; int_lia.
  - unfold Bitmap_find_one_anywhere_unset. pose proof Ht as [Hv Hal Hs _ _ Hb].
    destruct (BitmapView_find_one_anywhere_correct false (Bitmap_view (m_bitmap r)) (m_free_hint r))
      as (res & -> & Hres); [done | done | cbn; lia|]. run. cbn in Hres. rewrite Hs in Hres.
    assert (forall i, 0 <= i < m_pages r ->
      BitmapView_get (Bitmap_view (m_bitmap r)) i = Ret (bool_decide (i ∈ live ++ returned))) as Hget
      by (intros i Hi; rewrite get_spec by (done || cbn; lia); cbn; by rewrite Hb).
    destruct res as [i|].
    + destruct Hres as (Hi & Hg). rewrite Hget in Hg by done. injection Hg as Hg%bool_decide_eq_false.
      destruct (taken_set _ _ _ i Ht Hi Hg) as (b' & -> & Ht'). run.
      do 2 eexists; split; [done|]. split; [by split_and!|]. rewrite elem_of_app in Hg.
      split_and!; [lia | lia | tauto |].
      exists returned. split; region_fields; try done;
        [| cbn [app length]; rewrite Nat2Z.inj_succ, <- Hused; wrap_small u32; lia].
      unfold Bitmap_size. rewrite (taken_size _ _ _ Ht'). unfold size_t. wrap_small u32.
      destruct (Z.leb_spec (m_pages r) (i + 1)); lia.
    + exists None, r. split; [done|]. split; [done|]. split; [done|]. split; [|done].
      intros i Hi. specialize (Hres i Hi). rewrite Hget in Hres by int_lia.
      injection Hres as Hg%bool_decide_eq_true. done.
Qed.

Lemma exhausted_full r live returned :
  region_ok r live returned -> exhausted r live returned -> m_pages r mod 8 = 0 ->
  forall i, 0 <= i < m_pages r -> i ∈ live.
Proof.
  intros Hr [Hall Hnone] Hm. pose proof Hr as [Hp _ _ Ht Hused _ _].
  assert (m_used r = m_pages r) as Heq.
  { destruct (taken_count _ _ _ Ht) as [Hle _]; [lia|]. rewrite Hused.
    assert (seqZ 0 (m_pages r) ⊆+ live ++ returned) as Hsub.
    { apply NoDup_submseteq; [apply NoDup_seqZ|]. intros i Hi%elem_of_seqZ. apply Hall. int_lia. }
    apply submseteq_length in Hsub. rewrite length_seqZ in Hsub. lia. }
  intros i Hi. rewrite (Hnone Heq), app_nil_r in Hall. apply Hall. int_lia.
Qed.

Lemma take_free_page_spec rnd r live returned supervisor :
  region_ok r live returned -> 0 <= rnd ->
  exists res r', PhysicalRegion_take_free_page rnd r supervisor = Ret (res, r') /\ same_area r r' /\
    match res with
    | Some page => exists i returned', page = MkPage (page_addr (m_lower r) i) supervisor /\
        0 <= i < m_pages r /\ (i ∉ live) /\ region_ok r' (i :: live) returned'
    | None => r' = r /\ exhausted r live returned
    end.
Proof.
  intros Hr Hrnd. destruct (find_one_free_page_spec rnd r live returned Hr Hrnd)
    as (res & r' & Heq & Harea & Hres). pose proof Hr as [Hp [Hl Hu] _ _ _ _ _].
  unfold PhysicalRegion_take_free_page. rewrite VERIFY_true by (rewrite negb_true_iff; lia). run.
  rewrite Heq. run. destruct res as [i|]; [|by exists None, r'].
  destruct Hres as (Hi & Hni & returned' & Hr'). destruct Harea as (Hl' & Hu' & Hp').
  do 2 eexists; split; [done|]. split; [done|]. exists i, returned'. split; [|done].
  by rewrite Hl', page_addr_offset.
Qed.

(** *** Returning a page *)

Lemma free_page_at_spec r live returned i taken :
  region_ok r live returned -> live ++ returned ≡ₚ i :: taken ->
  exists b, PhysicalRegion_free_page_at r (page_addr (m_lower r) i) =
      Ret (MkRegion (m_lower r) (m_upper r) (m_pages r) (m_used r - 1) b i (m_recently_returned r)) /\
    taken_ok b (m_pages r) taken /\ 0 <= i < m_pages r.
Proof.
  intros [Hp [Hl Hu] _ Ht Hused _ _] Hperm. rewrite Hperm in Ht, Hused.
  assert (0 <= i < m_pages r) as Hi by (apply (taken_range _ _ _ Ht), list_elem_of_here).
  destruct (taken_count _ _ _ Ht) as [Hle _]; [lia|].
  unfold PhysicalRegion_free_page_at. cbn [length] in Hused, Hle.
  rewrite !VERIFY_true by (rewrite negb_true_iff; lia). run. rewrite page_index_spec by done. run.
  destruct (taken_clear _ _ _ _ Ht) as (b & -> & Ht'). run. wrap_small u32. by exists b.
Qed.

#[global] Instance region_ok_permutation r :
  Proper ((≡ₚ) ==> (=) ==> iff) (region_ok r).
Proof.
  assert (forall l l' q, l ≡ₚ l' -> region_ok r l q -> region_ok r l' q) as H.
  { intros l l' q Hl [Hp Ha Hh Ht Hu Hr Hq]. split; [done.. | | | done | done];
      by rewrite <- Hl. }
  intros l l' Hl q q' ->. split; by apply H.
Qed.

Lemma return_page_spec rnd r i live returned page :
  region_ok r (i :: live) returned -> 0 <= rnd < 256 -> m_paddr page = page_addr (m_lower r) i ->
  exists r', PhysicalRegion_return_page rnd r page = Ret r' /\ same_area r r' /\
    exists returned', region_ok r' live returned'.
Proof.
  intros Hr Hrnd Hpage. pose proof Hr as [Hp [Hl Hu] Hh Ht Hused Hret Hq].
  unfold PhysicalRegion_return_page, returned_capacity. rewrite (returned_count_ok _ _ _ Hr).
  destruct (Z.leb_spec 256 (Z.of_nat (length returned))) as [Hfull|Hroom].
  - destruct (split_returned r _ _ rnd Hr) as (j & a & b & -> & Hrnd' & Hq'); [lia|].
    destruct (free_page_at_spec r (i :: live) (a ++ j :: b) j (live ++ a ++ i :: b) Hr)
      as (b' & Heq & Ht' & Hj).
    { rewrite <- !(Permutation_middle a b), <- !(Permutation_middle live (a ++ b)). cbn.
      rewrite <- !(Permutation_middle live (a ++ b)). apply perm_swap. }
    rewrite Hq', Hrnd', Vector_at_middle. run. rewrite Heq. run. region_fields.
    rewrite Hq', Vector_at_put_insert by (rewrite length_app; cbn [length]; lia). run.
    eexists; split; [done|]. split; [done|]. exists (a ++ i :: b).
    split; region_fields; [done | done | done | done | | |].
    + rewrite Hused, !length_app. cbn [length]. lia.
    + by rewrite Nat2Z.id, insert_app_r_alt, Nat.sub_diag, Hpage, map_app by done.
    + rewrite length_app in *. exact Hq.
  - eexists; split; [done|]. split; [done|]. exists (returned ++ [i]).
    assert (live ++ returned ++ [i] ≡ₚ (i :: live) ++ returned) as Hperm
      by (rewrite app_assoc; apply Permutation_sym, Permutation_cons_append).
    split; region_fields; [done | done | done | by rewrite Hperm | by rewrite Hperm | |].
    + by rewrite Hret, Hpage, map_app.
    + rewrite length_app. cbn [length]. lia.
Qed.

(** *** Taking a range of pages *)

Definition free_range (r : PhysicalRegion) (taken : list Z) (count i : Z) : Prop :=
  0 <= i /\ i + count <= m_pages r /\ forall j, i <= j < i + count -> j ∉ taken.

(** Marking a range of free pages; [first] is where the range was found. *)
Lemma mark_range_spec r live returned count i first :
  region_ok r live returned -> 0 < count -> free_range r (live ++ returned) count i ->
  0 <= first -> first + count < 2 ^ 32 - 1 ->
  match Bitmap_set_range (m_bitmap r) i count true with
  | Ret bitmap =>
      let hint := wrap size_t (first + count + 1) in
      let hint := if Bitmap_size bitmap <=? hint then 0 else hint in
      region_ok (MkRegion (m_lower r) (m_upper r) (m_pages r) (wrap u32 (m_used r + count)) bitmap hint
                   (m_recently_returned r)) (seqZ i count ++ live) returned
  | Stop OutOfBounds => i = m_pages r - count
  | Stop _ => False
  end.
Proof.
  intros Hr Hc (Hi & Hin & Hfree) Hf0 Hf. pose proof Hr as [Hp [Hl Hu] Hh Ht Hused Hret Hq].
  pose proof Ht as [Hv _ Hs _ _ _].
  pose proof (ok_room _ Hv) as Hroom. unfold BitmapView_size_in_bytes in Hroom. cbn in Hroom.
  rewrite ceil_div_8, Hs in Hroom.
  destruct (Z.lt_ge_cases ((i + count) / 8) (Z.of_nat (length (b_data (m_bitmap r))))) as [Hin8|Hout].
  - destruct (taken_set_range _ _ _ i count Ht) as (b' & -> & Ht'); [lia.. | done | done |].
    rewrite app_assoc in Ht'. unfold size_t, Bitmap_size. cbv zeta.
    split; region_fields; try done.
    + rewrite (taken_size _ _ _ Ht'). wrap_small u32.
      destruct (Z.leb_spec (m_pages r) (first + count + 1)); lia.
    + destruct (taken_count _ _ _ Ht') as [Hle' _]; [lia|].
      rewrite <- app_assoc, length_app, length_seqZ, Nat2Z.inj_add, <- Hused in Hle'.
      rewrite <- app_assoc, length_app, length_seqZ, Nat2Z.inj_add, <- Hused.
      wrap_small u32. lia.
  - unfold Bitmap_set_range. destruct (range_to_end_stop (Bitmap_view (m_bitmap r)) i count true)
      as [_ ->]; [done | cbn; lia | cbn; int_lia | cbn; int_lia |]. run. int_lia.
Qed.

Lemma find_contiguous_spec r live returned count :
  region_ok r live returned -> 0 < count < 2 ^ 32 ->
  match PhysicalRegion_find_contiguous_free_pages r count PAGE_SIZE with
  | Ret (i, r') => free_range r (live ++ returned) count i /\ same_area r r' /\
      region_ok r' (seqZ i count ++ live) returned
  | Stop VerifyFailed => m_pages r mod 32 = 0 -> forall i, ~ free_range r (live ++ returned) count i
  | Stop OutOfBounds => free_range r (live ++ returned) count (m_pages r - count)
  | Stop _ => False
  end.
Proof.
  intros Hr Hc. pose proof Hr as [Hp [Hl Hu] Hh Ht Hused Hret Hq]. pose proof Ht as [Hv _ Hs _ _ _].
  unfold PhysicalRegion_find_contiguous_free_pages, PhysicalRegion_find_and_allocate_contiguous_range.
  rewrite !(VERIFY_true (negb (count =? 0))) by (rewrite negb_true_iff; lia). run.
  change (VERIFY (PAGE_SIZE mod PAGE_SIZE =? 0)) with (Ret ()). run.
  change (PAGE_SIZE / PAGE_SIZE) with 1. replace (count + 1 - 1) with count by lia.
  unfold Bitmap_find_longest_range_of_unset_bits, Bitmap_size, size_t.
  rewrite (wrap_id u32 eq_refl count) by int_lia.
  destruct (BitmapView_find_longest_correct (Z.to_nat (b_size (m_bitmap r)) + 1)
    (Bitmap_view (m_bitmap r)) count) as (res & n & -> & Hres & Hmax);
    [done | cbn; lia | lia | cbn; lia|]. run. cbn in Hres, Hmax. rewrite Hs in *.
  assert (forall i, free_range r (live ++ returned) count i -> m_pages r mod 32 = 0 -> count <= n) as Hnone.
  { intros i (Hi & Hin & Hf) Hm. apply (Hmax Hm i count); [lia.. |].
    by apply (taken_free_range _ _ _ _ _ Ht). }
  destruct res as [i|]; [|run; subst n; intros Hm i Hi; specialize (Hnone i Hi Hm); lia].
  destruct Hres as (Hn & Hi & Hin & Hfit). cbn [negb Z.eqb Pos.eqb].
  destruct (Z.leb_spec count n) as [Hle|Hgt];
    [|run; intros Hm j Hj; specialize (Hnone j Hj Hm); lia].
  assert (n = count) as -> by lia. rewrite (taken_free_range _ _ _ _ _ Ht) in Hfit by lia.
  pose proof (mark_range_spec r live returned count i i Hr) as Hmark.
  specialize (Hmark ltac:(lia) ltac:(by split_and!) ltac:(lia) ltac:(lia)).
  destruct (Bitmap_set_range (m_bitmap r) i count true) as [b'|[]]; run; try done.
  rewrite <- Hmark. by split_and!.
Qed.

Lemma contiguous_pages r count i supervisor :
  0 <= m_lower r -> m_lower r + m_pages r * PAGE_SIZE <= 2 ^ 32 -> 0 <= i -> i + count <= m_pages r ->
  map (fun index => MkPage (PhysicalAddress_offset (m_lower r) (wrap size_t (PAGE_SIZE * (index + i))))
                      supervisor) (seqZ 0 count) =
  map (fun j => MkPage (page_addr (m_lower r) j) supervisor) (seqZ i count).
Proof.
  intros Hl Hu Hi Hin. replace (seqZ i count) with (map (Z.add i) (seqZ 0 count))
    by (etransitivity; [apply fmap_add_seqZ | f_equal; lia]).
  rewrite map_map. apply map_ext_in. intros j Hj%list_elem_of_In%elem_of_seqZ.
  rewrite Z.mul_comm, (Z.add_comm j i), page_addr_offset by (done || lia). done.
Qed.

Lemma take_contiguous_spec r live returned count supervisor :
  region_ok r live returned -> 0 < count < 2 ^ 32 ->
  match PhysicalRegion_take_contiguous_free_pages r count supervisor PAGE_SIZE with
  | Ret (pages, r') => exists i, free_range r (live ++ returned) count i /\ same_area r r' /\
      pages = map (fun j => MkPage (page_addr (m_lower r) j) supervisor) (seqZ i count) /\
      region_ok r' (seqZ i count ++ live) returned
  | Stop VerifyFailed => m_pages r mod 32 = 0 -> forall i, ~ free_range r (live ++ returned) count i
  | Stop OutOfBounds => free_range r (live ++ returned) count (m_pages r - count)
  | Stop _ => False
  end.
Proof.
  intros Hr Hc. pose proof Hr as [Hp [Hl Hu] _ Ht Hused _ _].
  unfold PhysicalRegion_take_contiguous_free_pages.
  rewrite (VERIFY_true (negb (m_pages r =? 0))) by (rewrite negb_true_iff; lia). run.
  destruct (Z.eqb_spec (m_used r) (m_pages r)) as [Hfull|_]; cbn [negb]; unfold VERIFY at 1; run.
  { intros _ i (Hi & Hin & Hf). apply (Hf i); [lia|].
    destruct (taken_count _ _ _ Ht) as [_ Hall]; [lia|]. apply Hall; lia. }
  pose proof (find_contiguous_spec r live returned count Hr Hc) as Hspec.
  destruct (PhysicalRegion_find_contiguous_free_pages r count PAGE_SIZE) as [[i r']|f]; [|exact Hspec].
  run. destruct Hspec as (Hf & (Hl' & Hu' & Hp') & Hr'). exists i. split_and!; [done.. | | done].
  destruct Hf as (Hi & Hin & _). rewrite Hl'. by apply contiguous_pages.
Qed.

(** The range that is searched for an aligned request was found in its full length. *)
Definition room_for_alignment (r : PhysicalRegion) (count alignment : Z) : Prop :=
  exists first, Bitmap_find_longest_range_of_unset_bits (Z.to_nat (Bitmap_size (m_bitmap r)) + 1)
                  (m_bitmap r) (count + alignment - 1) = Ret (Some first, count + alignment - 1).

(** Clearing the bits of [m] takes off at most [m]. *)
Lemma land_lnot_bounds x m :
  in_type u32 x -> in_type u32 m -> x - m <= Z.land x (wrap u32 (Z.lnot m)) <= x.
Proof.
  rewrite !in_type_u32. intros Hx Hm.
  assert (Z.land x (wrap u32 (Z.lnot m)) = x - Z.land x m) as ->.
  { rewrite (Z.sub_nocarry_ldiff x (Z.land x m)).
    - apply Z.bits_inj'. intros n Hn. rewrite Z.land_spec, Z.ldiff_spec, Z.land_spec.
      change (wrap u32 (Z.lnot m)) with (Z.lnot m mod 2 ^ 32).
      destruct (Z.lt_ge_cases n 32).
      + rewrite Z.mod_pow2_bits_low, Z.lnot_spec by lia. by destruct (Z.testbit x n), (Z.testbit m n).
      + rewrite <- (Z.mod_small x (2 ^ 32)) by lia. by rewrite !Z.mod_pow2_bits_high by lia.
    - apply Z.bits_inj'. intros n Hn. rewrite Z.ldiff_spec, Z.land_spec, Z.bits_0.
      by destruct (Z.testbit x n), (Z.testbit m n). }
  assert (0 <= Z.land x m) by (apply Z.land_nonneg; lia).
  assert (m - Z.land x m = Z.ldiff m (Z.land x m)) as Hm'.
  { apply Z.sub_nocarry_ldiff, Z.bits_inj'. intros n Hn. rewrite Z.ldiff_spec, Z.land_spec, Z.bits_0.
    by destruct (Z.testbit x n), (Z.testbit m n). }
  assert (0 <= Z.ldiff m (Z.land x m)) by (apply Z.ldiff_nonneg; lia). lia.
Qed.

Lemma find_contiguous_aligned r live returned count physical_alignment i r' :
  region_ok r live returned -> 0 < count < 2 ^ 32 -> 0 < physical_alignment < 2 ^ 32 ->
  room_for_alignment r count (physical_alignment / PAGE_SIZE) ->
  PhysicalRegion_find_contiguous_free_pages r count physical_alignment = Ret (i, r') ->
  free_range r (live ++ returned) count i /\ same_area r r' /\
  region_ok r' (seqZ i count ++ live) returned.
Proof.
  intros Hr Hc Hpa [first Hfind]. pose proof Hr as [Hp [Hl Hu] Hh Ht Hused Hret Hq].
  pose proof Ht as [Hv _ Hs _ _ _].
  unfold PhysicalRegion_find_contiguous_free_pages, PhysicalRegion_find_and_allocate_contiguous_range.
  rewrite !(VERIFY_true (negb (count =? 0))) by (rewrite negb_true_iff; lia). run.
  destruct (Z.eqb_spec (physical_alignment mod PAGE_SIZE) 0) as [Hmod|]; [|done]. cbn [VERIFY]. run.
  set (a := physical_alignment / PAGE_SIZE) in *.
  assert (1 <= a < 2 ^ 20) as Ha by (unfold a, PAGE_SIZE in *; int_lia).
  destruct (BitmapView_find_longest_correct (Z.to_nat (b_size (m_bitmap r)) + 1)
    (Bitmap_view (m_bitmap r)) (count + a - 1)) as (res & n & Hfind' & Hres & _);
    [done | cbn; lia | lia | cbn; lia|].
  unfold Bitmap_find_longest_range_of_unset_bits, Bitmap_size in Hfind |- *.
  rewrite Hfind in Hfind'. injection Hfind' as <- <-. cbn in Hres. rewrite Hs in Hres.
  destruct Hres as (_ & Hf0 & Hfn & Hfit). rewrite (taken_free_range _ _ _ _ _ Ht) in Hfit by lia.
  unfold size_t. rewrite (wrap_id u32 eq_refl (count + a - 1)) by int_lia. rewrite Hfind. run.
  set (page := if negb (a =? 1) then _ else first).
  assert (first <= page <= first + a - 1) as Hpage.
  { unfold page. destruct (Z.eqb_spec a 1); cbn [negb]; [lia|]. set (low := m_lower r / PAGE_SIZE).
    assert (0 <= low < 2 ^ 20) by (unfold low, PAGE_SIZE in *; int_lia).
    pose proof (land_lnot_bounds (low + first + a - 1) (a - 1)) as Hb. rewrite !in_type_u32 in Hb.
    rewrite (wrap_id u32 eq_refl (low + first + a - 1)) by int_lia.
    rewrite wrap_id by (done || int_lia). lia. }
  clearbody page. rewrite (proj2 (Z.leb_le count (count + a - 1))) by lia.
  assert (free_range r (live ++ returned) count page) as Hfree.
  { split_and!; [lia.. |]. intros j Hj. apply Hfit. lia. }
  pose proof (mark_range_spec r live returned count page first Hr) as Hmark.
  specialize (Hmark ltac:(lia) Hfree ltac:(lia) ltac:(lia)).
  destruct (Bitmap_set_range (m_bitmap r) page count true) as [b'|]; run; [|done].
  intros [= <- <-]. by split_and!.
Qed.

(** [take_contiguous_free_pages] at page alignment, or at a larger one with room for it. *)
Lemma take_contiguous_aligned r live returned count supervisor physical_alignment pages r' :
  region_ok r live returned -> 0 < count < 2 ^ 32 -> 0 < physical_alignment < 2 ^ 32 ->
  (physical_alignment = PAGE_SIZE \/ room_for_alignment r count (physical_alignment / PAGE_SIZE)) ->
  PhysicalRegion_take_contiguous_free_pages r count supervisor physical_alignment = Ret (pages, r') ->
  exists i, free_range r (live ++ returned) count i /\ same_area r r' /\
    pages = map (fun j => MkPage (page_addr (m_lower r) j) supervisor) (seqZ i count) /\
    region_ok r' (seqZ i count ++ live) returned.
Proof.
  intros Hr Hc Hpa [->|Hroom] Heq.
  { pose proof (take_contiguous_spec r live returned count supervisor Hr Hc) as Hspec. by rewrite Heq in Hspec. }
  revert Heq. unfold PhysicalRegion_take_contiguous_free_pages.
  pose proof (find_contiguous_aligned r live returned count physical_alignment) as Hspec.
  destruct (m_pages r =? 0); cbn [negb VERIFY]; run; [done|].
  destruct (m_used r =? m_pages r); cbn [negb VERIFY]; run; [done|].
  destruct (PhysicalRegion_find_contiguous_free_pages _ _ _) as [[i r1]|]; run; [|done].
  intros [= <- <-]. destruct (Hspec i r1 Hr Hc Hpa Hroom eq_refl) as (Hf & Hsame & Hr').
  exists i. split_and!; try done. destruct Hf as (Hi & Hin & _), Hsame as (-> & _), Hr as [_ [Hl Hu] _ _ _ _ _].
  by apply contiguous_pages.
Qed.

(** *** A region's life *)

Lemma finalize_capacity_spec kmalloc lower upper :
  kmalloc_ok kmalloc -> (forall n, fst (kmalloc n) mod 4 = 0) ->
  0 <= lower <= upper -> upper < 2 ^ 32 ->
  let pages := (upper - lower) / PAGE_SIZE in
  if PAGE_SIZE <=? upper - lower then
    exists r, PhysicalRegion_finalize_capacity kmalloc (PhysicalRegion_create lower upper) = Ret (pages, r) /\
      m_lower r = lower /\ m_upper r = upper /\ m_pages r = pages /\ region_ok r [] []
  else PhysicalRegion_finalize_capacity kmalloc (PhysicalRegion_create lower upper) = Stop VerifyFailed.
Proof.
  intros Hk Hal Hlu Hu. cbv zeta.
  unfold PhysicalRegion_finalize_capacity, PhysicalRegion_create, PAGE_SIZE, FlatPtr.
  region_fields. rewrite VERIFY_true by done. run. wrap_small u32.
  unfold Bitmap_grow. cbn [b_size b_addr Bitmap_default].
  destruct (Z.leb_spec 4096 (upper - lower)) as [Hle|Hlt].
  - rewrite VERIFY_true by int_lia. run.
    destruct (fresh_filled kmalloc Hk ((upper - lower) / 4096) false) as (b & Heq & Hb & Hs & Ha & Hbits);
      [int_lia|].
    destruct (kmalloc (ceil_div ((upper - lower) / 4096) 8)) as [addr data] eqn:E.
    rewrite Heq. run. cbn [Z.eqb negb]. run. eexists; split; [done|].
    split_and!; [done.. |]. destruct Hb as (Hv & _ & _).
    split; region_fields; unfold PAGE_SIZE; [int_lia | int_lia | int_lia | | done | done | cbn; lia].
    split; [done | | done | constructor | by intros i ?%not_elem_of_nil |].
    + rewrite Ha, <- E. apply Hal.
    + intros i Hi. rewrite Hbits by done. done.
  - unfold VERIFY. by rewrite (proj2 (Z.ltb_ge _ _)) by int_lia.
Qed.

(** What the users of a region do: they return only pages they hold.  [live] are the
    addresses of the pages they hold. *)
Inductive region_reachable : PhysicalRegion -> list Z -> Prop :=
| reachable_new kmalloc lower upper size r :
    kmalloc_ok kmalloc -> (forall n, fst (kmalloc n) mod 4 = 0) ->
    0 <= lower <= upper -> upper < 2 ^ 32 ->
    PhysicalRegion_finalize_capacity kmalloc (PhysicalRegion_create lower upper) = Ret (size, r) ->
    region_reachable r []
| reachable_take rnd r live supervisor page r' :
    region_reachable r live -> 0 <= rnd < 256 ->
    PhysicalRegion_take_free_page rnd r supervisor = Ret (Some page, r') ->
    region_reachable r' (m_paddr page :: live)
| reachable_take_contiguous r live count supervisor physical_alignment pages r' :
    region_reachable r live -> 0 < count < 2 ^ 32 -> 0 < physical_alignment < 2 ^ 32 ->
    (physical_alignment = PAGE_SIZE \/ room_for_alignment r count (physical_alignment / PAGE_SIZE)) ->
    PhysicalRegion_take_contiguous_free_pages r count supervisor physical_alignment = Ret (pages, r') ->
    region_reachable r' (map m_paddr pages ++ live)
| reachable_return rnd r live page live' r' :
    region_reachable r live -> 0 <= rnd < 256 -> live ≡ₚ m_paddr page :: live' ->
    PhysicalRegion_return_page rnd r page = Ret r' ->
    region_reachable r' live'.

Lemma reachable_region_ok r live :
  region_reachable r live ->
  exists pages returned, live = map (page_addr (m_lower r)) pages /\ region_ok r pages returned.
Proof.
  induction 1 as [kmalloc lower upper size r Hk Hal Hlu Hu Heq
    | rnd r live supervisor page r' _ IH Hrnd Heq | r live count supervisor pa pages r' _ IH Hc Hpa Hroom Heq
    | rnd r live page live' r' _ IH Hrnd Hperm Heq].
  - pose proof (finalize_capacity_spec kmalloc lower upper Hk Hal Hlu Hu) as Hspec. cbv zeta in Hspec.
    destruct (PAGE_SIZE <=? upper - lower); [|congruence].
    destruct Hspec as (r0 & Heq' & _ & _ & _ & Hr). assert (r = r0) as -> by congruence. by exists [], [].
  - destruct IH as (held & returned & -> & Hr).
    destruct (take_free_page_spec rnd r held returned supervisor Hr) as (res & r0 & Heq' & (Hl & _) & Hres);
      [lia|]. rewrite Heq in Heq'. injection Heq' as <- <-.
    destruct Hres as (i & returned' & -> & _ & _ & Hr'). exists (i :: held), returned'. by rewrite Hl.
  - destruct IH as (held & returned & -> & Hr).
    destruct (take_contiguous_aligned r held returned count supervisor pa pages r' Hr Hc Hpa Hroom Heq)
      as (i & _ & (Hl & _) & -> & Hr'). exists (seqZ i count ++ held), returned.
    by rewrite Hl, map_map, map_app.
  - destruct IH as (held & returned & -> & Hr).
    symmetry in Hperm. apply Permutation_map_inv in Hperm as ([|i held'] & Heq' & Hperm); [done|].
    injection Heq' as Hpage ->. rewrite Hperm in Hr.
    destruct (return_page_spec rnd r i held' returned page Hr Hrnd Hpage) as (r0 & Heq' & (Hl & _) & returned' & Hr').
    assert (r' = r0) as -> by congruence. exists held', returned'. by rewrite Hl.
Qed.

#[global] Instance page_addr_inj lower : Inj (=) (=) (page_addr lower).
Proof. intros i j. unfold page_addr, PAGE_SIZE. lia. Qed.

Lemma used_free_spec r live returned :
  region_ok r live returned ->
  PhysicalRegion_used r = Z.of_nat (length live) /\
  PhysicalRegion_free r = m_pages r - Z.of_nat (length live).
Proof.
  intros Hr. pose proof Hr as [Hp _ _ Ht Hused _ _].
  destruct (taken_count _ _ _ Ht) as [Hle _]; [lia|]. rewrite length_app in *.
  unfold PhysicalRegion_used, PhysicalRegion_free. rewrite (returned_count_ok _ _ _ Hr), Hused.
  split; wrap_small u32; lia.
Qed.

(** ** Properties *)

(** The page at an address is one of the region's. *)
Definition page_of (r : PhysicalRegion) (addr : Z) : Prop :=
  exists i, 0 <= i < m_pages r /\ addr = page_addr (m_lower r) i.

(** C7. Whatever sequence of operations its users run on a region, the pages they hold are
    different pages of the region, [used] and [free] count them, [take_free_page] runs and
    hands out a page nobody holds (or nothing, and if the number of pages is a multiple of
    eight then only when all of them are held), and returning a held page succeeds.
    Contiguous pages are taken at page alignment, or at a larger alignment when the search
    finds [count] + alignment - 1 free pages in a row ([room_for_alignment]); without that
    room an aligned request can hand out pages in use ([PhysicalRegion_aligned_overlap]).
    *)
Theorem PhysicalRegion_reachable_ok r live :
  region_reachable r live ->
  NoDup live /\ (forall a, a ∈ live -> page_of r a) /\
  PhysicalRegion_used r = Z.of_nat (length live) /\
  PhysicalRegion_free r = PhysicalRegion_size r - Z.of_nat (length live) /\
  (forall rnd supervisor, 0 <= rnd < 256 ->
    exists res r', PhysicalRegion_take_free_page rnd r supervisor = Ret (res, r') /\
      match res with
      | Some page => page_of r (m_paddr page) /\ m_supervisor page = supervisor /\
          (m_paddr page ∉ live)
      | None => r' = r /\ (m_pages r mod 8 = 0 -> forall a, page_of r a -> a ∈ live)
      end) /\
  (forall rnd page, 0 <= rnd < 256 -> m_paddr page ∈ live ->
    exists r', PhysicalRegion_return_page rnd r page = Ret r').
Proof.
  intros (held & returned & -> & Hr)%reachable_region_ok. pose proof Hr as [_ _ _ Ht _ _ _].
  rewrite length_map. destruct (used_free_spec _ _ _ Hr) as [Hu Hf].
  split_and!; [| | done | done | |].
  - apply taken_nodup, NoDup_app in Ht as (Hn & _). by apply (NoDup_fmap_2 _).
  - intros a (i & -> & Hi)%list_elem_of_fmap. exists i. split; [|done].
    apply (taken_range _ _ _ Ht), elem_of_app. by left.
  - intros rnd supervisor Hrnd.
    destruct (take_free_page_spec rnd r held returned supervisor Hr) as (res & r' & Heq & _ & Hres); [lia|].
    exists res, r'. split; [done|]. destruct res as [page|].
    + destruct Hres as (i & returned' & -> & Hi & Hni & _). split_and!; [by exists i | done|].
      intros (j & Hj & Hjs)%list_elem_of_fmap. apply (inj (page_addr (m_lower r))) in Hj as <-. done.
    + destruct Hres as [-> Hex]. split; [done|]. intros Hm a (i & Hi & ->).
      apply list_elem_of_fmap_2. by apply (exhausted_full _ _ _ Hr Hex Hm).
  - intros rnd page Hrnd (i & Hpage & Hi)%list_elem_of_fmap.
    apply list_elem_of_split in Hi as (l & l' & ->). rewrite <- (Permutation_middle l l' i) in Hr.
    destruct (return_page_spec rnd r i (l ++ l') returned page Hr Hrnd Hpage) as (r' & -> & _). by exists r'.
Qed.

(** [take_contiguous_free_pages] at page alignment takes neighbouring pages nobody
    holds and that are not in the queue.  In a region of whole buckets its [VERIFY] fails
    exactly if there are no such pages; it touches the byte after the bitmap only to mark
    pages at the end of the region. *)
Theorem PhysicalRegion_take_contiguous_correct r live returned count supervisor :
  region_ok r live returned -> 0 < count < 2 ^ 32 ->
  match PhysicalRegion_take_contiguous_free_pages r count supervisor PAGE_SIZE with
  | Ret (pages, r') => exists i, free_range r (live ++ returned) count i /\
      pages = map (fun j => MkPage (page_addr (m_lower r) j) supervisor) (seqZ i count) /\
      region_ok r' (seqZ i count ++ live) returned
  | Stop VerifyFailed => m_pages r mod 32 = 0 -> forall i, ~ free_range r (live ++ returned) count i
  | Stop OutOfBounds => free_range r (live ++ returned) count (m_pages r - count)
  | Stop _ => False
  end.
Proof.
  intros Hr Hc. pose proof (take_contiguous_spec r live returned count supervisor Hr Hc) as Hspec.
  destruct (PhysicalRegion_take_contiguous_free_pages _ _ _ _) as [[pages r']|f]; [|done].
  destruct Hspec as (i & ? & _ & ? & ?). by exists i.
Qed.

(** *** Witnesses *)

(** A region of 64 pages from which three aligned to four pages and one more were taken, and one came back. *)
Definition example_region : outcome (PhysicalRegion * list Z) :=
  '(_, r) ← PhysicalRegion_finalize_capacity example_kmalloc (PhysicalRegion_create 0x100000 0x140000);
  '(pages, r) ← PhysicalRegion_take_contiguous_free_pages r 3 true (4 * PAGE_SIZE);
  '(page, r) ← PhysicalRegion_take_free_page 5 r false;
  match page with
  | None => Stop VerifyFailed
  | Some page =>
      r ← PhysicalRegion_return_page 0 r (MkPage 0x101000 true);
      Ret (r, m_paddr page :: [0x100000; 0x102000])
  end.

Lemma example_region_reachable r live :
  example_region = Ret (r, live) -> region_reachable r live.
Proof.
  intros H. unfold example_region in H.
  destruct (PhysicalRegion_finalize_capacity _ _) as [[size r0]|] eqn:E0; [run in H | done].
  destruct (PhysicalRegion_take_contiguous_free_pages _ _ _ _) as [[pages r1]|] eqn:E1; [run in H | done].
  destruct (PhysicalRegion_take_free_page _ _ _) as [[[page|] r2]|] eqn:E2; [run in H | done | done].
  destruct (PhysicalRegion_return_page _ _ _) as [r3|] eqn:E3; [run in H | done].
  injection H as <- <-.
  apply (reachable_return 0 r2 (m_paddr page :: map m_paddr pages ++ []) (MkPage 0x101000 true));
    [| lia | | exact E3].
  - eapply reachable_take; [| | exact E2]; [|lia].
    eapply reachable_take_contiguous; [| | | | exact E1]; [|lia|by vm_compute|].
    + eapply (reachable_new example_kmalloc 0x100000 0x140000);
        [apply example_kmalloc_ok | done | lia | lia | exact E0].
    + right. exists 0. vm_compute in E0. injection E0 as <- <-. vm_compute. reflexivity.
  - vm_compute in E0. injection E0 as <- <-. vm_compute in E1. injection E1 as <- <-.
    symmetry. apply (Permutation_middle [m_paddr page; 0x100000] [0x102000]).
Qed.

Lemma PhysicalRegion_reachable_ok_witness :
  exists r, example_region = Ret (r, [0x103000; 0x100000; 0x102000]) /\
    NoDup [0x103000; 0x100000; 0x102000] /\
    PhysicalRegion_used r = 3 /\ PhysicalRegion_free r = 61 /\
    exists r', PhysicalRegion_return_page 7 r (MkPage 0x103000 false) = Ret r'.
Proof.
  destruct example_region as [[r live]|] eqn:E; [|by vm_compute in E].
  assert (live = [0x103000; 0x100000; 0x102000]) as -> by (vm_compute in E; congruence).
  pose proof (PhysicalRegion_reachable_ok r _ (example_region_reachable _ _ E)) as (Hn & _ & Hu & Hf & _ & Hr).
  exists r. split_and!; [done | done | exact Hu | | apply Hr; [lia | apply list_elem_of_here]].
  rewrite Hf. vm_compute in E. by injection E as <-.
Defined.

Lemma example_region_ok :
  exists r, PhysicalRegion_finalize_capacity example_kmalloc (PhysicalRegion_create 0x100000 0x140000) =
      Ret (64, r) /\ region_ok r [] [].
Proof.
  destruct (finalize_capacity_spec example_kmalloc 0x100000 0x140000) as (r & Heq & _ & _ & _ & Hr);
    [apply example_kmalloc_ok | done | lia | lia |]. by exists r.
Qed.

Lemma PhysicalRegion_take_contiguous_correct_witness :
  exists r, region_ok r [] [] /\
  match PhysicalRegion_take_contiguous_free_pages r 5 true PAGE_SIZE with
  | Ret (pages, r') => exists i, free_range r ([] ++ []) 5 i /\
      pages = map (fun j => MkPage (page_addr (m_lower r) j) true) (seqZ i 5) /\
      region_ok r' (seqZ i 5 ++ []) []
  | Stop VerifyFailed => m_pages r mod 32 = 0 -> forall i, ~ free_range r ([] ++ []) 5 i
  | Stop OutOfBounds => free_range r ([] ++ []) 5 (m_pages r - 5)
  | Stop _ => False
  end.
Proof.
  destruct example_region_ok as (r & _ & Hr). exists r. split; [done|].
  apply (PhysicalRegion_take_contiguous_correct r [] [] 5 true Hr). lia.
Defined.

(** *** Where the region falls short *)

(** A region of less than two page addresses cannot be finalized: a lone usable page
    between used ranges, which gives a region whose bounds are equal, stops the kernel at
    the [VERIFY] of [Bitmap::grow]. *)
Theorem PhysicalRegion_single_page_fails kmalloc addr :
  PhysicalRegion_finalize_capacity kmalloc (PhysicalRegion_create addr addr) = Stop VerifyFailed.
Proof.
  unfold PhysicalRegion_finalize_capacity, PhysicalRegion_create. region_fields.
  rewrite VERIFY_true by done. run. by rewrite Z.sub_diag.
Qed.

(** Take [n] single pages. *)
Fixpoint take_pages (n : nat) (r : PhysicalRegion) : outcome PhysicalRegion :=
  match n with
  | O => Ret r
  | S n => '(_, r) ← PhysicalRegion_take_free_page 0 r true; take_pages n r
  end.

(** Return the pages [first], ..., [first + n - 1]. *)
Fixpoint return_pages (rnd : Z) (n : nat) (first : Z) (r : PhysicalRegion) : outcome PhysicalRegion :=
  match n with
  | O => Ret r
  | S n =>
      r ← PhysicalRegion_return_page rnd r (MkPage (page_addr (m_lower r) first) true);
      return_pages rnd n (first + 1) r
  end.

(** In a region of twelve pages the last four are never found, so the region never
    counts as full and its queue is never used: after eight pages were taken and all came
    back, [free] reports twelve pages and [take_free_page] finds none. *)
Theorem PhysicalRegion_trailing_pages_lost :
  exists r, (('(_, r) ← PhysicalRegion_finalize_capacity example_kmalloc (PhysicalRegion_create 0 0xc000);
             r ← take_pages 8 r; return_pages 0 8 0 r) = Ret r) /\
    PhysicalRegion_size r = 12 /\ PhysicalRegion_free r = 12 /\ PhysicalRegion_used r = 0 /\
    PhysicalRegion_take_free_page 0 r true = Ret (None, r).
Proof. eexists. split; [vm_compute; reflexivity|]. split_and!; by vm_compute. Qed.

(** All pages of a region of 320 are taken; the pages 20 to 22, 24 to 276, 300 and 301 come
    back, the last two when the queue is full, so that the pages 21 and 22 are freed. *)
Definition fragmented_region : outcome PhysicalRegion :=
  '(_, r) ← PhysicalRegion_finalize_capacity example_kmalloc (PhysicalRegion_create 0 0x140000);
  r ← take_pages 320 r;
  r ← return_pages 0 3 20 r;
  r ← return_pages 0 253 24 r;
  r ← return_pages 1 1 300 r;
  return_pages 2 1 301 r.

(** With an alignment of two pages the aligned range may leave the free range that was
    found.  In [fragmented_region] only the pages 21 and 22 are free; asking for two pages
    aligned to two gives the pages 22 and 23, and page 23 was in use all the time. *)
Theorem PhysicalRegion_aligned_overlap :
  exists r r', fragmented_region = Ret r /\
    (forall i, 0 <= i < 320 -> Bitmap_get (m_bitmap r) i = Ret (negb ((i =? 21) || (i =? 22)))) /\
    (0x17000 ∉ m_recently_returned r) /\
    PhysicalRegion_take_contiguous_free_pages r 2 true (2 * PAGE_SIZE) =
      Ret ([MkPage 0x16000 true; MkPage 0x17000 true], r').
Proof.
  eexists. eexists. split; [vm_compute; reflexivity|]. split_and!; [| | vm_compute; reflexivity].
  - intros i Hi. check_range 320 i.
  - apply (bool_decide_unpack _). by vm_compute.
Qed.
