(* ===== verification/MemoryManager.v ===== *)
(** * Kernel/VM/MemoryManager: handing out physical pages

    The memory manager keeps the physical regions of the machine, hands out their pages and
    counts them: user pages are used, committed (promised to somebody) or uncommitted.  The
    model has the regions, the counters and the contents of the physical memory; mapping a
    page to clear it ([quickmap_page]) is the write to the physical memory it makes possible.
    The functions run under [s_mm_lock] and are atomic here.  The random numbers that the
    regions draw are a parameter, one for each region.

    The theorems show that no page is handed out twice, for regions that do not touch, and
    that a committed page is there when it is asked for, if the regions are whole groups of
    eight pages; the defects at the end show why. *)

From S2P Require Import Prelude Containers Bitmap PhysicalRegion.

#[local] Open Scope Z_scope.

Record MemoryManager : Type := MkMM {
  m_user_physical_pages : Z;
  m_user_physical_pages_used : Z;
  m_user_physical_pages_committed : Z;
  m_user_physical_pages_uncommitted : Z;
  m_super_physical_pages : Z;
  m_super_physical_pages_used : Z;
  m_user_physical_regions : list PhysicalRegion;
  m_super_physical_regions : list PhysicalRegion;
  m_memory : Z -> Z
}.

Definition with_user (mm : MemoryManager) (used committed uncommitted : Z)
    (regions : list PhysicalRegion) : MemoryManager :=
  MkMM (m_user_physical_pages mm) used committed uncommitted (m_super_physical_pages mm)
    (m_super_physical_pages_used mm) regions (m_super_physical_regions mm) (m_memory mm).

Definition with_super (mm : MemoryManager) (used : Z) (regions : list PhysicalRegion) : MemoryManager :=
  MkMM (m_user_physical_pages mm) (m_user_physical_pages_used mm) (m_user_physical_pages_committed mm)
    (m_user_physical_pages_uncommitted mm) (m_super_physical_pages mm) used
    (m_user_physical_regions mm) regions (m_memory mm).

(** The page at [paddr] filled with zeroes. *)
Definition zero_page (mm : MemoryManager) (paddr : Z) : MemoryManager :=
  MkMM (m_user_physical_pages mm) (m_user_physical_pages_used mm) (m_user_physical_pages_committed mm)
    (m_user_physical_pages_uncommitted mm) (m_super_physical_pages mm) (m_super_physical_pages_used mm)
    (m_user_physical_regions mm) (m_super_physical_regions mm)
    (fun a => if (paddr <=? a) && (a <? paddr + PAGE_SIZE) then 0 else m_memory mm a).

(** The loops of [parse_memory_map] that finalize the regions and add up their pages. *)
Fixpoint finalize_regions (kmalloc : Z -> Z * list Z) (pages : Z) (regions : list PhysicalRegion)
    : outcome (Z * list PhysicalRegion) :=
  match regions with
  | [] => Ret (pages, [])
  | region :: rest =>
      '(size, region) ← PhysicalRegion_finalize_capacity kmalloc region;
      '(pages, rest) ← finalize_regions kmalloc (wrap u32 (pages + size)) rest;
      Ret (pages, region :: rest)
  end.

(** The end of [parse_memory_map]: the manager starts out with no committed pages. *)
Definition MemoryManager_finalize (kmalloc : Z -> Z * list Z) (memory : Z -> Z)
    (user super : list PhysicalRegion) : outcome MemoryManager :=
  '(super_pages, super) ← finalize_regions kmalloc 0 super;
  '(user_pages, user) ← finalize_regions kmalloc 0 user;
  VERIFY (0 <? super_pages) ;;
  VERIFY (0 <? user_pages) ;;
  Ret (MkMM user_pages 0 0 user_pages super_pages 0 user super memory).

Definition MemoryManager_commit_user_physical_pages (mm : MemoryManager) (page_count : Z)
    : outcome (bool * MemoryManager) :=
  VERIFY (0 <? page_count) ;;
  if m_user_physical_pages_uncommitted mm <? page_count then Ret (false, mm)
  else
    Ret (true, with_user mm (m_user_physical_pages_used mm)
                 (wrap u32 (m_user_physical_pages_committed mm + page_count))
                 (wrap u32 (m_user_physical_pages_uncommitted mm - page_count))
                 (m_user_physical_regions mm)).

Definition MemoryManager_uncommit_user_physical_pages (mm : MemoryManager) (page_count : Z)
    : outcome MemoryManager :=
  VERIFY (0 <? page_count) ;;
  VERIFY (page_count <=? m_user_physical_pages_committed mm) ;;
  Ret (with_user mm (m_user_physical_pages_used mm)
         (wrap u32 (m_user_physical_pages_committed mm - page_count))
         (wrap u32 (m_user_physical_pages_uncommitted mm + page_count))
         (m_user_physical_regions mm)).

(** The loop over the regions of a deallocation: the first region that contains the page
    takes it back; nothing if there is none. *)
Fixpoint return_to_regions (rnd : Z) (regions : list PhysicalRegion) (page : PhysicalPage)
    : outcome (option (list PhysicalRegion)) :=
  match regions with
  | [] => Ret None
  | region :: rest =>
      if negb (PhysicalRegion_contains region page) then
        rest ← return_to_regions rnd rest page;
        Ret (option_map (cons region) rest)
      else
        region ← PhysicalRegion_return_page rnd region page;
        Ret (Some (region :: rest))
  end.

Definition MemoryManager_deallocate_user_physical_page (rnd : Z) (mm : MemoryManager) (page : PhysicalPage)
    : outcome MemoryManager :=
  regions ← return_to_regions rnd (m_user_physical_regions mm) page;
  match regions with
  | None => Stop VerifyFailed
  | Some regions =>
      Ret (with_user mm (wrap u32 (m_user_physical_pages_used mm - 1))
             (m_user_physical_pages_committed mm)
             (wrap u32 (m_user_physical_pages_uncommitted mm + 1)) regions)
  end.

Definition MemoryManager_deallocate_supervisor_physical_page (rnd : Z) (mm : MemoryManager)
    (page : PhysicalPage) : outcome MemoryManager :=
  regions ← return_to_regions rnd (m_super_physical_regions mm) page;
  match regions with
  | None => Stop VerifyFailed
  | Some regions => Ret (with_super mm (wrap u32 (m_super_physical_pages_used mm - 1)) regions)
  end.

(** The loop over the regions of an allocation; [rnd k] is for region [k]. *)
Fixpoint take_from_regions (rnd : nat -> Z) (supervisor : bool) (k : nat) (regions : list PhysicalRegion)
    : outcome (option PhysicalPage * list PhysicalRegion) :=
  match regions with
  | [] => Ret (None, [])
  | region :: rest =>
      '(page, region) ← PhysicalRegion_take_free_page (rnd k) region supervisor;
      match page with
      | Some page => Ret (Some page, region :: rest)
      | None =>
          '(page, rest) ← take_from_regions rnd supervisor (S k) rest;
          Ret (page, region :: rest)
      end
  end.

Definition MemoryManager_find_free_user_physical_page (rnd : nat -> Z) (mm : MemoryManager) (committed : bool)
    : outcome (option PhysicalPage * MemoryManager) :=
  if committed then
    VERIFY (0 <? m_user_physical_pages_committed mm) ;;
    '(page, regions) ← take_from_regions rnd false 0 (m_user_physical_regions mm);
    match page with
    | Some page =>
        Ret (Some page, with_user mm (wrap u32 (m_user_physical_pages_used mm + 1))
               (wrap u32 (m_user_physical_pages_committed mm - 1))
               (m_user_physical_pages_uncommitted mm) regions)
    | None => Stop VerifyFailed
    end
  else if m_user_physical_pages_uncommitted mm =? 0 then Ret (None, mm)
  else
    '(page, regions) ← take_from_regions rnd false 0 (m_user_physical_regions mm);
    Ret (page, with_user mm
           (match page with
            | Some _ => wrap u32 (m_user_physical_pages_used mm + 1)
            | None => m_user_physical_pages_used mm
            end)
           (m_user_physical_pages_committed mm)
           (wrap u32 (m_user_physical_pages_uncommitted mm - 1)) regions).

Definition MemoryManager_allocate_committed_user_physical_page (rnd : nat -> Z) (mm : MemoryManager)
    (should_zero_fill : bool) : outcome (PhysicalPage * MemoryManager) :=
  '(page, mm) ← MemoryManager_find_free_user_physical_page rnd mm true;
  match page with
  | None => Stop VerifyFailed
  | Some page => Ret (page, if should_zero_fill then zero_page mm (m_paddr page) else mm)
  end.

Definition MemoryManager_allocate_supervisor_physical_page (rnd : nat -> Z) (mm : MemoryManager)
    : outcome (PhysicalPage * MemoryManager) :=
  '(page, regions) ← take_from_regions rnd true 0 (m_super_physical_regions mm);
  match page with
  | None => Stop VerifyFailed
  | Some page =>
      let mm := zero_page mm (m_paddr page) in
      Ret (page, with_super mm (wrap u32 (m_super_physical_pages_used mm + 1)) regions)
  end.

(** [PhysicalPage::return_to_freelist]. *)
Definition PhysicalPage_return_to_freelist (rnd : Z) (mm : MemoryManager) (page : PhysicalPage)
    : outcome MemoryManager :=
  VERIFY (Z.land (m_paddr page) 0xfff =? 0) ;;
  if m_supervisor page then MemoryManager_deallocate_supervisor_physical_page rnd mm page
  else MemoryManager_deallocate_user_physical_page rnd mm page.

(** ** The regions of a pool *)

(** A region with [live] pages handed out that lies within its bounds. *)
Definition pool_region (r : PhysicalRegion) (live : list Z) : Prop :=
  (exists returned, region_ok r live returned) /\
  m_lower r mod PAGE_SIZE = 0 /\ m_lower r + m_pages r * PAGE_SIZE <= m_upper r.

(** The searches of the bitmap find all free pages only in regions of a multiple of eight
    pages ([PhysicalRegion_trailing_pages_lost]). *)
Definition whole_groups (regions : list PhysicalRegion) : Prop :=
  Forall (fun r => m_pages r mod 8 = 0) regions.

Definition apart (r r' : PhysicalRegion) : Prop := m_upper r < m_lower r' \/ m_upper r' < m_lower r.

Fixpoint separated (regions : list PhysicalRegion) : Prop :=
  match regions with
  | [] => True
  | r :: rest => Forall (apart r) rest /\ separated rest
  end.

(** The addresses of the pages handed out. *)
Fixpoint held (regions : list PhysicalRegion) (lives : list (list Z)) : list Z :=
  match regions, lives with
  | r :: rest, live :: lives => map (page_addr (m_lower r)) live ++ held rest lives
  | _, _ => []
  end.

Definition total_pages (regions : list PhysicalRegion) : Z :=
  fold_right (fun r n => m_pages r + n) 0 regions.

Record pool_ok (regions : list PhysicalRegion) (lives : list (list Z)) : Prop := PoolOk {
  pool_regions : Forall2 pool_region regions lives;
  pool_separated : separated regions
}.

Lemma apart_area r r' q q' : same_area r q -> same_area r' q' -> apart r r' -> apart q q'.
Proof. unfold apart. intros (-> & -> & _) (-> & -> & _). done. Qed.

Lemma separated_area regions regions' :
  Forall2 same_area regions regions' -> separated regions -> separated regions'.
Proof.
  induction 1 as [|r r' rest rest' Hr Hrest IH]; cbn; [done|]. intros [Ha Hs]. split; [|by apply IH].
  clear IH Hs. induction Hrest as [|q q' rest rest' Hq _ IH]; [done|].
  apply Forall_cons in Ha as [Ha Has]. constructor; [by eapply apart_area | by apply IH].
Qed.

Lemma same_area_refl regions : Forall2 same_area regions regions.
Proof. induction regions; constructor; done. Qed.

Lemma pool_region_area r r' live :
  same_area r r' -> (exists returned, region_ok r' live returned) ->
  (exists live, pool_region r live) -> pool_region r' live.
Proof. intros (Hl & Hu & Hp) Hr (live' & _ & Ha & Hb). split; [done|]. by rewrite Hl, Hu, Hp. Qed.

(** A page handed out by a region lies in it. *)
Lemma pool_region_bounds r live a :
  pool_region r live -> a ∈ map (page_addr (m_lower r)) live -> m_lower r <= a < m_upper r.
Proof.
  intros ((returned & Hr) & _ & Hu) (i & -> & Hi)%list_elem_of_fmap.
  assert (0 <= i < m_pages r) by
    (apply (taken_range _ _ _ (reg_taken _ _ _ Hr)), elem_of_app; by left).
  unfold page_addr, PAGE_SIZE in *. lia.
Qed.

Lemma held_bounds regions lives a :
  Forall2 pool_region regions lives -> a ∈ held regions lives ->
  exists r, r ∈ regions /\ m_lower r <= a < m_upper r.
Proof.
  induction 1 as [|r live rest lives Hr _ IH]; cbn; [by intros ?%not_elem_of_nil|].
  intros [Ha|Ha]%elem_of_app.
  - exists r. split; [apply list_elem_of_here | by eapply pool_region_bounds].
  - destruct (IH Ha) as (r' & Hr' & Hb). exists r'. split; [by apply list_elem_of_further | done].
Qed.

(** Pages of a region are not pages of the regions apart from it. *)
Lemma held_apart r rest lives a :
  Forall (apart r) rest -> Forall2 pool_region rest lives -> a ∈ held rest lives ->
  ~ (m_lower r <= a <= m_upper r).
Proof.
  intros Hap Hrest Ha. destruct (held_bounds _ _ _ Hrest Ha) as (r' & Hr' & Hb).
  rewrite Forall_forall in Hap. specialize (Hap r' Hr'). unfold apart in Hap. lia.
Qed.

Lemma held_nodup regions lives : pool_ok regions lives -> NoDup (held regions lives).
Proof.
  intros [Hr Hs]. induction Hr as [|r live rest lives Hr Hrest IH]; cbn; [constructor|].
  destruct Hs as [Hap Hs]. apply NoDup_app. split_and!; [| | by apply IH].
  - destruct Hr as ((returned & Hr) & _). apply (NoDup_fmap_2 _). 
    by apply reg_taken, taken_nodup, NoDup_app in Hr as (? & _).
  - intros a Ha Ha'. apply (held_apart _ _ _ _ Hap Hrest Ha').
    pose proof (pool_region_bounds _ _ _ Hr Ha). lia.
Qed.

Lemma pool_region_full r live :
  pool_region r live ->
  Z.of_nat (length live) <= m_pages r /\
  ((forall i, 0 <= i < m_pages r -> i ∈ live) -> Z.of_nat (length live) = m_pages r).
Proof.
  intros ((returned & Hr) & _). pose proof Hr as [Hp _ _ Ht _ _ _].
  destruct (taken_count _ _ _ Ht) as [Hle _]; [lia|]. rewrite length_app in Hle. split; [lia|].
  intros Hall. assert (seqZ 0 (m_pages r) ⊆+ live) as Hsub.
  { apply NoDup_submseteq; [apply NoDup_seqZ|]. intros i Hi%elem_of_seqZ. apply Hall. lia. }
  apply submseteq_length in Hsub. rewrite length_seqZ in Hsub. lia.
Qed.

(** *** Allocation *)

Lemma take_from_regions_spec rnd supervisor k regions lives :
  (forall j, 0 <= rnd j) -> Forall2 pool_region regions lives ->
  exists res regions', take_from_regions rnd supervisor k regions = Ret (res, regions') /\
    Forall2 same_area regions regions' /\
    match res with
    | Some page => m_supervisor page = supervisor /\ exists lives', Forall2 pool_region regions' lives' /\
        held regions' lives' ≡ₚ m_paddr page :: held regions lives
    | None => regions' = regions /\
        (whole_groups regions -> Z.of_nat (length (held regions lives)) = total_pages regions)
    end.
Proof.
  intros Hrnd Hpool. revert k. induction Hpool as [|r live rest lives Hr Hrest IH]; intros k; cbn -[Z.of_nat].
  { by exists None, []. }
  pose proof Hr as ((returned & Hok) & _ & _).
  destruct (take_free_page_spec (rnd k) r live returned supervisor Hok (Hrnd k)) as (res & r' & -> & Har & Hres).
  run. destruct res as [page|].
  - destruct Hres as (i & returned' & -> & Hi & _ & Hr'). do 2 eexists; split; [done|].
    split; [constructor; [done | apply same_area_refl]|]. split; [done|].
    exists ((i :: live) :: lives). split.
    + constructor; [|done]. eapply pool_region_area; [done | by eexists | by eexists].
    + cbn. destruct Har as (-> & _). done.
  - destruct Hres as (-> & Hex). destruct (IH (S k)) as (res & rest' & -> & Har' & Hres). run.
    do 2 eexists; split; [done|]. split; [by constructor|]. destruct res as [page|].
    + destruct Hres as (Hs & lives' & Hrest' & Hheld). split; [done|]. exists (live :: lives').
      split; [by constructor|]. cbn. by rewrite Hheld, <- Permutation_middle.
    + destruct Hres as (-> & Hlen). split; [done|]. intros [Hm Hms]%Forall_cons.
      rewrite length_app, length_map, Nat2Z.inj_add, Hlen by done. f_equal.
      apply (pool_region_full r live Hr). by apply (exhausted_full _ _ _ Hok Hex Hm).
Qed.

(** *** Deallocation *)

Lemma return_to_regions_spec rnd regions lives page :
  0 <= rnd < 256 -> pool_ok regions lives -> m_paddr page ∈ held regions lives ->
  exists regions' lives', return_to_regions rnd regions page = Ret (Some regions') /\
    Forall2 same_area regions regions' /\ Forall2 pool_region regions' lives' /\
    held regions lives ≡ₚ m_paddr page :: held regions' lives'.
Proof.
  intros Hrnd [Hpool Hs]. induction Hpool as [|r live rest lives Hr Hrest IH];
    cbn [held return_to_regions]; [by intros ?%not_elem_of_nil|].
  destruct Hs as [Hap Hs]. intros Ha. unfold PhysicalRegion_contains.
  destruct (_ && _) eqn:Hc; cbn [negb].
  - apply elem_of_app in Ha as [Ha|Ha]; [|by destruct (held_apart _ _ _ _ Hap Hrest Ha); lia].
    apply list_elem_of_fmap in Ha as (i & Hpage & (l & l' & ->)%list_elem_of_split).
    pose proof Hr as ((returned & Hok) & _). rewrite <- (Permutation_middle l l' i) in Hok.
    destruct (return_page_spec rnd r i _ _ page Hok Hrnd Hpage) as (r' & -> & Har & Hr'). run.
    exists (r' :: rest), ((l ++ l') :: lives). split; [done|].
    split; [constructor; [done | apply same_area_refl]|]. split.
    + constructor; [|done]. eapply pool_region_area; [done | done | by eexists].
    + cbn [held]. destruct Har as (-> & _). by rewrite <- (Permutation_middle l l' i), Hpage.
  - apply elem_of_app in Ha as [Ha|Ha].
    { apply pool_region_bounds in Ha; [|done]. apply andb_false_iff in Hc. lia. }
    destruct (IH Hs Ha) as (rest' & lives' & -> & Har & Hrest' & Hheld). run.
    exists (r :: rest'), (live :: lives'). split; [done|]. split; [by constructor|].
    split; [by constructor|]. cbn [held]. by rewrite Hheld, <- Permutation_middle.
Qed.

(** ** The state of the memory manager *)

(** [hu] and [hs] are the addresses of the user and supervisor pages that are in use. *)
Record mm_ok (mm : MemoryManager) (hu hs : list Z) : Prop := MMOk {
  mm_user : exists lives, pool_ok (m_user_physical_regions mm) lives /\
    hu ≡ₚ held (m_user_physical_regions mm) lives;
  mm_super : exists lives, pool_ok (m_super_physical_regions mm) lives /\
    hs ≡ₚ held (m_super_physical_regions mm) lives;
  mm_used : m_user_physical_pages_used mm = Z.of_nat (length hu);
  mm_committed : 0 <= m_user_physical_pages_committed mm;
  mm_uncommitted : 0 <= m_user_physical_pages_uncommitted mm;
  mm_total : m_user_physical_pages_used mm + m_user_physical_pages_committed mm +
    m_user_physical_pages_uncommitted mm = total_pages (m_user_physical_regions mm);
  mm_total_width : total_pages (m_user_physical_regions mm) < 2 ^ 32;
  mm_super_used : m_super_physical_pages_used mm = Z.of_nat (length hs);
  mm_super_width : total_pages (m_super_physical_regions mm) < 2 ^ 32
}.

Lemma total_pages_area regions regions' :
  Forall2 same_area regions regions' -> total_pages regions' = total_pages regions.
Proof. induction 1 as [|r r' ? ? (_ & _ & Hp) _ IH]; [done|].
  unfold total_pages in *. cbn. by rewrite Hp, IH. Qed.

(** A pool does not hand out more pages than it has. *)
Lemma held_length regions lives :
  Forall2 pool_region regions lives -> Z.of_nat (length (held regions lives)) <= total_pages regions.
Proof.
  induction 1 as [|r live rest lives Hr _ IH]; [done|]. unfold total_pages in *. cbn -[Z.of_nat].
  destruct (pool_region_full r live Hr) as [Hle _]. rewrite length_app, length_map. lia.
Qed.

(** Allocation from a pool: a page nobody holds, or nothing, with whole groups of eight only when all are held. *)
Lemma pool_take rnd supervisor regions h :
  (forall j, 0 <= rnd j) -> (exists lives, pool_ok regions lives /\ h ≡ₚ held regions lives) ->
  exists res regions', take_from_regions rnd supervisor 0 regions = Ret (res, regions') /\
    total_pages regions' = total_pages regions /\
    match res with
    | Some page => m_supervisor page = supervisor /\ (m_paddr page ∉ h) /\
        Z.of_nat (length h) < total_pages regions /\
        exists lives, pool_ok regions' lives /\ m_paddr page :: h ≡ₚ held regions' lives
    | None => regions' = regions /\ (whole_groups regions -> Z.of_nat (length h) = total_pages regions)
    end.
Proof.
  intros Hrnd (lives & [Hpool Hsep] & Hh).
  destruct (take_from_regions_spec rnd supervisor 0 regions lives Hrnd Hpool) as (res & regions' & -> & Har & Hres).
  exists res, regions'. split; [done|]. split; [by apply total_pages_area|].
  destruct res as [page|]; [|by rewrite Hh].
  destruct Hres as (Hs & lives' & Hpool' & Hheld). split; [done|].
  assert (pool_ok regions' lives') as Hok by (split; [done | by eapply separated_area]).
  pose proof (held_length _ _ Hpool') as Hlen. rewrite (total_pages_area _ _ Har), Hheld, <- Hh in Hlen.
  pose proof (held_nodup _ _ Hok) as Hn. rewrite Hheld, <- Hh in Hn. apply NoDup_cons in Hn as [Hn _].
  cbn [length] in Hlen. split_and!; [done | lia |]. exists lives'. by rewrite Hheld, Hh.
Qed.

Lemma pool_return rnd regions page h h' :
  0 <= rnd < 256 -> (exists lives, pool_ok regions lives /\ h ≡ₚ held regions lives) ->
  h ≡ₚ m_paddr page :: h' ->
  exists regions', return_to_regions rnd regions page = Ret (Some regions') /\
    total_pages regions' = total_pages regions /\
    exists lives, pool_ok regions' lives /\ h' ≡ₚ held regions' lives.
Proof.
  intros Hrnd (lives & Hpool & Hh) Hh'.
  destruct (return_to_regions_spec rnd regions lives page Hrnd Hpool) as (regions' & lives' & -> & Har & Hpool' & Hheld).
  { rewrite <- Hh, Hh'. apply list_elem_of_here. }
  exists regions'. split; [done|]. split; [by apply total_pages_area|]. exists lives'.
  split; [split; [done | by eapply separated_area, Hpool]|].
  apply (Permutation_cons_inv (a := m_paddr page)). by rewrite <- Hheld, <- Hh, <- Hh'.
Qed.

Ltac mm_fields :=
  cbn [with_user with_super zero_page m_user_physical_pages m_user_physical_pages_used
    m_user_physical_pages_committed m_user_physical_pages_uncommitted m_super_physical_pages
    m_super_physical_pages_used m_user_physical_regions m_super_physical_regions m_memory].

(** The counters fit their width. *)
Lemma mm_counters mm hu hs :
  mm_ok mm hu hs ->
  0 <= m_user_physical_pages_used mm < 2 ^ 32 /\
  0 <= m_user_physical_pages_committed mm < 2 ^ 32 /\
  0 <= m_user_physical_pages_uncommitted mm < 2 ^ 32.
Proof. intros [_ _ Hu Hc Hn Ht Hw _ _]. lia. Qed.

Lemma mm_zero_page mm hu hs paddr : mm_ok mm hu hs -> mm_ok (zero_page mm paddr) hu hs.
Proof. intros []. by split. Qed.

Section steps.
Context (mm : MemoryManager) (hu hs : list Z) (Hmm : mm_ok mm hu hs).

Lemma commit_spec page_count :
  0 < page_count < 2 ^ 32 ->
  exists res mm', MemoryManager_commit_user_physical_pages mm page_count = Ret (res, mm') /\
    mm_ok mm' hu hs /\ res = (page_count <=? m_user_physical_pages_uncommitted mm) /\
    (if res then m_user_physical_pages_committed mm' = m_user_physical_pages_committed mm + page_count
     else mm' = mm).
Proof using Hmm.
  intros Hc. destruct (mm_counters _ _ _ Hmm) as (? & ? & ?). pose proof Hmm as [].
  unfold MemoryManager_commit_user_physical_pages. rewrite VERIFY_true by lia. run.
  destruct (Z.ltb_spec (m_user_physical_pages_uncommitted mm) page_count).
  - exists false, mm. split_and!; [done | done | bool_lia | done].
  - do 2 eexists; split; [done|]. rewrite !wrap_id by first [exact eq_refl | int_lia].
    split_and!; [| bool_lia | done]. split; mm_fields; (done || lia).
Qed.

Lemma uncommit_spec page_count :
  0 < page_count <= m_user_physical_pages_committed mm ->
  exists mm', MemoryManager_uncommit_user_physical_pages mm page_count = Ret mm' /\ mm_ok mm' hu hs /\
    m_user_physical_pages_uncommitted mm' = m_user_physical_pages_uncommitted mm + page_count.
Proof using Hmm.
  intros Hc. destruct (mm_counters _ _ _ Hmm) as (? & ? & ?). pose proof Hmm as [].
  unfold MemoryManager_uncommit_user_physical_pages. rewrite !VERIFY_true by lia. run.
  eexists; split; [done|]. rewrite !wrap_id by first [exact eq_refl | int_lia].
  split; [|done]. split; mm_fields; (done || lia).
Qed.

Lemma find_free_inv rnd committed page mm' :
  (forall j, 0 <= rnd j) ->
  MemoryManager_find_free_user_physical_page rnd mm committed = Ret (Some page, mm') ->
  (m_paddr page ∉ hu) /\ m_supervisor page = false /\ mm_ok mm' (m_paddr page :: hu) hs.
Proof using Hmm.
  intros Hrnd. destruct (mm_counters _ _ _ Hmm) as (? & ? & ?). pose proof Hmm as [].
  destruct (pool_take rnd false _ _ Hrnd (mm_user _ _ _ Hmm)) as (res & regions & Htake & Htot & Hres).
  unfold MemoryManager_find_free_user_physical_page. destruct committed.
  - destruct (Z.ltb_spec 0 (m_user_physical_pages_committed mm)); cbn [VERIFY]; run; [|done].
    rewrite Htake. run. destruct res as [p|]; [|done]. intros [= <- <-].
    destruct Hres as (Hsup & Hnew & Hlen & Hpool).
    rewrite !wrap_id by first [exact eq_refl | int_lia]. split_and!; [done | done|].
    split; mm_fields; cbn [length]; (done || lia).
  - destruct (Z.eqb_spec (m_user_physical_pages_uncommitted mm) 0); [done|]. rewrite Htake. run.
    destruct res as [p|]; [|done]. intros [= <- <-]. destruct Hres as (Hsup & Hnew & Hlen & Hpool).
    rewrite !wrap_id by first [exact eq_refl | int_lia]. split_and!; [done | done|].
    split; mm_fields; cbn [length]; (done || lia).
Qed.

Lemma find_free_spec rnd (committed : bool) :
  (forall j, 0 <= rnd j) -> whole_groups (m_user_physical_regions mm) ->
  (if committed then 0 < m_user_physical_pages_committed mm else 0 < m_user_physical_pages_uncommitted mm) ->
  exists page mm', MemoryManager_find_free_user_physical_page rnd mm committed = Ret (Some page, mm') /\
    (m_paddr page ∉ hu) /\ m_supervisor page = false /\ mm_ok mm' (m_paddr page :: hu) hs.
Proof using Hmm.
  intros Hrnd Hgroups Hsome. destruct (mm_counters _ _ _ Hmm) as (? & ? & ?). pose proof Hmm as [].
  assert (exists page mm', MemoryManager_find_free_user_physical_page rnd mm committed = Ret (Some page, mm'))
    as (page & mm' & E); [|exists page, mm'; split; [done|]; by eapply find_free_inv].
  destruct (pool_take rnd false _ _ Hrnd (mm_user _ _ _ Hmm)) as (res & regions & Htake & Htot & Hres).
  assert (exists page, res = Some page) as (page & ->).
  { destruct res as [page|]; [by exists page|]. destruct Hres as [_ Hlen]. specialize (Hlen Hgroups).
    destruct committed; lia. }
  unfold MemoryManager_find_free_user_physical_page. destruct committed.
  - rewrite VERIFY_true by lia. run. rewrite Htake. run. by do 2 eexists.
  - destruct (Z.eqb_spec (m_user_physical_pages_uncommitted mm) 0); [lia|]. rewrite Htake. run. by do 2 eexists.
Qed.

Lemma deallocate_user_spec rnd page hu' :
  0 <= rnd < 256 -> hu ≡ₚ m_paddr page :: hu' ->
  exists mm', MemoryManager_deallocate_user_physical_page rnd mm page = Ret mm' /\ mm_ok mm' hu' hs.
Proof using Hmm.
  intros Hrnd Hperm. destruct (mm_counters _ _ _ Hmm) as (? & ? & ?). pose proof Hmm as [].
  destruct (pool_return rnd _ page hu hu' Hrnd (mm_user _ _ _ Hmm) Hperm) as (regions & Hret & Htot & Hpool).
  pose proof (Permutation_length Hperm) as Hlen. cbn [length] in Hlen.
  unfold MemoryManager_deallocate_user_physical_page. rewrite Hret. run. eexists; split; [done|].
  rewrite !wrap_id by first [exact eq_refl | int_lia]. split; mm_fields; (done || lia).
Qed.

Lemma allocate_supervisor_spec rnd :
  (forall j, 0 <= rnd j) ->
  match MemoryManager_allocate_supervisor_physical_page rnd mm with
  | Ret (page, mm') => (m_paddr page ∉ hs) /\ mm_ok mm' hu (m_paddr page :: hs) /\
      forall a, m_memory mm' a =
        if (m_paddr page <=? a) && (a <? m_paddr page + PAGE_SIZE) then 0 else m_memory mm a
  | Stop VerifyFailed => whole_groups (m_super_physical_regions mm) ->
      Z.of_nat (length hs) = total_pages (m_super_physical_regions mm)
  | Stop _ => False
  end.
Proof using Hmm.
  intros Hrnd. destruct (mm_counters _ _ _ Hmm) as (? & ? & ?). pose proof Hmm as [].
  destruct (pool_take rnd true _ _ Hrnd (mm_super _ _ _ Hmm)) as (res & regions & Htake & Htot & Hres).
  unfold MemoryManager_allocate_supervisor_physical_page. rewrite Htake. run.
  destruct res as [page|]; [|by destruct Hres]. destruct Hres as (Hsup & Hnew & Hlen & Hpool).
  mm_fields. rewrite !wrap_id by first [exact eq_refl | int_lia]. split; [done|]. split; [|done].
  split; mm_fields; cbn [length]; (done || lia).
Qed.

Lemma deallocate_supervisor_spec rnd page hs' :
  0 <= rnd < 256 -> hs ≡ₚ m_paddr page :: hs' ->
  exists mm', MemoryManager_deallocate_supervisor_physical_page rnd mm page = Ret mm' /\ mm_ok mm' hu hs'.
Proof using Hmm.
  intros Hrnd Hperm. pose proof Hmm as [].
  destruct (pool_return rnd _ page hs hs' Hrnd (mm_super _ _ _ Hmm) Hperm) as (regions & Hret & Htot & Hpool).
  pose proof (Permutation_length Hperm) as Hlen. cbn [length] in Hlen.
  destruct mm_super0 as (lives & Hp & Hl). pose proof (held_length _ _ (pool_regions _ _ Hp)) as Hle.
  rewrite <- Hl in Hle.
  unfold MemoryManager_deallocate_supervisor_physical_page. rewrite Hret. run. eexists; split; [done|].
  rewrite !wrap_id by first [exact eq_refl | int_lia]. split; mm_fields; (done || lia).
Qed.

End steps.

(** ** Starting *)

(** A region before it is finalized: one that starts at a page and has room for one. *)
Definition unfinalized (r : PhysicalRegion) : Prop :=
  r = PhysicalRegion_create (m_lower r) (m_upper r) /\ 0 <= m_lower r < m_upper r /\
  m_upper r < 2 ^ 32 /\ m_lower r mod PAGE_SIZE = 0 /\ PAGE_SIZE <= m_upper r - m_lower r.

Definition room (regions : list PhysicalRegion) : Z :=
  fold_right (fun r n => (m_upper r - m_lower r) / PAGE_SIZE + n) 0 regions.

Lemma room_nonneg regions : Forall unfinalized regions -> 0 <= room regions.
Proof.
  induction 1 as [|r rest (_ & Hlu & _) _ IH]; [done|]. unfold room in *. cbn [fold_right].
  pose proof (Z.div_pos (m_upper r - m_lower r) PAGE_SIZE). unfold PAGE_SIZE in *. lia.
Qed.

Definition same_bounds (r r' : PhysicalRegion) : Prop := m_lower r' = m_lower r /\ m_upper r' = m_upper r.

Lemma separated_bounds regions regions' :
  Forall2 same_bounds regions regions' -> separated regions -> separated regions'.
Proof.
  induction 1 as [|r r' rest rest' [Hl Hu] Hrest IH]; cbn; [done|]. intros [Ha Hs]. split; [|by apply IH].
  clear IH Hs. induction Hrest as [|q q' rest rest' [Hl' Hu'] _ IH]; [done|].
  apply Forall_cons in Ha as [Ha Has]. constructor; [|by apply IH].
  unfold apart in *. by rewrite Hl, Hu, Hl', Hu'.
Qed.

Lemma finalize_region_spec kmalloc r :
  kmalloc_ok kmalloc -> (forall n, fst (kmalloc n) mod 4 = 0) -> unfinalized r ->
  exists r', PhysicalRegion_finalize_capacity kmalloc r = Ret ((m_upper r - m_lower r) / PAGE_SIZE, r') /\
    same_bounds r r' /\ m_pages r' = (m_upper r - m_lower r) / PAGE_SIZE /\ pool_region r' [].
Proof.
  intros Hk Hal (Hr & Hlu & Hu & Hlo & Hm).
  pose proof (finalize_capacity_spec kmalloc (m_lower r) (m_upper r) Hk Hal) as Hfin. cbv zeta in Hfin.
  rewrite (proj2 (Z.leb_le _ _)) in Hfin by (unfold PAGE_SIZE in *; int_lia).
  destruct Hfin as (r' & Heq & Hl' & Hu' & Hp' & Hok); [lia | lia|]. rewrite <- Hr in Heq.
  exists r'. split_and!; [done.. |]. split; [by exists []|]. rewrite Hl', Hu', Hp'.
  unfold PAGE_SIZE in *. split_and!; int_lia.
Qed.

Definition no_pages (regions : list PhysicalRegion) : list (list Z) := map (fun _ => []) regions.

Lemma finalize_regions_spec kmalloc pages regions :
  kmalloc_ok kmalloc -> (forall n, fst (kmalloc n) mod 4 = 0) -> Forall unfinalized regions ->
  0 <= pages -> pages + room regions < 2 ^ 32 ->
  exists regions', finalize_regions kmalloc pages regions = Ret (pages + room regions, regions') /\
    Forall2 same_bounds regions regions' /\ Forall2 pool_region regions' (no_pages regions) /\
    held regions' (no_pages regions) = [] /\ total_pages regions' = room regions.
Proof.
  intros Hk Hal Hall. revert pages. induction Hall as [|r rest Hr Hrest IH]; intros pages Hp Hsum.
  { exists []. unfold room. cbn. rewrite Z.add_0_r. split_and!; (done || constructor). }
  destruct (finalize_region_spec kmalloc r Hk Hal Hr) as (r' & Heq & Hb & Hp' & Hpool).
  pose proof (room_nonneg _ Hrest) as Hroom.
  assert (0 <= (m_upper r - m_lower r) / PAGE_SIZE) as Hpos
    by (destruct Hr as (_ & Hlu & _); apply Z.div_pos; unfold PAGE_SIZE; lia).
  unfold room in Hsum |- *. cbn [fold_right] in Hsum |- *. fold (room rest) in Hsum |- *.
  cbn [finalize_regions]. rewrite Heq. run. wrap_small u32.
  destruct (IH (pages + (m_upper r - m_lower r) / PAGE_SIZE)) as (rest' & -> & Hbs & Hpools & Hheld & Htot);
    [lia.. |]. run.
  exists (r' :: rest'). split; [by rewrite Z.add_assoc|].
  split; [by constructor|]. split; [by constructor|]. split; [done|].
  unfold total_pages in *. cbn [fold_right]. by rewrite Hp', Htot.
Qed.

Lemma finalize_spec kmalloc memory user super :
  kmalloc_ok kmalloc -> (forall n, fst (kmalloc n) mod 4 = 0) ->
  Forall unfinalized user -> Forall unfinalized super -> separated user -> separated super ->
  0 < room user < 2 ^ 32 -> 0 < room super < 2 ^ 32 ->
  exists mm, MemoryManager_finalize kmalloc memory user super = Ret mm /\ mm_ok mm [] [] /\
    m_user_physical_pages_uncommitted mm = room user.
Proof.
  intros Hk Hal Hu Hs Hsu Hss Hru Hrs. unfold MemoryManager_finalize.
  destruct (finalize_regions_spec kmalloc 0 super) as (super' & -> & Hbs & Hps & Hhs & Hts); [done.. | lia | lia|].
  run. destruct (finalize_regions_spec kmalloc 0 user) as (user' & -> & Hbu & Hpu & Hhu & Htu);
    [done.. | lia | lia|].
  run. rewrite !VERIFY_true by lia. run. eexists; split; [done|]. split; [|done].
  split; mm_fields; cbn [length]; try lia.
  - exists (no_pages user). rewrite Hhu. split; [|done]. split; [done | by eapply separated_bounds].
  - exists (no_pages super). rewrite Hhs. split; [|done]. split; [done | by eapply separated_bounds].
Qed.

(** *** What the kernel does with the pages *)

Inductive mm_reachable : MemoryManager -> list Z -> list Z -> Prop :=
| mm_start kmalloc memory user super mm :
    kmalloc_ok kmalloc -> (forall n, fst (kmalloc n) mod 4 = 0) ->
    Forall unfinalized user -> Forall unfinalized super -> separated user -> separated super ->
    0 < room user < 2 ^ 32 -> 0 < room super < 2 ^ 32 ->
    MemoryManager_finalize kmalloc memory user super = Ret mm ->
    mm_reachable mm [] []
| mm_commit mm hu hs page_count res mm' :
    mm_reachable mm hu hs -> 0 < page_count < 2 ^ 32 ->
    MemoryManager_commit_user_physical_pages mm page_count = Ret (res, mm') ->
    mm_reachable mm' hu hs
| mm_uncommit mm hu hs page_count mm' :
    mm_reachable mm hu hs -> 0 < page_count <= m_user_physical_pages_committed mm ->
    MemoryManager_uncommit_user_physical_pages mm page_count = Ret mm' ->
    mm_reachable mm' hu hs
| mm_allocate_user rnd mm hu hs page mm' :
    mm_reachable mm hu hs -> (forall j, 0 <= rnd j) ->
    MemoryManager_find_free_user_physical_page rnd mm false = Ret (Some page, mm') ->
    mm_reachable mm' (m_paddr page :: hu) hs
| mm_allocate_committed rnd mm hu hs should_zero_fill page mm' :
    mm_reachable mm hu hs -> (forall j, 0 <= rnd j) ->
    MemoryManager_allocate_committed_user_physical_page rnd mm should_zero_fill = Ret (page, mm') ->
    mm_reachable mm' (m_paddr page :: hu) hs
| mm_allocate_supervisor rnd mm hu hs page mm' :
    mm_reachable mm hu hs -> (forall j, 0 <= rnd j) ->
    MemoryManager_allocate_supervisor_physical_page rnd mm = Ret (page, mm') ->
    mm_reachable mm' hu (m_paddr page :: hs)
| mm_return_user rnd mm hu hs page hu' mm' :
    mm_reachable mm hu hs -> 0 <= rnd < 256 -> m_supervisor page = false ->
    hu ≡ₚ m_paddr page :: hu' -> PhysicalPage_return_to_freelist rnd mm page = Ret mm' ->
    mm_reachable mm' hu' hs
| mm_return_supervisor rnd mm hu hs page hs' mm' :
    mm_reachable mm hu hs -> 0 <= rnd < 256 -> m_supervisor page = true ->
    hs ≡ₚ m_paddr page :: hs' -> PhysicalPage_return_to_freelist rnd mm page = Ret mm' ->
    mm_reachable mm' hu hs'.

Lemma held_aligned regions lives a :
  Forall2 pool_region regions lives -> a ∈ held regions lives -> Z.land a 0xfff = 0.
Proof.
  intros Hpool Ha. change 0xfff with (Z.ones 12). rewrite Z.land_ones by lia. change (2 ^ 12) with 4096.
  induction Hpool as [|r live rest lives (_ & Hl & _) _ IH]; cbn in Ha; [by apply not_elem_of_nil in Ha|].
  apply elem_of_app in Ha as [(i & -> & _)%list_elem_of_fmap | Ha]; [|by apply IH].
  unfold page_addr, PAGE_SIZE in *. by rewrite Z.mod_add.
Qed.

Lemma return_to_freelist_user rnd mm hu hs page hu' :
  mm_ok mm hu hs -> 0 <= rnd < 256 -> m_supervisor page = false -> hu ≡ₚ m_paddr page :: hu' ->
  exists mm', PhysicalPage_return_to_freelist rnd mm page = Ret mm' /\ mm_ok mm' hu' hs.
Proof.
  intros Hmm Hrnd Hs Hperm. unfold PhysicalPage_return_to_freelist. rewrite Hs.
  pose proof (mm_user _ _ _ Hmm) as (lives & Hpool & Hheld). rewrite (held_aligned (m_user_physical_regions mm) lives);
    [| apply Hpool | rewrite <- Hheld, Hperm; apply list_elem_of_here].
  rewrite VERIFY_true by done. run. by apply (deallocate_user_spec mm hu hs Hmm).
Qed.

Lemma return_to_freelist_supervisor rnd mm hu hs page hs' :
  mm_ok mm hu hs -> 0 <= rnd < 256 -> m_supervisor page = true -> hs ≡ₚ m_paddr page :: hs' ->
  exists mm', PhysicalPage_return_to_freelist rnd mm page = Ret mm' /\ mm_ok mm' hu hs'.
Proof.
  intros Hmm Hrnd Hs Hperm. unfold PhysicalPage_return_to_freelist. rewrite Hs.
  pose proof (mm_super _ _ _ Hmm) as (lives & Hpool & Hheld). rewrite (held_aligned (m_super_physical_regions mm) lives);
    [| apply Hpool | rewrite <- Hheld, Hperm; apply list_elem_of_here].
  rewrite VERIFY_true by done. run. by apply (deallocate_supervisor_spec mm hu hs Hmm).
Qed.

Lemma allocate_committed_spec rnd mm hu hs should_zero_fill :
  mm_ok mm hu hs -> (forall j, 0 <= rnd j) -> whole_groups (m_user_physical_regions mm) ->
  0 < m_user_physical_pages_committed mm ->
  exists page mm', MemoryManager_allocate_committed_user_physical_page rnd mm should_zero_fill = Ret (page, mm') /\
    (m_paddr page ∉ hu) /\ m_supervisor page = false /\ mm_ok mm' (m_paddr page :: hu) hs /\
    (should_zero_fill = true -> forall a, m_paddr page <= a < m_paddr page + PAGE_SIZE -> m_memory mm' a = 0).
Proof.
  intros Hmm Hrnd Hg Hc. destruct (find_free_spec mm hu hs Hmm rnd true Hrnd Hg Hc) as (page & mm' & Heq & Hn & Hs & Hmm').
  unfold MemoryManager_allocate_committed_user_physical_page. rewrite Heq. run. do 2 eexists; split; [done|].
  split_and!; [done | done | |].
  - destruct should_zero_fill; [by apply mm_zero_page | done].
  - intros -> a Ha. mm_fields. by rewrite (proj2 (andb_true_iff _ _)) by lia.
Qed.

Lemma reachable_mm_ok mm hu hs : mm_reachable mm hu hs -> mm_ok mm hu hs.
Proof.
  induction 1 as [kmalloc memory user super mm Hk Hal Hu Hs Hsu Hss Hru Hrs Heq
    | mm hu hs page_count res mm' _ IH Hc Heq | mm hu hs page_count mm' _ IH Hc Heq
    | rnd mm hu hs page mm' _ IH Hrnd Heq | rnd mm hu hs should_zero_fill page mm' _ IH Hrnd Heq
    | rnd mm hu hs page mm' _ IH Hrnd Heq | rnd mm hu hs page hu' mm' _ IH Hrnd Hs Hperm Heq
    | rnd mm hu hs page hs' mm' _ IH Hrnd Hs Hperm Heq].
  - destruct (finalize_spec kmalloc memory user super Hk Hal Hu Hs Hsu Hss Hru Hrs) as (m & Heq' & Hmm & _).
    by replace mm with m by congruence.
  - destruct (commit_spec mm hu hs IH page_count Hc) as (r & m & Heq' & Hmm & _).
    by replace mm' with m by congruence.
  - destruct (uncommit_spec mm hu hs IH page_count Hc) as (m & Heq' & Hmm & _).
    by replace mm' with m by congruence.
  - by apply (find_free_inv mm hu hs IH rnd false page mm').
  - unfold MemoryManager_allocate_committed_user_physical_page in Heq.
    destruct (MemoryManager_find_free_user_physical_page rnd mm true) as [[[p|] m]|] eqn:E; run in Heq; [|done..].
    injection Heq as -> <-. apply (find_free_inv mm hu hs IH) in E as (_ & _ & E); [|done].
    destruct should_zero_fill; [by apply mm_zero_page | done].
  - pose proof (allocate_supervisor_spec mm hu hs IH rnd Hrnd) as Hspec. rewrite Heq in Hspec. apply Hspec.
  - destruct (return_to_freelist_user rnd mm hu hs page hu' IH Hrnd Hs Hperm) as (m & Heq' & Hmm).
    by replace mm' with m by congruence.
  - destruct (return_to_freelist_supervisor rnd mm hu hs page hs' IH Hrnd Hs Hperm) as (m & Heq' & Hmm).
    by replace mm' with m by congruence.
Qed.

(** ** Properties *)


(** A supervisor page is handed out when there is one that is not in use, and all of it
    and nothing else is filled with zeroes; the kernel stops only when all pages are in use. *)
Theorem MemoryManager_allocate_supervisor_correct rnd mm hu hs :
  mm_reachable mm hu hs -> (forall j, 0 <= rnd j) ->
  match MemoryManager_allocate_supervisor_physical_page rnd mm with
  | Ret (page, mm') => (m_paddr page ∉ hs) /\ mm_reachable mm' hu (m_paddr page :: hs) /\
      forall a, m_memory mm' a =
        if (m_paddr page <=? a) && (a <? m_paddr page + PAGE_SIZE) then 0 else m_memory mm a
  | Stop VerifyFailed => whole_groups (m_super_physical_regions mm) ->
      Z.of_nat (length hs) = total_pages (m_super_physical_regions mm)
  | Stop _ => False
  end.
Proof.
  intros Hr Hrnd. pose proof (allocate_supervisor_spec mm hu hs (reachable_mm_ok _ _ _ Hr) rnd Hrnd) as Hspec.
  destruct (MemoryManager_allocate_supervisor_physical_page rnd mm) as [[page mm']|f] eqn:E; [|done].
  destruct Hspec as (? & _ & ?). split_and!; [done | by eapply mm_allocate_supervisor | done].
Qed.

(** *** Witnesses *)

Definition example_user : list PhysicalRegion :=
  [PhysicalRegion_create 0x100000 0x110000; PhysicalRegion_create 0x120000 0x128000].
Definition example_super : list PhysicalRegion := [PhysicalRegion_create 0x1000000 0x1008000].

(** Three pages are committed and one of them is taken. *)
Definition example_mm : outcome (MemoryManager * list Z) :=
  mm ← MemoryManager_finalize example_kmalloc (fun _ => 0xa5) example_user example_super;
  '(_, mm) ← MemoryManager_commit_user_physical_pages mm 3;
  '(page, mm) ← MemoryManager_allocate_committed_user_physical_page (fun _ => 0) mm true;
  Ret (mm, [m_paddr page]).

Lemma example_unfinalized : Forall unfinalized example_user /\ Forall unfinalized example_super.
Proof. split; repeat constructor; by vm_compute. Qed.

Lemma example_separated : separated example_user.
Proof. split; [|done]. constructor; [left; by vm_compute | constructor]. Qed.

Lemma example_mm_reachable mm hu : example_mm = Ret (mm, hu) -> mm_reachable mm hu [].
Proof.
  intros H. unfold example_mm in H.
  destruct (MemoryManager_finalize _ _ _ _) as [mm0|] eqn:E0; [run in H | done].
  destruct (MemoryManager_commit_user_physical_pages _ _) as [[res mm1]|] eqn:E1; [run in H | done].
  destruct (MemoryManager_allocate_committed_user_physical_page _ _ _) as [[page mm2]|] eqn:E2; [run in H | done].
  injection H as <- <-. eapply mm_allocate_committed; [| | exact E2]; [|done].
  eapply mm_commit; [| | exact E1]; [|lia].
  eapply (mm_start example_kmalloc _ example_user example_super); [apply example_kmalloc_ok | done |
    apply example_unfinalized | apply example_unfinalized | apply example_separated | by cbn |
    by vm_compute | by vm_compute | exact E0].
Qed.

Lemma example_mm_value :
  exists mm, example_mm = Ret (mm, [0x100000]) /\
    m_user_physical_pages_committed mm = 2 /\ m_user_physical_pages_uncommitted mm = 21 /\
    whole_groups (m_user_physical_regions mm).
Proof.
  assert (('(mm, hu) ← example_mm;
    Ret (m_user_physical_pages_committed mm, m_user_physical_pages_uncommitted mm,
         map (fun r => m_pages r mod 8) (m_user_physical_regions mm), hu)) = Ret (2, 21, [0; 0], [0x100000]))
    as H by (vm_compute; reflexivity).
  destruct example_mm as [[mm hu]|]; run in H; [|done]. injection H as Hc Hn Hg ->. exists mm.
  split_and!; try done. unfold whole_groups.
  apply Forall_forall. intros r Hr.
  assert (m_pages r mod 8 ∈ [0; 0]) as Hin by (rewrite <- Hg; by apply (list_elem_of_fmap_2 (fun r => m_pages r mod 8))).
  by rewrite !elem_of_cons, elem_of_nil in Hin; destruct Hin as [|[|[]]].
Qed.


Lemma MemoryManager_allocate_supervisor_correct_witness :
  exists mm, example_mm = Ret (mm, [0x100000]) /\
  match MemoryManager_allocate_supervisor_physical_page (fun _ => 0) mm with
  | Ret (page, mm') => (m_paddr page ∉ []) /\ mm_reachable mm' [0x100000] [m_paddr page] /\
      forall a, m_memory mm' a =
        if (m_paddr page <=? a) && (a <? m_paddr page + PAGE_SIZE) then 0 else m_memory mm a
  | Stop VerifyFailed => whole_groups (m_super_physical_regions mm) ->
      Z.of_nat (length (@nil Z)) = total_pages (m_super_physical_regions mm)
  | Stop _ => False
  end.
Proof.
  destruct example_mm_value as (mm & E & _). exists mm. split; [done|].
  apply (MemoryManager_allocate_supervisor_correct (fun _ => 0) mm [0x100000] []);
    [by apply example_mm_reachable | done].
Defined.

(** *** Regions that touch *)

(** The second region starts where the first one ends. *)
Definition touching : list PhysicalRegion :=
  [PhysicalRegion_create 0x100000 0x108000; PhysicalRegion_create 0x108000 0x110000].

Fixpoint allocate_users (n : nat) (mm : MemoryManager) : outcome MemoryManager :=
  match n with
  | O => Ret mm
  | S n => '(_, mm) ← MemoryManager_find_free_user_physical_page (fun _ => 0) mm false; allocate_users n mm
  end.

(** [contains] counts the upper bound as part of a region.  When a region starts at the
    upper bound of another one, its first page is given back to the other region, and the
    next allocation from there stops the kernel. *)
Theorem MemoryManager_touching_regions_fail :
  exists mm, (mm ← MemoryManager_finalize example_kmalloc (fun _ => 0) touching example_super;
              mm ← allocate_users 16 mm;
              PhysicalPage_return_to_freelist 0 mm (MkPage 0x108000 false)) = Ret mm /\
    m_user_physical_pages_uncommitted mm = 1 /\
    MemoryManager_find_free_user_physical_page (fun _ => 0) mm false = Stop VerifyFailed.
Proof. eexists. split; [vm_compute; reflexivity|]. split; by vm_compute. Qed.

Fixpoint allocate_committed (n : nat) (mm : MemoryManager) : outcome MemoryManager :=
  match n with
  | O => Ret mm
  | S n =>
      '(_, mm) ← MemoryManager_allocate_committed_user_physical_page (fun _ => 0) mm false;
      allocate_committed n mm
  end.

(** Without whole groups of eight pages the promise is broken: with a region of twelve
    pages, twelve pages can be committed, but after eight the next one stops the kernel. *)
Theorem MemoryManager_committed_page_missing :
  exists mm, (mm ← MemoryManager_finalize example_kmalloc (fun _ => 0)
                [PhysicalRegion_create 0x100000 0x10c000] example_super;
              '(_, mm) ← MemoryManager_commit_user_physical_pages mm 12;
              allocate_committed 8 mm) = Ret mm /\
    m_user_physical_pages_committed mm = 4 /\
    MemoryManager_allocate_committed_user_physical_page (fun _ => 0) mm false = Stop VerifyFailed.
Proof. eexists. split; [vm_compute; reflexivity|]. split; by vm_compute. Qed.
