(* ===== verification/MemoryMap.v ===== *)
(** * Kernel/VM/MemoryManager: the memory map of the machine

    [parse_memory_map] turns the memory map of the boot loader into physical regions;
    [register_reserved_ranges] collects the reserved memory, and
    [is_allowed_to_mmap_to_userspace] decides with it what a process may map.

    The multiboot information, the bounds of the kernel image and of the supervisor pages are
    parameters; the loop over the pages of an entry has fuel. *)

From S2P Require Import Prelude Bitmap PhysicalRegion MemoryManager.

#[local] Open Scope Z_scope.

Inductive PhysicalMemoryRangeType : Type :=
  Usable | Reserved | ACPI_Reclaimable | ACPI_NVS | BadMemory | Unknown.

#[global] Instance PhysicalMemoryRangeType_eq_dec : EqDecision PhysicalMemoryRangeType.
Proof. solve_decision. Defined.

Inductive UsedMemoryRangeType : Type := LowMemory | Kernel | BootModule.

Record UsedMemoryRange : Type := MkUsed { u_type : UsedMemoryRangeType; u_start : Z; u_end : Z }.
Record ContiguousReservedMemoryRange : Type := MkReserved { rr_start : Z; rr_length : Z }.
Record PhysicalMemoryRange : Type :=
  MkPhysical { pm_type : PhysicalMemoryRangeType; pm_start : Z; pm_length : Z }.

(** [multiboot_mmap_entry]: addresses and lengths of 64 bits. *)
Record multiboot_mmap_entry : Type := MkEntry { mmap_addr : Z; mmap_len : Z; mmap_type : Z }.

Definition MULTIBOOT_MEMORY_AVAILABLE : Z := 1.
Definition MULTIBOOT_MEMORY_RESERVED : Z := 2.
Definition MULTIBOOT_MEMORY_ACPI_RECLAIMABLE : Z := 3.
Definition MULTIBOOT_MEMORY_NVS : Z := 4.
Definition MULTIBOOT_MEMORY_BADRAM : Z := 5.

Definition page_round_up (x : Z) : outcome Z :=
  let rounded := Z.land (wrap FlatPtr (x + PAGE_SIZE - 1)) (wrap FlatPtr (Z.lnot (PAGE_SIZE - 1))) in
  VERIFY ((x =? 0) || negb (rounded =? 0)) ;; Ret rounded.
Definition page_round_up_would_wrap (x : Z) : bool := 0xfffff000 <? x.
Definition page_round_down (x : Z) : Z := Z.land x (wrap FlatPtr (Z.lnot (PAGE_SIZE - 1))).
Definition virtual_to_low_physical (virtual : Z) : Z := wrap FlatPtr (virtual - 0xc0000000).

Definition mmap_range_type (type : Z) : PhysicalMemoryRangeType :=
  if type =? MULTIBOOT_MEMORY_AVAILABLE then Usable
  else if type =? MULTIBOOT_MEMORY_RESERVED then Reserved
  else if type =? MULTIBOOT_MEMORY_ACPI_RECLAIMABLE then ACPI_Reclaimable
  else if type =? MULTIBOOT_MEMORY_NVS then ACPI_NVS
  else if type =? MULTIBOOT_MEMORY_BADRAM then BadMemory
  else Unknown.

(** The used memory ranges known at the start. *)
Definition used_memory_ranges (start_of_kernel_image end_of_kernel_image : Z) (boot_modules : list (Z * Z))
    : outcome (list UsedMemoryRange) :=
  kernel_end ← page_round_up (virtual_to_low_physical end_of_kernel_image);
  Ret ([MkUsed LowMemory 0 0x100000;
        MkUsed Kernel (virtual_to_low_physical start_of_kernel_image) kernel_end]
       ++ map (fun '(s, e) => MkUsed BootModule s e) boot_modules).

Definition should_skip (used : list UsedMemoryRange) (addr : Z) : bool :=
  existsb (fun used_range => (u_start used_range <=? addr) && (addr <=? u_end used_range)) used.

(** The current region is the last one of the list. *)
Definition add_page (regions : list PhysicalRegion) (addr : Z) : outcome (list PhysicalRegion) :=
  match last regions with
  | None => Ret (regions ++ [PhysicalRegion_create addr addr])
  | Some region =>
      if negb (PhysicalAddress_offset (m_upper region) PAGE_SIZE =? addr) then
        Ret (regions ++ [PhysicalRegion_create addr addr])
      else
        region ← PhysicalRegion_expand region (m_lower region) addr;
        Ret (take (length regions - 1) regions ++ [region])
  end.

(** [page_base] has 32 bits, [end_] 64. *)
Fixpoint add_pages (fuel : nat) (used : list UsedMemoryRange) (regions : list PhysicalRegion)
    (page_base end_ : Z) : outcome (list PhysicalRegion) :=
  match fuel with
  | O => Stop NoFuel
  | S fuel =>
      if page_base <=? end_ then
        regions ← (if should_skip used page_base then Ret regions else add_page regions page_base);
        add_pages fuel used regions (wrap size_t (page_base + PAGE_SIZE)) end_
      else Ret regions
  end.

(** The entry after the corrections of unaligned bounds. *)
Definition align_entry (e : multiboot_mmap_entry) : Z * Z :=
  let diff := wrap FlatPtr (mmap_addr e) mod PAGE_SIZE in
  let '(addr, len) :=
    if negb (diff =? 0) then
      let diff := PAGE_SIZE - diff in
      (wrap u64 (mmap_addr e + diff), wrap u64 (mmap_len e - diff))
    else (mmap_addr e, mmap_len e) in
  let len := if negb (len mod PAGE_SIZE =? 0) then len - len mod PAGE_SIZE else len in
  (addr, len).

(** One round of the loop over the memory map. *)
Definition parse_entry (fuel : nat) (used : list UsedMemoryRange)
    (s : list PhysicalMemoryRange * list PhysicalRegion) (e : multiboot_mmap_entry)
    : outcome (list PhysicalMemoryRange * list PhysicalRegion) :=
  let '(ranges, regions) := s in
  let ranges := ranges ++ [MkPhysical (mmap_range_type (mmap_type e)) (wrap FlatPtr (mmap_addr e))
                             (wrap size_t (mmap_len e))] in
  if negb (mmap_type e =? MULTIBOOT_MEMORY_AVAILABLE) then Ret (ranges, regions)
  else if 0xffffffff <? wrap u64 (mmap_addr e + mmap_len e) then Ret (ranges, regions)
  else
    let '(addr, len) := align_entry e in
    if len <? PAGE_SIZE then Ret (ranges, regions)
    else
      regions ← add_pages fuel used regions (wrap size_t addr) (wrap u64 (addr + len));
      Ret (ranges, regions).

Fixpoint parse_entries (fuel : nat) (used : list UsedMemoryRange)
    (s : list PhysicalMemoryRange * list PhysicalRegion) (mmap : list multiboot_mmap_entry)
    : outcome (list PhysicalMemoryRange * list PhysicalRegion) :=
  match mmap with
  | [] => Ret s
  | e :: mmap => s ← parse_entry fuel used s e; parse_entries fuel used s mmap
  end.

(** The loop of [register_reserved_ranges]: the start of the current range (0 for none) and
    the ranges so far. *)
Definition reserved_round (s : Z * list ContiguousReservedMemoryRange) (current_range : PhysicalMemoryRange)
    : Z * list ContiguousReservedMemoryRange :=
  let '(start, reserved) := s in
  if negb (bool_decide (pm_type current_range = Reserved)) then
    if start =? 0 then (start, reserved)
    else (0, reserved ++ [MkReserved start (wrap size_t (pm_start current_range - start))])
  else if negb (start =? 0) then (start, reserved)
  else (pm_start current_range, reserved).

Definition register_reserved_ranges (ranges : list PhysicalMemoryRange)
    (reserved : list ContiguousReservedMemoryRange) : outcome (list ContiguousReservedMemoryRange) :=
  match last ranges with
  | None => Stop VerifyFailed
  | Some last_range =>
      let '(start, reserved) := fold_left reserved_round ranges (0, reserved) in
      if negb (bool_decide (pm_type last_range = Reserved)) then Ret reserved
      else if start =? 0 then Ret reserved
      else Ret (reserved ++
        [MkReserved start (wrap size_t (pm_start last_range + pm_length last_range - start))])
  end.

(** [size] is the size of the range to map. *)
Fixpoint allowed_by (reserved : list ContiguousReservedMemoryRange) (start_address size : Z) : bool :=
  match reserved with
  | [] => false
  | current_range :: rest =>
      if negb (rr_start current_range <=? start_address) then allowed_by rest start_address size
      else if negb (start_address <? PhysicalAddress_offset (rr_start current_range) (rr_length current_range))
      then allowed_by rest start_address size
      else if rr_length current_range <? size then false
      else true
  end.

Definition is_allowed_to_mmap_to_userspace (reserved : list ContiguousReservedMemoryRange)
    (start_address size : Z) : outcome bool :=
  VERIFY (negb (bool_decide (reserved = []))) ;;
  Ret (allowed_by reserved start_address size).

(** The size of the array [super_pages]. *)
Definition sizeof_super_pages : Z := 0x100000.

(** The whole of [parse_memory_map]: the memory manager, the memory ranges and the reserved
    ranges.  [boot_modules] is empty if the multiboot flags do not announce modules. *)
Definition MemoryManager_parse_memory_map (fuel : nat) (kmalloc : Z -> Z * list Z) (memory : Z -> Z)
    (start_of_kernel_image end_of_kernel_image super_pages : Z)
    (boot_modules : list (Z * Z)) (mmap : list multiboot_mmap_entry)
    : outcome (MemoryManager * list PhysicalMemoryRange * list ContiguousReservedMemoryRange) :=
  used ← used_memory_ranges start_of_kernel_image end_of_kernel_image boot_modules;
  '(ranges, user) ← parse_entries fuel used ([], []) mmap;
  let super := [PhysicalRegion_create (virtual_to_low_physical super_pages)
                  (virtual_to_low_physical (wrap FlatPtr (super_pages + sizeof_super_pages)))] in
  mm ← MemoryManager_finalize kmalloc memory user super;
  reserved ← register_reserved_ranges ranges [];
  Ret (mm, ranges, reserved).

(** ** The user regions *)

(** A page the memory map offers and nobody uses.  The loop also visits the page that starts
    at the end of an entry. *)
Definition offered (used : list UsedMemoryRange) (mmap : list multiboot_mmap_entry) (p : Z) : Prop :=
  should_skip used p = false /\
  exists e, e ∈ mmap /\ mmap_type e = MULTIBOOT_MEMORY_AVAILABLE /\
    mmap_addr e <= p <= mmap_addr e + mmap_len e.

Record fresh_region (ok : Z -> Prop) (r : PhysicalRegion) : Prop := FreshRegion {
  fresh_created : r = PhysicalRegion_create (m_lower r) (m_upper r);
  fresh_bounds : 0 <= m_lower r <= m_upper r;
  fresh_lower : m_lower r mod PAGE_SIZE = 0;
  fresh_upper : m_upper r mod PAGE_SIZE = 0;
  fresh_pages : forall p, m_lower r <= p <= m_upper r -> p mod PAGE_SIZE = 0 -> ok p
}.

(** The regions in the order of their addresses. *)
Fixpoint ascending (regions : list PhysicalRegion) : Prop :=
  match regions with
  | [] => True
  | r :: rest => Forall (fun q => m_upper r < m_lower q) rest /\ ascending rest
  end.

Lemma ascending_separated regions : ascending regions -> separated regions.
Proof.
  induction regions as [|r rest IH]; cbn; [done|]. intros [Hr Hs]. split; [|by apply IH].
  eapply Forall_impl; [exact Hr|]. intros q Hq. by left.
Qed.

Lemma ascending_snoc regions r :
  ascending (regions ++ [r]) <-> ascending regions /\ Forall (fun q => m_upper q < m_lower r) regions.
Proof.
  induction regions as [|q rest IH]; cbn.
  - repeat split; constructor.
  - rewrite Forall_app, Forall_singleton, Forall_cons, IH. tauto.
Qed.

(** The state between two pages: all regions lie below [bound]. *)
Record regions_below (ok : Z -> Prop) (bound : Z) (regions : list PhysicalRegion) : Prop := RegionsBelow {
  below_fresh : Forall (fresh_region ok) regions;
  below_bound : Forall (fun r => m_upper r < bound) regions;
  below_ascending : ascending regions
}.

Lemma regions_below_weaken ok bound bound' regions :
  bound <= bound' -> regions_below ok bound regions -> regions_below ok bound' regions.
Proof.
  intros Hle [Hf Hb Hs]. split; [done | | done]. eapply Forall_impl; [done|]. intros r; cbn. lia.
Qed.

Lemma below_new ok bound regions p :
  regions_below ok bound regions -> bound <= p -> 0 <= p -> p mod PAGE_SIZE = 0 -> ok p ->
  regions_below ok (p + 1) (regions ++ [PhysicalRegion_create p p]).
Proof.
  intros [Hf Hb Hs] Hp Hp0 Hal Hok. split.
  - apply Forall_app. split; [done|]. constructor; [|constructor].
    split; cbn; [done | lia | done | done|]. intros q Hq _. by replace q with p by lia.
  - apply Forall_app. split; [|repeat constructor; cbn; lia].
    eapply Forall_impl; [done|]. intros r; cbn. lia.
  - apply ascending_snoc. split; [done|]. eapply Forall_impl; [done|].
    intros r Hr. cbn in *. lia.
Qed.

Lemma below_expand ok bound regions r p :
  regions_below ok bound (regions ++ [r]) -> bound <= p -> p = m_upper r + PAGE_SIZE -> ok p ->
  regions_below ok (p + 1) (regions ++ [PhysicalRegion_create (m_lower r) p]).
Proof.
  intros [Hf Hb Hs] Hbp Hp Hok. apply Forall_app in Hf as [Hf Hr]. apply Forall_app in Hb as [Hb Hbr].
  apply ascending_snoc in Hs as [Hs Hap]. rewrite Forall_singleton in Hr, Hbr.
  destruct Hr as [_ Hlu Hl Hu Hpages]. unfold PAGE_SIZE in *. split.
  - apply Forall_app. split; [done|]. constructor; [|constructor].
    split; unfold PAGE_SIZE; cbn; [done | lia | done | int_lia|]. intros q Hq Hal.
    destruct (decide (q <= m_upper r)); [apply Hpages; [lia | done] |].
    by replace q with p by int_lia.
  - apply Forall_app. split; [|repeat constructor; cbn; lia].
    eapply Forall_impl; [done|]. intros q; cbn. lia.
  - by apply ascending_snoc.
Qed.

Lemma add_page_spec ok bound regions p :
  regions_below ok bound regions -> bound <= p -> 0 <= p < 2 ^ 32 -> p mod PAGE_SIZE = 0 -> ok p ->
  exists regions', add_page regions p = Ret regions' /\ regions_below ok (p + 1) regions'.
Proof.
  intros Hb Hbp Hp Hal Hok. unfold add_page.
  destruct regions as [|r regions _] using rev_ind.
  { cbn. eexists; split; [done|]. apply (below_new ok bound []); (done || lia). }
  rewrite last_snoc. pose proof Hb as [Hf Hbs _]. apply Forall_app in Hf as [_ Hr], Hbs as [_ Hbr].
  rewrite Forall_singleton in Hr, Hbr. destruct Hr as [Hc Hlu Hl Hu _].
  unfold PhysicalAddress_offset, FlatPtr. destruct (Z.eqb_spec (wrap u32 (m_upper r + PAGE_SIZE)) p) as [Heq|Hne];
    cbn [negb].
  - assert (p = m_upper r + PAGE_SIZE) as Hp' by (unfold PAGE_SIZE in *; int_lia).
    assert (PhysicalRegion_expand r (m_lower r) p = Ret (PhysicalRegion_create (m_lower r) p)) as ->
      by (rewrite Hc; reflexivity).
    run. eexists; split; [done|].
    replace (length (regions ++ [r]) - 1)%nat with (length regions) by (rewrite length_app; cbn; lia).
    rewrite take_app_length. by apply (below_expand _ bound).
  - eexists; split; [done|]. apply (below_new ok bound); (done || lia).
Qed.

Lemma add_pages_spec ok bound fuel used regions page_base end_ :
  regions_below ok bound regions -> bound <= page_base -> 0 <= page_base -> page_base mod PAGE_SIZE = 0 ->
  end_ < 0xfffff000 -> (end_ - page_base) / PAGE_SIZE + 1 < Z.of_nat fuel ->
  page_base <= 0xfffff000 -> 1 <= Z.of_nat fuel ->
  (forall p, page_base <= p <= end_ -> p mod PAGE_SIZE = 0 -> should_skip used p = false -> ok p) ->
  exists regions', add_pages fuel used regions page_base end_ = Ret regions' /\
    regions_below ok (Z.max bound (end_ + 1)) regions'.
Proof.
  revert bound regions page_base. induction fuel as [|fuel IH]; intros bound regions page_base Hb Hbp H0 Hal He Hfuel Hpb Hf1 Hok;
    [lia|]. cbn [add_pages]. destruct (Z.leb_spec page_base end_) as [Hle|Hgt].
  - assert (exists regions', (if should_skip used page_base then Ret regions else add_page regions page_base)
      = Ret regions' /\ regions_below ok (page_base + 1) regions') as (regions' & -> & Hb').
    { destruct (should_skip used page_base) eqn:E.
      - eexists; split; [done|]. eapply regions_below_weaken; [|done]. lia.
      - apply (add_page_spec ok bound); try done; try lia. apply Hok; (done || lia). }
    run. unfold PAGE_SIZE, size_t in *. wrap_small u32.
    destruct (IH (page_base + 1) regions' (page_base + 4096)) as (regions'' & -> & Hb'');
      [done | lia | lia | int_lia | lia | int_lia | int_lia | int_lia | |].
    { intros p Hp. apply Hok. lia. }
    eexists; split; [done|]. eapply regions_below_weaken; [|done]. lia.
  - eexists; split; [done|]. eapply regions_below_weaken; [|done]. lia.
Qed.

(** The bounds of an entry do not overflow, and memory below 4 GiB does not reach into the
    last page ([add_pages_diverges]). *)
Definition entry_ok (e : multiboot_mmap_entry) : Prop :=
  0 <= mmap_addr e /\ 0 <= mmap_len e /\ mmap_addr e + mmap_len e < 2 ^ 64 /\
  (mmap_addr e + mmap_len e < 2 ^ 32 -> mmap_addr e + mmap_len e < 0xfffff000).

(** The corrections round the start up and the end down. *)
Lemma align_entry_spec e :
  0 <= mmap_addr e -> 0 <= mmap_len e -> mmap_addr e + mmap_len e < 0xfffff000 ->
  let '(addr, len) := align_entry e in
  addr = PAGE_SIZE * ((mmap_addr e + PAGE_SIZE - 1) / PAGE_SIZE) /\
  wrap u64 (addr + len) = PAGE_SIZE * ((mmap_addr e + mmap_len e) / PAGE_SIZE).
Proof.
  intros Ha Hl Hs. unfold align_entry, PAGE_SIZE, FlatPtr. wrap_small u32.
  destruct (Z.eqb_spec (mmap_addr e mod 4096) 0) as [Hm|Hm]; cbn [negb].
  - destruct (Z.eqb_spec (mmap_len e mod 4096) 0); cbn [negb]; wrap_small u64; int_lia.
  - assert (0 <= mmap_addr e mod 4096 < 4096) by (apply Z.mod_pos_bound; lia).
    assert (wrap u64 (mmap_addr e + (4096 - mmap_addr e mod 4096)) = mmap_addr e + (4096 - mmap_addr e mod 4096)) as ->
      by (wrap_small u64; lia).
    set (len := wrap u64 (mmap_len e - (4096 - mmap_addr e mod 4096))).
    assert (len mod 4096 = (mmap_addr e + mmap_len e) mod 4096 /\
      (len = mmap_len e - (4096 - mmap_addr e mod 4096) \/
       len = mmap_len e - (4096 - mmap_addr e mod 4096) + 2 ^ 64)) as (Hmod & Hlen)
      by (subst len; int_lia).
    replace (if negb (len mod 4096 =? 0) then len - len mod 4096 else len) with (len - len mod 4096)
      by (destruct (Z.eqb_spec (len mod 4096) 0); cbn [negb]; lia).
    split; [int_lia|]. rewrite Hmod. destruct Hlen as [-> | ->]; int_lia.
Qed.

Definition available (e : multiboot_mmap_entry) : bool := mmap_type e =? MULTIBOOT_MEMORY_AVAILABLE.

(** The available entries are in the order of their addresses with something between them. *)
Fixpoint entries_ascending (bound : Z) (mmap : list multiboot_mmap_entry) : Prop :=
  match mmap with
  | [] => True
  | e :: mmap =>
      if available e then bound <= mmap_addr e /\ entries_ascending (mmap_addr e + mmap_len e + 1) mmap
      else entries_ascending bound mmap
  end.

Definition range_of (e : multiboot_mmap_entry) : PhysicalMemoryRange :=
  MkPhysical (mmap_range_type (mmap_type e)) (wrap FlatPtr (mmap_addr e)) (wrap size_t (mmap_len e)).

(** Enough rounds for all the pages below 4 GiB. *)
Definition pages_fuel : nat := Z.to_nat (2 ^ 20 + 2).

Section parsing.
Context (used : list UsedMemoryRange) (ok : Z -> Prop).

Lemma parse_entry_spec ranges regions bound e :
  entry_ok e -> (available e = true -> bound <= mmap_addr e) -> regions_below ok bound regions ->
  (forall p, available e = true -> mmap_addr e <= p <= mmap_addr e + mmap_len e ->
    should_skip used p = false -> ok p) ->
  exists regions', parse_entry pages_fuel used (ranges, regions) e = Ret (ranges ++ [range_of e], regions') /\
    regions_below ok (if available e then mmap_addr e + mmap_len e + 1 else bound) regions'.
Proof.
  intros (Ha & Hl & Hs & Hlast) Hbound Hb Hok. unfold parse_entry, available in *.
  destruct (mmap_type e =? MULTIBOOT_MEMORY_AVAILABLE); cbn [negb]; [|by eexists].
  specialize (Hbound eq_refl). wrap_small u64.
  destruct (Z.ltb_spec 0xffffffff (mmap_addr e + mmap_len e)) as [Hbig|Hsmall].
  { eexists; split; [done|]. eapply regions_below_weaken; [|done]. lia. }
  pose proof (align_entry_spec e Ha Hl ltac:(lia)) as Halign.
  destruct (align_entry e) as [addr len]. destruct Halign as [-> Hend].
  destruct (Z.ltb_spec len PAGE_SIZE).
  { eexists; split; [done|]. eapply regions_below_weaken; [|done]. lia. }
  rewrite Hend. unfold size_t, PAGE_SIZE, pages_fuel in *.
  rewrite (wrap_id u32 eq_refl (4096 * ((mmap_addr e + 4096 - 1) / 4096))) by int_lia.
  destruct (add_pages_spec ok bound (Z.to_nat (2 ^ 20 + 2)) used regions
    (4096 * ((mmap_addr e + 4096 - 1) / 4096)) (4096 * ((mmap_addr e + mmap_len e) / 4096)))
    as (regions' & -> & Hb'); try (unfold PAGE_SIZE; int_lia); [done | |].
  { intros p Hp _ Hskip. apply Hok; [done | int_lia | done]. }
  run. eexists; split; [done|]. eapply regions_below_weaken; [|done]. int_lia.
Qed.

Lemma parse_entries_spec ranges regions bound mmap :
  Forall entry_ok mmap -> entries_ascending bound mmap -> regions_below ok bound regions ->
  (forall p e, e ∈ mmap -> available e = true -> mmap_addr e <= p <= mmap_addr e + mmap_len e ->
    should_skip used p = false -> ok p) ->
  exists bound' regions', parse_entries pages_fuel used (ranges, regions) mmap =
      Ret (ranges ++ map range_of mmap, regions') /\ regions_below ok bound' regions'.
Proof.
  intros Hall. revert ranges regions bound.
  induction Hall as [|e mmap He Hall IH]; intros ranges regions bound Hasc Hb Hok; cbn [parse_entries map].
  { exists bound, regions. by rewrite app_nil_r. }
  cbn [entries_ascending] in Hasc.
  destruct (parse_entry_spec ranges regions bound e He) as (regions' & -> & Hb'); [| done | |].
  { intros Hav. rewrite Hav in Hasc. by destruct Hasc. }
  { intros p Hav Hp. apply (Hok p e); [apply list_elem_of_here | done | done]. }
  assert (entries_ascending (if available e then mmap_addr e + mmap_len e + 1 else bound) mmap) as Hasc'
    by (destruct (available e); [apply Hasc | exact Hasc]).
  run. destruct (IH (ranges ++ [range_of e]) regions' _ Hasc' Hb') as (bound' & regions'' & -> & Hb'').
  { intros p e' He'. apply Hok. by apply list_elem_of_further. }
  exists bound', regions''. by rewrite <- app_assoc.
Qed.

End parsing.

(** ** Properties *)

(** C30. Reading a memory map whose entries end below 2^64 and not on the last page below
    4 GiB ([entry_ok]; otherwise the loop does not end, [parse_entry_diverges]), and whose
    available entries ascend with a gap between them ([entries_ascending]; otherwise
    regions may touch, [parse_memory_map_touching]), ends and gives regions that are apart
    from each other. The address of every page of theirs lies in no used range and between
    the first address of an available entry and the one behind its last, both included:
    the page that starts right behind an entry is taken too, although the entry does not
    have it ([parse_memory_map_hole]). All entries are recorded as memory ranges. *)
Theorem parse_memory_map_regions used mmap :
  Forall entry_ok mmap -> entries_ascending 0 mmap ->
  exists regions, parse_entries pages_fuel used ([], []) mmap = Ret (map range_of mmap, regions) /\
    separated regions /\ Forall (fresh_region (offered used mmap)) regions.
Proof.
  intros Hall Hasc.
  destruct (parse_entries_spec used (offered used mmap) [] [] 0 mmap Hall Hasc) as (bound & regions & -> & [Hf _ Ha]).
  - split; cbn; (done || constructor).
  - intros p e He Hav Hp Hskip. split; [done|]. exists e. split_and!; [done | by apply Z.eqb_eq | lia | lia].
  - exists regions. split_and!; [done | by apply ascending_separated | done].
Qed.

(** Low memory, the memory above it and a device hole. *)
Definition example_mmap : list multiboot_mmap_entry :=
  [MkEntry 0 0x9fc00 1; MkEntry 0x9fc00 0x400 2; MkEntry 0xf0000 0x10000 2;
   MkEntry 0x100000 0x7ee0000 1; MkEntry 0x7fe0000 0x20000 2; MkEntry 0xfffc0000 0x40000 2].

Lemma parse_memory_map_regions_witness :
  exists regions, parse_entries pages_fuel [MkUsed LowMemory 0 0x100000] ([], []) example_mmap =
      Ret (map range_of example_mmap, regions) /\
    separated regions /\
    Forall (fresh_region (offered [MkUsed LowMemory 0 0x100000] example_mmap)) regions.
Proof.
  apply (parse_memory_map_regions [MkUsed LowMemory 0 0x100000] example_mmap); [|by vm_compute].
  repeat constructor; cbn; lia.
Defined.

Lemma add_page_unsized regions p :
  Forall (fun r => m_pages r = 0) regions ->
  exists regions', add_page regions p = Ret regions' /\ Forall (fun r => m_pages r = 0) regions'.
Proof.
  intros Hall. unfold add_page. destruct regions as [|r regions _] using rev_ind.
  { eexists; split; [done|]. by repeat constructor. }
  rewrite last_snoc. apply Forall_app in Hall as [Hall Hr]. rewrite Forall_singleton in Hr.
  destruct (negb _).
  - eexists; split; [done|]. repeat (apply Forall_app; split); by repeat constructor.
  - unfold PhysicalRegion_expand. rewrite Hr. cbn. eexists; split; [done|].
    replace (length (regions ++ [r]) - 1)%nat with (length regions) by (rewrite length_app; cbn; lia).
    rewrite take_app_length. apply Forall_app. split; [done|]. by repeat constructor.
Qed.

Lemma add_pages_loops fuel used regions page_base :
  Forall (fun r => m_pages r = 0) regions -> 0 <= page_base <= 0xfffff000 -> page_base mod PAGE_SIZE = 0 ->
  add_pages fuel used regions page_base 0xfffff000 = Stop NoFuel.
Proof.
  revert regions page_base. induction fuel as [|fuel IH]; intros regions page_base Hall Hp Hal; [done|].
  cbn [add_pages]. rewrite (proj2 (Z.leb_le _ _)) by lia.
  assert (exists regions', (if should_skip used page_base then Ret regions else add_page regions page_base)
    = Ret regions' /\ Forall (fun r => m_pages r = 0) regions') as (regions' & -> & Hall')
    by (destruct (should_skip used page_base); [by eexists | by apply add_page_unsized]).
  run. apply IH; [done | |]; unfold PAGE_SIZE, size_t in *; int_lia.
Qed.

(** An available entry that ends at the last page of the address space, [0xfffff000], is
    never finished: the 32-bit page address wraps around to zero behind the last page. *)
Theorem parse_entry_diverges fuel used :
  parse_entry fuel used ([], []) (MkEntry 0xffff0000 0xf000 MULTIBOOT_MEMORY_AVAILABLE) = Stop NoFuel.
Proof.
  unfold parse_entry. cbn [mmap_type Z.eqb Pos.eqb MULTIBOOT_MEMORY_AVAILABLE negb].
  change (align_entry _) with (0xffff0000, 0xf000). cbn -[add_pages].
  change (wrap size_t 4294901760) with 0xffff0000. change (wrap u64 4294963200) with 0xfffff000.
  rewrite add_pages_loops; [done | apply Forall_nil_2 | by vm_compute | by vm_compute].
Qed.

(** A hole of one page between two available entries becomes part of a region: the page
    at the end of the first entry is visited too, and the second entry goes on behind it. *)
Theorem parse_memory_map_hole :
  let mmap := [MkEntry 0x200000 0x8000 1; MkEntry 0x208000 0x1000 2; MkEntry 0x209000 0x7000 1] in
  exists ranges, parse_entries 100 [] ([], []) mmap = Ret (ranges, [PhysicalRegion_create 0x200000 0x210000]) /\
    ~ exists e, e ∈ mmap /\ mmap_type e = MULTIBOOT_MEMORY_AVAILABLE /\
        mmap_addr e <= 0x208000 < mmap_addr e + mmap_len e.
Proof.
  eexists. split; [vm_compute; reflexivity|]. intros (e & He & Ht & Hb).
  repeat (apply elem_of_cons in He as [-> | He]; [cbn in Ht, Hb; (lia || by vm_compute in Ht)|]).
  by apply not_elem_of_nil in He.
Qed.

(** Two available entries without anything between them give regions that touch. *)
Theorem parse_memory_map_touching :
  exists ranges, parse_entries 100 [] ([], []) [MkEntry 0x200000 0x8000 1; MkEntry 0x208000 0x8000 1] =
    Ret (ranges, [PhysicalRegion_create 0x200000 0x208000; PhysicalRegion_create 0x208000 0x210000]).
Proof. eexists. vm_compute. reflexivity. Qed.

(** ** Reserved memory *)

Definition pm_end (p : PhysicalMemoryRange) : Z := pm_start p + pm_length p.
Definition rr_end (q : ContiguousReservedMemoryRange) : Z := rr_start q + rr_length q.

(** The memory ranges are in the order of their addresses and below 4 GiB. *)
Fixpoint ranges_ascending (bound : Z) (ranges : list PhysicalMemoryRange) : Prop :=
  match ranges with
  | [] => True
  | p :: ranges => bound <= pm_start p /\ 0 <= pm_length p /\ pm_end p <= 2 ^ 32 /\
      ranges_ascending (pm_end p) ranges
  end.

Definition disjoint_from (q : ContiguousReservedMemoryRange) (p : PhysicalMemoryRange) : Prop :=
  rr_end q <= pm_start p \/ pm_end p <= rr_start q.

Definition covers (q : ContiguousReservedMemoryRange) (p : PhysicalMemoryRange) : Prop :=
  rr_start q <= pm_start p /\ pm_end p <= rr_end q.

(** The state of the loop after the ranges [pre], which end at [bound]. *)
Record reserved_inv (pre : list PhysicalMemoryRange) (bound start : Z)
    (reserved : list ContiguousReservedMemoryRange) : Prop := ReservedInv {
  inv_start : 0 <= start <= bound;
  inv_closed : forall q, q ∈ reserved -> 0 < rr_start q <= rr_end q /\ rr_end q <= bound;
  inv_disjoint : forall q p, q ∈ reserved -> p ∈ pre -> pm_type p <> Reserved -> disjoint_from q p;
  inv_open : start <> 0 -> forall p, p ∈ pre -> pm_type p <> Reserved -> pm_end p <= start;
  inv_end : forall p, p ∈ pre -> pm_end p <= bound;
  inv_covered : forall p, p ∈ pre -> pm_type p = Reserved -> pm_start p <> 0 ->
    (exists q, q ∈ reserved /\ covers q p) \/ (start <> 0 /\ start <= pm_start p)
}.

Lemma reserved_inv_close pre bound start reserved cur :
  reserved_inv pre bound start reserved -> start <> 0 -> bound <= cur <= 2 ^ 32 ->
  let reserved' := reserved ++ [MkReserved start (wrap size_t (cur - start))] in
  reserved_inv pre cur 0 reserved'.
Proof.
  intros [Hs Hc Hd Ho He Hcov] Hne Hcur. cbv zeta. unfold size_t. wrap_small u32.
  split; [lia | | | done | |].
  - intros q [Hq| ->%list_elem_of_singleton]%elem_of_app; [specialize (Hc q Hq); lia|].
    unfold rr_end. cbn. lia.
  - intros q p [Hq| ->%list_elem_of_singleton]%elem_of_app Hp Ht; [by apply Hd|].
    right. cbn. by apply Ho.
  - intros p Hp. specialize (He p Hp). lia.
  - intros p Hp Ht Hp0. left. destruct (Hcov p Hp Ht Hp0) as [(q & Hq & Hcq) | [_ Hle]].
    + exists q. split; [apply elem_of_app; by left | done].
    + exists (MkReserved start (cur - start)). split; [apply elem_of_app; right; apply list_elem_of_here|].
      specialize (He p Hp). split; unfold rr_end; cbn; lia.
Qed.

(** A range that is not reserved while none is open, or a reserved one while one is. *)
Lemma reserved_inv_snoc pre bound start reserved p :
  reserved_inv pre bound start reserved -> bound <= pm_start p -> 0 <= pm_length p ->
  (pm_type p = Reserved -> pm_start p <> 0 -> start <> 0) ->
  (pm_type p <> Reserved -> start = 0) ->
  reserved_inv (pre ++ [p]) (pm_end p) start reserved.
Proof.
  intros [Hs Hc Hd Ho He Hcov] Hb Hl Hres Hnon. assert (bound <= pm_end p) by (unfold pm_end; lia).
  split; [lia | | | | |].
  - intros q Hq. specialize (Hc q Hq). lia.
  - intros q p' Hq [Hp| ->%list_elem_of_singleton]%elem_of_app Ht; [by apply Hd|].
    left. specialize (Hc q Hq). lia.
  - intros Hne p' [Hp| ->%list_elem_of_singleton]%elem_of_app Ht; [by apply Ho|]. by specialize (Hnon Ht).
  - intros p' [Hp| ->%list_elem_of_singleton]%elem_of_app; [specialize (He p' Hp); lia | lia].
  - intros p' [Hp| ->%list_elem_of_singleton]%elem_of_app Ht Hp0; [by apply Hcov|].
    right. split; [by apply Hres | lia].
Qed.

(** A reserved range while none is open. *)
Lemma reserved_inv_open pre bound reserved p :
  reserved_inv pre bound 0 reserved -> bound <= pm_start p -> 0 <= bound ->
  reserved_inv pre (pm_start p) (pm_start p) reserved.
Proof.
  intros [Hs Hc Hd Ho He Hcov] Hb H0. split; [lia | | done | | |].
  - intros q Hq. specialize (Hc q Hq). lia.
  - intros _ p' Hp' _. specialize (He p' Hp'). lia.
  - intros p' Hp'. specialize (He p' Hp'). lia.
  - intros p' Hp' Ht Hp0. left. by destruct (Hcov p' Hp' Ht Hp0) as [?|[? _]].
Qed.

Lemma reserved_round_spec pre bound start reserved p :
  reserved_inv pre bound start reserved -> bound <= pm_start p -> 0 <= pm_length p -> pm_end p <= 2 ^ 32 ->
  let '(start', reserved') := reserved_round (start, reserved) p in
  reserved_inv (pre ++ [p]) (pm_end p) start' reserved'.
Proof.
  intros Hinv Hb Hl He. pose proof (inv_start _ _ _ _ Hinv) as Hs. unfold reserved_round.
  destruct (bool_decide_reflect (pm_type p = Reserved)) as [Ht|Ht]; cbn [negb].
  - destruct (Z.eqb_spec start 0) as [->|Hne]; cbn [negb].
    + apply (reserved_inv_snoc pre (pm_start p)); [by apply (reserved_inv_open pre bound); try lia | lia | done | done | done].
    + by apply (reserved_inv_snoc pre bound).
  - destruct (Z.eqb_spec start 0) as [->|Hne].
    + by apply (reserved_inv_snoc pre bound).
    + apply (reserved_inv_snoc pre (pm_start p)); [| lia | done | done | done].
      apply (reserved_inv_close pre bound); [done | done | unfold pm_end in He; lia].
Qed.

Lemma reserved_round_start start reserved p :
  pm_type p <> Reserved -> (reserved_round (start, reserved) p).1 = 0.
Proof.
  intros Ht. unfold reserved_round. rewrite bool_decide_eq_false_2 by done. cbn [negb].
  by destruct (Z.eqb_spec start 0).
Qed.

Lemma reserved_rounds_spec pre bound start reserved ranges :
  reserved_inv pre bound start reserved -> ranges_ascending bound ranges ->
  let '(start', reserved') := fold_left reserved_round ranges (start, reserved) in
  exists bound', reserved_inv (pre ++ ranges) bound' start' reserved' /\
    match last ranges with
    | Some p => bound' = pm_end p /\ pm_end p <= 2 ^ 32 /\ (pm_type p <> Reserved -> start' = 0)
    | None => bound' = bound /\ start' = start
    end.
Proof.
  revert pre bound start reserved. induction ranges as [|p ranges IH]; intros pre bound start reserved Hinv Hasc;
    cbn [fold_left].
  { exists bound. by rewrite app_nil_r. }
  destruct Hasc as (Hb & Hl & He & Hasc).
  pose proof (reserved_round_spec pre bound start reserved p Hinv Hb Hl He) as Hround.
  pose proof (reserved_round_start start reserved p) as Hstart.
  destruct (reserved_round (start, reserved) p) as [start' reserved'].
  specialize (IH (pre ++ [p]) (pm_end p) start' reserved' Hround Hasc).
  destruct (fold_left reserved_round ranges (start', reserved')) as [start'' reserved''].
  destruct IH as (bound' & Hinv' & Hlast). exists bound'. rewrite <- app_assoc in Hinv'. split; [done|].
  rewrite last_cons. destruct (last ranges); [done|]. by destruct Hlast as [-> ->].
Qed.

Lemma register_reserved_ranges_spec ranges :
  ranges_ascending 0 ranges -> ranges <> [] ->
  exists reserved, register_reserved_ranges ranges [] = Ret reserved /\
    (forall q, q ∈ reserved -> 0 < rr_start q <= rr_end q /\ rr_end q <= 2 ^ 32) /\
    (forall q p, q ∈ reserved -> p ∈ ranges -> pm_type p <> Reserved -> disjoint_from q p) /\
    (forall p, p ∈ ranges -> pm_type p = Reserved -> pm_start p <> 0 -> exists q, q ∈ reserved /\ covers q p).
Proof.
  intros Hasc Hne. unfold register_reserved_ranges.
  assert (reserved_inv [] 0 0 []) as Hinit.
  { split; try done; intros; by exfalso; eapply not_elem_of_nil. }
  pose proof (reserved_rounds_spec [] 0 0 [] ranges Hinit Hasc) as Hrounds.
  destruct (fold_left reserved_round ranges (0, [])) as [start reserved].
  destruct Hrounds as (bound & Hinv & Hlast). cbn [app] in Hinv.
  destruct (last ranges) as [p|] eqn:Hp; [|by apply last_None in Hp]. destruct Hlast as (-> & Hend & Hstart).
  destruct (Z.eqb_spec start 0) as [->|H0].
  - exists reserved. split; [by destruct (negb _)|].
    split; [intros q Hq; apply (inv_closed _ _ _ _ Hinv) in Hq; lia|]. split; [apply Hinv|].
    intros p' Hp' Ht Hs. by destruct (inv_covered _ _ _ _ Hinv p' Hp' Ht Hs) as [?|[? _]].
  - destruct (bool_decide_reflect (pm_type p = Reserved)) as [Ht|Ht]; [|by destruct H0; apply Hstart].
    cbn [negb]. eexists; split; [done|].
    pose proof (reserved_inv_close _ _ _ _ (pm_end p) Hinv H0 ltac:(lia)) as Hclosed. cbv zeta in Hclosed.
    split; [intros q Hq; apply (inv_closed _ _ _ _ Hclosed) in Hq; lia|].
    split; [apply Hclosed|]. intros p' Hp' Ht' Hs.
    by destruct (inv_covered _ _ _ _ Hclosed p' Hp' Ht' Hs) as [?|[? _]].
Qed.

(** For a memory map in the order of its addresses the reserved ranges are disjoint from
    all memory that is not reserved, and cover all that is (but for a range at address 0). *)
Theorem register_reserved_ranges_correct ranges :
  ranges_ascending 0 ranges -> ranges <> [] ->
  exists reserved, register_reserved_ranges ranges [] = Ret reserved /\
    (forall q p, q ∈ reserved -> p ∈ ranges -> pm_type p <> Reserved -> disjoint_from q p) /\
    (forall p, p ∈ ranges -> pm_type p = Reserved -> pm_start p <> 0 -> exists q, q ∈ reserved /\ covers q p).
Proof.
  intros Hasc Hne. destruct (register_reserved_ranges_spec ranges Hasc Hne) as (reserved & Heq & _ & H). by exists reserved.
Qed.

Definition example_ranges : list PhysicalMemoryRange :=
  [MkPhysical Usable 0 0x9fc00; MkPhysical Reserved 0x9fc00 0x400; MkPhysical Reserved 0xf0000 0x10000;
   MkPhysical Usable 0x100000 0x7ee0000; MkPhysical Reserved 0x7fe0000 0x20000].

Lemma register_reserved_ranges_correct_witness :
  register_reserved_ranges example_ranges [] = Ret [MkReserved 0x9fc00 0x60400; MkReserved 0x7fe0000 0x20000] /\
  exists reserved, register_reserved_ranges example_ranges [] = Ret reserved /\
    (forall q p, q ∈ reserved -> p ∈ example_ranges -> pm_type p <> Reserved -> disjoint_from q p) /\
    (forall p, p ∈ example_ranges -> pm_type p = Reserved -> pm_start p <> 0 ->
      exists q, q ∈ reserved /\ covers q p).
Proof.
  split; [by vm_compute|].
  apply (register_reserved_ranges_correct example_ranges); [by vm_compute | done].
Defined.

(** *** What a process may map *)

Lemma allowed_by_range reserved start_address size :
  allowed_by reserved start_address size = true ->
  exists q, q ∈ reserved /\ rr_start q <= start_address < PhysicalAddress_offset (rr_start q) (rr_length q) /\
    size <= rr_length q.
Proof.
  induction reserved as [|q reserved IH]; cbn [allowed_by]; [done|]. intros H.
  assert (allowed_by reserved start_address size = true -> exists q0, q0 ∈ q :: reserved /\
    rr_start q0 <= start_address < PhysicalAddress_offset (rr_start q0) (rr_length q0) /\ size <= rr_length q0) as Hrest.
  { intros (q0 & Hq0 & Hb)%IH. exists q0. split; [by apply list_elem_of_further | done]. }
  destruct (Z.leb_spec (rr_start q) start_address); cbn [negb] in H; [|by apply Hrest].
  destruct (Z.ltb_spec start_address (PhysicalAddress_offset (rr_start q) (rr_length q)));
    cbn [negb] in H; [|by apply Hrest].
  destruct (Z.ltb_spec (rr_length q) size); [done|]. exists q. split; [apply list_elem_of_here | lia].
Qed.

(** If a mapping is allowed then its first address lies in a reserved range, hence in no
    memory that is not reserved, and it is not longer than that range. *)
Theorem is_allowed_to_mmap_reserved ranges reserved start_address size :
  ranges_ascending 0 ranges -> register_reserved_ranges ranges [] = Ret reserved ->
  is_allowed_to_mmap_to_userspace reserved start_address size = Ret true ->
  (exists q, q ∈ reserved /\ rr_start q <= start_address < rr_end q /\ size <= rr_length q) /\
  forall p, p ∈ ranges -> pm_type p <> Reserved -> ~ (pm_start p <= start_address < pm_end p).
Proof.
  intros Hasc Hreg Hallowed. unfold is_allowed_to_mmap_to_userspace in Hallowed.
  destruct (VERIFY _); run in Hallowed; [|done]. injection Hallowed as Hallowed.
  apply allowed_by_range in Hallowed as (q & Hq & Hin & Hsize).
  destruct (register_reserved_ranges_spec ranges Hasc) as (reserved' & Heq & Hfit & Hdis & _).
  { intros ->. by vm_compute in Hreg. }
  assert (reserved' = reserved) as -> by congruence. specialize (Hfit q Hq).
  assert (rr_start q <= start_address < rr_end q) as Hb.
  { unfold PhysicalAddress_offset, FlatPtr, rr_end in *. int_lia. }
  split; [by exists q|]. intros p Hp Ht Hb'. specialize (Hdis q p Hq Hp Ht). unfold disjoint_from in Hdis. lia.
Qed.

Lemma is_allowed_to_mmap_reserved_witness :
  is_allowed_to_mmap_to_userspace [MkReserved 0x9fc00 0x60400; MkReserved 0x7fe0000 0x20000] 0xf0000 0x10000 = Ret true /\
  (exists q, q ∈ [MkReserved 0x9fc00 0x60400; MkReserved 0x7fe0000 0x20000] /\
    rr_start q <= 0xf0000 < rr_end q /\ 0x10000 <= rr_length q) /\
  forall p, p ∈ example_ranges -> pm_type p <> Reserved -> ~ (pm_start p <= 0xf0000 < pm_end p).
Proof.
  split; [by vm_compute|].
  apply (is_allowed_to_mmap_reserved example_ranges [MkReserved 0x9fc00 0x60400; MkReserved 0x7fe0000 0x20000]
    0xf0000 0x10000); by vm_compute.
Defined.

(** The size is compared with the whole reserved range, not with what is left of it behind
    the first address: a mapping that starts in the last page of the reserved range is
    allowed although the rest of it is usable memory. *)
Theorem is_allowed_to_mmap_overruns :
  exists reserved, register_reserved_ranges example_ranges [] = Ret reserved /\
    is_allowed_to_mmap_to_userspace reserved 0xff000 0x60000 = Ret true /\
    exists p, p ∈ example_ranges /\ pm_type p = Usable /\
      pm_start p = 0x100000 /\ pm_start p < 0xff000 + 0x60000 <= pm_end p.
Proof.
  eexists. split; [vm_compute; reflexivity|]. split; [by vm_compute|].
  exists (MkPhysical Usable 0x100000 0x7ee0000). split_and!; [|by vm_compute..].
  do 3 apply list_elem_of_further. apply list_elem_of_here.
Qed.
