(* ===== verification/HashTable.v ===== *)
(** * AK/HashTable.h and AK/HashFunctions.h: hash tables

    A table is an array of buckets with a bucket behind the last one that marks the end.
    A value is looked for in the buckets its hash leads to; after each one [double_hash]
    gives the next hash.  The loops have fuel, for nothing in the source bounds them: the
    sequence of hashes may never meet the bucket that ends the search, as
    [HashTable_contains_diverges] shows.  The theorems therefore ask that the probe
    sequence of a value visits all buckets.

    [TraitsForT] is the pair of functions [hash] and [equals]; an empty list of buckets is
    the null pointer. *)

From S2P Require Import Prelude Containers.

#[local] Open Scope Z_scope.

(** ** AK/HashFunctions.h *)

Definition int_hash (key : Z) : Z :=
  let key := wrap u32 (key + wrap u32 (Z.lnot (wrap u32 (Z.shiftl key 15)))) in
  let key := Z.lxor key (Z.shiftr key 10) in
  let key := wrap u32 (key + wrap u32 (Z.shiftl key 3)) in
  let key := Z.lxor key (Z.shiftr key 6) in
  let key := wrap u32 (key + wrap u32 (Z.lnot (wrap u32 (Z.shiftl key 11)))) in
  Z.lxor key (Z.shiftr key 16).

Definition double_hash (key : Z) : Z :=
  let key := wrap u32 (wrap u32 (Z.lnot key) + Z.shiftr key 23) in
  let key := Z.lxor key (wrap u32 (Z.shiftl key 12)) in
  let key := Z.lxor key (Z.shiftr key 7) in
  let key := Z.lxor key (wrap u32 (Z.shiftl key 2)) in
  Z.lxor key (Z.shiftr key 20).

Definition pair_int_hash (key1 key2 : Z) : Z :=
  int_hash (Z.lxor (wrap u32 (int_hash key1 * 209)) (int_hash (wrap u32 (key2 * 413)))).

Definition u64_hash (key : Z) : Z :=
  let first := wrap u32 (Z.land key 0xffffffff) in
  let last := wrap u32 (Z.shiftr key 32) in
  pair_int_hash first last.

(** On a 32-bit target. *)
Definition ptr_hash (ptr : Z) : Z := int_hash ptr.

(** ** The table *)

Inductive HashSetResult : Type := InsertedNewEntry | ReplacedExistingEntry.

Record Bucket (T : Type) : Type := MkBucket {
  used : bool;
  deleted : bool;
  end_ : bool;
  slot : option T
}.
Arguments MkBucket {T}.
Arguments used {T}.
Arguments deleted {T}.
Arguments end_ {T}.
Arguments slot {T}.

Record HashTable (T : Type) : Type := MkTable {
  m_buckets : list (Bucket T);
  m_size : Z;
  m_capacity : Z;
  m_deleted_count : Z
}.
Arguments MkTable {T}.
Arguments m_buckets {T}.
Arguments m_size {T}.
Arguments m_capacity {T}.
Arguments m_deleted_count {T}.

Definition load_factor_in_percent : Z := 60.

Section table.
Context {T : Type} (hash : T -> Z) (equals : T -> T -> bool).

(** [HashTable()]. *)
Definition HashTable_default : HashTable T := MkTable [] 0 0 0.

Definition HashTable_is_empty (t : HashTable T) : bool := m_size t =? 0.
Definition used_bucket_count (t : HashTable T) : Z := wrap size_t (m_size t + m_deleted_count t).
Definition should_grow (t : HashTable T) : bool :=
  wrap size_t (m_capacity t * load_factor_in_percent) <=? wrap size_t (wrap size_t (used_bucket_count t + 1) * 100).

(** [*bucket.slot()]: reading a slot that holds no value is undefined. *)
Definition bucket_slot (b : Bucket T) : outcome T :=
  match slot b with Some v => Ret v | None => Stop Undefined end.

(** [m_buckets[hash % m_capacity]]: its index and the bucket. *)
Definition bucket_for (t : HashTable T) (h : Z) : outcome (Z * Bucket T) :=
  if m_capacity t =? 0 then Stop Undefined
  else b ← load (m_buckets t) (h mod m_capacity t); Ret (h mod m_capacity t, b).

Fixpoint lookup_loop (fuel : nat) (t : HashTable T) (h : Z) (finder : T -> bool) : outcome (option Z) :=
  match fuel with
  | O => Stop NoFuel
  | S fuel =>
      '(i, bucket) ← bucket_for t h;
      found ← (if used bucket then v ← bucket_slot bucket; Ret (finder v) else Ret false);
      if (found : bool) then Ret (Some i)
      else if negb (used bucket) && negb (deleted bucket) then Ret None
      else lookup_loop fuel t (double_hash h) finder
  end.

(** The index of the bucket, or nothing for the null pointer. *)
Definition lookup_with_hash (fuel : nat) (t : HashTable T) (h : Z) (finder : T -> bool)
    : outcome (option Z) :=
  if HashTable_is_empty t then Ret None else lookup_loop fuel t h finder.

Definition HashTable_find (fuel : nat) (t : HashTable T) (value : T) : outcome (option Z) :=
  lookup_with_hash fuel t (hash value) (equals value).

Definition HashTable_contains (fuel : nat) (t : HashTable T) (value : T) : outcome bool :=
  it ← HashTable_find fuel t value;
  Ret (match it with Some _ => true | None => false end).

(** The loop of [lookup_for_writing]. *)
Fixpoint write_loop (fuel : nat) (t : HashTable T) (h : Z) (value : T) (first_empty_bucket : option Z)
    : outcome Z :=
  match fuel with
  | O => Stop NoFuel
  | S fuel =>
      '(i, bucket) ← bucket_for t h;
      found ← (if used bucket then v ← bucket_slot bucket; Ret (equals v value) else Ret false);
      if (found : bool) then Ret i
      else if negb (used bucket) then
        let first_empty := match first_empty_bucket with Some j => j | None => i end in
        if negb (deleted bucket) then Ret first_empty
        else write_loop fuel t (double_hash h) value (Some first_empty)
      else write_loop fuel t (double_hash h) value first_empty_bucket
  end.

Definition set_bucket (t : HashTable T) (i : Z) (b : Bucket T) : outcome (HashTable T) :=
  buckets ← store (m_buckets t) i b;
  Ret (MkTable buckets (m_size t) (m_capacity t) (m_deleted_count t)).

(** [lookup_for_writing]: the index of the bucket and the table, which may have grown. *)
Definition lookup_for_writing (rehash : HashTable T -> Z -> outcome (HashTable T)) (fuel : nat)
    (t : HashTable T) (value : T) : outcome (Z * HashTable T) :=
  t ← (if should_grow t then rehash t (wrap size_t (m_capacity t * 2)) else Ret t);
  i ← write_loop fuel t (hash value) value None;
  Ret (i, t).

Definition insert_during_rehash (rehash : HashTable T -> Z -> outcome (HashTable T)) (fuel : nat)
    (t : HashTable T) (value : T) : outcome (HashTable T) :=
  '(i, t) ← lookup_for_writing rehash fuel t value;
  bucket ← load (m_buckets t) i;
  set_bucket t i (MkBucket true (deleted bucket) (end_ bucket) (Some value)).

(** The loop of [rehash] over the old buckets. *)
Fixpoint reinsert (rehash : HashTable T -> Z -> outcome (HashTable T)) (fuel : nat)
    (old_buckets : list (Bucket T)) (t : HashTable T) : outcome (HashTable T) :=
  match old_buckets with
  | [] => Ret t
  | old_bucket :: old_buckets =>
      if used old_bucket then
        value ← bucket_slot old_bucket;
        t ← insert_during_rehash rehash fuel t value;
        reinsert rehash fuel old_buckets t
      else reinsert rehash fuel old_buckets t
  end.

Definition empty_bucket : Bucket T := MkBucket false false false None.
Definition end_bucket : Bucket T := MkBucket false false true None.

(** [depth] bounds how often a rehash makes the table grow again, [fuel] the probes. *)
Fixpoint rehash (depth fuel : nat) (t : HashTable T) (new_capacity : Z) : outcome (HashTable T) :=
  match depth with
  | O => Stop NoFuel
  | S depth =>
      let new_capacity := Z.max new_capacity 4 in
      let t' := MkTable (replicate (Z.to_nat new_capacity) empty_bucket ++ [end_bucket])
                  (m_size t) new_capacity 0 in
      reinsert (rehash depth fuel) fuel (take (Z.to_nat (m_capacity t)) (m_buckets t)) t'
  end.

Definition rehash_depth : nat := 3.

(** [HashTable(capacity)]. *)
Definition HashTable_with_capacity (fuel : nat) (capacity : Z) : outcome (HashTable T) :=
  rehash rehash_depth fuel HashTable_default capacity.

Definition HashTable_ensure_capacity (fuel : nat) (t : HashTable T) (capacity : Z) : outcome (HashTable T) :=
  VERIFY (m_size t <=? capacity) ;;
  rehash rehash_depth fuel t (wrap size_t (capacity * 2)).

Definition HashTable_set (fuel : nat) (t : HashTable T) (value : T) : outcome (HashSetResult * HashTable T) :=
  '(i, t) ← lookup_for_writing (rehash rehash_depth fuel) fuel t value;
  bucket ← load (m_buckets t) i;
  if used bucket then
    t ← set_bucket t i (MkBucket true (deleted bucket) (end_ bucket) (Some value));
    Ret (ReplacedExistingEntry, t)
  else
    let deleted_count :=
      if deleted bucket then wrap size_t (m_deleted_count t - 1) else m_deleted_count t in
    buckets ← store (m_buckets t) i (MkBucket true false (end_ bucket) (Some value));
    Ret (InsertedNewEntry, MkTable buckets (wrap size_t (m_size t + 1)) (m_capacity t) deleted_count).

(** [remove(Iterator)]: the iterator is the index of a bucket. *)
Definition HashTable_remove_at (t : HashTable T) (iterator : option Z) : outcome (HashTable T) :=
  match iterator with
  | None => Stop VerifyFailed
  | Some i =>
      bucket ← load (m_buckets t) i;
      VERIFY (used bucket) ;;
      VERIFY (negb (end_ bucket)) ;;
      VERIFY (negb (deleted bucket)) ;;
      buckets ← store (m_buckets t) i (MkBucket false true (end_ bucket) None);
      Ret (MkTable buckets (wrap size_t (m_size t - 1)) (m_capacity t) (wrap size_t (m_deleted_count t + 1)))
  end.

Definition HashTable_remove (fuel : nat) (t : HashTable T) (value : T) : outcome (bool * HashTable T) :=
  it ← HashTable_find fuel t value;
  match it with
  | Some i => t ← HashTable_remove_at t (Some i); Ret (true, t)
  | None => Ret (false, t)
  end.

Definition HashTable_clear (t : HashTable T) : HashTable T := HashTable_default.

(** *** Iteration *)

Fixpoint begin_loop (t : HashTable T) (n : nat) (i : Z) : outcome (option Z) :=
  match n with
  | O => Ret None
  | S n =>
      bucket ← load (m_buckets t) i;
      if used bucket then Ret (Some i) else begin_loop t n (i + 1)
  end.

Definition HashTable_begin (t : HashTable T) : outcome (option Z) := begin_loop t (Z.to_nat (m_capacity t)) 0.

(** The loop of [skip_to_next]; [n] buckets are left. *)
Fixpoint skip_loop (t : HashTable T) (n : nat) (i : Z) : outcome (option Z) :=
  match n with
  | O => Stop NoFuel
  | S n =>
      let i := i + 1 in
      bucket ← load (m_buckets t) i;
      if used bucket then Ret (Some i)
      else if negb (end_ bucket) then skip_loop t n i
      else Ret None
  end.

Definition HashIterator_skip_to_next (t : HashTable T) (iterator : option Z) : outcome (option Z) :=
  match iterator with
  | None => Ret None
  | Some i => skip_loop t (length (m_buckets t)) i
  end.

Definition HashIterator_deref (t : HashTable T) (iterator : option Z) : outcome T :=
  match iterator with
  | None => Stop Undefined
  | Some i => bucket ← load (m_buckets t) i; bucket_slot bucket
  end.

(** A range-based for loop over the table: the values in the order it visits them. *)
Fixpoint table_iterate (n : nat) (t : HashTable T) (iterator : option Z) : outcome (list T) :=
  match iterator with
  | None => Ret []
  | Some _ =>
      match n with
      | O => Stop NoFuel
      | S n =>
          value ← HashIterator_deref t iterator;
          next ← HashIterator_skip_to_next t iterator;
          values ← table_iterate n t next;
          Ret (value :: values)
      end
  end.

Definition HashTable_values (t : HashTable T) : outcome (list T) :=
  it ← HashTable_begin t; table_iterate (length (m_buckets t)) t it.

(** The copy constructor. *)
Fixpoint set_all (fuel : nat) (t : HashTable T) (values : list T) : outcome (HashTable T) :=
  match values with
  | [] => Ret t
  | value :: values => '(_, t) ← HashTable_set fuel t value; set_all fuel t values
  end.

Definition HashTable_copy (fuel : nat) (other : HashTable T) : outcome (HashTable T) :=
  t ← HashTable_with_capacity fuel (m_capacity other);
  values ← HashTable_values other;
  set_all fuel t values.

(** [swap(a, b)] and the move constructor: the moved-from table is empty. *)
Definition HashTable_swap (a b : HashTable T) : HashTable T * HashTable T := (b, a).
Definition HashTable_move (other : HashTable T) : HashTable T * HashTable T := (other, HashTable_default).

End table.

(** [HashTable<int>]. *)
Definition Traits_int_hash (i : Z) : Z := int_hash (wrap u32 i).

(** ** A search that does not end *)

Lemma double_hash_fixed : double_hash 1711463637 = 1711463637.
Proof. by vm_compute. Qed.

(** The table of the integer 0. *)
Definition zero_table : HashTable Z :=
  match HashTable_set Traits_int_hash Z.eqb 10 HashTable_default 0 with
  | Ret (_, t) => t
  | Stop _ => HashTable_default
  end.

(** The hash of the integer 1671754967 is a fixed point of [double_hash].  In the table
    that holds only the integer 0, which lies in the one bucket this hash leads to,
    [contains] of 1671754967 never returns. *)
Theorem HashTable_contains_diverges fuel :
  HashTable_set Traits_int_hash Z.eqb 10 HashTable_default 0 = Ret (InsertedNewEntry, zero_table) /\
  HashTable_contains Traits_int_hash Z.eqb fuel zero_table 1671754967 = Stop NoFuel.
Proof.
  split; [by vm_compute|]. unfold HashTable_contains, HashTable_find, lookup_with_hash.
  change (HashTable_is_empty zero_table) with false. cbn iota.
  change (Traits_int_hash 1671754967) with 1711463637.
  assert (lookup_loop fuel zero_table 1711463637 (Z.eqb 1671754967) = Stop NoFuel) as ->; [|done].
  induction fuel as [|fuel IH]; [done|]. cbn [lookup_loop].
  change (bucket_for zero_table 1711463637) with (Ret (1, MkBucket true false false (Some 0))).
  run. cbn. by rewrite double_hash_fixed.
Qed.

(** ** The buckets *)

(** The least number with a property. *)
Lemma least_nat (P : nat -> Prop) `{forall n, Decision (P n)} n :
  P n -> exists m, (m <= n)%nat /\ P m /\ forall k, (k < m)%nat -> ~ P k.
Proof.
  induction n as [n IH] using lt_wf_ind. intros Hn.
  destruct (decide (Exists P (seq 0 n))) as [(k & Hk & HP)%Exists_exists | Hno].
  - apply elem_of_seq in Hk. destruct (IH k) as (m & Hm & HPm & Hleast); [lia | done|].
    exists m. split_and!; [lia | done | done].
  - exists n. split_and!; [lia | done|]. intros k Hk HP. apply Hno, Exists_exists. exists k.
    split; [|done]. apply elem_of_seq. lia.
Qed.

Section buckets.
Context {T : Type}.
Implicit Types (b : Bucket T) (bs : list (Bucket T)) (v w : T).

(** The value of a bucket in use. *)
Definition value_of b : option T := if used b then slot b else None.

(** A bucket at which a search for another value goes on. *)
Definition blocked b : bool := used b || deleted b.

Record bucket_ok b : Prop := BucketOk {
  ok_end : end_ b = false;
  ok_used : used b = true -> deleted b = false /\ is_Some (slot b)
}.

Definition probe (h : Z) (k : nat) : Z := Nat.iter k double_hash h.

(** The bucket that a hash leads to. *)
Definition index_of bs (h : Z) : nat := Z.to_nat (h mod Z.of_nat (length bs)).

(** The values in the order of the buckets, and how many buckets are marked deleted. *)
Definition contents bs : list T := omap value_of bs.
Definition deleted_buckets bs : Z := Z.of_nat (length (filter (fun b => deleted b = true) bs)).

(** The table with these buckets; during a rehash [size] counts values yet to come. *)
Definition table_of bs (size : Z) : HashTable T :=
  MkTable (bs ++ [end_bucket]) size (Z.of_nat (length bs)) (deleted_buckets bs).

Lemma probe_double h k : probe (double_hash h) k = probe h (S k).
Proof. unfold probe. by rewrite Nat.iter_succ_r. Qed.

Lemma index_of_lt bs h : (0 < length bs)%nat -> (index_of bs h < length bs)%nat.
Proof. intros Hl. unfold index_of. pose proof (Z.mod_pos_bound h (Z.of_nat (length bs))). lia. Qed.

Lemma bucket_for_spec bs size h :
  (0 < length bs)%nat ->
  exists b, bs !! index_of bs h = Some b /\
    bucket_for (table_of bs size) h = Ret (Z.of_nat (index_of bs h), b).
Proof.
  intros Hl. pose proof (index_of_lt bs h Hl) as Hi.
  destruct (lookup_lt_is_Some_2 bs (index_of bs h) Hi) as (b & Hb). exists b. split; [done|].
  unfold bucket_for, table_of, index_of in *. cbn [m_capacity m_buckets].
  destruct (Z.eqb_spec (Z.of_nat (length bs)) 0); [lia|].
  pose proof (Z.mod_pos_bound h (Z.of_nat (length bs)) ltac:(lia)) as Hm.
  unfold load. rewrite (proj2 (Z.leb_le 0 _)) by lia. rewrite lookup_app_l, Hb by done. run.
  by rewrite Z2Nat.id by lia.
Qed.

Lemma contents_elem bs v : v ∈ contents bs <-> exists i b, bs !! i = Some b /\ value_of b = Some v.
Proof.
  unfold contents. rewrite list_elem_of_omap. split.
  - intros (b & (i & Hi)%list_elem_of_lookup & Hv). by exists i, b.
  - intros (i & b & Hi & Hv). exists b. split; [by eapply list_elem_of_lookup_2 | done].
Qed.

(** *** Changing one bucket *)

Lemma contents_insert bs i b b' :
  bs !! i = Some b ->
  exists l, contents bs ≡ₚ option_list (value_of b) ++ l /\
    contents (<[i := b']> bs) ≡ₚ option_list (value_of b') ++ l.
Proof.
  intros Hi. exists (contents (take i bs ++ drop (S i) bs)). unfold contents.
  rewrite <- (take_drop_middle bs i b Hi) at 1.
  rewrite insert_take_drop by (by eapply lookup_lt_Some). rewrite !omap_app. cbn [omap list_omap].
  split.
  - destruct (value_of b); cbn [option_list app]; [by rewrite <- Permutation_middle | done].
  - destruct (value_of b'); cbn [option_list app]; [by rewrite <- Permutation_middle | done].
Qed.

Lemma deleted_app bs bs' : deleted_buckets (bs ++ bs') = deleted_buckets bs + deleted_buckets bs'.
Proof. unfold deleted_buckets. rewrite filter_app, length_app. lia. Qed.

Lemma deleted_cons b bs : deleted_buckets (b :: bs) = Z.b2z (deleted b) + deleted_buckets bs.
Proof.
  unfold deleted_buckets. rewrite filter_cons.
  destruct (deleted b); [rewrite decide_True by done | rewrite decide_False by done]; cbn [length Z.b2z]; lia.
Qed.

Lemma deleted_insert bs i b b' :
  bs !! i = Some b ->
  deleted_buckets (<[i := b']> bs) = deleted_buckets bs - Z.b2z (deleted b) + Z.b2z (deleted b').
Proof.
  intros Hi. pose proof (take_drop_middle bs i b Hi) as Hbs.
  assert (deleted_buckets bs = deleted_buckets (take i bs ++ b :: drop (S i) bs)) as -> by by rewrite Hbs.
  rewrite insert_take_drop by (by eapply lookup_lt_Some).
  rewrite !deleted_app, !deleted_cons. lia.
Qed.

Lemma store_bucket bs i b size :
  (i < length bs)%nat ->
  store (m_buckets (table_of bs size)) (Z.of_nat i) b = Ret (<[i := b]> bs ++ [end_bucket]).
Proof.
  intros Hi. unfold store, table_of. cbn [m_buckets]. rewrite length_app, Nat2Z.id.
  rewrite (proj2 (Z.leb_le 0 _)), (proj2 (Z.ltb_lt _ _)) by (cbn; lia).
  by rewrite insert_app_l.
Qed.

Lemma load_bucket bs i b size :
  bs !! i = Some b -> load (m_buckets (table_of bs size)) (Z.of_nat i) = Ret b.
Proof.
  intros Hi. unfold load, table_of. cbn [m_buckets]. rewrite (proj2 (Z.leb_le 0 _)), Nat2Z.id by lia.
  by rewrite lookup_app_l, Hi by (by eapply lookup_lt_Some).
Qed.

(** As long as there are fewer used and deleted buckets than buckets there is an empty one. *)
Lemma empty_exists bs :
  Forall bucket_ok bs -> Z.of_nat (length (contents bs)) + deleted_buckets bs < Z.of_nat (length bs) ->
  exists i b, bs !! i = Some b /\ blocked b = false.
Proof.
  induction 1 as [|b bs Hb _ IH]; intros Hlt; [by vm_compute in Hlt|].
  destruct (blocked b) eqn:E; [|by exists 0%nat, b].
  destruct IH as (i & b' & Hi & Hb'); [|by exists (S i), b'].
  rewrite deleted_cons in Hlt. unfold contents in *. cbn [omap list_omap length] in Hlt.
  unfold blocked in E. unfold value_of at 1 in Hlt. destruct (used b) eqn:Eu.
  - destruct (ok_used _ Hb Eu) as (Hd & v & Hs). rewrite Hs, Hd in Hlt. cbn [length Z.b2z] in Hlt. lia.
  - cbn in E. rewrite E in Hlt. cbn [Z.b2z] in Hlt. lia.
Qed.

End buckets.

(** ** Searching *)

Section search.
Context {T : Type} (hash : T -> Z) (equals : T -> T -> bool).
Implicit Types (b : Bucket T) (bs : list (Bucket T)) (v w : T).

(** What a search for the values [finder] accepts does at a bucket: it ends with this result
    or it goes on. *)
Definition search_at (finder : T -> bool) b : option bool :=
  match value_of b with
  | Some v => if finder v then Some true else None
  | None => if deleted b then None else Some false
  end.

Definition search_bucket (finder : T -> bool) bs (h : Z) : option bool :=
  b ← bs !! index_of bs h; search_at finder b.

(** The search ends after [n] probes with the given result. *)
Definition search_ends (finder : T -> bool) bs (h : Z) (n : nat) (r : bool) : Prop :=
  (forall k, (k < n)%nat -> search_bucket finder bs (probe h k) = None) /\
  search_bucket finder bs (probe h n) = Some r.

Lemma search_ends_double finder bs h n r :
  search_ends finder bs h (S n) r ->
  search_bucket finder bs h = None /\ search_ends finder bs (double_hash h) n r.
Proof.
  intros [Hgo Hend]. split; [apply (Hgo 0%nat); lia|]. split.
  - intros k Hk. rewrite probe_double. apply Hgo. lia.
  - by rewrite probe_double.
Qed.

(** The comparison at a bucket in the loops. *)
Lemma compare_slot finder b :
  bucket_ok b ->
  (if used b then v ← bucket_slot b; Ret (finder v) else Ret false) =
    Ret (match value_of b with Some v => finder v | None => false end).
Proof.
  intros Hb. unfold value_of, bucket_slot. destruct (used b) eqn:E; [|done].
  by destruct (ok_used _ Hb E) as (_ & v & ->).
Qed.

Lemma value_of_used b : bucket_ok b -> used b = match value_of b with Some _ => true | None => false end.
Proof.
  intros Hb. unfold value_of. destruct (used b) eqn:E; [|done]. by destruct (ok_used _ Hb E) as (_ & v & ->).
Qed.

(** One round of the loops. *)
Lemma lookup_loop_step finder bs size fuel h b :
  (0 < length bs)%nat -> Forall bucket_ok bs -> bs !! index_of bs h = Some b ->
  lookup_loop (S fuel) (table_of bs size) h finder =
    match search_at finder b with
    | Some true => Ret (Some (Z.of_nat (index_of bs h)))
    | Some false => Ret None
    | None => lookup_loop fuel (table_of bs size) (double_hash h) finder
    end.
Proof.
  intros Hl Hok Hb. cbn [lookup_loop]. destruct (bucket_for_spec bs size h Hl) as (b' & Hb' & ->).
  simplify_eq. run. pose proof (Forall_lookup_1 _ _ _ _ Hok Hb) as Hbok.
  rewrite compare_slot, value_of_used by done. run. unfold search_at.
  by destruct (value_of b) as [v|]; [destruct (finder v) | destruct (deleted b)].
Qed.

Lemma write_loop_step bs size fuel h v first_empty b :
  (0 < length bs)%nat -> Forall bucket_ok bs -> bs !! index_of bs h = Some b ->
  write_loop equals (S fuel) (table_of bs size) h v first_empty =
    match search_at (fun w => equals w v) b with
    | Some true => Ret (Z.of_nat (index_of bs h))
    | Some false => Ret (default (Z.of_nat (index_of bs h)) first_empty)
    | None => write_loop equals fuel (table_of bs size) (double_hash h) v
                (if used b then first_empty else Some (default (Z.of_nat (index_of bs h)) first_empty))
    end.
Proof.
  intros Hl Hok Hb. cbn [write_loop]. destruct (bucket_for_spec bs size h Hl) as (b' & Hb' & ->).
  simplify_eq. run. pose proof (Forall_lookup_1 _ _ _ _ Hok Hb) as Hbok.
  rewrite (compare_slot (fun w => equals w v)), value_of_used by done. run. unfold search_at.
  by destruct (value_of b) as [w|]; [destruct (equals w v) | destruct (deleted b), first_empty].
Qed.

(** The bucket of the first probe and what the search does there. *)
Lemma search_ends_first finder bs h n r :
  (0 < length bs)%nat -> search_ends finder bs h n r ->
  exists b, bs !! index_of bs h = Some b /\
    match n with
    | O => search_at finder b = Some r
    | S n => search_at finder b = None /\ search_ends finder bs (double_hash h) n r
    end.
Proof.
  intros Hl Hends. destruct (lookup_lt_is_Some_2 bs (index_of bs h)) as (b & Hb); [by apply index_of_lt|].
  exists b. split; [done|]. destruct n as [|n].
  - destruct Hends as [_ Hend]. unfold search_bucket in Hend. change (probe h 0) with h in Hend.
    by rewrite Hb in Hend.
  - apply search_ends_double in Hends as [Hgo Hends]. split; [|done]. unfold search_bucket in Hgo.
    by rewrite Hb in Hgo.
Qed.

Lemma lookup_loop_spec finder bs size fuel h n r :
  (0 < length bs)%nat -> Forall bucket_ok bs -> search_ends finder bs h n r -> (n < fuel)%nat ->
  lookup_loop fuel (table_of bs size) h finder =
    Ret (if r then Some (Z.of_nat (index_of bs (probe h n))) else None).
Proof.
  intros Hl Hok. revert h fuel. induction n as [|n IH]; intros h [|fuel] Hends Hf; [lia | | lia |];
    destruct (search_ends_first _ _ _ _ _ Hl Hends) as (b & Hb & Hat);
    rewrite (lookup_loop_step _ _ _ _ _ b) by done.
  - rewrite Hat. by destruct r.
  - destruct Hat as [-> Hends']. rewrite <- probe_double. apply IH; (done || lia).
Qed.

(** The bucket a new value goes to: the first unused one on the way. *)
Definition unused_at bs (h : Z) (k : nat) : Prop :=
  exists b, bs !! index_of bs (probe h k) = Some b /\ used b = false.

#[global] Instance unused_at_dec bs h k : Decision (unused_at bs h k).
Proof.
  refine (cast_if (decide (used <$> bs !! index_of bs (probe h k) = Some false))); unfold unused_at.
  - abstract (destruct (bs !! index_of bs (probe h k)) as [b|]; [exists b; split; [done | by injection e] | done]).
  - abstract (intros (b & Hb & Hu); rewrite Hb in n; apply n; cbn; by rewrite Hu).
Defined.

Lemma unused_at_double bs h k : unused_at bs (double_hash h) k <-> unused_at bs h (S k).
Proof. unfold unused_at. by rewrite probe_double. Qed.

Lemma write_loop_found bs size fuel h n v first_empty :
  (0 < length bs)%nat -> Forall bucket_ok bs ->
  search_ends (fun w => equals w v) bs h n true -> (n < fuel)%nat ->
  write_loop equals fuel (table_of bs size) h v first_empty = Ret (Z.of_nat (index_of bs (probe h n))).
Proof.
  intros Hl Hok. revert h fuel first_empty. induction n as [|n IH]; intros h [|fuel] first_empty Hends Hf;
    [lia | | lia |]; destruct (search_ends_first _ _ _ _ _ Hl Hends) as (b & Hb & Hat);
    rewrite (write_loop_step _ _ _ _ _ _ b) by done.
  - by rewrite Hat.
  - destruct Hat as [-> Hends']. rewrite <- probe_double. apply IH; (done || lia).
Qed.

Lemma write_loop_keep bs size fuel h n v j :
  (0 < length bs)%nat -> Forall bucket_ok bs ->
  search_ends (fun w => equals w v) bs h n false -> (n < fuel)%nat ->
  write_loop equals fuel (table_of bs size) h v (Some j) = Ret j.
Proof.
  intros Hl Hok. revert h fuel. induction n as [|n IH]; intros h [|fuel] Hends Hf;
    [lia | | lia |]; destruct (search_ends_first _ _ _ _ _ Hl Hends) as (b & Hb & Hat);
    rewrite (write_loop_step _ _ _ _ _ _ b) by done.
  - by rewrite Hat.
  - destruct Hat as [-> Hends']. destruct (used b); apply IH; (done || lia).
Qed.

Lemma write_loop_free bs size fuel h n v m :
  (0 < length bs)%nat -> Forall bucket_ok bs ->
  search_ends (fun w => equals w v) bs h n false -> (n < fuel)%nat ->
  (m <= n)%nat -> unused_at bs h m -> (forall k, (k < m)%nat -> ~ unused_at bs h k) ->
  write_loop equals fuel (table_of bs size) h v None = Ret (Z.of_nat (index_of bs (probe h m))).
Proof.
  intros Hl Hok. revert h fuel m. induction n as [|n IH]; intros h [|fuel] m Hends Hf Hm Hun Hleast;
    [lia | | lia |]; destruct (search_ends_first _ _ _ _ _ Hl Hends) as (b & Hb & Hat);
    rewrite (write_loop_step _ _ _ _ _ _ b) by done.
  - rewrite Hat. by replace m with 0%nat by lia.
  - destruct Hat as [-> Hends']. destruct (used b) eqn:Eu.
    + destruct m as [|m]; [destruct Hun as (b' & Hb' & Hu); change (probe h 0) with h in Hb'; congruence|].
      rewrite <- probe_double. apply IH; try done; try lia; [by apply unused_at_double|].
      intros k Hk Huk%unused_at_double. apply (Hleast (S k)); [lia | done].
    + assert (m = 0)%nat as ->.
      { destruct m as [|m]; [done|]. destruct (Hleast 0%nat); [lia|]. by exists b. }
      apply (write_loop_keep bs size fuel (double_hash h) n); (done || lia).
Qed.

End search.

(** ** Sets of values *)

(** What a table relies on: [TraitsForT]. *)
Class HashTraits {T} (hash : T -> Z) (equals : T -> T -> bool) : Prop := {
  traits_refl v : equals v v = true;
  traits_sym v w : equals v w = true -> equals w v = true;
  traits_trans u v w : equals u v = true -> equals v w = true -> equals u w = true;
  traits_hash v w : equals v w = true -> hash v = hash w
}.

(** The buckets the first [n] probes of a hash lead to. *)
Fixpoint probe_list (n cap : nat) (h : Z) : list nat :=
  match n with
  | O => []
  | S n => Z.to_nat (h mod Z.of_nat cap) :: probe_list n cap (double_hash h)
  end.

(** The first [n] probes visit all buckets. *)
Definition probes_cover (n cap : nat) (h : Z) : Prop := Forall (fun i => i ∈ probe_list n cap h) (seq 0 cap).

Lemma probe_list_elem n cap h i :
  i ∈ probe_list n cap h -> exists k, (k < n)%nat /\ Z.to_nat (probe h k mod Z.of_nat cap) = i.
Proof.
  revert h. induction n as [|n IH]; intros h; cbn [probe_list]; [by intros ?%not_elem_of_nil|].
  intros [->|Hi]%elem_of_cons; [exists 0%nat; split; [lia | done]|].
  destruct (IH _ Hi) as (k & Hk & Heq). exists (S k). rewrite <- probe_double. split; [lia | done].
Qed.

Lemma covers_probe n cap h i :
  probes_cover n cap h -> (i < cap)%nat -> exists k, (k < n)%nat /\ Z.to_nat (probe h k mod Z.of_nat cap) = i.
Proof.
  intros Hc Hi. apply probe_list_elem. unfold probes_cover in Hc. rewrite Forall_forall in Hc. apply Hc, elem_of_seq. lia.
Qed.

#[local] Set Default Proof Using "Type*".

Section sets.
Context {T : Type} (hash : T -> Z) (equals : T -> T -> bool) `{HashTraits T hash equals}.
Implicit Types (b : Bucket T) (bs : list (Bucket T)) (v w : T).

Fixpoint unequal (vs : list T) : Prop :=
  match vs with
  | [] => True
  | v :: vs => Forall (fun w => equals v w = false) vs /\ unequal vs
  end.

Lemma equals_false_sym v w : equals v w = false -> equals w v = false.
Proof. intros Hf. apply not_true_is_false. intros Ht%traits_sym. congruence. Qed.

#[global] Instance unequal_permutation : Proper ((≡ₚ) ==> iff) unequal.
Proof.
  assert (forall l l', l ≡ₚ l' -> unequal l -> unequal l') as Hone.
  { induction 1 as [|v l l' Hl IH|v w l|l l' l'' _ IH _ IH']; cbn; [done | | | tauto].
    - intros [Hv Hu]. split; [by rewrite <- Hl | by apply IH].
    - rewrite !Forall_cons. intros [[Hwv Hw] [Hv Hu]]. split_and!; [by apply equals_false_sym | done..]. }
  intros l l' Hl. split; by apply Hone.
Qed.

Lemma unequal_replace v w l : equals v w = true -> unequal (w :: l) -> unequal (v :: l).
Proof.
  intros He [Hw Hl]. split; [|done]. eapply Forall_impl; [exact Hw|]. intros u Hu.
  apply not_true_is_false. intros Ht. apply traits_sym in He. pose proof (traits_trans _ _ _ He Ht). congruence.
Qed.

(** The way of a hash to a bucket is free of empty buckets. *)
Definition leads_to bs (h : Z) (i : nat) : Prop :=
  exists k, index_of bs (probe h k) = i /\
    forall j, (j < k)%nat -> exists b, bs !! index_of bs (probe h j) = Some b /\ blocked b = true.

Record body_ok bs : Prop := BodyOk {
  body_length : (4 <= length bs)%nat;
  body_buckets : Forall bucket_ok bs;
  body_placed : forall i b v, bs !! i = Some b -> value_of b = Some v -> leads_to bs (hash v) i;
  body_unequal : unequal (contents bs)
}.

(** There is room for one more value. *)
Definition has_room bs : Prop :=
  Z.of_nat (length (contents bs)) + deleted_buckets bs < Z.of_nat (length bs).

Lemma search_terminates finder bs h N :
  Forall bucket_ok bs -> has_room bs -> probes_cover N (length bs) h ->
  exists n r, (n < N)%nat /\ search_ends finder bs h n r.
Proof.
  intros Hok Hroom Hcov. destruct (empty_exists bs Hok Hroom) as (i & b & Hi & Hb).
  destruct (covers_probe _ _ _ i Hcov) as (k & Hk & Hki); [by eapply lookup_lt_Some|].
  destruct (least_nat (fun k => search_bucket finder bs (probe h k) <> None) k) as (n & Hn & Hend & Hgo).
  - unfold search_bucket, index_of. rewrite Hki, Hi. cbn. unfold search_at, value_of.
    unfold blocked in Hb. apply orb_false_iff in Hb as [-> ->]. done.
  - destruct (search_bucket finder bs (probe h n)) as [r|] eqn:E; [|done]. exists n, r. split; [lia|].
    split; [|done]. intros j Hj. specialize (Hgo j Hj).
    by destruct (search_bucket finder bs (probe h j)); [destruct Hgo|].
Qed.

Lemma search_ends_found finder bs h n :
  search_ends finder bs h n true ->
  exists b v, bs !! index_of bs (probe h n) = Some b /\ value_of b = Some v /\ finder v = true.
Proof.
  intros [_ Hend]. unfold search_bucket in Hend. destruct (bs !! index_of bs (probe h n)) as [b|]; [|done].
  cbn in Hend. unfold search_at in Hend. destruct (value_of b) as [v|] eqn:Ev; [|by destruct (deleted b)].
  destruct (finder v) eqn:Ef; [|done]. by exists b, v.
Qed.

Lemma search_ends_empty finder bs h n :
  Forall bucket_ok bs -> search_ends finder bs h n false ->
  exists b, bs !! index_of bs (probe h n) = Some b /\ blocked b = false.
Proof.
  intros Hok [_ Hend]. unfold search_bucket in Hend.
  destruct (bs !! index_of bs (probe h n)) as [b|] eqn:E; [|done]. exists b. split; [done|].
  cbn in Hend. unfold search_at in Hend. pose proof (Forall_lookup_1 _ _ _ _ Hok E) as Hb.
  unfold blocked. rewrite value_of_used by done.
  destruct (value_of b) as [v|]; [by destruct (finder v) | by destruct (deleted b)].
Qed.

(** A search that ends at an empty bucket has not missed a value. *)
Lemma search_ends_absent finder bs h n :
  body_ok bs -> (forall w, finder w = true -> hash w = h) ->
  search_ends finder bs h n false -> Forall (fun w => finder w = false) (contents bs).
Proof.
  intros Hbody Hf Hends. rewrite Forall_forall. intros w (i & b & Hi & Hw)%contents_elem.
  apply not_true_is_false. intros Hfw.
  destruct (body_placed _ Hbody i b w Hi Hw) as (k & Hk & Hway). rewrite (Hf w Hfw) in Hk, Hway.
  destruct (search_ends_empty _ _ _ _ (body_buckets _ Hbody) Hends) as (b' & Hb' & Hempty).
  destruct Hends as [Hgo _]. destruct (Nat.lt_trichotomy k n) as [Hlt|[->|Hgt]].
  - specialize (Hgo k Hlt). unfold search_bucket in Hgo. rewrite Hk, Hi in Hgo. cbn in Hgo.
    unfold search_at in Hgo. by rewrite Hw, Hfw in Hgo.
  - assert (b' = b) as -> by congruence. unfold blocked in Hempty. apply orb_false_iff in Hempty as [Hu _].
    unfold value_of in Hw. by rewrite Hu in Hw.
  - destruct (Hway n Hgt) as (b'' & Hb'' & Hbl). congruence.
Qed.

(** *** Writing a bucket *)

Lemma leads_to_insert bs h i b b' j :
  bs !! i = Some b -> (blocked b = true -> blocked b' = true) ->
  leads_to bs h j -> leads_to (<[i := b']> bs) h j.
Proof.
  intros Hi Hbl (k & Hk & Hway). exists k. unfold index_of in *. rewrite length_insert.
  split; [done|]. intros m Hm. destruct (Hway m Hm) as (c & Hc & Hcb).
  destruct (decide (Z.to_nat (probe h m mod Z.of_nat (length bs)) = i)) as [Heq|Hne].
  - rewrite Heq in *. exists b'. split; [apply list_lookup_insert_eq; by eapply lookup_lt_Some|].
    apply Hbl. congruence.
  - exists c. by rewrite list_lookup_insert_ne.
Qed.

Lemma body_ok_insert bs i b b' :
  body_ok bs -> bs !! i = Some b -> bucket_ok b' -> (blocked b = true -> blocked b' = true) ->
  (forall v, value_of b' = Some v -> leads_to bs (hash v) i) ->
  unequal (contents (<[i := b']> bs)) -> body_ok (<[i := b']> bs).
Proof.
  intros [Hlen Hok Hpl Hun] Hi Hb' Hbl Hway Hun'. split; [by rewrite length_insert | | | done].
  - by apply Forall_insert.
  - intros j c v Hj Hv. eapply leads_to_insert; [done | done|].
    apply list_lookup_insert_Some in Hj as [(-> & -> & _) | [_ Hj]]; [by apply Hway | by eapply Hpl].
Qed.

(** *** The operations on the buckets *)

(** The bucket for a value: the one of an equal value, or an unused one on the way when there
    is no equal value. *)
Definition write_target bs v (i : nat) : Prop :=
  exists b, bs !! i = Some b /\ leads_to bs (hash v) i /\
    match value_of b with
    | Some w => equals v w = true
    | None => used b = false /\ Forall (fun w => equals v w = false) (contents bs)
    end.

Lemma write_loop_spec bs size fuel v N :
  body_ok bs -> has_room bs -> probes_cover N (length bs) (hash v) -> (N <= fuel)%nat ->
  exists i, write_loop equals fuel (table_of bs size) (hash v) v None = Ret (Z.of_nat i) /\ write_target bs v i.
Proof.
  intros Hbody Hroom Hcov Hfuel. pose proof Hbody as [Hlen Hok Hpl Hun].
  destruct (search_terminates (fun w => equals w v) bs (hash v) N) as (n & r & Hn & Hends); [done..|].
  destruct r.
  - destruct (search_ends_found _ _ _ _ Hends) as (b & w & Hb & Hw & He).
    eexists. split; [apply write_loop_found; (done || lia)|]. exists b.
    pose proof (traits_sym _ _ He) as He'. split_and!; [done | | by rewrite Hw].
    pose proof (Hpl _ _ _ Hb Hw) as Hway. by rewrite <- (traits_hash _ _ He') in Hway.
  - destruct (search_ends_empty _ _ _ _ Hok Hends) as (b0 & Hb0 & Hempty).
    assert (unused_at bs (hash v) n) as Hun_n.
    { exists b0. split; [done|]. by apply orb_false_iff in Hempty as [? _]. }
    destruct (least_nat (unused_at bs (hash v)) n Hun_n) as (m & Hm & (b & Hb & Hu) & Hleast).
    eexists. split; [apply (write_loop_free _ bs size fuel (hash v) n v m); (done || lia || by exists b)|].
    exists b. split_and!; [done | |].
    + exists m. split; [done|]. intros j Hj. specialize (Hleast j Hj).
      destruct (lookup_lt_is_Some_2 bs (index_of bs (probe (hash v) j))) as (c & Hc);
        [apply index_of_lt; lia|].
      exists c. split; [done|]. unfold blocked. destruct (used c) eqn:E; [done|]. destruct Hleast. by exists c.
    + unfold value_of. rewrite Hu. split; [done|].
      eapply Forall_impl; [apply (search_ends_absent (fun w => equals w v) bs (hash v) n); [done | | done]|].
      * intros w. apply (traits_hash w v).
      * intros w. apply (equals_false_sym w v).
Qed.

(** Writing a value to its bucket. *)
Lemma write_target_ok bs v i b :
  body_ok bs -> write_target bs v i -> bs !! i = Some b ->
  let bs' := <[i := MkBucket true false false (Some v)]> bs in
  body_ok bs' /\
  match value_of b with
  | Some w => exists l, contents bs ≡ₚ w :: l /\ contents bs' ≡ₚ v :: l
  | None => contents bs' ≡ₚ v :: contents bs
  end.
Proof.
  intros Hbody (b' & Hi & Hway & Hval) Hb. assert (b' = b) as -> by congruence. cbv zeta.
  pose proof Hbody as [_ Hok _ Hun].
  destruct (contents_insert bs i b (MkBucket true false false (Some v)) Hb) as (l & Hl & Hl').
  cbn [value_of used slot option_list app] in Hl'.
  assert (unequal (v :: l)) as Hun'.
  { rewrite Hl in Hun. destruct (value_of b) as [w|]; cbn [option_list app] in Hl, Hun.
    - by apply (unequal_replace v w).
    - destruct Hval as [_ Habs]. rewrite Hl in Habs. by split. }
  split; [|destruct (value_of b) as [w|]; cbn [option_list app] in Hl; [by exists l | by rewrite Hl', Hl]].
  apply (body_ok_insert bs i b); [done | done | | | | by rewrite Hl'].
  - split; cbn; [done | by split].
  - done.
  - intros w Hw. cbn in Hw. by injection Hw as <-.
Qed.

(** What a table of a machine can hold. *)
Definition capacity_ok bs : Prop := Z.of_nat (length bs) <= 2 ^ 26.

Lemma should_grow_spec bs size :
  capacity_ok bs -> 0 <= size -> size + deleted_buckets bs <= 42000000 ->
  should_grow (table_of bs size) =
    (60 * Z.of_nat (length bs) <=? 100 * (size + deleted_buckets bs + 1)).
Proof.
  intros Hcap Hs Hd. unfold capacity_ok in Hcap.
  unfold should_grow, used_bucket_count, table_of, load_factor_in_percent, size_t.
  cbn [m_size m_capacity m_deleted_count].
  assert (0 <= deleted_buckets bs) by (unfold deleted_buckets; lia).
  rewrite !(wrap_id u32 eq_refl) by int_lia. bool_lia.
Qed.

Lemma bucket_end bs i b : Forall bucket_ok bs -> bs !! i = Some b -> end_ b = false.
Proof. intros Hok Hb. apply (Forall_lookup_1 _ _ _ _ Hok Hb). Qed.

(** *** Moving the values to a new table *)

(** A table that is being filled: no bucket was deleted. *)
Definition filling bs (size : Z) : Prop :=
  body_ok bs /\ Forall (fun b => deleted b = false) bs /\ capacity_ok bs /\
  0 <= size /\ 100 * (size + 1) < 60 * Z.of_nat (length bs).

Lemma no_deleted bs : Forall (fun b => deleted b = false) bs -> deleted_buckets bs = 0.
Proof. induction 1 as [|b bs Hb _ IH]; [done|]. by rewrite deleted_cons, Hb, IH. Qed.

Lemma insert_during_rehash_spec rh fuel bs size v N :
  filling bs size -> Z.of_nat (length (contents bs)) < size ->
  Forall (fun w => equals v w = false) (contents bs) ->
  probes_cover N (length bs) (hash v) -> (N <= fuel)%nat ->
  exists bs', insert_during_rehash hash equals rh fuel (table_of bs size) v = Ret (table_of bs' size) /\
    filling bs' size /\ length bs' = length bs /\ contents bs' ≡ₚ v :: contents bs.
Proof.
  intros (Hbody & Hdel & Hcap & Hs & Hload) Hcount Habs Hcov Hfuel.
  pose proof (no_deleted _ Hdel) as Hd0. pose proof Hbody as [Hlen Hok _ _].
  unfold insert_during_rehash, lookup_for_writing.
  rewrite should_grow_spec by (done || unfold capacity_ok in Hcap; lia).
  rewrite (proj2 (Z.leb_gt _ _)) by lia. run.
  destruct (write_loop_spec bs size fuel v N) as (i & -> & Ht); [done | unfold has_room; lia | done | done|]. run.
  pose proof Ht as (b & Hb & _ & Hval). rewrite (load_bucket bs i b) by done. run.
  assert (value_of b = None) as Hnone.
  { destruct (value_of b) as [w|] eqn:Ew; [|done]. rewrite Forall_forall in Habs.
    rewrite Habs in Hval; [done|]. apply contents_elem. by exists i, b. }
  rewrite (bucket_end bs i b Hok Hb), (Forall_lookup_1 _ _ _ _ Hdel Hb).
  unfold set_bucket. rewrite store_bucket by (by eapply lookup_lt_Some). run.
  destruct (write_target_ok bs v i b Hbody Ht Hb) as [Hbody' Hcont]. rewrite Hnone in Hcont.
  set (bs' := <[i := MkBucket true false false (Some v)]> bs) in *. exists bs'.
  assert (Forall (fun c => deleted c = false) bs') as Hdel' by (by apply Forall_insert).
  assert (length bs' = length bs) as Hlen' by apply length_insert.
  split_and!; [| | done | done].
  - unfold table_of. cbn [m_size m_capacity m_deleted_count]. by rewrite Hlen', Hd0, (no_deleted _ Hdel').
  - unfold filling, capacity_ok. rewrite Hlen'. by split_and!.
Qed.

Lemma reinsert_spec rh fuel old bs size N :
  Forall bucket_ok old -> filling bs size ->
  Z.of_nat (length (contents old) + length (contents bs)) <= size ->
  unequal (contents old ++ contents bs) ->
  Forall (fun v => probes_cover N (length bs) (hash v)) (contents old) -> (N <= fuel)%nat ->
  exists bs', reinsert hash equals rh fuel old (table_of bs size) = Ret (table_of bs' size) /\
    filling bs' size /\ length bs' = length bs /\ contents bs' ≡ₚ contents old ++ contents bs.
Proof.
  intros Hold. revert bs. induction Hold as [|b old Hb Hold IH]; intros bs Hfill Hcount Hun Hcov Hfuel;
    cbn [reinsert]; [by exists bs|].
  rewrite value_of_used by done. unfold contents in Hcount, Hun, Hcov |- *. cbn [omap list_omap] in *.
  destruct (value_of b) as [v|] eqn:Ev; fold (contents old) in *; fold (contents bs) in *.
  - assert (bucket_slot b = Ret v) as ->.
    { unfold value_of in Ev. unfold bucket_slot. destruct (used b); [by rewrite Ev | done]. }
    run. cbn [app length] in *. destruct Hun as [Hall Hun].
    pose proof Hall as [_ Habs]%Forall_app.
    apply Forall_cons in Hcov as [Hcv Hcov].
    destruct (insert_during_rehash_spec rh fuel bs size v N) as (bs1 & -> & Hfill1 & Hlen1 & Hc1);
      [done | lia | done | done | done|]. run.
    destruct (IH bs1) as (bs2 & -> & Hfill2 & Hlen2 & Hc2); [done | | | by rewrite Hlen1 | done|].
    + rewrite (Permutation_length Hc1). cbn [length]. lia.
    + by rewrite Hc1, <- Permutation_middle.
    + exists bs2. split_and!; [done | done | lia |]. by rewrite Hc2, Hc1, <- Permutation_middle.
  - apply IH; done.
Qed.

(** A new table without values. *)
Lemma fresh_filling size cap :
  4 <= cap <= 2 ^ 26 -> 0 <= size -> 100 * (size + 1) < 60 * cap ->
  filling (replicate (Z.to_nat cap) empty_bucket) size /\
  contents (T := T) (replicate (Z.to_nat cap) empty_bucket) = [].
Proof.
  intros Hcap Hs Hload. assert (contents (T := T) (replicate (Z.to_nat cap) empty_bucket) = []) as Hnil.
  { unfold contents. by induction (Z.to_nat cap). }
  split; [|done]. unfold filling, capacity_ok. rewrite length_replicate. split_and!; [| | lia..].
  - split; [rewrite length_replicate; lia | | | by rewrite Hnil].
    + by apply Forall_replicate.
    + intros i b v Hi Hv. apply lookup_replicate in Hi as [-> _]. done.
  - by apply Forall_replicate.
Qed.

Lemma rehash_spec depth fuel t old new_capacity N :
  take (Z.to_nat (m_capacity t)) (m_buckets t) = old -> Forall bucket_ok old -> unequal (contents old) ->
  m_size t = Z.of_nat (length (contents old)) ->
  let cap := Z.max new_capacity 4 in
  cap <= 2 ^ 26 -> 100 * (m_size t + 1) < 60 * cap ->
  Forall (fun v => probes_cover N (Z.to_nat cap) (hash v)) (contents old) -> (N <= fuel)%nat ->
  exists bs, rehash hash equals (S depth) fuel t new_capacity = Ret (table_of bs (m_size t)) /\
    filling bs (m_size t) /\ Z.of_nat (length bs) = cap /\ contents bs ≡ₚ contents old.
Proof.
  intros Hold Hok Hun Hsize cap Hcap Hload Hcov Hfuel. cbn [rehash]. rewrite Hold. fold cap.
  destruct (fresh_filling (m_size t) cap) as [Hfill Hnil]; [lia.. |].
  destruct (reinsert_spec (rehash hash equals depth fuel) fuel old
    (replicate (Z.to_nat cap) empty_bucket) (m_size t) N) as (bs & Heq & Hfill' & Hlen & Hc);
    [done | done | rewrite Hnil; cbn; lia | by rewrite Hnil, app_nil_r | by rewrite length_replicate | done|].
  exists bs. rewrite length_replicate in Hlen. rewrite Hnil, app_nil_r in Hc.
  split_and!; [| done | lia | done].
  rewrite <- Heq. f_equal. unfold table_of. rewrite length_replicate, no_deleted by (by apply Forall_replicate).
  by rewrite Z2Nat.id by lia.
Qed.

(** ** The table as a set *)

Definition load_ok bs : Prop :=
  100 * (Z.of_nat (length (contents bs)) + deleted_buckets bs) < 60 * Z.of_nat (length bs).

(** [vs] are the values of the table. *)
Definition table_ok (t : HashTable T) (vs : list T) : Prop :=
  (t = HashTable_default /\ vs = []) \/
  exists bs, t = table_of bs (Z.of_nat (length vs)) /\ body_ok bs /\ capacity_ok bs /\ load_ok bs /\
    vs ≡ₚ contents bs.

Lemma load_room bs : load_ok bs -> has_room bs.
Proof. unfold load_ok, has_room, deleted_buckets. lia. Qed.

(** The capacity of the table that a value is written to: grown if necessary. *)
Definition grown_capacity (t : HashTable T) : Z :=
  if should_grow t then Z.max (2 * m_capacity t) 4 else m_capacity t.

Lemma grow_spec fuel t vs v N :
  table_ok t vs -> grown_capacity t <= 2 ^ 26 -> (N <= fuel)%nat ->
  (forall w, w ∈ v :: vs -> probes_cover N (Z.to_nat (grown_capacity t)) (hash w)) ->
  exists bs, (if should_grow t then rehash hash equals rehash_depth fuel t (wrap size_t (m_capacity t * 2)) else Ret t) =
      Ret (table_of bs (Z.of_nat (length vs))) /\
    body_ok bs /\ capacity_ok bs /\ vs ≡ₚ contents bs /\ Z.of_nat (length bs) = grown_capacity t /\
    100 * (Z.of_nat (length vs) + deleted_buckets bs + 1) < 60 * Z.of_nat (length bs) /\
    deleted_buckets bs <= Z.max 0 (m_deleted_count t).
Proof.
  unfold grown_capacity.
  intros [[-> ->] | (bs & -> & Hbody & Hcap & Hload & Hvs)] Hgrow Hfuel Hcov.
  - change (should_grow HashTable_default) with true. cbn iota.
    change (wrap size_t (m_capacity (T := T) HashTable_default * 2)) with 0.
    destruct (rehash_spec 2 fuel HashTable_default [] 0 N)
      as (bs & Heq & (Hbody & Hdel & Hcap & _ & Hl) & Hlen & Hc);
      [done | constructor | done | done | cbn; lia | cbn; lia | constructor | done |].
    exists bs. rewrite no_deleted by done. by split_and!.
  - pose proof (Permutation_length Hvs) as Hvl. pose proof Hbody as [Hlen Hok _ Hun].
    assert (0 <= deleted_buckets bs) by (unfold deleted_buckets; lia).
    rewrite should_grow_spec in * by (unfold capacity_ok, load_ok in *; lia).
    unfold capacity_ok, load_ok in *. cbn [m_capacity table_of] in *.
    destruct (Z.leb_spec (60 * Z.of_nat (length bs)) (100 * (Z.of_nat (length vs) + deleted_buckets bs + 1))).
    + unfold size_t. wrap_small u32.
      destruct (rehash_spec 2 fuel (table_of bs (Z.of_nat (length vs))) bs (Z.of_nat (length bs) * 2) N)
        as (bs' & Heq & (Hbody' & Hdel & Hcap' & _ & Hl) & Hlen' & Hc); try done; cbn [m_size m_capacity m_buckets table_of].
      * by rewrite Nat2Z.id, take_app_length.
      * by rewrite Hvl.
      * lia.
      * lia.
      * rewrite Forall_forall. intros w Hw.
        replace (Z.of_nat (length bs) * 2) with (2 * Z.of_nat (length bs)) by lia. apply Hcov.
        apply list_elem_of_further. by rewrite Hvs.
      * exists bs'. rewrite no_deleted by done. cbn [m_size table_of] in Hl.
        split_and!; [exact Heq | done | done | by rewrite Hc | lia | lia | cbn; lia].
    + exists bs. split_and!; try done; cbn [m_deleted_count table_of]; lia.
Qed.

(** What [set] does to the values. *)
Definition set_values vs v (r : HashSetResult) (vs' : list T) : Prop :=
  match r with
  | InsertedNewEntry => Forall (fun w => equals v w = false) vs /\ vs' = v :: vs
  | ReplacedExistingEntry => exists w l, equals v w = true /\ vs ≡ₚ w :: l /\ vs' = v :: l
  end.

Lemma set_table_spec fuel t vs v N :
  table_ok t vs -> grown_capacity t <= 2 ^ 26 -> (N <= fuel)%nat ->
  (forall w, w ∈ v :: vs -> probes_cover N (Z.to_nat (grown_capacity t)) (hash w)) ->
  exists r t' vs', HashTable_set hash equals fuel t v = Ret (r, t') /\ table_ok t' vs' /\ set_values vs v r vs' /\
    m_capacity t' = grown_capacity t /\ m_deleted_count t' <= Z.max 0 (m_deleted_count t).
Proof.
  intros Hok Hgrow Hfuel Hcov. unfold HashTable_set, lookup_for_writing.
  destruct (grow_spec fuel t vs v N Hok Hgrow Hfuel Hcov) as (bs & -> & Hbody & Hcap & Hvs & Hbl & Hload & Hdc). run.
  assert (probes_cover N (length bs) (hash v)) as Hcv.
  { rewrite <- (Nat2Z.id (length bs)), Hbl. apply Hcov, list_elem_of_here. }
  assert (0 <= deleted_buckets bs) as Hd0 by (unfold deleted_buckets; lia).
  pose proof (Permutation_length Hvs) as Hvl. pose proof (body_buckets _ Hbody) as Hbok.
  destruct (write_loop_spec bs (Z.of_nat (length vs)) fuel v N) as (i & -> & Ht); [done | unfold has_room; lia | done | done|].
  run. pose proof Ht as (b & Hb & _ & Hval). rewrite (load_bucket bs i b) by done. run.
  rewrite (bucket_end bs i b Hbok Hb).
  pose proof (Forall_lookup_1 _ _ _ _ Hbok Hb) as Hb_ok. rewrite value_of_used by done.
  destruct (write_target_ok bs v i b Hbody Ht Hb) as [Hbody' Hcont].
  pose proof (deleted_insert bs i b (MkBucket true false false (Some v)) Hb) as Hdel. cbn [deleted Z.b2z] in Hdel.
  set (bs' := <[i := MkBucket true false false (Some v)]> bs) in *.
  assert (length bs' = length bs) as Hlen' by apply length_insert.
  destruct (value_of b) as [w|] eqn:Ew.
  - destruct Hcont as (l & Hl & Hl'). exists ReplacedExistingEntry.
    assert (deleted b = false) as Hdb.
    { unfold value_of in Ew. destruct (used b) eqn:Eu; [|done]. by apply (ok_used _ Hb_ok Eu). }
    rewrite Hdb in *. cbn [Z.b2z] in Hdel. unfold set_bucket. rewrite store_bucket by (by eapply lookup_lt_Some). run.
    do 2 eexists; split; [done|].
    split; [|split; [exists w, l; split_and!; [done | by rewrite Hvs | done] | split; [exact Hbl | exact Hdc]]].
    right. exists bs'. unfold load_ok, capacity_ok in *. rewrite Hlen', (Permutation_length Hl').
    rewrite Hl in Hvl. cbn [length] in *. split_and!; [| done | done | lia | done].
    unfold table_of. cbn [m_size m_capacity m_deleted_count]. f_equal; lia.
  - destruct Hval as [_ Habs]. exists InsertedNewEntry. rewrite store_bucket by (by eapply lookup_lt_Some). run.
    do 2 eexists; split; [done|].
    split; [|split; [split; [by rewrite Hvs | done]|split; [exact Hbl|]]].
    2: { cbn [m_deleted_count table_of]. destruct (deleted b); cbn [Z.b2z] in Hdel; [|exact Hdc].
         assert (0 <= deleted_buckets bs') by (unfold deleted_buckets; lia).
         unfold size_t. rewrite (wrap_id u32 eq_refl) by int_lia. lia. }
    right. exists bs'. unfold load_ok, capacity_ok in *. rewrite Hlen', (Permutation_length Hcont). cbn [length].
    assert (0 <= deleted_buckets bs') as Hle by (unfold deleted_buckets; lia).
    split_and!; [| done | done | destruct (deleted b); cbn [Z.b2z] in *; lia | by rewrite Hcont, Hvs].
    unfold table_of, size_t. cbn [m_size m_capacity m_deleted_count].
    destruct (deleted b); cbn [Z.b2z] in *; rewrite !(wrap_id u32 eq_refl) by int_lia; f_equal; lia.
Qed.

Lemma lookup_table_spec fuel t vs h finder N :
  table_ok t vs -> (N <= fuel)%nat -> probes_cover N (Z.to_nat (m_capacity t)) h ->
  (forall w, finder w = true -> hash w = h) ->
  (lookup_with_hash fuel t h finder = Ret None /\ Forall (fun w => finder w = false) vs) \/
  exists bs i b w, t = table_of bs (Z.of_nat (length vs)) /\ body_ok bs /\ capacity_ok bs /\ load_ok bs /\
    vs ≡ₚ contents bs /\ lookup_with_hash fuel t h finder = Ret (Some (Z.of_nat i)) /\
    bs !! i = Some b /\ value_of b = Some w /\ finder w = true.
Proof.
  unfold lookup_with_hash, HashTable_is_empty.
  intros [[-> ->] | (bs & -> & Hbody & Hcap & Hload & Hvs)] Hfuel Hcov Hf; [by left; split|].
  cbn [m_size m_capacity table_of] in *. rewrite Nat2Z.id in Hcov. pose proof Hbody as [Hlen Hok _ _].
  destruct (Z.eqb_spec (Z.of_nat (length vs)) 0) as [H0|H0].
  { left. destruct vs; [by split | cbn in H0; lia]. }
  destruct (search_terminates finder bs h N) as (n & r & Hn & Hends); [done | by apply load_room | done|].
  rewrite (lookup_loop_spec finder bs (Z.of_nat (length vs)) fuel h n r) by (done || lia).
  destruct r.
  - right. destruct (search_ends_found _ _ _ _ Hends) as (b & w & Hb & Hw & He).
    by exists bs, (index_of bs (probe h n)), b, w.
  - left. split; [done|]. rewrite Hvs. by apply (search_ends_absent finder bs h n).
Qed.

Lemma find_table_spec fuel t vs v N :
  table_ok t vs -> (N <= fuel)%nat -> probes_cover N (Z.to_nat (m_capacity t)) (hash v) ->
  (HashTable_find hash equals fuel t v = Ret None /\ Forall (fun w => equals v w = false) vs) \/
  exists bs i b w, t = table_of bs (Z.of_nat (length vs)) /\ body_ok bs /\ capacity_ok bs /\ load_ok bs /\
    vs ≡ₚ contents bs /\ HashTable_find hash equals fuel t v = Ret (Some (Z.of_nat i)) /\
    bs !! i = Some b /\ value_of b = Some w /\ equals v w = true.
Proof.
  intros Hok Hfuel Hcov. apply (lookup_table_spec fuel t vs (hash v) (equals v) N); [done..|].
  intros w Hw. symmetry. by apply traits_hash.
Qed.

Lemma HashTable_remove_at_spec bs vs i b w :
  body_ok bs -> capacity_ok bs -> load_ok bs -> vs ≡ₚ contents bs -> bs !! i = Some b -> value_of b = Some w ->
  exists t' l, HashTable_remove_at (table_of bs (Z.of_nat (length vs))) (Some (Z.of_nat i)) = Ret t' /\
    table_ok t' l /\ vs ≡ₚ w :: l.
Proof.
  intros Hbody Hcap Hload Hvs Hi Hw. pose proof Hbody as [Hlen Hok _ Hun].
  pose proof (Forall_lookup_1 _ _ _ _ Hok Hi) as Hb. unfold HashTable_remove_at.
  rewrite (load_bucket bs i b) by done. run. rewrite value_of_used, Hw by done.
  assert (used b = true) as Hu by (unfold value_of in Hw; by destruct (used b)).
  destruct (ok_used _ Hb Hu) as [Hd _]. rewrite (ok_end _ Hb), Hd. rewrite !VERIFY_true by done. run.
  rewrite store_bucket by (by eapply lookup_lt_Some). run.
  destruct (contents_insert bs i b (MkBucket false true false None) Hi) as (l & Hl & Hl').
  rewrite Hw in Hl. change (contents bs ≡ₚ w :: l) in Hl.
  change (contents (<[i := MkBucket false true false None]> bs) ≡ₚ l) in Hl'.
  pose proof (deleted_insert bs i b (MkBucket false true false None) Hi) as Hdel. rewrite Hd in Hdel. cbn [deleted Z.b2z] in Hdel.
  set (bs' := <[i := MkBucket false true false None]> bs) in *.
  assert (length bs' = length bs) as Hlen' by apply length_insert.
  assert (length vs = S (length l)) as Hvl by (by rewrite Hvs, Hl).
  eexists _, l. split; [done|]. split; [|by rewrite Hvs]. right. exists bs'.
  assert (0 <= deleted_buckets bs) by (unfold deleted_buckets; lia).
  unfold load_ok, capacity_ok in *. rewrite Hlen', (Permutation_length Hl'). rewrite (Permutation_length Hl) in Hload.
  cbn [length] in Hload. split_and!; [| | done | lia | done].
  - unfold table_of, size_t. cbn [m_size m_capacity m_deleted_count].
    rewrite !(wrap_id u32 eq_refl) by int_lia. f_equal; lia.
  - rewrite Hl in Hun. destruct Hun as [_ Hun].
    apply (body_ok_insert bs i b); [done | done | by split | done | done | by fold bs'; rewrite Hl'].
Qed.

Lemma remove_table_spec fuel t vs v N :
  table_ok t vs -> (N <= fuel)%nat -> probes_cover N (Z.to_nat (m_capacity t)) (hash v) ->
  exists r t' vs', HashTable_remove hash equals fuel t v = Ret (r, t') /\ table_ok t' vs' /\
    if r then exists w, equals v w = true /\ vs ≡ₚ w :: vs'
    else vs' = vs /\ t' = t /\ Forall (fun w => equals v w = false) vs.
Proof.
  intros Hok Hfuel Hcov. unfold HashTable_remove.
  destruct (find_table_spec fuel t vs v N Hok Hfuel Hcov)
    as [[-> Habs] | (bs & i & b & w & -> & Hbody & Hcap & Hload & Hvs & -> & Hi & Hw & He)]; run.
  - by exists false, t, vs.
  - destruct (HashTable_remove_at_spec bs vs i b w) as (t' & l & -> & Hok' & Hl); [done..|]. run.
    exists true, t', l. split_and!; [done | done|]. by exists w.
Qed.

(** *** Iteration *)

(** The first bucket in use from [i] on. *)
Definition next_used bs (i : nat) (r : option Z) : Prop :=
  match r with
  | None => contents (drop i bs) = []
  | Some j => exists k b v, j = Z.of_nat k /\ (i <= k)%nat /\ bs !! k = Some b /\ value_of b = Some v /\
      contents (drop i bs) = v :: contents (drop (S k) bs)
  end.

Lemma next_used_here bs i b v :
  bs !! i = Some b -> value_of b = Some v -> next_used bs i (Some (Z.of_nat i)).
Proof.
  intros Hi Hv. exists i, b, v. split_and!; [done | lia | done | done|].
  rewrite (drop_S bs b i Hi). unfold contents. cbn [omap list_omap]. by rewrite Hv.
Qed.

Lemma next_used_later bs i b r :
  bs !! i = Some b -> value_of b = None -> next_used bs (S i) r -> next_used bs i r.
Proof.
  intros Hi Hv. unfold next_used. rewrite (drop_S bs b i Hi). unfold contents. cbn [omap list_omap]. rewrite Hv.
  destruct r as [j|]; [|done]. intros (k & c & v & ? & ? & ?). exists k, c, v. split_and!; [done | lia | tauto..].
Qed.

Lemma begin_loop_spec bs size n i :
  Forall bucket_ok bs -> (n + i = length bs)%nat ->
  exists r, begin_loop (table_of bs size) n (Z.of_nat i) = Ret r /\ next_used bs i r.
Proof.
  intros Hok. revert i. induction n as [|n IH]; intros i Hn; cbn [begin_loop].
  { exists None. split; [done|]. cbn. by rewrite drop_ge by lia. }
  destruct (lookup_lt_is_Some_2 bs i) as (b & Hb); [lia|]. rewrite (load_bucket bs i b) by done. run.
  rewrite value_of_used by (by eapply Forall_lookup_1). destruct (value_of b) as [v|] eqn:Ev.
  - eexists. split; [done|]. by eapply next_used_here.
  - replace (Z.of_nat i + 1) with (Z.of_nat (S i)) by lia. destruct (IH (S i)) as (r & -> & Hr); [lia|].
    exists r. split; [done|]. by eapply next_used_later.
Qed.

Lemma skip_loop_spec bs size n i :
  Forall bucket_ok bs -> (i < length bs)%nat -> (length bs <= n + i)%nat ->
  exists r, skip_loop (table_of bs size) n (Z.of_nat i) = Ret r /\ next_used bs (S i) r.
Proof.
  intros Hok. revert i. induction n as [|n IH]; intros i Hi Hn; [lia|]. cbn [skip_loop].
  replace (Z.of_nat i + 1) with (Z.of_nat (S i)) by lia. destruct (decide (S i = length bs)) as [He|Hne].
  - assert (load (m_buckets (table_of bs size)) (Z.of_nat (S i)) = Ret end_bucket) as ->.
    { unfold load, table_of. cbn [m_buckets]. rewrite (proj2 (Z.leb_le 0 _)), Nat2Z.id, He, list_lookup_middle by lia.
      done. }
    run. exists None. split; [done|]. cbn. by rewrite drop_ge by lia.
  - destruct (lookup_lt_is_Some_2 bs (S i)) as (b & Hb); [lia|]. rewrite (load_bucket bs (S i) b) by done. run.
    pose proof (Forall_lookup_1 _ _ _ _ Hok Hb) as Hbok. rewrite value_of_used by done.
    destruct (value_of b) as [v|] eqn:Ev.
    + eexists. split; [done|]. by eapply next_used_here.
    + rewrite (ok_end _ Hbok). cbn [negb]. destruct (IH (S i)) as (r & -> & Hr); [lia.. |].
      exists r. split; [done|]. by eapply next_used_later.
Qed.

Lemma iterate_spec bs size n i r :
  Forall bucket_ok bs -> next_used bs i r -> (length bs <= n + i)%nat ->
  table_iterate n (table_of bs size) r = Ret (contents (drop i bs)).
Proof.
  intros Hok. revert i r. induction n as [|n IH]; intros i r Hr Hn.
  - destruct r as [j|]; cbn in *; [|by rewrite Hr].
    destruct Hr as (k & b & v & _ & Hk & Hb & _). apply lookup_lt_Some in Hb. lia.
  - destruct r as [j|]; [|cbn in *; by rewrite Hr].
    destruct Hr as (k & b & v & -> & Hk & Hb & Hv & Hc). cbn [table_iterate HashIterator_deref HashIterator_skip_to_next].
    rewrite (load_bucket bs k b) by done. run.
    assert (bucket_slot b = Ret v) as ->.
    { unfold value_of in Hv. unfold bucket_slot. destruct (used b); [by rewrite Hv | done]. }
    run. pose proof (lookup_lt_Some _ _ _ Hb) as Hlt.
    destruct (skip_loop_spec bs size (length (m_buckets (table_of bs size))) k) as (r & -> & Hr);
      [done | done | unfold table_of; cbn [m_buckets]; rewrite length_app; lia|].
    run. rewrite (IH (S k) r) by (done || lia). run. by rewrite Hc.
Qed.

Lemma HashTable_values_spec t vs : table_ok t vs -> exists values, HashTable_values t = Ret values /\ values ≡ₚ vs.
Proof.
  unfold HashTable_values, HashTable_begin. intros [[-> ->] | (bs & -> & Hbody & _ & _ & Hvs)]; [by exists []|].
  pose proof (body_buckets _ Hbody) as Hok. cbn [m_capacity table_of]. rewrite Nat2Z.id.
  destruct (begin_loop_spec bs (Z.of_nat (length vs)) (length bs) 0) as (r & Heq & Hr); [done | lia|].
  change (begin_loop _ _ 0) with (begin_loop (table_of bs (Z.of_nat (length vs))) (length bs) (Z.of_nat 0)).
  rewrite Heq. run. exists (contents bs). split; [|done].
  apply (iterate_spec bs _ _ 0 r); [done | done|]. unfold table_of. cbn [m_buckets]. rewrite length_app. lia.
Qed.

(** *** Reserving and copying *)

Lemma rehash_table_spec fuel t vs new_capacity N :
  table_ok t vs -> let cap := Z.max new_capacity 4 in
  cap <= 2 ^ 26 -> 100 * (Z.of_nat (length vs) + 1) < 60 * cap ->
  (forall w, w ∈ vs -> probes_cover N (Z.to_nat cap) (hash w)) -> (N <= fuel)%nat ->
  exists t', rehash hash equals rehash_depth fuel t new_capacity = Ret t' /\ table_ok t' vs /\
    m_capacity t' = cap /\ m_deleted_count t' = 0.
Proof.
  intros Hok cap Hcap Hload Hcov Hfuel.
  assert (exists old, take (Z.to_nat (m_capacity t)) (m_buckets t) = old /\ Forall bucket_ok old /\
    unequal (contents old) /\ vs ≡ₚ contents old /\ m_size t = Z.of_nat (length vs))
    as (old & Hold & Hbok & Hun & Hvs & Hsize).
  { destruct Hok as [[-> ->] | (bs & -> & Hbody & _ & _ & Hvs)]; [by exists []|]. exists bs.
    destruct Hbody. split_and!; try done. cbn [m_capacity m_buckets table_of].
    by rewrite Nat2Z.id, take_app_length. }
  pose proof (Permutation_length Hvs) as Hvl. unfold rehash_depth.
  destruct (rehash_spec 2 fuel t old new_capacity N)
    as (bs & -> & (Hbody & Hdel & Hc & _ & Hl) & Hlen & Hcont); try done; [lia | rewrite Hsize; lia | |].
  { rewrite Forall_forall. intros w Hw. apply Hcov. by rewrite Hvs. }
  pose proof (no_deleted _ Hdel) as Hd0.
  exists (table_of bs (m_size t)). rewrite Hsize. split_and!; [done | | exact Hlen | exact Hd0].
  right. exists bs. split_and!; [done..| |by rewrite Hvs, Hcont].
  unfold load_ok. rewrite (Permutation_length Hcont). lia.
Qed.

Lemma table_size t vs : table_ok t vs -> m_size t = Z.of_nat (length vs).
Proof. by intros [[-> ->] | (bs & -> & _)]. Qed.

Lemma table_capacity t vs :
  table_ok t vs -> m_capacity t <= 2 ^ 26 /\ (vs = [] \/ 4 <= m_capacity t) /\ 0 <= m_deleted_count t /\
    (100 * (Z.of_nat (length vs) + m_deleted_count t) < 60 * m_capacity t \/ vs = []).
Proof.
  intros [[-> ->] | (bs & -> & [Hlen _ _ _] & Hcap & Hload & Hvs)]; [split_and!; cbn; [lia | by left | lia | by right]|].
  unfold capacity_ok, load_ok in *. rewrite (Permutation_length Hvs). cbn [m_capacity m_deleted_count table_of].
  assert (0 <= deleted_buckets bs) by (unfold deleted_buckets; lia). split_and!; [lia | right; lia | lia | left; lia].
Qed.

Lemma ensure_capacity_table_spec fuel t vs capacity N :
  table_ok t vs -> Z.of_nat (length vs) <= capacity <= 2 ^ 25 ->
  100 * (Z.of_nat (length vs) + 1) < 60 * Z.max (capacity * 2) 4 ->
  (forall w, w ∈ vs -> probes_cover N (Z.to_nat (Z.max (capacity * 2) 4)) (hash w)) -> (N <= fuel)%nat ->
  exists t', HashTable_ensure_capacity hash equals fuel t capacity = Ret t' /\ table_ok t' vs /\
    m_capacity t' = Z.max (capacity * 2) 4.
Proof.
  intros Hok Hc Hl Hcov Hfuel. unfold HashTable_ensure_capacity. rewrite (table_size t vs Hok).
  rewrite (VERIFY_true (_ <=? _)) by lia. run. unfold size_t. rewrite (wrap_id u32 eq_refl) by int_lia.
  destruct (rehash_table_spec fuel t vs (capacity * 2) N) as (t' & -> & Hok' & Hcap & _); try done; [lia|].
  by exists t'.
Qed.

(** Setting values that are not in the table, while there is room for all of them. *)
Lemma set_all_spec fuel ws t vs N :
  table_ok t vs -> unequal (ws ++ vs) ->
  100 * (Z.of_nat (length ws + length vs) + m_deleted_count t) < 60 * m_capacity t ->
  (forall w, w ∈ ws ++ vs -> probes_cover N (Z.to_nat (m_capacity t)) (hash w)) -> (N <= fuel)%nat ->
  exists t', set_all hash equals fuel t ws = Ret t' /\ exists vs', table_ok t' vs' /\ vs' ≡ₚ ws ++ vs.
Proof.
  revert t vs. induction ws as [|v ws IH]; intros t vs Hok Hun Hroom Hcov Hfuel; cbn [set_all].
  { exists t. split; [done|]. by exists vs. }
  cbn [app length] in *. destruct Hun as [Hv Hun].
  destruct (table_capacity t vs Hok) as (Hc & _ & Hd & _).
  assert (should_grow t = false) as Hsg.
  { destruct Hok as [[-> ->] | (bs & -> & _ & Hcap & _)]; [cbn in Hroom; lia|].
    cbn [m_deleted_count m_capacity table_of] in *. unfold capacity_ok in Hcap.
    rewrite should_grow_spec by (unfold capacity_ok; lia). lia. }
  assert (grown_capacity t = m_capacity t) as Hg by (unfold grown_capacity; by rewrite Hsg).
  destruct (set_table_spec fuel t vs v N) as (r & t1 & vs1 & -> & Hok1 & Hset & Hc1 & Hd1); try done; [by rewrite Hg| |].
  { intros w Hw. rewrite Hg. apply Hcov. rewrite elem_of_cons in *. rewrite elem_of_app. tauto. }
  run. apply Forall_app in Hv as [Hv1 Hv2]. destruct r.
  2: { destruct Hset as (w & l & He & Hperm & _). rewrite Hperm in Hv2. apply Forall_cons in Hv2 as [Hf _]. congruence. }
  destruct Hset as [_ ->].
  destruct (IH t1 (v :: vs)) as (t2 & -> & vs2 & Hok2 & Hp2); try done.
  - rewrite <- Permutation_middle. by split; [apply Forall_app|].
  - rewrite Hc1, Hg. cbn [length]. lia.
  - intros w. rewrite <- Permutation_middle, Hc1, Hg. apply Hcov.
  - exists t2. split; [done|]. exists vs2. split; [done|]. by rewrite Hp2, <- Permutation_middle.
Qed.

Lemma copy_table_spec fuel t vs N :
  table_ok t vs -> (forall w, w ∈ vs -> probes_cover N (Z.to_nat (m_capacity t)) (hash w)) -> (N <= fuel)%nat ->
  exists t' vs', HashTable_copy hash equals fuel t = Ret t' /\ table_ok t' vs' /\ vs' ≡ₚ vs.
Proof.
  intros Hok Hcov Hfuel. destruct (table_capacity t vs Hok) as (Hc & H4 & Hd & Hl).
  unfold HashTable_copy, HashTable_with_capacity.
  destruct (rehash_table_spec fuel HashTable_default [] (m_capacity t) N)
    as (t0 & -> & Hok0 & Hc0 & Hd0); [by left | lia | cbn; lia | by intros w ?%not_elem_of_nil | done|]. run.
  destruct (HashTable_values_spec t vs Hok) as (values & -> & Hperm). run.
  destruct (set_all_spec fuel values t0 [] N) as (t' & -> & vs' & Hok' & Hp'); try done.
  - rewrite app_nil_r, Hperm. destruct Hok as [[-> ->] | (bs & -> & Hbody & _ & _ & ->)]; [done|apply Hbody].
  - rewrite (Permutation_length Hperm), Hd0, Hc0. cbn [length]. destruct Hl as [Hl | ->]; cbn; lia.
  - intros w. rewrite app_nil_r, Hperm, Hc0. intros Hw.
    destruct H4 as [-> | H4]; [by apply not_elem_of_nil in Hw|]. rewrite Z.max_l by done. by apply Hcov.
  - exists t', vs'. split; [done|]. split; [done|]. by rewrite Hp', app_nil_r.
Qed.

End sets.

(** ** Properties *)

#[global] Instance Traits_int : HashTraits Traits_int_hash Z.eqb.
Proof.
  split; [apply Z.eqb_refl | intros v w; by rewrite Z.eqb_sym | |].
  - intros u v w ->%Z.eqb_eq ->%Z.eqb_eq. apply Z.eqb_refl.
  - by intros v w ->%Z.eqb_eq.
Qed.

(** The probes of the value and of the values of the table visit all buckets, also after the
    table has grown. *)
Definition probing {T} (hash : T -> Z) (N : nat) (t : HashTable T) (vs : list T) (v : T) : Prop :=
  forall w c, w ∈ v :: vs -> c = m_capacity t \/ c = grown_capacity t -> probes_cover N (Z.to_nat c) (hash w).

(** C28. As long as the probes visit all buckets, [set] and [remove] return and do what they do
    to a set of values without duplicates: [set] adds the value or replaces the equal one
    and says which, [remove] takes out the equal value or says that there is none.
    [clear] leaves no value, and the copy constructor and [ensure_capacity] keep all values
    (the latter if the new load factor is below the limit).  The table stays well-formed,
    also when it grows. *)
Theorem HashTable_updates_correct {T} (hash : T -> Z) (equals : T -> T -> bool) `{HashTraits T hash equals}
    fuel t vs v N :
  table_ok hash equals t vs -> grown_capacity t <= 2 ^ 26 -> (N <= fuel)%nat -> probing hash N t vs v ->
  (exists r t' vs', HashTable_set hash equals fuel t v = Ret (r, t') /\ table_ok hash equals t' vs' /\
    m_size t' = Z.of_nat (length vs') /\
    match r with
    | InsertedNewEntry => Forall (fun w => equals v w = false) vs /\ vs' = v :: vs
    | ReplacedExistingEntry => exists w l, equals v w = true /\ vs ≡ₚ w :: l /\ vs' = v :: l
    end) /\
  (exists r t' vs', HashTable_remove hash equals fuel t v = Ret (r, t') /\ table_ok hash equals t' vs' /\
    m_size t' = Z.of_nat (length vs') /\
    if r then exists w, equals v w = true /\ vs ≡ₚ w :: vs'
    else vs' = vs /\ t' = t /\ Forall (fun w => equals v w = false) vs) /\
  table_ok hash equals (HashTable_clear t) [] /\
  (exists t' vs', HashTable_copy hash equals fuel t = Ret t' /\ table_ok hash equals t' vs' /\ vs' ≡ₚ vs) /\
  (forall capacity, Z.of_nat (length vs) <= capacity <= 2 ^ 25 ->
    100 * (Z.of_nat (length vs) + 1) < 60 * Z.max (capacity * 2) 4 ->
    (forall w, w ∈ vs -> probes_cover N (Z.to_nat (Z.max (capacity * 2) 4)) (hash w)) ->
    exists t', HashTable_ensure_capacity hash equals fuel t capacity = Ret t' /\
      table_ok hash equals t' vs /\ m_capacity t' = Z.max (capacity * 2) 4).
Proof.
  intros Hok Hgrow Hfuel Hprobe. split; [|split; [|split; [|split]]].
  - destruct (set_table_spec hash equals fuel t vs v N Hok Hgrow Hfuel) as (r & t' & vs' & Heq & Hok' & Hset & _).
    { intros w Hw. apply Hprobe; [done | by right]. }
    exists r, t', vs'. split_and!; [done | done | by eapply table_size | done].
  - destruct (remove_table_spec hash equals fuel t vs v N Hok Hfuel) as (r & t' & vs' & Heq & Hok' & Hrem).
    { apply Hprobe; [apply list_elem_of_here | by left]. }
    exists r, t', vs'. split_and!; [done | done | by eapply table_size | done].
  - by left.
  - apply (copy_table_spec hash equals fuel t vs N); [done | | done].
    intros w Hw. apply Hprobe; [by apply list_elem_of_further | by left].
  - intros capacity Hc Hl Hcov. by apply (ensure_capacity_table_spec hash equals fuel t vs capacity N).
Qed.

(** [contains] returns whether an equal value is in the table, and iterating over the
    table visits every value exactly once. *)
Theorem HashTable_queries_correct {T} (hash : T -> Z) (equals : T -> T -> bool) `{HashTraits T hash equals}
    fuel t vs v N :
  table_ok hash equals t vs -> (N <= fuel)%nat -> probes_cover N (Z.to_nat (m_capacity t)) (hash v) ->
  (exists found, HashTable_contains hash equals fuel t v = Ret found /\
    (found = true <-> exists w, w ∈ vs /\ equals v w = true)) /\
  exists values, HashTable_values t = Ret values /\ values ≡ₚ vs.
Proof.
  intros Hok Hfuel Hcov. split; [|by apply (HashTable_values_spec hash equals)]. unfold HashTable_contains.
  destruct (find_table_spec hash equals fuel t vs v N Hok Hfuel Hcov)
    as [[-> Habs] | (bs & i & b & w & _ & _ & _ & _ & Hvs & -> & Hi & Hw & He)]; run.
  - exists false. split; [done|]. split; [done|]. intros (w & Hw & He). rewrite Forall_forall in Habs.
    by rewrite Habs in He.
  - exists true. split; [done|]. split; [|done]. intros _. exists w. split; [|done].
    rewrite Hvs. apply contents_elem. by exists i, b.
Qed.

(** *** Witnesses *)

Definition set_int (t : HashTable Z) (v : Z) : HashTable Z :=
  match HashTable_set Traits_int_hash Z.eqb 100 t v with
  | Ret (InsertedNewEntry, t) => t
  | _ => HashTable_default
  end.

(** A table that has grown. *)
Definition example_table : HashTable Z := set_int (set_int (set_int HashTable_default 3) 14) 15.

Lemma covers_check {T} (hash : T -> Z) N t vs v :
  forallb (fun w => bool_decide (probes_cover N (Z.to_nat (m_capacity t)) (hash w)) &&
                    bool_decide (probes_cover N (Z.to_nat (grown_capacity t)) (hash w))) (v :: vs) = true ->
  probing hash N t vs v.
Proof.
  intros Hall w c Hw Hc. rewrite forallb_forall in Hall. specialize (Hall w).
  apply list_elem_of_In, Hall, andb_true_iff in Hw as [H1%bool_decide_eq_true H2%bool_decide_eq_true].
  by destruct Hc as [-> | ->].
Qed.

Lemma set_int_ok t vs v :
  table_ok Traits_int_hash Z.eqb t vs -> grown_capacity t <= 2 ^ 26 -> probing Traits_int_hash 100 t vs v ->
  v ∉ vs -> table_ok Traits_int_hash Z.eqb (set_int t v) (v :: vs).
Proof.
  intros Hok Hgrow Hprobe Hv. unfold set_int.
  destruct (set_table_spec Traits_int_hash Z.eqb 100 t vs v 100 Hok Hgrow (le_n _))
    as (r & t' & vs' & -> & Hok' & Hset & _).
  { intros w Hw. apply Hprobe; [done | by right]. }
  destruct r; [by destruct Hset as [_ ->]|]. destruct Hset as (w & l & ->%Z.eqb_eq & Hperm & _).
  destruct Hv. rewrite Hperm. apply list_elem_of_here.
Qed.

Lemma example_table_ok : table_ok Traits_int_hash Z.eqb example_table [15; 14; 3].
Proof.
  unfold example_table. apply set_int_ok; [apply set_int_ok; [apply set_int_ok; [by left | | |] | | |] | | |];
    try (apply covers_check; by vm_compute); try (by vm_compute); apply (bool_decide_unpack _); by vm_compute.
Qed.

Lemma HashTable_updates_correct_witness :
  m_capacity example_table = 8 /\
  (exists r t' vs', HashTable_set Traits_int_hash Z.eqb 100 example_table 14 = Ret (r, t') /\
    table_ok Traits_int_hash Z.eqb t' vs' /\ m_size t' = Z.of_nat (length vs') /\
    match r with
    | InsertedNewEntry => Forall (fun w => (14 =? w) = false) [15; 14; 3] /\ vs' = [14; 15; 14; 3]
    | ReplacedExistingEntry => exists w l, (14 =? w) = true /\ [15; 14; 3] ≡ₚ w :: l /\ vs' = 14 :: l
    end) /\
  (exists r t' vs', HashTable_remove Traits_int_hash Z.eqb 100 example_table 14 = Ret (r, t') /\
    table_ok Traits_int_hash Z.eqb t' vs' /\ m_size t' = Z.of_nat (length vs') /\
    if r then exists w, (14 =? w) = true /\ [15; 14; 3] ≡ₚ w :: vs'
    else vs' = [15; 14; 3] /\ t' = example_table /\ Forall (fun w => (14 =? w) = false) [15; 14; 3]) /\
  table_ok Traits_int_hash Z.eqb (HashTable_clear example_table) [] /\
  (exists t' vs', HashTable_copy Traits_int_hash Z.eqb 100 example_table = Ret t' /\
    table_ok Traits_int_hash Z.eqb t' vs' /\ vs' ≡ₚ [15; 14; 3]) /\
  (forall capacity, 3 <= capacity <= 2 ^ 25 ->
    100 * (3 + 1) < 60 * Z.max (capacity * 2) 4 ->
    (forall w, w ∈ [15; 14; 3] -> probes_cover 100 (Z.to_nat (Z.max (capacity * 2) 4)) (Traits_int_hash w)) ->
    exists t', HashTable_ensure_capacity Traits_int_hash Z.eqb 100 example_table capacity = Ret t' /\
      table_ok Traits_int_hash Z.eqb t' [15; 14; 3] /\ m_capacity t' = Z.max (capacity * 2) 4).
Proof.
  split; [by vm_compute|].
  apply (HashTable_updates_correct Traits_int_hash Z.eqb 100 example_table [15; 14; 3] 14 100);
    [exact example_table_ok | by vm_compute | lia | apply covers_check; by vm_compute].
Defined.

Lemma HashTable_queries_correct_witness :
  (exists found, HashTable_contains Traits_int_hash Z.eqb 100 example_table 5 = Ret found /\
    (found = true <-> exists w, w ∈ [15; 14; 3] /\ (5 =? w) = true)) /\
  exists values, HashTable_values example_table = Ret values /\ values ≡ₚ [15; 14; 3].
Proof.
  apply (HashTable_queries_correct Traits_int_hash Z.eqb 100 example_table [15; 14; 3] 5 100);
    [exact example_table_ok | lia | apply (bool_decide_unpack _); by vm_compute].
Defined.
