(* ===== verification/HashMap.v ===== *)
(** * AK/HashMap.h: maps over hash tables

    A map is a hash table of entries that are hashed and compared by their keys.  The
    theorems show that it implements a finite map, on top of the theorems about hash tables
    and with their condition that the probes visit all buckets. *)

From stdpp Require Import gmap.
From S2P Require Import Prelude HashTable.

#[local] Open Scope Z_scope.

Record Entry (K V : Type) : Type := MkEntry { key : K; value : V }.
Arguments MkEntry {K V}.
Arguments key {K V}.
Arguments value {K V}.

Section map.
Context {K V : Type} (hash : K -> Z) (equals : K -> K -> bool).

(** [EntryTraits]. *)
Definition EntryTraits_hash (entry : Entry K V) : Z := hash (key entry).
Definition EntryTraits_equals (a b : Entry K V) : bool := equals (key a) (key b).

Definition HashMap : Type := HashTable (Entry K V).

Definition HashMap_is_empty (m : HashMap) : bool := HashTable_is_empty m.
Definition HashMap_size (m : HashMap) : Z := m_size m.
Definition HashMap_clear (m : HashMap) : HashMap := HashTable_clear m.

Definition HashMap_set (fuel : nat) (m : HashMap) (k : K) (v : V) : outcome (HashSetResult * HashMap) :=
  HashTable_set EntryTraits_hash EntryTraits_equals fuel m (MkEntry k v).

Definition HashMap_find (fuel : nat) (m : HashMap) (k : K) : outcome (option Z) :=
  lookup_with_hash fuel m (hash k) (fun entry => equals k (key entry)).

Definition HashMap_remove (fuel : nat) (m : HashMap) (k : K) : outcome (bool * HashMap) :=
  it ← HashMap_find fuel m k;
  match it with
  | Some i => m ← HashTable_remove_at m (Some i); Ret (true, m)
  | None => Ret (false, m)
  end.

Definition HashMap_remove_one_randomly (m : HashMap) : outcome HashMap :=
  it ← HashTable_begin m; HashTable_remove_at m it.

Definition HashMap_get (fuel : nat) (m : HashMap) (k : K) : outcome (option V) :=
  it ← HashMap_find fuel m k;
  match it with
  | None => Ret None
  | Some i => entry ← HashIterator_deref m (Some i); Ret (Some (value entry))
  end.

Definition HashMap_contains (fuel : nat) (m : HashMap) (k : K) : outcome bool :=
  it ← HashMap_find fuel m k;
  Ret (match it with Some _ => true | None => false end).

Definition HashMap_ensure_capacity (fuel : nat) (m : HashMap) (capacity : Z) : outcome HashMap :=
  HashTable_ensure_capacity EntryTraits_hash EntryTraits_equals fuel m capacity.

(** [ensure]: the value found, with [default_value] for [V()]. *)
Definition HashMap_ensure (fuel : nat) (m : HashMap) (k : K) (default_value : V) : outcome (V * HashMap) :=
  it ← HashMap_find fuel m k;
  m ← (match it with
       | None => '(_, m) ← HashMap_set fuel m k default_value; Ret m
       | Some _ => Ret m
       end);
  it ← HashMap_find fuel m k;
  entry ← HashIterator_deref m it;
  Ret (value entry, m).

Definition HashMap_keys (m : HashMap) : outcome (list K) :=
  entries ← HashTable_values m; Ret (map key entries).

End map.

(** ** Refinement of finite maps *)

#[local] Set Default Proof Using "All".

Section refinement.
Context {K V : Type} `{Countable K} (hash : K -> Z).

(** Keys are compared with [==]. *)
Definition key_equals (a b : K) : bool := bool_decide (a = b).

#[global] Instance entry_traits : HashTraits (EntryTraits_hash (V := V) hash) (EntryTraits_equals key_equals).
Proof.
  unfold EntryTraits_hash, EntryTraits_equals, key_equals.
  split; intros; rewrite ?bool_decide_eq_true in *; congruence.
Qed.

(** The map has exactly the entries of the table. *)
Definition map_ok (t : HashMap (K := K) (V := V)) (m : gmap K V) : Prop :=
  exists es, table_ok (EntryTraits_hash hash) (EntryTraits_equals key_equals) t es /\
    forall k v, m !! k = Some v <-> MkEntry k v ∈ es.

(** The probes of the keys visit all buckets, also after the table has grown. *)
Definition keys_probing (N : nat) (t : HashMap (K := K) (V := V)) (m : gmap K V) (k : K) : Prop :=
  forall k' c, k' = k \/ is_Some (m !! k') -> c = m_capacity t \/ c = grown_capacity t ->
    probes_cover N (Z.to_nat c) (hash k').

Lemma table_unequal (t : HashMap (K := K) (V := V)) es :
  table_ok (EntryTraits_hash hash) (EntryTraits_equals key_equals) t es -> unequal (EntryTraits_equals key_equals) es.
Proof.
  intros [[_ ->] | (bs & _ & Hbody & _ & _ & ->)]; [done|]. apply Hbody.
Qed.

Lemma absent_none es (m : gmap K V) k :
  (forall k v, m !! k = Some v <-> MkEntry k v ∈ es) ->
  Forall (fun e => key_equals k (key e) = false) es -> m !! k = None.
Proof.
  intros Hm Habs. destruct (m !! k) as [v|] eqn:E; [|done]. apply Hm in E. rewrite Forall_forall in Habs.
  specialize (Habs _ E). unfold key_equals in Habs. by rewrite bool_decide_eq_true_2 in Habs.
Qed.

Lemma unequal_nodup (es : list (Entry K V)) : unequal (EntryTraits_equals key_equals) es -> NoDup (map key es).
Proof.
  induction es as [|e es IH]; [constructor|]. intros [He Hun]. constructor; [|by apply IH].
  intros (e' & Heq & Hin)%list_elem_of_fmap. rewrite Forall_forall in He. specialize (He _ Hin).
  unfold EntryTraits_equals, key_equals in He. by rewrite bool_decide_eq_true_2 in He.
Qed.

(** The entry of a key replaced by another one for it. *)
Lemma replaced_entry es l (m : gmap K V) e k v :
  (forall k v, m !! k = Some v <-> MkEntry k v ∈ es) -> unequal (EntryTraits_equals key_equals) es ->
  es ≡ₚ e :: l -> key e = k -> forall k' v', <[k := v]> m !! k' = Some v' <-> MkEntry k' v' ∈ MkEntry k v :: l.
Proof.
  intros Hm Hun Hperm Hk k' v'. rewrite Hperm in Hun. destruct Hun as [He Hun]. rewrite elem_of_cons.
  rewrite Forall_forall in He. unfold EntryTraits_equals, key_equals in He.
  destruct (decide (k' = k)) as [->|Hne].
  - rewrite lookup_insert_eq. split; [intros [= ->]; by left|]. intros [[= ->]|Hl]; [done|].
    specialize (He _ Hl). cbn in He. by rewrite Hk, bool_decide_eq_true_2 in He.
  - rewrite lookup_insert_ne by done. rewrite Hm, Hperm, elem_of_cons. split.
    + intros [<-|Hl]; [done | by right].
    + intros [[= -> _]|Hl]; [done | by right].
Qed.

Lemma removed_entry es l (m : gmap K V) e k :
  (forall k v, m !! k = Some v <-> MkEntry k v ∈ es) -> unequal (EntryTraits_equals key_equals) es ->
  es ≡ₚ e :: l -> key e = k -> forall k' v', delete k m !! k' = Some v' <-> MkEntry k' v' ∈ l.
Proof.
  intros Hm Hun Hperm Hk k' v'. rewrite Hperm in Hun. destruct Hun as [He Hun].
  rewrite Forall_forall in He. unfold EntryTraits_equals, key_equals in He.
  destruct (decide (k' = k)) as [->|Hne].
  - rewrite lookup_delete_eq. split; [done|]. intros Hl. specialize (He _ Hl). cbn in He.
    by rewrite Hk, bool_decide_eq_true_2 in He.
  - rewrite lookup_delete_ne by done. rewrite Hm, Hperm, elem_of_cons. split; [|by right].
    intros [<-|Hl]; [by destruct Hne | done].
Qed.

Lemma map_find fuel (t : HashMap (K := K) (V := V)) m k N :
  map_ok t m -> (N <= fuel)%nat -> probes_cover N (Z.to_nat (m_capacity t)) (hash k) ->
  match m !! k with
  | None => HashMap_find hash key_equals fuel t k = Ret None
  | Some v => exists i, HashMap_find hash key_equals fuel t k = Ret (Some i) /\
      HashIterator_deref t (Some i) = Ret (MkEntry k v) /\
      exists t', HashTable_remove_at t (Some i) = Ret t' /\ map_ok t' (delete k m)
  end.
Proof.
  intros (es & Hok & Hm) Hfuel Hcov. unfold HashMap_find.
  destruct (lookup_table_spec (EntryTraits_hash hash) (EntryTraits_equals key_equals) fuel t es (hash k)
    (fun e => key_equals k (key e)) N Hok Hfuel Hcov)
    as [[-> Habs] | (bs & i & b & [k' v] & -> & Hbody & Hcap & Hload & Hes & -> & Hi & Hw & He)].
  - intros e He%bool_decide_eq_true. unfold EntryTraits_hash. by rewrite He.
  - by rewrite (absent_none es m k Hm Habs).
  - apply bool_decide_eq_true in He as ->. cbn [key].
    assert (m !! k' = Some v) as -> by (apply Hm; rewrite Hes; apply contents_elem; by exists i, b).
    exists (Z.of_nat i). split; [done|]. split.
    + cbn [HashIterator_deref]. rewrite (load_bucket bs i b) by done. run. unfold value_of in Hw. unfold bucket_slot.
      destruct (used b); [by rewrite Hw | done].
    + destruct (HashTable_remove_at_spec (EntryTraits_hash hash) (EntryTraits_equals key_equals) bs es i b (MkEntry k' v))
        as (t' & l & -> & Hok' & Hl); [done..|].
      exists t'. split; [done|]. exists l. split; [done|].
      apply (removed_entry es l m (MkEntry k' v)); [done | by eapply table_unequal | done | done].
Qed.

Lemma map_set fuel (t : HashMap (K := K) (V := V)) m k v N :
  map_ok t m -> grown_capacity t <= 2 ^ 26 -> (N <= fuel)%nat -> keys_probing N t m k ->
  exists t', HashMap_set hash key_equals fuel t k v =
      Ret (match m !! k with Some _ => ReplacedExistingEntry | None => InsertedNewEntry end, t') /\
    map_ok t' (<[k := v]> m) /\ m_capacity t' = grown_capacity t.
Proof.
  intros (es & Hok & Hm) Hgrow Hfuel Hprobe.
  destruct (set_table_spec (EntryTraits_hash hash) (EntryTraits_equals key_equals) fuel t es (MkEntry k v) N)
    as (r & t' & es' & Heq & Hok' & Hset & Hc & _); [done | done | done | |].
  { intros [k' v'] He. apply Hprobe; [|by right]. apply elem_of_cons in He as [[= -> _]|He]; [by left|].
    right. exists v'. by apply Hm. }
  unfold HashMap_set. rewrite Heq. exists t'. destruct r.
  - destruct Hset as [Habs ->]. rewrite (absent_none es m k Hm Habs). split; [done|]. split; [|done].
    exists (MkEntry k v :: es). split; [done|]. intros k' v'. rewrite elem_of_cons.
    destruct (decide (k' = k)) as [->|Hne].
    + rewrite lookup_insert_eq. split; [intros [= ->]; by left|]. intros [[= ->]|Hl%Hm]; [done|].
      by rewrite (absent_none es m k Hm Habs) in Hl.
    + rewrite lookup_insert_ne, Hm by done. split; [by right | intros [[= ? _]|?]; done].
  - destruct Hset as ([k0 v0] & l & He%bool_decide_eq_true & Hperm & ->). cbn in He. subst k0.
    assert (m !! k = Some v0) as -> by (apply Hm; rewrite Hperm; apply list_elem_of_here).
    split; [done|]. split; [|done]. exists (MkEntry k v :: l). split; [done|].
    apply (replaced_entry es l m (MkEntry k v0)); [done | by eapply table_unequal | done | done].
Qed.

Lemma map_ensure fuel (t : HashMap (K := K) (V := V)) m k v N :
  map_ok t m -> grown_capacity t <= 2 ^ 26 -> (N <= fuel)%nat -> keys_probing N t m k ->
  exists t', HashMap_ensure hash key_equals fuel t k v = Ret (default v (m !! k), t') /\
    map_ok t' (match m !! k with Some _ => m | None => <[k := v]> m end).
Proof.
  intros Hmap Hgrow Hfuel Hprobe. unfold HashMap_ensure.
  pose proof (map_find fuel t m k N Hmap Hfuel (Hprobe k _ (or_introl eq_refl) (or_introl eq_refl))) as Hfind.
  destruct (m !! k) as [v0|] eqn:E.
  - destruct Hfind as (i & Hf & Hd & _). rewrite Hf. run. rewrite Hf. run. rewrite Hd. run. by exists t.
  - rewrite Hfind. run. destruct (map_set fuel t m k v N) as (t' & -> & Hmap' & Hc); try done. run.
    pose proof (map_find fuel t' (<[k := v]> m) k N Hmap' Hfuel) as Hfind'. rewrite lookup_insert_eq in Hfind'.
    destruct Hfind' as (i & -> & Hd & _).
    { rewrite Hc. apply Hprobe; [by left | by right]. }
    run. rewrite Hd. run. by exists t'.
Qed.

Lemma map_entries es (m : gmap K V) :
  (forall k v, m !! k = Some v <-> MkEntry k v ∈ es) -> unequal (EntryTraits_equals key_equals) es ->
  length es = size m.
Proof.
  intros Hm Hun. rewrite <- length_map_to_list, <- (length_fmap (fun e => (key e, value e)) es).
  apply Permutation_length, NoDup_Permutation; [| apply NoDup_map_to_list |].
  - apply (NoDup_fmap_1 fst). rewrite <- list_fmap_compose. by apply unequal_nodup.
  - intros [k v]. rewrite elem_of_map_to_list, Hm, list_elem_of_fmap. split.
    + intros ([k' v'] & [= -> ->] & He). done.
    + intros He. by exists (MkEntry k v).
Qed.

Lemma map_size t (m : gmap K V) : map_ok t m -> HashMap_size t = Z.of_nat (size m).
Proof.
  intros (es & Hok & Hm). unfold HashMap_size. rewrite (table_size _ _ t es Hok). f_equal.
  apply map_entries; [done | by eapply table_unequal].
Qed.

Lemma map_remove_one t (m : gmap K V) :
  map_ok t m ->
  if decide (m = ∅) then HashMap_remove_one_randomly t = Stop VerifyFailed
  else exists k t', is_Some (m !! k) /\ HashMap_remove_one_randomly t = Ret t' /\ map_ok t' (delete k m).
Proof.
  intros (es & Hok & Hm). pose proof (table_unequal t es Hok) as Hun. unfold HashMap_remove_one_randomly, HashTable_begin.
  destruct Hok as [[-> ->] | (bs & -> & Hbody & Hcap & Hload & Hes)].
  { rewrite decide_True; [done|]. apply map_empty. intros k. destruct (m !! k) as [v|] eqn:E; [|done].
    apply Hm in E. by apply not_elem_of_nil in E. }
  pose proof (body_buckets _ _ _ Hbody) as Hbok. cbn [m_capacity table_of]. rewrite Nat2Z.id.
  destruct (begin_loop_spec (EntryTraits_hash hash) (EntryTraits_equals key_equals) bs (Z.of_nat (length es)) (length bs) 0) as (r & Heq & Hr); [done | lia|].
  change (Z.of_nat 0) with 0 in Heq. rewrite Heq. run. destruct r as [j|].
  - destruct Hr as (i & b & [k v] & -> & _ & Hi & Hv & _).
    assert (MkEntry k v ∈ es) as He by (rewrite Hes; apply contents_elem; by exists i, b).
    apply Hm in He as Hk. rewrite decide_False by (intros ->; by rewrite lookup_empty in Hk).
    destruct (HashTable_remove_at_spec (EntryTraits_hash hash) (EntryTraits_equals key_equals) bs es i b (MkEntry k v))
      as (t' & l & -> & Hok' & Hl); [done..|].
    exists k, t'. split; [by exists v|]. split; [done|]. exists l. split; [done|].
    by apply (removed_entry es l m (MkEntry k v)).
  - cbn in Hr. rewrite drop_0 in Hr. rewrite Hr in Hes. apply Permutation_nil_r in Hes as ->.
    rewrite decide_True; [done|]. apply map_empty. intros k. destruct (m !! k) as [v|] eqn:E; [|done].
    apply Hm in E. by apply not_elem_of_nil in E.
Qed.

Lemma map_keys t (m : gmap K V) :
  map_ok t m -> exists ks, HashMap_keys t = Ret ks /\ NoDup ks /\ forall k, k ∈ ks <-> is_Some (m !! k).
Proof.
  intros (es & Hok & Hm). unfold HashMap_keys.
  destruct (HashTable_values_spec (EntryTraits_hash hash) (EntryTraits_equals key_equals) t es Hok) as (values & -> & Hperm).
  run. exists (map key values). split; [done|]. split; [by rewrite Hperm; apply unequal_nodup; eapply table_unequal|].
  intros k. rewrite Hperm. rewrite list_elem_of_fmap. split.
  - intros ([k0 v0] & -> & He). exists v0. by apply Hm.
  - intros (v0 & Hv0%Hm). by exists (MkEntry k v0).
Qed.

(** ** Properties *)

(** C8. A well-formed hash map of at most 2^26 buckets (after growing) implements a finite
    map, for keys whose probe sequences visit all buckets within the fuel ([keys_probing],
    of the key asked for and of those in the map); without that condition a lookup may
    never return ([HashTable_contains_diverges]). [set] inserts and says whether the key
    was there, [remove] deletes and says whether it was there, [get] and [contains] look
    up, [ensure] gives the value of the key and inserts the default value only if there is
    none, [keys] lists every key once, [size] and [is_empty] count the keys, [clear]
    leaves none, and [remove_one_randomly] removes some key and fails its [VERIFY] exactly
    on the empty map. *)
Theorem HashMap_refines_map fuel (t : HashMap (K := K) (V := V)) m k v N :
  map_ok t m -> grown_capacity t <= 2 ^ 26 -> (N <= fuel)%nat -> keys_probing N t m k ->
  (exists t', HashMap_set hash key_equals fuel t k v =
      Ret (match m !! k with Some _ => ReplacedExistingEntry | None => InsertedNewEntry end, t') /\ map_ok t' (<[k := v]> m)) /\
  (exists t', HashMap_remove hash key_equals fuel t k = Ret (match m !! k with Some _ => true | None => false end, t') /\
      map_ok t' (delete k m)) /\
  HashMap_get hash key_equals fuel t k = Ret (m !! k) /\
  HashMap_contains hash key_equals fuel t k = Ret (match m !! k with Some _ => true | None => false end) /\
  (exists t', HashMap_ensure hash key_equals fuel t k v = Ret (default v (m !! k), t') /\
      map_ok t' (match m !! k with Some _ => m | None => <[k := v]> m end)) /\
  (exists ks, HashMap_keys t = Ret ks /\ NoDup ks /\ forall k', k' ∈ ks <-> is_Some (m !! k')) /\
  HashMap_size t = Z.of_nat (size m) /\ HashMap_is_empty t = bool_decide (m = ∅) /\
  map_ok (HashMap_clear t) ∅ /\
  (if decide (m = ∅) then HashMap_remove_one_randomly t = Stop VerifyFailed
   else exists k' t', is_Some (m !! k') /\ HashMap_remove_one_randomly t = Ret t' /\ map_ok t' (delete k' m)).
Proof.
  intros Hmap Hgrow Hfuel Hprobe.
  assert (probes_cover N (Z.to_nat (m_capacity t)) (hash k)) as Hcov by (apply Hprobe; by left).
  pose proof (map_find fuel t m k N Hmap Hfuel Hcov) as Hfind. pose proof (map_size t m Hmap) as Hsize.
  split; [|split; [|split; [|split; [|split; [|split; [|split; [|split; [|split]]]]]]]].
  - destruct (map_set fuel t m k v N) as (t' & Heq & Hok & _); [done..|]. by exists t'.
  - unfold HashMap_remove. destruct (m !! k) as [v0|] eqn:E.
    + destruct Hfind as (i & -> & _ & t' & Hrem & Hmap'). run. rewrite Hrem. run. by exists t'.
    + rewrite Hfind. run. exists t. by rewrite delete_id.
  - unfold HashMap_get. destruct (m !! k) as [v0|]; [|by rewrite Hfind].
    destruct Hfind as (i & -> & Hd & _). run. by rewrite Hd.
  - unfold HashMap_contains. destruct (m !! k) as [v0|]; [|by rewrite Hfind]. by destruct Hfind as (i & -> & _).
  - by apply (map_ensure fuel t m k v N).
  - by apply map_keys.
  - done.
  - unfold HashMap_size in Hsize. unfold HashMap_is_empty, HashTable_is_empty. rewrite Hsize.
    apply Bool.eq_true_iff_eq. rewrite bool_decide_eq_true, <- map_size_empty_iff, Z.eqb_eq. lia.
  - exists []. split; [by left|]. intros k' v'. rewrite lookup_empty. split; [done | by intros ?%not_elem_of_nil].
  - by apply map_remove_one.
Qed.

End refinement.

(** The map that takes 5 to 7, as [HashMap<int, int>]. *)
Definition example_map : outcome (HashSetResult * HashMap (K := Z) (V := Z)) :=
  HashMap_set Traits_int_hash key_equals 100 HashTable_default 5 7.

Lemma example_probing (t : HashMap (K := Z) (V := Z)) (m : gmap Z Z) k :
  m_capacity t = 0 \/ m_capacity t = 4 -> grown_capacity t = 4 -> m = ∅ \/ m = {[5 := 7]} -> k = 5 \/ k = 6 ->
  keys_probing Traits_int_hash 100 t m k.
Proof.
  intros Ht Hg Hm Hk k' c Hk' Hc.
  assert (k' = 5 \/ k' = 6) as Hkk.
  { destruct Hk' as [->|[v Hv]]; [done|]. destruct Hm as [-> | ->]; [done|].
    apply lookup_singleton_Some in Hv as [<- _]. by left. }
  assert (c = 0 \/ c = 4) as Hcc by (rewrite Hg in Hc; lia).
  destruct Hkk as [-> | ->], Hcc as [-> | ->]; apply (bool_decide_unpack _); by vm_compute.
Qed.

Lemma HashMap_refines_map_witness :
  exists t, example_map = Ret (InsertedNewEntry, t) /\ map_ok Traits_int_hash t {[5 := 7]} /\
    HashMap_get Traits_int_hash key_equals 100 t 5 = Ret (Some 7) /\
    HashMap_get Traits_int_hash key_equals 100 t 6 = Ret None /\
    exists t', HashMap_remove Traits_int_hash key_equals 100 t 5 = Ret (true, t') /\
      map_ok Traits_int_hash t' (delete 5 {[5 := 7]}).
Proof.
  assert (map_ok (V := Z) Traits_int_hash HashTable_default ∅) as H0.
  { exists []. split; [by left|]. intros k v. rewrite lookup_empty. split; [done | by intros ?%not_elem_of_nil]. }
  destruct (HashMap_refines_map Traits_int_hash 100 HashTable_default ∅ 5 7 100 H0) as ((t & Heq & Hok) & _);
    [by vm_compute | lia | apply example_probing; auto|].
  rewrite lookup_empty in Heq. rewrite insert_empty in Hok. exists t.
  assert (m_capacity t = 4 /\ grown_capacity t = 4) as [Hcap Hg]
    by (vm_compute in Heq; injection Heq as <-; by vm_compute).
  destruct (HashMap_refines_map Traits_int_hash 100 t {[5 := 7]} 5 7 100 Hok) as (_ & Hrem & Hget & _);
    [rewrite Hg; by vm_compute | lia | apply example_probing; auto|].
  destruct (HashMap_refines_map Traits_int_hash 100 t {[5 := 7]} 6 7 100 Hok) as (_ & _ & Hget' & _);
    [rewrite Hg; by vm_compute | lia | apply example_probing; auto|].
  split_and!; [exact Heq | done | exact Hget | exact Hget' | exact Hrem].
Defined.
