(* ===== verification/CircularQueue.v ===== *)
(** * AK/CircularQueue.h, AK/CircularDeque.h and AK/CircularDuplexStream.h

    A queue in an array of fixed capacity: [enqueue] overwrites the oldest element when the
    queue is full.  The storage is a list of slots, [None] for one that was never written;
    destroying an element leaves its bytes in place, as it does for the trivial types the
    stream relies on.  [CircularDuplexStream] is a stream of bytes over such a queue that can
    also look back at bytes already read. *)

From S2P Require Import Prelude Containers.

#[local] Open Scope Z_scope.

Record CircularQueue (T : Type) : Type := MkQueue {
  m_storage : list (option T);
  m_size : Z;
  m_head : Z
}.
Arguments MkQueue {T}.
Arguments m_storage {T}.
Arguments m_size {T}.
Arguments m_head {T}.

Section queue.
Context {T : Type} (Capacity : Z).
Implicit Types q : CircularQueue T.

Definition CircularQueue_new : CircularQueue T := MkQueue (replicate (Z.to_nat Capacity) None) 0 0.

Definition CircularQueue_clear q : CircularQueue T := MkQueue (m_storage q) 0 0.
Definition CircularQueue_is_empty q : bool := m_size q =? 0.
Definition CircularQueue_size q : Z := m_size q.
Definition CircularQueue_head_index q : Z := m_head q.

(** [elements()[i]]. *)
Definition element_at q (i : Z) : outcome T :=
  slot ← load (m_storage q) i;
  match slot with Some x => Ret x | None => Stop Undefined end.

Definition CircularQueue_enqueue q (value : T) : outcome (CircularQueue T) :=
  storage ← store (m_storage q) (wrap size_t (m_head q + m_size q) mod Capacity) (Some value);
  Ret (if m_size q =? Capacity then MkQueue storage (m_size q) (wrap size_t (m_head q + 1) mod Capacity)
       else MkQueue storage (wrap size_t (m_size q + 1)) (m_head q)).

Definition CircularQueue_dequeue q : outcome (T * CircularQueue T) :=
  VERIFY (negb (CircularQueue_is_empty q)) ;;
  value ← element_at q (m_head q);
  Ret (value, MkQueue (m_storage q) (wrap size_t (m_size q - 1)) (wrap size_t (m_head q + 1) mod Capacity)).

Definition CircularQueue_at q (index : Z) : outcome T :=
  element_at q (wrap size_t (m_head q + index) mod Capacity).
Definition CircularQueue_first q : outcome T := CircularQueue_at q 0.
Definition CircularQueue_last q : outcome T := CircularQueue_at q (wrap size_t (m_size q - 1)).

(** *** [ConstIterator] *)

Definition CircularQueue_begin q : Z := m_head q.
Definition CircularQueue_end q : Z := m_size q.
Definition ConstIterator_increment q (index : Z) : Z :=
  let index := wrap size_t (index + 1) mod Capacity in
  if index =? m_head q then m_size q else index.

(** A range-based for loop: the elements it visits. *)
Fixpoint queue_for_each (fuel : nat) q (index : Z) : outcome (list T) :=
  if negb (index =? CircularQueue_end q) then
    match fuel with
    | O => Stop NoFuel
    | S fuel =>
        x ← element_at q index;
        xs ← queue_for_each fuel q (ConstIterator_increment q index);
        Ret (x :: xs)
    end
  else Ret [].

(** *** [CircularDeque] *)

Definition CircularDeque_enqueue_begin q (value : T) : outcome (CircularQueue T) :=
  let new_head := wrap size_t (wrap size_t (m_head q - 1) + Capacity) mod Capacity in
  storage ← store (m_storage q) new_head (Some value);
  Ret (MkQueue storage (if m_size q =? Capacity then m_size q else wrap size_t (m_size q + 1)) new_head).

Definition CircularDeque_dequeue_end q : outcome (T * CircularQueue T) :=
  VERIFY (negb (CircularQueue_is_empty q)) ;;
  value ← element_at q (wrap size_t (wrap size_t (m_head q + m_size q) - 1) mod Capacity);
  Ret (value, MkQueue (m_storage q) (wrap size_t (m_size q - 1)) (m_head q)).

(** ** The queue as a sequence *)

Context (Hcap : 0 < Capacity < 2 ^ 31).

(** The slot of the element number [i]. *)
Definition queue_slot q (i : Z) : nat := Z.to_nat ((m_head q + i) mod Capacity).

Record queue_ok q (xs : list T) : Prop := QueueOk {
  queue_storage : Z.of_nat (length (m_storage q)) = Capacity;
  queue_head : 0 <= m_head q < Capacity;
  queue_size : m_size q = Z.of_nat (length xs);
  queue_room : m_size q <= Capacity;
  queue_elements : forall i x, xs !! i = Some x -> m_storage q !! queue_slot q (Z.of_nat i) = Some (Some x)
}.

Lemma element_at_spec q i x :
  0 <= i -> m_storage q !! Z.to_nat i = Some (Some x) -> element_at q i = Ret x.
Proof. intros Hi Hx. unfold element_at, load. by rewrite (proj2 (Z.leb_le 0 i)), Hx by done. Qed.

Lemma store_slot q i x :
  Z.of_nat (length (m_storage q)) = Capacity ->
  store (m_storage q) (i mod Capacity) (Some x) = Ret (<[Z.to_nat (i mod Capacity) := Some x]> (m_storage q)).
Proof using Hcap.
  intros Hl. pose proof (Z.mod_pos_bound i Capacity ltac:(lia)). unfold store.
  by rewrite (proj2 (Z.leb_le 0 _)), (proj2 (Z.ltb_lt _ _)) by lia.
Qed.

(** Slots of different positions of a full round are different. *)
Lemma slots_differ h i j : 0 <= i < Capacity -> 0 <= j < Capacity -> (h + i) mod Capacity = (h + j) mod Capacity -> i = j.
Proof using Hcap.
  intros Hi Hj He. assert ((i - j) mod Capacity = 0) as Hm.
  { replace (i - j) with ((h + i) - (h + j)) by lia. rewrite Zminus_mod, He, Z.sub_diag. by rewrite Z.mod_0_l by lia. }
  apply Z.mod_divide in Hm as (k & Hk); [|lia].
  assert (k = 0) as -> by (destruct (Z.lt_trichotomy k 0) as [?|[?|?]]; nia). lia.
Qed.

Lemma head_mod h i : ((h + 1) mod Capacity + i) mod Capacity = (h + (i + 1)) mod Capacity.
Proof using Hcap. rewrite Z.add_mod_idemp_l by lia. f_equal. lia. Qed.

(** Writing the slot behind the elements. *)
Lemma write_slot (storage : list (option T)) h n i x :
  Z.of_nat (length storage) = Capacity -> 0 <= i < Capacity -> 0 <= n < Capacity ->
  <[Z.to_nat ((h + n) mod Capacity) := Some x]> storage !! Z.to_nat ((h + i) mod Capacity) =
    if i =? n then Some (Some x) else storage !! Z.to_nat ((h + i) mod Capacity).
Proof using Hcap.
  intros Hl Hi Hn. pose proof (Z.mod_pos_bound (h + n) Capacity ltac:(lia)).
  pose proof (Z.mod_pos_bound (h + i) Capacity ltac:(lia)). destruct (Z.eqb_spec i n) as [->|Hne].
  - apply list_lookup_insert_eq. lia.
  - apply list_lookup_insert_ne. intros He%Z2Nat.inj; [|lia..]. by apply slots_differ in He.
Qed.

Lemma enqueue_spec q xs x :
  queue_ok q xs ->
  exists q', CircularQueue_enqueue q x = Ret q' /\
    queue_ok q' ((if m_size q =? Capacity then tail xs else xs) ++ [x]).
Proof using Hcap.
  intros [Hst Hh Hs Hr Hel]. unfold CircularQueue_enqueue, size_t.
  rewrite (wrap_id u32 eq_refl (m_head q + m_size q)) by int_lia.
  rewrite store_slot by done. run. eexists; split; [done|].
  destruct (Z.eqb_spec (m_size q) Capacity) as [Hfull|Hroom].
  - destruct xs as [|x0 xs]; [cbn in Hs; lia|]. cbn [tail length] in *.
    split; cbn [m_storage m_size m_head]; rewrite ?length_insert, ?length_app; cbn [length]; try lia.
    + apply Z.mod_pos_bound. lia.
    + intros i y Hy. unfold queue_slot in *. cbn [m_head]. rewrite (wrap_id u32 eq_refl (m_head q + 1)) by int_lia.
      replace ((m_head q + m_size q) mod Capacity) with ((m_head q + 0) mod Capacity)
        by (rewrite <- (Z.mod_add (m_head q + 0) 1) by lia; f_equal; lia).
      rewrite head_mod. apply lookup_app_Some in Hy as [Hy|[Hi Hy]].
      * pose proof (lookup_lt_Some _ _ _ Hy). rewrite write_slot by lia.
        destruct (Z.eqb_spec (Z.of_nat i + 1) 0); [lia|].
        replace (Z.of_nat i + 1) with (Z.of_nat (S i)) by lia. by apply Hel.
      * destruct (i - length xs)%nat eqn:E; [|done]. cbn in Hy. injection Hy as ->.
        replace ((m_head q + (Z.of_nat i + 1)) mod Capacity) with ((m_head q + 0) mod Capacity)
          by (rewrite <- (Z.mod_add (m_head q + 0) 1) by lia; f_equal; lia).
        by rewrite write_slot by lia.
  - split; cbn [m_storage m_size m_head]; rewrite ?length_insert, ?length_app; cbn [length]; try done;
      unfold size_t; rewrite ?(wrap_id u32 eq_refl (m_size q + 1)) by int_lia; try lia.
    intros i y Hy. unfold queue_slot in *. cbn [m_head]. apply lookup_app_Some in Hy as [Hy|[Hi Hy]].
    + pose proof (lookup_lt_Some _ _ _ Hy). rewrite write_slot by lia.
      destruct (Z.eqb_spec (Z.of_nat i) (m_size q)); [lia|]. by apply Hel.
    + destruct (i - length xs)%nat eqn:E; [|done]. cbn in Hy. injection Hy as ->.
      rewrite write_slot by lia. by destruct (Z.eqb_spec (Z.of_nat i) (m_size q)); [|lia].
Qed.

Lemma dequeue_spec q xs :
  queue_ok q xs ->
  match xs with
  | [] => CircularQueue_dequeue q = Stop VerifyFailed
  | x :: xs => exists q', CircularQueue_dequeue q = Ret (x, q') /\ queue_ok q' xs /\ m_storage q' = m_storage q
  end.
Proof using Hcap.
  intros [Hst Hh Hs Hr Hel]. unfold CircularQueue_dequeue, CircularQueue_is_empty.
  destruct xs as [|x xs]; cbn [length] in Hs; [by rewrite Hs|].
  rewrite VERIFY_true by (rewrite negb_true_iff; lia). run. rewrite (element_at_spec q (m_head q) x); [|lia|].
  - run. eexists; split; [done|]. split; [|done]. unfold size_t.
    split; cbn [m_storage m_size m_head]; rewrite ?(wrap_id u32 eq_refl (m_size q - 1)) by int_lia; try lia.
    + apply Z.mod_pos_bound. lia.
    + intros i y Hy. unfold queue_slot in *. cbn [m_head]. rewrite (wrap_id u32 eq_refl (m_head q + 1)) by int_lia.
      rewrite head_mod. replace (Z.of_nat i + 1) with (Z.of_nat (S i)) by lia. by apply Hel.
  - specialize (Hel 0%nat x eq_refl). unfold queue_slot in Hel. rewrite Z.add_0_r, Z.mod_small in Hel by lia. done.
Qed.

Lemma at_spec q xs i x :
  queue_ok q xs -> xs !! i = Some x -> CircularQueue_at q (Z.of_nat i) = Ret x.
Proof using Hcap.
  intros [Hst Hh Hs Hr Hel] Hx. pose proof (lookup_lt_Some _ _ _ Hx). unfold CircularQueue_at, size_t.
  rewrite (wrap_id u32 eq_refl (m_head q + Z.of_nat i)) by int_lia.
  apply element_at_spec; [apply Z.mod_pos_bound; lia | by apply Hel].
Qed.

Lemma enqueue_begin_spec q xs x :
  queue_ok q xs ->
  exists q', CircularDeque_enqueue_begin q x = Ret q' /\
    queue_ok q' (x :: if m_size q =? Capacity then take (length xs - 1) xs else xs).
Proof using Hcap.
  intros [Hst Hh Hs Hr Hel]. unfold CircularDeque_enqueue_begin, size_t.
  assert (wrap u32 (wrap u32 (m_head q - 1) + Capacity) = m_head q - 1 + Capacity) as -> by int_lia.
  rewrite store_slot by done. run. eexists; split; [done|].
  set (h := (m_head q - 1 + Capacity) mod Capacity).
  assert (0 <= h < Capacity) as Hh' by (apply Z.mod_pos_bound; lia).
  assert (forall i, (h + (i + 1)) mod Capacity = (m_head q + i) mod Capacity) as Hshift.
  { intros i. unfold h. rewrite Z.add_mod_idemp_l by lia. rewrite <- (Z.mod_add (m_head q + i) 1) by lia. f_equal. lia. }
  split; cbn [m_storage m_size m_head]; rewrite ?length_insert; try done.
  - cbn [length]. destruct (Z.eqb_spec (m_size q) Capacity); [rewrite length_take | wrap_small u32]; lia.
  - destruct (Z.eqb_spec (m_size q) Capacity); [|wrap_small u32]; lia.
  - intros i y Hy. unfold queue_slot in *. cbn [m_head].
    assert (<[Z.to_nat h := Some x]> (m_storage q) = <[Z.to_nat ((h + 0) mod Capacity) := Some x]> (m_storage q)) as ->
      by (by rewrite Z.add_0_r, (Z.mod_small h) by lia).
    destruct i as [|i].
    + injection Hy as ->. by rewrite write_slot by lia.
    + change ((if m_size q =? Capacity then take (length xs - 1) xs else xs) !! i = Some y) in Hy.
      assert (xs !! i = Some y /\ Z.of_nat (S i) < Capacity) as [Hy' Hi].
      { destruct (Z.eqb_spec (m_size q) Capacity); [|pose proof (lookup_lt_Some _ _ _ Hy); split; [done | lia]].
        pose proof (lookup_lt_Some _ _ _ Hy) as Hlt. rewrite length_take in Hlt.
        rewrite lookup_take_lt in Hy by lia. split; [done | lia]. }
      rewrite write_slot by lia. destruct (Z.eqb_spec (Z.of_nat (S i)) 0); [lia|].
      replace (Z.of_nat (S i)) with (Z.of_nat i + 1) by lia. rewrite Hshift. by apply Hel.
Qed.

Lemma dequeue_end_spec q xs :
  queue_ok q xs ->
  match last xs with
  | None => CircularDeque_dequeue_end q = Stop VerifyFailed
  | Some x => exists q', CircularDeque_dequeue_end q = Ret (x, q') /\ queue_ok q' (take (length xs - 1) xs)
  end.
Proof using Hcap.
  intros [Hst Hh Hs Hr Hel]. unfold CircularDeque_dequeue_end, CircularQueue_is_empty.
  destruct xs as [|x xs _] using rev_ind; [by rewrite Hs|]. rewrite last_snoc, length_app in *. cbn [length] in *.
  rewrite VERIFY_true by (rewrite negb_true_iff; lia). run. unfold size_t.
  rewrite !(wrap_id u32 eq_refl) by int_lia. rewrite (element_at_spec q _ x).
  - run. eexists; split; [done|]. replace (length xs + 1 - 1)%nat with (length xs) by lia. rewrite take_app_length.
    split; cbn [m_storage m_size m_head]; try done; try lia.
    intros i y Hy. apply Hel. rewrite lookup_app_l; [done | by eapply lookup_lt_Some].
  - apply Z.mod_pos_bound. lia.
  - specialize (Hel (length xs) x). rewrite list_lookup_middle in Hel by done. specialize (Hel eq_refl).
    unfold queue_slot in Hel. by replace (m_head q + m_size q - 1) with (m_head q + Z.of_nat (length xs)) by lia.
Qed.

(** *** The iterator *)

Lemma queue_for_each_spec q xs i fuel :
  queue_ok q xs -> m_head q = 0 -> (i <= length xs)%nat -> (length xs - i <= fuel)%nat ->
  queue_for_each fuel q (if (i =? length xs)%nat then m_size q else Z.of_nat i) = Ret (drop i xs).
Proof using Hcap.
  intros Hok Hh. revert i. pose proof Hok as [Hst _ Hs Hr Hel].
  induction fuel as [|fuel IH]; intros i Hi Hf; cbn [queue_for_each]; unfold CircularQueue_end;
    destruct (Nat.eqb_spec i (length xs)) as [->|Hne].
  - by rewrite Z.eqb_refl, drop_all.
  - lia.
  - by rewrite Z.eqb_refl, drop_all.
  - destruct (Z.eqb_spec (Z.of_nat i) (m_size q)); [lia|]. cbn [negb].
    destruct (lookup_lt_is_Some_2 xs i) as (x & Hx); [lia|]. rewrite (element_at_spec q (Z.of_nat i) x); [|lia|].
    + run. rewrite (drop_S xs x i Hx).
      assert (ConstIterator_increment q (Z.of_nat i) =
        if (S i =? length xs)%nat then m_size q else Z.of_nat (S i)) as ->.
      { unfold ConstIterator_increment, size_t. rewrite (wrap_id u32 eq_refl) by int_lia. rewrite Hh.
        destruct (decide (Z.of_nat i + 1 = Capacity)) as [He|].
        - rewrite He, Z.mod_same by lia. rewrite Z.eqb_refl. destruct (Nat.eqb_spec (S i) (length xs)); [done | lia].
        - rewrite Z.mod_small by lia. destruct (Z.eqb_spec (Z.of_nat i + 1) 0); [lia|].
          destruct (Nat.eqb_spec (S i) (length xs)); lia. }
      rewrite IH by lia. done.
    + specialize (Hel i x Hx). unfold queue_slot in Hel. rewrite Hh, Z.add_0_l, Z.mod_small in Hel by lia. done.
Qed.

End queue.

(** ** Properties of the queues *)

Lemma new_queue_ok {T} Capacity : 0 < Capacity < 2 ^ 31 -> queue_ok (T := T) Capacity (CircularQueue_new Capacity) [].
Proof.
  intros Hc. split; cbn [m_storage m_size m_head CircularQueue_new]; rewrite ?length_replicate; try done; try lia.
Qed.

(** C29. A circular queue is a sequence: [enqueue] appends and drops the oldest element of
    a full queue, [enqueue_begin] prepends and drops the newest, [dequeue] and
    [dequeue_end] take the ends and fail their [VERIFY] exactly on an empty queue, and
    [clear] leaves none. [at] gives the element of an index below the size, and [first]
    and [last] those at the ends of a queue that is not empty; these three have no
    [VERIFY], and nothing is said of other indices and the empty queue. *)
Theorem CircularQueue_refines_sequence {T} Capacity (q : CircularQueue T) xs x :
  0 < Capacity < 2 ^ 31 -> queue_ok Capacity q xs ->
  let full := Z.of_nat (length xs) =? Capacity in
  (exists q', CircularQueue_enqueue Capacity q x = Ret q' /\
    queue_ok Capacity q' ((if full then tail xs else xs) ++ [x])) /\
  (exists q', CircularDeque_enqueue_begin Capacity q x = Ret q' /\
    queue_ok Capacity q' (x :: if full then take (length xs - 1) xs else xs)) /\
  match xs with
  | [] => CircularQueue_dequeue Capacity q = Stop VerifyFailed
  | y :: ys => exists q', CircularQueue_dequeue Capacity q = Ret (y, q') /\ queue_ok Capacity q' ys
  end /\
  match last xs with
  | None => CircularDeque_dequeue_end Capacity q = Stop VerifyFailed
  | Some y => exists q', CircularDeque_dequeue_end Capacity q = Ret (y, q') /\
      queue_ok Capacity q' (take (length xs - 1) xs)
  end /\
  (forall i y, xs !! i = Some y -> CircularQueue_at Capacity q (Z.of_nat i) = Ret y) /\
  (forall y, head xs = Some y -> CircularQueue_first Capacity q = Ret y) /\
  (forall y, last xs = Some y -> CircularQueue_last Capacity q = Ret y) /\
  queue_ok Capacity (CircularQueue_clear q) [].
Proof.
  intros Hc Hok. pose proof Hok as [Hst Hh Hs Hr Hel]. rewrite <- Hs. cbv zeta.
  split_and!.
  - by apply enqueue_spec.
  - by apply enqueue_begin_spec.
  - pose proof (dequeue_spec Capacity Hc q xs Hok) as Hd. destruct xs; [done|].
    destruct Hd as (q' & ? & ? & _). by exists q'.
  - by apply dequeue_end_spec.
  - intros i y. by apply at_spec.
  - intros y Hy. apply (at_spec Capacity Hc q xs 0 y Hok). by destruct xs.
  - intros y Hy. unfold CircularQueue_last, size_t. rewrite last_lookup in Hy. pose proof (lookup_lt_Some _ _ _ Hy).
    rewrite (wrap_id u32 eq_refl) by (rewrite in_type_u32; lia).
    replace (m_size q - 1) with (Z.of_nat (pred (length xs))) by lia. by apply (at_spec Capacity Hc q xs).
  - split; cbn [m_storage m_size m_head CircularQueue_clear]; try done; try lia.
Qed.

(** A queue of three in use that has wrapped around. *)
Definition example_circular_queue : CircularQueue Z := MkQueue [Some 5; Some 2; Some 3; Some 4] 3 2.

Lemma example_queue_ok : queue_ok 4 example_circular_queue [3; 4; 5].
Proof.
  split; cbn; try done; try lia.
  intros i x Hx. do 3 (destruct i as [|i]; [by injection Hx as <-|]). done.
Qed.

Lemma CircularQueue_refines_sequence_witness :
  (exists q', CircularQueue_enqueue 4 example_circular_queue 6 = Ret q' /\ queue_ok 4 q' ([3; 4; 5] ++ [6])) /\
  (exists q', CircularQueue_dequeue 4 example_circular_queue = Ret (3, q') /\ queue_ok 4 q' [4; 5]) /\
  exists q', CircularDeque_dequeue_end 4 example_circular_queue = Ret (5, q') /\ queue_ok 4 q' (take 2 [3; 4; 5]).
Proof.
  destruct (CircularQueue_refines_sequence 4 example_circular_queue [3; 4; 5] 6) as (H1 & _ & H2 & H3 & _);
    [lia | exact example_queue_ok|]. split_and!; [exact H1 | exact H2 | exact H3].
Defined.

(** Iterating over a queue whose head is the first slot visits its elements in order.
    Otherwise the iterator stops at the slot whose number is the size: in
    [example_circular_queue] it stops after the first of three elements, and in a queue of one
    element it goes on through slots that hold no element. *)
Theorem CircularQueue_iteration :
  (forall T Capacity (q : CircularQueue T) xs, 0 < Capacity < 2 ^ 31 -> queue_ok Capacity q xs -> m_head q = 0 ->
    queue_for_each Capacity (length xs) q (CircularQueue_begin q) = Ret xs) /\
  queue_for_each 4 10 example_circular_queue (CircularQueue_begin example_circular_queue) = Ret [3] /\
  let q := MkQueue [Some 1; Some 2; Some 3; None] 1 2 in
  queue_ok 4 q [3] /\ queue_for_each 4 10 q (CircularQueue_begin q) = Stop Undefined.
Proof.
  split; [|split; [|cbv zeta; split]].
  - intros T Capacity q xs Hc Hok Hh. pose proof (queue_for_each_spec Capacity Hc q xs 0 (length xs) Hok Hh) as H.
    rewrite drop_0 in H. rewrite <- H by lia. unfold CircularQueue_begin. rewrite Hh. f_equal.
    pose proof (queue_size _ _ _ Hok) as Hs. by destruct xs.
  - by vm_compute.
  - split; cbn; try done; try lia. intros i x Hx. by destruct i as [|i]; [injection Hx as <-|].
  - by vm_compute.
Qed.

(** ** CircularDuplexStream *)

(** The stream with the error flags of [AK::Stream]. *)
Record CircularDuplexStream : Type := MkStream {
  m_queue : CircularQueue Z;
  m_total_written : Z;
  m_recoverable_error : bool;
  m_fatal_error : bool
}.

Section stream.
Context (Capacity : Z).

Definition DuplexStream_new : CircularDuplexStream := MkStream (CircularQueue_new Capacity) 0 false false.
Definition has_any_error (s : CircularDuplexStream) : bool := m_recoverable_error s || m_fatal_error s.
Definition set_recoverable_error (s : CircularDuplexStream) : CircularDuplexStream :=
  MkStream (m_queue s) (m_total_written s) true (m_fatal_error s).

Fixpoint enqueue_bytes (q : CircularQueue Z) (bytes : list Z) : outcome (CircularQueue Z) :=
  match bytes with
  | [] => Ret q
  | byte :: bytes => q ← CircularQueue_enqueue Capacity q byte; enqueue_bytes q bytes
  end.

Fixpoint dequeue_bytes (q : CircularQueue Z) (n : nat) : outcome (list Z * CircularQueue Z) :=
  match n with
  | O => Ret ([], q)
  | S n =>
      '(byte, q) ← CircularQueue_dequeue Capacity q;
      '(bytes, q) ← dequeue_bytes q n;
      Ret (byte :: bytes, q)
  end.

Definition DuplexStream_write (s : CircularDuplexStream) (bytes : list Z) : outcome (Z * CircularDuplexStream) :=
  let nwritten := Z.min (Z.of_nat (length bytes)) (wrap size_t (Capacity - m_size (m_queue s))) in
  q ← enqueue_bytes (m_queue s) (take (Z.to_nat nwritten) bytes);
  Ret (nwritten, MkStream q (wrap size_t (m_total_written s + nwritten)) (m_recoverable_error s) (m_fatal_error s)).

Definition DuplexStream_write_or_error (s : CircularDuplexStream) (bytes : list Z)
    : outcome (bool * CircularDuplexStream) :=
  if wrap size_t (Capacity - m_size (m_queue s)) <? Z.of_nat (length bytes) then Ret (false, set_recoverable_error s)
  else
    '(nwritten, s) ← DuplexStream_write s bytes;
    VERIFY (nwritten =? Z.of_nat (length bytes)) ;;
    Ret (true, s).

(** [read(bytes)] into a buffer of [count] bytes: the bytes it got. *)
Definition DuplexStream_read (s : CircularDuplexStream) (count : Z) : outcome (list Z * CircularDuplexStream) :=
  if has_any_error s then Ret ([], s)
  else
    let nread := Z.min count (m_size (m_queue s)) in
    '(bytes, q) ← dequeue_bytes (m_queue s) (Z.to_nat nread);
    Ret (bytes, MkStream q (m_total_written s) (m_recoverable_error s) (m_fatal_error s)).

(** The loop of [read(bytes, seekback)] over the storage. *)
Fixpoint read_back (s : CircularDuplexStream) (seekback : Z) (n : nat) (idx : Z) : outcome (list Z) :=
  match n with
  | O => Ret []
  | S n =>
      byte ← element_at (m_queue s) (wrap size_t (m_total_written s - seekback + idx) mod Capacity);
      bytes ← read_back s seekback n (idx + 1);
      Ret (byte :: bytes)
  end.

Definition DuplexStream_read_seekback (s : CircularDuplexStream) (count seekback : Z)
    : outcome (list Z * CircularDuplexStream) :=
  if (Capacity <? seekback) || (m_total_written s <? seekback) then Ret ([], set_recoverable_error s)
  else
    let nread := Z.min count seekback in
    bytes ← read_back s seekback (Z.to_nat nread) 0;
    Ret (bytes, s).

Definition DuplexStream_read_or_error (s : CircularDuplexStream) (count : Z)
    : outcome (option (list Z) * CircularDuplexStream) :=
  if m_size (m_queue s) <? count then Ret (None, set_recoverable_error s)
  else '(bytes, s) ← DuplexStream_read s count; Ret (Some bytes, s).

Definition DuplexStream_discard_or_error (s : CircularDuplexStream) (count : Z)
    : outcome (bool * CircularDuplexStream) :=
  if m_size (m_queue s) <? count then Ret (false, set_recoverable_error s)
  else
    '(_, q) ← dequeue_bytes (m_queue s) (Z.to_nat count);
    Ret (true, MkStream q (m_total_written s) (m_recoverable_error s) (m_fatal_error s)).

Definition DuplexStream_eof (s : CircularDuplexStream) : bool := m_size (m_queue s) =? 0.

Definition remaining_contigous_space (s : CircularDuplexStream) : Z :=
  Z.min (wrap size_t (Capacity - m_size (m_queue s)))
    (wrap size_t (Capacity - wrap size_t (m_head (m_queue s) + m_size (m_queue s)) mod Capacity)).

(** The offset of the reserved bytes in the storage. *)
Definition reserve_contigous_space (s : CircularDuplexStream) (count : Z) : outcome (Z * CircularDuplexStream) :=
  VERIFY (count <=? remaining_contigous_space s) ;;
  let q := m_queue s in
  Ret (wrap size_t (m_head q + m_size q) mod Capacity,
       MkStream (MkQueue (m_storage q) (wrap size_t (m_size q + count)) (m_head q))
         (wrap size_t (m_total_written s + count)) (m_recoverable_error s) (m_fatal_error s)).

(** *** The stream and its history *)

Context (Hcap : 0 < Capacity < 2 ^ 31).

(** [history] are all bytes written, [unread] the last of them that were not read.  The storage
    still has the last [Capacity] bytes of the history. *)
Record history_ok (q : CircularQueue Z) (history unread : list Z) : Prop := HistoryOk {
  hist_queue : queue_ok Capacity q unread;
  hist_suffix : exists read, history = read ++ unread;
  hist_end : (m_head q + m_size q) mod Capacity = Z.of_nat (length history) mod Capacity;
  hist_back : forall j x, history !! j = Some x -> Z.of_nat (length history) - Capacity <= Z.of_nat j ->
    m_storage q !! Z.to_nat (Z.of_nat j mod Capacity) = Some (Some x)
}.

Definition stream_ok (s : CircularDuplexStream) (history unread : list Z) : Prop :=
  history_ok (m_queue s) history unread /\ m_total_written s = Z.of_nat (length history).

Lemma enqueue_history q history unread x :
  history_ok q history unread -> m_size q < Capacity ->
  exists q', CircularQueue_enqueue Capacity q x = Ret q' /\ m_size q' = m_size q + 1 /\
    history_ok q' (history ++ [x]) (unread ++ [x]).
Proof using Hcap.
  intros [Hq (read & Hsuf) Hend Hback] Hroom.
  destruct (enqueue_spec Capacity Hcap q unread x Hq) as (q' & Heq & Hq').
  exists q'. split; [done|]. pose proof Hq as [Hst Hh Hs Hr _].
  destruct (Z.eqb_spec (m_size q) Capacity); [lia|].
  unfold CircularQueue_enqueue, size_t in Heq. rewrite (wrap_id u32 eq_refl (m_head q + m_size q)) in Heq by int_lia.
  rewrite (store_slot Capacity Hcap q _ x Hst) in Heq. run in Heq.
  rewrite (proj2 (Z.eqb_neq (m_size q) Capacity)), (wrap_id u32 eq_refl (m_size q + 1)) in Heq by int_lia.
  injection Heq as <-. cbn [m_size]. split; [done|]. split; [done | | |].
  - exists read. by rewrite Hsuf, app_assoc.
  - cbn [m_head m_size]. rewrite length_app. cbn [length].
    rewrite Z.add_assoc, <- Z.add_mod_idemp_l, Hend, Z.add_mod_idemp_l by lia. f_equal. lia.
  - cbn [m_storage]. rewrite Hend, length_app. cbn [length]. intros j y Hy Hj.
    pose proof (lookup_lt_Some _ _ _ Hy) as Hlt. rewrite length_app in Hlt. cbn [length] in Hlt.
    replace (Z.of_nat (length history)) with (Z.of_nat j + (Z.of_nat (length history) - Z.of_nat j)) by lia.
    replace (Z.of_nat j mod Capacity) with ((Z.of_nat j + 0) mod Capacity) by (f_equal; lia).
    rewrite (write_slot Capacity Hcap) by lia. destruct (Z.eqb_spec 0 (Z.of_nat (length history) - Z.of_nat j)) as [He|Hne].
    + apply lookup_app_Some in Hy as [Hy|[_ Hy]]; [apply lookup_lt_Some in Hy; lia|].
      by replace (j - length history)%nat with 0%nat in Hy by lia; injection Hy as ->.
    + rewrite Z.add_0_r. apply lookup_app_Some in Hy as [Hy|[? _]]; [|lia]. apply Hback; [done | lia].
Qed.

Lemma enqueue_bytes_spec q history unread bytes :
  history_ok q history unread -> m_size q + Z.of_nat (length bytes) <= Capacity ->
  exists q', enqueue_bytes q bytes = Ret q' /\ history_ok q' (history ++ bytes) (unread ++ bytes).
Proof using Hcap.
  revert q history unread. induction bytes as [|x bytes IH]; intros q history unread Hq Hroom; cbn [enqueue_bytes].
  { exists q. by rewrite !app_nil_r. }
  cbn [length] in Hroom. destruct (enqueue_history q history unread x Hq) as (q' & -> & Hs & Hq'); [lia|]. run.
  destruct (IH q' _ _ Hq') as (q'' & -> & Hq''); [lia|]. exists q''. split; [done|]. by rewrite <- !app_assoc in Hq''.
Qed.

Lemma dequeue_history q history x unread :
  history_ok q history (x :: unread) ->
  exists q', CircularQueue_dequeue Capacity q = Ret (x, q') /\ history_ok q' history unread.
Proof using Hcap.
  intros [Hq (read & Hsuf) Hend Hback]. pose proof (dequeue_spec Capacity Hcap q _ Hq) as (q' & Heq & Hq' & Hst).
  pose proof Hq as [_ Hh Hs Hr _]. cbn [length] in Hs. exists q'. split; [done|].
  unfold CircularQueue_dequeue in Heq. destruct (VERIFY _); run in Heq; [|done].
  destruct (element_at q (m_head q)); run in Heq; [|done]. injection Heq as -> <-. cbn [m_storage] in Hst.
  split; [done | | | done].
  - exists (read ++ [x]). by rewrite Hsuf, <- app_assoc.
  - cbn [m_head m_size]. unfold size_t. rewrite !(wrap_id u32 eq_refl) by int_lia.
    rewrite Z.add_mod_idemp_l, <- Hend by lia. f_equal. lia.
Qed.

Lemma dequeue_bytes_spec q history unread n :
  history_ok q history unread -> (n <= length unread)%nat ->
  exists q', dequeue_bytes q n = Ret (take n unread, q') /\ history_ok q' history (drop n unread).
Proof using Hcap.
  revert q unread. induction n as [|n IH]; intros q unread Hq Hn; cbn [dequeue_bytes].
  { exists q. by rewrite drop_0. }
  destruct unread as [|x unread]; [cbn in Hn; lia|]. cbn [length] in Hn.
  destruct (dequeue_history q history x unread Hq) as (q' & -> & Hq'). run.
  destruct (IH q' unread Hq') as (q'' & -> & Hq''); [lia|]. run. by exists q''.
Qed.

Lemma read_back_spec s history unread seekback n idx :
  stream_ok s history unread -> 0 <= seekback <= Capacity -> seekback <= Z.of_nat (length history) ->
  Z.of_nat (length history) < 2 ^ 32 -> 0 <= idx -> idx + Z.of_nat n <= seekback ->
  read_back s seekback n idx =
    Ret (take n (drop (Z.to_nat (Z.of_nat (length history) - seekback + idx)) history)).
Proof using Hcap.
  intros [[_ _ _ Hback] Htot] Hsb Hlen Hw. revert idx. induction n as [|n IH]; intros idx Hidx Hn; cbn [read_back]; [done|].
  destruct (lookup_lt_is_Some_2 history (Z.to_nat (Z.of_nat (length history) - seekback + idx))) as (x & Hx); [lia|].
  rewrite Htot. unfold size_t. rewrite (wrap_id u32 eq_refl) by int_lia.
  rewrite (element_at_spec _ _ x).
  - run. rewrite IH by lia. run. rewrite (drop_S _ _ _ Hx). cbn [take].
    by replace (Z.to_nat (Z.of_nat (length history) - seekback + (idx + 1)))
      with (S (Z.to_nat (Z.of_nat (length history) - seekback + idx))) by lia.
  - apply Z.mod_pos_bound. lia.
  - specialize (Hback _ _ Hx). rewrite Z2Nat.id in Hback by lia. apply Hback. lia.
Qed.

End stream.

(** A [CircularDuplexStream] is a queue of bytes with a memory of the last [Capacity] bytes
    written.  [write] appends as many bytes as there is room for, [read] takes the oldest
    unread bytes (none after an error), [discard_or_error] drops them, and
    [read(bytes, seekback)] gives bytes again that were written [seekback] bytes ago,
    whether they were read or not. *)
Theorem CircularDuplexStream_correct Capacity s history unread :
  0 < Capacity < 2 ^ 31 -> stream_ok Capacity s history unread ->
  (forall bytes, Z.of_nat (length history) + Z.of_nat (length bytes) < 2 ^ 32 ->
    let n := Z.min (Z.of_nat (length bytes)) (Capacity - Z.of_nat (length unread)) in
    exists s', DuplexStream_write Capacity s bytes = Ret (n, s') /\
      stream_ok Capacity s' (history ++ take (Z.to_nat n) bytes) (unread ++ take (Z.to_nat n) bytes)) /\
  (forall count, 0 <= count -> has_any_error s = false ->
    exists s', DuplexStream_read Capacity s count = Ret (take (Z.to_nat count) unread, s') /\
      stream_ok Capacity s' history (drop (Z.to_nat count) unread)) /\
  (forall count, 0 <= count ->
    exists s', DuplexStream_discard_or_error Capacity s count =
        Ret (count <=? Z.of_nat (length unread), s') /\
      stream_ok Capacity s' history (if count <=? Z.of_nat (length unread) then drop (Z.to_nat count) unread else unread)) /\
  (forall count seekback, 0 <= count -> 0 <= seekback -> Z.of_nat (length history) < 2 ^ 32 ->
    DuplexStream_read_seekback Capacity s count seekback =
      if (Capacity <? seekback) || (Z.of_nat (length history) <? seekback) then Ret ([], set_recoverable_error s)
      else Ret (take (Z.to_nat (Z.min count seekback)) (drop (length history - Z.to_nat seekback) history), s)).
Proof.
  intros Hc Hok. pose proof Hok as [Hh Htot]. pose proof Hh as [Hq (read & Hsuf) _ _].
  pose proof Hq as [_ _ Hs Hr _]. split; [|split; [|split]].
  - intros bytes Hw n. unfold DuplexStream_write, size_t. rewrite (wrap_id u32 eq_refl (Capacity - _)) by int_lia.
    rewrite Hs. fold n.
    destruct (enqueue_bytes_spec Capacity Hc (m_queue s) history unread (take (Z.to_nat n) bytes) Hh) as (q' & -> & Hq');
      [rewrite length_take; lia|].
    run. eexists; split; [done|]. split; [done|]. cbn [m_total_written]. rewrite (wrap_id u32 eq_refl) by int_lia.
    rewrite length_app, length_take. lia.
  - intros count Hcount Herr. unfold DuplexStream_read. rewrite Herr.
    destruct (dequeue_bytes_spec Capacity Hc (m_queue s) history unread (Z.to_nat (Z.min count (m_size (m_queue s)))) Hh)
      as (q' & -> & Hq'); [lia|]. run.
    assert (take (Z.to_nat (Z.min count (m_size (m_queue s)))) unread = take (Z.to_nat count) unread /\
            drop (Z.to_nat (Z.min count (m_size (m_queue s)))) unread = drop (Z.to_nat count) unread) as [Ht Hd].
    { destruct (Z.le_gt_cases count (m_size (m_queue s))); [by rewrite Z.min_l|].
      rewrite Z.min_r by lia. rewrite !take_ge, !drop_ge by lia. done. }
    rewrite Ht. rewrite Hd in Hq'. eexists; split; [done|]. by split.
  - intros count Hcount. unfold DuplexStream_discard_or_error. rewrite Hs.
    destruct (Z.ltb_spec (Z.of_nat (length unread)) count), (Z.leb_spec count (Z.of_nat (length unread))); try lia.
    + eexists; split; [done|]. by split.
    + destruct (dequeue_bytes_spec Capacity Hc (m_queue s) history unread (Z.to_nat count) Hh) as (q' & -> & Hq'); [lia|].
      run. eexists; split; [done|]. by split.
  - intros count seekback Hcount Hsb Hw. unfold DuplexStream_read_seekback. rewrite Htot.
    destruct (Z.ltb_spec Capacity seekback), (Z.ltb_spec (Z.of_nat (length history)) seekback); cbn [orb]; try done.
    rewrite (read_back_spec Capacity Hc s history unread) by (done || lia). run.
    replace (Z.to_nat (Z.of_nat (length history) - seekback + 0)) with (length history - Z.to_nat seekback)%nat by lia.
    done.
Qed.

Lemma CircularDuplexStream_correct_witness :
  exists s s', DuplexStream_write 8 (DuplexStream_new 8) [1; 2; 3; 4; 5; 6] = Ret (6, s) /\
    DuplexStream_read 8 s 4 = Ret ([1; 2; 3; 4], s') /\
    DuplexStream_read_seekback 8 s' 3 5 = Ret ([2; 3; 4], s') /\ DuplexStream_read_seekback 8 s' 3 7 = Ret ([], set_recoverable_error s').
Proof.
  assert (stream_ok 8 (DuplexStream_new 8) [] []) as H0.
  { split; [|done]. split; [apply (new_queue_ok 8); lia | by exists [] | done | done]. }
  destruct (CircularDuplexStream_correct 8 (DuplexStream_new 8) [] [] ltac:(lia) H0) as (Hw & _).
  destruct (Hw [1; 2; 3; 4; 5; 6]) as (s & Heq & Hs); [by vm_compute|].
  change (stream_ok 8 s [1; 2; 3; 4; 5; 6] [1; 2; 3; 4; 5; 6]) in Hs.
  destruct (CircularDuplexStream_correct 8 s _ _ ltac:(lia) Hs) as (_ & Hr & _).
  destruct (Hr 4) as (s' & Heq' & Hs'); [lia | vm_compute in Heq; by injection Heq as <- |].
  destruct (CircularDuplexStream_correct 8 s' _ _ ltac:(lia) Hs') as (_ & _ & _ & Hback).
  exists s, s'. split; [exact Heq|]. split; [exact Heq'|].
  split; [exact (Hback 3 5 ltac:(lia) ltac:(lia) eq_refl) | exact (Hback 3 7 ltac:(lia) ltac:(lia) eq_refl)].
Defined.
