(* ===== verification/DoubleBuffer.v ===== *)
(** * Kernel/DoubleBuffer: the buffer of pipes, terminals and sockets

    Two halves of one storage: writers append to one, readers take from the other, and the
    halves change their roles when the reader has taken everything.  The storage is the list
    of its bytes (empty if it could not be allocated).  Buffers of user space may fault: a
    [UserBuffer] has the bytes and says which accesses fault, and after how many bytes.  The
    functions run under [m_lock] and are atomic here; calling the unblock callback is a flag
    of the result. *)

From S2P Require Import Prelude.

#[local] Open Scope Z_scope.

Record DoubleBuffer : Type := MkDB {
  m_storage : list Z;
  m_write_is_1 : bool;
  m_size1 : Z;
  m_size2 : Z;
  m_capacity : Z;
  m_read_buffer_index : Z;
  m_space_for_writing : Z;
  m_empty : bool;
  m_unblock_callback : bool
}.

(** The offsets and sizes of the buffers [m_write_buffer] and [m_read_buffer] point at. *)
Definition write_offset (b : DoubleBuffer) : Z := if m_write_is_1 b then 0 else m_capacity b.
Definition read_offset (b : DoubleBuffer) : Z := if m_write_is_1 b then m_capacity b else 0.
Definition write_size (b : DoubleBuffer) : Z := if m_write_is_1 b then m_size1 b else m_size2 b.
Definition read_size (b : DoubleBuffer) : Z := if m_write_is_1 b then m_size2 b else m_size1 b.

Definition EFAULT : Z := 14.

(** A buffer; copying [n] bytes from or to it faults after [u_fault n] of them, if that is
    not [None] (a null pointer and a range that is not user memory fault before the first). *)
Record UserBuffer : Type := MkUser { u_bytes : list Z; u_fault : nat -> option nat }.

(** Copying [n] bytes: how many are copied, and whether the copy succeeds. *)
Definition user_copy (u : UserBuffer) (n : nat) : nat * bool :=
  match u_fault u n with Some k => (k `min` n, false)%nat | None => (n, true) end.

(** The storage with bytes written at an offset. *)
Definition copy_to (storage : list Z) (offset : Z) (bytes : list Z) : outcome (list Z) :=
  if (0 <=? offset) && (offset + Z.of_nat (length bytes) <=? Z.of_nat (length storage))
  then Ret (take (Z.to_nat offset) storage ++ bytes ++ drop (Z.to_nat offset + length bytes) storage)
  else Stop OutOfBounds.

Definition copy_from (storage : list Z) (offset : Z) (n : Z) : outcome (list Z) :=
  if (0 <=? offset) && (offset + n <=? Z.of_nat (length storage))
  then Ret (take (Z.to_nat n) (drop (Z.to_nat offset) storage))
  else Stop OutOfBounds.

Definition compute_lockfree_metadata (b : DoubleBuffer) : DoubleBuffer :=
  MkDB (m_storage b) (m_write_is_1 b) (m_size1 b) (m_size2 b) (m_capacity b) (m_read_buffer_index b)
    (wrap size_t (m_capacity b - write_size b))
    ((read_size b <=? m_read_buffer_index b) && (write_size b =? 0)) (m_unblock_callback b).

(** The constructor; [storage] is what [KBuffer::create_with_size] gives. *)
Definition DoubleBuffer_new (storage : list Z) (capacity : Z) : DoubleBuffer :=
  MkDB storage true 0 0 capacity 0 capacity true false.

Definition DoubleBuffer_is_empty (b : DoubleBuffer) : bool := m_empty b.
Definition DoubleBuffer_space_for_writing (b : DoubleBuffer) : Z := m_space_for_writing b.

Definition DoubleBuffer_set_unblock_callback (b : DoubleBuffer) : outcome DoubleBuffer :=
  VERIFY (negb (m_unblock_callback b)) ;;
  Ret (MkDB (m_storage b) (m_write_is_1 b) (m_size1 b) (m_size2 b) (m_capacity b) (m_read_buffer_index b)
         (m_space_for_writing b) (m_empty b) true).

Definition storage_is_null (b : DoubleBuffer) : bool := bool_decide (m_storage b = []).

Definition DoubleBuffer_flip (b : DoubleBuffer) : outcome DoubleBuffer :=
  if storage_is_null b then Ret b
  else
    VERIFY (m_read_buffer_index b =? read_size b) ;;
    let write_is_1 := negb (m_write_is_1 b) in
    let size1 := if write_is_1 then 0 else m_size1 b in
    let size2 := if write_is_1 then m_size2 b else 0 in
    Ret (compute_lockfree_metadata
           (MkDB (m_storage b) write_is_1 size1 size2 (m_capacity b) 0
              (m_space_for_writing b) (m_empty b) (m_unblock_callback b))).

(** The result, whether the callback is called, and the buffer. *)
Definition DoubleBuffer_write (b : DoubleBuffer) (data : UserBuffer) (size : Z)
    : outcome (Z * bool * DoubleBuffer) :=
  if (size =? 0) || storage_is_null b then Ret (0, false, b)
  else
    let bytes_to_write := Z.min size (m_space_for_writing b) in
    let write_ptr := write_offset b + write_size b in
    let new_size := wrap size_t (write_size b + bytes_to_write) in
    let b := compute_lockfree_metadata
      (MkDB (m_storage b) (m_write_is_1 b) (if m_write_is_1 b then new_size else m_size1 b)
         (if m_write_is_1 b then m_size2 b else new_size) (m_capacity b) (m_read_buffer_index b)
         (m_space_for_writing b) (m_empty b) (m_unblock_callback b)) in
    let '(copied, ok) := user_copy data (Z.to_nat bytes_to_write) in
    storage ← copy_to (m_storage b) write_ptr (take copied (u_bytes data));
    let b := MkDB storage (m_write_is_1 b) (m_size1 b) (m_size2 b) (m_capacity b) (m_read_buffer_index b)
               (m_space_for_writing b) (m_empty b) (m_unblock_callback b) in
    if negb ok then Ret (- EFAULT, false, b)
    else Ret (bytes_to_write, m_unblock_callback b && negb (m_empty b), b).

(** The result, the bytes the reader got, whether the callback is called, and the buffer. *)
Definition DoubleBuffer_read (b : DoubleBuffer) (data : UserBuffer) (size : Z)
    : outcome (Z * list Z * bool * DoubleBuffer) :=
  if (size =? 0) || storage_is_null b then Ret (0, [], false, b)
  else
    b ← (if (read_size b <=? m_read_buffer_index b) && negb (write_size b =? 0) then DoubleBuffer_flip b else Ret b);
    if read_size b <=? m_read_buffer_index b then Ret (0, [], false, b)
    else
      let nread := Z.min (wrap size_t (read_size b - m_read_buffer_index b)) size in
      bytes ← copy_from (m_storage b) (read_offset b + m_read_buffer_index b) nread;
      let '(copied, ok) := user_copy data (Z.to_nat nread) in
      if negb ok then Ret (- EFAULT, take copied bytes, false, b)
      else
        let b := compute_lockfree_metadata
          (MkDB (m_storage b) (m_write_is_1 b) (m_size1 b) (m_size2 b) (m_capacity b)
             (wrap size_t (m_read_buffer_index b + nread)) (m_space_for_writing b) (m_empty b)
             (m_unblock_callback b)) in
        Ret (nread, bytes, m_unblock_callback b && (0 <? m_space_for_writing b), b).

(** ** The buffer as a queue of bytes *)

(** The bytes [xs] are in the storage from [offset] on. *)
Definition stored (storage : list Z) (offset : Z) (xs : list Z) : Prop :=
  forall i x, xs !! i = Some x -> storage !! (Z.to_nat offset + i)%nat = Some x.

(** [xs] are the bytes left in the read buffer, [ys] those in the write buffer. *)
Record layout_ok (b : DoubleBuffer) (xs ys : list Z) : Prop := LayoutOk {
  buf_capacity : 0 < m_capacity b < 2 ^ 30;
  buf_storage : Z.of_nat (length (m_storage b)) = 2 * m_capacity b;
  buf_write_size : write_size b = Z.of_nat (length ys);
  buf_write_room : write_size b <= m_capacity b;
  buf_read_index : 0 <= m_read_buffer_index b;
  buf_read_room : read_size b <= m_capacity b;
  buf_read_size : read_size b - m_read_buffer_index b = Z.of_nat (length xs);
  buf_read : stored (m_storage b) (read_offset b + m_read_buffer_index b) xs;
  buf_write : stored (m_storage b) (write_offset b) ys
}.

Record buffer_ok (b : DoubleBuffer) (xs ys : list Z) : Prop := BufferOk {
  buf_layout : layout_ok b xs ys;
  buf_space : m_space_for_writing b = m_capacity b - Z.of_nat (length ys);
  buf_empty : m_empty b = bool_decide (xs ++ ys = [])
}.

Lemma stored_take storage offset xs n :
  0 <= offset -> stored storage offset xs -> (n <= length xs)%nat ->
  take n (drop (Z.to_nat offset) storage) = take n xs.
Proof.
  intros Ho Hs Hn. apply list_eq. intros i. destruct (decide (i < n)%nat) as [Hi|Hi].
  - rewrite !lookup_take_lt, lookup_drop by done. destruct (lookup_lt_is_Some_2 xs i) as (x & Hx); [lia|].
    by rewrite Hx, (Hs i x Hx).
  - by rewrite !lookup_take_ge by lia.
Qed.

Lemma stored_drop storage offset xs n :
  0 <= offset -> stored storage offset xs -> stored storage (offset + Z.of_nat n) (drop n xs).
Proof.
  intros Ho Hs i x Hx. rewrite lookup_drop in Hx. rewrite <- (Hs _ _ Hx). f_equal. lia.
Qed.

(** Writing behind stored bytes, and elsewhere. *)
Lemma copy_to_spec storage offset bytes :
  0 <= offset -> offset + Z.of_nat (length bytes) <= Z.of_nat (length storage) ->
  exists storage', copy_to storage offset bytes = Ret storage' /\ length storage' = length storage /\
    forall i, storage' !! i =
      if decide (Z.to_nat offset <= i < Z.to_nat offset + length bytes)%nat
      then bytes !! (i - Z.to_nat offset)%nat else storage !! i.
Proof.
  intros Ho Hr. unfold copy_to. rewrite (proj2 (andb_true_iff _ _)) by lia. eexists; split; [done|].
  split; [rewrite !length_app, length_take, length_drop; lia|]. intros i.
  destruct (decide (i < Z.to_nat offset)%nat) as [Hlt|Hge].
  - rewrite lookup_app_l, lookup_take_lt by (rewrite ?length_take; lia). by rewrite decide_False by lia.
  - rewrite lookup_app_r by (rewrite length_take; lia). rewrite length_take.
    replace (i - Z.to_nat offset `min` length storage)%nat with (i - Z.to_nat offset)%nat by lia.
    destruct (decide (i < Z.to_nat offset + length bytes)%nat).
    + by rewrite lookup_app_l, decide_True by lia.
    + rewrite lookup_app_r, lookup_drop, decide_False by lia. f_equal. lia.
Qed.

Lemma stored_other storage storage' offset bytes p xs :
  (forall i, storage' !! i =
      if decide (Z.to_nat offset <= i < Z.to_nat offset + length bytes)%nat
      then bytes !! (i - Z.to_nat offset)%nat else storage !! i) ->
  0 <= p -> 0 <= offset ->
  p + Z.of_nat (length xs) <= offset \/ offset + Z.of_nat (length bytes) <= p ->
  stored storage p xs -> stored storage' p xs.
Proof.
  intros Hst Hp Ho Hd Hs i x Hx. pose proof (lookup_lt_Some _ _ _ Hx). rewrite Hst, decide_False by lia. by apply Hs.
Qed.

Lemma stored_append storage storage' p xs bytes :
  (forall i, storage' !! i =
      if decide (Z.to_nat (p + Z.of_nat (length xs)) <= i < Z.to_nat (p + Z.of_nat (length xs)) + length bytes)%nat
      then bytes !! (i - Z.to_nat (p + Z.of_nat (length xs)))%nat else storage !! i) ->
  0 <= p -> stored storage p xs -> stored storage' p (xs ++ bytes).
Proof.
  intros Hst Hp Hs i x Hx. rewrite Hst. apply lookup_app_Some in Hx as [Hx|[Hi Hx]].
  - pose proof (lookup_lt_Some _ _ _ Hx). rewrite decide_False by lia. by apply Hs.
  - pose proof (lookup_lt_Some _ _ _ Hx). rewrite decide_True by lia. rewrite <- Hx. f_equal. lia.
Qed.

Lemma length_empty (xs : list Z) : Z.of_nat (length xs) <= 0 <-> xs = [].
Proof. split; [|intros ->; simpl; lia]. intros. apply nil_length_inv. lia. Qed.

Lemma compute_lockfree_metadata_spec b xs ys :
  layout_ok b xs ys -> buffer_ok (compute_lockfree_metadata b) xs ys.
Proof.
  intros H. pose proof (buf_capacity _ _ _ H). pose proof (buf_write_size _ _ _ H) as Hw.
  pose proof (buf_write_room _ _ _ H). pose proof (buf_read_size _ _ _ H).
  split; [by destruct H|..]; unfold compute_lockfree_metadata; cbn [m_space_for_writing m_capacity m_empty].
  - rewrite (wrap_id u32 eq_refl) by int_lia. lia.
  - symmetry. destruct (_ && _) eqn:E.
    + apply bool_decide_eq_true. apply andb_true_iff in E as [E1 E2].
      rewrite (proj1 (length_empty xs)), (proj1 (length_empty ys)) by lia. done.
    + apply bool_decide_eq_false. intros [-> ->]%app_nil. cbn [length] in *.
      apply andb_false_iff in E as [E|E]; lia.
Qed.

Lemma storage_not_null b xs ys : layout_ok b xs ys -> storage_is_null b = false.
Proof.
  intros H. apply bool_decide_eq_false. intros E. pose proof (buf_storage _ _ _ H) as Hl.
  pose proof (buf_capacity _ _ _ H). rewrite E in Hl. simpl in Hl. lia.
Qed.

(** The halves of the storage do not overlap. *)
Lemma offsets_apart b :
  0 < m_capacity b ->
  0 <= write_offset b <= m_capacity b /\ 0 <= read_offset b <= m_capacity b /\
  (write_offset b + m_capacity b <= read_offset b \/ read_offset b + m_capacity b <= write_offset b).
Proof. unfold write_offset, read_offset. destruct (m_write_is_1 b); lia. Qed.

(** When the reader has taken everything, the written bytes become the bytes to read. *)
Lemma DoubleBuffer_flip_spec b ys :
  buffer_ok b [] ys -> exists b', DoubleBuffer_flip b = Ret b' /\ buffer_ok b' ys [] /\
    m_capacity b' = m_capacity b /\ m_unblock_callback b' = m_unblock_callback b.
Proof.
  intros [H _ _]. unfold DoubleBuffer_flip. rewrite (storage_not_null _ _ _ H).
  pose proof (buf_read_size _ _ _ H) as Hr. cbn [length] in Hr.
  rewrite (VERIFY_true (_ =? _)) by lia. run. eexists; split; [done|]. split; [|done].
  apply compute_lockfree_metadata_spec.
  destruct H as [Hc Hst Hw Hwr Hi Hrr _ _ Hys].
  unfold write_size, read_size, write_offset, read_offset in *.
  split; unfold write_size, read_size, write_offset, read_offset;
    cbn [m_storage m_write_is_1 m_size1 m_size2 m_capacity m_read_buffer_index];
    destruct (m_write_is_1 b); cbn [negb]; rewrite ?Z.add_0_r; try done; simpl; try lia.
Qed.

(** What a write leaves behind, before the bytes are known: the size of the write buffer. *)
Definition grown (b : DoubleBuffer) (n : Z) : DoubleBuffer :=
  compute_lockfree_metadata
    (MkDB (m_storage b) (m_write_is_1 b) (if m_write_is_1 b then n else m_size1 b)
       (if m_write_is_1 b then m_size2 b else n) (m_capacity b) (m_read_buffer_index b)
       (m_space_for_writing b) (m_empty b) (m_unblock_callback b)).

Definition with_storage (b : DoubleBuffer) (storage : list Z) : DoubleBuffer :=
  MkDB storage (m_write_is_1 b) (m_size1 b) (m_size2 b) (m_capacity b) (m_read_buffer_index b)
    (m_space_for_writing b) (m_empty b) (m_unblock_callback b).

Lemma grown_spec b xs ys bytes storage :
  buffer_ok b xs ys -> Z.of_nat (length bytes) <= m_space_for_writing b ->
  Z.of_nat (length storage) = 2 * m_capacity b ->
  stored storage (read_offset b + m_read_buffer_index b) xs ->
  stored storage (write_offset b) (ys ++ bytes) ->
  buffer_ok (with_storage (grown b (write_size b + Z.of_nat (length bytes))) storage) xs (ys ++ bytes).
Proof.
  intros [H Hs _] Hn Hl Hxs Hys.
  assert (with_storage (grown b (write_size b + Z.of_nat (length bytes))) storage =
    grown (with_storage b storage) (write_size b + Z.of_nat (length bytes))) as -> by done.
  apply compute_lockfree_metadata_spec. destruct H as [Hc Hst Hw Hwr Hi Hrr Hrs _ _].
  unfold write_size, read_size, write_offset, read_offset, with_storage in *.
  split; unfold write_size, read_size, write_offset, read_offset;
    cbn [m_storage m_write_is_1 m_size1 m_size2 m_capacity m_read_buffer_index];
    rewrite ?length_app; destruct (m_write_is_1 b); try done; lia.
Qed.

Lemma stored_rest storage p ys n :
  0 <= p -> p + Z.of_nat (length ys) + Z.of_nat n <= Z.of_nat (length storage) -> stored storage p ys ->
  stored storage p (ys ++ take n (drop (Z.to_nat p + length ys) storage)).
Proof.
  intros Hp Hl Hs i x Hx. apply lookup_app_Some in Hx as [Hx|[Hi Hx]]; [by apply Hs|].
  apply lookup_take_Some in Hx as [Hx _]. rewrite lookup_drop in Hx. rewrite <- Hx. f_equal. lia.
Qed.

(** What the bytes behind [ys] are after [bytes] were written there. *)
Lemma written_bytes storage p ys bytes n :
  0 <= p -> p + Z.of_nat (length ys) + Z.of_nat n <= Z.of_nat (length storage) ->
  (length bytes <= n)%nat -> stored storage p (ys ++ bytes) ->
  exists rest, length rest = (n - length bytes)%nat /\
    take n (drop (Z.to_nat p + length ys) storage) = bytes ++ rest.
Proof.
  intros Hp Hl Hn Hs. exists (drop (length bytes) (take n (drop (Z.to_nat p + length ys) storage))).
  split; [rewrite length_drop, length_take, length_drop; lia|].
  rewrite <- (take_drop (length bytes) (take n _)) at 1. f_equal.
  rewrite take_take, Nat.min_l by done. apply list_eq. intros i.
  destruct (decide (i < length bytes)%nat) as [Hi|Hi].
  - rewrite lookup_take_lt, lookup_drop by done. destruct (lookup_lt_is_Some_2 bytes i Hi) as (x & Hx).
    rewrite Hx. rewrite <- (Hs (length ys + i)%nat x); [f_equal; lia|].
    rewrite lookup_app_r by lia. rewrite <- Hx. f_equal. lia.
  - rewrite lookup_take_ge, lookup_ge_None_2 by lia. done.
Qed.

(** The buffer after a write that copies the first [k] of its [n] bytes. *)
Lemma DoubleBuffer_copy_spec b xs ys bytes n :
  buffer_ok b xs ys -> Z.of_nat n <= m_space_for_writing b -> (length bytes <= n)%nat ->
  exists storage rest,
    copy_to (m_storage b) (write_offset b + write_size b) bytes = Ret storage /\
    length rest = (n - length bytes)%nat /\
    buffer_ok (with_storage (grown b (write_size b + Z.of_nat n)) storage) xs (ys ++ bytes ++ rest).
Proof.
  intros H Hn Hb. pose proof (buf_space _ _ _ H) as Hsp. pose proof (buf_layout _ _ _ H) as Hl.
  destruct (offsets_apart b) as (Hwo & Hro & Hap); [apply (buf_capacity _ _ _ Hl)|].
  destruct Hl as [Hc Hst Hw Hwr Hi Hrr Hrs Hxs Hys]. rewrite Hw.
  destruct (copy_to_spec (m_storage b) (write_offset b + Z.of_nat (length ys)) bytes)
    as (storage & -> & Hlen & Hlook); [lia..|].
  pose proof (stored_append _ _ _ _ _ Hlook ltac:(lia) Hys) as Hys'.
  destruct (written_bytes storage (write_offset b) ys bytes n) as (rest & Hrest & Hall); [lia|lia|done..|].
  exists storage, rest. split; [done|]. split; [done|].
  assert (n = length (bytes ++ rest)) as Hn' by (rewrite length_app; lia). rewrite <- Hw, Hn'.
  apply grown_spec; [done|lia|lia|..].
  - eapply stored_other; [exact Hlook|lia..|exact Hxs].
  - rewrite <- Hall. apply stored_rest; [lia..|]. intros i x Hx. apply Hys'. by apply lookup_app_l_Some.
Qed.

(** Writing to a [DoubleBuffer] (Kernel/DoubleBuffer.cpp:38-53) never fails a [VERIFY]
    and never writes outside its half of the storage: it appends the first
    [min(size, space)] bytes to those to be read, keeps all others, says how many it took,
    and calls the callback if something can be read.  If copying faults, it returns [-EFAULT],
    and the buffer has grown nevertheless: by the bytes copied until then and by old bytes of
    the storage behind them. *)
Theorem DoubleBuffer_write_correct b xs ys data size :
  buffer_ok b xs ys -> in_type size_t size -> 0 < size -> size <= Z.of_nat (length (u_bytes data)) ->
  let n := Z.to_nat (size `min` DoubleBuffer_space_for_writing b) in
  exists r called b', DoubleBuffer_write b data size = Ret (r, called, b') /\
    m_capacity b' = m_capacity b /\ m_unblock_callback b' = m_unblock_callback b /\
    match u_fault data n with
    | None => r = Z.of_nat n /\ buffer_ok b' xs (ys ++ take n (u_bytes data)) /\
        called = m_unblock_callback b && negb (DoubleBuffer_is_empty b')
    | Some k => r = - EFAULT /\ called = false /\
        exists rest, length rest = (n - k)%nat /\
          buffer_ok b' xs (ys ++ take (k `min` n) (u_bytes data) ++ rest)
    end.
Proof.
  intros H Ht Hpos Hlen n. unfold DoubleBuffer_write, DoubleBuffer_space_for_writing in *.
  pose proof (buf_space _ _ _ H) as Hsp. pose proof (buf_layout _ _ _ H) as Hl.
  rewrite (storage_not_null _ _ _ Hl), (proj2 (Z.eqb_neq size 0)) by lia. cbn [orb].
  pose proof (buf_capacity _ _ _ Hl). pose proof (buf_write_room _ _ _ Hl). pose proof (buf_write_size _ _ _ Hl).
  assert (size `min` m_space_for_writing b = Z.of_nat n) as Hn by (unfold n; lia).
  rewrite Hn, Nat2Z.id. rewrite (wrap_id u32 eq_refl) by int_lia.
  change (compute_lockfree_metadata _) with (grown b (write_size b + Z.of_nat n)).
  change (m_storage (grown _ _)) with (m_storage b).
  unfold user_copy. destruct (u_fault data n) as [k|]; cbv beta iota.
  - destruct (DoubleBuffer_copy_spec b xs ys (take (k `min` n) (u_bytes data)) n H)
      as (storage & rest & -> & Hrest & Hok); [lia|rewrite length_take; lia|]. run.
    eexists _, _, _. split; [reflexivity|]. do 4 (split; [done|]). exists rest. split; [|exact Hok].
    rewrite Hrest, length_take. lia.
  - destruct (DoubleBuffer_copy_spec b xs ys (take n (u_bytes data)) n H)
      as (storage & rest & -> & Hrest & Hok); [lia|rewrite length_take; lia|]. run.
    eexists _, _, _. split; [reflexivity|]. do 3 (split; [done|]). split; [|done].
    rewrite length_take in Hrest. rewrite (nil_length_inv rest), app_nil_r in Hok by lia. exact Hok.
Qed.

Lemma read_advance b xs ys n :
  buffer_ok b xs ys -> (n <= length xs)%nat ->
  buffer_ok (compute_lockfree_metadata
    (MkDB (m_storage b) (m_write_is_1 b) (m_size1 b) (m_size2 b) (m_capacity b)
       (m_read_buffer_index b + Z.of_nat n) (m_space_for_writing b) (m_empty b) (m_unblock_callback b)))
    (drop n xs) ys.
Proof.
  intros [H _ _] Hn. apply compute_lockfree_metadata_spec.
  destruct (offsets_apart b) as (_ & Hro & _); [apply (buf_capacity _ _ _ H)|].
  destruct H as [Hc Hst Hw Hwr Hi Hrr Hrs Hxs Hys].
  split; unfold write_size, read_size, write_offset, read_offset in *;
    cbn [m_storage m_write_is_1 m_size1 m_size2 m_capacity m_read_buffer_index];
    rewrite ?length_drop; try done; try lia.
  rewrite Z.add_assoc. apply stored_drop; [lia|done].
Qed.

(** A read of a buffer whose read half is not exhausted. *)
Lemma DoubleBuffer_read_half b xs ys size :
  buffer_ok b xs ys -> in_type size_t size -> xs <> [] ->
  let n := Z.to_nat (size `min` Z.of_nat (length xs)) in
  copy_from (m_storage b) (read_offset b + m_read_buffer_index b) (Z.of_nat n) = Ret (take n xs) /\
  Z.min (wrap size_t (read_size b - m_read_buffer_index b)) size = Z.of_nat n /\
  wrap size_t (m_read_buffer_index b + Z.of_nat n) = m_read_buffer_index b + Z.of_nat n /\
  (read_size b <=? m_read_buffer_index b) = false /\ (n <= length xs)%nat.
Proof.
  intros [H _ _] Ht Hne n. destruct (offsets_apart b) as (_ & Hro & _); [apply (buf_capacity _ _ _ H)|].
  destruct H as [Hc Hst Hw Hwr Hi Hrr Hrs Hxs Hys].
  assert (0 < Z.of_nat (length xs)) by (destruct xs; [done|simpl; lia]).
  assert (0 <= size) by int_lia.
  rewrite !(wrap_id u32 eq_refl) by int_lia. rewrite Hrs.
  split_and!; [|lia..].
  unfold copy_from. rewrite (proj2 (andb_true_iff _ _)) by lia. rewrite Nat2Z.id. f_equal.
  apply stored_take; [lia|done|lia].
Qed.

(** Reading from a [DoubleBuffer] (Kernel/DoubleBuffer.cpp:55-73) never fails a [VERIFY] and
    never reads outside the bytes written: the reader gets the oldest bytes, at least one if
    there is one, and the buffer keeps the others in their order.  If copying faults, the
    result is [-EFAULT] and no byte is lost. *)
Theorem DoubleBuffer_read_correct b xs ys data size :
  buffer_ok b xs ys -> in_type size_t size -> 0 < size ->
  exists r got called b' xs' ys', DoubleBuffer_read b data size = Ret (r, got, called, b') /\
    buffer_ok b' xs' ys' /\
    m_capacity b' = m_capacity b /\ m_unblock_callback b' = m_unblock_callback b /\
    (0 <= r -> r = Z.of_nat (length got) /\ r <= size /\ got ++ xs' ++ ys' = xs ++ ys /\
       (r = 0 -> xs ++ ys = [])) /\
    (r < 0 -> r = - EFAULT /\ xs' ++ ys' = xs ++ ys /\ exists n, u_fault data n <> None).
Proof.
  intros H Ht Hpos. unfold DoubleBuffer_read. pose proof (buf_layout _ _ _ H) as Hl.
  rewrite (storage_not_null _ _ _ Hl), (proj2 (Z.eqb_neq size 0)) by lia. cbn [orb].
  assert (exists b1 xs1 ys1,
    (if (read_size b <=? m_read_buffer_index b) && negb (write_size b =? 0) then DoubleBuffer_flip b
     else Ret b) = Ret b1 /\ buffer_ok b1 xs1 ys1 /\ xs1 ++ ys1 = xs ++ ys /\ (xs1 = [] -> ys1 = []) /\
    m_capacity b1 = m_capacity b /\ m_unblock_callback b1 = m_unblock_callback b)
    as (b1 & xs1 & ys1 & -> & H1 & Heq & Hemp & Hc & Hcb).
  { pose proof (buf_read_size _ _ _ Hl). pose proof (buf_write_size _ _ _ Hl). destruct (_ && _) eqn:E.
    - apply andb_true_iff in E as [E1 _]. assert (xs = []) as -> by (apply length_empty; lia).
      destruct (DoubleBuffer_flip_spec b ys H) as (b1 & -> & ? & ? & ?). exists b1, ys, [].
      split_and!; try done. apply app_nil_r.
    - exists b, xs, ys. split_and!; try done. intros ->. cbn [length] in *.
      rewrite (proj2 (Z.leb_le _ _)) in E by lia. apply length_empty. cbn [andb] in E.
      apply negb_false_iff in E. lia. }
  run. rewrite <- Heq. destruct (decide (xs1 = [])) as [->|Hne].
  - rewrite (Hemp eq_refl) in *. pose proof (buf_read_size _ _ _ (buf_layout _ _ _ H1)) as Hr. cbn [length] in Hr.
    rewrite (proj2 (Z.leb_le _ _)) by lia. eexists _, _, _, b1, [], []. split; [reflexivity|].
    split_and!; try done; simpl; try lia. intros; split_and!; try done; lia.
  - destruct (DoubleBuffer_read_half b1 xs1 ys1 size H1 Ht Hne) as (Hcopy & -> & Hidx & -> & Hn).
    set (n := Z.to_nat _) in *. rewrite Hcopy. run. rewrite Nat2Z.id. unfold user_copy.
    assert (0 < n)%nat by (destruct xs1; [done|]; unfold n; simpl; lia).
    destruct (u_fault data n) as [k|] eqn:Ef; cbn [negb].
    + eexists _, _, _, b1, xs1, ys1. split; [reflexivity|]. split_and!; try done; unfold EFAULT; try lia.
      intros _. split_and!; [done|done|]. exists n. by rewrite Ef.
    + rewrite Hidx. eexists _, _, _, _, (drop n xs1), ys1. split; [reflexivity|].
      split; [by apply read_advance|]. split; [done|]. split; [done|]. split; [|lia].
      intros _. rewrite length_take, Nat.min_l, app_assoc, take_drop by done.
      split_and!; [done|unfold n; lia|done|lia].
Qed.

Lemma DoubleBuffer_new_ok storage capacity :
  0 < capacity < 2 ^ 30 -> Z.of_nat (length storage) = 2 * capacity ->
  buffer_ok (DoubleBuffer_new storage capacity) [] [].
Proof.
  intros Hc Hs. split; [|simpl; lia|done].
  split; unfold write_size, read_size; cbn [DoubleBuffer_new m_write_is_1 m_size1 m_size2 m_capacity
    m_storage m_read_buffer_index length]; try done; lia.
Qed.

(** ** Sequences of reads and writes *)

Inductive operation : Type :=
  | Write (data : UserBuffer) (size : Z)
  | Read (data : UserBuffer) (size : Z).

(** A client's calls: the sizes fit and writers have that many bytes.  The buffers may fault. *)
Definition operation_ok (o : operation) : Prop :=
  match o with
  | Write data size => in_type size_t size /\ size <= Z.of_nat (length (u_bytes data))
  | Read data size => in_type size_t size
  end.

(** The results of the calls, the bytes of the successful reads, and the buffer. *)
Fixpoint run_operations (b : DoubleBuffer) (ops : list operation) : outcome (list Z * list Z * DoubleBuffer) :=
  match ops with
  | [] => Ret ([], [], b)
  | Write data size :: ops =>
      '(r, _, b) ← DoubleBuffer_write b data size;
      '(results, delivered, b) ← run_operations b ops;
      Ret (r :: results, delivered, b)
  | Read data size :: ops =>
      '(r, got, _, b) ← DoubleBuffer_read b data size;
      '(results, delivered, b) ← run_operations b ops;
      Ret (r :: results, (if r <? 0 then [] else got) ++ delivered, b)
  end.

(** The bytes that enter the queue by a call that returned [r]: those a [write] said it
    took; if it faulted, the bytes copied until then and old bytes of the storage. *)
Definition enters (o : operation) (r : Z) (bytes : list Z) : Prop :=
  match o with
  | Write data size =>
      (0 <= r <= size /\ bytes = take (Z.to_nat r) (u_bytes data)) \/
      (r = - EFAULT /\ exists n k rest, u_fault data n = Some k /\ Z.of_nat n <= size /\
         length bytes = n /\ bytes = take (k `min` n) (u_bytes data) ++ rest)
  | Read _ _ => bytes = []
  end.

Lemma write_step b xs ys data size :
  buffer_ok b xs ys -> operation_ok (Write data size) ->
  exists r called b' bytes, DoubleBuffer_write b data size = Ret (r, called, b') /\
    buffer_ok b' xs (ys ++ bytes) /\ m_capacity b' = m_capacity b /\ enters (Write data size) r bytes.
Proof.
  intros H (Ht & Hlen). destruct (decide (size = 0)) as [->|Hne].
  - exists 0, false, b, []. rewrite app_nil_r. do 3 (split; [done|]). left. done.
  - destruct (DoubleBuffer_write_correct b xs ys data size) as (r & c & b' & -> & Hc & _ & Hr); [done|done|int_lia|done|].
    set (n := Z.to_nat _) in *.
    pose proof (buf_space _ _ _ H) as Hsp. pose proof (buf_write_room _ _ _ (buf_layout _ _ _ H)).
    pose proof (buf_write_size _ _ _ (buf_layout _ _ _ H)).
    assert (Z.of_nat n <= size) by (unfold n, DoubleBuffer_space_for_writing; int_lia).
    destruct (u_fault data n) as [k|] eqn:Ef.
    + destruct Hr as (-> & _ & rest & Hrest & Hok). eexists _, _, _, _. split; [reflexivity|].
      split; [exact Hok|]. split; [exact Hc|]. right. split; [done|]. exists n, k, rest.
      split_and!; try done. rewrite length_app, length_take, Hrest. lia.
    + destruct Hr as (-> & Hok & _). eexists _, _, _, _. split; [reflexivity|].
      split; [exact Hok|]. split; [exact Hc|]. left. rewrite Nat2Z.id. split; [lia|done].
Qed.

Lemma read_step b xs ys data size :
  buffer_ok b xs ys -> in_type size_t size ->
  exists r got called b' xs' ys', DoubleBuffer_read b data size = Ret (r, got, called, b') /\
    buffer_ok b' xs' ys' /\ m_capacity b' = m_capacity b /\ (if r <? 0 then [] else got) ++ xs' ++ ys' = xs ++ ys.
Proof.
  intros H Ht. destruct (decide (size = 0)) as [->|Hne]; [by exists 0, [], false, b, xs, ys|].
  destruct (DoubleBuffer_read_correct b xs ys data size) as (r & got & c & b' & xs' & ys' & -> & Hok & Hc & _ & H1 & H2);
    [done|done|int_lia|].
  eexists _, _, _, _, _, _. split; [reflexivity|]. split; [exact Hok|]. split; [exact Hc|].
  destruct (Z.ltb_spec r 0); [by apply H2|by apply H1].
Qed.

Lemma run_operations_spec ops b xs ys :
  Forall operation_ok ops -> buffer_ok b xs ys ->
  exists results entered delivered b' xs' ys', run_operations b ops = Ret (results, delivered, b') /\
    Forall3 enters ops results entered /\
    buffer_ok b' xs' ys' /\ m_capacity b' = m_capacity b /\
    delivered ++ xs' ++ ys' = (xs ++ ys) ++ concat entered.
Proof.
  revert b xs ys. induction ops as [|[data size|data size] ops IH]; intros b xs ys Hops H.
  - exists [], [], [], b, xs, ys. split; [done|]. split; [constructor|]. do 2 (split; [done|]). by rewrite app_nil_r.
  - apply Forall_cons in Hops as [Ho Hops].
    destruct (write_step b xs ys data size H Ho) as (r & c & b' & bytes & Hw & Hok & Hc & He).
    destruct (IH b' _ _ Hops Hok) as (res & ent & del & b2 & xs2 & ys2 & Hrun & Hent & Hok2 & Hc2 & Heq).
    cbn [run_operations]. rewrite Hw. run. rewrite Hrun. run. exists (r :: res), (bytes :: ent), del, b2, xs2, ys2.
    split; [reflexivity|]. split; [by constructor|].
    split; [exact Hok2|]. split; [congruence|]. rewrite Heq. cbn [concat]. by rewrite !app_assoc.
  - apply Forall_cons in Hops as [Ho Hops].
    destruct (read_step b xs ys data size H Ho) as (r & got & c & b' & xs' & ys' & Hr & Hok & Hc & Hq).
    destruct (IH b' _ _ Hops Hok) as (res & ent & del & b2 & xs2 & ys2 & Hrun & Hent & Hok2 & Hc2 & Heq).
    cbn [run_operations]. rewrite Hr. run. rewrite Hrun. run. eexists (r :: res), ([] :: ent), _, b2, xs2, ys2.
    split; [reflexivity|]. split; [by constructor|].
    split; [exact Hok2|]. split; [congruence|]. rewrite <- Hq, <- app_assoc, Heq. cbn [concat app]. by rewrite !app_assoc.
Qed.


Definition sample_operations : list operation :=
  [ Write (MkUser [1; 2; 3] (fun _ => None)) 3; Read (MkUser [] (fun _ => None)) 2;
    Write (MkUser [4; 5; 6; 7; 8] (fun _ => Some 1%nat)) 2; Read (MkUser [] (fun _ => Some 0%nat)) 9;
    Read (MkUser [] (fun _ => None)) 9; Read (MkUser [] (fun _ => None)) 3 ].


(** A faulting [write] of a [DoubleBuffer] hands old bytes to the reader
    (Kernel/DoubleBuffer.cpp:46-49): the size of the buffer is raised before the bytes are
    copied.  After four bytes were written and read, two writes that fault at their first
    byte return [-EFAULT]; the reads after them return four bytes each, the second time the
    bytes [1, 2, 3, 4] that had been read already. *)
Theorem DoubleBuffer_faulting_write_leaks :
  let fine bytes := MkUser bytes (fun _ => None) in
  let faulting := MkUser [9; 9; 9; 9] (fun _ => Some 0%nat) in
  ('(_, _, b) ← DoubleBuffer_write (DoubleBuffer_new (repeat 0 8) 4) (fine [1; 2; 3; 4]) 4;
   '(_, got1, _, b) ← DoubleBuffer_read b (fine []) 4;
   '(r1, _, b) ← DoubleBuffer_write b faulting 4;
   '(_, got2, _, b) ← DoubleBuffer_read b (fine []) 4;
   '(r2, _, b) ← DoubleBuffer_write b faulting 4;
   '(_, got3, _, b) ← DoubleBuffer_read b (fine []) 4;
   Ret (r1, r2, got1, got2, got3)) =
  Ret (- EFAULT, - EFAULT, [1; 2; 3; 4], [0; 0; 0; 0], [1; 2; 3; 4]).
Proof. vm_compute. reflexivity. Qed.
