(* ===== verification/TcpPacket.v ===== *)
(** * Kernel/Net/TCP.h and the checksums of the network stack

    A packet is the list of its bytes.  [TCPPacket] is the packed header in front of it: its
    fields are in network byte order, [TCPPacket_bytes] and [TCPPacket_read] are the layout.
    The checksums of Kernel/Net/TCPSocket.cpp and Kernel/Net/IPv4.h are shown to be the ones'
    complement checksum: the words and the checksum together add up to a multiple of 65535. *)

From S2P Require Import Prelude.

#[local] Open Scope Z_scope.

(** ** Network byte order *)

Definition network16 (x : Z) : list Z := [Z.shiftr x 8 mod 256; x mod 256].
Definition network32 (x : Z) : list Z := network16 (Z.shiftr x 16) ++ network16 (x mod 65536).
Definition host16 (a b : Z) : Z := a * 256 + b.
Definition host32 (a b c d : Z) : Z := host16 a b * 65536 + host16 c d.

(** ** The header *)

(** [TCPFlags]. *)
Definition FIN : Z := 0x01.
Definition SYN : Z := 0x02.
Definition RST : Z := 0x04.
Definition PUSH : Z := 0x08.
Definition ACK : Z := 0x10.

Record TCPPacket : Type := MkPacket {
  p_source_port : Z;
  p_destination_port : Z;
  p_sequence_number : Z;
  p_ack_number : Z;
  p_flags_and_data_offset : Z;
  p_window_size : Z;
  p_checksum : Z;
  p_urgent : Z
}.

Definition sizeof_TCPPacket : Z := 20.

Definition TCPPacket_bytes (p : TCPPacket) : list Z :=
  network16 (p_source_port p) ++ network16 (p_destination_port p) ++
  network32 (p_sequence_number p) ++ network32 (p_ack_number p) ++
  network16 (p_flags_and_data_offset p) ++ network16 (p_window_size p) ++
  network16 (p_checksum p) ++ network16 (p_urgent p).

(** The bytes at the address of a packet, read through the struct. *)
Definition TCPPacket_read (bytes : list Z) : outcome TCPPacket :=
  match bytes with
  | b0 :: b1 :: b2 :: b3 :: b4 :: b5 :: b6 :: b7 :: b8 :: b9 :: b10 :: b11 :: b12 :: b13 :: b14 :: b15
      :: b16 :: b17 :: b18 :: b19 :: _ =>
      Ret (MkPacket (host16 b0 b1) (host16 b2 b3) (host32 b4 b5 b6 b7) (host32 b8 b9 b10 b11)
             (host16 b12 b13) (host16 b14 b15) (host16 b16 b17) (host16 b18 b19))
  | _ => Stop OutOfBounds
  end.

Definition data_offset (p : TCPPacket) : Z := Z.shiftr (Z.land (p_flags_and_data_offset p) 0xf000) 12.
Definition header_size (p : TCPPacket) : Z := data_offset p * 4.
Definition flags (p : TCPPacket) : Z := Z.land (p_flags_and_data_offset p) 0x1ff.
Definition has_syn (p : TCPPacket) : bool := negb (Z.land (flags p) SYN =? 0).
Definition has_ack (p : TCPPacket) : bool := negb (Z.land (flags p) ACK =? 0).
Definition has_fin (p : TCPPacket) : bool := negb (Z.land (flags p) FIN =? 0).
Definition has_rst (p : TCPPacket) : bool := negb (Z.land (flags p) RST =? 0).

(** [set_data_offset] and [set_flags] on the field. *)
Definition set_data_offset (field offset : Z) : Z :=
  wrap u16 (Z.lor (Z.land field (Z.lnot 0xf000)) (Z.shiftl offset 12)).
Definition set_flags (field flags : Z) : Z :=
  wrap u16 (Z.lor (Z.land field (Z.lnot 0x1ff)) (Z.land flags 0x1ff)).

(** ** The checksum of TCP *)

Definition add_word (checksum word : Z) : Z :=
  let checksum := wrap u32 (checksum + word) in
  if 0xffff <? checksum then Z.shiftr checksum 16 + Z.land checksum 0xffff else checksum.

(** The loops over [n] words of two bytes. *)
Fixpoint add_words (n : nat) (checksum : Z) (bytes : list Z) : outcome Z :=
  match n with
  | O => Ret checksum
  | S n =>
      match bytes with
      | a :: b :: bytes => add_words n (add_word checksum (host16 a b)) bytes
      | _ => Stop OutOfBounds
      end
  end.

(** [IPv4Address]: the octets in memory order. *)
Definition IPv4Address_bytes (address : Z) : list Z :=
  [address mod 256; Z.shiftr address 8 mod 256; Z.shiftr address 16 mod 256; Z.shiftr address 24 mod 256].

Definition pseudo_header (source destination payload_size : Z) : list Z :=
  IPv4Address_bytes source ++ IPv4Address_bytes destination ++ [0; 6] ++
  network16 (wrap u16 (sizeof_TCPPacket + payload_size)).

(** [packet] has the bytes of header and payload; [payload_size] is converted to [u16]. *)
Definition compute_tcp_checksum (source destination : Z) (packet : list Z) (payload_size : Z) : outcome Z :=
  let payload_size := wrap u16 payload_size in
  checksum ← add_words 6 0 (pseudo_header source destination payload_size);
  checksum ← add_words 10 checksum packet;
  header ← TCPPacket_read packet;
  VERIFY (data_offset header * 4 =? sizeof_TCPPacket) ;;
  let payload := drop (Z.to_nat (header_size header)) packet in
  checksum ← add_words (Z.to_nat (payload_size / 2)) checksum payload;
  checksum ←
    (if negb (Z.land payload_size 1 =? 0) then
       byte ← load payload (payload_size - 1);
       Ret (add_word checksum (wrap u16 (Z.shiftl byte 8)))
     else Ret checksum);
  Ret (wrap u16 (Z.lnot (Z.land checksum 0xffff))).

(** ** The checksum of IPv4.h *)

Fixpoint internet_words (checksum : Z) (bytes : list Z) : Z :=
  match bytes with
  | a :: b :: bytes =>
      let checksum := wrap u32 (checksum + host16 a b) in
      let checksum :=
        if negb (Z.land checksum 0x80000000 =? 0)
        then Z.lor (Z.land checksum 0xffff) (Z.shiftr checksum 16) else checksum in
      internet_words checksum bytes
  | _ => checksum
  end.

(** [while (checksum >> 16)]. *)
Fixpoint fold_checksum (fuel : nat) (checksum : Z) : outcome Z :=
  match fuel with
  | O => Stop NoFuel
  | S fuel =>
      if Z.shiftr checksum 16 =? 0 then Ret checksum
      else fold_checksum fuel (Z.land checksum 0xffff + Z.shiftr checksum 16)
  end.

Definition internet_checksum (bytes : list Z) : outcome Z :=
  checksum ← fold_checksum 4 (internet_words 0 bytes);
  Ret (wrap u16 (Z.land (Z.lnot checksum) 0xffff)).

(** ** Reading a header back *)

Definition is_bytes (bytes : list Z) : Prop := Forall (fun b => 0 <= b < 256) bytes.

Record packet_ok (p : TCPPacket) : Prop := PacketOk {
  ok_source_port : 0 <= p_source_port p < 65536;
  ok_destination_port : 0 <= p_destination_port p < 65536;
  ok_sequence_number : 0 <= p_sequence_number p < 4294967296;
  ok_ack_number : 0 <= p_ack_number p < 4294967296;
  ok_flags : 0 <= p_flags_and_data_offset p < 65536;
  ok_window_size : 0 <= p_window_size p < 65536;
  ok_checksum : 0 <= p_checksum p < 65536;
  ok_urgent : 0 <= p_urgent p < 65536
}.

Lemma host_network16 x : 0 <= x < 65536 -> host16 (Z.shiftr x 8 mod 256) (x mod 256) = x.
Proof. intros Hx. unfold host16. rewrite Z.shiftr_div_pow2 by done. change (2 ^ 8) with 256. int_lia. Qed.

Lemma host_network32 x :
  0 <= x < 4294967296 ->
  host32 (Z.shiftr (Z.shiftr x 16) 8 mod 256) (Z.shiftr x 16 mod 256)
    (Z.shiftr (x mod 65536) 8 mod 256) (x mod 65536 mod 256) = x.
Proof.
  intros Hx. unfold host32. rewrite Z.shiftr_div_pow2 with (n := 16) by done. change (2 ^ 16) with 65536.
  rewrite !host_network16 by int_lia. int_lia.
Qed.

Lemma TCPPacket_read_bytes p rest : packet_ok p -> TCPPacket_read (TCPPacket_bytes p ++ rest) = Ret p.
Proof.
  intros []. unfold TCPPacket_bytes, network32, network16. cbn [app TCPPacket_read].
  rewrite !host_network16, !host_network32 by done. by destruct p.
Qed.

Lemma network16_bytes x : is_bytes (network16 x).
Proof. repeat constructor; apply Z.mod_pos_bound; lia. Qed.

Lemma TCPPacket_bytes_bytes p : is_bytes (TCPPacket_bytes p).
Proof.
  unfold TCPPacket_bytes, network32, is_bytes. rewrite !Forall_app. split_and!; apply network16_bytes.
Qed.

Lemma TCPPacket_bytes_length p : length (TCPPacket_bytes p) = 20%nat.
Proof. done. Qed.

(** ** The ones' complement sum *)

(** The sum of the words of a packet, an odd last byte being the upper half of a word. *)
Fixpoint words_sum (bytes : list Z) : Z :=
  match bytes with
  | a :: b :: bytes => host16 a b + words_sum bytes
  | [a] => host16 a 0
  | [] => 0
  end.

Lemma words_sum_app n (xs ys : list Z) :
  length xs = (2 * n)%nat -> words_sum (xs ++ ys) = words_sum xs + words_sum ys.
Proof.
  revert xs. induction n as [|n IH]; intros xs Hn.
  - by rewrite (nil_length_inv xs) by lia.
  - destruct xs as [|a [|b xs]]; [cbn [length] in Hn; lia.. |]. cbn [app words_sum]. rewrite IH; [lia | cbn [length] in Hn; lia].
Qed.

Lemma words_sum_bound bytes : is_bytes bytes -> 0 <= words_sum bytes <= 65535 * Z.of_nat (length bytes / 2 + length bytes mod 2).
Proof.
  remember (length bytes) as n eqn:Hn. revert bytes Hn.
  induction n as [n IH] using lt_wf_ind. intros bytes Hn Hb.
  destruct bytes as [|a [|b bytes]]; cbn [words_sum length] in *; subst n.
  - simpl. lia.
  - apply Forall_cons in Hb as [Ha _]. unfold host16. change (1 / 2 + 1 mod 2)%nat with 1%nat. lia.
  - apply Forall_cons in Hb as [Ha [Hb Hr]%Forall_cons].
    specialize (IH (length bytes) ltac:(lia) bytes eq_refl Hr). unfold host16.
    pose proof (Nat.div_mod_eq (length bytes) 2). pose proof (Nat.div_mod_eq (S (S (length bytes))) 2).
    pose proof (Nat.mod_upper_bound (length bytes) 2 ltac:(lia)).
    pose proof (Nat.mod_upper_bound (S (S (length bytes))) 2 ltac:(lia)). lia.
Qed.

Lemma add_word_spec c w :
  0 <= c <= 65535 -> 0 <= w <= 65535 ->
  0 <= add_word c w <= 65535 /\ (65535 | c + w - add_word c w).
Proof.
  intros Hc Hw. unfold add_word. rewrite (wrap_id u32 eq_refl) by int_lia.
  change 0xffff with (Z.ones 16). rewrite Z.land_ones, Z.shiftr_div_pow2 by done.
  change (2 ^ 16) with 65536. change (Z.ones 16) with 65535.
  destruct (Z.ltb_spec 65535 (c + w)) as [Hgt|Hle].
  - assert ((c + w) / 65536 = 1) as -> by int_lia. assert ((c + w) mod 65536 = c + w - 65536) as -> by int_lia.
    split; [lia|]. exists 1. lia.
  - split; [lia|]. exists 0. lia.
Qed.

Lemma add_words_spec n c bytes :
  is_bytes bytes -> (2 * n <= length bytes)%nat -> 0 <= c <= 65535 ->
  exists c', add_words n c bytes = Ret c' /\ 0 <= c' <= 65535 /\ (65535 | c + words_sum (take (2 * n) bytes) - c').
Proof.
  revert c bytes. induction n as [|n IH]; intros c bytes Hb Hn Hc; cbn [add_words].
  { exists c. split; [done|]. split; [done|]. exists 0. rewrite take_0. simpl. lia. }
  destruct bytes as [|x [|y bytes]]; [cbn [length] in Hn; lia.. |].
  apply Forall_cons in Hb as [Hx [Hy Hb]%Forall_cons].
  destruct (add_word_spec c (host16 x y)) as [Hc' [k Hk]]; [done | unfold host16; lia|].
  destruct (IH (add_word c (host16 x y)) bytes) as (c' & -> & Hr & k' & Hk'); [done | cbn [length] in Hn; lia | done|].
  exists c'. split; [done|]. split; [done|]. replace (2 * S n)%nat with (S (S (2 * n))) by lia.
  cbn [take words_sum]. exists (k + k'). lia.
Qed.

Lemma complement16 c : 0 <= c <= 65535 -> wrap u16 (Z.lnot (Z.land c 0xffff)) = 65535 - c.
Proof.
  intros Hc. change 0xffff with (Z.ones 16). rewrite Z.land_ones by done. change (2 ^ 16) with 65536.
  rewrite (Z.mod_small c) by lia. unfold Z.lnot, Z.pred. change (wrap u16 ?x) with (x mod 65536).
  change (Z.ones 16) with 65535. symmetry. apply (Z.mod_unique _ _ (-1)); lia.
Qed.

(** The words of a packet whose payload has an odd byte or not. *)
Lemma words_sum_split payload n :
  is_bytes payload -> length payload = n ->
  words_sum payload = words_sum (take (2 * (n / 2)) payload) +
    (if (n mod 2 =? 0)%nat then 0 else default 0 (payload !! (n - 1)%nat) * 256).
Proof.
  intros Hb Hn. rewrite <- (take_drop (2 * (n / 2)) payload) at 1.
  pose proof (Nat.div_mod_eq n 2). pose proof (Nat.mod_upper_bound n 2 ltac:(lia)).
  rewrite (words_sum_app (n / 2)) by (rewrite length_take; lia). f_equal.
  destruct (Nat.eqb_spec (n mod 2) 0) as [He|Ho].
  - rewrite drop_ge by lia. done.
  - assert (length (drop (2 * (n / 2)) payload) = 1%nat) as Hl by (rewrite length_drop; lia).
    destruct (drop (2 * (n / 2)) payload) as [|x [|]] eqn:E; [done| |done].
    assert (payload !! (n - 1)%nat = Some x) as ->.
    { replace (n - 1)%nat with (2 * (n / 2) + 0)%nat by lia. by rewrite <- lookup_drop, E. }
    cbn. unfold host16. lia.
Qed.

Lemma IPv4Address_bytes_bytes a : is_bytes (IPv4Address_bytes a).
Proof. repeat constructor; apply Z.mod_pos_bound; lia. Qed.

Lemma pseudo_header_spec source destination n :
  is_bytes (pseudo_header source destination n) /\ length (pseudo_header source destination n) = 12%nat.
Proof.
  split; [|done]. unfold pseudo_header, is_bytes. rewrite !Forall_app.
  split_and!; [apply IPv4Address_bytes_bytes.. | repeat constructor; lia | apply network16_bytes].
Qed.

(** The payload of a packet without options, with its odd last byte if it has one. *)
Lemma payload_words_spec c payload :
  is_bytes payload -> Z.of_nat (length payload) < 65536 -> 0 <= c <= 65535 ->
  exists c', (checksum ← add_words (Z.to_nat (Z.of_nat (length payload) / 2)) c payload;
    if negb (Z.land (Z.of_nat (length payload)) 1 =? 0) then
      byte ← load payload (Z.of_nat (length payload) - 1);
      Ret (add_word checksum (wrap u16 (Z.shiftl byte 8)))
    else Ret checksum) = Ret c' /\ 0 <= c' <= 65535 /\ (65535 | c + words_sum payload - c').
Proof.
  intros Hb Hlen Hc. set (n := length payload) in *.
  pose proof (Nat.div_mod_eq n 2) as Hdm. pose proof (Nat.mod_upper_bound n 2 ltac:(lia)) as Hm.
  assert (Z.to_nat (Z.of_nat n / 2) = (n / 2)%nat) as ->
    by (change 2 with (Z.of_nat 2); by rewrite <- Nat2Z.inj_div, Nat2Z.id).
  assert (Z.land (Z.of_nat n) 1 = Z.of_nat n mod 2) as -> by (by apply (Z.land_ones _ 1)).
  destruct (add_words_spec (n / 2) c payload) as (c1 & -> & Hc1 & k1 & Hk1); [done | unfold n in *; lia | done|]. run.
  rewrite (words_sum_split payload n Hb eq_refl).
  assert (Z.of_nat n mod 2 = Z.of_nat (n mod 2)) as -> by (by rewrite Nat2Z.inj_mod).
  destruct (Nat.eqb_spec (n mod 2) 0) as [He|Ho].
  - rewrite He. cbn [Z.of_nat negb Z.eqb]. exists c1. split; [done|]. split; [done|]. exists k1. lia.
  - rewrite (proj2 (Z.eqb_neq _ 0)) by lia. cbn [negb].
    destruct (lookup_lt_is_Some_2 payload (n - 1)) as (x & Hx); [unfold n in *; lia|].
    unfold load. rewrite (proj2 (Z.leb_le _ _)) by lia.
    assert (Z.to_nat (Z.of_nat n - 1) = (n - 1)%nat) as -> by lia. rewrite Hx. run. change (default 0 (Some x)) with x.
    pose proof (Forall_lookup_1 _ _ _ _ Hb Hx) as Hxb. cbn beta in Hxb.
    rewrite Z.shiftl_mul_pow2 by done. change (2 ^ 8) with 256. change (wrap u16 ?y) with (y mod 65536).
    rewrite Z.mod_small by lia.
    destruct (add_word_spec c1 (x * 256)) as [Hc2 [k2 Hk2]]; [done | lia|].
    eexists. split; [done|]. split; [done|]. exists (k1 + k2). lia.
Qed.

Lemma compute_tcp_checksum_spec source destination p payload :
  packet_ok p -> data_offset p = 5 -> is_bytes payload -> Z.of_nat (length payload) <= 65515 ->
  exists c, compute_tcp_checksum source destination (TCPPacket_bytes p ++ payload) (Z.of_nat (length payload)) = Ret c /\
    0 <= c <= 65535 /\
    (65535 | words_sum (pseudo_header source destination (Z.of_nat (length payload)) ++
                        TCPPacket_bytes p ++ payload) + c).
Proof.
  intros Hp Hoff Hb Hlen. unfold compute_tcp_checksum.
  assert (wrap u16 (Z.of_nat (length payload)) = Z.of_nat (length payload)) as ->.
  { change (wrap u16 ?y) with (y mod 65536). apply Z.mod_small. lia. }
  destruct (pseudo_header_spec source destination (Z.of_nat (length payload))) as [Hph Hphl].
  destruct (add_words_spec 6 0 _ Hph) as (c1 & -> & Hc1 & k1 & Hk1); [by rewrite Hphl | lia|]. rewrite bind_Ret.
  rewrite take_ge in Hk1 by (by rewrite Hphl).
  destruct (add_words_spec 10 c1 (TCPPacket_bytes p ++ payload)) as (c2 & -> & Hc2 & k2 & Hk2);
    [apply Forall_app; split; [apply TCPPacket_bytes_bytes | done]
    | rewrite length_app, TCPPacket_bytes_length; lia | done|]. rewrite bind_Ret.
  rewrite take_app_length' in Hk2 by (by rewrite TCPPacket_bytes_length).
  rewrite TCPPacket_read_bytes by done. rewrite bind_Ret. rewrite Hoff, VERIFY_true by done. rewrite bind_Ret.
  unfold header_size. rewrite Hoff. change (Z.to_nat (5 * 4)) with 20%nat. rewrite drop_app_length' by (by rewrite TCPPacket_bytes_length).
  destruct (payload_words_spec c2 payload Hb ltac:(lia) Hc2) as (c3 & Heq & Hc3 & k3 & Hk3).
  rewrite <- bind_assoc, Heq. rewrite bind_Ret. eexists. split; [done|]. rewrite complement16 by done. split; [lia|].
  rewrite (words_sum_app 6 _ _ Hphl), (words_sum_app 10 _ _ (TCPPacket_bytes_length p)).
  exists (k1 + k2 + k3 + 1). lia.
Qed.

(** Also for a payload that is too long for a packet, computing the checksum does not fail. *)
Lemma compute_tcp_checksum_total source destination p payload :
  packet_ok p -> data_offset p = 5 -> is_bytes payload ->
  exists c, compute_tcp_checksum source destination (TCPPacket_bytes p ++ payload) (Z.of_nat (length payload)) = Ret c /\
    0 <= c <= 65535.
Proof.
  intros Hp Hoff Hb. unfold compute_tcp_checksum.
  assert (0 <= wrap u16 (Z.of_nat (length payload)) <= Z.of_nat (length payload)) as Hn.
  { change (wrap u16 ?y) with (y mod 65536). split; [apply Z.mod_pos_bound; lia | apply Z.mod_le; lia]. }
  set (n := wrap u16 (Z.of_nat (length payload))) in *. clearbody n.
  destruct (pseudo_header_spec source destination n) as [Hph Hphl].
  destruct (add_words_spec 6 0 _ Hph) as (c1 & -> & Hc1 & _); [by rewrite Hphl | lia|]. rewrite bind_Ret.
  destruct (add_words_spec 10 c1 (TCPPacket_bytes p ++ payload)) as (c2 & -> & Hc2 & _);
    [apply Forall_app; split; [apply TCPPacket_bytes_bytes | done]
    | rewrite length_app, TCPPacket_bytes_length; lia | done|]. rewrite bind_Ret.
  rewrite TCPPacket_read_bytes by done. rewrite bind_Ret. rewrite Hoff, VERIFY_true by done. rewrite bind_Ret.
  unfold header_size. rewrite Hoff. change (Z.to_nat (5 * 4)) with 20%nat.
  rewrite drop_app_length' by (by rewrite TCPPacket_bytes_length).
  pose proof (Z.div_mod n 2 ltac:(lia)) as Hdm. pose proof (Z.mod_pos_bound n 2 ltac:(lia)).
  destruct (add_words_spec (Z.to_nat (n / 2)) c2 payload) as (c3 & -> & Hc3 & _); [done | lia | done|]. rewrite bind_Ret.
  destruct (negb (Z.land n 1 =? 0)) eqn:E.
  - assert (Z.land n 1 = n mod 2) as Hl by (by apply (Z.land_ones _ 1)). rewrite Hl in E.
    destruct (lookup_lt_is_Some_2 payload (Z.to_nat (n - 1))) as (x & Hx); [lia|].
    unfold load. rewrite (proj2 (Z.leb_le 0 (n - 1))), Hx by lia. rewrite !bind_Ret.
    pose proof (Forall_lookup_1 _ _ _ _ Hb Hx) as Hxb. cbn beta in Hxb.
    assert (0 <= wrap u16 (Z.shiftl x 8) <= 65535) as Hw.
    { change (wrap u16 ?y) with (y mod 65536). pose proof (Z.mod_pos_bound (Z.shiftl x 8) 65536). lia. }
    destruct (add_word_spec c3 _ Hc3 Hw) as [Hc4 _]. eexists. split; [done|]. rewrite complement16 by done. lia.
  - rewrite bind_Ret. eexists. split; [done|]. rewrite complement16 by done. lia.
Qed.

(** [set_checksum]. *)
Definition with_checksum (p : TCPPacket) (checksum : Z) : TCPPacket :=
  MkPacket (p_source_port p) (p_destination_port p) (p_sequence_number p) (p_ack_number p)
    (p_flags_and_data_offset p) (p_window_size p) checksum (p_urgent p).

(** The checksum is one of the words. *)
Lemma words_sum_with_checksum p c payload :
  packet_ok p -> p_checksum p = 0 -> 0 <= c <= 65535 ->
  words_sum (TCPPacket_bytes (with_checksum p c) ++ payload) = words_sum (TCPPacket_bytes p ++ payload) + c.
Proof.
  intros Hp H0 Hc. unfold TCPPacket_bytes, with_checksum, network32, network16.
  cbn [app words_sum p_source_port p_destination_port p_sequence_number p_ack_number
       p_flags_and_data_offset p_window_size p_checksum p_urgent].
  rewrite H0. rewrite (host_network16 c) by lia. rewrite (host_network16 0) by lia. lia.
Qed.

(** C38. The checksum [send_tcp_packet] writes into a packet (Kernel/Net/TCPSocket.cpp:299-338)
    verifies: with it, the 16 bit words of pseudo header, header and payload, an odd last byte
    being padded with zero, add up to a multiple of 65535.  Computing it never fails its
    [VERIFY] and never reads outside the packet. *)
Theorem tcp_checksum_verifies source destination p payload :
  packet_ok p -> p_checksum p = 0 -> data_offset p = 5 -> is_bytes payload ->
  Z.of_nat (length payload) <= 65515 ->
  exists c, compute_tcp_checksum source destination (TCPPacket_bytes p ++ payload) (Z.of_nat (length payload)) = Ret c /\
    0 <= c <= 65535 /\
    words_sum (pseudo_header source destination (Z.of_nat (length payload)) ++
               TCPPacket_bytes (with_checksum p c) ++ payload) mod 65535 = 0.
Proof.
  intros Hp H0 Hoff Hb Hlen.
  destruct (compute_tcp_checksum_spec source destination p payload Hp Hoff Hb Hlen) as (c & Heq & Hc & [k Hk]).
  exists c. split; [done|]. split; [done|]. apply Z.mod_divide; [done|]. exists k.
  destruct (pseudo_header_spec source destination (Z.of_nat (length payload))) as [_ Hphl].
  rewrite (words_sum_app 6 _ _ Hphl), words_sum_with_checksum by done.
  rewrite (words_sum_app 6 _ _ Hphl) in Hk. lia.
Qed.

(** A SYN with an odd payload. *)
Definition example_packet : TCPPacket :=
  MkPacket 40000 80 0xfedcba98 0 (set_flags (set_data_offset 0 5) SYN) 1024 0 0.

Lemma tcp_checksum_verifies_witness :
  (exists c, compute_tcp_checksum 0x0100007f 0x0f02000a (TCPPacket_bytes example_packet ++ [1; 2; 255]) 3 = Ret c /\
    0 <= c <= 65535 /\
    words_sum (pseudo_header 0x0100007f 0x0f02000a 3 ++
               TCPPacket_bytes (with_checksum example_packet c) ++ [1; 2; 255]) mod 65535 = 0) /\
  compute_tcp_checksum 0x0100007f 0x0f02000a (TCPPacket_bytes example_packet ++ [1; 2; 255]) 3 = Ret 51910.
Proof.
  split; [|vm_compute; reflexivity].
  apply (tcp_checksum_verifies 0x0100007f 0x0f02000a example_packet [1; 2; 255]);
    [split; vm_compute; split; congruence | reflexivity | reflexivity
    | repeat constructor; lia | vm_compute; congruence].
Defined.

(** ** The checksum of IPv4 *)

Lemma shiftr16 x : Z.shiftr x 16 = x / 65536.
Proof. by rewrite Z.shiftr_div_pow2. Qed.
Lemma land16 x : Z.land x 0xffff = x mod 65536.
Proof. by apply (Z.land_ones x 16). Qed.

(** As long as the sum stays below 2^31, it is not reduced on the way. *)
Lemma internet_words_spec n c bytes :
  is_bytes bytes -> (length bytes <= 2 * n + 1)%nat -> 0 <= c -> c + 65535 * Z.of_nat n < 2 ^ 31 ->
  internet_words c bytes = c + words_sum (take (2 * (length bytes / 2)) bytes).
Proof.
  revert c bytes. induction n as [|n IH]; intros c bytes Hb Hn Hc Hs.
  - destruct bytes as [|a [|b bytes]]; [simpl; lia.. | cbn [length] in Hn; lia].
  - destruct bytes as [|a [|b bytes]]; [simpl; lia.. |]. cbn [internet_words].
    apply Forall_cons in Hb as [Ha [Hb' Hb]%Forall_cons]. cbn beta in *.
    assert (0 <= host16 a b <= 65535) as Hw by (unfold host16; lia).
    rewrite (wrap_id u32 eq_refl) by int_lia.
    assert (Z.land (c + host16 a b) 0x80000000 = 0) as ->.
    { apply Z.bits_inj'. intros i Hi. rewrite Z.bits_0, Z.land_spec.
      change 0x80000000 with (2 ^ 31). rewrite Z.pow2_bits_eqb by done.
      destruct (Z.eqb_spec 31 i) as [<-|]; [|apply andb_false_r].
      rewrite Z.testbit_eqb, Z.div_small by lia. done. }
    cbn [Z.eqb negb]. cbn [length] in Hn. rewrite IH by (done || lia).
    replace (length (a :: b :: bytes) / 2)%nat with (S (length bytes / 2)).
    { replace (2 * S (length bytes / 2))%nat with (S (S (2 * (length bytes / 2)))) by lia. cbn [take words_sum]. lia. }
    cbn [length]. replace (S (S (length bytes))) with (length bytes + 1 * 2)%nat by lia.
    rewrite Nat.div_add by lia. lia.
Qed.

(** An odd last byte is left out. *)
Lemma internet_words_odd c bytes :
  Nat.even (length bytes) = false -> internet_words c bytes = internet_words c (removelast bytes).
Proof.
  remember (length bytes) as n eqn:Hn. revert c bytes Hn.
  induction n as [n IH] using lt_wf_ind. intros c bytes -> E.
  destruct bytes as [|a [|b [|d bytes]]]; [done | done | done |].
  change (removelast (a :: b :: d :: bytes)) with (a :: b :: removelast (d :: bytes)).
  set (rest := d :: bytes) in *. cbn [internet_words]. apply (IH (length rest)); [unfold rest; cbn; lia | done | exact E].
Qed.

Lemma fold_checksum_spec c :
  0 <= c < 4294967296 -> exists c', fold_checksum 4 c = Ret c' /\ 0 <= c' <= 65535 /\ (65535 | c - c').
Proof.
  intros Hc. cbn [fold_checksum]. rewrite !shiftr16, !land16.
  destruct (Z.eqb_spec (c / 65536) 0) as [H0|H0]; [exists c; split; [done|]; split; [int_lia | exists 0; lia]|].
  set (c1 := c mod 65536 + c / 65536).
  assert (c = 65536 * (c / 65536) + c mod 65536) as Hdm by (apply Z.div_mod; lia).
  assert (0 <= c1 <= 131070) as Hc1 by (unfold c1; int_lia).
  assert (c - c1 = 65535 * (c / 65536)) as Hk1 by (unfold c1; lia).
  clearbody c1.
  destruct (Z.eqb_spec (c1 / 65536) 0) as [H1|H1].
  { exists c1. split; [done|]. split; [int_lia|]. exists (c / 65536). lia. }
  assert (c1 / 65536 = 1) as -> by int_lia. assert (c1 mod 65536 = c1 - 65536) as -> by int_lia.
  assert ((c1 - 65536 + 1) / 65536 = 0) as -> by int_lia. cbn [Z.eqb].
  exists (c1 - 65536 + 1). split; [done|]. split; [int_lia|]. exists (c / 65536 + 1). lia.
Qed.

(** [internet_checksum] (Kernel/Net/IPv4.h:102-115) ends and gives, for an even number of
    bytes of at most an IPv4 packet, the ones' complement checksum: it and the words of the
    data add up to a multiple of 65535.  Of an odd number of bytes it leaves out the last
    one, whatever it is. *)
Theorem internet_checksum_correct bytes :
  is_bytes bytes -> Z.of_nat (length bytes) <= 65535 ->
  exists c, internet_checksum bytes = Ret c /\ 0 <= c <= 65535 /\
    (if Nat.even (length bytes) then (words_sum bytes + c) mod 65535 = 0
     else internet_checksum bytes = internet_checksum (removelast bytes)).
Proof.
  intros Hb Hn.
  assert (forall bs, is_bytes bs -> Z.of_nat (length bs) <= 65535 -> exists c,
    internet_checksum bs = Ret c /\ 0 <= c <= 65535 /\
    (words_sum (take (2 * (length bs / 2)) bs) + c) mod 65535 = 0) as Hgen.
  { intros bs Hbs Hl. unfold internet_checksum.
    pose proof (Nat.div_mod_eq (length bs) 2). pose proof (Nat.mod_upper_bound (length bs) 2 ltac:(lia)).
    rewrite (internet_words_spec (length bs / 2)) by (done || lia).
    assert (is_bytes (take (2 * (length bs / 2)) bs)) as Hw%words_sum_bound by (by apply Forall_take).
    rewrite (Nat.mul_comm 2) in *. rewrite length_take, Nat.min_l, Nat.div_mul, Nat.Div0.mod_mul in Hw by lia.
    destruct (fold_checksum_spec (0 + words_sum (take (length bs / 2 * 2) bs))) as (c & -> & Hc & [k Hk]); [lia|].
    rewrite bind_Ret. eexists. split; [done|].
    assert (wrap u16 (Z.land (Z.lnot c) 65535) = 65535 - c) as ->.
    { rewrite land16. rewrite <- (complement16 c Hc). rewrite land16, (Z.mod_small c) by lia.
      change (wrap u16 ?x) with (x mod 65536). by rewrite Z.mod_mod. }
    split; [lia|]. apply Z.mod_divide; [done|]. exists (k + 1). lia. }
  destruct (Hgen bytes Hb Hn) as (c & Heq & Hc & Hsum). exists c. split; [done|]. split; [done|].
  destruct (Nat.even (length bytes)) eqn:E.
  - apply Nat.even_spec in E as [h Hh]. rewrite take_ge in Hsum; [done|].
    rewrite Hh, (Nat.mul_comm 2 h), Nat.div_mul by lia. lia.
  - unfold internet_checksum. by rewrite internet_words_odd.
Qed.

Lemma internet_checksum_correct_witness :
  (exists c, internet_checksum [0x45; 0; 0xff; 0xff; 0x12] = Ret c /\ 0 <= c <= 65535 /\
    (if Nat.even 5 then (words_sum [0x45; 0; 0xff; 0xff; 0x12] + c) mod 65535 = 0
     else internet_checksum [0x45; 0; 0xff; 0xff; 0x12] = internet_checksum [0x45; 0; 0xff; 0xff])) /\
  internet_checksum [0x45; 0; 0xff; 0xff] = Ret 0xbaff.
Proof.
  split; [|vm_compute; reflexivity].
  apply (internet_checksum_correct [0x45; 0; 0xff; 0xff; 0x12]); [repeat constructor; lia | vm_compute; congruence].
Defined.
