(* ===== verification/TcpSocket.v ===== *)
(** * Kernel/Net/TCPSocket: TCP sockets

    [TCPSocket] with what it inherits from [Socket] and [IPv4Socket]: binding, listening,
    connecting, sending, receiving and closing.  The sockets live in a store, [Net], next to
    the two tables of the class; a socket is known by a number that stands for its address.
    Each operation holds the lock of the socket and is atomic here; an operation that blocks
    is split where it waits.  Waking threads up ([evaluate_block_conditions]) has no effect
    on this state.

    What the network does is in [Environment]: whether there is a route and through which
    adapter, and what sending gives.  [IPv4SocketTuple] is not part of the sources; its
    constructor and the two accessors used here are the class [SocketTuple].  The packets of
    the network are handled in Tcp.v. *)

From stdpp Require Import gmap.
From S2P Require Import Prelude AKTime DoubleBuffer TcpPacket.

#[local] Open Scope Z_scope.

(** ** Types *)

Inductive State : Type :=
  | Closed | Listen | SynSent | SynReceived | Established | CloseWait | LastAck
  | FinWait1 | FinWait2 | Closing | TimeWait.

Inductive Direction : Type := Unspecified | Outgoing | Incoming | Passive.
Inductive Error : Type := NoError | FINDuringConnect | RSTDuringConnect | UnexpectedFlagsDuringConnect.
Inductive SetupState : Type := Unstarted | InProgress | Completed.
Inductive Role : Type := NoRole | Listener | Accepted | Connected | Connecting.

#[global] Instance State_eq_dec : EqDecision State.
Proof. solve_decision. Defined.
#[global] Instance Direction_eq_dec : EqDecision Direction.
Proof. solve_decision. Defined.
#[global] Instance Error_eq_dec : EqDecision Error.
Proof. solve_decision. Defined.
#[global] Instance SetupState_eq_dec : EqDecision SetupState.
Proof. solve_decision. Defined.
#[global] Instance Role_eq_dec : EqDecision Role.
Proof. solve_decision. Defined.

(** Results are 0 or a negated error number, as in [KResult]. *)
Definition KSuccess : Z := 0.
Definition EAGAIN : Z := 11.
Definition EACCES : Z := 13.
Definition EINVAL : Z := 22.
Definition EPIPE : Z := 32.
Definition EAFNOSUPPORT : Z := 40.
Definition EADDRINUSE : Z := 42.
Definition ECONNREFUSED : Z := 46.
Definition EADDRNOTAVAIL : Z := 47.
Definition EISCONN : Z := 48.
Definition EHOSTUNREACH : Z := 53.
Definition ENOPROTOOPT : Z := 62.
Definition ENOTCONN : Z := 63.
Definition EINPROGRESS : Z := 68.

Record OutgoingPacket : Type := MkOutgoing {
  o_ack_number : Z;
  o_buffer : list Z;
  o_tx_counter : Z;
  o_tx_time : Time
}.

(** [IPv4SocketTuple]. *)
Class SocketTuple (Tuple : Type) : Type := {
  mk_tuple : Z -> Z -> Z -> Z -> Tuple;
  tuple_local_address : Tuple -> Z;
  tuple_local_port : Tuple -> Z
}.

Class SocketTupleLaws (Tuple : Type) `{SocketTuple Tuple} : Prop := {
  tuple_local_address_mk la lp pa pp : tuple_local_address (mk_tuple la lp pa pp) = la;
  tuple_local_port_mk la lp pa pp : tuple_local_port (mk_tuple la lp pa pp) = lp;
  tuple_inj la lp pa pp la' lp' pa' pp' :
    mk_tuple la lp pa pp = mk_tuple la' lp' pa' pp' -> la = la' /\ lp = lp' /\ pa = pa' /\ pp = pp'
}.

(** What the rest of the kernel says: the adapter's address of a route to a peer from a local
    address, the result of sending a packet to it, the time, whether an address is one of an
    adapter, and the memory of a new receive buffer. *)
Record Environment : Type := MkEnv {
  route_to : Z -> Z -> option Z;
  send_ipv4 : Z -> list Z -> Z;
  kgettimeofday : Time;
  from_ipv4_address : Z -> bool;
  new_storage : list Z
}.

(** A [sockaddr_in] in user space: whether its size is right, whether its family and all of it
    can be copied, whether the family is AF_INET, and the address and the port. *)
Record UserAddress : Type := MkAddress {
  ua_size : bool;
  ua_family_readable : bool;
  ua_readable : bool;
  ua_inet : bool;
  ua_address : Z;
  ua_port : Z
}.

(** An address that is all right. *)
Definition inet (address port : Z) : UserAddress := MkAddress true true true true address port.

Section sockets.
Context {Tuple : Type} `{Countable Tuple} `{!SocketTuple Tuple}.

Record TCPSocket : Type := MkSocket {
  m_role : Role;
  m_backlog : Z;
  m_setup_state : SetupState;
  m_connected : bool;
  m_shut_down_for_reading : bool;
  m_shut_down_for_writing : bool;
  m_pending : list nat;
  m_local_address : Z;
  m_peer_address : Z;
  m_local_port : Z;
  m_peer_port : Z;
  m_receive_buffer : DoubleBuffer;
  m_bytes_received : Z;
  m_can_read : bool;
  m_originator : option nat;
  m_pending_release_for_accept : gmap Tuple nat;
  m_direction : Direction;
  m_error : Error;
  m_adapter : bool;
  m_sequence_number : Z;
  m_ack_number : Z;
  m_state : State;
  m_packets_in : Z;
  m_bytes_in : Z;
  m_packets_out : Z;
  m_bytes_out : Z;
  m_not_acked : list OutgoingPacket
}.

#[global] Instance TCPSocket_settable : Settable TCPSocket :=
  Build_Settable TCPSocket (fun s => MkSocket (m_role s) (m_backlog s) (m_setup_state s) (m_connected s)
    (m_shut_down_for_reading s) (m_shut_down_for_writing s) (m_pending s) (m_local_address s) (m_peer_address s)
    (m_local_port s) (m_peer_port s) (m_receive_buffer s) (m_bytes_received s) (m_can_read s) (m_originator s)
    (m_pending_release_for_accept s) (m_direction s) (m_error s) (m_adapter s) (m_sequence_number s)
    (m_ack_number s) (m_state s) (m_packets_in s) (m_bytes_in s) (m_packets_out s) (m_bytes_out s)
    (m_not_acked s)) ltac:(by intros []).

(** The sockets by number, [sockets_by_tuple()] and [closing_sockets()], the sockets that
    file descriptors refer to, the number of the next socket, and the packets sent: the
    address of the adapter, the destination and the bytes. *)
Record Net : Type := MkNet {
  sockets : gmap nat TCPSocket;
  sockets_by_tuple : gmap Tuple nat;
  closing_sockets : gmap Tuple nat;
  held : gset nat;
  next_socket : nat;
  sent : list (Z * Z * list Z)
}.

#[global] Instance Net_settable : Settable Net :=
  Build_Settable Net (fun n => MkNet (sockets n) (sockets_by_tuple n) (closing_sockets n) (held n)
    (next_socket n) (sent n)) ltac:(by intros []).

Definition get (net : Net) (id : nat) : outcome TCPSocket :=
  match sockets net !! id with Some s => Ret s | None => Stop Undefined end.
Definition put (net : Net) (id : nat) (s : TCPSocket) : Net :=
  net <| sockets := <[id := s]> (sockets net) |>.

Definition tuple (s : TCPSocket) : Tuple :=
  mk_tuple (m_local_address s) (m_local_port s) (m_peer_address s) (m_peer_port s).

(** ** Sending *)

(** The loop of [send_outgoing_packets]. *)
Fixpoint send_not_acked (env : Environment) (adapter peer : Z) (packets : list OutgoingPacket)
    (packets_out bytes_out : Z) : outcome (list OutgoingPacket * Z * Z * list (Z * Z * list Z)) :=
  match packets with
  | [] => Ret ([], packets_out, bytes_out, [])
  | packet :: packets =>
      diff ← Time_sub (kgettimeofday env) (o_tx_time packet);
      limit ← Time_from_nanoseconds 500000000;
      if Time_le diff limit then
        '(packets, packets_out, bytes_out, out) ← send_not_acked env adapter peer packets packets_out bytes_out;
        Ret (packet :: packets, packets_out, bytes_out, out)
      else
        let packet := MkOutgoing (o_ack_number packet) (o_buffer packet) (o_tx_counter packet + 1) (kgettimeofday env) in
        let ok := negb (send_ipv4 env peer (o_buffer packet) <? 0) in
        let size := Z.of_nat (length (o_buffer packet)) in
        '(packets, packets_out, bytes_out, out) ←
          send_not_acked env adapter peer packets
            (if ok then wrap u32 (packets_out + 1) else packets_out)
            (if ok then wrap u32 (bytes_out + size) else bytes_out);
        Ret (packet :: packets, packets_out, bytes_out,
             if ok then (adapter, peer, o_buffer packet) :: out else out)
  end.

Definition send_outgoing_packets (env : Environment) (net : Net) (id : nat) : outcome Net :=
  s ← get net id;
  match route_to env (m_peer_address s) (m_local_address s) with
  | None => Ret net
  | Some adapter =>
      '(packets, packets_out, bytes_out, out) ←
        send_not_acked env adapter (m_peer_address s) (m_not_acked s) (m_packets_out s) (m_bytes_out s);
      Ret (put net id (s <| m_not_acked := packets |> <| m_packets_out := packets_out |> <| m_bytes_out := bytes_out |>)
             <| sent := sent net ++ out |>)
  end.

(** [flags & f]. *)
Definition has_flag (flags f : Z) : bool := negb (Z.land flags f =? 0).

(** The header that [send_tcp_packet] fills in, without the checksum. *)
Definition outgoing_header (s : TCPSocket) (flags : Z) : TCPPacket :=
  MkPacket (m_local_port s) (m_peer_port s) (m_sequence_number s)
    (if has_flag flags ACK then m_ack_number s else 0)
    (set_flags (set_data_offset 0 (sizeof_TCPPacket / 4)) flags) 1024 0 0.

(** [payload] is [None] for the null pointer. *)
Definition send_tcp_packet (env : Environment) (net : Net) (id : nat) (flags : Z)
    (payload : option UserBuffer) (payload_size : Z) : outcome (Z * Net) :=
  s ← get net id;
  let buffer_size := wrap size_t (sizeof_TCPPacket + payload_size) in
  VERIFY (negb (m_local_port s =? 0)) ;;
  let header := outgoing_header s flags in
  let '(data, ok) :=
    match payload with
    | Some u => let '(copied, ok) := user_copy u (Z.to_nat payload_size) in
                (take copied (u_bytes u) ++ replicate (Z.to_nat payload_size - copied) 0, ok)
    | None => (replicate (Z.to_nat payload_size) 0, true)
    end in
  if negb ok then Ret (- EFAULT, net)
  else
    let s := s <| m_sequence_number :=
      if has_flag flags SYN then wrap u32 (m_sequence_number s + 1)
      else wrap u32 (m_sequence_number s + payload_size) |> in
    checksum ← compute_tcp_checksum (m_local_address s) (m_peer_address s) (TCPPacket_bytes header ++ data) payload_size;
    let buffer := TCPPacket_bytes (with_checksum header checksum) ++ data in
    if has_syn header || (0 <? payload_size) then
      let net := put net id (s <| m_not_acked :=
        m_not_acked s ++ [MkOutgoing (m_sequence_number s) buffer 0 Time_zero] |>) in
      net ← send_outgoing_packets env net id;
      Ret (KSuccess, net)
    else
      match route_to env (m_peer_address s) (m_local_address s) with
      | None => Ret (- EHOSTUNREACH, put net id s)
      | Some adapter =>
          let result := send_ipv4 env (m_peer_address s) buffer in
          if negb (result =? 0) then Ret (result, put net id s)
          else
            Ret (KSuccess,
                 put net id (s <| m_packets_out := wrap u32 (m_packets_out s + 1) |>
                               <| m_bytes_out := wrap u32 (m_bytes_out s + buffer_size) |>)
                   <| sent := sent net ++ [(adapter, m_peer_address s, buffer)] |>)
      end.

(** ** States *)

Definition protocol_is_disconnected (s : TCPSocket) : bool :=
  match m_state s with
  | Closed | CloseWait | LastAck | FinWait1 | FinWait2 | Closing | TimeWait => true
  | _ => false
  end.

Definition queue_connection_from (net : Net) (id peer : nat) : outcome (Z * Net) :=
  s ← get net id;
  if m_backlog s <=? Z.of_nat (length (m_pending s)) then Ret (- ECONNREFUSED, net)
  else Ret (KSuccess, put net id (s <| m_pending := m_pending s ++ [peer] |>)).

Definition release_for_accept (net : Net) (id socket : nat) : outcome Net :=
  s ← get net id;
  c ← get net socket;
  VERIFY (bool_decide (is_Some (m_pending_release_for_accept s !! tuple c))) ;;
  let net := put net id (s <| m_pending_release_for_accept := delete (tuple c) (m_pending_release_for_accept s) |>) in
  '(_, net) ← queue_connection_from net id socket;
  Ret net.

(** [!!m_originator]: the listener has not been destroyed. *)
Definition has_originator (net : Net) (s : TCPSocket) : bool :=
  match m_originator s with Some o => bool_decide (is_Some (sockets net !! o)) | None => false end.

Definition release_to_originator (net : Net) (id : nat) : outcome Net :=
  s ← get net id;
  VERIFY (has_originator net s) ;;
  match m_originator s with
  | Some o =>
      net ← release_for_accept net o id;
      s ← get net id;
      Ret (put net id (s <| m_originator := None |>))
  | None => Stop Undefined
  end.

Definition set_state (net : Net) (id : nat) (new_state : State) : outcome Net :=
  s ← get net id;
  let s := s <| m_state := new_state |> in
  let s := if bool_decide (new_state = Established) && bool_decide (m_direction s = Outgoing)
           then s <| m_role := Connected |> else s in
  let net := put net id s in
  if bool_decide (new_state = Closed) then
    let net := net <| closing_sockets := delete (tuple s) (closing_sockets net) |> in
    if has_originator net s then release_to_originator net id else Ret net
  else Ret net.

(** ** Looking up and creating *)

Definition from_tuple (net : Net) (t : Tuple) : option nat :=
  match sockets_by_tuple net !! t with
  | Some id => Some id
  | None =>
      match sockets_by_tuple net !! mk_tuple (tuple_local_address t) (tuple_local_port t) 0 0 with
      | Some id => Some id
      | None => sockets_by_tuple net !! mk_tuple 0 (tuple_local_port t) 0 0
      end
  end.

(** A socket as the constructors leave it. *)
Definition new_socket (env : Environment) : TCPSocket :=
  MkSocket NoRole 0 Unstarted false false false [] 0 0 0 0 (DoubleBuffer_new (new_storage env) 65536) 0 false
    None ∅ Unspecified NoError false 0 0 Closed 0 0 0 0 [].

(** [socket]: a new socket that a file descriptor refers to. *)
Definition TCPSocket_create (env : Environment) (net : Net) : nat * Net :=
  let id := next_socket net in
  (id, put net id (new_socket env) <| next_socket := S id |> <| held := {[id]} ∪ held net |>).

Definition create_client (env : Environment) (net : Net) (id : nat)
    (local_address local_port peer_address peer_port : Z) : outcome (option nat * Net) :=
  let t := mk_tuple local_address local_port peer_address peer_port in
  if bool_decide (is_Some (sockets_by_tuple net !! t)) then Ret (None, net)
  else
    let client := next_socket net in
    let c := new_socket env <| m_setup_state := InProgress |> <| m_local_address := local_address |>
               <| m_local_port := local_port |> <| m_peer_address := peer_address |> <| m_peer_port := peer_port |>
               <| m_direction := Incoming |> <| m_originator := Some id |> in
    let net := put net client c <| next_socket := S client |> in
    s ← get net id;
    let net := put net id (s <| m_pending_release_for_accept := <[t := client]> (m_pending_release_for_accept s) |>) in
    let net := net <| sockets_by_tuple := <[t := client]> (sockets_by_tuple net) |> in
    Ret (from_tuple net t, net).

(** [~TCPSocket]. *)
Definition TCPSocket_destroy (net : Net) (id : nat) : outcome Net :=
  s ← get net id;
  Ret (net <| sockets_by_tuple := delete (tuple s) (sockets_by_tuple net) |>
           <| sockets := delete id (sockets net) |>).

(** ** Ports *)

Definition first_ephemeral_port : Z := 32768.
Definition last_ephemeral_port : Z := 60999.

Fixpoint scan_ports (fuel : nat) (net : Net) (s : TCPSocket) (first_scan_port port : Z) : outcome (option Z) :=
  match fuel with
  | O => Stop NoFuel
  | S fuel =>
      match sockets_by_tuple net !! mk_tuple (m_local_address s) port (m_peer_address s) (m_peer_port s) with
      | None => Ret (Some port)
      | Some _ =>
          let port := wrap u16 (port + 1) in
          let port := if last_ephemeral_port <? port then first_ephemeral_port else port in
          if port =? first_scan_port then Ret None else scan_ports fuel net s first_scan_port port
      end
  end.

(** [random] is the number [get_good_random] gives.  The result is the port. *)
Definition protocol_allocate_local_port (random : Z) (net : Net) (id : nat) : outcome (Z * Net) :=
  s ← get net id;
  let first_scan_port := wrap u16 (first_ephemeral_port + random mod (last_ephemeral_port - first_ephemeral_port)) in
  port ← scan_ports (Z.to_nat (last_ephemeral_port - first_ephemeral_port + 1)) net s first_scan_port first_scan_port;
  match port with
  | Some port =>
      Ret (port, put net id (s <| m_local_port := port |>)
        <| sockets_by_tuple := <[mk_tuple (m_local_address s) port (m_peer_address s) (m_peer_port s) := id]>
                                 (sockets_by_tuple net) |>)
  | None => Ret (- EADDRINUSE, net)
  end.

Definition allocate_local_port_if_needed (random : Z) (net : Net) (id : nat) : outcome (Z * Net) :=
  s ← get net id;
  if negb (m_local_port s =? 0) then Ret (m_local_port s, net)
  else
    '(port, net) ← protocol_allocate_local_port random net id;
    if port <? 0 then Ret (port, net)
    else
      s ← get net id;
      Ret (port, put net id (s <| m_local_port := port |>)).

(** ** System calls *)

Definition protocol_bind (env : Environment) (net : Net) (id : nat) : outcome (Z * Net) :=
  s ← get net id;
  if negb (m_local_address s =? 0) && negb (m_adapter s) then
    let s := s <| m_adapter := from_ipv4_address env (m_local_address s) |> in
    Ret (if m_adapter s then KSuccess else - EADDRNOTAVAIL, put net id s)
  else Ret (KSuccess, net).

Definition IPv4Socket_bind (env : Environment) (superuser : bool) (net : Net) (id : nat) (user_address : UserAddress)
    : outcome (Z * Net) :=
  s ← get net id;
  VERIFY (bool_decide (m_setup_state s = Unstarted)) ;;
  if negb (ua_size user_address) then Ret (- EINVAL, net)
  else if negb (ua_readable user_address) then Ret (- EFAULT, net)
  else if negb (ua_inet user_address) then Ret (- EINVAL, net)
  else
    let requested_local_port := ua_port user_address in
    if negb superuser && ((0 <? requested_local_port) && (requested_local_port <? 1024)) then Ret (- EACCES, net)
    else
      let s := s <| m_local_address := ua_address user_address |> <| m_local_port := requested_local_port |> in
      protocol_bind env (put net id s) id.

Definition protocol_listen (net : Net) (id : nat) : outcome (Z * Net) :=
  s ← get net id;
  if bool_decide (is_Some (sockets_by_tuple net !! tuple s)) then Ret (- EADDRINUSE, net)
  else
    let net := net <| sockets_by_tuple := <[tuple s := id]> (sockets_by_tuple net) |> in
    let net := put net id (s <| m_direction := Passive |>) in
    net ← set_state net id Listen;
    s ← get net id;
    Ret (KSuccess, put net id (s <| m_setup_state := Completed |>)).

Definition IPv4Socket_listen (random : Z) (net : Net) (id : nat) (backlog : Z) : outcome (Z * Net) :=
  '(result, net) ← allocate_local_port_if_needed random net id;
  if (result <? 0) && negb (result =? - ENOPROTOOPT) then Ret (result, net)
  else
    s ← get net id;
    protocol_listen (put net id (s <| m_backlog := backlog |> <| m_role := Listener |>)) id.

(** [protocol_connect] until it blocks; a descriptor that does not block gets [EINPROGRESS]. *)
Definition protocol_connect (env : Environment) (random sequence_number : Z) (net : Net) (id : nat)
    : outcome (Z * Net) :=
  s ← get net id;
  match route_to env (m_peer_address s) (m_local_address s) with
  | None => Ret (- EHOSTUNREACH, net)
  | Some adapter =>
      let net := if m_local_address s =? 0 then put net id (s <| m_local_address := adapter |>) else net in
      '(result, net) ← allocate_local_port_if_needed random net id;
      if result <? 0 then Ret (result, net)
      else
        s ← get net id;
        let net := put net id (s <| m_sequence_number := sequence_number |> <| m_ack_number := 0 |>
                                 <| m_setup_state := InProgress |>) in
        '(err, net) ← send_tcp_packet env net id SYN None 0;
        if err <? 0 then Ret (err, net)
        else
          s ← get net id;
          Ret (- EINPROGRESS, put net id (s <| m_state := SynSent |> <| m_role := Connecting |>
                                            <| m_direction := Outgoing |>))
  end.

(** The rest of a blocking [protocol_connect], once the thread was unblocked. *)
Definition protocol_connect_finish (net : Net) (id : nat) : outcome (Z * Net) :=
  s ← get net id;
  VERIFY (bool_decide (m_setup_state s = Completed)) ;;
  if negb (bool_decide (m_error s = NoError)) then Ret (- ECONNREFUSED, put net id (s <| m_role := NoRole |>))
  else Ret (KSuccess, net).

Definition IPv4Socket_connect (env : Environment) (random sequence_number : Z) (net : Net) (id : nat)
    (user_address : UserAddress) : outcome (Z * Net) :=
  s ← get net id;
  if negb (ua_size user_address) then Ret (- EINVAL, net)
  else if negb (ua_family_readable user_address) then Ret (- EFAULT, net)
  else if negb (ua_inet user_address) then Ret (- EINVAL, net)
  else if bool_decide (m_role s = Connected) then Ret (- EISCONN, net)
  else if negb (ua_readable user_address) then Ret (- EFAULT, net)
  else
    let s := s <| m_peer_address := ua_address user_address |> <| m_peer_port := ua_port user_address |> in
    protocol_connect env random sequence_number (put net id s) id.

Definition Socket_accept (net : Net) (id : nat) : outcome (option nat * Net) :=
  s ← get net id;
  match m_pending s with
  | [] => Ret (None, net)
  | client :: pending =>
      let net := put net id (s <| m_pending := pending |>) in
      c ← get net client;
      VERIFY (negb (m_connected c)) ;;
      Ret (Some client, put net client (c <| m_connected := true |> <| m_role := Accepted |>))
  end.

Definition set_can_read (s : TCPSocket) (value : bool) : TCPSocket := s <| m_can_read := value |>.

Definition shut_down_for_writing (env : Environment) (net : Net) (id : nat) : outcome Net :=
  s ← get net id;
  if bool_decide (m_state s = Established) then
    '(_, net) ← send_tcp_packet env net id (Z.lor FIN ACK) None 0;
    set_state net id FinWait1
  else Ret net.

Definition SHUT_RD : Z := 1.
Definition SHUT_WR : Z := 2.

Definition Socket_shutdown (env : Environment) (net : Net) (id : nat) (how : Z) : outcome (Z * Net) :=
  s ← get net id;
  if negb (m_connected s) then Ret (- ENOTCONN, net)
  else if bool_decide (m_role s = Listener) then Ret (- ENOTCONN, net)
  else
    net ← (if negb (m_shut_down_for_writing s) && has_flag how SHUT_WR then shut_down_for_writing env net id else Ret net);
    s ← get net id;
    let s := if negb (m_shut_down_for_reading s) && has_flag how SHUT_RD then set_can_read s true else s in
    Ret (KSuccess,
         put net id (s <| m_shut_down_for_reading := m_shut_down_for_reading s || has_flag how SHUT_RD |>
                       <| m_shut_down_for_writing := m_shut_down_for_writing s || has_flag how SHUT_WR |>)).

(** [close]. *)
Definition TCPSocket_close (env : Environment) (net : Net) (id : nat) : outcome Net :=
  '(_, net) ← Socket_shutdown env net id (Z.lor SHUT_RD SHUT_WR);
  s ← get net id;
  net ← (if bool_decide (m_state s = CloseWait) then
           '(_, net) ← send_tcp_packet env net id (Z.lor FIN ACK) None 0;
           set_state net id LastAck
         else Ret net);
  s ← get net id;
  Ret (if negb (bool_decide (m_state s = Closed)) && negb (bool_decide (m_state s = Listen))
       then net <| closing_sockets := <[tuple s := id]> (closing_sockets net) |> else net).

(** [protocol_send]: the number of bytes or an error. *)
Definition protocol_send (env : Environment) (net : Net) (id : nat) (data : UserBuffer) (data_length : Z)
    : outcome (Z * Net) :=
  '(err, net) ← send_tcp_packet env net id (Z.lor PUSH ACK) (Some data) data_length;
  if err <? 0 then Ret (err, net) else Ret (data_length, net).

(** The address that [sendto] is given becomes that of the peer. *)
Definition set_peer (net : Net) (id : nat) (addr : option UserAddress) : outcome (Z * Net) :=
  match addr with
  | None => Ret (KSuccess, net)
  | Some a =>
      if negb (ua_size a) then Ret (- EINVAL, net)
      else if negb (ua_readable a) then Ret (- EFAULT, net)
      else if negb (ua_inet a) then Ret (- EAFNOSUPPORT, net)
      else s ← get net id; Ret (KSuccess, put net id (s <| m_peer_address := ua_address a |> <| m_peer_port := ua_port a |>))
  end.

Definition IPv4Socket_sendto (env : Environment) (random : Z) (net : Net) (id : nat) (data : UserBuffer)
    (data_length : Z) (addr : option UserAddress) : outcome (Z * Net) :=
  '(err, net) ← set_peer net id addr;
  if err <? 0 then Ret (err, net)
  else
    s ← get net id;
    match route_to env (m_peer_address s) (m_local_address s) with
    | None => Ret (- EHOSTUNREACH, net)
    | Some adapter =>
        let net := if m_local_address s =? 0 then put net id (s <| m_local_address := adapter |>) else net in
        '(result, net) ← allocate_local_port_if_needed random net id;
        if (result <? 0) && negb (result =? - ENOPROTOOPT) then Ret (result, net)
        else protocol_send env net id data data_length
    end.

Definition Socket_write (env : Environment) (random : Z) (net : Net) (id : nat) (data : UserBuffer) (size : Z)
    : outcome (Z * Net) :=
  s ← get net id;
  if m_shut_down_for_writing s then Ret (- EPIPE, net)
  else IPv4Socket_sendto env random net id data size None.

(** ** Receiving *)

(** The bytes read from the receive buffer. *)
Definition read_receive_buffer (net : Net) (id : nat) (buffer : UserBuffer) (buffer_length : Z)
    : outcome (Z * list Z * Net) :=
  s ← get net id;
  VERIFY (negb (DoubleBuffer_is_empty (m_receive_buffer s))) ;;
  '(nreceived, bytes, _, b) ← DoubleBuffer_read (m_receive_buffer s) buffer buffer_length;
  let s := s <| m_receive_buffer := b |> in
  Ret (nreceived, bytes, put net id (set_can_read s (negb (DoubleBuffer_is_empty b)))).

(** [receive_byte_buffered]; [None] when the thread has to block, after which
    [read_receive_buffer] goes on. *)
Definition receive_byte_buffered (net : Net) (id : nat) (blocking : bool) (buffer : UserBuffer) (buffer_length : Z)
    : outcome (option (Z * list Z) * Net) :=
  s ← get net id;
  if DoubleBuffer_is_empty (m_receive_buffer s) then
    if protocol_is_disconnected s then Ret (Some (0, []), net)
    else if negb blocking then Ret (Some (- EAGAIN, []), net)
    else Ret (None, net)
  else
    '(nreceived, bytes, net) ← read_receive_buffer net id buffer buffer_length;
    Ret (Some (nreceived, bytes), net).

Definition IPv4Socket_can_read (s : TCPSocket) : bool :=
  if bool_decide (m_role s = Listener) then negb (bool_decide (m_pending s = []))
  else if protocol_is_disconnected s then true
  else m_can_read s.

(** [protocol_receive]: the payload of the packet, whose bytes start behind the IPv4 header. *)
Definition protocol_receive (tcp_bytes : list Z) (buffer_size : Z) : outcome (list Z) :=
  header ← TCPPacket_read tcp_bytes;
  let payload_size := wrap size_t (Z.of_nat (length tcp_bytes) - header_size header) in
  VERIFY (payload_size <=? buffer_size) ;;
  Ret (take (Z.to_nat payload_size) (drop (Z.to_nat (header_size header)) tcp_bytes)).

Definition sizeof_IPv4Packet : Z := 20.

Definition did_receive (net : Net) (id : nat) (tcp_bytes : list Z) : outcome (bool * Net) :=
  s ← get net id;
  if m_shut_down_for_reading s then Ret (false, net)
  else
    let packet_size := sizeof_IPv4Packet + Z.of_nat (length tcp_bytes) in
    if DoubleBuffer_space_for_writing (m_receive_buffer s) <? packet_size then
      VERIFY (m_can_read s) ;; Ret (false, net)
    else
      payload ← protocol_receive tcp_bytes 65536;
      '(nwritten, _, b) ← DoubleBuffer_write (m_receive_buffer s) (MkUser payload (fun _ => None))
                            (Z.of_nat (length payload));
      let s := s <| m_receive_buffer := b |> in
      if nwritten <? 0 then Ret (false, put net id s)
      else
        let s := set_can_read s (negb (DoubleBuffer_is_empty b)) in
        Ret (true, put net id (s <| m_bytes_received := wrap u32 (m_bytes_received s + packet_size) |>)).

(** The packets at the front of [m_not_acked] that are acknowledged. *)
Fixpoint drop_acked (ack_number : Z) (packets : list OutgoingPacket) : list OutgoingPacket :=
  match packets with
  | packet :: rest => if o_ack_number packet <=? ack_number then drop_acked ack_number rest else packets
  | [] => []
  end.

Definition receive_tcp_packet (s : TCPSocket) (packet : TCPPacket) (size : Z) : TCPSocket :=
  let s := if has_ack packet then s <| m_not_acked := drop_acked (p_ack_number packet) (m_not_acked s) |> else s in
  s <| m_packets_in := wrap u32 (m_packets_in s + 1) |>
    <| m_bytes_in := wrap u32 (m_bytes_in s + (header_size packet + size)) |>.

End sockets.

Arguments TCPSocket _ {_ _}.
Arguments Net _ {_ _}.
