(* ===== verification/Tcp.v ===== *)
(** * Kernel/Net/NetworkTask.cpp: the packets of TCP

    [handle_tcp] is what the network task does with a TCP packet: it finds the socket the
    packet is for and moves it through the states of TCP.

    The theorems about it are in the files that follow: TcpInvariant.v and TcpCalls.v show that
    whatever bytes arrive, handling them fails no [VERIFY], touches no destroyed socket and
    keeps the tables of sockets consistent, and that sockets only move along the edges of the
    state machine; TcpConnection.v that two hosts that exchange packets establish a connection
    and transfer bytes; TcpDefects.v states where the code departs from its intention. *)

From stdpp Require Import gmap.
From S2P Require Import Prelude AKTime DoubleBuffer TcpPacket TcpSocket.

#[local] Open Scope Z_scope.

(** The parts of an IPv4 packet that matter here; [ip_payload] are the bytes behind its header. *)
Record IPv4Packet : Type := MkIPv4 {
  ip_source : Z;
  ip_destination : Z;
  ip_payload : list Z
}.

Definition ip_payload_size (packet : IPv4Packet) : Z := Z.of_nat (length (ip_payload packet)).

Section handle.
Context {Tuple : Type} `{Countable Tuple} `{!SocketTuple Tuple}.
Implicit Types (net : Net Tuple) (s : TCPSocket Tuple).

(** Setters that [handle_tcp] calls. *)
Definition update net (id : nat) (f : TCPSocket Tuple -> TCPSocket Tuple) : outcome (Net Tuple) :=
  s ← get net id; Ret (put net id (f s)).
Definition set_ack_number net (id : nat) (n : Z) : outcome (Net Tuple) :=
  update net id (fun s => s <| m_ack_number := wrap u32 n |>).
Definition set_setup_state net (id : nat) (setup_state : SetupState) : outcome (Net Tuple) :=
  update net id (fun s => s <| m_setup_state := setup_state |>).
Definition set_connected net (id : nat) (connected : bool) : outcome (Net Tuple) :=
  update net id (fun s => s <| m_connected := connected |>).
Definition set_error net (id : nat) (error : Error) : outcome (Net Tuple) :=
  update net id (fun s => s <| m_error := error |>).

(** A packet without payload whose result is not used. *)
Definition send_flags (env : Environment) net (id : nat) (flags : Z) : outcome (Net Tuple) :=
  '(_, net) ← send_tcp_packet env net id flags None 0; Ret net.

(** Unexpected flags. *)
Definition reset (env : Environment) net (id : nat) : outcome (Net Tuple) :=
  net ← send_flags env net id RST;
  set_state net id Closed.

Definition handle_listen (env : Environment) net (id : nat) (packet : IPv4Packet) (tcp_packet : TCPPacket)
    (payload_size : Z) : outcome (Net Tuple) :=
  if flags tcp_packet =? SYN then
    '(client, net) ← create_client env net id (ip_destination packet) (p_destination_port tcp_packet)
                       (ip_source packet) (p_source_port tcp_packet);
    match client with
    | None => Ret net
    | Some client =>
        net ← update net client (fun s => s <| m_sequence_number := 1000 |>);
        net ← set_ack_number net client (p_sequence_number tcp_packet + payload_size + 1);
        net ← send_flags env net client (Z.lor SYN ACK);
        set_state net client SynReceived
    end
  else Ret net.

Definition handle_syn_sent (env : Environment) net (id : nat) (tcp_packet : TCPPacket) (payload_size : Z)
    : outcome (Net Tuple) :=
  let seq := p_sequence_number tcp_packet + payload_size in
  if flags tcp_packet =? SYN then
    net ← set_ack_number net id (seq + 1);
    net ← send_flags env net id ACK;
    set_state net id SynReceived
  else if flags tcp_packet =? Z.lor ACK SYN then
    net ← set_ack_number net id (seq + 1);
    net ← send_flags env net id ACK;
    net ← set_state net id Established;
    net ← set_setup_state net id Completed;
    set_connected net id true
  else if flags tcp_packet =? Z.lor ACK FIN then
    net ← set_ack_number net id (seq + 1);
    net ← send_flags env net id ACK;
    net ← set_state net id Closed;
    net ← set_error net id FINDuringConnect;
    set_setup_state net id Completed
  else if flags tcp_packet =? Z.lor ACK RST then
    net ← set_ack_number net id seq;
    net ← send_flags env net id ACK;
    net ← set_state net id Closed;
    net ← set_error net id RSTDuringConnect;
    set_setup_state net id Completed
  else
    net ← reset env net id;
    net ← set_error net id UnexpectedFlagsDuringConnect;
    set_setup_state net id Completed.

Definition handle_syn_received (env : Environment) net (id : nat) (tcp_packet : TCPPacket) (payload_size : Z)
    : outcome (Net Tuple) :=
  if flags tcp_packet =? ACK then
    net ← set_ack_number net id (p_sequence_number tcp_packet + payload_size);
    s ← get net id;
    match m_direction s with
    | Incoming =>
        if negb (has_originator net s) then reset env net id
        else
          net ← set_state net id Established;
          net ← set_setup_state net id Completed;
          release_to_originator net id
    | Outgoing =>
        net ← set_state net id Established;
        net ← set_setup_state net id Completed;
        set_connected net id true
    | _ => reset env net id
    end
  else reset env net id.

Definition handle_closing_states (env : Environment) net (id : nat) (state : State) (tcp_packet : TCPPacket)
    (payload_size : Z) : outcome (Net Tuple) :=
  let seq := p_sequence_number tcp_packet + payload_size in
  let f := flags tcp_packet in
  match state with
  | LastAck =>
      if f =? ACK then net ← set_ack_number net id seq; set_state net id Closed
      else reset env net id
  | FinWait1 =>
      if f =? ACK then net ← set_ack_number net id seq; set_state net id FinWait2
      else if f =? FIN then net ← set_ack_number net id (seq + 1); set_state net id Closing
      else reset env net id
  | FinWait2 =>
      if f =? FIN then net ← set_ack_number net id (seq + 1); set_state net id TimeWait
      else if f =? Z.lor ACK RST then set_state net id Closed
      else reset env net id
  | Closing =>
      if f =? ACK then net ← set_ack_number net id seq; set_state net id TimeWait
      else reset env net id
  | _ => reset env net id
  end.

Definition handle_established (env : Environment) net (id : nat) (packet : IPv4Packet) (tcp_packet : TCPPacket)
    (payload_size : Z) : outcome (Net Tuple) :=
  if has_rst tcp_packet then set_state net id Closed
  else if has_fin tcp_packet then
    net ← (if negb (payload_size =? 0) then '(_, net) ← did_receive net id (ip_payload packet); Ret net else Ret net);
    net ← set_ack_number net id (p_sequence_number tcp_packet + payload_size + 1);
    net ← send_flags env net id ACK;
    net ← set_state net id CloseWait;
    set_connected net id false
  else
    net ← set_ack_number net id (p_sequence_number tcp_packet + payload_size);
    if negb (payload_size =? 0) then
      '(received, net) ← did_receive net id (ip_payload packet);
      if (received : bool) then send_flags env net id ACK else Ret net
    else Ret net.

Definition handle_tcp (env : Environment) net (packet : IPv4Packet) : outcome (Net Tuple) :=
  if ip_payload_size packet <? sizeof_TCPPacket then Ret net
  else
    tcp_packet ← TCPPacket_read (ip_payload packet);
    if ip_payload_size packet <? header_size tcp_packet then Ret net
    else
      let payload_size := ip_payload_size packet - header_size tcp_packet in
      if negb (from_ipv4_address env (ip_destination packet)) then Ret net
      else
        let t := mk_tuple (ip_destination packet) (p_destination_port tcp_packet) (ip_source packet)
                   (p_source_port tcp_packet) in
        match from_tuple net t with
        | None => Ret net
        | Some id =>
            s ← get net id;
            VERIFY (m_local_port s =? p_destination_port tcp_packet) ;;
            let s := receive_tcp_packet s tcp_packet (ip_payload_size packet) in
            let net := put net id s in
            match m_state s with
            | Closed => Ret net
            | TimeWait => reset env net id
            | Listen => handle_listen env net id packet tcp_packet payload_size
            | SynSent => handle_syn_sent env net id tcp_packet payload_size
            | SynReceived => handle_syn_received env net id tcp_packet payload_size
            | Established => handle_established env net id packet tcp_packet payload_size
            | state => handle_closing_states env net id state tcp_packet payload_size
            end
        end.

End handle.
