(* ===== verification/TcpInvariant.v ===== *)
(** * TCP: the sockets and their tables stay consistent

    [net_ok] says what the tables of sockets mean: a registered socket is alive and registered
    under its own tuple, a connection that is not yet accepted is known to its listener, and
    so on.  Every step of [handle_tcp] and of the system calls is shown to return and to keep
    it. *)

From stdpp Require Import gmap.
From S2P Require Import Prelude AKTime DoubleBuffer TcpPacket TcpSocket Tcp.

#[local] Open Scope Z_scope.

Definition u32_range (x : Z) : Prop := 0 <= x < 4294967296.
Definition u16_range (x : Z) : Prop := 0 <= x < 65536.

Record env_ok (env : Environment) : Prop := EnvOk {
  env_time : Time_ok (kgettimeofday env);
  env_storage : length (new_storage env) = Z.to_nat 131072
}.

(** ** Packets *)

Lemma host16_range a b : 0 <= a < 256 -> 0 <= b < 256 -> u16_range (host16 a b).
Proof. unfold u16_range, host16. lia. Qed.

Lemma TCPPacket_read_ok bytes :
  is_bytes bytes -> sizeof_TCPPacket <= Z.of_nat (length bytes) ->
  exists p, TCPPacket_read bytes = Ret p /\ packet_ok p.
Proof.
  unfold sizeof_TCPPacket. intros Hb Hl.
  do 20 (destruct bytes as [|? bytes]; [cbn [length] in Hl; lia|]; apply Forall_cons in Hb as [? Hb]).
  eexists. split; [reflexivity|].
  split; cbn [p_source_port p_destination_port p_sequence_number p_ack_number p_flags_and_data_offset
    p_window_size p_checksum p_urgent]; unfold host32, host16; lia.
Qed.

Lemma land_bound x n : 0 <= n -> 0 <= Z.land x (Z.ones n) < 2 ^ n.
Proof. intros Hn. rewrite Z.land_ones by done. apply Z.mod_pos_bound. lia. Qed.

Lemma header_size_bound p : 0 <= header_size p <= 60.
Proof.
  unfold header_size, data_offset. rewrite Z.shiftr_land. change (Z.shiftr 0xf000 12) with (Z.ones 4).
  pose proof (land_bound (Z.shiftr (p_flags_and_data_offset p) 12) 4). lia.
Qed.

(** The headers that the sockets send: the flags are those given, there are no options. *)
Definition outgoing_flags : list Z :=
  [SYN; ACK; RST; Z.lor SYN ACK; Z.lor FIN ACK; Z.lor PUSH ACK].

Lemma outgoing_flag f : existsb (Z.eqb f) outgoing_flags = true -> f ∈ outgoing_flags.
Proof. intros (g & Hg & Heq)%existsb_exists. apply Z.eqb_eq in Heq as ->. by apply list_elem_of_In. Qed.

Lemma outgoing_field f :
  f ∈ outgoing_flags ->
  let field := set_flags (set_data_offset 0 (sizeof_TCPPacket / 4)) f in
  0 <= field < 65536 /\ Z.shiftr (Z.land field 0xf000) 12 = 5 /\ Z.land field 0x1ff = f.
Proof.
  unfold outgoing_flags. rewrite !elem_of_cons, elem_of_nil.
  intros Hf. repeat destruct Hf as [->|Hf]; [vm_compute; split_and!; congruence..|done].
Qed.

Section invariant.
Context {Tuple : Type} `{Countable Tuple} `{!SocketTuple Tuple} `{!SocketTupleLaws Tuple}.
Implicit Types (net : Net Tuple) (s : TCPSocket Tuple) (id : nat).

(** ** One socket *)

Record socket_ok s : Prop := SocketOk {
  ok_buffer : exists xs ys, buffer_ok (m_receive_buffer s) xs ys /\
    m_capacity (m_receive_buffer s) = 65536 /\ (m_can_read s = true \/ xs ++ ys = []);
  ok_times : Forall (fun p => Time_ok (o_tx_time p)) (m_not_acked s);
  ok_seq : u32_range (m_sequence_number s);
  ok_ack : u32_range (m_ack_number s);
  ok_local_port : u16_range (m_local_port s);
  ok_peer_port : u16_range (m_peer_port s);
  ok_syn_sent : m_state s = SynSent -> m_direction s = Outgoing;
  ok_started : m_state s <> Closed -> m_setup_state s <> Unstarted /\ m_local_port s <> 0
}.

Lemma outgoing_header_ok s f :
  socket_ok s -> f ∈ outgoing_flags ->
  packet_ok (outgoing_header s f) /\ data_offset (outgoing_header s f) = 5 /\
  flags (outgoing_header s f) = f /\ p_checksum (outgoing_header s f) = 0.
Proof.
  intros [_ _ Hseq Hack Hlp Hpp _ _] Hf. destruct (outgoing_field f Hf) as (Hr & Hd & Hfl).
  unfold u32_range, u16_range in *. split_and!; [|exact Hd | exact Hfl | done].
  split; unfold outgoing_header; cbn [p_source_port p_destination_port p_sequence_number p_ack_number
    p_flags_and_data_offset p_window_size p_checksum p_urgent]; try done; try lia.
  destruct (has_flag f ACK); lia.
Qed.

Lemma send_not_acked_spec env adapter peer ps po bo :
  Time_ok (kgettimeofday env) -> Forall (fun p => Time_ok (o_tx_time p)) ps ->
  exists ps' po' bo' out, send_not_acked env adapter peer ps po bo = Ret (ps', po', bo', out) /\
    Forall (fun p => Time_ok (o_tx_time p)) ps' /\
    map o_ack_number ps' = map o_ack_number ps /\ map o_buffer ps' = map o_buffer ps.
Proof.
  intros Hnow Hps. revert po bo. induction Hps as [|p ps Hp Hps IH]; intros po bo; cbn [send_not_acked].
  { eexists _, _, _, _. done. }
  destruct (Time_sub_saturates (kgettimeofday env) (o_tx_time p) Hnow Hp) as (diff & -> & _). run.
  change (Time_from_nanoseconds 500000000) with (Ret (MkTime 0 500000000)). run.
  destruct (Time_le diff (MkTime 0 500000000)).
  - destruct (IH po bo) as (ps' & po' & bo' & out & -> & Hok & Ha & Hb). run.
    eexists _, _, _, _. split; [done|]. split; [by constructor|]. cbn [map]. by rewrite Ha, Hb.
  - match goal with |- context [send_not_acked env adapter peer ps ?x ?y] =>
      destruct (IH x y) as (ps' & po' & bo' & out & -> & Hok & Ha & Hb) end. run.
    eexists _, _, _, _. split; [done|]. split; [by constructor|]. cbn [map o_ack_number o_buffer]. by rewrite Ha, Hb.
Qed.

Lemma get_lookup net id s : sockets net !! id = Some s -> get net id = Ret s.
Proof. unfold get. by intros ->. Qed.

(** What sending changes of a socket. *)
Record sent_from s s' : Prop := SentFrom {
  sent_others : exists seq ps po bo, s' = s <| m_sequence_number := seq |> <| m_not_acked := ps |>
    <| m_packets_out := po |> <| m_bytes_out := bo |>;
  sent_ok : socket_ok s'
}.

(** The network after socket [id] became [s] and [out] was sent. *)
Definition become net id s (out : list (Z * Z * list Z)) : Net Tuple :=
  put net id s <| sent := sent net ++ out |>.

Lemma become_become net id s1 s2 o1 o2 : become (become net id s1 o1) id s2 o2 = become net id s2 (o1 ++ o2).
Proof. unfold become, put. cbn. rewrite insert_insert_eq, app_assoc. done. Qed.

Lemma put_become net id s : put net id s = become net id s [].
Proof. unfold become, put. cbn. destruct net; cbn. by rewrite app_nil_r. Qed.

Lemma become_lookup net id s out : sockets (become net id s out) !! id = Some s.
Proof. cbn. apply lookup_insert_eq. Qed.

Lemma send_outgoing_packets_spec env net id s :
  env_ok env -> sockets net !! id = Some s -> socket_ok s ->
  exists s' out, send_outgoing_packets env net id = Ret (become net id s' out) /\
    sent_from s s' /\ m_sequence_number s' = m_sequence_number s /\
    map o_ack_number (m_not_acked s') = map o_ack_number (m_not_acked s) /\
    map o_buffer (m_not_acked s') = map o_buffer (m_not_acked s).
Proof.
  intros [Hnow _] Hs Hok. unfold send_outgoing_packets. rewrite (get_lookup net id s Hs). run.
  destruct (route_to env _ _) as [adapter|].
  - destruct (send_not_acked_spec env adapter (m_peer_address s) (m_not_acked s) (m_packets_out s) (m_bytes_out s))
      as (ps & po & bo & out & -> & Hps & Ha & Hb); [done | apply Hok|]. run.
    eexists _, _. split; [done|]. split; [|done]. split.
    + exists (m_sequence_number s), ps, po, bo. by destruct s.
    + by destruct Hok; split.
  - exists s, []. rewrite <- put_become. split.
    + unfold put. rewrite insert_id by done. by destruct net.
    + split; [|done]. split; [|done]. exists (m_sequence_number s), (m_not_acked s), (m_packets_out s), (m_bytes_out s).
      by destruct s.
Qed.

(** The payload of a packet to be sent. *)
Definition payload_ok (payload : option UserBuffer) (n : Z) : Prop :=
  0 <= n /\ match payload with
            | Some u => n <= Z.of_nat (length (u_bytes u)) /\ is_bytes (u_bytes u)
            | None => True
            end.

Definition payload_bytes (payload : option UserBuffer) (n : Z) : list Z :=
  match payload with Some u => take (Z.to_nat n) (u_bytes u) | None => replicate (Z.to_nat n) 0 end.

Lemma payload_bytes_ok payload n :
  payload_ok payload n -> is_bytes (payload_bytes payload n) /\ Z.of_nat (length (payload_bytes payload n)) = n.
Proof.
  intros [Hn Hp]. destruct payload as [u|]; cbn [payload_bytes].
  - destruct Hp as [Hl Hb]. split; [by apply Forall_take | rewrite length_take; lia].
  - split; [apply Forall_replicate; lia | rewrite length_replicate; lia].
Qed.

(** What [send_tcp_packet] makes of its payload. *)
Lemma send_payload payload n :
  payload_ok payload n ->
  let '(data, ok) :=
    match payload with
    | Some u => let '(copied, ok) := user_copy u (Z.to_nat n) in
                (take copied (u_bytes u) ++ replicate (Z.to_nat n - copied) 0, ok)
    | None => (replicate (Z.to_nat n) 0, true)
    end in
  ok = true -> data = payload_bytes payload n.
Proof.
  intros [Hn Hp]. destruct payload as [u|]; [|done]. unfold user_copy.
  destruct (u_fault u (Z.to_nat n)) as [k|]; [done|]. intros _. by rewrite Nat.sub_diag, app_nil_r.
Qed.

Lemma send_tcp_packet_spec env net id s f payload n :
  env_ok env -> sockets net !! id = Some s -> socket_ok s -> m_local_port s <> 0 ->
  f ∈ outgoing_flags -> payload_ok payload n ->
  exists r s' out, send_tcp_packet env net id f payload n = Ret (r, become net id s' out) /\ sent_from s s'.
Proof.
  intros Henv Hs Hok Hport Hf Hpay. unfold send_tcp_packet. rewrite (get_lookup net id s Hs). run.
  rewrite (VERIFY_true (negb _)) by lia. run. pose proof (send_payload payload n Hpay) as Hdata.
  destruct (match payload with Some _ => _ | None => _ end) as [data ok]. destruct ok; cbn [negb].
  2: { exists (- EFAULT), s, []. split; [|split; [|done]].
       - rewrite <- put_become. unfold put. rewrite insert_id by done. by destruct net.
       - exists (m_sequence_number s), (m_not_acked s), (m_packets_out s), (m_bytes_out s). by destruct s. }
  rewrite (Hdata eq_refl). clear Hdata. destruct (payload_bytes_ok payload n Hpay) as [Hb Hlen].
  destruct (outgoing_header_ok s f Hok Hf) as (Hp & Hoff & _ & _).
  cbn [m_local_address m_peer_address].
  destruct (compute_tcp_checksum_total (m_local_address s) (m_peer_address s) (outgoing_header s f) _ Hp Hoff Hb)
    as (c & Hc & _). rewrite Hlen in Hc.
  set (seq := if has_flag f SYN then _ else _).
  assert (u32_range seq) as Hseq.
  { unfold seq, u32_range. destruct (has_flag f SYN); apply Z.mod_pos_bound; lia. }
  clearbody seq. change (m_local_address (s <| m_sequence_number := seq |>)) with (m_local_address s).
  change (m_peer_address (s <| m_sequence_number := seq |>)) with (m_peer_address s). rewrite Hc. run.
  assert (socket_ok (s <| m_sequence_number := seq |>)) as Hok1 by (by destruct Hok; split).
  destruct (_ || _).
  - set (s1 := s <| m_sequence_number := seq |> <| m_not_acked := _ |>).
    assert (socket_ok s1) as Hok2.
    { destruct Hok1; split; try done. cbn. apply Forall_app. split; [done|]. repeat constructor; cbn; int_lia. }
    destruct (send_outgoing_packets_spec env (put net id s1) id s1 Henv) as (s2 & out & -> & Hfrom & _);
      [cbn; apply lookup_insert_eq | done|]. run.
    exists KSuccess, s2, out. rewrite put_become, become_become. split; [done|].
    destruct Hfrom as [(q & ps & po & bo & ->) Hok3]. split; [|done]. exists q, ps, po, bo. by destruct s.
  - destruct (route_to env _ _) as [adapter|].
    2: { eexists _, _, []. rewrite put_become. split; [done|]. split; [|done].
         exists seq, (m_not_acked s), (m_packets_out s), (m_bytes_out s). by destruct s. }
    destruct (negb _).
    + eexists _, _, []. rewrite put_become. split; [done|]. split; [|done].
      exists seq, (m_not_acked s), (m_packets_out s), (m_bytes_out s). by destruct s.
    + eexists _, _, _. split; [reflexivity|]. split; [|by destruct Hok1; split].
      eexists seq, (m_not_acked s), _, _. by destruct s.
Qed.

(** ** The tables *)

Record net_ok net : Prop := NetOk {
  net_sockets id s : sockets net !! id = Some s -> socket_ok s;
  net_registered t id : sockets_by_tuple net !! t = Some id ->
    exists s, sockets net !! id = Some s /\ tuple s = t /\ m_local_port s <> 0;
  net_originator c s l ls : sockets net !! c = Some s -> m_originator s = Some l -> sockets net !! l = Some ls ->
    m_pending_release_for_accept ls !! tuple s = Some c;
  net_release l ls t c : sockets net !! l = Some ls -> m_pending_release_for_accept ls !! t = Some c ->
    exists s, sockets net !! c = Some s /\ tuple s = t /\ m_originator s = Some l;
  net_client c s l : sockets net !! c = Some s -> m_originator s = Some l ->
    (l < c)%nat /\ sockets_by_tuple net !! tuple s = Some c /\ m_direction s = Incoming /\ m_connected s = false;
  net_queue l ls c : sockets net !! l = Some ls -> c ∈ m_pending ls ->
    exists s, sockets net !! c = Some s /\ m_connected s = false /\ m_direction s = Incoming /\
      m_originator s = None /\ c ∉ held net;
  net_queue_once l ls : sockets net !! l = Some ls -> NoDup (m_pending ls);
  net_queue_one l l' ls ls' c : sockets net !! l = Some ls -> sockets net !! l' = Some ls' ->
    c ∈ m_pending ls -> c ∈ m_pending ls' -> l = l';
  net_held id : id ∈ held net -> exists s, sockets net !! id = Some s /\ m_originator s = None;
  net_fresh id s : sockets net !! id = Some s -> (id < next_socket net)%nat
}.

(** Changes of a socket that the tables do not notice. *)
Record similar net id s s' : Prop := Similar {
  similar_tuple : tuple s' = tuple s;
  similar_port : m_local_port s' = m_local_port s;
  similar_originator : m_originator s' = m_originator s;
  similar_pending : m_pending s' = m_pending s;
  similar_release : m_pending_release_for_accept s' = m_pending_release_for_accept s;
  similar_direction : m_direction s' = m_direction s \/ id ∈ held net;
  similar_connected : m_connected s' = true -> m_connected s = true \/ m_direction s' = Outgoing \/ id ∈ held net
}.

(** [net'] is [net] with the socket [id] changed to [s']. *)
Record changed net net' id s' : Prop := Changed {
  changed_sockets : sockets net' = <[id := s']> (sockets net);
  changed_table : sockets_by_tuple net' = sockets_by_tuple net;
  changed_held : held net' = held net;
  changed_next : next_socket net' = next_socket net
}.

Lemma become_changed net id s out : changed net (become net id s out) id s.
Proof. done. Qed.

Lemma changed_lookup net net' id s' j :
  changed net net' id s' -> sockets net' !! j = if decide (j = id) then Some s' else sockets net !! j.
Proof. intros [-> _ _ _]. destruct (decide (j = id)) as [->|]; [apply lookup_insert_eq | by rewrite lookup_insert_ne]. Qed.

(** A socket of the changed network is similar to one of the network before. *)
Lemma changed_similar net net' id s s' j x :
  sockets net !! id = Some s -> similar net id s s' -> changed net net' id s' -> sockets net' !! j = Some x ->
  exists y, sockets net !! j = Some y /\ similar net j y x.
Proof.
  intros Hs Hsim Hch. rewrite (changed_lookup _ _ _ _ _ Hch). destruct (decide (j = id)) as [->|]; intros [= <-]%eq_sym || intros Hx.
  - by exists s.
  - exists x. split; [done|]. split; try done; [by left | by left].
Qed.

Lemma changed_forward net net' id s s' j y :
  sockets net !! id = Some s -> similar net id s s' -> changed net net' id s' -> sockets net !! j = Some y ->
  exists x, sockets net' !! j = Some x /\ similar net j y x.
Proof.
  intros Hs Hsim Hch Hy. rewrite (changed_lookup _ _ _ _ _ Hch). destruct (decide (j = id)) as [->|].
  - exists s'. split; [done|]. congruence.
  - exists y. split; [done|]. split; try done; [by left | by left].
Qed.

Lemma net_ok_changed net net' id s s' :
  net_ok net -> sockets net !! id = Some s -> similar net id s s' -> socket_ok s' -> changed net net' id s' ->
  net_ok net'.
Proof.
  intros Hnet Hs Hsim Hok Hch.
  pose proof (fun j x => changed_similar net net' id s s' j x Hs Hsim Hch) as Hback.
  pose proof (fun j y => changed_forward net net' id s s' j y Hs Hsim Hch) as Hforw.
  pose proof Hch as [_ Htab Hheld Hnext]. split.
  - intros j x. rewrite (changed_lookup _ _ _ _ _ Hch). destruct (decide (j = id)); [by intros [= <-]|apply Hnet].
  - intros t j. rewrite Htab. intros Ht. destruct (net_registered _ Hnet _ _ Ht) as (y & Hy & Hty & Hp).
    destruct (Hforw _ _ Hy) as (x & Hx & []). exists x. split; [done|]. split; congruence.
  - intros c x l lx Hx Hl Hlx. destruct (Hback _ _ Hx) as (y & Hy & Hsy). destruct (Hback _ _ Hlx) as (ly & Hly & Hsl).
    rewrite (similar_release _ _ _ _ Hsl), (similar_tuple _ _ _ _ Hsy).
    eapply net_originator; [done | exact Hy | by rewrite <- (similar_originator _ _ _ _ Hsy) | done].
  - intros l lx t c Hlx Ht. destruct (Hback _ _ Hlx) as (ly & Hly & Hsl). rewrite (similar_release _ _ _ _ Hsl) in Ht.
    destruct (net_release _ Hnet _ _ _ _ Hly Ht) as (y & Hy & Hty & Ho). destruct (Hforw _ _ Hy) as (x & Hx & []).
    exists x. split; [done|]. split; congruence.
  - intros c x l Hx Hl. destruct (Hback _ _ Hx) as (y & Hy & []). rewrite Htab, similar_tuple0.
    destruct (net_client _ Hnet c y l Hy) as (Hlt & Ht & Hd & Hc); [congruence|].
    assert (c ∉ held net) as Hn by (intros Hh; destruct (net_held _ Hnet _ Hh) as (? & ? & ?); congruence).
    split_and!; [done | done | destruct similar_direction0; [congruence|done] |].
    destruct (m_connected x); [|done]. destruct (similar_connected0 eq_refl) as [|[Ho|]]; [congruence| |done].
    destruct similar_direction0; [congruence | done].
  - intros l lx c Hlx Hc. destruct (Hback _ _ Hlx) as (ly & Hly & Hsl). rewrite (similar_pending _ _ _ _ Hsl) in Hc.
    destruct (net_queue _ Hnet _ _ _ Hly Hc) as (y & Hy & Hcon & Hdir & Ho & Hh). destruct (Hforw _ _ Hy) as (x & Hx & []).
    exists x. rewrite Hheld.
    assert (m_direction x = Incoming) as Hxd by (destruct similar_direction0; [congruence | done]).
    split_and!; try done; [|congruence]. destruct (m_connected x); [|done].
    destruct (similar_connected0 eq_refl) as [|[|]]; [congruence.. | done].
  - intros l lx Hlx. destruct (Hback _ _ Hlx) as (ly & Hly & Hsl). rewrite (similar_pending _ _ _ _ Hsl). by eapply Hnet.
  - intros l l' lx lx' c Hlx Hlx' Hc Hc'. destruct (Hback _ _ Hlx) as (ly & Hly & Hsl). destruct (Hback _ _ Hlx') as (ly' & Hly' & Hsl').
    rewrite (similar_pending _ _ _ _ Hsl) in Hc. rewrite (similar_pending _ _ _ _ Hsl') in Hc'. by eapply (net_queue_one _ Hnet).
  - intros j. rewrite Hheld. intros Hj. destruct (net_held _ Hnet _ Hj) as (y & Hy & Ho). destruct (Hforw _ _ Hy) as (x & Hx & []).
    exists x. split; [done|]. congruence.
  - intros j x Hx. rewrite Hnext. destruct (Hback _ _ Hx) as (y & Hy & _). by apply (net_fresh _ Hnet _ _ Hy).
Qed.

(** ** Steps on one socket *)

(** The other sockets keep their states, and no socket appears or disappears. *)
Definition others_keep net net' id : Prop :=
  forall j, j <> id -> fmap m_state (sockets net' !! j) = fmap m_state (sockets net !! j).

(** The computation [c] on the socket [id] returns, keeps the invariant and ends with the
    socket related to its old value. *)
Definition safe net id (c : outcome (Net Tuple)) (P : TCPSocket Tuple -> Prop) : Prop :=
  exists net' s', c = Ret net' /\ net_ok net' /\ sockets net' !! id = Some s' /\ P s' /\
    others_keep net net' id /\ held net' = held net.

Lemma safe_bind net id c f (P Q : TCPSocket Tuple -> Prop) :
  safe net id c P ->
  (forall net' s', net_ok net' -> sockets net' !! id = Some s' -> held net' = held net -> P s' -> safe net' id (f net') Q) ->
  safe net id (c ≫= f) Q.
Proof.
  intros (net1 & s1 & -> & Hok1 & Hs1 & HP & Hk1 & Hh1) Hf.
  destruct (Hf net1 s1 Hok1 Hs1 Hh1 HP) as (net2 & s2 & Heq & Hok2 & Hs2 & HQ & Hk2 & Hh2).
  exists net2, s2. run. split_and!; try done; [|congruence].
  intros j Hj. rewrite Hk2, Hk1; done.
Qed.

Lemma safe_weaken net id c (P Q : TCPSocket Tuple -> Prop) :
  safe net id c P -> (forall s, P s -> Q s) -> safe net id c Q.
Proof. intros (net' & s' & ? & ? & ? & ? & ? & ?) HPQ. exists net', s'. split_and!; try done. by apply HPQ. Qed.

Lemma safe_then net net1 id c (P : TCPSocket Tuple -> Prop) :
  others_keep net net1 id -> held net1 = held net -> safe net1 id c P -> safe net id c P.
Proof.
  intros Hk Hh (net' & s' & ? & ? & ? & ? & Hk' & ?). exists net', s'. split_and!; try done; [|congruence].
  intros j Hj. by rewrite Hk', Hk.
Qed.

Lemma safe_changed net net' id s s' (P : TCPSocket Tuple -> Prop) :
  net_ok net -> sockets net !! id = Some s -> similar net id s s' -> socket_ok s' -> changed net net' id s' -> P s' ->
  safe net id (Ret net') P.
Proof.
  intros Hnet Hs Hsim Hok Hch HP. exists net', s'. split_and!; try done.
  - by eapply net_ok_changed.
  - rewrite (changed_lookup _ _ _ _ _ Hch). by rewrite decide_True.
  - intros j Hj. rewrite (changed_lookup _ _ _ _ _ Hch). by rewrite decide_False.
  - apply Hch.
Qed.

(** Also when nothing changes. *)
Lemma safe_ret net id s (P : TCPSocket Tuple -> Prop) :
  net_ok net -> sockets net !! id = Some s -> P s -> safe net id (Ret net) P.
Proof. intros Hnet Hs HP. exists net, s. by split_and!. Qed.

(** ** Releasing a client to its listener *)

(** The socket [y] with number [j] becomes [x] when the client [c] of the listener [l] is
    released and [q] is queued. *)
Record released (l c : nat) (t : Tuple) (q : list nat) (j : nat) (y x : TCPSocket Tuple) : Prop := Released {
  released_tuple : tuple x = tuple y;
  released_port : m_local_port x = m_local_port y;
  released_direction : m_direction x = m_direction y;
  released_connected : m_connected x = m_connected y;
  released_state : m_state x = m_state y;
  released_originator : m_originator x = if decide (j = c) then None else m_originator y;
  released_pending : m_pending x = if decide (j = l) then m_pending y ++ q else m_pending y;
  released_release : m_pending_release_for_accept x =
    if decide (j = l) then delete t (m_pending_release_for_accept y) else m_pending_release_for_accept y;
  released_ok : socket_ok y -> socket_ok x
}.

Lemma net_ok_released net net' l c s q :
  net_ok net -> sockets net !! c = Some s -> m_originator s = Some l -> is_Some (sockets net !! l) ->
  q = [] \/ q = [c] ->
  (forall j x, sockets net' !! j = Some x -> exists y, sockets net !! j = Some y /\ released l c (tuple s) q j y x) ->
  (forall j y, sockets net !! j = Some y -> exists x, sockets net' !! j = Some x /\ released l c (tuple s) q j y x) ->
  sockets_by_tuple net' = sockets_by_tuple net -> held net' = held net -> next_socket net' = next_socket net ->
  net_ok net'.
Proof.
  intros Hnet Hs Horig [ls Hls] Hq Hback Hforw Htab Hheld Hnext.
  destruct (net_client _ Hnet _ _ _ Hs Horig) as (Hlt & Hts & Hds & Hcs).
  assert (c ∉ held net) as Hnh by (intros Hh; destruct (net_held _ Hnet _ Hh) as (? & ? & ?); congruence).
  assert (forall j y, sockets net !! j = Some y -> c ∉ m_pending y) as Hnp.
  { intros j y Hy Hin. destruct (net_queue _ Hnet _ _ _ Hy Hin) as (? & ? & ? & ? & ? & ?). congruence. }
  assert (forall d, d ∈ q -> d = c) as Hqc by
    (intros d; destruct Hq as [-> | ->]; [by intros ?%elem_of_nil | by intros ?%list_elem_of_singleton]).
  split.
  - intros j x Hx. destruct (Hback _ _ Hx) as (y & Hy & Hr). apply (released_ok _ _ _ _ _ _ _ Hr). by eapply Hnet.
  - intros t j. rewrite Htab. intros Ht. destruct (net_registered _ Hnet _ _ Ht) as (y & Hy & Hty & Hp).
    destruct (Hforw _ _ Hy) as (x & Hx & []). exists x. split; [done|]. split; congruence.
  - intros d x l' lx Hx Hl Hlx. destruct (Hback _ _ Hx) as (y & Hy & [-> _ _ _ _ Ho _ _ _]).
    destruct (Hback _ _ Hlx) as (ly & Hly & [_ _ _ _ _ _ _ -> _]). rewrite Ho in Hl.
    destruct (decide (d = c)) as [|Hd]; [done|]. pose proof (net_originator _ Hnet _ _ _ _ Hy Hl Hly) as Hrel.
    destruct (decide (l' = l)) as [->|]; [|done]. rewrite lookup_delete_ne; [done|]. intros Heq.
    destruct (net_client _ Hnet _ _ _ Hy Hl) as (_ & Ht & _). rewrite <- Heq, Hts in Ht. congruence.
  - intros l' lx t d Hlx Ht. destruct (Hback _ _ Hlx) as (ly & Hly & [_ _ _ _ _ _ _ Hrel _]). rewrite Hrel in Ht.
    assert (m_pending_release_for_accept ly !! t = Some d /\ (l' = l -> t <> tuple s)) as [Ht' Hne].
    { destruct (decide (l' = l)); [apply lookup_delete_Some in Ht as [? ?]; by split | done]. }
    destruct (net_release _ Hnet _ _ _ _ Hly Ht') as (y & Hy & Hty & Ho).
    destruct (Hforw _ _ Hy) as (x & Hx & [Hxt _ _ _ _ Hxo _ _ _]). exists x. split; [done|]. split; [congruence|].
    rewrite Hxo, decide_False; [done|]. intros ->. apply Hne; congruence.
  - intros d x l' Hx Hl. destruct (Hback _ _ Hx) as (y & Hy & [-> _ -> -> _ Ho _ _ _]). rewrite Htab.
    rewrite Ho in Hl. destruct (decide (d = c)); [done|]. by eapply (net_client _ Hnet).
  - intros l' lx d Hlx Hd. destruct (Hback _ _ Hlx) as (ly & Hly & [_ _ _ _ _ _ Hpe _ _]). rewrite Hpe in Hd. rewrite Hheld.
    assert (d ∈ m_pending ly \/ d = c) as [Hd'| ->].
    { destruct (decide (l' = l)); [apply elem_of_app in Hd as [|]|]; auto. }
    + destruct (net_queue _ Hnet _ _ _ Hly Hd') as (y & Hy & Hcon & Hdir & Ho & Hh).
      destruct (Hforw _ _ Hy) as (x & Hx & [_ _ Hxd Hxc _ Hxo _ _ _]). exists x. split_and!; try done; try congruence.
      rewrite Hxo, Ho. by destruct (decide (d = c)).
    + destruct (Hforw _ _ Hs) as (x & Hx & [_ _ Hxd Hxc _ Hxo _ _ _]). exists x. split_and!; try done; try congruence.
      by rewrite Hxo, decide_True.
  - intros l' lx Hlx. destruct (Hback _ _ Hlx) as (ly & Hly & [_ _ _ _ _ _ -> _ _]).
    pose proof (net_queue_once _ Hnet _ _ Hly). destruct (decide (l' = l)) as [->|]; [|done].
    apply NoDup_app. split_and!; [done | |].
    + intros d Hd Hdq. rewrite (Hqc _ Hdq) in Hd. by eapply Hnp.
    + destruct Hq as [-> | ->]; [constructor | apply NoDup_singleton].
  - intros l1 l2 x1 x2 d Hx1 Hx2 Hd1 Hd2. destruct (Hback _ _ Hx1) as (y1 & Hy1 & [_ _ _ _ _ _ Hp1 _ _]).
    destruct (Hback _ _ Hx2) as (y2 & Hy2 & [_ _ _ _ _ _ Hp2 _ _]). rewrite Hp1 in Hd1. rewrite Hp2 in Hd2.
    assert (forall i y, sockets net !! i = Some y ->
      d ∈ (if decide (i = l) then m_pending y ++ q else m_pending y) -> d ∈ m_pending y \/ d = c /\ i = l) as Hor.
    { intros i y Hy. destruct (decide (i = l)); [intros [|Hdq]%elem_of_app; [auto | right; auto] | auto]. }
    destruct (Hor _ _ Hy1 Hd1) as [H1|[-> ->]], (Hor _ _ Hy2 Hd2) as [H2|[? ->]]; subst; try done.
    + by eapply (net_queue_one _ Hnet).
    + by destruct (Hnp _ _ Hy1).
    + by destruct (Hnp _ _ Hy2).
  - intros j. rewrite Hheld. intros Hj. destruct (net_held _ Hnet _ Hj) as (y & Hy & Ho).
    destruct (Hforw _ _ Hy) as (x & Hx & [_ _ _ _ _ Hxo _ _ _]). exists x. split; [done|]. rewrite Hxo, Ho. by destruct (decide (j = c)).
  - intros j x Hx. rewrite Hnext. destruct (Hback _ _ Hx) as (y & Hy & _). by apply (net_fresh _ Hnet _ _ Hy).
Qed.

Lemma put_put net id s s' : put (put net id s) id s' = put net id s'.
Proof. unfold put. cbn. by rewrite insert_insert_eq. Qed.

Lemma put_id net id s : sockets net !! id = Some s -> put net id s = net.
Proof. intros Hs. unfold put. rewrite insert_id by done. by destruct net. Qed.

Lemma put_lookup net id s : sockets (put net id s) !! id = Some s.
Proof. cbn. apply lookup_insert_eq. Qed.

Lemma put_lookup_ne net id s j : j <> id -> sockets (put net id s) !! j = sockets net !! j.
Proof. intros Hne. cbn. by apply lookup_insert_ne. Qed.

(** The connection [c] is queued unless the backlog is full. *)
Definition queued (ls : TCPSocket Tuple) (c : nat) : list nat :=
  if m_backlog ls <=? Z.of_nat (length (m_pending ls)) then [] else [c].

Lemma queue_connection_from_spec net l ls c :
  sockets net !! l = Some ls ->
  exists r, queue_connection_from net l c = Ret (r, put net l (ls <| m_pending := m_pending ls ++ queued ls c |>)).
Proof.
  intros Hls. unfold queue_connection_from, queued. rewrite (get_lookup _ _ _ Hls). run. destruct (_ <=? _).
  - eexists. rewrite app_nil_r, put_id; [done|]. by destruct ls.
  - by eexists.
Qed.

(** The listener [ls] after its client with the tuple [t] was released and [q] queued. *)
Definition listener_released (ls : TCPSocket Tuple) (t : Tuple) (q : list nat) : TCPSocket Tuple :=
  ls <| m_pending_release_for_accept := delete t (m_pending_release_for_accept ls) |> <| m_pending := m_pending ls ++ q |>.

Lemma release_for_accept_spec net l ls c s :
  sockets net !! l = Some ls -> sockets net !! c = Some s -> m_pending_release_for_accept ls !! tuple s = Some c ->
  release_for_accept net l c = Ret (put net l (listener_released ls (tuple s) (queued ls c))).
Proof.
  intros Hls Hs Hrel. unfold release_for_accept. rewrite (get_lookup _ _ _ Hls), bind_Ret, (get_lookup _ _ _ Hs), bind_Ret, Hrel.
  rewrite VERIFY_true by done. rewrite bind_Ret.
  set (ls1 := ls <| m_pending_release_for_accept := _ |>).
  destruct (queue_connection_from_spec (put net l ls1) l ls1 c (put_lookup _ _ _)) as (r & ->).
  rewrite bind_Ret, put_put. done.
Qed.

Lemma release_to_originator_spec net c s l ls :
  net_ok net -> sockets net !! c = Some s -> m_originator s = Some l -> sockets net !! l = Some ls ->
  release_to_originator net c =
    Ret (put (put net l (listener_released ls (tuple s) (queued ls c))) c (s <| m_originator := None |>)).
Proof.
  intros Hnet Hs Horig Hls. destruct (net_client _ Hnet _ _ _ Hs Horig) as (Hlt & _).
  pose proof (net_originator _ Hnet _ _ _ _ Hs Horig Hls) as Hrel.
  unfold release_to_originator. rewrite (get_lookup _ _ _ Hs), bind_Ret. unfold has_originator. rewrite Horig, Hls.
  rewrite VERIFY_true by done. rewrite bind_Ret, (release_for_accept_spec net l ls c s Hls Hs Hrel), bind_Ret.
  erewrite get_lookup by (rewrite put_lookup_ne by lia; exact Hs). done.
Qed.

Lemma release_to_originator_safe net c s l :
  net_ok net -> sockets net !! c = Some s -> m_originator s = Some l -> is_Some (sockets net !! l) ->
  safe net c (release_to_originator net c) (fun s' => s' = s <| m_originator := None |>).
Proof.
  intros Hnet Hs Horig [ls Hls]. destruct (net_client _ Hnet _ _ _ Hs Horig) as (Hlt & _).
  rewrite (release_to_originator_spec net c s l ls Hnet Hs Horig Hls). set (q := queued ls c).
  assert (q = [] \/ q = [c]) as Hq by (unfold q, queued; destruct (_ <=? _); auto). clearbody q.
  set (net' := put _ _ _).
  assert (forall j y, sockets net !! j = Some y ->
    exists x, sockets net' !! j = Some x /\ released l c (tuple s) q j y x) as Hforw.
  { intros j y Hy. unfold net'. destruct (decide (j = c)) as [->|Hjc].
    - eexists. split; [apply put_lookup|]. assert (y = s) as -> by congruence.
      split; try rewrite (decide_False (P := c = l)) by lia; try done; [by rewrite decide_True | by destruct 1; split].
    - rewrite put_lookup_ne by done. destruct (decide (j = l)) as [->|Hjl].
      + eexists. split; [apply put_lookup|]. assert (y = ls) as -> by congruence.
        split; rewrite ?(decide_False (P := l = c)), ?(decide_True (P := l = l)) by lia; try done. by destruct 1; split.
      + rewrite put_lookup_ne by done. exists y. split; [done|].
        split; rewrite ?(decide_False (P := j = c)), ?(decide_False (P := j = l)) by done; done. }
  assert (forall j x, sockets net' !! j = Some x ->
    exists y, sockets net !! j = Some y /\ released l c (tuple s) q j y x) as Hback.
  { intros j x Hx. destruct (sockets net !! j) as [y|] eqn:Hy.
    - destruct (Hforw j y Hy) as (x' & ? & ?). exists y. split; [done|]. congruence.
    - exfalso. assert (j <> c) by congruence. assert (j <> l) by congruence. unfold net' in Hx.
      rewrite !put_lookup_ne in Hx by done. congruence. }
  exists net', (s <| m_originator := None |>). split_and!; try done.
  - by apply (net_ok_released net net' l c s q).
  - apply put_lookup.
  - intros j Hj. destruct (sockets net !! j) as [y|] eqn:Hy.
    + destruct (Hforw j y Hy) as (x & -> & Hr). cbn. by rewrite (released_state _ _ _ _ _ _ _ Hr).
    + destruct (sockets net' !! j) as [x|] eqn:Hx; [|done]. destruct (Hback j x Hx) as (y & ? & _). congruence.
Qed.

(** ** The steps of the handlers *)

(** [s'] is the connection of [s], in the state [st]. *)
Record like s (st : State) s' : Prop := Like {
  like_tuple : tuple s' = tuple s;
  like_port : m_local_port s' = m_local_port s;
  like_direction : m_direction s' = m_direction s;
  like_state : m_state s' = st;
  like_setup : m_setup_state s <> Unstarted -> m_setup_state s' <> Unstarted;
  like_originator : st <> Closed -> m_originator s' = m_originator s
}.

(** The same without the listener, which a client that is released forgets. *)
Definition moved s (st : State) s' : Prop :=
  tuple s' = tuple s /\ m_local_port s' = m_local_port s /\ m_direction s' = m_direction s /\ m_state s' = st.

Lemma like_moved s st s' : like s st s' -> moved s st s'.
Proof. by intros []. Qed.

Lemma moved_trans s st1 s1 st2 s2 : moved s st1 s1 -> moved s1 st2 s2 -> moved s st2 s2.
Proof. unfold moved. intros (? & ? & ? & ?) (? & ? & ? & ?). split_and!; congruence. Qed.

Lemma sent_like s s' : sent_from s s' -> like s (m_state s) s'.
Proof. intros [(q & ps & po & bo & ->) _]. by split. Qed.

Lemma sent_similar net id s s' : sent_from s s' -> similar net id s s'.
Proof. intros [(q & ps & po & bo & ->) _]. split; try done; by left. Qed.

Lemma update_safe net id s f (P : TCPSocket Tuple -> Prop) :
  net_ok net -> sockets net !! id = Some s -> similar net id s (f s) -> socket_ok (f s) -> P (f s) ->
  safe net id (update net id f) P.
Proof.
  intros Hnet Hs Hsim Hok HP. unfold update. rewrite (get_lookup _ _ _ Hs), bind_Ret, put_become.
  by eapply safe_changed; try apply become_changed.
Qed.

Lemma set_ack_number_safe net id s n :
  net_ok net -> sockets net !! id = Some s -> safe net id (set_ack_number net id n) (like s (m_state s)).
Proof.
  intros Hnet Hs. apply (update_safe net id s); [done..| | |done].
  - split; try done; by left.
  - destruct (net_sockets _ Hnet _ _ Hs); split; try done. unfold u32_range. cbn. apply Z.mod_pos_bound. lia.
Qed.

Lemma set_setup_state_safe net id s st :
  net_ok net -> sockets net !! id = Some s -> st <> Unstarted ->
  safe net id (set_setup_state net id st) (like s (m_state s)).
Proof.
  intros Hnet Hs Hst. apply (update_safe net id s); [done..| | |done].
  - split; try done; by left.
  - destruct (net_sockets _ Hnet _ _ Hs); split; try done. intros Hne. split; [done|]. by apply ok_started0.
Qed.

Lemma set_error_safe net id s e :
  net_ok net -> sockets net !! id = Some s -> safe net id (set_error net id e) (like s (m_state s)).
Proof.
  intros Hnet Hs. apply (update_safe net id s); [done..| | |done].
  - split; try done; by left.
  - by destruct (net_sockets _ Hnet _ _ Hs); split.
Qed.

(** Only an outgoing connection is connected by a packet. *)
Lemma set_connected_safe net id s b :
  net_ok net -> sockets net !! id = Some s -> (b = true -> m_direction s = Outgoing) ->
  safe net id (set_connected net id b) (like s (m_state s)).
Proof.
  intros Hnet Hs Hd. apply (update_safe net id s); [done..| | |done].
  - split; try done; [by left|]. cbn. intros ->. right; left. by apply Hd.
  - by destruct (net_sockets _ Hnet _ _ Hs); split.
Qed.

Lemma send_flags_safe env net id s f :
  env_ok env -> net_ok net -> sockets net !! id = Some s -> m_local_port s <> 0 -> f ∈ outgoing_flags ->
  safe net id (send_flags env net id f) (like s (m_state s)).
Proof.
  intros Henv Hnet Hs Hp Hf. unfold send_flags.
  destruct (send_tcp_packet_spec env net id s f None 0 Henv Hs (net_sockets _ Hnet _ _ Hs) Hp Hf)
    as (r & s' & out & -> & Hfrom); [done|]. rewrite bind_Ret.
  eapply safe_changed; [done.. | | | apply become_changed |].
  - by apply sent_similar.
  - apply Hfrom.
  - by apply sent_like.
Qed.

(** What [set_state] makes of the socket itself. *)
Definition stated s (new_state : State) : TCPSocket Tuple :=
  if bool_decide (new_state = Established) && bool_decide (m_direction s = Outgoing)
  then s <| m_state := new_state |> <| m_role := Connected |> else s <| m_state := new_state |>.

Lemma stated_ok s st :
  st <> SynSent -> m_setup_state s <> Unstarted -> m_local_port s <> 0 -> socket_ok s -> socket_ok (stated s st).
Proof. intros Hne Hset Hp Hok. unfold stated. destruct (_ && _); by destruct Hok; split. Qed.

Lemma stated_similar net id s st : similar net id s (stated s st).
Proof. unfold stated. destruct (_ && _); split; try done; by left. Qed.

Lemma stated_like s st : like s st (stated s st).
Proof. unfold stated. destruct (_ && _); by split. Qed.

Lemma set_state_safe net id s st :
  net_ok net -> sockets net !! id = Some s -> st <> SynSent -> m_setup_state s <> Unstarted -> m_local_port s <> 0 ->
  safe net id (set_state net id st) (like s st).
Proof.
  intros Hnet Hs Hne Hset Hport. unfold set_state. rewrite (get_lookup _ _ _ Hs), bind_Ret.
  change (if _ && _ then _ else _) with (stated s st). pose proof (stated_like s st) as Hlike.
  set (s' := stated s st) in *. set (net1 := put net id s').
  assert (forall net', changed net net' id s' -> net_ok net') as Hnet1.
  { intros net' Hch. eapply net_ok_changed; [done.. | apply stated_similar | | exact Hch].
    apply stated_ok; [done..|]. by eapply Hnet. }
  destruct (bool_decide_reflect (st = Closed)) as [->|].
  2: { unfold net1. rewrite put_become. eapply safe_changed; [done.. | apply stated_similar | | apply become_changed | done].
       apply stated_ok; [done..|]. by eapply Hnet. }
  set (net2 := net1 <| closing_sockets := _ |>).
  assert (net_ok net2) as Hok2 by (by apply Hnet1).
  assert (sockets net2 !! id = Some s') as Hs2 by apply put_lookup.
  assert (others_keep net net2 id) as Hk by (intros j Hj; cbn; by rewrite lookup_insert_ne).
  destruct (has_originator net2 s') eqn:Ho; [|by exists net2, s'].
  unfold has_originator in Ho. destruct (m_originator s') as [l|] eqn:Hl; [|done].
  apply bool_decide_eq_true in Ho.
  eapply safe_weaken; [eapply safe_then; [exact Hk | done | exact (release_to_originator_safe net2 id s' l Hok2 Hs2 Hl Ho)]|].
  intros s3 ->. by destruct Hlike; split.
Qed.

(** Sequences of steps on a socket with a port. *)
Lemma safe_step net id s c f st1 st2 :
  m_local_port s <> 0 -> m_setup_state s <> Unstarted -> safe net id c (like s st1) ->
  (forall net' s', net_ok net' -> sockets net' !! id = Some s' -> held net' = held net -> m_local_port s' <> 0 ->
     m_setup_state s' <> Unstarted ->
     m_direction s' = m_direction s -> m_state s' = st1 -> (st1 <> Closed -> m_originator s' = m_originator s) ->
     (forall j, j <> id -> is_Some (sockets net' !! j) <-> is_Some (sockets net !! j)) ->
     safe net' id (f net') (moved s' st2)) ->
  safe net id (c ≫= f) (moved s st2).
Proof.
  intros Hp Hset (net1 & s1 & -> & Hok1 & Hs1 & Hl1 & Hk1 & Hh1) Hf. rewrite bind_Ret.
  pose proof Hl1 as [Ht Hlp Hd Hst Hset1 Ho].
  eapply safe_then; [done..|]. eapply safe_weaken; [apply (Hf net1 s1); try done; [congruence | auto |]|].
  - intros j Hj. specialize (Hk1 j Hj). by rewrite <- (fmap_is_Some m_state), Hk1, fmap_is_Some.
  - intros s2. apply moved_trans with st1. by apply like_moved.
Qed.

End invariant.

Ltac flag := apply outgoing_flag; reflexivity.

(** [step lem] runs one step whose effect is described by [lem]. *)
Ltac step_intros :=
  let net := fresh "net" in let s := fresh "s" in let Hnet := fresh "Hnet" in let Hs := fresh "Hs" in
  let Hheld := fresh "Hheld" in let Hp := fresh "Hp" in let Hset := fresh "Hset" in let Hd := fresh "Hd" in let Hst := fresh "Hst" in
  let Ho := fresh "Ho" in let Hall := fresh "Hall" in
  intros net s Hnet Hs Hheld Hp Hset Hd Hst Ho Hall.
Ltac step lem :=
  eapply safe_step; [eassumption | eassumption | apply lem; try eassumption; try discriminate; try flag | step_intros].
Ltac finish lem :=
  eapply safe_weaken; [apply lem; try eassumption; try discriminate; try congruence; try flag
                      | intros ? ?%like_moved; congruence].

Section handlers.
Context {Tuple : Type} `{Countable Tuple} `{!SocketTuple Tuple} `{!SocketTupleLaws Tuple}.
Implicit Types (net : Net Tuple) (s : TCPSocket Tuple) (id : nat).

Lemma reset_safe env net id s :
  env_ok env -> net_ok net -> sockets net !! id = Some s -> m_local_port s <> 0 -> m_setup_state s <> Unstarted ->
  safe net id (reset env net id) (moved s Closed).
Proof. intros Henv Hnet Hs Hp Hset. unfold reset. step send_flags_safe. finish set_state_safe. Qed.

Lemma handle_syn_sent_safe env net id s tcp_packet payload_size :
  env_ok env -> net_ok net -> sockets net !! id = Some s -> m_local_port s <> 0 -> m_state s = SynSent ->
  safe net id (handle_syn_sent env net id tcp_packet payload_size)
    (moved s (if flags tcp_packet =? SYN then SynReceived
              else if flags tcp_packet =? Z.lor ACK SYN then Established else Closed)).
Proof.
  intros Henv Hnet Hs Hp Hst.
  destruct (ok_started _ (net_sockets _ Hnet _ _ Hs)) as [Hset _]; [congruence|].
  pose proof (ok_syn_sent _ (net_sockets _ Hnet _ _ Hs) Hst) as Hd.
  unfold handle_syn_sent. destruct (_ =? SYN).
  { step set_ack_number_safe. step send_flags_safe. finish set_state_safe. }
  destruct (_ =? Z.lor ACK SYN).
  { step set_ack_number_safe. step send_flags_safe. step set_state_safe. step set_setup_state_safe. finish set_connected_safe. }
  destruct (_ =? Z.lor ACK FIN).
  { step set_ack_number_safe. step send_flags_safe. step set_state_safe. step set_error_safe. finish set_setup_state_safe. }
  destruct (_ =? Z.lor ACK RST).
  { step set_ack_number_safe. step send_flags_safe. step set_state_safe. step set_error_safe. finish set_setup_state_safe. }
  unfold reset. rewrite bind_assoc. step send_flags_safe. step set_state_safe. step set_error_safe. finish set_setup_state_safe.
Qed.

Lemma has_originator_same net net' id s s' :
  net_ok net -> sockets net !! id = Some s -> m_originator s' = m_originator s ->
  (forall j, j <> id -> is_Some (sockets net' !! j) <-> is_Some (sockets net !! j)) ->
  has_originator net' s' = has_originator net s.
Proof.
  intros Hnet Hs Ho Hall. unfold has_originator. rewrite Ho. destruct (m_originator s) as [l|] eqn:Hl; [|done].
  apply bool_decide_ext, Hall. destruct (net_client _ Hnet _ _ _ Hs Hl). lia.
Qed.

(** A connection that a listener no longer knows is reset. *)
Lemma handle_syn_received_safe env net id s tcp_packet payload_size :
  env_ok env -> net_ok net -> sockets net !! id = Some s -> m_local_port s <> 0 -> m_state s = SynReceived ->
  exists st, safe net id (handle_syn_received env net id tcp_packet payload_size) (moved s st) /\
    (st = Closed \/ st = Established /\ flags tcp_packet = ACK).
Proof.
  intros Henv Hnet Hs Hp Hst. unfold handle_syn_received.
  destruct (ok_started _ (net_sockets _ Hnet _ _ Hs)) as [Hset _]; [congruence|].
  destruct (Z.eqb_spec (flags tcp_packet) ACK) as [Hf|]; [|exists Closed; split; [by apply reset_safe | by left]].
  exists (match m_direction s with
          | Incoming => if has_originator net s then Established else Closed
          | Outgoing => Established
          | _ => Closed
          end).
  split; [|destruct (m_direction s); [auto..| |auto]; destruct (has_originator net s); auto].
  step set_ack_number_safe. erewrite get_lookup, bind_Ret by eassumption.
  assert (m_originator s0 = m_originator s) as Horig by (intuition congruence).
  replace (m_direction s) with (m_direction s0) by done.
  rewrite <- (has_originator_same net net0 id s s0) by done.
  destruct (m_direction s0) eqn:Hdir; try by apply reset_safe.
  { step set_state_safe. step set_setup_state_safe. finish set_connected_safe. }
  destruct (has_originator net0 s0) eqn:Hhas; [|by apply reset_safe]. cbn [negb].
  unfold has_originator in Hhas. destruct (m_originator s0) as [l|] eqn:Hl; [|done]. apply bool_decide_eq_true in Hhas.
  step set_state_safe. step set_setup_state_safe.
  eapply safe_weaken; [apply (release_to_originator_safe net2 id s2 l); try done; [intuition congruence|]|].
  - rewrite Hall1, Hall0; [done|..]; destruct (net_client _ Hnet0 _ _ _ Hs0 Hl); lia.
  - intros x ->. split_and!; try done. cbn. congruence.
Qed.

Definition closing_target (state : State) (f : Z) : State :=
  match state with
  | FinWait1 => if f =? ACK then FinWait2 else if f =? FIN then Closing else Closed
  | FinWait2 => if f =? FIN then TimeWait else Closed
  | Closing => if f =? ACK then TimeWait else Closed
  | _ => Closed
  end.

Lemma handle_closing_states_safe env net id s tcp_packet payload_size :
  env_ok env -> net_ok net -> sockets net !! id = Some s -> m_local_port s <> 0 -> m_setup_state s <> Unstarted ->
  safe net id (handle_closing_states env net id (m_state s) tcp_packet payload_size)
    (moved s (closing_target (m_state s) (flags tcp_packet))).
Proof.
  intros Henv Hnet Hs Hp Hset. unfold handle_closing_states, closing_target.
  destruct (m_state s); try by apply reset_safe.
  all: repeat (destruct (_ =? _); [try (step set_ack_number_safe); finish set_state_safe|]).
  all: by apply reset_safe.
Qed.

(** ** Receiving *)

(** The bytes waiting in the receive buffer. *)
Definition contents s (zs : list Z) : Prop :=
  exists xs ys, buffer_ok (m_receive_buffer s) xs ys /\ zs = xs ++ ys.

Lemma space_for_writing_bound b xs ys :
  buffer_ok b xs ys -> 0 <= DoubleBuffer_space_for_writing b <= m_capacity b /\
  (xs ++ ys = [] -> DoubleBuffer_space_for_writing b = m_capacity b).
Proof.
  intros [[] Hsp _]. unfold DoubleBuffer_space_for_writing. split; [lia|].
  intros [_ ->]%app_eq_nil. rewrite Hsp. cbn [length]. lia.
Qed.

Lemma did_receive_spec net id s bytes p zs :
  socket_ok s -> sockets net !! id = Some s -> is_bytes bytes -> TCPPacket_read bytes = Ret p ->
  Z.of_nat (length bytes) <= 65515 -> header_size p < Z.of_nat (length bytes) -> contents s zs ->
  exists received b can_read n, let s' := s <| m_receive_buffer := b |> <| m_can_read := can_read |> <| m_bytes_received := n |> in
    did_receive net id bytes = Ret (received, put net id s') /\ socket_ok s' /\
    contents s' (if received : bool then zs ++ drop (Z.to_nat (header_size p)) bytes else zs) /\
    (received = false -> m_shut_down_for_reading s = true \/
       DoubleBuffer_space_for_writing (m_receive_buffer s) < 20 + Z.of_nat (length bytes)).
Proof.
  intros Hok Hs Hbytes Hread Hlen Hhead (xs & ys & Hb & ->). unfold did_receive. rewrite (get_lookup _ _ _ Hs), bind_Ret.
  destruct (ok_buffer _ Hok) as (xs0 & ys0 & Hb0 & Hcap & Hcan).
  assert (s <| m_receive_buffer := m_receive_buffer s |> <| m_can_read := m_can_read s |>
    <| m_bytes_received := m_bytes_received s |> = s) as Hid by (by destruct s).
  destruct (space_for_writing_bound _ _ _ Hb0) as [Hspace Hempty]. rewrite Hcap in Hspace, Hempty.
  destruct (m_shut_down_for_reading s) eqn:Hshut.
  { eexists false, _, _, _. cbn zeta. rewrite Hid, put_id by done. split_and!; try done; [by exists xs, ys | by left]. }
  unfold sizeof_IPv4Packet. destruct (Z.ltb_spec (DoubleBuffer_space_for_writing (m_receive_buffer s)) (20 + Z.of_nat (length bytes))) as [Hsp|Hsp].
  { rewrite VERIFY_true by (destruct Hcan as [->|He]; [done | specialize (Hempty He); lia]). rewrite bind_Ret.
    eexists false, _, _, _. cbn zeta. rewrite Hid, put_id by done. split_and!; try done; [by exists xs, ys | by right]. }
  unfold protocol_receive. rewrite Hread, bind_Ret.
  pose proof (header_size_bound p) as Hhb. rewrite (wrap_id u32 eq_refl) by int_lia.
  rewrite VERIFY_true by bool_lia. rewrite !bind_Ret.
  set (payload := take _ _).
  assert (payload = drop (Z.to_nat (header_size p)) bytes) as Hpay.
  { unfold payload. apply take_ge. rewrite length_drop. lia. }
  assert (Z.of_nat (length payload) = Z.of_nat (length bytes) - header_size p) as Hpl.
  { rewrite Hpay, length_drop. lia. }
  destruct (DoubleBuffer_write_correct (m_receive_buffer s) xs ys (MkUser payload (fun _ => None)) (Z.of_nat (length payload)) Hb)
    as (r & called & b & -> & Hcap' & _ & Hr & Hb' & _); [int_lia | lia | cbn; lia|].
  rewrite bind_Ret. rewrite Z.min_l, Nat2Z.id in Hr, Hb' by lia. cbn [u_bytes] in Hb'. rewrite firstn_all in Hb'.
  rewrite (proj2 (Z.ltb_ge r 0)) by lia. cbn [set_can_read].
  eexists true, b, (negb (DoubleBuffer_is_empty b)), _. cbn zeta. split; [done|].
  rewrite <- Hpay. split_and!; [|by exists xs, (ys ++ payload); rewrite app_assoc | done].
  destruct Hok; split; try done. exists xs, (ys ++ payload). split; [done|]. split; [by cbn; rewrite Hcap'|]. left. cbn.
  unfold DoubleBuffer_is_empty. rewrite (buf_empty _ _ _ Hb'), bool_decide_false; [done|].
  intros [_ [_ Hnil]%app_eq_nil]%app_eq_nil. rewrite Hnil in Hpl. cbn [length] in Hpl. lia.
Qed.

(** A packet for a socket: its bytes and the length field of IPv4. *)
Record ip_packet_ok (packet : IPv4Packet) : Prop := IpOk {
  ip_bytes : is_bytes (ip_payload packet);
  ip_length : Z.of_nat (length (ip_payload packet)) <= 65515
}.

Lemma did_receive_safe net id s packet p (f : bool * Net Tuple -> outcome (Net Tuple)) st :
  net_ok net -> sockets net !! id = Some s -> ip_packet_ok packet -> TCPPacket_read (ip_payload packet) = Ret p ->
  header_size p < ip_payload_size packet -> m_local_port s <> 0 -> m_setup_state s <> Unstarted ->
  (forall r net' s', net_ok net' -> sockets net' !! id = Some s' -> m_local_port s' <> 0 -> m_setup_state s' <> Unstarted ->
     m_state s' = m_state s ->
     safe net' id (f (r, net')) (moved s' st)) ->
  safe net id (did_receive net id (ip_payload packet) ≫= f) (moved s st).
Proof.
  intros Hnet Hs [Hb Hl] Hread Hh Hp Hset Hf. pose proof (net_sockets _ Hnet _ _ Hs) as Hok.
  destruct (ok_buffer _ Hok) as (xs & ys & Hbuf & _).
  destruct (did_receive_spec net id s _ p (xs ++ ys) Hok Hs Hb Hread Hl Hh) as (r & b & cr & n & Heq & Hok' & _);
    [by exists xs, ys|].
  rewrite Heq, bind_Ret. set (s' := s <| m_receive_buffer := b |> <| m_can_read := cr |> <| m_bytes_received := n |>) in *.
  eapply safe_then; [intros j Hj; by rewrite put_lookup_ne | done |].
  eapply safe_weaken; [apply (Hf r (put net id s') s'); [|apply put_lookup|done..]|].
  - eapply net_ok_changed; [done.. | | done | rewrite put_become; apply become_changed]. split; try done; by left.
  - intros x. by apply moved_trans with (m_state s).
Qed.

Lemma handle_established_safe env net id s packet p :
  env_ok env -> net_ok net -> sockets net !! id = Some s -> m_local_port s <> 0 -> m_state s = Established ->
  ip_packet_ok packet -> TCPPacket_read (ip_payload packet) = Ret p -> header_size p <= ip_payload_size packet ->
  safe net id (handle_established env net id packet p (ip_payload_size packet - header_size p))
    (moved s (if has_rst p then Closed else if has_fin p then CloseWait else Established)).
Proof.
  intros Henv Hnet Hs Hp Hst Hpk Hread Hh. unfold handle_established.
  destruct (ok_started _ (net_sockets _ Hnet _ _ Hs)) as [Hset _]; [congruence|].
  destruct (has_rst p); [finish set_state_safe|]. destruct (has_fin p).
  - assert (forall net' s', net_ok net' -> sockets net' !! id = Some s' -> m_local_port s' <> 0 ->
      m_setup_state s' <> Unstarted -> safe net' id
      (net ← set_ack_number net' id (p_sequence_number p + (ip_payload_size packet - header_size p) + 1);
       net ← send_flags env net id ACK;
       net ← set_state net id CloseWait;
       set_connected net id false) (moved s' CloseWait)) as Hrest.
    { intros net' s' Hnet' Hs' Hp' Hset'. step set_ack_number_safe. step send_flags_safe. step set_state_safe. finish set_connected_safe. }
    destruct (Z.eqb_spec (ip_payload_size packet - header_size p) 0) as [Hz|Hz]; cbn [negb].
    { rewrite bind_Ret. by apply Hrest. }
    rewrite bind_assoc. eapply did_receive_safe; [done..|lia|done|done|]. intros r net' s' Hnet' Hs' Hp' Hset' _. rewrite bind_Ret. by apply Hrest.
  - step set_ack_number_safe. destruct (Z.eqb_spec (ip_payload_size packet - header_size p) 0) as [Hz|Hz]; cbn [negb].
    { eapply safe_ret; [done..|]. split_and!; congruence. }
    eapply did_receive_safe; [done..|lia|done|done|]. intros r net' s' Hnet' Hs' Hp' Hset' Hst'. destruct r; cbn beta iota.
    + finish send_flags_safe.
    + eapply safe_ret; [done..|]. split_and!; congruence.
Qed.

(** ** A new connection *)

Lemma new_socket_ok env : env_ok env -> socket_ok (Tuple := Tuple) (new_socket env).
Proof.
  intros [_ Hst]. split; unfold u32_range, u16_range; cbn [new_socket m_not_acked m_sequence_number m_ack_number
    m_local_port m_peer_port m_state m_receive_buffer]; try lia; [|constructor|done..].
  exists [], []. split; [|split; [done | by right]]. apply DoubleBuffer_new_ok; [lia|].
  rewrite Hst, Z2Nat.id by lia. done.
Qed.

(** The listener [l] with the client [c] waiting for its release under [t]; other sockets stay. *)
Definition adopt (l c : nat) (t : Tuple) (j : nat) (y : TCPSocket Tuple) : TCPSocket Tuple :=
  if decide (j = l) then y <| m_pending_release_for_accept := <[t := c]> (m_pending_release_for_accept y) |> else y.

Lemma adopt_same l c t j y :
  let x := adopt l c t j y in
  tuple x = tuple y /\ m_local_port x = m_local_port y /\ m_direction x = m_direction y /\ m_connected x = m_connected y /\
  m_originator x = m_originator y /\ m_pending x = m_pending y /\ m_state x = m_state y /\ (socket_ok y -> socket_ok x).
Proof. unfold adopt. destruct (decide (j = l)); [|done]. split_and!; try done. by destruct 1; split. Qed.

Record adopted net net' (l : nat) (t : Tuple) (s : TCPSocket Tuple) : Prop := Adopted {
  adopted_sockets j : sockets net' !! j =
    if decide (j = next_socket net) then Some s else adopt l (next_socket net) t j <$> sockets net !! j;
  adopted_table : sockets_by_tuple net' = <[t := next_socket net]> (sockets_by_tuple net);
  adopted_held : held net' = held net;
  adopted_next : next_socket net' = S (next_socket net)
}.

(** A client as [create_client] makes it. *)
Record client_of (l : nat) (t : Tuple) (s : TCPSocket Tuple) : Prop := ClientOf {
  client_ok : socket_ok s;
  client_tuple : tuple s = t;
  client_port : m_local_port s <> 0;
  client_originator : m_originator s = Some l;
  client_direction : m_direction s = Incoming;
  client_connected : m_connected s = false;
  client_pending : m_pending s = [];
  client_release : m_pending_release_for_accept s = ∅
}.

Lemma adopted_inv net net' l t s j x :
  adopted net net' l t s -> sockets net' !! j = Some x ->
  j = next_socket net /\ x = s \/
  j <> next_socket net /\ exists y, sockets net !! j = Some y /\ x = adopt l (next_socket net) t j y.
Proof.
  intros [Hl _ _ _]. rewrite Hl. destruct (decide (j = next_socket net)); [left; split; congruence|].
  intros (y & Hy & ->)%fmap_Some. right. eauto.
Qed.

Lemma adopted_old net net' l t s j y :
  net_ok net -> adopted net net' l t s -> sockets net !! j = Some y ->
  j <> next_socket net /\ sockets net' !! j = Some (adopt l (next_socket net) t j y).
Proof.
  intros Hnet [Hl _ _ _] Hy. pose proof (net_fresh _ Hnet _ _ Hy). rewrite Hl, decide_False, Hy by lia. split; [lia|done].
Qed.

Section adopted.
Context (net net' : Net Tuple) (l : nat) (ls : TCPSocket Tuple) (t : Tuple) (s : TCPSocket Tuple).
Context (Hnet : net_ok net) (Hls : sockets net !! l = Some ls) (Ht : sockets_by_tuple net !! t = None).
Context (Hc : client_of l t s) (Hnew : adopted net net' l t s).
#[local] Set Default Proof Using "Hnet Hls Ht Hc Hnew".

Lemma adopted_client : sockets net' !! next_socket net = Some s.
Proof. rewrite (adopted_sockets _ _ _ _ _ Hnew). by rewrite decide_True. Qed.

Lemma client_tuple_ne d y k : sockets net !! d = Some y -> m_originator y = Some k -> tuple y <> t.
Proof. intros Hy Hk <-. destruct (net_client _ Hnet _ _ _ Hy Hk) as (_ & Htt & _). congruence. Qed.

Lemma adopted_originator d x k kx :
  sockets net' !! d = Some x -> m_originator x = Some k -> sockets net' !! k = Some kx ->
  m_pending_release_for_accept kx !! tuple x = Some d.
Proof.
  intros Hx Hk Hkx. pose proof (net_fresh _ Hnet _ _ Hls) as Hlf.
  destruct (adopted_inv _ _ _ _ _ _ _ Hnew Hx) as [[-> ->]|(Hd & y & Hy & ->)].
  { assert (k = l) as -> by (pose proof (client_originator _ _ _ Hc); congruence).
    destruct (adopted_inv _ _ _ _ _ _ _ Hnew Hkx) as [[? _]|(_ & ky & Hky & ->)]; [lia|].
    unfold adopt. rewrite decide_True by done. cbn. rewrite (client_tuple _ _ _ Hc). apply lookup_insert_eq. }
  destruct (adopt_same l (next_socket net) t d y) as (Ht' & _ & _ & _ & Ho & _). rewrite Ho in Hk. rewrite Ht'.
  destruct (net_client _ Hnet _ _ _ Hy Hk) as (Hlt & _). pose proof (net_fresh _ Hnet _ _ Hy).
  destruct (adopted_inv _ _ _ _ _ _ _ Hnew Hkx) as [[? _]|(_ & ky & Hky & ->)]; [lia|].
  pose proof (net_originator _ Hnet _ _ _ _ Hy Hk Hky) as Hrel. unfold adopt. destruct (decide (k = l)); [|done].
  cbn. rewrite lookup_insert_ne; [done|]. intros Heq. by apply (client_tuple_ne _ _ _ Hy Hk).
Qed.

Lemma adopted_release k kx t' d :
  sockets net' !! k = Some kx -> m_pending_release_for_accept kx !! t' = Some d ->
  exists x, sockets net' !! d = Some x /\ tuple x = t' /\ m_originator x = Some k.
Proof.
  intros Hkx Hd. destruct (adopted_inv _ _ _ _ _ _ _ Hnew Hkx) as [[-> ->]|(Hk & ky & Hky & ->)].
  { rewrite (client_release _ _ _ Hc) in Hd. by apply lookup_empty_Some in Hd. }
  assert (k = l /\ t' = t /\ d = next_socket net \/ m_pending_release_for_accept ky !! t' = Some d) as [(-> & -> & ->)|Hd'].
  { unfold adopt in Hd. destruct (decide (k = l)); [|by right]. cbn in Hd. apply lookup_insert_Some in Hd as [[]|[]]; auto. }
  { exists s. split; [apply adopted_client|]. split; apply Hc. }
  destruct (net_release _ Hnet _ _ _ _ Hky Hd') as (y & Hy & Hty & Ho).
  eexists. split; [by eapply adopted_old|]. by destruct (adopt_same l (next_socket net) t d y) as (-> & _ & _ & _ & -> & _).
Qed.

Lemma adopted_connection d x k :
  sockets net' !! d = Some x -> m_originator x = Some k ->
  (k < d)%nat /\ sockets_by_tuple net' !! tuple x = Some d /\ m_direction x = Incoming /\ m_connected x = false.
Proof.
  intros Hx Hk. rewrite (adopted_table _ _ _ _ _ Hnew). pose proof (net_fresh _ Hnet _ _ Hls) as Hlf.
  destruct (adopted_inv _ _ _ _ _ _ _ Hnew Hx) as [[-> ->]|(Hd & y & Hy & ->)].
  - destruct Hc. assert (k = l) as -> by congruence. rewrite client_tuple0, lookup_insert_eq. done.
  - destruct (adopt_same l (next_socket net) t d y) as (-> & _ & -> & -> & Ho & _). rewrite Ho in Hk.
    rewrite lookup_insert_ne; [by apply (net_client _ Hnet)|]. intros Heq. by apply (client_tuple_ne _ _ _ Hy Hk).
Qed.

(** The queue of a socket is as it was. *)
Lemma adopted_pending k kx d :
  sockets net' !! k = Some kx -> d ∈ m_pending kx -> exists ky, sockets net !! k = Some ky /\ m_pending kx = m_pending ky.
Proof.
  intros Hkx Hd. destruct (adopted_inv _ _ _ _ _ _ _ Hnew Hkx) as [[-> ->]|(_ & ky & Hky & ->)].
  - rewrite (client_pending _ _ _ Hc) in Hd. by apply elem_of_nil in Hd.
  - exists ky. split; [done|]. apply adopt_same.
Qed.

Lemma adopted_queue k kx d :
  sockets net' !! k = Some kx -> d ∈ m_pending kx ->
  exists x, sockets net' !! d = Some x /\ m_connected x = false /\ m_direction x = Incoming /\
    m_originator x = None /\ d ∉ held net'.
Proof.
  intros Hkx Hd. destruct (adopted_pending _ _ _ Hkx Hd) as (ky & Hky & Heq). rewrite Heq in Hd.
  destruct (net_queue _ Hnet _ _ _ Hky Hd) as (y & Hy & Hcon & Hdir & Ho & Hh). rewrite (adopted_held _ _ _ _ _ Hnew).
  eexists. split; [by eapply adopted_old|]. by destruct (adopt_same l (next_socket net) t d y) as (_ & _ & -> & -> & -> & _).
Qed.

Lemma net_ok_adopted : net_ok net'.
Proof.
  split.
  - intros j x [[-> ->]|(_ & y & Hy & ->)]%(adopted_inv _ _ _ _ _ _ _ Hnew); [apply Hc|]. apply adopt_same. by eapply Hnet.
  - intros t' j. rewrite (adopted_table _ _ _ _ _ Hnew). intros [[<- <-]|[_ Hj]]%lookup_insert_Some.
    + exists s. split; [apply adopted_client|]. split; [apply (client_tuple _ _ _ Hc) | apply (client_port _ _ _ Hc)].
    + destruct (net_registered _ Hnet _ _ Hj) as (y & Hy & Hty & Hp).
      eexists. split; [by eapply adopted_old|]. destruct (adopt_same l (next_socket net) t j y) as (-> & -> & _). done.
  - apply adopted_originator.
  - apply adopted_release.
  - apply adopted_connection.
  - apply adopted_queue.
  - intros k kx [[-> ->]|(_ & ky & Hky & ->)]%(adopted_inv _ _ _ _ _ _ _ Hnew).
    + rewrite (client_pending _ _ _ Hc). constructor.
    + destruct (adopt_same l (next_socket net) t k ky) as (_ & _ & _ & _ & _ & -> & _). by eapply (net_queue_once _ Hnet).
  - intros k k' kx kx' d Hkx Hkx' Hd Hd'. destruct (adopted_pending _ _ _ Hkx Hd) as (ky & Hky & Heq).
    destruct (adopted_pending _ _ _ Hkx' Hd') as (ky' & Hky' & Heq'). eapply (net_queue_one _ Hnet); [done..| by rewrite <- Heq | by rewrite <- Heq'].
  - intros j. rewrite (adopted_held _ _ _ _ _ Hnew). intros (y & Hy & Ho)%(net_held _ Hnet).
    eexists. split; [by eapply adopted_old|]. by destruct (adopt_same l (next_socket net) t j y) as (_ & _ & _ & _ & -> & _).
  - intros j x Hx. rewrite (adopted_next _ _ _ _ _ Hnew).
    destruct (adopted_inv _ _ _ _ _ _ _ Hnew Hx) as [[-> _]|(_ & y & Hy & _)]; [lia|]. pose proof (net_fresh _ Hnet _ _ Hy). lia.
Qed.

End adopted.

(** The connection that a listener creates, and the network with it. *)
Definition client_socket env (l : nat) (la lp pa pp : Z) : TCPSocket Tuple :=
  new_socket env <| m_setup_state := InProgress |> <| m_local_address := la |> <| m_local_port := lp |>
    <| m_peer_address := pa |> <| m_peer_port := pp |> <| m_direction := Incoming |> <| m_originator := Some l |>.

Definition with_client env net (l : nat) (ls : TCPSocket Tuple) (la lp pa pp : Z) : Net Tuple :=
  let t := mk_tuple la lp pa pp in
  put (put net (next_socket net) (client_socket env l la lp pa pp) <| next_socket := S (next_socket net) |>) l
    (ls <| m_pending_release_for_accept := <[t := next_socket net]> (m_pending_release_for_accept ls) |>)
  <| sockets_by_tuple := <[t := next_socket net]> (sockets_by_tuple net) |>.

Lemma create_client_exact env net l ls la lp pa pp :
  sockets net !! l = Some ls -> l <> next_socket net -> sockets_by_tuple net !! mk_tuple la lp pa pp = None ->
  create_client env net l la lp pa pp = Ret (Some (next_socket net), with_client env net l ls la lp pa pp).
Proof.
  intros Hls Hne Ht. unfold create_client. rewrite Ht, bool_decide_false by (by intros [? ?]).
  fold (client_socket env l la lp pa pp). erewrite get_lookup by (cbn; by rewrite lookup_insert_ne). rewrite bind_Ret.
  unfold from_tuple. cbn [sockets_by_tuple set_field]. by rewrite lookup_insert_eq.
Qed.

Lemma client_socket_of env l la lp pa pp :
  env_ok env -> u16_range lp -> lp <> 0 -> u16_range pp -> client_of l (mk_tuple la lp pa pp) (client_socket env l la lp pa pp).
Proof. intros Henv Hlp Hlp0 Hpp. split; try done. by destruct (new_socket_ok env Henv); split. Qed.

Lemma with_client_adopted env net l ls la lp pa pp :
  sockets net !! l = Some ls -> l <> next_socket net ->
  adopted net (with_client env net l ls la lp pa pp) l (mk_tuple la lp pa pp) (client_socket env l la lp pa pp).
Proof.
  intros Hls Hne. split; try done. intros j. cbn. destruct (decide (j = next_socket net)) as [->|].
  - by rewrite lookup_insert_ne, lookup_insert_eq.
  - unfold adopt. destruct (decide (j = l)) as [->|]; [by rewrite lookup_insert_eq, Hls|].
    rewrite !lookup_insert_ne by done. by destruct (sockets net !! j).
Qed.

(** The sockets other than the new ones keep their states. *)
Lemma create_client_spec env net l ls la lp pa pp :
  env_ok env -> net_ok net -> sockets net !! l = Some ls -> u16_range lp -> lp <> 0 -> u16_range pp ->
  let t := mk_tuple la lp pa pp in
  create_client env net l la lp pa pp = Ret (None, net) /\ is_Some (sockets_by_tuple net !! t) \/
  exists net' c, create_client env net l la lp pa pp = Ret (Some (next_socket net), net') /\ net_ok net' /\
    sockets net' !! next_socket net = Some c /\ m_local_port c = lp /\ m_setup_state c <> Unstarted /\ tuple c = t /\
    (forall j, j <> next_socket net -> m_state <$> sockets net' !! j = m_state <$> sockets net !! j) /\
    held net' = held net.
Proof.
  intros Henv Hnet Hls Hlp Hlp0 Hpp t. pose proof (net_fresh _ Hnet _ _ Hls) as Hlf.
  destruct (sockets_by_tuple net !! t) as [x|] eqn:Ht.
  { left. unfold create_client. fold t. by rewrite Ht, bool_decide_true. }
  right. pose proof (client_socket_of env l la lp pa pp Henv Hlp Hlp0 Hpp) as Hc.
  assert (adopted net (with_client env net l ls la lp pa pp) l t (client_socket env l la lp pa pp)) as Had by (apply with_client_adopted; [done | lia]).
  eexists _, _. split; [apply create_client_exact; [done | lia | done]|].
  split; [by apply (net_ok_adopted net _ l ls t (client_socket env l la lp pa pp))|].
  split; [by apply (adopted_client net _ l ls t (client_socket env l la lp pa pp))|]. split; [done|]. split; [done|]. split; [done|].
  split; [|done]. intros j Hj. rewrite (adopted_sockets _ _ _ _ _ Had), decide_False by done.
  destruct (sockets net !! j) as [y|]; [|done]. cbn [fmap option_fmap option_map]. f_equal. apply adopt_same.
Qed.

(** ** The state machine *)

(** The edges of the state machine, by the flags of the packet. *)
Inductive transition (f : Z) : State -> State -> Prop :=
  | T_closed : transition f Closed Closed
  | T_listen : transition f Listen Listen
  | T_syn_sent_syn : f = SYN -> transition f SynSent SynReceived
  | T_syn_sent_syn_ack : f = Z.lor ACK SYN -> transition f SynSent Established
  | T_syn_sent_other : f <> SYN -> f <> Z.lor ACK SYN -> transition f SynSent Closed
  | T_syn_received_ack : f = ACK -> transition f SynReceived Established
  | T_syn_received_reset : transition f SynReceived Closed
  | T_established : Z.land f RST = 0 -> Z.land f FIN = 0 -> transition f Established Established
  | T_established_fin : Z.land f RST = 0 -> Z.land f FIN <> 0 -> transition f Established CloseWait
  | T_established_rst : Z.land f RST <> 0 -> transition f Established Closed
  | T_close_wait : transition f CloseWait Closed
  | T_last_ack : transition f LastAck Closed
  | T_fin_wait1_ack : f = ACK -> transition f FinWait1 FinWait2
  | T_fin_wait1_fin : f = FIN -> transition f FinWait1 Closing
  | T_fin_wait1_other : f <> ACK -> f <> FIN -> transition f FinWait1 Closed
  | T_fin_wait2_fin : f = FIN -> transition f FinWait2 TimeWait
  | T_fin_wait2_other : f <> FIN -> transition f FinWait2 Closed
  | T_closing_ack : f = ACK -> transition f Closing TimeWait
  | T_closing_other : f <> ACK -> transition f Closing Closed
  | T_time_wait : transition f TimeWait Closed.

(** What a packet with the flags [f] for the socket [id] does to the states. *)
Record handled net net' id (f : Z) : Prop := Handled {
  handled_state st : m_state <$> sockets net !! id = Some st ->
    exists st', m_state <$> sockets net' !! id = Some st' /\ transition f st st';
  handled_others j : j <> id -> is_Some (sockets net !! j) ->
    m_state <$> sockets net' !! j = m_state <$> sockets net !! j;
  handled_new j : sockets net !! j = None -> is_Some (sockets net' !! j) ->
    j = next_socket net /\ m_state <$> sockets net' !! j = Some SynReceived /\ f = SYN /\
    m_state <$> sockets net !! id = Some Listen
}.

Lemma safe_handled net id s c st f :
  sockets net !! id = Some s -> safe net id c (moved s st) -> transition f (m_state s) st ->
  exists net', c = Ret net' /\ net_ok net' /\ held net' = held net /\ handled net net' id f.
Proof.
  intros Hs (net' & s' & -> & Hok & Hs' & (_ & _ & _ & Hst) & Hk & Hh) Htr. exists net'. split_and!; try done. split.
  - intros st0. rewrite Hs, Hs'. cbn. intros [= <-]. exists (m_state s'). split; congruence.
  - intros j Hj _. by apply Hk.
  - intros j Hj Hsome. assert (j <> id) as Hne by congruence. specialize (Hk j Hne).
    rewrite Hj in Hk. destruct Hsome as [x Hx]. by rewrite Hx in Hk.
Qed.

Lemma has_flag_land f g : (negb (Z.land f g =? 0) = true <-> Z.land f g <> 0).
Proof. rewrite negb_true_iff. lia. Qed.

Lemma handle_listen_handled env net id s packet p n :
  env_ok env -> net_ok net -> sockets net !! id = Some s -> m_state s = Listen -> m_local_port s <> 0 ->
  packet_ok p -> p_destination_port p = m_local_port s ->
  exists net', handle_listen env net id packet p n = Ret net' /\ net_ok net' /\ held net' = held net /\
    handled net net' id (flags p).
Proof.
  intros Henv Hnet Hs Hst Hp Hpk Hport. unfold handle_listen.
  assert (exists net', Ret net = Ret net' /\ net_ok net' /\ held net' = held net /\ handled net net' id (flags p)) as Hret.
  { eapply safe_handled; [done | apply (safe_ret net id s (moved s Listen)); done | rewrite Hst; constructor]. }
  destruct (Z.eqb_spec (flags p) SYN) as [Hf|]; [|done].
  destruct (create_client_spec env net id s (ip_destination packet) (p_destination_port p) (ip_source packet) (p_source_port p))
    as [[-> _]|(net1 & c & -> & Hok1 & Hc & Hlp & Hcset & _ & Hk1 & Hh1)]; try done; [apply Hpk | congruence | apply Hpk|].
  rewrite bind_Ret. cbn beta iota. pose proof (net_fresh _ Hnet _ _ Hs) as Hfresh.
  assert (m_local_port c <> 0) as Hcp by congruence.
  assert (safe net1 (next_socket net)
    (net2 ← update net1 (next_socket net) (fun s => s <| m_sequence_number := 1000 |>);
     net2 ← set_ack_number net2 (next_socket net) (p_sequence_number p + n + 1);
     net2 ← send_flags env net2 (next_socket net) (Z.lor SYN ACK);
     set_state net2 (next_socket net) SynReceived) (moved c SynReceived)) as Hsafe.
  { eapply (safe_step _ _ _ _ _ (m_state c)); [done | done | |step_intros].
    { apply (update_safe net1 (next_socket net) c); [done..| | |done].
      - split; try done; by left.
      - by destruct (net_sockets _ Hok1 _ _ Hc); split. }
    step set_ack_number_safe. step send_flags_safe. finish set_state_safe. }
  destruct Hsafe as (net' & c' & -> & Hok & Hc' & (_ & _ & _ & Hcst) & Hk & Hh). exists net'. split; [done|]. split; [done|].
  split; [congruence|]. split.
  - intros st. rewrite (Hk id) by lia. rewrite (Hk1 id) by lia. rewrite Hs. cbn. intros [= <-].
    exists (m_state s). split; [done|]. rewrite Hst. constructor.
  - intros j Hj [x Hx]. pose proof (net_fresh _ Hnet _ _ Hx). rewrite (Hk j) by lia. by rewrite (Hk1 j) by lia.
  - intros j Hj [x Hx]. destruct (decide (j = next_socket net)) as [->|Hne].
    + split; [done|]. rewrite Hc', Hs. cbn. by rewrite Hcst, Hst.
    + specialize (Hk j Hne). rewrite (Hk1 j Hne), Hj, Hx in Hk. done.
Qed.

Lemma from_tuple_registered net t id :
  from_tuple net t = Some id -> exists t', sockets_by_tuple net !! t' = Some id /\ tuple_local_port t' = tuple_local_port t.
Proof using Type*.
  unfold from_tuple. destruct (sockets_by_tuple net !! t) eqn:H1; [intros [= <-]; eauto|].
  destruct (sockets_by_tuple net !! mk_tuple (tuple_local_address t) _ _ _) eqn:H2; [intros [= <-] | intros H3].
  - eexists. split; [done|]. apply tuple_local_port_mk.
  - eexists. split; [done|]. apply tuple_local_port_mk.
Qed.

Lemma drop_acked_times n ps :
  Forall (fun p => Time_ok (o_tx_time p)) ps -> Forall (fun p => Time_ok (o_tx_time p)) (drop_acked n ps).
Proof. induction 1; cbn; [constructor|]. destruct (_ <=? _); [done | by constructor]. Qed.

Lemma receive_tcp_packet_ok net id s p n :
  socket_ok s -> socket_ok (receive_tcp_packet s p n) /\ similar net id s (receive_tcp_packet s p n) /\
  m_state (receive_tcp_packet s p n) = m_state s.
Proof.
  intros Hok. unfold receive_tcp_packet. destruct (has_ack p).
  - split; [|split; [split; try done; by left | done]]. destruct Hok; split; try done. by apply drop_acked_times.
  - split; [by destruct Hok; split|]. split; [split; try done; by left | done].
Qed.

(** The cases of [handle_tcp] for the socket [id], whose value is [s]. *)
Lemma handle_states env net id s packet p :
  env_ok env -> net_ok net -> sockets net !! id = Some s -> m_local_port s <> 0 -> ip_packet_ok packet ->
  TCPPacket_read (ip_payload packet) = Ret p -> packet_ok p -> header_size p <= ip_payload_size packet ->
  p_destination_port p = m_local_port s ->
  exists net', match m_state s with
    | Closed => Ret net
    | TimeWait => reset env net id
    | Listen => handle_listen env net id packet p (ip_payload_size packet - header_size p)
    | SynSent => handle_syn_sent env net id p (ip_payload_size packet - header_size p)
    | SynReceived => handle_syn_received env net id p (ip_payload_size packet - header_size p)
    | Established => handle_established env net id packet p (ip_payload_size packet - header_size p)
    | state => handle_closing_states env net id state p (ip_payload_size packet - header_size p)
    end = Ret net' /\ net_ok net' /\ held net' = held net /\ handled net net' id (flags p).
Proof.
  intros Henv Hnet Hs Hp Hpk Hread Hpok Hh Hport.
  assert (m_state s <> Closed -> m_setup_state s <> Unstarted) as Hset by (intros; by apply (ok_started _ (net_sockets _ Hnet _ _ Hs))).
  assert (m_state s <> Closed -> safe net id (handle_closing_states env net id (m_state s) p (ip_payload_size packet - header_size p))
    (moved s (closing_target (m_state s) (flags p)))) as Hclosing by (intros; apply handle_closing_states_safe; auto).
  destruct (m_state s) eqn:Hst; cbn [closing_target] in Hclosing.
  - eapply safe_handled; [done | apply (safe_ret net id s (moved s Closed)); done | rewrite Hst; constructor].
  - by eapply handle_listen_handled.
  - eapply safe_handled; [done | by apply handle_syn_sent_safe |]. rewrite Hst.
    destruct (Z.eqb_spec (flags p) SYN); [by constructor|]. destruct (Z.eqb_spec (flags p) (Z.lor ACK SYN)); by constructor.
  - destruct (handle_syn_received_safe env net id s p (ip_payload_size packet - header_size p)) as (st & Hsafe & Hor); try done.
    eapply safe_handled; [done | exact Hsafe |]. rewrite Hst. destruct Hor as [->|[-> ?]]; by constructor.
  - eapply safe_handled; [done | by apply handle_established_safe |]. rewrite Hst. unfold has_rst, has_fin.
    destruct (Z.eqb_spec (Z.land (flags p) RST) 0); cbn [negb]; [|by constructor].
    destruct (Z.eqb_spec (Z.land (flags p) FIN) 0); by constructor.
  - eapply safe_handled; [done | by apply Hclosing | rewrite Hst; constructor].
  - eapply safe_handled; [done | by apply Hclosing | rewrite Hst; constructor].
  - eapply safe_handled; [done | by apply Hclosing |]. rewrite Hst. destruct (Z.eqb_spec (flags p) ACK); [by constructor|].
    destruct (Z.eqb_spec (flags p) FIN); by constructor.
  - eapply safe_handled; [done | by apply Hclosing |]. rewrite Hst. destruct (Z.eqb_spec (flags p) FIN); by constructor.
  - eapply safe_handled; [done | by apply Hclosing |]. rewrite Hst. destruct (Z.eqb_spec (flags p) ACK); by constructor.
  - eapply safe_handled; [done | apply reset_safe; auto | rewrite Hst; constructor].
Qed.

(** Whatever bytes arrive, handling them returns: no [VERIFY] fails and no destroyed socket is
    used.  The tables stay consistent, and at most the socket the packet is for changes its
    state, along an edge of the state machine; a listener gets a new connection on SYN. *)
Lemma handle_tcp_handled env net packet :
  env_ok env -> net_ok net -> ip_packet_ok packet ->
  exists net', handle_tcp env net packet = Ret net' /\ net_ok net' /\ held net' = held net /\
    (net' = net \/ exists p id, TCPPacket_read (ip_payload packet) = Ret p /\
       from_tuple net (mk_tuple (ip_destination packet) (p_destination_port p) (ip_source packet) (p_source_port p)) = Some id /\
       handled net net' id (flags p)).
Proof using Type*.
  intros Henv Hnet Hpk. unfold handle_tcp.
  destruct (Z.ltb_spec (ip_payload_size packet) sizeof_TCPPacket) as [|Hsize]; [by exists net; auto|].
  destruct (TCPPacket_read_ok (ip_payload packet) (ip_bytes _ Hpk) Hsize) as (p & Hread & Hpok). rewrite Hread, bind_Ret.
  destruct (Z.ltb_spec (ip_payload_size packet) (header_size p)) as [|Hh]; [by exists net; auto|].
  destruct (from_ipv4_address env (ip_destination packet)); [|by exists net; auto]. cbn [negb].
  set (t := mk_tuple _ _ _ _). destruct (from_tuple net t) as [id|] eqn:Hfrom; [|by exists net; auto].
  destruct (from_tuple_registered net t id Hfrom) as (t' & Ht' & Hlport). unfold t in Hlport. rewrite tuple_local_port_mk in Hlport.
  destruct (net_registered _ Hnet _ _ Ht') as (s & Hs & <- & Hp). unfold tuple in Hlport. rewrite tuple_local_port_mk in Hlport.
  rewrite (get_lookup _ _ _ Hs), bind_Ret. rewrite VERIFY_true by bool_lia. rewrite bind_Ret.
  destruct (receive_tcp_packet_ok net id s p (ip_payload_size packet) (net_sockets _ Hnet _ _ Hs)) as (Hok' & Hsim & Hst).
  set (s' := receive_tcp_packet s p _) in *.
  assert (net_ok (put net id s')) as Hnet' by (rewrite put_become; by eapply net_ok_changed; try apply become_changed).
  destruct (handle_states env (put net id s') id s' packet p) as (net' & Heq & Hok & Hheld & Hhan); try done.
  - apply put_lookup.
  - by rewrite (similar_port _ _ _ _ Hsim).
  - by rewrite (similar_port _ _ _ _ Hsim).
  - exists net'. split; [exact Heq|]. split; [done|]. split; [done|]. right. exists p, id. split; [done|]. split; [done|].
    destruct Hhan as [H1 H2 H3]. rewrite put_lookup in H1, H3. split.
    + intros st. rewrite Hs. cbn. intros [= <-]. apply H1. by rewrite <- Hst.
    + intros j Hj. specialize (H2 j Hj). by rewrite put_lookup_ne in H2.
    + intros j Hj Hsome. assert (j <> id) as Hne by congruence.
      destruct (H3 j) as (? & ? & ? & Hl); [by rewrite put_lookup_ne | done |]. rewrite Hs. split_and!; try done.
      rewrite <- Hl. cbn [fmap option_fmap option_map]. by rewrite Hst.
Qed.

End handlers.
