(* ===== verification/TcpCalls.v ===== *)
(** * TCP: system calls on sockets

    The system calls keep the tables of sockets consistent, as the packets do
    (TcpInvariant.v): a connection machine that interleaves both in any order never fails a
    [VERIFY], never uses a destroyed socket and never runs out of steps.  The ephemeral ports
    are searched completely. *)

From stdpp Require Import gmap.
From S2P Require Import Prelude AKTime DoubleBuffer TcpPacket TcpSocket Tcp TcpInvariant.

#[local] Open Scope Z_scope.

Section calls.
Context {Tuple : Type} `{Countable Tuple} `{!SocketTuple Tuple} `{!SocketTupleLaws Tuple}.
Implicit Types (net : Net Tuple) (s : TCPSocket Tuple) (id : nat).

(** ** Ephemeral ports *)

Definition ephemeral (port : Z) : Prop := first_ephemeral_port <= port <= last_ephemeral_port.

(** The port is taken for the addresses and the peer of [s]. *)
Definition port_used net s (port : Z) : Prop :=
  is_Some (sockets_by_tuple net !! mk_tuple (m_local_address s) port (m_peer_address s) (m_peer_port s)).

(** The [k]th port of a scan that starts at [first]. *)
Definition port_at (first k : Z) : Z := 32768 + (first - 32768 + k) mod 28232.

Lemma port_at_ephemeral first k : ephemeral (port_at first k).
Proof. unfold ephemeral, port_at, first_ephemeral_port, last_ephemeral_port. pose proof (Z.mod_pos_bound (first - 32768 + k) 28232). lia. Qed.

Lemma port_at_0 first : ephemeral first -> port_at first 0 = first.
Proof. unfold ephemeral, port_at, first_ephemeral_port, last_ephemeral_port. intros. rewrite Z.add_0_r, Z.mod_small; lia. Qed.

Lemma port_at_next first k :
  port_at first (k + 1) = if last_ephemeral_port <? port_at first k + 1 then first_ephemeral_port else port_at first k + 1.
Proof.
  unfold port_at, first_ephemeral_port, last_ephemeral_port. rewrite Z.add_assoc, <- (Zplus_mod_idemp_l (first - 32768 + k) 1 28232).
  pose proof (Z.mod_pos_bound (first - 32768 + k) 28232). set (m := (first - 32768 + k) mod 28232) in *.
  destruct (Z.ltb_spec 60999 (32768 + m + 1)).
  - replace (m + 1) with 28232 by lia. rewrite Z_mod_same_full. lia.
  - rewrite Z.mod_small; lia.
Qed.

Lemma port_at_first first k : ephemeral first -> 0 <= k < 28232 -> port_at first k = first -> k = 0.
Proof.
  unfold ephemeral, port_at, first_ephemeral_port, last_ephemeral_port. intros Hf Hk Heq.
  destruct (decide (first - 32768 + k < 28232)).
  - rewrite Z.mod_small in Heq; lia.
  - rewrite <- (Z_mod_plus_full _ (-1)), Z.mod_small in Heq; lia.
Qed.

Lemma port_at_surjective first port :
  ephemeral first -> ephemeral port -> exists k, 0 <= k < 28232 /\ port_at first k = port.
Proof.
  unfold ephemeral, port_at, first_ephemeral_port, last_ephemeral_port. intros Hf Hp.
  destruct (decide (first <= port)).
  - exists (port - first). split; [lia|]. rewrite Z.mod_small; lia.
  - exists (port - first + 28232). split; [lia|]. replace (first - 32768 + (port - first + 28232)) with (port - 32768 + 1 * 28232) by lia.
    rewrite Z_mod_plus_full, Z.mod_small; lia.
Qed.

Lemma scan_ports_spec net s first fuel k :
  ephemeral first -> 0 <= k -> k + Z.of_nat fuel = 28232 -> (0 < fuel)%nat ->
  (forall i, 0 <= i < k -> port_used net s (port_at first i)) ->
  exists r, scan_ports fuel net s first (port_at first k) = Ret r /\
    match r with
    | Some port => ephemeral port /\ ~ port_used net s port
    | None => forall i, 0 <= i < 28232 -> port_used net s (port_at first i)
    end.
Proof.
  intros Hf. revert k. induction fuel as [|fuel IH]; intros k Hk Hsum Hpos Hused; [lia|]. cbn [scan_ports].
  destruct (sockets_by_tuple net !! _) as [x|] eqn:Hx.
  2: { exists (Some (port_at first k)). split; [done|]. split; [apply port_at_ephemeral|]. unfold port_used. rewrite Hx. by intros [? ?]. }
  pose proof (port_at_ephemeral first k) as He. unfold ephemeral, first_ephemeral_port, last_ephemeral_port in He.
  rewrite (wrap_id u16 eq_refl) by int_lia. rewrite <- port_at_next.
  assert (forall i, 0 <= i < k + 1 -> port_used net s (port_at first i)) as Hused'.
  { intros i Hi. destruct (decide (i = k)) as [->|]; [by eexists | apply Hused; lia]. }
  destruct (Z.eqb_spec (port_at first (k + 1)) first) as [Heq|Hne].
  - exists None. split; [done|]. destruct (decide (k + 1 < 28232)); [|intros i Hi; apply Hused'; lia].
    apply port_at_first in Heq; lia || done.
  - apply IH; try lia; [|done]. destruct fuel; [|lia]. exfalso. apply Hne. assert (k + 1 = 28232) as -> by lia.
    unfold port_at. rewrite <- (Z.mul_1_l 28232) at 1. rewrite Z_mod_plus_full.
    unfold ephemeral, first_ephemeral_port, last_ephemeral_port in Hf. rewrite Z.mod_small; lia.
Qed.

(** The scan always ends; it fails only when every ephemeral port is in use. *)
Lemma protocol_allocate_local_port_spec random net id s :
  0 <= random -> sockets net !! id = Some s ->
  protocol_allocate_local_port random net id = Ret (- EADDRINUSE, net) /\ (forall port, ephemeral port -> port_used net s port) \/
  exists port, ephemeral port /\ ~ port_used net s port /\
    protocol_allocate_local_port random net id = Ret (port,
      put net id (s <| m_local_port := port |>)
        <| sockets_by_tuple := <[tuple (s <| m_local_port := port |>) := id]> (sockets_by_tuple net) |>).
Proof.
  intros Hr Hs. unfold protocol_allocate_local_port. rewrite (get_lookup _ _ _ Hs), bind_Ret.
  change (last_ephemeral_port - first_ephemeral_port) with 28231.
  pose proof (Z.mod_pos_bound random 28231 eq_refl) as Hm. set (m := random mod 28231) in *.
  set (first := wrap u16 (first_ephemeral_port + m)).
  assert (ephemeral first) as Hf.
  { unfold first, ephemeral, first_ephemeral_port, last_ephemeral_port. rewrite (wrap_id u16 eq_refl) by int_lia. lia. }
  destruct (scan_ports_spec net s first (Z.to_nat (28231 + 1)) 0 Hf) as (r & Heq & Hres); [lia | lia | lia | intros; lia|].
  rewrite (port_at_0 first Hf) in Heq. rewrite Heq, bind_Ret. destruct r as [port|].
  - right. exists port. split; [apply Hres|]. split; [apply Hres|]. done.
  - left. split; [done|]. intros port Hp. destruct (port_at_surjective first port Hf Hp) as (k & Hk & <-). by apply Hres.
Qed.

(** ** A socket that is not in the table *)

Definition unregistered net id : Prop := forall t, sockets_by_tuple net !! t <> Some id.

(** A socket of a file descriptor that is in no table of TCP may change its addresses, and may
    then be entered under them. *)
Record retupled net net' id s s' : Prop := Retupled {
  retupled_ok : socket_ok s';
  retupled_originator : m_originator s' = m_originator s;
  retupled_pending : m_pending s' = m_pending s;
  retupled_release : m_pending_release_for_accept s' = m_pending_release_for_accept s;
  retupled_sockets : sockets net' = <[id := s']> (sockets net);
  retupled_table : sockets_by_tuple net' = sockets_by_tuple net \/
    sockets_by_tuple net !! tuple s' = None /\ m_local_port s' <> 0 /\
    sockets_by_tuple net' = <[tuple s' := id]> (sockets_by_tuple net);
  retupled_held : held net' = held net;
  retupled_next : next_socket net' = next_socket net
}.

Section retupled.
Context (net net' : Net Tuple) (id : nat) (s s' : TCPSocket Tuple).
Context (Hnet : net_ok net) (Hheld : id ∈ held net) (Hs : sockets net !! id = Some s) (Hun : unregistered net id).
Context (Hre : retupled net net' id s s').
#[local] Set Default Proof Using "Hnet Hheld Hs Hun Hre".

Lemma retupled_lookup j : sockets net' !! j = if decide (j = id) then Some s' else sockets net !! j.
Proof.
  rewrite (retupled_sockets _ _ _ _ _ Hre). destruct (decide (j = id)) as [->|]; [apply lookup_insert_eq | by apply lookup_insert_ne].
Qed.

Lemma retupled_not_client : m_originator s = None.
Proof. destruct (net_held _ Hnet _ Hheld) as (? & ? & ?). congruence. Qed.

Lemma retupled_inv j x :
  sockets net' !! j = Some x ->
  exists y, sockets net !! j = Some y /\ m_originator x = m_originator y /\ m_pending x = m_pending y /\
    m_pending_release_for_accept x = m_pending_release_for_accept y /\ (j <> id -> x = y).
Proof.
  rewrite retupled_lookup. destruct (decide (j = id)) as [->|]; intros Hx.
  - injection Hx as <-. exists s. split; [done|]. by destruct Hre.
  - by exists x.
Qed.

Lemma retupled_keep j y : sockets net !! j = Some y -> j <> id -> sockets net' !! j = Some y.
Proof. intros Hy Hj. by rewrite retupled_lookup, decide_False. Qed.

Lemma retupled_table_keep t j : sockets_by_tuple net !! t = Some j -> sockets_by_tuple net' !! t = Some j.
Proof.
  destruct (retupled_table _ _ _ _ _ Hre) as [->|(Hnone & _ & ->)]; [done|]. intros Ht.
  rewrite lookup_insert_ne; [done|]. congruence.
Qed.

Lemma net_ok_retupled : net_ok net'.
Proof.
  pose proof retupled_not_client as Hno. split.
  - intros j x. rewrite retupled_lookup. destruct (decide (j = id)); [intros [= <-]; apply Hre | apply Hnet].
  - intros t j Ht. assert (sockets_by_tuple net !! t = Some j \/ j = id /\ t = tuple s' /\ m_local_port s' <> 0) as [Ht'|(-> & -> & Hp)].
    { destruct (retupled_table _ _ _ _ _ Hre) as [Htab|(Hnone & Hp & Htab)]; rewrite Htab in Ht; [by left|].
      apply lookup_insert_Some in Ht as [[<- <-]|[_ ?]]; auto. }
    + destruct (net_registered _ Hnet _ _ Ht') as (y & Hy & ? & ?). exists y.
      split; [apply retupled_keep; [done|] | done]. intros ->. by apply (Hun t).
    + exists s'. by rewrite retupled_lookup, decide_True.
  - intros c x l lx Hx Hl Hlx. destruct (retupled_inv _ _ Hx) as (y & Hy & Ho & _ & _ & Heq).
    destruct (retupled_inv _ _ Hlx) as (ly & Hly & _ & _ & -> & _). rewrite Ho in Hl.
    rewrite Heq by congruence. by eapply (net_originator _ Hnet).
  - intros l lx t c Hlx Ht. destruct (retupled_inv _ _ Hlx) as (ly & Hly & _ & _ & Heq & _). rewrite Heq in Ht.
    destruct (net_release _ Hnet _ _ _ _ Hly Ht) as (y & Hy & Hty & Ho). exists y. split; [|done].
    apply retupled_keep; [done|]. congruence.
  - intros c x l Hx Hl. destruct (retupled_inv _ _ Hx) as (y & Hy & Ho & _ & _ & Heq). rewrite Ho in Hl.
    rewrite Heq in * by congruence. destruct (net_client _ Hnet _ _ _ Hy Hl) as (? & ? & ?).
    split; [done|]. split; [by apply retupled_table_keep | done].
  - intros l lx c Hlx Hc. destruct (retupled_inv _ _ Hlx) as (ly & Hly & _ & Heq & _). rewrite Heq in Hc.
    destruct (net_queue _ Hnet _ _ _ Hly Hc) as (y & Hy & ? & ? & ? & Hnh). exists y. rewrite (retupled_held _ _ _ _ _ Hre).
    split; [|done]. apply retupled_keep; [done|]. congruence.
  - intros l lx Hlx. destruct (retupled_inv _ _ Hlx) as (ly & Hly & _ & -> & _). by eapply (net_queue_once _ Hnet).
  - intros l l' lx lx' c Hlx Hlx'. destruct (retupled_inv _ _ Hlx) as (ly & Hly & _ & -> & _).
    destruct (retupled_inv _ _ Hlx') as (ly' & Hly' & _ & -> & _). by eapply (net_queue_one _ Hnet).
  - intros j. rewrite (retupled_held _ _ _ _ _ Hre). intros Hj. destruct (net_held _ Hnet _ Hj) as (y & Hy & Ho).
    destruct (decide (j = id)) as [->|]; [|exists y; split; [by apply retupled_keep | done]].
    exists s'. rewrite retupled_lookup, decide_True by done. split; [done|]. by rewrite (retupled_originator _ _ _ _ _ Hre).
  - intros j x Hx. rewrite (retupled_next _ _ _ _ _ Hre). destruct (retupled_inv _ _ Hx) as (y & Hy & _). by apply (net_fresh _ Hnet _ _ Hy).
Qed.

End retupled.

Lemma unregistered_no_port net id s :
  net_ok net -> sockets net !! id = Some s -> m_local_port s = 0 -> unregistered net id.
Proof. intros Hnet Hs Hp t Ht. destruct (net_registered _ Hnet _ _ Ht) as (? & ? & _ & ?). congruence. Qed.

(** ** Calls that concern addresses *)

(** The call on the descriptor of [id] returns and keeps the tables consistent. *)
Definition call_ok {A} net id (c : outcome (A * Net Tuple)) (P : A -> Net Tuple -> TCPSocket Tuple -> Prop) : Prop :=
  exists r net' s', c = Ret (r, net') /\ net_ok net' /\ held net' = held net /\ sockets net' !! id = Some s' /\ P r net' s'.

Lemma call_ret {A} net id s (r : A) (P : A -> Net Tuple -> TCPSocket Tuple -> Prop) :
  net_ok net -> sockets net !! id = Some s -> P r net s -> call_ok net id (Ret (r, net)) P.
Proof. intros. by exists r, net, s. Qed.

Lemma call_changed {A} net net' id s s' (r : A) (P : A -> Net Tuple -> TCPSocket Tuple -> Prop) :
  net_ok net -> sockets net !! id = Some s -> similar net id s s' -> socket_ok s' -> changed net net' id s' -> P r net' s' ->
  call_ok net id (Ret (r, net')) P.
Proof.
  intros Hnet Hs Hsim Hok Hch HP. exists r, net', s'. split_and!; try done.
  - by eapply net_ok_changed.
  - apply Hch.
  - rewrite (changed_lookup _ _ _ _ _ Hch). by rewrite decide_True.
Qed.

Lemma call_retupled {A} net net' id s s' (r : A) (P : A -> Net Tuple -> TCPSocket Tuple -> Prop) :
  net_ok net -> id ∈ held net -> sockets net !! id = Some s -> unregistered net id -> retupled net net' id s s' ->
  P r net' s' -> call_ok net id (Ret (r, net')) P.
Proof.
  intros Hnet Hh Hs Hun Hre HP. exists r, net', s'. split_and!; try done.
  - by eapply net_ok_retupled.
  - apply Hre.
  - rewrite (retupled_sockets _ _ _ _ _ Hre). apply lookup_insert_eq.
Qed.

Lemma retupled_put net id s s' :
  socket_ok s' -> m_originator s' = m_originator s -> m_pending s' = m_pending s ->
  m_pending_release_for_accept s' = m_pending_release_for_accept s -> retupled net (put net id s') id s s'.
Proof. intros. split; try done. by left. Qed.

Lemma call_bind {A B} net id (c : outcome (A * Net Tuple)) (f : A * Net Tuple -> outcome (B * Net Tuple))
    (P : A -> Net Tuple -> TCPSocket Tuple -> Prop) (Q : B -> Net Tuple -> TCPSocket Tuple -> Prop) :
  call_ok net id c P ->
  (forall r net' s', net_ok net' -> held net' = held net -> sockets net' !! id = Some s' -> P r net' s' ->
     call_ok net' id (f (r, net')) Q) ->
  call_ok net id (c ≫= f) Q.
Proof.
  intros (r & net1 & s1 & -> & Hok & Hh & Hs & HP) Hf. rewrite bind_Ret.
  destruct (Hf r net1 s1 Hok Hh Hs HP) as (r2 & net2 & s2 & -> & Hok2 & Hh2 & Hs2 & HQ).
  exists r2, net2, s2. split_and!; try done. congruence.
Qed.

Lemma call_then {A} net net1 id (c : outcome (A * Net Tuple)) P :
  held net1 = held net -> call_ok net1 id c P -> call_ok net id c P.
Proof. intros Hh (r & net' & s' & ? & ? & ? & ? & ?). exists r, net', s'. split_and!; try done. congruence. Qed.

Lemma call_weaken {A} net id (c : outcome (A * Net Tuple)) (P Q : A -> Net Tuple -> TCPSocket Tuple -> Prop) :
  call_ok net id c P -> (forall r net' s', P r net' s' -> Q r net' s') -> call_ok net id c Q.
Proof. intros (r & net' & s' & ? & ? & ? & ? & ?) HPQ. exists r, net', s'. split_and!; try done. by apply HPQ. Qed.

Lemma port_ok s port : socket_ok s -> ephemeral port -> socket_ok (s <| m_local_port := port |>).
Proof.
  unfold ephemeral, first_ephemeral_port, last_ephemeral_port. intros Hok Hp. pose proof (ok_started _ Hok) as Hst.
  destruct Hok; split; try done; unfold u16_range; cbn; [lia|]. intros Hne. split; [by apply Hst | lia].
Qed.

Lemma allocate_local_port_if_needed_ok random net id s :
  0 <= random -> net_ok net -> id ∈ held net -> sockets net !! id = Some s ->
  call_ok net id (allocate_local_port_if_needed random net id) (fun r net' s' =>
    (exists port, s' = s <| m_local_port := port |>) /\ (r = - EADDRINUSE \/ 0 <= r /\ m_local_port s' <> 0)).
Proof.
  intros Hr Hnet Hh Hs. unfold allocate_local_port_if_needed. rewrite (get_lookup _ _ _ Hs), bind_Ret.
  pose proof (net_sockets _ Hnet _ _ Hs) as Hok.
  destruct (Z.eqb_spec (m_local_port s) 0) as [Hz|Hz]; cbn [negb].
  2: { eapply call_ret; [done..|]. split; [exists (m_local_port s); by destruct s|]. right.
       split; [apply Hok | done]. }
  pose proof (unregistered_no_port _ _ _ Hnet Hs Hz) as Hun.
  destruct (protocol_allocate_local_port_spec random net id s Hr Hs) as [[-> _]|(port & Hp & Hfree & ->)]; rewrite bind_Ret; cbn beta iota.
  { eapply call_ret; [done..|]. split; [exists (m_local_port s); by destruct s | by left]. }
  pose proof Hp as Hp'. unfold ephemeral, first_ephemeral_port, last_ephemeral_port in Hp'.
  rewrite (proj2 (Z.ltb_ge port 0)) by lia. erewrite get_lookup by apply put_lookup. rewrite bind_Ret.
  eapply (call_retupled _ _ _ s (s <| m_local_port := port |>)); [done..| |].
  - split; try done; [by apply port_ok | cbn; by rewrite insert_insert_eq |]. right. split; [|split; [cbn; lia | done]].
    unfold port_used in Hfree. apply eq_None_not_Some. exact Hfree.
  - split; [by exists port|]. right. cbn. lia.
Qed.

(** A fresh descriptor can be bound; afterwards it is in no table yet. *)
Lemma bind_ok env superuser net id s user_address :
  net_ok net -> id ∈ held net -> sockets net !! id = Some s -> unregistered net id -> m_setup_state s = Unstarted ->
  u16_range (ua_port user_address) -> call_ok net id (IPv4Socket_bind env superuser net id user_address) (fun _ _ _ => True).
Proof.
  intros Hnet Hh Hs Hun Hset Hport. unfold IPv4Socket_bind. rewrite (get_lookup _ _ _ Hs), bind_Ret.
  rewrite VERIFY_true, bind_Ret by (by rewrite Hset).
  destruct (negb _); [by eapply call_ret|]. destruct (negb (ua_readable _)); [by eapply call_ret|].
  destruct (negb (ua_inet _)); [by eapply call_ret|]. destruct (negb superuser && _); [by eapply call_ret|].
  pose proof (net_sockets _ Hnet _ _ Hs) as Hok.
  assert (m_state s = Closed) as Hcl by (destruct (decide (m_state s = Closed)) as [|Hne]; [done|]; by destruct (ok_started _ Hok Hne)).
  unfold protocol_bind. erewrite get_lookup by apply put_lookup. rewrite bind_Ret, put_put.
  destruct (negb _ && negb _); (eapply call_retupled; [done..| apply retupled_put; [|done..] | done]);
    destruct Hok; split; try done; intros Hne; by destruct Hne.
Qed.

Lemma set_state_open net id s st :
  sockets net !! id = Some s -> st <> Closed -> set_state net id st = Ret (put net id (stated s st)).
Proof.
  intros Hs Hne. unfold set_state. rewrite (get_lookup _ _ _ Hs), bind_Ret.
  change (if _ && _ then _ else _) with (stated s st). by rewrite bool_decide_false.
Qed.

(** A listener is entered in the table, unless its address is taken. *)
Lemma protocol_listen_ok net id s :
  net_ok net -> id ∈ held net -> sockets net !! id = Some s -> m_local_port s <> 0 ->
  call_ok net id (protocol_listen net id) (fun r net' s' =>
    r = - EADDRINUSE /\ net' = net /\ is_Some (sockets_by_tuple net !! tuple s) \/
    r = KSuccess /\ m_state s' = Listen /\ sockets_by_tuple net' !! tuple s' = Some id).
Proof.
  intros Hnet Hh Hs Hp. unfold protocol_listen. rewrite (get_lookup _ _ _ Hs), bind_Ret.
  destruct (sockets_by_tuple net !! tuple s) as [x|] eqn:Ht; [eapply call_ret; [done..|]; left; eauto|].
  rewrite bool_decide_false by (by intros [? ?]).
  erewrite set_state_open by (apply put_lookup || done). rewrite bind_Ret. erewrite get_lookup by apply put_lookup. rewrite bind_Ret.
  rewrite !put_put. set (s' := _ <| m_setup_state := Completed |>).
  assert (unregistered net id) as Hun.
  { intros t Htt. destruct (net_registered _ Hnet _ _ Htt) as (y & Hy & <- & _). congruence. }
  eapply (call_retupled _ _ _ s s'); [done..| |].
  - split; try done.
    + by destruct (net_sockets _ Hnet _ _ Hs); split.
    + right. done.
  - right. split; [done|]. split; [done|]. cbn. by rewrite lookup_insert_eq.
Qed.

Lemma listen_ok random net id s backlog :
  0 <= random -> net_ok net -> id ∈ held net -> sockets net !! id = Some s ->
  call_ok net id (IPv4Socket_listen random net id backlog) (fun _ _ _ => True).
Proof.
  intros Hr Hnet Hh Hs. unfold IPv4Socket_listen.
  eapply call_bind; [by apply allocate_local_port_if_needed_ok|]. intros r net1 s1 Hok1 Hh1 Hs1 [(port & ->) Hres]. cbn beta iota.
  destruct Hres as [->|[Hr0 Hp]]; [by eapply call_ret|]. rewrite (proj2 (Z.ltb_ge r 0)) by lia. cbn [andb].
  rewrite (get_lookup _ _ _ Hs1), bind_Ret.
  set (s2 := _ <| m_role := Listener |>).
  assert (net_ok (put net1 id s2)) as Hok2.
  { eapply net_ok_changed; [done.. | | | rewrite put_become; apply become_changed].
    - split; try done; by left.
    - by destruct (net_sockets _ Hok1 _ _ Hs1); split. }
  apply (call_then _ (put net1 id s2)); [done|]. eapply call_weaken; [eapply protocol_listen_ok; [done | cbn; congruence | apply put_lookup | done] | done].
Qed.

(** ** Connecting and sending *)

Lemma send_tcp_packet_ok env net id s f payload n :
  env_ok env -> net_ok net -> sockets net !! id = Some s -> m_local_port s <> 0 -> f ∈ outgoing_flags -> payload_ok payload n ->
  call_ok net id (send_tcp_packet env net id f payload n) (fun _ net' s' => sent_from s s').
Proof.
  intros Henv Hnet Hs Hp Hf Hpay.
  destruct (send_tcp_packet_spec env net id s f payload n Henv Hs (net_sockets _ Hnet _ _ Hs) Hp Hf Hpay) as (r & s' & out & -> & Hfrom).
  eapply call_changed; [done.. | by apply sent_similar | apply Hfrom | apply become_changed | done].
Qed.

(** Choosing the local address of a socket that is in no table. *)
Lemma choose_address net id s adapter :
  net_ok net -> id ∈ held net -> sockets net !! id = Some s -> m_local_address s <> 0 \/ unregistered net id ->
  let net' := if m_local_address s =? 0 then put net id (s <| m_local_address := adapter |>) else net in
  net_ok net' /\ held net' = held net /\ exists s', sockets net' !! id = Some s' /\
    m_local_port s' = m_local_port s /\ m_setup_state s' = m_setup_state s /\ m_originator s' = m_originator s.
Proof.
  intros Hnet Hh Hs Hor net'. unfold net'. destruct (Z.eqb_spec (m_local_address s) 0) as [Hz|]; [|by split_and!; [| |exists s]].
  destruct Hor as [|Hun]; [done|]. split; [|split; [done|]].
  - eapply net_ok_retupled; [exact Hnet | done | done | done | apply retupled_put; [|done..]].
    by destruct (net_sockets _ Hnet _ _ Hs); split.
  - eexists. split; [apply put_lookup|]. done.
Qed.

Lemma protocol_connect_ok env random seq net id s :
  env_ok env -> 0 <= random -> u32_range seq -> net_ok net -> id ∈ held net -> sockets net !! id = Some s ->
  m_local_address s <> 0 \/ unregistered net id ->
  call_ok net id (protocol_connect env random seq net id) (fun _ _ _ => True).
Proof.
  intros Henv Hr Hseq Hnet Hh Hs Hor. unfold protocol_connect. rewrite (get_lookup _ _ _ Hs), bind_Ret.
  destruct (route_to env _ _) as [adapter|]; [|by eapply call_ret].
  destruct (choose_address net id s adapter Hnet Hh Hs Hor) as (Hok1 & Hh1 & s1 & Hs1 & _).
  set (net1 := if _ =? 0 then _ else _) in *. clearbody net1. eapply call_then; [exact Hh1|].
  eapply call_bind; [apply allocate_local_port_if_needed_ok; [done | done | by rewrite Hh1 | done]|].
  intros r net2 s2 Hok2 Hh2 Hs2 [(port & ->) Hres]. cbn beta iota. destruct Hres as [->|[Hr0 Hp]]; [by eapply call_ret|].
  rewrite (proj2 (Z.ltb_ge r 0)) by lia. rewrite (get_lookup _ _ _ Hs2), bind_Ret.
  set (s2 := s1 <| m_local_port := port |>) in *.
  set (s3 := s2 <| m_sequence_number := seq |> <| m_ack_number := 0 |> <| m_setup_state := InProgress |>).
  assert (net_ok (put net2 id s3)) as Hok3.
  { eapply net_ok_changed; [done.. | | | rewrite put_become; apply become_changed].
    - split; try done; by left.
    - by destruct (net_sockets _ Hok2 _ _ Hs2); split. }
  apply (call_then _ (put net2 id s3)); [done|].
  eapply call_bind; [apply (send_tcp_packet_ok env _ id s3); [done | done | apply put_lookup | done | flag | done]|].
  intros err net4 s4 Hok4 Hh4 Hs4 Hfrom. cbn beta iota. destruct (err <? 0); [by eapply call_ret|].
  rewrite (get_lookup _ _ _ Hs4), bind_Ret.
  destruct (sent_like _ _ Hfrom) as [_ Hp4 _ _ Hset _]. specialize (Hset ltac:(done)). pose proof (sent_ok _ _ Hfrom) as Hok.
  assert (m_local_port s4 <> 0) as Hp4' by (by rewrite Hp4). clear Hfrom Hp4.
  eapply call_changed; [done.. | | | rewrite put_become; apply become_changed | done].
  - split; try done; [right | intros _; right; by left]. cbn in Hh4. congruence.
  - by destruct Hok; split.
Qed.

(** A descriptor that is in no table may get a new peer. *)
Lemma net_ok_peer net id s address port :
  net_ok net -> id ∈ held net -> sockets net !! id = Some s -> unregistered net id -> u16_range port ->
  net_ok (put net id (s <| m_peer_address := address |> <| m_peer_port := port |>)).
Proof.
  intros Hnet Hh Hs Hun Hp. eapply net_ok_retupled; [exact Hnet | done | done | done | apply retupled_put; [|done..]].
  by destruct (net_sockets _ Hnet _ _ Hs); split.
Qed.

(** Connecting a descriptor that is in no table. *)
Lemma connect_ok env random seq net id s user_address :
  env_ok env -> 0 <= random -> u32_range seq -> net_ok net -> id ∈ held net -> sockets net !! id = Some s ->
  unregistered net id -> u16_range (ua_port user_address) ->
  call_ok net id (IPv4Socket_connect env random seq net id user_address) (fun _ _ _ => True).
Proof.
  intros Henv Hr Hseq Hnet Hh Hs Hun Hp. unfold IPv4Socket_connect. rewrite (get_lookup _ _ _ Hs), bind_Ret.
  destruct (negb _); [by eapply call_ret|]. destruct (negb (ua_family_readable _)); [by eapply call_ret|].
  destruct (negb (ua_inet _)); [by eapply call_ret|]. destruct (bool_decide _); [by eapply call_ret|].
  destruct (negb _); [by eapply call_ret|].
  pose proof (net_ok_peer net id s (ua_address user_address) (ua_port user_address) Hnet Hh Hs Hun Hp) as Hok1.
  eapply (call_then _ (put net id _)); [|eapply protocol_connect_ok; [done.. | exact Hok1 | done | apply put_lookup | by right]]. done.
Qed.

Lemma connect_finish_ok net id s :
  net_ok net -> sockets net !! id = Some s -> m_setup_state s = Completed ->
  call_ok net id (protocol_connect_finish net id) (fun r _ _ => r = KSuccess <-> m_error s = NoError).
Proof.
  intros Hnet Hs Hset. unfold protocol_connect_finish. rewrite (get_lookup _ _ _ Hs), bind_Ret.
  rewrite VERIFY_true, bind_Ret by (by rewrite Hset). destruct (bool_decide_reflect (m_error s = NoError)); cbn [negb].
  - by eapply call_ret.
  - eapply call_changed; [done.. | | | rewrite put_become; apply become_changed | done].
    + split; try done; by left.
    + by destruct (net_sockets _ Hnet _ _ Hs); split.
Qed.

(** Sending data; a new peer only for a descriptor that is in no table. *)
Lemma sendto_ok env random net id s data size addr :
  env_ok env -> 0 <= random -> net_ok net -> id ∈ held net -> sockets net !! id = Some s ->
  (addr = None /\ m_local_address s <> 0 \/ unregistered net id) -> (forall a, addr = Some a -> u16_range (ua_port a)) ->
  payload_ok (Some data) size -> call_ok net id (IPv4Socket_sendto env random net id data size addr) (fun _ _ _ => True).
Proof.
  intros Henv Hr Hnet Hh Hs Hor Hport Hpay. unfold IPv4Socket_sendto.
  assert (call_ok net id (set_peer net id addr) (fun _ net' s' => m_local_address s' <> 0 \/ unregistered net' id)) as Hpeer.
  { destruct addr as [a|]; cbn [set_peer]; [|eapply call_ret; [done..|]; tauto].
    assert (unregistered net id) as Hun by (destruct Hor as [[? _]|]; done).
    destruct (negb _); [eapply call_ret; [done..|]; by right|]. destruct (negb _); [eapply call_ret; [done..|]; by right|].
    destruct (negb _); [eapply call_ret; [done..|]; by right|]. rewrite (get_lookup _ _ _ Hs), bind_Ret.
    eexists _, _, _. split; [done|]. split; [apply net_ok_peer; auto|]. split; [done|]. split; [apply put_lookup | by right]. }
  eapply call_bind; [exact Hpeer|]. intros err net0 s0 Hok0 Hh0 Hs0 Hor0. cbn beta iota. destruct (err <? 0); [by eapply call_ret|].
  assert (id ∈ held net0) as Hheld by congruence. rewrite (get_lookup _ _ _ Hs0), bind_Ret.
  destruct (route_to env _ _) as [adapter|]; [|by eapply call_ret].
  destruct (choose_address net0 id s0 adapter Hok0 Hheld Hs0 Hor0) as (Hok1 & Hh1 & s1 & Hs1 & _).
  set (net1 := if _ =? 0 then _ else _) in *. clearbody net1. eapply call_then; [exact Hh1|].
  eapply call_bind; [apply allocate_local_port_if_needed_ok; [done | done | by rewrite Hh1 | done]|].
  intros r net2 s2 Hok2 Hh2 Hs2 [_ Hres]. cbn beta iota. destruct Hres as [->|[Hr0 Hp]]; [by eapply call_ret|].
  rewrite (proj2 (Z.ltb_ge r 0)) by lia. cbn [andb]. unfold protocol_send.
  eapply call_bind; [apply (send_tcp_packet_ok env _ id s2); try done; flag|].
  intros err' net4 s4 Hok4 Hh4 Hs4 _. cbn beta iota. destruct (err' <? 0); by eapply call_ret.
Qed.

Lemma write_ok env random net id s data size :
  env_ok env -> 0 <= random -> net_ok net -> id ∈ held net -> sockets net !! id = Some s ->
  m_local_address s <> 0 \/ unregistered net id -> payload_ok (Some data) size ->
  call_ok net id (Socket_write env random net id data size) (fun _ _ _ => True).
Proof.
  intros Henv Hr Hnet Hh Hs Hor Hpay. unfold Socket_write. rewrite (get_lookup _ _ _ Hs), bind_Ret.
  destruct (m_shut_down_for_writing s); [by eapply call_ret|]. eapply sendto_ok; try done. tauto.
Qed.

(** ** Reading, shutting down and closing *)

Lemma similar_refl net id s : similar net id s s.
Proof. split; try done; by left. Qed.

Lemma read_receive_buffer_ok net id s buffer size zs :
  net_ok net -> sockets net !! id = Some s -> in_type size_t size ->
  DoubleBuffer_is_empty (m_receive_buffer s) = false -> contents s zs ->
  exists r got b can_read zs', let s' := s <| m_receive_buffer := b |> <| m_can_read := can_read |> in
    read_receive_buffer net id buffer size = Ret (r, got, put net id s') /\ net_ok (put net id s') /\ contents s' zs' /\
    (0 <= r -> r = Z.of_nat (length got) /\ r <= size /\ (0 < size -> 0 < r) /\ zs = got ++ zs') /\
    (r < 0 -> r = - EFAULT /\ zs' = zs /\ exists n, u_fault buffer n <> None).
Proof.
  intros Hnet Hs Ht Hne (xs & ys & Hb & ->). unfold read_receive_buffer.
  rewrite (get_lookup _ _ _ Hs), bind_Ret, VERIFY_true, bind_Ret by (by rewrite Hne).
  pose proof (net_sockets _ Hnet _ _ Hs) as Hok. destruct (ok_buffer _ Hok) as (xs0 & ys0 & _ & Hcap & _).
  assert (exists r got called b xs' ys', DoubleBuffer_read (m_receive_buffer s) buffer size = Ret (r, got, called, b) /\
    buffer_ok b xs' ys' /\ m_capacity b = m_capacity (m_receive_buffer s) /\
    (0 <= r -> r = Z.of_nat (length got) /\ r <= size /\ got ++ xs' ++ ys' = xs ++ ys /\ (0 < size -> r = 0 -> xs ++ ys = [])) /\
    (r < 0 -> r = - EFAULT /\ xs' ++ ys' = xs ++ ys /\ exists n, u_fault buffer n <> None))
    as (r & got & called & b & xs' & ys' & -> & Hb' & Hcap' & Hpos' & Hneg).
  { destruct (decide (size = 0)) as [->|Hnz].
    { exists 0, [], false, (m_receive_buffer s), xs, ys. split; [done|]. split_and!; try done; lia. }
    destruct (DoubleBuffer_read_correct _ _ _ buffer size Hb Ht ltac:(int_lia))
      as (r & got & called & b & xs' & ys' & ? & ? & ? & _ & Hpos' & Hneg).
    exists r, got, called, b, xs', ys'. split_and!; try done. intros Hr. destruct (Hpos' Hr) as (? & ? & ? & ?). by split_and!. }
  rewrite bind_Ret.
  exists r, got, b, (negb (DoubleBuffer_is_empty b)), (xs' ++ ys'). cbn zeta. split; [done|]. split; [|split; [by exists xs', ys'|split]].
  - eapply net_ok_changed; [done.. | | | rewrite put_become; apply become_changed].
    + split; try done; by left.
    + destruct Hok; split; try done. exists xs', ys'. split; [done|]. split; [cbn; congruence|]. cbn.
      unfold DoubleBuffer_is_empty. rewrite (buf_empty _ _ _ Hb'). destruct (bool_decide_reflect (xs' ++ ys' = [])); auto.
  - intros Hr. destruct (Hpos' Hr) as (Hlen & Hle & Heq & Hz). split; [done|]. split; [done|]. split; [|done].
    intros Hsz. destruct (decide (r = 0)) as [Hr0|]; [|lia]. specialize (Hz Hsz Hr0).
    unfold DoubleBuffer_is_empty in Hne. rewrite (buf_empty _ _ _ Hb), Hz in Hne. done.
  - apply Hneg.
Qed.

Lemma receive_ok net id s blocking buffer size :
  net_ok net -> sockets net !! id = Some s -> in_type size_t size ->
  call_ok net id (receive_byte_buffered net id blocking buffer size) (fun _ _ _ => True).
Proof.
  intros Hnet Hs Ht. unfold receive_byte_buffered. rewrite (get_lookup _ _ _ Hs), bind_Ret.
  destruct (DoubleBuffer_is_empty (m_receive_buffer s)) eqn:Hne.
  - destruct (protocol_is_disconnected s), (negb blocking); by eapply call_ret.
  - destruct (ok_buffer _ (net_sockets _ Hnet _ _ Hs)) as (xs & ys & Hb & _).
    destruct (read_receive_buffer_ok net id s buffer size (xs ++ ys) Hnet Hs Ht Hne) as (r & got & b & cr & zs' & Heq & Hok & _);
      [by exists xs, ys|].
    rewrite Heq, bind_Ret. eexists _, _, _. split; [done|]. split; [done|]. split; [done|]. split; [apply put_lookup | done].
Qed.

Lemma send_flags_bind env net id f (k : Net Tuple -> outcome (Net Tuple)) :
  ('(_, net') ← send_tcp_packet env net id f None 0; k net') = (net' ← send_flags env net id f; k net').
Proof. unfold send_flags. by destruct (send_tcp_packet env net id f None 0) as [[r net']|]. Qed.

Lemma shut_down_for_writing_safe env net id s :
  env_ok env -> net_ok net -> sockets net !! id = Some s ->
  safe net id (shut_down_for_writing env net id) (fun s' => m_state s' = m_state s \/ m_state s = Established /\ m_state s' = FinWait1).
Proof.
  intros Henv Hnet Hs. unfold shut_down_for_writing. rewrite (get_lookup _ _ _ Hs), bind_Ret.
  destruct (bool_decide_reflect (m_state s = Established)) as [Hst|]; [|eapply safe_ret; [done..|]; by left].
  destruct (ok_started _ (net_sockets _ Hnet _ _ Hs)) as [Hset Hp]; [congruence|].
  rewrite send_flags_bind.
  apply (safe_weaken _ _ _ (moved s FinWait1)); [step send_flags_safe; finish set_state_safe|]. intros s' (_ & _ & _ & ->). by right.
Qed.

Lemma shutdown_ok env net id s how :
  env_ok env -> net_ok net -> sockets net !! id = Some s ->
  call_ok net id (Socket_shutdown env net id how) (fun r _ s' =>
    r = - ENOTCONN /\ s' = s \/ r = KSuccess /\ (m_state s' = m_state s \/ m_state s = Established /\ m_state s' = FinWait1)).
Proof.
  intros Henv Hnet Hs. unfold Socket_shutdown. rewrite (get_lookup _ _ _ Hs), bind_Ret.
  destruct (m_connected s); cbn [negb]; [|eapply call_ret; [done..|]; by left].
  destruct (bool_decide (m_role s = Listener)); [eapply call_ret; [done..|]; by left|].
  set (c := if _ && _ then _ else _).
  assert (safe net id c (fun s' => m_state s' = m_state s \/ m_state s = Established /\ m_state s' = FinWait1))
    as (net1 & s1 & -> & Hok1 & Hs1 & Hst & _ & Hh1).
  { unfold c. destruct (_ && _); [by apply shut_down_for_writing_safe | eapply safe_ret; [done..|]; by left]. }
  rewrite bind_Ret, (get_lookup _ _ _ Hs1), bind_Ret. apply (call_then _ net1); [done|].
  pose proof (net_sockets _ Hok1 _ _ Hs1) as Hok.
  destruct (negb _ && _); (eapply call_changed; [done.. | | | rewrite put_become; apply become_changed | by right]).
  - split; try done; by left.
  - destruct Hok as [(xs & ys & Hb & Hcap & _)]; split; try done. exists xs, ys. split; [done|]. split; [done|]. by left.
  - split; try done; by left.
  - by destruct Hok; split.
Qed.

(** [close] and giving up the descriptor. *)
Lemma close_ok env net id s :
  env_ok env -> net_ok net -> sockets net !! id = Some s ->
  exists net', TCPSocket_close env net id = Ret net' /\ net_ok net' /\ held net' = held net /\ is_Some (sockets net' !! id).
Proof.
  intros Henv Hnet Hs. unfold TCPSocket_close.
  destruct (shutdown_ok env net id s (Z.lor SHUT_RD SHUT_WR) Henv Hnet Hs) as (r & net1 & s1 & -> & Hok1 & Hh1 & Hs1 & _).
  rewrite bind_Ret. cbn beta iota. rewrite (get_lookup _ _ _ Hs1), bind_Ret.
  set (c := if bool_decide (m_state s1 = CloseWait) then _ else _).
  assert (safe net1 id c (fun _ => True)) as (net2 & s2 & -> & Hok2 & Hs2 & _ & _ & Hh2).
  { unfold c. destruct (bool_decide_reflect (m_state s1 = CloseWait)) as [Hst|]; [|by eapply safe_ret].
    destruct (ok_started _ (net_sockets _ Hok1 _ _ Hs1)) as [Hset Hp]; [congruence|]. rewrite send_flags_bind.
    apply (safe_weaken _ _ _ (moved s1 LastAck)); [step send_flags_safe; finish set_state_safe | done]. }
  rewrite bind_Ret, (get_lookup _ _ _ Hs2), bind_Ret. eexists. split; [done|].
  destruct (_ && _); [|by rewrite Hs2; split; [|split; [congruence|]]].
  split; [|split; [cbn; congruence | cbn; by rewrite Hs2]].
  eapply (net_ok_changed _ _ id s2 s2); [done.. | apply similar_refl | by eapply Hok2 |].
  split; try done. cbn. by rewrite insert_id.
Qed.

(** ** Descriptors *)

Lemma net_ok_unheld net id : net_ok net -> net_ok (net <| held := held net ∖ {[id]} |>).
Proof.
  intros Hnet. split; cbn; try apply Hnet.
  - intros l ls c Hls Hc. destruct (net_queue _ Hnet l ls c Hls Hc) as (s & ? & ? & ? & ? & Hn). exists s. split_and!; try done.
    by intros [? _]%elem_of_difference.
  - intros j [Hj _]%elem_of_difference. by apply (net_held _ Hnet).
Qed.

Lemma create_ok env net :
  env_ok env -> net_ok net -> net_ok (TCPSocket_create env net).2.
Proof.
  intros Henv Hnet. unfold TCPSocket_create. cbn [snd]. set (net' := _ <| held := _ |>).
  assert (forall j x, sockets net' !! j = Some x -> j = next_socket net /\ x = new_socket env \/ j <> next_socket net /\ sockets net !! j = Some x) as Hinv.
  { intros j x. cbn. destruct (decide (j = next_socket net)) as [->|Hne]; [rewrite lookup_insert_eq | rewrite lookup_insert_ne by done]; [left; by simplify_eq | by right]. }
  assert (forall j x, sockets net !! j = Some x -> sockets net' !! j = Some x /\ j <> next_socket net) as Hold.
  { intros j x Hx. pose proof (net_fresh _ Hnet _ _ Hx). cbn. rewrite lookup_insert_ne by lia. split; [done | lia]. }
  split.
  - intros j x [[-> ->]|[_ Hx]]%Hinv; [by apply new_socket_ok | by eapply Hnet].
  - intros t j Ht. destruct (net_registered _ Hnet _ _ Ht) as (x & Hx & ?). exists x. split; [by apply Hold | done].
  - intros c x l lx Hx Hl Hlx. destruct (Hinv _ _ Hx) as [[-> ->]|[_ Hx']]; [done|].
    destruct (net_client _ Hnet _ _ _ Hx' Hl) as (Hlt & _). pose proof (net_fresh _ Hnet _ _ Hx').
    destruct (Hinv _ _ Hlx) as [[-> _]|[_ Hlx']]; [lia|]. by eapply (net_originator _ Hnet).
  - intros l lx t c [[-> ->]|[_ Hlx]]%Hinv Ht; [done|]. destruct (net_release _ Hnet _ _ _ _ Hlx Ht) as (x & Hx & ?).
    exists x. split; [by apply Hold | done].
  - intros c x l [[-> ->]|[_ Hx]]%Hinv Hl; [done|]. by apply (net_client _ Hnet).
  - intros l lx c [[-> ->]|[_ Hlx]]%Hinv Hc; [by apply elem_of_nil in Hc|].
    destruct (net_queue _ Hnet _ _ _ Hlx Hc) as (x & Hx & ? & ? & ? & ?). destruct (Hold _ _ Hx) as [Hx' Hne].
    exists x. split_and!; try done. cbn. by intros [?%elem_of_singleton|?]%elem_of_union.
  - intros l lx [[-> ->]|[_ Hlx]]%Hinv; [constructor | by eapply (net_queue_once _ Hnet)].
  - intros l l' lx lx' c [[-> ->]|[_ Hlx]]%Hinv [[-> ->]|[_ Hlx']]%Hinv Hc Hc'; try done; try by apply elem_of_nil in Hc || by apply elem_of_nil in Hc'.
    by eapply (net_queue_one _ Hnet).
  - cbn. intros j [->%elem_of_singleton|Hj]%elem_of_union.
    + exists (new_socket env). split; [apply lookup_insert_eq | done].
    + destruct (net_held _ Hnet _ Hj) as (x & Hx & ?). exists x. split; [by apply Hold | done].
  - intros j x Hx. cbn. destruct (Hinv _ _ Hx) as [[-> _]|[_ Hx']]; [lia|]. pose proof (net_fresh _ Hnet _ _ Hx'). lia.
Qed.

(** Nothing refers to the socket, and its tuple is not that of another socket. *)
Definition unreferenced net id : Prop :=
  (id ∉ held net) /\
  (forall l ls, sockets net !! l = Some ls -> (id ∉ m_pending ls) /\ forall t, m_pending_release_for_accept ls !! t <> Some id) /\
  (forall t, closing_sockets net !! t <> Some id) /\
  (forall s x, sockets net !! id = Some s -> sockets_by_tuple net !! tuple s = Some x -> x = id).

Lemma destroy_ok net id s :
  net_ok net -> sockets net !! id = Some s -> unreferenced net id ->
  exists net', TCPSocket_destroy net id = Ret net' /\ net_ok net' /\ sockets net' !! id = None /\ unregistered net' id.
Proof.
  intros Hnet Hs (Hnh & Href & _ & Htab). unfold TCPSocket_destroy. rewrite (get_lookup _ _ _ Hs), bind_Ret.
  eexists. split; [done|]. cbn.
  assert (forall j x, delete id (sockets net) !! j = Some x -> sockets net !! j = Some x /\ j <> id) as Hinv.
  { intros j x [? ?]%lookup_delete_Some. by split. }
  assert (forall t j, delete (tuple s) (sockets_by_tuple net) !! t = Some j -> sockets_by_tuple net !! t = Some j /\ j <> id) as Hreg.
  { intros t j [Hne Hj]%lookup_delete_Some. split; [done|]. intros ->.
    destruct (net_registered _ Hnet _ _ Hj) as (y & Hy & ? & _). congruence. }
  split; [|split; [apply lookup_delete_eq | intros t Ht; by destruct (Hreg t id Ht)]].
  split; cbn.
  - intros j x [Hx _]%Hinv. by eapply Hnet.
  - intros t j [Hj Hne]%Hreg. rewrite lookup_delete_ne by done. by eapply Hnet.
  - intros c x l lx [Hx _]%Hinv Hl [Hlx _]%Hinv. by eapply (net_originator _ Hnet).
  - intros l lx t c [Hlx _]%Hinv Ht. rewrite lookup_delete_ne; [by eapply (net_release _ Hnet)|].
    intros <-. destruct (Href _ _ Hlx) as [_ Hr]. by apply (Hr t).
  - intros c x l [Hx Hne]%Hinv Hl. destruct (net_client _ Hnet _ _ _ Hx Hl) as (? & Ht & ? & ?). split_and!; try done.
    rewrite lookup_delete_ne; [done|]. intros Heq. rewrite <- Heq in Ht. apply Hne. by apply (Htab s).
  - intros l lx c [Hlx _]%Hinv Hc. rewrite lookup_delete_ne; [by eapply (net_queue _ Hnet)|].
    intros <-. by destruct (Href _ _ Hlx).
  - intros l lx [Hlx _]%Hinv. by eapply (net_queue_once _ Hnet).
  - intros l l' lx lx' c [Hlx _]%Hinv [Hlx' _]%Hinv. by eapply (net_queue_one _ Hnet).
  - intros j Hj. rewrite lookup_delete_ne by congruence. by apply (net_held _ Hnet).
  - intros j x [Hx _]%Hinv. by apply (net_fresh _ Hnet _ _ Hx).
Qed.

(** ** Accepting *)

(** The socket [y] with number [j] becomes [x] when [client] is accepted from [l]. *)
Definition accepted_from (l client j : nat) (pending : list nat) (y : TCPSocket Tuple) : TCPSocket Tuple :=
  if decide (j = client) then y <| m_connected := true |> <| m_role := Accepted |>
  else if decide (j = l) then y <| m_pending := pending |> else y.

Lemma accepted_from_same l client j pending y :
  let x := accepted_from l client j pending y in
  tuple x = tuple y /\ m_local_port x = m_local_port y /\ m_direction x = m_direction y /\ m_originator x = m_originator y /\
  m_pending_release_for_accept x = m_pending_release_for_accept y /\ (socket_ok y -> socket_ok x) /\
  (j <> client -> m_connected x = m_connected y) /\ (j <> l -> m_pending x = m_pending y).
Proof.
  unfold accepted_from. destruct (decide (j = client)); [split_and!; try done; by destruct 1; split|].
  destruct (decide (j = l)); [|done]. split_and!; try done. by destruct 1; split.
Qed.

Section accept.
Context (net : Net Tuple) (l : nat) (ls : TCPSocket Tuple) (client : nat) (pending : list nat).
Context (Hnet : net_ok net) (Hheld : l ∈ held net) (Hls : sockets net !! l = Some ls) (Hp : m_pending ls = client :: pending).
#[local] Set Default Proof Using "Hnet Hheld Hls Hp".

Lemma accept_client :
  exists c, sockets net !! client = Some c /\ m_connected c = false /\ m_originator c = None /\ client <> l.
Proof.
  destruct (net_queue _ Hnet l ls client Hls) as (c & ? & ? & _ & ? & ?); [rewrite Hp; apply list_elem_of_here|].
  exists c. split_and!; try done. congruence.
Qed.

Lemma accepted_pending j y :
  sockets net !! j = Some y ->
  NoDup (m_pending (accepted_from l client j pending y)) /\
  forall c, c ∈ m_pending (accepted_from l client j pending y) -> c ∈ m_pending y /\ c <> client.
Proof.
  intros Hy. pose proof (net_queue_once _ Hnet _ _ Hy) as Hnd. destruct accept_client as (_ & _ & _ & _ & Hne).
  assert (j <> l -> client ∉ m_pending y) as Hother.
  { intros Hj Hc. apply Hj. apply (net_queue_one _ Hnet j l y ls client); try done. rewrite Hp. apply list_elem_of_here. }
  unfold accepted_from. destruct (decide (j = client)) as [->|].
  { split; [done|]. intros c Hc. split; [done|]. intros ->. by apply Hother. }
  destruct (decide (j = l)) as [->|]; [|split; [done|]; intros c Hc; split; [done|]; intros ->; by apply Hother].
  assert (y = ls) as -> by congruence. rewrite Hp in *. apply NoDup_cons in Hnd as [Hn1 Hn2]. split; [done|].
  cbn. intros c Hc. split; [by apply list_elem_of_further|]. congruence.
Qed.

Lemma net_ok_accepted net' :
  (forall j, sockets net' !! j = (accepted_from l client j pending) <$> (sockets net !! j)) ->
  sockets_by_tuple net' = sockets_by_tuple net -> held net' = {[client]} ∪ held net -> next_socket net' = next_socket net ->
  net_ok net'.
Proof.
  intros Hsock Htab Hh Hnext. destruct accept_client as (cl & Hcl & Hclcon & Hclo & Hne).
  assert (forall j x, sockets net' !! j = Some x -> exists y, sockets net !! j = Some y /\ x = accepted_from l client j pending y) as Hinv.
  { intros j x. rewrite Hsock. by intros (y & Hy & ->)%fmap_Some; exists y. }
  assert (forall j y, sockets net !! j = Some y -> sockets net' !! j = Some (accepted_from l client j pending y)) as Hold.
  { intros j y Hy. by rewrite Hsock, Hy. }
  split.
  - intros j x (y & Hy & ->)%Hinv. apply accepted_from_same. by eapply Hnet.
  - intros t j. rewrite Htab. intros Ht. destruct (net_registered _ Hnet _ _ Ht) as (y & Hy & ? & ?).
    eexists. split; [by apply Hold|]. by destruct (accepted_from_same l client j pending y) as (-> & -> & _).
  - intros c x k kx (y & Hy & ->)%Hinv Hl (ky & Hky & ->)%Hinv.
    destruct (accepted_from_same l client c pending y) as (-> & _ & _ & Ho & _). rewrite Ho in Hl.
    destruct (accepted_from_same l client k pending ky) as (_ & _ & _ & _ & -> & _). by eapply (net_originator _ Hnet).
  - intros k kx t c (ky & Hky & ->)%Hinv Ht. destruct (accepted_from_same l client k pending ky) as (_ & _ & _ & _ & Hr & _).
    rewrite Hr in Ht. destruct (net_release _ Hnet _ _ _ _ Hky Ht) as (y & Hy & ? & ?). eexists. split; [by apply Hold|].
    by destruct (accepted_from_same l client c pending y) as (-> & _ & _ & -> & _).
  - intros c x k (y & Hy & ->)%Hinv Hk. destruct (accepted_from_same l client c pending y) as (-> & _ & -> & Ho & _ & _ & Hcon & _).
    rewrite Ho in Hk. rewrite Htab, Hcon by congruence. by apply (net_client _ Hnet).
  - intros k kx c (ky & Hky & ->)%Hinv Hc. destruct (accepted_pending k ky Hky) as [_ Hsub]. destruct (Hsub c Hc) as [Hc' Hcne].
    destruct (net_queue _ Hnet _ _ _ Hky Hc') as (y & Hy & ? & ? & ? & Hnh). eexists. split; [by apply Hold|].
    destruct (accepted_from_same l client c pending y) as (_ & _ & -> & -> & _ & _ & -> & _); [|done]. split_and!; try done.
    rewrite Hh. by intros [?%elem_of_singleton|?]%elem_of_union.
  - intros k kx (ky & Hky & ->)%Hinv. by apply accepted_pending.
  - intros k k' kx kx' c (ky & Hky & ->)%Hinv (ky' & Hky' & ->)%Hinv Hc Hc'.
    apply (net_queue_one _ Hnet k k' ky ky' c); try done; [by apply (accepted_pending k ky Hky) | by apply (accepted_pending k' ky' Hky')].
  - intros j. rewrite Hh. intros Hj. assert (exists y, sockets net !! j = Some y /\ m_originator y = None) as (y & Hy & Ho).
    { apply elem_of_union in Hj as [->%elem_of_singleton|Hj]; [by exists cl | by apply (net_held _ Hnet)]. }
    eexists. split; [by apply Hold|]. by destruct (accepted_from_same l client j pending y) as (_ & _ & _ & -> & _).
  - intros j x (y & Hy & _)%Hinv. rewrite Hnext. by apply (net_fresh _ Hnet _ _ Hy).
Qed.

End accept.

Lemma accept_ok net l ls :
  net_ok net -> l ∈ held net -> sockets net !! l = Some ls ->
  match m_pending ls with
  | [] => Socket_accept net l = Ret (None, net)
  | client :: pending => exists net', Socket_accept net l = Ret (Some client, net') /\
      net_ok (net' <| held := {[client]} ∪ held net' |>) /\ held net' = held net
  end.
Proof.
  intros Hnet Hh Hls. unfold Socket_accept. rewrite (get_lookup _ _ _ Hls), bind_Ret.
  destruct (m_pending ls) as [|client pending] eqn:Hp; [done|].
  destruct (accept_client net l ls client pending Hnet Hh Hls Hp) as (c & Hc & Hcon & _ & Hne).
  erewrite get_lookup by (rewrite put_lookup_ne by done; exact Hc). rewrite bind_Ret, VERIFY_true, bind_Ret by (by rewrite Hcon).
  eexists. split; [done|]. split; [|done]. apply (net_ok_accepted net l ls client pending Hnet Hh Hls Hp); try done.
  intros j. cbn. unfold accepted_from. destruct (decide (j = client)) as [->|]; [by rewrite lookup_insert_eq, Hc|].
  rewrite lookup_insert_ne by done. destruct (decide (j = l)) as [->|]; [by rewrite lookup_insert_eq, Hls|].
  rewrite lookup_insert_ne by done. by destruct (sockets net !! j).
Qed.

(** ** Packets and calls in any order *)

Inductive event : Type :=
  | Packet (packet : IPv4Packet)
  | Create
  | Bind (id : nat) (superuser : bool) (address : UserAddress)
  | DoListen (id : nat) (random backlog : Z)
  | Connect (id : nat) (random sequence_number : Z) (address : UserAddress)
  | ConnectFinish (id : nat)
  | Accept (id : nat)
  | WriteTo (id : nat) (random : Z) (data : UserBuffer) (size : Z)
  | SendTo (id : nat) (random : Z) (data : UserBuffer) (size : Z) (address : option UserAddress)
  | ReadFrom (id : nat) (blocking : bool) (buffer : UserBuffer) (size : Z)
  | ReadFinish (id : nat) (buffer : UserBuffer) (size : Z)
  | Shutdown (id : nat) (how : Z)
  | Close (id : nat)
  | Destroy (id : nat).

(** [accept] gives the client a descriptor and [close] takes one away. *)
Definition run_event (env : Environment) net (e : event) : outcome (Net Tuple) :=
  match e with
  | Packet packet => handle_tcp env net packet
  | Create => Ret (TCPSocket_create env net).2
  | Bind id superuser address => '(_, net) ← IPv4Socket_bind env superuser net id address; Ret net
  | DoListen id random backlog => '(_, net) ← IPv4Socket_listen random net id backlog; Ret net
  | Connect id random seq address => '(_, net) ← IPv4Socket_connect env random seq net id address; Ret net
  | ConnectFinish id => '(_, net) ← protocol_connect_finish net id; Ret net
  | Accept id =>
      '(client, net) ← Socket_accept net id;
      Ret match client with Some c => net <| held := {[c]} ∪ held net |> | None => net end
  | WriteTo id random data size => '(_, net) ← Socket_write env random net id data size; Ret net
  | SendTo id random data size address => '(_, net) ← IPv4Socket_sendto env random net id data size address; Ret net
  | ReadFrom id blocking buffer size => '(_, net) ← receive_byte_buffered net id blocking buffer size; Ret net
  | ReadFinish id buffer size => '(_, _, net) ← read_receive_buffer net id buffer size; Ret net
  | Shutdown id how => '(_, net) ← Socket_shutdown env net id how; Ret net
  | Close id => net ← TCPSocket_close env net id; Ret (net <| held := held net ∖ {[id]} |>)
  | Destroy id => TCPSocket_destroy net id
  end.

(** The descriptor exists and its socket has the property. *)
Definition on_descriptor net id (P : TCPSocket Tuple -> Prop) : Prop :=
  id ∈ held net /\ exists s, sockets net !! id = Some s /\ P s.

(** What the callers keep to.  Arguments have their types and a call is made on a descriptor.
    - [Bind], only of a socket that was not started and is not in the table: [bind] of a started
      one fails its VERIFY ([bind_started_fails]).
    - [Connect], and [WriteTo] and [SendTo] that choose an address or peer, of a socket that is
      not in the table: otherwise its tuple changes under the table.
    - [ConnectFinish], when the setup is complete: that is what [ConnectBlocker] waits for
      (FileDescription.cpp:89).
    - [ReadFinish], when there is data: a reader that is woken without fails its VERIFY
      ([read_after_fin_fails]).
    - [Destroy], when the last reference is gone, of a socket whose tuple is not that of another
      one in the table: the destructor removes the tuple whoever it belongs to
      ([failed_listen_unregisters]). *)
Definition allowed net (e : event) : Prop :=
  match e with
  | Packet packet => ip_packet_ok packet
  | Create => True
  | Bind id _ address => on_descriptor net id (fun s => m_setup_state s = Unstarted) /\ unregistered net id /\ u16_range (ua_port address)
  | DoListen id random _ => id ∈ held net /\ 0 <= random
  | Connect id random seq address => id ∈ held net /\ unregistered net id /\ 0 <= random /\ u32_range seq /\ u16_range (ua_port address)
  | ConnectFinish id => on_descriptor net id (fun s => m_setup_state s = Completed)
  | Accept id => id ∈ held net
  | WriteTo id random data size => on_descriptor net id (fun s => m_local_address s <> 0 \/ unregistered net id) /\
      0 <= random /\ payload_ok (Some data) size
  | SendTo id random data size address =>
      on_descriptor net id (fun s => address = None /\ m_local_address s <> 0 \/ unregistered net id) /\
      (forall a, address = Some a -> u16_range (ua_port a)) /\ 0 <= random /\ payload_ok (Some data) size
  | ReadFrom id _ _ size => id ∈ held net /\ in_type size_t size
  | ReadFinish id _ size => on_descriptor net id (fun s => DoubleBuffer_is_empty (m_receive_buffer s) = false) /\
      in_type size_t size
  | Shutdown id _ => id ∈ held net
  | Close id => id ∈ held net
  | Destroy id => is_Some (sockets net !! id) /\ unreferenced net id
  end.

Definition empty_net : Net Tuple := MkNet ∅ ∅ ∅ ∅ 0 [].

Inductive reachable : Net Tuple -> Prop :=
  | reachable_init : reachable empty_net
  | reachable_step env net e net' :
      reachable net -> env_ok env -> allowed net e -> run_event env net e = Ret net' -> reachable net'.

Lemma empty_net_ok : net_ok empty_net.
Proof. split; cbn; try done; intros *; by rewrite ?lookup_empty. Qed.

Lemma call_event {A} net id (c : outcome (A * Net Tuple)) P :
  call_ok net id c P -> exists net', ('(_, net') ← c; Ret net') = Ret net' /\ net_ok net'.
Proof. intros (r & net' & s' & -> & Hok & _). by exists net'. Qed.

Lemma run_event_ok env net e :
  env_ok env -> net_ok net -> allowed net e -> exists net', run_event env net e = Ret net' /\ net_ok net'.
Proof using Type*.
  intros Henv Hnet Hal.
  assert (forall id, id ∈ held net -> exists s, sockets net !! id = Some s) as Hget.
  { intros id Hid. destruct (net_held _ Hnet _ Hid) as (s & Hs & _). by exists s. }
  destruct e as [packet| |id su address|id random backlog|id random seq address|id|id|id random data size
    |id random data size address|id blocking buffer size|id buffer size|id how|id|id]; cbn [allowed run_event] in *.
  - destruct (handle_tcp_handled env net packet Henv Hnet Hal) as (net' & ? & ? & _). by exists net'.
  - eexists. split; [done|]. by apply create_ok.
  - destruct Hal as ((Hh & s & Hs & Hset) & Hun & Hp). by eapply call_event, bind_ok.
  - destruct Hal as (Hh & Hr). destruct (Hget id Hh) as [s Hs]. by eapply call_event, listen_ok.
  - destruct Hal as (Hh & Hun & Hr & Hseq & Hp). destruct (Hget id Hh) as [s Hs]. by eapply call_event, connect_ok.
  - destruct Hal as (Hh & s & Hs & Hset). by eapply call_event, connect_finish_ok.
  - destruct (Hget id Hal) as [s Hs]. pose proof (accept_ok net id s Hnet Hal Hs) as Hacc. destruct (m_pending s) as [|c pending].
    + rewrite Hacc, bind_Ret. by exists net.
    + destruct Hacc as (net' & -> & Hok & _). rewrite bind_Ret. by eexists.
  - destruct Hal as ((Hh & s & Hs & Hor) & Hr & Hpay). by eapply call_event, write_ok.
  - destruct Hal as ((Hh & s & Hs & Hor) & Hport & Hr & Hpay). by eapply call_event, sendto_ok.
  - destruct Hal as (Hh & Ht). destruct (Hget id Hh) as [s Hs]. by eapply call_event, receive_ok.
  - destruct Hal as ((Hh & s & Hs & Hne) & Ht).
    destruct (ok_buffer _ (net_sockets _ Hnet _ _ Hs)) as (xs & ys & Hb & _).
    destruct (read_receive_buffer_ok net id s buffer size (xs ++ ys) Hnet Hs Ht Hne) as (r & got & b & cr & zs' & Heq & Hok & _);
      [by exists xs, ys|]. rewrite Heq, bind_Ret. by eexists.
  - destruct (Hget id Hal) as [s Hs]. by eapply call_event, shutdown_ok.
  - destruct (Hget id Hal) as [s Hs]. destruct (close_ok env net id s Henv Hnet Hs) as (net' & -> & Hok & _).
    rewrite bind_Ret. eexists. split; [done|]. by apply net_ok_unheld.
  - destruct Hal as [[s Hs] Hun]. destruct (destroy_ok net id s Hnet Hs Hun) as (net' & -> & Hok & _). by exists net'.
Qed.

Lemma tcp_reachable_ok net : reachable net -> net_ok net.
Proof using Type*.
  induction 1 as [|env net e net' _ IH Henv Hal Hrun]; [apply empty_net_ok|].
  destruct (run_event_ok env net e Henv IH Hal) as (net1 & Heq & Hok). congruence.
Qed.

(** C16. Packets with any bytes and the system calls that [allowed] admits, in any order,
    from the start: every event returns - no [VERIFY] fails, no destroyed socket is used,
    no search runs out of steps - and leaves the tables consistent: a socket found by its
    tuple is alive, has that tuple and a port, and a queued connection is alive and not
    yet accepted. Packets are not restricted except to be bytes. What [allowed] leaves
    out: binding a started socket; changing the addresses of a socket that is in the
    table, by [bind], [connect] or sending; a reader that is woken without data; a
    [connect] that is resumed before its setup is complete, which its blocker does not do;
    and destroying a socket whose tuple is in the table for another one. TcpDefects.v has
    examples of what goes wrong with them. *)
Theorem TCP_reachable_safe env net e :
  reachable net -> env_ok env -> allowed net e ->
  exists net', run_event env net e = Ret net' /\
    (forall t id, sockets_by_tuple net' !! t = Some id ->
       exists s, sockets net' !! id = Some s /\ tuple s = t /\ m_local_port s <> 0) /\
    (forall l ls c, sockets net' !! l = Some ls -> c ∈ m_pending ls ->
       exists s, sockets net' !! c = Some s /\ m_connected s = false /\ c ∉ held net').
Proof using Type*.
  intros Hr Henv Hal. destruct (run_event_ok env net e Henv (tcp_reachable_ok net Hr) Hal) as (net' & Hrun & Hok).
  exists net'. split; [done|]. split; [apply (net_registered _ Hok)|].
  intros l ls c Hls Hc. destruct (net_queue _ Hok _ _ _ Hls Hc) as (s & ? & ? & _ & _ & ?). by exists s.
Qed.

(** C19. In every reachable state a packet moves at most the socket it is addressed to, along an
    edge of the state machine of TCP labelled with the flags of the packet; a new socket
    appears only for SYN to a listener, in SynReceived; every other socket keeps its state. *)
Theorem handle_tcp_follows_state_machine env net packet :
  reachable net -> env_ok env -> ip_packet_ok packet ->
  exists net', handle_tcp env net packet = Ret net' /\
    (net' = net \/ exists p id, TCPPacket_read (ip_payload packet) = Ret p /\
       from_tuple net (mk_tuple (ip_destination packet) (p_destination_port p) (ip_source packet) (p_source_port p)) = Some id /\
       handled net net' id (flags p)).
Proof using Type*.
  intros Hr Henv Hp. destruct (handle_tcp_handled env net packet Henv (tcp_reachable_ok net Hr) Hp) as (net' & ? & _ & _ & ?).
  by exists net'.
Qed.

(** C37. The search for a local port always ends.  It gives an ephemeral port that no socket has
    for these addresses and enters the socket under it; it fails with EADDRINUSE, changing
    nothing, only when all 28232 ephemeral ports are taken. *)
Theorem protocol_allocate_local_port_complete random net id s :
  0 <= random -> sockets net !! id = Some s ->
  exists r net', protocol_allocate_local_port random net id = Ret (r, net') /\
    (32768 <= r <= 60999 /\ ~ port_used net s r /\
       sockets net' !! id = Some (s <| m_local_port := r |>) /\
       sockets_by_tuple net' = <[tuple (s <| m_local_port := r |>) := id]> (sockets_by_tuple net) \/
     r = - EADDRINUSE /\ net' = net /\ forall port, 32768 <= port <= 60999 -> port_used net s port).
Proof.
  intros Hr Hs. destruct (protocol_allocate_local_port_spec random net id s Hr Hs) as [[-> Hall]|(port & Hp & Hfree & ->)].
  - eexists _, _. split; [done|]. by right.
  - eexists _, _. split; [done|]. left. split_and!; try done; [apply Hp.. | apply put_lookup].
Qed.

End calls.

(** ** A listener that gets a SYN *)

#[global] Instance sample_tuple : SocketTuple (Z * Z * Z * Z) := {|
  mk_tuple la lp pa pp := (la, lp, pa, pp);
  tuple_local_address t := t.1.1.1;
  tuple_local_port t := t.1.1.2
|}.

#[global] Instance sample_tuple_laws : SocketTupleLaws (Z * Z * Z * Z).
Proof. split; [done..|]. intros *. cbn. intros [=]. done. Qed.

Definition sample_env (storage : list Z) : Environment :=
  MkEnv (fun _ _ => Some 1) (fun _ _ => 0) (MkTime 10 0) (fun a => a =? 1) storage.

Definition sample_storage : list Z := replicate (Z.to_nat 131072) 0.

Lemma sample_env_ok : env_ok (sample_env sample_storage).
Proof. split; [by split | apply length_replicate]. Qed.

Section sample.
Context (storage : list Z).
#[local] Set Default Proof Using "Type".

Definition sample_created : Net (Z * Z * Z * Z) := (TCPSocket_create (sample_env storage) empty_net).2.
Definition sample_bound : Net (Z * Z * Z * Z) :=
  put sample_created 0 (new_socket (sample_env storage) <| m_local_address := 1 |> <| m_local_port := 80 |> <| m_adapter := true |>).
Definition sample_listening : Net (Z * Z * Z * Z) :=
  put sample_bound 0 (new_socket (sample_env storage) <| m_local_address := 1 |> <| m_local_port := 80 |> <| m_adapter := true |>
    <| m_backlog := 5 |> <| m_role := Listener |> <| m_direction := Passive |> <| m_state := Listen |> <| m_setup_state := Completed |>)
    <| sockets_by_tuple := {[(1, 80, 0, 0) := 0%nat]} |>.

Lemma sample_bind : run_event (sample_env storage) sample_created (Bind 0 true (inet 1 80)) = Ret sample_bound.
Proof. reflexivity. Qed.

Lemma sample_listen : run_event (sample_env storage) sample_bound (DoListen 0 0 5) = Ret sample_listening.
Proof. vm_compute. reflexivity. Qed.

Lemma sample_reachable : env_ok (sample_env storage) -> reachable sample_listening.
Proof.
  intros Henv. eapply reachable_step; [|exact Henv | | exact sample_listen].
  - eapply reachable_step; [|exact Henv | | exact sample_bind].
    + eapply (reachable_step (sample_env storage) empty_net Create); [constructor | exact Henv | done | reflexivity].
    + split; [split; [|by exists (new_socket (sample_env storage))] | by split; [intros t|]].
      apply elem_of_union; left; by apply elem_of_singleton.
  - split; [|done]. apply elem_of_union; left; by apply elem_of_singleton.
Qed.

End sample.

(** SYN to port 80. *)
Definition sample_syn : IPv4Packet :=
  MkIPv4 2 1 (TCPPacket_bytes (MkPacket 4000 80 7 0 (set_flags (set_data_offset 0 5) SYN) 1024 0 0)).

Lemma sample_syn_ok : ip_packet_ok sample_syn.
Proof. split; [|by vm_compute]. repeat (constructor; [vm_compute; split; congruence|]). constructor. Qed.

(** The new connection answers and waits for the acknowledgment. *)
Lemma sample_syn_received storage :
  (net ← handle_tcp (sample_env storage) (sample_listening storage) sample_syn;
   Ret (m_state <$> sockets net !! 1%nat, sockets_by_tuple net !! (1, 80, 2, 4000), length (sent net))) =
  Ret (Some SynReceived, Some 1%nat, 1%nat).
Proof. vm_compute. reflexivity. Qed.

Lemma TCP_reachable_safe_witness :
  let net := sample_listening sample_storage in
  reachable net /\ env_ok (sample_env sample_storage) /\ allowed net (Packet sample_syn) /\
  exists net', run_event (sample_env sample_storage) net (Packet sample_syn) = Ret net' /\
    (forall t id, sockets_by_tuple net' !! t = Some id ->
       exists s, sockets net' !! id = Some s /\ tuple s = t /\ m_local_port s <> 0) /\
    (forall l ls c, sockets net' !! l = Some ls -> c ∈ m_pending ls ->
       exists s, sockets net' !! c = Some s /\ m_connected s = false /\ c ∉ held net').
Proof.
  pose proof (sample_reachable sample_storage sample_env_ok) as Hr.
  split; [exact Hr|]. split; [exact sample_env_ok|]. split; [exact sample_syn_ok|].
  exact (TCP_reachable_safe _ _ (Packet sample_syn) Hr sample_env_ok sample_syn_ok).
Defined.

Lemma handle_tcp_follows_state_machine_witness :
  let net := sample_listening sample_storage in
  (net' ← handle_tcp (sample_env sample_storage) net sample_syn; Ret (m_state <$> sockets net' !! 1%nat)) = Ret (Some SynReceived) /\
  exists net', handle_tcp (sample_env sample_storage) net sample_syn = Ret net' /\
    (net' = net \/ exists p id, TCPPacket_read (ip_payload sample_syn) = Ret p /\
       from_tuple net (mk_tuple (ip_destination sample_syn) (p_destination_port p) (ip_source sample_syn) (p_source_port p)) = Some id /\
       handled net net' id (flags p)).
Proof.
  cbv zeta. pose proof (sample_reachable sample_storage sample_env_ok) as Hr. split.
  - pose proof (sample_syn_received sample_storage) as Heq.
    revert Heq. generalize (handle_tcp (sample_env sample_storage) (sample_listening sample_storage) sample_syn).
    intros [net'|f]; [|done]. rewrite !bind_Ret. intros Heq. injection Heq as -> _ _. done.
  - exact (handle_tcp_follows_state_machine _ _ sample_syn Hr sample_env_ok sample_syn_ok).
Defined.

Lemma protocol_allocate_local_port_complete_witness :
  let net := sample_created [] in let s := new_socket (sample_env []) in
  (exists net', protocol_allocate_local_port 7 net 0 = Ret (32775, net')) /\
  exists r net', protocol_allocate_local_port 7 net 0 = Ret (r, net') /\
    (32768 <= r <= 60999 /\ ~ port_used net s r /\
       sockets net' !! 0%nat = Some (s <| m_local_port := r |>) /\
       sockets_by_tuple net' = <[tuple (s <| m_local_port := r |>) := 0%nat]> (sockets_by_tuple net) \/
     r = - EADDRINUSE /\ net' = net /\ forall port, 32768 <= port <= 60999 -> port_used net s port).
Proof.
  split; [eexists; vm_compute; reflexivity|].
  apply (protocol_allocate_local_port_complete 7 (sample_created []) 0%nat (new_socket (sample_env []))); [lia | reflexivity].
Defined.
