(* ===== verification/TcpConnection.v ===== *)
(** * TCP: a connection between two hosts

    Two hosts, each with its own sockets, that deliver each other's packets: [connect] and
    three packets establish a connection with matching numbers on both sides, and what one
    side writes the other side reads, in order and without loss as long as the receive buffer
    has room (the code has no flow control).  The network delivers at once.  The packets are the bytes
    that [send_tcp_packet] builds and [handle_tcp] takes apart. *)

From stdpp Require Import gmap.
From S2P Require Import Prelude AKTime DoubleBuffer TcpPacket TcpSocket Tcp TcpInvariant TcpCalls.

#[local] Open Scope Z_scope.

(** A host with the address [la] that reaches [pa]: there is a route, sending succeeds, and the
    clock has run for a second. *)
Record link (env : Environment) (la pa : Z) : Prop := Link {
  link_env : env_ok env;
  link_route : route_to env pa la = Some la;
  link_send bytes : send_ipv4 env pa bytes = 0;
  link_for_me : from_ipv4_address env la = true;
  link_address : la <> 0;
  link_time : 1 <= m_seconds (kgettimeofday env)
}.

Section connection.
Context {Tuple : Type} `{Countable Tuple} `{!SocketTuple Tuple} `{!SocketTupleLaws Tuple}.
Implicit Types (net : Net Tuple) (s : TCPSocket Tuple) (id : nat).

(** ** Sending one packet *)

(** The header of a packet that [s] sends with the flags [f]. *)
Record packet_from s (f : Z) (p : TCPPacket) : Prop := PacketFrom {
  from_ok : packet_ok p;
  from_offset : data_offset p = 5;
  from_flags : flags p = f;
  from_source : p_source_port p = m_local_port s;
  from_destination : p_destination_port p = m_peer_port s;
  from_sequence : p_sequence_number p = m_sequence_number s;
  from_ack : p_ack_number p = if has_flag f ACK then m_ack_number s else 0
}.

Definition seq_after s (f n : Z) : Z :=
  if has_flag f SYN then wrap u32 (m_sequence_number s + 1) else wrap u32 (m_sequence_number s + n).

Lemma packet_from_header s f c :
  socket_ok s -> f ∈ outgoing_flags -> 0 <= c <= 65535 -> packet_from s f (with_checksum (outgoing_header s f) c).
Proof.
  intros Hok Hf Hc. destruct (outgoing_header_ok s f Hok Hf) as (Hp & Hoff & Hfl & _).
  split; try done. destruct Hp; split; try done. cbn. lia.
Qed.

(** The clock makes the first transmission due. *)
Lemma first_transmission env :
  env_ok env -> 1 <= m_seconds (kgettimeofday env) ->
  exists diff, Time_sub (kgettimeofday env) Time_zero = Ret diff /\ Time_le diff (MkTime 0 500000000) = false.
Proof.
  intros [Ht _] Hs. destruct (Time_sub_saturates (kgettimeofday env) Time_zero Ht) as (d & Hd & [Hd1 Hd2] & Hsat); [split; cbn; int_lia|].
  exists d. split; [done|]. destruct Ht as [H1 H2].
  unfold saturate, clamp, total, Time_zero, Time_min, Time_max in Hsat. cbn [m_seconds m_nanoseconds] in Hsat.
  unfold Time_le. cbn [m_seconds m_nanoseconds]. autorewrite with ints in *. assert (1 <= m_seconds d) by lia.
  rewrite (proj2 (Z.ltb_ge (m_seconds d) 0)), (proj2 (Z.eqb_neq (m_seconds d) 0)) by lia. done.
Qed.

Definition no_fault (payload : option UserBuffer) (n : Z) : Prop :=
  match payload with Some u => u_fault u (Z.to_nat n) = None | None => True end.

Lemma send_outgoing_one env net id s o :
  link env (m_local_address s) (m_peer_address s) -> sockets net !! id = Some s -> m_not_acked s = [o] -> o_tx_time o = Time_zero ->
  exists o' po bo, send_outgoing_packets env net id =
      Ret (become net id (s <| m_not_acked := [o'] |> <| m_packets_out := po |> <| m_bytes_out := bo |>)
             [(m_local_address s, m_peer_address s, o_buffer o)]) /\
    o_ack_number o' = o_ack_number o /\ o_tx_time o' = kgettimeofday env.
Proof.
  intros Hlink Hs Hna Hz. unfold send_outgoing_packets. rewrite (get_lookup _ _ _ Hs), bind_Ret, (link_route _ _ _ Hlink), Hna.
  destruct (first_transmission env (link_env _ _ _ Hlink) (link_time _ _ _ Hlink)) as (d & Hd & Hle).
  cbn [send_not_acked]. rewrite Hz, Hd, bind_Ret. change (Time_from_nanoseconds 500000000) with (Ret (MkTime 0 500000000)).
  rewrite bind_Ret, Hle. cbn [o_buffer]. rewrite (link_send _ _ _ Hlink). cbn [negb Z.ltb Z.compare]. rewrite !bind_Ret.
  eexists (MkOutgoing _ _ _ _), _, _. split; [reflexivity|]. done.
Qed.

(** The socket after sending [n] bytes with the flags [f]. *)
Record sent_packet s (f n : Z) s' : Prop := SentPacket {
  sp_from : sent_from s s';
  sp_seq : m_sequence_number s' = seq_after s f n;
  sp_not_acked : if has_flag f SYN || (0 <? n) then exists o, m_not_acked s' = [o] /\ o_ack_number o = seq_after s f n
                 else m_not_acked s' = []
}.

Lemma send_exact env net id s f payload n :
  link env (m_local_address s) (m_peer_address s) -> sockets net !! id = Some s -> socket_ok s -> m_local_port s <> 0 ->
  f ∈ outgoing_flags -> m_not_acked s = [] -> payload_ok payload n -> no_fault payload n ->
  exists p s', packet_from s f p /\ sent_packet s f n s' /\
    send_tcp_packet env net id f payload n =
      Ret (KSuccess, become net id s' [(m_local_address s, m_peer_address s, TCPPacket_bytes p ++ payload_bytes payload n)]).
Proof.
  intros Hlink Hs Hok Hport Hf Hna Hpay Hnf. unfold send_tcp_packet. rewrite (get_lookup net id s Hs), bind_Ret.
  rewrite (VERIFY_true (negb _)) by bool_lia. rewrite bind_Ret. pose proof (send_payload payload n Hpay) as Hdata.
  destruct (match payload with Some _ => _ | None => _ end) as [data ok] eqn:Hmatch.
  assert (ok = true) as ->.
  { destruct payload as [u|]; [|by simplify_eq]. cbn in Hnf. unfold user_copy in Hmatch. rewrite Hnf in Hmatch. by simplify_eq. }
  rewrite (Hdata eq_refl). clear Hdata Hmatch data. cbn [negb].
  destruct (payload_bytes_ok payload n Hpay) as [Hb Hlen]. set (data := payload_bytes payload n) in *.
  destruct (outgoing_header_ok s f Hok Hf) as (Hp & Hoff & Hfl & _).
  destruct (compute_tcp_checksum_total (m_local_address s) (m_peer_address s) (outgoing_header s f) data Hp Hoff Hb) as (c & Hc & Hcr).
  rewrite Hlen in Hc. fold (seq_after s f n). set (seq := seq_after s f n).
  assert (u32_range seq) as Hseq.
  { unfold seq, seq_after, u32_range. destruct (has_flag f SYN); apply Z.mod_pos_bound; lia. }
  change (m_local_address (s <| m_sequence_number := seq |>)) with (m_local_address s).
  change (m_peer_address (s <| m_sequence_number := seq |>)) with (m_peer_address s). rewrite Hc, bind_Ret.
  assert (socket_ok (s <| m_sequence_number := seq |>)) as Hok1 by (by destruct Hok; split).
  exists (with_checksum (outgoing_header s f) c). set (buffer := TCPPacket_bytes _ ++ data).
  pose proof (packet_from_header s f c Hok Hf Hcr) as Hfrom.
  change (has_syn (outgoing_header s f)) with (has_flag (flags (outgoing_header s f)) SYN). rewrite Hfl.
  destruct (has_flag f SYN || (0 <? n)) eqn:Hsyn.
  - set (s1 := s <| m_sequence_number := seq |> <| m_not_acked := _ |>).
    assert (m_not_acked s1 = [MkOutgoing seq buffer 0 Time_zero]) as Hna1 by (unfold s1; cbn; by rewrite Hna).
    destruct (send_outgoing_one env (put net id s1) id s1 _ Hlink (put_lookup _ _ _) Hna1 eq_refl) as (o' & po & bo & -> & Ho & Ht).
    rewrite bind_Ret. eexists. split; [exact Hfrom|]. rewrite put_become, become_become. split; [|reflexivity].
    split; [|done | rewrite Hsyn; by exists o'].
    split; [by exists seq, [o'], po, bo; destruct s|]. destruct Hok1; split; try done.
    constructor; [|constructor]. rewrite Ht. apply (env_time _ (link_env _ _ _ Hlink)).
  - rewrite (link_route _ _ _ Hlink), (link_send _ _ _ Hlink). cbn [negb Z.eqb].
    eexists. split; [exact Hfrom|]. split; [|reflexivity]. split; [|done | rewrite Hsyn; cbn; by rewrite Hna].
    split; [eexists seq, (m_not_acked s), _, _; by destruct s|]. by destruct Hok1; split.
Qed.

(** What the packets of a conversation leave alone. *)
Definition conn s : Z * Z * Z * Z * bool * bool :=
  (m_local_address s, m_local_port s, m_peer_address s, m_peer_port s, m_shut_down_for_reading s, m_shut_down_for_writing s).

Lemma sent_conn s s' :
  sent_from s s' -> conn s' = conn s /\ m_state s' = m_state s /\ m_ack_number s' = m_ack_number s /\
    m_receive_buffer s' = m_receive_buffer s /\ m_direction s' = m_direction s /\ m_originator s' = m_originator s.
Proof. by intros [(q & ps & po & bo & ->) _]. Qed.

Lemma stated_plain s st : st <> Established -> stated s st = s <| m_state := st |>.
Proof. intros Hst. unfold stated. by rewrite bool_decide_false. Qed.

(** ** Delivering one packet *)

Lemma packet_length p data : Z.of_nat (length (TCPPacket_bytes p ++ data)) = 20 + Z.of_nat (length data).
Proof. rewrite length_app. change (length (TCPPacket_bytes p)) with 20%nat. lia. Qed.

Lemma drop_header p data : drop (Z.to_nat 20) (TCPPacket_bytes p ++ data) = data.
Proof. reflexivity. Qed.

(** A packet without options for the socket [id] reaches its state. *)
Lemma handle_tcp_delivered env net id s la pa p data :
  from_ipv4_address env la = true -> packet_ok p -> data_offset p = 5 -> sockets net !! id = Some s ->
  from_tuple net (mk_tuple la (p_destination_port p) pa (p_source_port p)) = Some id -> m_local_port s = p_destination_port p ->
  let packet := MkIPv4 pa la (TCPPacket_bytes p ++ data) in
  let n := Z.of_nat (length data) in
  let net1 := put net id (receive_tcp_packet s p (20 + n)) in
  handle_tcp env net packet =
  match m_state s with
  | Closed => Ret net1
  | TimeWait => reset env net1 id
  | Listen => handle_listen env net1 id packet p n
  | SynSent => handle_syn_sent env net1 id p n
  | SynReceived => handle_syn_received env net1 id p n
  | Established => handle_established env net1 id packet p n
  | state => handle_closing_states env net1 id state p n
  end.
Proof.
  intros Hme Hp Hoff Hs Hfrom Hport packet n net1. unfold handle_tcp, packet. cbn [ip_payload ip_source ip_destination].
  assert (header_size p = 20) as Hh by (unfold header_size; lia).
  unfold ip_payload_size. cbn [ip_payload]. rewrite packet_length. fold n.
  rewrite (proj2 (Z.ltb_ge (20 + n) sizeof_TCPPacket)) by (unfold sizeof_TCPPacket; lia).
  rewrite TCPPacket_read_bytes, bind_Ret, Hh by done. rewrite (proj2 (Z.ltb_ge (20 + n) 20)) by lia.
  rewrite Hme. cbn [negb]. rewrite Hfrom, (get_lookup _ _ _ Hs), bind_Ret. rewrite VERIFY_true by bool_lia. rewrite bind_Ret.
  replace (20 + n - 20) with n by lia. replace (m_state (receive_tcp_packet s p (20 + n))) with (m_state s); [done|].
  unfold receive_tcp_packet. by destruct (has_ack p).
Qed.

(** A packet that acknowledges everything. *)
Lemma receive_acked s p n :
  has_ack p = true -> Forall (fun o => o_ack_number o <= p_ack_number p) (m_not_acked s) ->
  exists pi bi, receive_tcp_packet s p n = s <| m_not_acked := [] |> <| m_packets_in := pi |> <| m_bytes_in := bi |>.
Proof.
  intros Ha Hall. unfold receive_tcp_packet. rewrite Ha. eexists _, _.
  replace (drop_acked (p_ack_number p) (m_not_acked s)) with (@nil OutgoingPacket); [reflexivity|].
  induction Hall as [|o os Ho _ IH]; [done|]. cbn. by rewrite (proj2 (Z.leb_le _ _) Ho).
Qed.

(** A side of a connection: its addresses, its numbers, the numbers that acknowledge the
    packets it keeps, and its state. *)
Record half net id s (la lp pa pp nseq nack : Z) (unacked : list Z) (st : State) : Prop := Half {
  ep_net : net_ok net;
  ep_socket : sockets net !! id = Some s;
  ep_registered : sockets_by_tuple net !! mk_tuple la lp pa pp = Some id;
  ep_conn : conn s = (la, lp, pa, pp, false, false);
  ep_state : m_state s = st;
  ep_seq : m_sequence_number s = nseq;
  ep_ack : m_ack_number s = nack;
  ep_not_acked : map o_ack_number (m_not_acked s) = unacked
}.

Definition endpoint net id s (la lp pa pp nseq nack : Z) (unacked : list Z) : Prop :=
  half net id s la lp pa pp nseq nack unacked Established.

Lemma endpoint_facts net id s la lp pa pp q k u st :
  half net id s la lp pa pp q k u st ->
  socket_ok s /\ m_local_address s = la /\ m_local_port s = lp /\ m_peer_address s = pa /\ m_peer_port s = pp /\
  m_shut_down_for_reading s = false /\ m_shut_down_for_writing s = false /\ m_local_port s <> 0.
Proof.
  intros [Hnet Hs Hreg Hconn _ _ _ _]. destruct (net_registered _ Hnet _ _ Hreg) as (s' & Hs' & _ & Hp).
  assert (s' = s) as -> by congruence. unfold conn in Hconn. injection Hconn as <- <- <- <- Hrd Hwr.
  split; [by eapply Hnet|]. done.
Qed.

(** ** Transferring data *)

Lemma write_exact env random net id s la lp pa pp q k data :
  link env la pa -> endpoint net id s la lp pa pp q k [] -> is_bytes data -> data <> [] ->
  exists p s', packet_from s (Z.lor PUSH ACK) p /\ sent_packet s (Z.lor PUSH ACK) (Z.of_nat (length data)) s' /\
    Socket_write env random net id (MkUser data (fun _ => None)) (Z.of_nat (length data)) =
      Ret (Z.of_nat (length data), become net id s' [(la, pa, TCPPacket_bytes p ++ data)]).
Proof.
  intros Hlink Hep Hb Hne. destruct (endpoint_facts _ _ _ _ _ _ _ _ _ _ _ Hep) as (Hok & Hla & Hlp & Hpa & Hpp & Hrd & Hwr & Hp).
  destruct (send_exact env net id s (Z.lor PUSH ACK) (Some (MkUser data (fun _ => None))) (Z.of_nat (length data)))
    as (p & s' & Hfrom & Hsent & Heq).
  { by rewrite Hla, Hpa. } { apply Hep. } { done. } { done. } { flag. } { apply (map_eq_nil o_ack_number), Hep. } { split; [lia|]. cbn. split; [lia|done]. } { done. }
  exists p, s'. split; [done|]. split; [done|].
  unfold Socket_write. rewrite (get_lookup _ _ _ (ep_socket _ _ _ _ _ _ _ _ _ _ _ Hep)), bind_Ret, Hwr.
  unfold IPv4Socket_sendto. cbn [set_peer]. rewrite bind_Ret. change (KSuccess <? 0) with false. cbn iota. rewrite (get_lookup _ _ _ (ep_socket _ _ _ _ _ _ _ _ _ _ _ Hep)), bind_Ret, Hpa, Hla.
  rewrite (link_route _ _ _ Hlink), (proj2 (Z.eqb_neq la 0)) by apply Hlink.
  unfold allocate_local_port_if_needed. rewrite (get_lookup _ _ _ (ep_socket _ _ _ _ _ _ _ _ _ _ _ Hep)), bind_Ret.
  rewrite (proj2 (Z.eqb_neq (m_local_port s) 0)) by done. cbn [negb]. rewrite bind_Ret. cbn beta iota.
  rewrite (proj2 (Z.ltb_ge (m_local_port s) 0)) by (pose proof (ok_local_port _ Hok) as [? _]; lia). cbn [andb].
  unfold protocol_send. rewrite Heq, bind_Ret. cbn [payload_bytes u_bytes]. rewrite Nat2Z.id, firstn_all, Hla, Hpa. done.
Qed.

(** The receiver stores the data and acknowledges it. *)
Lemma handle_established_data env net id s la pa p data zs :
  link env la pa -> sockets net !! id = Some s -> socket_ok s -> m_local_address s = la -> m_peer_address s = pa ->
  m_local_port s <> 0 -> m_not_acked s = [] -> m_state s = Established ->
  packet_ok p -> data_offset p = 5 -> flags p = Z.lor PUSH ACK -> is_bytes data -> data <> [] ->
  40 + Z.of_nat (length data) <= DoubleBuffer_space_for_writing (m_receive_buffer s) -> Z.of_nat (length data) <= 65495 ->
  m_shut_down_for_reading s = false -> contents s zs ->
  exists p' s', handle_established env net id (MkIPv4 pa la (TCPPacket_bytes p ++ data)) p (Z.of_nat (length data)) =
      Ret (become net id s' [(la, pa, TCPPacket_bytes p')]) /\
    packet_from (s <| m_ack_number := wrap u32 (p_sequence_number p + Z.of_nat (length data)) |>) ACK p' /\
    conn s' = conn s /\ m_state s' = Established /\ m_sequence_number s' = m_sequence_number s /\
    m_ack_number s' = wrap u32 (p_sequence_number p + Z.of_nat (length data)) /\ m_not_acked s' = [] /\
    contents s' (zs ++ data).
Proof.
  intros Hlink Hs Hok Hla Hpa Hp Hna Hst Hpk Hoff Hfl Hb Hne Hsp Hlen Hrd Hcont. unfold handle_established.
  assert (has_rst p = false) as -> by (unfold has_rst; by rewrite Hfl).
  assert (has_fin p = false) as -> by (unfold has_fin; by rewrite Hfl).
  set (n := Z.of_nat (length data)) in *. set (ack := wrap u32 (p_sequence_number p + n)).
  assert (0 < n) as Hn by (unfold n; destruct data; [done | cbn; lia]).
  unfold set_ack_number, update. rewrite (get_lookup _ _ _ Hs), !bind_Ret. fold ack.
  rewrite (proj2 (Z.eqb_neq n 0)) by lia. cbn [negb]. set (s1 := s <| m_ack_number := ack |>).
  assert (socket_ok s1) as Hok1.
  { destruct Hok; split; try done. unfold u32_range. cbn. apply Z.mod_pos_bound. lia. }
  assert (header_size p = 20) as Hh by (unfold header_size; lia).
  destruct (did_receive_spec (put net id s1) id s1 (TCPPacket_bytes p ++ data) p zs Hok1 (put_lookup _ _ _))
    as (r & b & cr & nr & Heq & Hok2 & Hcont2 & Hr).
  { apply Forall_app. split; [apply TCPPacket_bytes_bytes | done]. } { by apply TCPPacket_read_bytes. }
  { rewrite packet_length. lia. } { rewrite packet_length. lia. } { done. }
  cbn [ip_payload]. rewrite Heq, bind_Ret. cbn beta iota.
  destruct r; [|destruct (Hr eq_refl) as [Hbad|Hbad]; [cbn in Hbad; congruence | rewrite packet_length in Hbad; cbn in Hbad; lia]].
  set (s2 := s1 <| m_receive_buffer := b |> <| m_can_read := cr |> <| m_bytes_received := nr |>) in *.
  unfold send_flags. rewrite put_put.
  destruct (send_exact env (put net id s2) id s2 ACK None 0) as (p' & s3 & Hfrom & [Hsf Hseq Hnot] & ->); try done.
  { cbn. by rewrite Hla, Hpa. } { apply put_lookup. } { flag. }
  rewrite bind_Ret, put_become, become_become. exists p', s3.
  destruct (sent_conn _ _ Hsf) as (Hc & Hst' & Hack & Hbuf & Hdir & Horig).
  change (payload_bytes None 0) with (@nil Z). rewrite app_nil_r. cbn [app m_local_address m_peer_address].
  change (m_local_address s2) with (m_local_address s). change (m_peer_address s2) with (m_peer_address s).
  rewrite Hla, Hpa. split; [reflexivity|]. split; [by destruct Hfrom; split|]. split; [by rewrite Hc|].
  split; [by rewrite Hst'|]. split; [|split; [by rewrite Hack | split; [exact Hnot|]]].
  - rewrite Hseq. unfold seq_after. change (has_flag ACK SYN) with false. cbn iota.
    change (m_sequence_number s2) with (m_sequence_number s). rewrite Z.add_0_r. apply (wrap_id u32 eq_refl).
    pose proof (ok_seq _ Hok) as []. autorewrite with ints. lia.
  - rewrite Hh, drop_header in Hcont2. destruct Hcont2 as (xs & ys & Hbo & ->). exists xs, ys. split; [|done]. by rewrite Hbuf.
Qed.

(** The fields of a packet from the address and port [lp] to [pp]. *)
Record header_of (lp pp f nseq nack : Z) (p : TCPPacket) : Prop := HeaderOf {
  h_ok : packet_ok p;
  h_offset : data_offset p = 5;
  h_flags : flags p = f;
  h_source : p_source_port p = lp;
  h_destination : p_destination_port p = pp;
  h_sequence : p_sequence_number p = nseq;
  h_ack : p_ack_number p = nack
}.

Lemma handled_net_ok env net packet net' :
  env_ok env -> net_ok net -> ip_packet_ok packet -> handle_tcp env net packet = Ret net' -> net_ok net'.
Proof using Type*.
  intros Henv Hnet Hp Heq. destruct (handle_tcp_handled env net packet Henv Hnet Hp) as (net1 & Heq' & Hok & _). congruence.
Qed.

Lemma packet_bytes_ok pa la p data :
  is_bytes data -> Z.of_nat (length data) <= 65495 -> ip_packet_ok (MkIPv4 pa la (TCPPacket_bytes p ++ data)).
Proof.
  intros Hb Hl. split; cbn [ip_payload]; [apply Forall_app; split; [apply TCPPacket_bytes_bytes | done] | rewrite packet_length; lia].
Qed.

Lemma from_tuple_exact net t id : sockets_by_tuple net !! t = Some id -> from_tuple net t = Some id.
Proof. unfold from_tuple. by intros ->. Qed.

(** No number of the packet is compared with those of the socket. *)
Lemma deliver_data env net id s la lp pa pp q k k1 q1 p data zs :
  link env la pa -> endpoint net id s la lp pa pp q k [] -> header_of pp lp (Z.lor PUSH ACK) k1 q1 p ->
  is_bytes data -> data <> [] -> Z.of_nat (length data) <= 65495 ->
  40 + Z.of_nat (length data) <= DoubleBuffer_space_for_writing (m_receive_buffer s) -> contents s zs ->
  exists net' s' p', handle_tcp env net (MkIPv4 pa la (TCPPacket_bytes p ++ data)) = Ret net' /\
    sent net' = sent net ++ [(la, pa, TCPPacket_bytes p')] /\
    let k' := wrap u32 (k1 + Z.of_nat (length data)) in
    endpoint net' id s' la lp pa pp q k' [] /\ header_of lp pp ACK q k' p' /\ contents s' (zs ++ data).
Proof using Type*.
  intros Hlink Hep Hh Hb Hne Hl Hsp Hcont.
  destruct (endpoint_facts _ _ _ _ _ _ _ _ _ _ _ Hep) as (Hok & Hla & Hlp & Hpa & Hpp & Hrd & Hwr & Hp).
  pose proof Hep as [Hnet Hs Hreg Hconn Hst Hq Hk Hna]. apply map_eq_nil in Hna. destruct Hh as [Hpk Hoff Hfl Hsrc Hdst Hseq Hack].
  pose proof (handle_tcp_delivered env net id s la pa p data (link_for_me _ _ _ Hlink) Hpk Hoff Hs) as Hdel.
  rewrite Hsrc, Hdst in Hdel. specialize (Hdel (from_tuple_exact _ _ _ Hreg) Hlp). cbn zeta in Hdel. rewrite Hst in Hdel.
  destruct (receive_acked s p (20 + Z.of_nat (length data))) as (pi & bi & Hrec).
  { unfold has_ack. by rewrite Hfl. } { rewrite Hna. constructor. }
  rewrite Hrec in Hdel. set (s1 := s <| m_not_acked := [] |> <| m_packets_in := pi |> <| m_bytes_in := bi |>) in *.
  destruct (handle_established_data env (put net id s1) id s1 la pa p data zs) as (p' & s' & Heq & Hfrom & Hc & Hst' & Hq' & Hk' & Hna' & Hcont');
    try done; [apply put_lookup | by destruct Hok; split |].
  rewrite Heq, put_become, become_become in Hdel. exists (become net id s' [(la, pa, TCPPacket_bytes p')]), s', p'.
  split; [exact Hdel|]. split; [done|]. rewrite Hseq in *. split; [|split; [|done]].
  - split; try done.
    + by eapply handled_net_ok, Hdel; [apply Hlink | | apply packet_bytes_ok].
    + apply become_lookup.
    + by rewrite Hc.
    + rewrite Hq'. exact Hq.
    + by rewrite Hna'.
  - destruct Hfrom. split; try done; [by rewrite from_source0 | by rewrite from_destination0 | by rewrite from_sequence0].
Qed.

Lemma Forall_map_ack (os : list OutgoingPacket) q :
  Forall (fun n => n <= q) (map o_ack_number os) -> Forall (fun o => o_ack_number o <= q) os.
Proof. induction os; cbn; [constructor|]. inversion 1. constructor; auto. Qed.

(** The sender forgets the packet that is acknowledged. *)
Lemma deliver_ack env net id s la lp pa pp q k u p :
  link env la pa -> endpoint net id s la lp pa pp q k u -> header_of pp lp ACK k q p -> Forall (fun n => n <= q) u ->
  exists net' s', handle_tcp env net (MkIPv4 pa la (TCPPacket_bytes p)) = Ret net' /\
    sent net' = sent net /\ endpoint net' id s' la lp pa pp q k [] /\ m_receive_buffer s' = m_receive_buffer s.
Proof using Type*.
  intros Hlink Hep Hh Hu.
  destruct (endpoint_facts _ _ _ _ _ _ _ _ _ _ _ Hep) as (Hok & Hla & Hlp & Hpa & Hpp & Hrd & Hwr & Hp).
  pose proof Hep as [Hnet Hs Hreg Hconn Hst Hq Hk Hna]. destruct Hh as [Hpk Hoff Hfl Hsrc Hdst Hseq Hack].
  pose proof (handle_tcp_delivered env net id s la pa p [] (link_for_me _ _ _ Hlink) Hpk Hoff Hs) as Hdel.
  rewrite Hsrc, Hdst in Hdel. specialize (Hdel (from_tuple_exact _ _ _ Hreg) Hlp). cbn zeta in Hdel. rewrite Hst, app_nil_r in Hdel.
  change (Z.of_nat (length (@nil Z))) with 0 in Hdel. destruct (receive_acked s p (20 + 0)) as (pi & bi & Hrec).
  { unfold has_ack. by rewrite Hfl. } { rewrite Hack. apply Forall_map_ack. by rewrite Hna. }
  rewrite Hrec in Hdel. set (s1 := s <| m_not_acked := [] |> <| m_packets_in := pi |> <| m_bytes_in := bi |>) in *.
  unfold handle_established in Hdel.
  assert (has_rst p = false) as Hrst by (unfold has_rst; by rewrite Hfl).
  assert (has_fin p = false) as Hfin by (unfold has_fin; by rewrite Hfl). rewrite Hrst, Hfin in Hdel.
  unfold set_ack_number, update in Hdel. rewrite (get_lookup _ _ s1 (put_lookup _ _ _)), !bind_Ret, put_put in Hdel. cbn [negb Z.eqb] in Hdel.
  assert (wrap u32 (p_sequence_number p + 0) = k) as Hwrap.
  { rewrite Hseq, Z.add_0_r. apply (wrap_id u32 eq_refl). pose proof (ok_ack _ Hok) as []. rewrite Hk in *. autorewrite with ints. lia. }
  rewrite Hwrap in Hdel. eexists _, (s1 <| m_ack_number := k |>). split; [exact Hdel|]. split; [done|]. split; [|done]. split; try done.
  - pose proof (packet_bytes_ok pa la p [] ltac:(constructor) ltac:(cbn; lia)) as Hpok. rewrite app_nil_r in Hpok.
    eapply handled_net_ok; [apply Hlink | exact Hnet | exact Hpok | exact Hdel].
  - apply put_lookup.
Qed.

(** ** A conversation *)

Definition newest net : outcome (list Z) :=
  match last (sent net) with Some (_, _, bytes) => Ret bytes | None => Stop Undefined end.

Lemma newest_app net l la pa bytes : sent net = l ++ [(la, pa, bytes)] -> newest net = Ret bytes.
Proof. intros Hs. unfold newest. by rewrite Hs, last_snoc. Qed.

(** The packets a host has sent since [net]. *)
Definition new_packets net net' : list (Z * Z * list Z) := drop (length (sent net)) (sent net').

Lemma new_packets_app net net' packets : sent net' = sent net ++ packets -> new_packets net net' = packets.
Proof. intros Hs. unfold new_packets. by rewrite Hs, drop_app_length. Qed.

(** Packets from the source to the destination they carry reach the other host in order. *)
Fixpoint deliver (env : Environment) net (packets : list (Z * Z * list Z)) : outcome (Net Tuple) :=
  match packets with
  | [] => Ret net
  | (source, destination, bytes) :: packets =>
      net ← handle_tcp env net (MkIPv4 source destination bytes);
      deliver env net packets
  end.

(** One side writes and the packets of both sides are delivered, or the other side reads. *)
Inductive action : Type := Send (data : list Z) | Receive (size : Z).

Definition action_ok (x : action) : Prop :=
  match x with
  | Send data => is_bytes data /\ data <> [] /\ Z.of_nat (length data) <= 65495
  | Receive size => in_type size_t size
  end.

Definition user (data : list Z) : UserBuffer := MkUser data (fun _ => None).

Section conversation.
Context (envA envB : Environment) (a b : nat) (la lpa lb lpb : Z).

(** The bytes received, and the two hosts. *)
Definition act (hosts : Net Tuple * Net Tuple) (x : action) : outcome (list Z * (Net Tuple * Net Tuple)) :=
  let '(netA, netB) := hosts in
  match x with
  | Send data =>
      '(_, netA') ← Socket_write envA 0 netA a (user data) (Z.of_nat (length data));
      netB' ← deliver envB netB (new_packets netA netA');
      netA'' ← deliver envA netA' (new_packets netB netB');
      Ret ([], (netA'', netB'))
  | Receive size =>
      '(result, netB) ← receive_byte_buffered netB b false (user (replicate (Z.to_nat size) 0)) size;
      Ret (match result with Some (_, bytes) => bytes | None => [] end, (netA, netB))
  end.

Fixpoint converse (hosts : Net Tuple * Net Tuple) (xs : list action) : outcome (list Z * (Net Tuple * Net Tuple)) :=
  match xs with
  | [] => Ret ([], hosts)
  | x :: xs =>
      '(received, hosts) ← act hosts x;
      '(received', hosts) ← converse hosts xs;
      Ret (received ++ received', hosts)
  end.

(** The bytes written. *)
Definition written_by (x : action) : list Z := match x with Send data => data | Receive _ => [] end.

(** The reader keeps up: when data is written the receive buffer has room for its packet.
    Nothing in the code makes a writer wait for that. *)
Definition has_room (hosts : Net Tuple * Net Tuple) (x : action) : bool :=
  match x, sockets hosts.2 !! b with
  | Send data, Some s => 40 + Z.of_nat (length data) <=? DoubleBuffer_space_for_writing (m_receive_buffer s)
  | _, _ => true
  end.

Fixpoint keeps_up (hosts : Net Tuple * Net Tuple) (xs : list action) : bool :=
  match xs with
  | [] => true
  | x :: xs => has_room hosts x && match act hosts x with Ret (_, hosts) => keeps_up hosts xs | Stop _ => true end
  end.

(** The connection of the two hosts: the numbers agree, nothing is under way, and [zs] waits
    to be read. *)
Definition joined (hosts : Net Tuple * Net Tuple) (zs : list Z) : Prop :=
  exists sA sB qA qB, endpoint hosts.1 a sA la lpa lb lpb qA qB [] /\ endpoint hosts.2 b sB lb lpb la lpa qB qA [] /\ contents sB zs.

Context (Hab : link envA la lb) (Hba : link envB lb la).

Lemma write_joined netA sA qA qB data :
  endpoint netA a sA la lpa lb lpb qA qB [] -> is_bytes data -> data <> [] ->
  let qA' := wrap u32 (qA + Z.of_nat (length data)) in
  exists netA' sA' p, Socket_write envA 0 netA a (user data) (Z.of_nat (length data)) = Ret (Z.of_nat (length data), netA') /\
    new_packets netA netA' = [(la, lb, TCPPacket_bytes p ++ data)] /\ header_of lpa lpb (Z.lor PUSH ACK) qA qB p /\
    endpoint netA' a sA' la lpa lb lpb qA' qB [qA'].
Proof using Hab.
  intros Hep Hb Hne qA'. destruct (write_exact envA 0 netA a sA la lpa lb lpb qA qB data Hab Hep Hb Hne)
    as (p & s' & Hfrom & [Hsf Hseq Hna] & Heq).
  destruct (endpoint_facts _ _ _ _ _ _ _ _ _ _ _ Hep) as (Hok & _ & Hlp & _ & Hpp & _).
  pose proof Hep as [Hnet Hs Hreg Hconn Hst Hq Hk _]. destruct (sent_conn _ _ Hsf) as (Hc & Hst' & Hack & _).
  assert (m_sequence_number s' = qA') as Hq' by (rewrite Hseq; unfold seq_after; change (has_flag _ SYN) with false; cbn iota; by rewrite Hq).
  assert (has_flag (Z.lor PUSH ACK) SYN || (0 <? Z.of_nat (length data)) = true) as Hcond.
  { change (has_flag _ SYN) with false. destruct data; [done|]. cbn [length orb]. apply Z.ltb_lt. lia. }
  rewrite Hcond in Hna. destruct Hna as (o & Ho & Hoa).
  eexists _, s', p. split; [exact Heq|]. split; [by apply new_packets_app|]. split.
  - destruct Hfrom. split; try done; [congruence | congruence | congruence|]. rewrite from_ack0. change (has_flag _ ACK) with true. cbn iota. congruence.
  - split; try done; try congruence.
    + eapply net_ok_changed; [done.. | by apply sent_similar | apply Hsf | apply become_changed].
    + apply become_lookup.
    + rewrite Ho. cbn [map]. by rewrite Hoa, <- Hseq, Hq'.
Qed.

(** Each action keeps the connection, and the bytes stay in order. *)
Lemma act_joined hosts zs x :
  joined hosts zs -> action_ok x -> has_room hosts x = true ->
  exists received hosts' zs', act hosts x = Ret (received, hosts') /\
    joined hosts' zs' /\ zs ++ written_by x = received ++ zs'.
Proof using Hab Hba SocketTupleLaws0.
  destruct hosts as [netA netB]. intros (sA & sB & qA & qB & HA & HB & Hcont) Hx Hroom. cbn [fst snd] in *.
  destruct x as [data|size]; cbn [act written_by].
  - destruct Hx as (Hb & Hne & Hl). unfold has_room in Hroom. cbn [snd] in Hroom.
    rewrite (ep_socket _ _ _ _ _ _ _ _ _ _ _ HB) in Hroom. apply Z.leb_le in Hroom.
    destruct (write_joined netA sA qA qB data HA Hb Hne) as (netA1 & sA1 & p & -> & Hnew & Hhead & HA1).
    rewrite bind_Ret, Hnew. cbn [deliver].
    destruct (deliver_data envB netB b sB lb lpb la lpa qB qA qA qB p data zs Hba HB Hhead Hb Hne Hl Hroom Hcont)
      as (netB1 & sB1 & p' & -> & Hsent & HB1 & Hhead' & Hcont1).
    rewrite !bind_Ret, (new_packets_app _ _ _ Hsent). cbn [deliver].
    destruct (deliver_ack envA netA1 a sA1 la lpa lb lpb _ qB _ p' Hab HA1 Hhead') as (netA2 & sA2 & -> & _ & HA2 & _); [by repeat constructor|].
    rewrite !bind_Ret. eexists _, _, (zs ++ data). split; [done|]. split; [|done]. by eexists sA2, sB1, _, qB.
  - pose proof HB as [Hnet Hs Hreg Hconn Hst Hq Hk Hna].
    unfold receive_byte_buffered. rewrite (get_lookup _ _ _ Hs), bind_Ret.
    destruct (DoubleBuffer_is_empty (m_receive_buffer sB)) eqn:Hemp.
    { unfold protocol_is_disconnected. rewrite Hst. cbn [negb]. rewrite bind_Ret. eexists _, _, zs. split; [done|].
      split; [by exists sA, sB, qA, qB | by rewrite app_nil_r]. }
    destruct (read_receive_buffer_ok netB b sB (user (replicate (Z.to_nat size) 0)) size zs Hnet Hs Hx Hemp Hcont)
      as (r & got & buf & cr & zs' & Heq & Hok & Hcont' & Hr & Hf). cbn zeta in *. rewrite Heq, !bind_Ret. cbn beta iota.
    assert (0 <= r) as Hr0 by (destruct (decide (0 <= r)); [done | destruct Hf as (_ & _ & m & Hm); [lia | done]]).
    destruct (Hr Hr0) as (_ & _ & _ & ->). eexists _, _, zs'. split; [done|]. split; [|by rewrite app_nil_r].
    eexists sA, _, qA, qB. split; [done|]. cbn [snd]. split; [|exact Hcont']. split; try done. apply put_lookup.
Qed.

Lemma converse_joined xs hosts zs :
  joined hosts zs -> Forall action_ok xs -> keeps_up hosts xs = true ->
  exists received hosts' zs', converse hosts xs = Ret (received, hosts') /\
    joined hosts' zs' /\ zs ++ concat (map written_by xs) = received ++ zs'.
Proof using Hab Hba SocketTupleLaws0.
  intros Hj Hxs. revert hosts zs Hj. induction Hxs as [|x xs Hx _ IH]; intros hosts zs Hj; cbn [converse keeps_up map concat].
  { intros _. eexists _, _, zs. split; [done|]. split; [done | by rewrite app_nil_r]. }
  intros [Hroom Hrest]%andb_true_iff.
  destruct (act_joined hosts zs x Hj Hx Hroom) as (re1 & hosts1 & zs1 & Heq & Hj1 & Heq1). rewrite Heq, bind_Ret in *.
  destruct (IH hosts1 zs1 Hj1 Hrest) as (re2 & hosts2 & zs2 & -> & Hj2 & Heq2). rewrite bind_Ret.
  eexists _, _, zs2. split; [done|]. split; [done|]. by rewrite app_assoc, Heq1, <- !app_assoc, Heq2.
Qed.

End conversation.

(** ** The handshake *)

(** A descriptor that was neither bound nor connected. *)
Record unused_socket s : Prop := UnusedSocket {
  us_address : m_local_address s = 0;
  us_port : m_local_port s = 0;
  us_role : m_role s <> Connected;
  us_not_acked : m_not_acked s = [];
  us_reading : m_shut_down_for_reading s = false;
  us_writing : m_shut_down_for_writing s = false
}.

Lemma allocate_exact random net id s :
  0 <= random -> sockets net !! id = Some s -> m_local_port s = 0 -> (exists port, ephemeral port /\ ~ port_used net s port) ->
  exists port, ephemeral port /\ ~ port_used net s port /\
    allocate_local_port_if_needed random net id = Ret (port, put net id (s <| m_local_port := port |>)
      <| sockets_by_tuple := <[tuple (s <| m_local_port := port |>) := id]> (sockets_by_tuple net) |>).
Proof.
  intros Hr Hs Hz (free & Hfree & Hnot). unfold allocate_local_port_if_needed. rewrite (get_lookup _ _ _ Hs), bind_Ret, Hz.
  cbn [Z.eqb negb]. destruct (protocol_allocate_local_port_spec random net id s Hr Hs) as [[_ Hall]|(port & Hp & Hunused & ->)].
  { destruct Hnot. by apply Hall. }
  exists port. split; [done|]. split; [done|]. rewrite bind_Ret. cbn beta iota.
  pose proof Hp as Hp'. unfold ephemeral, first_ephemeral_port, last_ephemeral_port in Hp'.
  rewrite (proj2 (Z.ltb_ge port 0)) by lia. erewrite get_lookup by apply put_lookup. rewrite bind_Ret.
  unfold put. cbn. by rewrite insert_insert_eq.
Qed.

Lemma connect_exact env random isn net id s la lb lpb :
  link env la lb -> route_to env lb 0 = Some la -> net_ok net -> id ∈ held net -> sockets net !! id = Some s -> unused_socket s ->
  0 <= random -> u32_range isn -> u16_range lpb ->
  (exists port, ephemeral port /\ sockets_by_tuple net !! mk_tuple la port lb lpb = None) ->
  exists lpa net' s' p, ephemeral lpa /\ IPv4Socket_connect env random isn net id (inet lb lpb) = Ret (- EINPROGRESS, net') /\
    sent net' = sent net ++ [(la, lb, TCPPacket_bytes p)] /\ header_of lpa lpb SYN isn 0 p /\
    half net' id s' la lpa lb lpb (wrap u32 (isn + 1)) 0 [wrap u32 (isn + 1)] SynSent /\
    m_direction s' = Outgoing /\ m_receive_buffer s' = m_receive_buffer s.
Proof using Type*.
  intros Hlink Hroute Hnet Hh Hs Hus Hr Hisn Hlpb (free & Hfree & Hnone).
  pose proof (unregistered_no_port _ _ _ Hnet Hs (us_port _ Hus)) as Hun.
  destruct (connect_ok env random isn net id s (inet lb lpb) (link_env _ _ _ Hlink) Hr Hisn Hnet Hh Hs Hun Hlpb)
    as (r & net' & s' & Heq & Hok' & Hh' & Hs' & _).
  pose proof (net_sockets _ Hnet _ _ Hs) as Hok. destruct Hus as [Hla Hlp Hrole Hna Hrd Hwr].
  set (s1 := s <| m_peer_address := lb |> <| m_peer_port := lpb |>).
  set (s2 := s1 <| m_local_address := la |>).
  destruct (allocate_exact random (put (put net id s1) id s2) id s2 Hr (put_lookup _ _ _) Hlp) as (lpa & Heph & Hunused & Halloc).
  { exists free. split; [done|]. unfold port_used. cbn. rewrite Hnone. by intros [? ?]. }
  set (s4 := s2 <| m_local_port := lpa |> <| m_sequence_number := isn |> <| m_ack_number := 0 |> <| m_setup_state := InProgress |>).
  assert (ephemeral lpa) as Hrange by done. unfold ephemeral, first_ephemeral_port, last_ephemeral_port in Hrange.
  assert (socket_ok s4) as Hok4.
  { pose proof (ok_started _ Hok) as Hstart. destruct Hok; split; try done; unfold u16_range; cbn; [lia|].
    intros Hst. destruct (Hstart Hst). congruence. }
  match type of Halloc with _ = Ret (_, ?n) => set (net3 := n) in * end.
  destruct (send_exact env (put net3 id s4) id s4 SYN None 0 Hlink (put_lookup _ _ _) Hok4) as (p & s5 & Hfrom & [Hsf Hseq Hnot] & Hsend);
    try done; [cbn; lia | flag |].
  assert (sockets net3 !! id = Some (s2 <| m_local_port := lpa |>)) as Hs3 by apply put_lookup.
  assert (IPv4Socket_connect env random isn net id (inet lb lpb) = Ret (- EINPROGRESS, put (become net3 id s5 [(la, lb, TCPPacket_bytes p)]) id
    (s5 <| m_state := SynSent |> <| m_role := Connecting |> <| m_direction := Outgoing |>))) as Hrun.
  { unfold IPv4Socket_connect. rewrite (get_lookup _ _ _ Hs), bind_Ret, bool_decide_false by done.
    cbn [inet ua_size ua_family_readable ua_readable ua_inet ua_address ua_port negb]. fold s1. unfold protocol_connect.
    rewrite (get_lookup _ _ s1 (put_lookup _ _ _)), bind_Ret. change (m_peer_address s1) with lb.
    change (m_local_address s1) with (m_local_address s). rewrite Hla, Hroute. cbn [Z.eqb]. fold s2. rewrite Halloc, bind_Ret. cbn beta iota.
    rewrite (proj2 (Z.ltb_ge lpa 0)) by lia. rewrite (get_lookup _ _ _ Hs3), bind_Ret. fold s4.
    rewrite Hsend, bind_Ret. cbn beta iota. change (KSuccess <? 0) with false. cbn iota.
    rewrite (get_lookup _ _ s5 (become_lookup _ _ _ _)), bind_Ret. do 3 f_equal. rewrite put_become, become_become.
    change (payload_bytes None 0) with (@nil Z). by rewrite app_nil_r. }
  rewrite Heq in Hrun. injection Hrun as -> Hnet'. destruct (sent_conn _ _ Hsf) as (Hc & Hst' & Hack & Hbuf & Hdir & Horig).
  change (has_flag SYN SYN || (0 <? 0)) with true in Hnot. destruct Hnot as (o & Hno & Hoa).
  assert (seq_after s4 SYN 0 = wrap u32 (isn + 1)) as Hafter by done. rewrite Hafter in *.
  set (s6 := s5 <| m_state := SynSent |> <| m_role := Connecting |> <| m_direction := Outgoing |>) in *.
  exists lpa, net', s6, p. split; [done|]. split; [done|]. split; [by rewrite Hnet'|]. split; [|split; [|split; [done|]]].
  - destruct Hfrom. split; try done.
  - split; try done.
    + rewrite Hnet'. apply put_lookup.
    + rewrite Hnet'. cbn. by rewrite lookup_insert_eq.
    + change (conn s6) with (conn s5). rewrite Hc. unfold conn. cbn. by rewrite Hrd, Hwr.
    + change (m_not_acked s6) with (m_not_acked s5). rewrite Hno. cbn. by rewrite Hoa.
  - change (m_receive_buffer s6) with (m_receive_buffer s5). by rewrite Hbuf.
Qed.

(** A listener at the address [la] and the port [lp]. *)
Record listener net id s (la lp : Z) : Prop := Listening {
  li_net : net_ok net;
  li_socket : sockets net !! id = Some s;
  li_registered : sockets_by_tuple net !! mk_tuple la lp 0 0 = Some id;
  li_state : m_state s = Listen
}.

Lemma client_connected env (net : Net Tuple) c s pa la isn :
  link env la pa -> sockets net !! c = Some s -> socket_ok s -> m_local_address s = la -> m_peer_address s = pa ->
  m_local_port s <> 0 -> m_setup_state s <> Unstarted -> m_not_acked s = [] ->
  exists s' p', (net ← update net c (fun s => s <| m_sequence_number := 1000 |>);
     net ← set_ack_number net c isn;
     net ← send_flags env net c (Z.lor SYN ACK);
     set_state net c SynReceived) = Ret (become net c s' [(la, pa, TCPPacket_bytes p')]) /\
    header_of (m_local_port s) (m_peer_port s) (Z.lor SYN ACK) 1000 (wrap u32 isn) p' /\
    conn s' = conn s /\ m_state s' = SynReceived /\ m_sequence_number s' = 1001 /\ m_ack_number s' = wrap u32 isn /\
    map o_ack_number (m_not_acked s') = [1001] /\ m_direction s' = m_direction s /\ m_originator s' = m_originator s /\
    m_receive_buffer s' = m_receive_buffer s.
Proof.
  intros Hlink Hs Hok Hla Hpa Hp Hset Hna. unfold update, set_ack_number, update. rewrite (get_lookup _ _ _ Hs), !bind_Ret.
  rewrite (get_lookup _ _ _ (put_lookup _ _ _)), !bind_Ret, put_put.
  set (s2 := s <| m_sequence_number := 1000 |> <| m_ack_number := wrap u32 isn |>).
  assert (socket_ok s2) as Hok2.
  { destruct Hok; split; try done; unfold u32_range; cbn. apply Z.mod_pos_bound. lia. }
  unfold send_flags. destruct (send_exact env (put net c s2) c s2 (Z.lor SYN ACK) None 0) as (p & s3 & Hfrom & [Hsf Hseq Hnot] & ->); try done.
  { cbn. by rewrite Hla, Hpa. } { apply put_lookup. } { flag. }
  rewrite !bind_Ret. cbn beta iota. erewrite set_state_open by (apply become_lookup || done).
  change (payload_bytes None 0) with (@nil Z). rewrite app_nil_r, !put_become, !become_become.
  exists (stated s3 SynReceived), p. destruct (sent_conn _ _ Hsf) as (Hc & Hst & Hack & Hbuf & Hdir & Horig).
  change (has_flag (Z.lor SYN ACK) SYN || (0 <? 0)) with true in Hnot. destruct Hnot as (o & Hno & Hoa).
  split; [cbn [app]; change (m_local_address s2) with (m_local_address s); change (m_peer_address s2) with (m_peer_address s); by rewrite Hla, Hpa|].
  split; [by destruct Hfrom; split|]. rewrite stated_plain by done. cbn [map].
  change (m_not_acked (s3 <| m_state := SynReceived |>)) with (m_not_acked s3). rewrite Hno. cbn [map]. rewrite Hoa.
  split; [exact Hc|]. split; [done|]. split; [exact Hseq|]. split; [exact Hack|]. split; [done|].
  split; [exact Hdir|]. split; [exact Horig | exact Hbuf].
Qed.

Lemma handle_listen_syn env net l ls packet p n :
  sockets net !! l = Some ls -> l <> next_socket net -> flags p = SYN ->
  sockets_by_tuple net !! mk_tuple (ip_destination packet) (p_destination_port p) (ip_source packet) (p_source_port p) = None ->
  let net1 := with_client env net l ls (ip_destination packet) (p_destination_port p) (ip_source packet) (p_source_port p) in
  handle_listen env net l packet p n =
    (net2 ← update net1 (next_socket net) (fun s => s <| m_sequence_number := 1000 |>);
     net2 ← set_ack_number net2 (next_socket net) (p_sequence_number p + n + 1);
     net2 ← send_flags env net2 (next_socket net) (Z.lor SYN ACK);
     set_state net2 (next_socket net) SynReceived).
Proof.
  intros Hls Hne Hfl Hnone net1. unfold handle_listen. rewrite Hfl, Z.eqb_refl, (create_client_exact env net l ls) by done.
  by rewrite bind_Ret.
Qed.

Lemma new_socket_contents env : env_ok env -> contents (new_socket (Tuple := Tuple) env) [].
Proof.
  intros Henv. exists [], []. split; [|done]. apply DoubleBuffer_new_ok; [lia|].
  rewrite (env_storage _ Henv), Z2Nat.id by lia. done.
Qed.

(** A SYN opens a connection, which answers with SYN and ACK. *)
Lemma syn_exact env net l ls la lp pa pp isn p :
  link env la pa -> listener net l ls la lp -> sockets_by_tuple net !! mk_tuple la lp pa pp = None -> header_of pp lp SYN isn 0 p ->
  exists net' c p' ls', handle_tcp env net (MkIPv4 pa la (TCPPacket_bytes p)) = Ret net' /\
    sent net' = sent net ++ [(la, pa, TCPPacket_bytes p')] /\
    header_of lp pp (Z.lor SYN ACK) 1000 (wrap u32 (isn + 1)) p' /\
    half net' (next_socket net) c la lp pa pp 1001 (wrap u32 (isn + 1)) [1001] SynReceived /\
    m_direction c = Incoming /\ m_originator c = Some l /\ contents c [] /\
    sockets net' !! l = Some ls' /\ m_pending ls' = m_pending ls /\ m_backlog ls' = m_backlog ls.
Proof using Type*.
  intros Hlink [Hnet Hls Hreg Hst] Hnone [Hpk Hoff Hfl Hsrc Hdst Hseq Hack].
  destruct (net_registered _ Hnet _ _ Hreg) as (ls0 & Hls0 & Htup & Hp). assert (ls0 = ls) as -> by congruence.
  apply tuple_inj in Htup as (_ & Hlp & _). pose proof (net_fresh _ Hnet _ _ Hls) as Hfresh.
  set (ls1 := receive_tcp_packet ls p (20 + 0)). set (c := next_socket net).
  set (cs := client_socket (Tuple := Tuple) env l la lp pa pp). set (net2 := with_client env (put net l ls1) l ls1 la lp pa pp).
  assert (client_of l (mk_tuple la lp pa pp) cs) as Hcl.
  { apply client_socket_of; [apply Hlink | | congruence |]; [rewrite <- Hdst | rewrite <- Hsrc]; apply Hpk. }
  assert (sockets (put net l ls1) !! l = Some ls1) as Hl1 by apply put_lookup.
  assert (l <> next_socket (put net l ls1)) as Hln by (cbn; lia).
  pose proof (adopted_sockets _ _ _ _ _ (with_client_adopted env (put net l ls1) l ls1 la lp pa pp Hl1 Hln)) as Hadopted.
  assert (sockets net2 !! c = Some cs) as Hc2.
  { unfold net2. by rewrite Hadopted, decide_True. }
  assert (exists ls', sockets net2 !! l = Some ls' /\ m_pending ls' = m_pending ls /\ m_backlog ls' = m_backlog ls) as (ls' & Hls' & Hpend & Hback).
  { exists (adopt l c (mk_tuple la lp pa pp) l ls1). unfold net2. rewrite Hadopted, decide_False, Hl1 by done. split; [done|].
    unfold adopt. rewrite decide_True by done. unfold ls1, receive_tcp_packet. by destruct (has_ack p). }
  destruct (client_connected env net2 c cs pa la (p_sequence_number p + 0 + 1))
    as (s' & p' & Hrun & Hhead & Hconn & Hst' & Hq' & Hk' & Hna' & Hdir' & Horig' & Hbuf');
    try done; [apply (client_ok _ _ _ Hcl) | apply (client_port _ _ _ Hcl)|].
  assert (handle_tcp env net (MkIPv4 pa la (TCPPacket_bytes p)) = Ret (become net2 c s' [(la, pa, TCPPacket_bytes p')])) as Hdel.
  { rewrite <- (app_nil_r (TCPPacket_bytes p)) at 1. rewrite (handle_tcp_delivered env net l ls la pa p []); try done.
    - rewrite Hst. change (Z.of_nat (length (@nil Z))) with 0. fold ls1. rewrite (handle_listen_syn env (put net l ls1) l ls1); try done.
      + cbn [ip_destination ip_source]. rewrite Hdst, Hsrc. exact Hrun.
      + cbn [ip_destination ip_source]. by rewrite Hdst, Hsrc.
    - apply Hlink.
    - unfold from_tuple. by rewrite Hdst, Hsrc, Hnone, tuple_local_address_mk, tuple_local_port_mk, Hreg.
    - congruence. }
  rewrite Z.add_0_r, Hseq in *. exists (become net2 c s' [(la, pa, TCPPacket_bytes p')]), s', p', ls'.
  split; [exact Hdel|]. split; [done|]. split; [done|]. split; [|split; [done|]; split; [done|]; split; [|split; [|done]]].
  - split; try done.
    + eapply handled_net_ok; [apply Hlink | exact Hnet | | exact Hdel].
      pose proof (packet_bytes_ok pa la p [] ltac:(constructor) ltac:(cbn; lia)) as Hpok. by rewrite app_nil_r in Hpok.
    + apply become_lookup.
    + cbn. apply lookup_insert_eq.
  - destruct (new_socket_contents env (link_env _ _ _ Hlink)) as (xs & ys & Hb & Hz). exists xs, ys. split; [|done]. by rewrite Hbuf'.
  - change (sockets (put net2 c s') !! l = Some ls'). by rewrite put_lookup_ne.
Qed.

(** A packet without data that acknowledges everything reaches the state of its socket. *)
Lemma half_acked env net id s la lp pa pp q k u st p :
  link env la pa -> half net id s la lp pa pp q k u st -> packet_ok p -> data_offset p = 5 -> has_ack p = true ->
  p_source_port p = pp -> p_destination_port p = lp -> Forall (fun n => n <= p_ack_number p) u ->
  exists pi bi, let s1 := s <| m_not_acked := [] |> <| m_packets_in := pi |> <| m_bytes_in := bi |> in
    socket_ok s1 /\ net_ok (put net id s1) /\
    handle_tcp env net (MkIPv4 pa la (TCPPacket_bytes p)) =
    match st with
    | Closed => Ret (put net id s1)
    | TimeWait => reset env (put net id s1) id
    | Listen => handle_listen env (put net id s1) id (MkIPv4 pa la (TCPPacket_bytes p)) p 0
    | SynSent => handle_syn_sent env (put net id s1) id p 0
    | SynReceived => handle_syn_received env (put net id s1) id p 0
    | Established => handle_established env (put net id s1) id (MkIPv4 pa la (TCPPacket_bytes p)) p 0
    | state => handle_closing_states env (put net id s1) id state p 0
    end.
Proof.
  intros Hlink Hep Hpk Hoff Ha Hsrc Hdst Hu.
  destruct (endpoint_facts _ _ _ _ _ _ _ _ _ _ _ Hep) as (Hok & Hla & Hlp & Hpa & Hpp & _ & _ & Hp).
  destruct Hep as [Hnet Hs Hreg Hconn Hst Hq Hk Hna].
  destruct (receive_acked s p (20 + 0) Ha) as (pi & bi & Hrec); [apply Forall_map_ack; by rewrite Hna|].
  exists pi, bi. cbn zeta. set (s1 := s <| m_not_acked := [] |> <| m_packets_in := pi |> <| m_bytes_in := bi |>) in *.
  assert (socket_ok s1) as Hok1 by (by destruct Hok; split). split; [done|]. split.
  - eapply net_ok_changed; [done.. | | done | rewrite put_become; apply become_changed]. split; try done; by left.
  - rewrite <- (app_nil_r (TCPPacket_bytes p)) at 1. rewrite (handle_tcp_delivered env net id s la pa p []); try done.
    + change (Z.of_nat (length (@nil Z))) with 0. rewrite Hrec, Hst, app_nil_r. by destruct st.
    + apply Hlink.
    + rewrite Hsrc, Hdst. by apply from_tuple_exact.
    + congruence.
Qed.

Lemma empty_packet_ok pa la p : ip_packet_ok (MkIPv4 pa la (TCPPacket_bytes p)).
Proof.
  pose proof (packet_bytes_ok pa la p [] ltac:(constructor) ltac:(cbn; lia)) as Hok. by rewrite app_nil_r in Hok.
Qed.

(** SYN and ACK establish the connection of the caller. *)
Lemma syn_ack_exact env net id s la lp pa pp q k u isn p :
  link env la pa -> half net id s la lp pa pp q k u SynSent -> m_direction s = Outgoing ->
  header_of pp lp (Z.lor SYN ACK) isn q p -> Forall (fun n => n <= q) u ->
  exists net' s' p', handle_tcp env net (MkIPv4 pa la (TCPPacket_bytes p)) = Ret net' /\
    sent net' = sent net ++ [(la, pa, TCPPacket_bytes p')] /\ header_of lp pp ACK q (wrap u32 (isn + 1)) p' /\
    endpoint net' id s' la lp pa pp q (wrap u32 (isn + 1)) [] /\
    m_connected s' = true /\ m_role s' = Connected /\ m_setup_state s' = Completed.
Proof using Type*.
  intros Hlink Hep Hdir [Hpk Hoff Hfl Hsrc Hdst Hseq Hack] Hu.
  destruct (half_acked env net id s la lp pa pp q k u SynSent p Hlink Hep Hpk Hoff) as (pi & bi & Hok1 & Hnet1 & Hrun);
    try done; [unfold has_ack; by rewrite Hfl | by rewrite Hack|]. cbn zeta in *.
  set (s1 := s <| m_not_acked := [] |> <| m_packets_in := pi |> <| m_bytes_in := bi |>) in *.
  destruct (endpoint_facts _ _ _ _ _ _ _ _ _ _ _ Hep) as (Hok & Hla & Hlp & Hpa & Hpp & _ & _ & Hp).
  pose proof Hep as [Hnet Hs Hreg Hconn Hst Hq Hk Hna].
  unfold handle_syn_sent, set_ack_number, set_setup_state, set_connected, update, send_flags in Hrun. rewrite Hfl, Hseq, Z.add_0_r in Hrun.
  change (Z.lor SYN ACK =? SYN) with false in Hrun. change (Z.lor SYN ACK =? Z.lor ACK SYN) with true in Hrun. cbn iota in Hrun.
  rewrite (get_lookup _ _ s1 (put_lookup _ _ _)), !bind_Ret, put_put in Hrun. set (s2 := s1 <| m_ack_number := wrap u32 (isn + 1) |>) in *.
  assert (socket_ok s2) as Hok2.
  { destruct Hok1; split; try done. unfold u32_range. cbn. apply Z.mod_pos_bound. lia. }
  destruct (send_exact env (put net id s2) id s2 ACK None 0) as (p' & s3 & Hfrom & [Hsf Hseq3 Hnot] & Heq); try done.
  { cbn. by rewrite Hla, Hpa. } { apply put_lookup. } { flag. }
  rewrite Heq, !bind_Ret in Hrun. erewrite set_state_open in Hrun by (apply become_lookup || done). rewrite !bind_Ret in Hrun.
  rewrite (get_lookup _ _ _ (put_lookup _ _ _)), !bind_Ret, (get_lookup _ _ _ (put_lookup _ _ _)), !bind_Ret in Hrun.
  rewrite !put_become, !become_become in Hrun. cbn [app] in Hrun.
  destruct (sent_conn _ _ Hsf) as (Hc & Hst' & Hack' & Hbuf & Hdir' & Horig).
  unfold stated in Hrun. rewrite Hdir' in Hrun. change (m_direction s2) with (m_direction s) in Hrun. rewrite Hdir in Hrun.
  match type of Hrun with _ = Ret (become _ _ ?x _) => set (s4 := x) in * end.
  change (payload_bytes None 0) with (@nil Z) in Hrun. rewrite app_nil_r in Hrun.
  change (m_local_address s2) with (m_local_address s) in Hrun. change (m_peer_address s2) with (m_peer_address s) in Hrun. rewrite Hla, Hpa in Hrun.
  eexists _, s4, p'. split; [exact Hrun|]. split; [done|]. split; [|split; [|done]].
  - destruct Hfrom. split; try done; [by rewrite from_source0 | by rewrite from_destination0 | by rewrite from_sequence0].
  - split; try done.
    + eapply handled_net_ok; [apply Hlink | exact Hnet | apply empty_packet_ok | exact Hrun].
    + apply become_lookup.
    + change (conn s4) with (conn s3). by rewrite Hc.
    + change (m_sequence_number s4) with (m_sequence_number s3). rewrite Hseq3. unfold seq_after. change (has_flag ACK SYN) with false. cbn iota.
      change (m_sequence_number s2) with (m_sequence_number s). rewrite Z.add_0_r, Hq. apply (wrap_id u32 eq_refl).
      pose proof (ok_seq _ Hok) as []. rewrite <- Hq. autorewrite with ints. lia.
    + change (m_not_acked s4) with (m_not_acked s3). change (has_flag ACK SYN || (0 <? 0)) with false in Hnot. by rewrite Hnot.
Qed.

(** The acknowledgment establishes the connection of the listener, which queues it. *)
Lemma ack_exact env net c s l ls la lp pa pp q k u p :
  link env la pa -> half net c s la lp pa pp q k u SynReceived -> m_direction s = Incoming -> m_originator s = Some l ->
  sockets net !! l = Some ls -> header_of pp lp ACK k q p -> Forall (fun n => n <= q) u ->
  exists net' s' ls', handle_tcp env net (MkIPv4 pa la (TCPPacket_bytes p)) = Ret net' /\ sent net' = sent net /\
    endpoint net' c s' la lp pa pp q k [] /\ m_receive_buffer s' = m_receive_buffer s /\
    sockets net' !! l = Some ls' /\ m_pending ls' = m_pending ls ++ queued ls c.
Proof using Type*.
  intros Hlink Hep Hdir Horig Hls [Hpk Hoff Hfl Hsrc Hdst Hseq Hack] Hu.
  destruct (half_acked env net c s la lp pa pp q k u SynReceived p Hlink Hep Hpk Hoff) as (pi & bi & Hok1 & Hnet1 & Hrun);
    try done; [unfold has_ack; by rewrite Hfl | by rewrite Hack|]. cbn zeta in *.
  set (s1 := s <| m_not_acked := [] |> <| m_packets_in := pi |> <| m_bytes_in := bi |>) in *.
  pose proof Hep as [Hnet Hs Hreg Hconn Hst Hq Hk Hna].
  destruct (net_client _ Hnet _ _ _ Hs Horig) as (Hlt & _). assert (l <> c) as Hlc by lia.
  unfold handle_syn_received in Hrun. rewrite Hfl, Z.eqb_refl, Hseq, Z.add_0_r in Hrun. unfold set_ack_number, update at 1 in Hrun.
  rewrite (get_lookup _ _ s1 (put_lookup _ _ _)), !bind_Ret, put_put in Hrun. set (s2 := s1 <| m_ack_number := wrap u32 k |>) in *.
  rewrite (get_lookup _ _ s2 (put_lookup _ _ _)), bind_Ret in Hrun. change (m_direction s2) with (m_direction s) in Hrun. rewrite Hdir in Hrun.
  assert (has_originator (put net c s2) s2 = true) as Hhas.
  { unfold has_originator. change (m_originator s2) with (m_originator s). rewrite Horig, put_lookup_ne, Hls by done. done. }
  rewrite Hhas in Hrun. cbn [negb] in Hrun. erewrite set_state_open in Hrun by (apply put_lookup || done).
  unfold set_setup_state, update in Hrun. rewrite put_put, !bind_Ret, (get_lookup _ _ _ (put_lookup _ _ _)), !bind_Ret, put_put in Hrun.
  unfold stated in Hrun. change (m_direction s2) with (m_direction s) in Hrun. rewrite Hdir in Hrun.
  set (s3 := s2 <| m_state := Established |> <| m_setup_state := Completed |>).
  change (handle_tcp env net (MkIPv4 pa la (TCPPacket_bytes p)) = release_to_originator (put net c s3) c) in Hrun.
  assert (wrap u32 k = k) as Hwrap.
  { apply (wrap_id u32 eq_refl). pose proof (ok_ack _ (net_sockets _ Hnet _ _ Hs)) as []. rewrite Hk in *. autorewrite with ints. lia. }
  assert (net_ok (put net c s3)) as Hnet3.
  { eapply net_ok_changed; [exact Hnet | exact Hs | | | rewrite put_become; apply become_changed].
    - split; try done; by left.
    - pose proof (ok_local_port _ Hok1). destruct (endpoint_facts _ _ _ _ _ _ _ _ _ _ _ Hep) as (_ & _ & _ & _ & _ & _ & _ & Hp).
      destruct Hok1; split; try done. unfold u32_range. cbn. apply Z.mod_pos_bound. lia. }
  rewrite (release_to_originator_spec (put net c s3) c s3 l ls Hnet3 (put_lookup _ _ _) Horig) in Hrun by (by rewrite put_lookup_ne).
  eexists _, (s3 <| m_originator := None |>), (listener_released ls (tuple s3) (queued ls c)).
  split; [exact Hrun|]. split; [done|]. split; [|split; [done|]; split; [|done]].
  - split; try done; [| apply put_lookup].
    eapply handled_net_ok; [apply Hlink | exact Hnet | apply empty_packet_ok | exact Hrun].
  - rewrite put_lookup_ne by done. apply put_lookup.
Qed.

(** [connect] on the first host, and the packets that follow. *)
Definition establish (envA envB : Environment) (random isn : Z) (netA netB : Net Tuple) (a : nat) (la lb lpb : Z)
    : outcome (Net Tuple * Net Tuple) :=
  '(_, netA) ← IPv4Socket_connect envA random isn netA a (inet lb lpb);
  syn ← newest netA;
  netB ← handle_tcp envB netB (MkIPv4 la lb syn);
  syn_ack ← newest netB;
  netA ← handle_tcp envA netA (MkIPv4 lb la syn_ack);
  ack ← newest netA;
  netB ← handle_tcp envB netB (MkIPv4 la lb ack);
  Ret (netA, netB).

Lemma handshake_joined envA envB random isn netA netB a sA l ls la lb lpb :
  link envA la lb -> link envB lb la -> route_to envA lb 0 = Some la ->
  net_ok netA -> a ∈ held netA -> sockets netA !! a = Some sA -> unused_socket sA ->
  (exists port, ephemeral port /\ sockets_by_tuple netA !! mk_tuple la port lb lpb = None) ->
  listener netB l ls lb lpb -> (forall port, sockets_by_tuple netB !! mk_tuple lb lpb la port = None) ->
  Z.of_nat (length (m_pending ls)) < m_backlog ls -> 0 <= random -> u32_range isn -> u16_range lpb ->
  exists hosts lpa ls', establish envA envB random isn netA netB a la lb lpb = Ret hosts /\ ephemeral lpa /\
    joined a (next_socket netB) la lpa lb lpb hosts [] /\
    sockets hosts.2 !! l = Some ls' /\ m_pending ls' = m_pending ls ++ [next_socket netB].
Proof using Type*.
  intros Hab Hba Hroute Hnet Hh Hs Hus Hfree Hli Hnone Hroom Hr Hisn Hlpb. unfold establish.
  destruct (connect_exact envA random isn netA a sA la lb lpb) as (lpa & netA1 & sA1 & p1 & Heph & -> & Hsent1 & Hh1 & HA1 & Hdir1 & _); try done.
  rewrite bind_Ret, (newest_app _ _ _ _ _ Hsent1), bind_Ret.
  destruct (syn_exact envB netB l ls lb lpb la lpa isn p1 Hba Hli (Hnone lpa) Hh1)
    as (netB1 & c & p2 & ls1 & -> & Hsent2 & Hh2 & HB1 & Hdir2 & Horig & Hcont & Hls1 & Hpend & Hback).
  rewrite bind_Ret, (newest_app _ _ _ _ _ Hsent2), bind_Ret.
  destruct (syn_ack_exact envA netA1 a sA1 la lpa lb lpb _ 0 _ 1000 p2 Hab HA1 Hdir1 Hh2) as (netA2 & sA2 & p3 & -> & Hsent3 & Hh3 & HA2 & _);
    [by repeat constructor|].
  rewrite bind_Ret, (newest_app _ _ _ _ _ Hsent3), bind_Ret.
  destruct (ack_exact envB netB1 (next_socket netB) c l ls1 lb lpb la lpa 1001 (wrap u32 (isn + 1)) _ p3 Hba HB1 Hdir2 Horig Hls1 Hh3)
    as (netB2 & c2 & ls2 & -> & _ & HB2 & Hbuf & Hls2 & Hpend2); [by repeat constructor|].
  rewrite bind_Ret. exists (netA2, netB2), lpa, ls2. split; [done|]. split; [done|]. split; [|split; [done|]].
  - exists sA2, c2, (wrap u32 (isn + 1)), 1001. split; [done|]. split; [done|].
    destruct Hcont as (xs & ys & Hb & Hz). exists xs, ys. by rewrite Hbuf.
  - rewrite Hpend2, Hpend. unfold queued. rewrite Hpend, Hback, (proj2 (Z.leb_gt _ _)) by done. done.
Qed.

(** C18. The three-way handshake: when a descriptor that was neither bound nor connected
    ([unused_socket]; a bound one cannot be reached, [bound_client_unreachable]) connects
    from a host with a free ephemeral port to a listener whose backlog has room and that
    has no connection with the client's address yet, and the packets are delivered, both
    hosts end with an established connection of the same addresses and ports whose
    sequence and acknowledgment numbers agree, nothing is left to be acknowledged, and the
    listener has queued the new connection. *)
Theorem TCP_handshake envA envB random isn netA netB a sA l ls la lb lpb :
  link envA la lb -> link envB lb la -> route_to envA lb 0 = Some la ->
  net_ok netA -> a ∈ held netA -> sockets netA !! a = Some sA -> unused_socket sA ->
  (exists port, ephemeral port /\ sockets_by_tuple netA !! mk_tuple la port lb lpb = None) ->
  listener netB l ls lb lpb -> (forall port, sockets_by_tuple netB !! mk_tuple lb lpb la port = None) ->
  Z.of_nat (length (m_pending ls)) < m_backlog ls -> 0 <= random -> u32_range isn -> u16_range lpb ->
  exists hosts lpa ls', establish envA envB random isn netA netB a la lb lpb = Ret hosts /\ ephemeral lpa /\
    joined a (next_socket netB) la lpa lb lpb hosts [] /\
    sockets hosts.2 !! l = Some ls' /\ m_pending ls' = m_pending ls ++ [next_socket netB].
Proof using Type*. apply handshake_joined. Qed.

(** C17. An established connection with nothing buffered or unacknowledged delivers a stream.
    One side writes, in any non-empty pieces of at most 65495 bytes, and the other side reads,
    in any amounts; the packets of a write and those that answer it are delivered at once, in
    order and without loss.  As long as the reader keeps up, that is, the receive buffer has
    room for each piece and its 40 bytes of headers when it is written, every step returns and the bytes read so far followed by those still
    buffered are exactly the bytes written, in order; the connection stays established with
    matching numbers.  Nothing in the code makes a writer wait for that room, and a piece that
    arrives without it is lost ([refused_data_acknowledged]). *)
Theorem TCP_delivers_in_order envA envB a b la lpa lb lpb hosts xs :
  link envA la lb -> link envB lb la -> joined a b la lpa lb lpb hosts [] -> Forall action_ok xs ->
  keeps_up envA envB a b hosts xs = true ->
  exists received hosts' waiting,
    converse envA envB a b hosts xs = Ret (received, hosts') /\
    concat (map written_by xs) = received ++ waiting /\ joined a b la lpa lb lpb hosts' waiting.
Proof using Type*.
  intros Hab Hba Hj Hxs Hup. destruct (converse_joined envA envB a b la lpa lb lpb Hab Hba xs hosts [] Hj Hxs Hup)
    as (re & hosts' & zs & Heq & Hj' & Hstream). by exists re, hosts', zs.
Qed.

End connection.

(** ** A client and a server *)

Definition sample_client_env (storage : list Z) : Environment :=
  MkEnv (fun _ _ => Some 2) (fun _ _ => 0) (MkTime 10 0) (fun a => a =? 2) storage.

Definition sample_client : Net (Z * Z * Z * Z) := (TCPSocket_create (sample_client_env sample_storage) empty_net).2.

Lemma sample_links : link (sample_client_env sample_storage) 2 1 /\ link (sample_env sample_storage) 1 2.
Proof. split; (split; [|done..]); split; [by split | apply length_replicate | by split | apply length_replicate]. Qed.

Lemma sample_client_ok : net_ok sample_client.
Proof. apply create_ok; [apply sample_links | apply empty_net_ok]. Qed.

Lemma sample_listener : exists ls, listener (sample_listening sample_storage) 0 ls 1 80 /\ m_pending ls = [] /\ m_backlog ls = 5.
Proof.
  eexists. split; [split; [apply tcp_reachable_ok, sample_reachable, sample_env_ok | reflexivity..] | by split].
Qed.

Lemma sample_tables :
  (exists port, ephemeral port /\ sockets_by_tuple sample_client !! mk_tuple 2 port 1 80 = None) /\
  forall port, sockets_by_tuple (sample_listening sample_storage) !! mk_tuple 1 80 2 port = None.
Proof.
  split; [exists 40000; by split|]. intros port. unfold sample_listening. cbn. by apply lookup_singleton_ne.
Qed.

Lemma TCP_handshake_witness :
  let netA := sample_client in let netB := sample_listening sample_storage in
  exists hosts lpa ls', establish (sample_client_env sample_storage) (sample_env sample_storage) 7 1234 netA netB 0 2 1 80 = Ret hosts /\
    ephemeral lpa /\ joined 0 1 2 lpa 1 80 hosts [] /\
    sockets hosts.2 !! 0%nat = Some ls' /\ m_pending ls' = [1%nat].
Proof.
  destruct sample_links as [Hab Hba]. destruct sample_listener as (ls & Hli & Hpend & Hback). destruct sample_tables as [HtA HtB].
  pose proof (TCP_handshake (sample_client_env sample_storage) (sample_env sample_storage) 7 1234 sample_client
    (sample_listening sample_storage) 0 (new_socket (sample_client_env sample_storage)) 0 ls 2 1 80 Hab Hba eq_refl sample_client_ok) as Hthm.
  rewrite Hpend, Hback in Hthm. by apply Hthm.
Defined.

(** The hosts after the handshake. *)
Definition sample_hosts : Net (Z * Z * Z * Z) * Net (Z * Z * Z * Z) :=
  match establish (sample_client_env sample_storage) (sample_env sample_storage) 7 1234 sample_client
          (sample_listening sample_storage) 0 2 1 80 with
  | Ret hosts => hosts
  | Stop _ => (empty_net, empty_net)
  end.

Lemma sample_hosts_joined : exists lpa, joined 0 1 2 lpa 1 80 sample_hosts [].
Proof.
  destruct sample_links as [Hab Hba]. destruct sample_listener as (ls & Hli & Hpend & Hback). destruct sample_tables as [HtA HtB].
  pose proof (handshake_joined (sample_client_env sample_storage) (sample_env sample_storage) 7 1234 sample_client
    (sample_listening sample_storage) 0 (new_socket (sample_client_env sample_storage)) 0 ls 2 1 80 Hab Hba eq_refl sample_client_ok) as Hthm.
  rewrite Hpend, Hback in Hthm. destruct Hthm as (hosts & lpa & ls' & Heq & _ & Hj & _); [done..|].
  exists lpa. unfold sample_hosts. by rewrite Heq.
Qed.

Definition sample_actions : list action := [Send [104; 101; 108]; Receive 2; Send [108; 111]; Receive 100; Receive 100].

Lemma TCP_delivers_in_order_witness :
  ('(received, _) ← converse (sample_client_env sample_storage) (sample_env sample_storage) 0 1 sample_hosts sample_actions;
   Ret received) = Ret [104; 101; 108; 108; 111] /\
  exists lpa received hosts' waiting,
    converse (sample_client_env sample_storage) (sample_env sample_storage) 0 1 sample_hosts sample_actions =
      Ret (received, hosts') /\
    concat (map written_by sample_actions) = received ++ waiting /\ joined 0 1 2 lpa 1 80 hosts' waiting.
Proof.
  split; [vm_compute; reflexivity|].
  destruct sample_links as [Hab Hba]. destruct sample_hosts_joined as [lpa Hj]. exists lpa.
  apply (TCP_delivers_in_order _ _ 0 1 2 lpa 1 80 sample_hosts sample_actions Hab Hba Hj);
    [|vm_compute; reflexivity].
  repeat constructor; try done; vm_compute; congruence.
Defined.
