(* ===== verification/TcpDefects.v ===== *)
(** * TCP: where the code departs from its intention

    Each lemma shows one behaviour that contradicts TCP or a comment of the sources; the
    concrete ones run the hosts of TcpConnection.v. *)

From stdpp Require Import gmap.
From S2P Require Import Prelude AKTime DoubleBuffer TcpPacket TcpSocket Tcp TcpInvariant TcpCalls TcpConnection.

#[local] Open Scope Z_scope.

Section defects.
Context {Tuple : Type} `{Countable Tuple} `{!SocketTuple Tuple}.
Implicit Types (net : Net Tuple) (s : TCPSocket Tuple) (id : nat).

(** [listen] on a socket that is not bound allocates a port, which enters the socket in the
    table, and then finds the port taken: by itself. *)
Lemma listen_unbound_fails random net id s backlog :
  0 <= random -> sockets net !! id = Some s -> m_local_port s = 0 ->
  exists net', IPv4Socket_listen random net id backlog = Ret (- EADDRINUSE, net').
Proof.
  intros Hr Hs Hp. unfold IPv4Socket_listen, allocate_local_port_if_needed. rewrite (get_lookup _ _ _ Hs), bind_Ret, Hp. cbn [Z.eqb negb].
  destruct (protocol_allocate_local_port_spec random net id s Hr Hs) as [[-> _]|(port & Hport & _ & ->)]; rewrite !bind_Ret; cbn beta iota.
  { by exists net. }
  unfold ephemeral, first_ephemeral_port, last_ephemeral_port in Hport. rewrite (proj2 (Z.ltb_ge port 0)) by lia.
  erewrite get_lookup by apply put_lookup. rewrite !bind_Ret. cbn beta iota. rewrite (proj2 (Z.ltb_ge port 0)) by lia. cbn [andb].
  erewrite get_lookup by apply put_lookup. rewrite bind_Ret. unfold protocol_listen. erewrite get_lookup by apply put_lookup. rewrite bind_Ret.
  rewrite bool_decide_true; [by eexists|]. cbn. by rewrite lookup_insert_eq.
Qed.

(** [bind] on a socket that listens or connects fails a [VERIFY] of the kernel. *)
Lemma bind_started_fails env superuser net id s address :
  sockets net !! id = Some s -> m_setup_state s <> Unstarted ->
  IPv4Socket_bind env superuser net id address = Stop VerifyFailed.
Proof.
  intros Hs Hset. unfold IPv4Socket_bind. rewrite (get_lookup _ _ _ Hs), bind_Ret. by rewrite bool_decide_false.
Qed.

(** A reader that blocked is woken when the peer closes, with nothing to read, and fails a
    [VERIFY]. *)
Lemma read_after_fin_fails net id s buffer size :
  sockets net !! id = Some s -> m_state s = CloseWait -> m_role s <> Listener ->
  DoubleBuffer_is_empty (m_receive_buffer s) = true ->
  IPv4Socket_can_read s = true /\ read_receive_buffer net id buffer size = Stop VerifyFailed.
Proof.
  intros Hs Hst Hrole He. split.
  - unfold IPv4Socket_can_read, protocol_is_disconnected. by rewrite bool_decide_false, Hst.
  - unfold read_receive_buffer. by rewrite (get_lookup _ _ _ Hs), bind_Ret, He.
Qed.

(** Data that the receive buffer has no room for still advances the acknowledgment number. *)
Lemma refused_data_acknowledged env net id s packet p :
  sockets net !! id = Some s -> has_rst p = false -> has_fin p = false -> ip_payload_size packet <> header_size p ->
  m_shut_down_for_reading s = false -> m_can_read s = true ->
  DoubleBuffer_space_for_writing (m_receive_buffer s) < 20 + ip_payload_size packet ->
  handle_established env net id packet p (ip_payload_size packet - header_size p) =
    Ret (put net id (s <| m_ack_number := wrap u32 (p_sequence_number p + (ip_payload_size packet - header_size p)) |>)).
Proof.
  intros Hs Hrst Hfin Hne Hrd Hcan Hsp. unfold handle_established. rewrite Hrst, Hfin.
  unfold set_ack_number, update. rewrite (get_lookup _ _ _ Hs), !bind_Ret.
  rewrite (proj2 (Z.eqb_neq (ip_payload_size packet - header_size p) 0)) by lia. cbn [negb].
  unfold did_receive. erewrite get_lookup by apply put_lookup. rewrite bind_Ret.
  cbn [m_shut_down_for_reading m_receive_buffer m_can_read set_field]. rewrite Hrd. unfold sizeof_IPv4Packet, ip_payload_size in *.
  rewrite (proj2 (Z.ltb_lt _ _) Hsp), Hcan. done.
Qed.

End defects.

(** The numbers of packets are compared as if they never wrapped: an old acknowledgment drops
    a packet that was sent after the wrap, and a new one keeps a packet sent before it. *)
Lemma acknowledgments_do_not_wrap bytes :
  let before := MkOutgoing 4294967290 bytes 0 Time_zero in let after := MkOutgoing 5 bytes 0 Time_zero in
  drop_acked 4294967290 [after] = [] /\ drop_acked 5 [before; after] = [before; after].
Proof. by vm_compute. Qed.

(** ** On the hosts of the sample connection *)

Definition client_env : Environment := sample_client_env sample_storage.
Definition server_env : Environment := sample_env sample_storage.

Definition newest_flags (net : Net (Z * Z * Z * Z)) : outcome Z :=
  bytes ← newest net; p ← TCPPacket_read bytes; Ret (flags p).

(** No sequence number is checked: a segment that arrives twice is delivered twice. *)
Lemma duplicate_delivered :
  (let '(client, server) := sample_hosts in
   '(_, client) ← Socket_write client_env 0 client 0 (user [104; 105]) 2;
   segment ← newest client;
   server ← handle_tcp server_env server (MkIPv4 2 1 segment);
   server ← handle_tcp server_env server (MkIPv4 2 1 segment);
   '(result, _) ← receive_byte_buffered server 1 false (user (replicate 100 0)) 100;
   Ret result) = Ret (Some (4, [104; 105; 104; 105])).
Proof. vm_compute. reflexivity. Qed.

(** A header size below the minimum is only logged: the header is delivered as data. *)
Definition small_header : TCPPacket :=
  MkPacket 32775 80 1235 1001 (set_flags (set_data_offset 0 0) (Z.lor PUSH ACK)) 1024 0 0.

Lemma small_header_delivered :
  (let '(_, server) := sample_hosts in
   server ← handle_tcp server_env server (MkIPv4 2 1 (TCPPacket_bytes small_header));
   '(result, _) ← receive_byte_buffered server 1 false (user (replicate 100 0)) 100;
   Ret result) = Ret (Some (20, TCPPacket_bytes small_header)).
Proof. vm_compute. reflexivity. Qed.

(** Closing both sides: the last FIN carries ACK, as [close] sends it, and is answered with a
    reset. *)
Lemma close_ends_in_reset :
  (let '(client, server) := sample_hosts in
   client ← TCPSocket_close client_env client 0;
   fin ← newest client;
   server ← handle_tcp server_env server (MkIPv4 2 1 fin);
   ack ← newest server;
   client ← handle_tcp client_env client (MkIPv4 1 2 ack);
   server ← TCPSocket_close server_env server 1;
   f ← newest_flags server;
   fin ← newest server;
   client' ← handle_tcp client_env client (MkIPv4 1 2 fin);
   answer ← newest_flags client';
   Ret (m_state <$> sockets client !! 0%nat, f, m_state <$> sockets client' !! 0%nat, answer)) =
  Ret (Some FinWait2, Z.lor FIN ACK, Some Closed, RST).
Proof. vm_compute. reflexivity. Qed.

(** A socket that was bound before it connects is not entered in the table: the answer to its
    SYN finds no socket. *)
Lemma bound_client_unreachable storage :
  (net ← run_event (sample_client_env storage) (TCPSocket_create (sample_client_env storage) empty_net).2 (Bind 0 true (inet 2 5000));
   net ← run_event (sample_client_env storage) net (Connect 0 7 1234 (inet 1 80));
   let answer := TCPPacket_bytes (MkPacket 80 5000 1000 1235 (set_flags (set_data_offset 0 5) (Z.lor SYN ACK)) 1024 0 0) in
   net ← handle_tcp (sample_client_env storage) net (MkIPv4 1 2 answer);
   Ret (m_state <$> sockets net !! 0%nat, sockets_by_tuple net)) = Ret (Some SynSent, (∅ : gmap (Z * Z * Z * Z) nat)).
Proof. vm_compute. reflexivity. Qed.

(** A second socket at the address of a listener fails to listen; destroying it removes the
    entry of the listener, which no packet reaches any more. *)
Lemma failed_listen_unregisters storage :
  (net ← run_event (sample_env storage) (sample_listening storage) Create;
   net ← run_event (sample_env storage) net (Bind 1 true (inet 1 80));
   net ← run_event (sample_env storage) net (DoListen 1 0 5);
   net ← run_event (sample_env storage) net (Close 1);
   net ← run_event (sample_env storage) net (Destroy 1);
   net' ← handle_tcp (sample_env storage) net sample_syn;
   Ret (m_state <$> sockets net !! 0%nat, sockets_by_tuple net, length (sent net'))) =
  Ret (Some Listen, (∅ : gmap (Z * Z * Z * Z) nat), 0%nat).
Proof. vm_compute. reflexivity. Qed.
