(* ===== verification/DiskCache.v ===== *)
(** * Kernel/FileSystem/BlockBasedFileSystem: blocks of a file, and the disk cache

    A [BlockBasedFS] reads and writes the blocks of the file it is mounted from.  [DiskCache]
    keeps copies of blocks in a fixed number of entries: the hash map finds the entry of a
    block (a finite map here, see HashMap.v for when it is one), the clean list has the entries that may be reused (the last one first), the dirty
    list those that have to be written back.  An entry is known by its position; an entry is
    in exactly one of the two intrusive lists, which are the lists of positions.

    The file below is an object of the class [SeekableFile]: what it does is not part of
    these sources, and [SeekableFileLaws] says what they rely on.

    The theorem: for accesses through the cache a [BlockBasedFS] is an array of blocks, and
    flushing brings the file in agreement with it.  [BlockStore] and [BlockStoreLaws] state
    this for the file systems above.  Where the cache is bypassed this does not hold, which is
    stated at the end. *)

From stdpp Require Import gmap.
From S2P Require Import Prelude BitmapView DoubleBuffer.

#[local] Open Scope Z_scope.

Definition EIO : Z := 5.
Definition EINVAL : Z := 22.
Definition ESPIPE : Z := 29.
Definition EOVERFLOW : Z := 36.

(** A [KResult] is 0 or the negative error number, a [KResultOr] of a size also the size. *)
Definition KSuccess : Z := 0.

(** Memory of the kernel: copying does not fault. *)
Definition for_kernel_buffer (bytes : list Z) : UserBuffer := MkUser bytes (fun _ => None).

(** [UserOrKernelBuffer::offset]: the buffer from a byte on. *)
Definition buffer_offset (u : UserBuffer) (offset : Z) : UserBuffer :=
  MkUser (drop (Z.to_nat offset) (u_bytes u))
    (fun n => match u_fault u (Z.to_nat offset + n)%nat with
              | Some k => Some (k - Z.to_nat offset)%nat
              | None => None
              end).

(** ** The file *)

(** [File::read] and [File::write] at an offset: the result, the bytes that [read] put into
    the buffer, and the file. *)
Class SeekableFile (F : Type) : Type := {
  is_seekable : F -> bool;
  File_read : F -> Z -> UserBuffer -> Z -> Z * list Z * F;
  File_write : F -> Z -> UserBuffer -> Z -> Z * F
}.

Record FileDescription (F : Type) : Type := MkDescription { m_file : F; m_current_offset : Z }.
Arguments MkDescription {F} _ _.
Arguments m_file {F} _.
Arguments m_current_offset {F} _.
#[global] Instance FileDescription_settable F : Settable (FileDescription F).
Proof. refine {| rebuild d := MkDescription (m_file d) (m_current_offset d) |}. by intros []. Defined.

Section file_description.
Context {F : Type} `{!SeekableFile F}.
Implicit Types d : FileDescription F.

(** [seek(offset, SEEK_SET)]. *)
Definition seek d (offset : Z) : Z * FileDescription F :=
  if negb (is_seekable (m_file d)) then (- ESPIPE, d)
  else if offset <? 0 then (- EINVAL, d)
  else (offset, d <| m_current_offset := offset |>).

Definition addition_would_overflow (a b : Z) : bool := negb (in_typeb i64 (a + b)).

Definition FileDescription_read d (buffer : UserBuffer) (count : Z) : Z * list Z * FileDescription F :=
  if addition_would_overflow (m_current_offset d) count then (- EOVERFLOW, [], d)
  else
    let '(nread, bytes, file) := File_read (m_file d) (m_current_offset d) buffer count in
    let d := d <| m_file := file |> in
    (nread, bytes,
     if (0 <=? nread) && is_seekable file then d <| m_current_offset := m_current_offset d + nread |> else d).

Definition FileDescription_write d (data : UserBuffer) (size : Z) : Z * FileDescription F :=
  if addition_would_overflow (m_current_offset d) size then (- EOVERFLOW, d)
  else
    let '(nwritten, file) := File_write (m_file d) (m_current_offset d) data size in
    let d := d <| m_file := file |> in
    (nwritten,
     if (0 <=? nwritten) && is_seekable file then d <| m_current_offset := m_current_offset d + nwritten |> else d).

End file_description.

(** ** The cache *)

Record CacheEntry : Type := MkEntry {
  e_block_index : Z;
  e_data : list Z;
  e_has_data : bool
}.
#[global] Instance CacheEntry_settable : Settable CacheEntry.
Proof. refine {| rebuild e := MkEntry (e_block_index e) (e_data e) (e_has_data e) |}. by intros []. Defined.

Record DiskCache : Type := MkCache {
  m_hash : gmap Z nat;
  m_clean_list : list nat;
  m_dirty_list : list nat;
  m_entries : list CacheEntry;
  m_dirty : bool
}.
#[global] Instance DiskCache_settable : Settable DiskCache.
Proof.
  refine {| rebuild c := MkCache (m_hash c) (m_clean_list c) (m_dirty_list c) (m_entries c) (m_dirty c) |}.
  by intros [].
Defined.

Definition m_entry_count : nat := Z.to_nat 10000.

(** The constructor; the pages of a [KBuffer] are zeroed. *)
Definition DiskCache_new (entry_count : nat) (block_size : Z) : DiskCache :=
  MkCache ∅ (seq 0 entry_count) []
    (replicate entry_count (MkEntry 0 (replicate (Z.to_nat block_size) 0) false)) false.

(** An entry without the list it is in. *)
Definition unlink (i : nat) (l : list nat) : list nat := filter (fun j => j <> i) l.

Definition mark_clean (c : DiskCache) (i : nat) : DiskCache :=
  c <| m_clean_list := i :: unlink i (m_clean_list c) |> <| m_dirty_list := unlink i (m_dirty_list c) |>.

Definition mark_dirty (c : DiskCache) (i : nat) : DiskCache :=
  c <| m_dirty_list := i :: unlink i (m_dirty_list c) |> <| m_clean_list := unlink i (m_clean_list c) |>
    <| m_dirty := true |>.

Definition mark_all_clean (c : DiskCache) : DiskCache :=
  c <| m_clean_list := foldl (fun l i => i :: l) (m_clean_list c) (m_dirty_list c) |>
    <| m_dirty_list := [] |> <| m_dirty := false |>.

Definition cache_entry (c : DiskCache) (i : nat) : outcome CacheEntry :=
  match m_entries c !! i with Some e => Ret e | None => Stop OutOfBounds end.

Definition set_entry (c : DiskCache) (i : nat) (e : CacheEntry) : DiskCache :=
  c <| m_entries := <[i := e]> (m_entries c) |>.

(** The part of [get] for a block that is not cached, when there is a clean entry: the last
    clean entry is taken for it. *)
Definition take_entry (c : DiskCache) (i : nat) (e : CacheEntry) (block_index : Z) : DiskCache :=
  let c := mark_clean c i in
  set_entry (c <| m_hash := <[block_index := i]> (delete (e_block_index e) (m_hash c)) |>) i
    (e <| e_block_index := block_index |> <| e_has_data := false |>).

(** ** The file system *)

Record BlockBasedFS (F : Type) : Type := MkFS {
  m_file_description : FileDescription F;
  m_block_size : Z;
  m_logical_block_size : Z;
  m_cache : option DiskCache
}.
Arguments MkFS {F} _ _ _ _.
Arguments m_file_description {F} _.
Arguments m_block_size {F} _.
Arguments m_logical_block_size {F} _.
Arguments m_cache {F} _.
#[global] Instance BlockBasedFS_settable F : Settable (BlockBasedFS F).
Proof.
  refine {| rebuild fs := MkFS (m_file_description fs) (m_block_size fs) (m_logical_block_size fs) (m_cache fs) |}.
  by intros [].
Defined.

Section block_based.
Context {F : Type} `{!SeekableFile F}.
Implicit Types fs : BlockBasedFS F.

(** [cache()]: made at the first use. *)
Definition cache fs : DiskCache :=
  match m_cache fs with Some c => c | None => DiskCache_new m_entry_count (m_block_size fs) end.

Definition set_cache fs (c : DiskCache) : BlockBasedFS F := fs <| m_cache := Some c |>.

(** Write the data of an entry back; the result of the write is not looked at. *)
Definition write_back fs (e : CacheEntry) : outcome (BlockBasedFS F) :=
  let base_offset := wrap u32 (e_block_index e * m_block_size fs) in
  let '(seek_result, d) := seek (m_file_description fs) base_offset in
  VERIFY (0 <=? seek_result) ;;
  let '(_, d) := FileDescription_write d (for_kernel_buffer (e_data e)) (m_block_size fs) in
  Ret (fs <| m_file_description := d |>).

Fixpoint write_back_all fs (l : list nat) : outcome (BlockBasedFS F) :=
  match l with
  | [] => Ret fs
  | i :: l => e ← cache_entry (cache fs) i; fs ← write_back fs e; write_back_all fs l
  end.

Definition flush_writes_impl fs : outcome (BlockBasedFS F) :=
  let fs := set_cache fs (cache fs) in
  if negb (m_dirty (cache fs)) then Ret fs
  else
    fs ← write_back_all fs (m_dirty_list (cache fs));
    Ret (set_cache fs (mark_all_clean (cache fs))).

Definition flush_writes fs : outcome (BlockBasedFS F) := flush_writes_impl fs.

(** The entries that are written back: those of the other blocks. *)
Fixpoint entries_not_of (c : DiskCache) (index : Z) (l : list nat) : outcome (list nat) :=
  match l with
  | [] => Ret []
  | i :: l =>
      e ← cache_entry c i;
      rest ← entries_not_of c index l;
      Ret (if negb (e_block_index e =? index) then i :: rest else rest)
  end.

Definition flush_specific_block_if_needed fs (index : Z) : outcome (BlockBasedFS F) :=
  let fs := set_cache fs (cache fs) in
  if negb (m_dirty (cache fs)) then Ret fs
  else
    cleaned_entries ← entries_not_of (cache fs) index (m_dirty_list (cache fs));
    fs ← write_back_all fs cleaned_entries;
    Ret (set_cache fs (foldl mark_clean (cache fs) cleaned_entries)).

(** [DiskCache::get]: the position of the entry. *)
Fixpoint DiskCache_get (fuel : nat) fs (block_index : Z) : outcome (nat * BlockBasedFS F) :=
  match fuel with
  | O => Stop NoFuel
  | S fuel =>
      let c := cache fs in
      match m_hash c !! block_index with
      | Some i =>
          e ← cache_entry c i;
          VERIFY (e_block_index e =? block_index) ;;
          Ret (i, set_cache fs c)
      | None =>
          match last (m_clean_list c) with
          | None => fs ← flush_writes_impl fs; DiskCache_get fuel fs block_index
          | Some i =>
              e ← cache_entry c i;
              Ret (i, set_cache fs (take_entry c i e block_index))
          end
      end
  end.

(** After a flush there is a clean entry, so [get] calls itself at most once. *)
Definition cache_get fs (block_index : Z) : outcome (nat * BlockBasedFS F) := DiskCache_get 2 fs block_index.

(** The part of [read_block] that reads the block into its entry. *)
Definition fill_entry fs (index : Z) (i : nat) (e : CacheEntry) : outcome (Z * BlockBasedFS F) :=
  let base_offset := wrap i64 (index * m_block_size fs) in
  let '(seek_result, d) := seek (m_file_description fs) base_offset in
  let fs := fs <| m_file_description := d |> in
  if seek_result <? 0 then Ret (seek_result, fs)
  else
    let '(nread, bytes, d) := FileDescription_read d (for_kernel_buffer (e_data e)) (m_block_size fs) in
    let fs := fs <| m_file_description := d |> in
    data ← copy_to (e_data e) 0 bytes;
    let e := e <| e_data := data |> in
    let fs := set_cache fs (set_entry (cache fs) i e) in
    if nread <? 0 then Ret (nread, fs)
    else
      VERIFY (nread =? m_block_size fs) ;;
      Ret (KSuccess, set_cache fs (set_entry (cache fs) i (e <| e_has_data := true |>))).

(** The result, the bytes that were put into the buffer, and the file system. *)
Definition read_block fs (index : Z) (buffer : option UserBuffer) (count offset : Z) (allow_cache : bool)
    : outcome (Z * list Z * BlockBasedFS F) :=
  VERIFY (negb (m_logical_block_size fs =? 0)) ;;
  VERIFY (wrap size_t (offset + count) <=? m_block_size fs) ;;
  if negb allow_cache then
    fs ← flush_specific_block_if_needed fs index;
    let base_offset := wrap i64 (index * m_block_size fs + offset) in
    let '(seek_result, d) := seek (m_file_description fs) base_offset in
    let fs := fs <| m_file_description := d |> in
    if seek_result <? 0 then Ret (seek_result, [], fs)
    else
      match buffer with
      | None => Stop Undefined
      | Some buffer =>
          let '(nread, bytes, d) := FileDescription_read d buffer count in
          let fs := fs <| m_file_description := d |> in
          if nread <? 0 then Ret (nread, bytes, fs)
          else VERIFY (nread =? count) ;; Ret (KSuccess, bytes, fs)
      end
  else
    '(i, fs) ← cache_get fs index;
    e ← cache_entry (cache fs) i;
    '(result, fs) ← (if negb (e_has_data e) then fill_entry fs index i e else Ret (KSuccess, fs));
    if result <? 0 then Ret (result, [], fs)
    else
      match buffer with
      | None => Ret (KSuccess, [], fs)
      | Some buffer =>
          e ← cache_entry (cache fs) i;
          bytes ← copy_from (e_data e) offset count;
          let '(copied, ok) := user_copy buffer (Z.to_nat count) in
          Ret (if ok then KSuccess else - EFAULT, take copied bytes, fs)
      end.

Definition write_block fs (index : Z) (data : UserBuffer) (count offset : Z) (allow_cache : bool)
    : outcome (Z * BlockBasedFS F) :=
  VERIFY (negb (m_logical_block_size fs =? 0)) ;;
  VERIFY (wrap size_t (offset + count) <=? m_block_size fs) ;;
  if negb allow_cache then
    fs ← flush_specific_block_if_needed fs index;
    let base_offset := wrap u32 (index * m_block_size fs + offset) in
    let '(seek_result, d) := seek (m_file_description fs) base_offset in
    let fs := fs <| m_file_description := d |> in
    if seek_result <? 0 then Ret (seek_result, fs)
    else
      let '(nwritten, d) := FileDescription_write d data count in
      let fs := fs <| m_file_description := d |> in
      if nwritten <? 0 then Ret (nwritten, fs)
      else VERIFY (nwritten =? count) ;; Ret (KSuccess, fs)
  else
    '(i, fs) ← cache_get fs index;
    '(result, fs) ←
      (if count <? m_block_size fs then
         '(result, _, fs) ← read_block fs index None (m_block_size fs) 0 true;
         Ret (result, fs)
       else Ret (KSuccess, fs));
    if result <? 0 then Ret (result, fs)
    else
      e ← cache_entry (cache fs) i;
      let '(copied, ok) := user_copy data (Z.to_nat count) in
      bytes ← copy_to (e_data e) offset (take copied (u_bytes data));
      let e := e <| e_data := bytes |> in
      let fs := set_cache fs (set_entry (cache fs) i e) in
      if negb ok then Ret (- EFAULT, fs)
      else
        Ret (KSuccess, set_cache fs (set_entry (mark_dirty (cache fs) i) i (e <| e_has_data := true |>))).

(** [count] blocks from [index] on; the results of blocks are put one after the other into the
    buffer. *)
Fixpoint read_each fs (index : Z) (count : nat) (out : UserBuffer) (allow_cache : bool)
    : outcome (Z * list Z * BlockBasedFS F) :=
  match count with
  | O => Ret (KSuccess, [], fs)
  | S count =>
      '(result, bytes, fs) ← read_block fs index (Some out) (m_block_size fs) 0 allow_cache;
      if result <? 0 then Ret (result, bytes, fs)
      else
        '(result, rest, fs) ← read_each fs (index + 1) count (buffer_offset out (m_block_size fs)) allow_cache;
        Ret (result, bytes ++ rest, fs)
  end.

Definition read_blocks fs (index count : Z) (buffer : UserBuffer) (allow_cache : bool)
    : outcome (Z * list Z * BlockBasedFS F) :=
  VERIFY (negb (m_logical_block_size fs =? 0)) ;;
  if count =? 0 then Ret (- EINVAL, [], fs)
  else if count =? 1 then read_block fs index (Some buffer) (m_block_size fs) 0 allow_cache
  else read_each fs index (Z.to_nat count) buffer allow_cache.

Fixpoint write_each fs (index : Z) (count : nat) (data : UserBuffer) (allow_cache : bool)
    : outcome (Z * BlockBasedFS F) :=
  match count with
  | O => Ret (KSuccess, fs)
  | S count =>
      '(result, fs) ← write_block fs index data (m_block_size fs) 0 allow_cache;
      if result <? 0 then Ret (result, fs)
      else write_each fs (index + 1) count (buffer_offset data (m_block_size fs)) allow_cache
  end.

Definition write_blocks fs (index count : Z) (data : UserBuffer) (allow_cache : bool) : outcome (Z * BlockBasedFS F) :=
  VERIFY (negb (m_logical_block_size fs =? 0)) ;;
  write_each fs index (Z.to_nat count) data allow_cache.

(** Sectors of the device, past the cache. *)
Definition raw_read fs (index : Z) (buffer : UserBuffer) : outcome (list Z * BlockBasedFS F) :=
  let base_offset := wrap u32 (index * m_logical_block_size fs) in
  let '(seek_result, d) := seek (m_file_description fs) base_offset in
  VERIFY (0 <=? seek_result) ;;
  let '(nread, bytes, d) := FileDescription_read d buffer (m_logical_block_size fs) in
  VERIFY (0 <=? nread) ;;
  VERIFY (nread =? m_logical_block_size fs) ;;
  Ret (bytes, fs <| m_file_description := d |>).

Definition raw_write fs (index : Z) (buffer : UserBuffer) : outcome (BlockBasedFS F) :=
  let base_offset := wrap u32 (index * m_logical_block_size fs) in
  let '(seek_result, d) := seek (m_file_description fs) base_offset in
  VERIFY (0 <=? seek_result) ;;
  let '(nwritten, d) := FileDescription_write d buffer (m_logical_block_size fs) in
  VERIFY (0 <=? nwritten) ;;
  VERIFY (nwritten =? m_logical_block_size fs) ;;
  Ret (fs <| m_file_description := d |>).

Fixpoint raw_read_blocks fs (index : Z) (count : nat) (buffer : UserBuffer) : outcome (list Z * BlockBasedFS F) :=
  match count with
  | O => Ret ([], fs)
  | S count =>
      '(bytes, fs) ← raw_read fs index buffer;
      '(rest, fs) ← raw_read_blocks fs (index + 1) count (buffer_offset buffer (m_logical_block_size fs));
      Ret (bytes ++ rest, fs)
  end.

Fixpoint raw_write_blocks fs (index : Z) (count : nat) (buffer : UserBuffer) : outcome (BlockBasedFS F) :=
  match count with
  | O => Ret fs
  | S count =>
      fs ← raw_write fs index buffer;
      raw_write_blocks fs (index + 1) count (buffer_offset buffer (m_logical_block_size fs))
  end.

End block_based.

(** ** Pieces of a list *)

Section slices.
Context {A : Type}.
Implicit Types (l xs : list A) (a n : Z).

Definition slice l a n : list A := take (Z.to_nat n) (drop (Z.to_nat a) l).
Definition splice l a xs : list A := take (Z.to_nat a) l ++ xs ++ drop (Z.to_nat a + length xs) l.

Lemma slice_length l a n : 0 <= a -> 0 <= n -> a + n <= Z.of_nat (length l) -> length (slice l a n) = Z.to_nat n.
Proof. intros. unfold slice. rewrite length_take, length_drop. lia. Qed.

Lemma slice_lookup l a n i :
  0 <= a -> slice l a n !! i = if decide (i < Z.to_nat n)%nat then l !! (Z.to_nat a + i)%nat else None.
Proof.
  intros Ha. unfold slice. case_decide.
  - by rewrite lookup_take_lt, lookup_drop by done.
  - by rewrite lookup_take_ge by lia.
Qed.

Lemma slice_all l : slice l 0 (Z.of_nat (length l)) = l.
Proof. unfold slice. rewrite Nat2Z.id. apply firstn_all. Qed.

Lemma splice_length l a xs :
  0 <= a -> a + Z.of_nat (length xs) <= Z.of_nat (length l) -> length (splice l a xs) = length l.
Proof. intros. unfold splice. rewrite !length_app, length_take, length_drop. lia. Qed.

Lemma splice_lookup l a xs i :
  0 <= a -> a + Z.of_nat (length xs) <= Z.of_nat (length l) ->
  splice l a xs !! i =
    if decide (Z.to_nat a <= i < Z.to_nat a + length xs)%nat then xs !! (i - Z.to_nat a)%nat else l !! i.
Proof.
  intros Ha Hl. unfold splice. case_decide as Hd.
  - rewrite lookup_app_r by (rewrite length_take; lia). rewrite length_take, Nat.min_l by lia.
    by rewrite lookup_app_l by lia.
  - destruct (decide (i < Z.to_nat a)%nat).
    + rewrite lookup_app_l by (rewrite length_take; lia). by rewrite lookup_take_lt by lia.
    + rewrite lookup_app_r by (rewrite length_take; lia). rewrite length_take, Nat.min_l by lia.
      rewrite lookup_app_r by lia. rewrite lookup_drop. f_equal. lia.
Qed.

Lemma slice_splice_same l a xs n :
  0 <= a -> a + Z.of_nat (length xs) <= Z.of_nat (length l) -> n = Z.of_nat (length xs) ->
  slice (splice l a xs) a n = xs.
Proof.
  intros Ha Hl ->. apply list_eq. intros i. rewrite slice_lookup, Nat2Z.id by done.
  case_decide; [|by rewrite lookup_ge_None_2 by lia].
  rewrite splice_lookup, decide_True by lia. f_equal. lia.
Qed.

Lemma slice_splice_other l a xs b n :
  0 <= a -> 0 <= b -> a + Z.of_nat (length xs) <= Z.of_nat (length l) ->
  b + n <= a \/ a + Z.of_nat (length xs) <= b ->
  slice (splice l a xs) b n = slice l b n.
Proof.
  intros Ha Hb Hl Hd. apply list_eq. intros i. rewrite !slice_lookup by done.
  case_decide; [|done]. by rewrite splice_lookup, decide_False by lia.
Qed.

Lemma splice_all l xs : length xs = length l -> splice l 0 xs = xs.
Proof. intros Hl. unfold splice. rewrite drop_ge by lia. by rewrite app_nil_r. Qed.

Lemma Forall_slice (P : A -> Prop) l a n : Forall P l -> Forall P (slice l a n).
Proof. intros. by apply Forall_take, Forall_drop. Qed.

Lemma Forall_splice (P : A -> Prop) l a xs : Forall P l -> Forall P xs -> Forall P (splice l a xs).
Proof. intros. apply Forall_app. split; [by apply Forall_take|]. apply Forall_app. split; [done|by apply Forall_drop]. Qed.
End slices.

Lemma copy_to_splice storage offset bytes :
  0 <= offset -> offset + Z.of_nat (length bytes) <= Z.of_nat (length storage) ->
  copy_to storage offset bytes = Ret (splice storage offset bytes).
Proof. intros. unfold copy_to. by rewrite (proj2 (andb_true_iff _ _)) by (split; lia). Qed.

Lemma copy_from_slice storage offset n :
  0 <= offset -> offset + n <= Z.of_nat (length storage) ->
  copy_from storage offset n = Ret (slice storage offset n).
Proof. intros. unfold copy_from. by rewrite (proj2 (andb_true_iff _ _)) by (split; lia). Qed.

(** ** What is expected of the file *)

Class SeekableFileLaws (F : Type) `{!SeekableFile F} : Type := {
  file_bytes : F -> list Z;
  file_seekable f : is_seekable f = true;
  file_read_law f offset u n :
    0 <= offset -> 0 <= n -> offset + n <= Z.of_nat (length (file_bytes f)) -> u_fault u (Z.to_nat n) = None ->
    exists f', File_read f offset u n = (n, slice (file_bytes f) offset n, f') /\ file_bytes f' = file_bytes f;
  file_write_law f offset u n :
    0 <= offset -> 0 <= n -> offset + n <= Z.of_nat (length (file_bytes f)) -> u_fault u (Z.to_nat n) = None ->
    (Z.to_nat n <= length (u_bytes u))%nat ->
    exists f', File_write f offset u n = (n, f') /\
      file_bytes f' = splice (file_bytes f) offset (take (Z.to_nat n) (u_bytes u))
}.

Section laws.
Context {F : Type} `{!SeekableFile F} `{!SeekableFileLaws F}.
Implicit Types fs : BlockBasedFS F.

Definition disk fs : list Z := file_bytes (m_file (m_file_description fs)).

(** The block [b] of a disk. *)
Definition disk_block (bs : Z) (bytes : list Z) (b : Z) : list Z := slice bytes (b * bs) bs.

(** The blocks that can be accessed: on the disk, at an offset of 32 bits; block 0 stands for
    an entry that is not in use. *)
Definition addressable (bs : Z) (bytes : list Z) (b : Z) : Prop :=
  0 < b /\ (b + 1) * bs <= Z.of_nat (length bytes) /\ (b + 1) * bs <= 2 ^ 32.

Record cache_ok (bs : Z) (bytes : list Z) (c : DiskCache) : Prop := CacheOk {
  ok_hash b i : m_hash c !! b = Some i ->
    addressable bs bytes b /\ exists e, m_entries c !! i = Some e /\ e_block_index e = b;
  ok_entry i e : m_entries c !! i = Some e ->
    length (e_data e) = Z.to_nat bs /\ is_bytes (e_data e) /\
    (e_block_index e <> 0 -> m_hash c !! e_block_index e = Some i) /\
    (e_has_data e = true -> e_block_index e <> 0);
  ok_lists : m_clean_list c ++ m_dirty_list c ≡ₚ seq 0 (length (m_entries c));
  ok_count : (0 < length (m_entries c))%nat;
  ok_clean i e : i ∈ m_clean_list c -> m_entries c !! i = Some e -> e_has_data e = true ->
    e_data e = disk_block bs bytes (e_block_index e);
  ok_dirty i e : i ∈ m_dirty_list c -> m_entries c !! i = Some e ->
    e_has_data e = true /\ e_block_index e <> 0;
  ok_flag : m_dirty_list c <> [] -> m_dirty c = true
}.

Record fs_ok fs : Prop := FsOk {
  ok_block_size : 0 < m_block_size fs < 2 ^ 31;
  ok_logical : m_logical_block_size fs <> 0;
  ok_disk : is_bytes (disk fs);
  ok_disk_size : Z.of_nat (length (disk fs)) < 2 ^ 62;
  ok_cache : cache_ok (m_block_size fs) (disk fs) (cache fs)
}.

(** The contents of a block: what the cache has, or else the disk. *)
Definition block fs (b : Z) : list Z :=
  match m_hash (cache fs) !! b with
  | Some i =>
      match m_entries (cache fs) !! i with
      | Some e => if e_has_data e then e_data e else disk_block (m_block_size fs) (disk fs) b
      | None => []
      end
  | None => disk_block (m_block_size fs) (disk fs) b
  end.

Definition valid fs (b : Z) : Prop := addressable (m_block_size fs) (disk fs) b.

(** The operations keep the sizes. *)
Record same_shape fs fs' : Prop := SameShape {
  same_block_size : m_block_size fs' = m_block_size fs;
  same_logical : m_logical_block_size fs' = m_logical_block_size fs;
  same_length : length (disk fs') = length (disk fs)
}.

#[global] Instance same_shape_preorder : PreOrder same_shape.
Proof. split; [done|]. intros ??? [] []. split; congruence. Qed.

Lemma valid_same fs fs' b : same_shape fs fs' -> valid fs' b <-> valid fs b.
Proof. intros [Hb _ Hl]. unfold valid, addressable. by rewrite Hb, Hl. Qed.

(** The same blocks. *)
Definition same_blocks fs fs' : Prop := fs_ok fs' /\ same_shape fs fs' /\ forall b, valid fs b -> block fs' b = block fs b.

Lemma same_blocks_refl fs : fs_ok fs -> same_blocks fs fs.
Proof. by intros. Qed.

Lemma same_blocks_trans fs1 fs2 fs3 : same_blocks fs1 fs2 -> same_blocks fs2 fs3 -> same_blocks fs1 fs3.
Proof.
  intros (? & H1 & Hb1) (? & H2 & Hb2). split; [done|]. split; [by etransitivity|].
  intros b Hv. rewrite Hb2 by by apply (valid_same fs1 fs2). by apply Hb1.
Qed.

Lemma DiskCache_new_ok n bs bytes : (0 < n)%nat -> 0 < bs -> cache_ok bs bytes (DiskCache_new n bs).
Proof.
  intros Hn Hbs. split; cbn.
  - intros b i. by rewrite lookup_empty.
  - intros i e He. apply lookup_replicate in He as [-> _]. cbn. split_and!; [by rewrite length_replicate| |done|done].
    apply Forall_replicate. int_lia.
  - by rewrite app_nil_r, length_replicate.
  - by rewrite length_replicate.
  - intros i e _ He. apply lookup_replicate in He as [-> _]. done.
  - intros i e Hi. by apply elem_of_nil in Hi.
  - done.
Qed.

Lemma disk_block_length bs bytes b :
  0 < bs -> addressable bs bytes b -> length (disk_block bs bytes b) = Z.to_nat bs.
Proof. intros Hb (? & ? & ?). apply slice_length; lia. Qed.

Lemma block_ok fs b : fs_ok fs -> valid fs b -> length (block fs b) = Z.to_nat (m_block_size fs) /\ is_bytes (block fs b).
Proof.
  intros Hok Hv. pose proof (ok_block_size _ Hok).
  assert (length (disk_block (m_block_size fs) (disk fs) b) = Z.to_nat (m_block_size fs) /\
          is_bytes (disk_block (m_block_size fs) (disk fs) b)) as Hd.
  { split; [apply disk_block_length; [lia|done]|]. by apply Forall_slice, ok_disk. }
  unfold block. destruct (m_hash (cache fs) !! b) as [i|] eqn:Hh; [|done].
  destruct (ok_hash _ _ _ (ok_cache _ Hok) _ _ Hh) as (_ & e & He & <-). rewrite He.
  destruct (e_has_data e); [|done]. by destruct (ok_entry _ _ _ (ok_cache _ Hok) _ _ He) as (? & ? & _ & _).
Qed.

(** ** Accesses to the file *)

Lemma seek_spec (d : FileDescription F) offset : 0 <= offset -> seek d offset = (offset, d <| m_current_offset := offset |>).
Proof using Type*. intros. unfold seek. rewrite file_seekable. cbn [negb]. by rewrite (proj2 (Z.ltb_ge _ _)) by lia. Qed.

Lemma would_not_overflow a b : 0 <= a < 2 ^ 62 -> 0 <= b < 2 ^ 62 -> addition_would_overflow a b = false.
Proof. intros. unfold addition_would_overflow. rewrite in_typeb_i64. lia. Qed.

Lemma description_read_spec f offset u n :
  0 <= offset -> 0 <= n < 2 ^ 62 -> offset + n <= Z.of_nat (length (file_bytes f)) ->
  Z.of_nat (length (file_bytes f)) < 2 ^ 62 -> u_fault u (Z.to_nat n) = None ->
  exists d', FileDescription_read (MkDescription f offset) u n = (n, slice (file_bytes f) offset n, d') /\
    file_bytes (m_file d') = file_bytes f.
Proof.
  intros H0 Hn Hl H62 Hu. unfold FileDescription_read. cbn [m_current_offset m_file]. rewrite would_not_overflow by lia.
  destruct (file_read_law f offset u n) as (f' & -> & Hf); [lia..|done|]. eexists. split; [done|].
  rewrite file_seekable, andb_true_r. by destruct (0 <=? n).
Qed.

Lemma description_write_spec f offset u n :
  0 <= offset -> 0 <= n < 2 ^ 62 -> offset + n <= Z.of_nat (length (file_bytes f)) ->
  Z.of_nat (length (file_bytes f)) < 2 ^ 62 -> u_fault u (Z.to_nat n) = None -> (Z.to_nat n <= length (u_bytes u))%nat ->
  exists d', FileDescription_write (MkDescription f offset) u n = (n, d') /\
    file_bytes (m_file d') = splice (file_bytes f) offset (take (Z.to_nat n) (u_bytes u)).
Proof.
  intros H0 Hn Hl H62 Hu Hlen. unfold FileDescription_write. cbn [m_current_offset m_file]. rewrite would_not_overflow by lia.
  destruct (file_write_law f offset u n) as (f' & -> & Hf); [lia..|done|done|]. eexists. split; [done|].
  rewrite file_seekable, andb_true_r. by destruct (0 <=? n).
Qed.

(** ** Writing back *)

(** The file system with another disk. *)
Definition with_disk fs fs' (bytes : list Z) : Prop :=
  m_block_size fs' = m_block_size fs /\ m_logical_block_size fs' = m_logical_block_size fs /\
  m_cache fs' = m_cache fs /\ disk fs' = bytes.

Lemma with_disk_cache fs fs' bytes : with_disk fs fs' bytes -> cache fs' = cache fs.
Proof. intros (Hb & _ & Hc & _). unfold cache. by rewrite Hb, Hc. Qed.

Lemma write_back_spec fs e :
  0 < m_block_size fs < 2 ^ 31 -> Z.of_nat (length (disk fs)) < 2 ^ 62 -> valid fs (e_block_index e) ->
  length (e_data e) = Z.to_nat (m_block_size fs) ->
  exists fs', write_back fs e = Ret fs' /\
    with_disk fs fs' (splice (disk fs) (e_block_index e * m_block_size fs) (e_data e)).
Proof using Type*.
  intros Hbs H62 (H0 & Hl & H32) Hlen. unfold write_back.
  rewrite (wrap_id u32 eq_refl) by int_lia. rewrite seek_spec by lia. rewrite VERIFY_true by lia. run.
  destruct fs as [[f o] bs lbs c]. unfold disk in *. cbn in *.
  destruct (description_write_spec f (e_block_index e * bs) (for_kernel_buffer (e_data e)) bs) as (d' & Heq & Hd');
    [lia..|done|cbn; lia|].
  unfold set_field. cbn. rewrite Heq. eexists. split; [done|]. split_and!; try done. unfold disk. cbn. rewrite Hd', <- Hlen. cbn.
  by rewrite firstn_all.
Qed.

Lemma disk_block_splice_same bs bytes b data :
  0 < bs -> addressable bs bytes b -> length data = Z.to_nat bs ->
  disk_block bs (splice bytes (b * bs) data) b = data.
Proof. intros Hb (? & ? & ?) Hl. apply slice_splice_same; lia. Qed.

Lemma disk_block_splice_other bs bytes b b' data :
  0 < bs -> addressable bs bytes b -> addressable bs bytes b' -> length data = Z.to_nat bs -> b <> b' ->
  disk_block bs (splice bytes (b * bs) data) b' = disk_block bs bytes b'.
Proof. intros Hb (? & ? & ?) (? & ? & ?) Hl Hne. apply slice_splice_other; nia. Qed.

Lemma addressable_length bs bytes bytes' b :
  length bytes' = length bytes -> addressable bs bytes' b <-> addressable bs bytes b.
Proof. intros Hl. unfold addressable. by rewrite Hl. Qed.

(** The entries [l] are written back; [written b] is the data that block [b] gets. *)
Lemma write_back_all_spec l fs :
  0 < m_block_size fs < 2 ^ 31 -> Z.of_nat (length (disk fs)) < 2 ^ 62 -> is_bytes (disk fs) ->
  (forall i, i ∈ l -> exists e, m_entries (cache fs) !! i = Some e /\ valid fs (e_block_index e) /\
     length (e_data e) = Z.to_nat (m_block_size fs) /\ is_bytes (e_data e) /\
     m_hash (cache fs) !! e_block_index e = Some i) -> NoDup l ->
  exists fs' bytes, write_back_all fs l = Ret fs' /\ with_disk fs fs' bytes /\
    length bytes = length (disk fs) /\ is_bytes bytes /\
    (forall i e, i ∈ l -> m_entries (cache fs) !! i = Some e ->
       disk_block (m_block_size fs) bytes (e_block_index e) = e_data e) /\
    (forall b, valid fs b -> (forall i, i ∈ l -> m_hash (cache fs) !! b <> Some i) ->
       disk_block (m_block_size fs) bytes b = disk_block (m_block_size fs) (disk fs) b).
Proof using Type*.
  revert fs. induction l as [|i l IH]; intros fs Hbs H62 Hby Hl Hnd.
  { exists fs, (disk fs). split_and!; try done. intros i e Hi. by apply elem_of_nil in Hi. }
  apply NoDup_cons in Hnd as [Hi Hnd]. destruct (Hl i ltac:(left)) as (e & He & Hv & Hlen & Heb & Hh).
  cbn [write_back_all]. unfold cache_entry at 1. rewrite He. run.
  destruct (write_back_spec fs e Hbs H62 Hv Hlen) as (fs1 & -> & Hfs1). run.
  pose proof (with_disk_cache _ _ _ Hfs1) as Hc1. destruct Hfs1 as (Hb1 & Hlb1 & Hca1 & Hd1).
  assert (length (disk fs1) = length (disk fs)) as Hl1.
  { rewrite Hd1. apply splice_length; destruct Hv; lia. }
  assert (forall b, valid fs1 b <-> valid fs b) as Hval by (intros b; unfold valid, addressable; by rewrite Hb1, Hl1).
  destruct (IH fs1) as (fs' & bytes & Heq & (Hb' & Hlb' & Hca' & Hd') & Hlen' & Hby' & Hin & Hout).
  { by rewrite Hb1. } { by rewrite Hl1. } { rewrite Hd1. by apply Forall_splice. }
  { intros j Hj. rewrite Hc1, Hb1. destruct (Hl j ltac:(by right)) as (ej & ? & ? & ? & ? & ?). exists ej.
    rewrite Hval. done. }
  { done. }
  exists fs', bytes. rewrite Hc1, Hb1 in *. split_and!; [done|by split_and!; congruence|congruence|done| |].
  - intros j ej Hj Hej. apply elem_of_cons in Hj as [->|Hj]; [|by apply (Hin j)].
    assert (ej = e) as -> by congruence. rewrite Hout by (try apply Hval; try done; intros k Hk Hhk; congruence).
    rewrite Hd1. by apply disk_block_splice_same; [lia| |].
  - intros b Hvb Hb. rewrite Hout; [|by apply Hval|intros k Hk; apply Hb; by right].
    rewrite Hd1. apply disk_block_splice_other; try done; [lia|]. intros <-. by apply (Hb i); [left|].
Qed.



(** What is known of an entry of a list. *)
Lemma listed_entry bs bytes c i :
  cache_ok bs bytes c -> i ∈ m_clean_list c ++ m_dirty_list c -> exists e, m_entries c !! i = Some e.
Proof.
  intros Hok Hi. rewrite (ok_lists _ _ _ Hok) in Hi. apply elem_of_seq in Hi. apply lookup_lt_is_Some_2. lia.
Qed.

Lemma lists_NoDup bs bytes c : cache_ok bs bytes c -> NoDup (m_clean_list c ++ m_dirty_list c).
Proof. intros Hok. rewrite (ok_lists _ _ _ Hok). apply NoDup_seq. Qed.

Lemma not_both bs bytes c i : cache_ok bs bytes c -> i ∈ m_clean_list c -> i ∈ m_dirty_list c -> False.
Proof. intros Hok H1 H2. pose proof (lists_NoDup _ _ _ Hok) as (_ & H & _)%NoDup_app. by apply (H i). Qed.

Lemma foldl_cons (l acc : list nat) : foldl (fun l i => i :: l) acc l = rev l ++ acc.
Proof. revert acc. induction l as [|i l IH]; intros acc; [done|]. cbn. by rewrite IH, <- app_assoc. Qed.

(** All dirty entries are clean on a disk that has their data. *)
Lemma mark_all_clean_ok bs bytes bytes' c :
  cache_ok bs bytes c -> length bytes' = length bytes ->
  (forall i e, i ∈ m_dirty_list c -> m_entries c !! i = Some e -> disk_block bs bytes' (e_block_index e) = e_data e) ->
  (forall b, addressable bs bytes b -> (forall i, i ∈ m_dirty_list c -> m_hash c !! b <> Some i) ->
     disk_block bs bytes' b = disk_block bs bytes b) ->
  cache_ok bs bytes' (mark_all_clean c).
Proof.
  intros Hok Hl Hin Hout. unfold mark_all_clean, set_field. split; cbn.
  - intros b i Hb. rewrite (addressable_length bs bytes) by done. by apply Hok.
  - by apply Hok.
  - rewrite foldl_cons, app_nil_r, <- (ok_lists _ _ _ Hok), <- Permutation_rev. by rewrite Permutation_app_comm.
  - by apply Hok.
  - intros i e Hi He Hd. rewrite foldl_cons in Hi. apply elem_of_app in Hi as [Hi|Hi].
    + symmetry. apply (Hin i); [|done]. by rewrite Permutation_rev.
    + destruct (ok_entry _ _ _ Hok _ _ He) as (_ & _ & Hh & Hnz). specialize (Hh (Hnz Hd)).
      rewrite Hout; [by apply (ok_clean _ _ _ Hok i)|by eapply ok_hash|].
      intros j Hj Hhj. assert (j = i) as -> by congruence. by eapply not_both.
  - intros i e Hi. by apply elem_of_nil in Hi.
  - done.
Qed.

Lemma cache_set_cache fs c : cache (set_cache fs c) = c.
Proof. done. Qed.

Lemma disk_set_cache fs c : disk (set_cache fs c) = disk fs.
Proof. done. Qed.

Lemma flush_spec fs :
  fs_ok fs -> exists fs', flush_writes_impl fs = Ret fs' /\ same_blocks fs fs' /\ m_dirty_list (cache fs') = [].
Proof using Type*.
  intros Hok. pose proof (ok_cache _ Hok) as Hc. unfold flush_writes_impl. rewrite cache_set_cache.
  destruct (m_dirty (cache fs)) eqn:Hd; cbn [negb].
  2: { eexists. split; [done|]. rewrite cache_set_cache. split.
       - split; [|by split]. split; try apply Hok.
       - destruct (m_dirty_list (cache fs)) eqn:E; [done|]. rewrite (ok_flag _ _ _ Hc) in Hd by by rewrite E. done. }
  destruct (write_back_all_spec (m_dirty_list (cache fs)) (set_cache fs (cache fs)))
    as (fs1 & bytes & -> & Hfs1 & Hlen & Hby & Hin & Hout); try apply Hok.
  { intros i Hi. rewrite cache_set_cache. destruct (listed_entry _ _ _ i Hc) as [e He]; [by apply elem_of_app; right|].
    destruct (ok_dirty _ _ _ Hc _ _ Hi He) as [Hh Hnz]. destruct (ok_entry _ _ _ Hc _ _ He) as (? & ? & Hhash & _).
    exists e. split; [done|]. split; [|by auto]. by apply (ok_hash _ _ _ Hc _ i), Hhash. }
  { by apply lists_NoDup, NoDup_app in Hc as (_ & _ & ?). }
  run. pose proof (with_disk_cache _ _ _ Hfs1) as Hc1. destruct Hfs1 as (Hb1 & Hl1 & Hca1 & Hd1).
  rewrite Hc1 in *. rewrite cache_set_cache in *. cbn in Hb1, Hl1, Hlen, Hin, Hout.
  eexists. split; [done|]. split; [|done]. split; [|split].
  - split; cbn; rewrite ?Hb1, ?Hl1; try apply Hok; unfold disk in *; cbn in *; rewrite ?Hd1; [done|rewrite Hlen; apply Hok|].
    by apply (mark_all_clean_ok _ (disk fs)).
  - split; cbn; [done..|]. unfold disk in *. cbn. by rewrite Hd1, Hlen.
  - intros b Hv. unfold block. rewrite cache_set_cache. cbn [m_hash m_entries mark_all_clean set_field].
    unfold mark_all_clean, set_field. cbn. rewrite Hb1. unfold disk. cbn. unfold disk in Hd1. rewrite Hd1.
    destruct (m_hash (cache fs) !! b) as [i|] eqn:Hh; [|apply Hout; [done|congruence]].
    destruct (m_entries (cache fs) !! i) as [e|] eqn:He; [|done]. destruct (e_has_data e) eqn:Hdata; [done|].
    apply Hout; [done|]. intros j Hj Hhj. assert (j = i) as -> by congruence.
    destruct (ok_dirty _ _ _ Hc _ _ Hj He). congruence.
Qed.

(** ** Finding the entry of a block *)

Lemma unlink_perm (i : nat) l : NoDup l -> i ∈ l -> i :: unlink i l ≡ₚ l.
Proof.
  intros Hnd Hi. unfold unlink. apply NoDup_Permutation; [|done|].
  - apply NoDup_cons. split; [|by apply NoDup_filter]. intros [? _]%list_elem_of_filter. done.
  - intros j. rewrite elem_of_cons, list_elem_of_filter. destruct (decide (j = i)) as [->|Hne]; [by split; [|left]|].
    split; [intros [?|[_ ?]]; done|]. intros ?. by right.
Qed.

Lemma unlink_app_perm (i : nat) l1 l2 :
  NoDup (l1 ++ l2) -> i ∈ l1 ++ l2 -> i :: unlink i l1 ++ unlink i l2 ≡ₚ l1 ++ l2.
Proof. intros Hnd Hi. unfold unlink. rewrite <- filter_app. by apply unlink_perm. Qed.

Lemma elem_of_unlink (i j : nat) l : j ∈ unlink i l <-> j <> i /\ j ∈ l.
Proof. unfold unlink. by rewrite list_elem_of_filter. Qed.

Lemma unlink_nonempty (i : nat) l : unlink i l <> [] -> l <> [].
Proof. by intros H ->. Qed.

Lemma take_entry_ok bs bytes c i e b :
  cache_ok bs bytes c -> i ∈ m_clean_list c -> m_entries c !! i = Some e -> addressable bs bytes b ->
  m_hash c !! b = None -> cache_ok bs bytes (take_entry c i e b).
Proof.
  intros Hok Hi He Hb Hnone. assert (forall j ej, m_entries c !! j = Some ej -> j <> i -> e_block_index ej <> 0 ->
    e_block_index ej <> e_block_index e) as Hother.
  { intros j ej Hej Hj Hnz Heq. destruct (ok_entry _ _ _ Hok _ _ Hej) as (_ & _ & Hh & _).
    destruct (ok_entry _ _ _ Hok _ _ He) as (_ & _ & Hhi & _). rewrite <- Heq in Hhi.
    specialize (Hh Hnz). specialize (Hhi Hnz). congruence. }
  assert (i < length (m_entries c))%nat as Hlt by by eapply lookup_lt_Some.
  unfold take_entry, set_entry, mark_clean, set_field. split; cbn.
  - intros b' j Hj. destruct (decide (b' = b)) as [->|Hne].
    { rewrite lookup_insert_eq in Hj. injection Hj as <-. split; [done|]. eexists. split; [by apply list_lookup_insert_eq|done]. }
    rewrite lookup_insert_ne in Hj by done. apply lookup_delete_Some in Hj as [Hne' Hj].
    destruct (ok_hash _ _ _ Hok _ _ Hj) as (? & ej & Hej & Hidx). split; [done|]. exists ej. split; [|done].
    rewrite list_lookup_insert_ne; [done|]. intros ->. congruence.
  - intros j ej Hej. destruct (decide (j = i)) as [->|Hne].
    { rewrite list_lookup_insert_eq in Hej by done. injection Hej as <-. cbn.
      destruct (ok_entry _ _ _ Hok _ _ He) as (? & ? & _). split_and!; try done. intros _. by rewrite lookup_insert_eq. }
    rewrite list_lookup_insert_ne in Hej by done. destruct (ok_entry _ _ _ Hok _ _ Hej) as (? & ? & Hh & ?).
    split_and!; try done. intros Hnz. rewrite lookup_insert_ne by (intros ->; rewrite (Hh Hnz) in Hnone; done).
    rewrite lookup_delete_ne by (intros Heq; by apply (Hother j ej)). by apply Hh.
  - rewrite length_insert, <- (ok_lists _ _ _ Hok). rewrite <- (unlink_app_perm i (m_clean_list c)); [done|by eapply lists_NoDup|].
    apply elem_of_app. by left.
  - rewrite length_insert. by apply Hok.
  - intros j ej Hj Hej Hd. destruct (decide (j = i)) as [->|Hne].
    { rewrite list_lookup_insert_eq in Hej by done. by injection Hej as <-. }
    rewrite list_lookup_insert_ne in Hej by done. apply elem_of_cons in Hj as [->|Hj]; [done|].
    apply elem_of_unlink in Hj as [_ Hj]. by apply (ok_clean _ _ _ Hok j).
  - intros j ej [Hne Hj]%elem_of_unlink Hej. rewrite list_lookup_insert_ne in Hej by done. by apply (ok_dirty _ _ _ Hok j).
  - intros Hne. by apply (ok_flag _ _ _ Hok), (unlink_nonempty i).
Qed.

(** Only the block that is found is looked at below. *)
Definition found fs (b : Z) (i : nat) : Prop := m_hash (cache fs) !! b = Some i.

Lemma take_entry_spec fs i e b :
  fs_ok fs -> i ∈ m_clean_list (cache fs) -> m_entries (cache fs) !! i = Some e -> valid fs b ->
  m_hash (cache fs) !! b = None ->
  same_blocks fs (set_cache fs (take_entry (cache fs) i e b)) /\ found (set_cache fs (take_entry (cache fs) i e b)) b i.
Proof.
  intros Hok Hi He Hb Hnone. pose proof (ok_cache _ Hok) as Hc.
  assert (i < length (m_entries (cache fs)))%nat as Hlt by by eapply lookup_lt_Some.
  split; [split; [|split]|].
  - split; try apply Hok. by apply take_entry_ok.
  - done.
  - intros b' Hb'. unfold block. rewrite cache_set_cache, disk_set_cache. unfold take_entry, set_entry, mark_clean, set_field. cbn.
    destruct (decide (b' = b)) as [->|Hne].
    { rewrite Hnone, lookup_insert_eq, list_lookup_insert_eq by done. done. }
    rewrite lookup_insert_ne by done. destruct (decide (e_block_index e = b')) as [<-|Hne'].
    + rewrite lookup_delete_eq. destruct (m_hash (cache fs) !! e_block_index e) as [j|] eqn:Hj; [|done].
      assert (j = i) as ->.
      { destruct (ok_entry _ _ _ Hc _ _ He) as (_ & _ & Hh & _). assert (e_block_index e <> 0) as Hnz by (destruct Hb'; lia).
        specialize (Hh Hnz). congruence. }
      rewrite He. destruct (e_has_data e) eqn:Hd; [|done]. symmetry. by apply (ok_clean _ _ _ Hc i).
    + rewrite lookup_delete_ne by done. destruct (m_hash (cache fs) !! b') as [j|] eqn:Hj; [|done].
      destruct (ok_hash _ _ _ Hc _ _ Hj) as (_ & ej & Hej & Hidx).
      by rewrite list_lookup_insert_ne by (intros ->; congruence).
  - unfold found. rewrite cache_set_cache. cbn. apply lookup_insert_eq.
Qed.

Lemma cache_get_hit fuel fs b i :
  fs_ok fs -> found fs b i ->
  exists fs', DiskCache_get (S fuel) fs b = Ret (i, fs') /\ same_blocks fs fs' /\ found fs' b i.
Proof.
  intros Hok Hf. cbn [DiskCache_get]. unfold found in Hf. rewrite Hf.
  destruct (ok_hash _ _ _ (ok_cache _ Hok) _ _ Hf) as (_ & e & He & Hidx). unfold cache_entry. rewrite He. run.
  rewrite VERIFY_true by lia. run. eexists. split; [done|]. split; [|done].
  split; [|done]. by split; try apply Hok.
Qed.

Lemma cache_get_clean fuel fs b :
  fs_ok fs -> valid fs b -> m_clean_list (cache fs) <> [] ->
  exists i fs', DiskCache_get (S fuel) fs b = Ret (i, fs') /\ same_blocks fs fs' /\ found fs' b i.
Proof.
  intros Hok Hb Hne. destruct (m_hash (cache fs) !! b) as [i|] eqn:Hh; [exists i; by apply cache_get_hit|].
  cbn [DiskCache_get]. rewrite Hh. destruct (last (m_clean_list (cache fs))) as [i|] eqn:Hl; [|by apply last_None in Hl].
  assert (i ∈ m_clean_list (cache fs)) as Hi by by apply last_Some_elem_of.
  destruct (listed_entry _ _ _ i (ok_cache _ Hok)) as [e He]; [apply elem_of_app; by left|].
  unfold cache_entry. rewrite He. run. eexists _, _. split; [done|]. by apply take_entry_spec.
Qed.

Lemma cache_get_spec fs b :
  fs_ok fs -> valid fs b -> exists i fs', cache_get fs b = Ret (i, fs') /\ same_blocks fs fs' /\ found fs' b i.
Proof using Type*.
  intros Hok Hb. unfold cache_get. destruct (m_clean_list (cache fs)) as [|j l] eqn:E; [|apply cache_get_clean; [done..|by rewrite E]].
  destruct (m_hash (cache fs) !! b) as [i|] eqn:Hh; [exists i; by apply cache_get_hit|].
  change (DiskCache_get 2 fs b) with (match m_hash (cache fs) !! b with
    | Some i => e ← cache_entry (cache fs) i; VERIFY (e_block_index e =? b) ;; Ret (i, set_cache fs (cache fs))
    | None => match last (m_clean_list (cache fs)) with
      | None => fs ← flush_writes_impl fs; DiskCache_get 1 fs b
      | Some i => e ← cache_entry (cache fs) i; Ret (i, set_cache fs (take_entry (cache fs) i e b)) end end).
  rewrite Hh, E. destruct (flush_spec fs Hok) as (fs1 & -> & Hsame & Hd). run.
  destruct Hsame as (Hok1 & Hs1 & Hb1).
  destruct (cache_get_clean 0 fs1 b) as (i & fs' & -> & Hsame & Hf); [done|by apply (valid_same fs)|..].
  { intros Hnil. pose proof (ok_lists _ _ _ (ok_cache _ Hok1)) as Hp. rewrite Hnil, Hd in Hp. cbn in Hp.
    apply Permutation_length in Hp. rewrite length_seq in Hp. pose proof (ok_count _ _ _ (ok_cache _ Hok1)). cbn in Hp. lia. }
  exists i, fs'. split; [done|]. split; [|done]. by apply (same_blocks_trans fs fs1 fs').
Qed.

(** ** Reading and writing *)

Lemma insert_cases {A} (l : list A) i x j y :
  <[i := x]> l !! j = Some y -> j = i /\ y = x \/ j <> i /\ l !! j = Some y.
Proof.
  intros Hy. destruct (decide (j = i)) as [->|Hne].
  - pose proof (lookup_lt_Some _ _ _ Hy) as Hlt. rewrite length_insert in Hlt.
    rewrite list_lookup_insert_eq in Hy by done. injection Hy as <-. by left.
  - rewrite list_lookup_insert_ne in Hy by done. by right.
Qed.

Lemma set_entry_ok bs bytes c i e e' :
  cache_ok bs bytes c -> m_entries c !! i = Some e -> e_block_index e' = e_block_index e ->
  length (e_data e') = Z.to_nat bs -> is_bytes (e_data e') -> (e_has_data e' = true -> e_block_index e <> 0) ->
  (i ∈ m_clean_list c -> e_has_data e' = true -> e_data e' = disk_block bs bytes (e_block_index e)) ->
  (i ∈ m_dirty_list c -> e_has_data e' = true) ->
  cache_ok bs bytes (set_entry c i e').
Proof.
  intros Hok He Hidx Hlen Hby Hnz Hclean Hdirty.
  assert (i < length (m_entries c))%nat as Hlt by by eapply lookup_lt_Some.
  pose proof (insert_cases (m_entries c) i e') as Hcase.
  unfold set_entry, set_field. split; cbn.
  - intros b j Hj. destruct (ok_hash _ _ _ Hok _ _ Hj) as (? & ej & Hej & ?). split; [done|].
    destruct (decide (j = i)) as [->|Hne]; [exists e'|exists ej].
    + rewrite list_lookup_insert_eq by done. split; [done|]. congruence.
    + by rewrite list_lookup_insert_ne by done.
  - intros j ej [[-> ->]|[_ Hej]]%Hcase; [|by apply Hok]. rewrite Hidx. split_and!; try done. by apply (ok_entry _ _ _ Hok).
  - rewrite length_insert. by apply Hok.
  - rewrite length_insert. by apply Hok.
  - intros j ej Hj [[-> ->]|[_ Hej]]%Hcase; [rewrite Hidx; by apply Hclean|by apply (ok_clean _ _ _ Hok j)].
  - intros j ej Hj [[-> ->]|[_ Hej]]%Hcase; [|by apply (ok_dirty _ _ _ Hok j)]. rewrite Hidx. auto.
  - by apply Hok.
Qed.

Lemma mark_dirty_entry_ok bs bytes c i e e' :
  cache_ok bs bytes c -> m_entries c !! i = Some e -> e_block_index e' = e_block_index e -> e_block_index e <> 0 ->
  length (e_data e') = Z.to_nat bs -> is_bytes (e_data e') -> e_has_data e' = true ->
  cache_ok bs bytes (set_entry (mark_dirty c i) i e').
Proof.
  intros Hok He Hidx Hnz Hlen Hby Hd.
  assert (i < length (m_entries c))%nat as Hlt by by eapply lookup_lt_Some.
  destruct Hok as [H1 H2 H3 H4 H5 H6 H7].
  pose proof (insert_cases (m_entries c) i e') as Hcase.
  unfold set_entry, mark_dirty, set_field. split; cbn.
  - intros b j Hj. destruct (H1 _ _ Hj) as (? & ej & Hej & ?). split; [done|].
    destruct (decide (j = i)) as [->|Hne]; [exists e'|exists ej].
    + rewrite list_lookup_insert_eq by done. split; [done|]. congruence.
    + by rewrite list_lookup_insert_ne by done.
  - intros j ej [[-> ->]|[_ Hej]]%Hcase; [|by apply H2]. rewrite Hidx. split_and!; try done. by apply H2.
  - rewrite length_insert, <- H3. rewrite <- (unlink_app_perm i (m_clean_list c)).
    + by rewrite Permutation_middle.
    + rewrite H3. apply NoDup_seq.
    + rewrite H3. apply elem_of_seq. lia.
  - by rewrite length_insert.
  - intros j ej [Hne Hj]%elem_of_unlink [[-> ->]|[_ Hej]]%Hcase; [done|by apply (H5 j)].
  - intros j ej Hj [[-> ->]|[Hne Hej]]%Hcase; [by rewrite Hidx|].
    apply elem_of_cons in Hj as [->|[_ Hj]%elem_of_unlink]; [done|by apply (H6 j)].
  - done.
Qed.

Lemma set_entry_twice c i e1 e2 : set_entry (set_entry c i e1) i e2 = set_entry c i e2.
Proof. unfold set_entry, set_field. cbn. by rewrite list_insert_insert_eq. Qed.

Lemma found_entry fs b i :
  fs_ok fs -> found fs b i ->
  exists e, m_entries (cache fs) !! i = Some e /\ e_block_index e = b /\ 0 < b /\
    length (e_data e) = Z.to_nat (m_block_size fs) /\ is_bytes (e_data e) /\
    block fs b = (if e_has_data e then e_data e else disk_block (m_block_size fs) (disk fs) b).
Proof.
  intros Hok Hf. destruct (ok_hash _ _ _ (ok_cache _ Hok) _ _ Hf) as ((? & _) & e & He & Hidx).
  destruct (ok_entry _ _ _ (ok_cache _ Hok) _ _ He) as (? & ? & _).
  exists e. split_and!; try done. unfold block. unfold found in Hf. by rewrite Hf, He.
Qed.

(** The entry of a block gets the contents of the block. *)
Lemma fill_entry_spec fs b i e :
  fs_ok fs -> valid fs b -> found fs b i -> m_entries (cache fs) !! i = Some e -> e_has_data e = false ->
  exists fs' e', fill_entry fs b i e = Ret (KSuccess, fs') /\ same_blocks fs fs' /\ found fs' b i /\
    m_entries (cache fs') !! i = Some e' /\ e_has_data e' = true.
Proof using Type*.
  intros Hok Hv Hf He Hd. pose proof Hv as (H0 & Hl & H32). pose proof (ok_block_size _ Hok) as Hbs.
  destruct (found_entry _ _ _ Hok Hf) as (e0 & He0 & Hidx & _ & Hlen & _ & _). assert (e0 = e) as -> by congruence.
  assert (i < length (m_entries (cache fs)))%nat as Hlt by by eapply lookup_lt_Some.
  pose proof (ok_disk_size _ Hok) as H62.
  unfold fill_entry. rewrite (wrap_id i64 eq_refl) by int_lia. rewrite seek_spec by lia.
  rewrite (proj2 (Z.ltb_ge _ _)) by lia.
  destruct (description_read_spec (m_file (m_file_description fs)) (b * m_block_size fs) (for_kernel_buffer (e_data e)) (m_block_size fs))
    as (d & Hd1 & Hd2); [unfold disk in *; try lia; try done..|]. unfold set_field in *. cbn in Hd1 |- *. rewrite Hd1.
  assert (length (slice (file_bytes (m_file (m_file_description fs))) (b * m_block_size fs) (m_block_size fs)) = Z.to_nat (m_block_size fs)) as Hls
    by (apply disk_block_length; [lia|done]).
  rewrite copy_to_splice by lia. rewrite splice_all by lia. run.
  rewrite (proj2 (Z.ltb_ge _ _)) by lia. rewrite VERIFY_true by lia. run.
  match goal with |- context [Ret (KSuccess, set_cache ?f _)] => set (fs1 := f) end.
  eexists _, _. split; [done|]. rewrite cache_set_cache.
  change (cache fs1) with (set_entry (cache fs) i (MkEntry (e_block_index e)
    (disk_block (m_block_size fs) (disk fs) b) (e_has_data e))). rewrite set_entry_twice.
  assert (disk fs1 = disk fs) as Hdisk by exact Hd2. unfold found. rewrite cache_set_cache.
  split; [split; [|split]|split_and!].
  - split; rewrite ?disk_set_cache, ?Hdisk; try apply Hok. rewrite cache_set_cache. cbn.
    apply (set_entry_ok _ _ _ _ e); try done; [apply Hok|by apply Forall_slice, ok_disk|lia|]. by rewrite Hidx.
  - split; try done. by rewrite disk_set_cache, Hdisk.
  - intros b' Hb'. unfold block. rewrite cache_set_cache, disk_set_cache, Hdisk. cbn.
    change (cache (MkFS d _ _ _)) with (cache fs). destruct (m_hash (cache fs) !! b') as [j|] eqn:Hj; [|done]. destruct (decide (j = i)) as [->|Hne].
    + rewrite list_lookup_insert_eq, He, Hd by done. cbn. destruct (ok_hash _ _ _ (ok_cache _ Hok) _ _ Hj) as (_ & ej & Hej & <-).
      assert (ej = e) as -> by congruence. by rewrite Hidx.
    + by rewrite list_lookup_insert_ne by done.
  - done.
  - by apply list_lookup_insert_eq.
  - done.
Qed.

Lemma cache_entry_lookup c i e : m_entries c !! i = Some e -> cache_entry c i = Ret e.
Proof. unfold cache_entry. by intros ->. Qed.

(** What a read returns for the bytes of a block. *)
Definition read_result (buffer : option UserBuffer) (bytes : list Z) : Z * list Z :=
  match buffer with
  | None => (KSuccess, [])
  | Some u =>
      let '(copied, ok) := user_copy u (length bytes) in
      (if ok then KSuccess else - EFAULT, take copied bytes)
  end.

Lemma same_blocks_block_size fs fs' : same_blocks fs fs' -> m_block_size fs' = m_block_size fs.
Proof. by intros (_ & [] & _). Qed.

Lemma cache_get_found fs b j :
  fs_ok fs -> valid fs b -> found fs b j -> exists fs', cache_get fs b = Ret (j, fs') /\ same_blocks fs fs' /\ found fs' b j.
Proof. intros. by apply cache_get_hit. Qed.

Lemma fill_if_needed_spec fs b i e :
  fs_ok fs -> valid fs b -> found fs b i -> m_entries (cache fs) !! i = Some e ->
  exists fs' e', (if negb (e_has_data e) then fill_entry fs b i e else Ret (KSuccess, fs)) = Ret (KSuccess, fs') /\
    same_blocks fs fs' /\ found fs' b i /\ m_entries (cache fs') !! i = Some e' /\ e_has_data e' = true.
Proof using Type*.
  intros Hok Hv Hf He. destruct (e_has_data e) eqn:Hd; cbn [negb]; [|by apply fill_entry_spec].
  exists fs, e. split; [done|]. split; [by apply same_blocks_refl|done].
Qed.

Lemma read_block_entry fs b buffer count offset :
  fs_ok fs -> valid fs b -> 0 <= offset -> 0 <= count -> offset + count <= m_block_size fs ->
  exists i fs' e, read_block fs b buffer count offset true =
    Ret (read_result buffer (slice (block fs b) offset count), fs') /\ same_blocks fs fs' /\
    found fs' b i /\ m_entries (cache fs') !! i = Some e /\ e_has_data e = true /\ (forall j, found fs b j -> j = i).
Proof using Type*.
  intros Hok Hv Ho Hc Hoc. pose proof (ok_block_size _ Hok) as Hbs. unfold read_block.
  rewrite (VERIFY_true (negb _)) by (pose proof (ok_logical _ Hok); lia). run.
  unfold size_t. rewrite (wrap_id u32 eq_refl) by int_lia. rewrite VERIFY_true by lia. run. cbn [negb].
  assert (exists i fs1, cache_get fs b = Ret (i, fs1) /\ same_blocks fs fs1 /\ found fs1 b i /\ (forall j, found fs b j -> j = i))
    as (i & fs1 & -> & Hs1 & Hf1 & Hj).
  { destruct (m_hash (cache fs) !! b) as [i|] eqn:Hh.
    - destruct (cache_get_found fs b i) as (fs1 & ? & ? & ?); [done..|]. exists i, fs1. split_and!; try done.
      intros j Hj. unfold found in Hj. congruence.
    - destruct (cache_get_spec fs b) as (i & fs1 & ? & ? & ?); [done..|]. exists i, fs1. split_and!; try done.
      intros j Hj. unfold found in Hj. congruence. }
  run. assert (fs_ok fs1) as Hok1 by apply Hs1. assert (valid fs1 b) as Hv1 by by apply (valid_same fs), Hv; apply Hs1.
  destruct (found_entry _ _ _ Hok1 Hf1) as (e & He & _). rewrite (cache_entry_lookup _ _ _ He). run.
  destruct (fill_if_needed_spec _ _ _ _ Hok1 Hv1 Hf1 He) as (fs2 & e2 & -> & Hs2 & Hf2 & He2 & Hd2). run.
  rewrite (proj2 (Z.ltb_ge KSuccess 0)) by (unfold KSuccess; lia).
  pose proof (same_blocks_trans _ _ _ Hs1 Hs2) as Hs. exists i, fs2, e2.
  split; [|done]. destruct buffer as [u|]; [|done]. rewrite (cache_entry_lookup _ _ _ He2). run.
  destruct (found_entry fs2 b i) as (e' & He' & _ & _ & Hlen & _ & Hb); [apply Hs|done|].
  assert (e' = e2) as -> by congruence. rewrite Hd2 in Hb.
  assert (block fs b = e_data e2) as ->.
  { rewrite <- Hb. symmetry. by apply Hs. }
  rewrite (same_blocks_block_size _ _ Hs) in Hlen. rewrite copy_from_slice by lia. run. unfold read_result.
  rewrite slice_length by lia. by destruct (user_copy u (Z.to_nat count)).
Qed.

Lemma read_block_spec fs b buffer count offset :
  fs_ok fs -> valid fs b -> 0 <= offset -> 0 <= count -> offset + count <= m_block_size fs ->
  exists fs', read_block fs b buffer count offset true =
    Ret (read_result buffer (slice (block fs b) offset count), fs') /\ same_blocks fs fs'.
Proof using Type*. intros. destruct (read_block_entry fs b buffer count offset) as (i & fs' & e & ? & ? & _); [done..|]. by exists fs'. Qed.

(** Writing changes one block. *)
Definition block_written fs fs' (b : Z) (bytes : list Z) : Prop :=
  fs_ok fs' /\ same_shape fs fs' /\ block fs' b = bytes /\ forall b', valid fs b' -> b' <> b -> block fs' b' = block fs b'.

Lemma write_block_spec fs b data count offset :
  fs_ok fs -> valid fs b -> 0 <= offset -> 0 <= count -> offset + count <= m_block_size fs ->
  u_fault data (Z.to_nat count) = None -> (Z.to_nat count <= length (u_bytes data))%nat -> is_bytes (u_bytes data) ->
  exists fs', write_block fs b data count offset true = Ret (KSuccess, fs') /\
    block_written fs fs' b (splice (block fs b) offset (take (Z.to_nat count) (u_bytes data))).
Proof using Type*.
  intros Hok Hv Ho Hc Hoc Hu Hul Hub. pose proof (ok_block_size _ Hok) as Hbs. unfold write_block.
  rewrite (VERIFY_true (negb _)) by (pose proof (ok_logical _ Hok); lia). run.
  unfold size_t. rewrite (wrap_id u32 eq_refl) by int_lia. rewrite VERIFY_true by lia. run. cbn [negb].
  destruct (cache_get_spec fs b Hok Hv) as (i & fs1 & -> & Hs1 & Hf1). run.
  rewrite (same_blocks_block_size _ _ Hs1).
  assert (fs_ok fs1) as Hok1 by apply Hs1. assert (valid fs1 b) as Hv1 by by apply (valid_same fs), Hv; apply Hs1.
  assert (exists fs2 e, (if count <? m_block_size fs then '(result, _, fs) ← read_block fs1 b None (m_block_size fs) 0 true; Ret (result, fs)
           else Ret (KSuccess, fs1)) = Ret (KSuccess, fs2) /\ same_blocks fs fs2 /\ found fs2 b i /\
           m_entries (cache fs2) !! i = Some e /\ (count < m_block_size fs -> e_has_data e = true))
    as (fs2 & e & -> & Hs2 & Hf2 & He & Hd).
  { destruct (Z.ltb_spec count (m_block_size fs)).
    - destruct (read_block_entry fs1 b None (m_block_size fs) 0) as (j & fs2 & e & -> & Hs2 & Hf2 & He & Hd & Hj);
        rewrite ?(same_blocks_block_size _ _ Hs1); [done|done|lia..|]. rewrite <- (Hj i Hf1) in *. exists fs2, e.
      split; [done|]. split; [by eapply same_blocks_trans|done].
    - destruct (found_entry _ _ _ Hok1 Hf1) as (e & He & _). exists fs1, e. split_and!; try done; try lia; apply Hs1. }
  run. rewrite (proj2 (Z.ltb_ge KSuccess 0)) by (unfold KSuccess; lia). rewrite (cache_entry_lookup _ _ _ He). run.
  unfold user_copy. rewrite Hu. assert (fs_ok fs2) as Hok2 by apply Hs2.
  destruct (found_entry _ _ _ Hok2 Hf2) as (e' & He' & Hidx & Hnz & Hlen & Hby & Hb). assert (e' = e) as -> by congruence.
  rewrite (same_blocks_block_size _ _ Hs2) in Hlen. set (bytes := take (Z.to_nat count) (u_bytes data)) in *.
  assert (length bytes = Z.to_nat count) as Hlb by (subst bytes; rewrite length_take; lia).
  rewrite copy_to_splice by lia. run. cbn [negb]. rewrite cache_set_cache.
  assert (splice (e_data e) offset bytes = splice (block fs b) offset bytes) as Hsp.
  { destruct (Z.ltb_spec count (m_block_size fs)).
    - rewrite Hd in Hb by done. f_equal. rewrite <- Hb. by apply Hs2.
    - assert (offset = 0) as -> by lia. destruct (block_ok fs b Hok Hv) as [Hlbk _]. rewrite !splice_all by lia. done. }
  assert (i < length (m_entries (cache fs2)))%nat as Hlt by by eapply lookup_lt_Some.
  eexists. split; [done|].
  assert (forall e1 e2, set_entry (mark_dirty (set_entry (cache fs2) i e1) i) i e2 = set_entry (mark_dirty (cache fs2) i) i e2) as ->.
  { intros. unfold set_entry, mark_dirty, set_field. cbn. by rewrite list_insert_insert_eq. }
  destruct Hs2 as (_ & Hsh2 & Hbl2). split; [|split; [|split]].
  - split; try apply Hok2. rewrite cache_set_cache. cbn. apply (mark_dirty_entry_ok _ _ _ _ e); try done; try lia; [apply Hok2|..]; cbn.
    + rewrite splice_length by lia. by rewrite (same_block_size _ _ Hsh2).
    + apply Forall_splice; [done|]. by apply Forall_take.
  - destruct Hsh2. by split.
  - unfold block. rewrite cache_set_cache. cbn. unfold found in Hf2. rewrite Hf2, list_lookup_insert_eq by done. cbn. by rewrite Hsp.
  - intros b' Hb' Hne. rewrite <- Hbl2 by done. unfold block. rewrite cache_set_cache. cbn.
    destruct (m_hash (cache fs2) !! b') as [j|] eqn:Hj; [|done]. rewrite list_lookup_insert_ne; [done|].
    intros ->. destruct (ok_hash _ _ _ (ok_cache _ Hok2) _ _ Hj) as (_ & ej & Hej & ?). congruence.
Qed.

(** ** An array of blocks *)

(** Flushing brings the disk in agreement with the blocks. *)
Lemma flush_writes_spec fs :
  fs_ok fs -> exists fs', flush_writes fs = Ret fs' /\ same_blocks fs fs' /\
    forall b, valid fs b -> disk_block (m_block_size fs) (disk fs') b = block fs b.
Proof using Type*.
  intros Hok. destruct (flush_spec fs Hok) as (fs' & Heq & Hs & Hd). exists fs'. split; [done|]. split; [done|].
  intros b Hb. destruct Hs as (Hok' & Hsh & Hbl). rewrite <- Hbl by done. rewrite <- (same_block_size _ _ Hsh).
  unfold block. destruct (m_hash (cache fs') !! b) as [i|] eqn:Hh; [|done].
  destruct (found_entry fs' b i Hok' Hh) as (e & He & Hidx & _). rewrite He. destruct (e_has_data e) eqn:Hdata; [|done].
  rewrite <- Hidx. symmetry. apply (ok_clean _ _ _ (ok_cache _ Hok') i); try done.
  destruct (decide (i ∈ m_clean_list (cache fs'))) as [|Hn]; [done|]. exfalso.
  pose proof (ok_lists _ _ _ (ok_cache _ Hok')) as Hp. rewrite Hd, app_nil_r in Hp. apply Hn. rewrite Hp.
  apply elem_of_seq. pose proof (lookup_lt_Some _ _ _ He). lia.
Qed.

Inductive access : Type :=
  | Read (b count offset : Z)
  | Write (b offset : Z) (bytes : list Z)
  | Flush.

Definition access_ok fs (a : access) : Prop :=
  match a with
  | Read b count offset => valid fs b /\ 0 <= offset /\ 0 <= count /\ offset + count <= m_block_size fs
  | Write b offset bytes => valid fs b /\ 0 <= offset /\ offset + Z.of_nat (length bytes) <= m_block_size fs /\ is_bytes bytes
  | Flush => True
  end.

(** An access to the file system; the bytes are those read. *)
Definition run_access fs (a : access) : outcome (Z * list Z * BlockBasedFS F) :=
  match a with
  | Read b count offset => read_block fs b (Some (for_kernel_buffer [])) count offset true
  | Write b offset bytes =>
      '(result, fs) ← write_block fs b (for_kernel_buffer bytes) (Z.of_nat (length bytes)) offset true;
      Ret (result, [], fs)
  | Flush => fs ← flush_writes fs; Ret (KSuccess, [], fs)
  end.

Fixpoint run_accesses fs (l : list access) : outcome (list (Z * list Z) * BlockBasedFS F) :=
  match l with
  | [] => Ret ([], fs)
  | a :: l =>
      '(r, bytes, fs) ← run_access fs a;
      '(rest, fs) ← run_accesses fs l;
      Ret ((r, bytes) :: rest, fs)
  end.

(** The same access to an array of blocks. *)
Definition array_access (blocks : Z -> list Z) (a : access) : list Z * (Z -> list Z) :=
  match a with
  | Read b count offset => (slice (blocks b) offset count, blocks)
  | Write b offset bytes => ([], fun b' => if b' =? b then splice (blocks b) offset bytes else blocks b')
  | Flush => ([], blocks)
  end.

Fixpoint array_accesses (blocks : Z -> list Z) (l : list access) : list (Z * list Z) * (Z -> list Z) :=
  match l with
  | [] => ([], blocks)
  | a :: l =>
      let '(bytes, blocks) := array_access blocks a in
      let '(rest, blocks) := array_accesses blocks l in
      ((KSuccess, bytes) :: rest, blocks)
  end.

Definition agrees fs (blocks : Z -> list Z) : Prop := fs_ok fs /\ forall b, valid fs b -> block fs b = blocks b.

Lemma run_access_spec fs blocks a :
  agrees fs blocks -> access_ok fs a ->
  exists fs', run_access fs a = Ret (KSuccess, fst (array_access blocks a), fs') /\ same_shape fs fs' /\
    agrees fs' (snd (array_access blocks a)).
Proof using Type*.
  intros [Hok Hag] Ha. destruct a as [b count offset|b offset bytes|]; cbn.
  - destruct Ha as (Hv & ? & ? & ?). destruct (read_block_spec fs b (Some (for_kernel_buffer [])) count offset) as (fs' & -> & Hs); [done..|].
    destruct Hs as (? & Hsh & Hbl). exists fs'. rewrite <- Hag by done. cbn. rewrite firstn_all. split; [done|]. split; [done|].
    split; [done|]. intros b' Hb'. rewrite (valid_same fs) in Hb' by done. rewrite Hbl by done. by apply Hag.
  - destruct Ha as (Hv & ? & ? & ?).
    destruct (write_block_spec fs b (for_kernel_buffer bytes) (Z.of_nat (length bytes)) offset) as (fs' & -> & Hw); try done; [lia|cbn; lia|].
    run. destruct Hw as (? & Hsh & Hb & Hrest). exists fs'. split; [done|]. split; [done|]. split; [done|].
    intros b' Hb'. rewrite (valid_same fs) in Hb' by done. destruct (Z.eqb_spec b' b) as [->|Hne].
    + rewrite Hb, Hag by done. cbn. by rewrite Nat2Z.id, firstn_all.
    + rewrite Hrest by done. by apply Hag.
  - destruct (flush_writes_spec fs Hok) as (fs' & -> & (? & Hsh & Hbl) & _). run. exists fs'. split; [done|]. split; [done|].
    split; [done|]. intros b' Hb'. rewrite (valid_same fs) in Hb' by done. rewrite Hbl by done. by apply Hag.
Qed.

Lemma access_ok_same fs fs' a : same_shape fs fs' -> access_ok fs a -> access_ok fs' a.
Proof. intros Hs. destruct a; cbn; [| |done]; intros (Hv & ?); rewrite (valid_same fs fs'), (same_block_size _ _ Hs) by done; done. Qed.

Lemma run_accesses_spec l fs blocks :
  agrees fs blocks -> Forall (access_ok fs) l ->
  exists fs', run_accesses fs l = Ret (fst (array_accesses blocks l), fs') /\ same_shape fs fs' /\
    agrees fs' (snd (array_accesses blocks l)).
Proof using Type*.
  revert fs blocks. induction l as [|a l IH]; intros fs blocks Hag Hl; [by exists fs|].
  apply Forall_cons in Hl as [Ha Hl]. cbn. destruct (run_access_spec fs blocks a Hag Ha) as (fs1 & -> & Hs1 & Hag1). run.
  destruct (array_access blocks a) as [bytes blocks1]. cbn in *.
  destruct (IH fs1 blocks1) as (fs' & -> & Hs & Hag'); [done|by eapply Forall_impl; [|intros; by eapply access_ok_same]|]. run.
  destruct (array_accesses blocks1 l) as [rest blocks2]. exists fs'. split; [done|]. split; [by etransitivity|done].
Qed.

(** C11. Through the cache a file system is an array of blocks: any sequence of reads, writes
    and flushes of parts of blocks returns, without failing, what the array returns, whatever
    the cache had to evict or write back in between; and after a final flush the disk itself
    has the blocks of the array. *)
Theorem BlockBasedFS_refines_blocks fs l :
  fs_ok fs -> Forall (access_ok fs) l ->
  exists fs' fs'', run_accesses fs l = Ret (fst (array_accesses (block fs) l), fs') /\
    flush_writes fs' = Ret fs'' /\
    forall b, valid fs b ->
      disk_block (m_block_size fs) (disk fs'') b = snd (array_accesses (block fs) l) b.
Proof using Type*.
  intros Hok Hl. destruct (run_accesses_spec l fs (block fs)) as (fs' & -> & Hs & Hok' & Hag); [by split|done|].
  destruct (flush_writes_spec fs' Hok') as (fs'' & Heq & _ & Hd). exists fs', fs''. split; [done|]. split; [done|].
  intros b Hb. assert (valid fs' b) as Hb' by by apply (valid_same fs). rewrite <- (same_block_size _ _ Hs), Hd by done.
  by apply Hag.
Qed.

End laws.

(** ** What file systems use

    [BlockStore] are the operations that a file system inherits from [BlockBasedFS], and
    [BlockStoreLaws] what it may rely on. *)

Class BlockStore (S : Type) : Type := {
  store_block_size : S -> Z;
  store_read_block : S -> Z -> option UserBuffer -> Z -> Z -> bool -> outcome (Z * list Z * S);
  store_write_block : S -> Z -> UserBuffer -> Z -> Z -> bool -> outcome (Z * S)
}.

Class BlockStoreLaws (S : Type) `{!BlockStore S} : Type := {
  store_ok : S -> Prop;
  store_valid : S -> Z -> Prop;
  contents : S -> Z -> list Z;
  store_block_size_ok s : store_ok s -> 0 < store_block_size s < 2 ^ 31;
  contents_ok s b : store_ok s -> store_valid s b ->
    length (contents s b) = Z.to_nat (store_block_size s) /\ is_bytes (contents s b);
  store_read_law s b buffer count offset :
    store_ok s -> store_valid s b -> 0 <= offset -> 0 <= count -> offset + count <= store_block_size s ->
    exists s', store_read_block s b buffer count offset true =
        Ret (read_result buffer (slice (contents s b) offset count), s') /\
      store_ok s' /\ store_block_size s' = store_block_size s /\ (forall b, store_valid s' b <-> store_valid s b) /\
      (forall b, store_valid s b -> contents s' b = contents s b);
  store_write_law s b data count offset :
    store_ok s -> store_valid s b -> 0 <= offset -> 0 <= count -> offset + count <= store_block_size s ->
    u_fault data (Z.to_nat count) = None -> (Z.to_nat count <= length (u_bytes data))%nat -> is_bytes (u_bytes data) ->
    exists s', store_write_block s b data count offset true = Ret (KSuccess, s') /\
      store_ok s' /\ store_block_size s' = store_block_size s /\ (forall b, store_valid s' b <-> store_valid s b) /\
      contents s' b = splice (contents s b) offset (take (Z.to_nat count) (u_bytes data)) /\
      (forall b', store_valid s b' -> b' <> b -> contents s' b' = contents s b')
}.

Section block_store.
Context {F : Type} `{!SeekableFile F} `{!SeekableFileLaws F}.

#[global] Instance BlockBasedFS_store : BlockStore (BlockBasedFS F) := {
  store_block_size := m_block_size;
  store_read_block := read_block;
  store_write_block := write_block
}.

#[global] Program Instance BlockBasedFS_store_laws : BlockStoreLaws (BlockBasedFS F) := {
  store_ok := fs_ok;
  store_valid := valid;
  contents := block
}.
Next Obligation. intros s Hok. apply Hok. Qed.
Next Obligation. intros s b Hok Hv. by apply block_ok. Qed.
Next Obligation.
  intros s b buffer count offset Hok Hv H1 H2 H3. destruct (read_block_spec s b buffer count offset) as (s' & ? & Hok' & Hsh & Hb); [done..|].
  exists s'. split; [done|]. split; [done|]. split; [apply Hsh|]. split; [|done]. intros. by apply valid_same.
Qed.
Next Obligation.
  intros s b data count offset Hok Hv H1 H2 H3 H4 H5 H6.
  destruct (write_block_spec s b data count offset) as (s' & ? & Hok' & Hsh & Hb & Hr); [done..|].
  exists s'. split; [done|]. split; [done|]. split; [apply Hsh|]. split; [|done]. intros. by apply valid_same.
Qed.
End block_store.

(** ** A file in memory *)

#[global] Instance memory_file : SeekableFile (list Z) := {
  is_seekable _ := true;
  File_read f offset u n := (n, slice f offset n, f);
  File_write f offset u n := (n, splice f offset (take (Z.to_nat n) (u_bytes u)))
}.

#[global] Program Instance memory_file_laws : SeekableFileLaws (list Z) := { file_bytes f := f }.
Next Obligation. done. Qed.
Next Obligation. intros. by eexists. Qed.
Next Obligation. intros. by eexists. Qed.

(** Four blocks of four bytes. *)
Definition sample_fs : BlockBasedFS (list Z) := MkFS (MkDescription (seqZ 0 16) 0) 4 512 None.

Lemma sample_fs_ok : fs_ok sample_fs.
Proof.
  split.
  - cbn. lia.
  - done.
  - apply Forall_forall. intros x Hx%elem_of_seqZ. int_lia.
  - done.
  - apply DiskCache_new_ok; [unfold m_entry_count|cbn]; lia.
Qed.

Definition sample_accesses : list access := [Write 2 1 [100; 101]; Read 2 4 0; Flush; Read 3 2 1].

Lemma sample_valid b : 1 <= b <= 3 -> valid sample_fs b.
Proof. intros Hb. unfold valid, addressable. change (length (disk sample_fs)) with 16%nat. cbn [m_block_size sample_fs]. lia. Qed.

Lemma sample_accesses_ok : Forall (access_ok sample_fs) sample_accesses.
Proof.
  repeat apply Forall_cons_2; cbn [access_ok]; try split_and!; try done; try (apply sample_valid; lia); try (cbn; lia); try apply Forall_nil_2.
  repeat apply Forall_cons_2; [int_lia..|]. apply Forall_nil_2.
Qed.

Lemma BlockBasedFS_refines_blocks_witness :
  array_accesses (block sample_fs) sample_accesses =
    ([(0, []); (0, [8; 100; 101; 11]); (0, []); (0, [13; 14])], snd (array_accesses (block sample_fs) sample_accesses)) /\
  exists fs' fs'', run_accesses sample_fs sample_accesses =
      Ret (fst (array_accesses (block sample_fs) sample_accesses), fs') /\
    flush_writes fs' = Ret fs'' /\
    forall b, valid sample_fs b ->
      disk_block (m_block_size sample_fs) (disk fs'') b = snd (array_accesses (block sample_fs) sample_accesses) b.
Proof.
  split; [by vm_compute|]. apply (BlockBasedFS_refines_blocks sample_fs sample_accesses); [exact sample_fs_ok|].
  exact sample_accesses_ok.
Defined.

(** ** Where the cache departs from its intention *)

Definition result_bytes {F} (r : outcome (Z * list Z * BlockBasedFS F)) : outcome (list Z) :=
  '(_, bytes, _) ← r; Ret bytes.

(** The sample with a cache of four entries, which are enough for the examples. *)
Definition small_fs : BlockBasedFS (list Z) := sample_fs <| m_cache := Some (DiskCache_new 4 4) |>.

(** [flush_specific_block_if_needed] writes back every block but the one it is asked for: a
    direct read does not see what was written through the cache before. *)
Lemma direct_read_is_stale :
  result_bytes ('(_, fs) ← write_block small_fs 2 (for_kernel_buffer [1; 2; 3; 4]) 4 0 true;
                read_block fs 2 (Some (for_kernel_buffer [])) 4 0 false) = Ret [8; 9; 10; 11] /\
  block small_fs 2 = [8; 9; 10; 11].
Proof. by vm_compute. Qed.

(** A direct write does not reach the copy in the cache: later reads through the cache miss it. *)
Lemma direct_write_is_missed :
  result_bytes ('(_, _, fs) ← read_block small_fs 2 (Some (for_kernel_buffer [])) 4 0 true;
                '(_, fs) ← write_block fs 2 (for_kernel_buffer [1; 2; 3; 4]) 4 0 false;
                read_block fs 2 (Some (for_kernel_buffer [])) 4 0 true) = Ret [8; 9; 10; 11].
Proof. by vm_compute. Qed.

(** Entries that are not in use have the block index 0, and taking one removes block 0 from the
    hash map: its data is lost when the block was written. *)
Lemma block_0_is_lost :
  result_bytes ('(_, fs) ← write_block small_fs 0 (for_kernel_buffer [1; 2; 3; 4]) 4 0 true;
                '(_, _, fs) ← read_block fs 1 None 4 0 true;
                read_block fs 0 (Some (for_kernel_buffer [])) 4 0 true) = Ret [0; 1; 2; 3].
Proof. by vm_compute. Qed.

(** The offset of a block is computed with 32 bits when it is written back: data of a block
    behind 4 GiB goes to another block. *)
Lemma write_back_truncates {F} `{!SeekableFile F} `{!SeekableFileLaws F} (fs : BlockBasedFS F) e :
  0 < m_block_size fs < 2 ^ 31 -> Z.of_nat (length (disk fs)) < 2 ^ 62 -> 2 ^ 32 + m_block_size fs <= Z.of_nat (length (disk fs)) ->
  length (e_data e) = Z.to_nat (m_block_size fs) ->
  exists fs', write_back fs e = Ret fs' /\
    disk fs' = splice (disk fs) ((e_block_index e * m_block_size fs) mod 2 ^ 32) (e_data e).
Proof.
  intros Hbs H62 Hl Hlen. unfold write_back. change (wrap u32 (e_block_index e * m_block_size fs)) with ((e_block_index e * m_block_size fs) mod 2 ^ 32).
  pose proof (Z.mod_pos_bound (e_block_index e * m_block_size fs) (2 ^ 32) eq_refl) as Hm.
  set (o := (e_block_index e * m_block_size fs) mod 2 ^ 32) in *. rewrite seek_spec by lia. rewrite VERIFY_true by lia. run.
  destruct fs as [[f p] bs lbs c]. unfold disk in *. cbn in *.
  destruct (description_write_spec f o (for_kernel_buffer (e_data e)) bs) as (d' & Heq & Hd'); [lia..|done|cbn; lia|].
  unfold set_field. cbn. rewrite Heq. eexists. split; [done|]. cbn. rewrite Hd', <- Hlen. cbn. by rewrite firstn_all.
Qed.
