(* ===== verification/Ext2Alloc.v ===== *)
(** * Kernel/FileSystem/Ext2FileSystem: blocks and inodes of the groups

    A second extended file system is divided into groups; each has a bitmap of its blocks and
    one of its inodes, kept in blocks of the disk and cached in [m_cached_bitmaps].  The group
    descriptors and the super block count what is free.

    The blocks of the disk come from any [BlockStore], see DiskCache.v.  The theorems say that
    the bitmaps and the counters always agree, that [allocate_blocks] hands out exactly the
    number of blocks asked for, different ones that were free, or stops when there are too few,
    and that [allocate_inode] hands out an inode that was free. *)

From stdpp Require Import gmap.
From S2P Require Import Prelude BitmapView BitmapFind DoubleBuffer DiskCache.

#[local] Open Scope Z_scope.

Definition ENOENT : Z := 2.
Definition EEXIST : Z := 17.
Definition ENOSPC : Z := 28.
Definition EROFS : Z := 30.
Definition EMLINK : Z := 31.
Definition ENAMETOOLONG : Z := 34.

(** ** Data on the disk *)

(** The fields of the super block that the file system uses. *)
Record ext2_super_block : Type := MkSuper {
  s_inodes_count : Z;
  s_blocks_count : Z;
  s_free_blocks_count : Z;
  s_free_inodes_count : Z;
  s_log_block_size : Z;
  s_blocks_per_group : Z;
  s_inodes_per_group : Z;
  s_rev_level : Z;
  s_first_ino : Z;
  s_inode_size : Z;
  s_feature_ro_compat : Z
}.
#[global] Instance super_block_settable : Settable ext2_super_block.
Proof.
  refine {| rebuild s := MkSuper (s_inodes_count s) (s_blocks_count s) (s_free_blocks_count s) (s_free_inodes_count s)
    (s_log_block_size s) (s_blocks_per_group s) (s_inodes_per_group s) (s_rev_level s) (s_first_ino s) (s_inode_size s)
    (s_feature_ro_compat s) |}.
  by intros [].
Defined.

Record ext2_group_desc : Type := MkGroup {
  bg_block_bitmap : Z;
  bg_inode_bitmap : Z;
  bg_inode_table : Z;
  bg_free_blocks_count : Z;
  bg_free_inodes_count : Z;
  bg_used_dirs_count : Z
}.
#[global] Instance group_desc_settable : Settable ext2_group_desc.
Proof.
  refine {| rebuild g := MkGroup (bg_block_bitmap g) (bg_inode_bitmap g) (bg_inode_table g) (bg_free_blocks_count g)
    (bg_free_inodes_count g) (bg_used_dirs_count g) |}.
  by intros [].
Defined.

Definition EXT2_NDIR_BLOCKS : Z := 12.
Definition EXT2_IND_BLOCK : Z := EXT2_NDIR_BLOCKS.
Definition EXT2_DIND_BLOCK : Z := EXT2_IND_BLOCK + 1.
Definition EXT2_TIND_BLOCK : Z := EXT2_DIND_BLOCK + 1.
Definition EXT2_N_BLOCKS : Z := EXT2_TIND_BLOCK + 1.

(** An inode; [i_osd1] and [i_osd2] are the bytes of the parts that depend on the system. *)
Record ext2_inode : Type := MkRawInode {
  i_mode : Z;
  i_uid : Z;
  i_size : Z;
  i_atime : Z;
  i_ctime : Z;
  i_mtime : Z;
  i_dtime : Z;
  i_gid : Z;
  i_links_count : Z;
  i_blocks : Z;
  i_flags : Z;
  i_osd1 : Z;
  i_block : list Z;
  i_generation : Z;
  i_file_acl : Z;
  i_dir_acl : Z;
  i_faddr : Z;
  i_osd2 : list Z
}.
#[global] Instance raw_inode_settable : Settable ext2_inode.
Proof.
  refine {| rebuild i := MkRawInode (i_mode i) (i_uid i) (i_size i) (i_atime i) (i_ctime i) (i_mtime i) (i_dtime i) (i_gid i)
    (i_links_count i) (i_blocks i) (i_flags i) (i_osd1 i) (i_block i) (i_generation i) (i_file_acl i) (i_dir_acl i)
    (i_faddr i) (i_osd2 i) |}.
  by intros [].
Defined.

(** ** The objects in memory *)

Record Ext2FSInode : Type := MkInode {
  m_index : Z;
  m_raw_inode : ext2_inode;
  m_block_list : list Z;
  m_lookup_cache : gmap (list Z) Z;
  m_metadata_dirty : bool
}.
#[global] Instance Ext2FSInode_settable : Settable Ext2FSInode.
Proof.
  refine {| rebuild i := MkInode (m_index i) (m_raw_inode i) (m_block_list i) (m_lookup_cache i) (m_metadata_dirty i) |}.
  by intros [].
Defined.

Record CachedBitmap : Type := MkCachedBitmap {
  bitmap_block_index : Z;
  cb_dirty : bool;
  cb_buffer : list Z
}.
#[global] Instance CachedBitmap_settable : Settable CachedBitmap.
Proof. refine {| rebuild c := MkCachedBitmap (bitmap_block_index c) (cb_dirty c) (cb_buffer c) |}. by intros []. Defined.

Record Ext2FS (S : Type) : Type := MkExt2 {
  base : S;
  m_readonly : bool;
  m_super_block : ext2_super_block;
  m_block_group_count : Z;
  block_group_descriptors : list ext2_group_desc;
  m_inode_cache : gmap Z (option Ext2FSInode);
  m_super_block_dirty : bool;
  m_block_group_descriptors_dirty : bool;
  m_cached_bitmaps : list CachedBitmap
}.
Arguments MkExt2 {S} _ _ _ _ _ _ _ _ _.
Arguments base {S} _.
Arguments m_readonly {S} _.
Arguments m_super_block {S} _.
Arguments m_block_group_count {S} _.
Arguments block_group_descriptors {S} _.
Arguments m_inode_cache {S} _.
Arguments m_super_block_dirty {S} _.
Arguments m_block_group_descriptors_dirty {S} _.
Arguments m_cached_bitmaps {S} _.
#[global] Instance Ext2FS_settable S : Settable (Ext2FS S).
Proof.
  refine {| rebuild f := MkExt2 (base f) (m_readonly f) (m_super_block f) (m_block_group_count f) (block_group_descriptors f)
    (m_inode_cache f) (m_super_block_dirty f) (m_block_group_descriptors_dirty f) (m_cached_bitmaps f) |}.
  by intros [].
Defined.

(** A [KResultOr]: an error or a value. *)
Definition KResultOr (A : Type) : Type := Z + A.

Section groups.
Context {S : Type} `{!BlockStore S}.
Implicit Types fs : Ext2FS S.

Definition block_size fs : Z := store_block_size (base fs).
Definition blocks_per_group fs : Z := s_blocks_per_group (m_super_block fs).
Definition inodes_per_group fs : Z := s_inodes_per_group (m_super_block fs).

Definition EXT2_GOOD_OLD_REV : Z := 0.
Definition EXT2_GOOD_OLD_FIRST_INO : Z := 11.
Definition EXT2_GOOD_OLD_INODE_SIZE : Z := 128.
Definition EXT2_BLOCK_SIZE (s : ext2_super_block) : Z := wrap u32 (Z.shiftl 1024 (s_log_block_size s)).
Definition EXT2_ADDR_PER_BLOCK fs : Z := EXT2_BLOCK_SIZE (m_super_block fs) / 4.
Definition EXT2_FIRST_INO fs : Z :=
  if s_rev_level (m_super_block fs) =? EXT2_GOOD_OLD_REV then EXT2_GOOD_OLD_FIRST_INO else s_first_ino (m_super_block fs).
Definition inode_size fs : Z :=
  if s_rev_level (m_super_block fs) =? EXT2_GOOD_OLD_REV then EXT2_GOOD_OLD_INODE_SIZE else s_inode_size (m_super_block fs).

Definition first_block_index fs : Z := if block_size fs =? 1024 then 1 else 0.

Definition group_index_from_block_index fs (block_index : Z) : Z :=
  if block_index =? 0 then 0 else wrap u32 ((block_index - 1) / blocks_per_group fs + 1).

Definition group_index_from_inode fs (inode : Z) : Z :=
  if inode =? 0 then 0 else wrap u32 ((inode - 1) / inodes_per_group fs + 1).

Definition group_descriptor fs (group_index : Z) : outcome ext2_group_desc :=
  VERIFY (group_index <=? m_block_group_count fs) ;;
  VERIFY (0 <? group_index) ;;
  load (block_group_descriptors fs) (group_index - 1).

(** Changes to a descriptor, through the reference that [group_descriptor] gives. *)
Definition update_group fs (group_index : Z) (f : ext2_group_desc -> ext2_group_desc) : Ext2FS S :=
  fs <| block_group_descriptors := alter f (Z.to_nat (group_index - 1)) (block_group_descriptors fs) |>.

(** ** Bitmaps *)

(** [CachedBitmap::bitmap].  The operations used here do not depend on the address. *)
Definition bitmap (c : CachedBitmap) (blocks_per_group : Z) : BitmapView :=
  MkBitmapView 0xc1000000 (cb_buffer c) blocks_per_group.

Fixpoint find_cached (l : list CachedBitmap) (bitmap_block_index0 : Z) : option nat :=
  match l with
  | [] => None
  | c :: l => if bitmap_block_index c =? bitmap_block_index0 then Some O else Datatypes.S <$> find_cached l bitmap_block_index0
  end.

(** The position of the bitmap in [m_cached_bitmaps]. *)
Definition get_bitmap_block fs (bitmap_block_index : Z) : outcome (KResultOr nat * Ext2FS S) :=
  match find_cached (m_cached_bitmaps fs) bitmap_block_index with
  | Some i => Ret (inr i, fs)
  | None =>
      '(result, bytes, s) ← store_read_block (base fs) bitmap_block_index (Some (for_kernel_buffer [])) (block_size fs) 0 true;
      let fs := fs <| base := s |> in
      if result <? 0 then Ret (inl result, fs)
      else
        Ret (inr (length (m_cached_bitmaps fs)),
             fs <| m_cached_bitmaps := m_cached_bitmaps fs ++ [MkCachedBitmap bitmap_block_index false bytes] |>)
  end.

Definition cached_bitmap fs (i : nat) : outcome CachedBitmap :=
  match m_cached_bitmaps fs !! i with Some c => Ret c | None => Stop OutOfBounds end.

Definition set_cached_bitmap fs (i : nat) (c : CachedBitmap) : Ext2FS S :=
  fs <| m_cached_bitmaps := <[i := c]> (m_cached_bitmaps fs) |>.

(** [count] adds to the two counters that the source passes by reference. *)
Definition update_bitmap_block fs (bitmap_block bit_index : Z) (new_state : bool) (count : Ext2FS S -> Z -> Ext2FS S)
    : outcome (Z * Ext2FS S) :=
  '(r, fs) ← get_bitmap_block fs bitmap_block;
  match r with
  | inl error => Ret (error, fs)
  | inr i =>
      c ← cached_bitmap fs i;
      current_state ← BitmapView_get (bitmap c (blocks_per_group fs)) bit_index;
      if bool_decide (current_state = new_state) then Ret (- EIO, fs)
      else
        view ← BitmapView_set (bitmap c (blocks_per_group fs)) bit_index new_state;
        let fs := set_cached_bitmap fs i (c <| cb_buffer := m_data view |> <| cb_dirty := true |>) in
        let fs := count fs (if new_state then - 1 else 1) in
        Ret (KSuccess, fs <| m_super_block_dirty := true |> <| m_block_group_descriptors_dirty := true |>)
  end.

Definition count_blocks (group_index : Z) fs (n : Z) : Ext2FS S :=
  update_group (fs <| m_super_block := m_super_block fs <| s_free_blocks_count := wrap u32 (s_free_blocks_count (m_super_block fs) + n) |> |>)
    group_index (fun g => g <| bg_free_blocks_count := wrap u16 (bg_free_blocks_count g + n) |>).

Definition count_inodes (group_index : Z) fs (n : Z) : Ext2FS S :=
  update_group (fs <| m_super_block := m_super_block fs <| s_free_inodes_count := wrap u32 (s_free_inodes_count (m_super_block fs) + n) |> |>)
    group_index (fun g => g <| bg_free_inodes_count := wrap u16 (bg_free_inodes_count g + n) |>).

Definition set_block_allocation_state fs (block_index : Z) (new_state : bool) : outcome (Z * Ext2FS S) :=
  VERIFY (negb (block_index =? 0)) ;;
  let group_index := group_index_from_block_index fs block_index in
  let index_in_group := wrap u32 (block_index - first_block_index fs - (group_index - 1) * blocks_per_group fs) in
  let bit_index := index_in_group mod blocks_per_group fs in
  bgd ← group_descriptor fs group_index;
  update_bitmap_block fs (bg_block_bitmap bgd) bit_index new_state (count_blocks group_index).

Definition inode_bit fs (group_index index : Z) : Z :=
  wrap u32 (wrap u32 (index - (group_index - 1) * inodes_per_group fs) - 1) mod inodes_per_group fs.

Definition set_inode_allocation_state fs (inode_index : Z) (new_state : bool) : outcome (Z * Ext2FS S) :=
  let group_index := group_index_from_inode fs inode_index in
  let bit_index := inode_bit fs group_index inode_index in
  bgd ← group_descriptor fs group_index;
  update_bitmap_block fs (bg_inode_bitmap bgd) bit_index new_state (count_inodes group_index).

Definition get_inode_allocation_state fs (index : Z) : outcome (KResultOr bool * Ext2FS S) :=
  if index =? 0 then Ret (inl (- EINVAL), fs)
  else
    let group_index := group_index_from_inode fs index in
    bgd ← group_descriptor fs group_index;
    let bit_index := inode_bit fs group_index index in
    '(r, fs) ← get_bitmap_block fs (bg_inode_bitmap bgd);
    match r with
    | inl error => Ret (inl error, fs)
    | inr i =>
        c ← cached_bitmap fs i;
        b ← BitmapView_get (bitmap c (inodes_per_group fs)) bit_index;
        Ret (inr b, fs)
    end.

(** ** Allocating blocks *)

(** The [for] loop of [allocate_blocks] over the groups; [n] of them are left. *)
Fixpoint find_group_from (n : nat) fs (group_index : Z) : outcome (bool * Z) :=
  match n with
  | O => Ret (false, group_index)
  | Datatypes.S n =>
      bgd ← group_descriptor fs group_index;
      if negb (bg_free_blocks_count bgd =? 0) then Ret (true, group_index)
      else find_group_from n fs (group_index + 1)
  end.

Definition find_group fs (preferred_group_index group_index : Z) : outcome (bool * Z) :=
  bgd ← group_descriptor fs group_index;
  if negb (bg_free_blocks_count bgd =? 0) then Ret (true, group_index)
  else
    let group_index := if group_index =? preferred_group_index then 1 else group_index in
    find_group_from (Z.to_nat (m_block_group_count fs - group_index + 1)) fs group_index.

(** [n] blocks from [block_index] on are marked and appended to [blocks]. *)
Fixpoint mark_blocks (n : nat) fs (block_index : Z) (blocks : list Z) : outcome (KResultOr (list Z) * Ext2FS S) :=
  match n with
  | O => Ret (inr blocks, fs)
  | Datatypes.S n =>
      '(result, fs) ← set_block_allocation_state fs block_index true;
      if result <? 0 then Ret (inl result, fs)
      else mark_blocks n fs (block_index + 1) (blocks ++ [block_index])
  end.

(** One round of the [while] loop: the group it ends with, and the blocks so far. *)
Definition allocate_round fs (preferred_group_index group_index count : Z) (blocks : list Z)
    : outcome (KResultOr (Z * list Z) * Ext2FS S) :=
  '(found_a_group, group_index) ← find_group fs preferred_group_index group_index;
  VERIFY found_a_group ;;
  bgd ← group_descriptor fs group_index;
  '(r, fs) ← get_bitmap_block fs (bg_block_bitmap bgd);
  match r with
  | inl error => Ret (inl error, fs)
  | inr i =>
      c ← cached_bitmap fs i;
      let blocks_in_group := Z.min (blocks_per_group fs) (s_blocks_count (m_super_block fs)) in
      let block_bitmap := bitmap c blocks_in_group in
      let first_block_in_group := (group_index - 1) * blocks_per_group fs + first_block_index fs in
      '(first_unset_bit_index, free_region_size) ←
        BitmapView_find_longest_range_of_unset_bits (Z.to_nat blocks_in_group + 1) block_bitmap
          (wrap size_t (count - Z.of_nat (length blocks)));
      match first_unset_bit_index with
      | None => Stop VerifyFailed
      | Some first =>
          '(r, fs) ← mark_blocks (Z.to_nat free_region_size) fs (first + first_block_in_group) blocks;
          match r with
          | inl error => Ret (inl error, fs)
          | inr blocks => Ret (inr (group_index, blocks), fs)
          end
      end
  end.

(** Every round takes at least one block, so [count] rounds are enough. *)
Fixpoint allocate_loop (fuel : nat) fs (preferred_group_index group_index count : Z) (blocks : list Z)
    : outcome (KResultOr (list Z) * Ext2FS S) :=
  if Z.of_nat (length blocks) <? count then
    match fuel with
    | O => Stop NoFuel
    | Datatypes.S fuel =>
        '(r, fs) ← allocate_round fs preferred_group_index group_index count blocks;
        match r with
        | inl error => Ret (inl error, fs)
        | inr (group_index, blocks) => allocate_loop fuel fs preferred_group_index group_index count blocks
        end
    end
  else VERIFY (Z.of_nat (length blocks) =? count) ;; Ret (inr blocks, fs).

Definition allocate_blocks fs (preferred_group_index count : Z) : outcome (KResultOr (list Z) * Ext2FS S) :=
  if count =? 0 then Ret (inr [], fs)
  else
    bgd ← group_descriptor fs preferred_group_index;
    let group_index := if bg_free_blocks_count bgd =? 0 then 1 else preferred_group_index in
    allocate_loop (Z.to_nat count) fs preferred_group_index group_index count [].

(** ** Allocating an inode *)

Definition is_suitable_group fs (group_index : Z) : outcome bool :=
  bgd ← group_descriptor fs group_index;
  Ret (negb (bg_free_inodes_count bgd =? 0) && (1 <=? bg_free_blocks_count bgd)).

Fixpoint find_suitable_group (n : nat) fs (i : Z) : outcome Z :=
  match n with
  | O => Ret 0
  | Datatypes.S n => suitable ← is_suitable_group fs i; if (suitable : bool) then Ret i else find_suitable_group n fs (i + 1)
  end.

(** The first clear bit from [i] on, [n] bits being left. *)
Fixpoint find_clear_bit (n : nat) (v : BitmapView) (i : Z) : outcome (option Z) :=
  match n with
  | O => Ret None
  | Datatypes.S n => b ← BitmapView_get v i; if (b : bool) then find_clear_bit n v (i + 1) else Ret (Some i)
  end.

Definition allocate_inode fs (preferred_group : Z) : outcome (KResultOr Z * Ext2FS S) :=
  suitable ← (if negb (preferred_group =? 0) then is_suitable_group fs preferred_group else Ret false);
  group_index ← (if (suitable : bool) then Ret preferred_group
                 else find_suitable_group (Z.to_nat (m_block_group_count fs)) fs 1);
  if group_index =? 0 then Ret (inl (- ENOSPC), fs)
  else
    bgd ← group_descriptor fs group_index;
    let inodes_in_group := Z.min (inodes_per_group fs) (s_inodes_count (m_super_block fs)) in
    let first_inode_in_group := (group_index - 1) * inodes_per_group fs + 1 in
    '(r, fs) ← get_bitmap_block fs (bg_inode_bitmap bgd);
    match r with
    | inl error => Ret (inl error, fs)
    | inr i =>
        c ← cached_bitmap fs i;
        bit ← find_clear_bit (Z.to_nat inodes_in_group) (bitmap c inodes_in_group) 0;
        match bit with
        | None => Ret (inl (- EIO), fs)
        | Some bit =>
            view ← BitmapView_set (bitmap c inodes_in_group) bit true;
            let inode_index := wrap u32 (first_inode_in_group + bit) in
            let fs := set_cached_bitmap fs i (c <| cb_buffer := m_data view |> <| cb_dirty := true |>) in
            let fs := count_inodes group_index fs (- 1) in
            let fs := fs <| m_super_block_dirty := true |> <| m_block_group_descriptors_dirty := true |> in
            Ret (inr inode_index, fs <| m_inode_cache := delete inode_index (m_inode_cache fs) |>)
        end
    end.

End groups.

(** ** Counting bits *)

Lemma count_true_S f a n : count_true f a (S n) = Z.b2z (f a) + count_true f (a + 1) n.
Proof. done. Qed.

Lemma count_true_flip f f' k v a n :
  (forall i, a <= i -> f' i = if k =? i then v else f i) -> a <= k < a + Z.of_nat n ->
  count_true f' a n = count_true f a n + Z.b2z v - Z.b2z (f k).
Proof.
  revert a. induction n as [|n IH]; intros a Hf Hk; [lia|]. rewrite !count_true_S. rewrite (Hf a) by lia.
  destruct (Z.eqb_spec k a) as [<-|Hne].
  - rewrite (count_true_ext f' f (k + 1) n); [lia|]. intros i Hi. rewrite Hf by lia. by rewrite (proj2 (Z.eqb_neq k i)) by lia.
  - rewrite IH; [lia| |lia]. intros i Hi. apply Hf. lia.
Qed.

Lemma count_true_some f a n : 0 < count_true f a n -> exists i, a <= i < a + Z.of_nat n /\ f i = true.
Proof.
  revert a. induction n as [|n IH]; intros a; [unfold count_true; lia|]; rewrite count_true_S. destruct (f a) eqn:E; intros Hc; [exists a; by split; [lia|]|].
  destruct (IH (a + 1)) as (i & ? & ?); [cbn in Hc; lia|]. exists i. by split; [lia|].
Qed.

Lemma count_true_zero f a n i : count_true f a n = 0 -> a <= i < a + Z.of_nat n -> f i = false.
Proof.
  revert a. induction n as [|n IH]; intros a; [unfold count_true; lia|]; rewrite count_true_S. intros Hc Hi.
  pose proof (count_true_bound f (a + 1) n). destruct (decide (i = a)) as [->|Hne]; [destruct (f a); cbn in Hc; [lia|done]|].
  apply (IH (a + 1)); [destruct (f a); cbn in Hc; lia|lia].
Qed.

(** The number of clear bits among the first [size] of a bitmap. *)
Definition clear_bits (d : list Z) (size : Z) : Z := count_true (fun i => negb (bit d i)) 0 (Z.to_nat size).

Lemma clear_bits_flip d d' k v size :
  (forall i, 0 <= i -> bit d' i = if k =? i then v else bit d i) -> 0 <= k < size -> bit d k = negb v ->
  clear_bits d' size = clear_bits d size + (if v then - 1 else 1).
Proof.
  intros Hd Hk Hold. unfold clear_bits.
  rewrite (count_true_flip (fun i => negb (bit d i)) (fun i => negb (bit d' i)) k (negb v)).
  - rewrite Hold. destruct v; cbn; lia.
  - intros i Hi. rewrite Hd by lia. by destruct (k =? i).
  - lia.
Qed.

Section alloc.
Context {S : Type} `{!BlockStore S} `{!BlockStoreLaws S}.
Implicit Types fs : Ext2FS S.

(** ** The bitmaps as they are: in the cache, or on the disk *)

Definition bitmap_bytes fs (b : Z) : list Z :=
  match find_cached (m_cached_bitmaps fs) b with
  | Some i => match m_cached_bitmaps fs !! i with Some c => cb_buffer c | None => [] end
  | None => contents (base fs) b
  end.

Record bitmaps_ok fs : Prop := BitmapsOk {
  bitmaps_store : store_ok (base fs);
  bitmaps_cached i c : m_cached_bitmaps fs !! i = Some c ->
    length (cb_buffer c) = Z.to_nat (block_size fs) /\ is_bytes (cb_buffer c) /\ store_valid (base fs) (bitmap_block_index c);
  bitmaps_distinct : NoDup (bitmap_block_index <$> m_cached_bitmaps fs)
}.

(** The same blocks below. *)
Record same_store (s s' : S) : Prop := SameStore {
  same_store_ok : store_ok s';
  same_store_size : store_block_size s' = store_block_size s;
  same_store_valid b : store_valid s' b <-> store_valid s b;
  same_contents b : store_valid s b -> contents s' b = contents s b
}.

Lemma same_store_refl s : store_ok s -> same_store s s.
Proof. by split. Qed.

Lemma same_store_trans s1 s2 s3 : same_store s1 s2 -> same_store s2 s3 -> same_store s1 s3.
Proof.
  intros [? H1 H2 H3] [? H4 H5 H6]. split; [done|congruence| |].
  - intros b. by rewrite H5, H2.
  - intros b Hb. rewrite H6, H3; [done..|by apply H2].
Qed.

(** Reading a bitmap changes nothing but the caches. *)
Record quiet fs fs' : Prop := Quiet {
  quiet_rest : fs' = fs <| base := base fs' |> <| m_cached_bitmaps := m_cached_bitmaps fs' |>;
  quiet_ok : bitmaps_ok fs';
  quiet_store : same_store (base fs) (base fs');
  quiet_bytes b : store_valid (base fs) b -> bitmap_bytes fs' b = bitmap_bytes fs b
}.

Lemma find_cached_Some l b i :
  find_cached l b = Some i -> exists c, l !! i = Some c /\ bitmap_block_index c = b.
Proof.
  revert i. induction l as [|c l IH]; intros i; [done|]. cbn. destruct (Z.eqb_spec (bitmap_block_index c) b).
  - intros [= <-]. by exists c.
  - intros (j & Hj & ->)%fmap_Some_1. destruct (IH _ Hj) as (c' & ? & ?). by exists c'.
Qed.

Lemma find_cached_None l b : find_cached l b = None -> b ∉ (bitmap_block_index <$> l).
Proof.
  induction l as [|c l IH]; cbn; [intros _ ?%elem_of_nil; done|]. destruct (Z.eqb_spec (bitmap_block_index c) b); [done|].
  intros H%fmap_None. intros [->|Hb]%elem_of_cons; [done|]. by apply IH.
Qed.

Lemma find_cached_app l b c :
  find_cached (l ++ [c]) b =
    match find_cached l b with Some i => Some i | None => if bitmap_block_index c =? b then Some (length l) else None end.
Proof.
  induction l as [|c0 l IH]; cbn; [by destruct (_ =? _)|]. destruct (bitmap_block_index c0 =? b); [done|].
  rewrite IH. destruct (find_cached l b); [done|]. by destruct (_ =? _).
Qed.

Lemma find_cached_insert l i c c' b :
  l !! i = Some c -> bitmap_block_index c' = bitmap_block_index c -> find_cached (<[i := c']> l) b = find_cached l b.
Proof.
  revert i. induction l as [|c0 l IH]; intros [|i] Hi Hc; try done.
  - injection Hi as ->. cbn. by rewrite Hc.
  - change (<[Datatypes.S i := c']> (c0 :: l)) with (c0 :: <[i := c']> l). cbn [find_cached]. by rewrite (IH _ Hi Hc).
Qed.

Lemma find_cached_lookup l i c :
  NoDup (bitmap_block_index <$> l) -> l !! i = Some c -> find_cached l (bitmap_block_index c) = Some i.
Proof.
  revert i. induction l as [|c0 l IH]; intros [|i] Hnd Hi; cbn in *; try done; apply NoDup_cons in Hnd as [Hn Hnd].
  - injection Hi as ->. by rewrite Z.eqb_refl.
  - rewrite (proj2 (Z.eqb_neq _ _)); [by rewrite (IH i)|]. intros Heq. apply Hn. rewrite Heq.
    apply list_elem_of_fmap. exists c. split; [done|]. by eapply list_elem_of_lookup_2.
Qed.

Lemma get_bitmap_block_spec fs b :
  bitmaps_ok fs -> store_valid (base fs) b ->
  exists i c fs', get_bitmap_block fs b = Ret (inr i, fs') /\ quiet fs fs' /\
    m_cached_bitmaps fs' !! i = Some c /\ bitmap_block_index c = b /\ cb_buffer c = bitmap_bytes fs b.
Proof.
  intros Hok Hv. unfold get_bitmap_block. pose proof (bitmaps_store _ Hok) as Hst. pose proof (store_block_size_ok _ Hst) as Hbs.
  destruct (find_cached (m_cached_bitmaps fs) b) as [i|] eqn:Hf.
  - destruct (find_cached_Some _ _ _ Hf) as (c & Hc & Hb). exists i, c, fs. split; [done|]. split.
    + split; [by destruct fs|done|by apply same_store_refl|done].
    + split_and!; try done. unfold bitmap_bytes. by rewrite Hf, Hc.
  - destruct (contents_ok _ _ Hst Hv) as [Hlen Hby]. unfold block_size.
    destruct (store_read_law (base fs) b (Some (for_kernel_buffer [])) (store_block_size (base fs)) 0)
      as (s' & -> & Hst' & Hbs' & Hv' & Hc'); [done|done|lia..|].
    cbn [read_result user_copy for_kernel_buffer u_fault].
    assert (slice (contents (base fs) b) 0 (store_block_size (base fs)) = contents (base fs) b) as ->.
    { unfold slice. rewrite <- Hlen. by rewrite firstn_all. }
    rewrite firstn_all. run. rewrite (proj2 (Z.ltb_ge KSuccess 0)) by (unfold KSuccess; lia).
    eexists _, _, _. split; [done|]. unfold set_field. cbn. split; [|split_and!].
    + split; cbn.
      * by destruct fs.
      * split; cbn; [done| |].
        -- intros i c [Hi|[_ Hi]]%lookup_app_Some.
           ++ rewrite Hv'. unfold block_size. cbn. rewrite Hbs'. by apply (bitmaps_cached _ Hok i).
           ++ apply list_lookup_singleton_Some in Hi as [_ <-]. cbn. unfold block_size. cbn. rewrite Hbs', Hv'. done.
        -- rewrite fmap_app. apply NoDup_app. split; [by apply Hok|]. split; [|apply NoDup_singleton].
           intros x Hx ->%list_elem_of_singleton. cbn in Hx. by eapply find_cached_None.
      * by split.
      * intros b' Hb'. unfold bitmap_bytes. cbn. rewrite find_cached_app. cbn. destruct (find_cached (m_cached_bitmaps fs) b') as [i|] eqn:Hi.
        -- destruct (find_cached_Some _ _ _ Hi) as (c & Hci & _). by rewrite (lookup_app_l_Some _ _ _ _ Hci), Hci.
        -- destruct (Z.eqb_spec b b') as [<-|]; [by rewrite list_lookup_middle|]. by apply Hc'.
    + by apply list_lookup_middle.
    + done.
    + unfold bitmap_bytes. by rewrite Hf.
Qed.

(** Bit [k] of the bitmap in block [b] becomes [v]. *)
Record flipped fs fs' (b k : Z) (v : bool) : Prop := Flipped {
  flipped_rest : fs' = fs <| base := base fs' |> <| m_cached_bitmaps := m_cached_bitmaps fs' |>;
  flipped_ok : bitmaps_ok fs';
  flipped_store : same_store (base fs) (base fs');
  flipped_bits i : 0 <= i -> bit (bitmap_bytes fs' b) i = if k =? i then v else bit (bitmap_bytes fs b) i;
  flipped_other b' : store_valid (base fs) b' -> b' <> b -> bitmap_bytes fs' b' = bitmap_bytes fs b'
}.

Lemma cached_view_ok fs i c size :
  bitmaps_ok fs -> m_cached_bitmaps fs !! i = Some c -> 0 <= size <= 8 * block_size fs -> block_size fs <= 2 ^ 16 ->
  view_ok (bitmap c size).
Proof.
  intros Hok Hc Hsize Hbs. destruct (bitmaps_cached _ Hok _ _ Hc) as (Hlen & Hby & _). split; cbn; [done|lia| |lia].
  unfold BitmapView_size_in_bytes. cbn. rewrite ceil_div_8. int_lia.
Qed.

Lemma set_cached_bitmap_flipped fs i c d b k v :
  bitmaps_ok fs -> m_cached_bitmaps fs !! i = Some c -> bitmap_block_index c = b -> writes (Z.eqb k) v (cb_buffer c) d ->
  flipped fs (set_cached_bitmap fs i (c <| cb_buffer := d |> <| cb_dirty := true |>)) b k v.
Proof.
  intros Hok Hc Hb (Hlen & Hby & Hbits). assert (i < length (m_cached_bitmaps fs))%nat as Hlt by by eapply lookup_lt_Some.
  unfold set_cached_bitmap, set_field. cbn. split; cbn.
  - by destruct fs.
  - split; cbn; [apply Hok| |].
    + intros j cj [[-> ->]|[_ Hj]]%insert_cases; cbn; [|by apply (bitmaps_cached _ Hok j)].
      destruct (bitmaps_cached _ Hok _ _ Hc) as (? & ? & ?). unfold block_size in *. cbn. split_and!; [congruence|done..].
    + rewrite list_fmap_insert. cbn. rewrite list_insert_id; [apply Hok|]. by rewrite list_lookup_fmap, Hc.
  - by apply same_store_refl, Hok.
  - intros j Hj. unfold bitmap_bytes. cbn. rewrite (find_cached_insert _ _ c) by done. rewrite <- Hb.
    rewrite (find_cached_lookup _ i c) by (try apply Hok; done). rewrite list_lookup_insert_eq, Hc by done. by apply Hbits.
  - intros b' Hv Hne. unfold bitmap_bytes. cbn. rewrite (find_cached_insert _ _ c) by done.
    destruct (find_cached _ b') as [j|] eqn:Hj; [|done]. rewrite list_lookup_insert_ne; [done|].
    intros ->. destruct (find_cached_Some _ _ _ Hj) as (? & ? & ?). congruence.
Qed.

Lemma quiet_flipped fs fs1 fs2 b k v :
  store_valid (base fs) b -> quiet fs fs1 -> flipped fs1 fs2 b k v -> flipped fs fs2 b k v.
Proof.
  intros Hb [Hr1 _ Hs1 Hb1] [Hr2 Hok Hs2 Hbits Hother]. split.
  - rewrite Hr2, Hr1. by destruct fs.
  - done.
  - by eapply same_store_trans.
  - intros i Hi. by rewrite Hbits, Hb1.
  - intros b' Hv Hne. rewrite Hother by (try apply Hs1; done). by apply Hb1.
Qed.

Lemma update_bitmap_block_spec fs b k v count :
  bitmaps_ok fs -> store_valid (base fs) b -> 0 <= k < blocks_per_group fs -> blocks_per_group fs <= 8 * block_size fs ->
  block_size fs <= 2 ^ 16 -> bit (bitmap_bytes fs b) k = negb v ->
  exists fs', update_bitmap_block fs b k v count =
      Ret (KSuccess, count fs' (if v then - 1 else 1) <| m_super_block_dirty := true |> <| m_block_group_descriptors_dirty := true |>) /\
    flipped fs fs' b k v.
Proof.
  intros Hok Hb Hk Hbpg Hbs Hold. unfold update_bitmap_block.
  destruct (get_bitmap_block_spec fs b Hok Hb) as (i & c & fs1 & -> & Hq & Hc & Hidx & Hbuf). run.
  unfold cached_bitmap. rewrite Hc. run.
  assert (blocks_per_group fs1 = blocks_per_group fs /\ block_size fs1 = block_size fs) as [Hg1 Hs1].
  { rewrite (quiet_rest _ _ Hq). split; [done|]. apply (same_store_size _ _ (quiet_store _ _ Hq)). }
  assert (view_ok (bitmap c (blocks_per_group fs1))) as Hview.
  { apply (cached_view_ok fs1 i); [apply Hq|done|lia..]. }
  rewrite (get_spec _ k) by (try done; cbn; lia). run. cbn [bitmap m_data]. rewrite Hbuf, Hold.
  rewrite bool_decide_false by by destruct v.
  destruct (set_spec (bitmap c (blocks_per_group fs1)) k v) as (d & -> & Hw); [done|cbn; lia|]. run.
  eexists. split; [done|]. apply (quiet_flipped _ fs1); [done..|]. apply set_cached_bitmap_flipped; try done. apply Hq.
Qed.

Lemma update_bitmap_block_refuses fs b k v count :
  bitmaps_ok fs -> store_valid (base fs) b -> 0 <= k < blocks_per_group fs -> blocks_per_group fs <= 8 * block_size fs ->
  block_size fs <= 2 ^ 16 -> bit (bitmap_bytes fs b) k = v ->
  exists fs', update_bitmap_block fs b k v count = Ret (- EIO, fs') /\ quiet fs fs'.
Proof.
  intros Hok Hb Hk Hbpg Hbs Hold. unfold update_bitmap_block.
  destruct (get_bitmap_block_spec fs b Hok Hb) as (i & c & fs1 & -> & Hq & Hc & Hidx & Hbuf). run.
  unfold cached_bitmap. rewrite Hc. run.
  assert (blocks_per_group fs1 = blocks_per_group fs /\ block_size fs1 = block_size fs) as [Hg1 Hs1].
  { rewrite (quiet_rest _ _ Hq). split; [done|]. apply (same_store_size _ _ (quiet_store _ _ Hq)). }
  assert (view_ok (bitmap c (blocks_per_group fs1))) as Hview.
  { apply (cached_view_ok fs1 i); [apply Hq|done|lia..]. }
  rewrite (get_spec _ k) by (try done; cbn; lia). run. cbn [bitmap m_data]. rewrite Hbuf, Hold.
  rewrite bool_decide_true by done. by exists fs1.
Qed.

(** ** Blocks in use *)

Definition group_of fs (b : Z) : Z := (b - first_block_index fs) / blocks_per_group fs.
Definition bit_of fs (b : Z) : Z := (b - first_block_index fs) mod blocks_per_group fs.

(** Whether the bitmaps say that a block is in use. *)
Definition used fs (b : Z) : bool :=
  match block_group_descriptors fs !! Z.to_nat (group_of fs b) with
  | Some d => bit (bitmap_bytes fs (bg_block_bitmap d)) (bit_of fs b)
  | None => true
  end.

(** The blocks whose bit the file system can find.  When the blocks are larger than 1024 bytes
    it looks for the first block of a group in the bitmap of the group before. *)
Definition proper fs (b : Z) : Prop :=
  0 < b < s_blocks_count (m_super_block fs) /\ (first_block_index fs = 1 \/ b mod blocks_per_group fs <> 0).

(** The blocks of the bitmaps. *)
Definition reserved fs : list Z :=
  (bg_block_bitmap <$> block_group_descriptors fs) ++ (bg_inode_bitmap <$> block_group_descriptors fs).

(** What stays the same. *)
Definition geometry fs :=
  (block_size fs, m_super_block fs <| s_free_blocks_count := 0 |> <| s_free_inodes_count := 0 |>, m_block_group_count fs,
   (fun d => (bg_block_bitmap d, bg_inode_bitmap d, bg_inode_table d)) <$> block_group_descriptors fs, m_readonly fs).

Record geometry_ok fs : Prop := GeometryOk {
  geo_log : 0 <= s_log_block_size (m_super_block fs) <= 2;
  geo_size : block_size fs = EXT2_BLOCK_SIZE (m_super_block fs);
  geo_group : 0 < blocks_per_group fs <= 8 * block_size fs;
  geo_words : Z.min (blocks_per_group fs) (s_blocks_count (m_super_block fs)) mod 32 = 0;
  geo_inodes : 0 < inodes_per_group fs <= blocks_per_group fs;
  geo_count : m_block_group_count fs = Z.of_nat (length (block_group_descriptors fs));
  geo_total : 0 < s_blocks_count (m_super_block fs) <= first_block_index fs + m_block_group_count fs * blocks_per_group fs;
  geo_total_inodes : 0 < s_inodes_count (m_super_block fs) <= m_block_group_count fs * inodes_per_group fs;
  geo_bound : m_block_group_count fs * blocks_per_group fs < 2 ^ 32 - 1;
  geo_valid b : 0 < b < s_blocks_count (m_super_block fs) -> store_valid (base fs) b;
  geo_reserved : NoDup (reserved fs);
  geo_reserved_blocks b : b ∈ reserved fs -> 0 < b < s_blocks_count (m_super_block fs)
}.

Definition free_sum (f : ext2_group_desc -> Z) (l : list ext2_group_desc) : Z := foldr (fun d n => f d + n) 0 l.

(** The bitmaps and the counters agree. *)
Record alloc_ok fs : Prop := AllocOk {
  alloc_bitmaps : bitmaps_ok fs;
  alloc_geometry : geometry_ok fs;
  alloc_free_blocks g d : block_group_descriptors fs !! g = Some d ->
    bg_free_blocks_count d = clear_bits (bitmap_bytes fs (bg_block_bitmap d)) (blocks_per_group fs);
  alloc_free_inodes g d : block_group_descriptors fs !! g = Some d ->
    bg_free_inodes_count d = clear_bits (bitmap_bytes fs (bg_inode_bitmap d)) (inodes_per_group fs);
  alloc_blocks_total : s_free_blocks_count (m_super_block fs) = free_sum bg_free_blocks_count (block_group_descriptors fs);
  alloc_inodes_total : s_free_inodes_count (m_super_block fs) = free_sum bg_free_inodes_count (block_group_descriptors fs);
  alloc_clear g d i : block_group_descriptors fs !! g = Some d -> 0 <= i < blocks_per_group fs ->
    bit (bitmap_bytes fs (bg_block_bitmap d)) i = false ->
    proper fs (first_block_index fs + Z.of_nat g * blocks_per_group fs + i);
  alloc_clear_inode g d i : block_group_descriptors fs !! g = Some d -> 0 <= i < inodes_per_group fs ->
    bit (bitmap_bytes fs (bg_inode_bitmap d)) i = false ->
    Z.of_nat g * inodes_per_group fs + i < s_inodes_count (m_super_block fs);
  alloc_reserved b : b ∈ reserved fs -> used fs b = true
}.

Lemma block_size_cases fs : geometry_ok fs -> block_size fs = 1024 \/ block_size fs = 2048 \/ block_size fs = 4096.
Proof.
  intros Hg. pose proof (geo_log _ Hg). rewrite (geo_size _ Hg). unfold EXT2_BLOCK_SIZE.
  assert (s_log_block_size (m_super_block fs) = 0 \/ s_log_block_size (m_super_block fs) = 1 \/ s_log_block_size (m_super_block fs) = 2)
    as [-> | [-> | ->]] by lia; vm_compute; auto.
Qed.

Lemma first_block_cases fs : first_block_index fs = 0 \/ first_block_index fs = 1.
Proof. unfold first_block_index. destruct (_ =? _); auto. Qed.

Lemma proper_group fs b :
  geometry_ok fs -> proper fs b ->
  group_index_from_block_index fs b = group_of fs b + 1 /\ 0 <= group_of fs b < m_block_group_count fs /\
  wrap u32 (b - first_block_index fs - (group_index_from_block_index fs b - 1) * blocks_per_group fs) mod blocks_per_group fs = bit_of fs b /\
  0 <= bit_of fs b < blocks_per_group fs.
Proof.
  intros Hg [Hb Hp]. pose proof (geo_group _ Hg) as [Hbpg Hb8]. pose proof (geo_total _ Hg) as Htot. pose proof (geo_bound _ Hg) as Hbnd.
  pose proof (block_size_cases _ Hg) as Hbs. pose proof (first_block_cases fs) as Hfirst.
  unfold group_of, bit_of, group_index_from_block_index. rewrite (proj2 (Z.eqb_neq b 0)) by lia.
  pose proof (Z.div_mod (b - first_block_index fs) (blocks_per_group fs)) as Hdm.
  pose proof (Z.mod_pos_bound (b - first_block_index fs) (blocks_per_group fs) Hbpg) as Hm.
  assert (0 <= (b - first_block_index fs) / blocks_per_group fs) as Hq by (apply Z.div_pos; lia).
  assert ((b - first_block_index fs) / blocks_per_group fs < m_block_group_count fs) as Hq2 by (apply Z.div_lt_upper_bound; nia).
  assert ((b - 1) / blocks_per_group fs = (b - first_block_index fs) / blocks_per_group fs) as ->.
  { destruct Hfirst as [H0|H1]; [|by rewrite H1]. rewrite H0 in *. destruct Hp as [|Hp]; [lia|]. rewrite Z.sub_0_r in *.
    symmetry. apply (Z.div_unique _ _ _ (b mod blocks_per_group fs - 1)); lia. }
  rewrite (wrap_id u32 eq_refl) by (rewrite in_type_u32; nia). split; [done|]. split; [done|]. split; [|done].
  rewrite (wrap_id u32 eq_refl) by (rewrite in_type_u32; nia). symmetry.
  apply (Z.mod_unique _ _ 0); [lia|]. lia.
Qed.

Lemma free_sum_alter f h l g d :
  l !! g = Some d -> free_sum f (alter h g l) = free_sum f l + f (h d) - f d.
Proof.
  revert g. induction l as [|d0 l IH]; intros [|g] Hg; cbn in *; try done.
  - injection Hg as ->. lia.
  - pose proof (IH _ Hg) as H. unfold free_sum in H. lia.
Qed.

Lemma free_sum_ext f f' l l' :
  length l = length l' -> (forall i d d', l !! i = Some d -> l' !! i = Some d' -> f d = f' d') -> free_sum f l = free_sum f' l'.
Proof.
  revert l'. induction l as [|d l IH]; intros [|d' l'] Hl H; try done. cbn. rewrite (H 0%nat d d') by done. f_equal.
  apply IH; [by injection Hl|]. intros i. apply (H (Datatypes.S i)).
Qed.

Lemma free_sum_bound f l n :
  (forall i d, l !! i = Some d -> 0 <= f d <= n) -> 0 <= free_sum f l <= Z.of_nat (length l) * n.
Proof.
  induction l as [|d l IH]; intros H; [cbn; lia|]; cbn -[Z.of_nat]. pose proof (H 0%nat d eq_refl).
  specialize (IH (fun i => H (Datatypes.S i))). rewrite Nat2Z.inj_succ, Z.mul_succ_l. unfold free_sum in IH. lia.
Qed.

Lemma free_sum_zero f l :
  (forall i d, l !! i = Some d -> f d = 0) -> free_sum f l = 0.
Proof.
  induction l as [|d l IH]; intros H; [done|]. change (f d + free_sum f l = 0). rewrite (H 0%nat d eq_refl), IH; [done|]. intros i. apply (H (Datatypes.S i)).
Qed.

Lemma flipped_fields fs fs' b k v :
  flipped fs fs' b k v ->
  m_readonly fs' = m_readonly fs /\ m_super_block fs' = m_super_block fs /\ m_block_group_count fs' = m_block_group_count fs /\
  block_group_descriptors fs' = block_group_descriptors fs /\ m_inode_cache fs' = m_inode_cache fs /\ block_size fs' = block_size fs.
Proof. intros Hf. pose proof (same_store_size _ _ (flipped_store _ _ _ _ _ Hf)). rewrite (flipped_rest _ _ _ _ _ Hf). by destruct fs. Qed.

(** Inodes in use. *)
Definition inode_used fs (index : Z) : bool :=
  match block_group_descriptors fs !! Z.to_nat ((index - 1) / inodes_per_group fs) with
  | Some d => bit (bitmap_bytes fs (bg_inode_bitmap d)) ((index - 1) mod inodes_per_group fs)
  | None => true
  end.

(** The state of one block has changed. *)
Record block_set fs fs' (b : Z) (v : bool) : Prop := BlockSet {
  set_ok : alloc_ok fs';
  set_geometry : geometry fs' = geometry fs;
  set_store : same_store (base fs) (base fs');
  set_used b' : 0 < b' -> used fs' b' = if b =? b' then v else used fs b';
  set_inodes i : inode_used fs' i = inode_used fs i;
  set_cache_kept : m_inode_cache fs' = m_inode_cache fs;
  set_free : s_free_blocks_count (m_super_block fs') = s_free_blocks_count (m_super_block fs) + (if v then - 1 else 1);
  set_free_inodes : s_free_inodes_count (m_super_block fs') = s_free_inodes_count (m_super_block fs);
  set_group_free g d d' : block_group_descriptors fs !! g = Some d -> block_group_descriptors fs' !! g = Some d' ->
    bg_free_blocks_count d' = bg_free_blocks_count d + (if Z.of_nat g =? group_of fs b then if v then - 1 else 1 else 0)
}.

Definition bg_map (d : ext2_group_desc) : Z * Z * Z := (bg_block_bitmap d, bg_inode_bitmap d, bg_inode_table d).

Lemma geometry_fields fs fs' :
  geometry fs' = geometry fs ->
  block_size fs' = block_size fs /\ blocks_per_group fs' = blocks_per_group fs /\ inodes_per_group fs' = inodes_per_group fs /\
  s_blocks_count (m_super_block fs') = s_blocks_count (m_super_block fs) /\
  s_inodes_count (m_super_block fs') = s_inodes_count (m_super_block fs) /\
  s_log_block_size (m_super_block fs') = s_log_block_size (m_super_block fs) /\
  m_block_group_count fs' = m_block_group_count fs /\
  bg_map <$> block_group_descriptors fs' = bg_map <$> block_group_descriptors fs.
Proof.
  unfold geometry, blocks_per_group, inodes_per_group, set_field. cbn. intros [= H1 H2 H3 H4 H5 H6 H7 H8 H9 H10 H11 H12 H13]. by split_and!.
Qed.

Lemma geometry_first fs fs' : geometry fs' = geometry fs -> first_block_index fs' = first_block_index fs.
Proof. intros (H & _)%geometry_fields. unfold first_block_index. by rewrite H. Qed.

Lemma geometry_reserved fs fs' : geometry fs' = geometry fs -> reserved fs' = reserved fs.
Proof.
  intros (_ & _ & _ & _ & _ & _ & _ & H)%geometry_fields. unfold reserved.
  assert (forall l, bg_block_bitmap <$> l = (fun t : Z * Z * Z => t.1.1) <$> (bg_map <$> l)) as Hm1 by (intros l; by rewrite <- list_fmap_compose).
  assert (forall l, bg_inode_bitmap <$> l = (fun t : Z * Z * Z => t.1.2) <$> (bg_map <$> l)) as Hm2 by (intros l; by rewrite <- list_fmap_compose).
  by rewrite !Hm1, !Hm2, H.
Qed.

Lemma geometry_lookup fs fs' g d' :
  geometry fs' = geometry fs -> block_group_descriptors fs' !! g = Some d' ->
  exists d, block_group_descriptors fs !! g = Some d /\ bg_block_bitmap d' = bg_block_bitmap d /\ bg_inode_bitmap d' = bg_inode_bitmap d /\
    bg_inode_table d' = bg_inode_table d.
Proof.
  intros (_ & _ & _ & _ & _ & _ & _ & H)%geometry_fields Hd'.
  assert ((bg_map <$> block_group_descriptors fs) !! g = Some (bg_map d')) as Hg by by rewrite <- H, list_lookup_fmap, Hd'.
  rewrite list_lookup_fmap in Hg. destruct (block_group_descriptors fs !! g) as [d|] eqn:Hd; [|done].
  injection Hg as ? ? ?. exists d. by split_and!.
Qed.

Lemma geometry_ok_same fs fs' :
  geometry fs' = geometry fs -> (forall b, store_valid (base fs') b <-> store_valid (base fs) b) -> geometry_ok fs -> geometry_ok fs'.
Proof.
  intros Hg Hv Hok. pose proof (geometry_first _ _ Hg) as Hf. pose proof (geometry_reserved _ _ Hg) as Hr.
  pose proof (geometry_fields _ _ Hg) as (E1 & E2 & E3 & E4 & E5 & E6 & E7 & E8).
  destruct Hok. split; rewrite ?E1, ?E2, ?E3, ?E4, ?E5, ?E6, ?E7, ?Hf, ?Hr; try done.
  - unfold EXT2_BLOCK_SIZE in *. by rewrite E6.
  - apply (f_equal length) in E8. rewrite !length_fmap in E8. by rewrite E8.
  - intros b. rewrite Hv. auto.
Qed.

Lemma geometry_proper fs fs' b : geometry fs' = geometry fs -> proper fs' b <-> proper fs b.
Proof.
  intros Hg. pose proof (geometry_first _ _ Hg) as Hf. pose proof (geometry_fields _ _ Hg) as (_ & E2 & _ & E4 & _).
  unfold proper. by rewrite E2, E4, Hf.
Qed.

Lemma reserved_distinct fs g g' d d' :
  geometry_ok fs -> block_group_descriptors fs !! g = Some d -> block_group_descriptors fs !! g' = Some d' ->
  (g <> g' -> bg_block_bitmap d <> bg_block_bitmap d' /\ bg_inode_bitmap d <> bg_inode_bitmap d') /\
  bg_block_bitmap d <> bg_inode_bitmap d'.
Proof.
  intros Hok Hd Hd'. pose proof (geo_reserved _ Hok) as Hnd. unfold reserved in Hnd. apply NoDup_app in Hnd as (Hnd1 & Hnd2 & Hnd3).
  split.
  - intros Hne. split; intros Heq; apply Hne.
    + apply (NoDup_lookup _ _ _ (bg_block_bitmap d) Hnd1); rewrite list_lookup_fmap, ?Hd, ?Hd'; cbn; congruence.
    + apply (NoDup_lookup _ _ _ (bg_inode_bitmap d) Hnd3); rewrite list_lookup_fmap, ?Hd, ?Hd'; cbn; congruence.
  - intros Heq. apply (Hnd2 (bg_block_bitmap d)); apply list_elem_of_fmap.
    + exists d. split; [done|]. by eapply list_elem_of_lookup_2.
    + exists d'. split; [done|]. by eapply list_elem_of_lookup_2.
Qed.

Lemma reserved_elem fs g d :
  block_group_descriptors fs !! g = Some d -> bg_block_bitmap d ∈ reserved fs /\ bg_inode_bitmap d ∈ reserved fs.
Proof.
  intros Hd. unfold reserved. rewrite !elem_of_app. split; [left|right]; apply list_elem_of_fmap; exists d;
    (split; [done|by eapply list_elem_of_lookup_2]).
Qed.

Lemma bitmap_valid fs g d :
  geometry_ok fs -> block_group_descriptors fs !! g = Some d ->
  store_valid (base fs) (bg_block_bitmap d) /\ store_valid (base fs) (bg_inode_bitmap d).
Proof. intros Hok [H1 H2]%reserved_elem. split; by apply (geo_valid _ Hok), (geo_reserved_blocks _ Hok). Qed.

Lemma lookup_alter_cases {A} (f : A -> A) (l : list A) (i j : nat) y :
  alter f i l !! j = Some y -> exists x, l !! j = Some x /\ y = if decide (i = j) then f x else x.
Proof.
  destruct (decide (i = j)) as [->|Hne].
  - rewrite list_lookup_alter_eq. intros (x & ? & ->)%fmap_Some_1. by exists x.
  - rewrite list_lookup_alter_ne by done. intros ?. by exists y.
Qed.

Lemma clear_bits_bound d size : 0 <= size -> 0 <= clear_bits d size <= size.
Proof. intros. unfold clear_bits. pose proof (count_true_bound (fun i => negb (bit d i)) 0 (Z.to_nat size)). lia. Qed.

Lemma clear_bits_ext d d' size : (forall i, 0 <= i -> bit d' i = bit d i) -> clear_bits d' size = clear_bits d size.
Proof. intros H. unfold clear_bits. apply count_true_ext. intros i Hi. by rewrite H by lia. Qed.

(** The position of a block determines it. *)
Lemma position_inj fs b b' :
  geometry_ok fs -> group_of fs b = group_of fs b' -> bit_of fs b = bit_of fs b' -> b = b'.
Proof.
  intros Hg H1 H2. unfold group_of, bit_of in *. pose proof (geo_group _ Hg).
  pose proof (Z.div_mod (b - first_block_index fs) (blocks_per_group fs)).
  pose proof (Z.div_mod (b' - first_block_index fs) (blocks_per_group fs)). rewrite H1, H2 in *. lia.
Qed.

Lemma group_of_nonneg fs b : geometry_ok fs -> 0 < b -> 0 <= group_of fs b.
Proof. intros Hg Hb. pose proof (geo_group _ Hg). pose proof (first_block_cases fs). apply Z.div_pos; lia. Qed.

Lemma fmap_alter_same {A B} (f : A -> B) (h : A -> A) (l : list A) (i : nat) :
  (forall x, f (h x) = f x) -> f <$> alter h i l = f <$> l.
Proof.
  intros Hf. apply list_eq. intros j. rewrite !list_lookup_fmap. destruct (decide (i = j)) as [->|Hne].
  - rewrite list_lookup_alter_eq. destruct (l !! j); [|done]. cbn. by rewrite Hf.
  - by rewrite list_lookup_alter_ne.
Qed.

(** A bit of a bitmap of blocks and the counters change together. *)
Section set_block.
Context (fs fs1 : Ext2FS S) (g : nat) (d : ext2_group_desc) (b : Z) (v : bool).
Context (Hok : alloc_ok fs) (Hp : proper fs b) (Hgrp : group_of fs b = Z.of_nat g).
Context (Hd : block_group_descriptors fs !! g = Some d) (Hused : used fs b = negb v) (Hres : v = false -> b ∉ reserved fs).
Context (Hfl : flipped fs fs1 (bg_block_bitmap d) (bit_of fs b) v).

Let n : Z := if v then - 1 else 1.
Let fs' : Ext2FS S :=
  count_blocks (Z.of_nat g + 1) fs1 n <| m_super_block_dirty := true |> <| m_block_group_descriptors_dirty := true |>.
Let counted (x : ext2_group_desc) : ext2_group_desc := x <| bg_free_blocks_count := wrap u16 (bg_free_blocks_count x + n) |>.

Lemma set_block_groups : block_group_descriptors fs' = alter counted g (block_group_descriptors fs).
Proof using Type*.
  destruct (flipped_fields _ _ _ _ _ Hfl) as (_ & _ & _ & F4 & _). unfold fs', counted.
  unfold count_blocks, update_group, set_field. cbn. rewrite F4. by replace (Z.to_nat (Z.of_nat g + 1 - 1)) with g by lia.
Qed.

Lemma set_block_geometry : geometry fs' = geometry fs.
Proof using Type*.
  destruct (flipped_fields _ _ _ _ _ Hfl) as (F1 & F2 & F3 & _ & _ & F6). unfold geometry.
  rewrite set_block_groups, fmap_alter_same by done.
  assert (block_size fs' = block_size fs) as -> by exact F6. assert (m_block_group_count fs' = m_block_group_count fs) as -> by exact F3.
  assert (m_readonly fs' = m_readonly fs) as -> by exact F1.
  assert (m_super_block fs' = m_super_block fs <| s_free_blocks_count := wrap u32 (s_free_blocks_count (m_super_block fs) + n) |>) as ->
    by (rewrite <- F2; reflexivity).
  by destruct (m_super_block fs).
Qed.

Lemma set_block_lookup g' d' :
  block_group_descriptors fs' !! g' = Some d' -> exists d0, block_group_descriptors fs !! g' = Some d0 /\
    bg_block_bitmap d' = bg_block_bitmap d0 /\ bg_inode_bitmap d' = bg_inode_bitmap d0 /\
    bg_free_inodes_count d' = bg_free_inodes_count d0 /\
    bg_free_blocks_count d' = if decide (g = g') then wrap u16 (bg_free_blocks_count d0 + n) else bg_free_blocks_count d0.
Proof using Type*. rewrite set_block_groups. intros (d0 & ? & ->)%lookup_alter_cases. exists d0. by case_decide. Qed.

Lemma set_block_bit : bit (bitmap_bytes fs (bg_block_bitmap d)) (bit_of fs b) = negb v.
Proof using Type*. rewrite <- Hused. unfold used. by rewrite Hgrp, Nat2Z.id, Hd. Qed.

Lemma set_block_count :
  clear_bits (bitmap_bytes fs1 (bg_block_bitmap d)) (blocks_per_group fs) = bg_free_blocks_count d + n /\
  wrap u16 (bg_free_blocks_count d + n) = bg_free_blocks_count d + n.
Proof using Type*.
  pose proof (alloc_geometry _ Hok) as Hg. pose proof (proper_group _ _ Hg Hp) as (_ & _ & _ & Hk).
  pose proof (geo_group _ Hg). pose proof (block_size_cases _ Hg).
  rewrite (alloc_free_blocks _ Hok _ _ Hd).
  rewrite (clear_bits_flip (bitmap_bytes fs (bg_block_bitmap d)) _ (bit_of fs b) v); [|apply (flipped_bits _ _ _ _ _ Hfl)|done|apply set_block_bit].
  split; [done|]. apply (wrap_id u16 eq_refl). rewrite in_type_u16.
  pose proof (clear_bits_bound (bitmap_bytes fs1 (bg_block_bitmap d)) (blocks_per_group fs) ltac:(lia)) as Hb.
  rewrite (clear_bits_flip (bitmap_bytes fs (bg_block_bitmap d)) _ (bit_of fs b) v) in Hb; [|apply (flipped_bits _ _ _ _ _ Hfl)|done|apply set_block_bit].
  unfold n in *. lia.
Qed.

Lemma set_block_others g' d' :
  block_group_descriptors fs !! g' = Some d' ->
  (g' <> g -> bitmap_bytes fs1 (bg_block_bitmap d') = bitmap_bytes fs (bg_block_bitmap d')) /\
  bitmap_bytes fs1 (bg_inode_bitmap d') = bitmap_bytes fs (bg_inode_bitmap d').
Proof using Type*.
  intros Hd'. pose proof (alloc_geometry _ Hok) as Hg. destruct (bitmap_valid _ _ _ Hg Hd') as [Hv1 Hv2]. split.
  - intros Hne. apply (flipped_other _ _ _ _ _ Hfl); [done|]. destruct (reserved_distinct fs g' g d' d Hg Hd' Hd) as [H _]. by apply H.
  - apply (flipped_other _ _ _ _ _ Hfl); [done|]. intros Heq. by destruct (reserved_distinct fs g g' d d' Hg Hd Hd') as [_ []].
Qed.

Lemma set_block_free g' d' :
  block_group_descriptors fs' !! g' = Some d' ->
  bg_free_blocks_count d' = clear_bits (bitmap_bytes fs' (bg_block_bitmap d')) (blocks_per_group fs).
Proof using Type*.
  intros (d0 & Hd0 & -> & _ & _ & ->)%set_block_lookup. change (bitmap_bytes fs') with (bitmap_bytes fs1). destruct set_block_count as [Hc Hw].
  case_decide as Heq.
  - subst g'. assert (d0 = d) as -> by congruence. by rewrite Hw, Hc.
  - destruct (set_block_others _ _ Hd0) as [-> _]; [by apply (alloc_free_blocks _ Hok g')|done].
Qed.

Lemma set_block_total :
  s_free_blocks_count (m_super_block fs') = s_free_blocks_count (m_super_block fs) + n /\
  s_free_blocks_count (m_super_block fs') = free_sum bg_free_blocks_count (block_group_descriptors fs').
Proof using Type*.
  pose proof (alloc_geometry _ Hok) as Hg. pose proof (geo_group _ Hg). pose proof (geo_bound _ Hg).
  assert (free_sum bg_free_blocks_count (block_group_descriptors fs') = s_free_blocks_count (m_super_block fs) + n) as Hsum.
  { rewrite set_block_groups, (free_sum_alter _ _ _ _ d) by done. unfold counted. unfold set_field. cbn -[wrap].
    rewrite (proj2 set_block_count), (alloc_blocks_total _ Hok). lia. }
  pose proof (free_sum_bound bg_free_blocks_count (block_group_descriptors fs') (blocks_per_group fs)) as Hb.
  rewrite Hsum in *. rewrite set_block_groups, length_alter, <- (geo_count _ Hg) in Hb.
  assert (s_free_blocks_count (m_super_block fs') = wrap u32 (s_free_blocks_count (m_super_block fs) + n)) as ->.
  { unfold fs'. unfold count_blocks, update_group, set_field. cbn -[wrap].
    destruct (flipped_fields _ _ _ _ _ Hfl) as (_ & F2 & _). by rewrite F2. }
  rewrite (wrap_id u32 eq_refl); [done|]. rewrite in_type_u32.
  enough (0 <= s_free_blocks_count (m_super_block fs) + n <= m_block_group_count fs * blocks_per_group fs) by lia. apply Hb.
  intros i x. rewrite <- set_block_groups. intros Hx. rewrite (set_block_free _ _ Hx). apply clear_bits_bound. lia.
Qed.

Lemma set_block_used b' : 0 < b' -> used fs' b' = if b =? b' then v else used fs b'.
Proof using Type*.
  intros Hb'. pose proof (alloc_geometry _ Hok) as Hg. pose proof (geo_group _ Hg).
  pose proof (geometry_fields _ _ set_block_geometry) as (_ & Ebpg & _). pose proof (geometry_first _ _ set_block_geometry) as Efirst.
  unfold used, group_of, bit_of. rewrite Efirst, Ebpg. fold (group_of fs b') (bit_of fs b').
  change (bitmap_bytes fs') with (bitmap_bytes fs1). pose proof (group_of_nonneg fs b' Hg Hb').
  destruct (block_group_descriptors fs' !! Z.to_nat (group_of fs b')) as [d'|] eqn:Hd'.
  - destruct (set_block_lookup _ _ Hd') as (d0 & Hd0 & -> & _). rewrite Hd0. destruct (decide (Z.to_nat (group_of fs b') = g)) as [Heq|Hne].
    + assert (d0 = d) as -> by congruence.
      assert (0 <= bit_of fs b') as Hbit by (apply Z.mod_pos_bound; lia). rewrite (flipped_bits _ _ _ _ _ Hfl) by done.
      destruct (Z.eqb_spec (bit_of fs b) (bit_of fs b')) as [Hb2|Hb2].
      * rewrite (proj2 (Z.eqb_eq b b')); [done|]. apply (position_inj fs); [done|lia|done].
      * by rewrite (proj2 (Z.eqb_neq b b')) by (intros ->; done).
    + destruct (set_block_others _ _ Hd0) as [-> _]; [|done]. rewrite (proj2 (Z.eqb_neq b b')); [done|]. intros ->. lia.
  - apply lookup_ge_None in Hd'. rewrite set_block_groups, length_alter in Hd'.
    rewrite (lookup_ge_None_2 (block_group_descriptors fs)) by done.
    rewrite (proj2 (Z.eqb_neq b b')); [done|]. intros <-. apply lookup_lt_Some in Hd. lia.
Qed.

Lemma set_block_inodes i : inode_used fs' i = inode_used fs i.
Proof using Type*.
  pose proof (geometry_fields _ _ set_block_geometry) as (_ & _ & Eipg & _). unfold inode_used. rewrite Eipg.
  change (bitmap_bytes fs') with (bitmap_bytes fs1).
  destruct (block_group_descriptors fs' !! _) as [d'|] eqn:Hd'.
  - destruct (set_block_lookup _ _ Hd') as (d0 & Hd0 & _ & -> & _). rewrite Hd0. by destruct (set_block_others _ _ Hd0) as [_ ->].
  - apply lookup_ge_None in Hd'. rewrite set_block_groups, length_alter in Hd'. by rewrite (lookup_ge_None_2 (block_group_descriptors fs)) by done.
Qed.

Lemma set_block_clear g' d' i :
  block_group_descriptors fs' !! g' = Some d' -> 0 <= i < blocks_per_group fs ->
  bit (bitmap_bytes fs' (bg_block_bitmap d')) i = false -> proper fs (first_block_index fs + Z.of_nat g' * blocks_per_group fs + i).
Proof using Type*.
  intros (d0 & Hd0 & -> & _)%set_block_lookup Hi. change (bitmap_bytes fs') with (bitmap_bytes fs1).
  destruct (decide (g' = g)) as [->|Hne].
  - assert (d0 = d) as -> by congruence. rewrite (flipped_bits _ _ _ _ _ Hfl) by lia.
    destruct (Z.eqb_spec (bit_of fs b) i) as [<-|]; [|by apply (alloc_clear _ Hok)]. intros _.
    rewrite <- Hgrp. unfold group_of, bit_of. pose proof (geo_group _ (alloc_geometry _ Hok)).
    pose proof (Z.div_mod (b - first_block_index fs) (blocks_per_group fs)). replace (_ + _ + _) with b by lia. done.
  - destruct (set_block_others _ _ Hd0) as [-> _]; [|done]. by apply (alloc_clear _ Hok).
Qed.

Lemma set_block_spec : block_set fs fs' b v.
Proof using Type*.
  pose proof (alloc_geometry _ Hok) as Hg. pose proof set_block_geometry as Hgeo.
  pose proof (geometry_fields _ _ Hgeo) as (_ & Ebpg & Eipg & _ & Eino & _). pose proof (geometry_first _ _ Hgeo) as Efirst.
  assert (s_free_inodes_count (m_super_block fs') = s_free_inodes_count (m_super_block fs)) as Hfi.
  { destruct (flipped_fields _ _ _ _ _ Hfl) as (_ & F2 & _). rewrite <- F2. done. }
  split.
  - split.
    + destruct (flipped_ok _ _ _ _ _ Hfl). by split.
    + apply (geometry_ok_same fs); [done| |done]. apply (flipped_store _ _ _ _ _ Hfl).
    + intros g' d' Hd'. rewrite Ebpg. by apply (set_block_free g').
    + intros g' d' (d0 & Hd0 & _ & -> & -> & _)%set_block_lookup. rewrite Eipg. change (bitmap_bytes fs') with (bitmap_bytes fs1).
      destruct (set_block_others _ _ Hd0) as [_ ->]. by apply (alloc_free_inodes _ Hok g').
    + apply set_block_total.
    + rewrite Hfi, (alloc_inodes_total _ Hok). apply free_sum_ext.
      * by rewrite set_block_groups, length_alter.
      * intros i d0 d1 Hd0 (d2 & Hd2 & _ & _ & -> & _)%set_block_lookup. congruence.
    + intros g' d' i Hd' Hi Hbit. rewrite Ebpg in *. rewrite Efirst. apply (geometry_proper fs); [done|]. by eapply set_block_clear.
    + intros g' d' i (d0 & Hd0 & _ & -> & _)%set_block_lookup. rewrite Eipg, Eino. change (bitmap_bytes fs') with (bitmap_bytes fs1).
      destruct (set_block_others _ _ Hd0) as [_ ->]. by apply (alloc_clear_inode _ Hok g').
    + intros b'. rewrite (geometry_reserved _ _ Hgeo). intros Hb'. rewrite set_block_used by by apply (geo_reserved_blocks _ Hg).
      destruct (Z.eqb_spec b b') as [<-|]; [|by apply (alloc_reserved _ Hok)]. destruct v; [done|]. by destruct (Hres eq_refl).
  - done.
  - apply (flipped_store _ _ _ _ _ Hfl).
  - apply set_block_used.
  - apply set_block_inodes.
  - by destruct (flipped_fields _ _ _ _ _ Hfl) as (_ & _ & _ & _ & F5 & _).
  - apply set_block_total.
  - done.
  - intros g' d0 d' Hd0 (d1 & Hd1 & _ & _ & _ & ->)%set_block_lookup. assert (d1 = d0) as -> by congruence. rewrite Hgrp.
    case_decide as Heq.
    + subst g'. assert (d0 = d) as -> by congruence. by rewrite Z.eqb_refl, (proj2 set_block_count).
    + rewrite (proj2 (Z.eqb_neq _ _)) by lia. lia.
Qed.
End set_block.

Lemma group_descriptor_spec fs g d :
  geometry_ok fs -> block_group_descriptors fs !! g = Some d -> group_descriptor fs (Z.of_nat g + 1) = Ret d.
Proof.
  intros Hg Hd. pose proof (lookup_lt_Some _ _ _ Hd). pose proof (geo_count _ Hg). unfold group_descriptor.
  rewrite !VERIFY_true by lia. run. unfold load. rewrite (proj2 (Z.leb_le _ _)) by lia.
  replace (Z.to_nat (Z.of_nat g + 1 - 1)) with g by lia. by rewrite Hd.
Qed.

(** The group of a block. *)
Lemma block_group fs b :
  geometry_ok fs -> proper fs b ->
  exists g d, group_of fs b = Z.of_nat g /\ block_group_descriptors fs !! g = Some d.
Proof.
  intros Hg Hp. destruct (proper_group _ _ Hg Hp) as (_ & Hgr & _). pose proof (geo_count _ Hg) as Hc.
  destruct (lookup_lt_is_Some_2 (block_group_descriptors fs) (Z.to_nat (group_of fs b))) as [d Hd]; [lia|].
  exists (Z.to_nat (group_of fs b)), d. split; [lia|done].
Qed.

Lemma set_block_allocation_state_spec fs b v :
  alloc_ok fs -> proper fs b -> used fs b = negb v -> (v = false -> b ∉ reserved fs) ->
  exists fs', set_block_allocation_state fs b v = Ret (KSuccess, fs') /\ block_set fs fs' b v.
Proof.
  intros Hok Hp Hused Hres. pose proof (alloc_geometry _ Hok) as Hg. destruct (block_group fs b Hg Hp) as (g & d & Hgrp & Hd).
  destruct (proper_group _ _ Hg Hp) as (Hgi & _ & Hbit & Hk). pose proof (geo_group _ Hg). pose proof (block_size_cases _ Hg).
  unfold set_block_allocation_state. rewrite VERIFY_true by (destruct Hp; lia). run. rewrite Hbit, Hgi, Hgrp.
  rewrite (group_descriptor_spec _ _ _ Hg Hd). run.
  destruct (update_bitmap_block_spec fs (bg_block_bitmap d) (bit_of fs b) v (count_blocks (Z.of_nat g + 1))) as (fs1 & -> & Hfl);
    [apply Hok|by eapply bitmap_valid|done|lia..|unfold used in Hused; by rewrite Hgrp, Nat2Z.id, Hd in Hused|].
  eexists. split; [done|]. by apply (set_block_spec fs fs1 g d).
Qed.

(** Marking a block that is already in the state that is asked for is refused. *)
Lemma set_block_allocation_state_refuses fs b v :
  alloc_ok fs -> proper fs b -> used fs b = v ->
  exists fs', set_block_allocation_state fs b v = Ret (- EIO, fs') /\ quiet fs fs'.
Proof.
  intros Hok Hp Hused. pose proof (alloc_geometry _ Hok) as Hg. destruct (block_group fs b Hg Hp) as (g & d & Hgrp & Hd).
  destruct (proper_group _ _ Hg Hp) as (Hgi & _ & Hbit & Hk). pose proof (geo_group _ Hg). pose proof (block_size_cases _ Hg).
  unfold set_block_allocation_state. rewrite VERIFY_true by (destruct Hp; lia). run. rewrite Hbit, Hgi, Hgrp.
  rewrite (group_descriptor_spec _ _ _ Hg Hd). run.
  apply update_bitmap_block_refuses; [apply Hok|by eapply bitmap_valid|done|lia..|]. unfold used in Hused. by rewrite Hgrp, Nat2Z.id, Hd in Hused.
Qed.

(** ** Sets of blocks *)

(** The blocks [l] have become used, or free. *)
Record blocks_set fs fs' (l : list Z) (v : bool) : Prop := BlocksSet {
  blocks_ok : alloc_ok fs';
  blocks_geometry : geometry fs' = geometry fs;
  blocks_store : same_store (base fs) (base fs');
  blocks_used b : 0 < b -> used fs' b = if bool_decide (b ∈ l) then v else used fs b;
  blocks_inodes i : inode_used fs' i = inode_used fs i;
  blocks_cache : m_inode_cache fs' = m_inode_cache fs;
  blocks_free : s_free_blocks_count (m_super_block fs') =
    s_free_blocks_count (m_super_block fs) + (if v then - Z.of_nat (length l) else Z.of_nat (length l));
  blocks_free_inodes : s_free_inodes_count (m_super_block fs') = s_free_inodes_count (m_super_block fs);
  blocks_group_free g d d' : block_group_descriptors fs !! g = Some d -> block_group_descriptors fs' !! g = Some d' ->
    v = true -> bg_free_blocks_count d' <= bg_free_blocks_count d
}.

Lemma blocks_set_nil fs v : alloc_ok fs -> blocks_set fs fs [] v.
Proof.
  intros Hok. split; try done.
  - by apply same_store_refl, Hok.
  - destruct v; cbn; lia.
  - intros g d d' H1 H2 _. assert (d' = d) as -> by congruence. lia.
Qed.

Lemma blocks_set_cons fs fs1 fs2 b l v : block_set fs fs1 b v -> blocks_set fs1 fs2 l v -> blocks_set fs fs2 (b :: l) v.
Proof.
  intros [? G1 S1 U1 I1 C1 F1 FI1 D1] [? G2 S2 U2 I2 C2 F2 FI2 D2]. split; try congruence.
  - by eapply same_store_trans.
  - intros b' Hb'. rewrite U2, U1 by done. destruct (Z.eqb_spec b b') as [<-|Hne].
    + rewrite (bool_decide_true (b ∈ b :: l)) by left. by case_bool_decide.
    + assert (bool_decide (b' ∈ b :: l) = bool_decide (b' ∈ l)) as ->; [|done]. apply bool_decide_ext. rewrite elem_of_cons.
      split; [intros [->|]; done|by right].
  - rewrite F2, F1. cbn [length]. destruct v; lia.
  - intros g d d' Hd Hd' ->. destruct (geometry_lookup fs1 fs2 g d') as (d1 & Hd1 & _); [done..|].
    specialize (D1 _ _ _ Hd Hd1). specialize (D2 _ _ _ Hd1 Hd' eq_refl). destruct (_ =? _); lia.
Qed.

Lemma blocks_set_app fs fs1 fs2 l1 l2 v : blocks_set fs fs1 l1 v -> blocks_set fs1 fs2 l2 v -> blocks_set fs fs2 (l1 ++ l2) v.
Proof.
  intros [? G1 S1 U1 I1 C1 F1 FI1 D1] [? G2 S2 U2 I2 C2 F2 FI2 D2]. split; try congruence.
  - by eapply same_store_trans.
  - intros b' Hb'. rewrite U2, U1 by done. repeat case_bool_decide; rewrite ?elem_of_app in *; tauto || done.
  - rewrite F2, F1, length_app. destruct v; lia.
  - intros g d d' Hd Hd' ->. destruct (geometry_lookup fs1 fs2 g d') as (d1 & Hd1 & _); [done..|].
    specialize (D1 _ _ _ Hd Hd1 eq_refl). specialize (D2 _ _ _ Hd1 Hd' eq_refl). lia.
Qed.

(** What the groups say depends on the bitmaps only. *)
Lemma bitmaps_same fs fs' :
  alloc_ok fs -> fs' = fs <| base := base fs' |> <| m_cached_bitmaps := m_cached_bitmaps fs' |> -> bitmaps_ok fs' ->
  block_size fs' = block_size fs -> (forall b, store_valid (base fs') b <-> store_valid (base fs) b) ->
  (forall b, b ∈ reserved fs -> bitmap_bytes fs' b = bitmap_bytes fs b) ->
  alloc_ok fs' /\ geometry fs' = geometry fs /\ (forall b, used fs' b = used fs b) /\ (forall i, inode_used fs' i = inode_used fs i).
Proof.
  intros Hok Hr Hb Hsize Hv Hby. pose proof (alloc_geometry _ Hok) as Hg.
  assert (m_super_block fs' = m_super_block fs /\ block_group_descriptors fs' = block_group_descriptors fs) as (E1 & E2) by (rewrite Hr; by destruct fs).
  assert (geometry fs' = geometry fs) as Hgeo by (unfold geometry; rewrite Hsize, Hr; by destruct fs).
  pose proof (geometry_fields _ _ Hgeo) as (_ & Ebpg & Eipg & _). pose proof (geometry_first _ _ Hgeo) as Efirst.
  assert (forall g d, block_group_descriptors fs !! g = Some d ->
    bitmap_bytes fs' (bg_block_bitmap d) = bitmap_bytes fs (bg_block_bitmap d) /\
    bitmap_bytes fs' (bg_inode_bitmap d) = bitmap_bytes fs (bg_inode_bitmap d)) as Hbytes.
  { intros g d Hd. destruct (reserved_elem _ _ _ Hd). by rewrite !Hby. }
  assert (forall b, used fs' b = used fs b) as Hu.
  { intros b. unfold used, group_of, bit_of. rewrite E2, Ebpg, Efirst. destruct (block_group_descriptors fs !! _) eqn:Hd; [|done].
    by destruct (Hbytes _ _ Hd) as [-> _]. }
  split_and!; try done.
  - split; try done; rewrite ?E1, ?E2, ?Ebpg, ?Eipg, ?Efirst; try apply Hok.
    + by apply (geometry_ok_same fs).
    + intros g d Hd. destruct (Hbytes _ _ Hd) as [-> _]. by apply (alloc_free_blocks _ Hok g).
    + intros g d Hd. destruct (Hbytes _ _ Hd) as [_ ->]. by apply (alloc_free_inodes _ Hok g).
    + intros g d i Hd. destruct (Hbytes _ _ Hd) as [-> _]. intros. apply (geometry_proper fs); [done|]. by apply (alloc_clear _ Hok g d).
    + intros g d i Hd. destruct (Hbytes _ _ Hd) as [_ ->]. by apply (alloc_clear_inode _ Hok g).
    + intros b. rewrite (geometry_reserved _ _ Hgeo), Hu. apply (alloc_reserved _ Hok).
  - intros i. unfold inode_used. rewrite E2, Eipg. destruct (block_group_descriptors fs !! _) eqn:Hd; [|done]. by destruct (Hbytes _ _ Hd) as [_ ->].
Qed.

Lemma quiet_blocks_set fs fs' v : alloc_ok fs -> quiet fs fs' -> blocks_set fs fs' [] v.
Proof.
  intros Hok [Hr Hb Hs Hby].
  assert (m_super_block fs' = m_super_block fs /\ block_group_descriptors fs' = block_group_descriptors fs /\ m_inode_cache fs' = m_inode_cache fs)
    as (E1 & E2 & E3) by (rewrite Hr; by destruct fs).
  destruct (bitmaps_same fs fs') as (Hok' & Hgeo & Hu & Hi); [done..|apply Hs|apply Hs| |].
  { intros b Hb'. apply Hby, (geo_valid _ (alloc_geometry _ Hok)). by apply (geo_reserved_blocks _ (alloc_geometry _ Hok)). }
  split; try done; try congruence.
  - rewrite E1. destruct v; cbn; lia.
  - rewrite E2. intros g d d' H1 H2 _. assert (d' = d) as -> by congruence. lia.
Qed.

Lemma seqZ_S b n : seqZ b (Z.of_nat (Datatypes.S n)) = b :: seqZ (b + 1) (Z.of_nat n).
Proof. rewrite seqZ_cons by lia. f_equal. f_equal; lia. Qed.

Lemma mark_blocks_spec n fs b blocks :
  alloc_ok fs -> (forall i, b <= i < b + Z.of_nat n -> proper fs i /\ used fs i = false) ->
  exists fs', mark_blocks n fs b blocks = Ret (inr (blocks ++ seqZ b (Z.of_nat n)), fs') /\ blocks_set fs fs' (seqZ b (Z.of_nat n)) true.
Proof.
  revert fs b blocks. induction n as [|n IH]; intros fs b blocks Hok Hb.
  { exists fs. cbn. rewrite app_nil_r. split; [done|]. by apply blocks_set_nil. }
  cbn [mark_blocks]. destruct (Hb b ltac:(lia)) as [Hp Hu].
  destruct (set_block_allocation_state_spec fs b true) as (fs1 & -> & Hs1); [done..|]. run.
  rewrite (proj2 (Z.ltb_ge KSuccess 0)) by (unfold KSuccess; lia).
  destruct (IH fs1 (b + 1) (blocks ++ [b])) as (fs' & -> & Hs').
  - apply Hs1.
  - intros i Hi. destruct (Hb i ltac:(lia)) as [Hpi Hui]. split; [by apply (geometry_proper fs); [apply Hs1|]|].
    rewrite (set_used _ _ _ _ Hs1) by (destruct Hpi; lia). by rewrite (proj2 (Z.eqb_neq b i)) by lia.
  - exists fs'. rewrite seqZ_S, <- app_assoc. split; [done|]. by eapply blocks_set_cons.
Qed.

(** ** The group to allocate from *)

(** The groups before [group_index] have nothing to give, unless it is the preferred one. *)
Definition group_inv fs (preferred group_index : Z) : Prop :=
  exists g d, group_index = Z.of_nat g + 1 /\ block_group_descriptors fs !! g = Some d /\
    (group_index = preferred \/ forall j dj, (j < g)%nat -> block_group_descriptors fs !! j = Some dj -> bg_free_blocks_count dj = 0).

Lemma find_group_from_spec n fs g0 :
  geometry_ok fs -> Z.of_nat (n + g0) = m_block_group_count fs ->
  (exists g d, find_group_from n fs (Z.of_nat g0 + 1) = Ret (true, Z.of_nat g + 1) /\ block_group_descriptors fs !! g = Some d /\
     bg_free_blocks_count d <> 0 /\ (forall j dj, (g0 <= j < g)%nat -> block_group_descriptors fs !! j = Some dj -> bg_free_blocks_count dj = 0)) \/
  (forall j dj, (g0 <= j)%nat -> block_group_descriptors fs !! j = Some dj -> bg_free_blocks_count dj = 0).
Proof.
  intros Hg. pose proof (geo_count _ Hg) as Hc. revert g0. induction n as [|n IH]; intros g0 Hn.
  { right. intros j dj Hj Hdj. apply lookup_lt_Some in Hdj. lia. }
  cbn [find_group_from]. destruct (lookup_lt_is_Some_2 (block_group_descriptors fs) g0) as [d Hd]; [lia|].
  rewrite (group_descriptor_spec _ _ _ Hg Hd). run. destruct (Z.eqb_spec (bg_free_blocks_count d) 0) as [H0|H0]; cbn [negb].
  - replace (Z.of_nat g0 + 1 + 1) with (Z.of_nat (Datatypes.S g0) + 1) by lia.
    destruct (IH (Datatypes.S g0)) as [(g & d' & -> & Hd' & Hf & Hz)|Hz]; [lia|left|right].
    + exists g, d'. split_and!; try done. intros j dj Hj Hdj. destruct (decide (j = g0)) as [->|]; [congruence|]. apply (Hz j); [lia|done].
    + intros j dj Hj Hdj. destruct (decide (j = g0)) as [->|]; [congruence|]. apply (Hz j); [lia|done].
  - left. exists g0, d. split_and!; try done. intros j dj Hj. lia.
Qed.

Lemma find_group_spec fs preferred group_index :
  alloc_ok fs -> group_inv fs preferred group_index -> 0 < s_free_blocks_count (m_super_block fs) ->
  exists g d, find_group fs preferred group_index = Ret (true, Z.of_nat g + 1) /\ block_group_descriptors fs !! g = Some d /\
    bg_free_blocks_count d <> 0 /\ group_inv fs preferred (Z.of_nat g + 1).
Proof.
  intros Hok (g & d & -> & Hd & Hpre) Hfree. pose proof (alloc_geometry _ Hok) as Hg. unfold find_group.
  rewrite (group_descriptor_spec _ _ _ Hg Hd). run. destruct (Z.eqb_spec (bg_free_blocks_count d) 0) as [H0|H0]; cbn [negb].
  2: { exists g, d. split_and!; try done. by exists g, d. }
  assert (exists g0, (if Z.of_nat g + 1 =? preferred then 1 else Z.of_nat g + 1) = Z.of_nat g0 + 1 /\ (g0 <= g)%nat /\
    forall j dj, (j < g0)%nat -> block_group_descriptors fs !! j = Some dj -> bg_free_blocks_count dj = 0) as (g0 & -> & Hg0 & Hz0).
  { destruct (Z.eqb_spec (Z.of_nat g + 1) preferred); [exists 0%nat|exists g; destruct Hpre; [done|]]; split_and!; try done; lia. }
  pose proof (lookup_lt_Some _ _ _ Hd). pose proof (geo_count _ Hg) as Hc.
  destruct (find_group_from_spec (Z.to_nat (m_block_group_count fs - (Z.of_nat g0 + 1) + 1)) fs g0) as [(g' & d' & -> & Hd' & Hf & Hz)|Hz];
    [done|lia| |].
  - exists g', d'. split_and!; try done. exists g', d'. split_and!; try done. right. intros j dj Hj Hdj.
    destruct (decide (j < g0)%nat); [by apply (Hz0 j)|]. apply (Hz j); [lia|done].
  - rewrite (alloc_blocks_total _ Hok), free_sum_zero in Hfree; [lia|]. intros j dj Hdj.
    destruct (decide (j < g0)%nat); [by apply (Hz0 j)|]. apply (Hz j); [lia|done].
Qed.

(** A group with free blocks has a run of them, and its blocks are proper. *)
Lemma group_free_range fs g d c count :
  alloc_ok fs -> block_group_descriptors fs !! g = Some d -> bg_free_blocks_count d <> 0 ->
  view_ok (bitmap c (Z.min (blocks_per_group fs) (s_blocks_count (m_super_block fs)))) ->
  cb_buffer c = bitmap_bytes fs (bg_block_bitmap d) -> 1 <= count ->
  exists s n, BitmapView_find_longest_range_of_unset_bits
      (Z.to_nat (Z.min (blocks_per_group fs) (s_blocks_count (m_super_block fs))) + 1)
      (bitmap c (Z.min (blocks_per_group fs) (s_blocks_count (m_super_block fs)))) count = Ret (Some s, n) /\
    0 < n <= count /\ 0 <= s /\ s + n <= blocks_per_group fs /\ fits (bitmap_bytes fs (bg_block_bitmap d)) n s.
Proof.
  intros Hok Hd Hf Hview Hbuf Hc. pose proof (alloc_geometry _ Hok) as Hg. pose proof (geo_group _ Hg). pose proof (geo_total _ Hg).
  pose proof (block_size_cases _ Hg). set (m := Z.min _ _) in *.
  assert (m_size (bitmap c m) = m) as Hm by done. assert (m_data (bitmap c m) = bitmap_bytes fs (bg_block_bitmap d)) as Hdat by done.
  destruct (BitmapView_find_longest_correct (Z.to_nat m + 1) (bitmap c m) count) as (r & n & -> & Hr & Hbest);
    rewrite ?Hm; [done|lia..|]. rewrite Hm, Hdat in *. destruct r as [s|].
  { exists s, n. split_and!; try done; try lia; apply Hr. }
  exfalso. pose proof (clear_bits_bound (bitmap_bytes fs (bg_block_bitmap d)) (blocks_per_group fs)).
  destruct (count_true_some (fun i => negb (bit (bitmap_bytes fs (bg_block_bitmap d)) i)) 0 (Z.to_nat (blocks_per_group fs))) as (i & Hi & Hbit).
  { change (0 < clear_bits (bitmap_bytes fs (bg_block_bitmap d)) (blocks_per_group fs)).
    rewrite <- (alloc_free_blocks _ Hok _ _ Hd) in *. lia. }
  apply negb_true_iff in Hbit. destruct (alloc_clear _ Hok g d i Hd) as [[_ Hlt] _]; [lia|done|].
  pose proof (first_block_cases fs). assert (n = 0) as -> by done.
  enough (1 <= 0) by lia. apply (Hbest (geo_words _ Hg) i 1); [lia| |lia|].
  - subst m. nia.
  - intros j Hj. by replace j with i by lia.
Qed.

(** Blocks that become used do not change what is known of the groups. *)
Lemma group_inv_kept fs fs' preferred group_index l :
  group_inv fs preferred group_index -> blocks_set fs fs' l true -> group_inv fs' preferred group_index.
Proof.
  intros (g & d & Hgi & Hd & Hpre) Hs. destruct (geometry_fields _ _ (blocks_geometry _ _ _ _ Hs)) as (_ & Ebpg & _ & _ & _ & _ & _ & Emap).
  pose proof (geo_group _ (alloc_geometry _ (blocks_ok _ _ _ _ Hs))).
  destruct (lookup_lt_is_Some_2 (block_group_descriptors fs') g) as [d' Hd'].
  { apply (f_equal length) in Emap. rewrite !length_fmap in Emap. rewrite Emap. by eapply lookup_lt_Some. }
  exists g, d'. split_and!; try done. destruct Hpre as [|Hz]; [by left|right]. intros j dj Hj Hdj.
  destruct (geometry_lookup fs fs' j dj) as (d0 & Hd0 & _); [apply Hs|done|].
  pose proof (blocks_group_free _ _ _ _ Hs _ _ _ Hd0 Hdj eq_refl) as Hle. rewrite (Hz j d0 Hj Hd0) in Hle.
  rewrite (alloc_free_blocks _ (blocks_ok _ _ _ _ Hs) _ _ Hdj) in *.
  pose proof (clear_bits_bound (bitmap_bytes fs' (bg_block_bitmap dj)) (blocks_per_group fs')). lia.
Qed.

(** A run of clear bits is a run of free blocks. *)
Lemma free_run_blocks fs g d s n b :
  alloc_ok fs -> block_group_descriptors fs !! g = Some d -> 0 <= s -> s + n <= blocks_per_group fs ->
  fits (bitmap_bytes fs (bg_block_bitmap d)) n s ->
  s + (Z.of_nat g * blocks_per_group fs + first_block_index fs) <= b < s + (Z.of_nat g * blocks_per_group fs + first_block_index fs) + n ->
  proper fs b /\ used fs b = false.
Proof.
  intros Hok Hd Hs Hsn Hfit Hb. pose proof (geo_group _ (alloc_geometry _ Hok)).
  assert (0 <= b - first_block_index fs - Z.of_nat g * blocks_per_group fs < blocks_per_group fs) as Hk by lia.
  set (k := b - _ - _) in *. replace b with (first_block_index fs + Z.of_nat g * blocks_per_group fs + k) by (subst k; lia).
  assert (bit (bitmap_bytes fs (bg_block_bitmap d)) k = false) as Hbit by (apply Hfit; subst k; lia).
  split; [by apply (alloc_clear _ Hok g d)|]. unfold used, group_of, bit_of.
  replace (first_block_index fs + Z.of_nat g * blocks_per_group fs + k - first_block_index fs) with (k + Z.of_nat g * blocks_per_group fs) by lia.
  rewrite Z.div_add, Z.mod_add, Z.div_small, Z.mod_small by lia. by rewrite Z.add_0_l, Nat2Z.id, Hd.
Qed.

Lemma allocate_round_spec fs preferred group_index count blocks :
  alloc_ok fs -> group_inv fs preferred group_index -> 0 < s_free_blocks_count (m_super_block fs) ->
  0 <= count < 2 ^ 32 -> Z.of_nat (length blocks) < count ->
  exists fs' g' new, allocate_round fs preferred group_index count blocks = Ret (inr (g', blocks ++ new), fs') /\
    group_inv fs' preferred g' /\ blocks_set fs fs' new true /\ NoDup new /\ 0 < Z.of_nat (length new) <= count - Z.of_nat (length blocks) /\
    forall b, b ∈ new -> proper fs b /\ used fs b = false.
Proof.
  intros Hok Hinv Hfree Hcount Hlen. pose proof (alloc_geometry _ Hok) as Hg. pose proof (geo_group _ Hg). pose proof (geo_total _ Hg).
  pose proof (block_size_cases _ Hg) as Hbs. unfold allocate_round.
  destruct (find_group_spec fs preferred group_index Hok Hinv Hfree) as (g & d & -> & Hd & Hf & Hinv'). run.
  cbn [VERIFY]. run. rewrite (group_descriptor_spec _ _ _ Hg Hd). run.
  destruct (get_bitmap_block_spec fs (bg_block_bitmap d)) as (i & c & fs1 & -> & Hq & Hc & Hidx & Hbuf); [apply Hok|by eapply bitmap_valid|]. run.
  unfold cached_bitmap. rewrite Hc. run. pose proof (quiet_blocks_set _ _ true Hok Hq) as Hs1.
  assert (m_super_block fs1 = m_super_block fs /\ block_group_descriptors fs1 = block_group_descriptors fs) as [Esb Ed]
    by (rewrite (quiet_rest _ _ Hq); by destruct fs).
  assert (blocks_per_group fs1 = blocks_per_group fs) as Ebpg by (unfold blocks_per_group; by rewrite Esb).
  pose proof (geometry_first _ _ (blocks_geometry _ _ _ _ Hs1)) as Efirst. rewrite Ebpg, Esb, Efirst.
  unfold size_t. rewrite (wrap_id u32 eq_refl) by (rewrite in_type_u32; lia).
  destruct (group_free_range fs g d c (count - Z.of_nat (length blocks)) Hok Hd Hf) as (s & n & -> & Hn & Hs & Hsn & Hfit); [|done|lia|].
  { apply (cached_view_ok fs1 i); [apply Hq|done|..]; unfold block_size in *; rewrite (same_store_size _ _ (quiet_store _ _ Hq)); lia. }
  run. set (first := s + _).
  assert (forall b, first <= b < first + n -> proper fs b /\ used fs b = false) as Hnew.
  { intros b Hb. apply (free_run_blocks fs g d s n); try done. subst first. lia. }
  destruct (mark_blocks_spec (Z.to_nat n) fs1 first blocks) as (fs2 & -> & Hs2); [apply Hs1| |].
  { intros b Hb. destruct (Hnew b) as [Hp Hu]; [lia|]. split; [by apply (geometry_proper fs); [apply Hs1|]|].
    rewrite (blocks_used _ _ _ _ Hs1) by (destruct Hp; lia). done. }
  run. replace (Z.of_nat (Z.to_nat n)) with n in * by lia. exists fs2, (Z.of_nat g + 1), (seqZ first n).
  pose proof (blocks_set_app _ _ _ _ _ _ Hs1 Hs2) as Hs12. cbn [app] in Hs12. split; [done|]. split; [|split_and!].
  - by eapply group_inv_kept.
  - done.
  - apply NoDup_seqZ.
  - rewrite length_seqZ. lia.
  - rewrite length_seqZ. lia.
  - intros b Hb%elem_of_seqZ. by apply Hnew.
Qed.

Lemma allocate_loop_spec fuel fs preferred group_index count blocks :
  alloc_ok fs -> group_inv fs preferred group_index -> 0 <= count < 2 ^ 32 ->
  Z.of_nat (length blocks) <= count -> count - Z.of_nat (length blocks) <= Z.of_nat fuel ->
  count - Z.of_nat (length blocks) <= s_free_blocks_count (m_super_block fs) ->
  exists fs' new, allocate_loop fuel fs preferred group_index count blocks = Ret (inr (blocks ++ new), fs') /\
    Z.of_nat (length (blocks ++ new)) = count /\ blocks_set fs fs' new true /\ NoDup new /\
    forall b, b ∈ new -> proper fs b /\ used fs b = false.
Proof.
  revert fs group_index blocks. induction fuel as [|fuel IH]; intros fs group_index blocks Hok Hinv Hc Hlen Hfuel Hfree; cbn [allocate_loop].
  all: destruct (Z.ltb_spec (Z.of_nat (length blocks)) count) as [Hlt|Hge]; try lia.
  2: destruct (allocate_round_spec fs preferred group_index count blocks) as (fs1 & g1 & new1 & -> & Hinv1 & Hs1 & Hnd1 & Hl1 & Hn1);
       [done|done|lia..|].
  1, 3: rewrite VERIFY_true by lia; run; exists fs, []; rewrite app_nil_r; split_and!; try done; try lia;
    [by apply blocks_set_nil|apply NoDup_nil_2|intros b Hb; by apply elem_of_nil in Hb].
  run. pose proof (blocks_free _ _ _ _ Hs1) as Hf1. cbn beta iota in Hf1.
  destruct (IH fs1 g1 (blocks ++ new1)) as (fs' & new & -> & Hl & Hs & Hnd & Hn); try done; rewrite ?length_app in *; try lia; [apply Hs1|].
  exists fs', (new1 ++ new). rewrite <- app_assoc. split; [done|]. split; [rewrite !length_app; lia|]. split; [by eapply blocks_set_app|].
  assert (forall b, b ∈ new -> (b ∉ new1) /\ proper fs b /\ used fs b = false) as Hnew.
  { intros b Hb. destruct (Hn b Hb) as [Hp Hu]. apply (geometry_proper fs) in Hp; [|apply Hs1].
    rewrite (blocks_used _ _ _ _ Hs1) in Hu by (destruct Hp; lia). case_bool_decide; [done|]. done. }
  split.
  - apply NoDup_app. split_and!; try done. intros b Hb Hb'. by destruct (Hnew b Hb').
  - intros b [Hb|Hb]%elem_of_app; [by apply Hn1|]. by apply Hnew.
Qed.

(** The group [allocate_blocks] starts with. *)
Lemma allocate_start fs preferred :
  alloc_ok fs -> 1 <= preferred <= m_block_group_count fs ->
  exists d, group_descriptor fs preferred = Ret d /\
    group_inv fs preferred (if bg_free_blocks_count d =? 0 then 1 else preferred).
Proof.
  intros Hok Hp. pose proof (alloc_geometry _ Hok) as Hg.
  destruct (lookup_lt_is_Some_2 (block_group_descriptors fs) (Z.to_nat (preferred - 1))) as [d Hd]; [pose proof (geo_count _ Hg); lia|].
  pose proof (group_descriptor_spec _ _ _ Hg Hd) as Hgd. replace (Z.of_nat _ + 1) with preferred in Hgd by lia.
  exists d. split; [done|]. destruct (_ =? _).
  - destruct (lookup_lt_is_Some_2 (block_group_descriptors fs) 0) as [d0 Hd0]; [pose proof (geo_count _ Hg); lia|].
    exists 0%nat, d0. split_and!; try done. right. lia.
  - exists (Z.to_nat (preferred - 1)), d. split_and!; [lia|done|by left].
Qed.

Lemma group_free_bound fs g d :
  alloc_ok fs -> block_group_descriptors fs !! g = Some d -> 0 <= bg_free_blocks_count d <= blocks_per_group fs.
Proof.
  intros Hok Hd. rewrite (alloc_free_blocks _ Hok _ _ Hd). apply clear_bits_bound.
  pose proof (geo_group _ (alloc_geometry _ Hok)). lia.
Qed.

Lemma free_blocks_nonneg fs : alloc_ok fs -> 0 <= s_free_blocks_count (m_super_block fs).
Proof.
  intros Hok. rewrite (alloc_blocks_total _ Hok). apply (free_sum_bound _ _ (blocks_per_group fs)).
  intros i x Hx. by eapply group_free_bound.
Qed.

Lemma allocate_blocks_spec fs preferred count :
  alloc_ok fs -> 1 <= preferred <= m_block_group_count fs -> 0 <= count <= s_free_blocks_count (m_super_block fs) ->
  exists fs' blocks, allocate_blocks fs preferred count = Ret (inr blocks, fs') /\
    Z.of_nat (length blocks) = count /\ NoDup blocks /\ (forall b, b ∈ blocks -> proper fs b /\ used fs b = false) /\
    blocks_set fs fs' blocks true.
Proof.
  intros Hok Hp Hc. pose proof (alloc_geometry _ Hok) as Hg. unfold allocate_blocks. destruct (Z.eqb_spec count 0) as [->|Hne].
  { exists fs, []. split_and!; try done; [apply NoDup_nil_2|intros b Hb; by apply elem_of_nil in Hb|by apply blocks_set_nil]. }
  destruct (allocate_start fs preferred Hok Hp) as (d & -> & Hstart). run.
  assert (s_free_blocks_count (m_super_block fs) < 2 ^ 32) as H32.
  { rewrite (alloc_blocks_total _ Hok). pose proof (free_sum_bound bg_free_blocks_count (block_group_descriptors fs) (blocks_per_group fs)) as Hb.
    rewrite <- (geo_count _ Hg) in Hb. pose proof (geo_bound _ Hg).
    enough (free_sum bg_free_blocks_count (block_group_descriptors fs) <= m_block_group_count fs * blocks_per_group fs) by lia.
    apply Hb. intros i x Hx. by eapply group_free_bound. }
  destruct (allocate_loop_spec (Z.to_nat count) fs preferred (if bg_free_blocks_count d =? 0 then 1 else preferred) count [])
    as (fs' & new & -> & Hl & Hs & Hnd & Hn); [done|done|cbn; lia..|]. by exists fs', new.
Qed.

(** When no block is free no group is found, and the [VERIFY] of the loop fails. *)
Lemma find_group_none fs preferred group_index :
  alloc_ok fs -> group_inv fs preferred group_index -> s_free_blocks_count (m_super_block fs) = 0 ->
  exists g, find_group fs preferred group_index = Ret (false, g).
Proof.
  intros Hok (g & d & -> & Hd & _) Hfree. pose proof (alloc_geometry _ Hok) as Hg. pose proof (geo_count _ Hg) as Hc.
  assert (forall j dj, block_group_descriptors fs !! j = Some dj -> bg_free_blocks_count dj = 0) as Hz.
  { intros j dj Hj. pose proof (group_free_bound fs j dj Hok Hj).
    pose proof (free_sum_alter bg_free_blocks_count (fun d => d <| bg_free_blocks_count := 0 |>) _ j dj Hj) as Ha.
    rewrite <- (alloc_blocks_total _ Hok), Hfree in Ha. cbn in Ha.
    enough (0 <= free_sum bg_free_blocks_count (alter (fun d => d <| bg_free_blocks_count := 0 |>) j (block_group_descriptors fs))) by lia.
    apply (free_sum_bound _ _ (blocks_per_group fs)). intros i x (x0 & Hx & ->)%lookup_alter_cases.
    pose proof (group_free_bound fs i x0 Hok Hx). case_decide; cbn; lia. }
  assert (forall n j, (n + j)%nat = length (block_group_descriptors fs) ->
    exists k, find_group_from n fs (Z.of_nat j + 1) = Ret (false, k)) as Hfrom.
  { induction n as [|n IH]; intros j Hj; [by eexists|]. cbn [find_group_from].
    destruct (lookup_lt_is_Some_2 (block_group_descriptors fs) j) as [dj Hdj]; [lia|].
    rewrite (group_descriptor_spec _ _ _ Hg Hdj). run. rewrite (Hz _ _ Hdj). cbn [Z.eqb negb].
    replace (Z.of_nat j + 1 + 1) with (Z.of_nat (Datatypes.S j) + 1) by lia. apply IH. lia. }
  unfold find_group. rewrite (group_descriptor_spec _ _ _ Hg Hd). run. rewrite (Hz _ _ Hd). cbn [Z.eqb negb].
  pose proof (lookup_lt_Some _ _ _ Hd). destruct (Z.eqb_spec (Z.of_nat g + 1) preferred).
  - apply (Hfrom _ 0%nat). lia.
  - apply (Hfrom _ g). lia.
Qed.

Lemma allocate_loop_fails fuel fs preferred group_index count blocks :
  alloc_ok fs -> group_inv fs preferred group_index -> 0 <= count < 2 ^ 32 ->
  count - Z.of_nat (length blocks) <= Z.of_nat fuel ->
  s_free_blocks_count (m_super_block fs) < count - Z.of_nat (length blocks) ->
  allocate_loop fuel fs preferred group_index count blocks = Stop VerifyFailed.
Proof.
  revert fs group_index blocks. induction fuel as [|fuel IH]; intros fs group_index blocks Hok Hinv Hc Hfuel Hfree;
    pose proof (free_blocks_nonneg fs Hok); [lia|].
  cbn [allocate_loop]. rewrite (proj2 (Z.ltb_lt _ _)) by lia.
  destruct (decide (s_free_blocks_count (m_super_block fs) = 0)) as [H0|H0].
  - unfold allocate_round. destruct (find_group_none fs preferred group_index Hok Hinv H0) as (g & ->). by run.
  - destruct (allocate_round_spec fs preferred group_index count blocks) as (fs1 & g1 & new1 & -> & Hinv1 & Hs1 & Hnd1 & Hl1 & Hn1);
      [done|done|lia..|]. run.
    pose proof (blocks_free _ _ _ _ Hs1) as Hf1. cbn beta iota in Hf1.
    pose proof (free_blocks_nonneg fs1 (blocks_ok _ _ _ _ Hs1)). apply IH; rewrite ?length_app; [apply Hs1|done|done|lia|lia].
Qed.

Lemma allocate_blocks_fails fs preferred count :
  alloc_ok fs -> 1 <= preferred <= m_block_group_count fs ->
  s_free_blocks_count (m_super_block fs) < count < 2 ^ 32 ->
  allocate_blocks fs preferred count = Stop VerifyFailed.
Proof.
  intros Hok Hp Hc. pose proof (free_blocks_nonneg fs Hok).
  destruct (allocate_start fs preferred Hok Hp) as (d & Hd & Hstart).
  unfold allocate_blocks. rewrite (proj2 (Z.eqb_neq count 0)) by lia. rewrite Hd. run.
  apply allocate_loop_fails; try done; cbn [length]; lia.
Qed.

(** C12. [allocate_blocks] on a consistent file system ([alloc_ok]: the bitmaps and
    counters agree, the bits of a bitmap that are searched are a multiple of 32, and every
    clear bit is that of a block whose bit the code can find again, [proper]), for at most
    as many blocks as are free, returns exactly the number of blocks that is asked for,
    all different, none of them in use before and all of them marked afterwards; nothing
    else becomes used or free, the counters of the super block and of the groups go on
    agreeing with the bitmaps, and no block of the disk is changed. When more blocks are
    asked for than are free the kernel stops at the VERIFY that a group was found. *)
Theorem Ext2FS_allocate_blocks_correct fs preferred count :
  alloc_ok fs -> 1 <= preferred <= m_block_group_count fs ->
  (0 <= count <= s_free_blocks_count (m_super_block fs) ->
   exists fs' blocks, allocate_blocks fs preferred count = Ret (inr blocks, fs') /\
     Z.of_nat (length blocks) = count /\ NoDup blocks /\ (forall b, b ∈ blocks -> proper fs b /\ used fs b = false) /\
     blocks_set fs fs' blocks true) /\
  (s_free_blocks_count (m_super_block fs) < count < 2 ^ 32 -> allocate_blocks fs preferred count = Stop VerifyFailed).
Proof. intros Hok Hp. split; intros Hc; [by apply allocate_blocks_spec|by apply allocate_blocks_fails]. Qed.

(** ** Inodes *)

(** The state of one inode has changed. *)
Record inode_set fs fs' (i : Z) (v : bool) : Prop := InodeSet {
  inode_set_ok : alloc_ok fs';
  inode_set_geometry : geometry fs' = geometry fs;
  inode_set_store : same_store (base fs) (base fs');
  inode_set_used b : 0 < b -> used fs' b = used fs b;
  inode_set_inodes j : 0 < j -> inode_used fs' j = if i =? j then v else inode_used fs j;
  inode_set_free : s_free_blocks_count (m_super_block fs') = s_free_blocks_count (m_super_block fs);
  inode_set_free_inodes : s_free_inodes_count (m_super_block fs') = s_free_inodes_count (m_super_block fs) + (if v then - 1 else 1)
}.

Section set_inode.
Context (fs fs1 : Ext2FS S) (g : nat) (d : ext2_group_desc) (k : Z) (v : bool) (cache : gmap Z (option Ext2FSInode)).
Context (Hok : alloc_ok fs) (Hd : block_group_descriptors fs !! g = Some d) (Hk : 0 <= k < inodes_per_group fs).
Context (Hbound : Z.of_nat g * inodes_per_group fs + k < s_inodes_count (m_super_block fs)).
Context (Hold : bit (bitmap_bytes fs (bg_inode_bitmap d)) k = negb v).
Context (Hfl : flipped fs fs1 (bg_inode_bitmap d) k v).

Let n : Z := if v then - 1 else 1.
Let i : Z := Z.of_nat g * inodes_per_group fs + k + 1.
Let fs' : Ext2FS S :=
  count_inodes (Z.of_nat g + 1) fs1 n <| m_super_block_dirty := true |> <| m_block_group_descriptors_dirty := true |>
    <| m_inode_cache := cache |>.
Let counted (x : ext2_group_desc) : ext2_group_desc := x <| bg_free_inodes_count := wrap u16 (bg_free_inodes_count x + n) |>.

Lemma set_inode_groups : block_group_descriptors fs' = alter counted g (block_group_descriptors fs).
Proof using Type*.
  destruct (flipped_fields _ _ _ _ _ Hfl) as (_ & _ & _ & F4 & _). unfold fs', counted, count_inodes, update_group, set_field. cbn.
  rewrite F4. by replace (Z.to_nat (Z.of_nat g + 1 - 1)) with g by lia.
Qed.

Lemma set_inode_geometry : geometry fs' = geometry fs.
Proof using Type*.
  destruct (flipped_fields _ _ _ _ _ Hfl) as (F1 & F2 & F3 & _ & _ & F6). unfold geometry.
  rewrite set_inode_groups, fmap_alter_same by done.
  assert (block_size fs' = block_size fs) as -> by exact F6. assert (m_block_group_count fs' = m_block_group_count fs) as -> by exact F3.
  assert (m_readonly fs' = m_readonly fs) as -> by exact F1.
  assert (m_super_block fs' = m_super_block fs <| s_free_inodes_count := wrap u32 (s_free_inodes_count (m_super_block fs) + n) |>) as ->
    by (rewrite <- F2; reflexivity).
  by destruct (m_super_block fs).
Qed.

Lemma set_inode_lookup g' d' :
  block_group_descriptors fs' !! g' = Some d' -> exists d0, block_group_descriptors fs !! g' = Some d0 /\
    bg_block_bitmap d' = bg_block_bitmap d0 /\ bg_inode_bitmap d' = bg_inode_bitmap d0 /\
    bg_free_blocks_count d' = bg_free_blocks_count d0 /\
    bg_free_inodes_count d' = if decide (g = g') then wrap u16 (bg_free_inodes_count d0 + n) else bg_free_inodes_count d0.
Proof using Type*. rewrite set_inode_groups. intros (d0 & ? & ->)%lookup_alter_cases. exists d0. by case_decide. Qed.

Lemma set_inode_count :
  clear_bits (bitmap_bytes fs1 (bg_inode_bitmap d)) (inodes_per_group fs) = bg_free_inodes_count d + n /\
  wrap u16 (bg_free_inodes_count d + n) = bg_free_inodes_count d + n.
Proof using Type*.
  pose proof (alloc_geometry _ Hok) as Hg. pose proof (geo_group _ Hg). pose proof (geo_inodes _ Hg). pose proof (block_size_cases _ Hg).
  assert (clear_bits (bitmap_bytes fs1 (bg_inode_bitmap d)) (inodes_per_group fs) = bg_free_inodes_count d + n) as Hc.
  { rewrite (alloc_free_inodes _ Hok _ _ Hd). apply (clear_bits_flip _ _ k); [apply (flipped_bits _ _ _ _ _ Hfl)|done..]. }
  split; [done|]. apply (wrap_id u16 eq_refl). rewrite in_type_u16.
  pose proof (clear_bits_bound (bitmap_bytes fs1 (bg_inode_bitmap d)) (inodes_per_group fs) ltac:(lia)). lia.
Qed.

Lemma set_inode_others g' d' :
  block_group_descriptors fs !! g' = Some d' ->
  (g' <> g -> bitmap_bytes fs1 (bg_inode_bitmap d') = bitmap_bytes fs (bg_inode_bitmap d')) /\
  bitmap_bytes fs1 (bg_block_bitmap d') = bitmap_bytes fs (bg_block_bitmap d').
Proof using Type*.
  intros Hd'. pose proof (alloc_geometry _ Hok) as Hg. destruct (bitmap_valid _ _ _ Hg Hd') as [Hv1 Hv2]. split.
  - intros Hne. apply (flipped_other _ _ _ _ _ Hfl); [done|]. destruct (reserved_distinct fs g' g d' d Hg Hd' Hd) as [Hx _]. by apply Hx.
  - apply (flipped_other _ _ _ _ _ Hfl); [done|]. by destruct (reserved_distinct fs g' g d' d Hg Hd' Hd) as [_ ?].
Qed.

Lemma set_inode_free g' d' :
  block_group_descriptors fs' !! g' = Some d' ->
  bg_free_inodes_count d' = clear_bits (bitmap_bytes fs' (bg_inode_bitmap d')) (inodes_per_group fs).
Proof using Type*.
  intros (d0 & Hd0 & _ & -> & _ & ->)%set_inode_lookup. change (bitmap_bytes fs') with (bitmap_bytes fs1). destruct set_inode_count as [Hc Hw].
  case_decide as Heq.
  - subst g'. assert (d0 = d) as -> by congruence. by rewrite Hw, Hc.
  - destruct (set_inode_others _ _ Hd0) as [-> _]; [by apply (alloc_free_inodes _ Hok g')|done].
Qed.

Lemma set_inode_total :
  s_free_inodes_count (m_super_block fs') = s_free_inodes_count (m_super_block fs) + n /\
  s_free_inodes_count (m_super_block fs') = free_sum bg_free_inodes_count (block_group_descriptors fs').
Proof using Type*.
  pose proof (alloc_geometry _ Hok) as Hg. pose proof (geo_inodes _ Hg). pose proof (geo_bound _ Hg).
  assert (free_sum bg_free_inodes_count (block_group_descriptors fs') = s_free_inodes_count (m_super_block fs) + n) as Hsum.
  { rewrite set_inode_groups, (free_sum_alter _ _ _ _ d) by done. unfold counted, set_field. cbn -[wrap].
    rewrite (proj2 set_inode_count), (alloc_inodes_total _ Hok). lia. }
  pose proof (free_sum_bound bg_free_inodes_count (block_group_descriptors fs') (inodes_per_group fs)) as Hb.
  rewrite Hsum in *. rewrite set_inode_groups, length_alter, <- (geo_count _ Hg) in Hb.
  assert (s_free_inodes_count (m_super_block fs') = wrap u32 (s_free_inodes_count (m_super_block fs) + n)) as ->.
  { unfold fs', count_inodes, update_group, set_field. cbn -[wrap]. destruct (flipped_fields _ _ _ _ _ Hfl) as (_ & F2 & _). by rewrite F2. }
  rewrite (wrap_id u32 eq_refl); [done|]. rewrite in_type_u32.
  enough (0 <= s_free_inodes_count (m_super_block fs) + n <= m_block_group_count fs * inodes_per_group fs) by nia. apply Hb.
  intros j x. rewrite <- set_inode_groups. intros Hx. rewrite (set_inode_free _ _ Hx). apply clear_bits_bound. lia.
Qed.

Lemma set_inode_used b : used fs' b = used fs b.
Proof using Type*.
  pose proof (geometry_fields _ _ set_inode_geometry) as (_ & Ebpg & _). pose proof (geometry_first _ _ set_inode_geometry) as Efirst.
  unfold used, group_of, bit_of. rewrite Ebpg, Efirst. change (bitmap_bytes fs') with (bitmap_bytes fs1).
  destruct (block_group_descriptors fs' !! _) as [d'|] eqn:Hd'.
  - destruct (set_inode_lookup _ _ Hd') as (d0 & Hd0 & -> & _). rewrite Hd0. by destruct (set_inode_others _ _ Hd0) as [_ ->].
  - apply lookup_ge_None in Hd'. rewrite set_inode_groups, length_alter in Hd'. by rewrite (lookup_ge_None_2 (block_group_descriptors fs)) by done.
Qed.

Lemma set_inode_inodes j : 0 < j -> inode_used fs' j = if i =? j then v else inode_used fs j.
Proof using Type*.
  intros Hj. pose proof (geometry_fields _ _ set_inode_geometry) as (_ & _ & Eipg & _). unfold inode_used. rewrite Eipg.
  change (bitmap_bytes fs') with (bitmap_bytes fs1). pose proof (geo_inodes _ (alloc_geometry _ Hok)) as Hipg.
  pose proof (Z.div_mod (j - 1) (inodes_per_group fs)) as Hdm. pose proof (Z.mod_pos_bound (j - 1) (inodes_per_group fs)) as Hm.
  assert (0 <= (j - 1) / inodes_per_group fs) by (apply Z.div_pos; lia). set (q := (j - 1) / _) in *. set (r := (j - 1) mod _) in *.
  assert (i = j -> q = Z.of_nat g /\ r = k) as Hij.
  { intros <-. subst q r. unfold i. replace (_ + 1 - 1) with (k + Z.of_nat g * inodes_per_group fs) by lia.
    rewrite Z.div_add, Z.mod_add, Z.div_small, Z.mod_small by lia. lia. }
  destruct (block_group_descriptors fs' !! Z.to_nat q) as [d'|] eqn:Hd'.
  - destruct (set_inode_lookup _ _ Hd') as (d0 & Hd0 & _ & -> & _). rewrite Hd0. destruct (decide (Z.to_nat q = g)) as [Heq|Hne].
    + assert (d0 = d) as -> by congruence. rewrite (flipped_bits _ _ _ _ _ Hfl) by lia.
      destruct (Z.eqb_spec k r) as [Heqk|Hnek].
      * rewrite (proj2 (Z.eqb_eq i j)); [done|]. unfold i. rewrite Heqk, <- Heq. lia.
      * rewrite (proj2 (Z.eqb_neq i j)); [done|]. intros Hx. destruct (Hij Hx). lia.
    + destruct (set_inode_others _ _ Hd0) as [-> _]; [|done]. rewrite (proj2 (Z.eqb_neq i j)); [done|]. intros Hx. destruct (Hij Hx). lia.
  - apply lookup_ge_None in Hd'. rewrite set_inode_groups, length_alter in Hd'.
    rewrite (lookup_ge_None_2 (block_group_descriptors fs)) by done. rewrite (proj2 (Z.eqb_neq i j)); [done|]. intros Hx. destruct (Hij Hx).
    apply lookup_lt_Some in Hd. lia.
Qed.

Lemma set_inode_spec : inode_set fs fs' i v.
Proof using Type*.
  pose proof (alloc_geometry _ Hok) as Hg. pose proof set_inode_geometry as Hgeo.
  pose proof (geometry_fields _ _ Hgeo) as (_ & Ebpg & Eipg & _ & Eino & _). pose proof (geometry_first _ _ Hgeo) as Efirst.
  assert (s_free_blocks_count (m_super_block fs') = s_free_blocks_count (m_super_block fs)) as Hfb.
  { destruct (flipped_fields _ _ _ _ _ Hfl) as (_ & F2 & _). rewrite <- F2. done. }
  split.
  - split.
    + destruct (flipped_ok _ _ _ _ _ Hfl). by split.
    + apply (geometry_ok_same fs); [done| |done]. apply (flipped_store _ _ _ _ _ Hfl).
    + intros g' d' (d0 & Hd0 & -> & _ & -> & _)%set_inode_lookup. rewrite Ebpg. change (bitmap_bytes fs') with (bitmap_bytes fs1).
      destruct (set_inode_others _ _ Hd0) as [_ ->]. by apply (alloc_free_blocks _ Hok g').
    + intros g' d' Hd'. rewrite Eipg. by apply (set_inode_free g').
    + rewrite Hfb, (alloc_blocks_total _ Hok). apply free_sum_ext.
      * by rewrite set_inode_groups, length_alter.
      * intros j d0 d1 Hd0 (d2 & Hd2 & _ & _ & -> & _)%set_inode_lookup. congruence.
    + apply set_inode_total.
    + intros g' d' j (d0 & Hd0 & -> & _)%set_inode_lookup. rewrite Ebpg, Efirst. change (bitmap_bytes fs') with (bitmap_bytes fs1).
      destruct (set_inode_others _ _ Hd0) as [_ ->]. intros. apply (geometry_proper fs); [done|]. by apply (alloc_clear _ Hok g' d0).
    + intros g' d' j (d0 & Hd0 & _ & -> & _)%set_inode_lookup. rewrite Eipg, Eino. change (bitmap_bytes fs') with (bitmap_bytes fs1).
      intros Hj. destruct (decide (g' = g)) as [->|Hne].
      * assert (d0 = d) as -> by congruence. rewrite (flipped_bits _ _ _ _ _ Hfl) by lia.
        destruct (Z.eqb_spec k j) as [<-|]; [done|]. by apply (alloc_clear_inode _ Hok g).
      * destruct (set_inode_others _ _ Hd0) as [-> _]; [|done]. by apply (alloc_clear_inode _ Hok g').
    + intros b'. rewrite (geometry_reserved _ _ Hgeo), set_inode_used. apply (alloc_reserved _ Hok).
  - done.
  - apply (flipped_store _ _ _ _ _ Hfl).
  - intros b _. apply set_inode_used.
  - apply set_inode_inodes.
  - done.
  - apply set_inode_total.
Qed.
End set_inode.

(** A group that can take an inode. *)
Definition suitable (d : ext2_group_desc) : Prop := bg_free_inodes_count d <> 0 /\ 1 <= bg_free_blocks_count d.

Lemma is_suitable_group_spec fs g d :
  geometry_ok fs -> block_group_descriptors fs !! g = Some d ->
  exists b, is_suitable_group fs (Z.of_nat g + 1) = Ret b /\ (b = true <-> suitable d).
Proof.
  intros Hg Hd. unfold is_suitable_group, suitable. rewrite (group_descriptor_spec _ _ _ Hg Hd). run.
  eexists. split; [done|]. rewrite andb_true_iff, negb_true_iff, Z.eqb_neq, Z.leb_le. done.
Qed.

Lemma find_suitable_group_spec n fs g0 :
  geometry_ok fs -> Z.of_nat (n + g0) = m_block_group_count fs ->
  (exists g d, find_suitable_group n fs (Z.of_nat g0 + 1) = Ret (Z.of_nat g + 1) /\ block_group_descriptors fs !! g = Some d /\ suitable d) \/
  (find_suitable_group n fs (Z.of_nat g0 + 1) = Ret 0 /\
   forall j dj, (g0 <= j)%nat -> block_group_descriptors fs !! j = Some dj -> ~ suitable dj).
Proof.
  intros Hg. pose proof (geo_count _ Hg) as Hc. revert g0. induction n as [|n IH]; intros g0 Hn.
  { right. split; [done|]. intros j dj Hj Hdj. apply lookup_lt_Some in Hdj. lia. }
  cbn [find_suitable_group]. destruct (lookup_lt_is_Some_2 (block_group_descriptors fs) g0) as [d Hd]; [lia|].
  destruct (is_suitable_group_spec fs g0 d Hg Hd) as (b & -> & Hb). run. destruct b.
  { left. exists g0, d. split_and!; try done; by apply Hb. }
  replace (Z.of_nat g0 + 1 + 1) with (Z.of_nat (Datatypes.S g0) + 1) by lia.
  destruct (IH (Datatypes.S g0)) as [?|[-> Hz]]; [lia|by left|right]. split; [done|]. intros j dj Hj Hdj.
  destruct (decide (j = g0)) as [->|]; [|apply (Hz j); [lia|done]].
  assert (dj = d) as -> by congruence. intros Hs%Hb. done.
Qed.

Lemma find_clear_bit_spec n v i :
  view_ok v -> 0 <= i -> i + Z.of_nat n = m_size v ->
  exists r, find_clear_bit n v i = Ret r /\
    match r with
    | Some k => i <= k < m_size v /\ bit (m_data v) k = false
    | None => forall k, i <= k < m_size v -> bit (m_data v) k = true
    end.
Proof.
  intros Hv. revert i. induction n as [|n IH]; intros i Hi Hn.
  { exists None. split; [done|]. lia. }
  cbn [find_clear_bit]. rewrite (get_spec _ i) by (try done; lia). run. destruct (bit (m_data v) i) eqn:Hb.
  - destruct (IH (i + 1)) as (r & -> & Hr); [lia..|]. exists r. split; [done|]. destruct r as [k|].
    + split; [lia|apply Hr].
    + intros k Hk. destruct (decide (k = i)) as [->|]; [done|]. apply Hr. lia.
  - exists (Some i). split; [done|]. split; [lia|done].
Qed.

(** The number that the [k]-th bit of the bitmap of group [g] stands for. *)
Lemma inode_used_bit fs g d k :
  geometry_ok fs -> block_group_descriptors fs !! g = Some d -> 0 <= k < inodes_per_group fs ->
  inode_used fs (Z.of_nat g * inodes_per_group fs + k + 1) = bit (bitmap_bytes fs (bg_inode_bitmap d)) k.
Proof.
  intros Hg Hd Hk. unfold inode_used. replace (_ + k + 1 - 1) with (k + Z.of_nat g * inodes_per_group fs) by lia.
  rewrite Z.div_add, Z.mod_add, Z.div_small, Z.mod_small by lia. by rewrite Z.add_0_l, Nat2Z.id, Hd.
Qed.

(** In a suitable group there is an inode for the taking. *)
Lemma allocate_inode_in fs g d preferred suitable0 :
  alloc_ok fs -> block_group_descriptors fs !! g = Some d -> suitable d ->
  (if negb (preferred =? 0) then is_suitable_group fs preferred else Ret false) = Ret suitable0 ->
  (if suitable0 then Ret preferred else find_suitable_group (Z.to_nat (m_block_group_count fs)) fs 1) = Ret (Z.of_nat g + 1) ->
  exists fs' i, allocate_inode fs preferred = Ret (inr i, fs') /\ 1 <= i <= s_inodes_count (m_super_block fs) /\
    inode_used fs i = false /\ inode_set fs fs' i true /\ m_inode_cache fs' = delete i (m_inode_cache fs).
Proof.
  intros Hok Hd [Hfree _] Hpre Hgrp. pose proof (alloc_geometry _ Hok) as Hg. pose proof (geo_inodes _ Hg). pose proof (geo_group _ Hg).
  pose proof (block_size_cases _ Hg). pose proof (geo_bound _ Hg). pose proof (geo_total_inodes _ Hg).
  unfold allocate_inode. rewrite Hpre. run. rewrite Hgrp. run.
  rewrite (proj2 (Z.eqb_neq (Z.of_nat g + 1) 0)) by lia. rewrite (group_descriptor_spec _ _ _ Hg Hd). run.
  destruct (get_bitmap_block_spec fs (bg_inode_bitmap d)) as (i & c & fs1 & -> & Hq & Hc & Hidx & Hbuf); [apply Hok|by eapply bitmap_valid|]. run.
  unfold cached_bitmap. rewrite Hc. run. set (m := Z.min _ _).
  assert (view_ok (bitmap c m)) as Hview.
  { apply (cached_view_ok fs1 i); [apply Hq|done|..]; unfold block_size in *; rewrite (same_store_size _ _ (quiet_store _ _ Hq)); lia. }
  destruct (count_true_some (fun i => negb (bit (bitmap_bytes fs (bg_inode_bitmap d)) i)) 0 (Z.to_nat (inodes_per_group fs))) as (k0 & Hk0 & Hb0).
  { change (0 < clear_bits (bitmap_bytes fs (bg_inode_bitmap d)) (inodes_per_group fs)). pose proof (clear_bits_bound (bitmap_bytes fs (bg_inode_bitmap d)) (inodes_per_group fs)).
    rewrite <- (alloc_free_inodes _ Hok _ _ Hd) in *. lia. }
  apply negb_true_iff in Hb0. pose proof (alloc_clear_inode _ Hok g d k0 Hd ltac:(lia) Hb0).
  destruct (find_clear_bit_spec (Z.to_nat m) (bitmap c m) 0) as (r & -> & Hr); [done|lia|cbn; lia|]. run.
  cbn [bitmap m_data m_size] in Hr. rewrite Hbuf in Hr. destruct r as [k|].
  2: { rewrite Hr in Hb0; [done|subst m; nia]. }
  destruct Hr as [Hk Hbit]. pose proof (alloc_clear_inode _ Hok g d k Hd ltac:(lia) Hbit) as Hlt.
  destruct (set_spec (bitmap c m) k true) as (dat & -> & Hw); [done|cbn; lia|]. run.
  replace (Z.of_nat g + 1 - 1) with (Z.of_nat g) by lia.
  rewrite (wrap_id u32 eq_refl) by (rewrite in_type_u32; pose proof (lookup_lt_Some _ _ _ Hd); pose proof (geo_count _ Hg); nia).
  replace (Z.of_nat g * inodes_per_group fs + 1 + k) with (Z.of_nat g * inodes_per_group fs + k + 1) by lia.
  eexists _, (Z.of_nat g * inodes_per_group fs + k + 1). split; [done|]. split; [lia|].
  assert (flipped fs (set_cached_bitmap fs1 i (c <| cb_buffer := dat |> <| cb_dirty := true |>)) (bg_inode_bitmap d) k true) as Hfl.
  { apply (quiet_flipped _ fs1); [by eapply bitmap_valid|done|]. apply set_cached_bitmap_flipped; [apply Hq|done..]. }
  split; [by rewrite (inode_used_bit _ _ d) by (try done; lia)|]. split.
  - apply (set_inode_spec fs _ g d k true _ Hok Hd); [lia|done..].
  - unfold set_field. cbn. assert (m_inode_cache fs1 = m_inode_cache fs) as -> by (rewrite (quiet_rest _ _ Hq); by destruct fs). done.
Qed.

Lemma allocate_inode_spec fs preferred :
  alloc_ok fs -> 0 <= preferred <= m_block_group_count fs ->
  ((exists g d, block_group_descriptors fs !! g = Some d /\ suitable d) /\
   exists fs' i, allocate_inode fs preferred = Ret (inr i, fs') /\ 1 <= i <= s_inodes_count (m_super_block fs) /\
     inode_used fs i = false /\ inode_set fs fs' i true /\ m_inode_cache fs' = delete i (m_inode_cache fs)) \/
  ((forall g d, block_group_descriptors fs !! g = Some d -> ~ suitable d) /\ allocate_inode fs preferred = Ret (inl (- ENOSPC), fs)).
Proof.
  intros Hok Hp. pose proof (alloc_geometry _ Hok) as Hg. pose proof (geo_count _ Hg) as Hc.
  assert (exists b, (if negb (preferred =? 0) then is_suitable_group fs preferred else Ret false) = Ret b /\
    (b = true -> exists g d, preferred = Z.of_nat g + 1 /\ block_group_descriptors fs !! g = Some d /\ suitable d)) as (b & Hb & Hyes).
  { destruct (Z.eqb_spec preferred 0); cbn [negb]; [by exists false|].
    destruct (lookup_lt_is_Some_2 (block_group_descriptors fs) (Z.to_nat (preferred - 1))) as [d Hd]; [lia|].
    destruct (is_suitable_group_spec fs _ d Hg Hd) as (b & Hb & Hs). replace (Z.of_nat _ + 1) with preferred in Hb by lia.
    exists b. split; [done|]. intros Ht%Hs. exists (Z.to_nat (preferred - 1)), d. split_and!; [lia|done..]. }
  destruct b.
  { destruct (Hyes eq_refl) as (g & d & -> & Hd & Hs). left. split; [by exists g, d|]. by apply (allocate_inode_in _ g d _ true). }
  destruct (find_suitable_group_spec (Z.to_nat (m_block_group_count fs)) fs 0) as [(g & d & Hf & Hd & Hs)|[Hf Hno]]; [done|lia|left|right].
  - split; [by exists g, d|]. by apply (allocate_inode_in _ g d _ false).
  - split; [intros g d Hd; apply (Hno g); [lia|done]|]. unfold allocate_inode. rewrite Hb. run.
    change (Z.of_nat 0 + 1) with 1 in Hf. by rewrite Hf.
Qed.

(** C15. [allocate_inode] fails with [ENOSPC], changing nothing, exactly when no group has both an
    unused inode and a free block.  Otherwise it returns the number of an inode that was not in
    use and marks it, and only it; the counters go on agreeing with the bitmaps and a cached
    note that there is no such inode is forgotten.  It never fails in another way. *)
Theorem Ext2FS_allocate_inode_correct fs preferred :
  alloc_ok fs -> 0 <= preferred <= m_block_group_count fs ->
  ((exists g d, block_group_descriptors fs !! g = Some d /\ suitable d) /\
   exists fs' i, allocate_inode fs preferred = Ret (inr i, fs') /\ 1 <= i <= s_inodes_count (m_super_block fs) /\
     inode_used fs i = false /\ inode_set fs fs' i true /\ m_inode_cache fs' = delete i (m_inode_cache fs)) \/
  ((forall g d, block_group_descriptors fs !! g = Some d -> ~ suitable d) /\ allocate_inode fs preferred = Ret (inl (- ENOSPC), fs)).
Proof. apply allocate_inode_spec. Qed.

End alloc.

(** ** A small disk

    32 blocks of 1024 bytes, in one group: the boot block, the super block, the descriptors, the
    two bitmaps, four blocks of inodes and one block in use; 22 blocks and 21 inodes are free.
    The last bit of the bitmap of blocks stands for no block and is set. *)

Definition pad_block (l : list Z) : list Z := l ++ replicate (1024 - length l) 0.

Definition ext2_disk : list Z :=
  replicate (3 * 1024) 0 ++ pad_block [255; 1; 0; 128] ++ pad_block [255; 7] ++ replicate (27 * 1024) 0.

Definition ext2_sample : Ext2FS (BlockBasedFS (list Z)) :=
  MkExt2 (MkFS (MkDescription ext2_disk 0) 1024 512 (Some (DiskCache_new 4 1024))) false
    (MkSuper 32 32 22 21 0 32 32 0 11 128 0) 1 [MkGroup 3 4 5 22 21 1] ∅ false false [].

Lemma ext2_disk_length : Z.of_nat (length ext2_disk) = 32 * 1024.
Proof. unfold ext2_disk, pad_block. rewrite !length_app, !length_replicate. cbn [length]. lia. Qed.

Lemma ext2_sample_base : fs_ok (base ext2_sample).
Proof.
  split.
  - cbn. lia.
  - done.
  - change (is_bytes ext2_disk). unfold ext2_disk, pad_block, is_bytes. rewrite !Forall_app.
    split_and!; try (apply Forall_replicate; int_lia); repeat apply Forall_cons_2; try int_lia; apply Forall_nil_2.
  - change (Z.of_nat (length ext2_disk) < 2 ^ 62). rewrite ext2_disk_length. lia.
  - apply DiskCache_new_ok; cbn; lia.
Qed.

Lemma ext2_sample_lookup g d : block_group_descriptors ext2_sample !! g = Some d -> g = O /\ d = MkGroup 3 4 5 22 21 1.
Proof. cbn. intros [-> ->]%list_lookup_singleton_Some. done. Qed.

Lemma ext2_sample_geometry : geometry_ok ext2_sample.
Proof.
  split.
  1-9: cbn -[ext2_disk]; try done; by vm_compute.
  - intros b Hb. unfold store_valid. cbn -[ext2_disk] in *. unfold valid, addressable, disk. cbn -[ext2_disk Z.mul].
    rewrite ext2_disk_length. lia.
  - apply (bool_decide_unpack _). by vm_compute.
  - intros b Hb. cbn in Hb. rewrite !elem_of_cons, elem_of_nil in Hb. cbn. lia.
Qed.

Lemma ext2_sample_ok : alloc_ok ext2_sample.
Proof.
  split.
  - split; [exact ext2_sample_base|done|apply NoDup_nil_2].
  - exact ext2_sample_geometry.
  - intros g d [-> ->]%ext2_sample_lookup. by vm_compute.
  - intros g d [-> ->]%ext2_sample_lookup. by vm_compute.
  - done.
  - done.
  - intros g d i [-> ->]%ext2_sample_lookup Hi Hbit. change (blocks_per_group ext2_sample) with 32 in *.
    assert (i <> 31) by (intros ->; vm_compute in Hbit; done). unfold proper. change (first_block_index ext2_sample) with 1. cbn. lia.
  - intros g d i [-> ->]%ext2_sample_lookup Hi _. change (inodes_per_group ext2_sample) with 32 in *. cbn. lia.
  - intros b Hb. cbn in Hb. rewrite !elem_of_cons, elem_of_nil in Hb. destruct Hb as [-> |[-> |[]]]; by vm_compute.
Qed.

Lemma Ext2FS_allocate_blocks_witness :
  exists fs' blocks, allocate_blocks ext2_sample 1 5 = Ret (inr blocks, fs') /\
    Z.of_nat (length blocks) = 5 /\ NoDup blocks /\ (forall b, b ∈ blocks -> proper ext2_sample b /\ used ext2_sample b = false) /\
    blocks_set ext2_sample fs' blocks true.
Proof. apply (Ext2FS_allocate_blocks_correct ext2_sample 1 5); [exact ext2_sample_ok|cbn; lia|cbn; lia]. Defined.

Lemma Ext2FS_allocate_inode_witness :
  ((exists g d, block_group_descriptors ext2_sample !! g = Some d /\ suitable d) /\
   exists fs' i, allocate_inode ext2_sample 0 = Ret (inr i, fs') /\ 1 <= i <= 32 /\
     inode_used ext2_sample i = false /\ inode_set ext2_sample fs' i true /\ m_inode_cache fs' = delete i (m_inode_cache ext2_sample)) \/
  ((forall g d, block_group_descriptors ext2_sample !! g = Some d -> ~ suitable d) /\
   allocate_inode ext2_sample 0 = Ret (inl (- ENOSPC), ext2_sample)).
Proof. apply (Ext2FS_allocate_inode_correct ext2_sample 0); [exact ext2_sample_ok|cbn; lia]. Defined.

(** The blocks and the inode that the sample gives. *)
Definition allocated {A S : Type} (r : outcome (KResultOr A * Ext2FS S)) : outcome (KResultOr A) := '(a, _) ← r; Ret a.

Lemma ext2_sample_allocates :
  allocated (allocate_blocks ext2_sample 1 5) = Ret (inr [10; 11; 12; 13; 14]) /\ allocated (allocate_inode ext2_sample 1) = Ret (inr 12).
Proof. by vm_compute. Qed.
