(* ===== verification/Ext2BlockList.v ===== *)
(** * Kernel/FileSystem/Ext2FileSystem: the block list of an inode

    The blocks of a file are listed in its inode: twelve of them directly, the others in blocks
    of pointers, up to three levels deep.  In memory the list is [m_block_list];
    [flush_block_list] brings the pointers on the disk up to date after it has grown or shrunk,
    and [compute_block_list] reads it back.

    The theorems say what the pointers on the disk are afterwards, and that reading them back
    gives the list. *)

From stdpp Require Import gmap.
From S2P Require Import Prelude BitmapView DoubleBuffer DiskCache Ext2Alloc.

#[local] Open Scope Z_scope.

(** What a buffer of [n] bytes holds when nothing has been written to it. *)
Class Uninitialized : Type := uninitialized : Z -> list Z.

Record BlockListShape : Type := MkShape {
  direct_blocks : Z;
  indirect_blocks : Z;
  doubly_indirect_blocks : Z;
  triply_indirect_blocks : Z;
  meta_blocks : Z
}.

Definition divide_rounded_up (a b : Z) : Z := wrap u32 (a / b + Z.b2z (negb (a mod b =? 0))).

(** ** Arrays of pointers *)

Definition u32_bytes (x : Z) : list Z := [x mod 2 ^ 8; x / 2 ^ 8 mod 2 ^ 8; x / 2 ^ 16 mod 2 ^ 8; x / 2 ^ 24 mod 2 ^ 8].

Definition pointer_bytes (l : list Z) : list Z := l ≫= u32_bytes.

Fixpoint pointers (d : list Z) : list Z :=
  match d with
  | b0 :: b1 :: b2 :: b3 :: d => (b0 + 2 ^ 8 * b1 + 2 ^ 16 * b2 + 2 ^ 24 * b3) :: pointers d
  | _ => []
  end.

(** [Span::slice] and [Vector::take_last]. *)
Definition Span_slice (l : list Z) (start length0 : Z) : outcome (list Z) :=
  VERIFY (wrap size_t (start + length0) <=? Z.of_nat (length l)) ;; Ret (slice l start length0).

Definition take_last (l : list Z) : outcome (Z * list Z) :=
  match last l with None => Stop VerifyFailed | Some x => Ret (x, take (length l - 1) l) end.

Section block_list.
Context {S : Type} `{!BlockStore S} `{!Uninitialized}.
Implicit Types (fs : Ext2FS S) (inode : Ext2FSInode).

Definition compute_block_list_shape fs (blocks : Z) : outcome BlockListShape :=
  let entries_per_block := EXT2_ADDR_PER_BLOCK fs in
  let direct := Z.min EXT2_NDIR_BLOCKS blocks in
  let blocks_remaining := blocks - direct in
  if blocks_remaining =? 0 then Ret (MkShape direct 0 0 0 0)
  else
    let indirect := Z.min blocks_remaining entries_per_block in
    let meta := 1 in
    let blocks_remaining := blocks_remaining - indirect in
    if blocks_remaining =? 0 then Ret (MkShape direct indirect 0 0 meta)
    else
      let doubly := Z.min blocks_remaining (wrap u32 (entries_per_block * entries_per_block)) in
      let meta := wrap u32 (meta + 1 + divide_rounded_up doubly entries_per_block) in
      let blocks_remaining := blocks_remaining - doubly in
      if blocks_remaining =? 0 then Ret (MkShape direct indirect doubly 0 meta)
      else
        let triply := Z.min blocks_remaining (wrap u32 (entries_per_block * entries_per_block * entries_per_block)) in
        let meta := wrap u32 (meta + 1 + divide_rounded_up triply (wrap u32 (entries_per_block * entries_per_block))
                                + divide_rounded_up triply entries_per_block) in
        VERIFY (blocks_remaining - triply =? 0) ;;
        Ret (MkShape direct indirect doubly triply meta).

(** ** Writing pointers *)

(** A block of pointers, the rest of it zero ([fill_to_end]). *)
Definition pointer_block fs (l : list Z) : list Z :=
  pointer_bytes l ++ replicate (Z.to_nat (block_size fs) - length (pointer_bytes l)) 0.

Definition fs_write_block fs (index : Z) (data : UserBuffer) (count offset : Z) (allow_cache : bool) : outcome (Z * Ext2FS S) :=
  '(result, s) ← store_write_block (base fs) index data count offset allow_cache;
  Ret (result, fs <| base := s |>).

Definition fs_read_block fs (index : Z) (buffer : UserBuffer) (count offset : Z) (allow_cache : bool)
    : outcome (Z * list Z * Ext2FS S) :=
  '(result, bytes, s) ← store_read_block (base fs) index (Some buffer) count offset allow_cache;
  Ret (result, bytes, fs <| base := s |>).

Definition write_indirect_block fs (block : Z) (blocks_indices : list Z) : outcome (Z * Ext2FS S) :=
  VERIFY (Z.of_nat (length blocks_indices) <=? EXT2_ADDR_PER_BLOCK fs) ;;
  fs_write_block fs block (for_kernel_buffer (pointer_block fs blocks_indices)) (block_size fs) 0 true.

(** The loop that writes out [n] indirect blocks from the [i]-th on. *)
Fixpoint write_indirect_blocks (n : nat) fs (block_as_pointers blocks_indices : list Z) (i : Z) : outcome (Z * Ext2FS S) :=
  match n with
  | O => Ret (KSuccess, fs)
  | Datatypes.S n =>
      let entries_per_block := EXT2_ADDR_PER_BLOCK fs in
      let offset_block := wrap u32 (i * entries_per_block) in
      block ← load block_as_pointers i;
      span ← Span_slice blocks_indices offset_block
               (Z.min (wrap size_t (Z.of_nat (length blocks_indices) - offset_block)) entries_per_block);
      '(result, fs) ← write_indirect_block fs block span;
      if result <? 0 then Ret (result, fs) else write_indirect_blocks n fs block_as_pointers blocks_indices (i + 1)
  end.

(** [n] blocks are taken from [new_meta_blocks], and counted. *)
Fixpoint take_meta_blocks (n : nat) (new_meta_blocks : list Z) (meta_blocks : Z) : outcome (list Z * list Z * Z) :=
  match n with
  | O => Ret ([], new_meta_blocks, meta_blocks)
  | Datatypes.S n =>
      '(new_block, new_meta_blocks) ← take_last new_meta_blocks;
      '(taken, new_meta_blocks, meta_blocks) ← take_meta_blocks n new_meta_blocks (wrap u32 (meta_blocks + 1));
      Ret (wrap u32 new_block :: taken, new_meta_blocks, meta_blocks)
  end.

(** The result, and the blocks and the count that are passed by reference. *)
Definition grow_doubly_indirect_block fs (block old_blocks_length : Z) (blocks_indices new_meta_blocks : list Z) (meta_blocks : Z)
    : outcome (Z * Ext2FS S * list Z * Z) :=
  let entries_per_block := EXT2_ADDR_PER_BLOCK fs in
  let size := Z.of_nat (length blocks_indices) in
  let old_indirect_blocks_length := divide_rounded_up old_blocks_length entries_per_block in
  let new_indirect_blocks_length := divide_rounded_up size entries_per_block in
  VERIFY (0 <? size) ;;
  VERIFY (old_blocks_length <? size) ;;
  VERIFY (size <=? wrap u32 (entries_per_block * entries_per_block)) ;;
  '(result, bytes, fs) ← (if 0 <? old_blocks_length then fs_read_block fs block (for_kernel_buffer []) (block_size fs) 0 true
                          else Ret (KSuccess, [], fs));
  if result <? 0 then Ret (result, fs, new_meta_blocks, meta_blocks)
  else
    '(taken, new_meta_blocks, meta_blocks) ←
      take_meta_blocks (Z.to_nat (new_indirect_blocks_length - old_indirect_blocks_length)) new_meta_blocks meta_blocks;
    let contents := pointer_block fs (take (Z.to_nat old_indirect_blocks_length) (pointers bytes) ++ taken) in
    let first := old_blocks_length / entries_per_block in
    '(result, fs) ← write_indirect_blocks (Z.to_nat (new_indirect_blocks_length - first)) fs (pointers contents) blocks_indices first;
    if result <? 0 then Ret (result, fs, new_meta_blocks, meta_blocks)
    else
      '(result, fs) ← fs_write_block fs block (for_kernel_buffer contents) (block_size fs) 0 true;
      Ret (result, fs, new_meta_blocks, meta_blocks).

(** The loop that frees [n] indirect blocks from the [i]-th on. *)
Fixpoint free_pointers (n : nat) fs (block_as_pointers : list Z) (i meta_blocks : Z) : outcome (Z * Ext2FS S * Z) :=
  match n with
  | O => Ret (KSuccess, fs, meta_blocks)
  | Datatypes.S n =>
      block ← load block_as_pointers i;
      '(result, fs) ← set_block_allocation_state fs block false;
      if result <? 0 then Ret (result, fs, meta_blocks)
      else free_pointers n fs block_as_pointers (i + 1) (wrap u32 (meta_blocks - 1))
  end.

(** The end of both functions that shrink: the block itself is freed when nothing is left. *)
Definition free_if_unused fs (block new_blocks_length meta_blocks : Z) : outcome (Z * Ext2FS S * Z) :=
  if new_blocks_length =? 0 then
    '(result, fs) ← set_block_allocation_state fs block false;
    if result <? 0 then Ret (result, fs, meta_blocks) else Ret (KSuccess, fs, wrap u32 (meta_blocks - 1))
  else Ret (KSuccess, fs, meta_blocks).

Definition shrink_doubly_indirect_block fs (block old_blocks_length new_blocks_length meta_blocks : Z)
    : outcome (Z * Ext2FS S * Z) :=
  let entries_per_block := EXT2_ADDR_PER_BLOCK fs in
  let old_indirect_blocks_length := divide_rounded_up old_blocks_length entries_per_block in
  let new_indirect_blocks_length := divide_rounded_up new_blocks_length entries_per_block in
  VERIFY (0 <? old_blocks_length) ;;
  VERIFY (new_blocks_length <=? old_blocks_length) ;;
  VERIFY (new_blocks_length <=? wrap u32 (entries_per_block * entries_per_block)) ;;
  '(result, bytes, fs) ← fs_read_block fs block (for_kernel_buffer []) (block_size fs) 0 true;
  if result <? 0 then Ret (result, fs, meta_blocks)
  else
    '(result, fs, meta_blocks) ←
      free_pointers (Z.to_nat (old_indirect_blocks_length - new_indirect_blocks_length)) fs (pointers bytes)
        new_indirect_blocks_length meta_blocks;
    if result <? 0 then Ret (result, fs, meta_blocks) else free_if_unused fs block new_blocks_length meta_blocks.

(** [min(n > processed ? n - processed : 0, limit)]. *)
Definition remaining_in (n processed limit : Z) : Z := Z.min (if processed <? n then n - processed else 0) limit.

Fixpoint grow_doubly_indirect_blocks (n : nat) fs (block_as_pointers : list Z) (old_blocks_length : Z)
    (blocks_indices new_meta_blocks : list Z) (meta_blocks i : Z) : outcome (Z * Ext2FS S * list Z * Z) :=
  match n with
  | O => Ret (KSuccess, fs, new_meta_blocks, meta_blocks)
  | Datatypes.S n =>
      let entries_per_block := EXT2_ADDR_PER_BLOCK fs in
      let entries_per_doubly_indirect_block := wrap u32 (entries_per_block * entries_per_block) in
      let processed_blocks := wrap u32 (i * entries_per_doubly_indirect_block) in
      let old_doubly_indirect_blocks_length := remaining_in old_blocks_length processed_blocks entries_per_doubly_indirect_block in
      let new_doubly_indirect_blocks_length :=
        remaining_in (Z.of_nat (length blocks_indices)) processed_blocks entries_per_doubly_indirect_block in
      block ← load block_as_pointers i;
      span ← Span_slice blocks_indices processed_blocks new_doubly_indirect_blocks_length;
      '(result, fs, new_meta_blocks, meta_blocks) ←
        grow_doubly_indirect_block fs block old_doubly_indirect_blocks_length span new_meta_blocks meta_blocks;
      if result <? 0 then Ret (result, fs, new_meta_blocks, meta_blocks)
      else grow_doubly_indirect_blocks n fs block_as_pointers old_blocks_length blocks_indices new_meta_blocks meta_blocks (i + 1)
  end.

(** [entries_per_triply_indirect_block] is the square of the number of entries here. *)
Definition grow_triply_indirect_block fs (block old_blocks_length : Z) (blocks_indices new_meta_blocks : list Z) (meta_blocks : Z)
    : outcome (Z * Ext2FS S * list Z * Z) :=
  let entries_per_block := EXT2_ADDR_PER_BLOCK fs in
  let entries_per_doubly_indirect_block := wrap u32 (entries_per_block * entries_per_block) in
  let entries_per_triply_indirect_block := wrap u32 (entries_per_block * entries_per_block) in
  let size := Z.of_nat (length blocks_indices) in
  let old_doubly_indirect_blocks_length := divide_rounded_up old_blocks_length entries_per_doubly_indirect_block in
  let new_doubly_indirect_blocks_length := divide_rounded_up size entries_per_doubly_indirect_block in
  VERIFY (0 <? size) ;;
  VERIFY (old_blocks_length <? size) ;;
  VERIFY (size <=? entries_per_triply_indirect_block) ;;
  '(result, bytes, fs) ← (if 0 <? old_blocks_length then fs_read_block fs block (for_kernel_buffer []) (block_size fs) 0 true
                          else Ret (KSuccess, [], fs));
  if result <? 0 then Ret (result, fs, new_meta_blocks, meta_blocks)
  else
    '(taken, new_meta_blocks, meta_blocks) ←
      take_meta_blocks (Z.to_nat (new_doubly_indirect_blocks_length - old_doubly_indirect_blocks_length)) new_meta_blocks meta_blocks;
    let contents := pointer_block fs (take (Z.to_nat old_doubly_indirect_blocks_length) (pointers bytes) ++ taken) in
    let first := old_blocks_length / entries_per_doubly_indirect_block in
    '(result, fs, new_meta_blocks, meta_blocks) ←
      grow_doubly_indirect_blocks (Z.to_nat (new_doubly_indirect_blocks_length - first)) fs (pointers contents) old_blocks_length
        blocks_indices new_meta_blocks meta_blocks first;
    if result <? 0 then Ret (result, fs, new_meta_blocks, meta_blocks)
    else
      '(result, fs) ← fs_write_block fs block (for_kernel_buffer contents) (block_size fs) 0 true;
      Ret (result, fs, new_meta_blocks, meta_blocks).

Fixpoint shrink_doubly_indirect_blocks (n : nat) fs (block_as_pointers : list Z) (old_blocks_length new_blocks_length meta_blocks i : Z)
    : outcome (Z * Ext2FS S * Z) :=
  match n with
  | O => Ret (KSuccess, fs, meta_blocks)
  | Datatypes.S n =>
      let entries_per_block := EXT2_ADDR_PER_BLOCK fs in
      let entries_per_doubly_indirect_block := wrap u32 (entries_per_block * entries_per_block) in
      let processed_blocks := wrap u32 (i * entries_per_doubly_indirect_block) in
      let old_doubly_indirect_blocks_length := remaining_in old_blocks_length processed_blocks entries_per_doubly_indirect_block in
      let new_doubly_indirect_blocks_length := remaining_in new_blocks_length processed_blocks entries_per_doubly_indirect_block in
      block ← load block_as_pointers i;
      '(result, fs, meta_blocks) ←
        shrink_doubly_indirect_block fs block old_doubly_indirect_blocks_length new_doubly_indirect_blocks_length meta_blocks;
      if result <? 0 then Ret (result, fs, meta_blocks)
      else shrink_doubly_indirect_blocks n fs block_as_pointers old_blocks_length new_blocks_length meta_blocks (i + 1)
  end.

Definition shrink_triply_indirect_block fs (block old_blocks_length new_blocks_length meta_blocks : Z)
    : outcome (Z * Ext2FS S * Z) :=
  let entries_per_block := EXT2_ADDR_PER_BLOCK fs in
  let entries_per_doubly_indirect_block := wrap u32 (entries_per_block * entries_per_block) in
  let entries_per_triply_indirect_block := wrap u32 (entries_per_doubly_indirect_block * entries_per_block) in
  let old_triply_indirect_blocks_length := divide_rounded_up old_blocks_length entries_per_doubly_indirect_block in
  let new_triply_indirect_blocks_length := new_blocks_length / entries_per_doubly_indirect_block in
  VERIFY (0 <? old_blocks_length) ;;
  VERIFY (new_blocks_length <=? old_blocks_length) ;;
  VERIFY (new_blocks_length <=? entries_per_triply_indirect_block) ;;
  '(result, bytes, fs) ← fs_read_block fs block (for_kernel_buffer []) (block_size fs) 0 true;
  if result <? 0 then Ret (result, fs, meta_blocks)
  else
    '(result, fs, meta_blocks) ←
      shrink_doubly_indirect_blocks (Z.to_nat (old_triply_indirect_blocks_length - new_triply_indirect_blocks_length)) fs (pointers bytes)
        old_blocks_length new_blocks_length meta_blocks new_triply_indirect_blocks_length;
    if result <? 0 then Ret (result, fs, meta_blocks) else free_if_unused fs block new_blocks_length meta_blocks.
(** ** The size of a file, and the state of its inode *)

Definition S_IFMT : Z := 0xf000.
Definition S_IFDIR : Z := 0x4000.
Definition S_IFREG : Z := 0x8000.
Definition S_IFLNK : Z := 0xa000.
Definition is_directory (mode : Z) : bool := Z.land mode S_IFMT =? S_IFDIR.
Definition is_regular_file (mode : Z) : bool := Z.land mode S_IFMT =? S_IFREG.
Definition is_symlink (mode : Z) : bool := Z.land mode S_IFMT =? S_IFLNK.

Definition FileSize64bits : Z := Z.shiftl 1 1.
Definition get_features_readonly fs : Z :=
  if 0 <? s_rev_level (m_super_block fs) then s_feature_ro_compat (m_super_block fs) else 0.

Definition inode_size_of fs inode : Z :=
  if is_regular_file (i_mode (m_raw_inode inode)) && negb (Z.land (get_features_readonly fs) FileSize64bits =? 0)
  then Z.lor (Z.shiftl (i_dir_acl (m_raw_inode inode)) 32) (i_size (m_raw_inode inode))
  else i_size (m_raw_inode inode).

(** [Inode::set_metadata_dirty]; there are no watchers. *)
Definition set_metadata_dirty fs inode (metadata_dirty : bool) : outcome Ext2FSInode :=
  VERIFY (negb (metadata_dirty && m_readonly fs)) ;;
  Ret (if bool_decide (m_metadata_dirty inode = metadata_dirty) then inode else inode <| m_metadata_dirty := metadata_dirty |>).

(** The pointers in the inode. *)
Definition i_block_at inode (i : Z) : outcome Z := load (i_block (m_raw_inode inode)) i.
Definition set_i_block inode (l : list Z) : Ext2FSInode := inode <| m_raw_inode := m_raw_inode inode <| i_block := l |> |>.

(** ** Bringing the pointers up to date *)

(** The loop over [n] direct blocks from the [i]-th on. *)
Fixpoint flush_direct_blocks (n : nat) (i : Z) (i_block block_list : list Z) (inode_dirty : bool) : outcome (list Z * bool) :=
  match n with
  | O => Ret (i_block, inode_dirty)
  | Datatypes.S n =>
      old ← load i_block i;
      new ← load block_list i;
      i_block ← store i_block i (wrap u32 new);
      flush_direct_blocks n (i + 1) i_block block_list (inode_dirty || negb (old =? new))
  end.

(** A new block of pointers for entry [k] of [i_block], if there was none. *)
Definition new_pointer_block fs inode (k old_length : Z) (new_meta_blocks : list Z) (meta_blocks : Z)
    : outcome (Ext2FSInode * list Z * Z) :=
  if old_length =? 0 then
    '(new_block, new_meta_blocks) ← take_last new_meta_blocks;
    i_block ← store (i_block (m_raw_inode inode)) k (wrap u32 new_block);
    inode ← set_metadata_dirty fs (set_i_block inode i_block) true;
    Ret (inode, new_meta_blocks, wrap u32 (meta_blocks + 1))
  else Ret (inode, new_meta_blocks, meta_blocks).

Definition flush_indirect fs inode (old_shape new_shape : BlockListShape) (output_block_index : Z) (new_meta_blocks : list Z) (meta_blocks : Z)
    : outcome (Z * Ext2FS S * Ext2FSInode * list Z * Z) :=
  if indirect_blocks old_shape =? indirect_blocks new_shape then Ret (KSuccess, fs, inode, new_meta_blocks, meta_blocks)
  else if indirect_blocks old_shape <? indirect_blocks new_shape then
    '(inode, new_meta_blocks, meta_blocks) ←
      new_pointer_block fs inode EXT2_IND_BLOCK (indirect_blocks old_shape) new_meta_blocks meta_blocks;
    block ← i_block_at inode EXT2_IND_BLOCK;
    span ← Span_slice (m_block_list inode) output_block_index (indirect_blocks new_shape);
    '(result, fs) ← write_indirect_block fs block span;
    Ret (result, fs, inode, new_meta_blocks, meta_blocks)
  else if (indirect_blocks new_shape =? 0) && negb (indirect_blocks old_shape =? 0) then
    block ← i_block_at inode EXT2_IND_BLOCK;
    '(result, fs) ← set_block_allocation_state fs block false;
    Ret (result, fs, inode, new_meta_blocks, if result <? 0 then meta_blocks else wrap u32 (meta_blocks - 1))
  else Ret (KSuccess, fs, inode, new_meta_blocks, meta_blocks).

(** The two deeper levels differ in the functions that they call. *)
Definition flush_deeper (grow : Ext2FS S -> Z -> Z -> list Z -> list Z -> Z -> outcome (Z * Ext2FS S * list Z * Z))
    (shrink : Ext2FS S -> Z -> Z -> Z -> Z -> outcome (Z * Ext2FS S * Z))
    fs inode (k old_length new_length output_block_index : Z) (new_meta_blocks : list Z) (meta_blocks : Z)
    : outcome (Z * Ext2FS S * Ext2FSInode * list Z * Z) :=
  if old_length =? new_length then Ret (KSuccess, fs, inode, new_meta_blocks, meta_blocks)
  else if old_length <? new_length then
    '(inode, new_meta_blocks, meta_blocks) ← new_pointer_block fs inode k old_length new_meta_blocks meta_blocks;
    block ← i_block_at inode k;
    span ← Span_slice (m_block_list inode) output_block_index new_length;
    '(result, fs, new_meta_blocks, meta_blocks) ← grow fs block old_length span new_meta_blocks meta_blocks;
    Ret (result, fs, inode, new_meta_blocks, meta_blocks)
  else
    block ← i_block_at inode k;
    '(result, fs, meta_blocks) ← shrink fs block old_length new_length meta_blocks;
    Ret (result, fs, inode, new_meta_blocks, meta_blocks).

(** [flush_block_list] from the direct blocks on; [new_meta_blocks] has been allocated. *)
Definition flush_levels fs inode (old_shape new_shape : BlockListShape) (new_meta_blocks : list Z) : outcome (Z * Ext2FS S * Ext2FSInode) :=
  VERIFY (direct_blocks new_shape <=? EXT2_NDIR_BLOCKS) ;;
  '(i_block, inode_dirty) ←
    flush_direct_blocks (Z.to_nat (direct_blocks new_shape)) 0 (i_block (m_raw_inode inode)) (m_block_list inode) false;
  let inode := set_i_block inode i_block in
  inode ← (if (inode_dirty : bool) then set_metadata_dirty fs inode true else Ret inode);
  '(result, fs, inode, new_meta_blocks, meta) ←
    flush_indirect fs inode old_shape new_shape (direct_blocks new_shape) new_meta_blocks (meta_blocks old_shape);
  if result <? 0 then Ret (result, fs, inode)
  else
    '(result, fs, inode, new_meta_blocks, meta) ←
      flush_deeper grow_doubly_indirect_block shrink_doubly_indirect_block fs inode EXT2_DIND_BLOCK
        (doubly_indirect_blocks old_shape) (doubly_indirect_blocks new_shape)
        (direct_blocks new_shape + indirect_blocks new_shape) new_meta_blocks meta;
    if result <? 0 then Ret (result, fs, inode)
    else
      '(result, fs, inode, new_meta_blocks, meta) ←
        flush_deeper grow_triply_indirect_block shrink_triply_indirect_block fs inode EXT2_TIND_BLOCK
          (triply_indirect_blocks old_shape) (triply_indirect_blocks new_shape)
          (direct_blocks new_shape + indirect_blocks new_shape + doubly_indirect_blocks new_shape) new_meta_blocks meta;
      if result <? 0 then Ret (result, fs, inode)
      else
        VERIFY (Z.of_nat (length new_meta_blocks) =? 0) ;;
        VERIFY (meta =? meta_blocks new_shape) ;;
        VERIFY (wrap u32 (Z.of_nat (length (m_block_list inode)) - direct_blocks new_shape - indirect_blocks new_shape
                            - doubly_indirect_blocks new_shape - triply_indirect_blocks new_shape) =? 0) ;;
        Ret (KSuccess, fs, inode).

Definition flush_block_list fs inode : outcome (Z * Ext2FS S * Ext2FSInode) :=
  let size := Z.of_nat (length (m_block_list inode)) in
  if size =? 0 then
    let raw := m_raw_inode inode <| i_blocks := 0 |> <| i_block := replicate (Z.to_nat EXT2_N_BLOCKS) 0 |> in
    inode ← set_metadata_dirty fs (inode <| m_raw_inode := raw |>) true;
    Ret (KSuccess, fs, inode)
  else
    let old_block_count := ceil_div (inode_size_of fs inode) (block_size fs) in
    old_shape ← compute_block_list_shape fs (wrap u32 old_block_count);
    new_shape ← compute_block_list_shape fs size;
    '(r, fs) ← (if meta_blocks old_shape <? meta_blocks new_shape
                then allocate_blocks fs (group_index_from_inode fs (m_index inode)) (meta_blocks new_shape - meta_blocks old_shape)
                else Ret (inr [], fs));
    match r with
    | inl error => Ret (error, fs, inode)
    | inr new_meta_blocks =>
        let inode := inode <| m_raw_inode := m_raw_inode inode <| i_blocks :=
          wrap u32 ((size + meta_blocks new_shape) * (block_size fs / 512)) |> |> in
        flush_levels fs inode old_shape new_shape new_meta_blocks
    end.

(** ** Reading the pointers back *)

(** The list so far, and the number of blocks that it still lacks. *)
Definition add_block (bi : Z) (st : Ext2FS S * list Z * Z) : Ext2FS S * list Z * Z :=
  let '(fs, l, blocks_remaining) := st in
  if negb (blocks_remaining =? 0) then (fs, l ++ [bi], blocks_remaining - 1) else (fs, l, blocks_remaining).

Fixpoint for_each_block {A : Type} (callback : Z -> A -> outcome A) (l : list Z) (st : A) : outcome A :=
  match l with
  | [] => Ret st
  | b :: l => st ← callback b st; for_each_block callback l st
  end.

(** [depth] levels of pointers: with none of them the callback is [add_block]. *)
Fixpoint process_block_array (depth : nat) (include_block_list_blocks : bool) (array_block_index : Z) (st : Ext2FS S * list Z * Z)
    : outcome (Ext2FS S * list Z * Z) :=
  match depth with
  | O => Ret (add_block array_block_index st)
  | Datatypes.S depth =>
      let '(fs, l, blocks_remaining) := if include_block_list_blocks then add_block array_block_index st else st in
      let count := Z.min blocks_remaining (EXT2_ADDR_PER_BLOCK fs) in
      if count =? 0 then Ret (fs, l, blocks_remaining)
      else
        let read_size := count * 4 in
        '(result, bytes, fs) ← fs_read_block fs array_block_index (for_kernel_buffer []) read_size 0 true;
        let array := bytes ++ drop (length bytes) (uninitialized read_size) in
        for_each_block (process_block_array depth include_block_list_blocks) (take (Z.to_nat count) (pointers array))
          (fs, l, blocks_remaining)
  end.

Definition compute_block_list_impl_internal fs inode (e2inode : ext2_inode) (include_block_list_blocks : bool)
    : outcome (list Z * Ext2FS S) :=
  let block_count := wrap u32 (ceil_div (inode_size_of fs inode) (block_size fs)) in
  let block_count := if is_symlink (i_mode e2inode) && (i_blocks e2inode =? 0) then 0 else block_count in
  blocks_remaining ← (if include_block_list_blocks
                      then shape ← compute_block_list_shape fs block_count; Ret (wrap u32 (block_count + meta_blocks shape))
                      else Ret block_count);
  let direct_count := Z.min block_count EXT2_NDIR_BLOCKS in
  '(fs, l, blocks_remaining) ←
    for_each_block (process_block_array 0 include_block_list_blocks) (take (Z.to_nat direct_count) (i_block e2inode)) (fs, [], blocks_remaining);
  if blocks_remaining =? 0 then Ret (l, fs)
  else
    block ← load (i_block e2inode) EXT2_IND_BLOCK;
    '(fs, l, blocks_remaining) ← process_block_array 1 include_block_list_blocks block (fs, l, blocks_remaining);
    if blocks_remaining =? 0 then Ret (l, fs)
    else
      block ← load (i_block e2inode) EXT2_DIND_BLOCK;
      '(fs, l, blocks_remaining) ← process_block_array 2 include_block_list_blocks block (fs, l, blocks_remaining);
      if blocks_remaining =? 0 then Ret (l, fs)
      else
        block ← load (i_block e2inode) EXT2_TIND_BLOCK;
        '(fs, l, _) ← process_block_array 3 include_block_list_blocks block (fs, l, blocks_remaining);
        Ret (l, fs).

Fixpoint drop_zeros (l : list Z) : list Z :=
  match l with
  | b :: l' => if b =? 0 then drop_zeros l' else l
  | [] => []
  end.

(** The last entries that are zero are taken off. *)
Definition compute_block_list_impl fs inode (include_block_list_blocks : bool) : outcome (list Z * Ext2FS S) :=
  '(block_list, fs) ← compute_block_list_impl_internal fs inode (m_raw_inode inode) include_block_list_blocks;
  Ret (rev (drop_zeros (rev block_list)), fs).

Definition compute_block_list fs inode : outcome (list Z * Ext2FS S) := compute_block_list_impl fs inode false.
Definition compute_block_list_with_meta_blocks fs inode : outcome (list Z * Ext2FS S) := compute_block_list_impl fs inode true.

End block_list.

(** ** Pointers and bytes *)

Definition is_u32 (x : Z) : Prop := 0 <= x < 2 ^ 32.

Lemma u32_bytes_value x :
  is_u32 x -> x mod 2 ^ 8 + 2 ^ 8 * (x / 2 ^ 8 mod 2 ^ 8) + 2 ^ 16 * (x / 2 ^ 16 mod 2 ^ 8) + 2 ^ 24 * (x / 2 ^ 24 mod 2 ^ 8) = x.
Proof. unfold is_u32. intros Hx. Z.to_euclidean_division_equations. lia. Qed.

Lemma pointers_app l r : Forall is_u32 l -> pointers (pointer_bytes l ++ r) = l ++ pointers r.
Proof.
  induction 1 as [|x l Hx Hl IH]; [done|]. unfold pointer_bytes in *. cbn [mbind list_bind u32_bytes app pointers]. rewrite u32_bytes_value by done.
  by rewrite IH.
Qed.

Lemma pointer_bytes_length l : length (pointer_bytes l) = (4 * length l)%nat.
Proof. induction l as [|x l IH]; [done|]. unfold pointer_bytes in *. cbn [mbind list_bind]. rewrite length_app. cbn. lia. Qed.

Lemma pointer_bytes_ok l : is_bytes (pointer_bytes l).
Proof.
  induction l as [|x l IH]; [apply Forall_nil_2|]. unfold pointer_bytes in *. cbn [mbind list_bind]. apply Forall_app. split; [|done].
  repeat apply Forall_cons_2; [int_lia..|]. apply Forall_nil_2.
Qed.

Lemma pointers_length n d : length d = (4 * n)%nat -> length (pointers d) = n.
Proof.
  revert d. induction n as [|n IH]; intros d Hd.
  - destruct d; [done|]. cbn in Hd. lia.
  - destruct d as [|b0 [|b1 [|b2 [|b3 d]]]]; cbn in Hd; try lia. cbn. f_equal. apply IH. lia.
Qed.

Lemma pointers_ok n d : length d = (4 * n)%nat -> is_bytes d -> Forall is_u32 (pointers d).
Proof.
  revert d. induction n as [|n IH]; intros d Hd Hb.
  - destruct d; [apply Forall_nil_2|]. cbn in Hd. lia.
  - destruct d as [|b0 [|b1 [|b2 [|b3 d]]]]; cbn in Hd; try lia. unfold is_bytes in Hb. rewrite !Forall_cons in Hb.
    apply Forall_cons_2; [unfold is_u32; int_lia|]. apply IH; [lia|]. apply Hb.
Qed.

(** The bytes of a list of pointers that were read give the bytes back. *)
Lemma pointer_bytes_pointers n d : length d = (4 * n)%nat -> is_bytes d -> pointer_bytes (pointers d) = d.
Proof.
  revert d. induction n as [|n IH]; intros d Hd Hb.
  - destruct d; [done|]. cbn in Hd. lia.
  - destruct d as [|b0 [|b1 [|b2 [|b3 d]]]]; cbn in Hd; try lia. unfold is_bytes in Hb. rewrite !Forall_cons in Hb.
    unfold pointer_bytes in *. cbn [pointers mbind list_bind]. destruct Hb as (H0 & H1 & H2 & H3 & Hd').
    rewrite IH by (try done; lia). unfold u32_bytes. cbn [app]. set (x := b0 + _ + _ + _).
    assert (x mod 2 ^ 8 = b0 /\ x / 2 ^ 8 mod 2 ^ 8 = b1 /\ x / 2 ^ 16 mod 2 ^ 8 = b2 /\ x / 2 ^ 24 mod 2 ^ 8 = b3) as (-> & -> & -> & ->);
      [subst x; int_lia|done].
Qed.

(** The pointers in an inode. *)
Abbreviation pointers_of inode := (i_block (m_raw_inode inode)).

Section lists.
Context {S : Type} `{!BlockStore S} `{!BlockStoreLaws S} `{!Uninitialized}.
Implicit Types (fs : Ext2FS S) (inode : Ext2FSInode).

(** ** Steps

    The blocks [W] have been written, and the blocks [l] have become used, or free. *)

Record step fs fs' (W l : list Z) (v : bool) : Prop := Step {
  step_ok : alloc_ok fs';
  step_geometry : geometry fs' = geometry fs;
  step_valid b : store_valid (base fs') b <-> store_valid (base fs) b;
  step_contents b : store_valid (base fs) b -> b ∉ W -> contents (base fs') b = contents (base fs) b;
  step_used b : 0 < b -> used fs' b = if bool_decide (b ∈ l) then v else used fs b;
  step_inodes i : inode_used fs' i = inode_used fs i;
  step_cache : m_inode_cache fs' = m_inode_cache fs;
  step_free : s_free_blocks_count (m_super_block fs') =
    s_free_blocks_count (m_super_block fs) + (if v then - Z.of_nat (length l) else Z.of_nat (length l));
  step_free_inodes : s_free_inodes_count (m_super_block fs') = s_free_inodes_count (m_super_block fs)
}.

Lemma blocks_set_step fs fs' l v : blocks_set fs fs' l v -> step fs fs' [] l v.
Proof.
  intros Hs. split; try apply Hs. intros b Hb _. by apply (same_contents _ _ (blocks_store _ _ _ _ Hs)).
Qed.

Lemma step_refl fs v : alloc_ok fs -> step fs fs [] [] v.
Proof. intros Hok. by apply blocks_set_step, blocks_set_nil. Qed.

Lemma step_app fs fs1 fs2 W1 W2 l1 l2 v : step fs fs1 W1 l1 v -> step fs1 fs2 W2 l2 v -> step fs fs2 (W1 ++ W2) (l1 ++ l2) v.
Proof.
  intros [? G1 V1 C1 U1 I1 K1 F1 FI1] [? G2 V2 C2 U2 I2 K2 F2 FI2]. split; try congruence.
  - intros b. by rewrite V2, V1.
  - intros b Hb [H1 H2]%not_elem_of_app. rewrite C2, C1; try done. by apply V1.
  - intros b Hb. rewrite U2, U1 by done. repeat case_bool_decide; rewrite ?elem_of_app in *; tauto || done.
  - rewrite F2, F1, length_app. destruct v; lia.
Qed.

Lemma step_weaken fs fs' W W' l l' v : step fs fs' W l v -> (forall b, b ∈ W -> b ∈ W') -> l ≡ₚ l' -> step fs fs' W' l' v.
Proof.
  intros Hs HW Hl. split; try apply Hs.
  - intros b Hb Hn. apply (step_contents _ _ _ _ _ Hs); [done|]. intros H'. by apply Hn, HW.
  - intros b Hb. rewrite (step_used _ _ _ _ _ Hs) by done.
    assert (bool_decide (b ∈ l) = bool_decide (b ∈ l')) as ->; [|done]. apply bool_decide_ext. by rewrite Hl.
  - by rewrite (step_free _ _ _ _ _ Hs), (Permutation_length Hl).
Qed.

(** A step that neither allocates nor frees. *)
Lemma step_nil fs fs' W v v' : step fs fs' W [] v -> step fs fs' W [] v'.
Proof. intros Hs. split; try apply Hs. rewrite (step_free _ _ _ _ _ Hs). destruct v, v'; cbn; lia. Qed.

(** ** Blocks that may be written *)

Definition own fs (b : Z) : Prop := proper fs b /\ b ∉ reserved fs.

Lemma own_geometry fs fs' b : geometry fs' = geometry fs -> own fs' b <-> own fs b.
Proof. intros Hg. unfold own. by rewrite (geometry_proper _ _ _ Hg), (geometry_reserved _ _ Hg). Qed.

Lemma own_valid fs b : alloc_ok fs -> own fs b -> store_valid (base fs) b.
Proof. intros Hok [[Hb _] _]. by apply (geo_valid _ (alloc_geometry _ Hok)). Qed.

Lemma own_u32 fs b : alloc_ok fs -> own fs b -> is_u32 b.
Proof.
  intros Hok [[Hb _] _]. pose proof (alloc_geometry _ Hok) as Hg. pose proof (geo_total _ Hg). pose proof (geo_bound _ Hg).
  pose proof (first_block_cases fs). unfold is_u32. lia.
Qed.

Lemma store_written fs s' b :
  alloc_ok fs -> own fs b -> store_ok s' -> store_block_size s' = store_block_size (base fs) ->
  (forall b, store_valid s' b <-> store_valid (base fs) b) ->
  (forall b', store_valid (base fs) b' -> b' <> b -> contents s' b' = contents (base fs) b') ->
  forall v, step fs (fs <| base := s' |>) [b] [] v.
Proof.
  intros Hok [Hp Hr] Hs Hsize Hv Hc v. pose proof (alloc_geometry _ Hok) as Hg. set (fs' := fs <| base := s' |>).
  destruct (bitmaps_same fs fs') as (Hok' & Hgeo & Hu & Hi); try done.
  - split; [done| |apply (alloc_bitmaps _ Hok)]. intros i c Hi. unfold block_size. change (base fs') with s'. rewrite Hsize, Hv.
    by apply (bitmaps_cached _ (alloc_bitmaps _ Hok) i).
  - intros r Hr'. unfold bitmap_bytes. change (m_cached_bitmaps fs') with (m_cached_bitmaps fs). destruct (find_cached _ r); [done|].
    apply Hc; [|by intros ->]. by apply (geo_valid _ Hg), (geo_reserved_blocks _ Hg).
  - split; try done.
    + intros b' Hb' Hn. apply Hc; [done|]. by rewrite list_elem_of_singleton in Hn.
    + cbn. destruct v; lia.
Qed.

(** ** Access to the disk *)

Lemma fs_write_block_spec fs b data count offset :
  alloc_ok fs -> own fs b -> 0 <= offset -> 0 <= count -> offset + count <= block_size fs ->
  u_fault data (Z.to_nat count) = None -> (Z.to_nat count <= length (u_bytes data))%nat -> is_bytes (u_bytes data) ->
  exists fs', fs_write_block fs b data count offset true = Ret (KSuccess, fs') /\ (forall v, step fs fs' [b] [] v) /\
    contents (base fs') b = splice (contents (base fs) b) offset (take (Z.to_nat count) (u_bytes data)) /\
    fs' = fs <| base := base fs' |>.
Proof.
  intros Hok Hown H1 H2 H3 H4 H5 H6. pose proof (own_valid _ _ Hok Hown) as Hv.
  pose proof (bitmaps_store _ (alloc_bitmaps _ Hok)) as Hst. unfold fs_write_block, block_size in *.
  destruct (store_write_law (base fs) b data count offset) as (s' & -> & Hs' & Hsize & Hv' & Hc & Hc'); try done. run.
  exists (fs <| base := s' |>). split; [done|]. split; [|done]. by apply store_written.
Qed.

Lemma fs_read_block_spec fs b buffer count offset :
  alloc_ok fs -> store_valid (base fs) b -> 0 <= offset -> 0 <= count -> offset + count <= block_size fs ->
  exists fs', fs_read_block fs b buffer count offset true =
      Ret (read_result (Some buffer) (slice (contents (base fs) b) offset count), fs') /\ (forall v, step fs fs' [] [] v) /\
    fs' = fs <| base := base fs' |>.
Proof.
  intros Hok Hv H1 H2 H3. pose proof (bitmaps_store _ (alloc_bitmaps _ Hok)) as Hst. pose proof (alloc_geometry _ Hok) as Hg.
  unfold fs_read_block, block_size in *.
  destruct (store_read_law (base fs) b (Some buffer) count offset) as (s' & -> & Hs' & Hsize & Hv' & Hc); try done. run.
  destruct (read_result _ _) as [r bytes]. exists (fs <| base := s' |>). split; [done|]. split; [|done]. intros v. apply blocks_set_step.
  apply quiet_blocks_set; [done|]. split; try done; cbn.
  - split; [done| |apply (alloc_bitmaps _ Hok)]. intros i c Hi. unfold block_size. cbn. rewrite Hsize, Hv'.
    by apply (bitmaps_cached _ (alloc_bitmaps _ Hok) i).
  - intros b' Hb'. unfold bitmap_bytes. cbn. destruct (find_cached _ b'); [done|]. by apply Hc.
Qed.

Lemma read_kernel bytes : read_result (Some (for_kernel_buffer [])) bytes = (KSuccess, bytes).
Proof. unfold read_result, user_copy. cbn. by rewrite firstn_all. Qed.
(** ** Pointers on the disk *)

(** Entry [i] of the block of pointers [b]. *)
Definition ptr (s : S) (b i : Z) : Z := pointers (contents s b) !!! Z.to_nat i.

Lemma addr_per_block fs :
  geometry_ok fs -> block_size fs = 4 * EXT2_ADDR_PER_BLOCK fs /\ 256 <= EXT2_ADDR_PER_BLOCK fs <= 1024.
Proof.
  intros Hg. pose proof (block_size_cases _ Hg) as Hc. unfold EXT2_ADDR_PER_BLOCK. rewrite <- (geo_size _ Hg).
  destruct Hc as [-> |[-> | ->]]; split_and!; by vm_compute.
Qed.

Lemma addr_geometry fs fs' : geometry fs' = geometry fs -> EXT2_ADDR_PER_BLOCK fs' = EXT2_ADDR_PER_BLOCK fs.
Proof. intros (_ & _ & _ & _ & _ & Hlog & _)%geometry_fields. unfold EXT2_ADDR_PER_BLOCK, EXT2_BLOCK_SIZE. by rewrite Hlog. Qed.

Lemma pointer_block_spec fs l :
  geometry_ok fs -> Z.of_nat (length l) <= EXT2_ADDR_PER_BLOCK fs -> Forall is_u32 l ->
  length (pointer_block fs l) = Z.to_nat (block_size fs) /\ is_bytes (pointer_block fs l) /\
  exists r, pointers (pointer_block fs l) = l ++ r.
Proof.
  intros Hg Hl Hu. destruct (addr_per_block _ Hg) as [Hbs He]. unfold pointer_block. rewrite length_app, length_replicate, pointer_bytes_length.
  split_and!.
  - lia.
  - apply Forall_app. split; [apply pointer_bytes_ok|]. apply Forall_replicate. int_lia.
  - rewrite pointers_app by done. by eexists.
Qed.

(** The entries of a block that was written as a block of pointers. *)
Lemma ptr_pointer_block fs s b l i x :
  geometry_ok fs -> Z.of_nat (length l) <= EXT2_ADDR_PER_BLOCK fs -> Forall is_u32 l ->
  contents s b = pointer_block fs l -> l !! i = Some x -> ptr s b (Z.of_nat i) = x.
Proof.
  intros Hg Hl Hu Hc Hi. destruct (pointer_block_spec fs l) as (_ & _ & r & Hr); try done. unfold ptr. rewrite Hc, Hr, Nat2Z.id.
  apply list_lookup_total_correct. by apply lookup_app_l_Some.
Qed.

(** A whole block is written. *)
Lemma write_whole_block fs b bytes :
  alloc_ok fs -> own fs b -> length bytes = Z.to_nat (block_size fs) -> is_bytes bytes ->
  exists fs', fs_write_block fs b (for_kernel_buffer bytes) (block_size fs) 0 true = Ret (KSuccess, fs') /\
    (forall v, step fs fs' [b] [] v) /\ contents (base fs') b = bytes /\ fs' = fs <| base := base fs' |>.
Proof.
  intros Hok Hown Hl Hb. destruct (addr_per_block _ (alloc_geometry _ Hok)) as [Hbs He].
  destruct (contents_ok (base fs) b) as [Hcl _]; [apply Hok|by apply own_valid|].
  destruct (fs_write_block_spec fs b (for_kernel_buffer bytes) (block_size fs) 0) as (fs' & Heq & Hs & Hc & Hr); try done; cbn; try lia.
  exists fs'. split_and!; try done. rewrite Hc. cbn [u_bytes for_kernel_buffer]. rewrite <- Hl, firstn_all. apply splice_all.
  rewrite Hl. by rewrite Hcl.
Qed.

Lemma write_indirect_block_spec fs b l :
  alloc_ok fs -> own fs b -> Z.of_nat (length l) <= EXT2_ADDR_PER_BLOCK fs -> Forall is_u32 l ->
  exists fs', write_indirect_block fs b l = Ret (KSuccess, fs') /\ (forall v, step fs fs' [b] [] v) /\
    (forall i x, l !! i = Some x -> ptr (base fs') b (Z.of_nat i) = x) /\ fs' = fs <| base := base fs' |>.
Proof.
  intros Hok Hown Hl Hu. pose proof (alloc_geometry _ Hok) as Hg. unfold write_indirect_block. rewrite VERIFY_true by lia. run.
  destruct (pointer_block_spec fs l) as (Hlen & Hb & _); try done.
  destruct (write_whole_block fs b (pointer_block fs l)) as (fs' & -> & Hs & Hc & Hr); try done.
  exists fs'. split_and!; try done. intros i x Hi. by eapply ptr_pointer_block.
Qed.

(** Reading a whole block of pointers. *)
Lemma read_pointers fs b :
  alloc_ok fs -> store_valid (base fs) b ->
  exists fs' bytes, fs_read_block fs b (for_kernel_buffer []) (block_size fs) 0 true = Ret (KSuccess, bytes, fs') /\
    (forall v, step fs fs' [] [] v) /\ fs' = fs <| base := base fs' |> /\
    Z.of_nat (length (pointers bytes)) = EXT2_ADDR_PER_BLOCK fs /\ Forall is_u32 (pointers bytes) /\
    forall i, 0 <= i < EXT2_ADDR_PER_BLOCK fs -> pointers bytes !! Z.to_nat i = Some (ptr (base fs) b i).
Proof.
  intros Hok Hv. destruct (addr_per_block _ (alloc_geometry _ Hok)) as [Hbs He].
  destruct (contents_ok (base fs) b) as [Hcl Hcb]; [apply Hok|done|].
  destruct (fs_read_block_spec fs b (for_kernel_buffer []) (block_size fs) 0) as (fs' & Heq & Hs & Hr); try done; try lia.
  rewrite read_kernel in Heq. assert (slice (contents (base fs) b) 0 (block_size fs) = contents (base fs) b) as Hsl.
  { rewrite <- (slice_all (contents (base fs) b)) at 2. unfold block_size. rewrite Hcl. f_equal. unfold block_size in *. lia. }
  rewrite Hsl in Heq. exists fs', (contents (base fs) b).
  assert (length (contents (base fs) b) = (4 * Z.to_nat (EXT2_ADDR_PER_BLOCK fs))%nat) as Hlen by (unfold block_size in *; lia).
  pose proof (pointers_length _ _ Hlen) as Hpl. split_and!; try done.
  - lia.
  - by eapply pointers_ok.
  - intros i Hi. apply list_lookup_lookup_total_lt. lia.
Qed.

Lemma step_ptr fs fs' W l v b i : step fs fs' W l v -> store_valid (base fs) b -> b ∉ W -> ptr (base fs') b i = ptr (base fs) b i.
Proof. intros Hs Hv Hn. unfold ptr. by rewrite (step_contents _ _ _ _ _ Hs). Qed.

Lemma step_own fs fs' W l v b : step fs fs' W l v -> own fs' b <-> own fs b.
Proof. intros Hs. apply own_geometry, Hs. Qed.

Lemma Span_slice_spec l a n :
  0 <= a -> 0 <= n -> a + n <= Z.of_nat (length l) -> Z.of_nat (length l) < 2 ^ 32 -> Span_slice l a n = Ret (slice l a n).
Proof.
  intros. unfold Span_slice, size_t. rewrite (wrap_id u32 eq_refl) by (rewrite in_type_u32; lia). by rewrite VERIFY_true by lia.
Qed.

Lemma write_indirect_blocks_spec n fs P blocks i :
  alloc_ok fs -> 0 <= i -> Z.of_nat (length blocks) <= EXT2_ADDR_PER_BLOCK fs * EXT2_ADDR_PER_BLOCK fs -> Forall is_u32 blocks ->
  ((0 < n)%nat -> (i + Z.of_nat n - 1) * EXT2_ADDR_PER_BLOCK fs < Z.of_nat (length blocks)) ->
  (forall j, i <= j < i + Z.of_nat n -> exists p, P !! Z.to_nat j = Some p /\ own fs p) -> NoDup (take n (drop (Z.to_nat i) P)) ->
  exists fs', write_indirect_blocks n fs P blocks i = Ret (KSuccess, fs') /\ (forall v, step fs fs' (take n (drop (Z.to_nat i) P)) [] v) /\
    (forall k x, i * EXT2_ADDR_PER_BLOCK fs <= k < (i + Z.of_nat n) * EXT2_ADDR_PER_BLOCK fs -> blocks !! Z.to_nat k = Some x ->
       ptr (base fs') (P !!! Z.to_nat (k / EXT2_ADDR_PER_BLOCK fs)) (k mod EXT2_ADDR_PER_BLOCK fs) = x) /\
    fs' = fs <| base := base fs' |>.
Proof.
  revert fs i. induction n as [|n IH]; intros fs i Hok Hi Hlen Hu Hsize HP Hnd.
  { exists fs. split; [done|]. split; [intros v; by apply step_refl|]. split; [lia|by destruct fs]. }
  pose proof (alloc_geometry _ Hok) as Hg. destruct (addr_per_block _ Hg) as [_ He]. specialize (Hsize ltac:(lia)).
  destruct (HP i ltac:(lia)) as (p & Hp & Hown). cbn [write_indirect_blocks]. set (e := EXT2_ADDR_PER_BLOCK fs) in *.
  assert (i * e < Z.of_nat (length blocks)) as Hie by nia.
  rewrite (wrap_id u32 eq_refl (i * e)) by (rewrite in_type_u32; nia). unfold size_t.
  rewrite (wrap_id u32 eq_refl) by (rewrite in_type_u32; nia). set (m := Z.min _ _).
  unfold load. rewrite (proj2 (Z.leb_le 0 i)), Hp by lia. run. rewrite Span_slice_spec by (subst m; nia). run.
  destruct (write_indirect_block_spec fs p (slice blocks (i * e) m)) as (fs1 & -> & Hs1 & Hp1 & Hr1); try done.
  { rewrite slice_length; subst m; lia. }
  { by apply Forall_slice. }
  run. change (KSuccess <? 0) with false. cbn iota.
  assert (drop (Z.to_nat i) P = p :: drop (Z.to_nat (i + 1)) P) as Hdrop.
  { rewrite (drop_S _ p) by done. f_equal. f_equal. lia. }
  rewrite Hdrop in Hnd |- *. cbn [take] in *. apply NoDup_cons in Hnd as [Hnin Hnd].
  pose proof (addr_geometry _ _ (step_geometry _ _ _ _ _ (Hs1 true))) as He1. fold e in He1.
  destruct (IH fs1 (i + 1)) as (fs2 & -> & Hs2 & Hp2 & Hr2); rewrite ?He1; try done; try apply (Hs1 true); try lia.
  { intros j Hj. destruct (HP j ltac:(lia)) as (q & Hq & Hq'). exists q. split; [done|]. by apply (step_own _ _ _ _ _ _ (Hs1 true)). }
  exists fs2. split; [done|]. split; [intros v; apply (step_app _ _ _ [p] _ [] [] _ (Hs1 v) (Hs2 v))|]. split.
  - intros k x Hk Hx. destruct (decide ((i + 1) * e <= k)) as [Hge|Hlt].
    { rewrite <- He1. apply Hp2; [rewrite He1; lia|done]. }
    assert (k / e = i) as Hdiv by (symmetry; apply (Z.div_unique _ _ _ (k - i * e)); lia).
    assert (k mod e = k - i * e) as Hmod by (symmetry; apply (Z.mod_unique _ _ i); lia).
    rewrite Hdiv, Hmod, (list_lookup_total_correct _ _ _ Hp). rewrite (step_ptr _ _ _ _ _ _ _ (Hs2 true)).
    + specialize (Hp1 (Z.to_nat (k - i * e)) x). rewrite Z2Nat.id in Hp1 by lia. apply Hp1. rewrite slice_lookup by nia.
      apply lookup_lt_Some in Hx as Hkl. rewrite decide_True by (subst m; lia). rewrite <- Hx. f_equal. nia.
    + apply (step_valid _ _ _ _ _ (Hs1 true)). by apply own_valid.
    + done.
  - rewrite Hr2, Hr1. by destruct fs.
Qed.

(** Blocks are taken from the end. *)
Lemma take_meta_blocks_spec n nm meta :
  (n <= length nm)%nat -> Forall is_u32 nm -> 0 <= meta -> meta + Z.of_nat n < 2 ^ 32 ->
  take_meta_blocks n nm meta = Ret (reverse (drop (length nm - n) nm), take (length nm - n) nm, meta + Z.of_nat n).
Proof.
  revert nm meta. induction n as [|n IH]; intros nm meta Hn Hu Hm Hm2; cbn [take_meta_blocks].
  { rewrite Nat.sub_0_r, drop_all, firstn_all. f_equal. f_equal. lia. }
  destruct nm as [|x l _] using rev_ind; [cbn in Hn; lia|]. unfold take_last. rewrite last_snoc. run. rewrite length_app in *. cbn [length] in *.
  replace (length l + 1 - 1)%nat with (length l) by lia. rewrite take_app_length. apply Forall_app in Hu as [Hu Hx].
  rewrite Forall_singleton in Hx. rewrite (wrap_id u32 eq_refl (meta + 1)) by (rewrite in_type_u32; lia). rewrite IH by (try done; lia). run.
  unfold is_u32 in Hx. rewrite (wrap_id u32 eq_refl x) by (rewrite in_type_u32; lia).
  replace (length l + 1 - Datatypes.S n)%nat with (length l - n)%nat by lia.
  rewrite take_app_le, drop_app_le, reverse_app by lia. cbn [reverse app]. do 2 f_equal. lia.
Qed.

(** ** Rounding up *)

Definition up (a b : Z) : Z := (a + b - 1) / b.

Lemma up_spec a b : 0 <= a -> 0 < b -> a <= up a b * b < a + b.
Proof. intros. unfold up. pose proof (Z.div_mod (a + b - 1) b). pose proof (Z.mod_pos_bound (a + b - 1) b). lia. Qed.

Lemma up_unique a b q : 0 < b -> a <= q * b < a + b -> up a b = q.
Proof. intros. unfold up. symmetry. apply (Z.div_unique _ _ _ (a + b - 1 - q * b)); lia. Qed.

Lemma up_0 b : 0 < b -> up 0 b = 0.
Proof. intros. apply up_unique; lia. Qed.

Lemma up_mono a a' b : 0 < b -> a <= a' -> up a b <= up a' b.
Proof. intros. apply Z.div_le_mono; lia. Qed.

Lemma up_pos a b : 0 < b -> 0 < a -> 0 < up a b.
Proof. intros. unfold up. apply Z.div_str_pos. lia. Qed.

Lemma up_le a b c : 0 < b -> a <= c * b -> up a b <= c.
Proof. intros. unfold up. apply Z.lt_succ_r, Z.div_lt_upper_bound; lia. Qed.

Lemma up_lt a b c : 0 < b -> 0 <= a -> c * b < a -> c < up a b.
Proof. intros. pose proof (up_spec a b). nia. Qed.

Lemma ceil_div_up a b : 0 <= a -> 0 < b -> ceil_div a b = up a b.
Proof.
  intros. unfold ceil_div. pose proof (Z.div_mod a b). pose proof (Z.mod_pos_bound a b). symmetry.
  destruct (Z.eqb_spec (a mod b) 0); cbn [negb]; apply up_unique; lia.
Qed.

Lemma divide_rounded_up_up a b : 0 <= a < 2 ^ 32 -> 1 < b -> divide_rounded_up a b = up a b.
Proof.
  intros. rewrite <- ceil_div_up by lia. unfold divide_rounded_up, ceil_div. pose proof (Z.div_mod a b). pose proof (Z.mod_pos_bound a b).
  assert (0 <= a / b) by (apply Z.div_pos; lia). assert (a / b <= a / 2) by (apply Z.div_le_compat_l; lia).
  assert (a / 2 < 2 ^ 31) by (apply Z.div_lt_upper_bound; lia).
  rewrite (wrap_id u32 eq_refl) by (rewrite in_type_u32; destruct (_ =? _); cbn; lia). destruct (_ =? _); cbn; lia.
Qed.

(** ** Two levels of pointers *)

(** The list [l] is found through the block of pointers to blocks of pointers [b]. *)
Definition pointed2 (s : S) (e b : Z) (l : list Z) : Prop :=
  forall k x, 0 <= k -> l !! Z.to_nat k = Some x -> ptr s (ptr s b (k / e)) (k mod e) = x.

(** The blocks of pointers for [n] entries. *)
Definition inner (s : S) (e b n : Z) : list Z := ptr s b <$> seqZ 0 (up n e).

Lemma inner_length s e b n : 0 < e -> 0 <= n -> Z.of_nat (length (inner s e b n)) = up n e.
Proof. intros. unfold inner. rewrite length_fmap, length_seqZ. pose proof (up_spec n e). lia. Qed.

Lemma inner_lookup s e b n j : 0 <= j < up n e -> inner s e b n !! Z.to_nat j = Some (ptr s b j).
Proof. intros Hj. unfold inner. rewrite list_lookup_fmap, lookup_seqZ_lt by lia. cbn. do 2 f_equal. lia. Qed.

(** The first pointers of a block, as they were read. *)
Lemma take_pointers s e b n (l : list Z) :
  0 < e -> 0 <= n -> up n e <= Z.of_nat (length l) -> (forall i, 0 <= i < Z.of_nat (length l) -> l !! Z.to_nat i = Some (ptr s b i)) ->
  take (Z.to_nat (up n e)) l = inner s e b n.
Proof.
  intros He Hn Hl Hp. pose proof (up_spec n e Hn He). pose proof (inner_length s e b n He Hn) as Hil. apply list_eq. intros i.
  destruct (decide (i < Z.to_nat (up n e))%nat).
  - rewrite lookup_take_lt by done. pose proof (Hp (Z.of_nat i) ltac:(lia)) as Hpi. pose proof (inner_lookup s e b n (Z.of_nat i) ltac:(lia)) as Hii.
    rewrite Nat2Z.id in *. congruence.
  - rewrite !lookup_ge_None_2; [done|..]; rewrite ?length_take; lia.
Qed.

Lemma NoDup_take_drop {A} (l : list A) (a n : nat) : NoDup l -> NoDup (take n (drop a l)).
Proof.
  rewrite <- (take_drop a l) at 1. intros (_ & _ & Hd)%NoDup_app. rewrite <- (take_drop n (drop a l)) in Hd.
  by apply NoDup_app in Hd as (? & _ & _).
Qed.

Lemma NoDup_drop_not_in {A} (l : list A) (i a n : nat) x : NoDup l -> l !! i = Some x -> (i < a)%nat -> x ∉ take n (drop a l).
Proof.
  intros Hnd Hi Hlt (j & Hj)%list_elem_of_lookup_1. apply lookup_take_Some in Hj as [Hj _]. rewrite lookup_drop in Hj.
  pose proof (NoDup_lookup _ _ _ _ Hnd Hi Hj). lia.
Qed.

Lemma elem_of_take_drop {A} (l r : list A) (a n : nat) x : (a + n <= length l)%nat -> x ∈ take n (drop a (l ++ r)) -> x ∈ l.
Proof.
  intros Hl (j & Hj)%list_elem_of_lookup_1. apply lookup_take_Some in Hj as [Hj Hjn]. rewrite lookup_drop, lookup_app_l in Hj by lia.
  by eapply list_elem_of_lookup_2.
Qed.

(** The last step of growing: the indirect blocks from the first one that is not full on are
    written, then the doubly indirect block with all the pointers [Q]. *)
Lemma write_doubly fs b old blocks Q :
  alloc_ok fs -> own fs b -> 0 <= old < Z.of_nat (length blocks) ->
  Z.of_nat (length blocks) <= EXT2_ADDR_PER_BLOCK fs * EXT2_ADDR_PER_BLOCK fs -> Forall is_u32 blocks ->
  Z.of_nat (length Q) = up (Z.of_nat (length blocks)) (EXT2_ADDR_PER_BLOCK fs) -> Forall (own fs) Q -> NoDup (b :: Q) ->
  (forall k x, 0 <= k < old -> blocks !! Z.to_nat k = Some x -> ptr (base fs) (Q !!! Z.to_nat (k / EXT2_ADDR_PER_BLOCK fs)) (k mod EXT2_ADDR_PER_BLOCK fs) = x) ->
  exists fs1 fs', write_indirect_blocks (Z.to_nat (up (Z.of_nat (length blocks)) (EXT2_ADDR_PER_BLOCK fs) - old / EXT2_ADDR_PER_BLOCK fs)) fs
      (pointers (pointer_block fs Q)) blocks (old / EXT2_ADDR_PER_BLOCK fs) = Ret (KSuccess, fs1) /\
    fs_write_block fs1 b (for_kernel_buffer (pointer_block fs Q)) (block_size fs1) 0 true = Ret (KSuccess, fs') /\
    (forall v, step fs fs' (b :: Q) [] v) /\ inner (base fs') (EXT2_ADDR_PER_BLOCK fs) b (Z.of_nat (length blocks)) = Q /\
    pointed2 (base fs') (EXT2_ADDR_PER_BLOCK fs) b blocks /\ fs' = fs <| base := base fs' |>.
Proof.
  intros Hok Hown Hold Hlen Hu HQ HQown Hnd Hprev. pose proof (alloc_geometry _ Hok) as Hg. destruct (addr_per_block _ Hg) as [Hbs He].
  set (e := EXT2_ADDR_PER_BLOCK fs) in *. set (size := Z.of_nat (length blocks)) in *. apply NoDup_cons in Hnd as [HbQ Hnd].
  pose proof (up_spec size e ltac:(lia) ltac:(lia)) as Hup. assert (up size e <= e) as Hue by (apply up_le; lia).
  assert (Forall is_u32 Q) as HQu by (eapply Forall_impl; [exact HQown|]; intros q; by apply own_u32).
  destruct (pointer_block_spec fs Q) as (Hpl & Hpb & r & Hr); [done|fold e; lia|done|]. rewrite Hr.
  assert (0 <= old / e) as Hq0 by (apply Z.div_pos; lia). pose proof (Z.div_mod old e ltac:(lia)) as Hdm.
  pose proof (Z.mod_pos_bound old e ltac:(lia)) as Hmb. assert (old / e < up size e) as Hq1 by nia.
  assert (forall j, 0 <= j < up size e -> exists p, Q !! Z.to_nat j = Some p /\ (Q ++ r) !! Z.to_nat j = Some p /\ own fs p) as HQl.
  { intros j Hj. destruct (lookup_lt_is_Some_2 Q (Z.to_nat j)) as [p Hp]; [lia|]. exists p. split_and!; [done|by apply lookup_app_l_Some|].
    rewrite Forall_forall in HQown. apply HQown. by eapply list_elem_of_lookup_2. }
  destruct (write_indirect_blocks_spec (Z.to_nat (up size e - old / e)) fs (Q ++ r) blocks (old / e)) as (fs1 & -> & Hs1 & Hp1 & Hr1);
    [done..|fold e size; nia| | |].
  { intros j Hj. destruct (HQl j ltac:(lia)) as (p & _ & Hp & Hpo). by exists p. }
  { rewrite drop_app_le, take_app_le by (rewrite ?length_drop; lia). by apply NoDup_take_drop. }
  fold e in Hp1. pose proof (Hs1 true) as Hst1. destruct (geometry_fields _ _ (step_geometry _ _ _ _ _ Hst1)) as (Ebs & _).
  destruct (write_whole_block fs1 b (pointer_block fs Q)) as (fs2 & Heq2 & Hs2 & Hc2 & Hr2); [apply Hst1|by apply (step_own _ _ _ _ _ _ Hst1)|congruence|done|].
  exists fs1, fs2. split; [done|]. split; [done|].
  assert (forall j, 0 <= j < up size e -> ptr (base fs2) b j = Q !!! Z.to_nat j) as Hptr.
  { intros j Hj. destruct (HQl j Hj) as (p & Hp & _). rewrite (list_lookup_total_correct _ _ _ Hp). rewrite <- (Z2Nat.id j) by lia.
    apply (ptr_pointer_block fs _ _ Q); try done. fold e; lia. }
  split; [|split; [|split]].
  - intros v. apply (step_weaken _ _ (take (Z.to_nat (up size e - old / e)) (drop (Z.to_nat (old / e)) (Q ++ r)) ++ [b]) _ ([] ++ [])); [|
      |done].
    + by apply (step_app _ fs1).
    + intros x [Hx|Hx]%elem_of_app; [right|by apply list_elem_of_singleton in Hx as ->; left]. eapply elem_of_take_drop; [|exact Hx]. lia.
  - apply list_eq. intros i. destruct (decide (i < Z.to_nat (up size e))%nat).
    + pose proof (inner_lookup (base fs2) e b size (Z.of_nat i) ltac:(lia)) as Hi. rewrite Nat2Z.id in Hi. rewrite Hi, Hptr, Nat2Z.id by lia.
      symmetry. apply list_lookup_lookup_total_lt. lia.
    + pose proof (inner_length (base fs2) e b size ltac:(lia) ltac:(lia)). rewrite !lookup_ge_None_2; [done|lia..].
  - intros k x Hk Hx. apply lookup_lt_Some in Hx as Hkl. assert (0 <= k / e) by (apply Z.div_pos; lia).
    assert (k / e < up size e) by (apply Z.div_lt_upper_bound; lia). rewrite Hptr by lia.
    destruct (HQl (k / e)) as (p & Hp & Hp' & Hpo); [lia|]. rewrite (list_lookup_total_correct _ _ _ Hp).
    assert (p ∉ [b]) as Hpb' by (rewrite list_elem_of_singleton; intros ->; apply HbQ; by eapply list_elem_of_lookup_2).
    rewrite (step_ptr _ _ _ _ _ _ _ (Hs2 true)) by (try done; apply (step_valid _ _ _ _ _ Hst1); by apply own_valid).
    destruct (decide (old / e <= k / e)) as [Hge|Hlt].
    + pose proof (Z.mul_div_le k e ltac:(lia)). rewrite <- (Hp1 k x); [|rewrite Z2Nat.id by lia; nia|done]. by rewrite (list_lookup_total_correct _ _ _ Hp').
    + rewrite (step_ptr _ _ _ _ _ _ _ Hst1); [|by apply own_valid|].
      * rewrite <- (Hprev k x); [by rewrite (list_lookup_total_correct _ _ _ Hp)| |done]. pose proof (Z.div_mod k e). pose proof (Z.mod_pos_bound k e). nia.
      * rewrite drop_app_le, take_app_le by (rewrite ?length_drop; lia). apply (NoDup_drop_not_in _ (Z.to_nat (k / e))); [done..|lia].
  - rewrite Hr2, Hr1. by destruct fs.
Qed.

Lemma grow_doubly_spec fs b old blocks nm meta (k := up (Z.of_nat (length blocks)) (EXT2_ADDR_PER_BLOCK fs) - up old (EXT2_ADDR_PER_BLOCK fs)) :
  alloc_ok fs -> own fs b -> 0 <= old < Z.of_nat (length blocks) ->
  Z.of_nat (length blocks) <= EXT2_ADDR_PER_BLOCK fs * EXT2_ADDR_PER_BLOCK fs -> Forall is_u32 blocks ->
  Forall (own fs) (inner (base fs) (EXT2_ADDR_PER_BLOCK fs) b old ++ nm) ->
  NoDup (b :: inner (base fs) (EXT2_ADDR_PER_BLOCK fs) b old ++ nm) ->
  pointed2 (base fs) (EXT2_ADDR_PER_BLOCK fs) b (take (Z.to_nat old) blocks) ->
  k <= Z.of_nat (length nm) -> 0 <= meta -> meta + k < 2 ^ 32 ->
  exists fs', grow_doubly_indirect_block fs b old blocks nm meta = Ret (KSuccess, fs', take (length nm - Z.to_nat k) nm, meta + k) /\
    (forall v, step fs fs' (b :: inner (base fs') (EXT2_ADDR_PER_BLOCK fs) b (Z.of_nat (length blocks))) [] v) /\
    inner (base fs') (EXT2_ADDR_PER_BLOCK fs) b (Z.of_nat (length blocks)) =
      inner (base fs) (EXT2_ADDR_PER_BLOCK fs) b old ++ reverse (drop (length nm - Z.to_nat k) nm) /\
    pointed2 (base fs') (EXT2_ADDR_PER_BLOCK fs) b blocks /\ fs' = fs <| base := base fs' |>.
Proof.
  intros Hok Hown Hold Hlen Hu HQown Hnd Hprev Hk Hm1 Hm2. pose proof (alloc_geometry _ Hok) as Hg. destruct (addr_per_block _ Hg) as [Hbs He].
  unfold grow_doubly_indirect_block. set (e := EXT2_ADDR_PER_BLOCK fs) in *. set (size := Z.of_nat (length blocks)) in *.
  rewrite !VERIFY_true by first [lia|rewrite (wrap_id u32 eq_refl) by (rewrite in_type_u32; nia); lia]. run.
  pose proof (up_spec old e ltac:(lia) ltac:(lia)) as Huo. pose proof (up_mono old size e ltac:(lia) ltac:(lia)) as Hle.
  assert (up size e <= e) as Hue by (apply up_le; lia). pose proof (inner_length (base fs) e b old ltac:(lia) ltac:(lia)) as Hil.
  rewrite !divide_rounded_up_up by nia. fold k.
  set (I := inner (base fs) e b old) in *. set (R := reverse (drop (length nm - Z.to_nat k) nm)).
  assert (exists fs1 bytes, (if 0 <? old then fs_read_block fs b (for_kernel_buffer []) (block_size fs) 0 true else Ret (KSuccess, [], fs)) =
      Ret (KSuccess, bytes, fs1) /\ (forall v, step fs fs1 [] [] v) /\ fs1 = fs <| base := base fs1 |> /\
      take (Z.to_nat (up old e)) (pointers bytes) = I) as (fs1 & bytes & -> & Hs1 & Hr1 & Hbytes).
  { destruct (Z.ltb_spec 0 old).
    - destruct (read_pointers fs b) as (fs1 & bytes & Heq & Hs & Hr & Hpl & _ & Hp); [done|by apply own_valid|]. exists fs1, bytes.
      split_and!; try done. apply take_pointers; [lia..|fold e in Hpl; lia|]. rewrite Hpl. exact Hp.
    - exists fs, []. split_and!; try done; [intros v; by apply step_refl|by destruct fs|]. assert (old = 0) as E by lia.
      rewrite E, up_0 in * by lia. symmetry. apply nil_length_inv. lia. }
  run. change (KSuccess <? 0) with false. cbn iota. apply Forall_app in HQown as [HIown HNown].
  rewrite take_meta_blocks_spec; [|lia|eapply Forall_impl; [exact HNown|intros q; by apply own_u32]|lia..]. run. rewrite Hbytes. fold R.
  pose proof (Hs1 true) as Hst1. destruct (geometry_fields _ _ (step_geometry _ _ _ _ _ Hst1)) as (Ebs & _).
  pose proof (addr_geometry _ _ (step_geometry _ _ _ _ _ Hst1)) as Ee. fold e in Ee.
  assert (I ++ reverse R `sublist_of` I ++ nm) as Hsub by (unfold R; rewrite reverse_involutive; apply sublist_app; [done|apply sublist_drop]).
  assert (NoDup (b :: I ++ R)) as HndQ.
  { rewrite <- (reverse_involutive R), reverse_Permutation. eapply sublist_NoDup; [exact Hnd|by apply sublist_skip]. }
  assert (Forall (own fs) (I ++ R)) as HQown.
  { apply Forall_app. split; [done|]. unfold R. apply Forall_reverse. by apply Forall_drop. }
  assert (Z.of_nat (length (I ++ R)) = up size e) as HQl.
  { unfold R. rewrite length_app, length_reverse, length_drop. lia. }
  destruct (write_doubly fs1 b old blocks (I ++ R)) as (fs2 & fs3 & Heq2 & Heq3 & Hs3 & Hin & Hpt & Hr3); rewrite ?Ee; try done.
  - apply Hst1.
  - by apply (step_own _ _ _ _ _ _ Hst1).
  - eapply Forall_impl; [exact HQown|]. intros q. apply (step_own _ _ _ _ _ _ Hst1).
  - intros j x Hj Hx. assert (0 <= j / e) by (apply Z.div_pos; lia). assert (j / e < up old e) by (apply Z.div_lt_upper_bound; nia).
    pose proof (inner_lookup (base fs) e b old (j / e) ltac:(lia)) as Hi. fold I in Hi.
    rewrite (list_lookup_total_correct (I ++ R) _ (ptr (base fs) b (j / e))) by by apply lookup_app_l_Some.
    rewrite (step_ptr _ _ _ _ _ _ _ Hst1); [| |apply not_elem_of_nil].
    + apply Hprev; [lia|]. rewrite lookup_take_lt by lia. done.
    + apply own_valid; [done|]. rewrite Forall_forall in HIown. apply HIown. by eapply list_elem_of_lookup_2.
  - rewrite Ee in *. fold size in Heq2. rewrite Heq2. run. change (KSuccess <? 0) with false. cbn iota. rewrite Heq3. run.
    exists fs3. fold size in Hin. rewrite Hin. split_and!; try done.
    + do 2 f_equal. lia.
    + intros v. apply (step_app _ _ _ [] _ [] [] _ (Hs1 v) (Hs3 v)).
    + rewrite Hr3, Hr1. by destruct fs.
Qed.

Lemma free_block_spec fs b :
  alloc_ok fs -> own fs b -> used fs b = true ->
  exists fs', set_block_allocation_state fs b false = Ret (KSuccess, fs') /\ step fs fs' [] [b] false.
Proof.
  intros Hok [Hp Hr] Hu. destruct (set_block_allocation_state_spec fs b false) as (fs' & Heq & Hs); try done.
  exists fs'. split; [done|]. apply blocks_set_step. eapply blocks_set_cons; [exact Hs|]. apply blocks_set_nil, Hs.
Qed.

Lemma own_pos fs b : own fs b -> 0 < b.
Proof. intros [[Hb _] _]. lia. Qed.

(** A block that is used stays so while others are freed. *)
Lemma step_still_used fs fs' W l b : step fs fs' W l false -> own fs b -> b ∉ l -> used fs b = true -> used fs' b = true.
Proof.
  intros Hs Hown Hn Hu. rewrite (step_used _ _ _ _ _ Hs) by by eapply own_pos. by rewrite bool_decide_false.
Qed.

Lemma free_pointers_spec n fs P i meta :
  alloc_ok fs -> 0 <= i -> (forall j, i <= j < i + Z.of_nat n -> exists p, P !! Z.to_nat j = Some p /\ own fs p /\ used fs p = true) ->
  NoDup (take n (drop (Z.to_nat i) P)) -> Z.of_nat n <= meta < 2 ^ 32 ->
  exists fs', free_pointers n fs P i meta = Ret (KSuccess, fs', meta - Z.of_nat n) /\ step fs fs' [] (take n (drop (Z.to_nat i) P)) false.
Proof.
  revert fs i meta. induction n as [|n IH]; intros fs i meta Hok Hi HP Hnd Hm; cbn [free_pointers].
  { exists fs. rewrite Z.sub_0_r. split; [done|]. by apply step_refl. }
  destruct (HP i ltac:(lia)) as (p & Hp & Hown & Hu). unfold load. rewrite (proj2 (Z.leb_le 0 i)), Hp by lia. run.
  destruct (free_block_spec fs p) as (fs1 & -> & Hs1); try done. run. change (KSuccess <? 0) with false. cbn iota.
  assert (drop (Z.to_nat i) P = p :: drop (Z.to_nat (i + 1)) P) as Hdrop.
  { rewrite (drop_S _ p) by done. do 2 f_equal. lia. }
  rewrite Hdrop in Hnd |- *. cbn [take] in *. apply NoDup_cons in Hnd as [Hnin Hnd].
  rewrite (wrap_id u32 eq_refl (meta - 1)) by (rewrite in_type_u32; lia).
  destruct (IH fs1 (i + 1) (meta - 1)) as (fs2 & -> & Hs2); try done; try lia; [apply Hs1| |].
  - intros j Hj. destruct (HP j ltac:(lia)) as (q & Hq & Hqo & Hqu). exists q. split; [done|]. split; [by apply (step_own _ _ _ _ _ _ Hs1)|].
    apply (step_still_used _ _ _ _ _ Hs1); try done. rewrite list_elem_of_singleton. intros ->. apply Hnin.
    apply (list_elem_of_lookup_2 _ (Z.to_nat (j - i - 1))). rewrite lookup_take_lt, lookup_drop by lia. rewrite <- Hq. f_equal. lia.
  - exists fs2. split; [do 2 f_equal; lia|]. apply (step_app _ _ _ [] [] [p] _ _ Hs1 Hs2).
Qed.

Lemma shrink_doubly_spec fs b old new meta :
  alloc_ok fs -> own fs b -> used fs b = true -> 0 < old <= EXT2_ADDR_PER_BLOCK fs * EXT2_ADDR_PER_BLOCK fs -> 0 <= new <= old ->
  Forall (fun p => own fs p /\ used fs p = true) (inner (base fs) (EXT2_ADDR_PER_BLOCK fs) b old) ->
  NoDup (b :: inner (base fs) (EXT2_ADDR_PER_BLOCK fs) b old) ->
  up old (EXT2_ADDR_PER_BLOCK fs) + 1 <= meta < 2 ^ 32 ->
  exists fs' freed, shrink_doubly_indirect_block fs b old new meta = Ret (KSuccess, fs', meta - Z.of_nat (length freed)) /\
    step fs fs' [] freed false /\
    (if new =? 0 then [] else b :: inner (base fs) (EXT2_ADDR_PER_BLOCK fs) b new) ++ freed ≡ₚ
      b :: inner (base fs) (EXT2_ADDR_PER_BLOCK fs) b old.
Proof.
  intros Hok Hown Hub Hold Hnew HI Hnd Hm. pose proof (alloc_geometry _ Hok) as Hg. destruct (addr_per_block _ Hg) as [Hbs He].
  unfold shrink_doubly_indirect_block. set (e := EXT2_ADDR_PER_BLOCK fs) in *.
  rewrite !VERIFY_true by first [lia|rewrite (wrap_id u32 eq_refl) by (rewrite in_type_u32; nia); lia]. run.
  destruct (read_pointers fs b) as (fs1 & bytes & -> & Hs1 & Hr1 & Hpl & _ & Hp); [done|by apply own_valid|]. run.
  change (KSuccess <? 0) with false. cbn iota. rewrite !divide_rounded_up_up by nia. fold e in Hpl, Hp. rewrite <- Hpl in Hp.
  pose proof (up_mono new old e ltac:(lia) ltac:(lia)) as Hle. assert (up old e <= e) as Hue by (apply up_le; lia).
  pose proof (up_spec new e ltac:(lia) ltac:(lia)) as Hun. pose proof (inner_length (base fs) e b new ltac:(lia) ltac:(lia)) as Hnl.
  pose proof (inner_length (base fs) e b old ltac:(lia) ltac:(lia)) as Hol.
  set (freed := take (Z.to_nat (up old e - up new e)) (drop (Z.to_nat (up new e)) (pointers bytes))).
  assert (inner (base fs) e b new ++ freed = inner (base fs) e b old) as Hsplit.
  { rewrite <- (take_pointers _ e b old (pointers bytes)), <- (take_pointers _ e b new (pointers bytes)) by (try done; lia).
    unfold freed. rewrite take_take_drop. f_equal. lia. }
  pose proof (Hs1 false) as Hst1. apply NoDup_cons in Hnd as [Hbn Hnd].
  destruct (free_pointers_spec (Z.to_nat (up old e - up new e)) fs1 (pointers bytes) (up new e) meta) as (fs2 & -> & Hs2);
    [apply Hst1|lia| | |lia|].
  { intros j Hj. pose proof (inner_lookup (base fs) e b old j ltac:(lia)) as Hij. exists (ptr (base fs) b j).
    rewrite Forall_lookup in HI. destruct (HI _ _ Hij) as [Ho Hu]. split; [apply Hp; lia|]. split; [by apply (step_own _ _ _ _ _ _ Hst1)|].
    apply (step_still_used _ _ _ _ _ Hst1); try done. apply not_elem_of_nil. }
  { rewrite <- Hsplit in Hnd. by apply NoDup_app in Hnd as (_ & _ & ?). }
  run. fold freed in Hs2. change (KSuccess <? 0) with false. cbn iota. pose proof (step_app _ _ _ _ _ _ _ _ Hst1 Hs2) as Hs12. cbn [app] in Hs12.
  assert (Z.of_nat (length freed) = up old e - up new e) as Hfl by (rewrite <- Hsplit, length_app in Hol; lia).
  unfold free_if_unused. destruct (Z.eqb_spec new 0) as [Hz|Hnz].
  2: { exists fs2, freed. split; [do 2 f_equal; lia|]. split; [done|]. cbn [app]. by rewrite Hsplit. }
  destruct (free_block_spec fs2 b) as (fs3 & -> & Hs3); [apply Hs2|by apply (step_own _ _ _ _ _ _ Hs12)| |].
  { apply (step_still_used _ _ _ _ _ Hs12); try done. intros Hb. apply Hbn. rewrite <- Hsplit. by apply elem_of_app; right. }
  run. change (KSuccess <? 0) with false. cbn iota. rewrite (wrap_id u32 eq_refl) by (rewrite in_type_u32; lia).
  exists fs3, (freed ++ [b]). split; [rewrite length_app; cbn [length]; do 2 f_equal; lia|]. split; [apply (step_app _ _ _ [] [] _ _ _ Hs12 Hs3)|].
  rewrite <- Hsplit. rewrite Hz, up_0 in Hnl by lia. rewrite (nil_length_inv (inner (base fs) e b new)) by (rewrite Hz; lia). cbn [app].
  by rewrite Permutation_app_comm.
Qed.

(** ** The shape of a list *)

(** Of [n] blocks, those behind the direct ones: in the indirect block, and in the doubly
    indirect one. *)
Definition n1 (e n : Z) : Z := Z.min (Z.max (n - EXT2_NDIR_BLOCKS) 0) e.
Definition n2 (e n : Z) : Z := Z.max (n - EXT2_NDIR_BLOCKS - e) 0.

(** The most blocks that need no triply indirect block. *)
Definition doubly_limit (e : Z) : Z := EXT2_NDIR_BLOCKS + e + e * e.

Definition n_meta (e n : Z) : Z := Z.b2z (0 <? n1 e n) + (if 0 <? n2 e n then 1 + up (n2 e n) e else 0).

Lemma compute_block_list_shape_spec fs n :
  geometry_ok fs -> 0 <= n <= doubly_limit (EXT2_ADDR_PER_BLOCK fs) ->
  compute_block_list_shape fs n =
    Ret (MkShape (Z.min EXT2_NDIR_BLOCKS n) (n1 (EXT2_ADDR_PER_BLOCK fs) n) (n2 (EXT2_ADDR_PER_BLOCK fs) n) 0
           (n_meta (EXT2_ADDR_PER_BLOCK fs) n)).
Proof.
  intros Hg Hn. destruct (addr_per_block _ Hg) as [_ He]. unfold compute_block_list_shape, n_meta, n1, n2, doubly_limit, EXT2_NDIR_BLOCKS in *.
  set (e := EXT2_ADDR_PER_BLOCK fs) in *. destruct (Z.eqb_spec (n - Z.min 12 n) 0) as [H0|H0].
  { rewrite (Z.min_l (Z.max (n - 12) 0) e), !Z.max_r by lia. done. }
  rewrite (Z.max_l (n - 12) 0), (Z.min_l 12 n) by lia. rewrite (proj2 (Z.ltb_lt 0 (Z.min (n - 12) e))) by lia.
  destruct (Z.eqb_spec (n - 12 - Z.min (n - 12) e) 0) as [H1|H1].
  { rewrite !Z.max_r by lia. done. }
  rewrite (Z.min_r (n - 12) e), (Z.max_l (n - 12 - e) 0) by lia. rewrite (proj2 (Z.ltb_lt 0 (n - 12 - e))) by lia.
  rewrite (wrap_id u32 eq_refl (e * e)) by (rewrite in_type_u32; nia). rewrite (Z.min_l (n - 12 - e)) by lia.
  assert (up (n - 12 - e) e <= e) by (apply up_le; lia). pose proof (up_spec (n - 12 - e) e).
  rewrite divide_rounded_up_up by nia. rewrite (wrap_id u32 eq_refl) by (rewrite in_type_u32; nia).
  rewrite (proj2 (Z.eqb_eq (n - 12 - e - (n - 12 - e)) 0)) by lia. do 2 f_equal. cbn. lia.
Qed.

(** ** One level of the list *)

(** The blocks of pointers of a level with [m] entries. *)
Definition metas1 (b m : Z) : list Z := if m =? 0 then [] else [b].
Definition metas2 (s : S) (e b m : Z) : list Z := if m =? 0 then [] else b :: inner s e b m.

(** The inode but for its pointers and the flag. *)
Definition same_inode inode inode' : Prop :=
  inode' = inode <| m_raw_inode := m_raw_inode inode <| i_block := i_block (m_raw_inode inode') |> |>
                 <| m_metadata_dirty := m_metadata_dirty inode' |>.

(** A level, whose pointer is entry [k] of the inode, has been brought up to date: its blocks of
    pointers were [M] and are [M'], taken from [nm] when there are more of them. *)
Definition flushed (k : nat) fs fs' inode inode' (nm nm' : list Z) (meta meta' : Z) (M M' : list Z) (grow : bool) : Prop :=
  exists taken freed, nm = nm' ++ taken /\ M' ++ freed ≡ₚ M ++ taken /\ meta' = meta + Z.of_nat (length taken) - Z.of_nat (length freed) /\
    step fs fs' M' freed false /\ (if grow then freed = [] else taken = []) /\ same_inode inode inode' /\
    length (pointers_of inode') = length (pointers_of inode) /\ forall i, i <> k -> pointers_of inode' !! i = pointers_of inode !! i.

Lemma same_inode_refl inode : same_inode inode inode.
Proof. unfold same_inode. by destruct inode as [? [] ? ? ?]. Qed.

Lemma same_inode_trans inode1 inode2 inode3 : same_inode inode1 inode2 -> same_inode inode2 inode3 -> same_inode inode1 inode3.
Proof. unfold same_inode. intros -> ->. by destruct inode1 as [? [] ? ? ?]. Qed.

Lemma flushed_refl k fs inode nm meta M grow : alloc_ok fs -> flushed k fs fs inode inode nm nm meta meta M M grow.
Proof.
  intros Hok. exists [], []. rewrite !app_nil_r. split_and!; try done; [cbn; lia| |by destruct grow|by apply same_inode_refl].
  apply (step_weaken _ _ [] _ []); [by apply step_refl|by intros b ?%elem_of_nil|done].
Qed.

Lemma set_metadata_dirty_spec fs inode b :
  m_readonly fs = false -> exists inode', set_metadata_dirty fs inode b = Ret inode' /\ inode' = inode <| m_metadata_dirty := b |>.
Proof.
  intros Hr. unfold set_metadata_dirty. rewrite Hr, andb_false_r. cbn [negb VERIFY]. run. eexists. split; [done|].
  case_bool_decide as Hb; [|done]. rewrite <- Hb. by destruct inode.
Qed.

(** A pointer block is taken when the level was empty. *)
Lemma new_pointer_block_spec fs inode (k : nat) old nm meta :
  m_readonly fs = false -> (k < length (pointers_of inode))%nat -> (old = 0 -> nm <> []) -> Forall is_u32 nm -> 0 <= meta -> meta + 1 < 2 ^ 32 ->
  exists inode' nm' taken b, new_pointer_block fs inode (Z.of_nat k) old nm meta = Ret (inode', nm', meta + Z.of_nat (length taken)) /\
    nm = nm' ++ taken /\ taken = (if old =? 0 then [b] else []) /\ same_inode inode inode' /\
    pointers_of inode' !! k = Some b /\ (old <> 0 -> pointers_of inode !! k = Some b) /\
    length (pointers_of inode') = length (pointers_of inode) /\ (forall i, i <> k -> pointers_of inode' !! i = pointers_of inode !! i).
Proof.
  intros Hr Hk Hne Hu Hm1 Hm2. unfold new_pointer_block. destruct (Z.eqb_spec old 0) as [->|Hold].
  - destruct nm as [|b nm' _] using rev_ind; [by specialize (Hne eq_refl)|]. unfold take_last. rewrite last_snoc. run.
    replace (length (nm' ++ [b]) - 1)%nat with (length nm') by (rewrite length_app; cbn; lia). rewrite take_app_length.
    apply Forall_app in Hu as [_ Hb]. rewrite Forall_singleton in Hb. unfold is_u32 in Hb.
    rewrite (wrap_id u32 eq_refl b) by (rewrite in_type_u32; lia). unfold store. rewrite (proj2 (andb_true_iff _ _)) by (split; lia). run.
    rewrite Nat2Z.id. destruct (set_metadata_dirty_spec fs (set_i_block inode (<[k:=b]> (pointers_of inode))) true Hr) as (inode' & -> & Heq).
    run. rewrite (wrap_id u32 eq_refl) by (rewrite in_type_u32; lia). exists inode', nm', [b], b.
    assert (pointers_of inode' = <[k:=b]> (pointers_of inode)) as Hp by by rewrite Heq.
    rewrite Hp, length_insert, list_lookup_insert_eq by done. split_and!; try done.
    + rewrite Heq. unfold same_inode, set_i_block. by destruct inode as [? [] ? ? ?].
    + intros i Hi. by rewrite list_lookup_insert_ne.
  - destruct (lookup_lt_is_Some_2 _ _ Hk) as [b Hb]. exists inode, nm, [], b. rewrite app_nil_r. cbn. rewrite Z.add_0_r.
    split_and!; try done. by apply same_inode_refl.
Qed.

(** The blocks from [start] on that are in the list, as the code passes them on. *)
Lemma span_of_list inode start n :
  0 <= start -> 0 <= n -> start + n <= Z.of_nat (length (m_block_list inode)) < 2 ^ 32 -> Forall is_u32 (m_block_list inode) ->
  exists l, Span_slice (m_block_list inode) start n = Ret l /\ length l = Z.to_nat n /\ Forall is_u32 l /\
    forall k, 0 <= k < n -> l !! Z.to_nat k = m_block_list inode !! Z.to_nat (start + k).
Proof.
  intros Hs Hn Hl Hu. exists (slice (m_block_list inode) start n). split_and!.
  - apply Span_slice_spec; lia.
  - apply slice_length; lia.
  - by apply Forall_slice.
  - intros k Hk. rewrite slice_lookup, decide_True by lia. f_equal. lia.
Qed.

Lemma flush_indirect_spec fs inode old_shape new_shape start nm meta (a := indirect_blocks old_shape) (a' := indirect_blocks new_shape)
    (b := pointers_of inode !!! Z.to_nat EXT2_IND_BLOCK) :
  alloc_ok fs -> m_readonly fs = false -> length (pointers_of inode) = Z.to_nat EXT2_N_BLOCKS ->
  0 <= a <= EXT2_ADDR_PER_BLOCK fs -> 0 <= a' <= EXT2_ADDR_PER_BLOCK fs ->
  0 <= start -> start + a' <= Z.of_nat (length (m_block_list inode)) < 2 ^ 32 -> Forall is_u32 (m_block_list inode) ->
  Forall (fun p => own fs p /\ used fs p = true) (metas1 b a) -> Forall (own fs) nm -> (a = 0 -> 0 < a' -> nm <> []) ->
  (forall k x, 0 <= k < a -> k < a' -> m_block_list inode !! Z.to_nat (start + k) = Some x -> ptr (base fs) b k = x) ->
  1 <= meta + 1 < 2 ^ 32 -> (0 < a -> 0 < meta) ->
  exists fs' inode' nm' meta' b', flush_indirect fs inode old_shape new_shape start nm meta = Ret (KSuccess, fs', inode', nm', meta') /\
    pointers_of inode' !! Z.to_nat EXT2_IND_BLOCK = Some b' /\
    flushed (Z.to_nat EXT2_IND_BLOCK) fs fs' inode inode' nm nm' meta meta' (metas1 b a) (metas1 b' a') (a <=? a') /\
    forall k x, 0 <= k < a' -> m_block_list inode !! Z.to_nat (start + k) = Some x -> ptr (base fs') b' k = x.
Proof.
  intros Hok Hr Hlen Ha Ha' Hst Hend Hu HM Hnm Hne Hold Hm Hm0. unfold flush_indirect. fold a a'. set (k1 := Z.to_nat EXT2_IND_BLOCK) in *.
  assert (k1 < length (pointers_of inode))%nat as Hk1 by (rewrite Hlen; vm_compute; lia).
  assert (pointers_of inode !! k1 = Some b) as Hb by by apply list_lookup_lookup_total_lt.
  destruct (Z.eqb_spec a a') as [Heq|Hneq].
  { exists fs, inode, nm, meta, b. split; [done|]. split; [done|]. rewrite Heq. split; [by apply flushed_refl|]. intros k x Hk. apply Hold; lia. }
  destruct (Z.ltb_spec a a') as [Hlt|Hge].
  - destruct (new_pointer_block_spec fs inode k1 a nm meta) as (inode' & nm' & taken & b' & Heqn & Hnm' & Htk & Hsame & Hb' & Hbb & Hl' & Hoth);
      [done|done|intros H0; apply Hne; lia|eapply Forall_impl; [exact Hnm|intros q; by apply own_u32]|lia..|].
    change (Z.of_nat k1) with EXT2_IND_BLOCK in Heqn. rewrite Heqn. run. unfold i_block_at, load. change (0 <=? EXT2_IND_BLOCK) with true. cbn iota.
    fold k1. rewrite Hb'. run. assert (m_block_list inode' = m_block_list inode) as El by by rewrite Hsame.
    destruct (span_of_list inode start a') as (l & Hl & Hll & Hlu & Hlk); [lia..|done|]. rewrite El, Hl. run.
    assert (own fs b') as Hown.
    { unfold metas1 in HM. destruct (Z.eqb_spec a 0) as [H0|H0]; subst taken.
      - rewrite Hnm' in Hnm. apply Forall_app in Hnm as [_ Hx]. by rewrite Forall_singleton in Hx.
      - assert (b' = b) as -> by (specialize (Hbb H0); congruence). rewrite Forall_singleton in HM. apply HM. }
    destruct (write_indirect_block_spec fs b' l) as (fs' & -> & Hs & Hp & Hrr); [done|done|lia|done|]. run.
    exists fs', inode', nm', (meta + Z.of_nat (length taken)), b'. split; [done|]. split; [done|]. split.
    + exists taken, []. rewrite app_nil_r, (proj2 (Z.leb_le a a')) by lia. split_and!; try done.
      * unfold metas1. rewrite (proj2 (Z.eqb_neq a' 0)) by lia. subst taken. destruct (Z.eqb_spec a 0); [done|].
        assert (b' = b) as -> by (specialize (Hbb n); congruence). done.
      * cbn. lia.
      * apply (step_weaken _ _ [b'] _ []); [apply Hs| |done]. unfold metas1. by rewrite (proj2 (Z.eqb_neq a' 0)) by lia.
    + intros k x Hk Hx. rewrite <- (Z2Nat.id k) by lia. apply Hp. by rewrite Hlk.
  - destruct (Z.eqb_spec a' 0) as [H0|H0]; cbn [andb].
    + rewrite (proj2 (Z.eqb_neq a 0)) by lia. cbn [negb]. unfold i_block_at, load. change (0 <=? EXT2_IND_BLOCK) with true. cbn iota. fold k1. rewrite Hb. run.
      unfold metas1 in *. rewrite (proj2 (Z.eqb_neq a 0)), (proj2 (Z.eqb_eq a' 0)) in * by lia. rewrite Forall_singleton in HM.
      destruct (free_block_spec fs b) as (fs' & -> & Hs); [done|apply HM..|]. run. change (KSuccess <? 0) with false. cbn iota.
      rewrite (wrap_id u32 eq_refl) by (rewrite in_type_u32; lia).
      exists fs', inode, nm, (meta - 1), b. split; [done|]. split; [done|]. split; [|lia]. exists [], [b]. rewrite !app_nil_r, (proj2 (Z.leb_gt a a')) by lia.
      split_and!; try done; [cbn; lia|]. by apply same_inode_refl.
    + exists fs, inode, nm, meta, b. split; [done|]. split; [done|]. split.
      * unfold metas1. rewrite (proj2 (Z.eqb_neq a 0)), (proj2 (Z.eqb_neq a' 0)) by lia. by apply flushed_refl.
      * intros k x Hk. apply Hold; lia.
Qed.

Definition count2 (e m : Z) : Z := if m =? 0 then 0 else 1 + up m e.

Lemma metas2_length s e b m : 0 < e -> 0 <= m -> Z.of_nat (length (metas2 s e b m)) = count2 e m.
Proof.
  intros. unfold metas2, count2. destruct (m =? 0); [done|]. cbn [length]. rewrite Nat2Z.inj_succ, inner_length by done. lia.
Qed.

Lemma flush_doubly_spec fs inode a a' start nm meta (e := EXT2_ADDR_PER_BLOCK fs) (b := pointers_of inode !!! Z.to_nat EXT2_DIND_BLOCK) :
  alloc_ok fs -> m_readonly fs = false -> length (pointers_of inode) = Z.to_nat EXT2_N_BLOCKS ->
  0 <= a <= e * e -> 0 <= a' <= e * e ->
  0 <= start -> start + a' <= Z.of_nat (length (m_block_list inode)) < 2 ^ 32 -> Forall is_u32 (m_block_list inode) ->
  Forall (fun p => own fs p /\ used fs p = true) (metas2 (base fs) e b a) -> Forall (own fs) nm ->
  NoDup (metas2 (base fs) e b a ++ nm) -> count2 e a' - count2 e a <= Z.of_nat (length nm) ->
  (forall k x, 0 <= k < a -> k < a' -> m_block_list inode !! Z.to_nat (start + k) = Some x ->
     ptr (base fs) (ptr (base fs) b (k / e)) (k mod e) = x) ->
  count2 e a <= meta -> meta + Z.of_nat (length nm) + 1 < 2 ^ 32 ->
  exists fs' inode' nm' meta' b',
    flush_deeper grow_doubly_indirect_block shrink_doubly_indirect_block fs inode EXT2_DIND_BLOCK a a' start nm meta =
      Ret (KSuccess, fs', inode', nm', meta') /\
    pointers_of inode' !! Z.to_nat EXT2_DIND_BLOCK = Some b' /\
    flushed (Z.to_nat EXT2_DIND_BLOCK) fs fs' inode inode' nm nm' meta meta' (metas2 (base fs) e b a) (metas2 (base fs') e b' a') (a <=? a') /\
    forall k x, 0 <= k < a' -> m_block_list inode !! Z.to_nat (start + k) = Some x ->
      ptr (base fs') (ptr (base fs') b' (k / e)) (k mod e) = x.
Proof.
  intros Hok Hr Hlen Ha Ha' Hst Hend Hu HM Hnm Hnd Hneed Hold Hm1 Hm2. unfold flush_deeper. set (k1 := Z.to_nat EXT2_DIND_BLOCK) in *.
  pose proof (alloc_geometry _ Hok) as Hg. destruct (addr_per_block _ Hg) as [Hbs He]. fold e in He.
  assert (k1 < length (pointers_of inode))%nat as Hk1 by (rewrite Hlen; vm_compute; lia).
  assert (pointers_of inode !! k1 = Some b) as Hb by by apply list_lookup_lookup_total_lt.
  assert (0 <= count2 e a) as Hc0 by (unfold count2; destruct (_ =? _); [lia|]; pose proof (up_spec a e); lia).
  destruct (Z.eqb_spec a a') as [Heq|Hneq].
  { exists fs, inode, nm, meta, b. split; [done|]. split; [done|]. rewrite Heq. split; [by apply flushed_refl|]. intros k x Hk. apply Hold; lia. }
  destruct (Z.ltb_spec a a') as [Hlt|Hge].
  - assert (a = 0 -> nm <> []) as Hne.
    { intros H0 ->. unfold count2 in Hneed. rewrite (proj2 (Z.eqb_eq a 0)), (proj2 (Z.eqb_neq a' 0)) in Hneed by lia. cbn in Hneed.
      pose proof (up_pos a' e). lia. }
    destruct (new_pointer_block_spec fs inode k1 a nm meta) as (inode' & nm1 & taken & b' & Heqn & Hnm' & Htk & Hsame & Hb' & Hbb & Hl' & Hoth);
      [done|done|done|eapply Forall_impl; [exact Hnm|intros q; by apply own_u32]|lia..|].
    change (Z.of_nat k1) with EXT2_DIND_BLOCK in Heqn. rewrite Heqn. run. unfold i_block_at, load. change (0 <=? EXT2_DIND_BLOCK) with true. cbn iota.
    fold k1. rewrite Hb'. run. assert (m_block_list inode' = m_block_list inode) as El by by rewrite Hsame.
    destruct (span_of_list inode start a') as (l & Hl & Hll & Hlu & Hlk); [lia..|done|]. rewrite El, Hl. run.
    assert (metas2 (base fs) e b a ++ taken ≡ₚ b' :: inner (base fs) e b' a) as Hperm.
    { unfold metas2. subst taken. destruct (Z.eqb_spec a 0) as [H0|H0].
      - rewrite H0. unfold inner. rewrite up_0 by lia. done.
      - assert (b' = b) as -> by (specialize (Hbb H0); congruence). by rewrite app_nil_r. }
    assert (NoDup (b' :: inner (base fs) e b' a ++ nm1)) as Hnd1.
    { rewrite app_comm_cons, <- Hperm, <- app_assoc, (Permutation_app_comm taken), <- Hnm'. done. }
    assert (Forall (own fs) (b' :: inner (base fs) e b' a)) as Hown1.
    { rewrite <- Hperm, Forall_app. split; [eapply Forall_impl; [exact HM|]; by intros p [? _]|]. rewrite Hnm' in Hnm. by apply Forall_app in Hnm as [_ ?]. }
    assert (Z.of_nat (length taken) = if a =? 0 then 1 else 0) as Htl by (subst taken; by destruct (a =? 0)).
    apply (f_equal length) in Hnm' as Hnl. rewrite length_app in Hnl.
    apply Forall_cons in Hown1 as [Hown Hown1].
    destruct (grow_doubly_spec fs b' a l nm1 (meta + Z.of_nat (length taken))) as (fs' & Heqg & Hs & Hin & Hpt & Hrr); fold e; rewrite ?Hll; try done.
    + lia.
    + lia.
    + apply Forall_app. split; [done|]. rewrite Hnm' in Hnm. by apply Forall_app in Hnm as [? _].
    + intros k x Hk [Hx Hka]%lookup_take_Some. rewrite Hlk in Hx by lia. destruct (Z.eqb_spec a 0); [lia|].
      assert (b' = b) as -> by (specialize (Hbb n); congruence). apply Hold; [lia..|done].
    + unfold count2 in Hneed. rewrite Z2Nat.id by lia. rewrite (proj2 (Z.eqb_neq a' 0)) in Hneed by lia. destruct (Z.eqb_spec a 0) as [H0|H0].
      * rewrite H0, up_0 by lia. lia.
      * lia.
    + lia.
    + rewrite Z2Nat.id by lia. unfold count2 in *. rewrite (proj2 (Z.eqb_neq a' 0)) in Hneed by lia. destruct (Z.eqb_spec a 0) as [H0|H0]; [|lia].
      rewrite H0, up_0 by lia. lia.
    + rewrite Hll, Z2Nat.id in * by lia. fold e in Heqg, Hs, Hin, Hpt. rewrite Heqg. run. set (kk := up a' e - up a e) in *.
      pose proof (up_mono a a' e ltac:(lia) ltac:(lia)) as Hmono.
      assert (kk <= Z.of_nat (length nm1)) as Hkk.
      { unfold count2 in Hneed. rewrite (proj2 (Z.eqb_neq a' 0)) in Hneed by lia. destruct (Z.eqb_spec a 0) as [H0|H0]; [|lia].
        subst kk. rewrite H0, up_0 by lia. lia. }
      eexists fs', inode', _, _, b'. split; [done|]. split; [done|]. split.
      * exists (drop (length nm1 - Z.to_nat kk) nm1 ++ taken), []. rewrite app_nil_r, (proj2 (Z.leb_le a a')) by lia. split_and!; try done.
        -- by rewrite app_assoc, take_drop.
        -- unfold metas2 at 1. rewrite (proj2 (Z.eqb_neq a' 0)) by lia. rewrite Hin, reverse_Permutation, app_comm_cons, <- Hperm.
           by rewrite <- app_assoc, (Permutation_app_comm taken).
        -- rewrite length_app, length_drop. cbn. lia.
        -- unfold metas2. rewrite (proj2 (Z.eqb_neq a' 0)) by lia. apply Hs.
      * intros k x Hk Hx. apply Hpt; [lia|]. by rewrite Hlk.
  - unfold i_block_at, load. change (0 <=? EXT2_DIND_BLOCK) with true. cbn iota. fold k1. rewrite Hb. run.
    apply NoDup_app in Hnd as (Hnd & _ & _). unfold metas2 in HM, Hnd at 1. unfold count2 in Hm1. rewrite (proj2 (Z.eqb_neq a 0)) in HM, Hnd, Hm1 by lia.
    apply Forall_cons in HM as [[Hown Hub] HM].
    destruct (shrink_doubly_spec fs b a a' meta) as (fs' & freed & -> & Hs & Hfr); fold e; try done; try lia. run.
    assert (inner (base fs') e b a' = inner (base fs) e b a') as Hin.
    { unfold inner. apply list_fmap_ext. intros i x _. apply (step_ptr _ _ _ _ _ _ _ Hs); [by apply own_valid|apply not_elem_of_nil]. }
    exists fs', inode, nm, (meta - Z.of_nat (length freed)), b. split; [done|]. split; [done|]. split.
    + exists [], freed. rewrite !app_nil_r, (proj2 (Z.leb_gt a a')) by lia. split_and!; try done; [|cbn; lia| |by apply same_inode_refl].
      * unfold metas2 at 1 2. rewrite (proj2 (Z.eqb_neq a 0)), Hin by lia. by destruct (a' =? 0).
      * apply (step_weaken _ _ [] _ freed); [done|by intros q ?%elem_of_nil|done].
    + intros k x Hk Hx. fold e in HM.
      assert (0 <= k / e < up a e) as Hke.
      { pose proof (up_spec a e ltac:(lia) ltac:(lia)). split; [apply Z.div_pos; lia|apply Z.div_lt_upper_bound; nia]. }
      rewrite !(step_ptr _ _ _ _ _ b _ Hs) by (try apply not_elem_of_nil; by apply own_valid).
      rewrite (step_ptr _ _ _ _ _ _ _ Hs); [apply Hold; [lia..|done]| |apply not_elem_of_nil].
      rewrite Forall_lookup in HM. apply own_valid; [done|]. eapply HM. by apply inner_lookup.
Qed.

(** ** The whole list *)

Definition ind_of (ib : list Z) : Z := ib !!! Z.to_nat EXT2_IND_BLOCK.
Definition dind_of (ib : list Z) : Z := ib !!! Z.to_nat EXT2_DIND_BLOCK.

(** The blocks of pointers of a list of [n] blocks. *)
Definition metas (s : S) (e : Z) (ib : list Z) (n : Z) : list Z := metas1 (ind_of ib) (n1 e n) ++ metas2 s e (dind_of ib) (n2 e n).

(** The entries of the list [l] behind the direct ones are where they belong. *)
Definition mapped_ind (s : S) (e : Z) (ib l : list Z) (n : Z) : Prop :=
  (forall k x, 0 <= k < n1 e n -> l !! Z.to_nat (EXT2_NDIR_BLOCKS + k) = Some x -> ptr s (ind_of ib) k = x) /\
  (forall k x, 0 <= k < n2 e n -> l !! Z.to_nat (EXT2_NDIR_BLOCKS + e + k) = Some x ->
     ptr s (ptr s (dind_of ib) (k / e)) (k mod e) = x).

Lemma metas_length s e ib n : 0 < e -> Z.of_nat (length (metas s e ib n)) = n_meta e n.
Proof.
  intros He. unfold metas, n_meta. rewrite length_app, Nat2Z.inj_add, metas2_length by (unfold n2; lia). unfold metas1, count2.
  assert (0 <= n1 e n) by (unfold n1; lia). assert (0 <= n2 e n) by (unfold n2; lia).
  destruct (Z.eqb_spec (n1 e n) 0), (Z.ltb_spec 0 (n1 e n)); try lia; destruct (Z.eqb_spec (n2 e n) 0), (Z.ltb_spec 0 (n2 e n)); cbn; lia.
Qed.

Lemma NoDup_perm_incl (l l' : list Z) : l ≡ₚ l' -> NoDup l -> NoDup l'.
Proof. by intros ->. Qed.

(** Blocks of pointers that are not written keep what they say. *)
Lemma metas2_kept fs fs' W l v e b m :
  step fs fs' W l v -> Forall (store_valid (base fs)) (metas2 (base fs) e b m) -> (forall p, p ∈ metas2 (base fs) e b m -> p ∉ W) ->
  metas2 (base fs') e b m = metas2 (base fs) e b m.
Proof.
  intros Hs Hv HW. unfold metas2 in *. destruct (m =? 0); [done|]. f_equal. unfold inner. apply list_fmap_ext. intros i x _.
  apply (step_ptr _ _ _ _ _ _ _ Hs); [by apply Forall_cons in Hv as [? _]|]. apply HW. left.
Qed.

Lemma pointed_kept fs fs' W l v e b m k x :
  step fs fs' W l v -> Forall (store_valid (base fs)) (metas2 (base fs) e b m) -> (forall p, p ∈ metas2 (base fs) e b m -> p ∉ W) ->
  0 < e -> 0 <= k < m -> ptr (base fs) (ptr (base fs) b (k / e)) (k mod e) = x -> ptr (base fs') (ptr (base fs') b (k / e)) (k mod e) = x.
Proof.
  intros Hs Hv HW He Hk Hx. unfold metas2 in *. rewrite (proj2 (Z.eqb_neq m 0)) in * by lia.
  assert (0 <= k / e < up m e) as Hke.
  { pose proof (up_spec m e ltac:(lia) ltac:(lia)). split; [apply Z.div_pos; lia|apply Z.div_lt_upper_bound; nia]. }
  apply Forall_cons in Hv as [Hvb Hv]. rewrite (step_ptr _ _ _ _ _ b _ Hs) by (try done; apply HW; left).
  pose proof (inner_lookup (base fs) e b m (k / e) Hke) as Hi. rewrite Forall_lookup in Hv.
  rewrite (step_ptr _ _ _ _ _ _ _ Hs); [done|by eapply Hv|]. apply HW. right. by eapply list_elem_of_lookup_2.
Qed.

Lemma n_levels_mono e n n' : 0 < e -> n <= n' -> n1 e n <= n1 e n' /\ n2 e n <= n2 e n'.
Proof. unfold n1, n2. lia. Qed.

Lemma n_levels_bounds e n : 0 < e -> 0 <= n <= doubly_limit e -> 0 <= n1 e n <= e /\ 0 <= n2 e n <= e * e.
Proof. unfold n1, n2, doubly_limit, EXT2_NDIR_BLOCKS. nia. Qed.

Lemma n_meta_counts e n : 0 < e -> n_meta e n = (if n1 e n =? 0 then 0 else 1) + count2 e (n2 e n).
Proof.
  intros He. unfold n_meta, count2. assert (0 <= n1 e n) by (unfold n1; lia). assert (0 <= n2 e n) by (unfold n2; lia).
  destruct (Z.eqb_spec (n1 e n) 0), (Z.ltb_spec 0 (n1 e n)); try lia; destruct (Z.eqb_spec (n2 e n) 0), (Z.ltb_spec 0 (n2 e n)); cbn; lia.
Qed.

Lemma count2_mono e m m' : 0 < e -> 0 <= m <= m' -> count2 e m <= count2 e m'.
Proof.
  intros. unfold count2. pose proof (up_mono m m' e). destruct (Z.eqb_spec m 0), (Z.eqb_spec m' 0); try lia. pose proof (up_pos m' e). lia.
Qed.

Lemma metas1_length b m : Z.of_nat (length (metas1 b m)) = if m =? 0 then 0 else 1.
Proof. unfold metas1. by destruct (m =? 0). Qed.

Lemma geometry_readonly fs fs' : geometry fs' = geometry fs -> m_readonly fs' = m_readonly fs.
Proof. unfold geometry. by intros [= _ _ _ _ _ _ _ _ _ _ _ _ ?]. Qed.

Lemma perm_levels (A B C D A' B' C' D' : list Z) :
  A ++ C ≡ₚ A' ++ C' -> B ++ D ≡ₚ B' ++ D' -> (A ++ B) ++ C ++ D ≡ₚ (A' ++ B') ++ D' ++ C'.
Proof.
  intros H1 H2. transitivity ((A ++ C) ++ (B ++ D)).
  { rewrite <- !app_assoc. apply Permutation_app_head. rewrite !app_assoc. apply Permutation_app_tail, Permutation_app_comm. }
  rewrite H1, H2, <- !app_assoc. apply Permutation_app_head. rewrite (Permutation_app_comm D' C'), !app_assoc.
  apply Permutation_app_tail, Permutation_app_comm.
Qed.

(** What is left of the new blocks, and the blocks that were freed, are apart from both levels. *)
Lemma perm_first (A A' B nm nm' tk fr : list Z) :
  nm = nm' ++ tk -> A' ++ fr ≡ₚ A ++ tk -> A' ++ B ++ nm' ++ fr ≡ₚ (A ++ B) ++ nm.
Proof.
  intros -> H1. transitivity ((A' ++ fr) ++ B ++ nm').
  { rewrite <- app_assoc. apply Permutation_app_head. rewrite (Permutation_app_comm fr), app_assoc. done. }
  rewrite H1, <- !app_assoc. apply Permutation_app_head. rewrite (Permutation_app_comm tk), !app_assoc. done.
Qed.

(** Both levels, one after the other. *)
Lemma flush_both_spec fs inode old_shape new_shape nm meta n (e := EXT2_ADDR_PER_BLOCK fs) (ib := pointers_of inode)
    (n' := Z.of_nat (length (m_block_list inode))) :
  alloc_ok fs -> m_readonly fs = false -> length ib = Z.to_nat EXT2_N_BLOCKS ->
  0 <= n <= doubly_limit e -> n' <= doubly_limit e -> Forall is_u32 (m_block_list inode) ->
  indirect_blocks old_shape = n1 e n -> indirect_blocks new_shape = n1 e n' ->
  doubly_indirect_blocks old_shape = n2 e n -> doubly_indirect_blocks new_shape = n2 e n' ->
  Forall (fun p => own fs p /\ used fs p = true) (metas (base fs) e ib n) -> Forall (own fs) nm -> NoDup (metas (base fs) e ib n ++ nm) ->
  n_meta e n' - n_meta e n <= Z.of_nat (length nm) -> meta = n_meta e n -> meta + Z.of_nat (length nm) + 1 < 2 ^ 32 ->
  mapped_ind (base fs) e ib (m_block_list inode) (Z.min n n') ->
  exists fs2 inode2 nm2 meta2 fs3 inode3 nm3 meta3 taken freed,
    flush_indirect fs inode old_shape new_shape (Z.min EXT2_NDIR_BLOCKS n') nm meta = Ret (KSuccess, fs2, inode2, nm2, meta2) /\
    flush_deeper grow_doubly_indirect_block shrink_doubly_indirect_block fs2 inode2 EXT2_DIND_BLOCK (doubly_indirect_blocks old_shape)
      (doubly_indirect_blocks new_shape) (Z.min EXT2_NDIR_BLOCKS n' + indirect_blocks new_shape) nm2 meta2 =
      Ret (KSuccess, fs3, inode3, nm3, meta3) /\
    nm = nm3 ++ taken /\ metas (base fs3) e (pointers_of inode3) n' ++ freed ≡ₚ metas (base fs) e ib n ++ taken /\
    meta3 = meta + Z.of_nat (length taken) - Z.of_nat (length freed) /\
    step fs fs3 (metas (base fs3) e (pointers_of inode3) n') freed false /\ (n <= n' -> freed = []) /\ same_inode inode inode3 /\
    length (pointers_of inode3) = length ib /\ (forall i, (i < Z.to_nat EXT2_NDIR_BLOCKS)%nat -> pointers_of inode3 !! i = ib !! i) /\
    mapped_ind (base fs3) e (pointers_of inode3) (m_block_list inode) n'.
Proof.
  intros Hok Hr Hlen Hn Hn' Hu E1 E1' E2 E2' HM Hnm Hnd Hneed Hmeta Hmb [Hmap1 Hmap2].
  pose proof (alloc_geometry _ Hok) as Hg. destruct (addr_per_block _ Hg) as [_ He]. fold e in He.
  destruct (n_levels_bounds e n ltac:(lia) Hn) as [Hb1 Hb2]. destruct (n_levels_bounds e n' ltac:(lia) ltac:(lia)) as [Hb1' Hb2'].
  assert (n' < 2 ^ 32) as H32 by (unfold doubly_limit, EXT2_NDIR_BLOCKS in Hn'; nia).
  pose proof (n_meta_counts e n ltac:(lia)) as Hc. pose proof (n_meta_counts e n' ltac:(lia)) as Hc'.
  assert (0 <= count2 e (n2 e n)) as Hc0 by (apply (count2_mono e 0); lia).
  assert (0 <= meta) as Hm0 by (rewrite Hmeta, Hc; destruct (_ =? _); lia).
  unfold metas in HM, Hnd. apply Forall_app in HM as [HM1 HM2]. set (M1 := metas1 (ind_of ib) (n1 e n)) in *.
  set (M2 := metas2 (base fs) e (dind_of ib) (n2 e n)) in *.
  destruct (flush_indirect_spec fs inode old_shape new_shape (Z.min EXT2_NDIR_BLOCKS n') nm meta)
    as (fs2 & inode2 & nm2 & meta2 & b1 & Heq1 & Hb1i & (tk1 & fr1 & Hnm1 & Hp1 & Hm1 & Hs1 & Hg1 & Hsame1 & Hl1 & Hoth1) & Hmap1');
    rewrite ?E1, ?E1'; fold e; try done.
  { unfold EXT2_NDIR_BLOCKS. lia. }
  { unfold n1, EXT2_NDIR_BLOCKS. lia. }
  { intros H0 H0' ->. rewrite Hc, Hc', (proj2 (Z.eqb_eq _ _) H0), (proj2 (Z.eqb_neq (n1 e n') 0)) in Hneed by lia. cbn in Hneed.
    assert (n2 e n = 0) as E by (unfold n1, n2 in *; lia). rewrite E in Hneed. pose proof (count2_mono e 0 (n2 e n')). unfold count2 in *. cbn in *. lia. }
  { intros k x Hk Hk' Hx. apply Hmap1; [unfold n1 in *; lia|]. rewrite <- Hx. f_equal. f_equal. unfold n1, EXT2_NDIR_BLOCKS in *. lia. }
  { lia. }
  { intros. rewrite Hmeta, Hc. rewrite (proj2 (Z.eqb_neq (n1 e n) 0)) by lia. lia. }
  rewrite E1, E1' in *. change (pointers_of inode !!! Z.to_nat EXT2_IND_BLOCK) with (ind_of ib) in *. fold M1 in Hp1. set (M1' := metas1 b1 (n1 e n')) in *.
  assert (Z.of_nat (length M1') + Z.of_nat (length fr1) = Z.of_nat (length M1) + Z.of_nat (length tk1)) as Hlen1.
  { apply Permutation_length in Hp1. rewrite !length_app in Hp1. lia. }
  unfold M1, M1' in Hlen1. rewrite !metas1_length in Hlen1. fold M1 M1' in Hlen1.
  assert (m_block_list inode2 = m_block_list inode) as El2 by by rewrite Hsame1.
  pose proof (addr_geometry _ _ (step_geometry _ _ _ _ _ Hs1)) as Ee. fold e in Ee.
  assert (dind_of (pointers_of inode2) = dind_of ib) as Ed.
  { unfold dind_of. rewrite !list_lookup_total_alt, Hoth1 by (vm_compute; lia). done. }
  pose proof (NoDup_perm_incl _ _ (symmetry (perm_first _ _ M2 _ _ _ _ Hnm1 Hp1)) Hnd) as Hnd2.
  apply NoDup_app in Hnd2 as (Hnd3 & Hdis1 & Hnd2). apply NoDup_app in Hnd2 as (HndM2 & Hdis2 & Hnd2). apply NoDup_app in Hnd2 as (Hndn & Hdis3 & _).
  assert (Forall (store_valid (base fs)) M2) as HvM2 by (eapply Forall_impl; [exact HM2|]; intros p [? _]; by apply own_valid).
  assert (forall p, p ∈ M2 -> p ∉ M1') as HM21 by (intros p Hp Hp'; apply (Hdis1 p Hp'), elem_of_app; by left).
  pose proof (metas2_kept _ _ _ _ _ _ _ _ Hs1 HvM2 HM21) as EM2.
  destruct (flush_doubly_spec fs2 inode2 (n2 e n) (n2 e n') (Z.min EXT2_NDIR_BLOCKS n' + n1 e n') nm2 meta2)
    as (fs3 & inode3 & nm3 & meta3 & b2 & Heq2 & Hb2i & (tk2 & fr2 & Hnm2 & Hp2 & Hm2 & Hs2 & Hg2 & Hsame2 & Hl2 & Hoth2) & Hmap2');
    rewrite ?Ee, ?El2; change (pointers_of inode2 !!! Z.to_nat EXT2_DIND_BLOCK) with (dind_of (pointers_of inode2)); rewrite ?Ed, ?EM2; fold M2; try done.
  { apply Hs1. }
  { by rewrite (geometry_readonly _ _ (step_geometry _ _ _ _ _ Hs1)). }
  { by rewrite Hl1. }
  { unfold EXT2_NDIR_BLOCKS. lia. }
  { fold n'. unfold n1, n2, EXT2_NDIR_BLOCKS. lia. }
  { rewrite Forall_forall in HM2 |- *. intros p Hp. destruct (HM2 p Hp) as [Ho Hus]. split; [by apply (step_own _ _ _ _ _ _ Hs1)|].
    apply (step_still_used _ _ _ _ _ Hs1); try done. intros Hf. apply (Hdis2 p Hp), elem_of_app. by right. }
  { rewrite Hnm1 in Hnm. apply Forall_app in Hnm as [Hnm _]. eapply Forall_impl; [exact Hnm|]. intros p. apply (step_own _ _ _ _ _ _ Hs1). }
  { apply NoDup_app. split; [done|]. split; [|done]. intros p Hp Hp'. apply (Hdis2 p Hp), elem_of_app. by left. }
  { rewrite Hnm1, length_app in Hneed. destruct (Z.leb_spec (n1 e n) (n1 e n')) as [Hle|Hgt].
    - subst fr1. cbn [length] in Hlen1. rewrite Hc, Hc' in Hneed. lia.
    - assert (n2 e n' = 0) as -> by (unfold n1, n2 in *; lia). unfold count2 at 1. cbn. lia. }
  { intros k x Hk Hk' Hx. apply (pointed_kept _ _ _ _ _ e (dind_of ib) (n2 e n) k x Hs1); try done; [lia..|].
    apply Hmap2; [unfold n2 in *; lia|]. rewrite <- Hx. do 2 f_equal. unfold n1, n2, EXT2_NDIR_BLOCKS in *. lia. }
  { rewrite Hm1, Hmeta, Hc. destruct (n1 e n =? 0), (n1 e n' =? 0); lia. }
  { rewrite Hm1. rewrite Hnm1, length_app in Hmb. lia. }
  change (pointers_of inode2 !!! Z.to_nat EXT2_DIND_BLOCK) with (dind_of (pointers_of inode2)) in Hp2.
  rewrite Ee in Hp2, Hs2, Hmap2'. rewrite Ed, EM2 in Hp2. fold M2 in Hp2. set (M2' := metas2 (base fs3) e b2 (n2 e n')) in *.
  assert (ind_of (pointers_of inode3) = b1) as Ei3.
  { apply list_lookup_total_correct. rewrite Hoth2 by (vm_compute; lia). done. }
  assert (dind_of (pointers_of inode3) = b2) as Ed3 by by apply list_lookup_total_correct.
  assert (metas (base fs3) e (pointers_of inode3) n' = M1' ++ M2') as EM by (unfold metas; by rewrite Ei3, Ed3).
  rewrite E2, E2'. exists fs2, inode2, nm2, meta2, fs3, inode3, nm3, meta3, (tk2 ++ tk1), (fr1 ++ fr2). rewrite EM.
  split; [done|]. split; [done|]. split; [by rewrite Hnm1, Hnm2, app_assoc|]. split; [by apply perm_levels|].
  split; [rewrite Hm2, Hm1, !length_app; lia|]. split; [by apply (step_app _ fs2)|]. split.
  { intros Hle. destruct (n_levels_mono e n n' ltac:(lia) Hle). rewrite (proj2 (Z.leb_le (n1 e n) _)) in Hg1 by done. rewrite (proj2 (Z.leb_le (n2 e n) _)) in Hg2 by done.
    by rewrite Hg1, Hg2. }
  split; [by eapply same_inode_trans|]. split; [by rewrite Hl2, Hl1|]. split.
  { intros i Hi. rewrite Hoth2, Hoth1; [done|..]; intros ->; vm_compute in Hi; lia. }
  split; rewrite ?Ei3, ?Ed3.
  - intros k x Hk Hx. assert (M1' = [b1]) as EM1' by (unfold M1', metas1; by rewrite (proj2 (Z.eqb_neq _ 0)) by lia).
    assert (b1 ∉ M2') as Hnb.
    { intros Hb. assert (b1 ∈ M2 ++ tk2) as Hb' by (rewrite <- Hp2; apply elem_of_app; by left).
      apply (Hdis1 b1); [rewrite EM1'; by apply list_elem_of_singleton|]. rewrite !elem_of_app. apply elem_of_app in Hb' as [|]; [by left|].
      right. left. rewrite Hnm2. apply elem_of_app. by right. }
    rewrite (step_ptr _ _ _ _ _ _ _ Hs2); [|apply own_valid; [apply Hs1|]|done].
    + apply Hmap1'; [done|]. rewrite <- Hx. do 2 f_equal. unfold n1, EXT2_NDIR_BLOCKS in *. lia.
    + apply (step_own _ _ _ _ _ _ Hs1). assert (b1 ∈ M1 ++ tk1) as [Hb|Hb]%elem_of_app.
      { rewrite <- Hp1, EM1'. left. }
      * rewrite Forall_forall in HM1. by apply HM1.
      * rewrite Hnm1, Forall_app in Hnm. destruct Hnm as [_ Hnm]. rewrite Forall_forall in Hnm. by apply Hnm.
  - intros k x Hk Hx. apply Hmap2'; [done|]. rewrite El2, <- Hx. do 2 f_equal. unfold n1, n2, EXT2_NDIR_BLOCKS in *. lia.
Qed.

Lemma flush_direct_blocks_spec n i ib l dirty :
  0 <= i -> i + Z.of_nat n <= Z.of_nat (length l) -> i + Z.of_nat n <= Z.of_nat (length ib) -> Forall is_u32 l ->
  exists ib' dirty', flush_direct_blocks n i ib l dirty = Ret (ib', dirty') /\ length ib' = length ib /\
    forall j, ib' !! j = if decide (Z.to_nat i <= j < Z.to_nat i + n)%nat then l !! j else ib !! j.
Proof.
  revert i ib dirty. induction n as [|n IH]; intros i ib dirty Hi Hl Hib Hu; cbn [flush_direct_blocks].
  { exists ib, dirty. split_and!; try done. intros j. rewrite decide_False by lia. done. }
  destruct (lookup_lt_is_Some_2 ib (Z.to_nat i)) as [x Hx]; [lia|]. destruct (lookup_lt_is_Some_2 l (Z.to_nat i)) as [y Hy]; [lia|].
  unfold load. rewrite (proj2 (Z.leb_le 0 i)), Hx, Hy by lia. run. unfold store. rewrite (proj2 (andb_true_iff _ _)) by (split; lia). run.
  rewrite Forall_lookup in Hu. pose proof (Hu _ _ Hy) as Hyu. unfold is_u32 in Hyu. rewrite (wrap_id u32 eq_refl y) by (rewrite in_type_u32; lia).
  rewrite <- Forall_lookup in Hu.
  destruct (IH (i + 1) (<[Z.to_nat i:=y]> ib) (dirty || negb (x =? y))) as (ib' & d' & -> & Hlen & Hib'); try done; rewrite ?length_insert in *; try lia.
  exists ib', d'. split_and!; try done. intros j. rewrite Hib'. destruct (decide (j = Z.to_nat i)) as [->|Hne].
  - rewrite decide_False, decide_True, list_lookup_insert_eq by lia. done.
  - rewrite list_lookup_insert_ne by lia. repeat case_decide; try lia; done.
Qed.

(** The pointers of an inode lead to the list [l]. *)
Definition mapped (s : S) (e : Z) (ib l : list Z) : Prop :=
  (forall k x, 0 <= k < EXT2_NDIR_BLOCKS -> l !! Z.to_nat k = Some x -> ib !! Z.to_nat k = Some x) /\
  mapped_ind s e ib l (Z.of_nat (length l)).

(** The inode but for its pointers, the number of its blocks and the flag. *)
Definition same_file inode inode' : Prop :=
  inode' = inode <| m_raw_inode := m_raw_inode inode <| i_block := i_block (m_raw_inode inode') |> <| i_blocks := i_blocks (m_raw_inode inode') |> |>
                 <| m_metadata_dirty := m_metadata_dirty inode' |>.

Lemma group_index_from_inode_spec fs i :
  geometry_ok fs -> 1 <= i <= s_inodes_count (m_super_block fs) -> 1 <= group_index_from_inode fs i <= m_block_group_count fs.
Proof.
  intros Hg Hi. pose proof (geo_inodes _ Hg). pose proof (geo_total_inodes _ Hg). pose proof (geo_bound _ Hg). unfold group_index_from_inode.
  rewrite (proj2 (Z.eqb_neq i 0)) by lia. assert (0 <= (i - 1) / inodes_per_group fs) by (apply Z.div_pos; lia).
  assert ((i - 1) / inodes_per_group fs < m_block_group_count fs) by (apply Z.div_lt_upper_bound; nia).
  rewrite (wrap_id u32 eq_refl) by (rewrite in_type_u32; nia). lia.
Qed.

(** The lists agree where both have entries. *)
Definition agree (l l' : list Z) : Prop := forall i, (i < length l)%nat -> (i < length l')%nat -> l !! i = l' !! i.

(** The new blocks of pointers. *)
Lemma allocate_metas fs i k :
  alloc_ok fs -> 1 <= i <= s_inodes_count (m_super_block fs) -> k <= s_free_blocks_count (m_super_block fs) ->
  exists fs' nm, (if 0 <? k then (allocate_blocks fs (group_index_from_inode fs i) k : outcome ((Z + list Z) * Ext2FS S)) else Ret (inr [], fs)) =
      Ret (inr nm, fs') /\
    Z.of_nat (length nm) = Z.max k 0 /\ NoDup nm /\ Forall (fun b => own fs b /\ used fs b = false) nm /\ step fs fs' [] nm true.
Proof.
  intros Hok Hi Hk. destruct (Z.ltb_spec 0 k).
  - destruct (allocate_blocks_spec fs (group_index_from_inode fs i) k) as (fs' & nm & -> & Hl & Hnd & Hn & Hs); try done; try lia.
    { apply group_index_from_inode_spec; [apply Hok|done]. }
    exists fs', nm. split_and!; try done; [lia| |by apply blocks_set_step]. apply Forall_forall. intros b Hb. destruct (Hn b Hb) as [Hp Hu].
    split; [|done]. split; [done|]. intros Hres. rewrite (alloc_reserved _ Hok b Hres) in Hu. done.
  - exists fs, []. split_and!; try done; [cbn; lia|apply NoDup_nil_2|by apply step_refl].
Qed.

Lemma n_meta_bounds e n : 256 <= e <= 1024 -> 0 <= n <= doubly_limit e -> 0 <= n_meta e n <= e + 2.
Proof.
  intros He Hn. rewrite n_meta_counts by lia. destruct (n_levels_bounds e n ltac:(lia) Hn) as [? ?]. unfold count2.
  pose proof (up_spec (n2 e n) e). assert (up (n2 e n) e <= e) by (apply up_le; lia). destruct (n1 e n =? 0), (n2 e n =? 0); nia.
Qed.

Lemma n_meta_mono e n n' : 0 < e -> 0 <= n <= n' -> n_meta e n <= n_meta e n'.
Proof.
  intros He Hn. rewrite !n_meta_counts by lia. destruct (n_levels_mono e n n') as [H1 H2]; [lia..|].
  assert (0 <= n2 e n) by (unfold n2; lia). assert (0 <= n1 e n) by (unfold n1; lia). pose proof (count2_mono e (n2 e n) (n2 e n')).
  destruct (Z.eqb_spec (n1 e n) 0), (Z.eqb_spec (n1 e n') 0); lia.
Qed.

(** What is known of the pointers still holds when new blocks have been allocated and the direct
    pointers have been written. *)
Lemma pointers_kept fs fs1 nm (e : Z) ib ib1 l l' n :
  alloc_ok fs -> step fs fs1 [] nm true -> ind_of ib1 = ind_of ib -> dind_of ib1 = dind_of ib -> 0 < e ->
  Forall (fun p => own fs p /\ used fs p = true) (metas (base fs) e ib n) -> Forall (fun b => own fs b /\ used fs b = false) nm ->
  NoDup nm -> NoDup (metas (base fs) e ib n) -> n = Z.of_nat (length l) -> mapped (base fs) e ib l -> agree l l' ->
  metas (base fs1) e ib1 n = metas (base fs) e ib n /\
  Forall (fun p => own fs1 p /\ used fs1 p = true) (metas (base fs1) e ib1 n) /\ Forall (own fs1) nm /\
  NoDup (metas (base fs1) e ib1 n ++ nm) /\ mapped_ind (base fs1) e ib1 l' (Z.min n (Z.of_nat (length l'))).
Proof.
  intros Hok Hs Hi Hd He HM Hnm Hnd1 Hnd2 Hn [_ [Hmap1 Hmap2]] Hag. unfold metas in *. rewrite Hi, Hd. rewrite <- Hn in Hmap1, Hmap2.
  apply Forall_app in HM as [HM1 HM2]. set (M2 := metas2 (base fs) e (dind_of ib) (n2 e n)) in *.
  assert (Forall (store_valid (base fs)) M2) as HvM2 by (eapply Forall_impl; [exact HM2|]; intros p [? _]; by apply own_valid).
  rewrite (metas2_kept _ _ _ _ _ e (dind_of ib) (n2 e n) Hs HvM2) by (intros; apply not_elem_of_nil). fold M2.
  assert (forall p, own fs p /\ used fs p = true -> own fs1 p /\ used fs1 p = true) as Hkeep.
  { intros p [Ho Hu]. split; [by apply (step_own _ _ _ _ _ _ Hs)|]. rewrite (step_used _ _ _ _ _ Hs) by by eapply own_pos. by case_bool_decide. }
  split; [done|]. split; [apply Forall_app; split; [exact (Forall_impl _ _ _ HM1 Hkeep)|exact (Forall_impl _ _ _ HM2 Hkeep)]|]. split.
  { eapply Forall_impl; [exact Hnm|]. intros p [Ho _]. by apply (step_own _ _ _ _ _ _ Hs). }
  split.
  { apply NoDup_app. split_and!; try done. intros p Hp Hp'. rewrite Forall_forall in Hnm. destruct (Hnm p Hp') as [_ Huf].
    assert (Forall (fun p => own fs p /\ used fs p = true) (metas1 (ind_of ib) (n1 e n) ++ M2)) as Hall by by apply Forall_app.
    rewrite Forall_forall in Hall. destruct (Hall p Hp) as [_ Hut]. congruence. }
  assert (forall j x, (j < length l)%nat -> l' !! j = Some x -> l !! j = Some x) as Hll.
  { intros j x Hj Hx. rewrite (Hag j); [done|done|by eapply lookup_lt_Some]. }
  split; rewrite ?Hi, ?Hd.
  - intros k x Hk Hx. assert (k < n1 e n /\ EXT2_NDIR_BLOCKS + k < n) as [Hk1 Hk2] by (unfold n1, EXT2_NDIR_BLOCKS in *; lia).
    rewrite (step_ptr _ _ _ _ _ _ _ Hs).
    + apply Hmap1; [lia|]. apply Hll; [unfold EXT2_NDIR_BLOCKS in *; lia|done].
    + apply own_valid; [done|]. unfold metas1 in HM1. rewrite (proj2 (Z.eqb_neq (n1 e n) 0)), Forall_singleton in HM1 by lia. apply HM1.
    + apply not_elem_of_nil.
  - intros k x Hk Hx. assert (k < n2 e n /\ EXT2_NDIR_BLOCKS + e + k < n) as [Hk1 Hk2] by (unfold n2, EXT2_NDIR_BLOCKS in *; lia).
    eapply (pointed_kept _ _ _ _ _ e (dind_of ib) (n2 e n)); try done; [intros; apply not_elem_of_nil|lia|].
    apply Hmap2; [lia|]. apply Hll; [unfold EXT2_NDIR_BLOCKS in *; lia|done].
Qed.

(** All the pointers, when there are enough new blocks. *)
Lemma flush_levels_spec fs inode nm n (e := EXT2_ADDR_PER_BLOCK fs) (ib := pointers_of inode)
    (n' := Z.of_nat (length (m_block_list inode))) (shape := fun n => MkShape (Z.min EXT2_NDIR_BLOCKS n) (n1 e n) (n2 e n) 0 (n_meta e n)) :
  alloc_ok fs -> m_readonly fs = false -> length ib = Z.to_nat EXT2_N_BLOCKS ->
  0 <= n <= doubly_limit e -> 0 < n' <= doubly_limit e -> Forall is_u32 (m_block_list inode) ->
  Forall (fun p => own fs p /\ used fs p = true) (metas (base fs) e ib n) -> Forall (own fs) nm -> NoDup (metas (base fs) e ib n ++ nm) ->
  Z.of_nat (length nm) = Z.max (n_meta e n' - n_meta e n) 0 ->
  mapped_ind (base fs) e ib (m_block_list inode) (Z.min n n') ->
  exists fs' inode' freed, flush_levels fs inode (shape n) (shape n') nm = Ret (KSuccess, fs', inode') /\ same_inode inode inode' /\
    length (pointers_of inode') = Z.to_nat EXT2_N_BLOCKS /\ mapped (base fs') e (pointers_of inode') (m_block_list inode) /\
    metas (base fs') e (pointers_of inode') n' ++ freed ≡ₚ metas (base fs) e ib n ++ nm /\
    step fs fs' (metas (base fs') e (pointers_of inode') n') freed false /\ (n <= n' -> freed = []).
Proof.
  intros Hok Hr Hlen Hn Hn' Hu HM Hnm Hnd Hcount Hmap. pose proof (alloc_geometry _ Hok) as Hg. destruct (addr_per_block _ Hg) as [_ He]. fold e in He.
  unfold flush_levels, shape. cbn [direct_blocks indirect_blocks doubly_indirect_blocks triply_indirect_blocks meta_blocks].
  rewrite (VERIFY_true (Z.min _ _ <=? _)) by lia. run.
  destruct (flush_direct_blocks_spec (Z.to_nat (Z.min EXT2_NDIR_BLOCKS n')) 0 (pointers_of inode) (m_block_list inode) false)
    as (ib1 & dirty & -> & Hib1l & Hib1); [lia|fold n'; unfold EXT2_NDIR_BLOCKS; lia| |done|].
  { fold ib. rewrite Hlen. change (Z.to_nat EXT2_N_BLOCKS) with 15%nat. unfold EXT2_NDIR_BLOCKS. lia. }
  run. set (inode1 := set_i_block inode ib1).
  assert (exists inode2, (if dirty then set_metadata_dirty fs inode1 true else Ret inode1) = Ret inode2 /\ same_inode inode inode2 /\
    pointers_of inode2 = ib1) as (inode2 & -> & Hsame2 & Hib2).
  { destruct dirty; [destruct (set_metadata_dirty_spec fs inode1 true Hr) as (inode2 & -> & ->)|]; eexists; (split; [done|]); (split; [|done]);
      unfold same_inode, inode1, set_i_block; by destruct inode as [? [] ? ? ?]. }
  run. assert (m_block_list inode2 = m_block_list inode) as El by by rewrite Hsame2. change (Z.to_nat 0) with 0%nat in Hib1.
  assert (ind_of ib1 = ind_of ib /\ dind_of ib1 = dind_of ib) as [Ei Ed].
  { unfold ind_of, dind_of. change (Z.to_nat EXT2_IND_BLOCK) with 12%nat. change (Z.to_nat EXT2_DIND_BLOCK) with 13%nat.
    rewrite !list_lookup_total_alt, !Hib1, !decide_False; [done|..]; unfold EXT2_NDIR_BLOCKS; lia. }
  assert (metas (base fs) e ib1 n = metas (base fs) e ib n) as EM by (unfold metas; by rewrite Ei, Ed).
  pose proof (n_meta_bounds e n He ltac:(lia)) as Hnb. pose proof (n_meta_bounds e n' He ltac:(lia)) as Hnb'.
  destruct (flush_both_spec fs inode2 (shape n) (shape n') nm (n_meta e n) n)
    as (fs2 & inode3 & nm2 & meta2 & fs3 & inode4 & nm3 & meta3 & taken & freed & Heq1 & Heq2 & Hnm3 & Hperm & Hm3 & Hs & Hfr & Hsame4 & Hl4 & Hdir & Hmap4);
    rewrite ?Hib2, ?El; fold n' e; rewrite ?EM; try done; try lia.
  { by rewrite Hib1l. }
  { destruct Hmap as [H1 H2]. split; [by rewrite Ei|by rewrite Ed]. }
  assert (m_block_list inode4 = m_block_list inode) as El4 by (rewrite <- El; by rewrite Hsame4).
  rewrite Hib2, El in *. fold n' e in Hperm, Hs, Hfr, Hmap4. rewrite EM in Hperm. unfold shape in Heq1, Heq2.
  cbn [indirect_blocks doubly_indirect_blocks] in Heq1, Heq2. fold n' in Heq1, Heq2.
  rewrite Heq1. run. change (KSuccess <? 0) with false. cbn iota. rewrite Heq2. run. change (KSuccess <? 0) with false. cbn iota.
  unfold flush_deeper at 1. change (0 =? 0) with true. cbn iota. run. change (KSuccess <? 0) with false. cbn iota.
  assert (nm3 = [] /\ taken = nm) as [-> ->].
  { pose proof (Permutation_length Hperm) as Hpl. rewrite !length_app in Hpl. pose proof (metas_length (base fs) e ib n ltac:(lia)) as Hml.
    pose proof (metas_length (base fs3) e (pointers_of inode4) n' ltac:(lia)) as Hml'.
    assert (length nm3 = 0)%nat as Hz; [|apply nil_length_inv in Hz; by subst].
    rewrite Hnm3, length_app in Hcount. destruct (Z.le_gt_cases n n') as [Hle|Hgt].
    - rewrite (Hfr Hle) in Hpl. cbn [length] in Hpl. pose proof (n_meta_mono e n n' ltac:(lia) ltac:(lia)). lia.
    - pose proof (n_meta_mono e n' n ltac:(lia) ltac:(lia)). lia. }
  change (Z.of_nat (length (@nil Z)) =? 0) with true. cbn [VERIFY]. run.
  assert (meta3 = n_meta e n') as ->.
  { pose proof (Permutation_length Hperm) as Hpl. rewrite !length_app in Hpl. pose proof (metas_length (base fs) e ib n ltac:(lia)).
    pose proof (metas_length (base fs3) e (pointers_of inode4) n' ltac:(lia)). lia. }
  rewrite (VERIFY_true (_ =? n_meta e n')) by lia. run.
  rewrite El4. fold n'. rewrite (VERIFY_true (wrap _ _ =? 0)).
  2: { replace (n' - _ - _ - _ - 0) with 0 by (unfold n1, n2, EXT2_NDIR_BLOCKS; lia). done. }
  run. exists fs3, inode4, freed. split; [done|]. split; [by eapply same_inode_trans|]. split; [by rewrite Hl4, Hib1l|]. split; [|done].
  split; [|done]. intros k x Hk Hx. rewrite Hdir by (unfold EXT2_NDIR_BLOCKS in *; lia). rewrite Hib1, decide_True; [done|].
  apply lookup_lt_Some in Hx. unfold EXT2_NDIR_BLOCKS in *. lia.
Qed.

Lemma flush_block_list_spec fs inode l (e := EXT2_ADDR_PER_BLOCK fs) (ib := pointers_of inode) (n := Z.of_nat (length l))
    (n' := Z.of_nat (length (m_block_list inode))) :
  alloc_ok fs -> m_readonly fs = false -> length ib = Z.to_nat EXT2_N_BLOCKS -> 1 <= m_index inode <= s_inodes_count (m_super_block fs) ->
  n = ceil_div (inode_size_of fs inode) (block_size fs) -> n <= doubly_limit e -> 0 < n' <= doubly_limit e ->
  Forall is_u32 (m_block_list inode) -> mapped (base fs) e ib l -> agree l (m_block_list inode) ->
  Forall (fun p => own fs p /\ used fs p = true) (metas (base fs) e ib n) -> NoDup (metas (base fs) e ib n) ->
  n_meta e n' - n_meta e n <= s_free_blocks_count (m_super_block fs) ->
  exists fs' inode' taken freed, flush_block_list fs inode = Ret (KSuccess, fs', inode') /\ same_file inode inode' /\
    length (pointers_of inode') = Z.to_nat EXT2_N_BLOCKS /\ mapped (base fs') e (pointers_of inode') (m_block_list inode) /\
    metas (base fs') e (pointers_of inode') n' ++ freed ≡ₚ metas (base fs) e ib n ++ taken /\
    Forall (fun b => own fs b /\ used fs b = false) taken /\ NoDup taken /\
    (if n <=? n' then freed = [] /\ step fs fs' (metas (base fs') e (pointers_of inode') n') taken true
     else taken = [] /\ step fs fs' (metas (base fs') e (pointers_of inode') n') freed false).
Proof.
  intros Hok Hr Hlen Hidx Hn Hlim Hn' Hu [Hmapd Hmapi] Hagree HM HndM Hneed. pose proof (alloc_geometry _ Hok) as Hg.
  destruct (addr_per_block _ Hg) as [_ He]. fold e in He. unfold flush_block_list.
  assert (doubly_limit e < 2 ^ 31) as Hdl by (unfold doubly_limit, EXT2_NDIR_BLOCKS; nia).
  rewrite <- Hn, (wrap_id u32 eq_refl n) by (rewrite in_type_u32; lia).
  rewrite !compute_block_list_shape_spec by (try done; fold e; lia). fold n' e. run. cbn [meta_blocks direct_blocks].
  rewrite (proj2 (Z.eqb_neq _ 0)) by lia.
  pose proof (n_meta_bounds e n He ltac:(lia)) as Hnb. pose proof (n_meta_bounds e n' He ltac:(lia)) as Hnb'.
  destruct (allocate_metas fs (m_index inode) (n_meta e n' - n_meta e n)) as (fs1 & nm & Halloc & Hnml & Hnmnd & Hnmown & Hs1); try done.
  assert ((n_meta e n <? n_meta e n') = (0 <? n_meta e n' - n_meta e n)) as ->
    by (destruct (Z.ltb_spec (n_meta e n) (n_meta e n')), (Z.ltb_spec 0 (n_meta e n' - n_meta e n)); lia).
  rewrite Halloc. run. set (inode1 := inode <| m_raw_inode := _ |>).
  pose proof (addr_geometry _ _ (step_geometry _ _ _ _ _ Hs1)) as Ee. fold e in Ee.
  destruct (pointers_kept fs fs1 nm e ib ib l (m_block_list inode) n) as (EM & HM1 & Hnm1 & Hnd1 & Hmap1); try done; [lia|].
  destruct (flush_levels_spec fs1 inode1 nm n) as (fs2 & inode2 & freed & Heq & Hsame & Hl2 & Hmap2 & Hperm & Hs2 & Hfr); rewrite ?Ee; try done.
  { apply Hs1. }
  { by rewrite (geometry_readonly _ _ (step_geometry _ _ _ _ _ Hs1)). }
  { lia. }
  rewrite Ee in *. change (pointers_of inode1) with ib in *. change (m_block_list inode1) with (m_block_list inode) in *. fold n' in Heq, Hperm, Hs2, Hfr.
  rewrite Heq, EM in *. assert (same_file inode inode2) as Hfile.
  { unfold same_file, same_inode, inode1 in *. clear -Hsame. destruct inode as [? [] ? ? ?], inode2 as [? [] ? ? ?].
    unfold set_field in *. cbn in *. by simplify_eq. }
  exists fs2, inode2, nm, freed. split_and!; try done. destruct (Z.leb_spec n n') as [Hle|Hgt].
  - rewrite (Hfr Hle) in *. split; [done|]. apply (step_weaken _ _ ([] ++ metas (base fs2) e (pointers_of inode2) n') _ (nm ++ [])).
    + apply (step_app _ fs1); [done|]. by eapply step_nil.
    + done.
    + by rewrite app_nil_r.
  - pose proof (n_meta_mono e n' n ltac:(lia) ltac:(lia)). assert (nm = []) as -> by (apply nil_length_inv; lia). split; [done|].
    apply (step_app _ fs1 _ [] _ [] freed); [by eapply step_nil|done].
Qed.

(** ** Reading the list back *)

Lemma pointers_app_length n a b : length a = (4 * n)%nat -> pointers (a ++ b) = pointers a ++ pointers b.
Proof.
  revert a. induction n as [|n IH]; intros a Ha.
  - destruct a; [done|]. cbn in Ha. lia.
  - destruct a as [|b0 [|b1 [|b2 [|b3 a]]]]; cbn in Ha; try lia. cbn. f_equal. apply IH. lia.
Qed.

Lemma pointers_take n d : (4 * n <= length d)%nat -> pointers (take (4 * n) d) = take n (pointers d).
Proof.
  intros Hd. assert (length (take (4 * n) d) = (4 * n)%nat) as Hl by (rewrite length_take; lia).
  rewrite <- (take_drop (4 * n) d) at 2. rewrite (pointers_app_length n) by done. rewrite take_app_le by (rewrite (pointers_length n); done).
  symmetry. apply take_ge. by rewrite (pointers_length n).
Qed.

Lemma for_each_add fs xs l r :
  Z.of_nat (length xs) <= r -> for_each_block (process_block_array 0 false) xs (fs, l, r) = Ret (fs, l ++ xs, r - Z.of_nat (length xs)).
Proof.
  revert l r. induction xs as [|x xs IH]; intros l r Hr; cbn [for_each_block].
  { by rewrite app_nil_r, Z.sub_0_r. }
  cbn [length] in *. cbn [process_block_array]. run. unfold add_block. rewrite (proj2 (Z.eqb_neq r 0)) by lia. cbn [negb].
  rewrite IH by lia. rewrite <- app_assoc. do 2 f_equal. lia.
Qed.

(** The first [count] entries of a block of pointers. *)
Definition entries (s : S) (b count : Z) : list Z := ptr s b <$> seqZ 0 count.

Lemma entries_length s b count : 0 <= count -> Z.of_nat (length (entries s b count)) = count.
Proof. intros. unfold entries. rewrite length_fmap, length_seqZ. lia. Qed.

Lemma entries_lookup s b count k : 0 <= k < count -> entries s b count !! Z.to_nat k = Some (ptr s b k).
Proof. intros Hk. unfold entries. rewrite list_lookup_fmap, lookup_seqZ_lt by lia. cbn. do 2 f_equal. lia. Qed.

(** What a block of pointers gives to the loop. *)
Lemma read_entries fs b count :
  alloc_ok fs -> store_valid (base fs) b -> 0 <= count <= EXT2_ADDR_PER_BLOCK fs ->
  exists fs' bytes, fs_read_block fs b (for_kernel_buffer []) (count * 4) 0 true = Ret (KSuccess, bytes, fs') /\
    (forall v, step fs fs' [] [] v) /\ fs' = fs <| base := base fs' |> /\
    forall rest, take (Z.to_nat count) (pointers (bytes ++ rest)) = entries (base fs) b count.
Proof.
  intros Hok Hv Hc. destruct (addr_per_block _ (alloc_geometry _ Hok)) as [Hbs He].
  destruct (contents_ok (base fs) b) as [Hcl Hcb]; [apply Hok|done|]. change (store_block_size (base fs)) with (block_size fs) in Hcl.
  destruct (fs_read_block_spec fs b (for_kernel_buffer []) (count * 4) 0) as (fs' & Heq & Hs & Hr); try done; try lia.
  rewrite read_kernel in Heq. eexists fs', _. split; [done|]. split; [done|]. split; [done|]. intros rest. unfold slice. change (Z.to_nat 0) with 0%nat. rewrite drop_0.
  replace (Z.to_nat (count * 4)) with (4 * Z.to_nat count)%nat by lia.
  rewrite (pointers_app_length (Z.to_nat count)) by (rewrite length_take; lia). rewrite pointers_take by lia.
  assert (length (pointers (contents (base fs) b)) = Z.to_nat (EXT2_ADDR_PER_BLOCK fs)) as Hpl by (apply pointers_length; lia).
  rewrite take_app_le by (rewrite length_take; lia). rewrite take_take, Nat.min_id. apply list_eq. intros i.
  destruct (decide (i < Z.to_nat count)%nat).
  - rewrite lookup_take_lt by done. pose proof (entries_lookup (base fs) b count (Z.of_nat i) ltac:(lia)) as Hi. rewrite Nat2Z.id in Hi. rewrite Hi.
    unfold ptr. rewrite Nat2Z.id. apply list_lookup_lookup_total_lt. lia.
  - pose proof (entries_length (base fs) b count ltac:(lia)). rewrite !lookup_ge_None_2; [done|..]; rewrite ?length_take; lia.
Qed.

Lemma process_indirect fs b l r :
  alloc_ok fs -> 0 <= r -> (0 < r -> store_valid (base fs) b) ->
  exists fs', process_block_array 1 false b (fs, l, r) =
      Ret (fs', l ++ entries (base fs) b (Z.min r (EXT2_ADDR_PER_BLOCK fs)), r - Z.min r (EXT2_ADDR_PER_BLOCK fs)) /\
    (forall v, step fs fs' [] [] v) /\ fs' = fs <| base := base fs' |>.
Proof.
  intros Hok Hr Hv. destruct (addr_per_block _ (alloc_geometry _ Hok)) as [Hbs He]. unfold process_block_array; fold (process_block_array (S := S)).
  destruct (Z.eqb_spec (Z.min r (EXT2_ADDR_PER_BLOCK fs)) 0) as [H0|H0].
  { exists fs. rewrite H0. unfold entries. cbn [seqZ fmap list_fmap Z.to_nat]. rewrite app_nil_r, Z.sub_0_r. split; [done|].
    split; [intros v; by apply step_refl|by destruct fs]. }
  destruct (read_entries fs b (Z.min r (EXT2_ADDR_PER_BLOCK fs))) as (fs' & bytes & -> & Hs & Hrr & Hent); [done|apply Hv; lia|lia|]. run. rewrite Hent.
  change (fun array_block_index st => Ret (add_block array_block_index st)) with (process_block_array (S := S) 0 false).
  rewrite for_each_add by (rewrite entries_length; lia). rewrite entries_length by lia. by exists fs'.
Qed.

Lemma step_entries fs fs' b count : (forall v, step fs fs' [] [] v) -> store_valid (base fs) b -> entries (base fs') b count = entries (base fs) b count.
Proof.
  intros Hs Hv. unfold entries. apply list_fmap_ext. intros i x _. apply (step_ptr _ _ _ _ _ _ _ (Hs true)); [done|apply not_elem_of_nil].
Qed.

Lemma step_ptr_read fs fs' b i : (forall v, step fs fs' [] [] v) -> store_valid (base fs) b -> ptr (base fs') b i = ptr (base fs) b i.
Proof. intros Hs Hv. apply (step_ptr _ _ _ _ _ _ _ (Hs true)); [done|apply not_elem_of_nil]. Qed.

Lemma for_each_indirect xs fs l r (e := EXT2_ADDR_PER_BLOCK fs) :
  alloc_ok fs -> 0 <= r <= Z.of_nat (length xs) * e ->
  (forall j, 0 <= j -> j * e < r -> exists p, xs !! Z.to_nat j = Some p /\ store_valid (base fs) p) ->
  exists fs' L, for_each_block (process_block_array 1 false) xs (fs, l, r) = Ret (fs', l ++ L, 0) /\ Z.of_nat (length L) = r /\
    (forall k, 0 <= k < r -> L !! Z.to_nat k = Some (ptr (base fs) (xs !!! Z.to_nat (k / e)) (k mod e))) /\
    (forall v, step fs fs' [] [] v) /\ fs' = fs <| base := base fs' |>.
Proof.
  revert fs l r e. induction xs as [|p xs IH]; intros fs l r e Hok Hr Hv; destruct (addr_per_block _ (alloc_geometry _ Hok)) as [Hbs He]; fold e in He.
  { exists fs, []. cbn [length] in Hr. assert (r = 0) as -> by lia. rewrite app_nil_r. split_and!; try done; [lia| |by destruct fs]. intros v. by apply step_refl. }
  change (for_each_block (process_block_array 1 false) (p :: xs) (fs, l, r))
    with (process_block_array 1 false p (fs, l, r) ≫= for_each_block (process_block_array 1 false) xs).
  destruct (process_indirect fs p l r) as (fs1 & -> & Hs1 & Hr1); [done|lia|intros; by destruct (Hv 0 ltac:(lia) ltac:(lia)) as (q & [= ->] & ?)|].
  fold e. run. set (c := Z.min r e). pose proof (addr_geometry _ _ (step_geometry _ _ _ _ _ (Hs1 true))) as Ee. fold e in Ee.
  destruct (IH fs1 (l ++ entries (base fs) p c) (r - c)) as (fs2 & L & -> & HL & HLk & Hs2 & Hr2); rewrite ?Ee.
  { apply (Hs1 true). }
  { cbn [length] in Hr. subst c. nia. }
  { intros j Hj Hjr. destruct (Hv (j + 1)) as (q & Hq & Hqv); [lia|subst c; nia|]. exists q. split; [|by apply (step_valid _ _ _ _ _ (Hs1 true))].
    by replace (Z.to_nat (j + 1)) with (Datatypes.S (Z.to_nat j)) in Hq by lia. }
  pose proof (entries_length (base fs) p c ltac:(subst c; lia)) as Hel. rewrite Ee in HLk.
  exists fs2, (entries (base fs) p c ++ L). rewrite <- app_assoc. split; [done|]. split; [rewrite length_app; lia|]. split; [|split].
  - intros k Hk. destruct (decide (k < c)) as [Hlt|Hge].
    + rewrite lookup_app_l by lia. rewrite entries_lookup by lia. by rewrite (Z.div_small k e), (Z.mod_small k e) by (subst c; lia).
    + assert (c = e) as Hce by (subst c; lia). rewrite lookup_app_r by lia. replace (Z.to_nat k - length (entries (base fs) p c))%nat with (Z.to_nat (k - c)) by lia.
      rewrite HLk by lia. replace k with (k - c + 1 * e) at 3 4 by lia. rewrite Z.div_add, Z.mod_add by lia.
      assert (0 <= (k - c) / e) by (apply Z.div_pos; lia). replace (Z.to_nat ((k - c) / e + 1)) with (Datatypes.S (Z.to_nat ((k - c) / e))) by lia.
      change ((p :: xs) !!! Datatypes.S (Z.to_nat ((k - c) / e))) with (xs !!! Z.to_nat ((k - c) / e)). f_equal. apply (step_ptr_read fs fs1); [done|].
      destruct (Hv (k / e)) as (q & Hq & Hqv); [apply Z.div_pos; lia|pose proof (Z.mul_div_le k e); lia|].
      replace k with (k - c + 1 * e) in Hq at 1 by lia. rewrite Z.div_add in Hq by lia.
      replace (Z.to_nat ((k - c) / e + 1)) with (Datatypes.S (Z.to_nat ((k - c) / e))) in Hq by lia. cbn in Hq.
      by rewrite (list_lookup_total_correct _ _ _ Hq).
  - intros v. apply (step_app _ _ _ [] [] [] [] _ (Hs1 v) (Hs2 v)).
  - rewrite Hr2, Hr1. by destruct fs.
Qed.

Lemma process_doubly fs b l r (e := EXT2_ADDR_PER_BLOCK fs) :
  alloc_ok fs -> 0 < r <= e * e -> store_valid (base fs) b -> (forall j, 0 <= j -> j * e < r -> store_valid (base fs) (ptr (base fs) b j)) ->
  exists fs' L, process_block_array 2 false b (fs, l, r) = Ret (fs', l ++ L, 0) /\ Z.of_nat (length L) = r /\
    (forall k, 0 <= k < r -> L !! Z.to_nat k = Some (ptr (base fs) (ptr (base fs) b (k / e)) (k mod e))) /\
    (forall v, step fs fs' [] [] v) /\ fs' = fs <| base := base fs' |>.
Proof.
  intros Hok Hr Hv Hvp. destruct (addr_per_block _ (alloc_geometry _ Hok)) as [Hbs He]. fold e in He.
  change (process_block_array 2 false b (fs, l, r)) with
    (let count := Z.min r e in
     if count =? 0 then Ret (fs, l, r)
     else
       '(result, bytes, fs) ← fs_read_block fs b (for_kernel_buffer []) (count * 4) 0 true;
       for_each_block (process_block_array 1 false) (take (Z.to_nat count) (pointers (bytes ++ drop (length bytes) (uninitialized (count * 4)))))
         (fs, l, r)).
  cbv zeta. rewrite (proj2 (Z.eqb_neq (Z.min r e) 0)) by lia.
  destruct (read_entries fs b (Z.min r e)) as (fs1 & bytes & -> & Hs1 & Hr1 & Hent); [done|done|fold e; lia|]. run. rewrite Hent.
  pose proof (addr_geometry _ _ (step_geometry _ _ _ _ _ (Hs1 true))) as Ee. fold e in Ee.
  pose proof (entries_length (base fs) b (Z.min r e) ltac:(lia)) as Hel.
  assert (forall j, 0 <= j -> j * e < r -> entries (base fs) b (Z.min r e) !! Z.to_nat j = Some (ptr (base fs) b j)) as Hentj.
  { intros j Hj Hjr. apply entries_lookup. nia. }
  destruct (for_each_indirect (entries (base fs) b (Z.min r e)) fs1 l r) as (fs2 & L & -> & HL & HLk & Hs2 & Hr2); rewrite ?Ee.
  { apply (Hs1 true). }
  { rewrite Hel. nia. }
  { intros j Hj Hjr. exists (ptr (base fs) b j). split; [by apply Hentj|]. apply (step_valid _ _ _ _ _ (Hs1 true)). by apply Hvp. }
  rewrite Ee in HLk. exists fs2, L. split; [done|]. split; [done|]. split; [|split].
  - intros k Hk. assert (0 <= k / e) by (apply Z.div_pos; lia). pose proof (Z.mul_div_le k e).
    rewrite HLk by done. rewrite (list_lookup_total_correct _ _ _ (Hentj (k / e) ltac:(lia) ltac:(lia))). f_equal.
    apply (step_ptr_read fs fs1); [done|]. apply Hvp; lia.
  - intros v. apply (step_app _ _ _ [] [] [] [] _ (Hs1 v) (Hs2 v)).
  - rewrite Hr2, Hr1. by destruct fs.
Qed.

Lemma drop_zeros_id l : (forall x, head l = Some x -> x <> 0) -> drop_zeros l = l.
Proof. destruct l as [|x l]; [done|]. intros Hx. cbn. by rewrite (proj2 (Z.eqb_neq x 0)) by (apply Hx; done). Qed.

Lemma strip_id l : Forall (fun x => x <> 0) l -> rev (drop_zeros (rev l)) = l.
Proof.
  intros Hl. rewrite drop_zeros_id, rev_involutive; [done|]. intros x Hx. destruct l as [|y l' _] using rev_ind; [done|].
  rewrite rev_app_distr in Hx. cbn in Hx. injection Hx as ->. apply Forall_app in Hl as [_ Hl]. by rewrite Forall_singleton in Hl.
Qed.

(** The parts of a list, as its pointers give them. *)
Lemma mapped_direct s e ib l :
  mapped s e ib l -> length ib = Z.to_nat EXT2_N_BLOCKS ->
  take (Z.to_nat (Z.min (Z.of_nat (length l)) EXT2_NDIR_BLOCKS)) ib = take (Z.to_nat EXT2_NDIR_BLOCKS) l.
Proof.
  intros [Hd _] Hlen. change (Z.to_nat EXT2_N_BLOCKS) with 15%nat in Hlen. apply list_eq. intros i. unfold EXT2_NDIR_BLOCKS in *.
  destruct (decide (i < Z.to_nat (Z.min (Z.of_nat (length l)) 12))%nat) as [Hi|Hi].
  - rewrite !lookup_take_lt by lia. destruct (lookup_lt_is_Some_2 l i) as [x Hx]; [lia|]. specialize (Hd (Z.of_nat i) x ltac:(lia)).
    rewrite Nat2Z.id in Hd. by rewrite Hx, Hd.
  - rewrite !lookup_ge_None_2; [done|..]; rewrite length_take; lia.
Qed.

Lemma mapped_indirect s e ib l :
  mapped s e ib l -> 0 < e -> entries s (ind_of ib) (n1 e (Z.of_nat (length l))) = take (Z.to_nat e) (drop (Z.to_nat EXT2_NDIR_BLOCKS) l).
Proof.
  intros [_ [Hi _]] He. apply list_eq. intros i. set (n := Z.of_nat (length l)) in *. assert (0 <= n1 e n) by (unfold n1; lia).
  pose proof (entries_length s (ind_of ib) (n1 e n) ltac:(lia)) as Hel.
  destruct (decide (i < Z.to_nat (n1 e n))%nat) as [Hlt|Hge].
  - rewrite lookup_take_lt by (unfold n1 in *; lia). rewrite lookup_drop.
    destruct (lookup_lt_is_Some_2 l (Z.to_nat EXT2_NDIR_BLOCKS + i)) as [x Hx]; [unfold n1, EXT2_NDIR_BLOCKS in *; lia|].
    pose proof (entries_lookup s (ind_of ib) (n1 e n) (Z.of_nat i) ltac:(lia)) as Hent. rewrite Nat2Z.id in Hent. rewrite Hent, Hx. f_equal.
    apply Hi; [lia|]. rewrite <- Hx. f_equal. unfold EXT2_NDIR_BLOCKS. lia.
  - rewrite !lookup_ge_None_2; [done|..]; rewrite ?length_take, ?length_drop; unfold n1, EXT2_NDIR_BLOCKS in *; lia.
Qed.

Lemma compute_block_list_spec fs inode l (e := EXT2_ADDR_PER_BLOCK fs) (ib := pointers_of inode) (n := Z.of_nat (length l)) :
  alloc_ok fs -> length ib = Z.to_nat EXT2_N_BLOCKS -> n = ceil_div (inode_size_of fs inode) (block_size fs) -> n <= doubly_limit e ->
  is_symlink (i_mode (m_raw_inode inode)) = false -> mapped (base fs) e ib l -> Forall (own fs) (metas (base fs) e ib n) ->
  Forall (fun b => b <> 0) l ->
  exists fs', compute_block_list fs inode = Ret (l, fs') /\ (forall v, step fs fs' [] [] v) /\ fs' = fs <| base := base fs' |>.
Proof.
  intros Hok Hlen Hn Hlim Hsym Hmap HM Hnz. destruct (addr_per_block _ (alloc_geometry _ Hok)) as [Hbs He]. fold e in He.
  unfold compute_block_list, compute_block_list_impl. enough (exists fs', compute_block_list_impl_internal fs inode (m_raw_inode inode) false = Ret (l, fs') /\
    (forall v, step fs fs' [] [] v) /\ fs' = fs <| base := base fs' |>) as (fs' & -> & Hs).
  { exists fs'. run. by rewrite strip_id. }
  unfold compute_block_list_impl_internal. rewrite Hsym, <- Hn. cbn [andb].
  assert (doubly_limit e < 2 ^ 31) as Hdl by (unfold doubly_limit, EXT2_NDIR_BLOCKS; nia).
  rewrite (wrap_id u32 eq_refl n) by (rewrite in_type_u32; lia). run. unfold n at 1. rewrite mapped_direct with (s := base fs) (e := e) by done. 
  set (D := take (Z.to_nat EXT2_NDIR_BLOCKS) l).
  assert (Z.of_nat (length D) = Z.min n EXT2_NDIR_BLOCKS) as HD by (unfold D, n, EXT2_NDIR_BLOCKS; rewrite length_take; lia).
  rewrite for_each_add by (rewrite HD; lia). run. cbn [app]. rewrite HD.
  destruct (Z.eqb_spec (n - Z.min n EXT2_NDIR_BLOCKS) 0) as [H0|H0].
  { exists fs. unfold D. rewrite take_ge by (unfold n, EXT2_NDIR_BLOCKS in *; lia). split_and!; try done; [intros v; by apply step_refl|by destruct fs]. }
  assert (0 < n1 e n) as Hn1 by (unfold n1, EXT2_NDIR_BLOCKS in *; lia).
  unfold metas in HM. apply Forall_app in HM as [HM1 HM2]. unfold metas1 in HM1. rewrite (proj2 (Z.eqb_neq (n1 e n) 0)), Forall_singleton in HM1 by lia.
  assert (forall k, (k < 15)%nat -> load ib (Z.of_nat k) = Ret (ib !!! k)) as Hload.
  { intros k Hk. unfold load. rewrite (proj2 (Z.leb_le 0 _)), Nat2Z.id by lia. rewrite (list_lookup_lookup_total_lt ib k); [done|]. rewrite Hlen. exact Hk. }
  rewrite (Hload 12%nat ltac:(lia) : load (i_block (m_raw_inode inode)) EXT2_IND_BLOCK = Ret (ind_of ib)). run.
  destruct (process_indirect fs (ind_of ib) D (n - Z.min n EXT2_NDIR_BLOCKS)) as (fs1 & -> & Hs1 & Hr1); [done|lia|intros; by apply own_valid|]. run.
  assert (Z.min (n - Z.min n EXT2_NDIR_BLOCKS) (EXT2_ADDR_PER_BLOCK fs) = n1 e n) as -> by (unfold n1, EXT2_NDIR_BLOCKS in *; fold e; lia).
  pose proof (mapped_indirect _ _ _ _ Hmap ltac:(lia)) as HE. fold n in HE. rewrite HE. set (E := take (Z.to_nat e) _).
  destruct (Z.eqb_spec (n - Z.min n EXT2_NDIR_BLOCKS - n1 e n) 0) as [H1|H1].
  { exists fs1. split; [|done]. do 2 f_equal. unfold D, E. rewrite (take_ge (drop _ _)); [by rewrite take_drop|]. rewrite length_drop. unfold n, n1, EXT2_NDIR_BLOCKS in *. lia. }
  assert (n - Z.min n EXT2_NDIR_BLOCKS - n1 e n = n2 e n) as -> by (unfold n1, n2, EXT2_NDIR_BLOCKS in *; lia).
  assert (0 < n2 e n) as Hn2 by (unfold n1, n2, EXT2_NDIR_BLOCKS in *; lia).
  destruct (n_levels_bounds e n ltac:(lia) ltac:(lia)) as [_ Hb2].
  unfold metas2 in HM2. rewrite (proj2 (Z.eqb_neq (n2 e n) 0)) in HM2 by lia. apply Forall_cons in HM2 as [HMd HMi].
  pose proof (Hs1 true) as Hst1. pose proof (addr_geometry _ _ (step_geometry _ _ _ _ _ Hst1)) as Ee. fold e in Ee.
  assert (forall b, own fs b -> store_valid (base fs) b /\ store_valid (base fs1) b) as Hval.
  { intros b Hb. assert (store_valid (base fs) b) by by apply own_valid. split; [done|by apply (step_valid _ _ _ _ _ Hst1)]. }
  assert (forall j, 0 <= j < up (n2 e n) e -> ptr (base fs1) (dind_of ib) j = ptr (base fs) (dind_of ib) j /\ own fs (ptr (base fs) (dind_of ib) j)) as Hin.
  { intros j Hj. split; [apply step_ptr_read; [done|]; by apply own_valid|]. rewrite Forall_lookup in HMi. eapply HMi. by apply inner_lookup. }
  rewrite (Hload 13%nat ltac:(lia) : load (i_block (m_raw_inode inode)) EXT2_DIND_BLOCK = Ret (dind_of ib)). run.
  destruct (process_doubly fs1 (dind_of ib) (D ++ E) (n2 e n)) as (fs2 & L & -> & HL & HLk & Hs2 & Hr2); rewrite ?Ee.
  { apply Hst1. }
  { lia. }
  { by apply Hval. }
  { intros j Hj Hjr. pose proof (up_lt (n2 e n) e j ltac:(lia) ltac:(lia) Hjr). destruct (Hin j ltac:(lia)) as [-> Ho]. by apply Hval. }
  run. rewrite Ee in HLk. exists fs2. change (0 =? 0) with true. cbn iota. split; [|split].
  - do 2 f_equal. unfold D, E. rewrite <- app_assoc. rewrite <- (take_drop (Z.to_nat EXT2_NDIR_BLOCKS) l) at 3. f_equal.
    rewrite <- (take_drop (Z.to_nat e) (drop (Z.to_nat EXT2_NDIR_BLOCKS) l)) at 2. f_equal. rewrite drop_drop. symmetry. apply list_eq. intros i.
    destruct (decide (i < Z.to_nat (n2 e n))%nat) as [Hi|Hi].
    + rewrite lookup_drop. destruct (lookup_lt_is_Some_2 l (Z.to_nat EXT2_NDIR_BLOCKS + Z.to_nat e + i)) as [x Hx]; [unfold n, n2, EXT2_NDIR_BLOCKS in *; lia|].
      rewrite Hx. rewrite <- (Nat2Z.id i) at 1. rewrite HLk by lia. f_equal. set (k := Z.of_nat i). symmetry. destruct Hmap as [_ [_ Hm2]].
      assert (0 <= k / e) by (apply Z.div_pos; lia). pose proof (Z.mul_div_le k e). pose proof (up_lt (n2 e n) e (k / e) ltac:(lia) ltac:(lia) ltac:(subst k; lia)).
      destruct (Hin (k / e) ltac:(lia)) as [-> Ho]. rewrite (step_ptr_read fs fs1) by (try done; by apply own_valid).
      apply Hm2; [fold n; subst k; lia|]. rewrite <- Hx. f_equal. unfold EXT2_NDIR_BLOCKS in *. subst k. lia.
    + rewrite !lookup_ge_None_2; [done|lia|]. rewrite length_drop. unfold n, n2, EXT2_NDIR_BLOCKS in *. lia.
  - intros v. apply (step_app _ _ _ [] [] [] [] _ (Hs1 v) (Hs2 v)).
  - rewrite Hr2, Hr1. by destruct fs.
Qed.

(** ** Inodes

    The inode lists the blocks [l]; they and the blocks of pointers are different blocks of the
    disk, marked as used, and none of them holds a bitmap. *)

Definition all_blocks fs inode (l : list Z) : list Z :=
  l ++ metas (base fs) (EXT2_ADDR_PER_BLOCK fs) (pointers_of inode) (Z.of_nat (length l)).

Record inode_ok fs inode (l : list Z) : Prop := InodeOk {
  inode_alloc : alloc_ok fs;
  inode_pointers : length (pointers_of inode) = Z.to_nat EXT2_N_BLOCKS;
  inode_index : 1 <= m_index inode <= s_inodes_count (m_super_block fs);
  inode_length : Z.of_nat (length l) = ceil_div (inode_size_of fs inode) (block_size fs);
  inode_limit : Z.of_nat (length l) <= doubly_limit (EXT2_ADDR_PER_BLOCK fs);
  inode_mapped : mapped (base fs) (EXT2_ADDR_PER_BLOCK fs) (pointers_of inode) l;
  inode_blocks : Forall (fun b => own fs b /\ used fs b = true) (all_blocks fs inode l);
  inode_distinct : NoDup (all_blocks fs inode l);
  inode_list : m_block_list inode = [] \/ m_block_list inode = l;
  inode_type : is_symlink (i_mode (m_raw_inode inode)) = false
}.

Lemma geometry_size fs fs' inode : geometry fs' = geometry fs -> inode_size_of fs' inode = inode_size_of fs inode.
Proof.
  unfold geometry, inode_size_of, get_features_readonly, set_field. cbn. intros [= _ _ _ _ _ _ Hrev _ _ Hfeat _ _ _]. by rewrite Hrev, Hfeat.
Qed.

Lemma own_nonzero fs b : own fs b -> b <> 0.
Proof. intros Hb%own_pos. lia. Qed.

Lemma inode_ok_metas fs inode l :
  inode_ok fs inode l ->
  Forall (fun b => own fs b /\ used fs b = true) (metas (base fs) (EXT2_ADDR_PER_BLOCK fs) (pointers_of inode) (Z.of_nat (length l))) /\
  NoDup (metas (base fs) (EXT2_ADDR_PER_BLOCK fs) (pointers_of inode) (Z.of_nat (length l))).
Proof.
  intros Hi. pose proof (inode_blocks _ _ _ Hi) as Hb. pose proof (inode_distinct _ _ _ Hi) as Hd. unfold all_blocks in *.
  apply Forall_app in Hb as [_ ?]. by apply NoDup_app in Hd as (_ & _ & ?).
Qed.

(** Reading the list of an inode. *)
Lemma inode_compute fs inode l :
  inode_ok fs inode l ->
  exists fs', compute_block_list fs inode = Ret (l, fs') /\ (forall v, step fs fs' [] [] v) /\ fs' = fs <| base := base fs' |>.
Proof.
  intros Hi. destruct (inode_ok_metas _ _ _ Hi) as [HM _]. apply (compute_block_list_spec fs inode l); try apply Hi.
  - eapply Forall_impl; [exact HM|]. by intros b [? _].
  - pose proof (inode_blocks _ _ _ Hi) as Hb. apply Forall_app in Hb as [Hb _]. eapply Forall_impl; [exact Hb|]. intros b [? _]. by eapply own_nonzero.
Qed.

(** C13. The list of blocks survives the way to the disk: when an inode with the list [l] gets the
    list [l'], longer or shorter, and there is room for the blocks of pointers that it needs,
    [flush_block_list] succeeds and [compute_block_list] then gives [l'] for any state of the
    inode with those pointers and the size that goes with it. *)
Theorem Ext2FSInode_block_list_roundtrip fs inode l l' :
  inode_ok fs inode l -> m_readonly fs = false -> 0 < Z.of_nat (length l') <= doubly_limit (EXT2_ADDR_PER_BLOCK fs) -> agree l l' ->
  Forall (own fs) l' ->
  n_meta (EXT2_ADDR_PER_BLOCK fs) (Z.of_nat (length l')) - n_meta (EXT2_ADDR_PER_BLOCK fs) (Z.of_nat (length l)) <=
    s_free_blocks_count (m_super_block fs) ->
  exists fs' inode', flush_block_list fs (inode <| m_block_list := l' |>) = Ret (KSuccess, fs', inode') /\
    forall inode'', i_block (m_raw_inode inode'') = i_block (m_raw_inode inode') ->
      is_symlink (i_mode (m_raw_inode inode'')) = false ->
      ceil_div (inode_size_of fs' inode'') (block_size fs') = Z.of_nat (length l') ->
      exists fs'', compute_block_list fs' inode'' = Ret (l', fs'') /\ same_store (base fs') (base fs'').
Proof.
  intros Hi Hr Hl' Hag Hown Hfree. pose proof (inode_alloc _ _ _ Hi) as Hok. destruct (inode_ok_metas _ _ _ Hi) as [HM HndM].
  destruct (flush_block_list_spec fs (inode <| m_block_list := l' |>) l)
    as (fs' & inode' & taken & freed & Heq & _ & Hlen & Hmap & Hperm & Htaken & _ & Hstep); try done; try apply Hi.
  { eapply Forall_impl; [exact Hown|]. intros b. by apply own_u32. }
  exists fs', inode'. split; [done|]. intros inode'' Eib Hsym Hsize. change (m_block_list (inode <| m_block_list := l' |>)) with l' in *.
  set (M' := metas (base fs') (EXT2_ADDR_PER_BLOCK fs) (pointers_of inode') (Z.of_nat (length l'))) in *.
  assert (exists c v, step fs fs' M' c v) as (c & v & Hs) by (destruct (_ <=? _); destruct Hstep as [_ Hs]; eauto).
  pose proof (addr_geometry _ _ (step_geometry _ _ _ _ _ Hs)) as Ee.
  destruct (compute_block_list_spec fs' inode'' l') as (fs'' & Hc & Hs' & Hr'); rewrite ?Ee, ?Eib; try done.
  - apply Hs.
  - lia.
  - fold M'. apply Forall_forall. intros b Hb. apply (step_own _ _ _ _ _ _ Hs). assert (b ∈ M' ++ freed) as Hb' by (apply elem_of_app; by left).
    rewrite Hperm in Hb'. apply elem_of_app in Hb' as [Hb'|Hb']; [rewrite Forall_forall in HM; by apply HM|].
    rewrite Forall_forall in Htaken. by apply Htaken.
  - eapply Forall_impl; [exact Hown|]. intros b. apply own_nonzero.
  - exists fs''. split; [done|]. pose proof (Hs' true) as Hst. split.
    + apply (bitmaps_store _ (alloc_bitmaps _ (step_ok _ _ _ _ _ Hst))).
    + by destruct (geometry_fields _ _ (step_geometry _ _ _ _ _ Hst)).
    + apply Hst.
    + intros b Hb. apply (step_contents _ _ _ _ _ Hst); [done|apply not_elem_of_nil].
Qed.

End lists.

(** ** A new inode on the small disk *)

#[local] Instance no_bytes : Uninitialized := fun n => [].

(** Inode 12, a regular file without blocks. *)
Definition ext2_inode_new : Ext2FSInode :=
  MkInode 12 (MkRawInode 0x81a4 0 0 0 0 0 0 0 1 0 0 0 (replicate 15 0) 0 0 0 0 (replicate 12 0)) [] ∅ false.

Lemma ext2_inode_new_ok : inode_ok ext2_sample ext2_inode_new [].
Proof.
  split.
  - exact ext2_sample_ok.
  - done.
  - cbn. lia.
  - done.
  - by vm_compute.
  - split; [done|]. split; intros k x _ Hx; by rewrite lookup_nil in Hx.
  - apply Forall_nil_2.
  - apply NoDup_nil_2.
  - by left.
  - done.
Qed.

Lemma ext2_sample_own b : 5 <= b < 32 -> own ext2_sample b.
Proof.
  intros Hb. split; [split; [cbn; lia|by left]|]. cbn. rewrite !elem_of_cons, elem_of_nil. lia.
Qed.

Lemma Ext2FSInode_block_list_roundtrip_witness :
  exists fs' inode', flush_block_list ext2_sample (ext2_inode_new <| m_block_list := seqZ 10 14 |>) = Ret (KSuccess, fs', inode') /\
    forall inode'', i_block (m_raw_inode inode'') = i_block (m_raw_inode inode') ->
      is_symlink (i_mode (m_raw_inode inode'')) = false ->
      ceil_div (inode_size_of fs' inode'') (block_size fs') = 14 ->
      exists fs'', compute_block_list fs' inode'' = Ret (seqZ 10 14, fs'') /\ same_store (base fs') (base fs'').
Proof.
  apply (Ext2FSInode_block_list_roundtrip ext2_sample ext2_inode_new [] (seqZ 10 14)).
  - exact ext2_inode_new_ok.
  - done.
  - by vm_compute.
  - intros i Hi. cbn in Hi. lia.
  - apply Forall_forall. intros b Hb%elem_of_seqZ. apply ext2_sample_own. lia.
  - by vm_compute.
Defined.
