(* ===== verification/Ext2File.v ===== *)
(** * Kernel/FileSystem/Ext2FileSystem: the contents of an inode

    [read_bytes], [write_bytes], [resize] and [truncate] of [Ext2FSInode], with the parts of
    Kernel/FileSystem/Inode.cpp that they use.  Allocations of memory succeed: [read_entire]
    does not return ENOMEM.

    The theorem says that an inode is a sequence of bytes: what is read is what was written
    last, growing it adds zeros, and nothing that belongs to another inode changes. *)

From stdpp Require Import gmap.
From S2P Require Import Prelude BitmapView DoubleBuffer DiskCache Ext2Alloc Ext2BlockList.

#[local] Open Scope Z_scope.

Definition S_ISUID : Z := 0x800.
Definition S_ISGID : Z := 0x400.
Definition is_setuid (mode : Z) : bool := negb (Z.land mode S_ISUID =? 0).
Definition is_setgid (mode : Z) : bool := negb (Z.land mode S_ISGID =? 0).

Definition max_inline_symlink_length : Z := 60.

Section file.
Context {S : Type} `{!BlockStore S} `{!Uninitialized}.
Implicit Types (fs : Ext2FS S) (inode : Ext2FSInode).

Definition update_raw inode (f : ext2_inode -> ext2_inode) : Ext2FSInode := inode <| m_raw_inode := f (m_raw_inode inode) |>.

Definition chmod fs inode (mode : Z) : outcome (Z * Ext2FSInode) :=
  if i_mode (m_raw_inode inode) =? mode then Ret (KSuccess, inode)
  else
    inode ← set_metadata_dirty fs (update_raw inode (fun r => r <| i_mode := mode |>)) true;
    Ret (KSuccess, inode).

Definition chown fs inode (uid gid : Z) : outcome (Z * Ext2FSInode) :=
  if (i_uid (m_raw_inode inode) =? uid) && (i_gid (m_raw_inode inode) =? gid) then Ret (KSuccess, inode)
  else
    inode ← set_metadata_dirty fs (update_raw inode (fun r => r <| i_uid := wrap u16 uid |> <| i_gid := wrap u16 gid |>)) true;
    Ret (KSuccess, inode).

Definition prepare_to_write_data fs inode : outcome (Z * Ext2FSInode) :=
  if m_readonly fs then Ret (- EROFS, inode)
  else
    let mode := i_mode (m_raw_inode inode) in
    if is_setuid mode || is_setgid mode then chmod fs inode (Z.land mode (Z.lnot (Z.lor S_ISUID S_ISGID)))
    else Ret (KSuccess, inode).

(** [if (m_block_list.is_empty()) m_block_list = compute_block_list();] *)
Definition load_block_list fs inode : outcome (Ext2FS S * Ext2FSInode) :=
  match m_block_list inode with
  | [] => '(l, fs) ← compute_block_list fs inode; Ret (fs, inode <| m_block_list := l |>)
  | _ => Ret (fs, inode)
  end.

Definition get_block_address fs inode (index : Z) : outcome (Z * Ext2FS S * Ext2FSInode) :=
  '(fs, inode) ← load_block_list fs inode;
  if (index <? 0) || (Z.of_nat (length (m_block_list inode)) <=? index) then Ret (0, fs, inode)
  else block ← load (m_block_list inode) index; Ret (block, fs, inode).

(** ** Reading *)

(** The loop of [read_bytes]: [n] blocks are left up to [last_block_logical_index].  Its
    results are [nread] and the bytes that the buffer has received. *)
Fixpoint read_each_block (n : nat) fs (block_list : list Z) (bi offset_into_block remaining_count nread : Z)
    (buffer : UserBuffer) (allow_cache : bool) (received : list Z) : outcome (Z * list Z * Ext2FS S) :=
  match n with
  | O => Ret (nread, received, fs)
  | Datatypes.S n =>
      if remaining_count =? 0 then Ret (nread, received, fs)
      else
        block_index ← load block_list bi;
        let num_bytes_to_copy := wrap size_t (Z.min (block_size fs - offset_into_block) remaining_count) in
        let out := buffer_offset buffer nread in
        if block_index =? 0 then
          let '(copied, ok) := user_copy out (Z.to_nat num_bytes_to_copy) in
          if negb ok then Ret (- EFAULT, received ++ replicate copied 0, fs)
          else read_each_block n fs block_list (bi + 1) 0 (remaining_count - num_bytes_to_copy) (nread + num_bytes_to_copy)
                 buffer allow_cache (received ++ replicate copied 0)
        else
          '(result, bytes, fs) ← fs_read_block fs block_index out num_bytes_to_copy offset_into_block allow_cache;
          if result <? 0 then Ret (result, received ++ bytes, fs)
          else read_each_block n fs block_list (bi + 1) 0 (remaining_count - num_bytes_to_copy) (nread + num_bytes_to_copy)
                 buffer allow_cache (received ++ bytes)
  end.

(** The last block that an access touches, and the number of blocks up to it. *)
Definition last_block_logical_index inode (offset count bs : Z) : Z :=
  let last := wrap u64 (Z.quot (offset + count) bs) in
  if Z.of_nat (length (m_block_list inode)) <=? last then Z.of_nat (length (m_block_list inode)) - 1 else last.

Definition read_bytes fs inode (offset count : Z) (buffer : UserBuffer) (direct : bool)
    : outcome (Z * list Z * Ext2FS S * Ext2FSInode) :=
  VERIFY (0 <=? offset) ;;
  if i_size (m_raw_inode inode) =? 0 then Ret (0, [], fs, inode)
  else if inode_size_of fs inode <=? offset then Ret (0, [], fs, inode)
  else if is_symlink (i_mode (m_raw_inode inode)) && (inode_size_of fs inode <? max_inline_symlink_length) then
    VERIFY (offset =? 0) ;;
    let nread := Z.min (inode_size_of fs inode - offset) count in
    bytes ← copy_from (pointer_bytes (i_block (m_raw_inode inode))) offset (wrap size_t nread);
    let '(copied, ok) := user_copy buffer (length bytes) in
    Ret (if ok then nread else - EFAULT, take copied bytes, fs, inode)
  else
    '(fs, inode) ← load_block_list fs inode;
    match m_block_list inode with
    | [] => Ret (- EIO, [], fs, inode)
    | _ =>
        let bs := block_size fs in
        let first := Z.quot offset bs in
        let last := last_block_logical_index inode offset count bs in
        let remaining_count := Z.min count (inode_size_of fs inode - offset) in
        '(nread, bytes, fs) ←
          read_each_block (Z.to_nat (last - first + 1)) fs (m_block_list inode) first (Z.rem offset bs) remaining_count 0
            buffer (negb direct) [];
        Ret (nread, bytes, fs, inode)
    end.

(** ** Writing *)

Fixpoint write_each_block (n : nat) fs (block_list : list Z) (bi offset_into_block remaining_count nwritten : Z)
    (data : UserBuffer) (allow_cache : bool) : outcome (Z * Ext2FS S) :=
  match n with
  | O => Ret (nwritten, fs)
  | Datatypes.S n =>
      if remaining_count =? 0 then Ret (nwritten, fs)
      else
        let num_bytes_to_copy := wrap size_t (Z.min (block_size fs - offset_into_block) remaining_count) in
        block_index ← load block_list bi;
        '(result, fs) ← fs_write_block fs block_index (buffer_offset data nwritten) num_bytes_to_copy offset_into_block allow_cache;
        if result <? 0 then Ret (result, fs)
        else write_each_block n fs block_list (bi + 1) 0 (remaining_count - num_bytes_to_copy) (nwritten + num_bytes_to_copy)
               data allow_cache
  end.

(** [write_bytes] once the inode is large enough. *)
Definition write_data fs inode (offset count new_size : Z) (data : UserBuffer) (direct : bool) : outcome (Z * Ext2FS S * Ext2FSInode) :=
  '(fs, inode) ← load_block_list fs inode;
  match m_block_list inode with
  | [] => Ret (- EIO, fs, inode)
  | _ =>
      let bs := block_size fs in
      let first := Z.quot offset bs in
      let last := last_block_logical_index inode offset count bs in
      let remaining_count := Z.min count (wrap i64 new_size - offset) in
      '(nwritten, fs) ←
        write_each_block (Z.to_nat (last - first + 1)) fs (m_block_list inode) first (Z.rem offset bs) remaining_count 0 data (negb direct);
      Ret (nwritten, fs, inode)
  end.

(** [write_bytes], given the function that it calls to make the inode larger. *)
Definition write_bytes_with (resize : Ext2FS S -> Ext2FSInode -> Z -> outcome (Z * Ext2FS S * Ext2FSInode))
    fs inode (offset count : Z) (data : UserBuffer) (direct : bool) : outcome (Z * Ext2FS S * Ext2FSInode) :=
  VERIFY (0 <=? offset) ;;
  VERIFY (0 <=? count) ;;
  '(result, inode) ← prepare_to_write_data fs inode;
  if result <? 0 then Ret (result, fs, inode)
  else
    let symlink := is_symlink (i_mode (m_raw_inode inode)) in
    VERIFY (negb symlink || (offset =? 0)) ;;
    if symlink && (Z.max (wrap size_t (offset + count)) (i_size (m_raw_inode inode)) <? max_inline_symlink_length) then
      let '(copied, ok) := user_copy data (Z.to_nat count) in
      bytes ← copy_to (pointer_bytes (i_block (m_raw_inode inode))) offset (take copied (u_bytes data));
      let inode := set_i_block inode (pointers bytes) in
      if negb ok then Ret (- EFAULT, fs, inode)
      else
        let inode := if i_size (m_raw_inode inode) <? wrap size_t (offset + count)
                     then update_raw inode (fun r => r <| i_size := wrap u32 (offset + count) |>) else inode in
        inode ← set_metadata_dirty fs inode true;
        Ret (count, fs, inode)
    else
      let new_size := Z.max (wrap u64 (offset + count)) (inode_size_of fs inode) in
      '(result, fs, inode) ← resize fs inode new_size;
      if result <? 0 then Ret (result, fs, inode) else write_data fs inode offset count new_size data direct.

(** The loop of [resize] that frees the last blocks. *)
Fixpoint free_last_blocks (fuel : nat) fs (block_list : list Z) (blocks_needed_after : Z) : outcome (Z * Ext2FS S * list Z) :=
  if Z.of_nat (length block_list) =? blocks_needed_after then Ret (KSuccess, fs, block_list)
  else
    match fuel with
    | O => Stop NoFuel
    | Datatypes.S fuel =>
        '(block_index, block_list) ← take_last block_list;
        '(result, fs) ← (if negb (block_index =? 0) then set_block_allocation_state fs block_index false else Ret (KSuccess, fs));
        if result <? 0 then Ret (result, fs, block_list) else free_last_blocks fuel fs block_list blocks_needed_after
    end.

(** The loop of [resize] that clears what is new. *)
Fixpoint clear_bytes (write_bytes : Ext2FS S -> Ext2FSInode -> Z -> Z -> UserBuffer -> bool -> outcome (Z * Ext2FS S * Ext2FSInode))
    (fuel : nat) fs inode (clear_from bytes_to_clear : Z) : outcome (Z * Ext2FS S * Ext2FSInode) :=
  if bytes_to_clear =? 0 then Ret (KSuccess, fs, inode)
  else
    match fuel with
    | O => Stop NoFuel
    | Datatypes.S fuel =>
        '(nwritten, fs, inode) ←
          write_bytes fs inode clear_from (Z.min PAGE_SIZE bytes_to_clear) (for_kernel_buffer (replicate (Z.to_nat PAGE_SIZE) 0)) false;
        if nwritten <? 0 then Ret (nwritten, fs, inode)
        else VERIFY (negb (nwritten =? 0)) ;; clear_bytes write_bytes fuel fs inode (clear_from + nwritten) (bytes_to_clear - nwritten)
    end.

(** The first part of [resize]: blocks are allocated or freed. *)
Definition resize_block_list fs inode (blocks_needed_before blocks_needed_after : Z) : outcome (Z * Ext2FS S * Ext2FSInode) :=
  '(fs, inode) ← load_block_list fs inode;
  if blocks_needed_before <? blocks_needed_after then
    '(r, fs) ← allocate_blocks fs (group_index_from_inode fs (m_index inode)) (wrap size_t (blocks_needed_after - blocks_needed_before));
    match r with
    | inl error => Ret (error, fs, inode)
    | inr blocks => Ret (KSuccess, fs, inode <| m_block_list := m_block_list inode ++ blocks |>)
    end
  else if blocks_needed_after <? blocks_needed_before then
    '(result, fs, block_list) ← free_last_blocks (length (m_block_list inode)) fs (m_block_list inode) blocks_needed_after;
    Ret (result, fs, inode <| m_block_list := block_list |>)
  else Ret (KSuccess, fs, inode).

(** [resize] and [write_bytes] call each other: the zeros are written once the size is already
    the new one, so the inner call of [resize] returns at once and [fuel] = 2 is enough. *)
Fixpoint resize_fuel (fuel : nat) fs inode (new_size : Z) : outcome (Z * Ext2FS S * Ext2FSInode) :=
  match fuel with
  | O => Stop NoFuel
  | Datatypes.S fuel =>
      let old_size := inode_size_of fs inode in
      if old_size =? new_size then Ret (KSuccess, fs, inode)
      else if (Z.land (get_features_readonly fs) FileSize64bits =? 0) && (2 ^ 32 - 1 <=? new_size) then Ret (- ENOSPC, fs, inode)
      else
        let bs := block_size fs in
        let blocks_needed_before := ceil_div old_size bs in
        let blocks_needed_after := ceil_div new_size bs in
        if (blocks_needed_before <? blocks_needed_after) &&
           (s_free_blocks_count (m_super_block fs) <? blocks_needed_after - blocks_needed_before)
        then Ret (- ENOSPC, fs, inode)
        else
          '(result, fs, inode) ← resize_block_list fs inode blocks_needed_before blocks_needed_after;
          if result <? 0 then Ret (result, fs, inode)
          else
            '(result, fs, inode) ← flush_block_list fs inode;
            if result <? 0 then Ret (result, fs, inode)
            else
              let inode := update_raw inode (fun r => r <| i_size := wrap u32 new_size |>) in
              let inode := if is_regular_file (i_mode (m_raw_inode inode))
                           then update_raw inode (fun r => r <| i_dir_acl := wrap u32 (Z.shiftr new_size 32) |>) else inode in
              inode ← set_metadata_dirty fs inode true;
              if old_size <? new_size then
                clear_bytes (write_bytes_with (resize_fuel fuel)) (Z.to_nat (ceil_div (new_size - old_size) PAGE_SIZE)) fs inode
                  old_size (new_size - old_size)
              else Ret (KSuccess, fs, inode)
  end.

Definition resize fs inode (new_size : Z) : outcome (Z * Ext2FS S * Ext2FSInode) := resize_fuel 2 fs inode new_size.

Definition write_bytes fs inode (offset count : Z) (data : UserBuffer) (direct : bool) : outcome (Z * Ext2FS S * Ext2FSInode) :=
  write_bytes_with resize fs inode offset count data direct.

Definition truncate fs inode (size : Z) : outcome (Z * Ext2FS S * Ext2FSInode) :=
  if i_size (m_raw_inode inode) =? size then Ret (KSuccess, fs, inode)
  else
    '(result, fs, inode) ← resize fs inode size;
    if result <? 0 then Ret (result, fs, inode)
    else inode ← set_metadata_dirty fs inode true; Ret (KSuccess, fs, inode).

(** [Inode::read_entire]; [fuel] bounds the number of pieces of 4096 bytes. *)
Fixpoint read_entire_from (fuel : nat) fs inode (offset : Z) (builder : list Z) : outcome (KResultOr (list Z) * Ext2FS S * Ext2FSInode) :=
  match fuel with
  | O => Stop NoFuel
  | Datatypes.S fuel =>
      '(nread, bytes, fs, inode) ← read_bytes fs inode offset 4096 (for_kernel_buffer []) false;
      if nread <? 0 then Ret (inl nread, fs, inode)
      else
        VERIFY (nread <=? 4096) ;;
        if nread <=? 0 then Ret (inr builder, fs, inode)
        else
          let builder := builder ++ take (Z.to_nat nread) bytes in
          if nread <? 4096 then Ret (inr builder, fs, inode) else read_entire_from fuel fs inode (offset + nread) builder
  end.

Definition read_entire fs inode : outcome (KResultOr (list Z) * Ext2FS S * Ext2FSInode) :=
  read_entire_from (Z.to_nat (inode_size_of fs inode / 4096) + 2) fs inode 0 [].
End file.

(** ** Parts of lists *)

Section parts.
Context {A : Type}.
Implicit Types l xs a b c : list A.

Lemma slice_split l o n1 n2 : 0 <= o -> 0 <= n1 -> 0 <= n2 -> slice l o (n1 + n2) = slice l o n1 ++ slice l (o + n1) n2.
Proof.
  intros. unfold slice. rewrite !Z2Nat.inj_add by lia. rewrite <- drop_drop. by rewrite take_take_drop.
Qed.

Lemma slice_middle a b c o n : 0 <= o -> 0 <= n -> o + n <= Z.of_nat (length b) -> slice (a ++ b ++ c) (Z.of_nat (length a) + o) n = slice b o n.
Proof.
  intros. unfold slice. rewrite Z2Nat.inj_add, Nat2Z.id by lia. rewrite <- drop_drop, drop_app_length.
  rewrite drop_app_le by lia. by rewrite take_app_le by (rewrite length_drop; lia).
Qed.

Lemma splice_middle a b c o xs :
  0 <= o -> o + Z.of_nat (length xs) <= Z.of_nat (length b) ->
  splice (a ++ b ++ c) (Z.of_nat (length a) + o) xs = a ++ splice b o xs ++ c.
Proof.
  intros. unfold splice. rewrite Z2Nat.inj_add, Nat2Z.id by lia. rewrite take_app_add, (take_app_le b c) by lia.
  rewrite <- !app_assoc. do 3 f_equal. rewrite <- Nat.add_assoc, <- drop_drop, drop_app_length. by rewrite drop_app_le by lia.
Qed.

Lemma splice_splice l o xs ys :
  0 <= o -> o + Z.of_nat (length xs) + Z.of_nat (length ys) <= Z.of_nat (length l) ->
  splice (splice l o xs) (o + Z.of_nat (length xs)) ys = splice l o (xs ++ ys).
Proof.
  intros. apply list_eq. intros i. rewrite !splice_lookup; rewrite ?splice_length, ?length_app; try lia.
  repeat case_decide; try lia; try done.
  - rewrite lookup_app_r by lia. f_equal. lia.
  - by rewrite lookup_app_l by lia.
Qed.

Lemma slice_0 l o : slice l o 0 = [].
Proof. done. Qed.

Lemma splice_nil l o : splice l o [] = l.
Proof. unfold splice. cbn. by rewrite Nat.add_0_r, take_drop. Qed.
End parts.

Section contents.
Context {S : Type} `{!BlockStore S} `{!BlockStoreLaws S} `{!Uninitialized}.
Implicit Types (fs : Ext2FS S) (inode : Ext2FSInode).

(** ** The bytes of a list of blocks *)

Definition bytes_of (s : S) (l : list Z) : list Z := l ≫= contents s.

Lemma bytes_of_app s l l' : bytes_of s (l ++ l') = bytes_of s l ++ bytes_of s l'.
Proof. apply bind_app. Qed.

Lemma bytes_of_length s l : store_ok s -> Forall (store_valid s) l -> Z.of_nat (length (bytes_of s l)) = Z.of_nat (length l) * store_block_size s.
Proof.
  intros Hs. pose proof (store_block_size_ok _ Hs). induction 1 as [|b l Hb Hl IH]; [done|]. unfold bytes_of in *. cbn [mbind list_bind length].
  rewrite length_app, Nat2Z.inj_add, IH. destruct (contents_ok s b Hs Hb) as [-> _]. lia.
Qed.

Lemma bytes_of_ok s l : store_ok s -> Forall (store_valid s) l -> is_bytes (bytes_of s l).
Proof.
  intros Hs. induction 1 as [|b l Hb Hl IH]; [apply Forall_nil_2|]. unfold bytes_of in *. cbn [mbind list_bind]. apply Forall_app.
  split; [by apply contents_ok|done].
Qed.

(** One of the blocks, among the others. *)
Lemma bytes_of_block s l i b :
  store_ok s -> Forall (store_valid s) l -> 0 <= i -> l !! Z.to_nat i = Some b ->
  exists l1 l2, l = l1 ++ b :: l2 /\ bytes_of s l = bytes_of s l1 ++ contents s b ++ bytes_of s l2 /\
    Z.of_nat (length (bytes_of s l1)) = i * store_block_size s /\ Z.of_nat (length (contents s b)) = store_block_size s.
Proof.
  intros Hs Hl Hi Hb. pose proof (store_block_size_ok _ Hs). pose proof (list_elem_of_split_length _ _ _ Hb) as (l1 & l2 & -> & Hlen).
  apply Forall_app in Hl as [Hl1 Hl2]. apply Forall_cons in Hl2 as [Hvb Hl2]. exists l1, l2. split; [done|]. split; [by rewrite bytes_of_app|].
  split; [rewrite bytes_of_length by done; f_equal; lia|]. destruct (contents_ok s b Hs Hvb) as [-> _]. lia.
Qed.

Lemma slice_bytes_of s l i b o n :
  store_ok s -> Forall (store_valid s) l -> 0 <= i -> l !! Z.to_nat i = Some b -> 0 <= o -> 0 <= n -> o + n <= store_block_size s ->
  slice (bytes_of s l) (i * store_block_size s + o) n = slice (contents s b) o n.
Proof.
  intros Hs Hl Hi Hb Ho Hn Hon. destruct (bytes_of_block s l i b) as (l1 & l2 & _ & -> & <- & Hc); try done. by apply slice_middle; rewrite ?Hc.
Qed.

(** A block is written, and the others are not. *)
Lemma splice_bytes_of s s' l i b o xs :
  store_ok s -> Forall (store_valid s) l -> NoDup l -> 0 <= i -> l !! Z.to_nat i = Some b ->
  0 <= o -> o + Z.of_nat (length xs) <= store_block_size s -> contents s' b = splice (contents s b) o xs ->
  (forall b', store_valid s b' -> b' <> b -> contents s' b' = contents s b') ->
  bytes_of s' l = splice (bytes_of s l) (i * store_block_size s + o) xs.
Proof.
  intros Hs Hl Hnd Hi Hb Ho Hon Hc Hother. destruct (bytes_of_block s l i b) as (l1 & l2 & El & -> & <- & Hcl); try done.
  rewrite splice_middle by (try done; lia). rewrite <- Hc. rewrite El, bytes_of_app in *. unfold bytes_of. cbn [mbind list_bind].
  apply Forall_app in Hl as [Hl1 Hl2]. apply Forall_cons in Hl2 as [_ Hl2]. apply NoDup_app in Hnd as (_ & Hd1 & Hnd). apply NoDup_cons in Hnd as [Hnb _].
  assert (forall l', Forall (store_valid s) l' -> b ∉ l' -> l' ≫= contents s' = l' ≫= contents s) as Hsame.
  { intros l'. induction 1 as [|x l' Hx Hl' IH]; [done|]. rewrite not_elem_of_cons. intros [Hne Hn]. cbn. rewrite IH by done. f_equal. by apply Hother. }
  rewrite !Hsame; [done|done|done|done|]. intros Hin. apply (Hd1 b Hin). left.
Qed.
(** ** The loops over the blocks *)

Lemma own_all_valid fs l : alloc_ok fs -> Forall (own fs) l -> Forall (store_valid (base fs)) l.
Proof. intros Hok Hl. eapply Forall_impl; [exact Hl|]. intros b. by apply own_valid. Qed.

(** Buffers that can be accessed. *)
Definition no_fault (u : UserBuffer) : Prop := forall n, u_fault u n = None.

Lemma no_fault_offset u o : no_fault u -> no_fault (buffer_offset u o).
Proof. intros Hu n. unfold buffer_offset. cbn. by rewrite Hu. Qed.

Lemma read_no_fault u bytes : no_fault u -> read_result (Some u) bytes = (KSuccess, bytes).
Proof. intros Hu. unfold read_result, user_copy. rewrite Hu. by rewrite firstn_all. Qed.

Lemma step_store fs fs' W l v : step fs fs' W l v -> store_ok (base fs') /\ block_size fs' = block_size fs.
Proof.
  intros Hs. split; [apply (bitmaps_store _ (alloc_bitmaps _ (step_ok _ _ _ _ _ Hs)))|]. by destruct (geometry_fields _ _ (step_geometry _ _ _ _ _ Hs)).
Qed.

Lemma step_bytes_of fs fs' W L v l :
  step fs fs' W L v -> Forall (store_valid (base fs)) l -> (forall b, b ∈ l -> b ∉ W) -> bytes_of (base fs') l = bytes_of (base fs) l.
Proof.
  intros Hs. induction 1 as [|b l Hb Hl IH]; intros HW; [done|]. unfold bytes_of in *. cbn [mbind list_bind].
  rewrite (step_contents _ _ _ _ _ Hs) by (try done; apply HW; left). rewrite IH; [done|]. intros b' Hb'. apply HW. by right.
Qed.

Lemma read_each_block_spec n fs bl bi off rem nread u acc :
  alloc_ok fs -> Forall (own fs) bl -> 0 <= bi -> 0 <= off < block_size fs -> 0 <= rem < 2 ^ 31 ->
  bi * block_size fs + off + rem <= (bi + Z.of_nat n) * block_size fs -> bi * block_size fs + off + rem <= Z.of_nat (length bl) * block_size fs ->
  no_fault u ->
  exists fs', read_each_block n fs bl bi off rem nread u true acc =
      Ret (nread + rem, acc ++ slice (bytes_of (base fs) bl) (bi * block_size fs + off) rem, fs') /\
    (forall v, step fs fs' [] [] v) /\ fs' = fs <| base := base fs' |>.
Proof.
  revert fs bi off rem nread acc. induction n as [|n IH]; intros fs bi off rem nread acc Hok Hbl Hbi Hoff Hrem Hn Hlen Hu; cbn [read_each_block].
  { assert (rem = 0) as -> by lia. exists fs. rewrite Z.add_0_r, slice_0, app_nil_r. split_and!; try done; [|by destruct fs].
    intros v. by apply step_refl. }
  destruct (Z.eqb_spec rem 0) as [->|Hne].
  { exists fs. rewrite Z.add_0_r, slice_0, app_nil_r. split_and!; try done; [|by destruct fs]. intros v. by apply step_refl. }
  destruct (lookup_lt_is_Some_2 bl (Z.to_nat bi)) as [b Hb]; [nia|]. unfold load. rewrite (proj2 (Z.leb_le 0 bi)), Hb by lia. run.
  assert (own fs b) as Hown by (rewrite Forall_lookup in Hbl; by eapply Hbl). rewrite (proj2 (Z.eqb_neq b 0)) by by eapply own_nonzero.
  set (k := Z.min (block_size fs - off) rem). unfold size_t. rewrite (wrap_id u32 eq_refl k) by (rewrite in_type_u32; lia).
  destruct (fs_read_block_spec fs b (buffer_offset u nread) k off) as (fs1 & Heq & Hs1 & Hr1); [done|by apply own_valid|lia..|].
  rewrite read_no_fault in Heq by by apply no_fault_offset. rewrite Heq. run. change (KSuccess <? 0) with false. cbn iota.
  pose proof (Hs1 true) as Hst1. destruct (step_store _ _ _ _ _ Hst1) as [Hok1 Ebs]. rewrite <- Ebs in *.
  destruct (IH fs1 (bi + 1) 0 (rem - k) (nread + k) (acc ++ slice (contents (base fs) b) off k)) as (fs2 & -> & Hs2 & Hr2); try done; try lia.
  { apply Hst1. }
  { eapply Forall_impl; [exact Hbl|]. intros x. apply (step_own _ _ _ _ _ _ Hst1). }
  { destruct (Z.min_spec (block_size fs1 - off) rem); nia. }
  { apply lookup_lt_Some in Hb. destruct (Z.min_spec (block_size fs1 - off) rem); nia. }
  exists fs2. split; [|split].
  - rewrite <- app_assoc. replace (nread + k + (rem - k)) with (nread + rem) by lia. do 4 f_equal.
    rewrite (step_bytes_of _ _ _ _ _ _ Hst1) by (try (by apply own_all_valid); intros; apply not_elem_of_nil).
    replace rem with (k + (rem - k)) at 2 by lia. rewrite slice_split by (subst k; nia). f_equal.
    + symmetry. rewrite Ebs. apply slice_bytes_of; try done; [apply Hok|by apply own_all_valid|lia..|unfold block_size in *; lia].
    + destruct (decide (rem - k = 0)) as [->|]; [done|]. f_equal. subst k. lia.
  - intros v. apply (step_app _ _ _ [] [] [] [] _ (Hs1 v) (Hs2 v)).
  - rewrite Hr2, Hr1. by destruct fs.
Qed.

Lemma step_within fs fs' W W' v : (forall v, step fs fs' W [] v) -> (forall b, b ∈ W -> b ∈ W') -> step fs fs' W' [] v.
Proof. intros Hs HW. by apply (step_weaken _ _ W _ []). Qed.

Lemma write_each_block_spec n fs bl bi off rem nw u :
  alloc_ok fs -> Forall (own fs) bl -> NoDup bl -> 0 <= bi -> 0 <= off < block_size fs -> 0 <= rem < 2 ^ 31 ->
  bi * block_size fs + off + rem <= (bi + Z.of_nat n) * block_size fs -> bi * block_size fs + off + rem <= Z.of_nat (length bl) * block_size fs ->
  no_fault u -> 0 <= nw -> nw + rem <= Z.of_nat (length (u_bytes u)) -> is_bytes (u_bytes u) ->
  exists fs', write_each_block n fs bl bi off rem nw u true = Ret (nw + rem, fs') /\ (forall v, step fs fs' bl [] v) /\
    bytes_of (base fs') bl = splice (bytes_of (base fs) bl) (bi * block_size fs + off) (slice (u_bytes u) nw rem) /\
    fs' = fs <| base := base fs' |>.
Proof.
  revert fs bi off rem nw. induction n as [|n IH]; intros fs bi off rem nw Hok Hbl Hnd Hbi Hoff Hrem Hn Hlen Hu Hnw Hul Hub; cbn [write_each_block].
  { assert (rem = 0) as -> by lia. exists fs. rewrite Z.add_0_r. rewrite slice_0, splice_nil. split_and!; try done; [|by destruct fs].
    intros v. apply (step_weaken _ _ [] _ []); [by apply step_refl|by intros b ?%elem_of_nil|done]. }
  destruct (Z.eqb_spec rem 0) as [->|Hne].
  { exists fs. rewrite Z.add_0_r. rewrite slice_0, splice_nil. split_and!; try done; [|by destruct fs].
    intros v. apply (step_weaken _ _ [] _ []); [by apply step_refl|by intros b ?%elem_of_nil|done]. }
  destruct (lookup_lt_is_Some_2 bl (Z.to_nat bi)) as [b Hb]; [nia|]. unfold load. rewrite (proj2 (Z.leb_le 0 bi)), Hb by lia. run.
  assert (own fs b) as Hown by (rewrite Forall_lookup in Hbl; by eapply Hbl).
  set (k := Z.min (block_size fs - off) rem). unfold size_t. rewrite (wrap_id u32 eq_refl k) by (rewrite in_type_u32; lia).
  destruct (fs_write_block_spec fs b (buffer_offset u nw) k off) as (fs1 & -> & Hs1 & Hc1 & Hr1);
    [done|done|lia|lia|lia|by apply no_fault_offset|cbn; rewrite length_drop; lia|by apply Forall_drop|].
  run. change (KSuccess <? 0) with false. cbn iota. change (take (Z.to_nat k) (u_bytes (buffer_offset u nw))) with (slice (u_bytes u) nw k) in Hc1.
  pose proof (Hs1 true) as Hst1. destruct (step_store _ _ _ _ _ Hst1) as [Hok1 Ebs].
  assert (length (slice (u_bytes u) nw k) = Z.to_nat k) as Hkl by (apply slice_length; lia).
  assert (bytes_of (base fs1) bl = splice (bytes_of (base fs) bl) (bi * block_size fs + off) (slice (u_bytes u) nw k)) as HB1.
  { apply (splice_bytes_of _ _ _ bi b); try done; [apply Hok|by apply own_all_valid|lia|unfold block_size in *; lia|].
    intros b' Hb' Hne'. apply (step_contents _ _ _ _ _ Hst1); [done|]. by rewrite list_elem_of_singleton. }
  rewrite <- Ebs in *. pose proof (bytes_of_length (base fs) bl (bitmaps_store _ (alloc_bitmaps _ Hok)) (own_all_valid _ _ Hok Hbl)) as Hbytes.
  change (store_block_size (base fs)) with (block_size fs) in Hbytes. rewrite <- Ebs in Hbytes.
  destruct (IH fs1 (bi + 1) 0 (rem - k) (nw + k)) as (fs2 & -> & Hs2 & HB2 & Hr2); try done; try lia.
  { apply Hst1. }
  { eapply Forall_impl; [exact Hbl|]. intros x. apply (step_own _ _ _ _ _ _ Hst1). }
  { destruct (Z.min_spec (block_size fs1 - off) rem); nia. }
  { apply lookup_lt_Some in Hb. destruct (Z.min_spec (block_size fs1 - off) rem); nia. }
  exists fs2. split; [do 2 f_equal; lia|]. split; [|split].
  - intros v. apply (step_weaken _ _ ([b] ++ bl) _ ([] ++ [])); [by apply (step_app _ fs1)| |done].
    intros x [Hx|Hx]%elem_of_app; [|done]. apply list_elem_of_singleton in Hx as ->. by eapply list_elem_of_lookup_2.
  - rewrite HB2, HB1. replace rem with (k + (rem - k)) at 2 by lia. rewrite (slice_split (u_bytes u)) by lia.
    destruct (decide (rem - k = 0)) as [->|Hmore].
    { by rewrite !slice_0, splice_nil, app_nil_r. }
    rewrite <- splice_splice.
    + f_equal. rewrite Hkl. subst k. lia.
    + nia.
    + rewrite Hkl, slice_length by lia. lia.
  - rewrite Hr2, Hr1. by destruct fs.
Qed.

(** ** Files *)

(** The inode lists the blocks [l], and its contents are the bytes [d]. *)
Record is_file fs inode (l d : list Z) : Prop := IsFile {
  file_inode : inode_ok fs inode l;
  file_size : Z.of_nat (length d) = inode_size_of fs inode;
  file_small : inode_size_of fs inode < 2 ^ 32 - 1;
  file_fields : is_u32 (i_size (m_raw_inode inode)) /\ is_u32 (i_dir_acl (m_raw_inode inode));
  file_data : take (length d) (bytes_of (base fs) l) = d
}.

Lemma lor_shiftl a b : 0 <= a -> 0 <= b < 2 ^ 32 -> Z.lor (Z.shiftl a 32) b = a * 2 ^ 32 + b.
Proof.
  intros Ha Hb. rewrite Z.shiftl_mul_pow2 by lia. rewrite <- Z.add_lor_land, Z.add_comm.
  assert (Z.land (a * 2 ^ 32) b = 0) as ->; [|lia]. apply Z.bits_inj'. intros n Hn. rewrite Z.land_spec, Z.bits_0.
  destruct (Z.lt_ge_cases n 32).
  - by rewrite Z.mul_pow2_bits_low by lia.
  - rewrite (Z.bits_above_log2 b n), andb_false_r; [done|lia|]. destruct (decide (b = 0)) as [->|]; [cbn; lia|]. apply Z.log2_lt_pow2; [lia|].
    apply Z.lt_le_trans with (2 ^ 32); [lia|]. apply Z.pow_le_mono_r; lia.
Qed.

Lemma size_value fs inode :
  is_u32 (i_size (m_raw_inode inode)) /\ is_u32 (i_dir_acl (m_raw_inode inode)) -> inode_size_of fs inode < 2 ^ 32 ->
  i_size (m_raw_inode inode) = inode_size_of fs inode.
Proof.
  unfold is_u32, inode_size_of. intros [H1 H2]. destruct (_ && _); [|done]. rewrite lor_shiftl by lia. nia.
Qed.

Lemma inode_ok_list fs inode l : inode_ok fs inode l -> inode_ok fs (inode <| m_block_list := l |>) l.
Proof. intros []. split; try done. by right. Qed.

(** Blocks of pointers that stay as they are. *)
Lemma pointers_step fs fs' inode W L v l (e := EXT2_ADDR_PER_BLOCK fs) (M := metas (base fs) e (pointers_of inode) (Z.of_nat (length l))) :
  step fs fs' W L v -> inode_ok fs inode l -> (forall b, b ∈ M -> b ∉ W) -> (v = true \/ forall b, b ∈ M -> b ∉ L) ->
  mapped (base fs') e (pointers_of inode) l /\ metas (base fs') e (pointers_of inode) (Z.of_nat (length l)) = M /\
  Forall (fun b => own fs' b /\ used fs' b = true) M.
Proof.
  intros Hs Hi HW HL. pose proof (inode_alloc _ _ _ Hi) as Hok. destruct (inode_ok_metas _ _ _ Hi) as [HM _].
  destruct (addr_per_block _ (alloc_geometry _ Hok)) as [_ He]. fold e in He, HM. set (n := Z.of_nat (length l)) in *. fold M in HM.
  assert (Forall (store_valid (base fs)) M) as Hv by (eapply Forall_impl; [exact HM|]; intros b [? _]; by apply own_valid).
  unfold M, metas in Hv, HW. apply Forall_app in Hv as [Hv1 Hv2].
  assert (forall b, b ∈ metas2 (base fs) e (dind_of (pointers_of inode)) (n2 e n) -> b ∉ W) as HW2 by (intros b Hb; apply HW, elem_of_app; by right).
  split; [|split].
  - destruct (inode_mapped _ _ _ Hi) as [Hd [H1 H2]]. split; [done|]. split.
    + intros k x Hk Hx. rewrite (step_ptr _ _ _ _ _ _ _ Hs); [by apply H1|..]; unfold metas1 in *; fold n e in Hk; rewrite (proj2 (Z.eqb_neq (n1 e n) 0)) in * by lia.
      * by rewrite Forall_singleton in Hv1.
      * apply HW. left.
    + intros k x Hk Hx. apply (pointed_kept _ _ _ _ _ e (dind_of (pointers_of inode)) (n2 e n) k x Hs); try done; [lia|]. by apply H2.
  - unfold M, metas. f_equal. by apply (metas2_kept _ _ _ _ _ _ _ _ Hs).
  - apply Forall_forall. intros b Hb. rewrite Forall_forall in HM. destruct (HM b Hb) as [Ho Hu]. split; [by apply (step_own _ _ _ _ _ _ Hs)|].
    rewrite (step_used _ _ _ _ _ Hs) by by eapply own_pos. case_bool_decide; [|done]. destruct HL as [->|HL]; [done|]. by destruct (HL b Hb).
Qed.

Lemma inode_ok_step fs fs' inode W L v l :
  step fs fs' W L v -> inode_ok fs inode l ->
  (forall b, b ∈ metas (base fs) (EXT2_ADDR_PER_BLOCK fs) (pointers_of inode) (Z.of_nat (length l)) -> b ∉ W) ->
  (v = true \/ forall b, b ∈ all_blocks fs inode l -> b ∉ L) ->
  inode_ok fs' inode l.
Proof.
  intros Hs Hi HW HL. pose proof (addr_geometry _ _ (step_geometry _ _ _ _ _ Hs)) as Ee.
  destruct (pointers_step _ _ _ _ _ _ _ Hs Hi HW) as (Hmap & EM & _).
  { destruct HL as [->|HL]; [by left|right]. intros b Hb. apply HL, elem_of_app. by right. }
  pose proof (geometry_fields _ _ (step_geometry _ _ _ _ _ Hs)) as (Ebs & _ & _ & _ & Eino & _).
  assert (all_blocks fs' inode l = all_blocks fs inode l) as Eall by (unfold all_blocks; by rewrite Ee, EM).
  split; rewrite ?Ee, ?Ebs, ?Eino, ?Eall, ?(geometry_size _ _ _ (step_geometry _ _ _ _ _ Hs)); try apply Hi; try done.
  - apply Hs.
  - apply Forall_forall. intros b Hb. pose proof (inode_blocks _ _ _ Hi) as Hall. rewrite Forall_forall in Hall. destruct (Hall b Hb) as [Ho Hu].
    split; [by apply (step_own _ _ _ _ _ _ Hs)|]. rewrite (step_used _ _ _ _ _ Hs) by by eapply own_pos. case_bool_decide; [|done].
    destruct HL as [->|HL]; [done|]. by destruct (HL b Hb).
Qed.

(** The inode but for the list in memory. *)
Definition same_but_list inode inode' : Prop := inode' = inode <| m_block_list := m_block_list inode' |>.

Lemma load_block_list_spec fs inode l :
  inode_ok fs inode l ->
  exists fs', load_block_list fs inode = Ret (fs', inode <| m_block_list := l |>) /\ (forall v, step fs fs' [] [] v) /\ fs' = fs <| base := base fs' |>.
Proof.
  intros Hi. unfold load_block_list. destruct (m_block_list inode) as [|b bl] eqn:Hl.
  - destruct (inode_compute _ _ _ Hi) as (fs' & -> & Hs & Hr). run. by exists fs'.
  - exists fs. split; [|split; [intros v; by apply step_refl, Hi|by destruct fs]]. destruct (inode_list _ _ _ Hi) as [He|He]; [by rewrite Hl in He|].
    rewrite <- He. by destruct inode.
Qed.

Lemma inode_read fs fs' inode l :
  inode_ok fs inode l -> (forall v, step fs fs' [] [] v) -> inode_ok fs' inode l /\ bytes_of (base fs') l = bytes_of (base fs) l.
Proof.
  intros Hi Hs. split.
  - eapply inode_ok_step; [exact (Hs true)|done|intros; apply not_elem_of_nil|by left].
  - apply (step_bytes_of _ _ _ _ _ _ (Hs true)); [|intros; apply not_elem_of_nil]. apply own_all_valid; [apply Hi|].
    pose proof (inode_blocks _ _ _ Hi) as Hb. apply Forall_app in Hb as [Hb _]. eapply Forall_impl; [exact Hb|]. by intros b [? _].
Qed.

Lemma is_file_read fs fs' inode l d : is_file fs inode l d -> (forall v, step fs fs' [] [] v) -> is_file fs' (inode <| m_block_list := l |>) l d.
Proof.
  intros [Hi Hsz Hsm Hf Hd] Hs. destruct (inode_read _ _ _ _ Hi Hs) as [Hi' HB].
  assert (inode_size_of fs' (inode <| m_block_list := l |>) = inode_size_of fs inode) as Es.
  { rewrite (geometry_size _ _ _ (step_geometry _ _ _ _ _ (Hs true))). done. }
  split; rewrite ?Es, ?HB; try done. by apply inode_ok_list.
Qed.

(** The blocks of data. *)
Lemma inode_data fs inode l : inode_ok fs inode l -> Forall (own fs) l /\ NoDup l.
Proof.
  intros Hi. pose proof (inode_blocks _ _ _ Hi) as Hb. pose proof (inode_distinct _ _ _ Hi) as Hd. unfold all_blocks in *.
  apply Forall_app in Hb as [Hb _]. split; [|by apply NoDup_app in Hd as (? & _ & _)]. eapply Forall_impl; [exact Hb|]. by intros b [? _].
Qed.

Lemma inode_bytes_length fs inode l : inode_ok fs inode l -> Z.of_nat (length (bytes_of (base fs) l)) = Z.of_nat (length l) * block_size fs.
Proof.
  intros Hi. destruct (inode_data _ _ _ Hi) as [Ho _]. apply bytes_of_length; [apply Hi|]. by apply own_all_valid; [apply Hi|].
Qed.

(** The size fits into the blocks, but not into one block less. *)
Lemma inode_length_bound fs inode l :
  inode_ok fs inode l -> 0 <= inode_size_of fs inode ->
  inode_size_of fs inode <= Z.of_nat (length l) * block_size fs < inode_size_of fs inode + block_size fs.
Proof.
  intros Hi H0. destruct (addr_per_block _ (alloc_geometry _ (inode_alloc _ _ _ Hi))). rewrite (inode_length _ _ _ Hi), ceil_div_up by lia.
  apply up_spec; lia.
Qed.

(** The last block of an access does not cut it short. *)
Lemma last_block_enough inode offset count bs rem :
  0 < bs -> 0 <= offset -> 0 <= count -> offset + count < 2 ^ 62 -> 0 <= rem <= count -> 0 < Z.of_nat (length (m_block_list inode)) ->
  offset + rem <= Z.of_nat (length (m_block_list inode)) * bs ->
  offset / bs * bs + offset mod bs + rem <=
    (offset / bs + Z.of_nat (Z.to_nat (last_block_logical_index inode offset count bs - offset / bs + 1))) * bs.
Proof.
  intros Hbs Ho Hc Hoc Hrem Hl Hlen. pose proof (Z.div_mod offset bs ltac:(lia)) as Hdm. pose proof (Z.mod_pos_bound offset bs Hbs) as Hm.
  unfold last_block_logical_index. rewrite Z.quot_div_nonneg by lia. assert (0 <= (offset + count) / bs) by (apply Z.div_pos; lia).
  assert ((offset + count) / bs <= offset + count) by (apply Z.div_le_upper_bound; nia).
  rewrite (wrap_id u64 eq_refl) by (rewrite in_type_u64; lia).
  assert (offset / bs <= (offset + count) / bs) as Hle by (apply Z.div_le_mono; lia).
  pose proof (Z.mul_succ_div_gt (offset + count) bs Hbs) as Hgt. destruct (Z.leb_spec (Z.of_nat (length (m_block_list inode))) ((offset + count) / bs)).
  - destruct (Z.le_gt_cases (offset / bs) (Z.of_nat (length (m_block_list inode)) - 1)); [rewrite Z2Nat.id by lia; nia|].
    assert (rem = 0 /\ offset mod bs = 0) as [-> ->] by nia. nia.
  - rewrite Z2Nat.id by lia. nia.
Qed.

Lemma match_nonempty {A B} (l : list A) (x y : B) : (0 < length l)%nat -> match l with [] => x | _ => y end = y.
Proof. by destruct l; cbn; [lia|]. Qed.

Lemma read_bytes_spec fs inode l d offset count u (r := take (Z.to_nat count) (drop (Z.to_nat offset) d)) :
  is_file fs inode l d -> 0 <= offset -> 0 <= count < 2 ^ 31 -> no_fault u ->
  exists fs' inode', read_bytes fs inode offset count u false = Ret (Z.of_nat (length r), r, fs', inode') /\ (forall v, step fs fs' [] [] v) /\
    is_file fs' inode' l d /\ same_but_list inode inode' /\ fs' = fs <| base := base fs' |>.
Proof.
  intros Hf Ho Hc Hu. pose proof (file_inode _ _ _ _ Hf) as Hi. pose proof (inode_alloc _ _ _ Hi) as Hok.
  pose proof (file_size _ _ _ _ Hf) as Hsz. pose proof (file_small _ _ _ _ Hf) as Hsm.
  pose proof (size_value fs inode (file_fields _ _ _ _ Hf) ltac:(lia)) as Hisz. destruct (addr_per_block _ (alloc_geometry _ Hok)) as [Hbs He].
  unfold read_bytes. rewrite (VERIFY_true (0 <=? offset)) by lia. run. rewrite Hisz, <- Hsz, (inode_type _ _ _ Hi). cbn [andb].
  assert (Z.of_nat (length d) <= offset -> r = []) as Hend by (intros; unfold r; by rewrite drop_ge, take_nil by lia).
  destruct (Z.eqb_spec (Z.of_nat (length d)) 0) as [H0|H0]; [|destruct (Z.leb_spec (Z.of_nat (length d)) offset) as [H1|H1]].
  1, 2: rewrite Hend by lia; exists fs, inode; split; [done|]; split; [intros v; by apply step_refl|]; split; [done|]; split; [by destruct inode|by destruct fs].
  destruct (load_block_list_spec fs inode l Hi) as (fs1 & -> & Hs1 & Hr1). run. set (inode1 := inode <| m_block_list := l |>).
  change (m_block_list inode1) with l. pose proof (inode_length_bound _ _ _ Hi ltac:(lia)) as Hlb. rewrite <- Hsz in Hlb.
  assert (0 < Z.of_nat (length l)) as Hl0 by (destruct l; cbn in *; lia). rewrite match_nonempty by lia.
  pose proof (is_file_read _ _ _ _ _ Hf Hs1) as Hf1. destruct (inode_read _ _ _ _ Hi Hs1) as [Hi1 HB1]. destruct (inode_data _ _ _ Hi1) as [Ho1 _].
  destruct (step_store _ _ _ _ _ (Hs1 true)) as [_ Ebs]. rewrite Ebs.
  assert (inode_size_of fs1 inode1 = Z.of_nat (length d)) as -> by (symmetry; apply Hf1).
  rewrite Z.quot_div_nonneg, Z.rem_mod_nonneg by lia. set (rem := Z.min count (Z.of_nat (length d) - offset)).
  assert (0 < block_size fs) as Hbs0 by lia. pose proof (Z.div_mod offset (block_size fs)) as Hdm. pose proof (Z.mod_pos_bound offset (block_size fs) Hbs0) as Hm.
  specialize (Hdm ltac:(lia)). assert (0 <= offset / block_size fs) as Hq by (apply Z.div_pos; lia).
  set (m := Z.to_nat (last_block_logical_index _ _ _ _ - _ + 1)). cbn [negb].
  destruct (read_each_block_spec m fs1 l (offset / block_size fs) (offset mod block_size fs) rem 0 u []) as (fs2 & -> & Hs2 & Hr2);
    [apply Hi1|done|done|rewrite Ebs; lia|lia|rewrite Ebs; apply (last_block_enough inode1); change (m_block_list inode1) with l; lia|rewrite Ebs; lia|done|].
  run. cbn [app]. rewrite HB1, Ebs. assert (slice (bytes_of (base fs) l) (offset / block_size fs * block_size fs + offset mod block_size fs) rem = r) as ->.
  { replace (_ + offset mod _) with offset by lia. unfold r, slice.
    transitivity (take (Z.to_nat count) (drop (Z.to_nat offset) (take (length d) (bytes_of (base fs) l)))); [|by rewrite (file_data _ _ _ _ Hf)].
    rewrite skipn_firstn_comm, take_take. f_equal. lia. }
  exists fs2, inode1. split; [do 4 f_equal; unfold r; rewrite length_take, length_drop; lia|]. split; [|split; [|split]].
  - intros v. apply (step_app _ _ _ [] [] [] [] _ (Hs1 v) (Hs2 v)).
  - pose proof (is_file_read _ _ _ _ _ Hf1 Hs2) as Hf2. exact Hf2.
  - done.
  - rewrite Hr2, Hr1. by destruct fs.
Qed.

(** ** Writing *)

(** What [write_bytes] and [resize] leave alone. *)
Definition same_identity inode inode' : Prop :=
  m_index inode' = m_index inode /\ m_lookup_cache inode' = m_lookup_cache inode /\
  Z.land (i_mode (m_raw_inode inode')) S_IFMT = Z.land (i_mode (m_raw_inode inode)) S_IFMT /\
  i_links_count (m_raw_inode inode') = i_links_count (m_raw_inode inode) /\
  i_uid (m_raw_inode inode') = i_uid (m_raw_inode inode) /\ i_gid (m_raw_inode inode') = i_gid (m_raw_inode inode).

Lemma same_identity_refl inode : same_identity inode inode.
Proof. by unfold same_identity. Qed.

Lemma same_identity_trans inode1 inode2 inode3 : same_identity inode1 inode2 -> same_identity inode2 inode3 -> same_identity inode1 inode3.
Proof. unfold same_identity. intros (? & ? & ? & ? & ? & ?) (? & ? & ? & ? & ? & ?). split_and!; congruence. Qed.

(** An inode in another state with the same pointers, type and size. *)
Lemma is_file_same fs inode inode' l d :
  is_file fs inode l d -> pointers_of inode' = pointers_of inode -> m_index inode' = m_index inode ->
  Z.land (i_mode (m_raw_inode inode')) S_IFMT = Z.land (i_mode (m_raw_inode inode)) S_IFMT ->
  i_size (m_raw_inode inode') = i_size (m_raw_inode inode) -> i_dir_acl (m_raw_inode inode') = i_dir_acl (m_raw_inode inode) ->
  (m_block_list inode' = [] \/ m_block_list inode' = l) -> is_file fs inode' l d.
Proof.
  intros [Hi Hsz Hsm Hf Hd] Ep Ei Em Es Ea Hl. assert (inode_size_of fs inode' = inode_size_of fs inode) as Esz.
  { unfold inode_size_of, is_regular_file. by rewrite Em, Es, Ea. }
  split; rewrite ?Esz, ?Es, ?Ea; try done. destruct Hi. split; unfold all_blocks in *; rewrite ?Ep, ?Ei, ?Esz; try done.
  unfold is_symlink in *. by rewrite Em.
Qed.

Lemma strip_mode mode : Z.land (Z.land mode (Z.lnot (Z.lor S_ISUID S_ISGID))) S_IFMT = Z.land mode S_IFMT.
Proof. rewrite <- Z.land_assoc. f_equal. Qed.

Lemma prepare_to_write_data_spec fs inode l d :
  is_file fs inode l d -> m_readonly fs = false ->
  exists inode', prepare_to_write_data fs inode = Ret (KSuccess, inode') /\ is_file fs inode' l d /\ same_identity inode inode' /\
    inode_size_of fs inode' = inode_size_of fs inode /\ m_block_list inode' = m_block_list inode /\ pointers_of inode' = pointers_of inode.
Proof.
  intros Hf Hr. unfold prepare_to_write_data, chmod. rewrite Hr. pose proof (file_inode _ _ _ _ Hf) as Hi.
  destruct (_ || _); [|by exists inode; split_and!]. destruct (_ =? _); [by exists inode; split_and!|].
  destruct (set_metadata_dirty_spec fs (update_raw inode (fun r => r <| i_mode := Z.land (i_mode (m_raw_inode inode)) (Z.lnot (Z.lor S_ISUID S_ISGID)) |>)) true Hr)
    as (inode' & -> & ->). run. eexists. split; [done|].
  match goal with |- is_file _ ?i _ _ /\ _ => set (inode' := i) end.
  assert (Z.land (i_mode (m_raw_inode inode')) S_IFMT = Z.land (i_mode (m_raw_inode inode)) S_IFMT) as Em by apply strip_mode.
  split_and!; try done; [apply (is_file_same fs inode); try done; apply Hi|]. unfold inode_size_of, is_regular_file. by rewrite Em.
Qed.

Lemma write_data_spec fs inode l d offset count new_size u :
  is_file fs inode l d -> 0 <= offset -> 0 < count < 2 ^ 31 -> offset + count <= Z.of_nat (length d) -> new_size = Z.of_nat (length d) ->
  no_fault u -> count <= Z.of_nat (length (u_bytes u)) -> is_bytes (u_bytes u) ->
  exists fs' inode', write_data fs inode offset count new_size u false = Ret (count, fs', inode') /\
    is_file fs' inode' l (splice d offset (take (Z.to_nat count) (u_bytes u))) /\ (forall v, step fs fs' l [] v) /\
    same_but_list inode inode' /\ fs' = fs <| base := base fs' |>.
Proof.
  intros Hf Ho Hc Hoc -> Hu Hul Hub. pose proof (file_inode _ _ _ _ Hf) as Hi. pose proof (inode_alloc _ _ _ Hi) as Hok.
  pose proof (file_size _ _ _ _ Hf) as Hsz. pose proof (file_small _ _ _ _ Hf) as Hsm. destruct (addr_per_block _ (alloc_geometry _ Hok)) as [Hbs He].
  unfold write_data. destruct (load_block_list_spec fs inode l Hi) as (fs1 & -> & Hs1 & Hr1). run. set (inode1 := inode <| m_block_list := l |>).
  change (m_block_list inode1) with l. pose proof (inode_length_bound _ _ _ Hi ltac:(lia)) as Hlb. rewrite <- Hsz in Hlb.
  assert (0 < Z.of_nat (length l)) as Hl0 by (destruct l; cbn in *; lia). rewrite match_nonempty by lia.
  pose proof (is_file_read _ _ _ _ _ Hf Hs1) as Hf1. destruct (inode_read _ _ _ _ Hi Hs1) as [Hi1 HB1]. destruct (inode_data _ _ _ Hi1) as [Ho1 Hnd1].
  destruct (step_store _ _ _ _ _ (Hs1 true)) as [_ Ebs]. rewrite Ebs.
  rewrite Z.quot_div_nonneg, Z.rem_mod_nonneg by lia. rewrite (wrap_id i64 eq_refl) by int_lia. rewrite Z.min_l by lia.
  assert (0 < block_size fs) as Hbs0 by lia. pose proof (Z.div_mod offset (block_size fs)) as Hdm. pose proof (Z.mod_pos_bound offset (block_size fs) Hbs0) as Hm.
  specialize (Hdm ltac:(lia)). assert (0 <= offset / block_size fs) as Hq by (apply Z.div_pos; lia).
  set (m := Z.to_nat (last_block_logical_index _ _ _ _ - _ + 1)). cbn [negb].
  destruct (write_each_block_spec m fs1 l (offset / block_size fs) (offset mod block_size fs) count 0 u) as (fs2 & -> & Hs2 & HB2 & Hr2);
    [apply Hi1|done|done|done|rewrite Ebs; lia|lia|rewrite Ebs; apply (last_block_enough inode1); change (m_block_list inode1) with l; lia|
     rewrite Ebs; lia|done|lia|lia|done|].
  run. rewrite HB1, Ebs in HB2. replace (offset / _ * _ + offset mod _) with offset in HB2 by lia. change (slice (u_bytes u) 0 count) with (take (Z.to_nat count) (u_bytes u)) in HB2.
  set (xs := take (Z.to_nat count) (u_bytes u)) in *. assert (Z.of_nat (length xs) = count) as Hxs by (unfold xs; rewrite length_take; lia).
  exists fs2, inode1. split; [done|]. split; [|split; [|split]].
  - pose proof (file_inode _ _ _ _ Hf1) as Hi1'. assert (inode_ok fs2 inode1 l) as Hi2.
    { apply (inode_ok_step fs1 fs2 inode1 l [] true l (Hs2 true) Hi1'); [|by left].
      intros b Hb Hb'. pose proof (inode_distinct _ _ _ Hi1') as Hd. unfold all_blocks in Hd. apply NoDup_app in Hd as (_ & Hd & _). by apply (Hd b). }
    assert (inode_size_of fs2 inode1 = inode_size_of fs inode) as Esz.
    { rewrite (geometry_size _ _ _ (step_geometry _ _ _ _ _ (Hs2 true))), (geometry_size _ _ _ (step_geometry _ _ _ _ _ (Hs1 true))). done. }
    split; rewrite ?Esz; try done.
    + rewrite splice_length by lia. done.
    + apply Hf.
    + rewrite HB2, splice_length by lia. pose proof (inode_bytes_length _ _ _ Hi) as Hbl. apply list_eq. intros i.
      destruct (decide (i < length d)%nat) as [Hlt|Hge].
      * rewrite lookup_take_lt by done. rewrite !splice_lookup by lia. case_decide; [done|].
        transitivity (take (length d) (bytes_of (base fs) l) !! i); [by rewrite lookup_take_lt|by rewrite (file_data _ _ _ _ Hf)].
      * rewrite !lookup_ge_None_2; [done|..]; [rewrite splice_length by lia; lia|rewrite length_take; lia].
  - intros v. apply (step_app _ _ _ [] _ [] [] _ (Hs1 v) (Hs2 v)).
  - done.
  - rewrite Hr2, Hr1. by destruct fs.
Qed.

(** A write that does not make the file larger. *)
Lemma write_in_place rz fs inode l d offset count u :
  is_file fs inode l d -> m_readonly fs = false -> (forall fs inode, rz fs inode (inode_size_of fs inode) = Ret (KSuccess, fs, inode)) ->
  0 <= offset -> 0 < count < 2 ^ 31 -> offset + count <= Z.of_nat (length d) ->
  no_fault u -> count <= Z.of_nat (length (u_bytes u)) -> is_bytes (u_bytes u) ->
  exists fs' inode', write_bytes_with rz fs inode offset count u false = Ret (count, fs', inode') /\
    is_file fs' inode' l (splice d offset (take (Z.to_nat count) (u_bytes u))) /\ (forall v, step fs fs' l [] v) /\
    same_identity inode inode' /\ pointers_of inode' = pointers_of inode /\ fs' = fs <| base := base fs' |>.
Proof.
  intros Hf Hr Hrz Ho Hc Hoc Hu Hul Hub. unfold write_bytes_with. rewrite (VERIFY_true (0 <=? offset)), (VERIFY_true (0 <=? count)) by lia. run.
  destruct (prepare_to_write_data_spec fs inode l d Hf Hr) as (inode0 & -> & Hf0 & Hid0 & Esz & _ & Ep0). run. change (KSuccess <? 0) with false. cbn iota.
  rewrite (inode_type _ _ _ (file_inode _ _ _ _ Hf0)). cbn [negb orb andb VERIFY]. run. pose proof (file_size _ _ _ _ Hf0) as Hsz. pose proof (file_small _ _ _ _ Hf0) as Hsm.
  rewrite (wrap_id u64 eq_refl) by (rewrite in_type_u64; lia). rewrite Z.max_r by lia. rewrite Hrz. run. change (KSuccess <? 0) with false. cbn iota.
  destruct (write_data_spec fs inode0 l d offset count (inode_size_of fs inode0) u) as (fs' & inode' & -> & Hf' & Hs & Hl & Hrr); try done.
  exists fs', inode'. split_and!; try done; [|by rewrite Hl]. eapply same_identity_trans; [exact Hid0|]. rewrite Hl. by unfold same_identity.
Qed.

Lemma zero_buffer : no_fault (for_kernel_buffer (replicate (Z.to_nat PAGE_SIZE) 0)) /\ is_bytes (replicate (Z.to_nat PAGE_SIZE) 0).
Proof. split; [done|]. apply Forall_replicate. int_lia. Qed.

Lemma clear_bytes_spec rz fuel fs inode l d from n :
  is_file fs inode l d -> m_readonly fs = false -> (forall fs inode, rz fs inode (inode_size_of fs inode) = Ret (KSuccess, fs, inode)) ->
  0 <= from -> 0 <= n <= Z.of_nat fuel * PAGE_SIZE -> from + n <= Z.of_nat (length d) ->
  exists fs' inode', clear_bytes (write_bytes_with rz) fuel fs inode from n = Ret (KSuccess, fs', inode') /\
    is_file fs' inode' l (splice d from (replicate (Z.to_nat n) 0)) /\ (forall v, step fs fs' l [] v) /\ same_identity inode inode' /\
    pointers_of inode' = pointers_of inode.
Proof.
  revert fs inode d from n. induction fuel as [|fuel IH]; intros fs inode d from n Hf Hr Hrz Hfrom Hn Hlen; cbn [clear_bytes].
  all: destruct (Z.eqb_spec n 0) as [->|Hne]; try lia.
  1, 2: exists fs, inode; change (replicate (Z.to_nat 0) 0) with (@nil Z); rewrite splice_nil; split; [done|]; split; [done|];
    split; [intros v; apply (step_weaken _ _ [] _ []); [apply step_refl, Hf|by intros b ?%elem_of_nil|done]|split; [apply same_identity_refl|done]].
  set (k := Z.min PAGE_SIZE n). destruct zero_buffer as [Hz1 Hz2].
  destruct (write_in_place rz fs inode l d from k (for_kernel_buffer (replicate (Z.to_nat PAGE_SIZE) 0))) as (fs1 & inode1 & -> & Hf1 & Hs1 & Hid1 & Ep1 & Hr1);
    try done; unfold PAGE_SIZE in *; try lia.
  { cbn [u_bytes for_kernel_buffer]. rewrite length_replicate. lia. }
  run. rewrite (proj2 (Z.ltb_ge k 0)) by lia. rewrite (VERIFY_true (negb _)) by (apply negb_true_iff, Z.eqb_neq; lia). run.
  cbn [u_bytes for_kernel_buffer] in Hf1. rewrite take_replicate in Hf1. replace (Nat.min _ _) with (Z.to_nat k) in Hf1 by lia.
  destruct (IH fs1 inode1 (splice d from (replicate (Z.to_nat k) 0)) (from + k) (n - k)) as (fs2 & inode2 & -> & Hf2 & Hs2 & Hid2 & Ep2); try done; try lia.
  { by rewrite Hr1. }
  { rewrite splice_length; rewrite ?length_replicate; lia. }
  exists fs2, inode2. split; [done|]. split; [|split; [|split; [by eapply same_identity_trans|congruence]]].
  - assert (replicate (Z.to_nat n) 0 = replicate (Z.to_nat k) 0 ++ replicate (Z.to_nat (n - k)) 0) as ->.
    { rewrite <- replicate_add. f_equal. lia. }
    rewrite <- splice_splice by (rewrite ?length_replicate; lia). rewrite length_replicate, Z2Nat.id by lia. done.
  - intros v. apply (step_weaken _ _ (l ++ l) _ ([] ++ [])); [by apply (step_app _ fs1)| |done]. by intros b [?|?]%elem_of_app.
Qed.

(** ** Blocks for a new size *)

Lemma free_last_blocks_spec fuel fs bl n :
  alloc_ok fs -> Forall (fun b => own fs b /\ used fs b = true) bl -> NoDup bl -> 0 <= n <= Z.of_nat (length bl) ->
  Z.of_nat (length bl) - n <= Z.of_nat fuel ->
  exists fs' freed, free_last_blocks fuel fs bl n = Ret (KSuccess, fs', take (Z.to_nat n) bl) /\ step fs fs' [] freed false /\
    freed ≡ₚ drop (Z.to_nat n) bl.
Proof.
  revert fs bl. induction fuel as [|fuel IH]; intros fs bl Hok Hbl Hnd Hn Hfuel; cbn [free_last_blocks].
  all: destruct (Z.eqb_spec (Z.of_nat (length bl)) n) as [<-|Hne]; try lia.
  1, 2: exists fs, []; rewrite Nat2Z.id, firstn_all, drop_all; split; [done|]; split; [by apply step_refl|done].
  destruct bl as [|b bl _] using rev_ind; [cbn in *; lia|]. unfold take_last. rewrite last_snoc. run. rewrite length_app in *. cbn [length] in *.
  replace (length bl + 1 - 1)%nat with (length bl) by lia. rewrite take_app_length. apply Forall_app in Hbl as [Hbl Hb]. rewrite Forall_singleton in Hb.
  destruct Hb as [Ho Hu]. rewrite (proj2 (Z.eqb_neq b 0)) by by eapply own_nonzero. cbn [negb].
  destruct (free_block_spec fs b) as (fs1 & -> & Hs1); [done..|]. run. change (KSuccess <? 0) with false. cbn iota.
  apply NoDup_app in Hnd as (Hnd & Hdis & _).
  destruct (IH fs1 bl) as (fs2 & freed & -> & Hs2 & Hfr); try done; try lia.
  { apply Hs1. }
  { apply Forall_forall. intros x Hx. rewrite Forall_forall in Hbl. destruct (Hbl x Hx) as [Hxo Hxu]. split; [by apply (step_own _ _ _ _ _ _ Hs1)|].
    apply (step_still_used _ _ _ _ _ Hs1); try done. intros Hin. by apply (Hdis x). }
  exists fs2, ([b] ++ freed). rewrite take_app_le, drop_app_le by lia. split; [done|]. split; [apply (step_app _ _ _ [] [] _ _ _ Hs1 Hs2)|].
  rewrite Hfr. apply Permutation_app_comm.
Qed.

(** The new list, and the blocks [c] that have been allocated or freed for it. *)
Lemma resize_block_list_spec fs inode l n' (n := Z.of_nat (length l)) :
  inode_ok fs inode l -> 0 <= n' < 2 ^ 31 -> n' - n <= s_free_blocks_count (m_super_block fs) ->
  exists fs' l' c, resize_block_list fs inode n n' = Ret (KSuccess, fs', inode <| m_block_list := l' |>) /\ Z.of_nat (length l') = n' /\
    step fs fs' [] c (n <=? n') /\ NoDup c /\
    (if n <=? n' then l' = l ++ c /\ Forall (fun b => own fs b /\ used fs b = false) c
     else l' = take (Z.to_nat n') l /\ c ≡ₚ drop (Z.to_nat n') l).
Proof.
  intros Hi Hn' Hfree. unfold resize_block_list. destruct (load_block_list_spec fs inode l Hi) as (fs1 & -> & Hs1 & Hr1). run.
  pose proof (Hs1 true) as Hst. pose proof (inode_alloc _ _ _ Hi) as Hok. assert (s_free_blocks_count (m_super_block fs1) = s_free_blocks_count (m_super_block fs)) as Efree.
  { rewrite (step_free _ _ _ _ _ Hst). cbn. lia. }
  destruct (inode_read _ _ _ _ Hi Hs1) as [Hi1 _].
  destruct (Z.ltb_spec n n') as [Hlt|Hge].
  - unfold size_t. rewrite (wrap_id u32 eq_refl) by (rewrite in_type_u32; lia).
    destruct (allocate_blocks_spec fs1 (group_index_from_inode fs1 (m_index inode)) (n' - n)) as (fs2 & c & Heq & Hl & Hnd & Hc & Hs2);
      [apply Hi1|apply group_index_from_inode_spec; [apply Hi1|apply (inode_index _ _ _ Hi1)]|lia|].
    change (m_index (inode <| m_block_list := l |>)) with (m_index inode). rewrite Heq. run. rewrite (proj2 (Z.leb_le n n')) by lia.
    exists fs2, (l ++ c), c. split; [done|]. split; [rewrite length_app; lia|]. split; [|split; [done|split; [done|]]].
    + apply (step_app _ _ _ [] [] [] c _ (Hs1 true)). by apply blocks_set_step.
    + apply Forall_forall. intros b Hb. destruct (Hc b Hb) as [Hp Hu]. assert (own fs1 b) as Ho.
      { split; [done|]. intros Hres. rewrite (alloc_reserved _ (inode_alloc _ _ _ Hi1) b Hres) in Hu. done. }
      split; [by apply (step_own _ _ _ _ _ _ Hst)|]. rewrite (step_used _ _ _ _ _ Hst) in Hu by by eapply own_pos. done.
  - destruct (Z.ltb_spec n' n) as [Hlt|Hge'].
    + change (m_block_list (inode <| m_block_list := l |>)) with l. pose proof (inode_blocks _ _ _ Hi1) as Hb. apply Forall_app in Hb as [Hb _].
      destruct (inode_data _ _ _ Hi1) as [_ Hnd].
      destruct (free_last_blocks_spec (length l) fs1 l n') as (fs2 & c & -> & Hs2 & Hc); [apply Hi1|done|done|lia|lia|]. run.
      rewrite (proj2 (Z.leb_gt n n')) by lia. exists fs2, (take (Z.to_nat n') l), c. split; [done|]. split; [rewrite length_take; lia|].
      split; [apply (step_app _ _ _ [] [] [] c _ (Hs1 false) Hs2)|]. split; [|done]. rewrite Hc. rewrite <- (take_drop (Z.to_nat n') l) in Hnd.
      by apply NoDup_app in Hnd as (_ & _ & ?).
    + assert (n' = n) as -> by lia. rewrite Z.leb_refl. exists fs1, l, []. split; [done|]. split; [done|]. split; [apply Hs1|]. split; [apply NoDup_nil_2|].
      by rewrite app_nil_r.
Qed.

(** The blocks of an inode, with those of pointers, were [A] and are [A']: only [W] is written to,
    and [lost] are neither freed nor in use. *)
Definition resized fs fs' (W A A' lost : list Z) (grow : bool) : Prop :=
  exists L, step fs fs' W L grow /\
    (if grow then A' ≡ₚ A ++ L /\ NoDup L /\ Forall (fun b => own fs b /\ used fs b = false) L else A ≡ₚ A' ++ lost ++ L).

Lemma used_unused_disjoint fs A L :
  Forall (fun b => own fs b /\ used fs b = true) A -> Forall (fun b => own fs b /\ used fs b = false) L -> forall b, b ∈ A -> b ∉ L.
Proof. rewrite !Forall_forall. intros HA HL b Hb Hb'. destruct (HA b Hb), (HL b Hb'). congruence. Qed.

Lemma resized_ok fs fs' W A A' lost grow :
  resized fs fs' W A A' lost grow -> Forall (fun b => own fs b /\ used fs b = true) A -> NoDup A ->
  Forall (fun b => own fs' b /\ used fs' b = true) A' /\ NoDup A'.
Proof.
  intros (L & Hs & HL) HA Hnd. assert (forall b, own fs b -> used fs' b = if bool_decide (b ∈ L) then grow else used fs b) as Hus.
  { intros b Hb. apply (step_used _ _ _ _ _ Hs). by eapply own_pos. }
  assert (forall b, own fs' b <-> own fs b) as Hown by (intros b; by apply (step_own _ _ _ _ _ _ Hs)). destruct grow.
  - destruct HL as (HA' & HndL & HL). split; rewrite HA'.
    + rewrite Forall_forall in HA, HL. apply Forall_forall. intros b Hb. assert (own fs b) as Ho by (apply elem_of_app in Hb as [Hb|Hb]; [by apply HA|by apply HL]).
      split; [by apply Hown|]. rewrite Hus by done. case_bool_decide; [done|]. apply elem_of_app in Hb as [Hb|Hb]; [by apply HA|done].
    + apply NoDup_app. split; [done|]. split; [by eapply used_unused_disjoint|done].
  - rewrite HL in HA, Hnd. apply Forall_app in HA as [HA _]. apply NoDup_app in Hnd as (Hnd & Hdis & _). split; [|done].
    rewrite Forall_forall in HA |- *. intros b Hb. destruct (HA b Hb) as [Ho Hu]. split; [by apply Hown|]. rewrite Hus by done.
    rewrite bool_decide_false; [done|]. intros Hb'. apply (Hdis b Hb), elem_of_app. by right.
Qed.

Lemma app_exchange {A} (a b c d : list A) : (a ++ b) ++ c ++ d ≡ₚ (a ++ c) ++ b ++ d.
Proof. rewrite <- !app_assoc. f_equiv. rewrite !app_assoc. f_equiv. apply Permutation_app_comm. Qed.

(** [flush_block_list] once the list is [l'] and [c] has been allocated or freed. *)
Lemma flush_resized fs fs1 inode l l' c (e := EXT2_ADDR_PER_BLOCK fs) (n := Z.of_nat (length l)) (n' := Z.of_nat (length l')) :
  inode_ok fs inode l -> m_readonly fs = false -> 0 < n' <= doubly_limit e -> step fs fs1 [] c (n <=? n') -> NoDup c ->
  (if n <=? n' then l' = l ++ c /\ Forall (fun b => own fs b /\ used fs b = false) c else l' = take (length l') l /\ c ≡ₚ drop (length l') l) ->
  n_meta e n' - n_meta e n <= s_free_blocks_count (m_super_block fs1) ->
  exists fs2 inode2, flush_block_list fs1 (inode <| m_block_list := l' |>) = Ret (KSuccess, fs2, inode2) /\
    same_file (inode <| m_block_list := l' |>) inode2 /\ length (pointers_of inode2) = Z.to_nat EXT2_N_BLOCKS /\
    mapped (base fs2) e (pointers_of inode2) l' /\ resized fs fs2 (metas (base fs2) e (pointers_of inode2) n') (all_blocks fs inode l) (all_blocks fs2 inode2 l') [] (n <=? n').
Proof.
  intros Hi Hr Hn' Hs1 Hndc Hc Hfree. pose proof (inode_alloc _ _ _ Hi) as Hok. pose proof (inode_distinct _ _ _ Hi) as Hdis.
  unfold all_blocks in Hdis. fold n e in Hdis. set (M := metas (base fs) e (pointers_of inode) n) in *. apply NoDup_app in Hdis as (Hndl & Hdis & HndM).
  assert (forall b, b ∈ l -> own fs b) as Howl by (apply Forall_forall, (inode_data _ _ _ Hi)).
  pose proof (addr_geometry _ _ (step_geometry _ _ _ _ _ Hs1)) as Ee. fold e in Ee.
  destruct (pointers_step _ _ _ _ _ _ _ Hs1 Hi) as (Hmap & EM & HM); [by intros b _ ?%elem_of_nil| |].
  { fold n e. destruct (n <=? n'); [by left|right]. intros b Hb. destruct Hc as [_ ->]. intros Hb'. apply (Hdis b); [|done].
    rewrite <- (take_drop (length l') l). apply elem_of_app. by right. }
  fold n e M in EM, HM, Hmap. assert (forall b, b ∈ l' -> own fs b) as Hol'.
  { intros b Hb. destruct (n <=? n'); destruct Hc as [Hl' Hc]; rewrite Hl' in Hb.
    - apply elem_of_app in Hb as [Hb|Hb]; [by apply Howl|]. rewrite Forall_forall in Hc. by apply Hc.
    - apply Howl. rewrite <- (take_drop (length l') l). apply elem_of_app. by left. }
  destruct (flush_block_list_spec fs1 (inode <| m_block_list := l' |>) l)
    as (fs2 & inode2 & taken & freed & Heq & Hsame & Hlen & Hmap2 & Hperm & Htaken & Hndt & Hstep); rewrite ?Ee; fold n; try done.
  { apply Hs1. }
  { by rewrite (geometry_readonly _ _ (step_geometry _ _ _ _ _ Hs1)). }
  { apply Hi. }
  { destruct (geometry_fields _ _ (step_geometry _ _ _ _ _ Hs1)) as (_ & _ & _ & _ & -> & _). apply Hi. }
  { destruct (step_store _ _ _ _ _ Hs1) as [_ ->]. rewrite (geometry_size _ _ _ (step_geometry _ _ _ _ _ Hs1)). apply (inode_length _ _ _ Hi). }
  { apply Hi. }
  { apply Forall_forall. intros b Hb. by apply (own_u32 fs), Hol'. }
  { intros i Hil Hil'. cbn in Hil' |- *. destruct (n <=? n'); destruct Hc as [Hl' _]; rewrite Hl'; [by rewrite lookup_app_l|].
    by rewrite lookup_take_lt. }
  { change (Forall (fun p => own fs1 p /\ used fs1 p = true) (metas (base fs1) e (pointers_of inode) n)). by rewrite EM. }
  { change (NoDup (metas (base fs1) e (pointers_of inode) n)). by rewrite EM. }
  change (m_block_list (inode <| m_block_list := l' |>)) with l' in *.
  rewrite Ee in *. fold n n' in Hperm, Hstep. change (pointers_of (inode <| m_block_list := l' |>)) with (pointers_of inode) in Hperm. rewrite EM in Hperm.
  exists fs2, inode2. split; [done|]. split; [done|]. split; [done|]. split; [done|]. unfold all_blocks.
  assert (EXT2_ADDR_PER_BLOCK fs2 = e) as -> by (rewrite <- Ee; destruct (n <=? n'); destruct Hstep as [_ Hs2]; apply (addr_geometry _ _ (step_geometry _ _ _ _ _ Hs2))).
  fold n' n e M. set (M' := metas (base fs2) e (pointers_of inode2) n') in *. exists (c ++ (if n <=? n' then taken else freed)).
  destruct (n <=? n'); destruct Hstep as [-> Hs2], Hc as [Hl' Hc].
  - rewrite app_nil_r in Hperm. split; [|split; [|split]].
    + by apply (step_app _ fs1 _ [] M').
    + rewrite Hl', Hperm. apply app_exchange.
    + apply NoDup_app. split; [done|]. split; [|done]. intros b Hb Hb'. rewrite Forall_forall in Htaken, Hc. destruct (Htaken b Hb') as [_ Hu].
      rewrite (step_used _ _ _ _ _ Hs1), bool_decide_true in Hu; [done|done|]. by eapply own_pos, Hc.
    + apply Forall_app. split; [done|]. rewrite Forall_forall in Htaken |- *. intros b Hb. destruct (Htaken b Hb) as [Ho Hu].
      apply (step_own _ _ _ _ _ _ Hs1) in Ho. split; [done|]. rewrite (step_used _ _ _ _ _ Hs1) in Hu by by eapply own_pos. by case_bool_decide.
  - split.
    + by apply (step_app _ fs1 _ [] M').
    + rewrite app_nil_r in Hperm. rewrite <- Hperm, Hc, app_nil_l. rewrite <- (take_drop (length l') l) at 1. rewrite <- Hl'. apply app_exchange.
Qed.

(** [resize_block_list] and [flush_block_list] together. *)
Lemma resize_and_flush fs inode l n' (e := EXT2_ADDR_PER_BLOCK fs) (n := Z.of_nat (length l)) :
  inode_ok fs inode l -> m_readonly fs = false -> 0 < n' <= doubly_limit e ->
  n' - n + (n_meta e n' - n_meta e n) <= s_free_blocks_count (m_super_block fs) ->
  exists fs1 fs2 inode2 l', resize_block_list fs inode n n' = Ret (KSuccess, fs1, inode <| m_block_list := l' |>) /\
    flush_block_list fs1 (inode <| m_block_list := l' |>) = Ret (KSuccess, fs2, inode2) /\ geometry fs1 = geometry fs /\
    same_file (inode <| m_block_list := l' |>) inode2 /\ Z.of_nat (length l') = n' /\
    take (length l') l = take (length l) l' /\ length (pointers_of inode2) = Z.to_nat EXT2_N_BLOCKS /\
    mapped (base fs2) e (pointers_of inode2) l' /\ resized fs fs2 (metas (base fs2) e (pointers_of inode2) n') (all_blocks fs inode l) (all_blocks fs2 inode2 l') [] (n <=? n').
Proof.
  intros Hi Hr Hn' Hfree. pose proof (inode_alloc _ _ _ Hi) as Hok. destruct (addr_per_block _ (alloc_geometry _ Hok)) as [Hbs He]. fold e in He.
  pose proof (inode_limit _ _ _ Hi) as Hlim. fold n e in Hlim. assert (doubly_limit e < 2 ^ 31) as Hdl by (unfold doubly_limit, EXT2_NDIR_BLOCKS; nia).
  pose proof (n_meta_bounds e n He ltac:(lia)) as Hnb. pose proof (n_meta_bounds e n' He ltac:(lia)) as Hnb'.
  pose proof (n_meta_mono e n n' ltac:(lia)) as Hm1. pose proof (n_meta_mono e n' n ltac:(lia)) as Hm2.
  pose proof (free_blocks_nonneg _ Hok) as Hf0.
  destruct (resize_block_list_spec fs inode l n') as (fs1 & l' & c & Heq & Hl' & Hs1 & Hndc & Hc); try done; [lia|fold n; lia|]. fold n in Hs1, Hc, Heq.
  rewrite <- Hl' in Hs1, Hc. rewrite Nat2Z.id in Hc.
  destruct (flush_resized fs fs1 inode l l' c) as (fs2 & inode2 & Hfl & Hsame & Hlen & Hmap & Hres); try done; fold n e.
  { by rewrite Hl'. }
  { rewrite Hl'. pose proof (step_free _ _ _ _ _ Hs1) as ->. rewrite Hl' in *. destruct (Z.leb_spec n n') as [Hle|Hlt].
    - destruct Hc as [-> _]. rewrite length_app in Hl'. lia.
    - lia. }
  exists fs1, fs2, inode2, l'. split; [done|]. split; [done|]. split; [apply Hs1|]. split; [done|]. split; [done|]. split; [|split; [done|split; [done|]]].
  - rewrite Hl' in Hc. destruct (Z.leb_spec n n'); destruct Hc as [Hc _].
    + rewrite Hc at 2. rewrite take_app_length. apply take_ge. lia.
    + rewrite (take_ge l') by lia. by rewrite <- Hc.
  - by rewrite <- Hl'.
Qed.

Lemma metas_nil s e ib : 0 < e -> metas s e ib 0 = [].
Proof.
  intros He. unfold metas, metas1, metas2. assert (n1 e 0 = 0) as -> by (unfold n1, EXT2_NDIR_BLOCKS; lia).
  assert (n2 e 0 = 0) as -> by (unfold n2, EXT2_NDIR_BLOCKS; lia). done.
Qed.

(** The same when no block is left: the blocks of pointers are lost. *)
Lemma resize_and_flush_nil fs inode l (e := EXT2_ADDR_PER_BLOCK fs) (n := Z.of_nat (length l)) :
  inode_ok fs inode l -> m_readonly fs = false -> 0 < n ->
  exists fs1 inode2, resize_block_list fs inode n 0 = Ret (KSuccess, fs1, inode <| m_block_list := [] |>) /\
    flush_block_list fs1 (inode <| m_block_list := [] |>) = Ret (KSuccess, fs1, inode2) /\
    same_file (inode <| m_block_list := [] |>) inode2 /\ length (pointers_of inode2) = Z.to_nat EXT2_N_BLOCKS /\
    resized fs fs1 [] (all_blocks fs inode l) [] (metas (base fs) e (pointers_of inode) n) false.
Proof.
  intros Hi Hr Hn. pose proof (free_blocks_nonneg _ (inode_alloc _ _ _ Hi)) as Hf0.
  destruct (resize_block_list_spec fs inode l 0) as (fs1 & l' & c & Heq & Hl' & Hs1 & Hndc & Hc); try done; [fold n; lia|]. fold n in Heq, Hs1, Hc.
  rewrite (proj2 (Z.leb_gt n 0)) in * by lia. assert (l' = []) as -> by (apply nil_length_inv; lia). destruct Hc as [_ Hc].
  set (inode1 := inode <| m_block_list := [] |>
    <| m_raw_inode := m_raw_inode inode <| i_blocks := 0 |> <| i_block := replicate (Z.to_nat EXT2_N_BLOCKS) 0 |> |>).
  destruct (set_metadata_dirty_spec fs1 inode1 true) as (inode2 & Hd & ->); [by rewrite (geometry_readonly _ _ (step_geometry _ _ _ _ _ Hs1))|].
  exists fs1, (inode1 <| m_metadata_dirty := true |>). split; [done|]. split; [|split; [|split; [done|]]].
  - unfold flush_block_list. change (Z.of_nat (length (m_block_list (inode <| m_block_list := [] |>))) =? 0) with true. cbn iota.
    change (set_metadata_dirty fs1 _ true) with (set_metadata_dirty fs1 inode1 true). by rewrite Hd.
  - unfold same_file, inode1. by destruct inode as [? [] ? ? ?].
  - exists c. split; [done|]. rewrite Hc, app_nil_l. unfold all_blocks. apply Permutation_app_comm.
Qed.

(** The new size in the inode. *)
Definition resized_raw inode (new_size : Z) : Ext2FSInode :=
  let inode := update_raw inode (fun r => r <| i_size := wrap u32 new_size |>) in
  if is_regular_file (i_mode (m_raw_inode inode))
  then update_raw inode (fun r => r <| i_dir_acl := wrap u32 (Z.shiftr new_size 32) |>) else inode.

Lemma resized_raw_spec fs inode new_size (inode' := resized_raw inode new_size) :
  0 <= new_size < 2 ^ 32 - 1 -> is_u32 (i_dir_acl (m_raw_inode inode)) ->
  inode_size_of fs inode' = new_size /\ is_u32 (i_size (m_raw_inode inode')) /\ is_u32 (i_dir_acl (m_raw_inode inode')) /\
  pointers_of inode' = pointers_of inode /\ m_block_list inode' = m_block_list inode /\ i_mode (m_raw_inode inode') = i_mode (m_raw_inode inode) /\
  same_identity inode inode'.
Proof.
  intros Hn Ha. assert (Z.shiftr new_size 32 = 0) as Hsh by (rewrite Z.shiftr_div_pow2 by lia; apply Z.div_small; lia).
  assert (wrap u32 new_size = new_size) as Hw by (apply (wrap_id u32 eq_refl); rewrite in_type_u32; lia).
  unfold inode', resized_raw. change (i_mode (m_raw_inode (update_raw inode _))) with (i_mode (m_raw_inode inode)).
  destruct (is_regular_file (i_mode (m_raw_inode inode))) eqn:Hreg.
  - split; [|split; [|split]]; [|change (is_u32 (wrap u32 new_size)); unfold is_u32; lia|change (is_u32 (wrap u32 (Z.shiftr new_size 32))); by rewrite Hsh|by unfold same_identity].
    unfold inode_size_of. change (i_mode (m_raw_inode (update_raw (update_raw inode _) _))) with (i_mode (m_raw_inode inode)).
    change (i_dir_acl (m_raw_inode (update_raw (update_raw inode _) _))) with (wrap u32 (Z.shiftr new_size 32)).
    change (i_size (m_raw_inode (update_raw (update_raw inode _) _))) with (wrap u32 new_size). rewrite Hreg, Hsh, Hw. by destruct (negb _).
  - split; [|split; [|split]]; [|change (is_u32 (wrap u32 new_size)); unfold is_u32; lia|done|by unfold same_identity].
    unfold inode_size_of. change (i_mode (m_raw_inode (update_raw inode _))) with (i_mode (m_raw_inode inode)). by rewrite Hreg.
Qed.

(** The bytes of the first blocks. *)
Lemma take_bytes_of s l n k : store_ok s -> Forall (store_valid s) l -> Z.of_nat k <= Z.of_nat n * store_block_size s ->
  take k (bytes_of s (take n l)) = take k (bytes_of s l).
Proof.
  intros Hok Hl Hk. pose proof (bytes_of_length s (take n l) Hok ltac:(by apply Forall_take)) as Ht. rewrite length_take in Ht.
  rewrite <- (take_drop n l) at 2. rewrite bytes_of_app. destruct (decide (n <= length l)%nat).
  - rewrite Nat.min_l in Ht by lia. by rewrite take_app_le by lia.
  - rewrite (drop_ge l) by lia. cbn [bytes_of mbind list_bind]. by rewrite app_nil_r.
Qed.

(** The inode once its blocks and its size are the new ones: what both sizes have in common is as
    it was. *)
Lemma resized_file fs fs2 inode inode2 l l' d new_size lost grow (e := EXT2_ADDR_PER_BLOCK fs)
    (inode3 := resized_raw inode2 new_size <| m_metadata_dirty := true |>) :
  is_file fs inode l d -> same_file (inode <| m_block_list := l' |>) inode2 -> length (pointers_of inode2) = Z.to_nat EXT2_N_BLOCKS ->
  mapped (base fs2) e (pointers_of inode2) l' -> Z.of_nat (length l') = ceil_div new_size (block_size fs) -> Z.of_nat (length l') <= doubly_limit e ->
  take (length l') l = take (length l) l' -> 0 <= new_size < 2 ^ 32 - 1 ->
  resized fs fs2 (metas (base fs2) e (pointers_of inode2) (Z.of_nat (length l'))) (all_blocks fs inode l) (all_blocks fs2 inode2 l') lost grow ->
  exists d', is_file fs2 inode3 l' d' /\ Z.of_nat (length d') = new_size /\ take (length d) d' = take (length d') d /\
    same_identity inode inode3 /\ pointers_of inode3 = pointers_of inode2.
Proof.
  intros Hf Hsame Hlen Hmap Hl' Hlim Htake Hnew Hres. pose proof (file_inode _ _ _ _ Hf) as Hi. pose proof (inode_alloc _ _ _ Hi) as Hok.
  destruct (addr_per_block _ (alloc_geometry _ Hok)) as [Hbs He].
  destruct (resized_ok _ _ _ _ _ _ _ Hres (inode_blocks _ _ _ Hi) (inode_distinct _ _ _ Hi)) as [HA HndA].
  destruct Hres as (L & Hs & _). pose proof (addr_geometry _ _ (step_geometry _ _ _ _ _ Hs)) as Ee. fold e in Ee.
  destruct (step_store _ _ _ _ _ Hs) as [Hst Ebs]. unfold all_blocks in HA, HndA. rewrite Ee in HA, HndA.
  assert (is_u32 (i_dir_acl (m_raw_inode inode2)) /\ same_identity inode inode2 /\ m_block_list inode2 = l' /\ i_mode (m_raw_inode inode2) = i_mode (m_raw_inode inode)) as (Hacl & Hid2 & El2 & Em2).
  { rewrite Hsame. split; [apply (file_fields _ _ _ _ Hf)|]. by unfold same_identity. }
  destruct (resized_raw_spec fs2 inode2 new_size Hnew Hacl) as (Esz & Hu1 & Hu2 & Ep & El & Em & Hid3).
  set (inode3' := resized_raw inode2 new_size) in *. change (pointers_of inode3) with (pointers_of inode3').
  assert (inode_ok fs2 inode3 l') as Hi3.
  { split; unfold all_blocks; rewrite ?Ee, ?Ebs; change (pointers_of inode3) with (pointers_of inode3'); rewrite ?Ep; try done.
    - apply Hs.
    - change (m_index inode3) with (m_index inode3'). destruct Hid3 as [-> _], Hid2 as [-> _].
      destruct (geometry_fields _ _ (step_geometry _ _ _ _ _ Hs)) as (_ & _ & _ & _ & -> & _). apply Hi.
    - change (inode_size_of fs2 inode3) with (inode_size_of fs2 inode3'). by rewrite Esz.
    - right. change (m_block_list inode3) with (m_block_list inode3'). by rewrite El.
    - change (i_mode (m_raw_inode inode3)) with (i_mode (m_raw_inode inode3')). rewrite Em, Em2. apply Hi. }
  pose proof (inode_bytes_length _ _ _ Hi3) as HBl. pose proof (inode_length_bound _ _ _ Hi3) as Hlb.
  change (inode_size_of fs2 inode3) with (inode_size_of fs2 inode3') in Hlb. rewrite Esz in Hlb.
  exists (take (Z.to_nat new_size) (bytes_of (base fs2) l')).
  assert (length (take (Z.to_nat new_size) (bytes_of (base fs2) l')) = Z.to_nat new_size) as Hdl by (rewrite length_take; lia).
  split; [|rewrite Hdl; split; [lia|split; [|split; [by eapply same_identity_trans|done]]]].
  - split; try done; rewrite ?Hdl; change (inode_size_of fs2 inode3) with (inode_size_of fs2 inode3'); rewrite ?Esz; try lia; done.
  - rewrite take_take. rewrite <- (file_data _ _ _ _ Hf) at 2. rewrite take_take.
    destruct (inode_data _ _ _ Hi) as [Hol _]. apply own_all_valid in Hol; [|done]. destruct (inode_data _ _ _ Hi3) as [Hol' _].
    apply own_all_valid in Hol'; [|apply Hs]. pose proof (file_size _ _ _ _ Hf) as Hsz. pose proof (inode_length_bound _ _ _ Hi ltac:(lia)) as Hlb1.
    rewrite <- (take_bytes_of _ l' (length l)), <- (take_bytes_of _ l (length l')); try done; try apply Hi;
      change (store_block_size (base fs2)) with (block_size fs2); change (store_block_size (base fs)) with (block_size fs); try lia.
    rewrite Htake, (Nat.min_comm (Z.to_nat _)). f_equal. apply (step_bytes_of _ _ _ _ _ _ Hs).
    + rewrite <- Htake. by apply Forall_take.
    + intros b Hb. apply NoDup_app in HndA as (_ & Hdis & _). apply Hdis. rewrite <- (take_drop (length l) l'). apply elem_of_app. by left.
Qed.

(** Growing or shrinking [d]. *)
Definition fit (new_size : Z) (d : list Z) : list Z := take (Z.to_nat new_size) d ++ replicate (Z.to_nat new_size - length d) 0.

Lemma fit_length n d : 0 <= n -> Z.of_nat (length (fit n d)) = n.
Proof. intros. unfold fit. rewrite length_app, length_take, length_replicate. lia. Qed.

(** The blocks that [resize] loses. *)
Definition lost_blocks fs inode (l l' : list Z) : list Z :=
  match l' with [] => metas (base fs) (EXT2_ADDR_PER_BLOCK fs) (pointers_of inode) (Z.of_nat (length l)) | _ => [] end.

(** Writing to the data of the new inode. *)
Lemma resized_data fs fs2 fs3 inode2 inode3 l' W A lost grow :
  resized fs fs2 W A (all_blocks fs2 inode2 l') lost grow -> (forall b, b ∈ W -> b ∈ all_blocks fs2 inode2 l') ->
  inode_ok fs2 inode2 l' -> (forall v, step fs2 fs3 l' [] v) -> pointers_of inode3 = pointers_of inode2 ->
  resized fs fs3 (all_blocks fs3 inode3 l') A (all_blocks fs3 inode3 l') lost grow.
Proof.
  intros (L & Hs & HL) HW Hi Hs3 Ep. pose proof (addr_geometry _ _ (step_geometry _ _ _ _ _ (Hs3 true))) as Ee3.
  pose proof (inode_distinct _ _ _ Hi) as Hd. apply NoDup_app in Hd as (_ & Hd & _).
  destruct (pointers_step _ _ _ _ _ _ _ (Hs3 true) Hi) as (_ & EM & _); [intros b Hb Hb'; by apply (Hd b)|by left|].
  assert (all_blocks fs3 inode3 l' = all_blocks fs2 inode2 l') as -> by (unfold all_blocks; by rewrite Ep, Ee3, EM).
  exists L. split; [|done]. apply (step_weaken _ _ (W ++ l') _ (L ++ [])).
  - by apply (step_app _ fs2).
  - intros b [Hb|Hb]%elem_of_app; [by apply HW|]. apply elem_of_app. by left.
  - by rewrite app_nil_r.
Qed.

(** Clearing what is new. *)
Lemma clear_new fs inode l d d' :
  is_file fs inode l d' -> m_readonly fs = false -> take (length d) d' = take (length d') d ->
  let old_size := Z.of_nat (length d) in let new_size := Z.of_nat (length d') in
  exists fs' inode',
    (if old_size <? new_size
     then clear_bytes (write_bytes_with (resize_fuel 1)) (Z.to_nat (ceil_div (new_size - old_size) PAGE_SIZE)) fs inode old_size (new_size - old_size)
     else Ret (KSuccess, fs, inode)) = Ret (KSuccess, fs', inode') /\
    is_file fs' inode' l (fit new_size d) /\ (forall v, step fs fs' l [] v) /\ same_identity inode inode' /\ pointers_of inode' = pointers_of inode.
Proof.
  intros Hf Hr Ht old_size new_size. destruct (Z.ltb_spec old_size new_size) as [Hlt|Hge].
  - destruct (clear_bytes_spec (resize_fuel 1) (Z.to_nat (ceil_div (new_size - old_size) PAGE_SIZE)) fs inode l d' old_size (new_size - old_size))
      as (fs' & inode' & -> & Hf' & Hs & Hid & Ep); try done; unfold old_size, new_size in *; try lia.
    { intros fs0 inode0. cbn [resize_fuel]. by rewrite Z.eqb_refl. }
    { rewrite ceil_div_up by (unfold PAGE_SIZE; lia).
      pose proof (up_spec (Z.of_nat (length d') - Z.of_nat (length d)) PAGE_SIZE ltac:(lia) ltac:(done)). unfold PAGE_SIZE in *. lia. }
    exists fs', inode'. split_and!; try done. rewrite (take_ge d) in Ht by lia. unfold fit. rewrite (take_ge d) by lia.
    unfold splice in Hf'. rewrite length_replicate, !Nat2Z.id, drop_ge, app_nil_r, Ht in Hf' by lia. by rewrite Z2Nat.inj_sub, !Nat2Z.id in * by lia.
  - exists fs, inode. split; [done|]. split; [|split; [|split; [by apply same_identity_refl|done]]].
    + unfold fit, old_size, new_size in *. rewrite Nat2Z.id, <- Ht, take_ge by lia. replace (_ - _)%nat with 0%nat by lia. by rewrite app_nil_r.
    + intros v. apply (step_weaken _ _ [] _ []); [apply step_refl, Hf|by intros b ?%elem_of_nil|done].
Qed.

Lemma resize_and_flush_any fs inode l n' (e := EXT2_ADDR_PER_BLOCK fs) (n := Z.of_nat (length l)) :
  inode_ok fs inode l -> m_readonly fs = false -> 0 <= n' <= doubly_limit e -> (n' = 0 -> 0 < n) ->
  n' - n + (n_meta e n' - n_meta e n) <= s_free_blocks_count (m_super_block fs) ->
  exists fs1 fs2 inode2 l', resize_block_list fs inode n n' = Ret (KSuccess, fs1, inode <| m_block_list := l' |>) /\
    flush_block_list fs1 (inode <| m_block_list := l' |>) = Ret (KSuccess, fs2, inode2) /\ same_file (inode <| m_block_list := l' |>) inode2 /\
    Z.of_nat (length l') = n' /\ take (length l') l = take (length l) l' /\ length (pointers_of inode2) = Z.to_nat EXT2_N_BLOCKS /\
    mapped (base fs2) e (pointers_of inode2) l' /\
    resized fs fs2 (metas (base fs2) e (pointers_of inode2) n') (all_blocks fs inode l) (all_blocks fs2 inode2 l') (lost_blocks fs inode l l') (n <=? n').
Proof.
  intros Hi Hr Hn' Hn0 Hfree. destruct (addr_per_block _ (alloc_geometry _ (inode_alloc _ _ _ Hi))) as [Hbs He]. fold e in He.
  destruct (Z.eq_dec n' 0) as [->|Hne].
  - destruct (resize_and_flush_nil fs inode l) as (fs1 & inode2 & H1 & H2 & Hsame & Hlen & Hres); try done; [fold n; lia|].
    exists fs1, fs1, inode2, []. rewrite (proj2 (Z.leb_gt n 0)) by lia.
    assert (forall s, all_blocks s inode2 [] = metas (base s) (EXT2_ADDR_PER_BLOCK s) (pointers_of inode2) 0) as Eall by done.
    destruct Hres as (L & Hs & HL). pose proof (addr_geometry _ _ (step_geometry _ _ _ _ _ Hs)) as Ee. fold e in Ee.
    rewrite Eall, Ee, !metas_nil by lia. do 4 (split; [done|]). split; [by rewrite take_nil, take_0|]. split; [done|]. split.
    + split; [done|]. split; intros k x _ Hx; by rewrite lookup_nil in Hx.
    + exists L. by split.
  - destruct (resize_and_flush fs inode l n') as (fs1 & fs2 & inode2 & l' & H1 & H2 & _ & Hsame & Hl' & Ht & Hlen & Hmap & Hres); try done; [fold e; lia|].
    exists fs1, fs2, inode2, l'. assert (lost_blocks fs inode l l' = []) as -> by (destruct l'; [cbn in Hl'; lia|done]). done.
Qed.

Lemma resize_spec fs inode l d new_size (e := EXT2_ADDR_PER_BLOCK fs) (n := Z.of_nat (length l)) (n' := ceil_div new_size (block_size fs)) :
  is_file fs inode l d -> m_readonly fs = false -> 0 <= new_size < 2 ^ 32 - 1 -> n' <= doubly_limit e ->
  n' - n + (n_meta e n' - n_meta e n) <= s_free_blocks_count (m_super_block fs) ->
  exists fs' inode' l', resize fs inode new_size = Ret (KSuccess, fs', inode') /\ is_file fs' inode' l' (fit new_size d) /\ same_identity inode inode' /\
    Z.of_nat (length l') = n' /\
    resized fs fs' (all_blocks fs' inode' l') (all_blocks fs inode l) (all_blocks fs' inode' l')
      (if new_size =? Z.of_nat (length d) then [] else lost_blocks fs inode l l') (n <=? n').
Proof.
  intros Hf Hr Hnew Hlim Hfree. pose proof (file_inode _ _ _ _ Hf) as Hi. destruct (addr_per_block _ (alloc_geometry _ (inode_alloc _ _ _ Hi))) as [Hbs He]. fold e in He.
  pose proof (file_size _ _ _ _ Hf) as Hsz. pose proof (inode_length_bound _ _ _ Hi ltac:(lia)) as Hlb. fold n in Hlb. rewrite <- Hsz in Hlb.
  pose proof (inode_length _ _ _ Hi) as Hn. fold n in Hn. assert (n' = up new_size (block_size fs)) as En' by (apply ceil_div_up; lia).
  pose proof (up_spec new_size (block_size fs) ltac:(lia) ltac:(lia)) as Hup. rewrite <- En' in Hup.
  unfold resize. remember 1%nat as one eqn:E1. cbn [resize_fuel]. rewrite E1. clear one E1. rewrite Z.eqb_sym, <- Hsz. destruct (Z.eqb_spec new_size (Z.of_nat (length d))) as [->|Hne].
  { assert (n' = n) as -> by (rewrite En'; apply up_unique; lia). rewrite Z.leb_refl. exists fs, inode, l. unfold fit. rewrite Nat2Z.id, firstn_all, Nat.sub_diag, app_nil_r.
    split_and!; try done. exists []. split; [|rewrite app_nil_r; split_and!; try done; apply NoDup_nil_2].
    apply (step_weaken _ _ [] _ []); [apply step_refl, Hf|by intros b ?%elem_of_nil|done]. }
  rewrite (proj2 (Z.leb_gt (2 ^ 32 - 1) new_size)), andb_false_r by lia. rewrite Hsz, <- Hn. fold n'.
  pose proof (n_meta_mono e n n' ltac:(lia)) as Hm. assert ((n <? n') && (s_free_blocks_count (m_super_block fs) <? n' - n) = false) as ->
    by (apply andb_false_iff; destruct (Z.ltb_spec n n'); [right; apply Z.ltb_ge; lia|by left]).
  destruct (resize_and_flush_any fs inode l n') as (fs1 & fs2 & inode2 & l' & H1 & H2 & Hsame & Hl' & Ht & Hlen & Hmap & Hres); try done; [fold e; nia|fold n; nia|].
  fold n in H1. rewrite H1. run. change (KSuccess <? 0) with false. cbn iota. rewrite H2. run. change (KSuccess <? 0) with false. cbn iota.
  rewrite <- Hl' in Hres. destruct (resized_file fs fs2 inode inode2 l l' d new_size (lost_blocks fs inode l l') (n <=? Z.of_nat (length l')) Hf Hsame) as (d' & Hf3 & Hd' & Htd & Hid & Ep); try done; [fold e; lia|].
  fold (resized_raw inode2 new_size). assert (m_readonly fs2 = false) as Hr2 by (destruct Hres as (? & Hs & _); by rewrite (geometry_readonly _ _ (step_geometry _ _ _ _ _ Hs))).
  destruct (set_metadata_dirty_spec fs2 (resized_raw inode2 new_size) true Hr2) as (inode3 & -> & ->). run. rewrite <- Hsz.
  destruct (clear_new fs2 _ l' d d' Hf3 Hr2 Htd) as (fs3 & inode4 & Hc & Hf4 & Hs3 & Hid4 & Ep4). rewrite Hd' in Hc, Hf4. rewrite Hc.
  exists fs3, inode4, l'. split; [done|]. split; [done|]. split; [by eapply same_identity_trans|]. split; [done|]. rewrite <- Hl'.
  assert (all_blocks fs2 (resized_raw inode2 new_size <| m_metadata_dirty := true |>) l' = all_blocks fs2 inode2 l') as Eall by (unfold all_blocks; by rewrite Ep).
  eapply (resized_data _ fs2 _ (resized_raw inode2 new_size <| m_metadata_dirty := true |>)); rewrite ?Eall; try done; [|apply Hf3].
  destruct Hres as (L & Hs & _). intros b Hb. apply elem_of_app. right. by rewrite (addr_geometry _ _ (step_geometry _ _ _ _ _ Hs)).
Qed.

(** What is in the inode after [xs] has been written at [offset]. *)
Definition written (d : list Z) (offset : Z) (xs : list Z) : list Z :=
  splice (fit (Z.max (offset + Z.of_nat (length xs)) (Z.of_nat (length d))) d) offset xs.

Lemma write_bytes_spec fs inode l d offset count u (e := EXT2_ADDR_PER_BLOCK fs) (n := Z.of_nat (length l))
    (n' := ceil_div (Z.max (offset + count) (Z.of_nat (length d))) (block_size fs)) :
  is_file fs inode l d -> m_readonly fs = false -> 0 <= offset -> 0 < count < 2 ^ 31 -> offset + count < 2 ^ 32 - 1 -> n' <= doubly_limit e ->
  n' - n + (n_meta e n' - n_meta e n) <= s_free_blocks_count (m_super_block fs) ->
  no_fault u -> count = Z.of_nat (length (u_bytes u)) -> is_bytes (u_bytes u) ->
  exists fs' inode' l', write_bytes fs inode offset count u false = Ret (count, fs', inode') /\ is_file fs' inode' l' (written d offset (u_bytes u)) /\
    same_identity inode inode' /\ Z.of_nat (length l') = n' /\
    resized fs fs' (all_blocks fs' inode' l') (all_blocks fs inode l) (all_blocks fs' inode' l') [] true.
Proof.
  intros Hf Hr Ho Hc Hoc Hlim Hfree Hu Hul Hub. unfold write_bytes, write_bytes_with. rewrite (VERIFY_true (0 <=? offset)), (VERIFY_true (0 <=? count)) by lia. run.
  destruct (prepare_to_write_data_spec fs inode l d Hf Hr) as (inode0 & -> & Hf0 & Hid0 & Esz & _ & Ep0). run. change (KSuccess <? 0) with false. cbn iota.
  rewrite (inode_type _ _ _ (file_inode _ _ _ _ Hf0)). cbn [negb orb andb VERIFY]. run. pose proof (file_size _ _ _ _ Hf0) as Hsz. pose proof (file_small _ _ _ _ Hf0) as Hsm.
  rewrite (wrap_id u64 eq_refl) by (rewrite in_type_u64; lia). rewrite <- Hsz. set (new_size := Z.max (offset + count) (Z.of_nat (length d))) in *.
  destruct (resize_spec fs inode0 l d new_size) as (fs1 & inode1 & l' & -> & Hf1 & Hid1 & Hl' & Hres); try done; [unfold new_size; lia|].
  run. change (KSuccess <? 0) with false. cbn iota. assert (Z.of_nat (length (fit new_size d)) = new_size) as Hfl by (apply fit_length; unfold new_size; lia).
  destruct (write_data_spec fs1 inode1 l' (fit new_size d) offset count new_size u) as (fs2 & inode2 & -> & Hf2 & Hs2 & Hl2 & Hr2); try done; try lia.
  rewrite take_ge in Hf2 by lia. exists fs2, inode2, l'. split; [done|]. split; [unfold written; by rewrite <- Hul|]. split; [|split; [done|]].
  - eapply same_identity_trans; [exact Hid0|]. eapply same_identity_trans; [exact Hid1|]. rewrite Hl2. by unfold same_identity.
  - assert (Z.of_nat (length l) <= n') as Hle.
    { destruct (addr_per_block _ (alloc_geometry _ (inode_alloc _ _ _ (file_inode _ _ _ _ Hf0)))) as [Hbs He].
      rewrite (inode_length _ _ _ (file_inode _ _ _ _ Hf0)), <- Hsz. unfold n'. rewrite !ceil_div_up by lia. unfold up. apply Z.div_le_mono; lia. }
    fold n' in Hres. rewrite (proj2 (Z.leb_le _ _) Hle) in Hres. assert (all_blocks fs inode0 l = all_blocks fs inode l) as Eall by (unfold all_blocks; by rewrite Ep0).
    rewrite Eall in Hres. apply (resized_data _ fs1 _ inode1 inode2 l' (all_blocks fs1 inode1 l')); try done; [apply Hf1|by rewrite Hl2].
Qed.

(** ** Other inodes *)

(** No block belongs to both. *)
Definition apart fs (inode1 : Ext2FSInode) (l1 : list Z) (inode2 : Ext2FSInode) (l2 : list Z) : Prop :=
  forall b, b ∈ all_blocks fs inode1 l1 -> b ∉ all_blocks fs inode2 l2.

Lemma resized_other fs fs' inode inode' l l' lost grow other l2 d2 :
  resized fs fs' (all_blocks fs' inode' l') (all_blocks fs inode l) (all_blocks fs' inode' l') lost grow ->
  is_file fs other l2 d2 -> apart fs other l2 inode l -> is_file fs' other l2 d2 /\ apart fs' other l2 inode' l'.
Proof.
  intros (L & Hs & HL) Hf Hap. pose proof (file_inode _ _ _ _ Hf) as Hi. pose proof (inode_blocks _ _ _ Hi) as Hb.
  assert (forall b, b ∈ all_blocks fs other l2 -> (b ∉ all_blocks fs' inode' l') /\ (grow = true \/ b ∉ L)) as Hdis.
  { intros b Hin. pose proof (Hap b Hin) as Hn. destruct grow.
    - destruct HL as (HA & _ & HL). split; [|by left]. rewrite HA, elem_of_app. intros [?|?]; [done|]. by apply (used_unused_disjoint _ _ _ Hb HL b).
    - rewrite HL, !elem_of_app in Hn. split; [tauto|]. right. tauto. }
  assert (inode_ok fs' other l2) as Hi'.
  { apply (inode_ok_step _ _ _ _ _ _ _ Hs Hi).
    - intros b Hm. apply Hdis, elem_of_app. by right.
    - destruct grow; [by left|right]. intros b Hm. by destruct (Hdis b Hm) as [_ [?|?]]. }
  destruct (inode_data _ _ _ Hi) as [Hol _]. pose proof (geometry_size _ _ other (step_geometry _ _ _ _ _ Hs)) as Esz.
  assert (bytes_of (base fs') l2 = bytes_of (base fs) l2) as EB.
  { apply (step_bytes_of _ _ _ _ _ _ Hs); [apply own_all_valid; [apply Hi|done]|]. intros b Hm. apply Hdis, elem_of_app. by left. }
  split; [split; rewrite ?Esz, ?EB; try done; apply Hf|]. intros b Hin. apply Hdis. unfold all_blocks in *.
  destruct (pointers_step _ _ _ _ _ _ _ Hs Hi) as (_ & EM & _).
  - intros b' Hm. apply Hdis, elem_of_app. by right.
  - destruct grow; [by left|right]. intros b' Hm. destruct (Hdis b') as [_ [?|?]]; [apply elem_of_app; by right|done..].
  - by rewrite (addr_geometry _ _ (step_geometry _ _ _ _ _ Hs)), EM in Hin.
Qed.

Lemma resized_free fs fs' W A A' lost grow :
  resized fs fs' W A A' lost grow ->
  s_free_blocks_count (m_super_block fs') + Z.of_nat (length A') + (if grow then 0 else Z.of_nat (length lost)) =
  s_free_blocks_count (m_super_block fs) + Z.of_nat (length A).
Proof.
  intros (L & Hs & HL). rewrite (step_free _ _ _ _ _ Hs). destruct grow; [destruct HL as [HL _]|]; rewrite HL, !length_app; lia.
Qed.

(** ** Reading all of it *)

Lemma read_entire_from_spec fuel fs inode l d k :
  is_file fs inode l d -> 0 <= k -> Z.of_nat (length d) < 4096 * (k + Z.of_nat fuel) -> 4096 * k <= Z.of_nat (length d) ->
  exists fs' inode', read_entire_from fuel fs inode (4096 * k) (take (Z.to_nat (4096 * k)) d) = Ret (inr d, fs', inode') /\
    (forall v, step fs fs' [] [] v) /\ is_file fs' inode' l d /\ same_but_list inode inode' /\ fs' = fs <| base := base fs' |>.
Proof.
  revert fs inode k. induction fuel as [|fuel IH]; intros fs inode k Hf Hk Hfuel Hle; [lia|]. cbn [read_entire_from].
  destruct (read_bytes_spec fs inode l d (4096 * k) 4096 (for_kernel_buffer [])) as (fs1 & inode1 & -> & Hs1 & Hf1 & Hb1 & Hr1); try done; [lia|]. run.
  set (r := take (Z.to_nat 4096) (drop (Z.to_nat (4096 * k)) d)).
  assert (Z.of_nat (length r) = Z.min 4096 (Z.of_nat (length d) - 4096 * k)) as Hrl by (unfold r; rewrite length_take, length_drop; lia).
  rewrite (proj2 (Z.ltb_ge (Z.of_nat (length r)) 0)) by lia. rewrite (VERIFY_true (_ <=? 4096)) by lia. run.
  assert (take (Z.to_nat (4096 * k)) d ++ r = take (Z.to_nat (4096 * (k + 1))) d) as Hr.
  { unfold r. rewrite take_take_drop. f_equal. lia. }
  destruct (Z.leb_spec (Z.of_nat (length r)) 0).
  { exists fs1, inode1. split; [|done]. by rewrite take_ge by lia. }
  rewrite Nat2Z.id, firstn_all, Hr. destruct (Z.ltb_spec (Z.of_nat (length r)) 4096).
  { exists fs1, inode1. split; [|done]. by rewrite take_ge by lia. }
  destruct (IH fs1 inode1 (k + 1)) as (fs2 & inode2 & Heq & Hs2 & Hf2 & Hb2 & Hr2); try done; try lia.
  replace (4096 * k + Z.of_nat (length r)) with (4096 * (k + 1)) by lia. rewrite Heq. exists fs2, inode2. split; [done|]. split; [|split; [done|]].
  - intros v. by apply (step_app _ fs1 _ [] [] [] []).
  - split; [|by rewrite Hr2, Hr1]. unfold same_but_list in *. rewrite Hb2, Hb1. done.
Qed.

Lemma read_entire_spec fs inode l d :
  is_file fs inode l d ->
  exists fs' inode', read_entire fs inode = Ret (inr d, fs', inode') /\ (forall v, step fs fs' [] [] v) /\ is_file fs' inode' l d /\
    same_but_list inode inode' /\ fs' = fs <| base := base fs' |>.
Proof.
  intros Hf. pose proof (file_size _ _ _ _ Hf) as Hsz. unfold read_entire. rewrite <- Hsz.
  apply (read_entire_from_spec _ fs inode l d 0); try done; [|lia]. rewrite Nat2Z.inj_add, Z2Nat.id by (apply Z.div_pos; lia).
  pose proof (Z.div_mod (Z.of_nat (length d)) 4096). pose proof (Z.mod_pos_bound (Z.of_nat (length d)) 4096). lia.
Qed.

(** ** The inode as a sequence of bytes *)

(** There are enough blocks for the new size and for the pointers to them. *)
Definition room fs (l : list Z) (new_size : Z) : Prop :=
  let e := EXT2_ADDR_PER_BLOCK fs in let n := Z.of_nat (length l) in let n' := ceil_div new_size (block_size fs) in
  n' <= doubly_limit e /\ n' - n + (n_meta e n' - n_meta e n) <= s_free_blocks_count (m_super_block fs).


Lemma lost_length fs inode l l' d size grow :
  is_file fs inode l d -> 0 <= size -> Z.of_nat (length l') = ceil_div size (block_size fs) -> grow = (Z.of_nat (length l) <=? Z.of_nat (length l')) ->
  (if grow then 0 else Z.of_nat (length (if size =? Z.of_nat (length d) then [] else lost_blocks fs inode l l'))) =
  (if (size =? 0) && negb (Z.of_nat (length d) =? 0) then n_meta (EXT2_ADDR_PER_BLOCK fs) (Z.of_nat (length l)) else 0).
Proof.
  intros Hf Hs Hl' ->. pose proof (file_inode _ _ _ _ Hf) as Hi. pose proof (inode_alloc _ _ _ Hi) as Hok. pose proof (file_size _ _ _ _ Hf) as Hsz.
  destruct (addr_per_block _ (alloc_geometry _ Hok)) as [Hbs He]. pose proof (inode_length_bound _ _ _ Hi ltac:(lia)) as Hlb. rewrite <- Hsz in Hlb.
  rewrite ceil_div_up in Hl' by lia. assert (0 < block_size fs) as Hbs0 by lia. pose proof (up_spec size _ Hs Hbs0) as Hup. rewrite <- Hl' in Hup.
  destruct (Z.eqb_spec size 0) as [->|Hne].
  - assert (l' = []) as -> by (apply nil_length_inv; nia). cbn [length lost_blocks]. destruct (Z.eqb_spec (Z.of_nat (length d)) 0) as [->|Hd].
    + by destruct (_ <=? _).
    + rewrite (proj2 (Z.leb_gt _ _)) by nia. rewrite (proj2 (Z.eqb_neq 0 _)) by lia. apply metas_length. lia.
  - destruct l' as [|x l']; [cbn in Hup; lia|]. cbn [lost_blocks andb]. destruct (_ <=? _); [done|]. by destruct (size =? _).
Qed.

(** When the data blocks fit and the blocks of pointers do not, [flush_block_list] stops. *)
Lemma flush_panics fs inode l l' c (e := EXT2_ADDR_PER_BLOCK fs) (n := Z.of_nat (length l)) (n' := Z.of_nat (length l')) fs1 :
  inode_ok fs inode l -> 0 < n' <= doubly_limit e -> step fs fs1 [] c (n <=? n') ->
  s_free_blocks_count (m_super_block fs1) < n_meta e n' - n_meta e n ->
  flush_block_list fs1 (inode <| m_block_list := l' |>) = Stop VerifyFailed.
Proof.
  intros Hi Hn' Hs1 Hfree. pose proof (step_geometry _ _ _ _ _ Hs1) as Hgeo. pose proof (addr_geometry _ _ Hgeo) as Ee. fold e in Ee.
  pose proof (step_ok _ _ _ _ _ Hs1) as Hok1. pose proof (alloc_geometry _ Hok1) as Hg1. destruct (addr_per_block _ Hg1) as [_ He]. rewrite Ee in He.
  pose proof (inode_limit _ _ _ Hi) as Hlim. fold n e in Hlim. assert (doubly_limit e < 2 ^ 31) as Hdl by (unfold doubly_limit, EXT2_NDIR_BLOCKS; nia).
  assert (ceil_div (inode_size_of fs1 (inode <| m_block_list := l' |>)) (block_size fs1) = n) as En.
  { destruct (step_store _ _ _ _ _ Hs1) as [_ Hbs]. rewrite Hbs, (geometry_size _ _ _ Hgeo). symmetry. apply (inode_length _ _ _ Hi). }
  unfold flush_block_list. rewrite En, (wrap_id u32 eq_refl n) by (rewrite in_type_u32; lia). fold n'.
  change (m_block_list (inode <| m_block_list := l' |>)) with l'. fold n'. rewrite (proj2 (Z.eqb_neq n' 0)) by lia.
  rewrite !compute_block_list_shape_spec by (try done; rewrite Ee; lia). rewrite Ee. run. cbn [meta_blocks].
  pose proof (free_blocks_nonneg _ Hok1). pose proof (n_meta_bounds e n He ltac:(lia)). pose proof (n_meta_bounds e n' He ltac:(lia)).
  rewrite (proj2 (Z.ltb_lt _ _)) by lia. rewrite allocate_blocks_fails; [by run|done| |lia].
  apply group_index_from_inode_spec; [done|]. destruct (geometry_fields _ _ Hgeo) as (_ & _ & _ & _ & -> & _). apply (inode_index _ _ _ Hi).
Qed.

Lemma resize_panics fs inode l d new_size (e := EXT2_ADDR_PER_BLOCK fs) (n := Z.of_nat (length l)) (n' := ceil_div new_size (block_size fs)) :
  is_file fs inode l d -> 0 <= new_size < 2 ^ 32 - 1 -> n' <= doubly_limit e ->
  n' - n <= s_free_blocks_count (m_super_block fs) < n' - n + (n_meta e n' - n_meta e n) ->
  inode_size_of fs inode <> new_size /\ resize fs inode new_size = Stop VerifyFailed.
Proof.
  intros Hf Hnew Hlim Hfree. pose proof (file_inode _ _ _ _ Hf) as Hi. pose proof (inode_alloc _ _ _ Hi) as Hok.
  destruct (addr_per_block _ (alloc_geometry _ Hok)) as [Hbs He]. fold e in He.
  pose proof (inode_length _ _ _ Hi) as Hn. fold n in Hn. pose proof (free_blocks_nonneg _ Hok) as Hf0.
  assert (doubly_limit e < 2 ^ 31) as Hdl by (unfold doubly_limit, EXT2_NDIR_BLOCKS; nia).
  assert (0 <= n') as Hn0 by (unfold n'; rewrite ceil_div_up by lia; pose proof (up_spec new_size (block_size fs)); nia).
  assert (n < n') as Hlt.
  { destruct (Z.lt_ge_cases n n'); [done|]. pose proof (n_meta_mono e n' n ltac:(lia) ltac:(lia)). lia. }
  assert (inode_size_of fs inode <> new_size) as Hne by (intros E; subst n'; rewrite <- E, <- Hn in Hlt; lia).
  split; [done|]. unfold resize. cbn [resize_fuel]. rewrite (proj2 (Z.eqb_neq _ _)) by done.
  rewrite (proj2 (Z.leb_gt (2 ^ 32 - 1) new_size)), andb_false_r by lia. rewrite <- Hn. fold n'.
  rewrite (proj2 (Z.ltb_ge _ (n' - n))), andb_false_r by lia.
  destruct (resize_block_list_spec fs inode l n') as (fs1 & l' & c & Heq & Hl' & Hs1 & _ & Hc); try done; [lia|fold n; lia|].
  fold n in Heq, Hs1, Hc. rewrite Heq. run. change (KSuccess <? 0) with false. cbn iota.
  rewrite (proj2 (Z.leb_le n n')) in * by lia. destruct Hc as [Hc _].
  rewrite (flush_panics fs inode l l' c fs1 Hi); [by run|fold e; lia| |]; rewrite Hl'; fold n e.
  - by rewrite (proj2 (Z.leb_le n n')) by lia.
  - rewrite (step_free _ _ _ _ _ Hs1). rewrite Hc, length_app in Hl'. lia.
Qed.

Lemma truncate_resize fs fs' inode inode' l l' d size :
  is_file fs inode l d -> resize fs inode size = Ret (KSuccess, fs', inode') -> is_file fs' inode' l' (fit size d) -> m_readonly fs' = false ->
  exists inode'', truncate fs inode size = Ret (KSuccess, fs', inode'') /\ is_file fs' inode'' l' (fit size d) /\ same_identity inode' inode'' /\
    pointers_of inode'' = pointers_of inode'.
Proof.
  intros Hf Heq Hf' Hr. pose proof (file_small _ _ _ _ Hf) as Hsm. unfold truncate. rewrite (size_value fs inode (file_fields _ _ _ _ Hf)) by lia.
  destruct (Z.eqb_spec (inode_size_of fs inode) size) as [<-|Hne].
  - assert (resize fs inode (inode_size_of fs inode) = Ret (KSuccess, fs, inode)) as E by (unfold resize; cbn [resize_fuel]; by rewrite Z.eqb_refl).
    rewrite E in Heq. injection Heq as <- <-. by exists inode.
  - rewrite Heq. run. change (KSuccess <? 0) with false. cbn iota.
    destruct (set_metadata_dirty_spec fs' inode' true Hr) as (inode'' & -> & ->). run. eexists. split; [done|].
    split; [apply (is_file_same _ inode'); try done; apply Hf'|]. by unfold same_identity.
Qed.

(** C14. [truncate] of a file without holes to a size below 2^32 - 1, on a consistent file
    system that is not read-only. With room ([room]: enough free blocks for the data and
    the pointers, within the doubly indirect blocks) it cuts the bytes off or adds zeros,
    leaves other inodes alone and gives every block back that is no longer needed; the
    exception is size 0, where the blocks of pointers are neither freed nor in use
    afterwards. When the data needs more blocks than are free it is ENOSPC, and nothing
    has changed. When the data fits and the blocks of pointers do not, the kernel stops at
    a failed VERIFY. *)
Theorem Ext2FSInode_truncate_correct fs inode l d size (n := Z.of_nat (length l)) (n' := ceil_div size (block_size fs))
    (e := EXT2_ADDR_PER_BLOCK fs) (free := s_free_blocks_count (m_super_block fs)) :
  is_file fs inode l d -> m_readonly fs = false -> 0 <= size < 2 ^ 32 - 1 ->
  (room fs l size ->
   exists fs' inode' l', truncate fs inode size = Ret (KSuccess, fs', inode') /\ is_file fs' inode' l' (fit size d) /\ same_identity inode inode' /\
     (forall other l2 d2, is_file fs other l2 d2 -> apart fs other l2 inode l -> is_file fs' other l2 d2 /\ apart fs' other l2 inode' l') /\
     s_free_blocks_count (m_super_block fs') + Z.of_nat (length (all_blocks fs' inode' l')) +
       (if (size =? 0) && negb (Z.of_nat (length d) =? 0) then n_meta (EXT2_ADDR_PER_BLOCK fs) (Z.of_nat (length l)) else 0) =
     s_free_blocks_count (m_super_block fs) + Z.of_nat (length (all_blocks fs inode l))) /\
  (free < n' - n -> truncate fs inode size = Ret (- ENOSPC, fs, inode)) /\
  (n' <= doubly_limit e -> n' - n <= free < n' - n + (n_meta e n' - n_meta e n) -> truncate fs inode size = Stop VerifyFailed).
Proof.
  intros Hf Hr Hs. pose proof (file_inode _ _ _ _ Hf) as Hi. pose proof (file_small _ _ _ _ Hf) as Hsm. split_and!.
  - intros [Hlim Hfree]. destruct (resize_spec fs inode l d size Hf Hr Hs Hlim Hfree) as (fs' & inode' & l' & Heq & Hf' & Hid & Hl' & Hres).
    assert (m_readonly fs' = false) as Hr' by (destruct Hres as (L & Hst & _); by rewrite (geometry_readonly _ _ (step_geometry _ _ _ _ _ Hst))).
    destruct (truncate_resize _ _ _ _ _ _ _ _ Hf Heq Hf' Hr') as (inode'' & Ht & Hf'' & Hid' & Ep).
    assert (all_blocks fs' inode' l' = all_blocks fs' inode'' l') as Eall by (unfold all_blocks; by rewrite Ep). rewrite Eall in Hres.
    exists fs', inode'', l'. split; [done|]. split; [done|]. split; [by eapply same_identity_trans|]. split; [intros other l2 d2; by eapply resized_other|].
    rewrite <- Hl' in Hres. pose proof (resized_free _ _ _ _ _ _ _ Hres) as Hfr. by rewrite (lost_length fs inode l l' d size _ Hf) in Hfr by (done || lia).
  - intros Hno. subst free n n'. pose proof (free_blocks_nonneg _ (inode_alloc _ _ _ Hi)). unfold truncate. rewrite (size_value fs inode (file_fields _ _ _ _ Hf)) by lia.
    pose proof (inode_length _ _ _ Hi) as Hn. destruct (Z.eqb_spec (inode_size_of fs inode) size) as [<-|Hne]; [lia|].
    unfold resize. cbn [resize_fuel]. rewrite (proj2 (Z.eqb_neq _ _)) by done. rewrite (proj2 (Z.leb_gt (2 ^ 32 - 1) size)), andb_false_r by lia. rewrite <- Hn.
    rewrite (proj2 (Z.ltb_lt _ (ceil_div size _))), (proj2 (Z.ltb_lt _ (ceil_div size _ - _))) by lia. run. done.
  - intros Hlim Hfree. unfold truncate. rewrite (size_value fs inode (file_fields _ _ _ _ Hf)) by lia.
    destruct (resize_panics fs inode l d size Hf Hs Hlim Hfree) as [Hne ->]. by rewrite (proj2 (Z.eqb_neq _ _)) by done.
Qed.

End contents.

(** ** A new inode on the small disk *)

#[local] Instance no_bytes_left : Uninitialized := fun n => [].

Lemma ext2_inode_new_file : is_file ext2_sample ext2_inode_new [] [].
Proof. split; [exact ext2_inode_new_ok|done|by vm_compute|split; by vm_compute|done]. Qed.


Lemma Ext2FSInode_truncate_witness :
  (exists fs' inode' l', truncate ext2_sample ext2_inode_new 20000 = Ret (KSuccess, fs', inode') /\ is_file fs' inode' l' (fit 20000 [])) /\
  truncate ext2_sample ext2_inode_new 30000 = Ret (- ENOSPC, ext2_sample, ext2_inode_new).
Proof.
  split.
  - destruct (Ext2FSInode_truncate_correct ext2_sample ext2_inode_new [] [] 20000) as [Ht _]; [exact ext2_inode_new_file|done|done|].
    destruct Ht as (fs' & inode' & l' & Heq & Hf & _); [split; by vm_compute|]. exists fs', inode', l'. split; [exact Heq|exact Hf].
  - apply (Ext2FSInode_truncate_correct ext2_sample ext2_inode_new [] [] 30000); [exact ext2_inode_new_file|done|done|]. by vm_compute.
Defined.

(** ** Where the code is not right *)

(** 22 blocks are free.  A file of 22 blocks passes the test of [resize], and then there is none
    left for the block of pointers: [allocate_blocks] does not return an error. *)
Lemma full_disk_panics : truncate ext2_sample ext2_inode_new (22 * 1024) = Stop VerifyFailed.
Proof. by vm_compute. Qed.

(** Writing nothing to an empty file is an error. *)
Lemma empty_write_fails :
  match write_bytes ext2_sample ext2_inode_new 0 0 (for_kernel_buffer []) false with Ret (result, _, _) => result = - EIO | _ => False end.
Proof. by vm_compute. Qed.
