(* ===== verification/Ext2Inode.v ===== *)
(** * Kernel/FileSystem/Ext2FileSystem: the table of inodes

    The layout of [ext2_inode] on the disk, [find_block_containing_inode], [write_ext2_inode],
    [get_inode] and [flush_metadata], the link counts, and [free_inode].

    The objects of class [Ext2FSInode] are the values of [m_inode_cache], which is where the
    kernel finds them.  The theorem says that an inode survives being written to its place in
    the table, dropped from the cache and loaded again. *)

From stdpp Require Import gmap.
From S2P Require Import Prelude BitmapView DoubleBuffer DiskCache Ext2Alloc Ext2BlockList Ext2File.

#[local] Open Scope Z_scope.

(** ** The bytes of an inode *)

Definition u16_bytes (x : Z) : list Z := [x mod 2 ^ 8; x / 2 ^ 8 mod 2 ^ 8].

(** The integer in [n] bytes at [o], the lowest first. *)
Definition little_endian (l : list Z) : Z := foldr (fun b n => b + 2 ^ 8 * n) 0 l.
Definition field_at (d : list Z) (o n : Z) : Z := little_endian (slice d o n).

Definition inode_bytes (r : ext2_inode) : list Z :=
  u16_bytes (i_mode r) ++ u16_bytes (i_uid r) ++ u32_bytes (i_size r) ++ u32_bytes (i_atime r) ++ u32_bytes (i_ctime r) ++
  u32_bytes (i_mtime r) ++ u32_bytes (i_dtime r) ++ u16_bytes (i_gid r) ++ u16_bytes (i_links_count r) ++ u32_bytes (i_blocks r) ++
  u32_bytes (i_flags r) ++ u32_bytes (i_osd1 r) ++ pointer_bytes (i_block r) ++ u32_bytes (i_generation r) ++
  u32_bytes (i_file_acl r) ++ u32_bytes (i_dir_acl r) ++ u32_bytes (i_faddr r) ++ i_osd2 r.

Definition inode_of_bytes (d : list Z) : ext2_inode :=
  MkRawInode (field_at d 0 2) (field_at d 2 2) (field_at d 4 4) (field_at d 8 4) (field_at d 12 4) (field_at d 16 4) (field_at d 20 4)
    (field_at d 24 2) (field_at d 26 2) (field_at d 28 4) (field_at d 32 4) (field_at d 36 4) (pointers (slice d 40 60))
    (field_at d 100 4) (field_at d 104 4) (field_at d 108 4) (field_at d 112 4) (slice d 116 12).

(** [sizeof(ext2_inode)]. *)
Definition sizeof_ext2_inode : Z := 128.

Definition EXT2_ROOT_INO : Z := 2.
Definition max_link_count : Z := 65535.

Section inodes.
Context {S : Type} `{!BlockStore S} `{!Uninitialized}.
Implicit Types (fs : Ext2FS S) (inode : Ext2FSInode).

Definition EXT2_BLOCK_SIZE_BITS fs : Z := s_log_block_size (m_super_block fs) + 10.

Definition find_block_containing_inode fs (inode : Z) : outcome (option (Z * Z)) :=
  if negb (inode =? EXT2_ROOT_INO) && (inode <? EXT2_FIRST_INO fs) then Ret None
  else if s_inodes_count (m_super_block fs) <? inode then Ret None
  else
    bgd ← group_descriptor fs (group_index_from_inode fs inode);
    let offset := wrap u32 (wrap u32 ((inode - 1) mod inodes_per_group fs) * inode_size fs) in
    let block_index := wrap u32 (bg_inode_table bgd + Z.shiftr offset (EXT2_BLOCK_SIZE_BITS fs)) in
    Ret (Some (block_index, Z.land offset (block_size fs - 1))).

(** The bytes that are written are those of the structure; an [inode_size] larger than it reads
    what lies behind. *)
Definition write_ext2_inode fs (inode : Z) (e2inode : ext2_inode) : outcome (bool * Ext2FS S) :=
  location ← find_block_containing_inode fs inode;
  match location with
  | None => Ret (false, fs)
  | Some (block_index, offset) =>
      bytes ← copy_from (inode_bytes e2inode) 0 (inode_size fs);
      '(result, fs) ← fs_write_block fs block_index (for_kernel_buffer bytes) (inode_size fs) offset true;
      Ret (0 <=? result, fs)
  end.

Definition set_inode_cache fs (index : Z) (inode : option Ext2FSInode) : Ext2FS S :=
  fs <| m_inode_cache := <[index := inode]> (m_inode_cache fs) |>.

Definition get_inode fs (index : Z) : outcome (option Ext2FSInode * Ext2FS S) :=
  match m_inode_cache fs !! index with
  | Some inode => Ret (inode, fs)
  | None =>
      '(state_or_error, fs) ← get_inode_allocation_state fs index;
      match state_or_error with
      | inl _ => Ret (None, fs)
      | inr false => Ret (None, set_inode_cache fs index None)
      | inr true =>
          location ← find_block_containing_inode fs index;
          match location with
          | None => Ret (None, fs)
          | Some (block_index, offset) =>
              '(result, bytes, fs) ← fs_read_block fs block_index (for_kernel_buffer []) sizeof_ext2_inode offset true;
              if result <? 0 then Ret (None, fs)
              else
                let new_inode := MkInode index (inode_of_bytes bytes) [] ∅ false in
                Ret (Some new_inode, set_inode_cache fs index (Some new_inode))
          end
      end
  end.

Definition uncache_inode fs (index : Z) : Ext2FS S := fs <| m_inode_cache := delete index (m_inode_cache fs) |>.

Definition flush_metadata fs inode : outcome (Ext2FS S * Ext2FSInode) :=
  '(_, fs) ← write_ext2_inode fs (m_index inode) (m_raw_inode inode);
  let inode := if is_directory (i_mode (m_raw_inode inode)) && negb (i_links_count (m_raw_inode inode) =? 0)
               then inode <| m_lookup_cache := ∅ |> else inode in
  inode ← set_metadata_dirty fs inode false;
  Ret (fs, inode).

(** ** Times and links *)

Definition set_time (update : Z -> ext2_inode -> ext2_inode) fs inode (t : Z) : outcome (Z * Ext2FSInode) :=
  if m_readonly fs then Ret (- EROFS, inode)
  else inode ← set_metadata_dirty fs (update_raw inode (update (wrap u32 t))) true; Ret (0, inode).
Definition set_atime := set_time (fun t r => r <| i_atime := t |>).
Definition set_ctime := set_time (fun t r => r <| i_ctime := t |>).
Definition set_mtime := set_time (fun t r => r <| i_mtime := t |>).

Definition increment_link_count fs inode : outcome (Z * Ext2FSInode) :=
  if m_readonly fs then Ret (- EROFS, inode)
  else if i_links_count (m_raw_inode inode) =? max_link_count then Ret (- EMLINK, inode)
  else
    inode ← set_metadata_dirty fs (update_raw inode (fun r => r <| i_links_count := wrap u16 (i_links_count r + 1) |>)) true;
    Ret (KSuccess, inode).

(** [ref_count] is the number of references to the object. *)
Definition decrement_link_count fs inode (ref_count : Z) : outcome (Z * Ext2FS S * Ext2FSInode) :=
  if m_readonly fs then Ret (- EROFS, fs, inode)
  else
    VERIFY (negb (i_links_count (m_raw_inode inode) =? 0)) ;;
    let inode := update_raw inode (fun r => r <| i_links_count := wrap u16 (i_links_count r - 1) |>) in
    let fs := if (ref_count =? 1) && (i_links_count (m_raw_inode inode) =? 0) then uncache_inode fs (m_index inode) else fs in
    inode ← set_metadata_dirty fs inode true;
    Ret (KSuccess, fs, inode).

(** ** Deleting an inode *)

(** Errors are only logged. *)
Fixpoint free_blocks fs (l : list Z) : outcome (Ext2FS S) :=
  match l with
  | [] => Ret fs
  | block_index :: l =>
      VERIFY (block_index <=? s_blocks_count (m_super_block fs)) ;;
      fs ← (if negb (block_index =? 0) then '(_, fs) ← set_block_allocation_state fs block_index false; Ret fs else Ret fs);
      free_blocks fs l
  end.

Definition raw_inode_zero : ext2_inode :=
  MkRawInode 0 0 0 0 0 0 0 0 0 0 0 0 (replicate (Z.to_nat EXT2_N_BLOCKS) 0) 0 0 0 0 (replicate 12 0).

Definition count_dirs fs (index n : Z) : outcome (Ext2FS S) :=
  _ ← group_descriptor fs (group_index_from_inode fs index);
  Ret (update_group fs (group_index_from_inode fs index) (fun d => d <| bg_used_dirs_count := wrap u16 (bg_used_dirs_count d + n) |>)
         <| m_block_group_descriptors_dirty := true |>).

Definition free_inode fs inode (now : Z) : outcome (Ext2FS S * Ext2FSInode) :=
  VERIFY (i_links_count (m_raw_inode inode) =? 0) ;;
  '(l, fs) ← compute_block_list_with_meta_blocks fs inode;
  fs ← free_blocks fs l;
  fs ← (if is_directory (i_mode (m_raw_inode inode)) then count_dirs fs (m_index inode) (- 1) else Ret fs);
  let inode := inode <| m_raw_inode := raw_inode_zero <| i_dtime := wrap u32 now |> |> in
  '(_, fs) ← write_ext2_inode fs (m_index inode) (m_raw_inode inode);
  '(_, fs) ← set_inode_allocation_state fs (m_index inode) false;
  Ret (fs, inode).
End inodes.

(** ** Reading the bytes back *)

(** The fields are in the range of their types. *)
Record inode_typed (r : ext2_inode) : Prop := InodeTyped {
  typed_16 : Forall (fun x => 0 <= x < 2 ^ 16) [i_mode r; i_uid r; i_gid r; i_links_count r];
  typed_32 : Forall is_u32 [i_size r; i_atime r; i_ctime r; i_mtime r; i_dtime r; i_blocks r; i_flags r; i_osd1 r;
    i_generation r; i_file_acl r; i_dir_acl r; i_faddr r];
  typed_block : length (i_block r) = Z.to_nat EXT2_N_BLOCKS /\ Forall is_u32 (i_block r);
  typed_osd2 : length (i_osd2 r) = 12%nat /\ is_bytes (i_osd2 r)
}.

Lemma le_u16 x : 0 <= x < 2 ^ 16 -> little_endian (u16_bytes x) = x.
Proof. intros Hx. unfold u16_bytes. cbn [little_endian foldr]. int_lia. Qed.

Lemma le_u32 x : is_u32 x -> little_endian (u32_bytes x) = x.
Proof. unfold is_u32. intros Hx. unfold u32_bytes. cbn [little_endian foldr]. int_lia. Qed.

(** The next field of the structure. *)
Lemma slice_next {A} (a b c : list A) o n : o = Z.of_nat (length a) -> n = Z.of_nat (length b) -> slice (a ++ b ++ c) o n = b.
Proof. intros -> ->. unfold slice. rewrite !Nat2Z.id, drop_app_length. apply take_app_length. Qed.

(** The fields before and behind the pointers. *)
Definition inode_head (r : ext2_inode) : list Z :=
  u16_bytes (i_mode r) ++ u16_bytes (i_uid r) ++ u32_bytes (i_size r) ++ u32_bytes (i_atime r) ++ u32_bytes (i_ctime r) ++
  u32_bytes (i_mtime r) ++ u32_bytes (i_dtime r) ++ u16_bytes (i_gid r) ++ u16_bytes (i_links_count r) ++ u32_bytes (i_blocks r) ++
  u32_bytes (i_flags r) ++ u32_bytes (i_osd1 r).
Definition inode_tail (r : ext2_inode) : list Z :=
  u32_bytes (i_generation r) ++ u32_bytes (i_file_acl r) ++ u32_bytes (i_dir_acl r) ++ u32_bytes (i_faddr r) ++ i_osd2 r.

Lemma inode_bytes_parts r : inode_bytes r = inode_head r ++ pointer_bytes (i_block r) ++ inode_tail r.
Proof. reflexivity. Qed.

Lemma inode_pointer_bytes r : inode_typed r -> length (pointer_bytes (i_block r)) = 60%nat /\ pointers (pointer_bytes (i_block r)) = i_block r.
Proof.
  intros [_ _ [Hl Hu] _]. rewrite pointer_bytes_length, Hl. split; [done|]. rewrite <- (app_nil_r (pointer_bytes _)), pointers_app by done. by rewrite app_nil_r.
Qed.

Lemma u16_bytes_ok x : is_bytes (u16_bytes x).
Proof. unfold u16_bytes. repeat apply Forall_cons_2; try int_lia. apply Forall_nil_2. Qed.

Lemma u32_bytes_ok x : is_bytes (u32_bytes x).
Proof. unfold u32_bytes. repeat apply Forall_cons_2; try int_lia. apply Forall_nil_2. Qed.

Lemma inode_bytes_ok r : inode_typed r -> length (inode_bytes r) = Z.to_nat sizeof_ext2_inode /\ is_bytes (inode_bytes r).
Proof.
  intros Hr. pose proof (inode_pointer_bytes r Hr) as [Hl _]. destruct Hr as [_ _ _ [Hol Hob]]. rewrite inode_bytes_parts. split.
  - rewrite !length_app, Hl. unfold inode_tail. rewrite !length_app, Hol. reflexivity.
  - unfold inode_head, inode_tail. rewrite <- !app_assoc.
    repeat (apply Forall_app; split; [first [apply u16_bytes_ok | apply u32_bytes_ok | apply pointer_bytes_ok]|]). done.
Qed.

Lemma inode_of_bytes_correct r : inode_typed r -> inode_of_bytes (inode_bytes r) = r.
Proof.
  intros Hr. destruct (inode_pointer_bytes r Hr) as [Hl Hp]. destruct Hr as [H16 H32 _ [Hol _]].
  assert (Z.of_nat (length (inode_head r ++ pointer_bytes (i_block r))) = 100) as Hhl by (rewrite length_app, Hl; reflexivity).
  assert (forall a b c n, inode_tail r = a ++ b ++ c -> n = Z.of_nat (length b) -> slice (inode_bytes r) (100 + Z.of_nat (length a)) n = b) as Htail.
  { intros a b c n Ht Hn. rewrite inode_bytes_parts, app_assoc, Ht, (app_assoc _ a). apply slice_next; [|done]. rewrite length_app. lia. }
  repeat match goal with H : Forall _ (_ :: _) |- _ => apply Forall_cons_1 in H as [? H] end.
  unfold inode_of_bytes, field_at.
  assert (slice (inode_bytes r) 40 60 = pointer_bytes (i_block r)) as -> 
    by (rewrite inode_bytes_parts; apply (slice_next (inode_head r)); [reflexivity|by rewrite Hl]). rewrite Hp.
  rewrite (Htail [] (u32_bytes (i_generation r)) _ 4 eq_refl eq_refl : slice (inode_bytes r) 100 4 = _).
  rewrite (Htail (u32_bytes (i_generation r)) (u32_bytes (i_file_acl r)) _ 4 eq_refl eq_refl : slice (inode_bytes r) 104 4 = _).
  rewrite (Htail (u32_bytes (i_generation r) ++ u32_bytes (i_file_acl r)) (u32_bytes (i_dir_acl r)) _ 4 eq_refl eq_refl : slice (inode_bytes r) 108 4 = _).
  rewrite (Htail (u32_bytes (i_generation r) ++ u32_bytes (i_file_acl r) ++ u32_bytes (i_dir_acl r)) (u32_bytes (i_faddr r)) _ 4 eq_refl eq_refl : slice (inode_bytes r) 112 4 = _).
  assert (slice (inode_bytes r) 116 12 = i_osd2 r) as ->.
  { apply (Htail (u32_bytes (i_generation r) ++ u32_bytes (i_file_acl r) ++ u32_bytes (i_dir_acl r) ++ u32_bytes (i_faddr r)) _ []);
      [by rewrite app_nil_r|by rewrite Hol]. }
  change (slice (inode_bytes r) 0 2) with (u16_bytes (i_mode r)). change (slice (inode_bytes r) 2 2) with (u16_bytes (i_uid r)).
  change (slice (inode_bytes r) 4 4) with (u32_bytes (i_size r)). change (slice (inode_bytes r) 8 4) with (u32_bytes (i_atime r)).
  change (slice (inode_bytes r) 12 4) with (u32_bytes (i_ctime r)). change (slice (inode_bytes r) 16 4) with (u32_bytes (i_mtime r)).
  change (slice (inode_bytes r) 20 4) with (u32_bytes (i_dtime r)). change (slice (inode_bytes r) 24 2) with (u16_bytes (i_gid r)).
  change (slice (inode_bytes r) 26 2) with (u16_bytes (i_links_count r)). change (slice (inode_bytes r) 28 4) with (u32_bytes (i_blocks r)).
  change (slice (inode_bytes r) 32 4) with (u32_bytes (i_flags r)). change (slice (inode_bytes r) 36 4) with (u32_bytes (i_osd1 r)).
  rewrite !le_u16, !le_u32 by done. by destruct r.
Qed.

Section table.
Context {S : Type} `{!BlockStore S} `{!BlockStoreLaws S} `{!Uninitialized}.
Implicit Types (fs : Ext2FS S) (inode : Ext2FSInode).

(** ** The place of an inode *)

Definition table_block fs (i : Z) : Z :=
  match block_group_descriptors fs !! Z.to_nat ((i - 1) / inodes_per_group fs) with
  | Some d => bg_inode_table d + (i - 1) mod inodes_per_group fs * sizeof_ext2_inode / block_size fs
  | None => 0
  end.
Definition table_offset fs (i : Z) : Z := (i - 1) mod inodes_per_group fs * sizeof_ext2_inode mod block_size fs.

(** Inodes have the size of the structure, and the tables of the groups lie apart. *)
Record table_ok fs : Prop := TableOk {
  table_size : inode_size fs = sizeof_ext2_inode;
  table_own i : 1 <= i <= s_inodes_count (m_super_block fs) -> own fs (table_block fs i);
  table_apart i j : 1 <= i <= s_inodes_count (m_super_block fs) -> 1 <= j <= s_inodes_count (m_super_block fs) ->
    (i - 1) / inodes_per_group fs <> (j - 1) / inodes_per_group fs -> table_block fs i <> table_block fs j
}.

Definition valid_inode fs (i : Z) : Prop := (i = EXT2_ROOT_INO \/ EXT2_FIRST_INO fs <= i) /\ 1 <= i <= s_inodes_count (m_super_block fs).

(** What the disk says about an inode. *)
Definition inode_entry fs (i : Z) : ext2_inode :=
  inode_of_bytes (slice (contents (base fs) (table_block fs i)) (table_offset fs i) sizeof_ext2_inode).

Lemma inode_group fs i :
  geometry_ok fs -> 1 <= i <= s_inodes_count (m_super_block fs) ->
  exists d, block_group_descriptors fs !! Z.to_nat ((i - 1) / inodes_per_group fs) = Some d /\
    group_descriptor fs (group_index_from_inode fs i) = Ret d.
Proof.
  intros Hg Hi. pose proof (geo_inodes _ Hg). pose proof (geo_total_inodes _ Hg). pose proof (geo_count _ Hg). pose proof (geo_bound _ Hg).
  assert (0 <= (i - 1) / inodes_per_group fs < m_block_group_count fs) as Hgi by (split; [apply Z.div_pos; lia|apply Z.div_lt_upper_bound; nia]).
  destruct (lookup_lt_is_Some_2 (block_group_descriptors fs) (Z.to_nat ((i - 1) / inodes_per_group fs))) as [d Hd]; [lia|].
  exists d. split; [done|]. pose proof (group_descriptor_spec _ _ _ Hg Hd) as Hgd. rewrite Z2Nat.id in Hgd by lia.
  unfold group_index_from_inode. rewrite (proj2 (Z.eqb_neq i 0)) by lia. rewrite (wrap_id u32 eq_refl) by (rewrite in_type_u32; nia). done.
Qed.

Lemma block_size_bits fs : geometry_ok fs -> block_size fs = 2 ^ EXT2_BLOCK_SIZE_BITS fs /\ 0 <= EXT2_BLOCK_SIZE_BITS fs.
Proof.
  intros Hg. pose proof (geo_log _ Hg). unfold EXT2_BLOCK_SIZE_BITS. split; [|lia]. rewrite (geo_size _ Hg). unfold EXT2_BLOCK_SIZE.
  assert (s_log_block_size (m_super_block fs) = 0 \/ s_log_block_size (m_super_block fs) = 1 \/ s_log_block_size (m_super_block fs) = 2)
    as [-> | [-> | ->]] by lia; by vm_compute.
Qed.

(** An entry does not cross the end of a block. *)
Lemma table_offset_bound fs i : geometry_ok fs -> 0 <= table_offset fs i /\ table_offset fs i + sizeof_ext2_inode <= block_size fs.
Proof.
  intros Hg. unfold table_offset, sizeof_ext2_inode. set (k := (i - 1) mod inodes_per_group fs).
  destruct (block_size_cases _ Hg) as [-> |[-> | ->]]; Z.to_euclidean_division_equations; lia.
Qed.

Lemma find_block_spec fs i :
  alloc_ok fs -> table_ok fs -> valid_inode fs i -> find_block_containing_inode fs i = Ret (Some (table_block fs i, table_offset fs i)).
Proof.
  intros Hok Ht [Hv Hi]. pose proof (alloc_geometry _ Hok) as Hg. destruct (inode_group fs i Hg Hi) as (d & Hd & Hgd).
  pose proof (own_u32 _ _ Hok (table_own _ Ht i Hi)) as Hu. unfold find_block_containing_inode.
  assert (negb (i =? EXT2_ROOT_INO) && (i <? EXT2_FIRST_INO fs) = false) as ->.
  { apply andb_false_iff. destruct Hv as [-> |Hv]; [by left|right; apply Z.ltb_ge; lia]. }
  rewrite (proj2 (Z.ltb_ge _ i)) by lia. rewrite Hgd. run. pose proof (geo_inodes _ Hg). pose proof (geo_group _ Hg).
  assert (0 < inodes_per_group fs) as Hz by lia. pose proof (Z.mod_pos_bound (i - 1) _ Hz) as Hm. destruct (block_size_bits fs Hg) as [Hbits Hb0].
  assert (block_size fs <= 4096) as Hbs by (destruct (block_size_cases _ Hg) as [-> |[-> | ->]]; lia).
  rewrite (table_size _ Ht). unfold table_block, table_offset, is_u32, sizeof_ext2_inode in *. rewrite Hd in *.
  rewrite (wrap_id u32 eq_refl ((i - 1) mod inodes_per_group fs)) by (rewrite in_type_u32; lia).
  rewrite (wrap_id u32 eq_refl ((i - 1) mod inodes_per_group fs * 128)) by (rewrite in_type_u32; lia).
  rewrite Z.shiftr_div_pow2, <- Hbits by lia. rewrite (wrap_id u32 eq_refl) by (rewrite in_type_u32; lia).
  assert (forall x, Z.land x (block_size fs - 1) = x mod block_size fs) as ->; [|done].
  intros x. rewrite Hbits, Z.sub_1_r, <- Z.ones_equiv. by apply Z.land_ones.
Qed.
(** ** Writing and loading *)

Lemma step_table fs fs' W L v i :
  step fs fs' W L v -> table_block fs' i = table_block fs i /\ table_offset fs' i = table_offset fs i.
Proof.
  intros Hs. destruct (geometry_fields _ _ (step_geometry _ _ _ _ _ Hs)) as (Ebs & _ & Eipg & _ & _ & _ & _ & Emap).
  unfold table_block, table_offset. rewrite Ebs, Eipg. split; [|done]. set (g := Z.to_nat _). apply (f_equal (.!! g)) in Emap. rewrite !list_lookup_fmap in Emap.
  destruct (block_group_descriptors fs' !! g), (block_group_descriptors fs !! g); try done. injection Emap as _ _ ->. done.
Qed.

Lemma step_table_ok fs fs' W L v : step fs fs' W L v -> table_ok fs -> table_ok fs'.
Proof.
  intros Hs [H1 H2 H3]. destruct (geometry_fields _ _ (step_geometry _ _ _ _ _ Hs)) as (_ & _ & Eipg & _ & Eino & _).
  pose proof (step_geometry _ _ _ _ _ Hs) as Hgeo. split.
  - rewrite <- H1. unfold geometry, set_field in Hgeo. cbn in Hgeo. injection Hgeo as _ _ _ _ _ _ Erev _ Esize _ _ _ _. unfold inode_size. by rewrite Erev, Esize.
  - intros i. rewrite Eino. destruct (step_table _ _ _ _ _ i Hs) as [-> _]. intros Hi. by apply (step_own _ _ _ _ _ _ Hs), H2.
  - intros i j. rewrite Eino, Eipg. destruct (step_table _ _ _ _ _ i Hs) as [-> _], (step_table _ _ _ _ _ j Hs) as [-> _]. apply H3.
Qed.

(** Entries of different inodes do not overlap. *)
Lemma entries_apart fs i j :
  geometry_ok fs -> table_ok fs -> 1 <= i <= s_inodes_count (m_super_block fs) -> 1 <= j <= s_inodes_count (m_super_block fs) -> i <> j ->
  table_block fs i = table_block fs j ->
  table_offset fs i + sizeof_ext2_inode <= table_offset fs j \/ table_offset fs j + sizeof_ext2_inode <= table_offset fs i.
Proof.
  intros Hg Ht Hi Hj Hne Hb. pose proof (geo_inodes _ Hg).
  destruct (Z.eq_dec ((i - 1) / inodes_per_group fs) ((j - 1) / inodes_per_group fs)) as [Hgrp|Hgrp]; [|by destruct (table_apart _ Ht i j)].
  destruct (inode_group fs i Hg Hi) as (d & Hd & _). unfold table_block in Hb. rewrite <- Hgrp, Hd in Hb.
  assert (inodes_per_group fs <> 0) as Hz by lia. pose proof (Z.div_mod (i - 1) _ Hz). pose proof (Z.div_mod (j - 1) _ Hz).
  unfold table_offset, sizeof_ext2_inode in *. set (ki := (i - 1) mod inodes_per_group fs) in *. set (kj := (j - 1) mod inodes_per_group fs) in *.
  assert (ki <> kj) by (intros ?; apply Hne; nia). assert (block_size fs <> 0) as Hz' by (destruct (block_size_cases _ Hg) as [-> |[-> | ->]]; lia).
  pose proof (Z.div_mod (ki * 128) _ Hz'). pose proof (Z.div_mod (kj * 128) _ Hz'). nia.
Qed.

Lemma write_ext2_inode_spec fs i r :
  alloc_ok fs -> table_ok fs -> valid_inode fs i -> inode_typed r ->
  exists fs', write_ext2_inode fs i r = Ret (true, fs') /\ (forall v, step fs fs' [table_block fs i] [] v) /\ fs' = fs <| base := base fs' |> /\
    forall j, 1 <= j <= s_inodes_count (m_super_block fs) -> inode_entry fs' j = if decide (i = j) then r else inode_entry fs j.
Proof.
  intros Hok Ht Hv Hr. pose proof (alloc_geometry _ Hok) as Hg. pose proof Hv as [_ Hi]. unfold write_ext2_inode. rewrite (find_block_spec fs i) by done. run.
  destruct (inode_bytes_ok r Hr) as [Hl Hb]. rewrite (table_size _ Ht). unfold copy_from. rewrite (proj2 (Z.leb_le (0 + _) _)) by lia. cbn [Z.leb Z.compare andb].
  change (take (Z.to_nat sizeof_ext2_inode) (drop (Z.to_nat 0) (inode_bytes r))) with (take (Z.to_nat sizeof_ext2_inode) (inode_bytes r)).
  rewrite <- Hl, firstn_all. run. destruct (table_offset_bound fs i Hg) as [Ho1 Ho2].
  destruct (fs_write_block_spec fs (table_block fs i) (for_kernel_buffer (inode_bytes r)) sizeof_ext2_inode (table_offset fs i))
    as (fs' & Heq & Hs & Hc & Hrest); try done; [by apply (table_own _ Ht)|cbn [u_bytes for_kernel_buffer]; lia|].
  rewrite Heq. run. exists fs'. split; [done|]. split; [done|]. split; [done|]. intros j Hj. unfold inode_entry.
  destruct (step_table _ _ _ _ _ j (Hs true)) as [-> ->]. cbn [u_bytes for_kernel_buffer] in Hc. rewrite <- Hl, firstn_all in Hc.
  destruct (contents_ok (base fs) (table_block fs i)) as [Hcl _]; [apply Hok|apply own_valid; [done|by apply (table_own _ Ht)]|].
  change (store_block_size (base fs)) with (block_size fs) in Hcl. assert (0 < sizeof_ext2_inode) by done. case_decide as Hij.
  - subst j. rewrite Hc, slice_splice_same by lia. by apply inode_of_bytes_correct.
  - destruct (Z.eq_dec (table_block fs i) (table_block fs j)) as [Hbe|Hbe].
    + destruct (table_offset_bound fs j Hg) as [Hj1 Hj2]. rewrite <- Hbe, Hc, slice_splice_other; try done; [lia|].
      destruct (entries_apart fs i j Hg Ht Hi Hj Hij Hbe); lia.
    + rewrite (step_contents _ _ _ _ _ (Hs true)); [done|apply own_valid; [done|by apply (table_own _ Ht)]|]. by rewrite list_elem_of_singleton.
Qed.

Lemma get_inode_allocation_state_spec fs i :
  alloc_ok fs -> 1 <= i <= s_inodes_count (m_super_block fs) ->
  exists fs', get_inode_allocation_state fs i = Ret (inr (inode_used fs i), fs') /\ forall v, step fs fs' [] [] v.
Proof.
  intros Hok Hi. pose proof (alloc_geometry _ Hok) as Hg. destruct (inode_group fs i Hg Hi) as (d & Hd & Hgd). pose proof (geo_inodes _ Hg).
  pose proof (geo_group _ Hg). pose proof (geo_bound _ Hg). pose proof (geo_total_inodes _ Hg). pose proof (block_size_cases _ Hg).
  unfold get_inode_allocation_state. rewrite (proj2 (Z.eqb_neq i 0)) by lia. rewrite Hgd. run.
  destruct (get_bitmap_block_spec fs (bg_inode_bitmap d)) as (k & c & fs1 & -> & Hq & Hc & Hidx & Hbuf); [apply Hok|by eapply bitmap_valid|]. run.
  unfold cached_bitmap. rewrite Hc. run. assert (inodes_per_group fs1 = inodes_per_group fs) as -> by (by rewrite (quiet_rest _ _ Hq)).
  assert (0 < inodes_per_group fs) as Hz by lia. pose proof (Z.div_mod (i - 1) _ ltac:(by apply Z.neq_sym, Z.lt_neq)) as Hdm. pose proof (Z.mod_pos_bound (i - 1) _ Hz) as Hm.
  assert (inode_bit fs (group_index_from_inode fs i) i = (i - 1) mod inodes_per_group fs) as ->.
  { unfold inode_bit, group_index_from_inode. rewrite (proj2 (Z.eqb_neq i 0)) by lia. assert (0 <= (i - 1) / inodes_per_group fs) by (apply Z.div_pos; lia).
    rewrite (wrap_id u32 eq_refl (_ / _ + 1)) by (rewrite in_type_u32; nia). rewrite (wrap_id u32 eq_refl (i - _)) by (rewrite in_type_u32; nia).
    rewrite (wrap_id u32 eq_refl) by (rewrite in_type_u32; nia). replace (i - _ - 1) with ((i - 1) mod inodes_per_group fs) by nia. by apply Z.mod_small. }
  assert (view_ok (bitmap c (inodes_per_group fs))) as Hview.
  { apply (cached_view_ok fs1 k); [apply Hq|done|..]; unfold block_size in *; rewrite (same_store_size _ _ (quiet_store _ _ Hq)); lia. }
  rewrite get_spec by (try done; cbn; lia). run. cbn [bitmap m_data]. rewrite Hbuf. exists fs1. split; [unfold inode_used; by rewrite Hd|].
  intros v. apply blocks_set_step. by apply quiet_blocks_set.
Qed.

(** The cache does not matter for the rest. *)
Lemma alloc_ok_cache fs c : alloc_ok fs -> alloc_ok (fs <| m_inode_cache := c |>).
Proof. intros [[] [] ? ? ? ? ? ? ?]. split; [split|split|..]; assumption. Qed.

Lemma is_file_cache fs c inode l d : is_file fs inode l d -> is_file (fs <| m_inode_cache := c |>) inode l d.
Proof. intros [[] ? ? ? ?]. split; [split; try assumption; by apply alloc_ok_cache|..]; assumption. Qed.

Lemma valid_inode_step fs fs' W L v i : step fs fs' W L v -> valid_inode fs i -> valid_inode fs' i.
Proof.
  intros Hs Hv. pose proof (step_geometry _ _ _ _ _ Hs) as Hgeo. unfold geometry, set_field in Hgeo. cbn in Hgeo.
  injection Hgeo as _ Eino _ _ _ _ Erev Efirst _ _ _ _ _. unfold valid_inode, EXT2_FIRST_INO in *. by rewrite Eino, Erev, Efirst.
Qed.

(** Loading an inode that is not in the cache. *)
Lemma get_inode_spec fs i :
  alloc_ok fs -> table_ok fs -> valid_inode fs i -> m_inode_cache fs !! i = None -> inode_used fs i = true ->
  exists fs', get_inode fs i = Ret (Some (MkInode i (inode_entry fs i) [] ∅ false), set_inode_cache fs' i (Some (MkInode i (inode_entry fs i) [] ∅ false))) /\
    forall v, step fs fs' [] [] v.
Proof.
  intros Hok Ht Hv Hc Hu. pose proof (alloc_geometry _ Hok) as Hg. unfold get_inode. rewrite Hc.
  destruct (get_inode_allocation_state_spec fs i Hok (proj2 Hv)) as (fs1 & -> & Hs1). run. rewrite Hu.
  pose proof (step_ok _ _ _ _ _ (Hs1 true)) as Hok1. pose proof (step_table_ok _ _ _ _ _ (Hs1 true) Ht) as Ht1.
  destruct (step_table _ _ _ _ _ i (Hs1 true)) as [Etb Eto].
  pose proof (valid_inode_step _ _ _ _ _ _ (Hs1 true) Hv) as Hv1.
  rewrite (find_block_spec fs1 i) by done. run. destruct (table_offset_bound fs1 i (alloc_geometry _ Hok1)) as [Ho1 Ho2].
  destruct (fs_read_block_spec fs1 (table_block fs1 i) (for_kernel_buffer []) sizeof_ext2_inode (table_offset fs1 i)) as (fs2 & -> & Hs2 & Hr2);
    try done; [apply own_valid; [done|by apply (table_own _ Ht1), Hv1]|].
  rewrite read_kernel. run. change (KSuccess <? 0) with false. cbn iota. rewrite Etb, Eto.
  assert (contents (base fs1) (table_block fs i) = contents (base fs) (table_block fs i)) as ->.
  { apply (step_contents _ _ _ _ _ (Hs1 true)); [apply own_valid; [done|apply (table_own _ Ht), Hv]|apply not_elem_of_nil]. }
  exists fs2. split; [done|]. intros v. apply (step_app _ fs1 _ [] [] [] [] _ (Hs1 v) (Hs2 v)).
Qed.

Lemma table_ok_cache fs c : table_ok fs -> table_ok (fs <| m_inode_cache := c |>).
Proof. intros []. split; assumption. Qed.

Lemma is_file_step fs fs' W inode l d :
  (forall v, step fs fs' W [] v) -> is_file fs inode l d -> (forall b, b ∈ all_blocks fs inode l -> b ∉ W) -> is_file fs' inode l d.
Proof.
  intros Hs [Hi Hsz Hsm Hf Hd] HW. pose proof (Hs true) as Hst. pose proof (geometry_size _ _ inode (step_geometry _ _ _ _ _ Hst)) as Esz.
  destruct (inode_data _ _ _ Hi) as [Ho _]. split; rewrite ?Esz; try done.
  - apply (inode_ok_step _ _ _ _ _ _ _ Hst Hi); [|by left]. intros b Hb. apply HW, elem_of_app. by right.
  - rewrite (step_bytes_of _ _ _ _ _ _ Hst); [done|apply own_all_valid; [apply Hi|done]|]. intros b Hb. apply HW, elem_of_app. by left.
Qed.

Lemma flush_metadata_spec fs inode :
  alloc_ok fs -> table_ok fs -> valid_inode fs (m_index inode) -> inode_typed (m_raw_inode inode) ->
  exists fs' inode', flush_metadata fs inode = Ret (fs', inode') /\ (forall v, step fs fs' [table_block fs (m_index inode)] [] v) /\
    (forall j, 1 <= j <= s_inodes_count (m_super_block fs) ->
       inode_entry fs' j = if decide (m_index inode = j) then m_raw_inode inode else inode_entry fs j) /\
    m_raw_inode inode' = m_raw_inode inode /\ m_metadata_dirty inode' = false.
Proof.
  intros Hok Ht Hv Hr. unfold flush_metadata. destruct (write_ext2_inode_spec fs (m_index inode) (m_raw_inode inode)) as (fs' & -> & Hs & _ & He); try done. run.
  set (inode0 := if _ && _ then _ else inode). assert (m_raw_inode inode0 = m_raw_inode inode) as Er by (unfold inode0; by destruct (_ && _)).
  unfold set_metadata_dirty. cbn [andb negb VERIFY]. run. eexists _, _. split; [done|]. split; [done|]. split; [done|].
  case_bool_decide; [done|]. by split.
Qed.

(** An inode survives leaving memory: after [flush_metadata], when it is no longer in the
    cache, [get_inode] reads an inode with the same fields, through which the same bytes are
    found.  The entries of all other inodes stay as they are, and so does what other inodes
    contain. *)
Theorem Ext2FSInode_survives_reload fs inode l d :
  is_file fs inode l d -> inode_typed (m_raw_inode inode) -> table_ok fs -> valid_inode fs (m_index inode) -> inode_used fs (m_index inode) = true ->
  (forall b, b ∈ all_blocks fs inode l -> b <> table_block fs (m_index inode)) ->
  exists fs1 inode1 fs2 inode2, flush_metadata fs inode = Ret (fs1, inode1) /\ m_metadata_dirty inode1 = false /\
    get_inode (uncache_inode fs1 (m_index inode)) (m_index inode) = Ret (Some inode2, fs2) /\
    m_index inode2 = m_index inode /\ m_raw_inode inode2 = m_raw_inode inode /\ is_file fs2 inode2 l d /\
    m_inode_cache fs2 !! m_index inode = Some (Some inode2) /\
    (forall other l2 d2, is_file fs other l2 d2 -> (forall b, b ∈ all_blocks fs other l2 -> b <> table_block fs (m_index inode)) ->
       is_file fs2 other l2 d2) /\
    (forall j, 1 <= j <= s_inodes_count (m_super_block fs) -> j <> m_index inode -> inode_entry fs2 j = inode_entry fs j).
Proof.
  intros Hf Hr Ht Hv Hu Hap. pose proof (file_inode _ _ _ _ Hf) as Hi. pose proof (inode_alloc _ _ _ Hi) as Hok. set (i := m_index inode) in *.
  destruct (flush_metadata_spec fs inode) as (fs1 & inode1 & -> & Hs1 & He1 & Er1 & Hd1); try done. fold i in Hs1, He1.
  set (fs1' := uncache_inode fs1 i). destruct (get_inode_spec fs1' i) as (fs2 & Hget & Hs2).
  { apply alloc_ok_cache, (Hs1 true). }
  { by apply table_ok_cache, (step_table_ok _ _ _ _ _ (Hs1 true)). }
  { exact (valid_inode_step _ _ _ _ _ _ (Hs1 true) Hv). }
  { apply lookup_delete_eq. }
  { change (inode_used fs1 i = true). by rewrite (step_inodes _ _ _ _ _ (Hs1 true)). }
  assert (inode_entry fs1' i = m_raw_inode inode) as Ee. { change (inode_entry fs1 i = m_raw_inode inode). rewrite He1 by apply Hv. by rewrite decide_True. }
  rewrite Ee in Hget. set (inode2 := MkInode i (m_raw_inode inode) [] ∅ false) in *.
  assert (forall other l2 d2, is_file fs other l2 d2 -> (forall b, b ∈ all_blocks fs other l2 -> b <> table_block fs i) ->
            is_file (set_inode_cache fs2 i (Some inode2)) other l2 d2) as Hother.
  { intros other l2 d2 Hf2 Hap2. apply is_file_cache, (is_file_step fs1' fs2 []); [done| |by intros b _ ?%elem_of_nil]. apply is_file_cache.
    apply (is_file_step fs fs1 _ _ _ _ Hs1 Hf2). intros b Hb. rewrite list_elem_of_singleton. by apply Hap2. }
  exists fs1, inode1, (set_inode_cache fs2 i (Some inode2)), inode2. split; [done|]. split; [done|]. split; [done|]. split; [done|]. split; [done|].
  split; [|split; [apply lookup_insert_eq|split; [done|]]].
  - apply (is_file_same _ inode); try done; [by apply Hother|by left].
  - intros j Hj Hne. change (inode_entry fs2 j = inode_entry fs j). unfold inode_entry. destruct (step_table _ _ _ _ _ j (Hs2 true)) as [-> ->].
    change (table_block fs1' j) with (table_block fs1 j). change (table_offset fs1' j) with (table_offset fs1 j).
    rewrite (step_contents _ _ _ _ _ (Hs2 true)); [|apply own_valid; [apply alloc_ok_cache, (Hs1 true)|]|apply not_elem_of_nil].
    + change (inode_entry fs1 j = inode_entry fs j). rewrite He1 by done. by rewrite decide_False.
    + change (own fs1 (table_block fs1 j)). destruct (geometry_fields _ _ (step_geometry _ _ _ _ _ (Hs1 true))) as (_ & _ & _ & _ & Eino & _).
      apply (table_own _ (step_table_ok _ _ _ _ _ (Hs1 true) Ht)). by rewrite Eino.
Qed.

End table.

(** ** Inode 11 of the small disk *)

#[local] Instance no_bytes_here : Uninitialized := fun n => [].

Lemma ext2_sample_table : table_ok ext2_sample.
Proof.
  split; [done|..].
  - intros i Hi. change (s_inodes_count (m_super_block ext2_sample)) with 32 in Hi. apply ext2_sample_own. unfold table_block.
    change (inodes_per_group ext2_sample) with 32. change (block_size ext2_sample) with 1024. rewrite Z.div_small by lia. change (Z.to_nat 0) with O.
    cbn [block_group_descriptors ext2_sample lookup list_lookup bg_inode_table]. unfold sizeof_ext2_inode. Z.to_euclidean_division_equations; lia.
  - intros i j Hi Hj. change (s_inodes_count (m_super_block ext2_sample)) with 32 in *. change (inodes_per_group ext2_sample) with 32.
    rewrite !Z.div_small by lia. done.
Qed.

Definition ext2_inode_11 : Ext2FSInode := ext2_inode_new <| m_index := 11 |>.

Lemma ext2_inode_11_file : is_file ext2_sample ext2_inode_11 [] [].
Proof. destruct ext2_inode_new_file as [[] ? ? ? ?]. split; [split; try assumption; cbn; lia|..]; assumption. Qed.

Lemma ext2_inode_11_typed : inode_typed (m_raw_inode ext2_inode_11).
Proof.
  split; [| |split; [done|]|split; [done|]]; apply Forall_forall; intros x Hx; cbn in Hx; rewrite ?elem_of_cons, ?elem_of_nil in Hx;
    unfold is_u32 in *; intuition (subst; int_lia).
Qed.

Lemma Ext2FSInode_survives_reload_witness :
  exists fs1 inode1 fs2 inode2, flush_metadata ext2_sample ext2_inode_11 = Ret (fs1, inode1) /\
    get_inode (uncache_inode fs1 11) 11 = Ret (Some inode2, fs2) /\ m_raw_inode inode2 = m_raw_inode ext2_inode_11 /\ is_file fs2 inode2 [] [].
Proof.
  destruct (Ext2FSInode_survives_reload ext2_sample ext2_inode_11 [] []) as (fs1 & inode1 & fs2 & inode2 & H1 & _ & H2 & _ & H3 & H4 & _).
  - exact ext2_inode_11_file.
  - exact ext2_inode_11_typed.
  - exact ext2_sample_table.
  - split; [right; by vm_compute|cbn; lia].
  - by vm_compute.
  - intros b Hb. by apply elem_of_nil in Hb.
  - exists fs1, inode1, fs2, inode2. split; [exact H1|]. split; [exact H2|]. split; [exact H3|exact H4].
Defined.
